(* ===== verification/_CoqProject ===== *)
-Q . S2P
Prelude.v
Errno.v
Value.v
Utils.v
Base64.v
Parcel.v
NumText.v
ConcurrentMap.v
Pool.v
TaskQueue.v
ExecutorPool.v
ExecutorPoolStop.v
TaskProcessor.v
PoolSequence.v
RefBase.v
RefClient.v
Env.v
FileLock.v
LockSystem.v
Xml.v
Store.v
XmlUtils.v
DbAdapter.v
Base.v
Impl.v
Enhance.v
Helper.v
Handle.v
NdkMem.v
NdkValue.v
NdkOption.v
Ndk.v
NdkClient.v
Cj.v
CjClient.v
JsValue.v
Js.v
JsSendable.v
JsStorage.v
JsClient.v
JsStorageClient.v
JsSystem.v
JsShared.v
JsModules.v
EtsValue.v
Ets.v
EtsClient.v
System.v
Lane.v
Dispatch.v
Runtime.v
RuntimeClient.v
JsSystemClient.v
Process.v
ProcessCache.v
