(* ===== verification/Prelude.v ===== *)
(** * Verified models of the preferences store (distributeddatamgr_preferences)

    ** The program

    The repository is a key-value store for application settings.  An
    application asks the factory [PreferencesHelper] for the object of a path
    and gets one of two implementations of [Preferences]: [PreferencesImpl]
    keeps all entries in memory and writes them to an XML file when it is
    flushed; [PreferencesEnhanceImpl] keeps every entry as a parcel in a
    key-value database and caches large values.  Both derive from
    [PreferencesBase], which registers observers and has the typed accessors.
    The XML file is written with a backup and recovered from it; system calls
    are guarded by an advisory file lock; faults are reported to the system's
    event service.

    ** The files of the development

    - [Prelude]: machine integers and their wrap-around, little-endian bytes,
      strings as bytes and as C strings, the state monad [ST], the outcomes of
      code that can throw or be undefined and the monad [SO] of both, tactics
      and hint databases.
    - [Errno]: [preferences_errno.h].
    - [Value]: [preferences_value.h] and [preferences_value.cpp].  A [float] or
      [double] is the integer of its bits.
    - [Utils]: [preferences_utils.cpp], [preferences_anonymous.h], the path
      abbreviation of [preferences_file_operation.h], [Options].
    - [Base64]: [base64_helper.cpp], with its tables.
    - [Parcel]: [preferences_value_parcel.cpp]; a buffer is a list of bytes and
      an access outside it is the outcome [Undef].
    - [NumText]: the standard library's conversions between numbers and texts
      that the XML code uses ([std::to_string], stream extraction).
    - [ConcurrentMap]: [concurrent_map.h]; every operation holds the lock and
      is one step.
    - [Pool]: [pool.h], at the level of the linked nodes.
    - [TaskQueue]: [priority_queue.h], and the tasks of [executor.h] and
      [executor_pool.h]; an operation that waits on a condition variable
      returns that it waits.
    - [ExecutorPool]: [executor.h] and [executor_pool.h] as a transition system
      over the two: threads with a program counter, calls in flight, time-outs
      and the clock, interleaved freely at the points where a mutex is taken.
      An idle executor waits until it is bound or its time is over, also when
      it is being stopped.
    - [ExecutorPoolStop]: the destructor of the pool, with [Stop] of an executor
      and [Clean] of the pool, as one more thread of [ExecutorPool].
    - [PoolSequence]: a pool of one executor as a machine that holds tasks and
      runs one of them at a time.
    - [TaskProcessor]: the registry of task processors and its two processors
      ([preferences_task_processor.cpp] and the files of the processors); what
      the library gives its pools to do.
    - [RefBase]: [refbase.h] and [refbase.cpp], the counted references that the
      library brings along for platforms without [c_utils].
    - [RefClient]: programs with variables of the two kinds of pointers.
    - [Env]: the environment of the process: files, directories, [errno], an
      oracle [fate] that makes any system call fail or cuts a write short, the
      event service, the observers of the application; the calls of
      [preferences_file_operation.h] and the reporter
      [preferences_dfx_adapter.cpp].
    - [FileLock]: [preferences_file_lock.cpp], a section alone.
    - [LockSystem]: [preferences_file_lock.cpp] as a transition system: the
      sections of several threads and processes; the locks of the kernel are
      the class [AdvisoryLocks] with the laws of [fcntl].
    - [Xml]: the conversion part of [preferences_xml_utils.cpp]: values to
      calls on the XML writer, nodes to elements to values.  libxml2 is the
      class [LibXml]; its law says that the text of a document of valid names,
      legal texts and attributes with names of their own, in which each element
      has either one text or elements, parses to that document.
    - [Store]: the interfaces between components: [XmlStore] (what an object
      asks of the XML module), [SafeBlockQueue] (the bounded queue of c_utils),
      [KvDb] (what an enhanced object asks of the database adapter), each with
      its laws and with an instance that shows the laws can hold.
    - [XmlUtils]: the file part of [preferences_xml_utils.cpp]; it is an
      instance of [XmlStore] and satisfies its laws.
    - [DbAdapter]: [preferences_db_adapter.cpp] over the class [Grd] of the
      database library, with the laws [GrdLaws]; it is an instance of [KvDb].
    - [Base]: [preferences_base.cpp].
    - [Impl]: [preferences_impl.cpp].
    - [Enhance]: [preferences_enhance_impl.cpp].
    - [Helper]: [preferences_helper.cpp].
    - [Handle]: what the bindings share: the context of the application, a call
      through a pointer to an object of the factory, the owners of observers.
    - [NdkMem]: the memory of the C interface, where an allocation may fail and
      a dangling pointer is the outcome [Undef]; the codes, identifiers and
      conversions of [oh_convertor.cpp]; what a call adds to the memory
      ([made]) and takes away.
    - [NdkValue]: [oh_preferences_value.cpp], and a caller that sets one of the
      eleven types, reads what it is given and frees it.
    - [NdkOption]: [oh_preferences_option.cpp].
    - [Ndk]: [oh_preferences.cpp] over the factory.
    - [NdkClient]: a handle to an object of the factory, the pairs in memory,
      and what a client of the C interface sees.
    - [Cj]: the Cangjie interface ([preferences_ffi.cpp], [preferences_impl.cpp]
      and [preferences_utils.cpp] of [frameworks/cj]) over the factory and the
      same memory.
    - [CjClient]: an instance of it, and what its client sees.
    - [JsValue]: the values of the interface for JavaScript
      ([js_common_utils.cpp]); the engine is the class [Napi].
    - [Js]: plain objects of JavaScript ([napi_preferences.cpp],
      [napi_preferences_helper.cpp], [napi_async_call.cpp], [js_observer.cpp],
      [uv_queue.cpp], [js_ability.cpp], [preferences_error.cpp]).
    - [JsSendable]: objects that environments share ([sendable_preferences]).
    - [JsStorage]: the older storage interface ([storage]).
    - [JsSystem]: the storage of the system ([system_storage]).
    - [JsClient], [JsStorageClient], [JsSystemClient], [JsShared]: what programs
      in JavaScript see of these.
    - [JsModules]: the names that the modules for JavaScript export and the
      functions behind them.
    - [EtsValue]: the values of the interface for ArkTS
      ([taihe_common_utils.cpp], [ani_common_utils.cpp]).
    - [Ets]: [preferences_proxy.cpp], [ohos.data.preferences.impl.cpp],
      [taihe_preferences_observer.cpp] and [ani_ability.cpp] of
      [frameworks/ets/taihe].
    - [EtsClient]: what a program in ArkTS sees of it.
    - [System]: an object of [Impl] over the module [XmlUtils].
    - [Lane]: a pool of one executor with the closures that its tasks stand for.
    - [Dispatch]: clients of the two pools of the library: the class [Client] is
      what has a state, is called and posts closures, which are handed over as
      [StartLoadFromDisk], [Flush] and [ExecuteNotifyChange] do.
    - [Runtime], [RuntimeClient]: an object of [Impl] as a client of them.
    - [Process], [ProcessCache]: the factory with all of its objects, over the
      file and over the database, as a client of them, and the pointers to the
      objects that the application, the cache and the closures have.

    ** How state and operations correspond

    The fields of a class are a record ([PreferencesImpl], [Enhance], [Base],
    [Db], [Helper]); a method is a definition of the same name in [ST] or
    [SO], with [Enh_], [Db_] or [Xml_] in front where two classes share the
    name.  A method body under a mutex is one step.  Closures given to an
    executor are values of a type of tasks ([Task], [ETask]) kept in the
    object; running one is an operation of its own ([run_Flush],
    [run_Notify], [LoadFromDisk], [run_etask]), so that theorems can place
    them anywhere between the calls of the application; one that has a weak
    pointer only ([run_Flush], [run_ObjectUsage]) is told whether its object is
    still alive, and does nothing when it is not; in [Dispatch] and what
    follows it, they run when the pools run them.  The factory keeps
    objects in a store and references in its cache, so that the application
    and the cache share them.

    ** What the theorems show

    - The object over the XML file behaves as a finite map
      ([Impl_refines_map]); what it flushes is what a new object loads
      ([FlushSync_durable], and [flush_survives_restart] down to the file
      system); observers are told of exactly the keys that were written
      ([NotifyPreferencesObserver_exact]); it never holds an entry beyond the
      limits of keys and values ([contents_within_limits]).
    - The XML module: saving and loading is the identity on maps the format
      represents ([xml_save_load]); one failing system call during a save
      leaves the old or the new text ([SaveXmlFile_atomic]); an unreadable file
      is recovered from its backup ([XmlReadFile_restores]).
    - The object over the database behaves as a finite map while no other
      process writes ([Enhance_refines_map]), over an adapter that is a
      dictionary ([Db_Put_Get]) and parcels that round-trip
      ([parcel_roundtrip]).
    - The factory: the cache is sound in every reachable state
      ([helper_cache_sound]), also while the objects are called and their
      closures run ([process_cache_sound]), a path has one object
      ([GetPreferences_same_object]), the formats exclude each other
      ([storage_exclusive]), deletion is complete
      ([DeletePreferences_complete]).
    - The executors' containers: the pool's linked lists implement two lists
      ([Pool_refines_lists]) and can be emptied ([Pool_Clean_empties]); the
      task queue hands out the earliest due task ([Pop_earliest_first]) and a
      periodic task runs as often as it was scheduled for ([periodic_runs]).
    - The executor pool as the library creates it, with one executor: every
      reachable state with a task has a scheduler bound to it
      ([delayed_task_has_scheduler]), which runs a due task within six of its
      steps ([due_task_runs]), wherever in the queue it is after six for each
      task before it ([queued_task_runs]); the pool is a machine that runs one
      task after another, none before its time ([pool_refines_sequence]), and
      none twice that does not repeat ([closures_run_once]); with two executors a task can be stranded
      ([Execute_can_strand_task]).  The destructor returns when no task repeats
      and no executor is running out of time ([pool_destroyed]), which holds of
      the pools of the library ([library_pool_destroyed]), and otherwise may
      wait for ever ([destructor_can_hang]).
    - Objects on the executors: a closure that an object posts is run on it
      ([posted_closure_runs] for an object alone, [process_closure_runs] with
      the factory and all other objects around it, and with what a closure does
      that outlives its object); so a new object gets loaded
      ([object_loads], [opened_object_is_loaded]) and a flush reaches the file
      ([flush_reaches_file]), in a number of steps of the pool that is given.
    - Counted references: on one thread, and with the operations that it names,
      objects live exactly as long as the pointers to them
      ([objects_live_with_pointers]); this fails for the constructor from a bare
      pointer, which the observers of other processes use
      ([raw_constructor_dangles]), for a weak pointer assigned to a strong one
      ([assigning_a_weak_pointer_leaks]), for moved and assigned objects
      ([moved_object_deletes_the_old], [assigned_object_leaks]) and for two last
      releases at the same time ([last_releases_race]).
    - The C interface: through a handle the typed functions are those of a map
      of C strings ([ndk_refines_map]), a value object keeps one typed value
      ([value_object_typed]), all pairs can be read and given back
      ([GetAll_pairs]), all without a leak and under failing allocations; and
      the errors of the interface ([GetAll_first_failure_is_ok],
      [GetValue_reads], [observers_of_a_handle],
      [OnChange_delivers_then_undefined]).
    - The Cangjie interface: a value that is handed out can be read and given
      back, or nothing is left of it ([cj_value_roundtrip]); all values are
      handed out or none ([cj_GetAll_all_or_nothing]); what is put is got
      ([cj_put_get]); an observer can be switched on and off
      ([cj_observer_on_off]); empty strings are lost ([cj_empty_strings]).
    - The interface for JavaScript: the seven synchronous methods of a plain
      object are those of a map ([js_refines_map]), values come back ([js_roundtrip]), failures are
      reported as the code says ([js_failures]), observers are switched on and
      off ([js_observer_on_off]); a sendable object answers as a plain one
      ([sendable_like_plain]) and keeps the observers of the environments apart
      until the object itself is destroyed, which takes those of all of them
      away ([environments_apart]); the older storage and the storage of the
      system are maps within their limits ([storage_refines_map],
      [system_storage_refines_map], the latter down to the file).
    - The modules for JavaScript: no name is exported twice
      ([names_distinct]), each method has its two forms
      ([two_forms_of_methods]) and the names reach the calls that are meant
      ([names_reach_calls]).
    - The interface for ArkTS: the calls on entries are those of a map
      ([ets_refines_map]), values come
      back ([ets_value_roundtrip]), and some entries of the store end the program
      ([native_int_is_fatal], [deleted_key_is_fatal]).
    - The file lock: sections of one process and file exclude each other
      ([sections_of_a_process_exclude]) and end ([section_ends]); those of
      processes with one thread each exclude each other as readers and writers
      ([sections_of_processes_exclude]), and in general they do not
      ([lock_does_not_exclude]).
    - Base64, the concurrent map, the reporter, the observer registries, the
      checks of keys and paths: their functional behaviour.
    - Where the code does less than it means to, a theorem states what it does
      ([FlushSync_retry_writes_nothing], [slow_load_discards_put],
      [SaveXmlFile_loses_data], [SaveXmlFile_short_write], [Enh_Get_stale],
      [Db_Init_repaired_not_open], [double_precision_lost], ...).

    ** Bounds

    Recursion is on lists, on the number of lock attempts (50, as in the
    source) and on the number of repair attempts.  The two loops of Base64
    have fuel, the length of their input: they consume at least one element
    per round, and their theorems exclude the outcome [NoFuel].  The walks of
    the pool have the number of its nodes as fuel, and emptying the pool takes
    its fuel from the caller: as many rounds as there are executors are enough
    ([Pool_Clean_empties]).

    ** What is not modelled

    Not modelled are the time-out of waiting for a load (waiting either sees
    the load finished or gives up; in [Runtime] and [Process] a waiting call is
    placed where its wait ends), the destructor of an object over the database,
    which closes it, in [Process], the sleeping between attempts at a lock, log
    output, the names of threads, the engine's own registration of modules, the
    branches for Windows and macOS, and the stand-ins of system services for
    other platforms, which do nothing.  A directory is only a name that exists:
    no call of the code creates one, and [remove] of a directory is not
    modelled.

    ** Bounds of the composition

    The library makes both of its pools with one executor, and the composition
    is for such pools; the destructor of a pool of several executors is not
    treated.  What another process does to the file or the database is in the
    oracle of [Env] and in the laws of the database, not a process of its own;
    only the file lock is treated with several processes. *)

From stdpp Require Export base gmap strings list fin_maps sets.
From Stdlib Require Export ZArith Lia.
From Stdlib Require Export Ascii.
From Stdlib Require String.

#[global] Open Scope Z_scope.

(** ** Scope and hint database of the development *)

Declare Scope prefs_scope.
Delimit Scope prefs_scope with prefs.
#[global] Open Scope prefs_scope.

Create HintDb prefs.
Create Rewrite HintDb prefs_rw.

(** ** Machine integers

    A [w]-bit integer is a [Z]; [wrap_u]/[wrap_s] are the conversions to the
    unsigned and the two's complement signed type of that width. *)

Definition wrap_u (w : Z) (z : Z) : Z := z mod 2 ^ w.

Definition wrap_s (w : Z) (z : Z) : Z :=
  (z + 2 ^ (w - 1)) mod 2 ^ w - 2 ^ (w - 1).

Definition in_u (w : Z) (z : Z) : bool := (0 <=? z) && (z <? 2 ^ w).

Definition in_s (w : Z) (z : Z) : bool :=
  (- 2 ^ (w - 1) <=? z) && (z <? 2 ^ (w - 1)).

Abbreviation is_u8 := (in_u 8).
Abbreviation is_u32 := (in_u 32).
Abbreviation is_u64 := (in_u 64).
Abbreviation is_i32 := (in_s 32).
Abbreviation is_i64 := (in_s 64).

Lemma in_u_spec w z : in_u w z = true <-> 0 <= z < 2 ^ w.
Proof. unfold in_u. rewrite andb_true_iff, Z.leb_le, Z.ltb_lt. tauto. Qed.

Lemma in_s_spec w z : in_s w z = true <-> - 2 ^ (w - 1) <= z < 2 ^ (w - 1).
Proof. unfold in_s. rewrite andb_true_iff, Z.leb_le, Z.ltb_lt. tauto. Qed.

Lemma pow2_double w : 0 < w -> 2 ^ w = 2 * 2 ^ (w - 1).
Proof. intros. rewrite <- Z.pow_succ_r by lia. f_equal. lia. Qed.

Lemma wrap_u_in_u w z : 0 <= w -> in_u w (wrap_u w z) = true.
Proof. intros. apply in_u_spec. unfold wrap_u. apply Z.mod_pos_bound. lia. Qed.

Lemma wrap_u_id w z : in_u w z = true -> wrap_u w z = z.
Proof. intros H%in_u_spec. unfold wrap_u. by apply Z.mod_small. Qed.

Lemma wrap_s_in_s w z : 0 < w -> in_s w (wrap_s w z) = true.
Proof.
  intros. apply in_s_spec. unfold wrap_s.
  pose proof (pow2_double w H).
  pose proof (Z.mod_pos_bound (z + 2 ^ (w - 1)) (2 ^ w) ltac:(lia)). lia.
Qed.

Lemma wrap_s_id w z : 0 < w -> in_s w z = true -> wrap_s w z = z.
Proof.
  intros Hw H%in_s_spec. unfold wrap_s. pose proof (pow2_double w Hw).
  rewrite Z.mod_small; lia.
Qed.

(** Reading back as signed what was stored as unsigned. *)
Lemma wrap_s_wrap_u w z : 0 < w -> in_s w z = true -> wrap_s w (wrap_u w z) = z.
Proof.
  intros Hw H. rewrite <- (wrap_s_id w z Hw H) at 2. unfold wrap_s, wrap_u.
  f_equal. rewrite Zplus_mod_idemp_l. done.
Qed.

(** Narrowing to a signed type what a wider unsigned type held. *)
Lemma wrap_s_wrap_u_wider w w' z : 0 < w <= w' -> in_s w z = true -> wrap_s w (wrap_u w' z) = z.
Proof.
  intros Hw H. rewrite <- (wrap_s_id w z ltac:(lia) H) at 2. unfold wrap_s, wrap_u. f_equal.
  rewrite <- Zplus_mod_idemp_l, Z.mod_mod_divide; [by rewrite Zplus_mod_idemp_l|].
  exists (2 ^ (w' - w)). rewrite <- Z.pow_add_r by lia. f_equal. lia.
Qed.

#[export] Hint Resolve wrap_u_in_u wrap_s_in_s : prefs.

(** ** Little-endian object representations *)

Fixpoint le_encode (n : nat) (z : Z) : list Z :=
  match n with
  | O => []
  | S n' => z mod 256 :: le_encode n' (z / 256)
  end.

Definition le_decode (l : list Z) : Z := foldr (fun b acc => b + 256 * acc) 0 l.

Definition bytes_ok (l : list Z) : bool := forallb (in_u 8) l.

Lemma length_le_encode n z : length (le_encode n z) = n.
Proof. revert z. induction n; intros; simpl; auto. Qed.

Lemma le_encode_bytes_ok n z : bytes_ok (le_encode n z) = true.
Proof.
  revert z. induction n as [|n IH]; intros z; [done|]. unfold bytes_ok in *.
  cbn [le_encode forallb]. rewrite IH, andb_true_r. apply in_u_spec.
  apply Z.mod_pos_bound. lia.
Qed.

Lemma le_decode_encode n z :
  le_decode (le_encode n z) = wrap_u (8 * Z.of_nat n) z.
Proof.
  revert z. induction n as [|n IH]; intros z.
  - unfold wrap_u. by rewrite Z.mod_1_r.
  - cbn [le_encode le_decode foldr]. fold (le_decode (le_encode n (z / 256))).
    rewrite IH. unfold wrap_u.
    replace (8 * Z.of_nat (S n)) with (8 + 8 * Z.of_nat n) by lia.
    rewrite Z.pow_add_r by lia. change (2 ^ 8) with 256.
    assert (0 < 2 ^ (8 * Z.of_nat n)) by (apply Z.pow_pos_nonneg; lia).
    by rewrite Z.rem_mul_r by lia.
Qed.

Lemma le_decode_encode_u n z :
  in_u (8 * Z.of_nat n) z = true -> le_decode (le_encode n z) = z.
Proof. intros. rewrite le_decode_encode. by apply wrap_u_id. Qed.

Lemma le_decode_encode_s n z :
  (0 < n)%nat -> in_s (8 * Z.of_nat n) z = true ->
  wrap_s (8 * Z.of_nat n) (le_decode (le_encode n z)) = z.
Proof. intros. rewrite le_decode_encode. apply wrap_s_wrap_u; [lia|done]. Qed.

(** A value stored in [n] bytes does not depend on the bits above. *)
Lemma le_encode_wrap_u n z : le_encode n (wrap_u (8 * Z.of_nat n) z) = le_encode n z.
Proof.
  revert z. induction n as [|n IH]; intros z; [done|].
  cbn [le_encode]. unfold wrap_u.
  replace (8 * Z.of_nat (S n)) with (8 + 8 * Z.of_nat n) by lia.
  rewrite Z.pow_add_r by lia. change (2 ^ 8) with 256.
  assert (0 < 2 ^ (8 * Z.of_nat n)) by (apply Z.pow_pos_nonneg; lia).
  rewrite Z.rem_mul_r by lia. f_equal.
  - rewrite (Z.mul_comm 256), Z_mod_plus_full. by apply Z.mod_mod.
  - rewrite <- (IH (z / 256)). f_equal. unfold wrap_u.
    rewrite (Z.mul_comm 256), Z.div_add by lia.
    rewrite (Z.div_small (z mod 256)) by (apply Z.mod_pos_bound; lia). lia.
Qed.

#[export] Hint Rewrite length_le_encode : prefs_rw.

(** ** Strings as byte sequences

    [std::string] is a sequence of [char]; a [char] is converted to its code
    when the program looks at it as a [uint8_t]. *)

Definition code (a : ascii) : Z := Z.of_N (N_of_ascii a).
Definition char_of (z : Z) : ascii := ascii_of_N (Z.to_N z).

Lemma char_of_code a : char_of (code a) = a.
Proof. unfold char_of, code. rewrite N2Z.id. apply ascii_N_embedding. Qed.

Lemma code_u8 a : in_u 8 (code a) = true.
Proof.
  apply in_u_spec. unfold code. pose proof (N_ascii_bounded a).
  change (2 ^ 8) with (Z.of_N 256). lia.
Qed.

Lemma code_char_of z : in_u 8 z = true -> code (char_of z) = z.
Proof.
  intros H%in_u_spec. unfold code, char_of. change (2 ^ 8) with 256 in H.
  rewrite N_ascii_embedding by lia. lia.
Qed.

#[export] Hint Resolve code_u8 : prefs.

Definition bytes_of_string (s : string) : list Z := code <$> String.list_ascii_of_string s.
Definition string_of_bytes (l : list Z) : string := String.string_of_list_ascii (char_of <$> l).

Lemma string_of_bytes_of_string s : string_of_bytes (bytes_of_string s) = s.
Proof.
  unfold string_of_bytes, bytes_of_string. rewrite <- list_fmap_compose.
  replace ((char_of ∘ code) <$> String.list_ascii_of_string s) with (String.list_ascii_of_string s).
  - apply String.string_of_list_ascii_of_string.
  - rewrite <- (list_fmap_id (String.list_ascii_of_string s)) at 1.
    apply list_fmap_ext. intros. symmetry. apply char_of_code.
Qed.

Lemma length_bytes_of_string s : length (bytes_of_string s) = String.length s.
Proof.
  unfold bytes_of_string. rewrite length_fmap.
  induction s; simpl; auto.
Qed.

Lemma bytes_of_string_ok s : bytes_ok (bytes_of_string s) = true.
Proof.
  apply forallb_forall. intros x Hx%list_elem_of_In.
  apply list_elem_of_fmap in Hx as (a & -> & _). apply code_u8.
Qed.

#[export] Hint Rewrite length_bytes_of_string string_of_bytes_of_string : prefs_rw.

Lemma length_string_of_list l : String.length (String.string_of_list_ascii l) = length l.
Proof. induction l; cbn; auto. Qed.

Lemma length_list_of_string s : length (String.list_ascii_of_string s) = String.length s.
Proof. induction s; cbn; auto. Qed.

(** [std::string::size], as a mathematical integer. *)
Definition slen (s : string) : Z := Z.of_nat (String.length s).

(** The C string that [s.c_str()] denotes: it ends at the first NUL. *)
Fixpoint c_str (s : string) : string :=
  match s with
  | EmptyString => EmptyString
  | String a s' => if decide (a = "000"%char) then EmptyString else String a (c_str s')
  end.

Definition no_nul (s : string) : bool :=
  forallb (fun a => negb (bool_decide (a = "000"%char))) (String.list_ascii_of_string s).

Lemma c_str_no_nul s : no_nul s = true -> c_str s = s.
Proof.
  unfold no_nul. induction s as [|a s IH]; [done|]. cbn [String.list_ascii_of_string forallb c_str].
  intros [Ha Hs]%andb_true_iff. apply negb_true_iff, bool_decide_eq_false in Ha.
  rewrite decide_False by done. f_equal. auto.
Qed.

Lemma c_str_idemp s : c_str (c_str s) = c_str s.
Proof.
  induction s as [|a s IH]; [done|]. cbn [c_str]. case_decide as Ha; [done|].
  cbn [c_str]. rewrite decide_False by done. by f_equal.
Qed.

(** [std::string::substr(pos, n)]: throws [std::out_of_range] ([None]) when
    [pos > size()]. *)
Definition substr (s : string) (pos n : nat) : option string :=
  if (pos <=? String.length s)%nat then Some (String.substring pos n s) else None.

(** ** Association-list lookups of [std::map] initialiser tables *)

Fixpoint table_find {A} (k : Z) (t : list (Z * A)) : option A :=
  match t with
  | [] => None
  | (k', v) :: t' => if k =? k' then Some v else table_find k t'
  end.

(** ** A state monad, for the components that thread a world *)

Definition ST (S A : Type) : Type := S -> A * S.

Section state_monad.
Context {S : Type}.

#[export] Instance st_ret : MRet (ST S) := fun A a s => (a, s).
#[export] Instance st_bind : MBind (ST S) :=
  fun A B k m s => let '(a, s') := m s in k a s'.

Definition get : ST S S := fun s => (s, s).
Definition put (s : S) : ST S unit := fun _ => (tt, s).
Definition modify (f : S -> S) : ST S unit := fun s => (tt, f s).
Definition gets {A} (f : S -> A) : ST S A := fun s => (f s, s).

Lemma st_bind_ret {A B} (a : A) (k : A -> ST S B) s : (mret a ≫= k) s = k a s.
Proof. done. Qed.

Lemma st_bind_eq {A B} (m : ST S A) (k : A -> ST S B) s a s' :
  m s = (a, s') -> (m ≫= k) s = k a s'.
Proof. intros H. unfold mbind, st_bind. by rewrite H. Qed.
End state_monad.

#[export] Hint Rewrite @st_bind_ret : prefs_rw.

(** ** Outcomes of C++ code that can go wrong

    [Thrown]: a standard-library exception leaves the function; [Undef]: the
    code reaches undefined behaviour (an access outside an object, a read of
    an uninitialised variable); [NoFuel]: the bound of the model was not
    enough, which a termination theorem excludes. *)

Inductive outcome (A : Type) : Type :=
  | Done (a : A)
  | Thrown
  | Undef
  | NoFuel.
Arguments Done {A} a.
Arguments Thrown {A}.
Arguments Undef {A}.
Arguments NoFuel {A}.

#[export] Instance outcome_ret : MRet outcome := @Done.
#[export] Instance outcome_bind : MBind outcome := fun A B k m =>
  match m with
  | Done a => k a
  | Thrown => Thrown
  | Undef => Undef
  | NoFuel => NoFuel
  end.

#[export] Instance outcome_eq_dec `{EqDecision A} : EqDecision (outcome A).
Proof. solve_decision. Defined.

(** Partial correctness that excludes running out of fuel: [m] throws, is
    undefined, or gives a result in [Q]. *)
Definition yields {A} (m : outcome A) (Q : A -> Prop) : Prop :=
  match m with Done a => Q a | Thrown | Undef => True | NoFuel => False end.

Lemma yields_bind {A B} (m : outcome A) (k : A -> outcome B) P Q :
  yields m P -> (forall a, P a -> yields (k a) Q) -> yields (m ≫= k) Q.
Proof. destruct m; cbn; auto. Qed.

Lemma yields_mono {A} (m : outcome A) P Q :
  yields m P -> (forall a, P a -> Q a) -> yields m Q.
Proof. destruct m; cbn; auto. Qed.

(** ** State and outcome, for stateful code that can go wrong *)

Definition SO (S A : Type) : Type := S -> outcome (A * S).

Section state_outcome.
Context {S : Type}.

#[export] Instance so_ret : MRet (SO S) := fun A a s => Done (a, s).
#[export] Instance so_bind : MBind (SO S) :=
  fun A B k m s => match m s with
    | Done (a, s') => k a s' | Thrown => Thrown | Undef => Undef | NoFuel => NoFuel
    end.

(** A computation that only threads the state, and one that only may fail. *)
Definition run_st {A} (m : ST S A) : SO S A := fun s => Done (m s).
Definition run_out {A} (m : outcome A) : SO S A := fun s => a ← m; Done (a, s).

Lemma so_bind_ret {A B} (a : A) (k : A -> SO S B) s : (mret a ≫= k) s = k a s.
Proof. done. Qed.

Lemma so_bind_st {A B} (m : ST S A) (k : A -> SO S B) s : (run_st m ≫= k) s = k (fst (m s)) (snd (m s)).
Proof. unfold mbind, so_bind, run_st. by destruct (m s). Qed.

Lemma so_bind_Done {A B} (m : SO S A) (k : A -> SO S B) s a s' :
  m s = Done (a, s') -> (m ≫= k) s = k a s'.
Proof. intros H. unfold mbind, so_bind. by rewrite H. Qed.

Lemma so_bind_out {A B} (m : outcome A) (k : A -> SO S B) s a :
  m = Done a -> (run_out m ≫= k) s = k a s.
Proof. by intros ->. Qed.

(** What holds after a computation that ends. *)
Definition leads {A} (P : S -> Prop) (m : SO S A) (Q : A -> S -> Prop) : Prop :=
  forall s a s', P s -> m s = Done (a, s') -> Q a s'.

Lemma leads_bind {A B} P Q (m : SO S A) (k : A -> SO S B) R :
  leads P m Q -> (forall a, leads (Q a) (k a) R) -> leads P (m ≫= k) R.
Proof.
  intros Hm Hk s b s' Hs E. unfold mbind, so_bind in E. destruct (m s) as [[a s1]| | |] eqn:Em; try discriminate E.
  exact (Hk a s1 b s' (Hm s a s1 Hs Em) E).
Qed.

Lemma leads_ret {A} (P : S -> Prop) (a : A) (Q : A -> S -> Prop) : (forall s, P s -> Q a s) -> leads P (mret a) Q.
Proof. intros H s x s' Hs [= <- <-]. by apply H. Qed.

Lemma leads_st {A} (P : S -> Prop) (m : ST S A) (Q : A -> S -> Prop) : (forall s, P s -> Q (m s).1 (m s).2) -> leads P (run_st m) Q.
Proof. intros H s x s' Hs [= E]. specialize (H s Hs). by rewrite E in H. Qed.

Lemma leads_weaken {A} (P P' : S -> Prop) (m : SO S A) (Q Q' : A -> S -> Prop) :
  leads P m Q -> (forall s, P' s -> P s) -> (forall a s, Q a s -> Q' a s) -> leads P' m Q'.
Proof. intros H HP HQ s a s' Hs E. exact (HQ _ _ (H _ _ _ (HP _ Hs) E)). Qed.
End state_outcome.

(** [std::vector::at] / [std::string::at] and the unchecked [operator[]]. *)
Definition at_ {A} (l : list A) (i : Z) : outcome A :=
  match l !! Z.to_nat i with Some x => Done x | None => Thrown end.

Definition index_ {A} (l : list A) (i : Z) : outcome A :=
  match l !! Z.to_nat i with Some x => Done x | None => Undef end.

(** Reading at the positions that follow a known prefix. *)
Section at_prefix.
Context {A : Type} (pre : list A).
#[local] Abbreviation n := (Z.of_nat (length pre)).

Lemma at_app l (k : nat) : at_ (pre ++ l) (n + Z.of_nat k) = at_ l (Z.of_nat k).
Proof.
  unfold at_. rewrite <- Nat2Z.inj_add, !Nat2Z.id.
  rewrite lookup_app_r by lia. by rewrite Nat.add_comm, Nat.add_sub.
Qed.

Lemma at_0 x l : at_ (pre ++ x :: l) n = Done x.
Proof. unfold at_. by rewrite Nat2Z.id, list_lookup_middle. Qed.

Lemma at_1 x0 x1 l : at_ (pre ++ x0 :: x1 :: l) (n + 1) = Done x1.
Proof. exact (at_app _ 1). Qed.

Lemma at_2 x0 x1 x2 l : at_ (pre ++ x0 :: x1 :: x2 :: l) (n + 1 + 1) = Done x2.
Proof. rewrite <- Z.add_assoc. exact (at_app _ 2). Qed.

Lemma at_3 x0 x1 x2 x3 l : at_ (pre ++ x0 :: x1 :: x2 :: x3 :: l) (n + 1 + 1 + 1) = Done x3.
Proof. rewrite <- !Z.add_assoc. exact (at_app _ 3). Qed.
End at_prefix.

Lemma bind_Done {A B} (a : A) (k : A -> outcome B) : (Done a ≫= k) = k a.
Proof. done. Qed.
#[export] Hint Rewrite @bind_Done : prefs_rw.

Lemma bind_eq {A B} (m : outcome A) (a : A) (k : A -> outcome B) :
  m = Done a -> (m ≫= k) = k a.
Proof. by intros ->. Qed.

(** Disjoint bit fields add up. *)
Lemma lor_shiftl_add x y k :
  0 <= k -> 0 <= y < 2 ^ k -> Z.lor (Z.shiftl x k) y = x * 2 ^ k + y.
Proof.
  intros Hk Hy. rewrite Z.shiftl_mul_pow2 by done.
  assert (Hd : Z.land (x * 2 ^ k) y = 0).
  { apply Z.bits_inj'. intros n Hn. rewrite Z.land_spec, Z.bits_0.
    destruct (Z.lt_ge_cases n k) as [H|H]; [by rewrite Z.mul_pow2_bits_low|].
    apply andb_false_intro2. rewrite <- (Z.mod_small y (2 ^ k)) by done.
    by apply Z.mod_pow2_bits_high. }
  by rewrite <- Z.lxor_lor, <- Z.add_nocarry_lxor.
Qed.

Lemma land_ones_mod x k : 0 <= k -> Z.land x (2 ^ k - 1) = x mod 2 ^ k.
Proof. intros. rewrite <- Z.land_ones by done. by rewrite Z.ones_equiv, <- Z.sub_1_r. Qed.

(** ** Tactics *)

(** Split boolean conjunctions in the hypotheses. *)
Ltac bools :=
  repeat match goal with
  | H : _ && _ = true |- _ => apply andb_true_iff in H as [? ?]
  | H : negb _ = true |- _ => apply negb_true_iff in H
  | H : negb _ = false |- _ => apply negb_false_iff in H
  | H : bool_decide _ = true |- _ => apply bool_decide_eq_true in H
  | H : bool_decide _ = false |- _ => apply bool_decide_eq_false in H
  | H : (_ =? _) = true |- _ => apply Z.eqb_eq in H
  | H : (_ =? _) = false |- _ => apply Z.eqb_neq in H
  | H : (_ <? _) = true |- _ => apply Z.ltb_lt in H
  | H : (_ <? _) = false |- _ => apply Z.ltb_ge in H
  | H : (_ <=? _) = true |- _ => apply Z.leb_le in H
  | H : (_ <=? _) = false |- _ => apply Z.leb_gt in H
  end.

(** Case on the scrutinee of the first [if] or [match] of the goal. *)
Ltac case_goal :=
  match goal with
  | |- context [if ?b then _ else _] => destruct b eqn:?
  | |- context [match ?x with _ => _ end] => destruct x eqn:?
  end.

(** Case on every [if]/[match] and close the branches that [tac] closes. *)
Ltac cases_by tac := repeat (case_goal; simplify_eq/=; try solve [tac]).

Ltac vm := vm_compute; reflexivity.

(** ** Generic list lemmas *)

(** Induction on lists whose length is a multiple of four. *)
Lemma list4_ind {A} (P : list A -> Prop) :
  P [] -> (forall a b c d l, P l -> P (a :: b :: c :: d :: l)) ->
  forall l, Z.of_nat (length l) mod 4 = 0 -> P l.
Proof.
  intros H0 H4. fix IH 1. intros [|a [|b [|c [|d l]]]] Hl; try done.
  apply H4, IH. cbn [length] in Hl. rewrite !Nat2Z.inj_succ in Hl.
  rewrite <- Hl. replace (Z.succ _) with (Z.of_nat (length l) + 1 * 4) by lia.
  by rewrite Z_mod_plus_full.
Qed.

(** Induction by blocks of three elements. *)
Lemma list3_ind {A} (P : list A -> Prop) :
  P [] -> (forall a, P [a]) -> (forall a b, P [a; b]) ->
  (forall a b c l, P l -> P (a :: b :: c :: l)) -> forall l, P l.
Proof.
  intros H0 H1 H2 H3. fix IH 1. intros [|a [|b [|c l]]];
    [exact H0|exact (H1 a)|exact (H2 a b)|exact (H3 a b c l (IH l))].
Qed.

Lemma forallb_map_id {A} (f : A -> A) (P : A -> bool) (l : list A) :
  (forall x, P x = true -> f x = x) -> forallb P l = true -> map f l = l.
Proof.
  intros Hf. induction l as [|x l IH]; [done|]. cbn [forallb map].
  intros [Hx Hl]%andb_true_iff. f_equal; auto.
Qed.

Lemma list_find_absent {A} (P : A -> bool) l : existsb P l = false -> filter (fun x => P x = true) l = [].
Proof.
  induction l as [|x l IH]; [done|]. cbn [existsb].
  intros [Hx Hl]%orb_false_iff. rewrite filter_cons_False by congruence. auto.
Qed.
