(* ===== verification/Errno.v ===== *)
(** * Error codes and limits

    The constants of [preferences_errno.h] and [preferences_utils.h], with the
    arithmetic of the source. *)

From S2P Require Import Prelude.

(** [preferences_errno.h:24-24] SUBSYS_DISTRIBUTEDDATAMNG *)
Definition SUBSYS_DISTRIBUTEDDATAMNG : Z := 13.

(** [preferences_errno.h:25-25] SUBSYSTEM_BIT_NUM *)
Definition SUBSYSTEM_BIT_NUM : Z := 21.

(** [preferences_errno.h:26-26] MODULE_BIT_NUM *)
Definition MODULE_BIT_NUM : Z := 16.

(** [preferences_errno.h:27-27] MODULE_PREFERENCES *)
Definition MODULE_PREFERENCES : Z := 6.

(** [preferences_errno.h:28-29] DISTRIBUTEDDATAMGR_PREFERENCES_ERR_OFFSET *)
Definition DISTRIBUTEDDATAMGR_PREFERENCES_ERR_OFFSET : Z := Z.lor (Z.shiftl SUBSYS_DISTRIBUTEDDATAMNG SUBSYSTEM_BIT_NUM) (Z.shiftl MODULE_PREFERENCES MODULE_BIT_NUM).

(** [preferences_errno.h:34-34] E_OK *)
Definition E_OK : Z := 0.

(** [preferences_errno.h:39-39] E_BASE *)
Definition E_BASE : Z := DISTRIBUTEDDATAMGR_PREFERENCES_ERR_OFFSET.

(** [preferences_errno.h:44-44] E_NOT_SUPPORTED *)
Definition E_NOT_SUPPORTED : Z := E_BASE + 801.

(** [preferences_errno.h:49-49] E_ERROR *)
Definition E_ERROR : Z := E_BASE.

(** [preferences_errno.h:54-54] E_STALE *)
Definition E_STALE : Z := E_BASE + 1.

(** [preferences_errno.h:59-59] E_INVALID_ARGS *)
Definition E_INVALID_ARGS : Z := E_BASE + 2.

(** [preferences_errno.h:64-64] E_OUT_OF_MEMORY *)
Definition E_OUT_OF_MEMORY : Z := E_BASE + 3.

(** [preferences_errno.h:69-69] E_NOT_PERMIT *)
Definition E_NOT_PERMIT : Z := E_BASE + 4.

(** [preferences_errno.h:74-74] E_KEY_EMPTY *)
Definition E_KEY_EMPTY : Z := E_BASE + 5.

(** [preferences_errno.h:79-79] E_KEY_EXCEED_MAX_LENGTH *)
Definition E_KEY_EXCEED_MAX_LENGTH : Z := E_BASE + 6.

(** [preferences_errno.h:85-85] E_PTR_EXIST_ANOTHER_HOLDER *)
Definition E_PTR_EXIST_ANOTHER_HOLDER : Z := E_BASE + 7.

(** [preferences_errno.h:90-90] E_RELATIVE_PATH *)
Definition E_RELATIVE_PATH : Z := E_BASE + 8.

(** [preferences_errno.h:95-95] E_EMPTY_FILE_PATH *)
Definition E_EMPTY_FILE_PATH : Z := E_BASE + 9.

(** [preferences_errno.h:100-100] E_DELETE_FILE_FAIL *)
Definition E_DELETE_FILE_FAIL : Z := E_BASE + 10.

(** [preferences_errno.h:105-105] E_EMPTY_FILE_NAME *)
Definition E_EMPTY_FILE_NAME : Z := E_BASE + 11.

(** [preferences_errno.h:110-110] E_INVALID_FILE_PATH *)
Definition E_INVALID_FILE_PATH : Z := E_BASE + 12.

(** [preferences_errno.h:115-115] E_PATH_EXCEED_MAX_LENGTH *)
Definition E_PATH_EXCEED_MAX_LENGTH : Z := E_BASE + 13.

(** [preferences_errno.h:120-120] E_VALUE_EXCEED_MAX_LENGTH *)
Definition E_VALUE_EXCEED_MAX_LENGTH : Z := E_BASE + 14.

(** [preferences_errno.h:125-125] E_KEY_EXCEED_LENGTH_LIMIT *)
Definition E_KEY_EXCEED_LENGTH_LIMIT : Z := E_BASE + 15.

(** [preferences_errno.h:130-130] E_VALUE_EXCEED_LENGTH_LIMIT *)
Definition E_VALUE_EXCEED_LENGTH_LIMIT : Z := E_BASE + 16.

(** [preferences_errno.h:135-135] E_DEFAULT_EXCEED_LENGTH_LIMIT *)
Definition E_DEFAULT_EXCEED_LENGTH_LIMIT : Z := E_BASE + 17.

(** [preferences_errno.h:140-140] PERMISSION_DENIED *)
Definition PERMISSION_DENIED : Z := E_BASE + 18.

(** [preferences_errno.h:145-145] E_GET_DATAOBSMGRCLIENT_FAIL *)
Definition E_GET_DATAOBSMGRCLIENT_FAIL : Z := E_BASE + 19.

(** [preferences_errno.h:150-150] E_OBSERVER_RESERVE *)
Definition E_OBSERVER_RESERVE : Z := E_BASE + 20.

(** [preferences_errno.h:155-155] E_ALREADY_CLOSED *)
Definition E_ALREADY_CLOSED : Z := E_BASE + 21.

(** [preferences_errno.h:160-160] E_NO_DATA *)
Definition E_NO_DATA : Z := E_BASE + 22.

(** [preferences_errno.h:165-165] E_XML_RESTORED_FROM_BACKUP_FILE *)
Definition E_XML_RESTORED_FROM_BACKUP_FILE : Z := E_BASE + 23.

(** [preferences_errno.h:170-170] E_OPERAT_IS_LOCKED *)
Definition E_OPERAT_IS_LOCKED : Z := E_BASE + 24.

(** [preferences_errno.h:175-175] E_OPERAT_IS_CROSS_PROESS *)
Definition E_OPERAT_IS_CROSS_PROESS : Z := E_BASE + 25.

(** [preferences_errno.h:180-180] E_SUBSCRIBE_FAILED *)
Definition E_SUBSCRIBE_FAILED : Z := E_BASE + 26.

(** [preferences_errno.h:185-185] E_OBJECT_NOT_ACTIVE *)
Definition E_OBJECT_NOT_ACTIVE : Z := E_BASE + 27.

(** [preferences_utils.h:30-30] MAX_KEY_LENGTH *)
Definition MAX_KEY_LENGTH : Z := 1024.

(** [preferences_utils.h:34-34] MAX_VALUE_LENGTH *)
Definition MAX_VALUE_LENGTH : Z := 16 * 1024 * 1024.

(** [preferences_utils.h:36-36] STR_BROKEN *)
Definition STR_BROKEN : string := ".broken".

(** [preferences_utils.h:37-37] STR_BACKUP *)
Definition STR_BACKUP : string := ".bak".

(** [preferences_utils.h:38-38] STR_LOCK *)
Definition STR_LOCK : string := ".lock".

(** [preferences_utils.h:39-39] STR_QUERY *)
Definition STR_QUERY : string := "?".

(** [preferences_utils.h:40-40] STR_SLASH *)
Definition STR_SLASH : string := "/".

(** [preferences_utils.h:41-41] STR_SCHEME *)
Definition STR_SCHEME : string := "sharepreferences://".

(** [preferences_utils.h:42-42] STR_OBJECT_FLAG *)
Definition STR_OBJECT_FLAG : string := ".objectFlag".

(** Every code the library returns. *)
Definition error_codes : list Z :=
  [E_OK; E_NOT_SUPPORTED; E_ERROR; E_STALE;
   E_INVALID_ARGS; E_OUT_OF_MEMORY; E_NOT_PERMIT; E_KEY_EMPTY;
   E_KEY_EXCEED_MAX_LENGTH; E_PTR_EXIST_ANOTHER_HOLDER; E_RELATIVE_PATH; E_EMPTY_FILE_PATH;
   E_DELETE_FILE_FAIL; E_EMPTY_FILE_NAME; E_INVALID_FILE_PATH; E_PATH_EXCEED_MAX_LENGTH;
   E_VALUE_EXCEED_MAX_LENGTH; E_KEY_EXCEED_LENGTH_LIMIT; E_VALUE_EXCEED_LENGTH_LIMIT; E_DEFAULT_EXCEED_LENGTH_LIMIT;
   E_GET_DATAOBSMGRCLIENT_FAIL; E_OBSERVER_RESERVE; E_ALREADY_CLOSED; E_NO_DATA;
   E_XML_RESTORED_FROM_BACKUP_FILE; E_OPERAT_IS_LOCKED; E_OPERAT_IS_CROSS_PROESS; E_SUBSCRIBE_FAILED;
   E_OBJECT_NOT_ACTIVE; PERMISSION_DENIED].

Lemma error_codes_nodup : NoDup error_codes.
Proof. apply (bool_decide_unpack _). vm_compute. exact I. Qed.

Lemma error_codes_i32 : forallb (in_s 32) error_codes = true.
Proof. vm. Qed.
