(* ===== verification/Value.v ===== *)
(** * The value type: [PreferencesValue]

    [PreferencesValue] wraps a [std::variant]; here the variant is an
    inductive type with one constructor per alternative, in the order of the
    declaration.  Machine integers are [Z] in the range of their C++ type and
    floating-point numbers are their IEEE 754 bit patterns; [value_ok] is the
    type invariant that says so. *)

From S2P Require Import Prelude Errno.

(** [preferences_value.h:27-35] Object *)
Record Object := mkObject { valueStr : string }.

(** [preferences_value.h:37-50] BigInt *)
Record BigInt := mkBigInt { words_ : list Z; sign_ : Z }.

(** [preferences_value.h:410-412] value_ *)
Inductive PreferencesValue :=
  | VMonostate
  | VInt (v : Z)
  | VLong (v : Z)
  | VFloat (bits : Z)
  | VDouble (bits : Z)
  | VBool (v : bool)
  | VString (v : string)
  | VStringArray (v : list string)
  | VBoolArray (v : list bool)
  | VDoubleArray (v : list Z)
  | VUint8Array (v : list Z)
  | VObject (v : Object)
  | VBigInt (v : BigInt)
  | VIntArray (v : list Z)
  | VInt64Array (v : list Z).

#[export] Instance Object_eq_dec : EqDecision Object.
Proof. solve_decision. Defined.
#[export] Instance BigInt_eq_dec : EqDecision BigInt.
Proof. solve_decision. Defined.
#[export] Instance PreferencesValue_eq_dec : EqDecision PreferencesValue.
Proof. solve_decision. Defined.

(** ** The type invariant *)

Definition value_ok (v : PreferencesValue) : bool :=
  match v with
  | VMonostate | VBool _ | VString _ | VStringArray _ | VBoolArray _ | VObject _ => true
  | VInt z => in_s 32 z
  | VLong z => in_s 64 z
  | VFloat b => in_u 32 b
  | VDouble b => in_u 64 b
  | VDoubleArray l => forallb (in_u 64) l
  | VUint8Array l => forallb (in_u 8) l
  | VBigInt b => forallb (in_u 64) (words_ b) && in_s 32 (sign_ b)
  | VIntArray l => forallb (in_s 32) l
  | VInt64Array l => forallb (in_s 64) l
  end.

(** ** Construction *)

(** [preferences_value.h:57-60] PreferencesValue() *)
Definition PreferencesValue_default : PreferencesValue := VMonostate.

(** [preferences_value.cpp:61-68] PreferencesValue(const_char_ptr): a
    null pointer gives the empty string. *)
Definition PreferencesValue_cstr (value : option string) : PreferencesValue :=
  match value with
  | Some s => VString (c_str s)
  | None => VString ""
  end.

(** The converting constructors store their argument as the alternative of
    its type. *)
(** [preferences_value.cpp:36-39] PreferencesValue(int) *)
Definition PreferencesValue_int (value : Z) : PreferencesValue := VInt value.
(** [preferences_value.cpp:41-44] PreferencesValue(int64) *)
Definition PreferencesValue_int64 (value : Z) : PreferencesValue := VLong value.
(** [preferences_value.cpp:46-49] PreferencesValue(float) *)
Definition PreferencesValue_float (value : Z) : PreferencesValue := VFloat value.
(** [preferences_value.cpp:51-54] PreferencesValue(double) *)
Definition PreferencesValue_double (value : Z) : PreferencesValue := VDouble value.
(** [preferences_value.cpp:56-59] PreferencesValue(bool) *)
Definition PreferencesValue_bool (value : bool) : PreferencesValue := VBool value.
(** [preferences_value.cpp:70-73] PreferencesValue(string) *)
Definition PreferencesValue_string (value : string) : PreferencesValue := VString value.
(** [preferences_value.cpp:75-78] PreferencesValue(vector_double) *)
Definition PreferencesValue_vector_double (value : list Z) : PreferencesValue := VDoubleArray value.
(** [preferences_value.cpp:80-83] PreferencesValue(vector_string) *)
Definition PreferencesValue_vector_string (value : list string) : PreferencesValue := VStringArray value.
(** [preferences_value.cpp:85-88] PreferencesValue(vector_bool) *)
Definition PreferencesValue_vector_bool (value : list bool) : PreferencesValue := VBoolArray value.
(** [preferences_value.cpp:90-93] PreferencesValue(vector_uint8) *)
Definition PreferencesValue_vector_uint8 (value : list Z) : PreferencesValue := VUint8Array value.
(** [preferences_value.cpp:95-98] PreferencesValue(object) *)
Definition PreferencesValue_object (value : Object) : PreferencesValue := VObject value.
(** [preferences_value.cpp:100-103] PreferencesValue(bigint) *)
Definition PreferencesValue_bigint (value : BigInt) : PreferencesValue := VBigInt value.
(** [preferences_value.cpp:105-108] PreferencesValue(vector_int) *)
Definition PreferencesValue_vector_int (value : list Z) : PreferencesValue := VIntArray value.
(** [preferences_value.cpp:110-113] PreferencesValue(vector_int64) *)
Definition PreferencesValue_vector_int64 (value : list Z) : PreferencesValue := VInt64Array value.

(** ** Discriminators *)

(** [preferences_value.cpp:133-136] IsInt *)
Definition IsInt (v : PreferencesValue) : bool := match v with VInt _ => true | _ => false end.
(** [preferences_value.cpp:138-141] IsLong *)
Definition IsLong (v : PreferencesValue) : bool := match v with VLong _ => true | _ => false end.
(** [preferences_value.cpp:143-146] IsFloat *)
Definition IsFloat (v : PreferencesValue) : bool := match v with VFloat _ => true | _ => false end.
(** [preferences_value.cpp:148-151] IsDouble *)
Definition IsDouble (v : PreferencesValue) : bool := match v with VDouble _ => true | _ => false end.
(** [preferences_value.cpp:153-156] IsBool *)
Definition IsBool (v : PreferencesValue) : bool := match v with VBool _ => true | _ => false end.
(** [preferences_value.cpp:158-161] IsString *)
Definition IsString (v : PreferencesValue) : bool := match v with VString _ => true | _ => false end.
(** [preferences_value.cpp:163-166] IsDoubleArray *)
Definition IsDoubleArray (v : PreferencesValue) : bool := match v with VDoubleArray _ => true | _ => false end.
(** [preferences_value.cpp:168-171] IsUint8Array *)
Definition IsUint8Array (v : PreferencesValue) : bool := match v with VUint8Array _ => true | _ => false end.
(** [preferences_value.cpp:173-176] IsObject *)
Definition IsObject (v : PreferencesValue) : bool := match v with VObject _ => true | _ => false end.
(** [preferences_value.cpp:178-181] IsStringArray *)
Definition IsStringArray (v : PreferencesValue) : bool := match v with VStringArray _ => true | _ => false end.
(** [preferences_value.cpp:183-186] IsBoolArray *)
Definition IsBoolArray (v : PreferencesValue) : bool := match v with VBoolArray _ => true | _ => false end.
(** [preferences_value.cpp:188-191] IsBigInt *)
Definition IsBigInt (v : PreferencesValue) : bool := match v with VBigInt _ => true | _ => false end.
(** [preferences_value.cpp:193-196] IsIntArray *)
Definition IsIntArray (v : PreferencesValue) : bool := match v with VIntArray _ => true | _ => false end.
(** [preferences_value.cpp:198-201] IsInt64Array *)
Definition IsInt64Array (v : PreferencesValue) : bool := match v with VInt64Array _ => true | _ => false end.

(** ** Conversions: [std::get], [None] where it throws [bad_variant_access] *)

(** [preferences_value.cpp:203-206] operator int *)
Definition as_int (v : PreferencesValue) : option Z := match v with VInt z => Some z | _ => None end.
(** [preferences_value.cpp:208-211] operator int64_t *)
Definition as_long (v : PreferencesValue) : option Z := match v with VLong z => Some z | _ => None end.
(** [preferences_value.cpp:213-216] operator float *)
Definition as_float (v : PreferencesValue) : option Z := match v with VFloat z => Some z | _ => None end.
(** [preferences_value.cpp:218-221] operator double *)
Definition as_double (v : PreferencesValue) : option Z := match v with VDouble z => Some z | _ => None end.
(** [preferences_value.cpp:223-226] operator bool *)
Definition as_bool (v : PreferencesValue) : option bool := match v with VBool b => Some b | _ => None end.
(** [preferences_value.cpp:228-231] operator std::string *)
Definition as_string (v : PreferencesValue) : option string := match v with VString s => Some s | _ => None end.
(** [preferences_value.cpp:253-256] operator Object *)
Definition as_object (v : PreferencesValue) : option Object := match v with VObject o => Some o | _ => None end.
(** [preferences_value.cpp:258-261] operator BigInt *)
Definition as_bigint (v : PreferencesValue) : option BigInt := match v with VBigInt b => Some b | _ => None end.
(** [preferences_value.cpp:248-251] operator std::vector<uint8_t> *)
Definition as_uint8_array (v : PreferencesValue) : option (list Z) := match v with VUint8Array l => Some l | _ => None end.
(** [preferences_value.cpp:233-236] operator std::vector<double> *)
Definition as_double_array (v : PreferencesValue) : option (list Z) := match v with VDoubleArray l => Some l | _ => None end.
(** [preferences_value.cpp:238-241] operator std::vector<bool> *)
Definition as_bool_array (v : PreferencesValue) : option (list bool) := match v with VBoolArray l => Some l | _ => None end.
(** [preferences_value.cpp:243-246] operator std::vector<std::string> *)
Definition as_string_array (v : PreferencesValue) : option (list string) := match v with VStringArray l => Some l | _ => None end.
(** [preferences_value.cpp:263-266] operator std::vector<int> *)
Definition as_int_array (v : PreferencesValue) : option (list Z) := match v with VIntArray l => Some l | _ => None end.
(** [preferences_value.cpp:268-271] operator std::vector<int64_t> *)
Definition as_int64_array (v : PreferencesValue) : option (list Z) := match v with VInt64Array l => Some l | _ => None end.

(** ** Equality

    The comparison of two variants compares the alternatives, so floating
    point members are compared with the IEEE [==]: a NaN differs from itself
    and the two zeros are equal.  [mant] is the width of the stored
    significand, [w] the width of the format. *)

Definition fp_is_nan (w mant b : Z) : bool :=
  (b mod 2 ^ (w - 1) >? (2 ^ (w - 1 - mant) - 1) * 2 ^ mant).

Definition fp_is_zero (w b : Z) : bool := b mod 2 ^ (w - 1) =? 0.

Definition fp_eqb (w mant a b : Z) : bool :=
  negb (fp_is_nan w mant a) && negb (fp_is_nan w mant b) &&
  ((a =? b) || (fp_is_zero w a && fp_is_zero w b)).

Definition float_eqb := fp_eqb 32 23.
Definition double_eqb := fp_eqb 64 52.

Fixpoint list_eqb {A} (eqb : A -> A -> bool) (l1 l2 : list A) : bool :=
  match l1, l2 with
  | [], [] => true
  | x :: l1', y :: l2' => eqb x y && list_eqb eqb l1' l2'
  | _, _ => false
  end.

(** A [float] as a [double]: sign, exponent and significand of a number, an
    infinity, or a quiet NaN. *)
Definition float_to_double (b : Z) : Z :=
  let s := if 2 ^ 31 <=? b then 2 ^ 63 else 0 in
  let e := (b / 2 ^ 23) mod 2 ^ 8 in
  let f := b mod 2 ^ 23 in
  s + (if e =? 255 then 2047 * 2 ^ 52 + (if f =? 0 then 0 else Z.lor (f * 2 ^ 29) (2 ^ 51))
       else if e =? 0 then
         if f =? 0 then 0
         else let k := Z.log2 f in (k + 874) * 2 ^ 52 + (f - 2 ^ k) * 2 ^ (52 - k)
       else (e + 896) * 2 ^ 52 + f * 2 ^ 29).

(** 1.5, -0, the smallest subnormal number, the greatest one, infinity. *)
Example float_to_double_samples :
  map float_to_double [1069547520; 2147483648; 1; 8388607; 2139095040] =
  [4609434218613702656; 9223372036854775808; 3936146074321813504; 4039728864677593088; 9218868437227405312].
Proof. reflexivity. Qed.

(** [preferences_value.cpp:273-276] operator== *)
Definition value_eqb (a b : PreferencesValue) : bool :=
  match a, b with
  | VMonostate, VMonostate => true
  | VInt x, VInt y | VLong x, VLong y => x =? y
  | VFloat x, VFloat y => float_eqb x y
  | VDouble x, VDouble y => double_eqb x y
  | VBool x, VBool y => Bool.eqb x y
  | VString x, VString y => bool_decide (x = y)
  | VStringArray x, VStringArray y => bool_decide (x = y)
  | VBoolArray x, VBoolArray y => bool_decide (x = y)
  | VDoubleArray x, VDoubleArray y => list_eqb double_eqb x y
  | VUint8Array x, VUint8Array y | VIntArray x, VIntArray y
  | VInt64Array x, VInt64Array y => bool_decide (x = y)
  | VObject x, VObject y => bool_decide (valueStr x = valueStr y)
  | VBigInt x, VBigInt y => (sign_ x =? sign_ y) && bool_decide (words_ x = words_ y)
  | _, _ => false
  end.

(** No member of the value is a NaN: [==] is reflexive on it. *)
Definition nan_free (v : PreferencesValue) : bool :=
  match v with
  | VFloat b => negb (fp_is_nan 32 23 b)
  | VDouble b => negb (fp_is_nan 64 52 b)
  | VDoubleArray l => forallb (fun b => negb (fp_is_nan 64 52 b)) l
  | _ => true
  end.

(** ** Facts *)

Lemma fp_eqb_refl w m b : fp_eqb w m b b = negb (fp_is_nan w m b).
Proof. unfold fp_eqb. rewrite Z.eqb_refl. cbn. by destruct (fp_is_nan w m b). Qed.

Lemma fp_eqb_sym w m a b : fp_eqb w m a b = fp_eqb w m b a.
Proof.
  unfold fp_eqb. rewrite Z.eqb_sym, (andb_comm (fp_is_zero w a)).
  by rewrite (andb_comm (negb (fp_is_nan w m a))).
Qed.

Lemma fp_eqb_trans w m a b c :
  fp_eqb w m a b = true -> fp_eqb w m b c = true -> fp_eqb w m a c = true.
Proof.
  unfold fp_eqb. intros ((-> & Hnb)%andb_true_iff & Hab)%andb_true_iff.
  intros ((_ & ->)%andb_true_iff & Hbc)%andb_true_iff. cbn.
  apply orb_true_iff in Hab as [Hab|Hab], Hbc as [Hbc|Hbc]; bools; subst;
    apply orb_true_iff; rewrite ?Z.eqb_refl; auto.
  all: right; apply andb_true_iff; auto.
Qed.

Lemma list_eqb_refl {A} (eqb : A -> A -> bool) l :
  list_eqb eqb l l = forallb (fun x => eqb x x) l.
Proof. induction l as [|x l IH]; [done|]. cbn. by rewrite IH. Qed.

Lemma list_eqb_sym {A} (eqb : A -> A -> bool) l1 l2 :
  (forall x y, eqb x y = eqb y x) -> list_eqb eqb l1 l2 = list_eqb eqb l2 l1.
Proof.
  intros Hs. revert l2. induction l1 as [|x l1 IH]; intros [|y l2]; try done.
  cbn. by rewrite Hs, IH.
Qed.

Lemma list_eqb_trans {A} (eqb : A -> A -> bool) l1 l2 l3 :
  (forall x y z, eqb x y = true -> eqb y z = true -> eqb x z = true) ->
  list_eqb eqb l1 l2 = true -> list_eqb eqb l2 l3 = true -> list_eqb eqb l1 l3 = true.
Proof.
  intros Ht. revert l2 l3. induction l1 as [|x l1 IH]; intros [|y l2] [|z l3]; try done.
  cbn. intros [? ?]%andb_true_iff [? ?]%andb_true_iff. apply andb_true_iff. eauto.
Qed.

(** [operator==] is reflexive exactly on the NaN-free values. *)
Lemma value_eqb_refl v : value_eqb v v = nan_free v.
Proof.
  destruct v; cbn; unfold float_eqb, double_eqb;
    rewrite ?Z.eqb_refl, ?eqb_reflx, ?fp_eqb_refl, ?bool_decide_eq_true_2 by done; try done.
  rewrite list_eqb_refl. induction v as [|x l IH]; [done|]. cbn. by rewrite IH, fp_eqb_refl.
Qed.

Lemma bool_decide_sym {A} `{EqDecision A} (x y : A) : bool_decide (x = y) = bool_decide (y = x).
Proof. apply bool_decide_ext. split; congruence. Qed.

Lemma value_eqb_sym a b : value_eqb a b = value_eqb b a.
Proof.
  destruct a, b; try done; cbn;
    rewrite ?(Z.eqb_sym v), ?(Z.eqb_sym (sign_ v)), ?(bool_decide_sym v),
      ?(bool_decide_sym (words_ v)), ?(bool_decide_sym (valueStr v)); try done.
  1,2: apply fp_eqb_sym.
  - by destruct v, v0.
  - apply list_eqb_sym, fp_eqb_sym.
Qed.

Lemma value_eqb_trans a b c :
  value_eqb a b = true -> value_eqb b c = true -> value_eqb a c = true.
Proof.
  destruct a, b; try done; destruct c; try done; cbn.
  3,4: apply fp_eqb_trans.
  3: by destruct v, v0, v1.
  6: apply list_eqb_trans; intros *; apply fp_eqb_trans.
  all: intros; bools; rewrite ?andb_true_iff, ?Z.eqb_eq, ?bool_decide_eq_true; naive_solver congruence.
Qed.

(** Values that are equal or that [operator==] cannot tell apart: the
    relation up to which a [Put] is observed. *)
Definition value_same (a b : PreferencesValue) : Prop := a = b \/ value_eqb a b = true.

#[export] Instance value_same_equiv : Equivalence value_same.
Proof.
  split.
  - by left.
  - intros a b [->|H]; [by left|right]. by rewrite value_eqb_sym.
  - intros a b c [->|H1] [->|H2]; try by left. 1,2: by right.
    right. by eapply value_eqb_trans.
Qed.

Lemma value_eqb_nan_free a b : value_eqb a b = true -> nan_free a = true.
Proof.
  intros H. rewrite <- value_eqb_refl. eapply value_eqb_trans; [done|].
  by rewrite value_eqb_sym.
Qed.

(** Outside the floating-point alternatives [==] is equality. *)
Definition has_float (v : PreferencesValue) : bool :=
  match v with VFloat _ | VDouble _ | VDoubleArray _ => true | _ => false end.

Lemma value_eqb_eq a b : has_float a = false -> value_eqb a b = true <-> a = b.
Proof.
  intros Hf. split.
  - destruct a, b; try done; cbn in *; intros; bools; try congruence.
    + f_equal. by apply eqb_prop.
    + destruct v, v0; cbn in *; congruence.
    + destruct v, v0; cbn in *; congruence.
  - intros ->. rewrite value_eqb_refl. by destruct b.
Qed.

#[export] Instance value_eqb_proper : Proper (value_same ==> value_same ==> eq) value_eqb.
Proof.
  assert (H : forall a a' b, value_same a a' -> value_eqb a b = true -> value_eqb a' b = true).
  { intros a a' b [->|H] Hb; [done|]. eapply value_eqb_trans; [|done]. by rewrite value_eqb_sym. }
  intros a a' Ha b b' Hb. apply eq_true_iff_eq. split; intros E.
  - rewrite value_eqb_sym. eapply H; [done|]. rewrite value_eqb_sym. by eapply H.
  - rewrite value_eqb_sym. eapply H; [by symmetry|]. rewrite value_eqb_sym.
    eapply H; [by symmetry|done].
Qed.
