(* ===== verification/Utils.v ===== *)
(** * Key and value checks, path helpers and log anonymisation

    Models [preferences_utils.cpp], [preferences_anonymous.h], the path
    abbreviation of [preferences_file_operation.h], and the [Options]
    structure of [preferences.h]. *)

From S2P Require Import Prelude Errno Value.
From Stdlib Require String.

(** [preferences.h:36-62] Options *)
Record Options := mkOptions {
  filePath : string;
  bundleName : string;
  dataGroupId : string;
  isEnhance : bool
}.

#[export] Instance Options_eq_dec : EqDecision Options.
Proof. solve_decision. Defined.

(** [preferences_utils.cpp:26-29] MakeFilePath *)
Definition MakeFilePath (prefPath suffix : string) : string := prefPath +:+ suffix.

(** [preferences_utils.cpp:31-42] CheckKey *)
Definition CheckKey (key : string) : Z :=
  if slen key =? 0 then E_KEY_EMPTY
  else if MAX_KEY_LENGTH <? slen key then E_KEY_EXCEED_MAX_LENGTH
  else E_OK.

(** The lambda of [CheckValue]; its parameter is a [uint32_t], so the
    [size_t] argument is truncated.

    [preferences_utils.cpp:46-52] lengthCheck *)
Definition lengthCheck (length : Z) : Z :=
  if MAX_VALUE_LENGTH <? wrap_u 32 length then E_VALUE_EXCEED_MAX_LENGTH else E_OK.

(** [preferences_utils.cpp:44-73] CheckValue *)
Definition CheckValue (value : PreferencesValue) : Z :=
  match as_string value with
  | Some val => lengthCheck (slen val)
  | None =>
      match as_object value with
      | Some obj => lengthCheck (slen (valueStr obj))
      | None =>
          match as_bigint value with
          | Some bigint => if (length (words_ bigint) =? 0)%nat then E_ERROR else E_OK
          | None => E_OK
          end
      end
  end.

(** ** Searching a [std::string] *)

(** [s.find(pat)] and [s.rfind(c)]: [None] is [npos]. *)
Definition find_str (pat s : string) : option nat := String.index 0 pat s.

Fixpoint rfind_char (c : ascii) (s : string) : option nat :=
  match s with
  | EmptyString => None
  | String a s' =>
      match rfind_char c s' with
      | Some n => Some (S n)
      | None => if decide (a = c) then Some O else None
      end
  end.

(** The remainder of a string from [pos], and [substr(0, pos)] where [pos] may
    be [npos]. *)
Definition str_from (s : string) (pos : nat) : string :=
  String.substring pos (String.length s - pos) s.

Definition substr_to (s : string) (pos : option nat) : string :=
  match pos with
  | Some n => String.substring 0 n s
  | None => s
  end.

(** ** Anonymisation of keys and file names in the logs *)

Definition HEAD_SIZE : nat := 3.
Definition END_SIZE : nat := 3.
Definition DATA_HEAD : nat := 4.
Definition DATA_END : nat := 4.
Definition MIN_SIZE : nat := HEAD_SIZE + END_SIZE + 3.
Definition MEDIAN_SIZE : nat := DATA_HEAD + DATA_END + 3.
Definition REPLACE_CHAIN : string := "***".
Definition DEFAULT_ANONYMOUS : string := "******".

(** [preferences_anonymous.h:25-47] ToBeAnonymous *)
Definition ToBeAnonymous (data : string) : string :=
  let size := String.length data in
  if (size <=? HEAD_SIZE)%nat then DEFAULT_ANONYMOUS
  else if (size <? MIN_SIZE)%nat then
    String.substring 0 HEAD_SIZE data +:+ REPLACE_CHAIN
  else if (size <? MEDIAN_SIZE)%nat then
    String.substring 0 HEAD_SIZE data +:+ REPLACE_CHAIN +:+
    String.substring (size - END_SIZE) END_SIZE data
  else
    String.substring 0 DATA_HEAD data +:+ REPLACE_CHAIN +:+
    String.substring (size - DATA_END) DATA_END data.

Definition PRE_OFFSET_SIZE : nat := 1.
Definition AREA_MINI_SIZE : nat := 4.
Definition AREA_OFFSET_SIZE : nat := 5.
Definition FILE_PATH_MINI_SIZE : nat := 6.

(** The abbreviated path of the log lines and reports; [None] where a
    [substr] would throw.

    [preferences_file_operation.h:146-165] ExtractFileName *)
Definition ExtractFileName (path : string) : option string :=
  let size := String.length path in
  match find_str "/" path, rfind_char "/" path with
  | Some pre, Some end_ =>
      if (end_ - pre <? FILE_PATH_MINI_SIZE)%nat then Some (ToBeAnonymous path)
      else
        fileName ← substr path (end_ + 1) (size - (end_ + 1));
        dir ← substr path pre (end_ - pre);
        area_part ←
          (match find_str "/el" dir with
           | None => Some ""
           | Some area =>
               if (size <? area + AREA_MINI_SIZE)%nat then Some ""
               else if (area + AREA_OFFSET_SIZE <? size)%nat then
                 s ← substr path area AREA_MINI_SIZE; Some (s +:+ "/***")
               else substr path area AREA_MINI_SIZE
           end);
        head ← substr path 0 (pre + PRE_OFFSET_SIZE);
        Some (head +:+ "***" +:+ area_part +:+ "/" +:+ ToBeAnonymous fileName)
  | _, _ => Some (ToBeAnonymous path)
  end.

(** The name used in reports ([ExtractFileName] never throws, see
    [ExtractFileName_total]). *)
Definition extract_name (path : string) : string := default "" (ExtractFileName path).

(** [preferences_base.cpp:304-317] MakeUri *)
Definition MakeUri (options_ : Options) (key : string) : string :=
  let uriStr :=
    if (String.length (dataGroupId options_) =? 0)%nat
    then STR_SCHEME +:+ bundleName options_ +:+ STR_SLASH +:+ filePath options_
    else STR_SCHEME +:+ dataGroupId options_ +:+ STR_SLASH +:+ filePath options_ in
  if (String.length key =? 0)%nat then uriStr else uriStr +:+ STR_QUERY +:+ key.

(** ** String facts *)

#[local] Arguments String.append !_ _ /.

Lemma str_app_assoc (a b c : string) : (a +:+ b) +:+ c = a +:+ (b +:+ c).
Proof. induction a as [|x a IH]; [done|]. cbn. by f_equal. Qed.

Lemma str_app_nil_r (a : string) : a +:+ "" = a.
Proof. induction a as [|x a IH]; [done|]. cbn. by f_equal. Qed.

Lemma str_length_app (a b : string) :
  String.length (a +:+ b) = (String.length a + String.length b)%nat.
Proof. induction a as [|x a IH]; [done|]. cbn. by f_equal. Qed.

Lemma no_nul_app a b : no_nul (a +:+ b) = no_nul a && no_nul b.
Proof.
  unfold no_nul. rewrite <- forallb_app. f_equal. induction a as [|c a IH]; [done|].
  change (c :: String.list_ascii_of_string (a +:+ b) = c :: (String.list_ascii_of_string a ++ String.list_ascii_of_string b)).
  by rewrite IH.
Qed.

#[export] Instance str_app_inj_l (a : string) : Inj (=) (=) (String.append a).
Proof. intros b c. induction a as [|x a IH]; cbn; [done|]. intros H. simplify_eq. auto. Qed.

Lemma str_app_inj_r (a b c : string) : a +:+ c = b +:+ c -> a = b.
Proof.
  revert b. induction a as [|x a IH]; intros [|y b] H; cbn in H; simplify_eq; try done.
  - apply (f_equal String.length) in H. cbn in H. rewrite str_length_app in H. lia.
  - apply (f_equal String.length) in H. cbn in H. rewrite str_length_app in H. lia.
  - f_equal. auto.
Qed.

Lemma substring_O (a b : nat) : String.substring a b "" = "".
Proof. by destruct a, b. Qed.

Lemma substring_zero (a : nat) s : String.substring a 0 s = "".
Proof. revert a. induction s as [|x s IH]; intros [|a]; try done. apply IH. Qed.

Lemma substring_split (a b c : nat) s :
  String.substring a b s +:+ String.substring (a + b) c s = String.substring a (b + c) s.
Proof.
  revert a b. induction s as [|x s IH]; [by intros; rewrite !substring_O|].
  intros [|a] [|b]; [done| | |].
  - cbn. f_equal. apply (IH 0%nat b).
  - rewrite substring_zero. cbn. by rewrite Nat.add_0_r.
  - cbn. apply IH.
Qed.

Lemma substring_full s : String.substring 0 (String.length s) s = s.
Proof. induction s as [|x s IH]; [done|]. cbn. by f_equal. Qed.

Lemma substring_length (a b : nat) s :
  (a + b <= String.length s)%nat -> String.length (String.substring a b s) = b.
Proof.
  revert a b. induction s as [|x s IH]; intros [|a] [|b]; cbn; intros H; try lia.
  - f_equal. apply IH. lia.
  - rewrite substring_zero. done.
  - apply IH. lia.
Qed.

Lemma substr_some s pos n :
  (pos <= String.length s)%nat -> substr s pos n = Some (String.substring pos n s).
Proof. intros H%Nat.leb_le. unfold substr. by rewrite H. Qed.

Lemma rfind_char_lt c s n : rfind_char c s = Some n -> (n < String.length s)%nat.
Proof.
  revert n. induction s as [|a s IH]; [done|]. intros n. cbn.
  destruct (rfind_char c s) as [m|]; intros; [|case_decide]; simplify_eq; [|lia].
  specialize (IH _ eq_refl). lia.
Qed.

Lemma index_le pat s n : String.index 0 pat s = Some n -> (n <= String.length s)%nat.
Proof.
  revert n. induction s as [|a s IH]; intros n; cbn [String.index String.length].
  { destruct pat; intros; simplify_eq; lia. }
  destruct (String.prefix pat (String a s)); [intros; simplify_eq; lia|].
  destruct (String.index 0 pat s) as [m|]; intros; simplify_eq.
  specialize (IH _ eq_refl). lia.
Qed.

Lemma slen_nonneg s : 0 <= slen s.
Proof. unfold slen. lia. Qed.
#[export] Hint Resolve slen_nonneg : prefs.

(** ** Properties *)

Lemma CheckKey_cases key :
  CheckKey key = E_KEY_EMPTY /\ slen key = 0 \/
  CheckKey key = E_KEY_EXCEED_MAX_LENGTH /\ 1024 < slen key \/
  CheckKey key = E_OK /\ 1 <= slen key <= 1024.
Proof.
  pose proof (slen_nonneg key). unfold CheckKey, MAX_KEY_LENGTH.
  destruct (Z.eqb_spec (slen key) 0); [auto|].
  destruct (Z.ltb_spec 1024 (slen key)); [auto|]. right. right. split; [done|lia].
Qed.

(** [CheckKey] accepts a key exactly when its length is between 1 and
    1024, and names the violated bound otherwise. *)
Theorem CheckKey_spec (key : string) :
  (CheckKey key = E_OK <-> 1 <= slen key <= 1024) /\
  (CheckKey key = E_KEY_EMPTY <-> key = "") /\
  (CheckKey key = E_KEY_EXCEED_MAX_LENGTH <-> 1024 < slen key).
Proof.
  destruct (CheckKey_cases key) as [[-> H]|[[-> H]|[-> H]]].
  - assert (key = "") as -> by (destruct key; [done|unfold slen in H; cbn in H; lia]).
    repeat split; intros; try done; unfold slen in *; cbn in *; lia.
  - repeat split; intros; subst; try done; try lia; unfold slen in *; cbn in *; lia.
  - repeat split; intros; subst; try done; try lia; unfold slen in *; cbn in *; lia.
Qed.

(** The length that [CheckValue] bounds, if the alternative has one. *)
Definition checked_length (v : PreferencesValue) : option Z :=
  match v with
  | VString s => Some (slen s)
  | VObject o => Some (slen (valueStr o))
  | _ => None
  end.

(** Below [2^32], the truncation of the length has no effect. *)
Lemma lengthCheck_spec n :
  0 <= n < 2 ^ 32 -> lengthCheck n = E_OK <-> n <= 16777216.
Proof.
  intros H. unfold lengthCheck. rewrite wrap_u_id by (by apply in_u_spec).
  change MAX_VALUE_LENGTH with 16777216.
  destruct (Z.ltb_spec 16777216 n); split; intros; try done; lia.
Qed.

(** The full contract of [CheckValue] below the truncation bound. *)
Lemma CheckValue_ok_iff v :
  (forall n, checked_length v = Some n -> n < 2 ^ 32) ->
  CheckValue v = E_OK <->
    (forall n, checked_length v = Some n -> n <= 16777216) /\
    (forall b, v = VBigInt b -> words_ b <> []).
Proof.
  intros Hn. unfold CheckValue. destruct v as [ | | | | | |s| | | | |o|b| |]; cbn in *;
    try (split; [split; congruence|done]).
  - rewrite lengthCheck_spec by (split; [apply slen_nonneg|auto]). split; [|by intros [H _]; apply H].
    intros; split; congruence.
  - rewrite lengthCheck_spec by (split; [apply slen_nonneg|auto]). split; [|by intros [H _]; apply H].
    intros; split; congruence.
  - destruct (words_ b) eqn:E; cbn; split; intros H; try done.
    + destruct H as [_ H]. by destruct (H b eq_refl).
    + split; [done|]. intros ? [= <-]. congruence.
Qed.

(** The anonymised form hides part of every string and shows at most four
    characters at each end. *)
Lemma ToBeAnonymous_hides data :
  ToBeAnonymous data = DEFAULT_ANONYMOUS \/
  exists h m t, data = h +:+ m +:+ t /\ m <> "" /\
    (String.length h <= 4)%nat /\ (String.length t <= 4)%nat /\
    ToBeAnonymous data = h +:+ REPLACE_CHAIN +:+ t.
Proof.
  unfold ToBeAnonymous. set (size := String.length data).
  assert (Hsplit : forall a b : nat, (a + b < size)%nat ->
    exists m, data = String.substring 0 a data +:+ m +:+ String.substring (size - b) b data /\ m <> "").
  { intros a b Hab. exists (String.substring a (size - b - a) data). split.
    - assert (E1 := substring_split 0 a (size - a) data).
      assert (E2 := substring_split a (size - b - a) b data).
      replace (a + (size - b - a))%nat with (size - b)%nat in E2 by lia.
      replace (size - b - a + b)%nat with (size - a)%nat in E2 by lia.
      rewrite E2. change (0 + a)%nat with a in E1. rewrite E1.
      replace (a + (size - a))%nat with size by lia. symmetry. apply substring_full.
    - intros Hm%(f_equal String.length). rewrite substring_length in Hm by lia. cbn in Hm. lia. }
  unfold MIN_SIZE, MEDIAN_SIZE, HEAD_SIZE, END_SIZE, DATA_HEAD, DATA_END.
  change (3 + 3 + 3)%nat with 9%nat. change (4 + 4 + 3)%nat with 11%nat.
  destruct (Nat.leb_spec size 3); [by left|right].
  destruct (Nat.ltb_spec size 9); [|destruct (Nat.ltb_spec size 11)].
  - destruct (Hsplit 3%nat 0%nat) as (m & Hd & Hm); [lia|].
    rewrite substring_zero in Hd. exists (String.substring 0 3 data), m, "".
    rewrite substring_length by lia. rewrite !str_app_nil_r in *. repeat split; auto; cbn; lia.
  - destruct (Hsplit 3%nat 3%nat) as (m & Hd & Hm); [lia|].
    exists (String.substring 0 3 data), m, (String.substring (size - 3) 3 data).
    rewrite !substring_length by lia. repeat split; auto; lia.
  - destruct (Hsplit 4%nat 4%nat) as (m & Hd & Hm); [lia|].
    exists (String.substring 0 4 data), m, (String.substring (size - 4) 4 data).
    rewrite !substring_length by lia. repeat split; auto; lia.
Qed.

(** No [substr] of [ExtractFileName] is out of range. *)
Lemma ExtractFileName_total path : is_Some (ExtractFileName path).
Proof.
  unfold ExtractFileName. destruct (find_str "/" path) as [pre|] eqn:Hpre; [|done].
  destruct (rfind_char "/" path) as [end_|] eqn:Hend; [|done].
  apply index_le in Hpre. apply rfind_char_lt in Hend.
  case_match; [done|]. rewrite !substr_some by lia. cbn [mbind option_bind].
  destruct (find_str "/el" _) as [area|] eqn:Ha; [|done].
  apply index_le in Ha.
  destruct (Nat.ltb_spec (String.length path) (area + AREA_MINI_SIZE)); [done|].
  rewrite !substr_some by (unfold AREA_MINI_SIZE in *; lia).
  by destruct (area + AREA_OFFSET_SIZE <? String.length path)%nat.
Qed.
