(* ===== verification/Base64.v ===== *)
(** * Base64 codec

    Models [base64_helper.cpp], which stores [uint8Array] values in the XML
    file: the two tables, [Encode] and [Decode] with their index arithmetic,
    and an independent reference encoder to compare [Encode] with. *)

From S2P Require Import Prelude.

Module Base64Helper.

(** [base64_helper.cpp:22-23] base64Encoder *)
Definition base64Encoder : list ascii :=
  String.list_ascii_of_string
    "ABCDEFGHIJKLMNOPQRSTUVWXYZabcdefghijklmnopqrstuvwxyz0123456789+/".

(** The table has 255 entries, for the characters 0 to 254.

    [base64_helper.cpp:25-42] base64Decoder *)
Definition base64Decoder : list Z :=
  replicate 43 (-1) ++ [62] ++ replicate 3 (-1) ++ [63] ++
  [52; 53; 54; 55; 56; 57; 58; 59; 60; 61] ++ replicate 7 (-1) ++
  [0; 1; 2; 3; 4; 5; 6; 7; 8; 9; 10; 11; 12; 13; 14;
   15; 16; 17; 18; 19; 20; 21; 22; 23; 24; 25] ++ replicate 6 (-1) ++
  [26; 27; 28; 29; 30; 31; 32; 33; 34; 35; 36; 37; 38; 39; 40;
   41; 42; 43; 44; 45; 46; 47; 48; 49; 50; 51] ++ replicate 5 (-1) ++
  replicate (7 * 16) (-1) ++ replicate 15 (-1).

(** [base64_helper.cpp:44-44] BASE64_DEST_UNIT_SIZE *)
Definition BASE64_DEST_UNIT_SIZE : Z := 4.
(** [base64_helper.cpp:45-45] BASE64_SRC_UNIT_SIZE *)
Definition BASE64_SRC_UNIT_SIZE : Z := 3.
(** [base64_helper.cpp:46-46] BASE64_ONE_PADDING *)
Definition BASE64_ONE_PADDING : Z := 1.
(** [base64_helper.cpp:47-47] BASE64_TWO_PADDING *)
Definition BASE64_TWO_PADDING : Z := 2.
(** [base64_helper.cpp:48-48] BASE64_INVALID *)
Definition BASE64_INVALID : Z := 255.
(** [base64_helper.cpp:49-49] BASE64_MASK1 *)
Definition BASE64_MASK1 : Z := 3.
(** [base64_helper.cpp:50-50] BASE64_MASK2 *)
Definition BASE64_MASK2 : Z := 15.
(** [base64_helper.cpp:51-51] BASE64_MASK3 *)
Definition BASE64_MASK3 : Z := 63.
(** [base64_helper.cpp:52-52] BASE64_SHIFT_HIBYTE *)
Definition BASE64_SHIFT_HIBYTE : Z := 2.
(** [base64_helper.cpp:53-53] BASE64_SHIFT *)
Definition BASE64_SHIFT : Z := 4.
(** [base64_helper.cpp:54-54] BASE64_SHIFT_LOBYTE *)
Definition BASE64_SHIFT_LOBYTE : Z := 6.

(** The loop of [Encode]; each iteration consumes three bytes, the last one
    may stop after one or two.  [index] stays below [len + index], the
    32-bit size, so its increments do not wrap.

    [base64_helper.cpp:60-80] Encode *)
Fixpoint encode_loop (fuel : nat) (input : list Z) (index len : Z)
    (result : list ascii) : outcome (list ascii) :=
  if 0 <? len then
    match fuel with
    | O => NoFuel
    | S fuel' =>
        x0 ← at_ input index;
        c0 ← index_ base64Encoder (Z.shiftr x0 BASE64_SHIFT_HIBYTE);
        let code := wrap_u 8 (Z.shiftl (Z.land x0 BASE64_MASK1) BASE64_SHIFT) in
        let index := index + 1 in
        if BASE64_ONE_PADDING <? len then
          x1 ← at_ input index;
          c1 ← index_ base64Encoder (Z.lor code (Z.shiftr x1 BASE64_SHIFT));
          let code := wrap_u 8 (Z.shiftl (Z.land x1 BASE64_MASK2) BASE64_SHIFT_HIBYTE) in
          let index := index + 1 in
          if BASE64_TWO_PADDING <? len then
            x2 ← at_ input index;
            c2 ← index_ base64Encoder (Z.lor code (Z.shiftr x2 BASE64_SHIFT_LOBYTE));
            c3 ← index_ base64Encoder (Z.land x2 BASE64_MASK3);
            encode_loop fuel' input (index + 1) (wrap_u 32 (len - BASE64_SRC_UNIT_SIZE))
              (result ++ [c0; c1; c2; c3])
          else
            c2 ← index_ base64Encoder code;
            Done (result ++ [c0; c1; c2; "="%char])
        else
          c1 ← index_ base64Encoder code;
          Done (result ++ [c0; c1; "="%char; "="%char])
    end
  else Done result.

(** [base64_helper.cpp:56-82] Encode *)
Definition Encode (input : list Z) : outcome string :=
  let len := wrap_u 32 (Z.of_nat (length input)) in
  r ← encode_loop (length input) input 0 len [];
  Done (String.string_of_list_ascii r).

(** [base64Decoder[static_cast<uint8_t>(c)]] *)
Definition decode_char (c : ascii) : outcome Z :=
  v ← index_ base64Decoder (code c); Done (wrap_u 8 v).

(** The loop of [Decode]: [None] is the early [return false].

    [base64_helper.cpp:91-115] Decode *)
Fixpoint decode_loop (fuel : nat) (input : list ascii) (index : Z) (result : list Z)
    : outcome (option (list Z)) :=
  if index <? Z.of_nat (length input) then
    match fuel with
    | O => NoFuel
    | S fuel' =>
        i0 ← at_ input index;
        ch1 ← decode_char i0;
        let index := wrap_u 32 (index + 1) in
        i1 ← at_ input index;
        ch2 ← decode_char i1;
        let index := wrap_u 32 (index + 1) in
        if (ch1 =? BASE64_INVALID) || (ch2 =? BASE64_INVALID) then Done None else
        let result := result ++
          [wrap_u 8 (Z.lor (Z.shiftl ch1 BASE64_SHIFT_HIBYTE) (Z.shiftr ch2 BASE64_SHIFT))] in
        i2 ← at_ input index;
        if decide (i2 = "="%char) then Done (Some result) else
        ch3 ← decode_char i2;
        let index := wrap_u 32 (index + 1) in
        if ch3 =? BASE64_INVALID then Done None else
        let result := result ++
          [wrap_u 8 (Z.lor (Z.shiftl ch2 BASE64_SHIFT) (Z.shiftr ch3 BASE64_SHIFT_HIBYTE))] in
        i3 ← at_ input index;
        if decide (i3 = "="%char) then Done (Some result) else
        ch4 ← decode_char i3;
        let index := wrap_u 32 (index + 1) in
        if ch4 =? BASE64_INVALID then Done None else
        decode_loop fuel' input index
          (result ++ [wrap_u 8 (Z.lor (Z.shiftl ch3 BASE64_SHIFT_LOBYTE) ch4)])
    end
  else Done (Some result).

(** [None]: the function returned [false] and left [output] untouched.

    [base64_helper.cpp:84-117] Decode *)
Definition Decode (input : string) : outcome (option (list Z)) :=
  if negb (slen input mod BASE64_DEST_UNIT_SIZE =? 0) then Done None
  else decode_loop (String.length input) (String.list_ascii_of_string input) 0 [].

(** ** The reference encoder *)

(** The base64 alphabet by ranges, and the encoding of a byte sequence in
    groups of 24 bits, as in RFC 4648. *)
Definition b64_char (n : Z) : ascii :=
  if n <? 26 then char_of (65 + n)
  else if n <? 52 then char_of (97 + (n - 26))
  else if n <? 62 then char_of (48 + (n - 52))
  else if n =? 62 then "+"%char else "/"%char.

Fixpoint b64_ref (l : list Z) : list ascii :=
  match l with
  | [] => []
  | [a] => [b64_char (a / 4); b64_char (a mod 4 * 16); "="%char; "="%char]
  | [a; b] =>
      [b64_char (a / 4); b64_char (a mod 4 * 16 + b / 16); b64_char (b mod 16 * 4); "="%char]
  | a :: b :: c :: l' =>
      [b64_char (a / 4); b64_char (a mod 4 * 16 + b / 16);
       b64_char (b mod 16 * 4 + c / 64); b64_char (c mod 64)] ++ b64_ref l'
  end.

End Base64Helper.

Import Base64Helper.

(** ** The tables *)

Lemma length_base64Decoder : length base64Decoder = 255%nat.
Proof. vm. Qed.

Lemma sextet_enum n : 0 <= n < 64 -> In n (seqZ 0 64).
Proof. intros. apply list_elem_of_In, elem_of_seqZ. lia. Qed.

Lemma sextet_forall (P : Z -> bool) :
  forallb P (seqZ 0 64) = true -> forall n, 0 <= n < 64 -> P n = true.
Proof. intros H n Hn. rewrite forallb_forall in H. by apply H, sextet_enum. Qed.

Lemma encoder_char n : 0 <= n < 64 -> index_ base64Encoder n = Done (b64_char n).
Proof.
  intros H.
  apply (sextet_forall (fun n => bool_decide (index_ base64Encoder n = Done (b64_char n)))) in H;
    [by apply bool_decide_eq_true in H|vm].
Qed.

Lemma decode_encoded n : 0 <= n < 64 -> decode_char (b64_char n) = Done n.
Proof.
  intros H.
  apply (sextet_forall (fun n => bool_decide (decode_char (b64_char n) = Done n))) in H;
    [by apply bool_decide_eq_true in H|vm].
Qed.

Lemma b64_char_not_eq n : 0 <= n < 64 -> b64_char n <> "="%char.
Proof.
  intros H.
  apply (sextet_forall (fun n => negb (bool_decide (b64_char n = "="%char)))) in H;
    [by bools|vm].
Qed.

(** ** Bit fields of the groups, as arithmetic *)

Lemma shiftr_div4 a k : 0 <= k -> Z.shiftr a k = a / 2 ^ k.
Proof. intros. by apply Z.shiftr_div_pow2. Qed.

Lemma code1_eq a : wrap_u 8 (Z.shiftl (Z.land a BASE64_MASK1) BASE64_SHIFT) = a mod 4 * 16.
Proof.
  unfold wrap_u, BASE64_MASK1, BASE64_SHIFT.
  change (Z.land a 3) with (Z.land a (2 ^ 2 - 1)). rewrite land_ones_mod by lia.
  rewrite Z.shiftl_mul_pow2 by lia. change (2 ^ 2) with 4. change (2 ^ 4) with 16.
  apply Z.mod_small. change (2 ^ 8) with 256. pose proof (Z.mod_pos_bound a 4). lia.
Qed.

Lemma code2_eq b :
  wrap_u 8 (Z.shiftl (Z.land b BASE64_MASK2) BASE64_SHIFT_HIBYTE) = b mod 16 * 4.
Proof.
  unfold wrap_u, BASE64_MASK2, BASE64_SHIFT_HIBYTE.
  change (Z.land b 15) with (Z.land b (2 ^ 4 - 1)). rewrite land_ones_mod by lia.
  rewrite Z.shiftl_mul_pow2 by lia. change (2 ^ 2) with 4. change (2 ^ 4) with 16.
  apply Z.mod_small. change (2 ^ 8) with 256. pose proof (Z.mod_pos_bound b 16). lia.
Qed.

Lemma lor_add x y k : 0 <= k -> 0 <= y < 2 ^ k -> Z.lor (x * 2 ^ k) y = x * 2 ^ k + y.
Proof. intros. rewrite <- (lor_shiftl_add x y k) by done. by rewrite Z.shiftl_mul_pow2 by done. Qed.

Ltac byte_arith :=
  repeat match goal with H : in_u 8 _ = true |- _ => apply in_u_spec in H end;
  unfold BASE64_SHIFT_HIBYTE, BASE64_SHIFT, BASE64_SHIFT_LOBYTE, wrap_u in *;
  change (2 ^ 8) with 256 in *; change (2 ^ 6) with 64 in *;
  change (2 ^ 4) with 16 in *; change (2 ^ 2) with 4 in *;
  Z.to_euclidean_division_equations; lia.

Lemma sextet1_eq a : Z.shiftr a BASE64_SHIFT_HIBYTE = a / 4.
Proof. by apply shiftr_div4. Qed.

Lemma sextet2_eq a b : in_u 8 b = true ->
  Z.lor (a mod 4 * 16) (Z.shiftr b BASE64_SHIFT) = a mod 4 * 16 + b / 16.
Proof. intros. rewrite shiftr_div4 by done. apply (lor_add _ _ 4); [lia|]. byte_arith. Qed.

Lemma sextet3_eq b c : in_u 8 c = true ->
  Z.lor (b mod 16 * 4) (Z.shiftr c BASE64_SHIFT_LOBYTE) = b mod 16 * 4 + c / 64.
Proof. intros. rewrite shiftr_div4 by done. apply (lor_add _ _ 2); [lia|]. byte_arith. Qed.

Lemma sextet4_eq c : Z.land c BASE64_MASK3 = c mod 64.
Proof. by apply (land_ones_mod c 6). Qed.

(** The decoder's recombinations undo the splits. *)
Ltac octet :=
  intros; rewrite ?shiftr_div4 by done; rewrite lor_shiftl_add by (done || byte_arith);
  byte_arith.

Lemma octet1_eq a b : in_u 8 a = true -> in_u 8 b = true ->
  wrap_u 8 (Z.lor (Z.shiftl (a / 4) BASE64_SHIFT_HIBYTE)
                  (Z.shiftr (a mod 4 * 16 + b / 16) BASE64_SHIFT)) = a.
Proof. octet. Qed.

Lemma octet2_eq a b c : in_u 8 a = true -> in_u 8 b = true -> in_u 8 c = true ->
  wrap_u 8 (Z.lor (Z.shiftl (a mod 4 * 16 + b / 16) BASE64_SHIFT)
                  (Z.shiftr (b mod 16 * 4 + c / 64) BASE64_SHIFT_HIBYTE)) = b.
Proof. octet. Qed.

Lemma octet3_eq b c : in_u 8 b = true -> in_u 8 c = true ->
  wrap_u 8 (Z.lor (Z.shiftl (b mod 16 * 4 + c / 64) BASE64_SHIFT_LOBYTE) (c mod 64)) = c.
Proof. octet. Qed.

Lemma sextet_bound a b : in_u 8 a = true -> in_u 8 b = true ->
  0 <= a / 4 < 64 /\ 0 <= a mod 4 * 16 < 64 /\ 0 <= a mod 4 * 16 + b / 16 < 64 /\
  0 <= a mod 16 * 4 < 64 /\ 0 <= a mod 16 * 4 + b / 64 < 64 /\ 0 <= a mod 64 < 64.
Proof. intros. repeat split; byte_arith. Qed.

(** ** [Encode] computes the reference encoding *)

Ltac b64_step :=
  rewrite ?at_0, ?at_1, ?at_2, ?at_3, ?bind_Done;
  rewrite ?code1_eq, ?code2_eq, ?sextet1_eq, ?sextet4_eq;
  rewrite ?sextet2_eq, ?sextet3_eq by done;
  rewrite ?encoder_char by tauto; rewrite ?bind_Done.

Ltac bytes_split H :=
  unfold bytes_ok in H; cbn [forallb] in H;
  repeat match type of H with _ && _ = true => apply andb_true_iff in H as [? H] end.

Lemma ltb_true x y : x < y -> (x <? y) = true.
Proof. apply Z.ltb_lt. Qed.

Lemma encode_loop_ref (l : list Z) : forall fuel pre result,
  bytes_ok l = true -> Z.of_nat (length l) < 2 ^ 32 -> (length l <= fuel)%nat ->
  encode_loop fuel (pre ++ l) (Z.of_nat (length pre)) (Z.of_nat (length l)) result
  = Done (result ++ b64_ref l).
Proof.
  induction l as [|a|a b|a b c l IH] using list3_ind; intros fuel pre result Hok Hlen Hfuel;
    [cbn [b64_ref]; rewrite !app_nil_r; by destruct fuel|..];
    (destruct fuel as [|fuel]; [cbn in Hfuel; lia|]); bytes_split Hok;
    cbn [encode_loop]; rewrite (ltb_true 0) by (cbn; lia).
  - pose proof (sextet_bound a a ltac:(done) ltac:(done)). do 2 b64_step. done.
  - pose proof (sextet_bound a b ltac:(done) ltac:(done)).
    pose proof (sextet_bound b b ltac:(done) ltac:(done)). do 3 b64_step. done.
  - pose proof (sextet_bound a b ltac:(done) ltac:(done)).
    pose proof (sextet_bound b c ltac:(done) ltac:(done)).
    pose proof (sextet_bound c c ltac:(done) ltac:(done)).
    rewrite !ltb_true by (unfold BASE64_ONE_PADDING, BASE64_TWO_PADDING; cbn; lia).
    do 4 b64_step.
    replace (pre ++ a :: b :: c :: l) with ((pre ++ [a; b; c]) ++ l) by by rewrite <- app_assoc.
    replace (Z.of_nat (length pre) + 1 + 1 + 1) with (Z.of_nat (length (pre ++ [a; b; c])))
      by (rewrite length_app; cbn; lia).
    replace (wrap_u 32 _) with (Z.of_nat (length l)).
    2: { rewrite wrap_u_id; [unfold BASE64_SRC_UNIT_SIZE; cbn; lia|].
         apply in_u_spec. unfold BASE64_SRC_UNIT_SIZE. cbn in *. lia. }
    rewrite IH; [|done|cbn in *; lia|cbn in *; lia]. by rewrite <- app_assoc.
Qed.

Lemma Encode_ref_eq (l : list Z) :
  bytes_ok l = true -> Z.of_nat (length l) < 2 ^ 32 ->
  Encode l = Done (String.string_of_list_ascii (b64_ref l)).
Proof.
  intros Hok Hlen. unfold Encode. rewrite wrap_u_id by (apply in_u_spec; lia).
  pose proof (encode_loop_ref l (length l) [] [] Hok Hlen ltac:(lia)) as E.
  change (Z.of_nat (length (@nil Z))) with 0 in E. change ([] ++ l) with l in E.
  by rewrite E.
Qed.

(** ** [Decode] inverts the reference encoding *)

Lemma length_b64_ref l : Z.of_nat (length (b64_ref l)) = 4 * ((Z.of_nat (length l) + 2) / 3).
Proof.
  induction l as [|a|a b|a b c l IH] using list3_ind; try done.
  cbn [b64_ref length app]. rewrite !Nat2Z.inj_succ, IH.
  replace (Z.succ (Z.succ (Z.succ (Z.of_nat (length l)))) + 2)
    with ((Z.of_nat (length l) + 2) + 1 * 3) by lia.
  rewrite Z.div_add by lia. lia.
Qed.

(** The reading position of one group of four characters does not wrap. *)
Lemma wrap32_group n : 0 <= n -> n + 4 < 2 ^ 32 ->
  wrap_u 32 (n + 1) = n + 1 /\ wrap_u 32 (n + 1 + 1) = n + 1 + 1 /\
  wrap_u 32 (n + 1 + 1 + 1) = n + 1 + 1 + 1 /\
  wrap_u 32 (n + 1 + 1 + 1 + 1) = n + 1 + 1 + 1 + 1.
Proof. intros. repeat split; apply wrap_u_id, in_u_spec; lia. Qed.

Lemma not_invalid n : 0 <= n < 64 -> (n =? BASE64_INVALID) = false.
Proof. intros. apply Z.eqb_neq. unfold BASE64_INVALID. lia. Qed.

Ltac dec_step :=
  rewrite ?at_0, ?at_1, ?at_2, ?at_3, ?bind_Done;
  rewrite ?decode_encoded by tauto; rewrite ?bind_Done;
  rewrite ?not_invalid by tauto; cbn [orb];
  rewrite ?(decide_False (P := b64_char _ = _)) by (apply b64_char_not_eq; tauto).

Lemma decode_loop_ref (l : list Z) : forall fuel pre result,
  bytes_ok l = true ->
  Z.of_nat (length pre) + Z.of_nat (length (b64_ref l)) < 2 ^ 32 ->
  (length (b64_ref l) <= fuel)%nat ->
  decode_loop fuel (pre ++ b64_ref l) (Z.of_nat (length pre)) result
  = Done (Some (result ++ l)).
Proof.
  induction l as [|a|a b|a b c l IH] using list3_ind; intros fuel pre result Hok Hlen Hfuel.
  { cbn [b64_ref]. rewrite !app_nil_r. destruct fuel; cbn [decode_loop]; by rewrite Z.ltb_irrefl. }
  all: (destruct fuel as [|fuel]; [cbn in Hfuel; lia|]); bytes_split Hok;
    cbn [decode_loop]; rewrite (ltb_true _ _) by (rewrite length_app; cbn; lia);
    cbn [b64_ref app] in *; cbn [length] in Hlen;
    (edestruct (wrap32_group (Z.of_nat (length pre))) as (-> & W2 & W3 & W4); [lia..|]);
    rewrite ?W2, ?W3, ?W4.
  - pose proof (sextet_bound a a ltac:(done) ltac:(done)). do 3 dec_step.
    replace (a mod 4 * 16) with (a mod 4 * 16 + 0 / 16) by (change (0 / 16) with 0; lia).
    by rewrite octet1_eq.
  - pose proof (sextet_bound a b ltac:(done) ltac:(done)).
    pose proof (sextet_bound b b ltac:(done) ltac:(done)). do 4 dec_step.
    replace (b mod 16 * 4) with (b mod 16 * 4 + 0 / 64) by (change (0 / 64) with 0; lia).
    rewrite octet1_eq, octet2_eq by done. by rewrite <- app_assoc.
  - pose proof (sextet_bound a b ltac:(done) ltac:(done)).
    pose proof (sextet_bound b c ltac:(done) ltac:(done)).
    pose proof (sextet_bound c c ltac:(done) ltac:(done)). do 4 dec_step.
    rewrite octet1_eq, octet2_eq, octet3_eq by done.
    set (p4 := [b64_char (a / 4); b64_char (a mod 4 * 16 + b / 16);
       b64_char (b mod 16 * 4 + c / 64); b64_char (c mod 64)]).
    replace (pre ++ _ :: _) with ((pre ++ p4) ++ b64_ref l) by by rewrite <- app_assoc.
    replace (Z.of_nat (length pre) + 1 + 1 + 1 + 1) with (Z.of_nat (length (pre ++ p4)))
      by (rewrite length_app; cbn; lia).
    rewrite IH; [by rewrite <- !app_assoc|done| |cbn in Hfuel; lia].
    rewrite length_app. cbn. lia.
Qed.

Lemma Decode_ref (l : list Z) :
  bytes_ok l = true -> Z.of_nat (length l) < 3 * (2 ^ 30 - 1) ->
  Decode (String.string_of_list_ascii (b64_ref l)) = Done (Some l).
Proof.
  intros Hok Hlen. pose proof (length_b64_ref l) as Hr.
  unfold Decode, slen. rewrite length_string_of_list, String.list_ascii_of_string_of_list_ascii, Hr.
  unfold BASE64_DEST_UNIT_SIZE. rewrite Z.mul_comm, Z_mod_mult. cbn [negb Z.eqb].
  pose proof (decode_loop_ref l (length (b64_ref l)) [] [] Hok) as E.
  change (Z.of_nat (length (@nil ascii))) with 0 in E. cbn [app] in E. rewrite E; [done| |lia].
  rewrite Hr. cbn [length]. Z.to_euclidean_division_equations. lia.
Qed.

(** ** [Decode] on arbitrary input *)

Lemma decode_char_total c : code c < 255 -> exists n, decode_char c = Done n /\ in_u 8 n = true.
Proof.
  intros Hc. unfold decode_char, index_.
  pose proof (code_u8 c) as H%in_u_spec.
  destruct (lookup_lt_is_Some_2 base64Decoder (Z.to_nat (code c))) as [v ->].
  { rewrite length_base64Decoder. lia. }
  exists (wrap_u 8 v). split; [done|]. by apply wrap_u_in_u.
Qed.

Definition no_255 (l : list ascii) : bool := forallb (fun c => code c <? 255) l.

Lemma bytes_ok_snoc l x : bytes_ok l = true -> in_u 8 x = true -> bytes_ok (l ++ [x]) = true.
Proof. intros Hl Hx. unfold bytes_ok in *. rewrite forallb_app, Hl. cbn. by rewrite Hx. Qed.

Lemma wrap_u8_ok z : in_u 8 (wrap_u 8 z) = true.
Proof. by apply wrap_u_in_u. Qed.

Create HintDb b64.
#[local] Hint Resolve bytes_ok_snoc wrap_u8_ok : b64.

Lemma decode_loop_safe (l : list ascii) :
  Z.of_nat (length l) mod 4 = 0 -> forall fuel pre result,
  no_255 l = true -> Z.of_nat (length pre) + Z.of_nat (length l) < 2 ^ 32 ->
  (length l <= fuel)%nat -> bytes_ok result = true ->
  exists r, decode_loop fuel (pre ++ l) (Z.of_nat (length pre)) result = Done r /\
    (forall out, r = Some out -> bytes_ok out = true).
Proof.
  intros Hl. pattern l. apply list4_ind; [..|done]; clear l Hl;
    [intros fuel pre result Hc Hlen Hfuel Hres|intros a b c d l IH fuel pre result Hc Hlen Hfuel Hres].
  { exists (Some result). rewrite !app_nil_r. split; [|by intros ? [= <-]].
    destruct fuel; cbn [decode_loop]; by rewrite Z.ltb_irrefl. }
  destruct fuel as [|fuel]; [cbn in Hfuel; lia|].
  cbn [decode_loop]; rewrite (ltb_true _ _) by (rewrite length_app; cbn; lia).
  unfold no_255 in Hc. cbn [forallb] in Hc. bools.
  destruct (wrap32_group (Z.of_nat (length pre))) as (-> & W2 & W3 & W4); [cbn in Hlen; lia..|].
  rewrite ?W2, ?W3, ?W4, at_0, at_1, at_2, at_3, !bind_Done.
  destruct (decode_char_total a) as (na & -> & Ha); [done|]. rewrite ?bind_Done.
  destruct (decode_char_total b) as (nb & -> & Hb); [done|]. rewrite ?bind_Done.
  case_goal; [by exists None|]. rewrite ?bind_Done.
  case_decide; [eexists; split; [done|intros ? [= <-]; auto with b64]|].
  destruct (decode_char_total c) as (nc & -> & Hc'); [done|]. rewrite ?bind_Done.
  case_goal; [by exists None|]. rewrite ?bind_Done.
  case_decide; [eexists; split; [done|intros ? [= <-]; auto with b64]|].
  destruct (decode_char_total d) as (nd & -> & Hd); [done|]. rewrite ?bind_Done.
  case_goal; [by exists None|].
  replace (pre ++ a :: b :: c :: d :: l) with ((pre ++ [a; b; c; d]) ++ l) by by rewrite <- app_assoc.
  replace (Z.of_nat (length pre) + 1 + 1 + 1 + 1) with (Z.of_nat (length (pre ++ [a; b; c; d])))
    by (rewrite length_app; cbn; lia).
  apply IH; [done| |cbn in Hfuel; lia|auto 6 with b64].
  rewrite length_app. cbn in *. lia.
Qed.

(** ** Properties *)

(** The bytes of every [uint8Array] below the 32-bit size limit survive
    [Encode] followed by [Decode]; neither call throws, reads outside a
    table or fails to terminate. *)
Theorem base64_roundtrip (l : list Z)
    (Hok : bytes_ok l = true) (Hlen : Z.of_nat (length l) < 3 * (2 ^ 30 - 1)) :
  exists s, Encode l = Done s /\ Decode s = Done (Some l).
Proof.
  eexists. split; [apply Encode_ref_eq; [done|lia]|by apply Decode_ref].
Qed.

Example base64_roundtrip_witness :
  exists s, Encode [0; 255; 16; 7] = Done s /\ Decode s = Done (Some [0; 255; 16; 7]).
Proof. apply base64_roundtrip; [vm_compute; reflexivity|vm_compute; reflexivity]. Defined.

(** C39: [Encode] computes the RFC 4648 encoding: its masked and shifted
    groups with padding are the 24-bit groups of the reference encoder. *)
Theorem Encode_is_rfc4648 (l : list Z)
    (Hok : bytes_ok l = true) (Hlen : Z.of_nat (length l) < 2 ^ 32) :
  Encode l = Done (String.string_of_list_ascii (b64_ref l)).
Proof. by apply Encode_ref_eq. Qed.

Example Encode_is_rfc4648_witness :
  Encode [77; 97; 110; 77] = Done (String.string_of_list_ascii (b64_ref [77; 97; 110; 77])).
Proof. apply Encode_is_rfc4648; vm_compute; reflexivity. Defined.

(** on every input below the 32-bit size limit that has no character
    255, [Decode] terminates, throws nothing, stays inside its tables, and
    stores only bytes; the character 255 is the one index the 255-entry table
    does not have. *)
Theorem Decode_safe (s : string)
    (Hlen : slen s < 2 ^ 32) (Hc : no_255 (String.list_ascii_of_string s) = true) :
  (exists r, Decode s = Done r /\ (forall out, r = Some out -> bytes_ok out = true)) /\
  Decode (String (char_of 255) "AAA") = Undef.
Proof.
  split; [|vm]. unfold Decode. unfold slen in *. rewrite <- length_list_of_string in *.
  destruct (Z.eqb_spec (Z.of_nat (length (String.list_ascii_of_string s)) mod BASE64_DEST_UNIT_SIZE) 0)
    as [Hm|]; cbn [negb]; [|by exists None].
  by apply (decode_loop_safe _ Hm _ [] []).
Qed.

Example Decode_safe_witness :
  (exists r, Decode "QQ=A" = Done r /\ (forall out, r = Some out -> bytes_ok out = true)) /\
  Decode (String (char_of 255) "AAA") = Undef.
Proof. apply Decode_safe; vm_compute; reflexivity. Defined.
