(* ===== verification/Parcel.v ===== *)
(** * Binary parcel of a value

    Models [preferences_value_parcel.cpp], the format in which the GSKV store
    keeps a value: a type byte followed by the object representation
    (little-endian, 64-bit [size_t]).  Buffers are byte lists; a store or a
    load outside the buffer is [Undef]. *)

From S2P Require Import Prelude Errno Value.

(** ** Sizes of the scalar types (LP64) *)

Definition sizeof_uint8 : nat := 1.
Definition sizeof_bool : nat := 1.
Definition sizeof_int : nat := 4.
Definition sizeof_float : nat := 4.
Definition sizeof_double : nat := 8.
Definition sizeof_int64 : nat := 8.
Definition sizeof_uint64 : nat := 8.
Definition sizeof_size_t : nat := 8.

(** [preferences_value_parcel.h:34-48] ParcelTypeIndex *)
Inductive ParcelTypeIndex :=
  | MONO_TYPE | INT_TYPE | LONG_TYPE | FLOAT_TYPE | DOUBLE_TYPE | BOOL_TYPE
  | STRING_TYPE | STRING_ARRAY_TYPE | BOOL_ARRAY_TYPE | DOUBLE_ARRAY_TYPE
  | UINT8_ARRAY_TYPE | OBJECT_TYPE | BIG_INT_TYPE.

#[export] Instance ParcelTypeIndex_eq_dec : EqDecision ParcelTypeIndex.
Proof. solve_decision. Defined.

(** The enumerators' values, and back ([None]: no enumerator). *)
Definition type_code (t : ParcelTypeIndex) : Z :=
  match t with
  | MONO_TYPE => 0 | INT_TYPE => 1 | LONG_TYPE => 2 | FLOAT_TYPE => 3
  | DOUBLE_TYPE => 4 | BOOL_TYPE => 5 | STRING_TYPE => 6 | STRING_ARRAY_TYPE => 7
  | BOOL_ARRAY_TYPE => 8 | DOUBLE_ARRAY_TYPE => 9 | UINT8_ARRAY_TYPE => 10
  | OBJECT_TYPE => 11 | BIG_INT_TYPE => 12
  end.

Definition type_of_code (z : Z) : option ParcelTypeIndex :=
  find (fun t => type_code t =? z)
    [MONO_TYPE; INT_TYPE; LONG_TYPE; FLOAT_TYPE; DOUBLE_TYPE; BOOL_TYPE;
     STRING_TYPE; STRING_ARRAY_TYPE; BOOL_ARRAY_TYPE; DOUBLE_ARRAY_TYPE;
     UINT8_ARRAY_TYPE; OBJECT_TYPE; BIG_INT_TYPE].

(** [preferences_value_parcel.cpp:25-54] GetTypeIndex *)
Definition GetTypeIndex (value : PreferencesValue) : ParcelTypeIndex :=
  if IsInt value then INT_TYPE
  else if IsLong value then LONG_TYPE
  else if IsFloat value then FLOAT_TYPE
  else if IsDouble value then DOUBLE_TYPE
  else if IsBool value then BOOL_TYPE
  else if IsString value then STRING_TYPE
  else if IsStringArray value then STRING_ARRAY_TYPE
  else if IsBoolArray value then BOOL_ARRAY_TYPE
  else if IsDoubleArray value then DOUBLE_ARRAY_TYPE
  else if IsUint8Array value then UINT8_ARRAY_TYPE
  else if IsObject value then OBJECT_TYPE
  else if IsBigInt value then BIG_INT_TYPE
  else MONO_TYPE.

(** [std::get] on the variant throws when it holds another alternative. *)
Definition std_get {A} (o : option A) : outcome A :=
  match o with Some a => Done a | None => Thrown end.

(** [OBJECT_TYPE] or [STRING_TYPE]: the string payload. *)
Definition string_payload (type : ParcelTypeIndex) (value : PreferencesValue) : outcome string :=
  if decide (type = OBJECT_TYPE)
  then o ← std_get (as_object value); Done (valueStr o)
  else std_get (as_string value).

Definition size_prefix : Z := Z.of_nat sizeof_uint8 + Z.of_nat sizeof_size_t.

(** [preferences_value_parcel.cpp:56-102] CalSize *)
Definition CalSize (value : PreferencesValue) : outcome Z :=
  let type := GetTypeIndex value in
  match type with
  | INT_TYPE => Done (wrap_u 32 (Z.of_nat sizeof_uint8 + Z.of_nat sizeof_int))
  | LONG_TYPE => Done (wrap_u 32 (Z.of_nat sizeof_uint8 + Z.of_nat sizeof_int64))
  | FLOAT_TYPE => Done (wrap_u 32 (Z.of_nat sizeof_uint8 + Z.of_nat sizeof_float))
  | DOUBLE_TYPE => Done (wrap_u 32 (Z.of_nat sizeof_uint8 + Z.of_nat sizeof_double))
  | BOOL_TYPE => Done (wrap_u 32 (Z.of_nat sizeof_uint8 + Z.of_nat sizeof_bool))
  | OBJECT_TYPE | STRING_TYPE =>
      s ← string_payload type value; Done (wrap_u 32 (size_prefix + slen s))
  | BOOL_ARRAY_TYPE =>
      l ← std_get (as_bool_array value);
      Done (wrap_u 32 (size_prefix + Z.of_nat (length l * sizeof_bool)))
  | DOUBLE_ARRAY_TYPE =>
      l ← std_get (as_double_array value);
      Done (wrap_u 32 (size_prefix + Z.of_nat (length l * sizeof_double)))
  | UINT8_ARRAY_TYPE =>
      l ← std_get (as_uint8_array value);
      Done (wrap_u 32 (size_prefix + Z.of_nat (length l * sizeof_uint8)))
  | STRING_ARRAY_TYPE =>
      strVec ← std_get (as_string_array value);
      Done (foldl (fun len s => wrap_u 32 (wrap_u 32 (len + Z.of_nat sizeof_size_t) + slen s))
              (wrap_u 32 size_prefix) strVec)
  | BIG_INT_TYPE =>
      b ← std_get (as_bigint value);
      Done (wrap_u 32 (size_prefix + Z.of_nat sizeof_int64 +
                       Z.of_nat (length (words_ b) * sizeof_uint64)))
  | MONO_TYPE => Done 0
  end.

(** ** Stores into the buffer *)

(** Overwrite [length src] bytes at [off]; [Undef] past the end. *)
Definition store (data : list Z) (off : nat) (src : list Z) : outcome (list Z) :=
  if (off + length src <=? length data)%nat
  then Done (take off data ++ src ++ drop (off + length src) data)
  else Undef.

Section marshalling.
(** The implementation's [RSIZE_MAX] (C11 Annex K). *)
Context (RSIZE_MAX : Z).

Definition EINVAL_RANGE : Z := 34.

(** [memcpy_s (dest, destMax, src, count)] with [dest = data + off] and
  [count = length src]: on a constraint violation a non-zero result, with
  the destination zeroed when [destMax] itself is valid. *)
Definition memcpy_s (data : list Z) (off : nat) (destMax : Z) (src : list Z)
  : outcome (Z * list Z) :=
if (destMax <=? 0) || (RSIZE_MAX <? destMax) then Done (EINVAL_RANGE, data)
else if destMax <? Z.of_nat (length src) then
  data' ← store data off (replicate (Z.to_nat destMax) 0); Done (EINVAL_RANGE, data')
else
  data' ← store data off src; Done (E_OK, data').

Definition bool_byte (b : bool) : Z := if b then 1 else 0.

(** [preferences_value_parcel.cpp:104-155] MarshallingBasicValueInner *)
Definition MarshallingBasicValueInner (value : PreferencesValue) (type : ParcelTypeIndex)
  (data : list Z) : outcome (Z * list Z) :=
if (length data <=? sizeof_uint8)%nat then Done (E_ERROR, data)
else
  let memLen := Z.of_nat (length data - sizeof_uint8) in
  '(errCode, data) ←
    (match type with
     | INT_TYPE =>
         v ← std_get (as_int value); memcpy_s data sizeof_uint8 memLen (le_encode sizeof_int v)
     | LONG_TYPE =>
         v ← std_get (as_long value); memcpy_s data sizeof_uint8 memLen (le_encode sizeof_int64 v)
     | FLOAT_TYPE =>
         v ← std_get (as_float value); memcpy_s data sizeof_uint8 memLen (le_encode sizeof_float v)
     | DOUBLE_TYPE =>
         v ← std_get (as_double value); memcpy_s data sizeof_uint8 memLen (le_encode sizeof_double v)
     | BOOL_TYPE =>
         v ← std_get (as_bool value); memcpy_s data sizeof_uint8 memLen [bool_byte v]
     | _ => Done (E_OK, data)
     end);
  if negb (errCode =? E_OK) then Done (E_ERROR, data) else Done (E_OK, data).

(** [preferences_value_parcel.cpp:163-173] MarshallingBasicValue *)
Definition MarshallingBasicValue (value : PreferencesValue) (type : ParcelTypeIndex)
  (data : list Z) : outcome (Z * list Z) :=
'(errCode, data) ← memcpy_s data 0 (Z.of_nat (length data)) [type_code type];
if negb (errCode =? E_OK) then Done (E_NOT_SUPPORTED, data)
else MarshallingBasicValueInner value type data.

(** [preferences_value_parcel.cpp:181-214] MarshallingStringValue *)
Definition MarshallingStringValue (value : PreferencesValue) (type : ParcelTypeIndex)
  (data : list Z) : outcome (Z * list Z) :=
stringValue ← string_payload type value;
'(errCode, data) ← memcpy_s data 0 (Z.of_nat sizeof_uint8) [type_code type];
if negb (errCode =? E_OK) then Done (- E_ERROR, data) else
let strLen := slen stringValue in
'(errCode, data) ← memcpy_s data sizeof_uint8 (Z.of_nat sizeof_size_t) (le_encode sizeof_size_t strLen);
if negb (errCode =? E_OK) then Done (- E_ERROR, data) else
if strLen =? 0 then Done (E_OK, data) else
'(errCode, data) ← memcpy_s data (sizeof_uint8 + sizeof_size_t) strLen (bytes_of_string stringValue);
if negb (errCode =? E_OK) then Done (- E_ERROR, data) else Done (E_OK, data).

(** The loop over the strings of an array, writing at [startAddr].

  [preferences_value_parcel.cpp:244-263] MarshallingStringArrayValue *)
Fixpoint marshal_strings (strVec : list string) (startAddr : nat) (data : list Z)
  : outcome (Z * list Z) :=
match strVec with
| [] => Done (E_OK, data)
| s :: rest =>
    let strLen := slen s in
    '(errCode, data) ← memcpy_s data startAddr (Z.of_nat sizeof_size_t) (le_encode sizeof_size_t strLen);
    if negb (errCode =? E_OK) then Done (- E_ERROR, data) else
    let startAddr := (startAddr + sizeof_size_t)%nat in
    if strLen =? 0 then marshal_strings rest startAddr data else
    '(errCode, data) ← memcpy_s data startAddr strLen (bytes_of_string s);
    if negb (errCode =? E_OK) then Done (- E_ERROR, data) else
    marshal_strings rest (startAddr + String.length s) data
end.

(** [preferences_value_parcel.cpp:222-264] MarshallingStringArrayValue *)
Definition MarshallingStringArrayValue (value : PreferencesValue) (type : ParcelTypeIndex)
  (data : list Z) : outcome (Z * list Z) :=
strVec ← std_get (as_string_array value);
'(errCode, data) ← memcpy_s data 0 (Z.of_nat sizeof_uint8) [type_code type];
if negb (errCode =? E_OK) then Done (- E_ERROR, data) else
'(errCode, data) ← memcpy_s data sizeof_uint8 (Z.of_nat sizeof_size_t)
                     (le_encode sizeof_size_t (Z.of_nat (length strVec)));
if negb (errCode =? E_OK) then Done (- E_ERROR, data) else
marshal_strings strVec (sizeof_uint8 + sizeof_size_t) data.

(** The element loops of the three fixed-width arrays: [sizeof(T)] bytes per
  element, stopping with [E_ERROR] at the first failing copy. *)
Fixpoint marshal_items {A} (sz : nat) (repr : A -> list Z) (vec : list A) (startAddr : nat)
  (data : list Z) : outcome (Z * list Z) :=
match vec with
| [] => Done (E_OK, data)
| item :: rest =>
    '(errCode, data) ← memcpy_s data startAddr (Z.of_nat sz) (repr item);
    if negb (errCode =? E_OK) then Done (E_ERROR, data) else
    marshal_items sz repr rest (startAddr + sz) data
end.

(** [preferences_value_parcel.cpp:266-286] MarshallingVecUInt8AfterType *)
Definition MarshallingVecUInt8AfterType (value : PreferencesValue) (startAddr : nat)
  (data : list Z) : outcome (Z * list Z) :=
vec ← std_get (as_uint8_array value);
let vecNum := Z.of_nat (length vec) in
'(errCode, data) ← memcpy_s data startAddr (Z.of_nat sizeof_size_t) (le_encode sizeof_size_t vecNum);
if negb (errCode =? E_OK) then Done (E_ERROR, data) else
if vecNum =? 0 then Done (E_OK, data) else
'(errCode, data) ← memcpy_s data (startAddr + sizeof_size_t) (vecNum * Z.of_nat sizeof_uint8) vec;
if negb (errCode =? E_OK) then Done (E_ERROR, data) else Done (errCode, data).

(** [preferences_value_parcel.cpp:294-328] MarshallingVecBigIntAfterType *)
Definition MarshallingVecBigIntAfterType (value : PreferencesValue) (startAddr : nat)
  (data : list Z) : outcome (Z * list Z) :=
bigIntValue ← std_get (as_bigint value);
let sign := sign_ bigIntValue in
let words := words_ bigIntValue in
'(errCode, data) ← memcpy_s data startAddr (Z.of_nat sizeof_size_t)
                     (le_encode sizeof_size_t (Z.of_nat (length words)));
if negb (errCode =? E_OK) then Done (E_ERROR, data) else
let startAddr := (startAddr + sizeof_size_t)%nat in
'(errCode, data) ← memcpy_s data startAddr (Z.of_nat sizeof_int64) (le_encode sizeof_int64 sign);
if negb (errCode =? E_OK) then Done (E_ERROR, data) else
marshal_items sizeof_uint64 (le_encode sizeof_uint64) words (startAddr + sizeof_int64) data.

(** [preferences_value_parcel.cpp:330-353] MarshallingVecDoubleAfterType *)
Definition MarshallingVecDoubleAfterType (value : PreferencesValue) (startAddr : nat)
  (data : list Z) : outcome (Z * list Z) :=
vec ← std_get (as_double_array value);
'(errCode, data) ← memcpy_s data startAddr (Z.of_nat sizeof_size_t)
                     (le_encode sizeof_size_t (Z.of_nat (length vec)));
if negb (errCode =? E_OK) then Done (E_ERROR, data) else
marshal_items sizeof_double (le_encode sizeof_double) vec (startAddr + sizeof_size_t) data.

(** [preferences_value_parcel.cpp:355-378] MarshallingVecBoolAfterType *)
Definition MarshallingVecBoolAfterType (value : PreferencesValue) (startAddr : nat)
  (data : list Z) : outcome (Z * list Z) :=
vec ← std_get (as_bool_array value);
'(errCode, data) ← memcpy_s data startAddr (Z.of_nat sizeof_size_t)
                     (le_encode sizeof_size_t (Z.of_nat (length vec)));
if negb (errCode =? E_OK) then Done (E_ERROR, data) else
marshal_items sizeof_bool (fun b => [bool_byte b]) vec (startAddr + sizeof_size_t) data.

(** [preferences_value_parcel.cpp:386-416] MarshallingBasicArrayValue *)
Definition MarshallingBasicArrayValue (value : PreferencesValue) (type : ParcelTypeIndex)
  (data : list Z) : outcome (Z * list Z) :=
'(errCode, data) ← memcpy_s data 0 (Z.of_nat sizeof_uint8) [type_code type];
if negb (errCode =? E_OK) then Done (E_ERROR, data) else
let startAddr := sizeof_uint8 in
match type with
| UINT8_ARRAY_TYPE => MarshallingVecUInt8AfterType value startAddr data
| BIG_INT_TYPE => MarshallingVecBigIntAfterType value startAddr data
| DOUBLE_ARRAY_TYPE => MarshallingVecDoubleAfterType value startAddr data
| BOOL_ARRAY_TYPE => MarshallingVecBoolAfterType value startAddr data
| _ => Done (E_INVALID_ARGS, data)
end.

(** [preferences_value_parcel.cpp:418-449] MarshallingPreferenceValue *)
Definition MarshallingPreferenceValue (value : PreferencesValue) (data : list Z)
  : outcome (Z * list Z) :=
let type := GetTypeIndex value in
match type with
| INT_TYPE | LONG_TYPE | FLOAT_TYPE | DOUBLE_TYPE | BOOL_TYPE =>
    MarshallingBasicValue value type data
| STRING_TYPE | OBJECT_TYPE => MarshallingStringValue value type data
| STRING_ARRAY_TYPE => MarshallingStringArrayValue value type data
| UINT8_ARRAY_TYPE | BIG_INT_TYPE | DOUBLE_ARRAY_TYPE | BOOL_ARRAY_TYPE =>
    MarshallingBasicArrayValue value type data
| MONO_TYPE => Done (E_INVALID_ARGS, data)
end.

End marshalling.

(** ** Loads from the buffer *)

(** [n] bytes at [off], unchecked in the source: [Undef] past the end. *)
Definition load (data : list Z) (off n : nat) : outcome (list Z) :=
  if (off + n <=? length data)%nat then Done (take n (drop off data)) else Undef.

Definition load_u (data : list Z) (off n : nat) : outcome Z :=
  l ← load data off n; Done (le_decode l).

Definition load_s (data : list Z) (off n : nat) : outcome Z :=
  l ← load data off n; Done (wrap_s (8 * Z.of_nat n) (le_decode l)).

Definition load_bool (data : list Z) (off : nat) : outcome bool :=
  b ← load_u data off sizeof_bool; Done (negb (b =? 0)).

Definition load_size (data : list Z) (off : nat) : outcome Z := load_u data off sizeof_size_t.

(** [preferences_value_parcel.cpp:451-480] UnmarshallingBasicValue *)
Definition UnmarshallingBasicValue (type : ParcelTypeIndex) (data : list Z)
    : outcome (Z * PreferencesValue) :=
  match type with
  | INT_TYPE => v ← load_s data sizeof_uint8 sizeof_int; Done (E_OK, VInt v)
  | LONG_TYPE => v ← load_s data sizeof_uint8 sizeof_int64; Done (E_OK, VLong v)
  | FLOAT_TYPE => v ← load_u data sizeof_uint8 sizeof_float; Done (E_OK, VFloat v)
  | DOUBLE_TYPE => v ← load_u data sizeof_uint8 sizeof_double; Done (E_OK, VDouble v)
  | BOOL_TYPE => v ← load_bool data sizeof_uint8; Done (E_OK, VBool v)
  | _ => Done (E_INVALID_ARGS, VInt 0)
  end.

(** [resize] of a vector or a string throws [length_error] beyond the
    [max_size] of 64-bit containers of bytes.  (Below that bound it may throw
    [bad_alloc]; the model gives the outcome of an allocation that succeeds.) *)
Definition resize_ (n : Z) : outcome unit :=
  if 2 ^ 63 - 1 <? n then Thrown else Done ().

(** The characters [[off, off + strLen)] as a string. *)
Definition load_string (data : list Z) (off : nat) (strLen : Z) : outcome string :=
  if strLen =? 0 then Done "" else
  resize_ strLen;;
  if Z.of_nat (length data) <? strLen then Undef
  else l ← load data off (Z.to_nat strLen); Done (string_of_bytes l).

(** [preferences_value_parcel.cpp:482-504] UnmarshallingStringValue *)
Definition UnmarshallingStringValue (type : ParcelTypeIndex) (data : list Z)
    : outcome (Z * PreferencesValue) :=
  strLen ← load_size data sizeof_uint8;
  strValue ← load_string data (sizeof_uint8 + sizeof_size_t) strLen;
  match type with
  | OBJECT_TYPE => Done (E_OK, VObject (mkObject strValue))
  | STRING_TYPE => Done (E_OK, VString strValue)
  | _ => Done (E_INVALID_ARGS, VInt 0)
  end.

(** [preferences_value_parcel.cpp:519-531] UnmarshallingStringArrayValue *)
Fixpoint unmarshal_strings (fuel : nat) (vecNum : Z) (data : list Z) (startAddr : nat)
    : outcome (list string) :=
  if 0 <? vecNum then
    match fuel with
    | O => NoFuel
    | S fuel' =>
        strLen ← load_size data startAddr;
        let startAddr := (startAddr + sizeof_size_t)%nat in
        strValue ← load_string data startAddr strLen;
        rest ← unmarshal_strings fuel' (vecNum - 1) data (startAddr + Z.to_nat strLen);
        Done (strValue :: rest)
    end
  else Done [].

(** [preferences_value_parcel.cpp:506-533] UnmarshallingStringArrayValue *)
Definition UnmarshallingStringArrayValue (type : ParcelTypeIndex) (data : list Z)
    : outcome (Z * PreferencesValue) :=
  if negb (bool_decide (type = STRING_ARRAY_TYPE)) then Done (E_INVALID_ARGS, VInt 0) else
  vecNum ← load_size data sizeof_uint8;
  resize_ vecNum;;
  strVec ← unmarshal_strings (S (length data)) vecNum data (sizeof_uint8 + sizeof_size_t);
  Done (E_OK, VStringArray strVec).

(** The element loops of the fixed-width arrays. *)
Fixpoint unmarshal_items {A} (sz : nat) (get : list Z -> nat -> outcome A) (fuel : nat)
    (vecNum : Z) (data : list Z) (startAddr : nat) : outcome (list A) :=
  if 0 <? vecNum then
    match fuel with
    | O => NoFuel
    | S fuel' =>
        element ← get data startAddr;
        rest ← unmarshal_items sz get fuel' (vecNum - 1) data (startAddr + sz);
        Done (element :: rest)
    end
  else Done [].

Definition load_at (n : nat) (data : list Z) (off : nat) : outcome Z := load_u data off n.

(** [preferences_value_parcel.cpp:535-549] UnmarshallingVecUInt8 *)
Definition UnmarshallingVecUInt8 (data : list Z) : outcome (Z * PreferencesValue) :=
  vecNum ← load_size data sizeof_uint8;
  resize_ vecNum;;
  vec ← unmarshal_items sizeof_uint8 (load_at sizeof_uint8) (S (length data)) vecNum data
          (sizeof_uint8 + sizeof_size_t);
  Done (E_OK, VUint8Array vec).

(** [preferences_value_parcel.cpp:551-565] UnmarshallingVecDouble *)
Definition UnmarshallingVecDouble (data : list Z) : outcome (Z * PreferencesValue) :=
  vecNum ← load_size data sizeof_uint8;
  resize_ vecNum;;
  vec ← unmarshal_items sizeof_double (load_at sizeof_double) (S (length data)) vecNum data
          (sizeof_uint8 + sizeof_size_t);
  Done (E_OK, VDoubleArray vec).

(** [preferences_value_parcel.cpp:567-581] UnmarshallingVecBool *)
Definition UnmarshallingVecBool (data : list Z) : outcome (Z * PreferencesValue) :=
  vecNum ← load_size data sizeof_uint8;
  resize_ vecNum;;
  vec ← unmarshal_items sizeof_bool load_bool (S (length data)) vecNum data
          (sizeof_uint8 + sizeof_size_t);
  Done (E_OK, VBoolArray vec).

(** The sign is an [int64_t] in the parcel and narrowed to the [int] member.

    [preferences_value_parcel.cpp:583-601] UnmarshallingVecBigInt *)
Definition UnmarshallingVecBigInt (data : list Z) : outcome (Z * PreferencesValue) :=
  vecNum ← load_size data sizeof_uint8;
  let startAddr := (sizeof_uint8 + sizeof_size_t)%nat in
  sign ← load_s data startAddr sizeof_int64;
  resize_ vecNum;;
  vec ← unmarshal_items sizeof_uint64 (load_at sizeof_uint64) (S (length data)) vecNum data
          (startAddr + sizeof_int64);
  Done (E_OK, VBigInt (mkBigInt vec (wrap_s 32 sign))).

(** [preferences_value_parcel.cpp:603-623] UnmarshallingBasicArrayValue *)
Definition UnmarshallingBasicArrayValue (type : ParcelTypeIndex) (data : list Z)
    : outcome (Z * PreferencesValue) :=
  match type with
  | UINT8_ARRAY_TYPE => UnmarshallingVecUInt8 data
  | BIG_INT_TYPE => UnmarshallingVecBigInt data
  | DOUBLE_ARRAY_TYPE => UnmarshallingVecDouble data
  | BOOL_ARRAY_TYPE => UnmarshallingVecBool data
  | _ => Done (E_INVALID_ARGS, VInt 0)
  end.

(** [preferences_value_parcel.cpp:625-656] UnmarshallingPreferenceValue *)
Definition UnmarshallingPreferenceValue (data : list Z) : outcome (Z * PreferencesValue) :=
  match data with
  | [] => Done (E_INVALID_ARGS, VInt 0)
  | b :: _ =>
      match type_of_code b with
      | Some ((INT_TYPE | LONG_TYPE | FLOAT_TYPE | DOUBLE_TYPE | BOOL_TYPE) as type) =>
          UnmarshallingBasicValue type data
      | Some ((OBJECT_TYPE | STRING_TYPE) as type) => UnmarshallingStringValue type data
      | Some ((STRING_ARRAY_TYPE) as type) => UnmarshallingStringArrayValue type data
      | Some ((UINT8_ARRAY_TYPE | BIG_INT_TYPE | DOUBLE_ARRAY_TYPE | BOOL_ARRAY_TYPE) as type) =>
          UnmarshallingBasicArrayValue type data
      | Some MONO_TYPE | None => Done (E_INVALID_ARGS, VInt 0)
      end
  end.

(** ** The format, as a specification *)

Definition parcel_supported (v : PreferencesValue) : bool :=
  negb (bool_decide (GetTypeIndex v = MONO_TYPE)).

Definition sized_string (s : string) : list Z :=
  le_encode sizeof_size_t (slen s) ++ bytes_of_string s.

Definition sized_items {A} (repr : A -> list Z) (l : list A) : list Z :=
  le_encode sizeof_size_t (Z.of_nat (length l)) ++ concat (map repr l).

(** The payload that follows the type byte. *)
Definition parcel_payload (v : PreferencesValue) : list Z :=
  match v with
  | VInt z => le_encode sizeof_int z
  | VLong z => le_encode sizeof_int64 z
  | VFloat b => le_encode sizeof_float b
  | VDouble b => le_encode sizeof_double b
  | VBool b => [bool_byte b]
  | VString s => sized_string s
  | VObject o => sized_string (valueStr o)
  | VStringArray l => sized_items sized_string l
  | VBoolArray l => sized_items (fun b => [bool_byte b]) l
  | VDoubleArray l => sized_items (le_encode sizeof_double) l
  | VUint8Array l => sized_items (fun b => [b]) l
  | VBigInt b =>
      le_encode sizeof_size_t (Z.of_nat (length (words_ b))) ++ le_encode sizeof_int64 (sign_ b) ++
      concat (map (le_encode sizeof_uint64) (words_ b))
  | VMonostate | VIntArray _ | VInt64Array _ => []
  end.

Definition parcel_bytes (v : PreferencesValue) : list Z :=
  type_code (GetTypeIndex v) :: parcel_payload v.

(** The number of bytes of the parcel, not reduced modulo [2^32]. *)
Definition parcel_size (v : PreferencesValue) : Z := Z.of_nat (length (parcel_bytes v)).

(** ** Stores at the end of the written part *)

Lemma store_next pre rest src :
  (length src <= length rest)%nat ->
  store (pre ++ rest) (length pre) src = Done (pre ++ src ++ drop (length src) rest).
Proof.
  intros H. unfold store. rewrite length_app, (proj2 (Nat.leb_le _ _)) by lia.
  by rewrite take_app_length, drop_app_add.
Qed.

Lemma memcpy_next R pre rest src destMax off :
  off = length pre -> 0 < destMax <= R -> Z.of_nat (length src) <= destMax ->
  (length src <= length rest)%nat ->
  memcpy_s R (pre ++ rest) off destMax src = Done (E_OK, pre ++ src ++ drop (length src) rest).
Proof.
  intros -> HR Hd Hl. unfold memcpy_s.
  destruct (Z.leb_spec destMax 0); [lia|]. destruct (Z.ltb_spec R destMax); [lia|].
  destruct (Z.ltb_spec destMax (Z.of_nat (length src))); [lia|]. cbn [orb].
  by rewrite store_next.
Qed.

(** Splitting off what the next store overwrites. *)
Lemma memcpy_fill R pre hole rest src destMax off :
  off = length pre -> 0 < destMax <= R -> Z.of_nat (length src) <= destMax ->
  length hole = length src ->
  memcpy_s R (pre ++ hole ++ rest) off destMax src = Done (E_OK, (pre ++ src) ++ rest).
Proof.
  intros -> HR Hd Hl. rewrite memcpy_next; [|done..|rewrite length_app; lia].
  by rewrite <- Hl, drop_app_length, <- app_assoc.
Qed.

Lemma marshal_items_ok {A} R (sz : nat) (repr : A -> list Z) (vec : list A) :
  (forall x, length (repr x) = sz) -> 0 < Z.of_nat sz <= R ->
  forall pre rest, length rest = length (concat (map repr vec)) ->
  marshal_items R sz repr vec (length pre) (pre ++ rest)
  = Done (E_OK, pre ++ concat (map repr vec)).
Proof.
  intros Hsz HR. induction vec as [|x vec IH]; intros pre rest Hrest.
  { apply nil_length_inv in Hrest as ->. done. }
  cbn [marshal_items map concat] in *. rewrite length_app in Hrest.
  rewrite <- (take_drop sz rest). rewrite memcpy_fill; [|done|done|rewrite Hsz; lia|].
  2: { rewrite length_take, Hsz in *. lia. }
  rewrite bind_Done. cbn [negb Z.eqb].
  replace (length pre + sz)%nat with (length (pre ++ repr x)) by (rewrite length_app, Hsz; lia).
  change (negb (E_OK =? E_OK)) with false. cbn [negb].
  rewrite IH; [by rewrite <- app_assoc|]. rewrite length_drop, Hsz in *. lia.
Qed.

Lemma length_sized_string s : length (sized_string s) = (8 + String.length s)%nat.
Proof.
  unfold sized_string. by rewrite length_app, length_le_encode, length_bytes_of_string.
Qed.

Lemma split_length {A} n (l : list A) :
  (n <= length l)%nat -> exists a b, l = a ++ b /\ length a = n.
Proof.
  intros H. exists (take n l), (drop n l). rewrite take_drop, length_take. split; [done|lia].
Qed.

(** Closes the side conditions of [memcpy_fill] and [memcpy_next]. *)
Ltac sizes :=
  unfold slen, sizeof_uint8, sizeof_bool, sizeof_int, sizeof_float, sizeof_double,
    sizeof_int64, sizeof_uint64, sizeof_size_t in *;
  cbn [length] in *;
  rewrite ?length_app, ?length_le_encode, ?length_bytes_of_string in *; cbn [length] in *; lia.

Lemma marshal_strings_ok R (vec : list string) :
  forall pre rest, length rest = length (concat (map sized_string vec)) ->
  Z.of_nat (length rest) <= R -> 
  marshal_strings R vec (length pre) (pre ++ rest)
  = Done (E_OK, pre ++ concat (map sized_string vec)).
Proof.
  induction vec as [|s vec IH]; intros pre rest Hrest HR.
  { apply nil_length_inv in Hrest as ->. done. }
  cbn [marshal_strings map concat] in *. rewrite length_app, length_sized_string in Hrest.
  destruct (split_length 8 rest) as (n8 & rest1 & -> & Hn8); [lia|].
  rewrite length_app in *.
  rewrite memcpy_fill by sizes. rewrite bind_Done. change (negb (E_OK =? E_OK)) with false.
  cbn iota. set (pre1 := pre ++ _).
  replace (length pre + sizeof_size_t)%nat with (length pre1) by (subst pre1; sizes).
  assert (Hs : sized_string s = le_encode sizeof_size_t (slen s) ++ bytes_of_string s) by done.
  destruct (Z.eqb_spec (slen s) 0) as [E|E].
  - rewrite IH by sizes. rewrite Hs. destruct s; [|unfold slen in E; cbn in E; lia].
    subst pre1. by rewrite app_nil_r, <- app_assoc.
  - destruct (split_length (String.length s) rest1) as (hs & rest2 & -> & Hhs); [lia|].
    rewrite length_app in *. rewrite memcpy_fill by sizes. rewrite bind_Done.
    change (negb (E_OK =? E_OK)) with false. cbn iota. set (pre2 := pre1 ++ _).
    replace (length pre1 + String.length s)%nat with (length pre2) by (subst pre2; sizes).
    rewrite IH by sizes. subst pre1 pre2. by rewrite Hs, <- !app_assoc.
Qed.

Ltac mc := rewrite memcpy_fill by sizes; rewrite bind_Done;
  change (negb (E_OK =? E_OK)) with false; cbn iota.

(** The type byte, written into a buffer of at least one byte. *)
Lemma marshal_type R t x rest : 1 <= R ->
  memcpy_s R (x :: rest) 0 (Z.of_nat sizeof_uint8) [type_code t] = Done (E_OK, type_code t :: rest).
Proof. intros. exact (memcpy_fill R [] [x] rest [type_code t] 1 0 eq_refl ltac:(lia) ltac:(done) eq_refl). Qed.

Lemma marshal_basic R v t payload data :
  length data = S (length payload) -> (0 < length payload)%nat -> Z.of_nat (length data) <= R ->
  (forall d, (1 < length d)%nat -> length d = length data -> MarshallingBasicValueInner R v t d =
     ('(e, d') ← memcpy_s R d 1 (Z.of_nat (length d - 1)) payload;
      if negb (e =? E_OK) then Done (E_ERROR, d') else Done (E_OK, d'))) ->
  MarshallingBasicValue R v t data = Done (E_OK, type_code t :: payload).
Proof.
  intros Hl Hp HR Hinner. destruct data as [|x rest]; [done|]. cbn in Hl.
  unfold MarshallingBasicValue.
  rewrite (memcpy_fill R [] [x] rest [type_code t] _ 0) by sizes.
  rewrite bind_Done. change (negb (E_OK =? E_OK)) with false. cbn iota.
  rewrite Hinner by sizes. change (([] ++ [type_code t]) ++ rest) with ([type_code t] ++ rest).
  rewrite memcpy_next by sizes. rewrite bind_Done. change (negb (E_OK =? E_OK)) with false.
  cbn iota. do 2 f_equal. cbn. f_equal. rewrite drop_ge by sizes. by rewrite app_nil_r.
Qed.

(** A type byte and a size field, the common head of the sized formats. *)
Lemma marshal_head R x n8 rest t n :
  length n8 = 8%nat -> 8 <= R ->
  memcpy_s R (x :: n8 ++ rest) 0 (Z.of_nat sizeof_uint8) [type_code t]
    = Done (E_OK, [type_code t] ++ n8 ++ rest) /\
  memcpy_s R ([type_code t] ++ n8 ++ rest) sizeof_uint8 (Z.of_nat sizeof_size_t)
    (le_encode sizeof_size_t n)
    = Done (E_OK, ([type_code t] ++ le_encode sizeof_size_t n) ++ rest).
Proof. intros Hn HR. split; [by rewrite marshal_type by lia|by rewrite memcpy_fill by sizes]. Qed.

(** Splitting off the hole of a known length from a buffer. *)
Ltac split_off n rest :=
  let h := fresh "hole" in let r := fresh "rest" in let Hh := fresh "Hhole" in
  destruct (split_length n rest) as (h & r & -> & Hh); [sizes|]; rewrite ?length_app in *.

Lemma marshal_string R v t s data :
  string_payload t v = Done s ->
  length data = S (length (sized_string s)) -> Z.of_nat (length data) <= R ->
  MarshallingStringValue R v t data = Done (E_OK, type_code t :: sized_string s).
Proof.
  intros Hs Hl HR. rewrite length_sized_string in Hl. unfold MarshallingStringValue.
  rewrite Hs, bind_Done. destruct data as [|x rest]; [done|]. cbn [length] in Hl.
  split_off 8%nat rest. rewrite marshal_type by sizes. rewrite bind_Done.
  change (negb (E_OK =? E_OK)) with false. cbn iota.
  change (type_code t :: hole ++ rest0) with ([type_code t] ++ hole ++ rest0). mc.
  case_match eqn:E; bools; unfold slen in E.
  - assert (rest0 = []) as -> by (apply nil_length_inv; sizes).
    destruct s; [|cbn in E; lia]. done.
  - rewrite <- (app_nil_r rest0). mc. do 2 f_equal. unfold sized_string.
    rewrite app_nil_r. by rewrite <- app_assoc.
Qed.

Lemma marshal_string_array R v l data :
  as_string_array v = Some l ->
  length data = S (length (sized_items sized_string l)) -> Z.of_nat (length data) <= R ->
  MarshallingStringArrayValue R v STRING_ARRAY_TYPE data
  = Done (E_OK, type_code STRING_ARRAY_TYPE :: sized_items sized_string l).
Proof.
  intros Hv Hl HR. unfold sized_items in *. unfold MarshallingStringArrayValue. rewrite Hv.
  cbn [std_get]. rewrite bind_Done. destruct data as [|x rest]; [done|]. 
  rewrite length_app in Hl.
  split_off 8%nat rest. 
  destruct (marshal_head R x hole rest0 STRING_ARRAY_TYPE (Z.of_nat (length l))) as [-> E2];
    [sizes..|]. rewrite bind_Done. change (negb (E_OK =? E_OK)) with false. cbn iota.
  rewrite E2, bind_Done. change (negb (E_OK =? E_OK)) with false. cbn iota.
  exact (marshal_strings_ok R l (type_code STRING_ARRAY_TYPE ::
    le_encode sizeof_size_t (Z.of_nat (length l))) rest0 ltac:(sizes) ltac:(sizes)).
Qed.

(** The three arrays whose elements are stored one by one. *)
Lemma marshal_sized_items {A} R (sz : nat) (repr : A -> list Z) (l : list A) t hole rest :
  (forall x, length (repr x) = sz) -> (0 < sz)%nat -> length hole = 8%nat ->
  length rest = length (concat (map repr l)) -> 8 + Z.of_nat sz <= R ->
  ('(errCode, data) ← memcpy_s R ([t] ++ hole ++ rest) sizeof_uint8 (Z.of_nat sizeof_size_t)
       (le_encode sizeof_size_t (Z.of_nat (length l)));
   if negb (errCode =? E_OK) then Done (E_ERROR, data) else
   marshal_items R sz repr l (sizeof_uint8 + sizeof_size_t) data)
  = Done (E_OK, t :: sized_items repr l).
Proof.
  intros Hsz Hpos Hh Hr HR. mc.
  exact (marshal_items_ok R sz repr l Hsz ltac:(lia)
    (t :: le_encode sizeof_size_t (Z.of_nat (length l))) rest ltac:(sizes)).
Qed.

Lemma length_concat_map {A} (f : A -> list Z) n l :
  (forall x, length (f x) = n) -> length (concat (map f l)) = (n * length l)%nat.
Proof.
  intros Hf. induction l as [|x l IH]; [cbn; lia|].
  cbn [map concat length]. rewrite length_app, IH, Hf. lia.
Qed.

Lemma concat_singletons (l : list Z) : concat (map (fun b => [b]) l) = l.
Proof. induction l as [|x l IH]; [done|]. cbn. by f_equal. Qed.

Lemma marshal_basic_array R v t data hole rest :
  length hole = 8%nat -> 1 <= R ->
  data = type_code t :: hole ++ rest ->
  forall x, MarshallingBasicArrayValue R v t (x :: hole ++ rest) =
  match t with
  | UINT8_ARRAY_TYPE => MarshallingVecUInt8AfterType R v sizeof_uint8 data
  | BIG_INT_TYPE => MarshallingVecBigIntAfterType R v sizeof_uint8 data
  | DOUBLE_ARRAY_TYPE => MarshallingVecDoubleAfterType R v sizeof_uint8 data
  | BOOL_ARRAY_TYPE => MarshallingVecBoolAfterType R v sizeof_uint8 data
  | _ => Done (E_INVALID_ARGS, data)
  end.
Proof.
  intros Hh HR -> x. unfold MarshallingBasicArrayValue. rewrite marshal_type by lia.
  rewrite bind_Done. done.
Qed.

(** A buffer of the right size receives exactly the bytes of the format. *)
Lemma Marshalling_ok R v data :
  parcel_supported v = true -> Z.of_nat (length data) = parcel_size v ->
  parcel_size v <= R -> 24 <= R ->
  MarshallingPreferenceValue R v data = Done (E_OK, parcel_bytes v).
Proof.
  intros Hs Hl HR HR'. unfold parcel_size in *. rewrite <- Hl in HR. apply Nat2Z.inj in Hl.
  unfold MarshallingPreferenceValue. destruct v; try done; cbn [GetTypeIndex IsInt IsLong IsFloat
    IsDouble IsBool IsString IsStringArray IsBoolArray IsDoubleArray IsUint8Array IsObject IsBigInt].
  1-5: eapply marshal_basic; [exact Hl|cbn; lia|exact HR|]; intros d Hd _;
    unfold MarshallingBasicValueInner; rewrite (proj2 (Nat.leb_gt _ _)) by sizes;
    done.
  1: by apply marshal_string.
  1: by apply marshal_string_array.
  4: by eapply (marshal_string R (VObject v)).
  all: destruct data as [|x data]; [done|]; unfold parcel_bytes, parcel_payload, sized_items in Hl;
    split_off 8%nat data;
    (erewrite marshal_basic_array; [|exact Hhole|lia|reflexivity]).
  - apply (marshal_sized_items R 1 _ v); try done; try sizes. 
  - apply (marshal_sized_items R 8 _ v); try done; try sizes.
  - unfold MarshallingVecUInt8AfterType. cbn [as_uint8_array std_get]. rewrite bind_Done.
    change (type_code UINT8_ARRAY_TYPE :: hole ++ rest) with ([type_code UINT8_ARRAY_TYPE] ++ hole ++ rest).
    mc. rewrite concat_singletons in Hl. unfold parcel_bytes, parcel_payload, sized_items.
    rewrite concat_singletons. case_match eqn:E; bools.
    + destruct v; [|cbn in E; lia].
      assert (rest = []) as -> by (apply nil_length_inv; sizes). done.
    + rewrite <- (app_nil_r rest). mc. do 2 f_equal. rewrite app_nil_r, <- app_assoc. done.
  - unfold MarshallingVecBigIntAfterType. cbn [as_bigint std_get]. rewrite bind_Done.
    change (type_code BIG_INT_TYPE :: hole ++ rest) with ([type_code BIG_INT_TYPE] ++ hole ++ rest).
    mc. split_off 8%nat rest. mc.
    etrans; [refine (marshal_items_ok R 8 (le_encode 8) (words_ v) (length_le_encode 8) _
      (([type_code BIG_INT_TYPE] ++ le_encode sizeof_size_t (Z.of_nat (length (words_ v)))) ++
       le_encode sizeof_int64 (sign_ v)) _ _); sizes|].
    by rewrite <- !app_assoc.
Qed.

(** ** Loads after a known prefix *)

Lemma load_next pre src rest off n :
  off = length pre -> n = length src -> load (pre ++ src ++ rest) off n = Done src.
Proof.
  intros -> ->. unfold load. rewrite !length_app, (proj2 (Nat.leb_le _ _)) by lia.
  by rewrite drop_app_length, take_app_length.
Qed.

Lemma load_u_next pre rest off n z :
  off = length pre -> in_u (8 * Z.of_nat n) z = true ->
  load_u (pre ++ le_encode n z ++ rest) off n = Done z.
Proof.
  intros -> Hz. unfold load_u. rewrite load_next by (by rewrite ?length_le_encode).
  rewrite bind_Done. by rewrite le_decode_encode_u.
Qed.

Lemma load_s_next pre rest off n z :
  off = length pre -> (0 < n)%nat -> in_s (8 * Z.of_nat n) z = true ->
  load_s (pre ++ le_encode n z ++ rest) off n = Done z.
Proof.
  intros -> Hn Hz. unfold load_s. rewrite load_next by (by rewrite ?length_le_encode).
  rewrite bind_Done. by rewrite le_decode_encode_s.
Qed.

Lemma load_bool_next pre rest off b :
  off = length pre -> load_bool (pre ++ [bool_byte b] ++ rest) off = Done b.
Proof. intros ->. unfold load_bool, load_u. rewrite load_next by done. by destruct b. Qed.

Lemma load_byte_next pre rest off b :
  off = length pre -> load_at 1 (pre ++ [b] ++ rest) off = Done b.
Proof.
  intros ->. unfold load_at, load_u. rewrite load_next by done. cbn. f_equal. lia.
Qed.

(** Lengths below [2^62]: the size fields do not wrap and [resize] accepts. *)
Definition small (n : Z) : Prop := n < 2 ^ 62.

Lemma small_u64 n : 0 <= n -> small n -> in_u 64 n = true.
Proof. unfold small. intros. apply in_u_spec. lia. Qed.

Lemma resize_small n : small n -> resize_ n = Done ().
Proof. unfold small, resize_. intros. destruct (Z.ltb_spec (2 ^ 63 - 1) n); [lia|done]. Qed.

Lemma load_size_next pre rest off n :
  off = length pre -> 0 <= n -> small n ->
  load_size (pre ++ le_encode sizeof_size_t n ++ rest) off = Done n.
Proof. intros. apply load_u_next; [done|]. by apply small_u64. Qed.

Lemma load_string_next pre s rest off :
  off = length pre -> small (slen s) ->
  load_string (pre ++ bytes_of_string s ++ rest) off (slen s) = Done s.
Proof.
  intros -> Hs. unfold load_string. case_match eqn:E; bools.
  { destruct s; [done|unfold slen in E; cbn in E; lia]. }
  rewrite resize_small by done. rewrite bind_Done.
  destruct (Z.ltb_spec (Z.of_nat (length (pre ++ bytes_of_string s ++ rest))) (slen s)); [sizes|].
  unfold slen. rewrite Nat2Z.id, load_next by (by rewrite ?length_bytes_of_string).
  rewrite bind_Done. by rewrite string_of_bytes_of_string.
Qed.

Lemma unmarshal_items_ok {A} sz (repr : A -> list Z) get (l : list A) (P : A -> bool) :
  (forall x, length (repr x) = sz) ->
  (forall x pre rest, P x = true -> get (pre ++ repr x ++ rest) (length pre) = Done x) ->
  forall pre rest fuel off, forallb P l = true -> off = length pre -> (length l <= fuel)%nat ->
  unmarshal_items sz get fuel (Z.of_nat (length l)) (pre ++ concat (map repr l) ++ rest) off = Done l.
Proof.
  intros Hsz Hget. induction l as [|x l IH]; intros pre rest fuel off HP -> Hf; [by destruct fuel|].
  cbn [forallb] in HP. bools. destruct fuel as [|fuel]; [cbn in Hf; lia|].
  cbn [unmarshal_items map concat]. destruct (Z.ltb_spec 0 (Z.of_nat (length (x :: l)))); [|cbn [length] in *; lia].
  rewrite <- app_assoc, Hget by done. rewrite bind_Done.
  replace (Z.of_nat (length (x :: l)) - 1) with (Z.of_nat (length l)) by (cbn [length]; lia).
  rewrite app_assoc, IH; [done|done|rewrite length_app, Hsz; lia|cbn [length] in Hf; lia].
Qed.

Lemma unmarshal_strings_ok (l : list string) :
  forall pre rest fuel off, off = length pre -> (length l <= fuel)%nat ->
  forallb (fun s => slen s <? 2 ^ 62) l = true ->
  unmarshal_strings fuel (Z.of_nat (length l)) (pre ++ concat (map sized_string l) ++ rest) off = Done l.
Proof.
  induction l as [|s l IH]; intros pre rest fuel off -> Hf HP; [by destruct fuel|].
  cbn [forallb] in HP. bools. destruct fuel as [|fuel]; [cbn in Hf; lia|].
  cbn [unmarshal_strings map concat]. destruct (Z.ltb_spec 0 (Z.of_nat (length (s :: l)))); [|cbn [length] in *; lia].
  assert (Hss : sized_string s = le_encode sizeof_size_t (slen s) ++ bytes_of_string s) by done.
  rewrite Hss, <- !app_assoc.
  rewrite load_size_next by (done || unfold slen; lia). rewrite bind_Done.
  rewrite app_assoc, load_string_next by (done || by rewrite length_app, length_le_encode).
  rewrite bind_Done.
  replace (Z.of_nat (length (s :: l)) - 1) with (Z.of_nat (length l)) by (cbn [length]; lia).
  rewrite app_assoc, IH; [done|sizes|cbn [length] in Hf; lia|done].
Qed.

Lemma strings_bounds (l : list string) :
  (length l <= length (concat (map sized_string l)))%nat /\
  (forall n, Z.of_nat (length (concat (map sized_string l))) < n ->
   forallb (fun s => slen s <? n) l = true).
Proof.
  induction l as [|s l [IH1 IH2]]; [done|]. cbn [map concat length forallb].
  rewrite length_app, length_sized_string. split; [lia|]. intros n Hn.
  rewrite IH2 by lia. rewrite andb_true_r. apply Z.ltb_lt. unfold slen. lia.
Qed.

Lemma load_size_head t n rest : 0 <= n -> small n ->
  load_size (t :: le_encode sizeof_size_t n ++ rest) sizeof_uint8 = Done n.
Proof. intros. by apply (load_size_next [t]). Qed.

Lemma unmarshal_sized_items {A} sz (repr : A -> list Z) get (l : list A) (P : A -> bool)
    t (k : list A -> outcome (Z * PreferencesValue)) :
  (0 < sz)%nat -> (forall x, length (repr x) = sz) ->
  (forall x pre rest, P x = true -> get (pre ++ repr x ++ rest) (length pre) = Done x) ->
  forallb P l = true -> small (Z.of_nat (length (sized_items repr l))) ->
  let data := t :: sized_items repr l in
  (vecNum ← load_size data sizeof_uint8;
   resize_ vecNum;;
   vec ← unmarshal_items sz get (S (length data)) vecNum data (sizeof_uint8 + sizeof_size_t);
   k vec) = k l.
Proof.
  intros Hpos Hsz Hget HP Hsmall data.
  assert (Hlen : (length l <= length data)%nat).
  { subst data. unfold sized_items. cbn [length].
    rewrite length_app, (length_concat_map repr sz) by done. nia. }
  subst data. unfold sized_items in *.
  assert (Hl : small (Z.of_nat (length l))).
  { unfold small in *. rewrite length_app, (length_concat_map repr sz) in Hsmall by done. nia. }
  rewrite load_size_head by (done || lia). rewrite bind_Done, resize_small by done. rewrite bind_Done.
  pose proof (unmarshal_items_ok sz repr get l P Hsz Hget
    (t :: le_encode sizeof_size_t (Z.of_nat (length l))) []) as E.
  rewrite app_nil_r in E. cbn [app] in E. rewrite E; [done|done|sizes|lia].
Qed.

Lemma unmarshal_string (v : PreferencesValue) t s :
  (t = STRING_TYPE /\ v = VString s) \/ (t = OBJECT_TYPE /\ v = VObject (mkObject s)) ->
  small (Z.of_nat (length (type_code t :: sized_string s))) ->
  UnmarshallingStringValue t (type_code t :: sized_string s) = Done (E_OK, v).
Proof.
  intros Ht Hs. assert (small (slen s)).
  { unfold small, slen in *. cbn [length] in Hs. rewrite length_sized_string in Hs. lia. }
  unfold UnmarshallingStringValue, sized_string.
  rewrite load_size_head by (done || unfold slen; lia). rewrite bind_Done.
  pose proof (load_string_next (type_code t :: le_encode sizeof_size_t (slen s)) s [] 9
    eq_refl ltac:(done)) as E. rewrite app_nil_r in E. rewrite (bind_eq _ _ _ E).
  by destruct Ht as [[-> ->]|[-> ->]].
Qed.

Lemma unmarshal_string_array l :
  let data := type_code STRING_ARRAY_TYPE :: sized_items sized_string l in
  small (Z.of_nat (length data)) ->
  UnmarshallingStringArrayValue STRING_ARRAY_TYPE data = Done (E_OK, VStringArray l).
Proof.
  intros data Hs. subst data. unfold UnmarshallingStringArrayValue, sized_items, small in *.
  destruct (strings_bounds l) as [Hn Hb].
  rewrite load_size_head by (unfold small; sizes). change (negb _) with false. cbn iota.
  rewrite bind_Done, resize_small by (unfold small; sizes). rewrite bind_Done.
  pose proof (unmarshal_strings_ok l (type_code STRING_ARRAY_TYPE ::
    le_encode sizeof_size_t (Z.of_nat (length l))) []) as E.
  rewrite app_nil_r in E. cbn [app] in E.
  rewrite E; [done|done|cbn [length]; rewrite length_app; lia|]. apply Hb. sizes.
Qed.

Lemma unmarshal_bigint b :
  let data := parcel_bytes (VBigInt b) in
  small (Z.of_nat (length data)) -> value_ok (VBigInt b) = true ->
  UnmarshallingVecBigInt data = Done (E_OK, VBigInt b).
Proof.
  destruct b as [words sign]. intros data Hs Hok. subst data.
  unfold UnmarshallingVecBigInt, parcel_bytes, parcel_payload, small in *. cbn [value_ok words_ sign_] in *.
  bools. pose proof (length_concat_map (le_encode sizeof_uint64) 8 words (length_le_encode _)) as Hc.
  rewrite load_size_head by (unfold small; sizes). rewrite bind_Done.
  pose proof (load_s_next (type_code BIG_INT_TYPE :: le_encode sizeof_size_t (Z.of_nat (length words)))
    (concat (map (le_encode sizeof_uint64) words)) 9 8 sign eq_refl ltac:(lia)) as Es.
  rewrite (bind_eq _ _ _ (Es ltac:(apply in_s_spec; apply in_s_spec in H0; lia))).
  rewrite resize_small by (unfold small; sizes). rewrite bind_Done.
  pose proof (unmarshal_items_ok 8 (le_encode 8) (load_at 8) words (in_u 64) (length_le_encode _)
    ltac:(intros; by apply load_u_next) ((type_code BIG_INT_TYPE ::
    le_encode sizeof_size_t (Z.of_nat (length words))) ++ le_encode sizeof_int64 sign) []) as E.
  rewrite app_nil_r, <- app_assoc in E. cbn [app] in E.
  rewrite E; [|done|done|sizes]. rewrite bind_Done. by rewrite wrap_s_id.
Qed.

(** Parsing the bytes of the format gives the value back. *)
Lemma Unmarshalling_ok v :
  parcel_supported v = true -> value_ok v = true -> small (parcel_size v) ->
  UnmarshallingPreferenceValue (parcel_bytes v) = Done (E_OK, v).
Proof.
  intros Hs Hok Hsmall. unfold parcel_size, parcel_bytes, parcel_payload in *.
  destruct v; try done; unfold UnmarshallingPreferenceValue; cbn [GetTypeIndex IsInt IsLong IsFloat
    IsDouble IsBool IsString IsStringArray IsBoolArray IsDoubleArray IsUint8Array IsObject IsBigInt
    type_code type_of_code find Z.eqb Pos.eqb UnmarshallingBasicValue] in *; cbn [value_ok] in Hok.
  1-4: rewrite <- (app_nil_r (le_encode _ _)).
  - exact (bind_eq _ _ _ (load_s_next [1] [] 1 4 v eq_refl ltac:(lia) Hok)).
  - exact (bind_eq _ _ _ (load_s_next [2] [] 1 8 v eq_refl ltac:(lia) Hok)).
  - exact (bind_eq _ _ _ (load_u_next [3] [] 1 4 bits eq_refl Hok)).
  - exact (bind_eq _ _ _ (load_u_next [4] [] 1 8 bits eq_refl Hok)).
  - exact (bind_eq _ _ _ (load_bool_next [5] [] 1 v eq_refl)).
  - apply (unmarshal_string _ STRING_TYPE); [by left|done].
  - by apply unmarshal_string_array.
  - apply (unmarshal_sized_items 1 (fun b => [bool_byte b]) load_bool v (fun _ => true) 8);
      [lia|done|intros; by apply load_bool_next|by apply forallb_forall|unfold small in *; sizes].
  - apply (unmarshal_sized_items 8 (le_encode 8) (load_at 8) v (in_u 64) 9);
      [lia|apply length_le_encode|intros; by apply load_u_next|done|unfold small in *; sizes].
  - apply (unmarshal_sized_items 1 (fun b => [b]) (load_at 1) v (in_u 8) 10);
      [lia|done|intros; by apply load_byte_next|done|unfold small in *; sizes].
  - destruct v. apply (unmarshal_string _ OBJECT_TYPE); [by right|done].
  - by apply unmarshal_bigint.
Qed.

(** ** The computed size *)

Lemma wrap_u_add w a b : wrap_u w (wrap_u w a + b) = wrap_u w (a + b).
Proof. unfold wrap_u. by rewrite Zplus_mod_idemp_l. Qed.

Lemma CalSize_strings l a :
  foldl (fun len s => wrap_u 32 (wrap_u 32 (len + Z.of_nat sizeof_size_t) + slen s)) (wrap_u 32 a) l
  = wrap_u 32 (a + Z.of_nat (length (concat (map sized_string l)))).
Proof.
  revert a. induction l as [|s l IH]; intros a; [by rewrite Z.add_0_r|].
  cbn [foldl map concat]. rewrite (wrap_u_add _ a), (wrap_u_add _ (a + _)), IH, length_app, length_sized_string. f_equal. sizes.
Qed.

(** [CalSize] is the size of the parcel modulo [2^32]. *)
Lemma CalSize_spec v :
  parcel_supported v = true -> CalSize v = Done (wrap_u 32 (parcel_size v)).
Proof.
  intros Hs. unfold CalSize, parcel_size, parcel_bytes, parcel_payload, sized_items.
  destruct v; try done; cbn [GetTypeIndex IsInt IsLong IsFloat
    IsDouble IsBool IsString IsStringArray IsBoolArray IsDoubleArray IsUint8Array IsObject IsBigInt
    string_payload std_get as_string as_object as_bool_array as_double_array as_uint8_array
    as_string_array as_bigint].
  all: try (change (string_payload STRING_TYPE (VString v)) with (Done v)).
  all: try (change (string_payload OBJECT_TYPE (VObject v)) with (Done (valueStr v))).
  all: rewrite ?bind_Done, ?CalSize_strings; do 2 f_equal; cbn [length];
    rewrite ?length_app, ?length_sized_string, ?length_le_encode; unfold size_prefix.
  all: rewrite ?(length_concat_map (fun b => [bool_byte b]) 1), ?(length_concat_map (fun b => [b]) 1),
    ?(length_concat_map (le_encode sizeof_double) 8), ?(length_concat_map (le_encode sizeof_uint64) 8)
    by (done || apply length_le_encode).
  all: sizes.
Qed.

(** The byte-typed reads of a byte buffer have their types' ranges. *)
Lemma le_decode_u l : bytes_ok l = true -> in_u (8 * Z.of_nat (length l)) (le_decode l) = true.
Proof.
  intros H. apply in_u_spec. induction l as [|x l IH]; [cbn; lia|].
  unfold bytes_ok in *. cbn [forallb] in H. apply andb_true_iff in H as [Hx%in_u_spec Hl].
  specialize (IH Hl). cbn [le_decode foldr length]. fold (le_decode l).
  change (2 ^ 8) with 256 in Hx.
  replace (8 * Z.of_nat (S (length l))) with (8 + 8 * Z.of_nat (length l)) by lia.
  rewrite Z.pow_add_r by lia. change (2 ^ 8) with 256. nia.
Qed.

Lemma bytes_ok_sub data off n : bytes_ok data = true -> bytes_ok (take n (drop off data)) = true.
Proof.
  unfold bytes_ok. rewrite !forallb_forall. intros H x Hx. apply H.
  apply list_elem_of_In in Hx. apply list_elem_of_In.
  apply elem_of_take in Hx as (i & Hi & _). rewrite lookup_drop in Hi. by eapply list_elem_of_lookup_2.
Qed.

(** ** Parsing arbitrary bytes *)

Section parse_any.
Context (data : list Z) (Hdata : bytes_ok data = true).

Lemma load_yields off n :
  yields (load data off n) (fun l =>
    (off + n <= length data)%nat /\ length l = n /\ bytes_ok l = true).
Proof.
  unfold load. destruct (Nat.leb_spec (off + n) (length data)); [|done]. cbn.
  rewrite length_take, length_drop, bytes_ok_sub by done. split_and!; [done|lia|done].
Qed.

Lemma load_u_yields off n :
  yields (load_u data off n) (fun z => (off + n <= length data)%nat /\ in_u (8 * Z.of_nat n) z = true).
Proof.
  eapply yields_bind; [apply load_yields|]. intros l (? & <- & ?). cbn.
  split; [done|by apply le_decode_u].
Qed.

Lemma load_s_yields off n : (0 < n)%nat ->
  yields (load_s data off n) (fun z => (off + n <= length data)%nat /\ in_s (8 * Z.of_nat n) z = true).
Proof.
  intros. eapply yields_bind; [apply load_yields|]. intros l (? & <- & ?). cbn.
  split; [done|]. apply wrap_s_in_s. lia.
Qed.

Lemma load_bool_yields off :
  yields (load_bool data off) (fun _ => (off + 1 <= length data)%nat /\ true = true).
Proof. eapply yields_bind; [apply load_u_yields|]. intros z [? _]. done. Qed.

Lemma resize_yields n : yields (resize_ n) (fun _ => True).
Proof. unfold resize_. by case_match. Qed.

Lemma load_string_yields off n :
  yields (load_string data off n) (fun s => String.length s = Z.to_nat n /\ (n = 0 \/ (off + Z.to_nat n <= length data)%nat)).
Proof.
  unfold load_string. case_match eqn:E; bools; [subst n; cbn; auto|].
  eapply yields_bind; [apply resize_yields|]. intros _ _. case_match; [done|].
  eapply yields_bind; [apply load_yields|]. intros l (Hle & Hl & _). cbn. unfold string_of_bytes. rewrite length_string_of_list, length_fmap. split; [exact Hl|by right].
Qed.

(** What has been read lies inside the buffer. *)
Lemma unmarshal_items_yields {A} sz (get : list Z -> nat -> outcome A) (P : A -> bool) :
  (0 < sz)%nat ->
  (forall off, yields (get data off) (fun x => (off + sz <= length data)%nat /\ P x = true)) ->
  forall fuel vecNum off, (0 < fuel)%nat -> (length data < off + fuel)%nat ->
  yields (unmarshal_items sz get fuel vecNum data off)
    (fun l => forallb P l = true /\ (l = [] \/ (off + sz * length l <= length data)%nat)).
Proof.
  intros Hsz Hget. induction fuel as [|fuel IH]; intros vecNum off Hf Hoff; [lia|].
  cbn [unmarshal_items]. case_match; [|cbn; auto].
  eapply yields_bind; [apply Hget|]. intros x [Hx HP].
  eapply yields_bind; [apply IH; lia|]. intros l [Hl Hle]. cbn. rewrite HP, Hl. split; [done|right].
  destruct Hle as [->|Hle]; cbn; lia.
Qed.

Lemma unmarshal_strings_yields fuel vecNum off :
  (0 < fuel)%nat -> (length data < off + fuel)%nat ->
  yields (unmarshal_strings fuel vecNum data off)
    (fun l => l = [] \/ (off + length (concat (map sized_string l)) <= length data)%nat).
Proof.
  revert vecNum off. induction fuel as [|fuel IH]; intros vecNum off Hf Hoff; [lia|].
  cbn [unmarshal_strings]. case_match; [|by left].
  eapply yields_bind; [apply load_u_yields|]. intros n [Hn Hu].
  eapply yields_bind; [apply load_string_yields|]. intros s [Hsl Hs].
  eapply yields_bind; [apply IH; sizes|]. intros l Hl. right.
  cbn [map concat]. rewrite length_app, length_sized_string, Hsl. destruct Hl as [->|Hl]; [|sizes].
  cbn [map concat length]. destruct Hs as [->|Hs]; sizes.
Qed.

(** The common shape of the four array parsers. *)
Lemma unmarshal_array_yields {A} sz (get : list Z -> nat -> outcome A) (P : A -> bool) off
    (k : list A -> PreferencesValue) :
  (0 < sz)%nat -> (off <= length data)%nat ->
  (forall off, yields (get data off) (fun x => (off + sz <= length data)%nat /\ P x = true)) ->
  (forall l, forallb P l = true -> value_ok (k l) = true /\ parcel_size (k l) = Z.of_nat (off + sz * length l)) ->
  forall vecNum, yields (resize_ vecNum;;
    vec ← unmarshal_items sz get (S (length data)) vecNum data off; Done (E_OK, k vec))
    (fun r => r.1 = E_OK /\ value_ok r.2 = true /\ parcel_size r.2 <= Z.of_nat (length data)).
Proof.
  intros Hsz Hoff Hget Hk vecNum. eapply yields_bind; [apply resize_yields|]. intros _ _.
  eapply yields_bind; [apply unmarshal_items_yields; [done|done|lia..]|].
  intros l [Hl Hle]. cbn. destruct (Hk l Hl) as [? ->]. split_and!; [done|done|]. destruct Hle as [->|Hle]; cbn; lia.
Qed.

Lemma load_at_yields n off :
  yields (load_at n data off) (fun z => (off + n <= length data)%nat /\ in_u (8 * Z.of_nat n) z = true).
Proof. apply load_u_yields. Qed.

(** A good answer, which is not longer than the buffer, or a refusal. *)
Definition parsed (r : Z * PreferencesValue) : Prop :=
  (r = (E_INVALID_ARGS, VInt 0) \/ r.1 = E_OK /\ parcel_size r.2 <= Z.of_nat (length data)) /\ value_ok r.2 = true.

Lemma parsed_ok (r : Z * PreferencesValue) :
  r.1 = E_OK /\ value_ok r.2 = true /\ parcel_size r.2 <= Z.of_nat (length data) -> parsed r.
Proof. unfold parsed. tauto. Qed.
End parse_any.

(** The sizes of the parcels. *)
Lemma length_sized_items {A} (repr : A -> list Z) n l : (forall x, length (repr x) = n) ->
  length (sized_items repr l) = (8 + n * length l)%nat.
Proof. intros Hr. unfold sized_items. by rewrite length_app, length_le_encode, (length_concat_map repr n). Qed.

Lemma bigint_size b : parcel_size (VBigInt b) = Z.of_nat (17 + 8 * length (words_ b)).
Proof.
  unfold parcel_size, parcel_bytes, parcel_payload. cbn [length]. f_equal.
  rewrite !length_app, !length_le_encode, (length_concat_map _ 8) by apply length_le_encode. sizes.
Qed.

(** Parsing any byte buffer gives a well-typed value or the argument error,
    unless it leaves the buffer; it never diverges. *)
Lemma Unmarshalling_yields data :
  bytes_ok data = true -> yields (UnmarshallingPreferenceValue data) (parsed data).
Proof.
  intros Hd. unfold UnmarshallingPreferenceValue. destruct data as [|b rest]; [cbn; unfold parsed; auto|].
  generalize dependent (b :: rest). intros data Hd.
  assert (Hinv : yields (Done (E_INVALID_ARGS, VInt 0)) (parsed data)) by (cbn; unfold parsed; auto).
  assert (Hstr : forall n s, in_u (8 * Z.of_nat sizeof_size_t) n = true -> (1 + 8 <= length data)%nat ->
    String.length s = Z.to_nat n /\ (n = 0 \/ (9 + Z.to_nat n <= length data)%nat) ->
    Z.of_nat (length (type_code STRING_TYPE :: sized_string s)) <= Z.of_nat (length data)).
  { intros n s Hu Hn [Hl Hle]. cbn [length]. rewrite length_sized_string, Hl. destruct Hle as [->|Hle]; lia. }
  destruct (type_of_code b) as [[]|]; try exact Hinv; cbn [UnmarshallingBasicValue UnmarshallingBasicArrayValue];
    unfold UnmarshallingStringValue, UnmarshallingStringArrayValue, UnmarshallingVecUInt8,
      UnmarshallingVecDouble, UnmarshallingVecBool, UnmarshallingVecBigInt.
  1,2: eapply yields_bind; [by apply load_s_yields; [|unfold sizeof_int, sizeof_int64; lia]|];
    intros z [Hl Hz]; apply parsed_ok; split_and!; [done|done|unfold parcel_size, parcel_bytes, parcel_payload; cbn -[le_encode]; sizes].
  1,2: eapply yields_bind; [by apply load_u_yields|]; intros z [Hl Hz]; apply parsed_ok;
    split_and!; [done|done|unfold parcel_size, parcel_bytes, parcel_payload; cbn -[le_encode]; sizes].
  1: eapply yields_bind; [by apply load_bool_yields|]; intros z [Hl _]; apply parsed_ok;
    split_and!; [done|done|unfold parcel_size, parcel_bytes, parcel_payload; cbn -[le_encode]; sizes].
  all: try (change (negb _) with false; cbn iota).
  all: eapply yields_bind; [by apply load_u_yields|]; intros n [Hn Hu].
  1,6: eapply yields_bind; [by apply load_string_yields|]; intros s Hs; apply parsed_ok; split_and!; [done|done|by eapply Hstr].
  1: { eapply yields_bind; [apply resize_yields|]. intros _ _.
    eapply yields_bind; [apply unmarshal_strings_yields; [done|lia..]|]. intros l Hl. apply parsed_ok. split_and!; [done|done|].
    unfold parcel_size, parcel_bytes, parcel_payload, sized_items. cbn -[le_encode sized_string]. destruct Hl as [->|Hl]; [cbn [map concat]|]; sizes. }
  4: eapply yields_bind; [apply load_s_yields; [done|unfold sizeof_int64; lia]|]; intros sg [Hsl Hsg].
  all: eapply yields_mono; [|apply parsed_ok].
  - eapply (unmarshal_array_yields _ 1 load_bool (fun _ => true)); [lia|sizes|by apply load_bool_yields|].
    intros l _. split; [done|]. unfold parcel_size, parcel_bytes, parcel_payload. cbn [length]. by rewrite (length_sized_items _ 1).
  - eapply (unmarshal_array_yields _ 8 (load_at 8) (in_u 64)); [lia|sizes|by apply load_at_yields|].
    intros l Hl. split; [done|]. unfold parcel_size, parcel_bytes, parcel_payload. cbn [length].
    by rewrite (length_sized_items _ 8) by apply length_le_encode.
  - eapply (unmarshal_array_yields _ 1 (load_at 1) (in_u 8)); [lia|sizes|by apply load_at_yields|].
    intros l Hl. split; [done|]. unfold parcel_size, parcel_bytes, parcel_payload. cbn [length]. by rewrite (length_sized_items _ 1).
  - eapply (unmarshal_array_yields _ 8 (load_at 8) (in_u 64) _ (fun l => VBigInt (mkBigInt l (wrap_s 32 sg))));
      [lia|sizes|by apply load_at_yields|]. intros l Hl. split; [cbn; rewrite Hl; by apply wrap_s_in_s|]. by rewrite bigint_size.
Qed.

(** ** Parsing a part of a buffer

    A parser that is given less of a buffer answers the same, or leaves it. *)

Definition cut_short {A} (o o' : outcome A) : Prop := o = Undef \/ o = NoFuel \/ o = o'.

Lemma cut_refl {A} (o : outcome A) : cut_short o o.
Proof. by right; right. Qed.

Lemma cut_bind {A B} (o o' : outcome A) (k k' : A -> outcome B) :
  cut_short o o' -> (forall a, cut_short (k a) (k' a)) -> cut_short (a ← o; k a) (a ← o'; k' a).
Proof. intros [->|[->| ->]] Hk; [by left|by right; left|]. destruct o'; [apply Hk|apply cut_refl..]. Qed.

Section cut.
Context (data more : list Z).

Lemma load_cut off n : cut_short (load data off n) (load (data ++ more) off n).
Proof.
  unfold load. rewrite length_app. destruct (Nat.leb_spec (off + n) (length data)); [|by left].
  rewrite (proj2 (Nat.leb_le _ _)) by lia. rewrite drop_app_le, take_app_le by (rewrite ?length_drop; lia). apply cut_refl.
Qed.

Lemma load_u_cut off n : cut_short (load_u data off n) (load_u (data ++ more) off n).
Proof. apply cut_bind; [apply load_cut|intros; apply cut_refl]. Qed.

Lemma load_s_cut off n : cut_short (load_s data off n) (load_s (data ++ more) off n).
Proof. apply cut_bind; [apply load_cut|intros; apply cut_refl]. Qed.

Lemma load_bool_cut off : cut_short (load_bool data off) (load_bool (data ++ more) off).
Proof. apply cut_bind; [apply load_u_cut|intros; apply cut_refl]. Qed.

Lemma load_string_cut off n : cut_short (load_string data off n) (load_string (data ++ more) off n).
Proof.
  unfold load_string. case_match; [apply cut_refl|]. apply cut_bind; [apply cut_refl|intros _]. rewrite length_app.
  destruct (Z.ltb_spec (Z.of_nat (length data)) n); [by left|]. rewrite (proj2 (Z.ltb_ge _ _)) by lia.
  apply cut_bind; [apply load_cut|intros; apply cut_refl].
Qed.

Lemma unmarshal_items_cut {A} sz (get : list Z -> nat -> outcome A) fuel fuel' n off :
  (forall off, cut_short (get data off) (get (data ++ more) off)) -> (fuel <= fuel')%nat ->
  cut_short (unmarshal_items sz get fuel n data off) (unmarshal_items sz get fuel' n (data ++ more) off).
Proof.
  intros Hget. revert fuel' n off. induction fuel as [|fuel IH]; intros [|fuel'] n off Hf; [..|lia|];
    cbn [unmarshal_items]; (case_match; [|apply cut_refl]); [by right; left..|].
  apply cut_bind; [apply Hget|intros x]. apply cut_bind; [apply IH; lia|intros; apply cut_refl].
Qed.

Lemma unmarshal_strings_cut fuel fuel' n off : (fuel <= fuel')%nat ->
  cut_short (unmarshal_strings fuel n data off) (unmarshal_strings fuel' n (data ++ more) off).
Proof.
  revert fuel' n off. induction fuel as [|fuel IH]; intros [|fuel'] n off Hf; [..|lia|];
    cbn [unmarshal_strings]; (case_match; [|apply cut_refl]); [by right; left..|].
  apply cut_bind; [apply load_u_cut|intros len]. apply cut_bind; [apply load_string_cut|intros x].
  apply cut_bind; [apply IH; lia|intros; apply cut_refl].
Qed.

Lemma Unmarshalling_cut : data <> [] ->
  cut_short (UnmarshallingPreferenceValue data) (UnmarshallingPreferenceValue (data ++ more)).
Proof.
  intros Hne. unfold UnmarshallingPreferenceValue. destruct data as [|b l] eqn:E; [done|]. cbn [app].
  rewrite app_comm_cons, <- E. assert (Hlen : (length data <= length (data ++ more))%nat) by (rewrite length_app; lia).
  destruct (type_of_code b) as [[]|]; try apply cut_refl; cbn [UnmarshallingBasicValue UnmarshallingBasicArrayValue];
    unfold UnmarshallingStringValue, UnmarshallingStringArrayValue, UnmarshallingVecUInt8,
      UnmarshallingVecDouble, UnmarshallingVecBool, UnmarshallingVecBigInt;
    try (change (negb _) with false; cbn iota);
    repeat (apply cut_bind; [first [apply load_s_cut|apply load_u_cut|apply load_bool_cut|apply load_string_cut|apply cut_refl
      |apply unmarshal_strings_cut; lia|apply unmarshal_items_cut; [intros; first [apply load_u_cut|apply load_bool_cut]|lia]]|intros]);
    apply cut_refl.
Qed.
End cut.

(** C7: Storing a value of the enhanced store and reading it back gives the
    value: for every well-typed value of a supported kind whose parcel is
    shorter than 4 GiB and not longer than [memcpy_s] copies at most (2 GiB in
    the library that the system uses; at least the 24 bytes of a number with its
    header), [CalSize] sizes the buffer exactly, marshalling into the fresh
    (zeroed) buffer succeeds, stays inside it and writes exactly the documented
    layout, and unmarshalling those bytes returns the value itself. *)
Theorem parcel_roundtrip (R : Z) (v : PreferencesValue)
    (Hsup : parcel_supported v = true) (Hok : value_ok v = true)
    (Hsize : parcel_size v < 2 ^ 32) (HR : parcel_size v <= R) (Hmin : 24 <= R) :
  exists n, CalSize v = Done n /\ n = parcel_size v /\
    MarshallingPreferenceValue R v (replicate (Z.to_nat n) 0) = Done (E_OK, parcel_bytes v) /\
    UnmarshallingPreferenceValue (parcel_bytes v) = Done (E_OK, v).
Proof.
  exists (parcel_size v). assert (0 <= parcel_size v) by (unfold parcel_size; lia).
  rewrite CalSize_spec by done. rewrite wrap_u_id by (apply in_u_spec; lia). split_and!; [done..| |].
  - apply Marshalling_ok; [done|rewrite length_replicate; lia|lia..].
  - apply Unmarshalling_ok; [done..|]. unfold small. lia.
Qed.

(** A value of a kind whose parcel has a loop. *)
Definition witness_value : PreferencesValue := VStringArray ["a"; ""; "prefs"].

Example parcel_roundtrip_witness :
  parcel_supported witness_value = true /\ CalSize witness_value = Done 39 /\
  UnmarshallingPreferenceValue (parcel_bytes witness_value) = Done (E_OK, witness_value).
Proof.
  destruct (parcel_roundtrip (2 ^ 31 - 1) witness_value) as (n & Hc & Hn & _ & Hu);
    [vm_compute; reflexivity..|vm_compute; discriminate|vm_compute; discriminate|].
  split; [reflexivity|]. split; [|exact Hu]. rewrite Hc, Hn. vm_compute. reflexivity.
Defined.

(** Exactly the alternatives the enumeration does not know (no value, an
    [int] array, an [int64] array) are rejected: [CalSize] gives 0, and
    marshalling returns the argument error and leaves the buffer alone. *)
Theorem parcel_unsupported_rejected (R : Z) (v : PreferencesValue) (data : list Z) :
  (parcel_supported v = false <->
     v = VMonostate \/ IsIntArray v = true \/ IsInt64Array v = true) /\
  (parcel_supported v = false ->
     CalSize v = Done 0 /\ MarshallingPreferenceValue R v data = Done (E_INVALID_ARGS, data)).
Proof.
  destruct v; cbn; (split; [split|]); try done; auto; intros [?|[?|?]]; done.
Qed.

Example parcel_unsupported_rejected_witness :
  CalSize (VIntArray [1; 2]) = Done 0 /\
  MarshallingPreferenceValue (2 ^ 31 - 1) (VIntArray [1; 2]) [] = Done (E_INVALID_ARGS, []).
Proof. apply (proj2 (parcel_unsupported_rejected (2 ^ 31 - 1) (VIntArray [1; 2]) [])). reflexivity. Defined.

(** C40: Parsing terminates on every byte buffer.  Whenever it returns, it
    returns a well-typed value, whose parcel is not longer than the buffer, or
    the argument error with the default value; an empty buffer and an unknown
    type byte give the argument error.  But the parser trusts the size fields:
    whenever a parcel, of any value that has one (well-typed, shorter than
    [2^62] bytes), is truncated, at whatever place behind its first byte, the
    parser reads outside the buffer. *)
Theorem Unmarshalling_any_bytes (data : list Z) (Hdata : bytes_ok data = true) :
  match UnmarshallingPreferenceValue data with
  | Done (e, v) => value_ok v = true /\
      (e = E_OK /\ parcel_size v <= Z.of_nat (length data) \/ (e = E_INVALID_ARGS /\ v = VInt 0))
  | Thrown | Undef => data <> []
  | NoFuel => False
  end /\
  (head data ≫= type_of_code = None ->
    UnmarshallingPreferenceValue data = Done (E_INVALID_ARGS, VInt 0)) /\
  (forall v rest, parcel_supported v = true -> value_ok v = true -> parcel_size v < 2 ^ 62 ->
    parcel_bytes v = data ++ rest -> data <> [] -> rest <> [] -> UnmarshallingPreferenceValue data = Undef).
Proof.
  pose proof (Unmarshalling_yields data Hdata) as H. split; [|split].
  - destruct (UnmarshallingPreferenceValue data) as [[e v]| | |] eqn:E; cbn in H.
    + destruct H as [[H|[H Hlen]] Hv]; cbn in *; simplify_eq; auto.
    + intros ->. by cbn in E.
    + intros ->. by cbn in E.
    + done.
  - destruct data as [|b l]; [done|]. cbn. by intros ->.
  - intros v rest Hs Hv Hsize Eb Hne Hrest. pose proof (Unmarshalling_ok v Hs Hv Hsize) as Hfull. rewrite Eb in Hfull.
    destruct (Unmarshalling_cut data rest Hne) as [E|[E|E]]; [done|by rewrite E in H|]. rewrite E, Hfull in H.
    destruct H as [[H|[_ H]] _]; [done|]. unfold parcel_size in H. cbn [snd] in H. rewrite Eb, length_app in H.
    destruct rest; [done|]. cbn in H. lia.
Qed.

Example Unmarshalling_any_bytes_witness :
  (exists e v, UnmarshallingPreferenceValue [1; 255; 255; 255; 255] = Done (e, v) /\ value_ok v = true) /\
  UnmarshallingPreferenceValue (take 20 (parcel_bytes witness_value)) = Undef.
Proof.
  split.
  - pose proof (proj1 (Unmarshalling_any_bytes [1; 255; 255; 255; 255] eq_refl)) as H.
    exists E_OK, (VInt (-1)). split; [vm_compute; reflexivity|]. exact (proj1 H).
  - refine (proj2 (proj2 (Unmarshalling_any_bytes (take 20 (parcel_bytes witness_value)) eq_refl))
      witness_value (drop 20 (parcel_bytes witness_value)) eq_refl eq_refl eq_refl eq_refl _ _); discriminate.
Defined.
