(* ===== verification/NumText.v ===== *)
(** * Decimal texts of integers

    [std::to_string] on the integer types and [std::istream >> integer] on a
    string stream, as the C++ library defines them ([num_get] with base 10):
    blanks are skipped, an optional sign and the longest run of digits are
    read, an out-of-range number is clamped, a field without digits stores 0,
    and at the end of the stream the variable keeps its (here: uninitialised)
    value. *)

From S2P Require Import Prelude.

(** ** Printing *)

Definition digit (d : Z) : ascii := char_of (48 + d).

Fixpoint digits (fuel : nat) (n : Z) (acc : string) : string :=
  match fuel with
  | O => acc
  | S fuel' =>
      let acc := String (digit (n mod 10)) acc in
      if n / 10 =? 0 then acc else digits fuel' (n / 10) acc
  end.

(** A number has at most as many decimal as binary digits. *)
Definition nat_text (n : Z) : string := digits (S (Z.to_nat (Z.log2 n))) n "".

Definition to_string (z : Z) : string :=
  if z <? 0 then "-" +:+ nat_text (- z) else nat_text z.

(** ** Scanning *)

Definition is_space (a : ascii) : bool := (code a =? 32) || ((9 <=? code a) && (code a <=? 13)).

Definition digit_value (a : ascii) : option Z :=
  if (48 <=? code a) && (code a <=? 57) then Some (code a - 48) else None.

Fixpoint skip_spaces (s : string) : string :=
  match s with
  | String a s' => if is_space a then skip_spaces s' else s
  | EmptyString => s
  end.

(** The value of the leading digits, [None] when there are none. *)
Fixpoint scan_digits (s : string) (acc : option Z) : option Z :=
  match s with
  | String a s' =>
      match digit_value a with
      | Some d => scan_digits s' (Some (10 * default 0 acc + d))
      | None => acc
      end
  | EmptyString => acc
  end.

(** The sign and the digits of a number field. *)
Definition scan_field (s : string) : bool * option Z :=
  match s with
  | String a s' =>
      if decide (a = "-"%char) then (true, scan_digits s' None)
      else if decide (a = "+"%char) then (false, scan_digits s' None)
      else (false, scan_digits s None)
  | EmptyString => (false, None)
  end.

Definition clamp (lo hi z : Z) : Z := if z <? lo then lo else if hi <? z then hi else z.

(** [ss >> value] into an uninitialised signed variable of [w] bits. *)
Definition scan_signed (w : Z) (s : string) : outcome Z :=
  match skip_spaces s with
  | EmptyString => Undef
  | s =>
      let '(neg, n) := scan_field s in
      let n := default 0 n in
      Done (clamp (- 2 ^ (w - 1)) (2 ^ (w - 1) - 1) (if neg then - n else n))
  end.

(** The unsigned form negates modulo [2^w]. *)
Definition scan_unsigned (w : Z) (s : string) : outcome Z :=
  match skip_spaces s with
  | EmptyString => Undef
  | s =>
      let '(neg, n) := scan_field s in
      let n := default 0 n in
      Done (if 2 ^ w - 1 <? n then 2 ^ w - 1 else wrap_u w (if neg then - n else n))
  end.

(** ** Round trips *)

Lemma code_digit d : 0 <= d < 10 -> code (digit d) = 48 + d.
Proof. intros. unfold digit. apply code_char_of, in_u_spec. lia. Qed.

Lemma digit_value_digit d : 0 <= d < 10 -> digit_value (digit d) = Some d.
Proof.
  intros. unfold digit_value. rewrite code_digit by done.
  rewrite (proj2 (Z.leb_le _ _)), (proj2 (Z.leb_le _ _)) by lia. cbn. f_equal. lia.
Qed.

Lemma digit_not_space d : 0 <= d < 10 -> is_space (digit d) = false.
Proof.
  intros. unfold is_space. rewrite code_digit by done.
  apply orb_false_iff. rewrite andb_false_iff, Z.eqb_neq, !Z.leb_gt. lia.
Qed.

Lemma digit_not_sign d : 0 <= d < 10 -> digit d <> "-"%char /\ digit d <> "+"%char.
Proof.
  intros H. pose proof (code_digit d H) as Hc.
  split; intros E; rewrite E in Hc.
  - change (code "-"%char) with 45 in Hc. lia.
  - change (code "+"%char) with 43 in Hc. lia.
Qed.

Lemma log2_div10 n : 10 <= n -> Z.log2 (n / 10) < Z.log2 n.
Proof.
  intros. assert (H1 : Z.log2 (n / 10) <= Z.log2 (n / 2)).
  { apply Z.log2_le_mono. apply Z.div_le_compat_l; lia. }
  pose proof (Z.log2_shiftr n 1 ltac:(lia)) as Hs. rewrite Z.shiftr_div_pow2 in Hs by lia.
  change (2 ^ 1) with 2 in Hs. pose proof (Z.log2_le_mono 2 n ltac:(lia)) as Hl.
  change (Z.log2 2) with 1 in Hl. lia.
Qed.

(** Scanning reads printed digits back, whatever follows them. *)
Lemma scan_digits_text fuel n tail :
  0 <= n -> Z.log2 n < Z.of_nat fuel ->
  scan_digits (digits fuel n tail) None = scan_digits tail (Some n).
Proof.
  revert n tail. induction fuel as [|fuel IH]; intros n tail Hn Hf.
  { pose proof (Z.log2_nonneg n). lia. }
  cbn [digits]. pose proof (Z.mod_pos_bound n 10 ltac:(lia)) as Hd.
  pose proof (Z.div_mod n 10 ltac:(lia)) as Hdm.
  assert (Hstep : forall a, scan_digits (String (digit (n mod 10)) tail) a
    = scan_digits tail (Some (10 * default 0 a + n mod 10))).
  { intros a. cbn [scan_digits]. by rewrite digit_value_digit. }
  destruct (Z.eqb_spec (n / 10) 0) as [E|E].
  - rewrite Hstep. do 2 f_equal. cbn. lia.
  - assert (10 <= n) by (pose proof (Z.div_pos n 10 ltac:(lia)); lia).
    rewrite IH; [|apply Z.div_pos; lia|pose proof (log2_div10 n ltac:(lia)); lia].
    rewrite Hstep. do 2 f_equal. cbn [default from_option]. unfold id. lia.
Qed.

(** The first character of a printed natural number is a digit. *)
Lemma digits_head fuel n tail :
  0 <= n -> (0 < fuel)%nat -> exists d s, 0 <= d < 10 /\ digits fuel n tail = String (digit d) s.
Proof.
  revert n tail. induction fuel as [|fuel IH]; intros n tail Hn Hf; [lia|]. cbn [digits].
  pose proof (Z.mod_pos_bound n 10 ltac:(lia)). case_match; [by eexists _, _|].
  destruct fuel as [|fuel]; [by eexists _, _|]. apply IH; [apply Z.div_pos; lia|lia].
Qed.

Lemma nat_text_scan n : 0 <= n -> scan_digits (nat_text n) None = Some n.
Proof.
  intros Hn. unfold nat_text. rewrite scan_digits_text; [done|done|].
  pose proof (Z.log2_nonneg n). lia.
Qed.

(** Without a leading blank, the field is scanned from its first character. *)
Lemma to_string_field z :
  exists a s, to_string z = String a s /\ is_space a = false /\
  scan_field (to_string z) = (z <? 0, Some (Z.abs z)).
Proof.
  unfold to_string. destruct (Z.ltb_spec z 0).
  - eexists _, _. split; [reflexivity|]. split; [done|].
    change (scan_field _) with (true, scan_digits (nat_text (- z)) None).
    rewrite nat_text_scan by lia. do 2 f_equal. lia.
  - destruct (digits_head (S (Z.to_nat (Z.log2 z))) z "") as (d & s & Hd & E); [lia..|].
    pose proof (nat_text_scan z ltac:(lia)) as Hs. unfold nat_text in *. rewrite E in *.
    eexists _, _. split; [reflexivity|]. split; [by apply digit_not_space|].
    destruct (digit_not_sign d Hd). cbn [scan_field]. rewrite !decide_False by done.
    rewrite Hs. do 2 f_equal. lia.
Qed.

Lemma clamp_id lo hi z : lo <= z <= hi -> clamp lo hi z = z.
Proof. intros. unfold clamp. repeat case_match; bools; lia. Qed.

(** Printing a number and extracting it with the same type gives it back. *)
Lemma scan_signed_to_string w z : 0 < w -> in_s w z = true -> scan_signed w (to_string z) = Done z.
Proof.
  intros Hw Hz%in_s_spec. destruct (to_string_field z) as (a & s & E & Hsp & Hf).
  unfold scan_signed. rewrite E in *. cbn [skip_spaces]. rewrite Hsp. rewrite Hf.
  cbn [default from_option]. unfold id. f_equal.
  destruct (Z.ltb_spec z 0); rewrite clamp_id by lia; lia.
Qed.

Lemma scan_unsigned_to_string w z : 0 <= w -> in_u w z = true -> scan_unsigned w (to_string z) = Done z.
Proof.
  intros Hw Hz'. pose proof Hz' as Hz%in_u_spec. destruct (to_string_field z) as (a & s & E & Hsp & Hf).
  unfold scan_unsigned. rewrite E in *. cbn [skip_spaces]. rewrite Hsp, Hf.
  cbn [default from_option]. unfold id. f_equal.
  destruct (Z.ltb_spec z 0); [lia|]. rewrite Z.abs_eq by lia.
  destruct (Z.ltb_spec (2 ^ w - 1) z); [lia|]. by apply wrap_u_id.
Qed.

Example to_string_samples :
  (to_string 0, to_string (-2147483648), to_string 18446744073709551615)
  = ("0", "-2147483648", "18446744073709551615").
Proof. vm. Qed.

Example scan_samples :
  (scan_signed 32 " 42x", scan_signed 32 "99999999999", scan_signed 32 "x", scan_signed 32 "",
   scan_unsigned 64 "-1") = (Done 42, Done 2147483647, Done 0, Undef, Done 18446744073709551615).
Proof. vm. Qed.

(** ** Floating-point texts

    A [float] or [double] is the bit pattern of an IEEE number of width [w]
    with [mant] stored significand bits.  [std::to_string] prints ["%f"]: the
    exact value rounded, half to even, to six decimals.  Extraction reads a
    decimal number (sign, digits, fraction, exponent), or [inf] or [nan], and
    rounds it, half to even, to the nearest representable number; a field
    without digits stores zero. *)

Definition round_half_even (num den : Z) : Z :=
  let q := num / den in
  let r := num mod den in
  if 2 * r <? den then q else if den <? 2 * r then q + 1 else if Z.even q then q else q + 1.

Definition fp_negative (w b : Z) : bool := 2 ^ (w - 1) <=? b.
Definition fp_exp_max (w mant : Z) : Z := 2 ^ (w - 1 - mant) - 1.
(** The exponent of the last place of a subnormal number. *)
Definition fp_emin (w mant : Z) : Z := 2 - 2 ^ (w - 2 - mant) - mant.

Definition six_digits (n : Z) : string :=
  String (digit (n / 100000 mod 10)) (String (digit (n / 10000 mod 10))
  (String (digit (n / 1000 mod 10)) (String (digit (n / 100 mod 10))
  (String (digit (n / 10 mod 10)) (String (digit (n mod 10)) EmptyString))))).

Definition to_string_fp (w mant b : Z) : string :=
  let sign := if fp_negative w b then "-" else "" in
  let e := (b / 2 ^ mant) mod 2 ^ (w - 1 - mant) in
  let f := b mod 2 ^ mant in
  if e =? fp_exp_max w mant then sign +:+ (if f =? 0 then "inf" else "nan")
  else
    let m := if e =? 0 then f else f + 2 ^ mant in
    let x := (if e =? 0 then 0 else e - 1) + fp_emin w mant in
    let n := if 0 <=? x then m * 2 ^ x * 1000000
             else round_half_even (m * 1000000) (2 ^ (- x)) in
    sign +:+ nat_text (n / 1000000) +:+ "." +:+ six_digits (n mod 1000000).

Definition float_to_string := to_string_fp 32 23.
Definition double_to_string := to_string_fp 64 52.

(** The number of width [w] nearest to [num / den]. *)
Definition round_fp (w mant : Z) (num den : Z) : Z :=
  if num =? 0 then 0 else
  let e1 := Z.log2 num - Z.log2 den - mant in
  let scale_num e := if 0 <=? e then num else num * 2 ^ (- e) in
  let scale_den e := if 0 <=? e then den * 2 ^ e else den in
  let e0 := if scale_num e1 <? scale_den e1 * 2 ^ mant then e1 - 1 else e1 in
  let e := Z.max e0 (fp_emin w mant) in
  let bits := (e - fp_emin w mant) * 2 ^ mant + round_half_even (scale_num e) (scale_den e) in
  Z.min bits (fp_exp_max w mant * 2 ^ mant).

(** Leading digits: their value, their number, and the rest. *)
Fixpoint take_digits (s : string) (acc : Z) (n : Z) : Z * Z * string :=
  match s with
  | String a s' =>
      match digit_value a with
      | Some d => take_digits s' (10 * acc + d) (n + 1)
      | None => (acc, n, s)
      end
  | EmptyString => (acc, n, s)
  end.

Definition scan_exponent (s : string) : Z :=
  match s with
  | String a s' =>
      if bool_decide (a = "e"%char) || bool_decide (a = "E"%char) then
        let '(neg, n) := scan_field s' in
        if (neg : bool) then - default 0 n else default 0 n
      else 0
  | EmptyString => 0
  end.

Definition scan_unsigned_fp (w mant : Z) (s : string) : Z :=
  if String.prefix "inf" s then fp_exp_max w mant * 2 ^ mant
  else if String.prefix "nan" s then fp_exp_max w mant * 2 ^ mant + 2 ^ (mant - 1)
  else
    let '(ip, ni, s1) := take_digits s 0 0 in
    let '(m, nf, s2) :=
      (match s1 with
       | String a s' => if decide (a = "."%char) then
             let '(m, n, r) := take_digits s' ip 0 in (m, n, r)
           else (ip, 0, s1)
       | EmptyString => (ip, 0, s1)
       end) in
    if (ni + nf =? 0) then 0
    else
      let x := scan_exponent s2 - nf in
      if 0 <=? x then round_fp w mant (m * 10 ^ x) 1 else round_fp w mant m (10 ^ (- x)).

Definition scan_fp (w mant : Z) (s : string) : outcome Z :=
  match skip_spaces s with
  | EmptyString => Undef
  | String a s' as s =>
      if decide (a = "-"%char) then Done (scan_unsigned_fp w mant s' + 2 ^ (w - 1))
      else if decide (a = "+"%char) then Done (scan_unsigned_fp w mant s')
      else Done (scan_unsigned_fp w mant s)
  end.

Definition scan_float := scan_fp 32 23.
Definition scan_double := scan_fp 64 52.

(** 1.5, -0.0, 0.1 and 1e-7 as doubles: the last prints as zero. *)
Example double_samples :
  (map double_to_string [4609434218613702656; 9223372036854775808; 4591870180066957722; 4503599627370496000],
   map (fun s => scan_double s) ["1.500000"; "-0.000000"; "0.100000"; "1e-7x"])
  = (["1.500000"; "-0.000000"; "0.100000"; "0.000000"],
     [Done 4609434218613702656; Done 9223372036854775808; Done 4591870180066957722; Done 4502148214488346440]).
Proof. vm. Qed.

(** 2^127 and the smallest subnormal float survive or vanish. *)
Example float_samples :
  (float_to_string 2130706432, scan_float (float_to_string 2130706432), float_to_string 1, scan_float "3.5")
  = ("170141183460469231731687303715884105728.000000", Done 2130706432, "0.000000", Done 1080033280).
Proof. vm. Qed.
