(* ===== verification/ConcurrentMap.v ===== *)
(** * The locked map of the fault reporter

    Models [concurrent_map.h].  Every operation holds the lock for its whole
    body, so it is one atomic step on the entries; [std::map] is a [gmap], and
    its iteration order is the order of the keys.  An action is a
    [std::function], possibly empty ([None]), that may change the value it is
    given and the state [S] it captures. *)

From S2P Require Import Prelude.
From stdpp Require Import sorting.

#[local] Open Scope Z_scope.

Section ConcurrentMap.
Context {K : Type} `{Countable K} {V : Type} (mapped_type : V).
Context (le : relation K) `{!forall x y, Decision (le x y)}.
Context {S : Type}.

#[local] Abbreviation entries := (gmap K V).
Definition action_t := option (K -> V -> ST S (bool * V)).

(** The entries in iteration order. *)
Definition entry_le (a b : K * V) : Prop := le a.1 b.1.

#[local] Instance entry_le_dec a b : Decision (entry_le a b).
Proof. unfold entry_le. apply _. Defined.

Definition iteration (m : entries) : list (K * V) := merge_sort entry_le (map_to_list m).

(** ** Whole-map assignments: (this, other) after the call *)

(** [concurrent_map.h:55-63] operator=(map&&) *)
Definition assign_map (this other : entries) : entries := other.

(** [concurrent_map.h:65-74] operator=(const ConcurrentMap&) *)
Definition assign_copy (this other : entries) : entries * entries := (other, other).

(** [concurrent_map.h:336-340] Steal *)
Definition Steal (m : entries) : entries * entries := (m, ∅).

(** [concurrent_map.h:81-90] operator=(ConcurrentMap&&) *)
Definition assign_move (this other : entries) : entries * entries :=
  let '(tmp, other) := Steal other in (tmp, other).

(** [concurrent_map.h:329-333] Clone *)
Definition Clone (m : entries) : entries := m.

(** ** Single-key operations *)

(** [concurrent_map.h:99-106] Emplace *)
Definition Emplace (m : entries) (key : K) (value : V) : bool * entries :=
  match m !! key with
  | Some _ => (false, m)
  | None => (true, <[key := value]> m)
  end.

(** [concurrent_map.h:108-118] Emplace *)
Definition EmplaceFilter (m : entries) (filter : entries -> bool) (key : K) (value : V)
    : bool * entries :=
  if negb (filter m) then (false, m) else Emplace m key value.

(** [concurrent_map.h:120-129] Find *)
Definition Find (m : entries) (key : K) : bool * V :=
  match m !! key with
  | None => (false, mapped_type)
  | Some value => (true, value)
  end.

(** [concurrent_map.h:131-142] ContainIf *)
Definition ContainIf (m : entries) (key : K) (action : option (V -> ST S bool)) : ST S bool :=
  match m !! key with
  | None => mret false
  | Some value => match action with Some a => a value | None => mret true end
  end.

(** [concurrent_map.h:144-148] Contains *)
Definition Contains (m : entries) (key : K) : bool := bool_decide (is_Some (m !! key)).

(** [concurrent_map.h:150-156] InsertOrAssign *)
Definition InsertOrAssign (m : entries) (key : K) (obj : V) : bool * entries :=
  (bool_decide (m !! key = None), <[key := obj]> m).

(** [concurrent_map.h:158-163] Insert *)
Definition Insert (m : entries) (key : K) (value : V) : bool * entries := Emplace m key value.

(** [concurrent_map.h:165-169] Erase *)
Definition Erase (m : entries) (key : K) : nat * entries :=
  ((if m !! key is Some _ then 1 else 0)%nat, delete key m).

(** [concurrent_map.h:171-183] EraseIf *)
Definition EraseIfKey (m : entries) (key : K) (action : action_t) : ST S (nat * entries) :=
  match action with
  | None => mret (0%nat, m)
  | Some action =>
      match m !! key with
      | None => mret (0%nat, m)
      | Some value =>
          '(met, value) ← action key value;
          let m := <[key := value]> m in
          if negb met then mret (0%nat, m) else mret (Erase m key)
      end
  end.

(** [concurrent_map.h:185-189] Clear *)
Definition Clear (m : entries) : entries := ∅.

(** [concurrent_map.h:191-195] Empty *)
Definition Empty (m : entries) : bool := bool_decide (m = ∅).

(** [concurrent_map.h:197-201] Size *)
Definition Size (m : entries) : nat := size m.

(** ** Traversals *)

(** The loop of [EraseIf]: erase the entries on which the action is true. *)
Fixpoint erase_if_loop (action : K -> V -> ST S (bool * V)) (l : list (K * V))
    : ST S (list (K * V)) :=
  match l with
  | [] => mret []
  | (key, value) :: rest =>
      '(met, value) ← action key value;
      rest ← erase_if_loop action rest;
      mret (if (met : bool) then rest else (key, value) :: rest)
  end.

(** [concurrent_map.h:205-226] EraseIf *)
Definition EraseIf (m : entries) (action : action_t) : ST S (nat * entries) :=
  match action with
  | None => mret (0%nat, m)
  | Some action =>
      kept ← erase_if_loop action (iteration m);
      mret ((size m - length kept)%nat, list_to_map kept)
  end.

(** The loop of [ForEach]: stops at the first entry on which the action is
    true; the values are passed by reference. *)
Fixpoint for_each_loop (action : K -> V -> ST S (bool * V)) (l : list (K * V))
    : ST S (list (K * V)) :=
  match l with
  | [] => mret []
  | (key, value) :: rest =>
      '(stop, value) ← action key value;
      if (stop : bool) then mret ((key, value) :: rest)
      else rest ← for_each_loop action rest; mret ((key, value) :: rest)
  end.

(** [concurrent_map.h:228-239] ForEach *)
Definition ForEach (m : entries) (action : action_t) : ST S entries :=
  match action with
  | None => mret m
  | Some action => l ← for_each_loop action (iteration m); mret (list_to_map l)
  end.

(** [concurrent_map.h:241-252] ForEachCopies *)
Definition ForEachCopies (m : entries) (action : action_t) : ST S entries :=
  match action with
  | None => mret m
  | Some action => _ ← for_each_loop action (iteration (Clone m)); mret m
  end.

(** [concurrent_map.h:255-273] Compute *)
Definition Compute_ (m : entries) (key : K) (action : action_t) : ST S (bool * entries) :=
  match action with
  | None => mret (false, m)
  | Some action =>
      let m := match m !! key with None => <[key := mapped_type]> m | Some _ => m end in
      '(keep, value) ← action key (default mapped_type (m !! key));
      let m := <[key := value]> m in
      mret (true, if negb keep then delete key m else m)
  end.

(** [concurrent_map.h:276-290] ComputeIfPresent *)
Definition ComputeIfPresent (m : entries) (key : K) (action : action_t) : ST S (bool * entries) :=
  match action with
  | None => mret (false, m)
  | Some action =>
      match m !! key with
      | None => mret (false, m)
      | Some value =>
          '(keep, value) ← action key value;
          let m := <[key := value]> m in
          mret (true, if negb keep then delete key m else m)
      end
  end.

(** [concurrent_map.h:292-304] ComputeIfAbsent *)
Definition ComputeIfAbsent (m : entries) (key : K) (action : option (K -> ST S V))
    : ST S (bool * entries) :=
  match action with
  | None => mret (false, m)
  | Some action =>
      match m !! key with
      | Some _ => mret (false, m)
      | None => value ← action key; mret (true, <[key := value]> m)
      end
  end.

(** [concurrent_map.h:306-316] DoActionIfEmpty *)
Definition DoActionIfEmpty (m : entries) (action : option (ST S unit)) : ST S unit :=
  match action with
  | None => mret tt
  | Some action => if Empty m then action else mret tt
  end.

(** [concurrent_map.h:318-327] DoActionWhenClone *)
Definition DoActionWhenClone (m : entries) (action : option (entries -> ST S unit)) : ST S unit :=
  match action with
  | None => mret tt
  | Some action => let tmp := m in action tmp
  end.
End ConcurrentMap.

(** ** The traversals as operations on the map *)

Section ConcurrentMap_facts.
Context {K : Type} `{Countable K} {V : Type} (mapped_type : V).
Context (le : relation K) `{!forall x y, Decision (le x y)}.
Context {S : Type}.

Lemma iteration_perm (m : gmap K V) : iteration le m ≡ₚ map_to_list m.
Proof. apply merge_sort_Permutation. Qed.

Lemma iteration_nodup (m : gmap K V) : NoDup (iteration le m).*1.
Proof. rewrite iteration_perm. apply NoDup_fst_map_to_list. Qed.

Lemma elem_of_iteration (m : gmap K V) k v : (k, v) ∈ iteration le m <-> m !! k = Some v.
Proof. rewrite iteration_perm. apply elem_of_map_to_list. Qed.

Lemma length_iteration (m : gmap K V) : length (iteration le m) = size m.
Proof. rewrite iteration_perm. by rewrite length_map_to_list. Qed.

Lemma iteration_map (m : gmap K V) : list_to_map (iteration le m) = m.
Proof.
  rewrite <- (list_to_map_to_list m) at 2. symmetry.
  apply list_to_map_proper; [apply NoDup_fst_map_to_list|]. symmetry. apply iteration_perm.
Qed.

(** A loop never changes which keys it has seen. *)
Lemma for_each_keys (action : K -> V -> ST S (bool * V)) l (s : S) :
  (fst (for_each_loop action l s)).*1 = l.*1.
Proof.
  revert s. induction l as [|[k v] l IH]; intros s; [done|]. cbn [for_each_loop].
  unfold mbind, st_bind. destruct (action k v s) as [[stop v'] s1]. destruct stop; [done|].
  destruct (for_each_loop action l s1) as [l' s2] eqn:E. cbn.
  specialize (IH s1). rewrite E in IH. cbn in IH. by rewrite IH.
Qed.

Lemma erase_if_pure (p : K -> V -> bool) l (s : S) :
  erase_if_loop (fun k v => mret (p k v, v)) l s
  = (filter (fun kv => p kv.1 kv.2 = false) l, s).
Proof.
  induction l as [|[k v] l IH]; [done|]. cbn [erase_if_loop].
  unfold mbind, st_bind, mret, st_ret in *. rewrite IH. rewrite filter_cons.
  cbn [fst snd]. by destruct (p k v).
Qed.

Lemma filter_nodup (p : K -> V -> bool) b (m : gmap K V) :
  NoDup (filter (fun kv => p kv.1 kv.2 = b) (iteration le m)).*1.
Proof. eapply sublist_NoDup; [apply iteration_nodup|]. apply fmap_sublist, sublist_filter. Qed.

Lemma filter_entries (p : K -> V -> bool) b (m : gmap K V) :
  list_to_map (filter (fun kv => p kv.1 kv.2 = b) (iteration le m))
  = filter (fun kv => p kv.1 kv.2 = b) m.
Proof.
  apply map_eq. intros k. apply option_eq. intros v.
  rewrite <- elem_of_list_to_map by apply filter_nodup.
  rewrite list_elem_of_filter, elem_of_iteration, map_lookup_filter_Some. tauto.
Qed.

Lemma length_filter_entries (p : K -> V -> bool) b (m : gmap K V) :
  length (filter (fun kv => p kv.1 kv.2 = b) (iteration le m))
  = size (filter (fun kv => p kv.1 kv.2 = b) m).
Proof. rewrite <- filter_entries. symmetry. apply map_size_list_to_map, filter_nodup. Qed.

Lemma filter_split (p : K -> V -> bool) (l : list (K * V)) :
  length l = (length (filter (fun kv => p kv.1 kv.2 = true) l) +
              length (filter (fun kv => p kv.1 kv.2 = false) l))%nat.
Proof.
  induction l as [|[k v] l IH]; [done|]. rewrite !filter_cons. cbn [fst snd].
  destruct (p k v); cbn [length decide]; repeat case_decide; cbn [length]; try done; lia.
Qed.
End ConcurrentMap_facts.

(** ** Properties *)

(** Conditional erasure removes exactly the entries that meet the
    condition, returns their number, and changes no other entry and no state
    besides the map; the single-key form does so for its key. *)
Theorem EraseIf_removes_exactly {K} `{Countable K} {V : Type}
    (le : relation K) `{!forall x y, Decision (le x y)} {S : Type}
    (m : gmap K V) (p : K -> V -> bool) (s : S) :
  EraseIf le m (Some (fun k v => mret (p k v, v))) s
    = ((size (filter (fun kv => p kv.1 kv.2 = true) m),
        filter (fun kv => p kv.1 kv.2 = false) m), s) /\
  (forall k, EraseIfKey m k (Some (fun k v => mret (p k v, v))) s
    = (match m !! k with
       | Some v => if p k v then (1%nat, delete k m) else (0%nat, m)
       | None => (0%nat, m)
       end, s)).
Proof.
  split.
  - unfold EraseIf. rewrite (st_bind_eq _ _ _ _ _ (erase_if_pure p (iteration le m) s)).
    unfold mret, st_ret. rewrite filter_entries, <- (length_filter_entries le p true m).
    rewrite <- (length_iteration le m), (filter_split p (iteration le m)).
    do 3 f_equal. lia.
  - intros k. unfold EraseIfKey, Erase. destruct (m !! k) as [v|] eqn:E; [|done].
    unfold mbind, st_bind, mret, st_ret. destruct (p k v); cbn.
    + by rewrite lookup_insert_eq, delete_insert_eq.
    + by rewrite insert_id.
Qed.

(** A traversal with any action, stateful and changing values, neither adds
    nor removes a key; [ForEachCopies] runs the action on the same sequence of
    entries with the same effect on the captured state and leaves the map as
    it was. *)
Theorem ForEach_keeps_keys {K} `{Countable K} {V : Type}
    (le : relation K) `{!forall x y, Decision (le x y)} {S : Type}
    (m : gmap K V) (action : option (K -> V -> ST S (bool * V))) (s : S) :
  dom (fst (ForEach le m action s)) = dom m /\
  fst (ForEachCopies le m action s) = m /\
  snd (ForEachCopies le m action s) = snd (ForEach le m action s).
Proof.
  unfold ForEach, ForEachCopies, Clone. destruct action as [a|]; [|done].
  unfold mbind, st_bind, mret, st_ret.
  pose proof (for_each_keys a (iteration le m) s) as Hk.
  destruct (for_each_loop a (iteration le m) s) as [l s']. cbn in *. split_and!; [|done..].
  rewrite dom_list_to_map_L, Hk, <- dom_list_to_map_L. by rewrite iteration_map.
Qed.

(** [Compute] runs the action once, on the stored value or, for an absent
    key, on the default value; the action's result alone decides whether the
    key stays, with the changed value; [ComputeIfPresent] and
    [ComputeIfAbsent] do nothing on an absent, respectively present, key. *)
Theorem Compute_effect {K} `{Countable K} {V : Type} (mapped_type : V) {S : Type}
    (m : gmap K V) (key : K) (f : K -> V -> ST S (bool * V)) (g : K -> ST S V) (s : S) :
  Compute_ mapped_type m key (Some f) s
    = (let '((keep, v), s') := f key (default mapped_type (m !! key)) s in
       ((true, if (keep : bool) then <[key := v]> m else delete key m), s')) /\
  (m !! key = None -> ComputeIfPresent m key (Some f) s = ((false, m), s)) /\
  (is_Some (m !! key) ->
     ComputeIfPresent m key (Some f) s = Compute_ mapped_type m key (Some f) s /\
     ComputeIfAbsent m key (Some g) s = ((false, m), s)).
Proof.
  unfold Compute_, ComputeIfPresent, ComputeIfAbsent, mbind, st_bind, mret, st_ret.
  split_and!.
  - destruct (m !! key) as [v|] eqn:E; cbn [default from_option]; unfold id.
    + rewrite E. cbn. destruct (f key v s) as [[[] v'] s']; cbn; [done|].
      by rewrite delete_insert_eq.
    + rewrite lookup_insert_eq. cbn. destruct (f key mapped_type s) as [[[] v'] s']; cbn.
      * by rewrite insert_insert_eq.
      * by rewrite insert_insert_eq, delete_insert_eq.
  - by intros ->.
  - intros [v E]. rewrite E. cbn. rewrite E. cbn. done.
Qed.

Definition witness_action (k : string) (v : Z) : ST unit (bool * Z) := mret (v <? 1, v + 1).

Example Compute_effect_witness :
  Compute_ 0 (∅ : gmap string Z) "store" (Some witness_action) tt
    = ((true, {["store" := 1]}), tt) /\
  ComputeIfPresent (∅ : gmap string Z) "store" (Some witness_action) tt = ((false, ∅), tt).
Proof.
  pose proof (Compute_effect 0 (∅ : gmap string Z) "store" witness_action (fun _ => mret 0) tt) as H.
  split; [exact (proj1 H)|]. apply (proj1 (proj2 H)). reflexivity.
Defined.
