(* ===== verification/Pool.v ===== *)
(** * The pool of executors

    Models [pool.h]: two doubly linked lists of nodes, idle and busy, whose
    links are pointers.  A node is an entry of a store of nodes; following a
    null or dangling pointer is the outcome [Undef].  Each operation holds the
    mutex and is one step. *)

From S2P Require Import Prelude.

(** [std::make_shared<T>()]: the identity of the object of a node. *)
Abbreviation DataRef := positive.

(** [pool.h:124-128] Node *)
Record PNode := mkPNode { prev : option positive; next : option positive; pdata : DataRef }.

(** [pool.h:130-135] Pool *)
Record Pool := mkPool {
  capability_ : Z; min_ : Z; current_ : Z;
  idle_ : option positive; busy_ : option positive;
  nodes : gmap positive PNode;
  next_node : positive             (** the address of the next [new Node] *)
}.

(** [pool.h:26-26] Pool *)
Definition Pool_new (capability min : Z) : Pool := mkPool capability min 0 None None ∅ 1.

Definition set_nodes h s := mkPool (capability_ s) (min_ s) (current_ s) (idle_ s) (busy_ s) h (next_node s).
Definition set_idle i s := mkPool (capability_ s) (min_ s) (current_ s) i (busy_ s) (nodes s) (next_node s).
Definition set_busy b s := mkPool (capability_ s) (min_ s) (current_ s) (idle_ s) b (nodes s) (next_node s).
Definition set_current c s := mkPool (capability_ s) (min_ s) c (idle_ s) (busy_ s) (nodes s) (next_node s).
Definition set_min m s := mkPool (capability_ s) m (current_ s) (idle_ s) (busy_ s) (nodes s) (next_node s).

(** ** Pointers *)

Definition deref (p : option positive) : SO Pool PNode := fun s =>
  match p ≫= fun x => nodes s !! x with Some n => Done (n, s) | None => Undef end.

(** [p->prev = v] and [p->next = v]. *)
Definition set_prev (p v : option positive) : SO Pool unit := fun s =>
  match p with
  | Some x =>
      match nodes s !! x with
      | Some n => Done (tt, set_nodes (<[x := mkPNode v (next n) (pdata n)]> (nodes s)) s)
      | None => Undef
      end
  | None => Undef
  end.

Definition set_next (p v : option positive) : SO Pool unit := fun s =>
  match p with
  | Some x =>
      match nodes s !! x with
      | Some n => Done (tt, set_nodes (<[x := mkPNode (prev n) v (pdata n)]> (nodes s)) s)
      | None => Undef
      end
  | None => Undef
  end.

Definition new_node : ST Pool positive := fun s =>
  let x := next_node s in
  (x, mkPool (capability_ s) (min_ s) (current_ s) (idle_ s) (busy_ s)
        (<[x := mkPNode None None x]> (nodes s)) (Pos.succ x)).

Definition null (p : option positive) : bool := bool_decide (p = None).

(** ** Operations *)

(** The head of the idle list becomes the head of the busy list.

    [pool.h:39-50] Get *)
Definition take_idle : SO Pool (option DataRef) :=
  s ← run_st get;
  let cur := idle_ s in
  n ← deref cur;
  run_st (modify (set_idle (next n)));;
  (if null (next n) then mret tt else set_prev (next n) None);;
  s ← run_st get;
  set_next cur (busy_ s);;
  (if null (busy_ s) then mret tt else
     b ← deref (busy_ s);
     set_prev cur (prev b);;
     set_prev (busy_ s) cur);;
  run_st (modify (set_busy cur));;
  n ← deref cur;
  mret (Some (pdata n)).

(** [pool.h:28-51] Get *)
Definition Pool_Get (isForce : bool) : SO Pool (option DataRef) :=
  s ← run_st get;
  if null (idle_ s) then
    if negb isForce && (capability_ s <=? current_ s) then mret None else
    cur ← run_st new_node;
    run_st (modify (set_idle (Some cur)));;
    run_st (modify (fun s => set_current (wrap_u 32 (current_ s + 1)) s));;
    take_idle
  else take_idle.

(** Walk from [cur] to the node that holds [data]; [None] at the end.

    [pool.h:86-88] Idle *)
Fixpoint find_node (fuel : nat) (cur : option positive) (data : DataRef) : SO Pool (option positive) :=
  match cur with
  | None => mret None
  | Some x =>
      match fuel with
      | O => run_out NoFuel
      | S fuel' =>
          n ← deref cur;
          if bool_decide (pdata n = data) then mret (Some x) else find_node fuel' (next n) data
      end
  end.

(** Point the neighbours of a node at each other.

    [pool.h:95-100] Idle *)
Definition unlink (cur : option positive) : SO Pool unit :=
  n ← deref cur;
  (if null (next n) then mret tt else set_prev (next n) (prev n));;
  (if null (prev n) then mret tt else set_next (prev n) (next n)).

(** [pool.h:53-80] Release *)
Definition Pool_Release (data : DataRef) (force : bool) : SO Pool bool :=
  s ← run_st get;
  if negb force && (current_ s <=? min_ s) then mret false else
  cur ← find_node (size (nodes s)) (idle_ s) data;
  match cur with
  | None => mret false
  | Some x =>
      unlink cur;;
      n ← deref cur;
      (if bool_decide (idle_ s = cur) then run_st (modify (set_idle (next n))) else mret tt);;
      run_st (modify (fun s => set_current (wrap_u 32 (current_ s - 1)) s));;
      run_st (modify (fun s => set_nodes (delete x (nodes s)) s));;
      mret true
  end.

(** [pool.h:82-107] Idle *)
Definition Pool_Idle (data : DataRef) : SO Pool unit :=
  s ← run_st get;
  cur ← find_node (size (nodes s)) (busy_ s) data;
  if null cur then mret tt else
  n ← deref cur;
  (if bool_decide (cur = busy_ s) then run_st (modify (set_busy (next n))) else mret tt);;
  unlink cur;;
  set_prev cur None;;
  set_next cur (idle_ s);;
  (if null (idle_ s) then mret tt else set_prev (idle_ s) cur);;
  run_st (modify (set_idle cur)).

(** Close the head of a list until the list is empty.

    [pool.h:113-115] Clean *)
Fixpoint close_all (fuel : nat) (head_of : Pool -> option positive) (close : DataRef -> SO Pool unit) : SO Pool unit :=
  s ← run_st get;
  match head_of s with
  | None => mret tt
  | Some _ =>
      match fuel with
      | O => run_out NoFuel
      | S fuel' => n ← deref (head_of s); close (pdata n);; close_all fuel' head_of close
      end
  end.

(** [pool.h:109-121] Clean *)
Definition Pool_Clean (fuel : nat) (close : DataRef -> SO Pool unit) : SO Pool bool :=
  s ← run_st get;
  let temp := min_ s in
  run_st (modify (set_min 0));;
  close_all fuel busy_ close;;
  close_all fuel idle_ close;;
  run_st (modify (set_min temp));;
  mret true.

(** ** The lists behind the pointers *)

(** The first address of a list, and the last one, with what lies beyond. *)
Definition first (l : list positive) (q : option positive) : option positive :=
  match l with [] => q | x :: _ => Some x end.

Definition final (p : option positive) (l : list positive) : option positive := from_option Some p (last l).

(** [seg h p l q]: in the store [h] the nodes [l] are linked both ways, with
    [p] before the first and [q] after the last. *)
Fixpoint seg (h : gmap positive PNode) (p : option positive) (l : list positive) (q : option positive) : Prop :=
  match l with
  | [] => True
  | x :: l' => h !! x = Some (mkPNode p (first l' q) x) /\ seg h (Some x) l' q
  end.

Lemma first_app l1 l2 q : first (l1 ++ l2) q = first l1 (first l2 q).
Proof. by destruct l1. Qed.

Lemma final_cons p x l : final p (x :: l) = final (Some x) l.
Proof. unfold final. destruct l as [|y l]; [done|]. rewrite last_cons_cons. by destruct (last_is_Some (y :: l)) as [_ [z ->]]. Qed.

Lemma seg_app h p l1 l2 q : seg h p (l1 ++ l2) q <-> seg h p l1 (first l2 q) /\ seg h (final p l1) l2 q.
Proof.
  revert p. induction l1 as [|x l1 IH]; intros p; cbn [seg app]; [by split; [|intros []]|].
  rewrite IH, first_app, final_cons. tauto.
Qed.

Lemma seg_ext h h' p l q : (forall x, x ∈ l -> h' !! x = h !! x) -> seg h p l q -> seg h' p l q.
Proof.
  revert p. induction l as [|x l IH]; intros p He; cbn [seg]; [done|]. intros [Hx Hl]. split.
  - rewrite He; [done|left].
  - apply IH; [|done]. intros y Hy. apply He. by right.
Qed.

Lemma seg_insert h p l q x n : x ∉ l -> seg h p l q -> seg (<[x := n]> h) p l q.
Proof. intros Hx. apply seg_ext. intros y Hy. apply lookup_insert_ne. by intros <-. Qed.

Lemma seg_delete h p l q x : x ∉ l -> seg h p l q -> seg (delete x h) p l q.
Proof. intros Hx. apply seg_ext. intros y Hy. apply lookup_delete_ne. by intros <-. Qed.

Lemma seg_first h p x l q p' : x ∉ l -> seg h p (x :: l) q ->
  seg (<[x := mkPNode p' (first l q) x]> h) p' (x :: l) q.
Proof. intros Hx [_ Hl]. split; [apply lookup_insert_eq|by apply seg_insert]. Qed.

Lemma seg_lookup h p l q x : seg h p l q -> x ∈ l -> exists a b, h !! x = Some (mkPNode a b x).
Proof.
  revert p. induction l as [|y l IH]; intros p; [intros _ Hx; inv Hx|]. intros [Hy Hl] Hx.
  apply elem_of_cons in Hx as [->|Hx]; [by eexists _, _|by eapply IH].
Qed.

(** Two stores that agree outside of [l] and keep the nodes of [l]. *)
Definition same_outside (l : list positive) (h h' : gmap positive PNode) : Prop :=
  (forall x, x ∉ l -> h' !! x = h !! x) /\ (forall x, is_Some (h' !! x) <-> is_Some (h !! x)).

#[export] Instance same_outside_preorder l : PreOrder (same_outside l).
Proof.
  split; [by split|]. intros h1 h2 h3 [A1 A2] [B1 B2]. split.
  - intros x Hx. by rewrite B1, A1.
  - intros x. by rewrite B2, A2.
Qed.

Lemma same_outside_insert l h x n : x ∈ l -> is_Some (h !! x) -> same_outside l h (<[x := n]> h).
Proof.
  intros Hx Hs. split.
  - intros y Hy. apply lookup_insert_ne. by intros <-.
  - intros y. destruct (decide (y = x)) as [->|Hne]; [by rewrite lookup_insert_eq|by rewrite lookup_insert_ne].
Qed.

Lemma NoDup_middle (l1 l2 : list positive) x : NoDup (l1 ++ x :: l2) ->
  (x ∉ l1) /\ (x ∉ l2) /\ NoDup (l1 ++ l2).
Proof.
  rewrite <- Permutation_middle, NoDup_cons, elem_of_app. tauto.
Qed.

(** The pointer operations on a node that is there. *)
Lemma deref_ok x n s : nodes s !! x = Some n -> deref (Some x) s = Done (n, s).
Proof. intros E. unfold deref. cbn. by rewrite E. Qed.

Lemma set_prev_ok x n v s : nodes s !! x = Some n ->
  set_prev (Some x) v s = Done (tt, set_nodes (<[x := mkPNode v (next n) (pdata n)]> (nodes s)) s).
Proof. intros E. unfold set_prev. by rewrite E. Qed.

Lemma set_next_ok x n v s : nodes s !! x = Some n ->
  set_next (Some x) v s = Done (tt, set_nodes (<[x := mkPNode (prev n) v (pdata n)]> (nodes s)) s).
Proof. intros E. unfold set_next. by rewrite E. Qed.

Lemma null_None : null None = true.
Proof. done. Qed.
Lemma null_Some x : null (Some x) = false.
Proof. done. Qed.

(** ** Unlinking *)

(** A node's neighbours are linked to each other, and the node keeps its own
    links. *)
Lemma unlink_spec s l1 x l2 : NoDup (l1 ++ x :: l2) -> seg (nodes s) None (l1 ++ x :: l2) None ->
  exists h, unlink (Some x) s = Done (tt, set_nodes h s) /\ seg h None (l1 ++ l2) None /\
    h !! x = Some (mkPNode (final None l1) (first l2 None) x) /\ same_outside (l1 ++ l2) (nodes s) h.
Proof.
  intros Hnd Hseg. apply seg_app in Hseg as [H1 [Hx H2]]. cbn [first] in H1, Hx.
  apply NoDup_middle in Hnd as (Hx1 & Hx2 & Hnd).
  unfold unlink. rewrite (so_bind_Done _ _ _ _ _ (deref_ok _ _ _ Hx)). cbn [next prev].
  (* the node behind *)
  assert (Hn : exists h, (if null (first l2 None) then mret tt else set_prev (first l2 None) (final None l1)) s =
      Done (tt, set_nodes h s) /\ seg h None l1 (Some x) /\ seg h (final None l1) l2 None /\
      h !! x = nodes s !! x /\ same_outside (l1 ++ l2) (nodes s) h).
  { destruct l2 as [|y l2]; cbn [first]; rewrite ?null_None, ?null_Some.
    - exists (nodes s). split_and!; [by destruct s|done..].
    - destruct H2 as [Hy H2]. rewrite (set_prev_ok _ _ _ _ Hy). cbn [next pdata].
      apply NoDup_middle in Hnd as (Hy1 & Hy2 & _). assert (Hxy : x <> y) by set_solver.
      eexists. split_and!; [reflexivity| | | |].
      + by apply seg_insert.
      + by apply (seg_first _ (Some x)).
      + by apply lookup_insert_ne.
      + apply same_outside_insert; [set_solver|by eexists]. }
  destruct Hn as (h & Hset & Hh1 & Hh2 & Hhx & Hso). rewrite (so_bind_Done _ _ _ _ _ Hset). clear Hset.
  (* the node before *)
  destruct l1 as [|z l1 _] using rev_ind.
  - exists h. split_and!; [done|done|by rewrite Hhx|done].
  - assert (Hf : final None (l1 ++ [z]) = Some z) by (unfold final; by rewrite last_snoc). rewrite Hf in *.
    rewrite <- app_assoc in Hnd. cbn [app] in Hnd. apply NoDup_middle in Hnd as (Hz1 & Hz2 & _).
    assert (Hxz : x <> z) by set_solver.
    apply seg_app in Hh1 as [Hl1 [Hz _]]. cbn [first]. rewrite null_Some, (set_next_ok _ _ _ (set_nodes h s) Hz). cbn [prev pdata].
    eexists. split_and!; [reflexivity| | |].
    + apply seg_app. rewrite Hf. split; [|by apply seg_insert; [set_solver|]].
      apply seg_app. split; [by apply seg_insert; [set_solver|]|]. split; [apply lookup_insert_eq|done].
    + cbn. rewrite lookup_insert_ne by congruence. by rewrite Hhx.
    + etrans; [exact Hso|]. apply same_outside_insert; [set_solver|by eexists].
Qed.

(** ** The pool as two lists *)

(** [rep s li lb]: the idle list is [li] and the busy list is [lb]. *)
Record rep (s : Pool) (li lb : list positive) : Prop := {
  rep_idle : idle_ s = first li None;
  rep_busy : busy_ s = first lb None;
  rep_seg_idle : seg (nodes s) None li None;
  rep_seg_busy : seg (nodes s) None lb None;
  rep_nodup : NoDup (li ++ lb);
  rep_nodes x : is_Some (nodes s !! x) <-> x ∈ li ++ lb;
  rep_fresh x : x ∈ li ++ lb -> (x < next_node s)%positive;
  rep_current : current_ s = Z.of_nat (length (li ++ lb));
  rep_small : current_ s < 2 ^ 32
}.

(** The abstract pool: the idle and the busy executors, newest first. *)
Definition spec_get (force : bool) (s : Pool) (li lb : list positive) : option positive * list positive * list positive :=
  match li with
  | x :: li' => (Some x, li', x :: lb)
  | [] => if negb force && (capability_ s <=? current_ s) then (None, [], lb)
          else (Some (next_node s), [], next_node s :: lb)
  end.

Definition spec_release (d : positive) (force : bool) (s : Pool) (li : list positive) : bool * list positive :=
  if negb force && (current_ s <=? min_ s) then (false, li)
  else (bool_decide (d ∈ li), filter (fun x => x <> d) li).

Definition spec_idle (d : positive) (li lb : list positive) : list positive * list positive :=
  if decide (d ∈ lb) then (d :: li, filter (fun x => x <> d) lb) else (li, lb).

Lemma size_length s li lb : rep s li lb -> size (nodes s) = length (li ++ lb).
Proof.
  intros Hr. rewrite <- size_dom. rewrite <- (size_list_to_set (C := gset positive)) by apply (rep_nodup _ _ _ Hr).
  f_equal. apply set_eq. intros x. by rewrite elem_of_dom, elem_of_list_to_set, (rep_nodes _ _ _ Hr).
Qed.

Lemma find_node_spec fuel p l d s : seg (nodes s) p l None -> (length l <= fuel)%nat ->
  find_node fuel (first l None) d s = Done (if decide (d ∈ l) then Some d else None, s).
Proof.
  revert fuel p. induction l as [|x l IH]; intros fuel p; cbn [first].
  { intros _ _. destruct fuel; cbn [find_node]; by rewrite decide_False by set_solver. }
  intros [Hx Hl] Hf. destruct fuel as [|fuel]; [cbn in Hf; lia|]. cbn [find_node].
  rewrite (so_bind_Done _ _ _ _ _ (deref_ok _ _ _ Hx)). cbn [pdata next]. case_bool_decide as Hd.
  - subst d. by rewrite decide_True by left.
  - rewrite (IH fuel (Some x)) by (done || cbn in Hf; lia). do 2 case_decide; set_solver.
Qed.

Lemma filter_absent d (l : list positive) : d ∉ l -> filter (fun x => x <> d) l = l.
Proof.
  induction l as [|x l IH]; [done|]. intros [Hx Hl]%not_elem_of_cons. rewrite filter_cons_True by congruence. by rewrite IH.
Qed.

Lemma filter_middle d (l1 l2 : list positive) : NoDup (l1 ++ d :: l2) ->
  filter (fun x => x <> d) (l1 ++ d :: l2) = l1 ++ l2.
Proof.
  intros (H1 & H2 & _)%NoDup_middle. rewrite filter_app, filter_cons_False by auto.
  by rewrite !filter_absent.
Qed.

(** The store after [x] is put in front of [l]. *)
Definition push_store (h : gmap positive PNode) (x : positive) (l : list positive) : gmap positive PNode :=
  let h' := <[x := mkPNode None (first l None) x]> h in
  match l with [] => h' | z :: l' => <[z := mkPNode (Some x) (first l' None) z]> h' end.

Lemma seg_push h x l : x ∉ l -> NoDup l -> seg h None l None -> seg (push_store h x l) None (x :: l) None.
Proof.
  intros Hx Hnd Hs. unfold push_store. destruct l as [|z l]; [by split; [apply lookup_insert_eq|]|].
  apply not_elem_of_cons in Hx as [Hxz Hx]. apply NoDup_cons in Hnd as [Hz _].
  split; [rewrite lookup_insert_ne by done; apply lookup_insert_eq|].
  apply (seg_first _ None); [done|]. apply seg_insert; [|done]. by apply not_elem_of_cons.
Qed.

Lemma push_store_outside h x l : is_Some (h !! x) -> seg h None l None ->
  same_outside (x :: l) h (push_store h x l).
Proof.
  intros Hx Hs. unfold push_store. assert (same_outside (x :: l) h (<[x := mkPNode None (first l None) x]> h)) as H1.
  { apply same_outside_insert; [by left|done]. }
  destruct l as [|z l]; [done|]. etrans; [exact H1|]. destruct Hs as [Hz _].
  apply same_outside_insert; [by right; left|]. apply H1. by eexists.
Qed.

(** The fields that linking leaves alone. *)
Definition same_fields (s s' : Pool) : Prop :=
  capability_ s' = capability_ s /\ min_ s' = min_ s /\ current_ s' = current_ s /\ next_node s' = next_node s.

(** The store of a pool after its lists were rearranged. *)
Lemma rep_rearranged s s' li lb li' lb' : rep s li lb -> same_fields s s' ->
  (li' ++ lb') ≡ₚ (li ++ lb) -> idle_ s' = first li' None -> busy_ s' = first lb' None ->
  seg (nodes s') None li' None -> seg (nodes s') None lb' None ->
  (forall x, is_Some (nodes s' !! x) <-> is_Some (nodes s !! x)) -> rep s' li' lb'.
Proof.
  intros Hr (_ & _ & Hc & Hn) Hp Hi Hb Hsi Hsb Hd. split; try done.
  - rewrite Hp. apply (rep_nodup _ _ _ Hr).
  - intros x. by rewrite Hd, Hp, (rep_nodes _ _ _ Hr).
  - intros x. rewrite Hp, Hn. apply (rep_fresh _ _ _ Hr).
  - rewrite Hc, Hp. apply (rep_current _ _ _ Hr).
  - rewrite Hc. apply (rep_small _ _ _ Hr).
Qed.

(** The new head of a list has no predecessor. *)
Lemma drop_head h s x li lb : nodes s = h -> NoDup li -> (x ∉ li) -> (forall y, y ∈ li -> y ∉ lb) ->
  seg h (Some x) li None -> seg h None lb None ->
  exists h', (if null (first li None) then mret tt else set_prev (first li None) None) s = Done (tt, set_nodes h' s) /\
    seg h' None li None /\ seg h' None lb None /\ h' !! x = h !! x /\ same_outside li h h'.
Proof.
  intros <- Hni Hxi Hdis Hli Hlb.
  destruct li as [|y li]; cbn [first]; rewrite ?null_None, ?null_Some; [by exists (nodes s); destruct s|].
  destruct Hli as [Hy Hli]. apply not_elem_of_cons in Hxi as [Hxy Hxi].
  rewrite (set_prev_ok y _ _ s Hy). eexists. split_and!; [reflexivity| | | |].
  - apply (seg_first _ (Some x)); [by apply NoDup_cons in Hni as [? _]|by split].
  - apply seg_insert; [|done]. apply Hdis. left.
  - by apply lookup_insert_ne.
  - apply same_outside_insert; [left|by eexists].
Qed.

(** The node [x] is linked in front of the busy list. *)
Lemma link_busy h s x n lb : nodes s = h -> (x ∉ lb) -> h !! x = Some (mkPNode None n x) -> seg h None lb None ->
  (set_next (Some x) (first lb None);;
   (if null (first lb None) then mret tt else
      b ← deref (first lb None); set_prev (Some x) (prev b);; set_prev (first lb None) (Some x))) s =
  Done (tt, set_nodes (push_store h x lb) s).
Proof.
  intros <- Hxb Hx Hlb. rewrite (so_bind_Done _ _ _ _ _ (set_next_ok _ _ _ _ Hx)). cbn [prev pdata].
  destruct lb as [|z lb]; [done|]. cbn [first]. rewrite null_Some. destruct Hlb as [Hz Hlb].
  apply not_elem_of_cons in Hxb as [Hxz Hxb]. set (s2 := set_nodes _ _).
  assert (Hz2 : nodes s2 !! z = Some (mkPNode None (first lb None) z)) by (cbn; by rewrite lookup_insert_ne).
  rewrite (so_bind_Done _ _ _ _ _ (deref_ok _ _ _ Hz2)). cbn [prev].
  assert (Hx2 : nodes s2 !! x = Some (mkPNode None (Some z) x)) by apply lookup_insert_eq.
  rewrite (so_bind_Done _ _ _ _ _ (set_prev_ok _ _ _ _ Hx2)). cbn [next pdata].
  assert (Hs2 : set_nodes (<[x := mkPNode None (Some z) x]> (nodes s2)) s2 = s2).
  { unfold s2. cbn. unfold set_nodes. cbn. by rewrite insert_insert_eq. }
  rewrite Hs2. by rewrite (set_prev_ok _ _ _ _ Hz2).
Qed.

Lemma take_idle_spec s x li lb : rep s (x :: li) lb ->
  exists s', take_idle s = Done (Some x, s') /\ rep s' li (x :: lb) /\ same_fields s s'.
Proof.
  intros Hr. pose proof (rep_seg_idle _ _ _ Hr) as [Hx Hli]. pose proof (rep_seg_busy _ _ _ Hr) as Hlb.
  pose proof (rep_nodup _ _ _ Hr) as Hnd. cbn [app] in Hnd. apply NoDup_cons in Hnd as [Hxn Hnd].
  apply not_elem_of_app in Hxn as [Hxi Hxb]. apply NoDup_app in Hnd as (Hni & Hdis & Hnb).
  unfold take_idle. rewrite so_bind_st. cbn [get fst snd]. rewrite (rep_idle _ _ _ Hr). cbn [first].
  rewrite (so_bind_Done _ _ _ _ _ (deref_ok _ _ _ Hx)), so_bind_st. cbn [modify fst snd next].
  set (s1 := set_idle _ s).
  destruct (drop_head (nodes s) s1 x li lb) as (h & E & Hhi & Hhb & Hhx & Hso); [done..|].
  rewrite (so_bind_Done _ _ _ _ _ E), so_bind_st. clear E.
  cbn [get fst snd]. change (busy_ (set_nodes h s1)) with (busy_ s). rewrite (rep_busy _ _ _ Hr).
  assert (E : (set_next (Some x) (first lb None);; (if null (first lb None) then mret tt else
      b ← deref (first lb None); set_prev (Some x) (prev b);; set_prev (first lb None) (Some x)))
      (set_nodes h s1) = Done (tt, set_nodes (push_store h x lb) s1)).
  { by apply (link_busy h (set_nodes h s1) x (first li None)); [| |rewrite Hhx|]. }
  revert E. unfold mbind at 1, so_bind at 1. destruct (set_next _ _ (set_nodes h s1)) as [[[] s2]| | |] eqn:E2; [|done..].
  intros E. rewrite (so_bind_Done _ _ _ _ _ E2), (so_bind_Done _ _ _ _ _ E), so_bind_st. cbn [modify fst snd].
  assert (Hp : seg (push_store h x lb) None (x :: lb) None) by (by apply seg_push).
  rewrite (so_bind_Done _ _ _ _ _ (deref_ok x _ (set_busy (Some x) (set_nodes (push_store h x lb) s1)) (proj1 Hp))).
  eexists. split; [reflexivity|]. split; [|done].
  assert (Hpo : same_outside (x :: lb) h (push_store h x lb)).
  { apply push_store_outside; [|done]. rewrite Hhx. by eexists. }
  eapply rep_rearranged; [exact Hr|done| |done|done| |exact Hp|].
  - by rewrite <- Permutation_middle.
  - eapply seg_ext; [|exact Hhi]. intros y Hy. apply Hpo. apply not_elem_of_cons.
    split; [by intros ->|]. by apply Hdis.
  - intros y. cbn. by rewrite (proj2 Hpo), (proj2 Hso).
Qed.

Lemma Pool_Get_spec force s li lb : rep s li lb -> current_ s + 1 < 2 ^ 32 ->
  let '(r, li', lb') := spec_get force s li lb in
  exists s', Pool_Get force s = Done (r, s') /\ rep s' li' lb' /\ min_ s' = min_ s /\
    (next_node s <= next_node s')%positive.
Proof.
  intros Hr Hsmall. unfold Pool_Get. rewrite so_bind_st. cbn [get fst snd]. rewrite (rep_idle _ _ _ Hr).
  unfold spec_get. destruct li as [|x li]; cbn [first].
  2: { rewrite null_Some. destruct (take_idle_spec s x li lb Hr) as (s' & E & Hr' & _ & Hm & _ & Hn).
       exists s'. rewrite Hn. by split_and!. }
  rewrite null_None. destruct (negb force && (capability_ s <=? current_ s)); [exists s; by split_and!|].
  rewrite so_bind_st, so_bind_st, so_bind_st. cbn [new_node fst snd modify]. set (x := next_node s). set (s1 := set_current _ _).
  assert (Hnew : (x ∉ lb)) by (intros Hx; apply (rep_fresh _ _ _ Hr) in Hx; unfold x in Hx; lia).
  pose proof (rep_current _ _ _ Hr) as Hc. cbn [app] in Hc.
  destruct (take_idle_spec s1 x [] lb) as (s' & E & Hr' & _ & Hm & _ & Hn); [|exists s'; rewrite Hn; split_and!; try done; cbn; lia].
  split; try done; cbn.
  - apply (rep_busy _ _ _ Hr).
  - split; [apply lookup_insert_eq|done].
  - apply seg_insert; [done|apply (rep_seg_busy _ _ _ Hr)].
  - apply NoDup_cons. split; [done|]. by apply (rep_nodup _ _ _ Hr).
  - intros y. rewrite lookup_insert_is_Some, elem_of_cons, (rep_nodes _ _ _ Hr). cbn [app]. destruct (decide (x = y)); naive_solver.
  - intros y [->|Hy%(rep_fresh _ _ _ Hr)]%elem_of_cons; unfold x in *; lia.
  - rewrite wrap_u_id; [lia|]. apply in_u_spec. lia.
  - rewrite wrap_u_id; [lia|]. apply in_u_spec. lia.
Qed.

(** The pool after a node was unlinked from the idle list and deleted. *)
Lemma rep_remove s h l1 d l2 lb : rep s (l1 ++ d :: l2) lb -> seg h None (l1 ++ l2) None ->
  same_outside (l1 ++ l2) (nodes s) h ->
  rep (mkPool (capability_ s) (min_ s) (wrap_u 32 (current_ s - 1)) (first (l1 ++ l2) None) (busy_ s)
         (delete d h) (next_node s)) (l1 ++ l2) lb.
Proof.
  intros Hr Hseg Hso. pose proof (rep_nodup _ _ _ Hr) as Hnd.
  pose proof (proj1 (proj1 (NoDup_app _ _) Hnd)) as (Hd1 & Hd2 & _)%NoDup_middle.
  rewrite <- app_assoc in Hnd. cbn [app] in Hnd. apply NoDup_middle in Hnd as (_ & Hdl & Hnd').
  apply not_elem_of_app in Hdl as [_ Hdb]. pose proof (rep_current _ _ _ Hr) as Hc.
  pose proof (rep_small _ _ _ Hr) as Hsm. split; cbn.
  - done.
  - apply (rep_busy _ _ _ Hr).
  - apply seg_delete; [by apply not_elem_of_app|done].
  - apply seg_delete; [done|]. eapply seg_ext; [|apply (rep_seg_busy _ _ _ Hr)]. intros y Hy. apply Hso.
    intros Hy'. rewrite app_assoc in Hnd'. apply NoDup_app in Hnd' as (_ & Hdis & _). by apply (Hdis y).
  - by rewrite <- app_assoc.
  - intros y. rewrite lookup_delete_is_Some, (proj2 Hso), (rep_nodes _ _ _ Hr), !elem_of_app, elem_of_cons.
    split; [naive_solver|]. intros Hy. split; [by intros ->; naive_solver|naive_solver].
  - intros y Hy. apply (rep_fresh _ _ _ Hr). rewrite !elem_of_app, elem_of_cons in *. naive_solver.
  - rewrite wrap_u_id, Hc, !length_app; [cbn [length]; lia|]. apply in_u_spec.
    rewrite !length_app in Hc. cbn [length] in Hc. lia.
  - rewrite wrap_u_id; [lia|]. apply in_u_spec. rewrite !length_app in Hc. cbn [length] in Hc. lia.
Qed.

Lemma Pool_Release_spec d force s li lb : rep s li lb ->
  exists s', Pool_Release d force s = Done ((spec_release d force s li).1, s') /\
    rep s' (spec_release d force s li).2 lb /\ min_ s' = min_ s /\ next_node s' = next_node s.
Proof.
  intros Hr. unfold Pool_Release, spec_release. rewrite so_bind_st. cbn [get fst snd].
  destruct (negb force && (current_ s <=? min_ s)); [by exists s|]. rewrite (rep_idle _ _ _ Hr).
  pose proof (rep_nodup _ _ _ Hr) as Hnd. pose proof (rep_seg_idle _ _ _ Hr) as Hsi.
  assert (E : find_node (size (nodes s)) (first li None) d s = Done (if decide (d ∈ li) then Some d else None, s)).
  { eapply find_node_spec; [done|]. rewrite (size_length _ _ _ Hr), length_app. lia. }
  rewrite (so_bind_Done _ _ _ _ _ E). clear E. case_decide as Hd; cbn [fst snd].
  2: { rewrite bool_decide_eq_false_2 by done. exists s. split; [done|]. split; [by rewrite filter_absent|done]. }
  rewrite (bool_decide_eq_true_2 (d ∈ li)) by done. apply list_elem_of_split in Hd as (l1 & l2 & ->).
  pose proof (proj1 (proj1 (NoDup_app _ _) Hnd)) as Hndi. rewrite filter_middle by done.
  destruct (unlink_spec s l1 d l2 Hndi Hsi) as (h & E & Hseg & Hd & Hso).
  rewrite (so_bind_Done _ _ _ _ _ E), (so_bind_Done _ _ _ _ _ (deref_ok d _ (set_nodes h s) Hd)). cbn [next].
  pose proof (NoDup_middle _ _ _ Hndi) as (Hd1 & _ & _).
  assert (Hhead : exists s2, (if bool_decide (first (l1 ++ d :: l2) None = Some d)
      then run_st (modify (set_idle (first l2 None))) else mret tt) (set_nodes h s) = Done (tt, s2) /\
      s2 = set_idle (first (l1 ++ l2) None) (set_nodes h s)).
  { case_bool_decide as Hf; (eexists; split; [reflexivity|]); destruct l1 as [|y l1]; try done; cbn in Hf.
    - injection Hf as ->. exfalso. apply Hd1. left.
    - unfold set_idle. cbn. unfold set_nodes. f_equal. apply (rep_idle _ _ _ Hr). }
  destruct Hhead as (s2 & E2 & ->). rewrite (so_bind_Done _ _ _ _ _ E2), so_bind_st, so_bind_st. cbn [modify fst snd].
  eexists. split; [reflexivity|]. split; [|done]. exact (rep_remove s h l1 d l2 lb Hr Hseg Hso).
Qed.

(** The node [x] is linked in front of the idle list. *)
Lemma link_idle {B} h s x p n li (k : SO Pool B) : nodes s = h -> (x ∉ li) ->
  h !! x = Some (mkPNode p n x) -> seg h None li None ->
  (set_prev (Some x) None;; set_next (Some x) (first li None);;
   (if null (first li None) then mret tt else set_prev (first li None) (Some x));; k) s =
  k (set_nodes (push_store h x li) s).
Proof.
  intros <- Hx Hn Hli. rewrite (so_bind_Done _ _ _ _ _ (set_prev_ok _ _ _ _ Hn)). cbn [next pdata].
  set (s2 := set_nodes _ s).
  assert (Hx2 : nodes s2 !! x = Some (mkPNode None n x)) by apply lookup_insert_eq.
  rewrite (so_bind_Done _ _ _ _ _ (set_next_ok x _ _ s2 Hx2)). cbn [prev pdata]. set (s3 := set_nodes _ s2).
  assert (Es3 : s3 = set_nodes (<[x := mkPNode None (first li None) x]> (nodes s)) s).
  { unfold s3, s2. cbn. unfold set_nodes. cbn. by rewrite insert_insert_eq. }
  unfold push_store. destruct li as [|z li]; [by rewrite Es3|]. cbn [first] in *. rewrite null_Some. destruct Hli as [Hz _].
  apply not_elem_of_cons in Hx as [Hxz _].
  assert (Hz3 : nodes s3 !! z = Some (mkPNode None (first li None) z)) by (rewrite Es3; cbn; by rewrite lookup_insert_ne).
  rewrite (so_bind_Done _ _ _ _ _ (set_prev_ok _ _ _ _ Hz3)). by rewrite Es3.
Qed.

Lemma Pool_Idle_spec d s li lb : rep s li lb ->
  exists s', Pool_Idle d s = Done (tt, s') /\
    rep s' (spec_idle d li lb).1 (spec_idle d li lb).2 /\ same_fields s s'.
Proof.
  intros Hr. unfold Pool_Idle, spec_idle. rewrite so_bind_st. cbn [get fst snd]. rewrite (rep_busy _ _ _ Hr).
  pose proof (rep_seg_busy _ _ _ Hr) as Hsb. pose proof (rep_seg_idle _ _ _ Hr) as Hsi.
  pose proof (rep_nodup _ _ _ Hr) as (Hni & Hdis & Hnb)%NoDup_app.
  assert (E : find_node (size (nodes s)) (first lb None) d s = Done (if decide (d ∈ lb) then Some d else None, s)).
  { eapply find_node_spec; [done|]. rewrite (size_length _ _ _ Hr), length_app. lia. }
  rewrite (so_bind_Done _ _ _ _ _ E). clear E. case_decide as Hd; [|by exists s]. rewrite null_Some.
  assert (Hdi : d ∉ li) by (intros Hx; by apply (Hdis d)).
  apply list_elem_of_split in Hd as (l1 & l2 & ->). rewrite filter_middle by done. cbn [fst snd].
  destruct (seg_app (nodes s) None l1 (d :: l2) None) as [[_ [Hdn _]] _]; [done|].
  rewrite (so_bind_Done _ _ _ _ _ (deref_ok _ _ _ Hdn)). cbn [next].
  pose proof (NoDup_middle _ _ _ Hnb) as (Hd1 & _ & Hnd12).
  assert (Hhead : (if bool_decide (Some d = first (l1 ++ d :: l2) None)
      then run_st (modify (set_busy (first l2 None))) else mret tt) s = Done (tt, set_busy (first (l1 ++ l2) None) s)).
  { case_bool_decide as Hf; destruct l1 as [|y l1]; try done; cbn in Hf.
    - injection Hf as ->. exfalso. apply Hd1. left.
    - unfold mret, so_ret, set_busy. repeat f_equal. destruct s. cbn. f_equal. apply (rep_busy _ _ _ Hr). }
  rewrite (so_bind_Done _ _ _ _ _ Hhead). clear Hhead. set (s1 := set_busy _ s).
  destruct (unlink_spec s1 l1 d l2 Hnb Hsb) as (h & E & Hseg & Hhd & Hso). rewrite (so_bind_Done _ _ _ _ _ E). clear E.
  assert (Hhi : seg h None li None).
  { eapply seg_ext; [|exact Hsi]. intros y Hy. apply Hso. intros Hy'. apply (Hdis y Hy). set_solver. }
  rewrite (rep_idle _ _ _ Hr), (link_idle h (set_nodes h s1) d _ _ li _ eq_refl Hdi Hhd Hhi).
  eexists. split; [reflexivity|]. split; [|done].
  pose proof (push_store_outside h d li ltac:(by eexists) Hhi) as Hpo.
  eapply rep_rearranged; [exact Hr|done| |done|done| | |].
  - rewrite <- Permutation_middle. cbn [app]. by rewrite <- Permutation_middle.
  - by apply seg_push.
  - eapply seg_ext; [|exact Hseg]. intros y Hy. apply Hpo. apply not_elem_of_cons. split.
    + intros ->. apply NoDup_middle in Hnb as (? & ? & _). set_solver.
    + intros Hy'. apply (Hdis y Hy'). set_solver.
  - intros y. cbn. by rewrite (proj2 Hpo), (proj2 Hso).
Qed.

(** ** Emptying the pool *)

(** What an executor does to the pool when it is told to stop and waited for:
    its thread leaves the inner loop through [idle_] and ends through
    [release_] with [force].

    [executor.h:115-123] Run *)
Definition stop_executor (d : DataRef) : SO Pool unit :=
  Pool_Idle d;; _ ← Pool_Release d true; mret tt.

Lemma stop_executor_spec d s li lb : rep s li lb -> d ∈ li ++ lb ->
  exists s', stop_executor d s = Done (tt, s') /\
    rep s' (filter (fun x => x <> d) li) (filter (fun x => x <> d) lb) /\ min_ s' = min_ s.
Proof.
  intros Hr Hd. pose proof (rep_nodup _ _ _ Hr) as Hnd. apply NoDup_app in Hnd as (_ & Hdis & _).
  destruct (Pool_Idle_spec d s li lb Hr) as (s1 & E1 & Hr1 & _ & Hm1 & _).
  unfold stop_executor. rewrite (so_bind_Done _ _ _ _ _ E1). unfold spec_idle in Hr1.
  destruct (Pool_Release_spec d true s1 _ _ Hr1) as (s2 & E2 & Hr2 & Hm2 & _).
  rewrite (so_bind_Done _ _ _ _ _ E2). exists s2. split; [done|]. split; [|congruence].
  cbn [spec_release fst snd negb andb] in Hr2. case_decide as Hb; cbn [fst snd] in Hr2.
  - rewrite filter_cons_False in Hr2 by auto. exact Hr2.
  - by rewrite (filter_absent d lb).
Qed.

Lemma close_busy fuel s li lb : rep s li lb -> (length lb <= fuel)%nat ->
  exists s', close_all fuel busy_ stop_executor s = Done (tt, s') /\ rep s' li [] /\ min_ s' = min_ s.
Proof.
  revert s lb. induction fuel as [|fuel IH]; intros s lb Hr Hf; cbn [close_all]; rewrite so_bind_st; cbn [get fst snd];
    rewrite (rep_busy _ _ _ Hr).
  - destruct lb; [by exists s|cbn in Hf; lia].
  - destruct lb as [|x lb]; [by exists s|]. cbn [first].
    pose proof (rep_seg_busy _ _ _ Hr) as [Hx _]. pose proof (rep_nodup _ _ _ Hr) as (Hxi & Hxb & _)%NoDup_middle.
    rewrite (so_bind_Done _ _ _ _ _ (deref_ok _ _ _ Hx)). cbn [pdata].
    destruct (stop_executor_spec x s li (x :: lb) Hr) as (s1 & E1 & Hr1 & Hm1); [set_solver|].
    rewrite filter_absent, filter_cons_False, filter_absent in Hr1 by auto.
    rewrite (so_bind_Done _ _ _ _ _ E1). destruct (IH s1 lb Hr1) as (s2 & -> & Hr2 & Hm2); [cbn in Hf; lia|].
    exists s2. split_and!; [done|done|congruence].
Qed.

Lemma close_idle fuel s li : rep s li [] -> (length li <= fuel)%nat ->
  exists s', close_all fuel idle_ stop_executor s = Done (tt, s') /\ rep s' [] [] /\ min_ s' = min_ s.
Proof.
  revert s li. induction fuel as [|fuel IH]; intros s li Hr Hf; cbn [close_all]; rewrite so_bind_st; cbn [get fst snd];
    rewrite (rep_idle _ _ _ Hr).
  - destruct li; [by exists s|cbn in Hf; lia].
  - destruct li as [|x li]; [by exists s|]. cbn [first].
    pose proof (rep_seg_idle _ _ _ Hr) as [Hx _]. pose proof (rep_nodup _ _ _ Hr) as Hnd. rewrite app_nil_r in Hnd.
    apply NoDup_cons in Hnd as [Hxi _]. rewrite (so_bind_Done _ _ _ _ _ (deref_ok _ _ _ Hx)). cbn [pdata].
    destruct (stop_executor_spec x s (x :: li) [] Hr) as (s1 & E1 & Hr1 & Hm1); [set_solver|].
    rewrite filter_cons_False, filter_absent in Hr1 by auto.
    rewrite (so_bind_Done _ _ _ _ _ E1). destruct (IH s1 li Hr1) as (s2 & -> & Hr2 & Hm2); [cbn in Hf; lia|].
    exists s2. split_and!; [done|done|congruence].
Qed.

(** ** Properties *)

(** C35: The pool with its doubly linked lists is a pair of lists: on every
    state that represents the idle list [li] and the busy list [lb], [Get]
    hands out the newest idle executor, or a new one within the capability or
    when forced; [Release] deletes an executor from the idle list unless that
    would go below the minimum; [Idle] moves a busy executor to the front of
    the idle list; no operation follows a null or dangling pointer, every
    walk ends, and the new state represents the new lists. *)
Theorem Pool_refines_lists (s : Pool) (li lb : list DataRef)
    (Hr : rep s li lb) (Hsmall : current_ s + 1 < 2 ^ 32) :
  (forall force, let '(r, li', lb') := spec_get force s li lb in
     exists s', Pool_Get force s = Done (r, s') /\ rep s' li' lb') /\
  (forall d force, exists s', Pool_Release d force s = Done ((spec_release d force s li).1, s') /\
     rep s' (spec_release d force s li).2 lb) /\
  (forall d, exists s', Pool_Idle d s = Done (tt, s') /\
     rep s' (spec_idle d li lb).1 (spec_idle d li lb).2).
Proof.
  split_and!.
  - intros force. pose proof (Pool_Get_spec force s li lb Hr Hsmall) as Hg.
    destruct (spec_get force s li lb) as [[r li'] lb']. destruct Hg as (s' & E & Hr' & _). by exists s'.
  - intros d force. destruct (Pool_Release_spec d force s li lb Hr) as (s' & E & Hr' & _). by exists s'.
  - intros d. destruct (Pool_Idle_spec d s li lb Hr) as (s' & E & Hr' & _). by exists s'.
Qed.

(** Emptying the pool terminates: closing the head of the busy list and
    then of the idle list, where closing stops the executor, takes one round
    per executor and leaves no node and no count, with the minimum restored. *)
Theorem Pool_Clean_empties (fuel : nat) (s : Pool) (li lb : list DataRef)
    (Hr : rep s li lb) (Hfuel : (length (li ++ lb) <= fuel)%nat) :
  exists s', Pool_Clean fuel stop_executor s = Done (true, s') /\
    nodes s' = ∅ /\ current_ s' = 0 /\ idle_ s' = None /\ busy_ s' = None /\ min_ s' = min_ s.
Proof.
  rewrite length_app in Hfuel. unfold Pool_Clean. rewrite so_bind_st, so_bind_st. cbn [get fst snd modify].
  assert (Hr0 : rep (set_min 0 s) li lb) by (destruct Hr; by split).
  destruct (close_busy fuel _ li lb Hr0) as (s1 & E1 & Hr1 & _); [lia|]. rewrite (so_bind_Done _ _ _ _ _ E1).
  destruct (close_idle fuel s1 li Hr1) as (s2 & E2 & Hr2 & _); [lia|]. rewrite (so_bind_Done _ _ _ _ _ E2).
  eexists. split; [reflexivity|]. cbn. split_and!; [|apply (rep_current _ _ _ Hr2)|apply (rep_idle _ _ _ Hr2)|apply (rep_busy _ _ _ Hr2)|done].
  apply map_empty. intros x. apply eq_None_not_Some. rewrite (rep_nodes _ _ _ Hr2). set_solver.
Qed.

(** ** A concrete pool *)

Lemma Pool_new_rep capability min : rep (Pool_new capability min) [] [].
Proof.
  assert (Hno : forall x : positive, x ∈ [] -> False) by (intros x Hx; inv Hx).
  split; cbn; try done; [constructor|..].
  - intros x. rewrite lookup_empty. split; [by intros []|by intros ?%Hno].
  - by intros x ?%Hno.
Qed.

(** Two executors, one idle and one busy. *)
Definition pool2 : Pool :=
  mkPool 4 1 2 (Some 1%positive) (Some 2%positive)
    (<[1%positive := mkPNode None None 1]> {[2%positive := mkPNode None None 2%positive]}) 3.

Lemma pool2_rep : rep pool2 [1%positive] [2%positive].
Proof.
  split; try done; cbn.
  - apply NoDup_cons. split; [set_solver|apply NoDup_singleton].
  - intros x. rewrite lookup_insert_is_Some, lookup_singleton_is_Some. set_solver.
  - intros x Hx. assert (x = 1%positive \/ x = 2%positive) as [->| ->] by set_solver; lia.
Qed.

Example Pool_refines_lists_witness :
  exists s', Pool_Get false pool2 = Done (Some 1%positive, s') /\ rep s' [] [1%positive; 2%positive].
Proof.
  pose proof (Pool_refines_lists pool2 [1%positive] [2%positive] pool2_rep ltac:(done)) as [Hg _].
  exact (Hg false).
Defined.

Example Pool_Clean_empties_witness :
  exists s', Pool_Clean 2 stop_executor pool2 = Done (true, s') /\
    nodes s' = ∅ /\ current_ s' = 0 /\ idle_ s' = None /\ busy_ s' = None /\ min_ s' = 1.
Proof. exact (Pool_Clean_empties 2 pool2 [1%positive] [2%positive] pool2_rep ltac:(cbn; lia)). Defined.
