(* ===== verification/TaskQueue.v ===== *)
(** * The queue of timed tasks

    Models [priority_queue.h] and the tasks it holds ([executor.h],
    [executor_pool.h]).  The multimap is the list of its entries in order, an
    iterator is the identity of an entry, and using an iterator whose entry is
    gone is the outcome [Undef].  Every operation holds the mutex and is one
    step; an operation that waits on a condition variable returns that it
    waits, and is run again when it is notified or its time has come. *)

From stdpp Require Import sorting.
From S2P Require Import Prelude.
#[local] Open Scope Z_scope.

Section PriorityQueue.
Context {Tsk : Type} (Valid : Tsk -> bool) (INVALID_TSK : Tsk).

(** Time is the number of ticks of the steady clock. *)
Abbreviation Time := Z.

(** What an updater does with a task: whether it is to be queued, when, and
    the task it leaves. *)
Abbreviation TskUpdater := (Tsk -> bool * Time * Tsk).

(** The member, which may read the clock. *)
Context (updater_ : Time -> TskUpdater).

(** [priority_queue.h:30-34] PQMatrix *)
Record PQMatrix := mkPQMatrix { task_ : Tsk; id_ : Z }.

(** An entry of the multimap, with its identity. *)
Record Entry := mkEntry { e_ref : positive; e_time : Time; e_matrix : PQMatrix }.

(** [priority_queue.h:157-164] PriorityQueue *)
Record PriorityQueue := mkPQ {
  tasks_ : list Entry;
  running_ : gmap Z PQMatrix;
  indexes_ : gmap Z positive;
  next_entry : positive            (** the identity of the next entry *)
}.

(** [priority_queue.h:38-44] PriorityQueue *)
Definition PQ_new : PriorityQueue := mkPQ [] ∅ ∅ 1.

Definition set_pq_tasks t q := mkPQ t (running_ q) (indexes_ q) (next_entry q).
Definition set_running r q := mkPQ (tasks_ q) r (indexes_ q) (next_entry q).
Definition set_indexes i q := mkPQ (tasks_ q) (running_ q) i (next_entry q).

(** ** The containers *)

(** A new entry of a multimap comes after those of the same key. *)
Fixpoint insert_entry (e : Entry) (l : list Entry) : list Entry :=
  match l with
  | [] => [e]
  | x :: l' => if e_time x <=? e_time e then x :: insert_entry e l' else e :: l
  end.

Definition mm_emplace (tme : Time) (m : PQMatrix) : ST PriorityQueue positive := fun q =>
  let r := next_entry q in
  (r, mkPQ (insert_entry (mkEntry r tme m) (tasks_ q)) (running_ q) (indexes_ q) (Pos.succ r)).

(** [std::map::emplace]: an existing key keeps its value. *)
Definition map_emplace {A} (k : Z) (v : A) (m : gmap Z A) : gmap Z A :=
  match m !! k with Some _ => m | None => <[k := v]> m end.

(** The entry an iterator points to. *)
Definition find_entry (r : positive) (l : list Entry) : option Entry :=
  snd <$> list_find (fun e => e_ref e = r) l.

Definition iter_deref (r : positive) : SO PriorityQueue Entry := fun q =>
  match find_entry r (tasks_ q) with Some e => Done (e, q) | None => Undef end.

(** [tasks_.erase(iterator)] *)
Definition iter_erase (r : positive) : SO PriorityQueue unit := fun q =>
  match find_entry r (tasks_ q) with
  | Some _ => Done (tt, set_pq_tasks (filter (fun e => e_ref e <> r) (tasks_ q)) q)
  | None => Undef
  end.

(** A write to the task behind an iterator. *)
Definition iter_set_task (r : positive) (t : Tsk) : SO PriorityQueue unit := fun q =>
  match find_entry r (tasks_ q) with
  | Some _ => Done (tt, set_pq_tasks (map (fun e =>
      if decide (e_ref e = r) then mkEntry r (e_time e) (mkPQMatrix t (id_ (e_matrix e))) else e) (tasks_ q)) q)
  | None => Undef
  end.

(** ** Operations *)

Inductive PopResult := Popped (t : Tsk) | Waiting (until : Time).

(** One round of the loop of [Pop] at the time [now].

    [priority_queue.h:45-63] Pop *)
Definition Pop (now : Time) : ST PriorityQueue PopResult := fun q =>
  match tasks_ q with
  | [] => (Popped INVALID_TSK, q)
  | temp :: rest =>
      if now <? e_time temp then (Waiting (e_time temp), q) else
      let id := id_ (e_matrix temp) in
      (Popped (task_ (e_matrix temp)),
       mkPQ rest (map_emplace id (e_matrix temp) (running_ q)) (delete id (indexes_ q)) (next_entry q))
  end.

(** [priority_queue.h:65-75] Push *)
Definition PQ_Push (tsk : Tsk) (id : Z) (tme : Time) : ST PriorityQueue bool :=
  if negb (Valid tsk) then mret false else
  temp ← mm_emplace tme (mkPQMatrix tsk id);
  modify (fun q => set_indexes (map_emplace id temp (indexes_ q)) q);;
  mret true.

(** [priority_queue.h:77-81] Size *)
Definition PQ_Size : ST PriorityQueue nat := gets (fun q => length (tasks_ q)).

(** [priority_queue.h:83-90] Find *)
Definition PQ_Find (id : Z) : SO PriorityQueue Tsk :=
  q ← run_st get;
  match indexes_ q !! id with
  | Some r => e ← iter_deref r; mret (task_ (e_matrix e))
  | None => mret INVALID_TSK
  end.

(** [priority_queue.h:92-115] Update *)
Definition PQ_Update (id : Z) (updater : TskUpdater) : SO PriorityQueue bool :=
  q ← run_st get;
  match indexes_ q !! id with
  | Some index =>
      e ← iter_deref index;
      let '(updated, time, tsk) := updater (task_ (e_matrix e)) in
      iter_set_task index tsk;;
      if negb updated then mret false else
      e ← iter_deref index;
      let matrix := e_matrix e in
      iter_erase index;;
      index' ← run_st (mm_emplace time matrix);
      run_st (modify (fun q => set_indexes (<[id := index']> (indexes_ q)) q));;
      mret true
  | None =>
      match running_ q !! id with
      | Some running =>
          let '(updated, time, tsk) := updater (task_ running) in
          run_st (modify (fun q => set_running (<[id := mkPQMatrix tsk (id_ running)]> (running_ q)) q));;
          mret updated
      | None => mret false
      end
  end.

(** [None]: the caller waits until the task has finished.

    [priority_queue.h:117-131] Remove *)
Definition PQ_Remove (id : Z) (wait : bool) : SO PriorityQueue (option bool) :=
  q ← run_st get;
  if wait && bool_decide (is_Some (running_ q !! id)) then mret None else
  match indexes_ q !! id with
  | None => mret (Some false)
  | Some index =>
      iter_erase index;;
      run_st (modify (fun q => set_indexes (delete id (indexes_ q)) q));;
      mret (Some true)
  end.

(** [priority_queue.h:133-139] Clean *)
Definition PQ_Clean : ST PriorityQueue unit := modify (fun q => set_pq_tasks [] (set_indexes ∅ q)).

(** [priority_queue.h:141-154] Finish *)
Definition Finish (now : Time) (id : Z) : ST PriorityQueue unit :=
  q ← get;
  match running_ q !! id with
  | None => mret tt
  | Some it =>
      let '(repeat, time, tsk) := updater_ now (task_ it) in
      (if (repeat : bool) then
         r ← mm_emplace time (mkPQMatrix tsk (id_ it));
         modify (fun q => set_indexes (map_emplace id r (indexes_ q)) q)
       else mret tt);;
      modify (fun q => set_running (delete id (running_ q)) q)
  end.
End PriorityQueue.

(** ** Tasks *)

Section tasks.
Context {Closure : Type} (no_op : Closure).

Definition INVALID_INTERVAL : Z := 0.
Definition INVALID_TASK_ID : Z := 0.
Definition INVALID_TIME : Z := 0.
Definition UNLIMITED_TIMES : Z := 2 ^ 64 - 1.

(** [executor.h:45-56] InnerTask *)
Record InnerTask := mkInnerTask { exec : Closure; interval : Z; times : Z; taskId : Z }.

(** [executor.h:45-50] InnerTask *)
Definition InnerTask_default : InnerTask := mkInnerTask no_op INVALID_INTERVAL UNLIMITED_TIMES INVALID_TASK_ID.

(** [executor.h:52-55] Valid *)
Definition Task_Valid (t : InnerTask) : bool := negb (taskId t =? INVALID_TASK_ID).

(** [executor_pool.h:206-213] NextTimer *)
Definition NextTimer (now : Z) (task : InnerTask) : bool * Z * InnerTask :=
  if interval task =? INVALID_INTERVAL then (false, INVALID_TIME, task) else
  let task := mkInnerTask (exec task) (interval task) (wrap_u 64 (times task - 1)) (taskId task) in
  if 0 <? times task then (true, now + interval task, task) else (false, INVALID_TIME, task).

(** The identifier, and the counter.

    [executor_pool.h:197-204] GenTaskId *)
Definition GenTaskId (taskId_ : Z) : Z * Z :=
  let taskId_ := wrap_u 64 (taskId_ + 1) in
  let taskId := taskId_ in
  if taskId =? INVALID_TASK_ID then let taskId_ := wrap_u 64 (taskId_ + 1) in (taskId_, taskId_)
  else (taskId, taskId_).

(** The updater of [Reset].

    [executor_pool.h:132-138] Reset *)
Definition reset_updater (now newInterval : Z) (task : InnerTask) : bool * Z * InnerTask :=
  let task := if interval task =? INVALID_INTERVAL then task
              else mkInnerTask (exec task) newInterval (times task) (taskId task) in
  (true, now + newInterval, task).
End tasks.

(** ** The order of the entries *)

Section queue_invariant.
Context {Tsk : Type} (Valid : Tsk -> bool) (INVALID_TSK : Tsk).
Context (updater_ : Z -> Tsk -> bool * Z * Tsk).

(** [a] comes before [b]: it is due earlier, or at the same time and was
    queued earlier. *)
Definition before (a b : @Entry Tsk) : Prop :=
  e_time a < e_time b \/ e_time a = e_time b /\ (e_ref a < e_ref b)%positive.

(** The entries are in order and told apart by their identities, running
    tasks are filed under their identifier, and every index points to an entry
    of its task. *)
Record pq_inv (q : @PriorityQueue Tsk) : Prop := {
  inv_sorted : StronglySorted before (tasks_ q);
  inv_refs e : e ∈ tasks_ q -> (e_ref e < next_entry q)%positive;
  inv_nodup : NoDup (map e_ref (tasks_ q));
  inv_run id m : running_ q !! id = Some m -> id_ m = id;
  inv_index id r : indexes_ q !! id = Some r ->
    exists e, e ∈ tasks_ q /\ e_ref e = r /\ id_ (e_matrix e) = id
}.

Lemma insert_entry_perm (e : @Entry Tsk) l : insert_entry e l ≡ₚ e :: l.
Proof.
  induction l as [|x l IH]; cbn [insert_entry]; [done|]. case_match; [|done]. rewrite IH. apply perm_swap.
Qed.

Lemma insert_entry_sorted e l : (forall x, x ∈ l -> (e_ref x < e_ref e)%positive) ->
  StronglySorted before l -> StronglySorted before (insert_entry e l).
Proof.
  induction l as [|x l IH]; intros Hr Hs; cbn [insert_entry]; [by repeat constructor|].
  apply StronglySorted_cons in Hs as [Hx Hs]. destruct (e_time x <=? e_time e) eqn:Et; bools.
  - apply StronglySorted_cons. split; [|apply IH; [intros; apply Hr; by right|done]].
    rewrite insert_entry_perm. constructor; [|done]. unfold before.
    specialize (Hr x ltac:(left)). lia.
  - apply StronglySorted_cons. split; [|by apply StronglySorted_cons].
    constructor; [left; lia|]. eapply Forall_impl; [exact Hx|]. intros y Hy. unfold before in *. lia.
Qed.

Lemma entries_filter_sorted (P : @Entry Tsk -> Prop) `{forall e, Decision (P e)} l :
  StronglySorted before l -> StronglySorted before (filter P l).
Proof.
  induction l as [|x l IH]; [done|]. rewrite StronglySorted_cons. intros [Hx Hs]. rewrite filter_cons.
  case_decide; [|auto]. apply StronglySorted_cons. split; [|auto].
  rewrite Forall_forall in *. intros y [_ Hy]%list_elem_of_filter. auto.
Qed.

Lemma entries_filter_nodup (P : @Entry Tsk -> Prop) `{forall e, Decision (P e)} l :
  NoDup (map e_ref l) -> NoDup (map e_ref (filter P l)).
Proof.
  induction l as [|x l IH]; [done|]. cbn [map]. rewrite NoDup_cons. intros [Hx Hs]. rewrite filter_cons.
  case_decide; [|auto]. cbn [map]. apply NoDup_cons. split; [|auto].
  intros (y & Ey & [_ Hy]%list_elem_of_filter)%list_elem_of_fmap. apply Hx. rewrite Ey. by apply list_elem_of_fmap_2.
Qed.

(** An identity names one entry. *)
Lemma ref_unique (l : list (@Entry Tsk)) a b : NoDup (map e_ref l) -> a ∈ l -> b ∈ l -> e_ref a = e_ref b -> a = b.
Proof.
  induction l as [|x l IH]; [intros _ Ha; inv Ha|]. cbn [map]. rewrite NoDup_cons. intros [Hx Hs] Ha Hb E.
  apply elem_of_cons in Ha as [->|Ha], Hb as [->|Hb]; [done| | |auto].
  - destruct Hx. rewrite E. by apply list_elem_of_fmap_2.
  - destruct Hx. rewrite <- E. by apply list_elem_of_fmap_2.
Qed.

Lemma find_entry_in q e : pq_inv q -> e ∈ tasks_ q -> find_entry (e_ref e) (tasks_ q) = Some e.
Proof.
  intros Hq He. unfold find_entry. destruct (list_find_elem_of (fun x => e_ref x = e_ref e) (tasks_ q) e He eq_refl) as [[i x] E].
  rewrite E. cbn. f_equal. apply list_find_Some in E as (Hi & Hr & _).
  eapply ref_unique; [apply (inv_nodup _ Hq)|by eapply list_elem_of_lookup_2|done|done].
Qed.

Lemma inv_new : pq_inv PQ_new.
Proof. split; cbn; [constructor|by intros e He; inv He|constructor|..]; intros id r; by rewrite lookup_empty. Qed.

Lemma inv_emplace t m q : pq_inv q ->
  pq_inv (snd (mm_emplace t m q)) /\ mkEntry (next_entry q) t m ∈ tasks_ (snd (mm_emplace t m q)).
Proof.
  intros Hq. cbn. set (e := mkEntry _ _ _). pose proof (insert_entry_perm e (tasks_ q)) as Hp.
  split; [|rewrite Hp; left]. split; cbn.
  - apply insert_entry_sorted; [apply (inv_refs _ Hq)|apply (inv_sorted _ Hq)].
  - intros x. rewrite Hp, elem_of_cons. intros [->|Hx%(inv_refs _ Hq)]; [cbn; lia|lia].
  - rewrite Hp. cbn [map]. apply NoDup_cons. split; [|apply (inv_nodup _ Hq)].
    intros (x & Ex & Hx%(inv_refs _ Hq))%list_elem_of_fmap. cbn in Ex. rewrite <- Ex in Hx. lia.
  - apply (inv_run _ Hq).
  - intros id r (x & Hx & <- & <-)%(inv_index _ Hq). exists x. split; [|done]. rewrite Hp. by right.
Qed.

(** A new index to an entry of its task. *)
Lemma inv_index_insert id e q : pq_inv q -> e ∈ tasks_ q -> id_ (e_matrix e) = id ->
  pq_inv (set_indexes (<[id := e_ref e]> (indexes_ q)) q).
Proof.
  intros [] He Hid. split; cbn; [done..|]. intros id' r. rewrite lookup_insert_Some.
  intros [[<- <-]|[_ Hr]]; [by exists e|auto].
Qed.

Lemma inv_index_emplace id e q : pq_inv q -> e ∈ tasks_ q -> id_ (e_matrix e) = id ->
  pq_inv (set_indexes (map_emplace id (e_ref e) (indexes_ q)) q).
Proof. intros Hq He Hid. unfold map_emplace. case_match; [by destruct Hq|by apply inv_index_insert]. Qed.

(** An entry and its index go. *)
Lemma inv_drop id e q : pq_inv q -> e ∈ tasks_ q -> id_ (e_matrix e) = id ->
  pq_inv (set_indexes (delete id (indexes_ q)) (set_pq_tasks (filter (fun x => e_ref x <> e_ref e) (tasks_ q)) q)).
Proof.
  intros Hq He Hid. split; cbn.
  - apply entries_filter_sorted, (inv_sorted _ Hq).
  - intros x [_ Hx]%list_elem_of_filter. by apply (inv_refs _ Hq).
  - apply entries_filter_nodup, (inv_nodup _ Hq).
  - apply (inv_run _ Hq).
  - intros id' r [Hne (x & Hx & <- & Hxi)%(inv_index _ Hq)]%lookup_delete_Some.
    exists x. split; [|done]. apply list_elem_of_filter. split; [|done]. intros E.
    assert (x = e) by (eapply ref_unique; [apply (inv_nodup _ Hq)|done..]). congruence.
Qed.

Lemma inv_running r q : pq_inv q -> (forall id m, r !! id = Some m -> id_ m = id) -> pq_inv (set_running r q).
Proof. intros [] Hr. by split. Qed.

Lemma inv_set_task (t : Tsk) e q : pq_inv q -> e ∈ tasks_ q ->
  let f x := if decide (e_ref x = e_ref e) then mkEntry (e_ref e) (e_time x) (mkPQMatrix t (id_ (e_matrix x))) else x in
  pq_inv (set_pq_tasks (map f (tasks_ q)) q) /\
  mkEntry (e_ref e) (e_time e) (mkPQMatrix t (id_ (e_matrix e))) ∈ map f (tasks_ q).
Proof.
  intros Hq He f.
  assert (Hf : forall x, e_ref (f x) = e_ref x /\ e_time (f x) = e_time x /\ id_ (e_matrix (f x)) = id_ (e_matrix x)).
  { intros x. unfold f. by case_decide. }
  split; [|apply list_elem_of_fmap; exists e; unfold f; by rewrite decide_True]. split; cbn.
  - pose proof (inv_sorted _ Hq) as Hs. revert Hs. generalize (tasks_ q) as l. clear -Hf.
    induction l as [|x l IH]; intros Hs; cbn [map]; [constructor|]. apply StronglySorted_cons in Hs as [Hx Hs].
    apply StronglySorted_cons. split; [|auto]. rewrite Forall_map. eapply Forall_impl; [exact Hx|].
    intros y. unfold before. destruct (Hf x) as (-> & -> & _), (Hf y) as (-> & -> & _). done.
  - intros x (y & -> & Hy)%list_elem_of_fmap. rewrite (proj1 (Hf y)). by apply (inv_refs _ Hq).
  - rewrite map_map. erewrite map_ext; [apply (inv_nodup _ Hq)|]. intros x. apply Hf.
  - apply (inv_run _ Hq).
  - intros id r (x & Hx & <- & <-)%(inv_index _ Hq). exists (f x). destruct (Hf x) as (-> & _ & ->).
    split; [|done]. by apply list_elem_of_fmap_2.
Qed.

(** An operation returns, and keeps the invariant. *)
Definition pq_ok {A} (m : SO (@PriorityQueue Tsk) A) : Prop := forall q, pq_inv q ->
  exists a q', m q = Done (a, q') /\ pq_inv q'.

Lemma pq_ok_Pop now : pq_ok (run_st (Pop INVALID_TSK now)).
Proof.
  intros q Hq. unfold run_st, Pop. destruct (tasks_ q) as [|e l] eqn:El; [by eexists _, _|].
  case_match; [by eexists _, _|]. eexists _, _. split; [reflexivity|].
  pose proof (inv_sorted _ Hq) as Hs. pose proof (inv_nodup _ Hq) as Hn. rewrite El in Hs, Hn.
  apply StronglySorted_cons in Hs as [_ Hs]. cbn [map] in Hn. apply NoDup_cons in Hn as [Hen Hn].
  split; cbn; [done| |done|..].
  - intros x Hx. apply (inv_refs _ Hq). rewrite El. by right.
  - intros id m. unfold map_emplace. case_match; [apply (inv_run _ Hq)|].
    rewrite lookup_insert_Some. intros [[<- <-]|[_ Hm]]; [done|by apply (inv_run _ Hq)].
  - intros id r [Hne (x & Hx & Er & Hxi)%(inv_index _ Hq)]%lookup_delete_Some. exists x. split; [|done].
    rewrite El in Hx. apply elem_of_cons in Hx as [->|Hx]; [congruence|done].
Qed.

Lemma pq_ok_Push tsk id tme : pq_ok (run_st (PQ_Push Valid tsk id tme)).
Proof.
  intros q Hq. unfold run_st, PQ_Push. case_match; [by eexists _, _|].
  destruct (inv_emplace tme (mkPQMatrix tsk id) q Hq) as [Hq1 He]. eexists _, _. split; [reflexivity|].
  by apply (inv_index_emplace id _ _ Hq1 He).
Qed.

Lemma pq_ok_Find id : pq_ok (PQ_Find INVALID_TSK id).
Proof.
  intros q Hq. unfold PQ_Find. rewrite so_bind_st. cbn [get fst snd].
  destruct (indexes_ q !! id) as [r|] eqn:Ei; [|by eexists _, _].
  destruct (inv_index _ Hq _ _ Ei) as (e & He & <- & _). unfold mbind, so_bind, iter_deref.
  rewrite (find_entry_in q e Hq He). by eexists _, _.
Qed.

Lemma pq_ok_Remove id wait : pq_ok (PQ_Remove id wait).
Proof.
  intros q Hq. unfold PQ_Remove. rewrite so_bind_st. cbn [get fst snd]. case_match; [by eexists _, _|].
  destruct (indexes_ q !! id) as [r|] eqn:Ei; [|by eexists _, _].
  destruct (inv_index _ Hq _ _ Ei) as (e & He & <- & Hid). unfold mbind at 1, so_bind at 1, iter_erase.
  rewrite (find_entry_in q e Hq He), so_bind_st. eexists _, _. split; [reflexivity|]. by apply (inv_drop id e q).
Qed.

Lemma pq_ok_Update id u : pq_ok (PQ_Update id u).
Proof.
  intros q Hq. unfold PQ_Update. rewrite so_bind_st. cbn [get fst snd].
  destruct (indexes_ q !! id) as [r|] eqn:Ei.
  - destruct (inv_index _ Hq _ _ Ei) as (e & He & <- & Hid). unfold mbind at 1, so_bind at 1, iter_deref at 1.
    rewrite (find_entry_in q e Hq He). destruct (u (task_ (e_matrix e))) as [[updated time] tsk].
    destruct (inv_set_task tsk e q Hq He) as [Hq1 He1]. cbv zeta in Hq1, He1.
    unfold mbind at 1, so_bind at 1, iter_set_task. rewrite (find_entry_in q e Hq He).
    set (q1 := set_pq_tasks _ q) in *. destruct updated; cbn [negb]; [|by eexists _, _].
    unfold mbind at 1, so_bind at 1, iter_deref.
    pose proof (find_entry_in q1 _ Hq1 He1) as Hf1. cbn [e_ref] in Hf1. rewrite Hf1.
    unfold mbind at 1, so_bind at 1, iter_erase. rewrite Hf1, so_bind_st, so_bind_st. cbn [fst snd e_matrix].
    eexists _, _. split; [reflexivity|]. cbn [modify snd].
    pose proof (inv_drop id _ q1 Hq1 He1 Hid) as Hq2.
    destruct (inv_emplace time (mkPQMatrix tsk (id_ (e_matrix e))) _ Hq2) as [Hq3 He3].
    pose proof (inv_index_insert id _ _ Hq3 He3 Hid) as Hq4. revert Hq4.
    unfold set_indexes, mm_emplace. cbn. by rewrite insert_delete_eq.
  - destruct (running_ q !! id) as [run|] eqn:Er; [|by eexists _, _]. destruct (u _) as [[updated time] tsk]. rewrite so_bind_st.
    eexists _, _. split; [reflexivity|]. apply inv_running; [done|]. intros id' m'.
    rewrite lookup_insert_Some. intros [[<- <-]|[_ Hm]]; [by apply (inv_run _ Hq id run)|by apply (inv_run _ Hq)].
Qed.

Lemma pq_ok_Clean : pq_ok (run_st PQ_Clean).
Proof.
  intros q Hq. eexists _, _. split; [reflexivity|]. split; cbn; [constructor|by intros e He; inv He|constructor|apply (inv_run _ Hq)|].
  intros id r. by rewrite lookup_empty.
Qed.

Lemma pq_ok_Finish now id : pq_ok (run_st (Finish updater_ now id)).
Proof.
  intros q Hq. unfold run_st, Finish, mbind, st_bind, get, mret, st_ret.
  destruct (running_ q !! id) as [it|] eqn:Ei; [|by eexists _, _].
  destruct (updater_ now (task_ it)) as [[repeat time] tsk].
  assert (Hd : forall id' m, delete id (running_ q) !! id' = Some m -> id_ m = id').
  { intros id' m [_ Hm]%lookup_delete_Some. by apply (inv_run _ Hq). }
  destruct repeat; (eexists _, _; split; [reflexivity|]); (apply inv_running; [|done]); [|done].
  destruct (inv_emplace time (mkPQMatrix tsk (id_ it)) q Hq) as [Hq1 He].
  apply (inv_index_emplace id _ _ Hq1 He). by apply (inv_run _ Hq id it).
Qed.

(** ** Runs of the queue *)

Inductive pq_op :=
  | QPush (tsk : Tsk) (id : Z) (tme : Z)
  | QPop (now : Z)
  | QFind (id : Z)
  | QUpdate (id : Z) (u : Tsk -> bool * Z * Tsk)
  | QRemove (id : Z) (wait : bool)
  | QClean
  | QFinish (now : Z) (id : Z).

Definition pq_exec (o : pq_op) : SO (@PriorityQueue Tsk) unit :=
  match o with
  | QPush tsk id tme => _ ← run_st (PQ_Push Valid tsk id tme); mret tt
  | QPop now => _ ← run_st (Pop INVALID_TSK now); mret tt
  | QFind id => _ ← PQ_Find INVALID_TSK id; mret tt
  | QUpdate id u => _ ← PQ_Update id u; mret tt
  | QRemove id wait => _ ← PQ_Remove id wait; mret tt
  | QClean => run_st PQ_Clean
  | QFinish now id => run_st (Finish updater_ now id)
  end.

Fixpoint pq_run (os : list pq_op) : SO (@PriorityQueue Tsk) unit :=
  match os with [] => mret tt | o :: os' => pq_exec o;; pq_run os' end.

Lemma pq_ok_bind {A B} (m : SO (@PriorityQueue Tsk) A) (k : A -> SO (@PriorityQueue Tsk) B) :
  pq_ok m -> (forall a, pq_ok (k a)) -> pq_ok (m ≫= k).
Proof.
  intros Hm Hk q Hq. destruct (Hm q Hq) as (a & q1 & E & Hq1). rewrite (so_bind_Done _ _ _ _ _ E). by apply Hk.
Qed.

Lemma pq_ok_ret {A} (a : A) : pq_ok (mret a).
Proof. intros q Hq. by eexists _, _. Qed.

Lemma pq_run_ok os : pq_ok (pq_run os).
Proof.
  induction os as [|o os IH]; cbn [pq_run]; [apply pq_ok_ret|]. apply pq_ok_bind; [|by intros _].
  destruct o; cbn [pq_exec]; try (apply pq_ok_bind; [|intros; apply pq_ok_ret]);
    auto using pq_ok_Push, pq_ok_Pop, pq_ok_Find, pq_ok_Update, pq_ok_Remove, pq_ok_Clean, pq_ok_Finish.
Qed.
End queue_invariant.

(** ** What the tasks keep *)

Section queue_tasks.
Context {Tsk : Type} (Valid : Tsk -> bool) (INVALID_TSK : Tsk) (P : Tsk -> Prop).
#[local] Abbreviation Q := (@PriorityQueue Tsk).

(** Every task that is queued or running satisfies [P]. *)
Definition pq_all (q : Q) : Prop :=
  (forall e, e ∈ tasks_ q -> P (task_ (e_matrix e))) /\ (forall id m, running_ q !! id = Some m -> P (task_ m)).

Lemma find_entry_elem r (l : list (@Entry Tsk)) e : find_entry r l = Some e -> e ∈ l /\ e_ref e = r.
Proof.
  unfold find_entry. destruct (list_find _ l) as [[i x]|] eqn:E; [|done]. cbn. intros [= ->].
  apply list_find_Some in E as (Hi & Hr & _). split; [by eapply list_elem_of_lookup_2|done].
Qed.

Lemma PQ_Push_valid t id tm (q : @PriorityQueue Tsk) : Valid t = true ->
  PQ_Push Valid t id tm q = (true, mkPQ (insert_entry (mkEntry (next_entry q) tm (mkPQMatrix t id)) (tasks_ q))
    (running_ q) (map_emplace id (next_entry q) (indexes_ q)) (Pos.succ (next_entry q))).
Proof. intros Hv. unfold PQ_Push. by rewrite Hv. Qed.

Lemma pq_all_Push tsk id tme (q : Q) : P tsk -> pq_all q -> pq_all (snd (PQ_Push Valid tsk id tme q)).
Proof.
  intros Hp [Ht Hr]. destruct (Valid tsk) eqn:Ev; [|unfold PQ_Push; by rewrite Ev].
  rewrite PQ_Push_valid by done. split; [|done]. cbn [snd tasks_]. intros e. rewrite insert_entry_perm. intros [->|He]%elem_of_cons; [done|auto].
Qed.

Lemma pq_all_Pop now (q : Q) : pq_all q ->
  let '(r, q') := Pop INVALID_TSK now q in
  pq_all q' /\ match r with Popped t => tasks_ q <> [] -> P t | Waiting _ => True end.
Proof.
  intros [Ht Hr]. unfold Pop. destruct (tasks_ q) as [|e l] eqn:El; [split; [by split; rewrite ?El|done]|].
  destruct (now <? e_time e); [split; [by split; rewrite ?El|done]|]. split; [|intros _; apply Ht; left]. split; cbn.
  - intros x Hx. apply Ht. by right.
  - intros id m. unfold map_emplace. case_match; [apply Hr|]. rewrite lookup_insert_Some.
    intros [[_ <-]|[_ Hm]]; [apply Ht; left|by eapply Hr].
Qed.

Lemma Find_same id (q : Q) t q' : PQ_Find INVALID_TSK id q = Done (t, q') -> q' = q.
Proof.
  unfold PQ_Find. rewrite so_bind_st. cbn [get fst snd]. destruct (indexes_ q !! id); [|by intros [= _ <-]].
  unfold mbind, so_bind, iter_deref. destruct (find_entry _ _); [|done]. by intros [= _ <-].
Qed.

Lemma Remove_same id wait (q : Q) r q' : PQ_Remove id wait q = Done (r, q') ->
  (forall e, e ∈ tasks_ q' -> e ∈ tasks_ q) /\ running_ q' = running_ q.
Proof.
  unfold PQ_Remove. rewrite so_bind_st. cbn [get fst snd]. case_match; [by intros [= _ <-]|].
  destruct (indexes_ q !! id); [|by intros [= _ <-]].
  unfold mbind, so_bind, iter_erase. destruct (find_entry _ _); [|done]. intros [= _ <-]. split; [|done].
  cbn. intros x [_ Hx]%list_elem_of_filter. done.
Qed.

Lemma pq_all_Remove id wait (q : Q) r q' : PQ_Remove id wait q = Done (r, q') -> pq_all q -> pq_all q'.
Proof.
  intros [Ht Hr]%Remove_same [A B]. split; [auto|]. by rewrite Hr.
Qed.

Lemma pq_all_Update id u (q : Q) r q' : (forall t, P t -> P (u t).2) -> PQ_Update id u q = Done (r, q') ->
  pq_all q -> pq_all q' /\ (tasks_ q = [] -> tasks_ q' = []).
Proof.
  intros Hu. unfold PQ_Update. rewrite so_bind_st. cbn [get fst snd].
  destruct (indexes_ q !! id) as [i|].
  - unfold mbind at 1, so_bind at 1, iter_deref at 1. destruct (find_entry i (tasks_ q)) as [e|] eqn:Ee; [|done].
    apply find_entry_elem in Ee as [He _]. pose proof (Hu (task_ (e_matrix e))) as Hue.
    destruct (u (task_ (e_matrix e))) as [[updated time] tsk]. cbn [snd] in Hue.
    unfold mbind at 1, so_bind at 1, iter_set_task. destruct (find_entry i (tasks_ q)); [|done].
    set (q1 := set_pq_tasks _ q). intros Hrun [Ht Hr].
    assert (Hf : forall x, x ∈ tasks_ q1 -> P (task_ (e_matrix x))).
    { intros x (y & -> & Hy)%list_elem_of_fmap. case_decide; cbn; auto. }
    assert (Hne : tasks_ q = [] -> False) by (intros E; rewrite E in He; inv He).
    destruct updated; cbn [negb] in Hrun; [|by injection Hrun as _ <-; split; [split|]].
    revert Hrun. unfold mbind at 1, so_bind at 1, iter_deref. destruct (find_entry i (tasks_ q1)) as [e1|] eqn:Ee1; [|done].
    apply find_entry_elem in Ee1 as [He1 _]. unfold mbind at 1, so_bind at 1, iter_erase.
    destruct (find_entry i (tasks_ q1)); [|done]. rewrite so_bind_st, so_bind_st. intros [= _ <-].
    split; [|done]. split; [|done]. cbn. intros x. rewrite insert_entry_perm.
    intros [->|[_ Hx]%list_elem_of_filter]%elem_of_cons; cbn; auto.
  - destruct (running_ q !! id) as [run|] eqn:Er; [|by intros [= _ <-]].
    pose proof (Hu (task_ run)) as Hur. destruct (u (task_ run)) as [[updated time] tsk]. rewrite so_bind_st.
    intros [= _ <-] [Ht Hr]. split; [|done]. split; [done|]. cbn. intros id' m.
    rewrite lookup_insert_Some. intros [[_ <-]|[_ Hm]]; [cbn; apply Hur; by eapply Hr|by eapply Hr].
Qed.

Lemma pq_all_Finish updater now id (q : Q) : (forall t, P t -> P (updater now t).2) ->
  pq_all q -> pq_all (snd (Finish updater now id q)).
Proof.
  intros Hu [Ht Hr]. unfold Finish, mbind, st_bind, get, mret, st_ret.
  destruct (running_ q !! id) as [it|] eqn:Ei; [|done]. pose proof (Hu (task_ it) (Hr _ _ Ei)) as Hui.
  destruct (updater now (task_ it)) as [[repeat time] tsk].
  assert (Hd : forall id' m, delete id (running_ q) !! id' = Some m -> P (task_ m)).
  { intros id' m [_ Hm]%lookup_delete_Some. by eapply Hr. }
  destruct repeat; (split; [|exact Hd]); [|exact Ht]. cbn. intros x. rewrite insert_entry_perm.
  intros [->|Hx]%elem_of_cons; [done|auto].
Qed.
End queue_tasks.

(** ** Properties *)

Section queue_properties.
Context {Tsk : Type} (Valid : Tsk -> bool) (INVALID_TSK : Tsk).
Context (updater_ : Z -> Tsk -> bool * Z * Tsk).

(** The queue is safe and fair: after any sequence of operations from the
    empty queue, none of which uses an iterator whose entry is gone, [Pop]
    takes the task that is due first, among tasks due at the same time the one
    that was queued first; it waits exactly when no task is due, until the
    time of the first one, and then leaves the queue as it is. *)
Theorem Pop_earliest_first (os : list pq_op) (now : Z) :
  exists q, pq_run Valid INVALID_TSK updater_ os PQ_new = Done (tt, q) /\
  match Pop INVALID_TSK now q with
  | (Popped t, q') =>
      tasks_ q = [] /\ t = INVALID_TSK /\ q' = q \/
      exists e rest, tasks_ q = e :: rest /\ t = task_ (e_matrix e) /\ e_time e <= now /\ tasks_ q' = rest /\
        forall e', e' ∈ rest -> before e e'
  | (Waiting until, q') =>
      q' = q /\ now < until /\ (exists e, e ∈ tasks_ q /\ e_time e = until) /\
      forall e, e ∈ tasks_ q -> until <= e_time e
  end.
Proof.
  destruct (pq_run_ok Valid INVALID_TSK updater_ os PQ_new (inv_new (Tsk := Tsk))) as ([] & q & E & Hq).
  exists q. split; [exact E|]. unfold Pop. pose proof (inv_sorted _ Hq) as Hs.
  destruct (tasks_ q) as [|e rest] eqn:El; [by left|]. apply StronglySorted_cons in Hs as [Hb _].
  rewrite Forall_forall in Hb. destruct (now <? e_time e) eqn:En; bools.
  - split_and!; [done|lia|exists e; split; [left|done]|].
    intros x [->|Hx%Hb]%elem_of_cons; [lia|unfold before in Hx; lia].
  - right. exists e, rest. by split_and!.
Qed.

(** An identifier that is queued twice escapes [Remove]: while a task is
    queued, pushing another one with the same identifier leaves the index on
    the first; [Remove] answers that it has removed the task, the second one
    stays queued, and removing again answers that there is none. *)
Theorem Remove_leaves_duplicate (q : PriorityQueue) (t1 t2 : Tsk) (id tm1 tm2 : Z)
    (Hq : pq_inv q) (Hfresh : indexes_ q !! id = None) (Hv1 : Valid t1 = true) (Hv2 : Valid t2 = true) :
  let q2 := snd (PQ_Push Valid t2 id tm2 (snd (PQ_Push Valid t1 id tm1 q))) in
  exists q3, PQ_Remove id false q2 = Done (Some true, q3) /\
    (exists e, e ∈ tasks_ q3 /\ e_matrix e = mkPQMatrix t2 id) /\
    PQ_Remove id false q3 = Done (Some false, q3).
Proof.
  rewrite !PQ_Push_valid by done. cbn [snd tasks_ running_ indexes_ next_entry]. cbv zeta.
  set (r := next_entry q). set (e1 := mkEntry r tm1 _). set (e2 := mkEntry (Pos.succ r) tm2 _). set (q2 := mkPQ _ _ _ _).
  assert (Hi : indexes_ q2 = <[id := r]> (indexes_ q)).
  { cbn. unfold map_emplace at 2. rewrite Hfresh. unfold map_emplace. by rewrite lookup_insert_eq. }
  assert (Hq2 : pq_inv q2).
  { destruct (pq_ok_Push Valid t1 id tm1 q Hq) as (a1 & q1 & E1 & Hq1). unfold run_st in E1.
    rewrite PQ_Push_valid in E1 by done. injection E1 as _ <-.
    destruct (pq_ok_Push Valid t2 id tm2 _ Hq1) as (a2 & q2' & E2 & Hq2'). unfold run_st in E2.
    rewrite PQ_Push_valid in E2 by done. injection E2 as _ <-. exact Hq2'. }
  assert (Hin : forall e, e ∈ tasks_ q2 <-> e = e2 \/ e = e1 \/ e ∈ tasks_ q).
  { intros e. cbn. by rewrite !insert_entry_perm, !elem_of_cons. }
  unfold PQ_Remove at 1. rewrite so_bind_st. cbn [get fst snd andb]. rewrite Hi, lookup_insert_eq.
  unfold mbind at 1, so_bind at 1, iter_erase.
  assert (Hf : find_entry r (tasks_ q2) = Some e1) by (apply (find_entry_in q2 e1 Hq2), Hin; by right; left).
  rewrite Hf, so_bind_st. eexists. split; [reflexivity|]. split.
  - exists e2. split; [|done]. cbn. apply list_elem_of_filter. split; [cbn; lia|]. apply (Hin e2). by left.
  - unfold PQ_Remove. rewrite so_bind_st. cbn [get fst snd andb]. cbn [modify snd set_indexes indexes_].
    by rewrite lookup_delete_eq.
Qed.
End queue_properties.

(** ** Periodic tasks *)

Section periodic.
Context {Closure : Type} (no_op : Closure).
Abbreviation invalid := (InnerTask_default no_op).

(** A thread of the pool: at each of the given times it takes a task and, when
    the task has run, tells the queue.

    [executor.h:108-114] Run *)
Fixpoint drive (id : Z) (nows : list Z) : ST (@PriorityQueue (@InnerTask Closure)) (list PopResult) :=
  match nows with
  | [] => mret []
  | now :: nows' =>
      r ← Pop invalid now;
      Finish NextTimer now id;;
      rs ← drive id nows';
      mret (r :: rs)
  end.

(** [n] instants from [t], [i] apart. *)
Fixpoint instants (n : nat) (t i : Z) : list Z :=
  match n with O => [] | S n' => t :: instants n' (t + i) i end.

(** The task as it is taken at each run. *)
Fixpoint countdown (n : nat) (t : @InnerTask Closure) : list PopResult :=
  match n with
  | O => []
  | S n' => Popped (mkInnerTask (exec t) (interval t) (Z.of_nat n) (taskId t)) :: countdown n' t
  end.

(** The queue that holds one task. *)
Definition one_task (t : @InnerTask Closure) (tm : Z) (r : positive) : PriorityQueue :=
  mkPQ [mkEntry r tm (mkPQMatrix t (taskId t))] ∅ {[taskId t := r]} (Pos.succ r).

Lemma one_task_step ex i n id tm r : i <> 0 -> 0 < n < 2 ^ 64 ->
  let t := mkInnerTask ex i n id in
  Pop invalid tm (one_task t tm r) = (Popped t, mkPQ [] {[id := mkPQMatrix t id]} ∅ (Pos.succ r)) /\
  snd (Finish NextTimer tm id (mkPQ [] {[id := mkPQMatrix t id]} ∅ (Pos.succ r))) =
    if 1 <? n then one_task (mkInnerTask ex i (n - 1) id) (tm + i) (Pos.succ r)
    else mkPQ [] ∅ ∅ (Pos.succ r).
Proof.
  intros Hi Hn. cbv zeta. split.
  - unfold Pop, one_task. cbn [tasks_ e_time e_matrix id_ task_ running_ indexes_ next_entry taskId]. rewrite Z.ltb_irrefl.
    unfold map_emplace. rewrite lookup_empty. by rewrite delete_singleton_eq.
  - unfold Finish, mbind, st_bind, get. cbn [running_]. rewrite lookup_singleton_eq. cbn [task_ id_].
    unfold NextTimer. cbn [interval exec times taskId]. rewrite (proj2 (Z.eqb_neq i INVALID_INTERVAL)) by done.
    rewrite wrap_u_id by (apply in_u_spec; lia).
    destruct (Z.ltb_spec 0 (n - 1)); destruct (Z.ltb_spec 1 n); try lia.
    + unfold one_task. cbn. unfold map_emplace, set_running, set_indexes. cbn. rewrite lookup_empty.
      by rewrite delete_singleton_eq.
    + cbn. unfold set_running. cbn. by rewrite delete_singleton_eq.
Qed.

(** A periodic task runs as often as it was scheduled for: a task with a
    non-zero interval and a count [n], taken whenever it is due, is taken
    exactly [n] times, one interval apart, its remaining count going down from
    [n] to 1; afterwards the queue is empty, with nothing running and no
    index. *)
Theorem periodic_runs (n : nat) (t : @InnerTask Closure) (tm : Z) (q : PriorityQueue)
    (Hi : interval t <> INVALID_INTERVAL) (Hn : (0 < n)%nat) (Hmax : Z.of_nat n < 2 ^ 64) (Hv : Task_Valid t = true)
    (Hempty : tasks_ q = [] /\ running_ q = ∅ /\ indexes_ q = ∅) :
  let scheduled := mkInnerTask (exec t) (interval t) (Z.of_nat n) (taskId t) in
  let '(rs, q') := drive (taskId t) (instants n tm (interval t)) (snd (PQ_Push Task_Valid scheduled (taskId t) tm q)) in
  rs = countdown n t /\ tasks_ q' = [] /\ running_ q' = ∅ /\ indexes_ q' = ∅.
Proof.
  cbv zeta. rewrite PQ_Push_valid by done. cbn [snd]. destruct Hempty as (-> & -> & ->).
  set (q0 := mkPQ _ _ _ _). assert (Hq0 : q0 = one_task (mkInnerTask (exec t) (interval t) (Z.of_nat n) (taskId t)) tm (next_entry q)).
  { unfold q0, one_task, map_emplace. by rewrite lookup_empty. }
  rewrite Hq0. clear q0 Hq0. generalize (next_entry q) as r. clear q Hv. revert tm.
  induction n as [|n IH]; [lia|]. intros tm r. cbn [instants drive countdown].
  destruct (one_task_step (exec t) (interval t) (Z.of_nat (S n)) (taskId t) tm r Hi ltac:(lia)) as [Hpop Hfin].
  rewrite (st_bind_eq _ _ _ _ _ Hpop). unfold mbind at 1, st_bind at 1.
  destruct (Finish NextTimer tm (taskId t) _) as [[] q1] in Hfin |- *. cbn [snd] in Hfin. subst q1.
  destruct (Z.ltb_spec 1 (Z.of_nat (S n))).
  - replace (Z.of_nat (S n) - 1) with (Z.of_nat n) by lia. specialize (IH ltac:(lia) ltac:(lia) (tm + interval t) (Pos.succ r)).
    unfold mbind at 1, st_bind at 1. destruct (drive (taskId t) (instants n (tm + interval t) (interval t)) _) as [rs q2].
    destruct IH as (-> & Hrest). done.
  - assert (n = 0%nat) as -> by lia. done.
Qed.
End periodic.

(** ** Concrete queues *)

(** A task whose closure is a number. *)
Definition w_task (i : Z) : @InnerTask nat := mkInnerTask 0%nat i UNLIMITED_TIMES 7.

Example Remove_leaves_duplicate_witness :
  exists q3, PQ_Remove 7 false (snd (PQ_Push Task_Valid (w_task 5) 7 20 (snd (PQ_Push Task_Valid (w_task 5) 7 10 PQ_new)))) =
      Done (Some true, q3) /\
    (exists e, e ∈ tasks_ q3 /\ e_matrix e = mkPQMatrix (w_task 5) 7) /\
    PQ_Remove 7 false q3 = Done (Some false, q3).
Proof. exact (Remove_leaves_duplicate Task_Valid PQ_new (w_task 5) (w_task 5) 7 10 20 inv_new eq_refl eq_refl eq_refl). Defined.

Example periodic_runs_witness :
  let '(rs, q') := drive 0%nat 7 (instants 3 10 5) (snd (PQ_Push Task_Valid (mkInnerTask 0%nat 5 3 7) 7 10 PQ_new)) in
  rs = countdown 3 (w_task 5) /\ tasks_ q' = [] /\ running_ q' = ∅ /\ indexes_ q' = ∅.
Proof.
  apply (periodic_runs 0%nat 3 (w_task 5) 10 PQ_new); [discriminate|lia|reflexivity|reflexivity|].
  split_and!; reflexivity.
Defined.
