(* ===== verification/ExecutorPool.v ===== *)
(** * The executor pool and its threads

    Models [executor.h] and [executor_pool.h] over [Pool] and [TaskQueue] as a
    transition system.  A step is a section of code between two points at
    which a thread takes or gives back a mutex: a thread of an executor has a
    program counter, a call of the application that is in flight is a value
    of [Call], and the actions of all of them interleave freely.  A step of a
    thread that has to wait leaves the state as it is. *)

From S2P Require Import Prelude Pool TaskQueue.

(** ** State *)

(** What a task runs: nothing, a closure of the application, or the lambda of
    [Schedule] that hands a closure to the queue of the executors.

    [executor_pool.h:165-174] Schedule *)
Inductive Closure := NoOp | User (f : nat) | Forward (f : nat) (id : Z).

Abbreviation Task := (@InnerTask Closure).
Abbreviation TaskQueue := (@PriorityQueue Task).
Abbreviation invalid_task := (InnerTask_default NoOp).

(** [executor.h:40-44] Status *)
Inductive Status := RUNNING | IS_STOPPING | STOPPED.

#[export] Instance Status_eq_dec : EqDecision Status.
Proof. solve_decision. Defined.

Inductive QueueId := Delay | Execs.

#[export] Instance QueueId_eq_dec : EqDecision QueueId.
Proof. solve_decision. Defined.

(** A call in flight, by what it does next: take an executor for the queue of
    the executors and bind it, or make sure that there is a scheduler.

    [executor_pool.h:149-161] Execute *)
Inductive Call :=
  | CGet
  | CBind (x : DataRef)
  | CSched
  | CSchedBind (x : DataRef)
  | CDone.

#[export] Instance Call_eq_dec : EqDecision Call.
Proof. solve_decision. Defined.

(** Where the thread of an executor stands in [Run].

    [executor.h:100-126] Run *)
Inductive Pc :=
  | PcWait                                   (** before [condition_.wait] *)
  | PcLoop                                   (** the test of the task loop *)
  | PcPop
  | PcExec (t : Task) (c : option Call)      (** running a task, without the mutex *)
  | PcFinish (id : Z)
  | PcIdle                                   (** before [idle_] *)
  | PcTimed                                  (** in [condition_.wait_until] *)
  | PcRelease                                (** before [release_] *)
  | PcStopped.

(** [executor.h:128-136] Executor *)
Record Executor := mkExecutor {
  status : Status;
  waits_ : option QueueId;
  bound_ : option QueueId;                   (** whose [idle_] and [release_] it has *)
  pc : Pc
}.

Definition Executor_new : Executor := mkExecutor RUNNING None None PcWait.

(** [executor_pool.h:215-221] ExecutorPool *)
Record Sys := mkSys {
  pool_ : Pool;
  delayTasks_ : TaskQueue;
  execs_ : option TaskQueue;
  scheduler_ : option DataRef;
  taskId_ : Z;
  poolStatus : Status;
  mtx_ : bool;                               (** held across steps *)
  executors : gmap DataRef Executor;
  calls : list Call;
  clock : Z;
  log : list nat                             (** the closures that were run, in order *)
}.

Definition set_pool v s := mkSys v (delayTasks_ s) (execs_ s) (scheduler_ s) (taskId_ s) (poolStatus s) (mtx_ s) (executors s) (calls s) (clock s) (log s).
Definition set_delay v s := mkSys (pool_ s) v (execs_ s) (scheduler_ s) (taskId_ s) (poolStatus s) (mtx_ s) (executors s) (calls s) (clock s) (log s).
Definition set_execs v s := mkSys (pool_ s) (delayTasks_ s) v (scheduler_ s) (taskId_ s) (poolStatus s) (mtx_ s) (executors s) (calls s) (clock s) (log s).
Definition set_scheduler v s := mkSys (pool_ s) (delayTasks_ s) (execs_ s) v (taskId_ s) (poolStatus s) (mtx_ s) (executors s) (calls s) (clock s) (log s).
Definition set_taskId v s := mkSys (pool_ s) (delayTasks_ s) (execs_ s) (scheduler_ s) v (poolStatus s) (mtx_ s) (executors s) (calls s) (clock s) (log s).
Definition set_mtx v s := mkSys (pool_ s) (delayTasks_ s) (execs_ s) (scheduler_ s) (taskId_ s) (poolStatus s) v (executors s) (calls s) (clock s) (log s).
Definition set_executors v s := mkSys (pool_ s) (delayTasks_ s) (execs_ s) (scheduler_ s) (taskId_ s) (poolStatus s) (mtx_ s) v (calls s) (clock s) (log s).
Definition set_calls v s := mkSys (pool_ s) (delayTasks_ s) (execs_ s) (scheduler_ s) (taskId_ s) (poolStatus s) (mtx_ s) (executors s) v (clock s) (log s).
Definition set_clock v s := mkSys (pool_ s) (delayTasks_ s) (execs_ s) (scheduler_ s) (taskId_ s) (poolStatus s) (mtx_ s) (executors s) (calls s) v (log s).
Definition set_log v s := mkSys (pool_ s) (delayTasks_ s) (execs_ s) (scheduler_ s) (taskId_ s) (poolStatus s) (mtx_ s) (executors s) (calls s) (clock s) v.

(** [executor_pool.h:46-53] ExecutorPool *)
Definition ExecutorPool_new (max min : Z) : Sys :=
  mkSys (Pool_new (wrap_u 32 max) (wrap_u 32 min)) PQ_new (if 1 <? max then Some PQ_new else None)
    None INVALID_TASK_ID RUNNING false ∅ [] 0 [].

(** ** The parts *)

Definition on_pool {A} (m : SO Pool A) : SO Sys A := fun s =>
  '(a, p) ← m (pool_ s); Done (a, set_pool p s).

(** The queue behind a pointer. *)
Definition queue_of (q : QueueId) (s : Sys) : option TaskQueue :=
  match q with Delay => Some (delayTasks_ s) | Execs => execs_ s end.

Definition set_queue (q : QueueId) (v : TaskQueue) (s : Sys) : Sys :=
  match q with Delay => set_delay v s | Execs => set_execs (Some v) s end.

(** Only the queue of delayed tasks has [NextTimer]. *)
Definition queue_updater (q : QueueId) : Z -> Task -> bool * Z * Task :=
  match q with Delay => NextTimer | Execs => fun _ t => (false, 0, t) end.

Definition on_queue {A} (q : QueueId) (m : SO TaskQueue A) : SO Sys A := fun s =>
  match queue_of q s with
  | Some v => '(a, v') ← m v; Done (a, set_queue q v' s)
  | None => Undef
  end.

(** [std::make_shared<Executor>()] runs with the node of the pool: its thread
    starts. *)
Definition register (x : DataRef) : ST Sys unit := modify (fun s =>
  set_executors (match executors s !! x with
                 | Some _ => executors s
                 | None => <[x := Executor_new]> (executors s)
                 end) s).

Definition set_executor (x : DataRef) (e : Executor) : ST Sys unit :=
  modify (fun s => set_executors (<[x := e]> (executors s)) s).

Definition set_pc (x : DataRef) (e : Executor) (p : Pc) : ST Sys unit :=
  set_executor x (mkExecutor (status e) (waits_ e) (bound_ e) p).

(** The thread of the executor does not hold its [mutex_]. *)
Definition mutex_free (e : Executor) : bool :=
  match pc e with PcWait | PcTimed | PcExec _ _ | PcFinish _ | PcStopped => true | _ => false end.

(** [executor.h:79-88] Bind *)
Definition Bind (x : DataRef) (e : Executor) (q : QueueId) : ST Sys unit :=
  set_executor x (mkExecutor (status e) (Some q) (Some q) (pc e)).

(** One step of a call in flight: what it does next.

    [executor_pool.h:149-195] Schedule *)
Definition flight_step (c : Call) : SO Sys Call :=
  s ← run_st get;
  match c with
  | CGet =>
      executor ← on_pool (Pool_Get false);
      match executor with
      | None => mret CDone
      | Some x => run_st (register x);; mret (CBind x)
      end
  | CBind x =>
      match executors s !! x with
      | Some e => if mutex_free e then run_st (Bind x e Execs);; mret CDone else mret c
      | None => run_out Undef
      end
  | CSched =>
      if mtx_ s then mret c else
      match scheduler_ s with
      | Some _ => mret CDone
      | None =>
          executor ← on_pool (Pool_Get true);
          match executor with
          | None => run_out Undef
          | Some x =>
              run_st (register x);;
              run_st (modify (fun s => set_mtx true (set_scheduler (Some x) s)));;
              mret (CSchedBind x)
          end
      end
  | CSchedBind x =>
      match executors s !! x with
      | Some e => if mutex_free e then run_st (Bind x e Delay);; run_st (modify (set_mtx false));; mret CDone else mret c
      | None => run_out Undef
      end
  | CDone => mret CDone
  end.

(** ** Calls of the application *)

Definition GenId : ST Sys Z := fun s =>
  let '(id, c) := GenTaskId (taskId_ s) in (id, set_taskId c s).

Definition begin_call (c : Call) : ST Sys unit := modify (fun s => set_calls (calls s ++ [c]) s).

(** The part of the private [Execute] before an executor is taken.

    [executor_pool.h:143-148] Execute *)
Definition execute_push (f : nat) (taskId : Z) : SO Sys unit :=
  _ ← on_queue Execs (run_st (PQ_Push Task_Valid
        (mkInnerTask (User f) INVALID_INTERVAL UNLIMITED_TIMES taskId) taskId INVALID_TIME));
  mret tt.

(** [executor_pool.h:106-114] Schedule *)
Definition Schedule_inner (f : nat) (delay interval times : Z) : SO Sys Z :=
  id ← run_st GenId;
  s ← run_st get;
  let exec := match execs_ s with Some _ => Forward f id | None => User f end in
  _ ← on_queue Delay (run_st (PQ_Push Task_Valid (mkInnerTask exec interval times id) id (clock s + delay)));
  run_st (begin_call CSched);;
  mret id.

(** [executor_pool.h:91-94] Schedule *)
Definition Schedule_once (delay : Z) (f : nat) : SO Sys Z := Schedule_inner f delay INVALID_INTERVAL 1.

(** [executor_pool.h:96-104] Schedule *)
Definition Schedule_periodic (f : nat) (delay interval : Z) : SO Sys Z :=
  Schedule_inner f delay interval UNLIMITED_TIMES.

(** [executor_pool.h:77-89] Execute *)
Definition Execute (f : nat) : SO Sys Z :=
  s ← run_st get;
  if negb (bool_decide (poolStatus s = RUNNING)) then mret INVALID_TASK_ID else
  match execs_ s with
  | None => Schedule_inner f 0 INVALID_INTERVAL UNLIMITED_TIMES
  | Some _ =>
      id ← run_st GenId;
      execute_push f id;;
      run_st (begin_call CGet);;
      mret id
  end.

(** With [wait], [None] when the call has to wait for a running task.  Its
    sections on the two queues are one step here.

    [executor_pool.h:116-128] Remove *)
Definition EP_Remove (taskId : Z) (wait : bool) : SO Sys (option bool) :=
  delay ← on_queue Delay (PQ_Find invalid_task taskId);
  let res := Task_Valid delay in
  r ← on_queue Delay (PQ_Remove taskId wait);
  match r with
  | None => mret None
  | Some _ =>
      s ← run_st get;
      match execs_ s with
      | None => mret (Some res)
      | Some _ =>
          r ← on_queue Execs (PQ_Remove taskId wait);
          mret (match r with None => None | Some _ => Some res end)
      end
  end.

(** [executor_pool.h:130-140] Reset *)
Definition EP_Reset (taskId interval : Z) : SO Sys Z :=
  s ← run_st get;
  updated ← on_queue Delay (PQ_Update taskId (reset_updater (clock s) interval));
  mret (if (updated : bool) then taskId else INVALID_TASK_ID).

(** ** The thread of an executor *)

Definition queue_size (q : QueueId) : SO Sys nat := on_queue q (run_st PQ_Size).

(** Run a task: the end, or the call it goes on with.

    [executor.h:110-112] Run *)
Definition exec_task (t : Task) : SO Sys (option Call) :=
  match exec t with
  | NoOp => mret None
  | User f => run_st (modify (fun s => set_log (log s ++ [f]) s));; mret None
  | Forward f id => execute_push f id;; mret (Some CGet)
  end.

(** The lambdas that [Execute] and [Schedule] bind: whether the executor is
    idle now, [None] when it has to wait for [mtx_].

    [executor_pool.h:181-189] Schedule *)
Definition idle_lambda (x : DataRef) (q : QueueId) : SO Sys (option bool) :=
  s ← run_st get;
  match q with
  | Execs => on_pool (Pool_Idle x);; mret (Some true)
  | Delay =>
      if mtx_ s then mret None else
      n ← queue_size Delay;
      if negb (n =? 0)%nat then mret (Some false) else
      run_st (modify (set_scheduler None));;
      on_pool (Pool_Idle x);;
      mret (Some true)
  end.

(** One step of the thread.

    [executor.h:100-126] Run *)
Definition thread_step (x : DataRef) (e : Executor) : SO Sys unit :=
  s ← run_st get;
  match pc e with
  | PcWait =>
      if bool_decide (status e = IS_STOPPING) || negb (bool_decide (waits_ e = None))
      then run_st (set_pc x e PcLoop) else mret tt
  | PcLoop =>
      match status e, waits_ e with
      | RUNNING, Some q =>
          n ← queue_size q;
          run_st (set_pc x e (if (0 <? n)%nat then PcPop else PcIdle))
      | _, _ => run_st (set_pc x e PcIdle)
      end
  | PcPop =>
      match waits_ e with
      | Some q =>
          r ← on_queue q (run_st (Pop invalid_task (clock s)));
          match r with
          | Waiting _ => mret tt
          | Popped t => run_st (set_pc x e (PcExec t None))
          end
      | None => run_out Undef
      end
  | PcExec t None =>
      c ← exec_task t;
      run_st (set_pc x e (match c with None => PcFinish (taskId t) | Some c => PcExec t (Some c) end))
  | PcExec t (Some CDone) => run_st (set_pc x e (PcFinish (taskId t)))
  | PcExec t (Some c) =>
      c' ← flight_step c;
      run_st (set_pc x e (PcExec t (Some c')))
  | PcFinish id =>
      match waits_ e with
      | Some q =>
          on_queue q (run_st (Finish (queue_updater q) (clock s) id));;
          run_st (set_pc x e PcLoop)
      | None => run_out Undef
      end
  | PcIdle =>
      match bound_ e with
      | None => run_out Thrown
      | Some q =>
          r ← idle_lambda x q;
          match r with
          | None => mret tt
          | Some idle =>
              if negb idle && bool_decide (status e = RUNNING) then run_st (set_pc x e PcTimed)
              else run_st (set_executor x (mkExecutor (status e) None (bound_ e)
                (if bool_decide (status e = RUNNING) then PcTimed else PcRelease)))
          end
      end
  | PcTimed =>
      if bool_decide (waits_ e = None) then mret tt else run_st (set_pc x e PcWait)
  | PcRelease =>
      released ← on_pool (Pool_Release x (bool_decide (status e = IS_STOPPING)));
      if (released : bool)
      then run_st (set_executor x (mkExecutor STOPPED (waits_ e) (bound_ e) PcStopped))
      else run_st (set_pc x e PcWait)
  | PcStopped => mret tt
  end.

(** [condition_.wait_until] runs out of time.  Only a queue ends the wait
    before that, [Stop] does not.

    [executor.h:119-122] Run *)
Definition thread_timeout (x : DataRef) (e : Executor) : ST Sys unit :=
  match pc e, waits_ e with
  | PcTimed, None => set_pc x e PcRelease
  | _, _ => mret tt
  end.

(** ** Runs *)

Inductive Action :=
  | AExecute (f : nat)
  | ASchedule (f : nat) (delay interval times : Z)
  | ARemove (taskId : Z) (wait : bool)
  | AReset (taskId interval : Z)
  | ACall (i : nat)                          (** the i-th call in flight *)
  | AThread (x : DataRef)
  | ATimeout (x : DataRef)
  | ATick (n : nat).

(** A call in flight that has ended is gone. *)
Definition calls_after (i : nat) (c : Call) (l : list Call) : list Call :=
  match c with CDone => delete i l | _ => <[i := c]> l end.

Definition sys_step (a : Action) : SO Sys unit :=
  s ← run_st get;
  match a with
  | AExecute f => _ ← Execute f; mret tt
  | ASchedule f delay interval times => _ ← Schedule_inner f delay interval times; mret tt
  | ARemove taskId wait => _ ← EP_Remove taskId wait; mret tt
  | AReset taskId interval => _ ← EP_Reset taskId interval; mret tt
  | ACall i =>
      match calls s !! i with
      | Some c => c' ← flight_step c; run_st (modify (fun s => set_calls (calls_after i c' (calls s)) s))
      | None => mret tt
      end
  | AThread x => match executors s !! x with Some e => thread_step x e | None => mret tt end
  | ATimeout x => match executors s !! x with Some e => run_st (thread_timeout x e) | None => mret tt end
  | ATick n => run_st (modify (fun s => set_clock (clock s + Z.of_nat n) s))
  end.

Fixpoint sys_run (as_ : list Action) : SO Sys unit :=
  match as_ with [] => mret tt | a :: as' => sys_step a;; sys_run as' end.

(** ** A pool of at most one executor

    The stages of a pool without a queue of its own for executors, as the
    library creates it: no executor, an idle one, one that is being bound to
    the queue of delayed tasks, and one that serves this queue. *)

Inductive stage := SEmpty | SIdle (x : DataRef) | SBinding (x : DataRef) | SBound (x : DataRef).

Definition stage_ref (st : stage) : option DataRef :=
  match st with SEmpty => None | SIdle x | SBinding x | SBound x => Some x end.
Definition idle_of (st : stage) : list DataRef := match st with SIdle x => [x] | _ => [] end.
Definition busy_of (st : stage) : list DataRef := match st with SBinding x | SBound x => [x] | _ => [] end.

(** A task of the application, due again not before it was. *)
Definition user_task (t : Task) : Prop := (exists f, exec t = User f) /\ 0 <= interval t.

Definition serving_pc (p : Pc) : Prop :=
  match p with
  | PcExec t c => c = None /\ (exec t = NoOp \/ user_task t)
  | PcRelease | PcStopped => False
  | _ => True
  end.

(** An executor that serves no queue. *)
Definition parked (e : Executor) : Prop :=
  status e = RUNNING /\ waits_ e = None /\ (pc e = PcWait \/ pc e = PcTimed \/ pc e = PcRelease).

(** What the executor of the stage is doing. *)
Definition stage_exec (st : stage) (e : Executor) : Prop :=
  match st with
  | SEmpty => False
  | SIdle _ => parked e /\ bound_ e = Some Delay
  | SBinding _ => parked e
  | SBound _ => status e = RUNNING /\ waits_ e = Some Delay /\ bound_ e = Some Delay /\ serving_pc (pc e)
  end.

Definition is_bind (c : Call) : bool := match c with CBind _ | CSchedBind _ => true | _ => false end.

Record inv_at (st : stage) (s : Sys) : Prop := {
  ia_pool : rep (pool_ s) (idle_of st) (busy_of st);
  ia_sched : scheduler_ s = head (busy_of st);
  ia_mtx : mtx_ s = match st with SBinding _ => true | _ => false end;
  ia_exec x : stage_ref st = Some x -> exists e, executors s !! x = Some e /\ stage_exec st e;
  ia_others y e : executors s !! y = Some e -> stage_ref st = Some y \/ pc e = PcStopped;
  ia_fresh y : is_Some (executors s !! y) -> (y < next_node (pool_ s))%positive;
  ia_queue : pq_inv (delayTasks_ s);
  ia_tasks : pq_all user_task (delayTasks_ s);
  ia_execs : execs_ s = None;
  ia_calls c : c ∈ calls s -> c = CSched \/ exists x, c = CSchedBind x;
  ia_bind : filter is_bind (calls s) = match st with SBinding x => [CSchedBind x] | _ => [] end;
  ia_wake : tasks_ (delayTasks_ s) <> [] -> scheduler_ s <> None \/ CSched ∈ calls s
}.

Definition sys_inv (s : Sys) : Prop := exists st, inv_at st s.

(** The application gives no negative interval. *)
Definition sane (a : Action) : Prop :=
  match a with
  | ASchedule _ _ interval _ => 0 <= interval
  | AReset _ interval => 0 <= interval
  | _ => True
  end.

(** A step is taken, and keeps the invariant. *)
Definition sys_ok {A} (m : SO Sys A) (s : Sys) : Prop := exists a s', m s = Done (a, s') /\ sys_inv s'.

Lemma sys_inv_new max min : max <= 1 -> sys_inv (ExecutorPool_new max min).
Proof.
  intros Hm. exists SEmpty. unfold ExecutorPool_new. rewrite (proj2 (Z.ltb_ge 1 max)) by lia.
  split; cbn; try done.
  - apply Pool_new_rep.
  - intros y. rewrite lookup_empty. by intros [].
  - apply TaskQueue.inv_new.
  - split; cbn; [intros e He; inv He|]. intros id m. by rewrite lookup_empty.
  - intros c Hc. inv Hc.
Qed.

(** *** Changes that keep the stage *)

(** The executor of the stage takes a step of its own. *)
Lemma inv_executor st x e' s : inv_at st s -> stage_ref st = Some x -> stage_exec st e' ->
  inv_at st (set_executors (<[x := e']> (executors s)) s).
Proof.
  intros Hi Hx He. pose proof (ia_exec _ _ Hi x Hx) as (e & Hex & _). destruct Hi. split; cbn; try done.
  - intros y Hy. assert (y = x) as -> by congruence. exists e'. by rewrite lookup_insert_eq.
  - intros y ey. rewrite lookup_insert_Some. intros [[<- _]|[_ Hy]]; [by left|by eapply ia_others0].
  - intros y. rewrite lookup_insert_is_Some'. intros [<-|Hy]; [|auto]. apply ia_fresh0. by eexists.
Qed.

(** The queue of delayed tasks changes. *)
Lemma inv_delay st q s : inv_at st s -> pq_inv q -> pq_all user_task q ->
  (tasks_ q <> [] -> tasks_ (delayTasks_ s) <> [] \/ scheduler_ s <> None \/ CSched ∈ calls s) ->
  inv_at st (set_delay q s).
Proof. intros [] Hq Ha Hw. split; cbn; try done. intros Hne. destruct (Hw Hne) as [Ht|Ht]; auto. Qed.

Lemma inv_quiet st s s' : inv_at st s ->
  pool_ s' = pool_ s -> scheduler_ s' = scheduler_ s -> mtx_ s' = mtx_ s -> executors s' = executors s ->
  delayTasks_ s' = delayTasks_ s -> execs_ s' = execs_ s -> calls s' = calls s -> inv_at st s'.
Proof. intros [] E1 E2 E3 E4 E5 E6 E7. split; rewrite ?E1, ?E2, ?E3, ?E4, ?E5, ?E6, ?E7; done. Qed.

Lemma inv_call st s : inv_at st s -> inv_at st (set_calls (calls s ++ [CSched]) s).
Proof.
  intros []. split; cbn; try done.
  - intros c. rewrite elem_of_app, list_elem_of_singleton. intros [Hc| ->]; [auto|by left].
  - rewrite filter_app. by rewrite ia_bind0, app_nil_r.
  - intros _. right. apply elem_of_app. right. left.
Qed.

(** *** The calls of the application *)

Lemma on_queue_delay {A} (m : SO TaskQueue A) s a q : m (delayTasks_ s) = Done (a, q) ->
  on_queue Delay m s = Done (a, set_delay q s).
Proof. intros E. unfold on_queue. cbn [queue_of]. by rewrite E. Qed.

Lemma on_delay_st {A} (m : ST TaskQueue A) s :
  on_queue Delay (run_st m) s = Done (fst (m (delayTasks_ s)), set_delay (snd (m (delayTasks_ s))) s).
Proof. apply on_queue_delay. unfold run_st. by destruct (m _). Qed.

Lemma on_pool_eq {A} (m : SO Pool A) s a p : m (pool_ s) = Done (a, p) -> on_pool m s = Done (a, set_pool p s).
Proof. intros E. unfold on_pool. by rewrite E. Qed.

(** The state after a task was pushed and the call that goes on was begun. *)
Lemma Schedule_inner_eq f delay interval times s : execs_ s = None ->
  let id := (GenTaskId (taskId_ s)).1 in
  let t := mkInnerTask (User f) interval times id in
  Schedule_inner f delay interval times s =
    Done (id, set_calls (calls s ++ [CSched])
      (set_delay (snd (PQ_Push Task_Valid t id (clock s + delay) (delayTasks_ s)))
        (set_taskId (GenTaskId (taskId_ s)).2 s))).
Proof.
  intros He. cbv zeta. unfold Schedule_inner. rewrite so_bind_st. unfold GenId.
  destruct (GenTaskId (taskId_ s)) as [id c]. cbn [fst snd]. rewrite so_bind_st. cbn [get fst snd].
  change (execs_ (set_taskId c s)) with (execs_ s). rewrite He. cbn [clock set_taskId].
  unfold mbind at 1, so_bind at 1, on_queue, run_st. cbn [queue_of delayTasks_].
  destruct (PQ_Push _ _ _ _ _) as [b q]. cbn. done.
Qed.

Lemma ok_Schedule f delay interval times s : 0 <= interval -> sys_inv s ->
  sys_ok (Schedule_inner f delay interval times) s.
Proof.
  intros Hint [st Hi]. unfold sys_ok. rewrite Schedule_inner_eq by apply (ia_execs _ _ Hi).
  eexists _, _. split; [reflexivity|]. exists st. set (t := mkInnerTask _ _ _ _). set (id := (GenTaskId _).1).
  set (tm := clock s + delay).
  assert (H1 : inv_at st (set_calls (calls s ++ [CSched]) (set_taskId (GenTaskId (taskId_ s)).2 s))).
  { apply (inv_call st (set_taskId (GenTaskId (taskId_ s)).2 s)). by apply (inv_quiet _ s). }
  destruct (pq_ok_Push Task_Valid t id tm (delayTasks_ s) (ia_queue _ _ Hi)) as (b & q & E & Hq). unfold run_st in E.
  pose proof (pq_all_Push Task_Valid user_task t id tm (delayTasks_ s)) as Ha. injection E as E. rewrite E in Ha |- *.
  apply (inv_delay st q _ H1 Hq).
  - apply Ha; [split; [by eexists|done]|apply (ia_tasks _ _ Hi)].
  - intros _. right. right. apply elem_of_app. right. left.
Qed.

Lemma ok_Execute f s : sys_inv s -> sys_ok (Execute f) s.
Proof.
  intros Hi. pose proof Hi as [st Hst]. unfold Execute, sys_ok. rewrite so_bind_st. cbn [get fst snd].
  destruct (negb _); [by eexists _, _|]. rewrite (ia_execs _ _ Hst). by apply ok_Schedule.
Qed.

Lemma ok_Remove id wait s : sys_inv s -> sys_ok (EP_Remove id wait) s.
Proof.
  intros [st Hi]. unfold EP_Remove, sys_ok.
  destruct (pq_ok_Find invalid_task id (delayTasks_ s) (ia_queue _ _ Hi)) as (t & q & E & _).
  pose proof (Find_same _ _ _ _ _ E) as ->. rewrite (so_bind_Done _ _ _ _ _ (on_queue_delay _ _ _ _ E)).
  replace (set_delay (delayTasks_ s) s) with s by by destruct s.
  destruct (pq_ok_Remove id wait (delayTasks_ s) (ia_queue _ _ Hi)) as (r & q & E2 & Hq).
  rewrite (so_bind_Done _ _ _ _ _ (on_queue_delay _ _ _ _ E2)).
  pose proof (Remove_same _ _ _ _ _ E2) as [Hsub _].
  assert (Hi2 : inv_at st (set_delay q s)).
  { apply inv_delay; [done|done|by eapply pq_all_Remove, (ia_tasks _ _ Hi)|]. intros Hne. left.
    destruct (tasks_ q) as [|e l] eqn:El; [done|]. intros E0. specialize (Hsub e ltac:(left)). rewrite E0 in Hsub. inv Hsub. }
  destruct r; [|by eexists _, _; split; [|exists st]]. rewrite so_bind_st. cbn [get fst snd].
  change (execs_ (set_delay q s)) with (execs_ s). rewrite (ia_execs _ _ Hi).
  eexists _, _. split; [reflexivity|by exists st].
Qed.

Lemma ok_Reset id interval s : 0 <= interval -> sys_inv s -> sys_ok (EP_Reset id interval) s.
Proof.
  intros Hint [st Hi]. unfold EP_Reset, sys_ok. rewrite so_bind_st. cbn [get fst snd].
  set (u := reset_updater _ _).
  destruct (pq_ok_Update id u (delayTasks_ s) (ia_queue _ _ Hi)) as (r & q & E & Hq).
  rewrite (so_bind_Done _ _ _ _ _ (on_queue_delay _ _ _ _ E)). eexists _, _. split; [reflexivity|]. exists st.
  destruct (pq_all_Update user_task id u (delayTasks_ s) r q) as [Ha He]; [|done|apply (ia_tasks _ _ Hi)|].
  { intros t [Hf Hn]. unfold u, reset_updater. case_match; by split. }
  apply inv_delay; [done..|]. intros Hne. left. by intros E0%He.
Qed.

(** *** The calls in flight *)

Lemma calls_split {A} (l : list A) i c : l !! i = Some c ->
  exists l1 l2, l = l1 ++ c :: l2 /\ delete i l = l1 ++ l2 /\ forall c', <[i := c']> l = l1 ++ c' :: l2.
Proof.
  revert i. induction l as [|x l IH]; intros [|i]; cbn; try done.
  - intros [= ->]. by exists [], l.
  - intros Hi. destruct (IH i Hi) as (l1 & l2 & -> & Hd & Hs). exists (x :: l1), l2.
    split_and!; [done|exact (f_equal (cons x) Hd)|]. intros c'. exact (f_equal (cons x) (Hs c')).
Qed.

Lemma filter_bind_drop l1 c l2 : is_bind c = false -> filter is_bind (l1 ++ c :: l2) = filter is_bind (l1 ++ l2).
Proof. intros Hc. by rewrite !filter_app, filter_cons_False by (rewrite Hc; by intros []). Qed.

(** The only binding call in flight. *)
Lemma filter_bind_only l1 x l2 l : filter is_bind (l1 ++ CSchedBind x :: l2) = [l] ->
  l = CSchedBind x /\ filter is_bind (l1 ++ l2) = [].
Proof.
  rewrite !filter_app, filter_cons_True by done. destruct (filter is_bind l1) as [|y l1']; cbn.
  - by intros [= <- ->].
  - intros [= _ E]. by destruct l1'.
Qed.

Lemma filter_bind_some l1 x l2 : filter is_bind (l1 ++ CSchedBind x :: l2) <> [].
Proof. rewrite filter_app, filter_cons_True by done. by intros [_ ?]%app_nil. Qed.

Lemma small_stage st s : inv_at st s -> current_ (pool_ s) + 1 < 2 ^ 32.
Proof. intros Hi. rewrite (rep_current _ _ _ (ia_pool _ _ Hi)). by destruct st. Qed.

(** A scheduler is taken from the pool and waits to be bound. *)
Lemma inv_take st s l1 l2 : inv_at st s -> scheduler_ s = None -> calls s = l1 ++ CSched :: l2 ->
  exists x p, Pool_Get true (pool_ s) = Done (Some x, p) /\
    inv_at (SBinding x)
      (set_calls (l1 ++ CSchedBind x :: l2) (set_mtx true (set_scheduler (Some x)
        (snd (register x (set_pool p s)))))).
Proof.
  intros Hi Hs Hcalls. pose proof (ia_sched _ _ Hi) as Hst. rewrite Hs in Hst.
  pose proof (Pool_Get_spec true _ _ _ (ia_pool _ _ Hi) (small_stage _ _ Hi)) as Hget.
  assert (Hb : busy_of st = []) by (by destruct (busy_of st)). rewrite Hb in Hget. unfold spec_get in Hget.
  assert (Hcase : exists x p, Pool_Get true (pool_ s) = Done (Some x, p) /\ rep p [] [x] /\
    (next_node (pool_ s) <= next_node p)%positive /\
    (executors s !! x = None /\ st = SEmpty \/ st = SIdle x)).
  { destruct st as [|x|x|x]; [| |done..]; cbn [idle_of negb andb] in Hget;
      destruct Hget as (p & E & Hr & _ & Hn); eexists _, p; (split; [exact E|]); split_and!; try done; [left|by right].
    split; [|done]. apply eq_None_not_Some. intros Hx%(ia_fresh _ _ Hi). lia. }
  destruct Hcase as (x & p & E & Hr & Hn & Hx). exists x, p. split; [exact E|].
  assert (Hflt : filter is_bind (l1 ++ l2) = []).
  { rewrite <- (filter_bind_drop l1 CSched l2) by done. rewrite <- Hcalls, (ia_bind _ _ Hi). by destruct Hx as [[_ ->]| ->]. }
  assert (Hreg : exists e, executors (snd (register x (set_pool p s))) !! x = Some e /\
    stage_exec (SBinding x) e /\ (forall y ey, executors (snd (register x (set_pool p s))) !! y = Some ey ->
      y = x \/ executors s !! y = Some ey)).
  { cbn. destruct Hx as [[Hno ->]| ->].
    - rewrite Hno. exists Executor_new. rewrite lookup_insert_eq.
      split; [done|]. split; [by split; [|split; [|left]]|].
      intros y ey. rewrite lookup_insert_Some. intros [[<- _]|[_ Hy]]; auto.
    - destruct (ia_exec _ _ Hi x eq_refl) as (e & He & Hse). rewrite He. exists e. split; [done|]. split; [apply Hse|auto]. }
  destruct Hreg as (e & He & Hse & Hoth).
  destruct Hi. split; cbn -[register]; try done.
  - intros y [= <-]. by exists e.
  - intros y ey [->|Hy]%Hoth; [by left|]. destruct (ia_others0 _ _ Hy) as [Hy2|Hy2]; [|by right].
    destruct Hx as [[_ ->]| ->]; [done|by left].
  - intros y [ey Hy]. destruct (Hoth _ _ Hy) as [->|Hy2].
    + apply (rep_fresh _ _ _ Hr). left.
    + specialize (ia_fresh0 y ltac:(by eexists)). cbn. lia.
  - intros c. rewrite elem_of_app, elem_of_cons. intros [Hc|[->|Hc]]; [|by right; eexists|];
      apply ia_calls0; rewrite Hcalls; set_solver.
  - rewrite filter_app, filter_cons_True by done. rewrite filter_app in Hflt. apply app_nil in Hflt as [-> ->]. done.
  - intros _. left. done.
Qed.

(** The scheduler is bound. *)
Lemma inv_bound x e s l1 l2 : inv_at (SBinding x) s -> executors s !! x = Some e -> mutex_free e = true ->
  calls s = l1 ++ CSchedBind x :: l2 ->
  inv_at (SBound x) (set_calls (l1 ++ l2) (set_mtx false (snd (Bind x e Delay s)))).
Proof.
  intros Hi He Hm Hcalls. destruct (ia_exec _ _ Hi x eq_refl) as (e' & He' & Hst & Hw & Hpc).
  assert (e' = e) as -> by congruence. pose proof (ia_bind _ _ Hi) as Hb. rewrite Hcalls in Hb.
  destruct Hi. split; cbn; try done.
  - intros y [= <-]. eexists. rewrite lookup_insert_eq. split; [done|]. split; [done|]. split; [done|]. split; [done|].
    cbn. unfold mutex_free in Hm. by destruct Hpc as [E|[E|E]]; rewrite E in *.
  - intros y ey. rewrite lookup_insert_Some. intros [[<- _]|[_ Hy]]; [by left|by eapply ia_others0].
  - intros y. rewrite lookup_insert_is_Some'. intros [<-|Hy]; [|auto]. apply ia_fresh0. by eexists.
  - intros c Hc. apply ia_calls0. rewrite Hcalls. set_solver.
  - by apply filter_bind_only in Hb as [_ ?].
  - intros _. left. by rewrite ia_sched0.
Qed.

(** A call that has found what it wants ends. *)
Lemma inv_end st s l1 l2 : inv_at st s -> calls s = l1 ++ CSched :: l2 -> scheduler_ s <> None ->
  inv_at st (set_calls (l1 ++ l2) s).
Proof.
  intros Hi Hcalls Hs. pose proof (ia_bind _ _ Hi) as Hb. rewrite Hcalls, filter_bind_drop in Hb by done.
  destruct Hi. split; cbn; try done.
  - intros c Hc. apply ia_calls0. rewrite Hcalls. set_solver.
  - intros _. by left.
Qed.

Lemma set_calls_id s : set_calls (calls s) s = s.
Proof. by destruct s. Qed.

(** A step that has to wait. *)
Lemma ok_wait s : sys_inv s -> sys_ok (mret tt) s.
Proof. intros Hi. by eexists _, _. Qed.

Lemma ok_CSched i s : sys_inv s -> calls s !! i = Some CSched -> sys_ok (sys_step (ACall i)) s.
Proof.
  intros [st Hi] Hc. unfold sys_step, sys_ok. rewrite so_bind_st. cbn [get fst snd]. rewrite Hc.
  destruct (calls_split _ _ _ Hc) as (l1 & l2 & Hcalls & Hdel & Hins).
  unfold flight_step. unfold mbind at 1, so_bind at 1. rewrite so_bind_st. cbn [get fst snd].
  destruct (mtx_ s) eqn:Em; [|destruct (scheduler_ s) as [x|] eqn:Es].
  - cbn -[delete insert]. eexists _, _. split; [reflexivity|]. exists st. cbn -[delete insert]. rewrite Hins, <- Hcalls, set_calls_id. done.
  - cbn -[delete insert]. eexists _, _. split; [reflexivity|]. exists st. rewrite Hdel. apply inv_end; [done|done|by rewrite Es].
  - destruct (inv_take st s l1 l2 Hi Es Hcalls) as (x & p & E & Hi').
    unfold mbind at 1, so_bind at 1. rewrite (on_pool_eq _ _ _ _ E), so_bind_st, so_bind_st.
    cbn -[delete insert register]. eexists _, _. split; [reflexivity|]. exists (SBinding x).
    cbn -[delete insert register]. by rewrite Hins.
Qed.

Lemma ok_CSchedBind i x s : sys_inv s -> calls s !! i = Some (CSchedBind x) -> sys_ok (sys_step (ACall i)) s.
Proof.
  intros [st Hi] Hc. unfold sys_step, sys_ok. rewrite so_bind_st. cbn [get fst snd]. rewrite Hc.
  destruct (calls_split _ _ _ Hc) as (l1 & l2 & Hcalls & Hdel & Hins).
  pose proof (ia_bind _ _ Hi) as Hb. rewrite Hcalls in Hb.
  assert (st = SBinding x) as ->.
  { destruct st as [|y|y|y]; try by apply filter_bind_some in Hb. apply filter_bind_only in Hb as [[= ->] _]. done. }
  destruct (ia_exec _ _ Hi x eq_refl) as (e & He & _).
  unfold flight_step. unfold mbind at 1, so_bind at 1. rewrite so_bind_st. cbn [get fst snd]. rewrite He.
  destruct (mutex_free e) eqn:Em.
  - rewrite so_bind_st, so_bind_st. cbn -[delete insert Bind]. eexists _, _. split; [reflexivity|]. exists (SBound x).
    change (inv_at (SBound x) (set_calls (delete i (calls s)) (set_mtx false (snd (Bind x e Delay s))))).
    rewrite Hdel. by apply inv_bound.
  - cbn -[delete insert]. eexists _, _. split; [reflexivity|]. exists (SBinding x). cbn -[delete insert].
    rewrite Hins, <- Hcalls, set_calls_id. done.
Qed.

Lemma ok_call i s : sys_inv s -> sys_ok (sys_step (ACall i)) s.
Proof.
  intros Hi. destruct (calls s !! i) as [c|] eqn:Hc.
  - pose proof Hi as [st Hst]. destruct (ia_calls _ _ Hst c) as [->|[x ->]]; [by eapply list_elem_of_lookup_2| |].
    + by apply ok_CSched.
    + by eapply ok_CSchedBind.
  - unfold sys_step, sys_ok. rewrite so_bind_st. cbn [get fst snd]. rewrite Hc. by eexists _, _.
Qed.

(** *** The thread of the executor *)

Lemma ok_set_executor st x e' s : inv_at st s -> stage_ref st = Some x -> stage_exec st e' ->
  sys_ok (run_st (set_executor x e')) s.
Proof. intros Hi Hx He. eexists _, _. split; [reflexivity|]. exists st. by apply inv_executor. Qed.

(** The pool changes and keeps its lists. *)
Lemma inv_pool st p s : inv_at st s -> rep p (idle_of st) (busy_of st) -> next_node p = next_node (pool_ s) ->
  inv_at st (set_pool p s).
Proof. intros [] Hr Hn. split; cbn; try done. by rewrite Hn. Qed.

(** The pool lets an idle executor go. *)
Lemma inv_leave x p e s : inv_at (SIdle x) s -> rep p [] [] -> next_node p = next_node (pool_ s) -> pc e = PcStopped ->
  inv_at SEmpty (set_executors (<[x := e]> (executors s)) (set_pool p s)).
Proof.
  intros Hi Hr Hn He. pose proof (ia_exec _ _ Hi x eq_refl) as (e0 & Hx & _). destruct Hi. split; cbn; try done.
  - intros y ey. rewrite lookup_insert_Some. intros [[_ <-]|[Hne Hy]]; [by right|].
    destruct (ia_others0 _ _ Hy) as [[=]|?]; [done|by right].
  - intros y. rewrite lookup_insert_is_Some', Hn. intros [<-|Hy]; [|auto]. apply ia_fresh0. by eexists.
Qed.

(** An idle executor, or one that waits to be bound, has nothing to do but to
    time out; the pool lets it go only when it is idle. *)
Lemma ok_parked st x e s : inv_at st s -> st = SIdle x \/ st = SBinding x -> executors s !! x = Some e ->
  sys_ok (thread_step x e) s.
Proof.
  intros Hi Hst He. assert (Hx : stage_ref st = Some x) by (by destruct Hst as [->| ->]).
  destruct (ia_exec _ _ Hi x Hx) as (e' & He' & Hse). assert (e' = e) as -> by congruence.
  assert (Hp : parked e) by (destruct Hst as [->| ->]; apply Hse).
  destruct Hp as (Hrun & Hw & Hpc).
  assert (Hwait : stage_exec st (mkExecutor (status e) (waits_ e) (bound_ e) PcWait)).
  { destruct Hst as [->| ->]; cbn in Hse |- *; [split; [|apply Hse]|]; (split; [done|split; [done|by left]]). }
  destruct e as [r w b c]. cbn in Hrun, Hw, Hpc. subst r w. unfold thread_step. cbn [pc status waits_ bound_].
  destruct Hpc as [->|[->| ->]]; unfold sys_ok; rewrite so_bind_st; cbn [get fst snd]; [by eexists _, _; split; [|exists st]..|].
  destruct (Pool_Release_spec x false _ _ _ (ia_pool _ _ Hi)) as (p & Er & Hr & _ & Hn).
  rewrite (so_bind_Done _ _ _ _ _ (on_pool_eq _ _ _ _ Er)). unfold spec_release in *. cbn [negb andb fst snd] in *.
  destruct (current_ (pool_ s) <=? min_ (pool_ s)); cbn [fst snd] in *; [|case_bool_decide as Hd].
  - apply (ok_set_executor st); [by apply inv_pool|done..].
  - destruct Hst as [->| ->]; [|inv Hd]. cbn [idle_of] in Hr. rewrite filter_cons_False in Hr by auto.
    eexists _, _. split; [reflexivity|]. exists SEmpty. exact (inv_leave x p (mkExecutor STOPPED None b PcStopped) s Hi Hr Hn eq_refl).
  - apply (ok_set_executor st); [|done..]. apply inv_pool; [done| |done].
    by rewrite (filter_absent x) in Hr.
Qed.

(** *** The thread of a scheduler that is bound *)

(** The scheduler, at the point [p] of its loop. *)
Definition serving (p : Pc) : Executor := mkExecutor RUNNING (Some Delay) (Some Delay) p.

Definition serve (x : DataRef) (p : Pc) (s : Sys) : Sys := set_executors (<[x := serving p]> (executors s)) s.

(** The closures that a task runs here. *)
Definition closures_of (t : Task) : list nat := match exec t with User f => [f] | _ => [] end.

Lemma bound_executor x s : inv_at (SBound x) s -> exists p, executors s !! x = Some (serving p) /\ serving_pc p.
Proof.
  intros Hi. destruct (ia_exec _ _ Hi x eq_refl) as ([r w b p] & He & Hr & Hw & Hb & Hp). cbn in *. subst. by exists p.
Qed.

Lemma set_delay_id s : set_delay (delayTasks_ s) s = s.
Proof. by destruct s. Qed.

Lemma queue_size_delay s : queue_size Delay s = Done (length (tasks_ (delayTasks_ s)), s).
Proof. unfold queue_size. rewrite on_delay_st. cbn. by rewrite set_delay_id. Qed.

(** What the steps of calls and threads leave alone but for the tasks. *)
Definition same_tasks (s s' : Sys) : Prop :=
  delayTasks_ s' = delayTasks_ s /\ log s' = log s /\ clock s' = clock s /\ poolStatus s' = poolStatus s.

(** One step of the thread, by where it is.  Only a scheduler that is asked
    whether it is idle can end to be one. *)
Lemma serve_step x p s : inv_at (SBound x) s -> serving_pc p ->
  let q := delayTasks_ s in
  let empty := bool_decide (tasks_ q = []) in
  match p with
  | PcWait => thread_step x (serving p) s = Done (tt, serve x PcLoop s)
  | PcLoop => thread_step x (serving p) s = Done (tt, serve x (if empty then PcIdle else PcPop) s)
  | PcPop => thread_step x (serving p) s =
      match Pop invalid_task (clock s) q with
      | (Waiting _, q') => Done (tt, set_delay q' s)
      | (Popped t, q') => Done (tt, serve x (PcExec t None) (set_delay q' s))
      end
  | PcExec t _ => thread_step x (serving p) s = Done (tt, serve x (PcFinish (taskId t)) (set_log (log s ++ closures_of t) s))
  | PcFinish id => thread_step x (serving p) s =
      Done (tt, serve x PcLoop (set_delay (snd (Finish NextTimer (clock s) id q)) s))
  | PcIdle =>
      if empty then exists s', thread_step x (serving p) s = Done (tt, s') /\ inv_at (SIdle x) s' /\ same_tasks s s'
      else thread_step x (serving p) s = Done (tt, serve x PcTimed s)
  | PcTimed => thread_step x (serving p) s = Done (tt, serve x PcWait s)
  | PcRelease | PcStopped => True
  end.
Proof.
  intros Hi Hp. cbv zeta. destruct p as [| | |t c|id| | | |]; try done.
  - unfold thread_step. rewrite so_bind_st. cbn [get fst snd pc serving status waits_].
    rewrite (so_bind_Done _ _ _ _ _ (queue_size_delay s)). by destruct (tasks_ _).
  - unfold thread_step. rewrite so_bind_st. cbn [get fst snd pc serving waits_].
    rewrite (so_bind_Done _ _ _ _ _ (on_delay_st _ _)). by destruct (Pop _ _ _) as [[] q'].
  - destruct Hp as [-> Ht]. unfold thread_step. rewrite so_bind_st. cbn [get fst snd pc serving waits_].
    unfold exec_task, closures_of. destruct (exec t) as [|f|] eqn:Et; [| |by destruct Ht as [?|[[? ?] _]]; congruence].
    + cbn. rewrite app_nil_r. by destruct s.
    + done.
  - unfold thread_step. rewrite so_bind_st. cbn [get fst snd pc serving waits_].
    by rewrite (so_bind_Done _ _ _ _ _ (on_delay_st _ _)).
  - assert (E0 : forall l, tasks_ (delayTasks_ s) = l -> idle_lambda x Delay s = if bool_decide (l = []) then
        (run_st (modify (set_scheduler None));; on_pool (Pool_Idle x);; mret (Some true)) s else Done (Some false, s)).
    { intros l El. unfold idle_lambda. rewrite so_bind_st. cbn [get fst snd]. rewrite (ia_mtx _ _ Hi).
      rewrite (so_bind_Done _ _ _ _ _ (queue_size_delay s)), El. by destruct l. }
    specialize (E0 _ eq_refl). case_bool_decide as Hb.
    2: { unfold thread_step. rewrite so_bind_st. cbn [get fst snd pc serving waits_ bound_]. by rewrite (so_bind_Done _ _ _ _ _ E0). }
    rewrite so_bind_st in E0. cbn [modify fst snd] in E0.
    destruct (Pool_Idle_spec x _ _ _ (ia_pool _ _ Hi)) as (p & E & Hr & _ & _ & _ & Hn).
    rewrite (so_bind_Done _ _ _ _ _ (on_pool_eq _ (set_scheduler None s) _ _ E)) in E0.
    unfold thread_step. rewrite so_bind_st. cbn [get fst snd pc serving waits_ bound_]. rewrite (so_bind_Done _ _ _ _ _ E0).
    eexists. split; [reflexivity|]. split; [|done]. unfold spec_idle in Hr. cbn [idle_of busy_of] in Hr.
    rewrite decide_True in Hr by left. rewrite filter_cons_False in Hr by auto. cbn in Hr.
    destruct Hi. split; cbn; try done.
    + intros y [= <-]. eexists. rewrite lookup_insert_eq. split; [done|]. split; [|done]. split; [done|]. split; [done|]. by right; left.
    + intros y ey. rewrite lookup_insert_Some. intros [[<- _]|[_ Hy]]; [by left|by eapply ia_others0].
    + intros y. rewrite lookup_insert_is_Some', Hn. intros [<-|Hy]; [|auto]. apply ia_fresh0.
      destruct (ia_exec0 x eq_refl) as (e & He & _). by eexists.
Qed.

Lemma inv_serve x p s : inv_at (SBound x) s -> serving_pc p -> inv_at (SBound x) (serve x p s).
Proof. intros Hi Hp. by apply inv_executor. Qed.

Lemma inv_bound_queue x q s : inv_at (SBound x) s -> pq_inv q -> pq_all user_task q -> inv_at (SBound x) (set_delay q s).
Proof. intros Hi Hq Ha. apply inv_delay; [done..|]. intros _. right. left. by rewrite (ia_sched _ _ Hi). Qed.

(** What a serving scheduler leaves in the queue when it takes a task or ends
    one. *)
Lemma Pop_serving now s st : inv_at st s -> let '(r, q') := Pop invalid_task now (delayTasks_ s) in
  pq_inv q' /\ pq_all user_task q' /\ match r with Popped t => exec t = NoOp \/ user_task t | Waiting _ => q' = delayTasks_ s end.
Proof.
  intros Hi. destruct (pq_ok_Pop invalid_task now _ (ia_queue _ _ Hi)) as (r & q' & E & Hq).
  pose proof (pq_all_Pop invalid_task user_task now _ (ia_tasks _ _ Hi)) as Ha. unfold run_st in E. injection E as E.
  rewrite E in *. destruct Ha as [Ha Hp]. split; [done|]. split; [done|]. revert E Hp. unfold Pop.
  destruct (tasks_ _); [by intros [= <- <-] _; left|]. case_match; intros [= <- <-] Hp; [done|right; by apply Hp].
Qed.

Lemma Finish_serving now id s st : inv_at st s ->
  let q' := snd (Finish NextTimer now id (delayTasks_ s)) in pq_inv q' /\ pq_all user_task q'.
Proof.
  intros Hi. cbv zeta. split.
  - destruct (pq_ok_Finish (Tsk := Task) NextTimer now id _ (ia_queue _ _ Hi)) as (r & q' & E & Hq). unfold run_st in E. injection E as E.
    by rewrite E.
  - apply pq_all_Finish; [|apply (ia_tasks _ _ Hi)]. intros t [Hf Hn]. unfold NextTimer.
    case_match; [done|]. cbn [times exec interval]. case_match; by split.
Qed.

Lemma ok_serving x p s : inv_at (SBound x) s -> serving_pc p -> sys_ok (thread_step x (serving p)) s.
Proof.
  intros Hi Hp. pose proof (serve_step x p s Hi Hp) as Hs. cbv zeta in Hs. unfold sys_ok.
  destruct p as [| | |t c|id| | | |]; try (rewrite Hs; eexists _, _; split; [reflexivity|]).
  - exists (SBound x). by apply inv_serve.
  - exists (SBound x). apply inv_serve; [done|]. by case_match.
  - rewrite Hs. pose proof (Pop_serving (clock s) s _ Hi) as Hpop.
    destruct (Pop _ _ _) as [[t|u] q']; destruct Hpop as (Hq & Ha & Ht); eexists _, _; (split; [reflexivity|]); exists (SBound x);
      [apply inv_serve; [by apply inv_bound_queue|by split]|by apply inv_bound_queue].
  - exists (SBound x). apply inv_serve; [|done]. by apply (inv_quiet _ s).
  - exists (SBound x). apply inv_serve; [|done]. by apply inv_bound_queue; destruct (Finish_serving (clock s) id s _ Hi).
  - destruct (bool_decide _); [destruct Hs as (s' & -> & Hi' & _); by eexists _, _; split; [|eexists]|].
    rewrite Hs. eexists _, _. split; [done|]. exists (SBound x). by apply inv_serve.
  - exists (SBound x). by apply inv_serve.
  - done.
  - done.
Qed.

Lemma ok_thread y s : sys_inv s -> sys_ok (sys_step (AThread y)) s.
Proof.
  intros [st Hi]. unfold sys_step, sys_ok. rewrite so_bind_st. cbn [get fst snd].
  destruct (executors s !! y) as [e|] eqn:He; [|by eexists _, _; split; [|exists st]].
  destruct (ia_others _ _ Hi _ _ He) as [Hst|Hp].
  - destruct st as [|x|x|x]; [done|..]; injection Hst as ->; [eapply ok_parked; eauto..|].
    destruct (bound_executor _ _ Hi) as (p & Ep & Hp). assert (e = serving p) as -> by congruence. by apply ok_serving.
  - unfold thread_step. rewrite so_bind_st, Hp. by eexists _, _; split; [|exists st].
Qed.

Lemma ok_timeout y s : sys_inv s -> sys_ok (sys_step (ATimeout y)) s.
Proof.
  intros [st Hi]. unfold sys_step, sys_ok. rewrite so_bind_st. cbn [get fst snd].
  destruct (executors s !! y) as [e|] eqn:He; [|by eexists _, _; split; [|exists st]].
  unfold run_st, thread_timeout. destruct (pc e) eqn:Hp; try by eexists _, _; split; [|exists st].
  destruct (waits_ e) eqn:Hw; [by eexists _, _; split; [|exists st]|].
  destruct (ia_others _ _ Hi _ _ He) as [Hst|?]; [|congruence].
  destruct (ia_exec _ _ Hi _ Hst) as (e' & He' & Hse). assert (e' = e) as -> by congruence.
  apply (ok_set_executor st); [done..|].
  destruct st as [|x|x|x]; cbn in *; [done|destruct Hse as [[Hs _] Hb]|destruct Hse as [Hs _]|destruct Hse as (_ & ? & _); congruence].
  - by split; [split_and!; auto|].
  - by split_and!; auto.
Qed.

Lemma ok_step a s : sane a -> sys_inv s -> sys_ok (sys_step a) s.
Proof.
  intros Ha Hi. assert (Hcall : forall A (m : SO Sys A), sys_ok m s -> sys_ok (_ ← m; mret tt) s).
  { intros A m (r & s' & E & Hi'). unfold sys_ok. rewrite (so_bind_Done _ _ _ _ _ E). by eexists _, _. }
  destruct a; [..|by apply ok_call|by apply ok_thread|by apply ok_timeout|];
    unfold sys_step, sys_ok; rewrite so_bind_st; cbn [get fst snd].
  - by apply Hcall, ok_Execute.
  - by apply Hcall, ok_Schedule.
  - by apply Hcall, ok_Remove.
  - by apply Hcall, ok_Reset.
  - eexists _, _. split; [reflexivity|]. destruct Hi as [st Hi]. exists st. by apply (inv_quiet _ s).
Qed.

Lemma ok_run as_ s : Forall sane as_ -> sys_inv s -> sys_ok (sys_run as_) s.
Proof.
  intros Hs. revert s. induction Hs as [|a as_ Ha _ IH]; intros s Hi; [by eexists _, _|].
  destruct (ok_step a s Ha Hi) as ([] & s1 & E & Hi1). unfold sys_ok. cbn [sys_run].
  rewrite (so_bind_Done _ _ _ _ _ E). by apply IH.
Qed.

(** *** A task that is due *)

#[export] Instance Action_eq_dec : EqDecision Action.
Proof. solve_decision. Defined.

(** The application neither takes tasks back nor moves them, and schedules
    none in the past. *)
Definition additive (a : Action) : Prop :=
  match a with
  | ASchedule _ delay interval _ => 0 <= delay /\ 0 <= interval
  | ARemove _ _ | AReset _ _ => False
  | _ => True
  end.

Lemma additive_sane a : additive a -> sane a.
Proof. destruct a; cbn; tauto. Qed.

(** A task that runs [f] is queued behind [j] others, and all of them are due. *)
Definition due_at (j : nat) (f : nat) (s : Sys) : Prop :=
  exists l e r, tasks_ (delayTasks_ s) = l ++ e :: r /\ length l = j /\ Forall (fun x => e_time x <= clock s) (l ++ [e]) /\
    exec (task_ (e_matrix e)) = User f.

(** The first task of the queue is due, and runs [f]. *)
Definition due_first (f : nat) (s : Sys) : Prop :=
  exists e l, tasks_ (delayTasks_ s) = e :: l /\ e_time e <= clock s /\ exec (task_ (e_matrix e)) = User f.

Lemma due_first_at f s : due_first f s -> due_at 0 f s.
Proof. intros (e & l & Eq & Ht & Hf). exists [], e, l. split; [exact Eq|]. by repeat constructor. Qed.

(** How many steps of its thread the scheduler is away from running the first
    task. *)
Definition pc_rank (p : Pc) : nat :=
  match p with
  | PcPop => 2 | PcLoop => 3 | PcWait | PcFinish _ => 4 | PcTimed | PcExec _ _ => 5 | _ => 6
  end.

(** Whether a task was taken earlier and has yet to run. *)
Definition pc_running (p : Pc) : nat := match p with PcExec _ _ => 1 | _ => 0 end.

(** The scheduler is on its way to [f], and in at most [k] steps runs it after
    what [L] and at most [n] more closures. *)
Definition on_the_way (x : DataRef) (f : nat) (L : list nat) (n k : nat) (s : Sys) : Prop :=
  inv_at (SBound x) s /\ exists p l, executors s !! x = Some (serving p) /\ log s = L ++ l /\ serving_pc p /\
    ((exists j, due_at j f s /\ (6 * j + pc_rank p <= k)%nat /\ (length l + pc_running p + j <= n)%nat) \/
     (exists t, p = PcExec t None /\ exec t = User f) /\ (1 <= k)%nat /\ (length l <= n)%nat).

(** A new entry goes behind those that are due earlier. *)
Lemma insert_entry_behind (e : @Entry Task) l r : Forall (fun x => e_time x <= e_time e) l ->
  insert_entry e (l ++ r) = l ++ insert_entry e r.
Proof. induction 1 as [|x l Hx _ IH]; [done|]. cbn. by rewrite (proj2 (Z.leb_le _ _) Hx), IH. Qed.

Lemma due_insert j f s q (e : Entry) : due_at j f s -> clock s <= e_time e ->
  tasks_ q = insert_entry e (tasks_ (delayTasks_ s)) -> due_at j f (set_delay q s).
Proof.
  intros (l & e0 & r & Eq & Hl & Hd & Hf) Ht Eq'. unfold due_at. cbn [delayTasks_ set_delay clock]. rewrite Eq', Eq.
  exists l, e0, (insert_entry e r). split; [|done].
  replace (l ++ e0 :: r) with ((l ++ [e0]) ++ r) by by rewrite <- app_assoc.
  rewrite insert_entry_behind; [by rewrite <- app_assoc|]. eapply Forall_impl; [exact Hd|]. intros x Hx; cbn in *; lia.
Qed.

Lemma due_Finish j f id s st : inv_at st s -> due_at j f s ->
  due_at j f (set_delay (snd (Finish NextTimer (clock s) id (delayTasks_ s))) s).
Proof.
  intros Hi Hdue. unfold Finish, mbind, st_bind, get, mret, st_ret.
  destruct (running_ (delayTasks_ s) !! id) as [it|] eqn:Ei; [|by destruct s].
  destruct (proj2 (ia_tasks _ _ Hi) _ _ Ei) as [_ Hint]. unfold NextTimer.
  destruct (_ =? _); [exact Hdue|]. cbn [times]. destruct (0 <? _); [|exact Hdue].
  eapply due_insert; [exact Hdue| |reflexivity]. cbn. lia.
Qed.

(** Each step of the thread brings the task nearer. *)
Lemma on_the_way_thread x f L n k s : on_the_way x f L n k s ->
  exists s', sys_step (AThread x) s = Done (tt, s') /\
    ((exists k', k = S k' /\ on_the_way x f L n k' s') \/
     exists l, log s' = L ++ l ++ [f] /\ log s = L ++ l /\ (length l <= n)%nat).
Proof.
  intros (Hi & p & l & Hx & Hlog & Hp & Hcase). unfold sys_step. rewrite so_bind_st. cbn [get fst snd]. rewrite Hx.
  pose proof (serve_step x p s Hi Hp) as Hs. cbv zeta in Hs.
  assert (Hat : forall p' s1 l1 k', k = S k' -> inv_at (SBound x) s1 -> log s1 = L ++ l1 -> serving_pc p' ->
    (exists j, due_at j f s1 /\ (6 * j + pc_rank p' <= k')%nat /\ (length l1 + pc_running p' + j <= n)%nat) \/
    (exists t, p' = PcExec t None /\ exec t = User f) /\ (1 <= k')%nat /\ (length l1 <= n)%nat ->
    exists k', k = S k' /\ on_the_way x f L n k' (serve x p' s1)).
  { intros p' s1 l1 k' -> Hi1 Hl1 Hp' Hc. exists k'. split; [done|]. split; [by apply inv_serve|].
    exists p', l1. split; [apply lookup_insert_eq|]. done. }
  destruct Hcase as [(j & Hdue & Hk & Hl)|[(t & -> & Ht) [Hk Hl]]].
  2: { rewrite Hs. eexists. split; [reflexivity|]. right. exists l. split; [|done]. cbn. unfold closures_of.
       by rewrite Ht, Hlog, app_assoc. }
  pose proof Hdue as (l0 & e & rest & Eq & Hlen & Hd & Hf).
  assert (Hne : bool_decide (tasks_ (delayTasks_ s) = []) = false).
  { rewrite Eq. apply bool_decide_eq_false_2. by destruct l0. }
  rewrite Hne in Hs. destruct k as [|k]; [destruct p; cbn in Hk; lia|].
  assert (Hstay : forall p' s1 l1, inv_at (SBound x) s1 -> log s1 = L ++ l1 -> serving_pc p' -> due_at j f s1 ->
    (pc_rank p' < pc_rank p)%nat -> (length l1 + pc_running p' <= length l + pc_running p)%nat ->
    exists k', S k = S k' /\ on_the_way x f L n k' (serve x p' s1)).
  { intros p' s1 l1 Hi1 Hl1 Hp' Hdue1 Hr Hn. apply (Hat p' s1 l1 k); [done..|]. left. exists j. split_and!; [done|lia|lia]. }
  destruct p as [| | |t c|id| | | |]; cbn [pc_rank pc_running] in *; try done;
    try (rewrite Hs; eexists; split; [reflexivity|]; left; eapply Hstay; [done..|cbn; lia|cbn; lia]).
  - rewrite Hs. pose proof (Pop_serving (clock s) s _ Hi) as Hpop. unfold Pop in *. rewrite Eq in *.
    destruct l0 as [|e0 l0]; cbn [app] in *; apply Forall_cons in Hd as [Hd0 Hd];
      rewrite (proj2 (Z.ltb_ge _ _) Hd0) in *; destruct Hpop as (Hq & Ha & Hut); eexists; (split; [reflexivity|]); left;
      (eapply Hat; [done|by apply inv_bound_queue|done|by split|]).
    + right. split; [by eexists|]. cbn in Hlen. split; lia.
    + left. exists (length l0). cbn in Hlen. split; [|cbn; lia]. by exists l0, e, rest.
  - rewrite Hs. eexists. split; [reflexivity|]. left. eapply Hstay; [by apply (inv_quiet _ s)| |done|done|cbn; lia|].
    { cbn. by rewrite Hlog, <- app_assoc. }
    rewrite length_app. assert (length (closures_of t) <= 1)%nat by (unfold closures_of; by case_match; cbn; lia). cbn; lia.
  - rewrite Hs. eexists. split; [reflexivity|]. left. destruct (Finish_serving (clock s) id s _ Hi) as [Hq Ha].
    eapply Hstay; [by apply inv_bound_queue|done|done|by eapply due_Finish|cbn; lia|cbn; lia].
Qed.

(** A step that leaves the scheduler alone, and the tasks that are due where
    they are. *)
Definition frame (f : nat) (s s' : Sys) : Prop :=
  scheduler_ s' = scheduler_ s /\ mtx_ s' = mtx_ s /\ executors s' = executors s /\ log s' = log s /\
  (forall j, due_at j f s -> due_at j f s').

Lemma frame_refl f s : frame f s s.
Proof. done. Qed.

Lemma frame_Schedule f g delay interval times s id s' : 0 <= delay -> execs_ s = None ->
  Schedule_inner g delay interval times s = Done (id, s') -> frame f s s'.
Proof.
  intros Hd He. rewrite Schedule_inner_eq by done. intros [= _ <-]. split_and!; [done..|].
  intros j Hdue. set (t := mkInnerTask _ _ _ _). set (i := (GenTaskId _).1). destruct (Task_Valid t) eqn:Hv.
  - eapply (due_insert j f s _ (mkEntry _ (clock s + delay) _)); [exact Hdue|cbn; lia|]. by rewrite PQ_Push_valid.
  - unfold PQ_Push. by rewrite Hv.
Qed.

Lemma frame_Execute f g s id s' : execs_ s = None -> Execute g s = Done (id, s') -> frame f s s'.
Proof.
  intros He. unfold Execute. rewrite so_bind_st. cbn [get fst snd]. destruct (negb _); [by intros [= _ <-]|].
  rewrite He. by apply frame_Schedule.
Qed.

Lemma frame_call f x i s s' : inv_at (SBound x) s -> sys_step (ACall i) s = Done (tt, s') -> frame f s s'.
Proof.
  intros Hi. unfold sys_step. rewrite so_bind_st. cbn [get fst snd].
  destruct (calls s !! i) as [c|] eqn:Hc; [|by intros [= <-]].
  assert (c = CSched) as ->.
  { destruct (ia_calls _ _ Hi c) as [->|[y ->]]; [by eapply list_elem_of_lookup_2|done|].
    destruct (calls_split _ _ _ Hc) as (l1 & l2 & Hcalls & _). pose proof (ia_bind _ _ Hi) as Hb. rewrite Hcalls in Hb.
    by apply filter_bind_some in Hb. }
  unfold flight_step. unfold mbind at 1, so_bind at 1. rewrite so_bind_st. cbn [get fst snd].
  rewrite (ia_mtx _ _ Hi), (ia_sched _ _ Hi). cbn -[delete]. by intros [= <-].
Qed.

Lemma frame_timeout f x y s s' : inv_at (SBound x) s -> sys_step (ATimeout y) s = Done (tt, s') -> frame f s s'.
Proof.
  intros Hi. unfold sys_step. rewrite so_bind_st. cbn [get fst snd].
  destruct (executors s !! y) as [e|] eqn:He; [|by intros [= <-]]. unfold run_st, thread_timeout.
  destruct (ia_others _ _ Hi _ _ He) as [[= ->]| ->]; [|by intros [= <-]].
  destruct (bound_executor _ _ Hi) as (p & Ep & Hp). assert (e = serving p) as -> by congruence. cbn. by destruct p; intros [= <-].
Qed.

Lemma frame_thread f x y s s' : inv_at (SBound x) s -> y <> x -> sys_step (AThread y) s = Done (tt, s') -> frame f s s'.
Proof.
  intros Hi Hy. unfold sys_step. rewrite so_bind_st. cbn [get fst snd].
  destruct (executors s !! y) as [e|] eqn:He; [|by intros [= <-]].
  destruct (ia_others _ _ Hi _ _ He) as [[= ->]|Hp]; [done|]. unfold thread_step. rewrite so_bind_st, Hp. by intros [= <-].
Qed.

Lemma frame_step f x a s s' : inv_at (SBound x) s -> additive a -> a <> AThread x ->
  sys_step a s = Done (tt, s') -> frame f s s'.
Proof.
  intros Hi Ha Hne. assert (Hcall : forall (m : SO Sys Z), (forall r s1, m s = Done (r, s1) -> frame f s s1) ->
    (_ ← m; mret tt) s = Done (tt, s') -> frame f s s').
  { intros m Hm. unfold mbind, so_bind. destruct (m s) as [[r s1]| | |] eqn:E; [|done..]. intros [= <-]. by eapply Hm. }
  pose proof (ia_execs _ _ Hi) as He.
  destruct a; try done; [..|by eapply frame_call|eapply frame_thread; [done|congruence]|by eapply frame_timeout|];
    unfold sys_step; rewrite so_bind_st; cbn [get fst snd].
  - apply Hcall. intros r s1. by apply frame_Execute.
  - apply Hcall. intros r s1. by apply frame_Schedule; [apply Ha|].
  - intros [= <-]. split_and!; [done..|]. intros j (l & e & r & Eq & Hl & Ht & Hf). exists l, e, r.
    split; [done|]. split; [done|]. split; [|done]. eapply Forall_impl; [exact Ht|]. intros y Hy; cbn in *; lia.
Qed.

Lemma on_the_way_stay x f L n k a s : on_the_way x f L n k s -> additive a -> a <> AThread x ->
  exists s', sys_step a s = Done (tt, s') /\ on_the_way x f L n k s' /\ log s' = log s.
Proof.
  intros (Hi & p & l & Hx & Hlog & Hp & Hcase) Ha Hne.
  destruct (ok_step a s (additive_sane _ Ha)) as ([] & s' & E & [st Hi']); [by exists (SBound x)|].
  exists s'. split; [done|]. destruct (frame_step f x a s s' Hi Ha Hne E) as (Hsch & Hm & Hex & Hl & Hdue).
  assert (st = SBound x) as ->.
  { pose proof (ia_sched _ _ Hi') as H1. pose proof (ia_mtx _ _ Hi') as H2.
    rewrite Hsch, (ia_sched _ _ Hi) in H1. rewrite Hm, (ia_mtx _ _ Hi) in H2. destruct st; cbn in *; congruence. }
  split; [|done]. split; [done|]. exists p, l. rewrite Hex, Hl. split; [done|]. split; [done|]. split; [done|].
  destruct Hcase as [(j & Hd & Hk)|H2]; [left; exists j|right]; auto.
Qed.

(** How often the thread takes a step. *)
Definition steps_of (x : DataRef) (as_ : list Action) : nat := length (filter (fun a => a = AThread x) as_).

Lemma on_the_way_pos x f L n k s : on_the_way x f L n k s -> (1 <= k)%nat.
Proof. intros (_ & p & l & _ & _ & _ & [(j & _ & Hk & _)|(_ & Hk & _)]); [|done]. destruct p; cbn in Hk; lia. Qed.

Lemma on_the_way_run x f L n k bs s : on_the_way x f L n k s -> Forall additive bs -> (k <= steps_of x bs)%nat ->
  exists bs1 bs2 s' l, bs = bs1 ++ bs2 /\ sys_run bs1 s = Done (tt, s') /\ log s' = L ++ l ++ [f] /\ (length l <= n)%nat.
Proof.
  intros Hw Hb. revert k s Hw. induction Hb as [|a bs Ha Hb IH]; intros k s Hw Hk.
  { apply on_the_way_pos in Hw. cbn in Hk. lia. }
  unfold steps_of in Hk. rewrite filter_cons in Hk.
  assert (Hgo : forall s1, sys_step a s = Done (tt, s1) -> (exists bs1 bs2 s' l, bs = bs1 ++ bs2 /\ sys_run bs1 s1 = Done (tt, s') /\
      log s' = L ++ l ++ [f] /\ (length l <= n)%nat) ->
    exists bs1 bs2 s' l, a :: bs = bs1 ++ bs2 /\ sys_run bs1 s = Done (tt, s') /\ log s' = L ++ l ++ [f] /\ (length l <= n)%nat).
  { intros s1 E (bs1 & bs2 & s' & l & -> & E2 & Hl). exists (a :: bs1), bs2, s', l. split; [done|]. split; [|done].
    cbn [sys_run]. by rewrite (so_bind_Done _ _ _ _ _ E). }
  case_decide as Hax.
  - subst a. destruct (on_the_way_thread x f L n k s Hw) as (s1 & E & [(k' & -> & Hw1)|(l & Hl & _ & Hlen)]).
    + apply (Hgo s1 E), (IH k' s1 Hw1). cbn [length] in Hk. unfold steps_of. lia.
    + apply (Hgo s1 E). by exists [], bs, s1, l.
  - destruct (on_the_way_stay x f L n k a s Hw Ha Hax) as (s1 & E & Hw1 & _). by apply (Hgo s1 E), (IH k s1 Hw1 Hk).
Qed.

(** A due task of a pool without calls in flight has a scheduler on its way. *)
Lemma due_on_the_way j f s : sys_inv s -> calls s = [] -> due_at j f s ->
  exists x, scheduler_ s = Some x /\ on_the_way x f (log s) (S j) (6 * S j) s.
Proof.
  intros [st Hi] Hcalls Hdue. pose proof Hdue as (l & e & r & Eq & _).
  destruct (ia_wake _ _ Hi) as [Hsch|Hin]; [by rewrite Eq; destruct l| |rewrite Hcalls in Hin; inv Hin].
  pose proof (ia_bind _ _ Hi) as Hb. rewrite Hcalls in Hb. pose proof (ia_sched _ _ Hi) as Hsc.
  destruct st as [| |x|x]; cbn in Hsc; [by destruct Hsch|by destruct Hsch|done|]. exists x. split; [done|].
  split; [done|]. destruct (bound_executor _ _ Hi) as (p & Ep & Hp). exists p, []. split; [done|].
  split; [by rewrite app_nil_r|]. split; [done|]. left. exists j. split; [done|]. by destruct p; cbn; lia.
Qed.

(** ** Properties *)

(** C31: a pool of at most one executor loses no wake-up. From the new pool,
    whatever the application executes, schedules, removes and resets (with no
    negative interval), and however the calls, the threads, their time-outs and
    the clock interleave, every step is defined as long as the pool is not being
    destroyed; at most one thread is alive, so that tasks run one at a time; and
    whenever a task is queued and no call is still in flight, a scheduler is
    bound to the queue, is running and will look at the queue again before it
    may end. *)
Theorem delayed_task_has_scheduler (max min : Z) (as_ : list Action) (Hmax : max <= 1) (Hs : Forall sane as_) :
  exists s, sys_run as_ (ExecutorPool_new max min) = Done (tt, s) /\
    (forall x y e1 e2, executors s !! x = Some e1 -> executors s !! y = Some e2 ->
       pc e1 <> PcStopped -> pc e2 <> PcStopped -> x = y) /\
    (tasks_ (delayTasks_ s) <> [] -> calls s = [] -> exists x e,
       scheduler_ s = Some x /\ executors s !! x = Some e /\ status e = RUNNING /\ waits_ e = Some Delay /\
       pc e <> PcRelease /\ pc e <> PcStopped).
Proof.
  destruct (ok_run as_ _ Hs (sys_inv_new max min Hmax)) as ([] & s & E & [st Hi]). exists s. split; [done|]. split.
  - intros x y e1 e2 H1 H2 P1 P2.
    destruct (ia_others _ _ Hi _ _ H1) as [Hx|?]; [|done]. destruct (ia_others _ _ Hi _ _ H2) as [Hy|?]; [|done]. congruence.
  - intros Hq Hc. destruct (ia_wake _ _ Hi Hq) as [Hsch|Hin]; [|rewrite Hc in Hin; inv Hin].
    pose proof (ia_bind _ _ Hi) as Hb. rewrite Hc in Hb. pose proof (ia_sched _ _ Hi) as Hsc.
    destruct st as [| |x|x]; cbn in Hsc; [by destruct Hsch|by destruct Hsch|done|].
    destruct (bound_executor _ _ Hi) as (p & Ep & Hp). exists x, (serving p). split_and!; try done; by destruct p.
Qed.

(** A task that is due is run: when the first task of the queue is due in
    a state the pool of at most one executor reaches, and no call is in
    flight, there is a scheduler whose thread runs the task's closure by its
    sixth step at the latest, after at most one other closure, whatever the
    application schedules and the other threads do meanwhile. *)
Theorem due_task_runs (max min : Z) (as_ bs : list Action) (s : Sys) (f : nat)
    (Hmax : max <= 1) (Hs : Forall sane as_) (Hrun : sys_run as_ (ExecutorPool_new max min) = Done (tt, s))
    (Hcalls : calls s = []) (Hdue : due_first f s) :
  exists x, scheduler_ s = Some x /\ (Forall additive bs -> (6 <= steps_of x bs)%nat ->
    exists bs1 bs2 s' l, bs = bs1 ++ bs2 /\ sys_run bs1 s = Done (tt, s') /\
      log s' = log s ++ l ++ [f] /\ (length l <= 1)%nat).
Proof.
  destruct (ok_run as_ _ Hs (sys_inv_new max min Hmax)) as ([] & s1 & E & Hi). assert (s1 = s) as -> by congruence.
  destruct (due_on_the_way 0 f s Hi Hcalls (due_first_at _ _ Hdue)) as (x & Hx & Hw). exists x. split; [done|].
  intros Hbs Hk. eapply on_the_way_run; [exact Hw|done|lia].
Qed.

(** C13: No task waits for ever: in a state the pool of at most one executor
    reaches, with no call in flight, a task that is queued behind [j] others,
    all of them due, is run by its scheduler's step number [6 * (j + 1)] at the
    latest and after at most [j + 1] other closures, whatever the application
    schedules and the other threads do meanwhile. *)
Theorem queued_task_runs (max min : Z) (as_ bs : list Action) (s : Sys) (f j : nat)
    (Hmax : max <= 1) (Hs : Forall sane as_) (Hrun : sys_run as_ (ExecutorPool_new max min) = Done (tt, s))
    (Hcalls : calls s = []) (Hdue : due_at j f s) :
  exists x, scheduler_ s = Some x /\ (Forall additive bs -> (6 * S j <= steps_of x bs)%nat ->
    exists bs1 bs2 s' l, bs = bs1 ++ bs2 /\ sys_run bs1 s = Done (tt, s') /\
      log s' = log s ++ l ++ [f] /\ (length l <= S j)%nat).
Proof.
  destruct (ok_run as_ _ Hs (sys_inv_new max min Hmax)) as ([] & s1 & E & Hi). assert (s1 = s) as -> by congruence.
  destruct (due_on_the_way j f s Hi Hcalls Hdue) as (x & Hx & Hw). exists x. split; [done|].
  intros Hbs Hk. by eapply on_the_way_run.
Qed.

(** The application keeps out. *)
Definition internal (a : Action) : Prop :=
  match a with ACall _ | AThread _ | ATimeout _ | ATick _ => True | _ => False end.

(** A pool of two executors: both have found the queue empty when a third task
    is queued, for which there is no executor left. *)
Definition stranding : list Action :=
  [AExecute 1; ACall 0; ACall 0; AExecute 2; ACall 0; ACall 0] ++
  replicate 3 (AThread 1) ++ replicate 3 (AThread 2) ++
  replicate 3 (AThread 1) ++ replicate 3 (AThread 2) ++
  [AExecute 3; ACall 0; AThread 1; AThread 2; ATimeout 1; ATimeout 2; AThread 1; AThread 2].

Definition stranded_sys : Sys :=
  match sys_run stranding (ExecutorPool_new 2 0) with Done (_, s) => s | _ => ExecutorPool_new 2 0 end.

Lemma nothing_runs bs s : (forall x e, executors s !! x = Some e -> pc e = PcStopped) -> calls s = [] ->
  Forall internal bs -> exists s', sys_run bs s = Done (tt, s') /\ log s' = log s.
Proof.
  intros Hx Hc Hb. revert s Hx Hc. induction Hb as [|a bs Ha Hb IH]; intros s Hx Hc; [by exists s|].
  assert (Hstep : exists s', sys_step a s = Done (tt, s') /\ log s' = log s /\ executors s' = executors s /\ calls s' = []).
  { unfold sys_step. rewrite so_bind_st. cbn [get fst snd]. destruct a; try done.
    - rewrite Hc. by exists s.
    - destruct (executors s !! x) as [e|] eqn:He; [|by exists s]. unfold thread_step. rewrite so_bind_st, (Hx _ _ He). by exists s.
    - destruct (executors s !! x) as [e|] eqn:He; [|by exists s]. unfold run_st, thread_timeout. rewrite (Hx _ _ He). by exists s.
    - by eexists. }
  destruct Hstep as (s1 & E & Hl & He & Hc1). cbn [sys_run]. rewrite (so_bind_Done _ _ _ _ _ E), <- Hl.
  apply IH; [|done]. by rewrite He.
Qed.

(** With more than one executor a wake-up can be lost.  [Execute] queues
    its task and then asks the pool for an executor; when all of them are busy
    it relies on one of them to see the task, but an executor that has already
    found the queue empty does not look again before it becomes idle.  The
    task then stays queued, both threads end, and nothing but another call
    makes it run. *)
Theorem Execute_can_strand_task :
  exists s q e, sys_run stranding (ExecutorPool_new 2 0) = Done (tt, s) /\ log s = [1; 2]%nat /\
    execs_ s = Some q /\ tasks_ q = [e] /\ exec (task_ (e_matrix e)) = User 3 /\
    forall bs, Forall internal bs -> exists s', sys_run bs s = Done (tt, s') /\ log s' = [1; 2]%nat.
Proof.
  exists stranded_sys.
  assert (H : (log stranded_sys, tasks_ <$> execs_ stranded_sys, calls stranded_sys, pc <$> executors stranded_sys) =
    ([1; 2]%nat, Some [mkEntry 3 0 (mkPQMatrix (mkInnerTask (User 3) 0 UNLIMITED_TIMES 3) 3)], [],
     {[1%positive := PcStopped; 2%positive := PcStopped]})) by (vm_compute; reflexivity).
  assert (E : sys_run stranding (ExecutorPool_new 2 0) = Done (tt, stranded_sys)) by (vm_compute; reflexivity).
  revert H E. generalize stranded_sys. intros s H E.
  injection H as Hl Hq Hc Hp. destruct (execs_ s) as [q|]; [|discriminate Hq]. injection Hq as Hq. eexists q, _.
  split; [exact E|]. clear E. split; [done|]. split; [done|]. split; [exact Hq|]. split; [done|]. intros bs Hb. rewrite <- Hl.
  apply nothing_runs; [|done|done]. intros x e Hx.
  assert (Hf : (pc <$> executors s) !! x = Some (pc e)) by (by rewrite lookup_fmap, Hx).
  rewrite Hp, lookup_insert_Some, lookup_singleton_Some in Hf. naive_solver.
Qed.

(** A task that was scheduled to run at once. *)
Definition w_actions : list Action := [ASchedule 7 0 0 1; ACall 0; ACall 0].
Definition w_sys : Sys :=
  match sys_run w_actions (ExecutorPool_new 1 0) with Done (_, s) => s | _ => ExecutorPool_new 1 0 end.

Example delayed_task_has_scheduler_witness :
  Forall sane w_actions /\ exists s, sys_run w_actions (ExecutorPool_new 1 0) = Done (tt, s).
Proof.
  assert (Hs : Forall sane w_actions) by (repeat constructor; cbn; lia). split; [done|].
  destruct (delayed_task_has_scheduler 1 0 w_actions ltac:(lia) Hs) as (s & E & _). by exists s.
Defined.

(** Two closures that are to run at once: the second is run after the first. *)
Definition w_two : list Action := [AExecute 7; AExecute 8; ACall 0; ACall 0; ACall 0].
Definition w_two_sys : Sys :=
  match sys_run w_two (ExecutorPool_new 1 0) with Done (_, s) => s | _ => ExecutorPool_new 1 0 end.

Example queued_task_runs_witness :
  exists x, scheduler_ w_two_sys = Some x /\ (Forall additive (replicate 12 (AThread 1)) ->
    (6 * 2 <= steps_of x (replicate 12 (AThread 1)))%nat ->
    exists bs1 bs2 s' l, replicate 12 (AThread 1) = bs1 ++ bs2 /\ sys_run bs1 w_two_sys = Done (tt, s') /\
      log s' = log w_two_sys ++ l ++ [8%nat] /\ (length l <= 2)%nat).
Proof.
  apply (queued_task_runs 1 0 w_two (replicate 12 (AThread 1)) w_two_sys 8 1); [lia|repeat constructor; cbn; lia|by vm_compute|by vm_compute|].
  eexists [_], _, _. split; [by vm_compute|]. split; [done|]. split; [by vm_compute; repeat constructor|done].
Defined.

Example due_task_runs_witness :
  exists x, scheduler_ w_sys = Some x /\ (Forall additive (replicate 6 (AThread 1)) ->
    (6 <= steps_of x (replicate 6 (AThread 1)))%nat ->
    exists bs1 bs2 s' l, replicate 6 (AThread 1) = bs1 ++ bs2 /\ sys_run bs1 w_sys = Done (tt, s') /\
      log s' = log w_sys ++ l ++ [7%nat] /\ (length l <= 1)%nat).
Proof.
  apply (due_task_runs 1 0 w_actions); [lia|repeat constructor; cbn; lia|by vm_compute|by vm_compute|].
  eexists _, _. split; [by vm_compute|]. split; [by vm_compute|done].
Defined.
