(* ===== verification/ExecutorPoolStop.v ===== *)
(** * The end of an executor pool

    Models the destructor of the pool ([executor_pool.h]) with [Executor::Stop]
    ([executor.h]) and the loops of [Pool::Clean] ([pool.h]) over the
    transition system of [ExecutorPool].  The destructor is one more thread
    with a program counter; its steps interleave with those of the threads of
    the executors.  A step that has to wait leaves the state as it is. *)

From S2P Require Import Prelude Pool TaskQueue ExecutorPool.

(** ** The destructor *)

(** Where it goes on after an executor was stopped. *)
Inductive After := KPool | KBusy (temp : Z) | KIdle (temp : Z).

(** Where the destructor stands.

    [executor_pool.h:55-75] ~ExecutorPool *)
Inductive DPc :=
  | DBegin
  | DCleanExecs
  | DCleanDelay
  | DTake                                    (** before the scheduler is moved out *)
  | DPool                                    (** before [pool_.Clean] *)
  | DBusy (temp : Z)
  | DIdle (temp : Z)
  | DStop (x : DataRef) (k : After)          (** before [Stop] has the mutex of the executor *)
  | DWait (x : DataRef) (k : After)          (** in [cond_.wait] *)
  | DFree
  | DEnd.

#[export] Instance After_eq_dec : EqDecision After.
Proof. solve_decision. Defined.
#[export] Instance DPc_eq_dec : EqDecision DPc.
Proof. solve_decision. Defined.

Definition resume (k : After) : DPc :=
  match k with KPool => DPool | KBusy temp => DBusy temp | KIdle temp => DIdle temp end.

Definition set_poolStatus v s := mkSys (pool_ s) (delayTasks_ s) (execs_ s) (scheduler_ s) (taskId_ s) v (mtx_ s) (executors s) (calls s) (clock s) (log s).

(** The head of a list, whose executor is to be stopped next.

    [pool.h:113-118] Clean *)
Definition next_to_close (head_of : Pool -> option positive) : SO Sys (option DataRef) :=
  s ← run_st get;
  match head_of (pool_ s) with
  | None => mret None
  | Some _ => n ← on_pool (deref (head_of (pool_ s))); mret (Some (pdata n))
  end.

(** The first half of [Stop], [None] when it has to wait for the mutex.

    [executor.h:90-94] Stop *)
Definition Stop_begin (x : DataRef) : SO Sys (option unit) :=
  s ← run_st get;
  match executors s !! x with
  | Some e =>
      if mutex_free e
      then run_st (set_executor x (mkExecutor IS_STOPPING (waits_ e) (bound_ e) (pc e)));; mret (Some tt)
      else mret None
  | None => run_out Undef
  end.

(** Whether the wait of [Stop(true)] is over.

    [executor.h:95-96] Stop *)
Definition Stop_done (x : DataRef) : SO Sys bool :=
  s ← run_st get;
  match executors s !! x with
  | Some e => mret (mutex_free e && bool_decide (status e = STOPPED))
  | None => run_out Undef
  end.

(** [executor_pool.h:55-75] ~ExecutorPool *)
Definition destroy_step (d : DPc) : SO Sys DPc :=
  s ← run_st get;
  match d with
  | DBegin => run_st (modify (set_poolStatus IS_STOPPING));; mret DCleanExecs
  | DCleanExecs =>
      match execs_ s with
      | None => mret DCleanDelay
      | Some _ => on_queue Execs (run_st PQ_Clean);; mret DCleanDelay
      end
  | DCleanDelay => on_queue Delay (run_st PQ_Clean);; mret DTake
  | DTake =>
      if mtx_ s then mret DTake else
      run_st (modify (set_scheduler None));;
      mret (match scheduler_ s with Some x => DStop x KPool | None => DPool end)
  | DPool =>
      let temp := min_ (pool_ s) in
      on_pool (run_st (modify (set_min 0)));;
      mret (DBusy temp)
  | DBusy temp =>
      h ← next_to_close busy_;
      mret (match h with Some x => DStop x (KBusy temp) | None => DIdle temp end)
  | DIdle temp =>
      h ← next_to_close idle_;
      match h with
      | Some x => mret (DStop x (KIdle temp))
      | None => on_pool (run_st (modify (set_min temp)));; mret DFree
      end
  | DStop x k =>
      r ← Stop_begin x;
      mret (match r with Some _ => DWait x k | None => DStop x k end)
  | DWait x k =>
      r ← Stop_done x;
      mret (if (r : bool) then resume k else DWait x k)
  | DFree =>
      run_st (modify (set_execs None));;
      run_st (modify (set_poolStatus STOPPED));;
      mret DEnd
  | DEnd => mret DEnd
  end.

(** ** Runs *)

(** A step of the destructor; of the rest; and the end of the time for which an
    executor that was told to stop still waits. *)
Inductive DAction := DOwn | DSys (a : Action) | DLate (x : DataRef).

#[export] Instance DAction_eq_dec : EqDecision DAction.
Proof. solve_decision. Defined.

Definition DSt := (DPc * Sys)%type.

Definition d_step (a : DAction) (ds : DSt) : outcome DSt :=
  match a with
  | DOwn => '(d, s) ← destroy_step ds.1 ds.2; Done (d, s)
  | DSys b => '(_, s) ← sys_step b ds.2; Done (ds.1, s)
  | DLate x =>
      match executors ds.2 !! x with
      | Some e => if bool_decide (status e = IS_STOPPING) then '(_, s) ← sys_step (ATimeout x) ds.2; Done (ds.1, s) else Done ds
      | None => Done ds
      end
  end.

Fixpoint d_run (as_ : list DAction) (ds : DSt) : outcome DSt :=
  match as_ with [] => Done ds | a :: as' => ds' ← d_step a ds; d_run as' ds' end.

(** Once the destructor runs, the application keeps out. *)
Definition d_internal (a : DAction) : Prop := match a with DSys b => internal b | _ => True end.

(** ** A pool of one executor that comes down *)

Definition plain (t : Task) : Prop := forall f id, exec t <> Forward f id.

(** A task that runs once. *)
Definition once (t : Task) : Prop := interval t = INVALID_INTERVAL /\ plain t.

(** Where the thread can be, by its status and whether the executor is busy. *)
Definition down_pc (st : Status) (busy : bool) (p : Pc) : Prop :=
  match st, busy, p with
  | STOPPED, _, _ | _, _, PcStopped => False
  | _, true, PcExec t c => c = None /\ plain t
  | RUNNING, true, PcRelease | IS_STOPPING, true, PcPop => False
  | _, true, _ => True
  | RUNNING, false, (PcWait | PcTimed) => True
  | RUNNING, false, _ => False
  | IS_STOPPING, false, (PcWait | PcLoop | PcIdle | PcTimed | PcRelease) => True
  | IS_STOPPING, false, _ => False
  end.

(** The executor [x] is the only one whose thread is alive. *)
Record down (x : DataRef) (busy : bool) (e : Executor) (s : Sys) : Prop := {
  dn_pool : rep (pool_ s) (if busy then [] else [x]) (if busy then [x] else []);
  dn_exec : executors s !! x = Some e;
  dn_others y ey : executors s !! y = Some ey -> y = x \/ pc ey = PcStopped;
  dn_tasks : pq_all once (delayTasks_ s);
  dn_execs : execs_ s = None;
  dn_mtx : mtx_ s = false;
  dn_calls : calls s = [];
  dn_bound : bound_ e = Some Delay;
  dn_waits : waits_ e = if busy then Some Delay else None;
  dn_pc : down_pc (status e) busy (pc e);
  dn_clean : status e = IS_STOPPING -> tasks_ (delayTasks_ s) = []
}.

(** No thread is alive and the pool is empty. *)
Record gone (s : Sys) : Prop := {
  gn_pool : rep (pool_ s) [] [];
  gn_others y ey : executors s !! y = Some ey -> pc ey = PcStopped;
  gn_execs : execs_ s = None;
  gn_mtx : mtx_ s = false;
  gn_calls : calls s = []
}.

(** How many steps the thread is away from having nothing to do, or from its
    end when it was told to stop, with an empty queue. *)
Definition t_rank (busy : bool) (e : Executor) : nat :=
  match status e, busy, pc e with
  | RUNNING, true, PcIdle => 1 | RUNNING, true, PcLoop => 2 | RUNNING, true, (PcWait | PcFinish _) => 3
  | RUNNING, true, (PcExec _ _ | PcTimed) => 4 | RUNNING, true, PcPop => 5
  | RUNNING, _, _ => 0
  | _, false, PcRelease => 1 | _, false, PcTimed => 2
  | _, _, PcIdle => 3 | _, _, PcLoop => 4 | _, _, (PcWait | PcFinish _) => 5
  | _, true, (PcExec _ _ | PcRelease) => 6 | _, true, PcTimed => 7
  | _, _, _ => 0
  end%nat.

Lemma once_NextTimer now t : once t -> NextTimer now t = (false, INVALID_TIME, t).
Proof. intros [H _]. unfold NextTimer. by rewrite H. Qed.

(** The end of a task that runs once queues nothing. *)
Lemma once_Finish now id (q : TaskQueue) : pq_all once q ->
  pq_all once (snd (Finish NextTimer now id q)) /\ tasks_ (snd (Finish NextTimer now id q)) = tasks_ q.
Proof.
  intros Ha. split; [apply pq_all_Finish; [|done]; intros t Ht; by rewrite once_NextTimer|].
  unfold Finish, mbind, st_bind, get, mret, st_ret. destruct (running_ q !! id) as [it|] eqn:Ei; [|done].
  rewrite once_NextTimer by (by apply (proj2 Ha) in Ei). done.
Qed.

(** The thread goes to another point of its loop. *)
Lemma down_set x b e e' s : down x b e s -> status e' = status e -> bound_ e' = Some Delay ->
  waits_ e' = waits_ e -> down_pc (status e') b (pc e') ->
  down x b e' (set_executors (<[x := e']> (executors s)) s).
Proof.
  intros [] Hs Hb Hw Hp. split; cbn; try done; try congruence.
  - apply lookup_insert_eq.
  - intros y ey. rewrite lookup_insert_Some. intros [[<- _]|[_ Hy]]; [by left|eauto].
  - rewrite Hs. done.
Qed.

(** The queue changes. *)
Lemma down_queue x b e q s : down x b e s -> pq_all once q ->
  (tasks_ (delayTasks_ s) = [] -> tasks_ q = []) -> down x b e (set_delay q s).
Proof. intros [] Ha Ht. split; cbn; try done. auto. Qed.

Lemma down_log x b e l s : down x b e s -> down x b e (set_log l s).
Proof. by intros []. Qed.

(** Where a step of the thread leads. *)
Definition thread_result (x : DataRef) (b : bool) (e : Executor) (s s' : Sys) : Prop :=
  (exists b' e', down x b' e' s' /\ status e' = status e /\
     (tasks_ (delayTasks_ s) = [] -> tasks_ (delayTasks_ s') = [] /\
        ((t_rank b' e' < t_rank b e)%nat \/ s' = s /\ b' = b /\ e' = e /\ b = false /\ (status e = RUNNING \/ pc e = PcTimed))) /\
     (b' = b /\ scheduler_ s' = scheduler_ s \/ b' = false /\ scheduler_ s' = None)) \/
  (gone s' /\ status e = IS_STOPPING /\ exists e', executors s' !! x = Some e' /\ status e' = STOPPED /\ pc e' = PcStopped).

(** A step within the loop. *)
Lemma thread_moves x b e e' s q l : down x b e s -> pq_all once q ->
  (tasks_ (delayTasks_ s) = [] -> tasks_ q = []) ->
  status e' = status e -> bound_ e' = bound_ e -> waits_ e' = waits_ e -> down_pc (status e') b (pc e') ->
  (tasks_ (delayTasks_ s) = [] -> (t_rank b e' < t_rank b e)%nat) ->
  thread_result x b e s (set_executors (<[x := e']> (executors s)) (set_log l (set_delay q s))).
Proof.
  intros Hd Ha Hq Hs Hb Hw Hp Hr. left. exists b, e'. split_and!; [|done| |by left].
  - assert (Hd2 : down x b e (set_log l (set_delay q s))) by (by apply down_log, down_queue).
    apply (down_set _ _ _ _ _ Hd2); [done| |done..]. by rewrite Hb, (dn_bound _ _ _ _ Hd).
  - intros H0. split; [by apply Hq|]. left. by apply Hr.
Qed.

Lemma set_log_id s : set_log (log s) s = s.
Proof. by destruct s. Qed.

Lemma thread_requeues x b e e' s q : down x b e s -> pq_all once q ->
  (tasks_ (delayTasks_ s) = [] -> tasks_ q = []) ->
  status e' = status e -> bound_ e' = bound_ e -> waits_ e' = waits_ e -> down_pc (status e') b (pc e') ->
  (tasks_ (delayTasks_ s) = [] -> (t_rank b e' < t_rank b e)%nat) ->
  thread_result x b e s (set_executors (<[x := e']> (executors s)) (set_delay q s)).
Proof. intros. rewrite <- (set_log_id (set_delay q s)). by apply (thread_moves x b e e' s q (log s)). Qed.

Lemma thread_steps x b e e' s : down x b e s ->
  status e' = status e -> bound_ e' = bound_ e -> waits_ e' = waits_ e -> down_pc (status e') b (pc e') ->
  (tasks_ (delayTasks_ s) = [] -> (t_rank b e' < t_rank b e)%nat) ->
  thread_result x b e s (set_executors (<[x := e']> (executors s)) s).
Proof.
  intros Hd Hs Hb Hw Hp Hr. pose proof (thread_requeues x b e e' s (delayTasks_ s) Hd) as H.
  rewrite set_delay_id in H. apply H; try done. apply (dn_tasks _ _ _ _ Hd).
Qed.

(** The executor is asked whether it is idle: a busy one stays busy while it
    runs and tasks are queued, and is idle otherwise. *)
Lemma thread_idle x b e s : down x b e s -> pc e = PcIdle ->
  exists s', thread_step x e s = Done (tt, s') /\ thread_result x b e s s'.
Proof.
  intros Hd Hp. unfold thread_step. rewrite so_bind_st, Hp, (dn_bound _ _ _ _ Hd). cbn [get fst snd].
  assert (E0 : idle_lambda x Delay s = if bool_decide (tasks_ (delayTasks_ s) = []) then
      (run_st (modify (set_scheduler None));; on_pool (Pool_Idle x);; mret (Some true)) s else Done (Some false, s)).
  { unfold idle_lambda. rewrite so_bind_st. cbn [get fst snd]. rewrite (dn_mtx _ _ _ _ Hd).
    rewrite (so_bind_Done _ _ _ _ _ (queue_size_delay s)). by destruct (tasks_ _). }
  case_bool_decide as Ht.
  - rewrite so_bind_st in E0. cbn [modify fst snd] in E0.
    destruct (Pool_Idle_spec x _ _ _ (dn_pool _ _ _ _ Hd)) as (p & E & Hr & _).
    rewrite (so_bind_Done _ _ _ _ _ (on_pool_eq _ (set_scheduler None s) _ _ E)) in E0.
    rewrite (so_bind_Done _ _ _ _ _ E0). cbn [negb andb]. eexists. split; [reflexivity|].
    assert (Hr' : rep p [x] []).
    { destruct b; unfold spec_idle in Hr; cbn [fst snd] in Hr.
      - rewrite decide_True in Hr by left. by rewrite filter_cons_False in Hr by auto.
      - rewrite decide_False in Hr by (intros H; inv H). done. }
    left. set (e' := mkExecutor _ _ _ _). exists false, e'.
    assert (Hpc' : pc e' = if bool_decide (status e = RUNNING) then PcTimed else PcRelease) by done.
    destruct Hd as [_ He Ho Ha Hx Hm Hc Hb Hw Hpc Hcl]. split_and!; [|done| |by right].
    + split; cbn; try done.
      * apply lookup_insert_eq.
      * intros y ey. rewrite lookup_insert_Some. intros [[<- _]|[_ Hy]]; [by left|eauto].
      * cbn [status e' pc]. by destruct (status e), b; rewrite Hp in Hpc.
    + intros _. split; [done|]. left. unfold t_rank. rewrite Hpc', Hp. rewrite Hp in Hpc. change (status e') with (status e).
      destruct (status e), b; try done; repeat case_bool_decide; try done; lia.
  - rewrite (so_bind_Done _ _ _ _ _ E0). assert (Hs : status e = RUNNING).
    { pose proof (dn_pc _ _ _ _ Hd) as H1. pose proof (dn_clean _ _ _ _ Hd) as H2. by destruct (status e); auto; [destruct Ht; auto|destruct b]. }
    rewrite Hs. cbn [negb andb bool_decide decide_rel]. eexists. split; [reflexivity|].
    apply thread_steps; try done. cbn. rewrite Hs. pose proof (dn_pc _ _ _ _ Hd) as H1. rewrite Hs, Hp in H1. by destruct b.
Qed.

(** The executor asks to be let go: an idle one is. *)
Lemma thread_release x b e s : down x b e s -> pc e = PcRelease ->
  exists s', thread_step x e s = Done (tt, s') /\ thread_result x b e s s'.
Proof.
  intros Hd Hp. pose proof (dn_pc _ _ _ _ Hd) as Hpc. rewrite Hp in Hpc.
  assert (Hs : status e = IS_STOPPING) by (by destruct (status e), b).
  unfold thread_step. rewrite so_bind_st, Hp, Hs. cbn [get fst snd]. rewrite bool_decide_eq_true_2 by done.
  destruct (Pool_Release_spec x true _ _ _ (dn_pool _ _ _ _ Hd)) as (p & E & Hr & _).
  rewrite (so_bind_Done _ _ _ _ _ (on_pool_eq _ _ _ _ E)). unfold spec_release in *. cbn [negb andb fst snd] in *.
  destruct b.
  - rewrite bool_decide_eq_false_2 by (intros H; inv H). eexists. split; [reflexivity|]. left.
    set (e' := mkExecutor (status e) (waits_ e) (bound_ e) PcWait). exists true, e'.
    assert (Hd2 : down x true e (set_pool p s)) by (destruct Hd; by split).
    split_and!; [|done| |by left].
    + apply (down_set x true e e' _ Hd2); try done; [apply (dn_bound _ _ _ _ Hd)|by cbn; rewrite Hs].
    + intros Ht. split; [done|]. left. unfold t_rank. cbn. rewrite Hs, Hp. lia.
  - rewrite bool_decide_eq_true_2 by left. rewrite filter_cons_False in Hr by auto. eexists. split; [reflexivity|]. right.
    destruct Hd as [_ He Ho Ha Hx Hm Hc Hb Hw _ Hcl]. split; [|split; [done|]].
    + split; cbn; try done. intros y ey. rewrite lookup_insert_Some. intros [[_ <-]|[Hne Hy]]; [done|].
      by destruct (Ho _ _ Hy) as [->|].
    + eexists. split; [apply lookup_insert_eq|done].
Qed.

(** The thread waits. *)
Lemma thread_waits x b e s : down x b e s -> (tasks_ (delayTasks_ s) = [] -> b = false /\ (status e = RUNNING \/ pc e = PcTimed)) ->
  thread_result x b e s s.
Proof.
  intros Hd Hq. left. exists b, e. split_and!; [done|done| |by left].
  intros Ht. split; [done|]. right. destruct (Hq Ht). by split_and!.
Qed.

Lemma thread_pop x e s : down x true e s -> pc e = PcPop ->
  exists s', thread_step x e s = Done (tt, s') /\ thread_result x true e s s'.
Proof.
  intros Hd Hp. pose proof (dn_pc _ _ _ _ Hd) as Hpc. rewrite Hp in Hpc.
  assert (Hs : status e = RUNNING) by (by destruct (status e)).
  unfold thread_step. rewrite so_bind_st, Hp, (dn_waits _ _ _ _ Hd). cbn [get fst snd].
  rewrite (so_bind_Done _ _ _ _ _ (on_delay_st _ _)).
  pose proof (pq_all_Pop invalid_task once (clock s) _ (dn_tasks _ _ _ _ Hd)) as Ha.
  assert (Hw : forall u, fst (Pop invalid_task (clock s) (delayTasks_ s)) = Waiting u ->
    snd (Pop invalid_task (clock s) (delayTasks_ s)) = delayTasks_ s /\ tasks_ (delayTasks_ s) <> []).
  { intros u. unfold Pop. destruct (tasks_ (delayTasks_ s)); [done|]. by destruct (_ <? _). }
  assert (He : tasks_ (delayTasks_ s) = [] -> Pop invalid_task (clock s) (delayTasks_ s) = (Popped invalid_task, delayTasks_ s)).
  { intros Ht. unfold Pop. by rewrite Ht. }
  destruct (Pop _ _ _) as [[t|u] q]; cbn [fst snd] in *; (eexists; split; [reflexivity|]).
  - destruct Ha as [Ha Ht]. apply (thread_requeues x true e (mkExecutor (status e) (waits_ e) (bound_ e) (PcExec t None)) s q); try done.
    + intros H0. injection (He H0) as _ ->. done.
    + cbn. rewrite Hs. split; [done|]. destruct (tasks_ (delayTasks_ s)) eqn:E; [|by apply Ht].
      injection (He eq_refl) as -> _. done.
    + intros _. unfold t_rank. cbn. rewrite Hs, Hp. lia.
  - destruct (Hw _ eq_refl) as [-> Hne]. rewrite set_delay_id. apply thread_waits; [done|]. by intros ?%Hne.
Qed.

Lemma thread_exec x e t c s : down x true e s -> pc e = PcExec t c ->
  exists s', thread_step x e s = Done (tt, s') /\ thread_result x true e s s'.
Proof.
  intros Hd Hp. pose proof (dn_pc _ _ _ _ Hd) as Hpc. rewrite Hp in Hpc.
  assert (Hs : status e <> STOPPED) by (by destruct (status e)).
  assert (H : c = None /\ plain t) by (by destruct (status e)). destruct H as [-> Ht].
  unfold thread_step. rewrite so_bind_st, Hp. cbn [get fst snd].
  assert (Hr : forall r w, (t_rank true (mkExecutor (status e) w r (PcFinish (taskId t))) < t_rank true e)%nat).
  { intros r w. unfold t_rank. cbn. rewrite Hp. by destruct (status e); try done; lia. }
  assert (Hpc' : down_pc (status e) true (PcFinish (taskId t))) by (by destruct (status e)).
  unfold exec_task. destruct (exec t) as [|f|f id] eqn:Et; [| |by destruct (Ht f id Et)]; (eexists; split; [reflexivity|]).
  - apply thread_steps; auto.
  - pose proof (thread_moves x true e (mkExecutor (status e) (waits_ e) (bound_ e) (PcFinish (taskId t))) s
      (delayTasks_ s) (log s ++ [f]) Hd (dn_tasks _ _ _ _ Hd)) as H.
    rewrite set_delay_id in H. apply H; auto.
Qed.

Lemma thread_finish x e id s : down x true e s -> pc e = PcFinish id ->
  exists s', thread_step x e s = Done (tt, s') /\ thread_result x true e s s'.
Proof.
  intros Hd Hp. pose proof (dn_pc _ _ _ _ Hd) as Hpc. rewrite Hp in Hpc.
  unfold thread_step. rewrite so_bind_st, Hp, (dn_waits _ _ _ _ Hd). cbn [get fst snd].
  rewrite (so_bind_Done _ _ _ _ _ (on_delay_st _ _)). cbn [queue_updater].
  destruct (once_Finish (clock s) id _ (dn_tasks _ _ _ _ Hd)) as [Ha Ht].
  eexists. split; [reflexivity|]. apply (thread_requeues x true e (mkExecutor (status e) (waits_ e) (bound_ e) PcLoop) s); try done.
  - by rewrite Ht.
  - intros _. unfold t_rank. cbn. rewrite Hp. by destruct (status e); try done; lia.
Qed.

(** Every step of the thread is taken: it does not lose the executor, it
    brings it nearer to its end, and what it waits for is a task that is not
    due or, when it is idle, to be told to stop or for its time to be over. *)
Lemma thread_down x b e s : down x b e s ->
  exists s', thread_step x e s = Done (tt, s') /\ thread_result x b e s s'.
Proof.
  intros Hd. pose proof (dn_pc _ _ _ _ Hd) as Hpc. pose proof (dn_waits _ _ _ _ Hd) as Hw.
  destruct (pc e) as [| | |t c|id| | | |] eqn:Hp.
  - unfold thread_step. rewrite so_bind_st, Hp, Hw. cbn [get fst snd].
    destruct (status e) eqn:Hs, b; try done; cbn [bool_decide decide_rel orb negb andb];
      (eexists; split; [reflexivity|]); try (apply thread_waits; [done|by auto]);
      (apply thread_steps; try done; [cbn; by rewrite Hs|intros _; unfold t_rank; cbn; rewrite Hs, Hp; lia]).
  - unfold thread_step. rewrite so_bind_st, Hp, Hw. cbn [get fst snd].
    destruct (status e) eqn:Hs, b; try done;
      try (rewrite (so_bind_Done _ _ _ _ _ (queue_size_delay s)));
      (eexists; split; [reflexivity|]); (apply thread_steps; try done; [cbn; rewrite Hs|intros Ht; unfold t_rank; cbn; rewrite Hs, Hp]).
    + by case_match.
    + rewrite Ht. cbn. lia.
    + done.
    + lia.
    + done.
    + lia.
  - destruct b; [by apply thread_pop|by destruct (status e)].
  - destruct b; [by eapply thread_exec|by destruct (status e)].
  - destruct b; [by eapply thread_finish|by destruct (status e)].
  - by apply thread_idle.
  - unfold thread_step. rewrite so_bind_st, Hp, Hw. cbn [get fst snd].
    destruct b; cbn [bool_decide decide_rel].
    + eexists. split; [reflexivity|]. apply thread_steps; try done.
      intros _. unfold t_rank. cbn. rewrite Hp. destruct (status e); [lia|lia|done].
    + eexists. split; [reflexivity|]. apply thread_waits; [done|]. by split; [|right].
  - by apply thread_release.
  - by destruct (status e), b.
Qed.

(** *** The destructor and the thread *)

(** The executor whose thread is alive, if there is one. *)
Abbreviation Alive := (option (bool * Executor)).

Definition alive (x : DataRef) (al : Alive) (s : Sys) : Prop :=
  match al with Some (b, e) => down x b e s | None => gone s end.

Definition empty (s : Sys) : Prop := tasks_ (delayTasks_ s) = [].

(** The thread was not told to stop yet; the scheduler is the busy executor. *)
Definition serves (x : DataRef) (al : Alive) (s : Sys) : Prop :=
  match al with Some (b, e) => status e = RUNNING /\ scheduler_ s = (if b then Some x else None)
              | None => scheduler_ s = None end.

(** An idle executor is left, or none. *)
Definition at_rest (al : Alive) (s : Sys) : Prop :=
  match al with Some (b, e) => b = false /\ status e = RUNNING /\ empty s | None => True end.

Definition closing (k : After) (idle : bool) : Prop := k = KPool \/ (exists temp, k = KIdle temp) /\ idle = true.

Definition d_stage (x : DataRef) (al : Alive) (d : DPc) (s : Sys) : Prop :=
  match d with
  | DBegin | DCleanExecs | DCleanDelay => serves x al s
  | DTake => serves x al s /\ empty s
  | DStop y k => y = x /\ empty s /\ exists b e, al = Some (b, e) /\ status e = RUNNING /\ closing k (negb b)
  | DWait y k => y = x /\ closing k true /\
      match al with
      | Some (b, e) => status e = IS_STOPPING
      | None => exists e, executors s !! x = Some e /\ status e = STOPPED /\ pc e = PcStopped
      end
  | DPool | DBusy _ | DIdle _ => at_rest al s
  | DFree => al = None
  | DEnd => al = None /\ poolStatus s = STOPPED
  end.

Definition d_inv (x : DataRef) (al : Alive) (d : DPc) (s : Sys) : Prop := alive x al s /\ d_stage x al d s.

(** How far the destructor is from its end. *)
Definition d_rank (d : DPc) (al : Alive) : nat :=
  match d, al with
  | DBegin, _ => 13 | DCleanExecs, _ => 12 | DCleanDelay, _ => 11 | DTake, _ => 10
  | DStop _ KPool, _ => 9 | DWait _ KPool, _ => 8
  | DPool, Some _ => 7 | DBusy _, Some _ => 6 | DIdle _, Some _ => 5 | DStop _ _, _ => 4
  | DPool, None => 4 | DWait _ _, _ => 3 | DBusy _, None => 3 | DIdle _, None => 2
  | DFree, _ => 1 | DEnd, _ => 0
  end.

Definition cleaned (d : DPc) : bool := match d with DBegin | DCleanExecs | DCleanDelay => false | _ => true end.

Definition al_rank (d : DPc) (al : Alive) : nat :=
  if cleaned d then match al with Some (b, e) => t_rank b e | None => 0 end else 8.

Definition measure (d : DPc) (al : Alive) : nat := (10 * d_rank d al + al_rank d al)%nat.

(** Whether the destructor need not wait for the thread. *)
Definition ready (d : DPc) (al : Alive) : bool :=
  match d, al with
  | DStop _ _, Some (_, e) => mutex_free e
  | DWait _ _, Some _ => false
  | _, _ => true
  end.

Lemma t_rank_small b e : (t_rank b e <= 7)%nat.
Proof. unfold t_rank. destruct (status e), b, (pc e); lia. Qed.

Lemma al_rank_small d al : (al_rank d al <= 8)%nat.
Proof. unfold al_rank. destruct (cleaned d), al as [[b e]|]; try lia. pose proof (t_rank_small b e). lia. Qed.

Lemma measure_rank d al d' al' : (d_rank d' al' < d_rank d al)%nat -> (measure d' al' < measure d al)%nat.
Proof. unfold measure. pose proof (al_rank_small d' al'). lia. Qed.

(** The state has changed in what the threads do not look at. *)
Lemma alive_quiet x al s s' : alive x al s -> pool_ s' = pool_ s -> executors s' = executors s ->
  delayTasks_ s' = delayTasks_ s -> execs_ s' = execs_ s -> mtx_ s' = mtx_ s -> calls s' = calls s -> alive x al s'.
Proof.
  intros Ha E1 E2 E3 E4 E5 E6. destruct al as [[b e]|]; destruct Ha; split; rewrite ?E1, ?E2, ?E3, ?E4, ?E5, ?E6; done.
Qed.

(** The minimum of the pool is of no account. *)
Lemma alive_min x al m s : alive x al s -> alive x al (set_pool (set_min m (pool_ s)) s).
Proof.
  intros Ha. destruct al as [[b e]|]; destruct Ha as [Hr]; (split; try done); cbn; by destruct Hr.
Qed.

Lemma alive_clean x al s : alive x al s -> alive x al (set_delay (snd (PQ_Clean (delayTasks_ s))) s).
Proof.
  intros Ha. destruct al as [[b e]|]; [|by destruct Ha]. apply down_queue; [done| |done].
  split; cbn; [intros ? Hx; inv Hx|]. apply (dn_tasks _ _ _ _ Ha).
Qed.

(** The step is taken, and brings the end nearer unless it has to wait. *)
Definition own_ok (x : DataRef) (al : Alive) (d : DPc) (s : Sys) : Prop :=
  exists d' s' al', destroy_step d s = Done (d', s') /\ d_inv x al' d' s' /\ (al = None -> al' = None) /\
    if ready d al then (d_rank d' al' < d_rank d al)%nat else d' = d /\ s' = s /\ al' = al.

Lemma own_stop x al k s : d_inv x al (DStop x k) s -> own_ok x al (DStop x k) s.
Proof.
  intros [Ha (_ & He & b & e & -> & Hs & Hk)]. cbn [alive] in Ha. unfold own_ok, destroy_step, Stop_begin. cbn [ready].
  rewrite so_bind_st. unfold mbind at 1, so_bind at 1. rewrite so_bind_st. cbn [get fst snd].
  rewrite (dn_exec _ _ _ _ Ha). destruct (mutex_free e) eqn:Em.
  - eexists _, _, (Some (b, mkExecutor IS_STOPPING (waits_ e) (bound_ e) (pc e))). split; [reflexivity|]. split.
    + split; [|split; [done|]; split; [|done]]; [|destruct Hk as [->|[? _]]; [by left|by right]].
      pose proof (dn_pc _ _ _ _ Ha) as Hp. rewrite Hs in Hp. unfold mutex_free in Em.
      destruct Ha as [Hr Hx Ho Ht Hex Hm Hc Hb Hw _ _]. split; cbn; try done.
      * apply lookup_insert_eq.
      * intros y ey. rewrite lookup_insert_Some. intros [[<- _]|[_ Hy]]; [by left|eauto].
      * by destruct (pc e), b.
    + split; [done|]. cbn. destruct k; lia.
  - eexists _, _, (Some (b, e)). split; [reflexivity|]. split; [|done]. split; [done|].
    split; [done|]. split; [done|]. by exists b, e.
Qed.

Lemma own_wait x al k s : d_inv x al (DWait x k) s -> own_ok x al (DWait x k) s.
Proof.
  intros [Ha (_ & Hk & Hst)]. unfold own_ok, destroy_step, Stop_done.
  rewrite so_bind_st. unfold mbind at 1, so_bind at 1. rewrite so_bind_st. cbn [get fst snd].
  destruct al as [[b e]|]; cbn [alive ready] in *.
  - rewrite (dn_exec _ _ _ _ Ha), Hst. rewrite bool_decide_eq_false_2, andb_false_r by done.
    eexists _, _, (Some (b, e)). split; [reflexivity|]. split; [|done]. split; [done|]. by split_and!.
  - destruct Hst as (e & He & Hs & Hp). rewrite He, Hs, bool_decide_eq_true_2 by done. unfold mutex_free. rewrite Hp.
    eexists _, _, None. split; [reflexivity|]. split; [split; [done|]|].
    + destruct Hk as [->|[[temp ->] _]]; done.
    + split; [done|]. destruct Hk as [->|[[temp ->] _]]; cbn; lia.
Qed.

(** The head of the busy list, or of the idle list, of a pool at rest. *)
Lemma rest_busy x al s : alive x al s -> at_rest al s -> busy_ (pool_ s) = None.
Proof.
  intros Ha Hr. destruct al as [[b e]|].
  - destruct Hr as [-> _]. by rewrite (rep_busy _ _ _ (dn_pool _ _ _ _ Ha)).
  - by rewrite (rep_busy _ _ _ (gn_pool _ Ha)).
Qed.

Lemma rest_idle x al s : alive x al s -> at_rest al s ->
  next_to_close idle_ s = Done (match al with Some _ => Some x | None => None end, s).
Proof.
  intros Ha Hr. unfold next_to_close. rewrite so_bind_st. cbn [get fst snd]. destruct al as [[b e]|].
  - destruct Hr as [-> _]. pose proof (dn_pool _ _ _ _ Ha) as Hp. rewrite (rep_idle _ _ _ Hp). cbn [first].
    pose proof (rep_seg_idle _ _ _ Hp) as [Hx _].
    rewrite (so_bind_Done _ _ _ _ _ (on_pool_eq _ _ _ _ (deref_ok _ _ _ Hx))). cbn. by destruct s.
  - by rewrite (rep_idle _ _ _ (gn_pool _ Ha)).
Qed.

(** What the destructor does up to [pool_.Clean]. *)
Lemma own_first x al d s : d_inv x al d s -> match d with DBegin | DCleanExecs | DCleanDelay | DTake => True | _ => False end ->
  own_ok x al d s.
Proof.
  intros [Ha Hst] Hd. assert (Hex : execs_ s = None) by (destruct al as [[b e]|]; apply Ha).
  assert (Hm : mtx_ s = false) by (destruct al as [[b e]|]; apply Ha).
  unfold own_ok. destruct d; try done; unfold destroy_step; rewrite so_bind_st; cbn [get fst snd ready].
  - eexists _, _, al. split; [reflexivity|]. split; [|split; [done|cbn; lia]]. split; [by eapply alive_quiet|]. by destruct al as [[b e]|].
  - rewrite Hex. eexists _, _, al. split; [reflexivity|]. split; [by split|split; [done|cbn; lia]].
  - rewrite (so_bind_Done _ _ _ _ _ (on_delay_st _ _)). eexists _, _, al. split; [reflexivity|]. split; [|split; [done|cbn; lia]].
    split; [by apply alive_clean|]. split; [by destruct al as [[b e]|]|done].
  - rewrite Hm. destruct Hst as [Hs He]. assert (Ha' : alive x al (set_scheduler None s)) by (by eapply alive_quiet).
    destruct al as [[[] e]|]; [destruct Hs as [Hrun ->]..|cbn in Hs; rewrite Hs];
      eexists _, _, _; (split; [reflexivity|]); (split; [split; [exact Ha'|]|split; [done|cbn; lia]]); [|done..].
    split; [done|]. split; [done|]. exists true, e. split_and!; [done..|]. by left.
Qed.

(** What it does from there on. *)
Lemma own_last x al d s : d_inv x al d s -> match d with DPool | DBusy _ | DIdle _ | DFree => True | _ => False end ->
  own_ok x al d s.
Proof.
  intros [Ha Hst] Hd. unfold own_ok. destruct d; try done; unfold destroy_step; rewrite so_bind_st; cbn [get fst snd ready].
  - rewrite (so_bind_Done _ _ _ _ _ (on_pool_eq (run_st (modify (set_min 0))) s _ _ eq_refl)).
    eexists _, _, al. split; [reflexivity|]. split; [|split; [done|destruct al; cbn; lia]].
    split; [by apply alive_min|]. by destruct al as [[b e]|].
  - unfold next_to_close. unfold mbind at 1, so_bind at 1. rewrite so_bind_st. cbn [get fst snd].
    rewrite (rest_busy x al s Ha Hst). eexists _, _, al. split; [reflexivity|]. split; [by split|split; [done|destruct al; cbn; lia]].
  - rewrite (so_bind_Done _ _ _ _ _ (rest_idle x al s Ha Hst)). destruct al as [[b e]|].
    + destruct Hst as (-> & Hs & He). eexists _, _, (Some (false, e)). split; [reflexivity|]. split; [|split; [done|cbn; lia]].
      split; [done|]. split; [done|]. split; [done|]. exists false, e. split_and!; [done..|]. right. split; [by eexists|done].
    + rewrite (so_bind_Done _ _ _ _ _ (on_pool_eq (run_st (modify (set_min temp))) s _ _ eq_refl)).
      eexists _, _, None. split; [reflexivity|]. split; [|split; [done|cbn; lia]]. split; [by apply (alive_min x None)|done].
  - cbn in Hst. subst al. eexists _, _, None. split; [reflexivity|]. split; [|split; [done|cbn; lia]].
    split; [|done]. destruct Ha. by split.
Qed.

Lemma own_step x al d s : d_inv x al d s -> d <> DEnd -> own_ok x al d s.
Proof.
  intros Hi Hd. destruct d as [| | | | |temp|temp|y k|y k| |];
    try (by apply own_first); try (by apply own_last).
  - assert (y = x) as -> by apply Hi. by apply own_stop.
  - assert (y = x) as -> by apply Hi. by apply own_wait.
Qed.

(** An executor that was told to stop still waits for a queue. *)
Definition timed (al : Alive) : bool :=
  match al with Some (false, e) => match status e, pc e with IS_STOPPING, PcTimed => true | _, _ => false end | _ => false end.

(** The step that brings the end nearer. *)
Definition key (x : DataRef) (d : DPc) (al : Alive) : DAction :=
  if ready d al then DOwn else if timed al then DLate x else DSys (AThread x).

(** A step of another thread keeps the stage; what it does not bring nearer,
    it leaves as it is, and it is not the step that the destructor waits for. *)
Definition other_ok (x : DataRef) (al : Alive) (d : DPc) (s : Sys) (a : DAction) : Prop :=
  exists s' al', d_step a (d, s) = Done (d, s') /\ d_inv x al' d s' /\ (al = None -> al' = None) /\
    ((measure d al' < measure d al)%nat \/
     measure d al' = measure d al /\ key x d al' = key x d al /\ a <> key x d al).

Lemma other_same x al d s a : d_inv x al d s -> d_step a (d, s) = Done (d, s) -> a <> key x d al -> other_ok x al d s a.
Proof. intros Hi E Hr. exists s, al. split; [done|]. split; [done|]. split; [done|]. by right. Qed.

Lemma stage_empty x b e d s : d_inv x (Some (b, e)) d s -> cleaned d = true -> empty s.
Proof.
  intros [Ha Hst] Hc. destruct d; try done; cbn in Hst; try tauto; [|by destruct Hst].
  destruct Hst as (_ & _ & Hs). exact (dn_clean _ _ _ _ Ha Hs).
Qed.

Lemma stage_move x b e b' e' d s s' : d_stage x (Some (b, e)) d s -> status e' = status e ->
  (cleaned d = true -> empty s') ->
  (b' = b /\ scheduler_ s' = scheduler_ s \/ b' = false /\ scheduler_ s' = None) ->
  d_stage x (Some (b', e')) d s'.
Proof.
  intros Hst Hs He Hb. assert (Hserve : serves x (Some (b, e)) s -> serves x (Some (b', e')) s').
  { intros [H1 H2]. split; [congruence|]. by destruct Hb as [[-> ->]|[-> ->]]. }
  destruct d; cbn [d_stage] in *; auto.
  - destruct Hst; auto.
  - destruct Hst as (-> & H1 & _). split; [by destruct Hb as [[-> _]|[-> _]]|]. split; [congruence|auto].
  - destruct Hst as (-> & H1 & _). split; [by destruct Hb as [[-> _]|[-> _]]|]. split; [congruence|auto].
  - destruct Hst as (-> & H1 & _). split; [by destruct Hb as [[-> _]|[-> _]]|]. split; [congruence|auto].
  - destruct Hst as (-> & _ & b0 & e0 & [= <- <-] & H1 & H2). split; [done|]. split; [auto|]. exists b', e'.
    split; [done|]. split; [congruence|]. destruct Hb as [[-> _]|[-> _]]; [done|].
    destruct H2 as [->|[Hk _]]; [by left|by right].
  - destruct Hst as (-> & Hk & H1). split; [done|]. split; [done|]. congruence.
  - done.
  - by destruct Hst.
Qed.

Lemma t_rank_stopping b e : status e = IS_STOPPING -> down_pc (status e) b (pc e) -> (1 <= t_rank b e)%nat.
Proof. intros Hs Hp. unfold t_rank. rewrite Hs in *. destruct b, (pc e); try done; lia. Qed.

(** A thread that is left to wait is not waited for. *)
Lemma quiet_ready x e d s : d_inv x (Some (false, e)) d s -> status e = RUNNING -> ready d (Some (false, e)) = true.
Proof.
  intros [Ha Hst] Hs. pose proof (dn_pc _ _ _ _ Ha) as Hp. rewrite Hs in Hp. destruct d; try done; cbn.
  - unfold mutex_free. by destruct (pc e).
  - destruct Hst as (_ & _ & H). congruence.
Qed.

(** A step of the thread. *)
Lemma other_result x b e d s s' a : d_inv x (Some (b, e)) d s -> d_step a (d, s) = Done (d, s') -> thread_result x b e s s' ->
  a <> DOwn -> (s' = s -> b = false -> status e = RUNNING \/ pc e = PcTimed -> a <> key x d (Some (b, e))) ->
  other_ok x (Some (b, e)) d s a.
Proof.
  intros Hi E Hres Hown Hkey. pose proof Hi as [Ha Hst]. cbn [alive] in Ha. exists s'.
  destruct Hres as [(b' & e' & Ha' & Hs & Hq & Hb)|(Hg & Hs & Hx)].
  - exists (Some (b', e')). split; [done|]. split.
    + split; [done|]. eapply stage_move; [done..| |done]. intros Hc. exact (proj1 (Hq (stage_empty _ _ _ _ _ Hi Hc))).
    + split; [done|]. destruct (cleaned d) eqn:Hc.
      * destruct (proj2 (Hq (stage_empty _ _ _ _ _ Hi Hc))) as [Hr|(-> & -> & -> & -> & Hw)]; [|right; split_and!; auto].
        left. unfold measure, al_rank. rewrite Hc. destruct d; cbn; lia.
      * right. unfold measure, al_rank, key. rewrite Hc. by destruct d.
  - exists None. assert (Hd : exists k, d = DWait x k /\ closing k true).
    { destruct d; cbn in Hst; try (destruct Hst; congruence).
      - destruct Hst as [[? _] _]. congruence.
      - destruct Hst as (_ & ? & _). congruence.
      - destruct Hst as (_ & ? & _). congruence.
      - destruct Hst as (_ & ? & _). congruence.
      - destruct Hst as (_ & _ & b0 & e0 & [= <- <-] & ? & _). congruence.
      - destruct Hst as (-> & Hk & _). by exists k.
      - done. }
    destruct Hd as (k & -> & Hk). split; [done|]. split; [by split|]. split; [done|]. left. unfold measure, al_rank. cbn [cleaned].
    pose proof (t_rank_stopping b e Hs (dn_pc _ _ _ _ Ha)). destruct k; cbn; lia.
Qed.

Lemma key_thread x y d al : y <> x -> DSys (AThread y) <> key x d al /\ DLate y <> key x d al.
Proof. intros Hne. unfold key. destruct (ready d al), (timed al); split; congruence. Qed.

Lemma key_dead x d : key x d None = DOwn.
Proof. by destruct d. Qed.

(** The threads that are dead do nothing. *)
Lemma others_dead x al s y : alive x al s -> y <> x \/ al = None ->
  sys_step (AThread y) s = Done (tt, s) /\ sys_step (ATimeout y) s = Done (tt, s).
Proof.
  intros Ha Hne. unfold sys_step. rewrite !so_bind_st. cbn [get fst snd]. destruct (executors s !! y) as [e|] eqn:He; [|done].
  assert (Hp : pc e = PcStopped).
  { destruct al as [[b ex]|]; [|by apply (gn_others _ Ha y)]. destruct Hne as [Hne|]; [|done]. by destruct (dn_others _ _ _ _ Ha _ _ He). }
  split; [unfold thread_step; by rewrite so_bind_st, Hp|unfold run_st, thread_timeout; by rewrite Hp].
Qed.

Lemma other_thread x al d s y : d_inv x al d s -> other_ok x al d s (DSys (AThread y)).
Proof.
  intros Hi. pose proof Hi as [Ha Hst]. destruct (decide (y <> x \/ al = None)) as [Hne|Hne].
  { apply other_same; [done|cbn [d_step fst snd]; by rewrite (proj1 (others_dead x al s y Ha Hne))|].
    destruct Hne as [Hne| ->]; [by apply key_thread|by rewrite key_dead]. }
  destruct al as [[b e]|]; [|by destruct Hne; right]. destruct (decide (y = x)) as [->|]; [|by destruct Hne; left].
  destruct (thread_down x b e s Ha) as (s' & E & Hres). eapply other_result; [done| |done|done|].
  - cbn [d_step fst snd]. unfold sys_step. rewrite so_bind_st. cbn [get fst snd]. by rewrite (dn_exec _ _ _ _ Ha), E.
  - intros -> -> [Hrun|Hp]; unfold key; [by rewrite (quiet_ready x e d s)|].
    destruct (ready d _) eqn:Er; [done|]. unfold timed. rewrite Hp. pose proof (dn_pc _ _ _ _ Ha) as Hpc.
    by destruct (status e) eqn:Es; [rewrite (quiet_ready x e d s) in Er| |].
Qed.

(** The time of an executor that was told to stop is over. *)
Lemma other_late x al d s y : d_inv x al d s -> other_ok x al d s (DLate y).
Proof.
  intros Hi. pose proof Hi as [Ha Hst]. destruct (decide (y <> x \/ al = None)) as [Hne|Hne].
  { apply other_same; [done| |].
    - cbn [d_step fst snd]. rewrite (proj2 (others_dead x al s y Ha Hne)). destruct (executors s !! y); [|done]. by case_bool_decide.
    - destruct Hne as [Hne| ->]; [by apply key_thread|by rewrite key_dead]. }
  destruct al as [[b e]|]; [|by destruct Hne; right]. destruct (decide (y = x)) as [->|]; [|by destruct Hne; left]. clear Hne.
  pose proof (dn_waits _ _ _ _ Ha) as Hw. pose proof (dn_exec _ _ _ _ Ha) as He.
  destruct (timed (Some (b, e))) eqn:Et.
  - destruct b; [done|]. cbn [timed] in Et. assert (H : status e = IS_STOPPING) by by destruct (status e).
    assert (H0 : pc e = PcTimed) by (rewrite H in Et; by destruct (pc e)). clear Et.
    eapply other_result; [done| | |done|].
    + cbn [d_step fst snd]. rewrite He, bool_decide_eq_true_2 by done. unfold sys_step. rewrite so_bind_st. cbn [get fst snd].
      rewrite He. unfold run_st, thread_timeout. by rewrite H0, Hw.
    + apply thread_steps; try done; [by cbn; rewrite H|intros _; unfold t_rank; cbn; rewrite H, H0; lia].
    + intros Heq. exfalso. apply (f_equal (fun s => executors s !! x)) in Heq. cbn in Heq.
      rewrite lookup_insert_eq, He in Heq. injection Heq as Heq. by rewrite <- Heq in H0.
  - apply other_same; [done| |unfold key; rewrite Et; by destruct (ready _ _)].
    cbn [d_step fst snd]. rewrite He. case_bool_decide as Hs; [|done]. unfold sys_step. rewrite so_bind_st. cbn [get fst snd].
    rewrite He. unfold run_st, thread_timeout. rewrite Hw. destruct b; [by destruct (pc e)|].
    cbn [timed] in Et. rewrite Hs in Et. by destruct (pc e).
Qed.

(** What goes on while the pool is destroyed: the destructor, the threads and
    the clock; no executor runs out of time before it was told to stop. *)
Definition d_quiet (a : DAction) : Prop :=
  match a with DSys (AThread _ | ATick _) => True | DSys _ => False | _ => True end.

Lemma other_step x al d s a : d_inv x al d s -> d_quiet a -> a <> DOwn -> other_ok x al d s a.
Proof.
  intros Hi Ha Hne. destruct a as [|[| | | | |y| |n]|y]; try done; [by apply other_thread| |by apply other_late].
  unfold other_ok. exists (set_clock (clock s + Z.of_nat n) s), al. split; [done|]. split; [|split; [done|right; split; [done|]; split; [done|]]].
  - destruct Hi as [H Hst]. split; [by eapply alive_quiet|exact Hst].
  - unfold key. by destruct (ready d al), (timed al).
Qed.

Lemma d_progress x al d s a : d_inv x al d s -> d_quiet a -> exists d' s' al',
  d_step a (d, s) = Done (d', s') /\ d_inv x al' d' s' /\ (al = None -> al' = None) /\
  ((measure d' al' < measure d al)%nat \/
   measure d' al' = measure d al /\ (d = DEnd \/ key x d' al' = key x d al /\ a <> key x d al)).
Proof.
  intros Hi Ha. destruct (decide (a = DOwn)) as [->|Hne].
  - destruct (decide (d = DEnd)) as [->|Hd]; [by exists DEnd, s, al; split_and!; auto|].
    destruct (own_step x al d s Hi Hd) as (d' & s' & al' & E & Hi' & Hn & Hr). exists d', s', al'. cbn [d_step fst snd]. rewrite E.
    split; [done|]. split; [done|]. split; [done|]. destruct (ready d al) eqn:Er; [left; by apply measure_rank|].
    destruct Hr as (-> & -> & ->). right. split; [done|]. right. split; [done|]. unfold key. rewrite Er. by destruct (timed al).
  - destruct (other_step x al d s a Hi Ha Hne) as (s' & al' & E & Hi' & Hn & Hr). exists d, s', al'.
    split; [done|]. split; [done|]. split; [done|]. destruct Hr as [Hr|(Hm & Hr)]; [by left|]. right. split; [done|]. by right.
Qed.

(** *** Rounds *)

(** The run goes on with a bound on what is left. *)
Definition within (x : DataRef) (n : nat) (al : Alive) (o : outcome DSt) : Prop :=
  exists d s al', o = Done (d, s) /\ d_inv x al' d s /\ (al = None -> al' = None) /\ (measure d al' <= n)%nat.

Lemma within_le x n m al o : within x n al o -> (n <= m)%nat -> within x m al o.
Proof. intros (d & s & al' & E & Hi & Hn & Hm) Hle. exists d, s, al'. split_and!; [done..|lia]. Qed.

Lemma d_run_cons a l d s d' s' : d_step a (d, s) = Done (d', s') -> d_run (a :: l) (d, s) = d_run l (d', s').
Proof. intros E. cbn [d_run]. by rewrite E. Qed.

Lemma run_within x al d s l : d_inv x al d s -> Forall d_quiet l -> within x (measure d al) al (d_run l (d, s)).
Proof.
  intros Hi Hl. revert al d s Hi. induction Hl as [|a l Ha _ IH]; intros al d s Hi; [by exists d, s, al|].
  destruct (d_progress x al d s a Hi Ha) as (d' & s' & al' & E & Hi' & Hn & Hm). rewrite (d_run_cons _ _ _ _ _ _ E).
  destruct (IH al' d' s' Hi') as (d2 & s2 & al2 & E2 & Hi2 & Hn2 & Hm2). exists d2, s2, al2.
  split_and!; [done|done|auto|]. destruct Hm as [Hm|[Hm _]]; lia.
Qed.

Lemma measure_end d al : measure d al = 0%nat -> d = DEnd.
Proof. unfold measure, d_rank. destruct d as [| | | | | | |? []|? []| |], al; try done; cbn; lia. Qed.

(** A round in which the destructor and the thread both take a step brings the
    end nearer. *)
Lemma round_within x al d s l : d_inv x al d s -> Forall d_quiet l -> d <> DEnd ->
  DOwn ∈ l -> (al <> None -> DSys (AThread x) ∈ l /\ DLate x ∈ l) -> within x (measure d al - 1) al (d_run l (d, s)).
Proof.
  intros Hi Hl Hd Hown Hth. assert (Hkey : key x d al ∈ l).
  { unfold key. destruct (ready d al) eqn:Er; [done|]. destruct Hth as [H1 H2]; [by destruct al; [|destruct d]|]. by destruct (timed al). }
  clear Hown Hth. revert al d s Hi Hd Hkey. induction Hl as [|a l Ha Hl IH]; intros al d s Hi Hd Hkey; [inv Hkey|].
  destruct (d_progress x al d s a Hi Ha) as (d' & s' & al' & E & Hi' & Hn & Hm). rewrite (d_run_cons _ _ _ _ _ _ E).
  assert (Hw : forall n, within x n al' (d_run l (d', s')) -> within x n al (d_run l (d', s'))).
  { intros n (d2 & s2 & al2 & E2 & Hi2 & Hn2 & Hm2). exists d2, s2, al2. split_and!; auto. }
  apply Hw. destruct Hm as [Hm|[Hm [?|[Hr Hk]]]]; [|done|].
  - eapply within_le; [by apply run_within|lia].
  - rewrite <- Hm. apply IH; [done| |rewrite Hr; apply elem_of_cons in Hkey as [?|?]; [by destruct Hk|done]].
    intros ->. pose proof (proj2 Hi') as [-> _]. apply Hd, (measure_end _ al). by rewrite <- Hm.
Qed.

Lemma d_run_app l1 l2 ds ds' : d_run l1 ds = Done ds' -> d_run (l1 ++ l2) ds = d_run l2 ds'.
Proof.
  revert ds. induction l1 as [|a l1 IH]; intros ds; [by intros [= ->]|]. cbn [d_run app].
  destruct (d_step a ds) as [ds1| | |]; [|done..]. apply IH.
Qed.

Lemma rounds_end x al d s ls : d_inv x al d s ->
  Forall (fun l => Forall d_quiet l /\ DOwn ∈ l /\ (al <> None -> DSys (AThread x) ∈ l /\ DLate x ∈ l)) ls ->
  (measure d al <= length ls)%nat -> exists s', d_run (concat ls) (d, s) = Done (DEnd, s') /\ d_inv x None DEnd s'.
Proof.
  intros Hi Hls. revert al d s Hi Hls. induction ls as [|l ls IH]; intros al d s Hi Hls Hm; cbn [concat length] in *.
  - assert (d = DEnd) as -> by (apply (measure_end _ al); lia). pose proof (proj2 Hi) as [-> _]. by exists s.
  - apply Forall_cons in Hls as [(Hq & Hown & Hth) Hls].
    assert (Hw : within x (measure d al - 1) al (d_run l (d, s))).
    { destruct (decide (d = DEnd)) as [->|Hd]; [|by apply round_within].
      pose proof (proj2 Hi) as [-> _]. by apply run_within. }
    destruct Hw as (d' & s' & al' & E & Hi' & Hn & Hm'). rewrite (d_run_app _ _ _ _ E). apply (IH al'); [done| |lia].
    eapply Forall_impl; [exact Hls|]. intros l0 (H1 & H2 & H3). split_and!; auto.
Qed.

Definition thread_alive (x : DataRef) (s : Sys) : Prop := exists e, executors s !! x = Some e /\ pc e <> PcStopped.

Definition repeats (t : Task) : Prop := interval t <> INVALID_INTERVAL.

(** No task that repeats is queued or running. *)
Definition none_repeats (s : Sys) : Prop := pq_all (fun t => ~ repeats t) (delayTasks_ s).

(** No executor is on its way out. *)
Definition none_releases (s : Sys) : Prop := forall x e, executors s !! x = Some e -> pc e <> PcRelease.

Lemma user_once s st : inv_at st s -> none_repeats s -> pq_all once (delayTasks_ s).
Proof.
  intros Hi [H1 H2]. destruct (ia_tasks _ _ Hi) as [H3 H4].
  assert (Hu : forall t, user_task t -> ~ repeats t -> once t).
  { intros t [[f Hf] _] Hr. split; [unfold repeats in Hr; lia|]. intros g id. by rewrite Hf. }
  split; eauto.
Qed.

(** What the pool reaches when its calls have returned is where the destructor
    can begin. *)
Lemma d_begin st s : inv_at st s -> calls s = [] -> none_repeats s -> none_releases s ->
  exists x al, d_inv x al DBegin s /\ (al <> None -> thread_alive x s).
Proof.
  intros Hi Hc Hn Hr. pose proof (user_once s st Hi Hn) as Ht. pose proof (ia_bind _ _ Hi) as Hb. rewrite Hc in Hb.
  destruct st as [|x|x|x]; [| |done|].
  - exists 1%positive, None. destruct Hi as [Hp Hs Hm _ Ho _ _ _ He _ _ _]. split; [|done]. split; [|done].
    split; [done| |done..]. intros y ey Hy. by destruct (Ho _ _ Hy).
  - destruct (ia_exec _ _ Hi x eq_refl) as (e & He & (Hrun & Hw & Hpc) & Hbound).
    assert (Hpc' : pc e = PcWait \/ pc e = PcTimed) by (specialize (Hr _ _ He); naive_solver).
    exists x, (Some (false, e)). destruct Hi as [Hp Hs Hm _ Ho _ _ _ Hex _ _ _]. split.
    + split; [|by split]. split; try done.
      * intros y ey Hy. destruct (Ho _ _ Hy) as [[= ->]|?]; auto.
      * rewrite Hrun. by destruct Hpc' as [->| ->].
      * by rewrite Hrun.
    + exists e. split; [done|]. by destruct Hpc' as [->| ->].
  - destruct (bound_executor _ _ Hi) as (p & He & Hp). exists x, (Some (true, serving p)).
    destruct Hi as [Hpool Hs Hm _ Ho _ _ _ Hex _ _ _]. split.
    + split; [|by split]. split; try done.
      * intros y ey Hy. destruct (Ho _ _ Hy) as [[= ->]|?]; auto.
      * destruct p as [| | |t c| | | | |]; try done. cbn in *. destruct Hp as [-> Ht']. split; [done|].
        intros f id. destruct Ht' as [Ht'|[[g Hg] _]]; congruence.
    + exists (serving p). split; [done|]. by destruct p.
Qed.

(** ** A destructor that does not return *)

(** The executor [x] was told to stop while tasks are queued: [idle_] says that
    it is not idle, so that the pool does not find it among the idle ones when
    it asks to be let go. *)
Record spinning (x : DataRef) (s : Sys) : Prop := {
  sp_pool : rep (pool_ s) [] [x];
  sp_exec : exists e, executors s !! x = Some e /\ status e = IS_STOPPING /\ bound_ e = Some Delay /\
    (pc e = PcWait \/ pc e = PcLoop \/ pc e = PcIdle \/ pc e = PcRelease);
  sp_others y ey : executors s !! y = Some ey -> y = x \/ pc ey = PcStopped;
  sp_tasks : tasks_ (delayTasks_ s) <> [];
  sp_mtx : mtx_ s = false;
  sp_calls : calls s = []
}.

(** The executor [x] had ended before it was told to stop. *)
Record too_late (x : DataRef) (s : Sys) : Prop := {
  tl_exec : exists e, executors s !! x = Some e /\ status e = IS_STOPPING /\ pc e = PcStopped;
  tl_others y ey : executors s !! y = Some ey -> pc ey = PcStopped;
  tl_calls : calls s = []
}.

Definition stuck (x : DataRef) (s : Sys) : Prop := spinning x s \/ too_late x s.

Lemma spin_set x e s : spinning x s -> status e = IS_STOPPING -> bound_ e = Some Delay ->
  (pc e = PcWait \/ pc e = PcLoop \/ pc e = PcIdle \/ pc e = PcRelease) ->
  spinning x (set_executors (<[x := e]> (executors s)) s).
Proof.
  intros [] Hs Hb Hp. split; cbn; try done.
  - exists e. by rewrite lookup_insert_eq.
  - intros y ey. rewrite lookup_insert_Some. intros [[<- _]|[_ Hy]]; [by left|eauto].
Qed.

Lemma spin_thread x e s : spinning x s -> executors s !! x = Some e ->
  exists s', thread_step x e s = Done (tt, s') /\ spinning x s'.
Proof.
  intros Hs He. destruct (sp_exec _ _ Hs) as (e' & He' & Hst & Hb & Hp). assert (e' = e) as -> by congruence.
  unfold thread_step. rewrite so_bind_st. cbn [get fst snd].
  destruct Hp as [Hp|[Hp|[Hp|Hp]]]; rewrite Hp, Hst; cbn [bool_decide decide_rel orb negb andb].
  - eexists. split; [reflexivity|]. apply spin_set; auto.
  - eexists. split; [reflexivity|]. apply spin_set; auto.
  - rewrite Hb. assert (E : idle_lambda x Delay s = Done (Some false, s)).
    { unfold idle_lambda. rewrite so_bind_st. cbn [get fst snd]. rewrite (sp_mtx _ _ Hs).
      rewrite (so_bind_Done _ _ _ _ _ (queue_size_delay s)). pose proof (sp_tasks _ _ Hs). by destruct (tasks_ _). }
    rewrite (so_bind_Done _ _ _ _ _ E). eexists. split; [reflexivity|]. apply spin_set; cbn; auto 6.
  - rewrite bool_decide_eq_true_2 by done.
    destruct (Pool_Release_spec x true _ _ _ (sp_pool _ _ Hs)) as (p & E & Hr & _). cbn [spec_release negb andb fst snd] in *.
    rewrite (so_bind_Done _ _ _ _ _ (on_pool_eq _ _ _ _ E)). unfold spec_release. cbn [negb andb fst].
    rewrite bool_decide_eq_false_2 by (intros H; inv H). eexists. split; [reflexivity|].
    apply (spin_set x _ (set_pool p s)); auto. destruct Hs. by split.
Qed.

Lemma stuck_step x a s : stuck x s -> internal a -> exists s', sys_step a s = Done (tt, s') /\ stuck x s'.
Proof.
  intros Hs Ha. assert (Hc : calls s = []) by (destruct Hs as [Hs|Hs]; apply Hs).
  assert (Hdead : forall y e, executors s !! y = Some e -> pc e = PcStopped \/ y = x /\ spinning x s).
  { intros y e Hy. destruct Hs as [Hs|Hs]; [|left; by apply (tl_others _ _ Hs y)].
    destruct (sp_others _ _ Hs _ _ Hy) as [->|?]; auto. }
  unfold sys_step. rewrite so_bind_st. cbn [get fst snd]. destruct a as [| | | |i|y|y|n]; try done.
  - rewrite Hc. by exists s.
  - destruct (executors s !! y) as [e|] eqn:He; [|by exists s]. destruct (Hdead _ _ He) as [Hp|[-> Hsp]].
    + unfold thread_step. rewrite so_bind_st, Hp. by exists s.
    + destruct (spin_thread x e s Hsp He) as (s' & E & Hsp'). exists s'. by split; [|left].
  - destruct (executors s !! y) as [e|] eqn:He; [|by exists s]. unfold run_st, thread_timeout.
    destruct (Hdead _ _ He) as [Hp|[-> Hsp]]; [rewrite Hp; by exists s|].
    destruct (sp_exec _ _ Hsp) as (e' & He' & _ & _ & Hp). assert (e' = e) as -> by congruence.
    exists s. by destruct Hp as [->|[->|[->| ->]]].
  - eexists. split; [reflexivity|]. by destruct Hs as [[]|[]]; [left|right]; split.
Qed.

Lemma stuck_own x k s : stuck x s -> destroy_step (DWait x k) s = Done (DWait x k, s).
Proof.
  intros Hs. assert (He : exists e, executors s !! x = Some e /\ status e = IS_STOPPING).
  { destruct Hs as [Hs|Hs]; [destruct (sp_exec _ _ Hs) as (e & ? & ? & _)|destruct (tl_exec _ _ Hs) as (e & ? & ? & _)]; by exists e. }
  destruct He as (e & He & Hst). unfold destroy_step, Stop_done. rewrite so_bind_st. unfold mbind at 1, so_bind at 1.
  rewrite so_bind_st. cbn [get fst snd]. rewrite He, Hst. by rewrite bool_decide_eq_false_2, andb_false_r.
Qed.

Lemma stuck_run x k s bs : stuck x s -> Forall d_internal bs -> exists s', d_run bs (DWait x k, s) = Done (DWait x k, s').
Proof.
  intros Hs Hb. revert s Hs. induction Hb as [|a bs Ha _ IH]; intros s Hs; [by exists s|].
  destruct a as [|a|y]; cbn [d_run d_step fst snd].
  - rewrite (stuck_own x k s Hs). by apply IH.
  - destruct (stuck_step x a s Hs Ha) as (s' & -> & Hs'). by apply IH.
  - destruct (executors s !! y); [|by apply IH]. case_bool_decide; [|by apply IH].
    destruct (stuck_step x (ATimeout y) s Hs I) as (s' & -> & Hs'). by apply IH.
Qed.

(** ** Properties *)

(** A round of the destructor and of every thread that was alive in [s], in
    which also the time of an executor that was told to stop is over. *)
Definition round (s : Sys) (l : list DAction) : Prop :=
  Forall d_quiet l /\ DOwn ∈ l /\ forall x, thread_alive x s -> DSys (AThread x) ∈ l /\ DLate x ∈ l.

(** The pool of at most one executor can be destroyed: from every state it
    reaches in which no call is in flight, no task repeats and no executor is
    on its way out, the destructor returns however its steps, those of the
    threads and the clock interleave, provided that both go on, that an executor
    which was told to stop comes to the end of its time, and that no executor
    does before it was told to: after 138 rounds at the latest the pool is
    stopped, its lists are empty and every thread has ended. *)
Theorem pool_destroyed (max min : Z) (as_ : list Action) (s : Sys) (rounds : list (list DAction))
    (Hmax : max <= 1) (Hs : Forall sane as_) (Hrun : sys_run as_ (ExecutorPool_new max min) = Done (tt, s))
    (Hcalls : calls s = []) (Hrepeat : none_repeats s) (Hrelease : none_releases s)
    (Hrounds : Forall (round s) rounds) (Hlen : (138 <= length rounds)%nat) :
  exists s', d_run (concat rounds) (DBegin, s) = Done (DEnd, s') /\ poolStatus s' = STOPPED /\
    current_ (pool_ s') = 0 /\ nodes (pool_ s') = ∅ /\ forall x e, executors s' !! x = Some e -> pc e = PcStopped.
Proof.
  destruct (ok_run as_ _ Hs (sys_inv_new max min Hmax)) as ([] & s1 & E & [st Hi]). assert (s1 = s) as -> by congruence.
  destruct (d_begin st s Hi Hcalls Hrepeat Hrelease) as (x & al & Hd & Hal).
  destruct (rounds_end x al DBegin s rounds Hd) as (s' & E' & [Hg [_ Hp]]).
  - eapply Forall_impl; [exact Hrounds|]. intros l (H1 & H2 & H3). split_and!; auto.
  - unfold measure, d_rank. pose proof (al_rank_small DBegin al). lia.
  - exists s'. split_and!; [done|done|apply (rep_current _ _ _ (gn_pool _ Hg))| |apply (gn_others _ Hg)].
    apply map_empty. intros y. apply eq_None_not_Some. rewrite (rep_nodes _ _ _ (gn_pool _ Hg)). set_solver.
Qed.

(** A task that repeats is running when the pool is destroyed; the destructor
    has emptied the queue and told the scheduler to stop when the task ends. *)
Definition repeating : list Action :=
  [ASchedule 7 0 5 UNLIMITED_TIMES; ACall 0; ACall 0] ++ replicate 3 (AThread 1).
Definition repeating_end : list DAction := replicate 5 DOwn ++ replicate 2 (DSys (AThread 1)).

(** An executor runs out of time while the pool is destroyed: the destructor
    has found it in the idle list, and it ends before it can be told to. *)
Definition idling : list Action :=
  [ASchedule 7 0 0 1; ACall 0; ACall 0] ++ replicate 7 (AThread 1).
Definition idling_end : list DAction :=
  replicate 7 DOwn ++ [DSys (ATimeout 1); DSys (AThread 1); DOwn].

Definition sys_after (as_ : list Action) : Sys :=
  match sys_run as_ (ExecutorPool_new 1 0) with Done (_, s) => s | _ => ExecutorPool_new 1 0 end.

Definition end_after (as_ : list Action) (ds : list DAction) : Sys :=
  match d_run ds (DBegin, sys_after as_) with Done (_, s) => s | _ => ExecutorPool_new 1 0 end.

Lemma one_node_rep (p : Pool) : busy_ p = Some 1%positive -> idle_ p = None -> current_ p = 1 ->
  nodes p = {[1%positive := mkPNode None None 1%positive]} -> (1 < next_node p)%positive -> rep p [] [1%positive].
Proof.
  intros Hb Hi Hc Hn Hx. split; cbn; try done.
  - rewrite Hn. by rewrite lookup_singleton_eq.
  - apply NoDup_singleton.
  - intros y. rewrite Hn, lookup_singleton_is_Some. set_solver.
  - intros y ->%list_elem_of_singleton. done.
  - by rewrite Hc.
Qed.

Lemma only_executor (s : Sys) e y ey : executors s = {[1%positive := e]} -> executors s !! y = Some ey ->
  y = 1%positive /\ ey = e.
Proof. intros ->. rewrite lookup_singleton_Some. intros [<- <-]. done. Qed.

Lemma repeating_spins : d_run repeating_end (DBegin, sys_after repeating) = Done (DWait 1 KPool, end_after repeating repeating_end) /\
  spinning 1 (end_after repeating repeating_end).
Proof.
  assert (H : (pool_ (end_after repeating repeating_end), executors (end_after repeating repeating_end),
      length (tasks_ (delayTasks_ (end_after repeating repeating_end))), mtx_ (end_after repeating repeating_end),
      calls (end_after repeating repeating_end)) =
    (mkPool 1 0 1 None (Some 1%positive) {[1%positive := mkPNode None None 1%positive]} 2,
     {[1%positive := mkExecutor IS_STOPPING (Some Delay) (Some Delay) PcLoop]}, 1%nat, false, [])) by (vm_compute; reflexivity).
  split; [vm_compute; reflexivity|]. revert H. generalize (end_after repeating repeating_end). intros s H.
  injection H as Hp He Ht Hm Hc. split; try done.
  - apply one_node_rep; by rewrite Hp.
  - rewrite He. eexists. rewrite lookup_singleton_eq. split; [done|]. auto.
  - intros y ey Hy. left. by eapply only_executor.
  - by destruct (tasks_ _).
Qed.

Lemma idling_too_late : d_run idling_end (DBegin, sys_after idling) = Done (DWait 1 (KIdle 0), end_after idling idling_end) /\
  too_late 1 (end_after idling idling_end).
Proof.
  assert (H : (executors (end_after idling idling_end), calls (end_after idling idling_end)) =
    ({[1%positive := mkExecutor IS_STOPPING None (Some Delay) PcStopped]}, [])) by (vm_compute; reflexivity).
  split; [vm_compute; reflexivity|]. revert H. generalize (end_after idling idling_end). intros s H.
  injection H as He Hc. split; [|intros y ey Hy; by destruct (only_executor _ _ _ _ He Hy) as [_ ->]|done].
  rewrite He. eexists. rewrite lookup_singleton_eq. by split_and!.
Qed.

(** The two conditions are needed.  When a task that repeats is running, the
    destructor empties the queue, but the end of the task puts it back: the
    scheduler never finds itself idle, the pool never lets it go, and the
    destructor waits for ever while the thread spins.  When an idle executor
    runs out of time between the destructor's look at the list and [Stop], it
    has ended already, [Stop] overwrites its status and waits for a status
    that nothing will set.  No sequence of further steps ends either. *)
Theorem destructor_can_hang (bs : list DAction) (Hb : Forall d_internal bs) :
  (exists s, d_run repeating_end (DBegin, sys_after repeating) = Done (DWait 1 KPool, s) /\
     exists s', d_run bs (DWait 1 KPool, s) = Done (DWait 1 KPool, s')) /\
  (exists s, d_run idling_end (DBegin, sys_after idling) = Done (DWait 1 (KIdle 0), s) /\
     exists s', d_run bs (DWait 1 (KIdle 0), s) = Done (DWait 1 (KIdle 0), s')).
Proof.
  destruct repeating_spins as [E1 H1], idling_too_late as [E2 H2]. split; eexists; (split; [eassumption|]).
  - apply stuck_run; [by left|done].
  - apply stuck_run; [by right|done].
Qed.

(** A pool whose only task is queued when it is destroyed. *)
Definition w_stop_sys : Sys := sys_after [ASchedule 7 0 0 1; ACall 0; ACall 0].

Example pool_destroyed_witness :
  exists s', d_run (concat (replicate 138 [DOwn; DSys (AThread 1); DLate 1])) (DBegin, w_stop_sys) = Done (DEnd, s') /\
    poolStatus s' = STOPPED.
Proof.
  assert (He : executors w_stop_sys = {[1%positive := mkExecutor RUNNING (Some Delay) (Some Delay) PcWait]}) by (vm_compute; reflexivity).
  assert (Hq1 : task_ ∘ e_matrix <$> tasks_ (delayTasks_ w_stop_sys) = [mkInnerTask (User 7) 0 1 1]) by (vm_compute; reflexivity).
  assert (Hq2 : running_ (delayTasks_ w_stop_sys) = ∅) by (vm_compute; reflexivity).
  destruct (pool_destroyed 1 0 [ASchedule 7 0 0 1; ACall 0; ACall 0] w_stop_sys (replicate 138 [DOwn; DSys (AThread 1); DLate 1]))
    as (s' & E & Hp & _).
  - lia.
  - repeat constructor; cbn; lia.
  - vm_compute; reflexivity.
  - vm_compute; reflexivity.
  - split; [|rewrite Hq2; intros id m; by rewrite lookup_empty]. intros e He'.
    assert (Hin : task_ (e_matrix e) ∈ task_ ∘ e_matrix <$> tasks_ (delayTasks_ w_stop_sys)) by (by apply (list_elem_of_fmap_2 (task_ ∘ e_matrix))).
    rewrite Hq1 in Hin. apply list_elem_of_singleton in Hin. rewrite Hin. by intros [].
  - intros x e Hx. by destruct (only_executor _ _ _ _ He Hx) as [_ ->].
  - apply Forall_replicate. split; [by repeat constructor|]. split; [left|].
    intros x (e & Hx & _). destruct (only_executor _ _ _ _ He Hx) as [-> _]. split; [right; left|right; right; left].
  - by rewrite length_replicate.
  - exists s'. split; [exact E|exact Hp].
Defined.

Example destructor_can_hang_witness :
  exists s s', d_run idling_end (DBegin, sys_after idling) = Done (DWait 1 (KIdle 0), s) /\
    d_run (replicate 9 DOwn) (DWait 1 (KIdle 0), s) = Done (DWait 1 (KIdle 0), s').
Proof.
  destruct (destructor_can_hang (replicate 9 DOwn) ltac:(by apply Forall_replicate)) as [_ (s & E & s' & E')].
  exists s, s'. split; [exact E|exact E'].
Defined.
