(* ===== verification/TaskProcessor.v ===== *)
(** * Task processors

    Models the registry of task processors ([preferences_task_processor.cpp])
    and its two implementations: a pool of one executor
    ([preferences_executor_pool_task_processor.cpp]) and the threads of the
    system ([preferences_ffrt_task_processor.cpp], a parameter).  The pool is
    the transition system of [ExecutorPool]; what the library gives its pools
    to do is a run of a restricted form, for which the conditions of the
    destructor hold. *)

From S2P Require Import Prelude Pool TaskQueue ExecutorPool ExecutorPoolStop.

(** ** The registry *)

(** The static instance of one of the two subclasses. *)
Inductive Processor := PoolProcessor | FfrtProcessor.

#[export] Instance Processor_eq_dec : EqDecision Processor.
Proof. solve_decision. Defined.

(** The static member, and the flags of [std::call_once].

    [preferences_task_processor.h:23-31] PreferencesTaskProcessor *)
Record Registry := mkRegistry { instance_ : option Processor; once_pool : bool; once_ffrt : bool }.

(** [preferences_task_processor.cpp:20-20] instance_ *)
Definition Registry_new : Registry := mkRegistry None false false.

(** [preferences_task_processor.cpp:21-24] GetInstance *)
Definition GetInstance : ST Registry (option Processor) := gets instance_.

(** [preferences_task_processor.cpp:26-33] RegisterTaskProcessor *)
Definition RegisterTaskProcessor (instance : Processor) : ST Registry bool :=
  r ← get;
  match instance_ r with
  | Some _ => mret false
  | None => modify (fun r => mkRegistry (Some instance) (once_pool r) (once_ffrt r));; mret true
  end.

(** [preferences_executor_pool_task_processor.cpp:30-36] Init *)
Definition Pool_Init : ST Registry bool :=
  r ← get;
  (if once_pool r then mret tt else
     _ ← RegisterTaskProcessor PoolProcessor;
     modify (fun r => mkRegistry (instance_ r) true (once_ffrt r)));;
  mret true.

(** [preferences_ffrt_task_processor.cpp:29-35] Init *)
Definition Ffrt_Init : ST Registry bool :=
  r ← get;
  (if once_ffrt r then mret tt else
     _ ← RegisterTaskProcessor FfrtProcessor;
     modify (fun r => mkRegistry (instance_ r) (once_pool r) true));;
  mret true.

(** ** The processors *)

(** What a processor promises: take a closure over, or say that it does not.

    [preferences_task_processor.h:28-28] Execute *)
Class TaskProcessor (S : Type) := processor_Execute : nat -> SO S bool.

(** [preferences_executor_pool_task_processor.cpp:21-23] executorPool_ *)
Definition processor_pool : Sys := ExecutorPool_new 1 0.

(** [preferences_executor_pool_task_processor.cpp:25-28] Execute *)
Definition Pool_Execute (task : nat) : SO Sys bool :=
  id ← Execute task;
  mret (negb (id =? INVALID_TASK_ID)).

#[export] Instance pool_processor : TaskProcessor Sys := Pool_Execute.

Section dispatch.
Context {F : Type} (submit : nat -> ST F unit).

(** [preferences_ffrt_task_processor.cpp:23-27] Execute *)
Definition Ffrt_Execute (task : nat) : SO F bool :=
  run_st (submit task);;
  mret true.

#[export] Instance ffrt_processor : TaskProcessor F := Ffrt_Execute.

(** A process with both back ends. *)
Record Process := mkProcess { registry : Registry; pool_sys : Sys; ffrt : F }.

(** A call of the library: a null pointer is followed when no processor was
    registered.

    [preferences_impl.cpp:75-78] StartLoadFromDisk *)
Definition dispatch (task : nat) : SO Process bool := fun p =>
  match instance_ (registry p) with
  | None => Undef
  | Some PoolProcessor => '(r, s) ← processor_Execute (S := Sys) task (pool_sys p); Done (r, mkProcess (registry p) s (ffrt p))
  | Some FfrtProcessor => '(r, f) ← processor_Execute (S := F) task (ffrt p); Done (r, mkProcess (registry p) (pool_sys p) f)
  end.
End dispatch.

(** ** What the library gives a pool to do *)

(** Tasks to run at once, or once after a while; nothing is taken back. *)
Definition library_action (a : Action) : Prop :=
  match a with
  | AExecute _ => True
  | ASchedule _ delay interval times => 0 <= delay /\ interval = INVALID_INTERVAL /\ times = 1
  | ARemove _ _ | AReset _ _ => False
  | ACall _ | AThread _ | ATimeout _ | ATick _ => True
  end.

Lemma library_sane a : library_action a -> sane a.
Proof. destruct a; cbn; try done. intros (_ & -> & _). done. Qed.

(** Every step keeps the queue of delayed tasks free of tasks that repeat. *)
Section keeps.
#[local] Abbreviation keeps m := (leads none_repeats m (fun _ => none_repeats)).

Lemma nr_ret {A} (a : A) : keeps (mret a : SO Sys A).
Proof. by apply leads_ret. Qed.

Lemma nr_undef {A} : keeps (run_out Undef : SO Sys A).
Proof. by intros s a s' _ [=]. Qed.

Lemma nr_thrown {A} : keeps (run_out Thrown : SO Sys A).
Proof. by intros s a s' _ [=]. Qed.

Lemma nr_bind {A B} (m : SO Sys A) (k : A -> SO Sys B) : keeps m -> (forall a, keeps (k a)) -> keeps (m ≫= k).
Proof. intros Hm Hk. eapply leads_bind; [exact Hm|exact Hk]. Qed.

Lemma nr_get : keeps (run_st get : SO Sys Sys).
Proof. by apply leads_st. Qed.

Lemma nr_modify (f : Sys -> Sys) : (forall s, delayTasks_ (f s) = delayTasks_ s) -> keeps (run_st (modify f)).
Proof. intros Hf. apply leads_st. intros s Hs. unfold none_repeats. cbn. by rewrite Hf. Qed.

Lemma nr_id : keeps (run_st GenId).
Proof. apply leads_st. intros s Hs. unfold GenId. by destruct (GenTaskId (taskId_ s)). Qed.

Lemma nr_pool {A} (m : SO Pool A) : keeps (on_pool m).
Proof. intros s a s' Hs. unfold on_pool. destruct (m (pool_ s)) as [[b p]| | |]; [|done..]. by intros [= <- <-]. Qed.

Lemma nr_execs {A} (m : SO TaskQueue A) : keeps (on_queue Execs m).
Proof.
  intros s a s' Hs. unfold on_queue. cbn [queue_of]. destruct (execs_ s) as [q|]; [|done].
  destruct (m q) as [[b q']| | |]; [|done..]. by intros [= <- <-].
Qed.

Lemma nr_delay {A} (m : ST TaskQueue A) :
  (forall q, pq_all (fun t => ~ repeats t) q -> pq_all (fun t => ~ repeats t) (snd (m q))) -> keeps (on_queue Delay (run_st m)).
Proof. intros Hm s a s' Hs. rewrite on_delay_st. intros [= <- <-]. by apply Hm. Qed.

Lemma nr_size q : keeps (queue_size q).
Proof. destruct q; [by apply nr_delay|apply nr_execs]. Qed.

Lemma nr_push t id tm : ~ repeats t -> keeps (on_queue Delay (run_st (PQ_Push Task_Valid t id tm))).
Proof. intros Ht. apply nr_delay. intros q Hq. by apply pq_all_Push. Qed.

Lemma nr_pop q now : keeps (on_queue q (run_st (Pop invalid_task now))).
Proof.
  destruct q; [|apply nr_execs]. apply nr_delay. intros q Hq.
  pose proof (pq_all_Pop invalid_task (fun t => ~ repeats t) now q Hq) as H. destruct (Pop _ _ _). apply H.
Qed.

Lemma nr_finish q now id : keeps (on_queue q (run_st (Finish (queue_updater q) now id))).
Proof.
  destruct q; [|apply nr_execs]. apply nr_delay. intros q Hq. apply pq_all_Finish; [|done].
  intros t Ht. unfold repeats in *. cbn [queue_updater]. unfold NextTimer. case_match; [done|].
  cbn [times interval]. by case_match.
Qed.

Lemma nr_register x : keeps (run_st (register x)).
Proof. by apply nr_modify. Qed.

Lemma nr_executor x e : keeps (run_st (set_executor x e)).
Proof. by apply nr_modify. Qed.

Lemma nr_calls c : keeps (run_st (begin_call c)).
Proof. by apply nr_modify. Qed.

(** The steps of a computation, one after the other. *)
Local Ltac keep :=
  repeat first
    [ apply nr_ret | apply nr_undef | apply nr_thrown | apply nr_get | apply nr_id | apply nr_pool | apply nr_execs
    | apply nr_size | apply nr_pop | apply nr_finish | apply nr_register
    | apply nr_executor | apply nr_calls | (apply nr_modify; done)
    | (apply nr_bind; [|intros ?]) | case_match ].

Lemma nr_flight c : keeps (flight_step c).
Proof. unfold flight_step, Bind. keep. Qed.

Lemma nr_Schedule f delay interval times : interval = INVALID_INTERVAL -> keeps (Schedule_inner f delay interval times).
Proof. intros ->. unfold Schedule_inner. keep; apply nr_push; unfold repeats; cbn; by intros []. Qed.

Lemma nr_Execute f : keeps (Execute f).
Proof.
  unfold Execute. apply nr_bind; [apply nr_get|]. intros s. case_match; [apply nr_ret|].
  destruct (execs_ s); [unfold execute_push; keep|by apply nr_Schedule].
Qed.

Lemma nr_thread x e : keeps (thread_step x e).
Proof. unfold thread_step, exec_task, execute_push, idle_lambda, set_pc. keep. Qed.

Lemma nr_step a : library_action a -> keeps (sys_step a).
Proof.
  intros Ha. unfold sys_step. apply nr_bind; [apply nr_get|]. intros s.
  destruct a as [f|f delay interval times| | |i|x|x|n]; try done.
  - apply nr_bind; [apply nr_Execute|intros; apply nr_ret].
  - apply nr_bind; [apply nr_Schedule, Ha|intros; apply nr_ret].
  - destruct (calls s !! i); [|apply nr_ret]. apply nr_bind; [apply nr_flight|intros; by apply nr_modify].
  - destruct (executors s !! x); [apply nr_thread|apply nr_ret].
  - destruct (executors s !! x); [|apply nr_ret]. unfold thread_timeout, set_pc. repeat case_match; (apply nr_executor || by apply leads_st).
  - by apply nr_modify.
Qed.

Lemma nr_run as_ : Forall library_action as_ -> keeps (sys_run as_).
Proof.
  induction 1 as [|a as_ Ha _ IH]; [apply nr_ret|]. cbn [sys_run]. apply nr_bind; [by apply nr_step|done].
Qed.
End keeps.

Lemma none_repeats_new max min : none_repeats (ExecutorPool_new max min).
Proof.
  unfold ExecutorPool_new. destruct (1 <? max); (split; cbn; [intros e He; inv He|intros id m; by rewrite lookup_empty]).
Qed.

(** ** Properties *)

Inductive InitCall := InitPool | InitFfrt.

Definition init_call (c : InitCall) : ST Registry bool :=
  match c with InitPool => Pool_Init | InitFfrt => Ffrt_Init end.

Fixpoint init_calls (cs : list InitCall) : ST Registry unit :=
  match cs with [] => mret tt | c :: cs' => _ ← init_call c; init_calls cs' end.

Definition processor_of (c : InitCall) : Processor :=
  match c with InitPool => PoolProcessor | InitFfrt => FfrtProcessor end.

Lemma instance_stays c r p : instance_ r = Some p -> instance_ (snd (init_call c r)) = Some p.
Proof.
  intros Hp. destruct r as [i b1 b2]. cbn in Hp. subst i. by destruct c, b1, b2.
Qed.

(** The processor whose file is initialised first serves the process: each
    [Init] says that it succeeded, but registering another processor later
    changes nothing. *)
Theorem first_processor_serves (c : InitCall) (cs : list InitCall) :
  instance_ (snd (init_calls (c :: cs) Registry_new)) = Some (processor_of c).
Proof.
  cbn [init_calls]. unfold mbind, st_bind.
  assert (H0 : instance_ (snd (init_call c Registry_new)) = Some (processor_of c)) by (by destruct c).
  destruct (init_call c Registry_new) as [b r]. cbn [snd] in H0. clear b.
  revert r H0. induction cs as [|c' cs IH]; intros r Hr; [done|].
  cbn [init_calls]. unfold mbind, st_bind. pose proof (instance_stays c' r _ Hr) as H1.
  destruct (init_call c' r) as [b r']. by apply IH.
Qed.

Lemma GenTaskId_valid c : (GenTaskId c).1 <> INVALID_TASK_ID.
Proof.
  unfold GenTaskId. destruct (_ =? _) eqn:E; cbn [fst]; bools; [|done]. rewrite E. by vm_compute.
Qed.

(** The pool of the library takes a closure over as long as it is not being
    destroyed: the closure is then queued to run once, at once, behind the
    tasks that are due by now, and a call that sees to a scheduler is in
    flight. *)
Theorem Pool_Execute_accepts (f : nat) (s : Sys) (Hexecs : execs_ s = None) :
  exists r s', Pool_Execute f s = Done (r, s') /\
    (poolStatus s <> RUNNING -> r = false /\ s' = s) /\
    (poolStatus s = RUNNING -> r = true /\ calls s' = calls s ++ [CSched] /\
      exists e, tasks_ (delayTasks_ s') = insert_entry e (tasks_ (delayTasks_ s)) /\ e_time e = clock s /\
        exec (task_ (e_matrix e)) = User f /\ interval (task_ (e_matrix e)) = INVALID_INTERVAL).
Proof.
  unfold Pool_Execute, Execute, mbind at 1, so_bind at 1. rewrite so_bind_st. cbn [get fst snd].
  destruct (decide (poolStatus s = RUNNING)) as [Hs|Hs].
  2: { rewrite bool_decide_eq_false_2 by done. cbn. eexists _, _. split; [reflexivity|]. by split; [intros _|]. }
  rewrite bool_decide_eq_true_2, Hexecs by done. cbn [negb]. rewrite Schedule_inner_eq by done. cbv zeta.
  set (id := (GenTaskId (taskId_ s)).1). assert (Hid : id <> INVALID_TASK_ID) by apply GenTaskId_valid.
  eexists _, _. split; [reflexivity|]. split; [done|]. intros _. split; [|split; [done|]].
  - apply negb_true_iff. by apply Z.eqb_neq.
  - cbn [delayTasks_ set_calls set_delay set_taskId]. rewrite PQ_Push_valid.
    + cbn [snd tasks_]. eexists. split; [reflexivity|]. cbn. split; [lia|done].
    + unfold Task_Valid. cbn [taskId]. apply negb_true_iff. by apply Z.eqb_neq.
Qed.

(** C36: The pools of the library can be destroyed.  With what the library gives
    them to do no task ever repeats, so that the destructor returns from every
    state which they reach and in which no call is in flight and no executor is
    on its way out.  A round consists of steps of the destructor, of the
    threads and of the clock, in any order and number, with at least one of the
    destructor and of every thread, and with the end of the time for which an
    executor that was told to stop goes on waiting; after 138 rounds the pool is
    stopped, it counts no executor and every thread has ended.  A round has no
    calls of the application, and no executor runs out of time in it before it
    was told to stop. *)
Theorem library_pool_destroyed (as_ : list Action) (s : Sys) (rounds : list (list DAction))
    (Ha : Forall library_action as_) (Hrun : sys_run as_ processor_pool = Done (tt, s))
    (Hcalls : calls s = []) (Hrelease : none_releases s)
    (Hrounds : Forall (round s) rounds) (Hlen : (138 <= length rounds)%nat) :
  exists s', d_run (concat rounds) (DBegin, s) = Done (DEnd, s') /\ poolStatus s' = STOPPED /\
    current_ (pool_ s') = 0 /\ forall x e, executors s' !! x = Some e -> pc e = PcStopped.
Proof.
  assert (Hs : Forall sane as_) by (eapply Forall_impl; [exact Ha|apply library_sane]).
  assert (Hn : none_repeats s) by (eapply (nr_run as_ Ha); [apply (none_repeats_new 1 0)|exact Hrun]).
  destruct (pool_destroyed 1 0 as_ s rounds ltac:(lia) Hs Hrun Hcalls Hn Hrelease Hrounds Hlen) as (s' & E & Hp & Hc & _ & Hx).
  by exists s'.
Qed.

(** The library runs one task, and the pool is destroyed. *)
Example library_pool_destroyed_witness :
  exists s', d_run (concat (replicate 138 [DOwn; DSys (AThread 1); DLate 1])) (DBegin, w_stop_sys) = Done (DEnd, s') /\
    poolStatus s' = STOPPED.
Proof.
  assert (He : executors w_stop_sys = {[1%positive := mkExecutor RUNNING (Some Delay) (Some Delay) PcWait]}) by (vm_compute; reflexivity).
  destruct (library_pool_destroyed [ASchedule 7 0 0 1; ACall 0; ACall 0] w_stop_sys (replicate 138 [DOwn; DSys (AThread 1); DLate 1]))
    as (s' & E & Hp & _).
  - repeat constructor; cbn; lia.
  - vm_compute; reflexivity.
  - vm_compute; reflexivity.
  - intros x e Hx. by destruct (only_executor _ _ _ _ He Hx) as [_ ->].
  - apply Forall_replicate. split; [by repeat constructor|]. split; [left|].
    intros x (e & Hx & _). destruct (only_executor _ _ _ _ He Hx) as [-> _]. split; [right; left|right; right; left].
  - by rewrite length_replicate.
  - exists s'. split; [exact E|exact Hp].
Defined.

Example Pool_Execute_accepts_witness :
  execs_ processor_pool = None /\ exists s', Pool_Execute 3 processor_pool = Done (true, s').
Proof.
  split; [done|]. destruct (Pool_Execute_accepts 3 processor_pool eq_refl) as (r & s' & E & _ & H).
  destruct (H eq_refl) as [-> _]. by exists s'.
Defined.
