(* ===== verification/PoolSequence.v ===== *)
(** * One executor runs its tasks one by one

    An abstract specification of the pools of the library ([executor.h] and
    [executor_pool.h] with one executor): a machine that keeps closures in the
    order in which they are due, takes the first one that is due, and runs it
    before it takes the next.  The transition system of [ExecutorPool], with
    all its interleavings of calls, threads and time-outs, refines it. *)

From S2P Require Import Prelude Pool TaskQueue ExecutorPool ExecutorPoolStop TaskProcessor.

(** ** The sequential machine *)

Record Sequence := mkSeq {
  s_queue : list (Z * nat);          (** when it is due, and the closure *)
  s_running : option nat;
  s_log : list nat;
  s_clock : Z
}.

Definition Seq_new : Sequence := mkSeq [] None [] 0.

(** Behind those that are due no later. *)
Fixpoint insert_timed (e : Z * nat) (l : list (Z * nat)) : list (Z * nat) :=
  match l with
  | [] => [e]
  | x :: l' => if x.1 <=? e.1 then x :: insert_timed e l' else e :: l
  end.

(** A step; the label is what it is asked for, a closure to run after a delay. *)
Inductive seq_step : option (Z * nat) -> Sequence -> Sequence -> Prop :=
  | seq_give d f q r l c : 0 <= d ->
      seq_step (Some (d, f)) (mkSeq q r l c) (mkSeq (insert_timed (c + d, f) q) r l c)
  | seq_take t f q l c : t <= c ->
      seq_step None (mkSeq ((t, f) :: q) None l c) (mkSeq q (Some f) l c)
  | seq_end f q l c : seq_step None (mkSeq q (Some f) l c) (mkSeq q None (l ++ [f]) c)
  | seq_tick n q r l c : seq_step None (mkSeq q r l c) (mkSeq q r l (c + Z.of_nat n))
  | seq_stay s : seq_step None s s.

(** Several steps, with what they are asked for in order. *)
Inductive seq_steps : list (Z * nat) -> Sequence -> Sequence -> Prop :=
  | seq_done s : seq_steps [] s s
  | seq_next o rs s1 s2 s3 : seq_step o s1 s2 -> seq_steps rs s2 s3 -> seq_steps (option_list o ++ rs) s1 s3.

(** The closures that the machine has, the oldest first. *)
Definition s_closures (s : Sequence) : list nat := s_log s ++ option_list (s_running s) ++ map snd (s_queue s).

Lemma insert_timed_perm e l : insert_timed e l ≡ₚ e :: l.
Proof. induction l as [|x l IH]; cbn; [done|]. case_match; [|done]. rewrite IH. apply perm_swap. Qed.

Lemma insert_timed_last e l : Forall (fun x => x.1 <= e.1) l -> insert_timed e l = l ++ [e].
Proof. induction 1 as [|x l Hx _ IH]; [done|]. cbn. by rewrite (proj2 (Z.leb_le _ _) Hx), IH. Qed.

Lemma seq_step_conserves o s s' : seq_step o s s' -> s_closures s' ≡ₚ s_closures s ++ option_list (snd <$> o).
Proof.
  unfold s_closures. intros []; cbn; rewrite ?app_nil_r; try done.
  - rewrite insert_timed_perm. cbn [map snd]. rewrite <- Permutation_cons_append. solve_Permutation.
  - by rewrite <- app_assoc.
Qed.

(** Nothing is lost, and nothing runs twice. *)
Lemma seq_conserves rs s s' : seq_steps rs s s' -> s_closures s' ≡ₚ s_closures s ++ map snd rs.
Proof.
  induction 1 as [|o rs s1 s2 s3 H1 _ IH]; [cbn; by rewrite app_nil_r|].
  rewrite IH, (seq_step_conserves _ _ _ H1), map_app, <- app_assoc. by destruct o.
Qed.

(** Closures with the same delay run in the order in which they are given. *)
Definition due_within (d : Z) (s : Sequence) : Prop := Forall (fun x => x.1 <= s_clock s + d) (s_queue s).

Lemma seq_step_fifo d o s s' : seq_step o s s' -> due_within d s -> (forall r, o = Some r -> r.1 = d) ->
  s_closures s' = s_closures s ++ option_list (snd <$> o) /\ due_within d s'.
Proof.
  unfold s_closures, due_within. intros [] Hd Ho; cbn in *; rewrite ?app_nil_r; try done.
  - specialize (Ho _ eq_refl). cbn in Ho. subst d0. rewrite insert_timed_last by done. rewrite map_app, <- !app_assoc.
    split; [done|]. apply Forall_app. split; [done|]. by repeat constructor.
  - by apply Forall_cons in Hd as [_ ?].
  - by rewrite <- app_assoc.
  - split; [done|]. eapply Forall_impl; [exact Hd|]. intros x Hx; cbn in *; lia.
Qed.

Lemma seq_fifo d rs s s' : seq_steps rs s s' -> due_within d s -> Forall (fun r => r.1 = d) rs ->
  s_closures s' = s_closures s ++ map snd rs /\ due_within d s'.
Proof.
  induction 1 as [|o rs s1 s2 s3 H1 _ IH]; intros Hd Hrs; [cbn; by rewrite app_nil_r|].
  apply Forall_app in Hrs as [Ho Hrs]. destruct (seq_step_fifo d o s1 s2 H1 Hd) as [E Hd2].
  { intros r ->. by apply Forall_cons in Ho as [? _]. }
  destruct (IH Hd2 Hrs) as [-> Hd3]. split; [|done]. rewrite E, map_app, <- app_assoc. by destruct o.
Qed.

(** ** The pool as such a machine *)

Definition closure_of (t : Task) : option nat := match exec t with User f => Some f | _ => None end.

(** The closure that the scheduler has taken and not run. *)
Definition executing (s : Sys) : option nat :=
  match scheduler_ s ≫= fun x => executors s !! x with
  | Some e => match pc e with PcExec t None => closure_of t | _ => None end
  | None => None
  end.

Definition timed (e : @Entry Task) : Z * nat := (e_time e, default 0%nat (closure_of (task_ (e_matrix e)))).

Definition sequence_of (s : Sys) : Sequence :=
  mkSeq (map timed (tasks_ (delayTasks_ s))) (executing s) (log s) (clock s).

(** What a call of the application asks for. *)
Definition request (a : Action) : option (Z * nat) :=
  match a with AExecute f => Some (0, f) | ASchedule f delay _ _ => Some (delay, f) | _ => None end.

Lemma timed_insert e l : map timed (insert_entry e l) = insert_timed (timed e) (map timed l).
Proof. induction l as [|x l IH]; [done|]. cbn. case_match; cbn; [by rewrite IH|done]. Qed.

Lemma executing_none st s : inv_at st s -> (forall x, st <> SBound x) -> executing s = None.
Proof.
  intros Hi Hst. unfold executing. pose proof (ia_sched _ _ Hi) as Hsc. destruct st as [|x|x|x]; cbn in Hsc; rewrite Hsc; try done.
  - destruct (ia_exec _ _ Hi x eq_refl) as (e & He & _ & _ & Hp). cbn. rewrite He. by destruct Hp as [->|[->| ->]].
  - by destruct (Hst x).
Qed.

Lemma executing_bound x p s : inv_at (SBound x) s -> executors s !! x = Some (serving p) ->
  executing s = match p with PcExec t None => closure_of t | _ => None end.
Proof. intros Hi He. unfold executing. rewrite (ia_sched _ _ Hi). cbn. by rewrite He. Qed.

Lemma not_bound st s : inv_at st s -> scheduler_ s = None \/ mtx_ s = true -> forall x, st <> SBound x.
Proof. intros Hi [H|H] x ->; [by rewrite (ia_sched _ _ Hi) in H|by rewrite (ia_mtx _ _ Hi) in H]. Qed.

Lemma is_not_bound st s : inv_at st s -> (forall x, st <> SBound x) -> scheduler_ s = None \/ mtx_ s = true.
Proof.
  intros Hi Hst. rewrite (ia_sched _ _ Hi), (ia_mtx _ _ Hi). destruct st; [by left|by left|by right|by edestruct Hst].
Qed.

Lemma sequence_same s s' : same_tasks s s' -> executing s' = executing s -> sequence_of s' = sequence_of s.
Proof. intros (H1 & H2 & H3 & _) H4. unfold sequence_of. by rewrite H1, H2, H3, H4. Qed.

(** ** The simulation *)

#[export] Instance stage_eq_dec : EqDecision stage.
Proof. solve_decision. Defined.

(** What holds between the steps of a pool of the library. *)
Record served (s : Sys) : Prop := {
  sv_inv : sys_inv s;
  sv_once : none_repeats s;
  sv_running : poolStatus s = RUNNING
}.

(** A step that the machine takes too. *)
Definition simulated (o : option (Z * nat)) (s s' : Sys) : Prop :=
  poolStatus s' = poolStatus s /\ seq_step o (sequence_of s) (sequence_of s').

Lemma simulated_same s s' : same_tasks s s' -> executing s' = executing s -> simulated None s s'.
Proof. intros Hs He. split; [apply Hs|]. rewrite (sequence_same s s' Hs He). constructor. Qed.

(** A step that leaves the tasks alone while no closure is being run. *)
Lemma simulated_idle st st' s s' : inv_at st s -> inv_at st' s' -> same_tasks s s' ->
  (forall x, st <> SBound x) -> scheduler_ s' = None \/ mtx_ s' = true -> simulated None s s'.
Proof.
  intros Hi Hi' Hs Hst Hst'. apply simulated_same; [done|].
  rewrite (executing_none st s Hi Hst). apply (executing_none st'); [done|]. by apply (not_bound st' s').
Qed.

Lemma sim_Schedule f delay s id s' : served s -> 0 <= delay ->
  Schedule_inner f delay INVALID_INTERVAL 1 s = Done (id, s') \/
  Schedule_inner f delay INVALID_INTERVAL UNLIMITED_TIMES s = Done (id, s') -> simulated (Some (delay, f)) s s'.
Proof.
  intros [[st Hi] _ _] Hd H. pose proof (ia_execs _ _ Hi) as He.
  assert (Hpush : forall times, Schedule_inner f delay INVALID_INTERVAL times s = Done (id, s') -> simulated (Some (delay, f)) s s').
  { clear H. intros times. rewrite Schedule_inner_eq by done. rewrite PQ_Push_valid.
    2: { unfold Task_Valid. cbn [taskId]. apply negb_true_iff, Z.eqb_neq, GenTaskId_valid. }
    intros [= _ <-]. split; [done|]. unfold sequence_of. cbn [delayTasks_ set_calls set_delay set_taskId tasks_ snd log clock].
    rewrite timed_insert. change (executing _) with (executing s). by constructor. }
  destruct H as [H|H]; by eapply Hpush.
Qed.

Lemma sim_Execute f s id s' : served s -> Execute f s = Done (id, s') -> simulated (Some (0, f)) s s'.
Proof.
  intros Hs. pose proof Hs as [[st Hi] _ Hr]. unfold Execute. rewrite so_bind_st. cbn [get fst snd].
  rewrite bool_decide_eq_true_2 by done. cbn [negb]. rewrite (ia_execs _ _ Hi). intros E.
  eapply sim_Schedule; [done|lia|by right].
Qed.

Lemma sim_call i s s' : served s -> sys_step (ACall i) s = Done (tt, s') -> simulated None s s'.
Proof.
  intros [[st Hi] _ _] E. destruct (ok_call i s ltac:(by exists st)) as ([] & s0 & E0 & [st' Hi']).
  assert (s0 = s') as -> by congruence. clear E0. revert E. unfold sys_step. rewrite so_bind_st. cbn [get fst snd].
  destruct (calls s !! i) as [c|] eqn:Hc; [|intros [= <-]; by apply simulated_same].
  unfold flight_step. unfold mbind at 1, so_bind at 1. rewrite so_bind_st. cbn [get fst snd].
  destruct (ia_calls _ _ Hi c) as [->|[x ->]]; [by eapply list_elem_of_lookup_2| |].
  - destruct (mtx_ s) eqn:Em; [cbn -[insert]; intros [= <-]; by apply simulated_same|].
    destruct (scheduler_ s) as [x|] eqn:Es; [cbn -[delete]; intros [= <-]; by apply simulated_same|].
    destruct (calls_split _ _ _ Hc) as (l1 & l2 & Hcalls & Hdel & Hins).
    destruct (inv_take st s l1 l2 Hi Es Hcalls) as (x & p & E & _).
    unfold mbind at 1, so_bind at 1. rewrite (on_pool_eq _ _ _ _ E), so_bind_st, so_bind_st. cbn -[insert register].
    intros E'. injection E' as E'. apply (simulated_idle st st'); [done|done| | |].
    + by rewrite <- E'.
    + by apply (not_bound st s Hi); left.
    + right. by rewrite <- E'.
  - destruct (calls_split _ _ _ Hc) as (l1 & l2 & Hcalls & Hdel & Hins).
    pose proof (ia_bind _ _ Hi) as Hb. rewrite Hcalls in Hb.
    assert (st = SBinding x) as ->.
    { destruct st as [|y|y|y]; try by apply filter_bind_some in Hb. apply filter_bind_only in Hb as [[= ->] _]. done. }
    destruct (ia_exec _ _ Hi x eq_refl) as (e & He & _ & _ & Hp). rewrite He.
    destruct (mutex_free e) eqn:Em; [|cbn -[insert]; intros [= <-]; by apply simulated_same].
    rewrite so_bind_st, so_bind_st. cbn -[delete Bind]. intros [= <-]. apply simulated_same; [done|].
    rewrite (executing_none _ s Hi) by done. unfold executing. cbn. rewrite (ia_sched _ _ Hi). cbn.
    rewrite lookup_insert_eq. cbn. by destruct Hp as [->|[->| ->]].
Qed.

(** An executor that serves no queue does nothing to the tasks. *)
Lemma parked_step x e s s' : parked e -> thread_step x e s = Done (tt, s') ->
  same_tasks s s' /\ scheduler_ s' = scheduler_ s /\ mtx_ s' = mtx_ s.
Proof.
  destruct e as [r w b c]. intros (Hr & Hw & Hp). cbn in Hr, Hw, Hp. subst r w. unfold thread_step. cbn [pc status waits_ bound_].
  destruct Hp as [->|[->| ->]]; rewrite so_bind_st; cbn [get fst snd]; [by intros [= <-]..|].
  unfold mbind, so_bind, on_pool. destruct (Pool_Release _ _ _) as [[[] p]| | |]; [| |done..]; cbn; by intros [= <-].
Qed.

Lemma finish_once id s st : inv_at st s -> none_repeats s ->
  tasks_ (snd (Finish NextTimer (clock s) id (delayTasks_ s))) = tasks_ (delayTasks_ s).
Proof.
  intros Hi [_ Hn]. unfold Finish, mbind, st_bind, get, mret, st_ret.
  destruct (running_ (delayTasks_ s) !! id) as [it|] eqn:Ei; [|done].
  unfold NextTimer. specialize (Hn _ _ Ei). unfold repeats in Hn.
  rewrite (proj2 (Z.eqb_eq _ _)); [done|]. by destruct (decide (interval (task_ it) = INVALID_INTERVAL)).
Qed.

Lemma serve_executing x p s s1 : inv_at (SBound x) s -> scheduler_ s1 = scheduler_ s ->
  executing (serve x p s1) = match p with PcExec t None => closure_of t | _ => None end.
Proof. intros Hi Hs. unfold executing, serve. cbn. rewrite Hs, (ia_sched _ _ Hi). cbn. by rewrite lookup_insert_eq. Qed.

Lemma sim_serving x p s s' : served s -> inv_at (SBound x) s -> executors s !! x = Some (serving p) -> serving_pc p ->
  thread_step x (serving p) s = Done (tt, s') -> simulated None s s'.
Proof.
  intros Hsv Hi Hx Hp E. pose proof (serve_step x p s Hi Hp) as Hs. cbv zeta in Hs.
  pose proof (executing_bound x p s Hi Hx) as Hex.
  assert (Hquiet : forall p' s1, same_tasks s s1 -> scheduler_ s1 = scheduler_ s -> s' = serve x p' s1 ->
    (forall t, p' <> PcExec t None) -> executing s = None -> simulated None s s').
  { intros p' s1 H1 H2 -> H3 H4. apply simulated_same; [exact H1|]. rewrite (serve_executing x p' s s1 Hi H2), H4.
    destruct p' as [| | |t [c|]|id| | | |]; try done. by destruct (H3 t). }
  destruct p as [| | |t c|id| | | |]; try done; rewrite E in Hs.
  - injection Hs as Hs. by eapply (Hquiet PcLoop s).
  - injection Hs as Hs. eapply (Hquiet _ s); [done|done|exact Hs|by case_match|done].
  - unfold Pop in Hs. destruct (tasks_ (delayTasks_ s)) as [|e rest] eqn:Eq.
    + assert (s' = serve x (PcExec invalid_task None) (set_delay (delayTasks_ s) s)) as -> by by injection Hs.
      apply simulated_same; [done|]. by rewrite (serve_executing x _ s (set_delay _ s) Hi eq_refl).
    + destruct (clock s <? e_time e) eqn:Et; bools; injection Hs as Hs.
      { subst s'. apply simulated_same; [done|]. by rewrite set_delay_id. }
      subst s'. split; [done|]. unfold sequence_of. cbn [delayTasks_ serve set_executors set_delay tasks_].
      rewrite (serve_executing x _ s (set_delay _ s) Hi eq_refl), Hex, Eq. cbn [map].
      destruct (proj1 (ia_tasks _ _ Hi) e ltac:(rewrite Eq; left)) as [[f Hf] _].
      assert (Hc : closure_of (task_ (e_matrix e)) = Some f) by (unfold closure_of; by rewrite Hf).
      unfold timed at 1. rewrite Hc. by constructor.
  - destruct Hp as [-> Ht]. assert (s' = serve x (PcFinish (taskId t)) (set_log (log s ++ closures_of t) s)) as -> by by injection Hs.
    split; [done|]. unfold sequence_of. rewrite (serve_executing x _ s (set_log _ s) Hi eq_refl), Hex.
    unfold closures_of, closure_of. cbn [serve set_executors set_log delayTasks_ log clock]. destruct (exec t); [|constructor|];
      rewrite app_nil_r; constructor.
  - assert (s' = serve x PcLoop (set_delay (snd (Finish NextTimer (clock s) id (delayTasks_ s))) s)) as -> by by injection Hs.
    split; [done|]. unfold sequence_of. rewrite (serve_executing x _ s (set_delay _ s) Hi eq_refl), Hex.
    cbn [serve set_executors set_delay delayTasks_ log clock]. rewrite (finish_once id s _ Hi (sv_once _ Hsv)). constructor.
  - destruct (bool_decide _).
    + destruct Hs as (s0 & E0 & Hi0 & Hsame). injection E0 as <-. apply simulated_same; [done|].
      rewrite Hex. by eapply executing_none.
    + injection Hs as Hs. by eapply (Hquiet PcTimed s).
  - injection Hs as Hs. by eapply (Hquiet PcWait s).
Qed.

Lemma sim_thread y s s' : served s -> sys_step (AThread y) s = Done (tt, s') -> simulated None s s'.
Proof.
  intros Hs E. pose proof Hs as [[st Hi] _ _]. destruct (ok_thread y s ltac:(by exists st)) as ([] & s0 & E0 & [st' Hi']).
  assert (s0 = s') as -> by congruence. clear E0. revert E. unfold sys_step. rewrite so_bind_st. cbn [get fst snd].
  destruct (executors s !! y) as [e|] eqn:He; [|intros [= <-]; by apply simulated_same].
  destruct (ia_others _ _ Hi _ _ He) as [Hst|Hp].
  2: { unfold thread_step. rewrite so_bind_st, Hp. intros [= <-]. by apply simulated_same. }
  destruct (decide (st = SBound y)) as [->|Hne].
  - destruct (bound_executor _ _ Hi) as (p & Ep & Hp). assert (e = serving p) as -> by congruence. by apply sim_serving.
  - assert (Hnb : forall x, st <> SBound x) by (intros x ->; cbn in Hst; congruence).
    destruct (ia_exec _ _ Hi y Hst) as (e' & He' & Hse). assert (e' = e) as -> by congruence.
    assert (Hp : parked e) by (destruct st; [done|apply Hse|apply Hse|by edestruct Hnb]).
    intros E. destruct (parked_step y e s s' Hp E) as (Hsame & Hsch & Hm).
    apply (simulated_idle st st'); [done..|]. rewrite Hsch, Hm. by apply (is_not_bound st).
Qed.

Lemma sim_timeout y s s' : served s -> sys_step (ATimeout y) s = Done (tt, s') -> simulated None s s'.
Proof.
  intros Hs E. pose proof Hs as [[st Hi] _ _]. destruct (ok_timeout y s ltac:(by exists st)) as ([] & s0 & E0 & [st' Hi']).
  assert (s0 = s') as -> by congruence. clear E0. revert E. unfold sys_step. rewrite so_bind_st. cbn [get fst snd].
  destruct (executors s !! y) as [e|] eqn:He; [|intros [= <-]; by apply simulated_same].
  unfold run_st, thread_timeout. destruct (ia_others _ _ Hi _ _ He) as [Hst|Hp].
  2: { rewrite Hp. cbn. intros [= <-]. by apply simulated_same. }
  destruct (decide (st = SBound y)) as [->|Hne].
  - destruct (bound_executor _ _ Hi) as (p & Ep & Hp). assert (e = serving p) as -> by congruence. cbn.
    destruct p; intros [= <-]; by apply simulated_same.
  - assert (Hnb : forall x, st <> SBound x) by (intros x ->; cbn in Hst; congruence).
    intros E. apply (simulated_idle st st'); [done|done| |done|].
    + revert E. repeat case_match; cbn; by intros [= <-].
    + destruct (is_not_bound st s Hi Hnb); [left|right]; revert E; repeat case_match; cbn; by intros [= <-].
Qed.

Lemma sim_step a s s' : library_action a -> served s -> sys_step a s = Done (tt, s') -> simulated (request a) s s'.
Proof.
  intros Ha Hs E. assert (Hcall : forall (m : SO Sys Z) o, (forall r s1, m s = Done (r, s1) -> simulated o s s1) ->
    (_ ← m; mret tt) s = Done (tt, s') -> simulated o s s').
  { intros m o Hm. unfold mbind, so_bind. destruct (m s) as [[r s1]| | |] eqn:Em; [|done..]. intros [= <-]. by eapply Hm. }
  destruct a as [f|f delay interval times| | |i|x|x|n]; try done;
    [| |by eapply sim_call|by eapply sim_thread|by eapply sim_timeout|];
    revert E; unfold sys_step; rewrite so_bind_st; cbn [get fst snd].
  - apply Hcall. intros r s1. by apply sim_Execute.
  - destruct Ha as (Hd & -> & ->). apply Hcall. intros r s1 E. eapply sim_Schedule; [done|done|by left].
  - intros [= <-]. split; [done|]. apply seq_tick.
Qed.

Lemma served_step a s : library_action a -> served s ->
  exists s', sys_step a s = Done (tt, s') /\ served s' /\ simulated (request a) s s'.
Proof.
  intros Ha Hs. pose proof Hs as [Hi Hn Hr]. destruct (ok_step a s (library_sane _ Ha) Hi) as ([] & s' & E & Hi').
  pose proof (sim_step a s s' Ha Hs E) as Hsim. exists s'. split; [done|]. split; [|done].
  split; [done|by eapply (nr_step a Ha)|]. by rewrite (proj1 Hsim).
Qed.

Lemma served_run as_ s : Forall library_action as_ -> served s ->
  exists s', sys_run as_ s = Done (tt, s') /\ served s' /\ seq_steps (omap request as_) (sequence_of s) (sequence_of s').
Proof.
  intros Ha. revert s. induction Ha as [|a as_ Ha _ IH]; intros s Hs; [exists s; split_and!; [done|done|constructor]|].
  destruct (served_step a s Ha Hs) as (s1 & E & Hs1 & _ & Hsim). destruct (IH s1 Hs1) as (s2 & E2 & Hs2 & Hsim2).
  exists s2. cbn [sys_run]. rewrite (so_bind_Done _ _ _ _ _ E). split; [done|]. split; [done|].
  replace (omap request (a :: as_)) with (option_list (request a) ++ omap request as_); [by econstructor|].
  cbn. by destruct (request a).
Qed.

Lemma served_new min : served (ExecutorPool_new 1 min).
Proof. split; [by apply sys_inv_new|by apply none_repeats_new|done]. Qed.

Lemma sequence_new min : sequence_of (ExecutorPool_new 1 min) = Seq_new.
Proof. done. Qed.

(** From an empty pool. *)
Lemma library_run min as_ : Forall library_action as_ ->
  exists s, sys_run as_ (ExecutorPool_new 1 min) = Done (tt, s) /\ seq_steps (omap request as_) Seq_new (sequence_of s).
Proof.
  intros Ha. destruct (served_run as_ _ Ha (served_new min)) as (s & E & _ & Hsim). exists s. split; [done|].
  by rewrite sequence_new in Hsim.
Qed.

(** ** Properties *)

(** C15: A pool of one executor refines the sequential machine: whatever the
    library gives it to do and however calls, threads, time-outs and the clock
    interleave, what it queues, runs and has run is what the machine does
    with the same requests. *)
Theorem pool_refines_sequence (min : Z) (as_ : list Action) (Ha : Forall library_action as_) :
  exists s, sys_run as_ (ExecutorPool_new 1 min) = Done (tt, s) /\
    seq_steps (omap request as_) Seq_new (sequence_of s).
Proof. by apply library_run. Qed.

(** Every closure that is given to a pool of one executor is run once: at any
    time each of them either has run, is being run or is queued, and none is
    two of these; closures that are all given the same delay, as those that
    are to run at once, run in the order in which they were given. *)
Theorem closures_run_once (min : Z) (as_ : list Action) (Ha : Forall library_action as_) :
  exists s, sys_run as_ (ExecutorPool_new 1 min) = Done (tt, s) /\
    s_closures (sequence_of s) ≡ₚ map snd (omap request as_) /\
    (forall d, Forall (fun r => r.1 = d) (omap request as_) -> s_closures (sequence_of s) = map snd (omap request as_)).
Proof.
  destruct (library_run min as_ Ha) as (s & E & Hsim). exists s. split; [done|]. split.
  - by rewrite (seq_conserves _ _ _ Hsim).
  - intros d Hd. destruct (seq_fifo d _ _ _ Hsim ltac:(constructor) Hd) as [-> _]. done.
Qed.

(** Two closures to run at once and one to run later, with some steps of the thread. *)
Definition w_library : list Action :=
  [ASchedule 5 10 0 1; AExecute 6; AExecute 7; ACall 0; ACall 0] ++ replicate 4 (AThread 1).

Example pool_refines_sequence_witness :
  exists s, sys_run w_library (ExecutorPool_new 1 0) = Done (tt, s) /\
    seq_steps [(10, 5%nat); (0, 6%nat); (0, 7%nat)] Seq_new (sequence_of s).
Proof. apply (pool_refines_sequence 0 w_library). repeat constructor; cbn; lia. Defined.

Example closures_run_once_witness :
  exists s, sys_run w_library (ExecutorPool_new 1 0) = Done (tt, s) /\ s_closures (sequence_of s) ≡ₚ [5; 6; 7]%nat.
Proof.
  destruct (closures_run_once 0 w_library ltac:(repeat constructor; cbn; lia)) as (s & E & Hp & _). exists s. split; [exact E|exact Hp].
Defined.

(** The first of them has run, and the delayed one is last. *)
Example w_library_sequence :
  match sys_run w_library (ExecutorPool_new 1 0) with
  | Done (_, s) => sequence_of s = mkSeq [(0, 7%nat); (10, 5%nat)] None [6%nat] 0
  | _ => False
  end.
Proof. vm_compute. reflexivity. Qed.
