(* ===== verification/RefBase.v ===== *)
(** * Reference counting

    Models [refbase.h] and [refbase.cpp], which the library brings along for
    the platforms that have no [c_utils]: objects that count the strong and
    weak references to them, with the pointers [sptr] and [wptr].  The counters
    are a store of records; following a null or dangling pointer is the outcome
    [Undef].  A compare-and-exchange may fail without a reason as often as an
    oracle says. *)

From S2P Require Import Prelude.

(** ** Memory *)

(** The addresses of objects, of their counters and of weak counters. *)
Abbreviation ObjRef := positive.
Abbreviation CtrRef := positive.
Abbreviation WeakRef := positive.

(** [refbase.h:23-23] INITIAL_PRIMARY_VALUE *)
Definition INITIAL_PRIMARY_VALUE : Z := Z.shiftl 1 28.

(** [refbase.h:80-80] FLAG_EXTEND_LIFE_TIME *)
Definition FLAG_EXTEND_LIFE_TIME : Z := 2.

(** The callback deletes the object that set it.

    [refbase.h:73-81] RefCounter *)
Record RefCounter := mkRefCounter {
  atomicStrong_ : Z;
  atomicWeak_ : Z;
  atomicRefCount_ : Z;
  atomicFlags_ : Z;
  atomicAttempt_ : Z;
  callback_ : option ObjRef
}.

(** [refbase.h:97-101] WeakRefCounter *)
Record WeakRefCounter := mkWeakRefCounter {
  w_atomicWeak_ : Z;
  refCounter_ : option CtrRef;
  cookie_ : option ObjRef
}.

(** [refbase.h:151-153] RefBase *)
Record RefBase := mkRefBase { refs_ : option CtrRef }.

(** What a subclass sees of its object. *)
Inductive Event := FirstStrong (o : ObjRef) | LastStrong (o : ObjRef) | Destroyed (o : ObjRef).

Record Mem := mkMem {
  counters : gmap CtrRef RefCounter;
  weaks : gmap WeakRef WeakRefCounter;
  objects : gmap ObjRef RefBase;
  next_ref : positive;
  spurious : list bool;                      (** the oracle of the exchanges *)
  events : list Event
}.

Definition set_counters v m := mkMem v (weaks m) (objects m) (next_ref m) (spurious m) (events m).
Definition set_weaks v m := mkMem (counters m) v (objects m) (next_ref m) (spurious m) (events m).
Definition set_objects v m := mkMem (counters m) (weaks m) v (next_ref m) (spurious m) (events m).
Definition set_spurious v m := mkMem (counters m) (weaks m) (objects m) (next_ref m) v (events m).

Definition emit (e : Event) : SO Mem unit :=
  run_st (modify (fun m => mkMem (counters m) (weaks m) (objects m) (next_ref m) (spurious m) (events m ++ [e]))).

(** A new address. *)
Definition alloc : ST Mem positive := fun m =>
  (next_ref m, mkMem (counters m) (weaks m) (objects m) (Pos.succ (next_ref m)) (spurious m) (events m)).

Definition the_counter (c : CtrRef) : SO Mem RefCounter := fun m =>
  match counters m !! c with Some r => Done (r, m) | None => Undef end.

Definition put_counter (c : CtrRef) (r : RefCounter) : SO Mem unit :=
  run_st (modify (fun m => set_counters (<[c := r]> (counters m)) m)).

Definition the_weak (k : WeakRef) : SO Mem WeakRefCounter := fun m =>
  match weaks m !! k with Some w => Done (w, m) | None => Undef end.

Definition put_weak (k : WeakRef) (w : WeakRefCounter) : SO Mem unit :=
  run_st (modify (fun m => set_weaks (<[k := w]> (weaks m)) m)).

Definition the_object (o : ObjRef) : SO Mem RefBase := fun m =>
  match objects m !! o with Some b => Done (b, m) | None => Undef end.

Definition put_object (o : ObjRef) (b : RefBase) : SO Mem unit :=
  run_st (modify (fun m => set_objects (<[o := b]> (objects m)) m)).

(** A pointer to a counter that is used without a test. *)
Definition deref_counter (c : option CtrRef) : SO Mem CtrRef :=
  match c with Some c => mret c | None => run_out Undef end.

(** ** The counters of an object *)

Definition set_strong v r := mkRefCounter v (atomicWeak_ r) (atomicRefCount_ r) (atomicFlags_ r) (atomicAttempt_ r) (callback_ r).
Definition set_weak v r := mkRefCounter (atomicStrong_ r) v (atomicRefCount_ r) (atomicFlags_ r) (atomicAttempt_ r) (callback_ r).
Definition set_refcount v r := mkRefCounter (atomicStrong_ r) (atomicWeak_ r) v (atomicFlags_ r) (atomicAttempt_ r) (callback_ r).
Definition set_flags v r := mkRefCounter (atomicStrong_ r) (atomicWeak_ r) (atomicRefCount_ r) v (atomicAttempt_ r) (callback_ r).
Definition set_attempt v r := mkRefCounter (atomicStrong_ r) (atomicWeak_ r) (atomicRefCount_ r) (atomicFlags_ r) v (callback_ r).
Definition set_callback v r := mkRefCounter (atomicStrong_ r) (atomicWeak_ r) (atomicRefCount_ r) (atomicFlags_ r) (atomicAttempt_ r) v.

(** [fetch_add] on one of the counters: the value before. *)
Definition fetch_add (get : RefCounter -> Z) (set : Z -> RefCounter -> RefCounter) (n : Z) (c : CtrRef) : SO Mem Z :=
  r ← the_counter c;
  put_counter c (set (wrap_s 32 (get r + n)) r);;
  mret (get r).

Abbreviation fetch_strong := (fetch_add atomicStrong_ set_strong).
Abbreviation fetch_weak := (fetch_add atomicWeak_ set_weak).
Abbreviation fetch_refs := (fetch_add atomicRefCount_ set_refcount).
Abbreviation fetch_attempt := (fetch_add atomicAttempt_ set_attempt).

(** [refbase.cpp:62-65] RefCounter *)
Definition RefCounter_new : SO Mem CtrRef :=
  c ← run_st alloc;
  put_counter c (mkRefCounter INITIAL_PRIMARY_VALUE 0 0 0 0 None);;
  mret c.

(** [refbase.cpp:66-69] GetRefCount *)
Definition GetRefCount (c : CtrRef) : SO Mem Z := r ← the_counter c; mret (atomicRefCount_ r).

(** [refbase.cpp:71-74] IncRefCount *)
Definition IncRefCount (c : CtrRef) : SO Mem unit := _ ← fetch_refs 1 c; mret tt.

(** [refbase.cpp:76-83] DecRefCount *)
Definition DecRefCount (c : CtrRef) : SO Mem unit :=
  n ← GetRefCount c;
  if 0 <? n then
    old ← fetch_refs (-1) c;
    if old =? 1 then run_st (modify (fun m => set_counters (delete c (counters m)) m)) else mret tt
  else mret tt.

(** [refbase.cpp:85-88] SetCallback *)
Definition SetCallback (c : CtrRef) (callback : ObjRef) : SO Mem unit :=
  r ← the_counter c; put_counter c (set_callback (Some callback) r).

(** [refbase.cpp:90-93] RemoveCallback *)
Definition RemoveCallback (c : CtrRef) : SO Mem unit :=
  r ← the_counter c; put_counter c (set_callback None r).

(** [refbase.cpp:95-98] IsRefPtrValid *)
Definition IsRefPtrValid (c : CtrRef) : SO Mem bool :=
  r ← the_counter c; mret (bool_decide (callback_ r <> None)).

(** [refbase.cpp:104-114] IncStrongRefCount *)
Definition IncStrongRefCount (c : CtrRef) : SO Mem Z :=
  r ← the_counter c;
  if 0 <=? atomicStrong_ r then
    curCount ← fetch_strong 1 c;
    (if curCount =? INITIAL_PRIMARY_VALUE
     then _ ← fetch_strong (- INITIAL_PRIMARY_VALUE) c; mret tt else mret tt);;
    mret curCount
  else mret (atomicStrong_ r).

(** [refbase.cpp:129-132] GetStrongRefCount *)
Definition GetStrongRefCount (c : CtrRef) : SO Mem Z := r ← the_counter c; mret (atomicStrong_ r).

(** [refbase.cpp:116-127] DecStrongRefCount *)
Definition DecStrongRefCount (c : CtrRef) : SO Mem Z :=
  curCount ← GetStrongRefCount c;
  if curCount =? INITIAL_PRIMARY_VALUE then mret curCount
  else if 0 <? curCount then fetch_strong (-1) c
  else mret curCount.

(** [refbase.cpp:134-137] IncWeakRefCount *)
Definition IncWeakRefCount (c : CtrRef) : SO Mem Z := fetch_weak 1 c.

(** [refbase.cpp:155-158] GetWeakRefCount *)
Definition GetWeakRefCount (c : CtrRef) : SO Mem Z := r ← the_counter c; mret (atomicWeak_ r).

(** [refbase.cpp:180-183] IsLifeTimeExtended *)
Definition IsLifeTimeExtended (c : CtrRef) : SO Mem bool :=
  r ← the_counter c; mret (negb (Z.land (atomicFlags_ r) FLAG_EXTEND_LIFE_TIME =? 0)).

(** [refbase.cpp:175-178] ExtendObjectLifetime *)
Definition c_ExtendObjectLifetime (c : CtrRef) : SO Mem unit :=
  r ← the_counter c; put_counter c (set_flags (Z.lor (atomicFlags_ r) FLAG_EXTEND_LIFE_TIME) r).

(** [refbase.cpp:160-163] SetAttemptAcquire *)
Definition SetAttemptAcquire (c : CtrRef) : SO Mem unit := _ ← fetch_attempt 1 c; mret tt.

(** [refbase.cpp:165-168] IsAttemptAcquireSet *)
Definition c_IsAttemptAcquireSet (c : CtrRef) : SO Mem bool :=
  r ← the_counter c; mret (0 <? atomicAttempt_ r).

(** [refbase.cpp:170-173] ClearAttemptAcquire *)
Definition ClearAttemptAcquire (c : CtrRef) : SO Mem unit := _ ← fetch_attempt (-1) c; mret tt.

(** The destructor of an object, with what [delete] does after it.

    [refbase.cpp:297-304] ~RefBase *)
Definition RefBase_delete (o : ObjRef) : SO Mem unit :=
  b ← the_object o;
  (match refs_ b with
   | Some c => RemoveCallback c;; DecRefCount c
   | None => mret tt
   end);;
  run_st (modify (fun m => set_objects (delete o (objects m)) m));;
  emit (Destroyed o).

(** [refbase.cpp:248-251] RefPtrCallback *)
Definition RefPtrCallback (o : ObjRef) : SO Mem unit := RefBase_delete o.

(** [refbase.cpp:139-153] DecWeakRefCount *)
Definition DecWeakRefCount (c : CtrRef) : SO Mem Z :=
  curCount ← GetWeakRefCount c;
  curCount ← (if 0 <? curCount then fetch_weak (-1) c else mret curCount);
  strongRefCount ← GetStrongRefCount c;
  extended ← IsLifeTimeExtended c;
  (if (curCount =? 1) || (strongRefCount =? 0) && negb extended then
     r ← the_counter c;
     match callback_ r with Some o => RefPtrCallback o | None => mret tt end
   else mret tt);;
  mret curCount.

(** [compare_exchange_weak] on the strong count; it may fail although the
    value is the expected one. *)
Definition compare_exchange (fails : bool) (c : CtrRef) (expected : Z) : SO Mem bool :=
  r ← the_counter c;
  if negb fails && (atomicStrong_ r =? expected)
  then put_counter c (set_strong (wrap_s 32 (expected + 1)) r);; mret true
  else mret false.

(** Exchange until it succeeds or the count is not to be raised: whether it
    succeeded, and [curCount].

    [refbase.cpp:191-197] AttemptIncStrongRef *)
Fixpoint exchange_loop (oracle : list bool) (go : Z -> bool) (c : CtrRef) (curCount : Z) : SO Mem (bool * Z) :=
  if negb (go curCount) then run_st (modify (set_spurious oracle));; mret (false, curCount) else
  match oracle with
  | [] =>
      done ← compare_exchange false c curCount;
      if (done : bool) then run_st (modify (set_spurious []));; mret (true, curCount) else run_out NoFuel
  | fails :: oracle' =>
      done ← compare_exchange fails c curCount;
      if (done : bool) then run_st (modify (set_spurious oracle'));; mret (true, curCount)
      else curCount' ← GetStrongRefCount c; exchange_loop oracle' go c curCount'
  end.

(** From [ATTEMPT_SUCCESS] on: the result and [outCount].

    [refbase.cpp:213-226] AttemptIncStrongRef *)
Definition attempt_end (c : CtrRef) (curCount outCount : Z) : SO Mem (bool * Z) :=
  if INITIAL_PRIMARY_VALUE <=? curCount then
    _ ← fetch_strong (- INITIAL_PRIMARY_VALUE) c;
    mret (true, curCount)
  else
    extended ← IsLifeTimeExtended c;
    if (curCount <? 0) || negb extended && (curCount =? 0) then
      _ ← DecWeakRefCount c;
      mret (false, outCount)
    else mret (true, outCount).

(** [refbase.cpp:185-227] AttemptIncStrongRef *)
Definition c_AttemptIncStrongRef (c : CtrRef) (outCount : Z) : SO Mem (bool * Z) :=
  curCount ← GetStrongRefCount c;
  _ ← IncWeakRefCount c;
  m ← run_st get;
  '(success, curCount) ← exchange_loop (spurious m) (fun n => (0 <? n) && negb (n =? INITIAL_PRIMARY_VALUE)) c curCount;
  if (success : bool) then attempt_end c curCount outCount else
  extended ← IsLifeTimeExtended c;
  m ← run_st get;
  '(success, curCount) ←
    (if (curCount =? INITIAL_PRIMARY_VALUE) && negb extended
     then exchange_loop (spurious m) (fun n => 0 <? n) c curCount else mret (false, curCount));
  if (success : bool) then attempt_end c curCount outCount else
  extended ← IsLifeTimeExtended c;
  curCount ← (if (extended : bool) then fetch_strong 1 c else mret curCount);
  attempt_end c curCount outCount.

(** ** Weak counters *)

(** [refbase.cpp:18-24] WeakRefCounter *)
Definition WeakRefCounter_new (counter : option CtrRef) (cookie : option ObjRef) : SO Mem WeakRef :=
  k ← run_st alloc;
  put_weak k (mkWeakRefCounter 0 counter cookie);;
  match counter with Some c => IncRefCount c | None => mret tt end;;
  mret k.

(** [refbase.cpp:26-31] ~WeakRefCounter *)
Definition WeakRefCounter_delete (k : WeakRef) : SO Mem unit :=
  w ← the_weak k;
  match refCounter_ w with Some c => DecRefCount c | None => mret tt end;;
  run_st (modify (fun m => set_weaks (delete k (weaks m)) m)).

(** [refbase.cpp:33-39] GetRefPtr *)
Definition w_GetRefPtr (k : WeakRef) : SO Mem (option ObjRef) :=
  w ← the_weak k;
  match cookie_ w with
  | None => mret None
  | Some o =>
      c ← deref_counter (refCounter_ w);
      valid ← IsRefPtrValid c;
      if (valid : bool) then mret (Some o)
      else put_weak k (mkWeakRefCounter (w_atomicWeak_ w) (refCounter_ w) None);; mret None
  end.

Definition w_fetch (n : Z) (k : WeakRef) : SO Mem Z :=
  w ← the_weak k;
  put_weak k (mkWeakRefCounter (wrap_s 32 (w_atomicWeak_ w + n)) (refCounter_ w) (cookie_ w));;
  mret (w_atomicWeak_ w).

(** [refbase.cpp:41-46] IncWeakRefCount *)
Definition w_IncWeakRefCount (k : WeakRef) : SO Mem unit :=
  old ← w_fetch 1 k;
  if old =? 0 then
    w ← the_weak k; c ← deref_counter (refCounter_ w); _ ← IncWeakRefCount c; mret tt
  else mret tt.

(** [refbase.cpp:48-54] DecWeakRefCount *)
Definition w_DecWeakRefCount (k : WeakRef) : SO Mem unit :=
  old ← w_fetch (-1) k;
  if old =? 1 then
    w ← the_weak k; c ← deref_counter (refCounter_ w); _ ← DecWeakRefCount c;
    WeakRefCounter_delete k
  else mret tt.

(** [refbase.cpp:56-60] AttemptIncStrongRef *)
Definition w_AttemptIncStrongRef (k : WeakRef) : SO Mem bool :=
  w ← the_weak k; c ← deref_counter (refCounter_ w);
  '(ok, unuse) ← c_AttemptIncStrongRef c 0;
  mret ok.

(** ** Objects *)

(** A counter of its own for the object.

    [refbase.cpp:237-246] RefBase *)
Definition own_counter (o : ObjRef) : SO Mem unit :=
  c ← RefCounter_new;
  IncRefCount c;;
  SetCallback c o;;
  put_object o (mkRefBase (Some c)).

(** [new] with the constructor of the base class.

    [refbase.cpp:229-235] RefBase *)
Definition RefBase_new : SO Mem ObjRef :=
  o ← run_st alloc;
  own_counter o;;
  mret o.

(** [refbase.cpp:237-246] RefBase *)
Definition RefBase_copy (other : ObjRef) : SO Mem ObjRef :=
  _ ← the_object other;
  o ← run_st alloc;
  own_counter o;;
  mret o.

(** [refbase.cpp:253-269] operator= *)
Definition RefBase_assign (o other : ObjRef) : SO Mem unit :=
  b ← the_object o;
  match refs_ b with Some c => RemoveCallback c;; DecRefCount c | None => mret tt end;;
  own_counter o.

(** [refbase.cpp:271-277] RefBase *)
Definition RefBase_move (other : ObjRef) : SO Mem ObjRef :=
  b ← the_object other;
  o ← run_st alloc;
  put_object o (mkRefBase (refs_ b));;
  (match refs_ b with Some _ => put_object other (mkRefBase None) | None => mret tt end);;
  mret o.

(** [refbase.cpp:279-295] operator= *)
Definition RefBase_move_assign (o other : ObjRef) : SO Mem unit :=
  b ← the_object o;
  b' ← the_object other;
  if bool_decide (refs_ b = refs_ b') then mret tt else
  match refs_ b with Some c => RemoveCallback c;; DecRefCount c | None => mret tt end;;
  put_object o (mkRefBase (refs_ b'));;
  match refs_ b' with Some _ => put_object other (mkRefBase None) | None => mret tt end.

(** [refbase.cpp:306-309] ExtendObjectLifetime *)
Definition ExtendObjectLifetime (o : ObjRef) : SO Mem unit :=
  b ← the_object o; c ← deref_counter (refs_ b); c_ExtendObjectLifetime c.

(** [refbase.cpp:358-363] IncWeakRef *)
Definition IncWeakRef (o : ObjRef) : SO Mem unit :=
  b ← the_object o;
  match refs_ b with Some c => _ ← IncWeakRefCount c; mret tt | None => mret tt end.

(** [refbase.cpp:365-370] DecWeakRef *)
Definition DecWeakRef (o : ObjRef) : SO Mem unit :=
  b ← the_object o;
  match refs_ b with Some c => _ ← DecWeakRefCount c; mret tt | None => mret tt end.

(** [refbase.cpp:311-327] IncStrongRef *)
Definition IncStrongRef (o : ObjRef) : SO Mem unit :=
  b ← the_object o;
  match refs_ b with
  | None => mret tt
  | Some c =>
      curCount ← IncStrongRefCount c;
      IncWeakRef o;;
      (if curCount =? INITIAL_PRIMARY_VALUE then emit (FirstStrong o) else mret tt);;
      attempt ← c_IsAttemptAcquireSet c;
      if (attempt : bool) then
        ClearAttemptAcquire c;;
        _ ← DecStrongRefCount c;
        _ ← DecWeakRefCount c;
        mret tt
      else mret tt
  end.

(** [refbase.cpp:329-340] DecStrongRef *)
Definition DecStrongRef (o : ObjRef) : SO Mem unit :=
  b ← the_object o;
  match refs_ b with
  | None => mret tt
  | Some c =>
      curCount ← DecStrongRefCount c;
      (if curCount =? 1 then emit (LastStrong o) else mret tt);;
      DecWeakRef o
  end.

(** [refbase.cpp:342-348] GetSptrRefCount *)
Definition GetSptrRefCount (o : ObjRef) : SO Mem Z :=
  b ← the_object o;
  match refs_ b with Some c => GetStrongRefCount c | None => mret 0 end.

(** [refbase.cpp:372-378] GetWptrRefCount *)
Definition GetWptrRefCount (o : ObjRef) : SO Mem Z :=
  b ← the_object o;
  match refs_ b with Some c => GetWeakRefCount c | None => mret 0 end.

(** [refbase.cpp:350-356] CreateWeakRef *)
Definition CreateWeakRef (o : ObjRef) (cookie : option ObjRef) : SO Mem (option WeakRef) :=
  b ← the_object o;
  match refs_ b with
  | Some c => k ← WeakRefCounter_new (Some c) cookie; mret (Some k)
  | None => mret None
  end.

(** [refbase.cpp:380-396] AttemptAcquire *)
Definition AttemptAcquire (o : ObjRef) : SO Mem bool :=
  b ← the_object o;
  match refs_ b with
  | None => mret false
  | Some c =>
      '(ok, count) ← c_AttemptIncStrongRef c 0;
      if (ok : bool) then
        SetAttemptAcquire c;;
        (if count =? INITIAL_PRIMARY_VALUE then emit (FirstStrong o) else mret tt);;
        mret true
      else mret false
  end.

(** A subclass may refuse the promotion.

    [refbase.cpp:440-443] OnAttemptPromoted *)
Definition OnAttemptPromoted : bool := true.

(** [refbase.cpp:398-410] AttemptIncStrongRef *)
Definition AttemptIncStrongRef (o : ObjRef) : SO Mem bool :=
  b ← the_object o;
  match refs_ b with
  | Some c =>
      if OnAttemptPromoted then
        '(ret, count) ← c_AttemptIncStrongRef c 0;
        (if count =? INITIAL_PRIMARY_VALUE then emit (FirstStrong o) else mret tt);;
        mret ret
      else mret false
  | None => mret false
  end.

(** [refbase.cpp:412-418] IsAttemptAcquireSet *)
Definition IsAttemptAcquireSet (o : ObjRef) : SO Mem bool :=
  b ← the_object o;
  match refs_ b with Some c => c_IsAttemptAcquireSet c | None => mret false end.

(** [refbase.cpp:420-426] IsExtendLifeTimeSet *)
Definition IsExtendLifeTimeSet (o : ObjRef) : SO Mem bool :=
  b ← the_object o;
  match refs_ b with Some c => IsLifeTimeExtended c | None => mret false end.

(** ** Strong pointers

    The value of an [sptr] is the pointer that it holds; an operation on one
    gives the value it holds next. *)

Abbreviation Sptr := (option ObjRef).
Abbreviation Wptr := (option WeakRef).

Definition inc_strong (p : Sptr) : SO Mem unit := match p with Some o => IncStrongRef o | None => mret tt end.
Definition dec_strong (p : Sptr) : SO Mem unit := match p with Some o => DecStrongRef o | None => mret tt end.

(** [refbase.h:246-249] sptr *)
Definition sptr_null : Sptr := None.

(** [refbase.h:251-254] sptr *)
Definition sptr_raw (other : Sptr) : SO Mem Sptr := mret other.

(** [refbase.h:256-262] sptr *)
Definition sptr_copy (other : Sptr) : SO Mem Sptr :=
  inc_strong other;;
  mret other.

(** [refbase.h:280-285] sptr *)
Definition sptr_convert (other : Sptr) : SO Mem Sptr :=
  inc_strong other;;
  mret other.

(** The new pointer, and what is left in [other].

    [refbase.h:264-268] sptr *)
Definition sptr_move (other : Sptr) : SO Mem (Sptr * Sptr) := mret (other, None).

(** [refbase.h:270-278] operator= *)
Definition sptr_move_assign (self other : Sptr) : SO Mem (Sptr * Sptr) :=
  dec_strong self;;
  mret (other, None).

(** [refbase.h:287-299] operator= *)
Definition sptr_assign_raw (self other : Sptr) : SO Mem Sptr :=
  inc_strong other;;
  dec_strong self;;
  mret other.

(** [refbase.h:301-314] operator= *)
Definition sptr_assign (self other : Sptr) : SO Mem Sptr :=
  inc_strong other;;
  dec_strong self;;
  mret other.

(** [refbase.h:327-340] operator= *)
Definition sptr_assign_convert (self other : Sptr) : SO Mem Sptr :=
  inc_strong other;;
  dec_strong self;;
  mret other.

(** [refbase.h:357-363] clear *)
Definition sptr_clear (self : Sptr) : SO Mem Sptr :=
  dec_strong self;;
  mret None.

(** [refbase.h:365-370] ~sptr *)
Definition sptr_delete (self : Sptr) : SO Mem unit := dec_strong self.

(** [refbase.h:372-379] sptr *)
Definition sptr_from_weak (p : Wptr) : SO Mem Sptr :=
  match p with
  | Some k =>
      ok ← w_AttemptIncStrongRef k;
      if (ok : bool) then w_GetRefPtr k else mret None
  | None => mret None
  end.

(** [refbase.h:342-345] operator== *)
Definition sptr_eq_raw (self other : Sptr) : bool := bool_decide (other = self).

(** [refbase.h:352-355] operator== *)
Definition sptr_eq (self other : Sptr) : bool := bool_decide (self = other).

(** ** Weak pointers *)

Definition w_inc (p : Wptr) : SO Mem unit := match p with Some k => w_IncWeakRefCount k | None => mret tt end.
Definition w_dec (p : Wptr) : SO Mem unit := match p with Some k => w_DecWeakRefCount k | None => mret tt end.

(** [refbase.h:454-457] GetRefPtr *)
Definition wptr_GetRefPtr (self : Wptr) : SO Mem (option ObjRef) :=
  match self with Some k => w_GetRefPtr k | None => mret None end.

(** [refbase.h:347-350] operator== *)
Definition sptr_eq_weak (self : Sptr) (other : Wptr) : SO Mem bool :=
  p ← wptr_GetRefPtr other; mret (bool_decide (self = p)).

(** A weak counter for the object, with one reference.

    [refbase.h:464-474] wptr *)
Definition new_weak (other : Sptr) : SO Mem Wptr :=
  match other with
  | Some o =>
      k ← CreateWeakRef o (Some o);
      w_inc k;;
      mret k
  | None => mret None
  end.

(** [refbase.h:459-462] wptr *)
Definition wptr_null : Wptr := None.

(** [refbase.h:464-474] wptr *)
Definition wptr_raw (other : Sptr) : SO Mem Wptr := new_weak other.

(** [refbase.h:476-482] wptr *)
Definition wptr_copy (other : Wptr) : SO Mem Wptr :=
  w_inc other;;
  mret other.

(** [refbase.h:494-500] wptr *)
Definition wptr_convert (other : Wptr) : SO Mem Wptr :=
  w_inc other;;
  mret other.

(** [refbase.h:484-492] wptr *)
Definition wptr_from_sptr (other : Sptr) : SO Mem Wptr := new_weak other.

(** [refbase.h:502-510] wptr *)
Definition wptr_convert_sptr (other : Sptr) : SO Mem Wptr := new_weak other.

(** [refbase.h:512-528] operator= *)
Definition wptr_assign_raw (self : Wptr) (other : Sptr) : SO Mem Wptr :=
  newWeakRef ← new_weak other;
  w_dec self;;
  mret newWeakRef.

(** [refbase.h:530-547] operator= *)
Definition wptr_assign_cast (self : Wptr) (other : Sptr) : SO Mem Wptr :=
  newWeakRef ← new_weak other;
  w_dec self;;
  mret newWeakRef.

(** [refbase.h:549-561] operator= *)
Definition wptr_assign (self other : Wptr) : SO Mem Wptr :=
  w_inc other;;
  w_dec self;;
  mret other.

(** [refbase.h:581-593] operator= *)
Definition wptr_assign_convert (self other : Wptr) : SO Mem Wptr :=
  w_inc other;;
  w_dec self;;
  mret other.

(** [refbase.h:563-579] operator= *)
Definition wptr_assign_sptr (self : Wptr) (other : Sptr) : SO Mem Wptr :=
  newWeakRef ← new_weak other;
  w_dec self;;
  mret newWeakRef.

(** [refbase.h:613-616] operator== *)
Definition wptr_eq_raw (self : Wptr) (other : Sptr) : SO Mem bool :=
  p ← wptr_GetRefPtr self; mret (bool_decide (p = other)).

(** [refbase.h:618-621] operator== *)
Definition wptr_eq (self other : Wptr) : SO Mem bool :=
  p ← wptr_GetRefPtr self; q ← wptr_GetRefPtr other; mret (bool_decide (p = q)).

(** [refbase.h:623-626] operator== *)
Definition wptr_eq_sptr (self : Wptr) (other : Sptr) : SO Mem bool :=
  p ← wptr_GetRefPtr self; mret (bool_decide (p = other)).

(** [refbase.h:628-631] promote *)
Definition wptr_promote (self : Wptr) : SO Mem Sptr := sptr_from_weak self.

(** [refbase.h:633-638] ~wptr *)
Definition wptr_delete (self : Wptr) : SO Mem unit := w_dec self.

(** [AttemptIncStrongRef] follows the pointer without a test.

    [refbase.h:316-325] operator= *)
Definition sptr_assign_weak (self : Sptr) (other : Wptr) : SO Mem Sptr :=
  null ← wptr_eq_raw other None;
  if negb null then
    k ← match other with Some k => mret k | None => run_out Undef end;
    ok ← w_AttemptIncStrongRef k;
    if (ok : bool) then wptr_GetRefPtr other else mret None
  else mret None.
