(* ===== verification/RefClient.v ===== *)
(** * Programs with counted references

    Facts about [RefBase]: what the counters of an object stand for while a
    program has strong and weak pointers in its variables, that an object lives
    exactly as long as a strong pointer to it, and where the pointers fail:
    construction from a bare pointer, a weak pointer assigned to a strong one,
    moved and assigned objects, and two last releases at the same time. *)

From S2P Require Import Prelude RefBase.

(** ** What the operations do to one counter *)

(** The memory with the counter [c] set to [r]. *)
Definition upd (c : CtrRef) (r : RefCounter) (m : Mem) : Mem := set_counters (<[c := r]> (counters m)) m.

Lemma upd_id c r m : counters m !! c = Some r -> upd c r m = m.
Proof. intros H. destruct m. unfold upd, set_counters. cbn in *. f_equal. by apply insert_id. Qed.

Lemma upd_upd c r r' m : upd c r' (upd c r m) = upd c r' m.
Proof. destruct m. unfold upd, set_counters. cbn. f_equal. by rewrite insert_insert_eq. Qed.

Lemma the_counter_upd {B} c r m (k : RefCounter -> SO Mem B) : (the_counter c ≫= k) (upd c r m) = k r (upd c r m).
Proof. apply so_bind_Done. unfold the_counter, upd. cbn. by rewrite lookup_insert_eq. Qed.

Lemma put_counter_upd {B} c r r' m (k : unit -> SO Mem B) : (put_counter c r' ≫= k) (upd c r m) = k tt (upd c r' m).
Proof.
  apply so_bind_Done. unfold put_counter, run_st, modify. cbn. f_equal. f_equal. exact (upd_upd c r r' m).
Qed.

Lemma fetch_upd {B} g (s : Z -> RefCounter -> RefCounter) n c r m (k : Z -> SO Mem B) :
  (fetch_add g s n c ≫= k) (upd c r m) = k (g r) (upd c (s (wrap_s 32 (g r + n)) r) m).
Proof.
  apply so_bind_Done. unfold fetch_add. by rewrite the_counter_upd, put_counter_upd.
Qed.

Lemma GetStrongRefCount_upd {B} c r m (k : Z -> SO Mem B) : (GetStrongRefCount c ≫= k) (upd c r m) = k (atomicStrong_ r) (upd c r m).
Proof. apply so_bind_Done. unfold GetStrongRefCount. by rewrite the_counter_upd. Qed.

Lemma GetWeakRefCount_upd {B} c r m (k : Z -> SO Mem B) : (GetWeakRefCount c ≫= k) (upd c r m) = k (atomicWeak_ r) (upd c r m).
Proof. apply so_bind_Done. unfold GetWeakRefCount. by rewrite the_counter_upd. Qed.

(** A counter whose life time is not extended, without an attempt. *)
Abbreviation ctr s w f cb := (mkRefCounter s w f 0 0 cb).

Lemma not_extended {B} c s w f cb m (k : bool -> SO Mem B) :
  (IsLifeTimeExtended c ≫= k) (upd c (ctr s w f cb) m) = k false (upd c (ctr s w f cb) m).
Proof. apply so_bind_Done. unfold IsLifeTimeExtended. by rewrite the_counter_upd. Qed.

(** The numbers of the counters stay far below the limits of [int]. *)
Definition LIM : Z := 2 ^ 28 - 8.

Lemma wrap_small n : - LIM <= n <= 2 ^ 29 -> wrap_s 32 n = n.
Proof. intros H. apply wrap_s_id; [lia|]. apply in_s_spec. unfold LIM in H. lia. Qed.

Lemma INITIAL_val : INITIAL_PRIMARY_VALUE = 2 ^ 28.
Proof. done. Qed.

Lemma IncStrongRefCount_upd {B} c s w f cb m (k : Z -> SO Mem B) : 0 <= s <= LIM ->
  (IncStrongRefCount c ≫= k) (upd c (ctr s w f cb) m) = k s (upd c (ctr (s + 1) w f cb) m).
Proof.
  intros Hs. apply so_bind_Done. unfold IncStrongRefCount. rewrite the_counter_upd. cbn [atomicStrong_].
  rewrite (proj2 (Z.leb_le 0 s)) by lia. cbv iota. rewrite fetch_upd. cbn [atomicStrong_ set_strong].
  rewrite INITIAL_val, (proj2 (Z.eqb_neq s _)) by (unfold LIM in Hs; lia). unfold set_strong. cbn. rewrite wrap_small by (unfold LIM in *; lia). done.
Qed.

Lemma IncStrongRefCount_first {B} c w f cb m (k : Z -> SO Mem B) :
  (IncStrongRefCount c ≫= k) (upd c (ctr INITIAL_PRIMARY_VALUE w f cb) m) = k INITIAL_PRIMARY_VALUE (upd c (ctr 1 w f cb) m).
Proof.
  apply so_bind_Done. unfold IncStrongRefCount. rewrite the_counter_upd. cbn [atomicStrong_].
  change (0 <=? INITIAL_PRIMARY_VALUE) with true. cbv iota.
  rewrite fetch_upd. cbn [atomicStrong_ set_strong]. rewrite Z.eqb_refl.
  unfold mbind at 1, so_bind at 1. rewrite fetch_upd. done.
Qed.

Lemma DecStrongRefCount_upd {B} c s w f cb m (k : Z -> SO Mem B) : 0 < s <= LIM ->
  (DecStrongRefCount c ≫= k) (upd c (ctr s w f cb) m) = k s (upd c (ctr (s - 1) w f cb) m).
Proof.
  intros Hs. apply so_bind_Done. unfold DecStrongRefCount, GetStrongRefCount.
  unfold mbind at 1, so_bind at 1. rewrite the_counter_upd. cbn [atomicStrong_ mret so_ret].
  rewrite INITIAL_val, (proj2 (Z.eqb_neq s _)), (proj2 (Z.ltb_lt 0 s)) by (unfold LIM in Hs; lia). cbv iota.
  unfold fetch_add. rewrite the_counter_upd, put_counter_upd. cbn. unfold set_strong. cbn. by rewrite wrap_small by (unfold LIM in *; lia).
Qed.

Lemma IncWeakRefCount_upd {B} c s w f cb m (k : Z -> SO Mem B) : 0 <= w <= LIM ->
  (IncWeakRefCount c ≫= k) (upd c (ctr s w f cb) m) = k w (upd c (ctr s (w + 1) f cb) m).
Proof.
  intros Hw. unfold IncWeakRefCount. rewrite fetch_upd. unfold set_weak. cbn. by rewrite wrap_small by (unfold LIM in *; lia).
Qed.

Lemma IncRefCount_upd {B} c s w f cb m (k : unit -> SO Mem B) : 0 <= f <= LIM ->
  (IncRefCount c ≫= k) (upd c (ctr s w f cb) m) = k tt (upd c (ctr s w (f + 1) cb) m).
Proof.
  intros Hf. apply so_bind_Done. unfold IncRefCount. rewrite fetch_upd. unfold set_refcount. cbn. by rewrite wrap_small by (unfold LIM in *; lia).
Qed.

Lemma counters_delete_upd c r m : set_counters (delete c (counters (upd c r m))) (upd c r m) = set_counters (delete c (counters m)) m.
Proof. destruct m. unfold upd, set_counters. cbn. f_equal. by rewrite delete_insert_eq. Qed.

(** The counter goes with the last reference to it. *)
Lemma DecRefCount_upd {B} c s w f cb m (k : unit -> SO Mem B) : 0 < f <= LIM ->
  (DecRefCount c ≫= k) (upd c (ctr s w f cb) m) =
  k tt (if f =? 1 then set_counters (delete c (counters m)) m else upd c (ctr s w (f - 1) cb) m).
Proof.
  intros Hf. apply so_bind_Done. unfold DecRefCount, GetRefCount.
  unfold mbind at 1, so_bind at 1. rewrite the_counter_upd. cbn [atomicRefCount_ mret so_ret].
  rewrite (proj2 (Z.ltb_lt 0 f)) by lia. cbv iota. rewrite fetch_upd. cbn [atomicRefCount_]. destruct (f =? 1) eqn:E.
  - unfold run_st, modify. rewrite counters_delete_upd. done.
  - unfold set_refcount. cbn. rewrite wrap_small by (unfold LIM in *; lia). done.
Qed.

(** The memory without the object [o]. *)
Definition del_object (o : ObjRef) (m : Mem) : Mem :=
  mkMem (counters m) (weaks m) (delete o (objects m)) (next_ref m) (spurious m) (events m ++ [Destroyed o]).

(** The counter after an object or a weak counter gave it up. *)
Definition drop_counter (c : CtrRef) (s w f : Z) (cb : option ObjRef) (m : Mem) : Mem :=
  if f =? 1 then set_counters (delete c (counters m)) m else upd c (ctr s w (f - 1) cb) m.

Lemma the_object_ok {B} o b m (k : RefBase -> SO Mem B) : objects m !! o = Some b -> (the_object o ≫= k) m = k b m.
Proof. intros H. apply so_bind_Done. unfold the_object. by rewrite H. Qed.

Lemma RemoveCallback_upd {B} c s w f cb m (k : unit -> SO Mem B) :
  (RemoveCallback c ≫= k) (upd c (ctr s w f cb) m) = k tt (upd c (ctr s w f None) m).
Proof.
  apply so_bind_Done. unfold RemoveCallback. rewrite the_counter_upd. unfold put_counter, run_st, modify. cbn.
  f_equal. f_equal. exact (upd_upd c _ _ m).
Qed.

Lemma RefBase_delete_upd o c s w f cb m : 0 < f <= LIM -> objects m !! o = Some (mkRefBase (Some c)) ->
  RefBase_delete o (upd c (ctr s w f cb) m) = Done (tt, del_object o (drop_counter c s w f None m)).
Proof.
  intros Hf Ho. unfold RefBase_delete. rewrite (the_object_ok _ (mkRefBase (Some c))) by done. cbn [refs_].
  pose proof (DecRefCount_upd c s w f None m mret Hf) as E. unfold mbind at 1, so_bind at 1 in E.
  unfold mbind at 1, so_bind at 1. rewrite RemoveCallback_upd.
  destruct (DecRefCount c _) as [[[] m1]| | |]; [|done..]. injection E as ->. unfold drop_counter. by destruct (f =? 1).
Qed.

(** A weak reference goes that is not the last one, while the object lives. *)
Lemma DecWeakRefCount_many {B} c s w f cb m (k : Z -> SO Mem B) : 0 < s -> 1 < w <= LIM ->
  (DecWeakRefCount c ≫= k) (upd c (ctr s w f cb) m) = k w (upd c (ctr s (w - 1) f cb) m).
Proof.
  intros Hs Hw. apply so_bind_Done. unfold DecWeakRefCount.
  rewrite GetWeakRefCount_upd. cbn [atomicWeak_]. rewrite (proj2 (Z.ltb_lt 0 w)) by lia. cbv iota. rewrite fetch_upd. unfold set_weak. cbn [atomicStrong_ atomicWeak_ atomicRefCount_ atomicFlags_ atomicAttempt_ callback_].
  rewrite wrap_small by (unfold LIM in *; lia).
  rewrite GetStrongRefCount_upd, not_extended. cbn [atomicStrong_].
  rewrite (proj2 (Z.eqb_neq w 1)), (proj2 (Z.eqb_neq s 0)) by lia. done.
Qed.

(** A weak reference goes after the object. *)
Lemma DecWeakRefCount_dead {B} c s w f m (k : Z -> SO Mem B) : 0 < w <= LIM ->
  (DecWeakRefCount c ≫= k) (upd c (ctr s w f None) m) = k w (upd c (ctr s (w - 1) f None) m).
Proof.
  intros Hw. apply so_bind_Done. unfold DecWeakRefCount.
  rewrite GetWeakRefCount_upd. cbn [atomicWeak_]. rewrite (proj2 (Z.ltb_lt 0 w)) by lia. cbv iota. rewrite fetch_upd. unfold set_weak. cbn [atomicStrong_ atomicWeak_ atomicRefCount_ atomicFlags_ atomicAttempt_ callback_].
  rewrite wrap_small by (unfold LIM in *; lia).
  rewrite GetStrongRefCount_upd, not_extended. cbn [atomicStrong_].
  destruct (_ || _); [|done]. unfold mbind at 1, so_bind at 1. rewrite the_counter_upd. done.
Qed.

(** The last strong reference has gone: the object is deleted. *)
Lemma DecWeakRefCount_last {B} c o w f m (k : Z -> SO Mem B) : 0 < w <= LIM -> 0 < f <= LIM ->
  objects m !! o = Some (mkRefBase (Some c)) ->
  (DecWeakRefCount c ≫= k) (upd c (ctr 0 w f (Some o)) m) = k w (del_object o (drop_counter c 0 (w - 1) f None m)).
Proof.
  intros Hw Hf Ho. apply so_bind_Done. unfold DecWeakRefCount.
  rewrite GetWeakRefCount_upd. cbn [atomicWeak_]. rewrite (proj2 (Z.ltb_lt 0 w)) by lia. cbv iota. rewrite fetch_upd. unfold set_weak. cbn [atomicStrong_ atomicWeak_ atomicRefCount_ atomicFlags_ atomicAttempt_ callback_].
  rewrite wrap_small by (unfold LIM in *; lia).
  rewrite GetStrongRefCount_upd, not_extended. cbn [atomicStrong_].
  change ((0 =? 0) && negb false) with true. rewrite orb_true_r. cbv iota.
  unfold mbind at 1, so_bind at 1. rewrite the_counter_upd. cbn [callback_]. unfold RefPtrCallback.
  by rewrite RefBase_delete_upd.
Qed.

Lemma set_spurious_upd c r v m : set_spurious v (upd c r m) = upd c r (set_spurious v m).
Proof. done. Qed.

(** The exchange succeeds after as many failures as the oracle has. *)
Lemma exchange_loop_ok oracle go c s w f cb m : go s = true -> 0 <= s <= LIM ->
  exists oracle', exchange_loop oracle go c s (upd c (ctr s w f cb) m) =
    Done ((true, s), upd c (ctr (s + 1) w f cb) (set_spurious oracle' m)).
Proof.
  intros Hg Hs. assert (Hc : forall b, compare_exchange b c s (upd c (ctr s w f cb) m) =
    Done (negb b, upd c (ctr (if b then s else s + 1) w f cb) m)).
  { intros b. unfold compare_exchange. rewrite the_counter_upd. cbn [atomicStrong_]. rewrite Z.eqb_refl, andb_true_r.
    destruct b; [done|]. cbn [negb]. rewrite put_counter_upd. unfold set_strong. cbn. by rewrite wrap_small by (unfold LIM in *; lia). }
  induction oracle as [|[] oracle IH]; cbn [exchange_loop]; rewrite Hg; cbn [negb];
    rewrite (so_bind_Done _ _ _ _ _ (Hc _)); cbn [negb].
  - exists []. done.
  - unfold GetStrongRefCount. unfold mbind at 1, so_bind at 1. rewrite the_counter_upd. exact IH.
  - exists oracle. done.
Qed.

(** ** What the counters stand for *)

(** The weak counters that refer to the counter [c]. *)
Definition nw (c : CtrRef) (ws : gmap WeakRef WeakRefCounter) : nat :=
  size (filter (fun kv : WeakRef * WeakRefCounter => refCounter_ kv.2 = Some c) ws).

Definition one (P : Prop) `{Decision P} : nat := if decide P then 1%nat else 0%nat.

Lemma nw_insert c k w ws : ws !! k = None -> nw c (<[k := w]> ws) = (nw c ws + one (refCounter_ w = Some c))%nat.
Proof.
  intros Hk. unfold nw, one. case_decide as Hc.
  - rewrite map_filter_insert_True by done. rewrite map_size_insert_None; [lia|]. by apply map_lookup_filter_None_2; left.
  - rewrite map_filter_insert_False by done. rewrite delete_id by done. lia.
Qed.

Lemma nw_delete c k w ws : ws !! k = Some w -> nw c ws = (nw c (delete k ws) + one (refCounter_ w = Some c))%nat.
Proof. intros Hk. rewrite <- (insert_delete_id ws k w Hk) at 1. apply nw_insert. apply lookup_delete_eq. Qed.

Lemma nw_update c k w w' ws : ws !! k = Some w -> refCounter_ w' = refCounter_ w -> nw c (<[k := w']> ws) = nw c ws.
Proof.
  intros Hk Hr. rewrite (nw_delete c k w ws Hk), <- insert_delete_eq, nw_insert by apply lookup_delete_eq. by rewrite Hr.
Qed.

Lemma nw_pos c k w ws : ws !! k = Some w -> refCounter_ w = Some c -> (0 < nw c ws)%nat.
Proof. intros Hk Hr. rewrite (nw_delete c k w ws Hk). unfold one. rewrite decide_True by done. lia. Qed.

Lemma nw_size c ws : (nw c ws <= size ws)%nat.
Proof. unfold nw. rewrite <- !size_dom. apply subseteq_size. apply dom_filter_subseteq. Qed.

Lemma nw_zero c ws : (forall k w, ws !! k = Some w -> refCounter_ w <> Some c) -> nw c ws = 0%nat.
Proof.
  intros H. unfold nw. apply map_size_empty_iff, map_empty. intros k. apply map_lookup_filter_None. right. intros w Hk. by apply H in Hk.
Qed.

(** How many strong pointers there are to each object, and weak pointers that
    share each weak counter. *)
Abbreviation Counts := (positive -> nat).

Definition live_ctr (S : Counts) (o : ObjRef) (c : CtrRef) (m : Mem) : RefCounter :=
  ctr (Z.of_nat (S o)) (Z.of_nat (S o + nw c (weaks m))) (Z.of_nat (1 + nw c (weaks m))) (Some o).

Definition dead_ctr (c : CtrRef) (m : Mem) : RefCounter :=
  ctr 0 (Z.of_nat (nw c (weaks m))) (Z.of_nat (nw c (weaks m))) None.

(** Every object has a strong pointer, and its counters count the strong
    pointers, these and the weak counters, and the object and the weak
    counters; a counter without an object is kept by weak counters. *)
Record good (S W : Counts) (m : Mem) : Prop := {
  gd_obj o b : objects m !! o = Some b ->
    exists c, b = mkRefBase (Some c) /\ counters m !! c = Some (live_ctr S o c m) /\ (0 < S o)%nat;
  gd_S o : (0 < S o)%nat -> is_Some (objects m !! o);
  gd_ctr c r : counters m !! c = Some r ->
    (exists o, objects m !! o = Some (mkRefBase (Some c))) \/ (r = dead_ctr c m /\ (0 < nw c (weaks m))%nat);
  gd_weak k w : weaks m !! k = Some w ->
    w_atomicWeak_ w = Z.of_nat (W k) /\ (0 < W k)%nat /\
    exists c r, refCounter_ w = Some c /\ counters m !! c = Some r /\ forall o, callback_ r = Some o -> cookie_ w = Some o;
  gd_W k : (0 < W k)%nat -> is_Some (weaks m !! k);
  gd_fresh x : is_Some (objects m !! x) \/ is_Some (counters m !! x) \/ is_Some (weaks m !! x) -> (x < next_ref m)%positive
}.

Definition set_at (S : Counts) (x : positive) (n : nat) : Counts := fun y => if decide (y = x) then n else S y.

Lemma set_at_eq S x n : set_at S x n x = n.
Proof. unfold set_at. by rewrite decide_True. Qed.

Lemma set_at_ne S x n y : y <> x -> set_at S x n y = S y.
Proof. intros H. unfold set_at. by rewrite decide_False. Qed.

Lemma good_ext S S' W W' m : (forall o, S o = S' o) -> (forall k, W k = W' k) -> good S W m -> good S' W' m.
Proof.
  intros HS HW []. split; try done.
  - intros o b Ho. destruct (gd_obj0 o b Ho) as (c & -> & Hc & Hp). exists c. unfold live_ctr in *. rewrite <- HS. done.
  - intros o. rewrite <- HS. auto.
  - intros k w Hk. destruct (gd_weak0 k w Hk) as (H1 & H2 & H3). rewrite <- HW. done.
  - intros k. rewrite <- HW. auto.
Qed.

(** One object, one counter. *)
Lemma good_inj S W m o1 o2 c : good S W m -> objects m !! o1 = Some (mkRefBase (Some c)) ->
  objects m !! o2 = Some (mkRefBase (Some c)) -> o1 = o2.
Proof.
  intros Hg H1 H2. destruct (gd_obj _ _ _ Hg _ _ H1) as (c1 & [= <-] & Hc1 & _).
  destruct (gd_obj _ _ _ Hg _ _ H2) as (c2 & [= <-] & Hc2 & _). rewrite Hc1 in Hc2. by injection Hc2.
Qed.

Lemma good_live S W m o : good S W m -> (0 < S o)%nat ->
  exists c, objects m !! o = Some (mkRefBase (Some c)) /\ counters m !! c = Some (live_ctr S o c m) /\ upd c (live_ctr S o c m) m = m.
Proof.
  intros Hg Hp. destruct (gd_S _ _ _ Hg o Hp) as [b Hb]. destruct (gd_obj _ _ _ Hg _ _ Hb) as (c & -> & Hc & _).
  exists c. split; [done|]. split; [done|]. by apply upd_id.
Qed.

(** The number of strong pointers to an object changes, and is not zero. *)
Lemma good_set S W m m' o c n : good S W m -> objects m !! o = Some (mkRefBase (Some c)) -> (0 < n)%nat ->
  counters m' = <[c := live_ctr (set_at S o n) o c m]> (counters m) -> weaks m' = weaks m -> objects m' = objects m ->
  next_ref m' = next_ref m -> good (set_at S o n) W m'.
Proof.
  intros Hg Ho Hn Hc Hw Hob Hnx. destruct (gd_obj _ _ _ Hg _ _ Ho) as (c0 & [= <-] & Hco & _).
  assert (Hl : forall S o c, live_ctr S o c m' = live_ctr S o c m) by (intros; unfold live_ctr; by rewrite Hw).
  split; rewrite ?Hc, ?Hw, ?Hob, ?Hnx.
  - intros o' b Ho'. destruct (gd_obj _ _ _ Hg _ _ Ho') as (c' & -> & Hc' & Hp). exists c'. rewrite Hl. split; [done|].
    destruct (decide (o' = o)) as [->|Hne].
    + assert (c' = c) as -> by congruence. rewrite lookup_insert_eq, set_at_eq. done.
    + rewrite lookup_insert_ne by (intros ->; by apply Hne, (good_inj S W m o' o c' Hg)).
      unfold live_ctr. rewrite set_at_ne by done. done.
  - intros o'. destruct (decide (o' = o)) as [->|Hne]; [intros _; by eexists|]. rewrite set_at_ne by done. apply (gd_S _ _ _ Hg).
  - intros c' r. rewrite lookup_insert_Some. intros [[<- _]|[_ Hr]]; [left; by exists o|].
    destruct (gd_ctr _ _ _ Hg _ _ Hr) as [?|[-> ?]]; [by left|right]. unfold dead_ctr. by rewrite Hw.
  - intros k w Hk. destruct (gd_weak _ _ _ Hg k w Hk) as (H1 & H2 & c' & r & H3 & H4 & H5). split; [done|]. split; [done|].
    exists c'. destruct (decide (c' = c)) as [->|Hne].
    + eexists. split; [done|]. rewrite lookup_insert_eq. split; [done|]. cbn. intros o' [= <-]. apply H5.
      rewrite H4 in Hco. injection Hco as ->. done.
    + exists r. split; [done|]. by rewrite lookup_insert_ne.
  - apply (gd_W _ _ _ Hg).
  - intros x [Hx|[Hx|Hx]]; apply (gd_fresh _ _ _ Hg); auto. rewrite lookup_insert_is_Some' in Hx.
    destruct Hx as [<-|Hx]; [|auto]. right. left. by eexists.
Qed.

Definition emitted (e : Event) (m : Mem) : Mem :=
  mkMem (counters m) (weaks m) (objects m) (next_ref m) (spurious m) (events m ++ [e]).

Lemma emit_bind {B} e (k : unit -> SO Mem B) m : (emit e ≫= k) m = k tt (emitted e m).
Proof. done. Qed.

(** The numbers of pointers are far below the limits of the counters. *)
Definition room (S : Counts) (m : Mem) (o : ObjRef) : Prop := Z.of_nat (S o) + Z.of_nat (size (weaks m)) + 4 <= LIM.

Lemma IncWeakRef_upd {B} o c s w f cb m (k : unit -> SO Mem B) : 0 <= w <= LIM ->
  objects m !! o = Some (mkRefBase (Some c)) ->
  (IncWeakRef o ≫= k) (upd c (ctr s w f cb) m) = k tt (upd c (ctr s (w + 1) f cb) m).
Proof.
  intros Hw Ho. apply so_bind_Done. unfold IncWeakRef. rewrite (the_object_ok _ (mkRefBase (Some c))) by done. cbn [refs_].
  by rewrite IncWeakRefCount_upd.
Qed.

Lemma no_attempt {B} c s w f cb m (k : bool -> SO Mem B) :
  (c_IsAttemptAcquireSet c ≫= k) (upd c (ctr s w f cb) m) = k false (upd c (ctr s w f cb) m).
Proof. apply so_bind_Done. unfold c_IsAttemptAcquireSet. by rewrite the_counter_upd. Qed.

(** A further strong pointer. *)
Lemma good_inc S W m o : good S W m -> (0 < S o)%nat -> room S m o ->
  exists m', IncStrongRef o m = Done (tt, m') /\ good (set_at S o (S o + 1)) W m' /\ weaks m' = weaks m.
Proof.
  intros Hg Hp Hr. destruct (good_live S W m o Hg Hp) as (c & Ho & Hc & Em). unfold room in Hr.
  pose proof (nw_size c (weaks m)) as Hn. 
  eassert (E : IncStrongRef o (upd c (live_ctr S o c m) m) = Done (tt, _)).
  { unfold live_ctr, IncStrongRef.
  rewrite (the_object_ok _ (mkRefBase (Some c))) by done. cbn [refs_].
  rewrite IncStrongRefCount_upd by lia. rewrite (IncWeakRef_upd o) by (try done; lia).
  rewrite INITIAL_val, (proj2 (Z.eqb_neq _ _)) by (unfold LIM in Hr; lia).
  cbv iota. rewrite so_bind_ret, no_attempt. reflexivity. }
  rewrite Em in E. eexists. split; [exact E|]. split; [|done].
  apply (good_set S W m _ o c); [done|done|lia| |done..]. unfold upd, live_ctr. rewrite set_at_eq. cbn. do 2 f_equal; lia.
Qed.

(** A strong pointer goes that is not the last one. *)
Lemma good_dec_many S W m o : good S W m -> (1 < S o)%nat -> room S m o ->
  exists m', DecStrongRef o m = Done (tt, m') /\ good (set_at S o (S o - 1)) W m' /\ weaks m' = weaks m.
Proof.
  intros Hg Hp Hr. destruct (good_live S W m o Hg) as (c & Ho & Hc & Em); [lia|]. unfold room in Hr.
  pose proof (nw_size c (weaks m)) as Hn. 
  eassert (E : DecStrongRef o (upd c (live_ctr S o c m) m) = Done (tt, _)).
  { unfold live_ctr, DecStrongRef.
  rewrite (the_object_ok _ (mkRefBase (Some c))) by done. cbn [refs_].
  rewrite DecStrongRefCount_upd by lia. rewrite (proj2 (Z.eqb_neq _ _)) by lia.
  cbv iota. rewrite so_bind_ret. unfold DecWeakRef.
  rewrite (the_object_ok _ (mkRefBase (Some c))) by done. cbn [refs_].
  rewrite DecWeakRefCount_many by lia. reflexivity. }
  rewrite Em in E. eexists. split; [exact E|]. split; [|done].
  apply (good_set S W m _ o c); [done|done|lia| |done..]. unfold upd, live_ctr. rewrite set_at_eq. cbn. do 2 f_equal; lia.
Qed.

(** The object goes with the last strong pointer. *)
Lemma good_dec_last S W m o : good S W m -> S o = 1%nat -> room S m o ->
  exists m', DecStrongRef o m = Done (tt, m') /\ good (set_at S o 0) W m' /\ weaks m' = weaks m.
Proof.
  intros Hg Hp Hr. destruct (good_live S W m o Hg) as (c & Ho & Hc & Em); [lia|]. unfold room in Hr.
  pose proof (nw_size c (weaks m)) as Hn. 
  eassert (E : DecStrongRef o (upd c (live_ctr S o c m) m) = Done (tt, _)).
  { unfold live_ctr, DecStrongRef. rewrite Hp.
  rewrite (the_object_ok _ (mkRefBase (Some c))) by done. cbn [refs_].
  rewrite DecStrongRefCount_upd by (unfold LIM; lia). change (Z.of_nat 1 =? 1) with true. cbv iota.
  change (Z.of_nat 1 - 1) with 0. rewrite emit_bind.
  change (emitted (LastStrong o) (upd c ?r m)) with (upd c r (emitted (LastStrong o) m)).
  unfold DecWeakRef.
rewrite (the_object_ok _ (mkRefBase (Some c))) by done. cbn [refs_].
  rewrite DecWeakRefCount_last by (try done; lia). reflexivity. }
  rewrite Em in E. eexists. split; [exact E|]. clear E.
  split; [|unfold drop_counter, del_object; by case_match].
  set (m' := del_object o _). assert (Hob : objects m' = delete o (objects m)) by (unfold m', drop_counter; by case_match).
  assert (Hw : weaks m' = weaks m) by (unfold m', drop_counter; by case_match).
  assert (Hnx : next_ref m' = next_ref m) by (unfold m', drop_counter; by case_match).
  assert (Hct : forall x r, counters m' !! x = Some r <->
    (x <> c /\ counters m !! x = Some r) \/ (x = c /\ (0 < nw c (weaks m))%nat /\ r = dead_ctr c m)).
  { intros x r. unfold m', drop_counter, del_object, dead_ctr. case_match; cbn [counters set_counters upd]; bools.
    - rewrite lookup_delete_Some. split; [intros [? ?]; left; by split|]. intros [[? ?]|(_ & ? & _)]; [by split|lia].
    - rewrite lookup_insert_Some. replace (Z.of_nat (1 + nw c (weaks m)) - 1) with (Z.of_nat (nw c (weaks m))) by lia.
      split; [intros [[<- <-]|[? ?]]; [right; split_and!; [done|lia|done]|left; by split]|]. intros [[? ?]|(-> & _ & ->)]; [right; by split|by left]. }
  assert (Hdead : forall x, dead_ctr x m' = dead_ctr x m) by (intros; unfold dead_ctr; by rewrite Hw).
  split; rewrite ?Hob, ?Hw, ?Hnx.
  - intros o' b [Hne Ho']%lookup_delete_Some. destruct (gd_obj _ _ _ Hg _ _ Ho') as (c' & -> & Hc' & Hp'). exists c'. split; [done|].
    split; [|by rewrite set_at_ne by done]. apply Hct. left. split; [intros ->; by apply Hne, (good_inj S W m o o' c Hg)|].
    unfold live_ctr. rewrite Hw, set_at_ne by done. done.
  - intros o' Hp'. destruct (decide (o' = o)) as [->|Hne]; [rewrite set_at_eq in Hp'; lia|]. rewrite set_at_ne in Hp' by done.
    rewrite lookup_delete_ne by done. by apply (gd_S _ _ _ Hg).
  - intros x r [[Hne Hx]|(-> & Hn0 & ->)]%Hct; [|right; by rewrite Hdead]. rewrite Hdead.
    destruct (gd_ctr _ _ _ Hg _ _ Hx) as [[o' Ho']|?]; [left|by right]. exists o'. rewrite lookup_delete_ne; [done|]. intros ->. congruence.
  - intros k w Hk. destruct (gd_weak _ _ _ Hg k w Hk) as (H1 & H2 & c' & r & H3 & H4 & H5). split; [done|]. split; [done|]. exists c'.
    destruct (decide (c' = c)) as [->|Hne].
    + exists (dead_ctr c m). split; [done|]. split; [apply Hct; right; split_and!; [done|by eapply nw_pos|done]|by cbn].
    + exists r. split; [done|]. split; [apply Hct; by left|done].
  - apply (gd_W _ _ _ Hg).
  - intros x Hx. apply (gd_fresh _ _ _ Hg). destruct Hx as [[b Hx]|[[r Hx]|Hx]]; [| |auto].
    + apply lookup_delete_Some in Hx as [_ Hx]. left. by eexists.
    + apply Hct in Hx as [[_ Hx]|(-> & _)]; right; left; by eexists.
Qed.

Lemma good_fresh_obj S W m : good S W m -> S (next_ref m) = 0%nat.
Proof.
  intros Hg. destruct (S (next_ref m)) eqn:E; [done|]. destruct (gd_S _ _ _ Hg (next_ref m)) as [b Hb]; [lia|].
  pose proof (gd_fresh _ _ _ Hg (next_ref m)). assert (next_ref m < next_ref m)%positive by (apply H; left; by eexists). lia.
Qed.

Lemma good_fresh_weak S W m : good S W m -> W (next_ref m) = 0%nat /\ weaks m !! next_ref m = None.
Proof.
  intros Hg. assert (Hn : weaks m !! next_ref m = None).
  { apply eq_None_not_Some. intros Hs. pose proof (gd_fresh _ _ _ Hg (next_ref m)). assert (next_ref m < next_ref m)%positive by auto. lia. }
  split; [|done]. destruct (W (next_ref m)) eqn:E; [done|]. destruct (gd_W _ _ _ Hg (next_ref m)) as [b Hb]; [lia|congruence].
Qed.

Lemma good_fresh_counter S W m x : good S W m -> (next_ref m <= x)%positive -> counters m !! x = None /\ objects m !! x = None.
Proof.
  intros Hg Hx. pose proof (gd_fresh _ _ _ Hg x) as H.
  split; apply eq_None_not_Some; intros Hs; assert (x < next_ref m)%positive by auto; lia.
Qed.

(** The memory after an address was given away. *)
Definition bump (m : Mem) : Mem := mkMem (counters m) (weaks m) (objects m) (Pos.succ (next_ref m)) (spurious m) (events m).

Lemma RefCounter_new_ok m :
  RefCounter_new m = Done (next_ref m, upd (next_ref m) (ctr INITIAL_PRIMARY_VALUE 0 0 None) (bump m)).
Proof. done. Qed.

Lemma SetCallback_upd {B} c s w f cb o m (k : unit -> SO Mem B) :
  (SetCallback c o ≫= k) (upd c (ctr s w f cb) m) = k tt (upd c (ctr s w f (Some o)) m).
Proof.
  apply so_bind_Done. unfold SetCallback. rewrite the_counter_upd. unfold put_counter, run_st, modify. cbn.
  f_equal. f_equal. exact (upd_upd c _ _ m).
Qed.

Lemma own_counter_ok o m : own_counter o m = Done (tt, set_objects (<[o := mkRefBase (Some (next_ref m))]> (objects m))
  (upd (next_ref m) (ctr INITIAL_PRIMARY_VALUE 0 1 (Some o)) (bump m))).
Proof.
  unfold own_counter. rewrite (so_bind_Done _ _ _ _ _ (RefCounter_new_ok m)).
  rewrite IncRefCount_upd by (unfold LIM; lia). by rewrite SetCallback_upd.
Qed.

(** A new object in its first strong pointer. *)
Lemma good_new S W m : good S W m -> exists m1 m2,
  RefBase_new m = Done (next_ref m, m1) /\ IncStrongRef (next_ref m) m1 = Done (tt, m2) /\
  good (set_at S (next_ref m) 1) W m2 /\ weaks m2 = weaks m.
Proof.
  intros Hg. set (o := next_ref m). set (c := Pos.succ o).
  set (m0 := bump (bump m)).
  set (m1 := set_objects (<[o := mkRefBase (Some c)]> (objects m0)) (upd c (ctr INITIAL_PRIMARY_VALUE 0 1 (Some o)) m0)).
  assert (E1 : RefBase_new m = Done (o, m1)).
  { unfold RefBase_new. rewrite so_bind_st. change ((alloc m).1) with o. change ((alloc m).2) with (bump m).
    by rewrite (so_bind_Done _ _ _ _ _ (own_counter_ok o (bump m))). }
  set (m2 := emitted (FirstStrong o) (set_objects (<[o := mkRefBase (Some c)]> (objects m0)) (upd c (ctr 1 1 1 (Some o)) m0))).
  assert (E2 : IncStrongRef o m1 = Done (tt, m2)).
  { assert (Ho : objects (set_objects (<[o := mkRefBase (Some c)]> (objects m0)) m0) !! o = Some (mkRefBase (Some c)))
      by (cbn; by rewrite lookup_insert_eq).
    change m1 with (upd c (ctr INITIAL_PRIMARY_VALUE 0 1 (Some o)) (set_objects (<[o := mkRefBase (Some c)]> (objects m0)) m0)).
    unfold IncStrongRef. rewrite (the_object_ok _ (mkRefBase (Some c))) by done. cbn [refs_].
    rewrite IncStrongRefCount_first. rewrite (IncWeakRef_upd o) by (try done; unfold LIM; lia).
    rewrite Z.eqb_refl. cbv iota. rewrite emit_bind.
    change (emitted ?e (upd c ?r ?x)) with (upd c r (emitted e x)). rewrite no_attempt. done. }
  exists m1, m2. split; [done|]. split; [done|]. split; [|done].
  destruct (good_fresh_counter S W m o Hg) as [Hco Hoo]; [unfold o; lia|].
  destruct (good_fresh_counter S W m c Hg) as [Hcc Hoc]; [unfold c, o; lia|].
  assert (Hnc : nw c (weaks m) = 0%nat).
  { apply nw_zero. intros k w Hk Hr. destruct (gd_weak _ _ _ Hg k w Hk) as (_ & _ & c' & r & H1 & H2 & _). congruence. }
  split; cbn -[Pos.succ].
  - intros o' b. rewrite lookup_insert_Some. intros [[<- <-]|[Hne Ho']].
    + exists c. rewrite lookup_insert_eq. split; [done|]. unfold live_ctr. cbn -[Z.of_nat]. rewrite Hnc, set_at_eq. split; [done|lia].
    + destruct (gd_obj _ _ _ Hg _ _ Ho') as (c' & -> & Hc' & Hp'). exists c'. split; [done|].
      rewrite lookup_insert_ne by congruence. unfold live_ctr. rewrite set_at_ne by done. done.
  - intros o' Hp. rewrite lookup_insert_is_Some'. destruct (decide (o' = o)) as [->|Hne]; [by left|right].
    rewrite set_at_ne in Hp by done. by apply (gd_S _ _ _ Hg).
  - intros c' r. rewrite lookup_insert_Some. intros [[<- _]|[_ Hr]]; [left; exists o; by rewrite lookup_insert_eq|].
    destruct (gd_ctr _ _ _ Hg _ _ Hr) as [[o' Ho']|?]; [left|by right]. exists o'. rewrite lookup_insert_ne; [done|congruence].
  - intros k w Hk. destruct (gd_weak _ _ _ Hg k w Hk) as (H1 & H2 & c' & r & H3 & H4 & H5). split; [done|]. split; [done|].
    exists c', r. rewrite lookup_insert_ne by congruence. done.
  - apply (gd_W _ _ _ Hg).
  - intros x. rewrite !lookup_insert_is_Some'. pose proof (gd_fresh _ _ _ Hg x) as H. fold o in H.
    intros [[<-|Hx]|[[<-|Hx]|Hx]]; [lia| |lia| |]; assert (x < o)%positive by auto; lia.
Qed.

(** ** Weak pointers *)

Lemma the_weak_ok {B} k w m (f : WeakRefCounter -> SO Mem B) : weaks m !! k = Some w -> (the_weak k ≫= f) m = f w m.
Proof. intros H. apply so_bind_Done. unfold the_weak. by rewrite H. Qed.

(** The memory with the weak counter [k] set to [w]. *)
Definition wupd (k : WeakRef) (w : WeakRefCounter) (m : Mem) : Mem := set_weaks (<[k := w]> (weaks m)) m.

Lemma w_fetch_ok {B} n k a rc ck m (f : Z -> SO Mem B) : weaks m !! k = Some (mkWeakRefCounter a rc ck) ->
  - LIM <= a + n <= LIM -> (w_fetch n k ≫= f) m = f a (wupd k (mkWeakRefCounter (a + n) rc ck) m).
Proof.
  intros Hk Ha. apply so_bind_Done. unfold w_fetch. rewrite (the_weak_ok _ _ _ _ Hk). cbn [w_atomicWeak_ refCounter_ cookie_].
  by rewrite wrap_small by (unfold LIM in *; lia).
Qed.

(** The weak counters and one counter of an object change together. *)
Lemma good_weaks S W W' m m' c : good S W m ->
  objects m' = objects m -> (next_ref m <= next_ref m')%positive ->
  (forall x, x <> c -> counters m' !! x = counters m !! x /\ nw x (weaks m') = nw x (weaks m)) ->
  (forall o, objects m !! o = Some (mkRefBase (Some c)) -> counters m' !! c = Some (live_ctr S o c m')) ->
  ((forall o, objects m !! o <> Some (mkRefBase (Some c))) ->
     counters m' !! c = if (0 <? nw c (weaks m'))%nat then Some (dead_ctr c m') else None) ->
  is_Some (counters m !! c) ->
  (forall k w, weaks m' !! k = Some w -> w_atomicWeak_ w = Z.of_nat (W' k) /\ (0 < W' k)%nat /\
     exists x, refCounter_ w = Some x /\ (x = c \/ is_Some (counters m !! x)) /\
       forall o, objects m !! o = Some (mkRefBase (Some x)) -> cookie_ w = Some o) ->
  (forall k, (0 < W' k)%nat -> is_Some (weaks m' !! k)) ->
  (forall k, is_Some (weaks m' !! k) -> (k < next_ref m')%positive) ->
  good S W' m'.
Proof.
  intros Hg Hob Hnx Hoth Hlive Hdead Hcs Hwk HW Hfr.
  assert (Hdec : (exists o, objects m !! o = Some (mkRefBase (Some c))) \/ (forall o, objects m !! o <> Some (mkRefBase (Some c)))).
  { destruct Hcs as [r Hr]. destruct (gd_ctr _ _ _ Hg _ _ Hr) as [?|[-> _]]; [by left|right].
    intros o Ho. destruct (gd_obj _ _ _ Hg _ _ Ho) as (c' & [= <-] & Hc' & _). rewrite Hc' in Hr. discriminate Hr. }
  split; rewrite ?Hob.
  - intros o b Ho. destruct (gd_obj _ _ _ Hg _ _ Ho) as (x & -> & Hx & Hp). exists x. split; [done|]. split; [|done].
    destruct (decide (x = c)) as [->|Hne]; [auto|]. destruct (Hoth x Hne) as [-> E]. rewrite Hx. unfold live_ctr. by rewrite E.
  - apply (gd_S _ _ _ Hg).
  - intros x r Hr. destruct (decide (x = c)) as [->|Hne].
    + destruct Hdec as [?|Hno]; [by left|right]. rewrite (Hdead Hno) in Hr.
      destruct (0 <? nw c (weaks m'))%nat eqn:E; [|done]. injection Hr as <-. split; [done|]. by apply Nat.ltb_lt.
    + destruct (Hoth x Hne) as [E1 E2]. rewrite E1 in Hr. destruct (gd_ctr _ _ _ Hg _ _ Hr) as [?|[-> ?]]; [by left|right].
      unfold dead_ctr. by rewrite E2.
  - intros k w Hk. destruct (Hwk k w Hk) as (H1 & H2 & x & H3 & H4 & H5). split; [done|]. split; [done|]. exists x.
    assert (Hpos : (0 < nw x (weaks m'))%nat) by (by eapply nw_pos).
    assert (Hx : is_Some (counters m' !! x)).
    { destruct (decide (x = c)) as [->|Hne]; [|destruct (Hoth x Hne) as [-> _]; by destruct H4].
      destruct Hdec as [[o Ho]|Hno]; [rewrite (Hlive o Ho); by eexists|]. rewrite (Hdead Hno), (proj2 (Nat.ltb_lt _ _)) by done. by eexists. }
    destruct Hx as [r Hr]. exists r. split; [done|]. split; [done|]. intros o Hcb. apply H5.
    destruct (decide (x = c)) as [->|Hne].
    + destruct Hdec as [[o' Ho']|Hno].
      * rewrite (Hlive o' Ho') in Hr. injection Hr as <-. cbn in Hcb. by injection Hcb as <-.
      * rewrite (Hdead Hno), (proj2 (Nat.ltb_lt _ _)) in Hr by done. by injection Hr as <-.
    + destruct (Hoth x Hne) as [E1 _]. rewrite E1 in Hr. destruct (gd_ctr _ _ _ Hg _ _ Hr) as [[o' Ho']|[-> _]]; [|done].
      destruct (gd_obj _ _ _ Hg _ _ Ho') as (x' & [= <-] & Hx' & _). rewrite Hx' in Hr. injection Hr as <-. cbn in Hcb. by injection Hcb as <-.
  - done.
  - intros x [Hx|[[r Hx]|Hx]]; [|  |auto].
    + assert (x < next_ref m)%positive by (apply (gd_fresh _ _ _ Hg); auto). lia.
    + assert (x < next_ref m)%positive; [|lia]. apply (gd_fresh _ _ _ Hg). right. left.
      destruct (decide (x = c)) as [->|Hne]; [done|]. destruct (Hoth x Hne) as [<- _]. by eexists.
Qed.

Lemma good_weak_in S W m k w : good S W m -> weaks m !! k = Some w ->
  w_atomicWeak_ w = Z.of_nat (W k) /\ (0 < W k)%nat /\ exists c, refCounter_ w = Some c /\ is_Some (counters m !! c) /\
    forall o, objects m !! o = Some (mkRefBase (Some c)) -> cookie_ w = Some o.
Proof.
  intros Hg Hk. destruct (gd_weak _ _ _ Hg k w Hk) as (H1 & H2 & c & r & H3 & H4 & H5). split; [done|]. split; [done|].
  exists c. split; [done|]. split; [by eexists|]. intros o Ho. apply H5.
  destruct (gd_obj _ _ _ Hg _ _ Ho) as (c' & [= <-] & Hc' & _). rewrite Hc' in H4. by injection H4 as <-.
Qed.

(** A weak counter for a live object. *)
Lemma good_new_weak S W m o : good S W m -> (0 < S o)%nat -> room S m o ->
  exists m', new_weak (Some o) m = Done (Some (next_ref m), m') /\ good S (set_at W (next_ref m) 1) m' /\
    size (weaks m') = Datatypes.S (size (weaks m)).
Proof.
  intros Hg Hp Hr. destruct (good_live S W m o Hg Hp) as (c & Ho & Hc & Em). unfold room in Hr.
  pose proof (nw_size c (weaks m)) as Hn. set (k := next_ref m). destruct (good_fresh_weak S W m Hg) as [HW Hwn]. fold k in HW, Hwn.
  assert (Hnn : forall w, nw c (<[k := w]> (weaks m)) = (nw c (weaks m) + one (refCounter_ w = Some c))%nat) by (intros; by apply nw_insert).
  eassert (E : new_weak (Some o) (upd c (live_ctr S o c m) m) = Done (Some k, _)).
  { unfold new_weak, CreateWeakRef, WeakRefCounter_new, live_ctr.
    unfold mbind at 1, so_bind at 1. rewrite (the_object_ok _ (mkRefBase (Some c))) by done. cbn [refs_].
    unfold mbind at 1, so_bind at 1. rewrite so_bind_st. cbn [fst snd alloc]. unfold mbind at 1, so_bind at 1.
    unfold put_weak at 1, run_st at 1, modify at 1. cbn [fst snd].
    unfold mbind at 1, so_bind at 1.
    match goal with |- context [IncRefCount c ?x] =>
      change x with (upd c (ctr (Z.of_nat (S o)) (Z.of_nat (S o + nw c (weaks m))) (Z.of_nat (1 + nw c (weaks m))) (Some o))
        (wupd k (mkWeakRefCounter 0 (Some c) (Some o)) (bump m))) end.
    pose proof (IncRefCount_upd c (Z.of_nat (S o)) (Z.of_nat (S o + nw c (weaks m))) (Z.of_nat (1 + nw c (weaks m))) (Some o)
      (wupd k (mkWeakRefCounter 0 (Some c) (Some o)) (bump m)) mret ltac:(lia)) as E1. unfold mbind at 1, so_bind at 1 in E1.
    destruct (IncRefCount c _) as [[[] x]| | |]; [|done..]. injection E1 as ->. cbn [mret so_ret].
    unfold w_inc, w_IncWeakRefCount. unfold mbind at 1, so_bind at 1.
    rewrite (w_fetch_ok 1 k 0 (Some c) (Some o)) by (try (cbn; by rewrite lookup_insert_eq); unfold LIM; lia).
    change (0 =? 0) with true. cbv iota. rewrite (the_weak_ok _ (mkWeakRefCounter 1 (Some c) (Some o))) by (cbn; by rewrite lookup_insert_eq).
    cbn [refCounter_ deref_counter]. rewrite so_bind_ret.
    change (wupd k ?w (upd c ?r ?x)) with (upd c r (wupd k w x)). rewrite IncWeakRefCount_upd by lia. reflexivity. }
  rewrite Em in E. eexists. split; [exact E|]. clear E. set (m' := upd c _ _).
  assert (Hw : weaks m' = <[k := mkWeakRefCounter 1 (Some c) (Some o)]> (weaks m)) by (cbn; by rewrite insert_insert_eq).
  split; [|rewrite Hw; by apply map_size_insert_None].
  apply (good_weaks S W _ m m' c Hg); rewrite ?Hw.
  - done.
  - cbn. lia.
  - intros x Hx. split; [cbn; by rewrite lookup_insert_ne|]. rewrite nw_insert by done. unfold one. cbn. rewrite decide_False by congruence. lia.
  - intros o' Ho'. assert (o' = o) as -> by (by apply (good_inj S W m o' o c Hg)).
    assert (Hn1 : nw c (weaks m') = (nw c (weaks m) + 1)%nat).
    { rewrite Hw, Hnn. unfold one. cbn [refCounter_]. by rewrite decide_True. }
    unfold live_ctr. rewrite Hn1. cbn [counters m' upd set_counters]. rewrite lookup_insert_eq. do 2 f_equal; lia.
  - intros Hno. by destruct (Hno o).
  - by eexists.
  - intros k' w. rewrite lookup_insert_Some. intros [[<- <-]|[Hne Hk']].
    + rewrite set_at_eq. split; [done|]. split; [lia|]. exists c. split; [done|]. split; [by left|].
      intros o' Ho'. cbn. f_equal. by apply (good_inj S W m o o' c Hg).
    + destruct (good_weak_in _ _ _ _ _ Hg Hk') as (H1 & H2 & x & H3 & H4 & H5). rewrite set_at_ne by done.
      split; [done|]. split; [done|]. exists x. split; [done|]. split; [by right|done].
  - intros k' Hk'. rewrite lookup_insert_is_Some'. destruct (decide (k' = k)) as [->|Hne]; [by left|right].
    rewrite set_at_ne in Hk' by done. by apply (gd_W _ _ _ Hg).
  - intros k'. rewrite lookup_insert_is_Some'. cbn. fold k. intros [<-|Hk']; [lia|].
    assert (k' < next_ref m)%positive by (apply (gd_fresh _ _ _ Hg); auto). fold k in H. lia.
Qed.

Lemma good_weak_at S W m k : good S W m -> (0 < W k)%nat ->
  exists c ck, weaks m !! k = Some (mkWeakRefCounter (Z.of_nat (W k)) (Some c) ck) /\ is_Some (counters m !! c).
Proof.
  intros Hg Hp. destruct (gd_W _ _ _ Hg k Hp) as [w Hk]. destruct (good_weak_in _ _ _ _ _ Hg Hk) as (H1 & _ & c & H2 & H3 & _).
  exists c, (cookie_ w). split; [|done]. rewrite Hk. destruct w as [a b e]. cbn in *. by subst.
Qed.

(** The number of weak pointers that share a weak counter changes, and is not
    zero. *)
Lemma good_w_set S W m k c ck n : good S W m ->
  weaks m !! k = Some (mkWeakRefCounter (Z.of_nat (W k)) (Some c) ck) -> is_Some (counters m !! c) -> (0 < n)%nat ->
  good S (set_at W k n) (wupd k (mkWeakRefCounter (Z.of_nat n) (Some c) ck) m).
Proof.
  intros Hg Hk Hc Hn. set (w' := mkWeakRefCounter (Z.of_nat n) (Some c) ck).
  assert (Hnw : forall x, nw x (weaks (wupd k w' m)) = nw x (weaks m)) by (intros; cbn; by eapply nw_update).
  apply (good_weaks S W _ m _ c Hg); cbn -[Nat.ltb].
  - done.
  - lia.
  - intros x Hx. split; [done|]. apply Hnw.
  - intros o Ho. destruct (gd_obj _ _ _ Hg _ _ Ho) as (c' & [= <-] & Hc' & _). rewrite Hc'. unfold live_ctr. by rewrite Hnw.
  - intros Hno. destruct Hc as [r Hr]. destruct (gd_ctr _ _ _ Hg _ _ Hr) as [[o Ho]|[-> Hp]]; [by destruct (Hno o)|].
    rewrite Hr. unfold dead_ctr. change (<[k:=w']> (weaks m)) with (weaks (wupd k w' m)). rewrite Hnw.
    by rewrite (proj2 (Nat.ltb_lt _ _)).
  - done.
  - intros k' w. rewrite lookup_insert_Some. intros [[<- <-]|[Hne Hk']].
    + rewrite set_at_eq. split; [done|]. split; [done|]. exists c. split; [done|]. split; [by left|].
      destruct (good_weak_in _ _ _ _ _ Hg Hk) as (_ & _ & x & H3 & _ & H5). cbn in *. by injection H3 as <-.
    + destruct (good_weak_in _ _ _ _ _ Hg Hk') as (H1 & H2 & x & H3 & H4 & H5). rewrite set_at_ne by done.
      split; [done|]. split; [done|]. exists x. split; [done|]. split; [by right|done].
  - intros k' Hk'. rewrite lookup_insert_is_Some'. destruct (decide (k' = k)) as [->|Hne]; [by left|right].
    rewrite set_at_ne in Hk' by done. by apply (gd_W _ _ _ Hg).
  - intros k'. rewrite lookup_insert_is_Some'. intros [<-|Hk']; apply (gd_fresh _ _ _ Hg); [right; right; by eexists|auto].
Qed.

Lemma good_w_inc S W m k : good S W m -> (0 < W k)%nat -> Z.of_nat (W k) + 4 <= LIM ->
  exists m', w_IncWeakRefCount k m = Done (tt, m') /\ good S (set_at W k (W k + 1)) m' /\ size (weaks m') = size (weaks m).
Proof.
  intros Hg Hp Hr. destruct (good_weak_at S W m k Hg Hp) as (c & ck & Hk & Hc). unfold w_IncWeakRefCount.
  rewrite (w_fetch_ok 1 k _ _ _ _ _ Hk) by lia. rewrite (proj2 (Z.eqb_neq _ _)) by lia. eexists. split; [reflexivity|].
  replace (Z.of_nat (W k) + 1) with (Z.of_nat (W k + 1)) by lia. split; [apply good_w_set; [done..|lia]|].
  cbn. by rewrite map_size_insert_Some by (by eexists).
Qed.

(** A weak pointer goes that is not the last one of its weak counter. *)
Lemma good_w_dec_many S W m k : good S W m -> (1 < W k)%nat -> Z.of_nat (W k) + 4 <= LIM ->
  exists m', w_DecWeakRefCount k m = Done (tt, m') /\ good S (set_at W k (W k - 1)) m' /\ size (weaks m') = size (weaks m).
Proof.
  intros Hg Hp Hr. destruct (good_weak_at S W m k Hg) as (c & ck & Hk & Hc); [lia|]. unfold w_DecWeakRefCount.
  rewrite (w_fetch_ok (-1) k _ _ _ _ _ Hk) by lia. rewrite (proj2 (Z.eqb_neq _ _)) by lia. eexists. split; [reflexivity|].
  replace (Z.of_nat (W k) + -1) with (Z.of_nat (W k - 1)) by lia. split; [apply good_w_set; [done..|lia]|].
  cbn. by rewrite map_size_insert_Some by (by eexists).
Qed.

(** What is left of the memory after the weak counter [k] of [c] went. *)
Definition without_weak (k : WeakRef) (c : CtrRef) (s w f : Z) (cb : option ObjRef) (m : Mem) : Mem :=
  set_weaks (delete k (weaks m)) (drop_counter c s w f cb m).

Lemma w_dec_last_run k c ck s w f cb m : weaks m !! k = Some (mkWeakRefCounter 1 (Some c) ck) ->
  (cb = None \/ 0 < s /\ 1 < w) -> 0 < w <= LIM -> 0 < f <= LIM ->
  w_DecWeakRefCount k (upd c (ctr s w f cb) m) = Done (tt, without_weak k c s (w - 1) f cb m).
Proof.
  intros Hk Hcb Hw Hf. unfold w_DecWeakRefCount. rewrite (w_fetch_ok (-1) k 1 (Some c) ck) by (try done; unfold LIM; lia).
  change (1 =? 1) with true. cbv iota. change (1 + -1) with 0.
  rewrite (the_weak_ok _ (mkWeakRefCounter 0 (Some c) ck)) by (cbn; by rewrite lookup_insert_eq).
  cbn [refCounter_ deref_counter]. rewrite so_bind_ret.
  change (wupd k ?v (upd c ?r ?x)) with (upd c r (wupd k v x)). set (m1 := wupd k _ m).
  assert (E : forall B (g : Z -> SO Mem B), (DecWeakRefCount c ≫= g) (upd c (ctr s w f cb) m1) = g w (upd c (ctr s (w - 1) f cb) m1)).
  { intros B g. destruct Hcb as [->|[Hs Hw1]]; [by apply DecWeakRefCount_dead|by apply DecWeakRefCount_many; [done|lia]]. }
  rewrite E. unfold WeakRefCounter_delete.
  rewrite (the_weak_ok _ (mkWeakRefCounter 0 (Some c) ck)) by (cbn; by rewrite lookup_insert_eq).
  cbn [refCounter_]. rewrite DecRefCount_upd by done. unfold run_st, modify, without_weak, drop_counter. cbn [fst snd].
  destruct (f =? 1); cbn; rewrite delete_insert_eq; done.
Qed.

Lemma without_weak_fields k c s w f cb m : let m' := without_weak k c s w f cb m in
  objects m' = objects m /\ weaks m' = delete k (weaks m) /\ next_ref m' = next_ref m /\
  (forall x, x <> c -> counters m' !! x = counters m !! x) /\
  counters m' !! c = if f =? 1 then None else Some (ctr s w (f - 1) cb).
Proof.
  cbv zeta. unfold without_weak, drop_counter, upd. destruct (f =? 1); cbn; split_and!; try done.
  - intros x Hx. by rewrite lookup_delete_ne.
  - apply lookup_delete_eq.
  - intros x Hx. by rewrite lookup_insert_ne.
  - apply lookup_insert_eq.
Qed.

(** The weak counter goes with its last weak pointer, and a counter without an
    object with its last weak counter. *)
Lemma good_w_dec_last S W m k : good S W m -> W k = 1%nat ->
  (forall o, Z.of_nat (S o) + Z.of_nat (size (weaks m)) + 4 <= LIM) ->
  exists m', w_DecWeakRefCount k m = Done (tt, m') /\ good S (set_at W k 0) m' /\ (size (weaks m') <= size (weaks m))%nat.
Proof.
  intros Hg Hp Hr. destruct (good_weak_at S W m k Hg) as (c & ck & Hk & [r Hc]); [lia|]. rewrite Hp in Hk.
  pose proof (nw_size c (weaks m)) as Hn. assert (Hpos : (0 < nw c (weaks m))%nat) by (by eapply nw_pos).
  assert (Hdel : nw c (weaks m) = (nw c (delete k (weaks m)) + 1)%nat).
  { rewrite (nw_delete c k _ _ Hk). unfold one. cbn. by rewrite decide_True. }
  assert (Hctr : exists s w f cb, r = ctr s w f cb /\ (cb = None \/ 0 < s /\ 1 < w) /\ 0 < w <= LIM /\ 0 < f <= LIM /\
    (forall o, objects m !! o = Some (mkRefBase (Some c)) -> s = Z.of_nat (S o) /\ w = Z.of_nat (S o + nw c (weaks m)) /\
       f = Z.of_nat (1 + nw c (weaks m)) /\ cb = Some o) /\
    ((forall o, objects m !! o <> Some (mkRefBase (Some c))) -> s = 0 /\ w = Z.of_nat (nw c (weaks m)) /\
       f = Z.of_nat (nw c (weaks m)) /\ cb = None)).
  { destruct (gd_ctr _ _ _ Hg _ _ Hc) as [[o Ho]|[-> _]].
    - destruct (gd_obj _ _ _ Hg _ _ Ho) as (c' & [= <-] & Hc' & HSo). rewrite Hc' in Hc. injection Hc as <-. specialize (Hr o).
      eexists _, _, _, _. split; [reflexivity|]. split_and!; try lia; [|by intros Hno; destruct (Hno o)].
      intros o' Ho'. assert (o' = o) as -> by (by apply (good_inj S W m o' o c Hg)). done.
    - specialize (Hr 1%positive). eexists _, _, _, _. split; [reflexivity|]. split_and!; try lia; [by left|..|done].
      intros o Ho. destruct (gd_obj _ _ _ Hg _ _ Ho) as (c' & [= <-] & Hc' & _). rewrite Hc' in Hc. discriminate Hc. }
  destruct Hctr as (s & w & f & cb & -> & Hcb & Hw & Hf & Hlive & Hdead).
  pose proof (w_dec_last_run k c ck s w f cb m Hk Hcb Hw Hf) as E. rewrite (upd_id c _ m Hc) in E.
  destruct (without_weak_fields k c s (w - 1) f cb m) as (F1 & F2 & F3 & F4 & F5).
  eexists. split; [exact E|]. set (m' := without_weak _ _ _ _ _ _ _) in *.
  split; [|rewrite F2; rewrite map_size_delete, Hk; lia].
  apply (good_weaks S W _ m m' c Hg); rewrite ?F1, ?F3, ?F2.
  - done.
  - lia.
  - intros x Hx. split; [by apply F4|]. rewrite (nw_delete x k _ _ Hk). unfold one. cbn. rewrite decide_False by congruence. lia.
  - intros o Ho. destruct (Hlive o Ho) as (-> & -> & -> & ->). rewrite F5, (proj2 (Z.eqb_neq _ _)) by lia.
    unfold live_ctr. rewrite F2. do 2 f_equal; lia.
  - intros Hno. destruct (Hdead Hno) as (-> & -> & -> & ->). rewrite F5. unfold dead_ctr. rewrite F2.
    destruct (Z.eqb_spec (Z.of_nat (nw c (weaks m))) 1) as [H1|H1].
    + rewrite (proj2 (Nat.ltb_ge _ _)) by lia. done.
    + rewrite (proj2 (Nat.ltb_lt _ _)) by lia. do 2 f_equal; lia.
  - by eexists.
  - intros k' w' [Hne Hk']%lookup_delete_Some. destruct (good_weak_in _ _ _ _ _ Hg Hk') as (H1 & H2 & x & H3 & H4 & H5).
    rewrite set_at_ne by done. split; [done|]. split; [done|]. exists x. split; [done|]. split; [by right|done].
  - intros k' Hk'. destruct (decide (k' = k)) as [->|Hne]; [rewrite set_at_eq in Hk'; lia|]. rewrite set_at_ne in Hk' by done.
    rewrite lookup_delete_ne by done. by apply (gd_W _ _ _ Hg).
  - intros k' Hk'. rewrite lookup_delete_is_Some in Hk'. apply (gd_fresh _ _ _ Hg). right. right. apply Hk'.
Qed.

Lemma good_spurious S W v m : good S W m -> good S W (set_spurious v m).
Proof. intros []. by split. Qed.

(** *** Promotion *)

Lemma attempt_live c s w f o m : 0 < s <= LIM -> 0 <= w <= LIM -> exists v,
  c_AttemptIncStrongRef c 0 (upd c (ctr s w f (Some o)) m) = Done ((true, 0), upd c (ctr (s + 1) (w + 1) f (Some o)) (set_spurious v m)).
Proof.
  intros Hs Hw. unfold c_AttemptIncStrongRef.
  destruct (exchange_loop_ok (spurious (upd c (ctr s (w + 1) f (Some o)) m)) (fun n => (0 <? n) && negb (n =? INITIAL_PRIMARY_VALUE))
    c s (w + 1) f (Some o) m) as [v E]; [|lia|].
  { rewrite INITIAL_val, (proj2 (Z.ltb_lt _ _)), (proj2 (Z.eqb_neq _ _)) by (unfold LIM in Hs; lia). done. }
  exists v. rewrite GetStrongRefCount_upd. cbn [atomicStrong_].
  rewrite IncWeakRefCount_upd by lia. rewrite so_bind_st. cbn [get fst snd]. rewrite (so_bind_Done _ _ _ _ _ E).
  cbv iota. unfold attempt_end. rewrite INITIAL_val, (proj2 (Z.leb_gt _ _)) by (unfold LIM in Hs; lia).
  cbv iota. rewrite not_extended. rewrite (proj2 (Z.ltb_ge _ _)), (proj2 (Z.eqb_neq s 0)) by lia. done.
Qed.

Lemma attempt_dead c w f m : 0 <= w < LIM -> exists v,
  c_AttemptIncStrongRef c 0 (upd c (ctr 0 w f None) m) = Done ((false, 0), upd c (ctr 0 w f None) (set_spurious v m)).
Proof.
  intros Hw. unfold c_AttemptIncStrongRef. exists (spurious m). rewrite GetStrongRefCount_upd. cbn [atomicStrong_].
  rewrite IncWeakRefCount_upd by lia. rewrite so_bind_st. cbn [get fst snd].
  assert (E : exchange_loop (spurious m) (fun n => (0 <? n) && negb (n =? INITIAL_PRIMARY_VALUE)) c 0 (upd c (ctr 0 (w + 1) f None) m) =
    Done ((false, 0), upd c (ctr 0 (w + 1) f None) (set_spurious (spurious m) m))).
  { by destruct (spurious m). }
  change (spurious (upd c ?r m)) with (spurious m). rewrite (so_bind_Done _ _ _ _ _ E). cbv iota.
  rewrite not_extended, so_bind_st. cbn [get fst snd]. change ((0 =? INITIAL_PRIMARY_VALUE) && _) with false. cbv iota.
  rewrite so_bind_ret. cbv iota. rewrite not_extended, so_bind_ret. unfold attempt_end.
  change (INITIAL_PRIMARY_VALUE <=? 0) with false. cbv iota. rewrite not_extended.
  change ((0 <? 0) || negb false && (0 =? 0)) with true. cbv iota.
  rewrite (DecWeakRefCount_dead c 0 (w + 1) f) by lia. by replace (w + 1 - 1) with w by lia.
Qed.

(** The object that a weak counter refers to, while it lives. *)
Definition target (m : Mem) (k : WeakRef) (o : ObjRef) : Prop :=
  exists w c, weaks m !! k = Some w /\ refCounter_ w = Some c /\ objects m !! o = Some (mkRefBase (Some c)).

(** Promotion gives a strong pointer to the object while it lives, and the
    null pointer after. *)
Lemma good_promote S W m k : good S W m -> (0 < W k)%nat ->
  (forall o, Z.of_nat (S o) + Z.of_nat (size (weaks m)) + 4 <= LIM) ->
  exists p m', sptr_from_weak (Some k) m = Done (p, m') /\ weaks m' = weaks m /\
    (forall o, target m k o <-> p = Some o) /\
    match p with Some o => (0 < S o)%nat /\ good (set_at S o (S o + 1)) W m' | None => good S W m' end.
Proof.
  intros Hg Hp Hr. destruct (good_weak_at S W m k Hg Hp) as (c & ck & Hk & [r Hc]).
  pose proof (nw_size c (weaks m)) as Hn. unfold sptr_from_weak.
  assert (Hrun : forall b v r', c_AttemptIncStrongRef c 0 (upd c r m) = Done ((b, 0), upd c r' (set_spurious v m)) ->
    w_AttemptIncStrongRef k m = Done (b, upd c r' (set_spurious v m))).
  { intros b v r' E. unfold w_AttemptIncStrongRef. rewrite (the_weak_ok _ _ _ _ Hk). cbn [refCounter_ deref_counter]. rewrite so_bind_ret.
    rewrite (upd_id c r m Hc) in E. by rewrite (so_bind_Done _ _ _ _ _ E). }
  destruct (gd_ctr _ _ _ Hg _ _ Hc) as [[o Ho]|[-> Hpos]].
  - destruct (gd_obj _ _ _ Hg _ _ Ho) as (c' & [= <-] & Hc' & HSo). rewrite Hc' in Hc. injection Hc as <-. specialize (Hr o).
    destruct (attempt_live c (Z.of_nat (S o)) (Z.of_nat (S o + nw c (weaks m))) (Z.of_nat (1 + nw c (weaks m))) o m) as [v E]; [lia..|].
    rewrite (so_bind_Done _ _ _ _ _ (Hrun _ _ _ E)). cbv iota. unfold w_GetRefPtr.
    destruct (good_weak_in _ _ _ _ _ Hg Hk) as (_ & _ & x & [= <-] & _ & Hck). cbn [cookie_] in Hck. rewrite (Hck o Ho) in Hk.
    rewrite (the_weak_ok _ _ (upd _ _ (set_spurious v m)) _ Hk). cbn [cookie_ refCounter_ deref_counter]. rewrite so_bind_ret.
    unfold IsRefPtrValid. unfold mbind at 1, so_bind at 1. rewrite the_counter_upd. cbn [mret so_ret callback_].
    rewrite bool_decide_eq_true_2 by done. eexists (Some o), _. split; [reflexivity|]. split; [done|]. split.
    + intros o'. split.
      * intros (w & x & Hk' & Hx & Ho'). rewrite Hk in Hk'. injection Hk' as <-. cbn in Hx. injection Hx as <-.
        f_equal. by apply (good_inj S W m o o' c Hg).
      * intros [= <-]. eexists _, c. by split_and!.
    + split; [done|]. apply (good_set S W m _ o c); [done|done|lia| |done..].
      unfold upd, live_ctr. rewrite set_at_eq. cbn. do 2 f_equal; lia.
  - specialize (Hr 1%positive). destruct (attempt_dead c (Z.of_nat (nw c (weaks m))) (Z.of_nat (nw c (weaks m))) m) as [v E]; [lia|].
    change (ctr 0 (Z.of_nat (nw c (weaks m))) (Z.of_nat (nw c (weaks m))) None) with (dead_ctr c m) in E.
    rewrite (so_bind_Done _ _ _ _ _ (Hrun _ _ _ E)). cbv iota. eexists None, _. split; [reflexivity|]. split; [done|]. split.
    + intros o. split; [|done]. intros (w & x & Hk' & Hx & Ho). rewrite Hk in Hk'. injection Hk' as <-. cbn in Hx. injection Hx as <-.
      destruct (gd_obj _ _ _ Hg _ _ Ho) as (c' & [= <-] & Hc' & _). rewrite Hc' in Hc. discriminate Hc.
    + rewrite <- set_spurious_upd, (upd_id c _ m Hc). by apply good_spurious.
Qed.

(** ** Programs *)

(** The variables of a program, and the memory. *)
Record Prog := mkProg { svars : list Sptr; wvars : list Wptr; mem : Mem }.

Definition svar (i : nat) (p : Prog) : Sptr := default None (svars p !! i).
Definition wvar (k : nat) (p : Prog) : Wptr := default None (wvars p !! k).

Inductive Op :=
  | ONew (i : nat)             (** [s = new T] *)
  | OCopy (i j : nat)          (** [s = t] *)
  | OMove (i j : nat)          (** [s = std::move(t)] *)
  | OClear (i : nat)           (** [s.clear()] *)
  | OPass (i : nat)            (** an argument by value *)
  | OWeak (k i : nat)          (** [w = s] *)
  | OWCopy (k l : nat)         (** [w = v] *)
  | OWClear (k : nat)          (** [w = nullptr] *)
  | OPromote (i k : nat).      (** [s = w.promote()], a constant temporary *)

Definition with_mem {A} (f : Mem -> outcome (A * Mem)) (k : A -> Mem -> Prog) (p : Prog) : outcome Prog :=
  '(a, m) ← f (mem p); Done (k a m).

Definition op_step (o : Op) (p : Prog) : outcome Prog :=
  match o with
  | ONew i => with_mem (o ← RefBase_new; sptr_assign_raw (svar i p) (Some o))
      (fun v m => mkProg (<[i := v]> (svars p)) (wvars p) m) p
  | OCopy i j => with_mem (sptr_assign (svar i p) (svar j p))
      (fun v m => mkProg (<[i := v]> (svars p)) (wvars p) m) p
  | OMove i j => with_mem (sptr_move_assign (svar i p) (svar j p))
      (fun r m => mkProg (<[j := r.2]> (<[i := r.1]> (svars p))) (wvars p) m) p
  | OClear i => with_mem (sptr_clear (svar i p))
      (fun v m => mkProg (<[i := v]> (svars p)) (wvars p) m) p
  | OPass i => with_mem (t ← sptr_copy (svar i p); sptr_delete t)
      (fun _ m => mkProg (svars p) (wvars p) m) p
  | OWeak k i => with_mem (wptr_assign_sptr (wvar k p) (svar i p))
      (fun w m => mkProg (svars p) (<[k := w]> (wvars p)) m) p
  | OWCopy k l => with_mem (wptr_assign (wvar k p) (wvar l p))
      (fun w m => mkProg (svars p) (<[k := w]> (wvars p)) m) p
  | OWClear k => with_mem (wptr_assign_raw (wvar k p) None)
      (fun w m => mkProg (svars p) (<[k := w]> (wvars p)) m) p
  | OPromote i k => with_mem (t ← wptr_promote (wvar k p); v ← sptr_assign (svar i p) t; sptr_delete t;; mret v)
      (fun v m => mkProg (<[i := v]> (svars p)) (wvars p) m) p
  end.

Fixpoint op_run (os : list Op) (p : Prog) : outcome Prog :=
  match os with [] => Done p | o :: os' => p' ← op_step o p; op_run os' p' end.

(** The variables of an operation exist. *)
Definition in_range (n w : nat) (o : Op) : Prop :=
  match o with
  | ONew i | OClear i | OPass i => (i < n)%nat
  | OCopy i j | OMove i j => (i < n)%nat /\ (j < n)%nat
  | OWeak k i | OPromote i k => (k < w)%nat /\ (i < n)%nat
  | OWCopy k l => (k < w)%nat /\ (l < w)%nat
  | OWClear k => (k < w)%nat
  end.

Definition mem_new (oracle : list bool) : Mem := mkMem ∅ ∅ ∅ 1 oracle [].

Definition prog_new (n w : nat) (oracle : list bool) : Prog := mkProg (replicate n None) (replicate w None) (mem_new oracle).

(** *** The pointers as a list *)

Definition cnt (l : list (option positive)) : Counts := fun x => length (filter (fun p => p = Some x) l).

(** The strong pointers [L] and the weak pointers [K], in variables or not, are
    what the counters count. *)
Definition counted (L : list Sptr) (K : list Wptr) (m : Mem) : Prop := good (cnt L) (cnt K) m.

Lemma cnt_cons p l x : cnt (p :: l) x = (one (p = Some x) + cnt l x)%nat.
Proof. unfold cnt, one. rewrite filter_cons. by case_decide. Qed.

Lemma cnt_perm l l' x : l ≡ₚ l' -> cnt l x = cnt l' x.
Proof. intros H. unfold cnt. by rewrite H. Qed.

Lemma cnt_le l x : (cnt l x <= length l)%nat.
Proof. unfold cnt. apply length_filter. Qed.

Lemma cnt_pos l x : (0 < cnt l x)%nat <-> Some x ∈ l.
Proof.
  unfold cnt. split.
  - intros H. destruct (filter _ l) as [|p l'] eqn:E; [cbn in H; lia|].
    assert (Hp : p ∈ filter (fun p => p = Some x) l) by (rewrite E; left). apply list_elem_of_filter in Hp as [-> ?]. done.
  - intros H. assert (Hp : Some x ∈ filter (fun p => p = Some x) l) by (by apply list_elem_of_filter).
    destruct (filter _ l); [inv Hp|cbn; lia].
Qed.

#[export] Instance counted_perm : Proper ((≡ₚ) ==> (≡ₚ) ==> eq ==> impl) counted.
Proof. intros L L' HL K K' HK m m' <- Hg. eapply good_ext; [| |exact Hg]; intros; by apply cnt_perm. Qed.

Lemma counted_null L K m : counted (None :: L) K m <-> counted L K m.
Proof. split; apply good_ext; intros; rewrite ?cnt_cons; done. Qed.

Lemma counted_wnull L K m : counted L (None :: K) m <-> counted L K m.
Proof. split; apply good_ext; intros; rewrite ?cnt_cons; done. Qed.

Lemma counted_add L K m o : good (set_at (cnt L) o (cnt L o + 1)) (cnt K) m -> counted (Some o :: L) K m.
Proof.
  apply good_ext; [|done]. intros x. rewrite cnt_cons. unfold set_at, one. do 2 case_decide; simplify_eq; lia.
Qed.

Lemma counted_del L K m o : good (set_at (cnt (Some o :: L)) o (cnt (Some o :: L) o - 1)) (cnt K) m -> counted L K m.
Proof.
  apply good_ext; [|done]. intros x. unfold set_at. case_decide; subst; rewrite ?cnt_cons; unfold one; case_decide; simplify_eq; lia.
Qed.

Lemma counted_wadd L K m k : good (cnt L) (set_at (cnt K) k (cnt K k + 1)) m -> counted L (Some k :: K) m.
Proof.
  apply good_ext; [done|]. intros x. rewrite cnt_cons. unfold set_at, one. do 2 case_decide; simplify_eq; lia.
Qed.

Lemma counted_wdel L K m k : good (cnt L) (set_at (cnt (Some k :: K)) k (cnt (Some k :: K) k - 1)) m -> counted L K m.
Proof.
  apply good_ext; [done|]. intros x. unfold set_at. case_decide; subst; rewrite ?cnt_cons; unfold one; case_decide; simplify_eq; lia.
Qed.

(** There are at most as many weak counters as weak pointers. *)
Lemma counted_size L K m : counted L K m -> (size (weaks m) <= length K)%nat.
Proof.
  intros Hg. rewrite <- size_dom.
  assert (Hsub : dom (weaks m) ⊆ (list_to_set (omap id K) : gset positive)).
  { intros k [w Hk]%elem_of_dom. destruct (gd_weak _ _ _ Hg k w Hk) as (_ & Hp & _). apply cnt_pos in Hp.
    apply elem_of_list_to_set, list_elem_of_omap. by exists (Some k). }
  apply subseteq_size in Hsub. etrans; [exact Hsub|].
  clear. induction K as [|[k|] K IH]; [done| |exact (le_S _ _ IH)].
  change (list_to_set (omap id (Some k :: K)) : gset positive) with ({[k]} ∪ (list_to_set (omap id K) : gset positive)).
  rewrite size_union_alt, size_singleton. cbn [length].
  assert (size ((list_to_set (omap id K) : gset positive) ∖ {[k]}) <= length K)%nat; [|lia].
  etrans; [|exact IH]. apply subseteq_size. set_solver.
Qed.

(** The counters can count the pointers. *)
Definition fits (L : list Sptr) (K : list Wptr) : Prop := Z.of_nat (length L) + Z.of_nat (length K) + 6 <= LIM.

Lemma fits_room L K m o : counted L K m -> fits L K -> Z.of_nat (cnt L o) + Z.of_nat (size (weaks m)) + 4 <= LIM.
Proof. intros Hc Hf. unfold fits in Hf. pose proof (cnt_le L o). pose proof (counted_size _ _ _ Hc). lia. Qed.

(** What an operation on one pointer does to the pointers there are. *)
Lemma c_inc L K m p : counted L K m -> fits L K -> p = None \/ p ∈ L ->
  exists m', inc_strong p m = Done (tt, m') /\ counted (p :: L) K m'.
Proof.
  intros Hc Hf Hp. destruct p as [o|]; [|exists m; by rewrite counted_null].
  assert (Hpos : (0 < cnt L o)%nat) by (apply cnt_pos; by destruct Hp).
  destruct (good_inc _ _ _ o Hc Hpos) as (m' & E & Hg & _); [by eapply fits_room|]. exists m'. split; [done|by apply counted_add].
Qed.

Lemma c_dec L K m p : counted (p :: L) K m -> fits (p :: L) K ->
  exists m', dec_strong p m = Done (tt, m') /\ counted L K m'.
Proof.
  intros Hc Hf. destruct p as [o|]; [|exists m; by rewrite counted_null in Hc].
  pose proof (fits_room _ _ _ o Hc Hf) as Hr.
  assert (Hpos : (0 < cnt (Some o :: L) o)%nat) by (apply cnt_pos; left).
  destruct (decide (cnt (Some o :: L) o = 1%nat)) as [H1|H1].
  - destruct (good_dec_last _ _ _ o Hc H1 Hr) as (m' & E & Hg & _). exists m'. split; [done|]. apply (counted_del _ _ _ o).
    by rewrite H1.
  - destruct (good_dec_many _ _ _ o Hc) as (m' & E & Hg & _); [lia|done|]. exists m'. split; [done|by apply (counted_del _ _ _ o)].
Qed.

Lemma c_new L K m : counted L K m ->
  exists o m', (o ← RefBase_new; sptr_assign_raw None (Some o)) m = Done (Some o, m') /\ counted (Some o :: L) K m'.
Proof.
  intros Hc. pose proof (good_fresh_obj _ _ _ Hc) as H0. destruct (good_new _ _ _ Hc) as (m1 & m2 & E1 & E2 & Hg & _).
  exists (next_ref m), m2. rewrite (so_bind_Done _ _ _ _ _ E1). unfold sptr_assign_raw. cbn [inc_strong].
  rewrite (so_bind_Done _ _ _ _ _ E2). split; [done|]. apply counted_add. by rewrite H0.
Qed.

Lemma c_new_weak L K m p : counted L K m -> fits L K -> p = None \/ p ∈ L ->
  exists k m', new_weak p m = Done (k, m') /\ counted L (k :: K) m'.
Proof.
  intros Hc Hf Hp. destruct p as [o|]; [|exists None, m; by rewrite counted_wnull].
  assert (Hpos : (0 < cnt L o)%nat) by (apply cnt_pos; by destruct Hp).
  pose proof (good_fresh_weak _ _ _ Hc) as [H0 _].
  destruct (good_new_weak _ _ _ o Hc Hpos) as (m' & E & Hg & _); [by eapply fits_room|].
  exists (Some (next_ref m)), m'. split; [done|]. apply counted_wadd. by rewrite H0.
Qed.

Lemma c_w_inc L K m q : counted L K m -> fits L K -> q = None \/ q ∈ K ->
  exists m', w_inc q m = Done (tt, m') /\ counted L (q :: K) m'.
Proof.
  intros Hc Hf Hq. destruct q as [k|]; [|exists m; by rewrite counted_wnull].
  assert (Hpos : (0 < cnt K k)%nat) by (apply cnt_pos; by destruct Hq). pose proof (cnt_le K k). unfold fits in Hf.
  destruct (good_w_inc _ _ _ k Hc Hpos) as (m' & E & Hg & _); [lia|]. exists m'. split; [done|by apply counted_wadd].
Qed.

Lemma c_w_dec L K m q : counted L (q :: K) m -> fits L (q :: K) ->
  exists m', w_dec q m = Done (tt, m') /\ counted L K m'.
Proof.
  intros Hc Hf. destruct q as [k|]; [|exists m; by rewrite counted_wnull in Hc].
  assert (Hpos : (0 < cnt (Some k :: K) k)%nat) by (apply cnt_pos; left).
  destruct (decide (cnt (Some k :: K) k = 1%nat)) as [H1|H1].
  - destruct (good_w_dec_last _ _ _ k Hc H1) as (m' & E & Hg & _); [by intros o; eapply fits_room|].
    exists m'. split; [done|]. apply (counted_wdel _ _ _ k). by rewrite H1.
  - pose proof (cnt_le (Some k :: K) k). unfold fits in Hf.
    destruct (good_w_dec_many _ _ _ k Hc) as (m' & E & Hg & _); [lia..|]. exists m'. split; [done|by apply (counted_wdel _ _ _ k)].
Qed.

Lemma c_promote L K m q : counted L K m -> fits L K -> q = None \/ q ∈ K ->
  exists p m', sptr_from_weak q m = Done (p, m') /\ counted (p :: L) K m' /\
    forall o, (exists k, q = Some k /\ target m k o) <-> p = Some o.
Proof.
  intros Hc Hf Hq. destruct q as [k|].
  2: { exists None, m. rewrite counted_null. split_and!; [done|done|]. intros o. split; [by intros (? & [=] & _)|done]. }
  assert (Hpos : (0 < cnt K k)%nat) by (apply cnt_pos; by destruct Hq).
  destruct (good_promote _ _ _ k Hc Hpos) as (p & m' & E & _ & Ht & Hg); [by intros o; eapply fits_room|].
  exists p, m'. split; [done|]. split.
  - destruct p as [o|]; [apply counted_add, Hg|by apply counted_null].
  - intros o. rewrite <- Ht. split; [by intros (? & [= <-] & ?)|intros ?; by exists k].
Qed.

(** *** Variables *)

Lemma insert_perm {A} (l : list A) i old v : l !! i = Some old -> v :: l ≡ₚ old :: <[i := v]> l.
Proof.
  revert i. induction l as [|x l IH]; intros [|i] H; cbn in *; try done.
  - injection H as ->. apply perm_swap.
  - etrans; [apply perm_swap|]. etrans; [apply perm_skip, (IH i H)|]. apply perm_swap.
Qed.

Lemma move_perm {A} (l : list A) i j old t n : l !! i = Some old -> l !! j = Some t ->
  n :: l ≡ₚ old :: <[j := n]> (<[i := t]> l).
Proof.
  intros Hi Hj. apply (Permutation_cons_inv (a := t)). pose proof (insert_perm l i old t Hi) as H1.
  assert (Hjt : <[i := t]> l !! j = Some t).
  { destruct (decide (i = j)) as [->|Hne]; [apply list_lookup_insert_eq; by eapply lookup_lt_Some|by rewrite list_lookup_insert_ne]. }
  pose proof (insert_perm _ j t n Hjt) as H2. 
  etrans; [apply perm_swap|]. etrans; [apply perm_skip, H1|]. etrans; [apply perm_swap|].
  etrans; [apply perm_skip, H2|]. apply perm_swap.
Qed.

(** A program whose pointers are counted. *)
Definition sound (n w : nat) (p : Prog) : Prop :=
  length (svars p) = n /\ length (wvars p) = w /\ counted (svars p) (wvars p) (mem p).

Lemma svar_lookup i p : (i < length (svars p))%nat -> svars p !! i = Some (svar i p).
Proof. intros H. unfold svar. apply lookup_lt_is_Some in H as [v ->]. done. Qed.

Lemma wvar_lookup k p : (k < length (wvars p))%nat -> wvars p !! k = Some (wvar k p).
Proof. intros H. unfold wvar. apply lookup_lt_is_Some in H as [v ->]. done. Qed.

Lemma svar_in i p : (i < length (svars p))%nat -> svar i p ∈ svars p.
Proof. intros H. eapply list_elem_of_lookup_2. by apply svar_lookup. Qed.

Lemma wvar_in k p : (k < length (wvars p))%nat -> wvar k p ∈ wvars p.
Proof. intros H. eapply list_elem_of_lookup_2. by apply wvar_lookup. Qed.

(** The operations on one variable, with what it held before. *)
Lemma c_assign l K m i v m1 : counted (v :: l) K m -> (i < length l)%nat -> fits (v :: l) K ->
  m1 = default None (l !! i) ->
  exists m', dec_strong m1 m = Done (tt, m') /\ counted (<[i := v]> l) K m'.
Proof.
  intros Hc Hi Hf ->. apply lookup_lt_is_Some in Hi as [old Ho]. rewrite Ho. cbn [default].
  rewrite (insert_perm l i old v Ho) in Hc. apply (c_dec _ K m old Hc). unfold fits in *. cbn [length] in *.
  by rewrite length_insert.
Qed.

Lemma c_wassign L l m k v m1 : counted L (v :: l) m -> (k < length l)%nat -> fits L (v :: l) ->
  m1 = default None (l !! k) ->
  exists m', w_dec m1 m = Done (tt, m') /\ counted L (<[k := v]> l) m'.
Proof.
  intros Hc Hi Hf ->. apply lookup_lt_is_Some in Hi as [old Ho]. rewrite Ho. cbn [default].
  rewrite (insert_perm l k old v Ho) in Hc. apply (c_w_dec L _ m old Hc). unfold fits in *. cbn [length] in *.
  by rewrite length_insert.
Qed.

(** The variables are few. *)
Definition few (n w : nat) : Prop := Z.of_nat n + Z.of_nat w + 9 <= LIM.

Lemma fits_vars n w p extra wextra : sound n w p -> few n w -> (length extra + length wextra <= 3)%nat ->
  fits (extra ++ svars p) (wextra ++ wvars p).
Proof. intros (Hn & Hw & _) Hf He. unfold fits, few in *. rewrite !length_app. lia. Qed.

Lemma op_assign n w p i v m : sound n w p -> few n w -> (i < n)%nat -> counted (v :: svars p) (wvars p) m ->
  exists m', dec_strong (svar i p) m = Done (tt, m') /\ sound n w (mkProg (<[i := v]> (svars p)) (wvars p) m').
Proof.
  intros Hs Hf Hi Hc. pose proof (fits_vars n w p [v] [] Hs Hf ltac:(cbn; lia)) as Hfit. destruct Hs as (Hn & Hw & _).
  destruct (c_assign (svars p) (wvars p) m i v (svar i p) Hc) as (m' & E & Hc'); [lia|done|done|].
  exists m'. split; [done|]. split; [cbn; by rewrite length_insert|done].
Qed.

Lemma op_wassign n w p k v m : sound n w p -> few n w -> (k < w)%nat -> counted (svars p) (v :: wvars p) m ->
  exists m', w_dec (wvar k p) m = Done (tt, m') /\ sound n w (mkProg (svars p) (<[k := v]> (wvars p)) m').
Proof.
  intros Hs Hf Hk Hc. pose proof (fits_vars n w p [] [v] Hs Hf ltac:(cbn; lia)) as Hfit. destruct Hs as (Hn & Hw & _).
  destruct (c_wassign (svars p) (wvars p) m k v (wvar k p) Hc) as (m' & E & Hc'); [lia|done|done|].
  exists m'. split; [done|]. split; [done|]. split; [cbn; by rewrite length_insert|done].
Qed.

Lemma op_new n w p i : sound n w p -> few n w -> (i < n)%nat -> exists p', op_step (ONew i) p = Done p' /\ sound n w p'.
Proof.
  intros Hs Hf Hi. destruct (c_new _ _ _ (proj2 (proj2 Hs))) as (o & m1 & E & Hc).
  unfold mbind at 1, so_bind at 1 in E. destruct (RefBase_new (mem p)) as [[o' m0]| | |] eqn:En; [|done..].
  unfold sptr_assign_raw in E. cbn [inc_strong dec_strong] in E. unfold mbind at 1, so_bind at 1 in E.
  destruct (IncStrongRef o' m0) as [[[] m2]| | |] eqn:Ei; [|done..]. cbn in E. injection E as -> ->.
  destruct (op_assign n w p i _ _ Hs Hf Hi Hc) as (m' & E & Hs'). eexists. split; [|exact Hs'].
  cbn [op_step]. unfold with_mem. rewrite (so_bind_Done _ _ _ _ _ En). unfold sptr_assign_raw. cbn [inc_strong].
  rewrite (so_bind_Done _ _ _ _ _ Ei), (so_bind_Done _ _ _ _ _ E). done.
Qed.

Lemma op_copy n w p i j : sound n w p -> few n w -> (i < n)%nat -> (j < n)%nat ->
  exists p', op_step (OCopy i j) p = Done p' /\ sound n w p'.
Proof.
  intros Hs Hf Hi Hj. pose proof (fits_vars n w p [] [] Hs Hf ltac:(cbn; lia)) as Hfit. pose proof Hs as (Hn & Hw & Hc).
  destruct (c_inc _ _ _ (svar j p) Hc Hfit) as (m1 & E1 & Hc1); [right; apply svar_in; lia|].
  destruct (op_assign n w p i _ _ Hs Hf Hi Hc1) as (m' & E & Hs'). eexists. split; [|exact Hs'].
  cbn [op_step]. unfold with_mem, sptr_assign. by rewrite (so_bind_Done _ _ _ _ _ E1), (so_bind_Done _ _ _ _ _ E).
Qed.

Lemma op_move n w p i j : sound n w p -> few n w -> (i < n)%nat -> (j < n)%nat ->
  exists p', op_step (OMove i j) p = Done p' /\ sound n w p'.
Proof.
  intros Hs Hf Hi Hj. pose proof (fits_vars n w p [None] [] Hs Hf ltac:(cbn; lia)) as Hfit. pose proof Hs as (Hn & Hw & Hc).
  apply counted_null in Hc.
  rewrite (move_perm (svars p) i j (svar i p) (svar j p) None) in Hc by (apply svar_lookup; lia).
  destruct (c_dec _ _ _ _ Hc) as (m' & E & Hc').
  { unfold fits in *. cbn [length app] in *. by rewrite !length_insert. }
  eexists. split; [cbn [op_step]; unfold with_mem, sptr_move_assign; by rewrite (so_bind_Done _ _ _ _ _ E)|].
  split; [cbn; by rewrite !length_insert|done].
Qed.

Lemma op_clear n w p i : sound n w p -> few n w -> (i < n)%nat -> exists p', op_step (OClear i) p = Done p' /\ sound n w p'.
Proof.
  intros Hs Hf Hi. pose proof Hs as (Hn & Hw & Hc). apply counted_null in Hc.
  destruct (op_assign n w p i _ _ Hs Hf Hi Hc) as (m' & E & Hs'). eexists. split; [|exact Hs'].
  cbn [op_step]. unfold with_mem, sptr_clear. by rewrite (so_bind_Done _ _ _ _ _ E).
Qed.

Lemma op_pass n w p i : sound n w p -> few n w -> (i < n)%nat -> exists p', op_step (OPass i) p = Done p' /\ sound n w p'.
Proof.
  intros Hs Hf Hi. pose proof (fits_vars n w p [] [] Hs Hf ltac:(cbn; lia)) as Hfit.
  pose proof (fits_vars n w p [svar i p] [] Hs Hf ltac:(cbn; lia)) as Hfit2. pose proof Hs as (Hn & Hw & Hc).
  destruct (c_inc _ _ _ (svar i p) Hc Hfit) as (m1 & E1 & Hc1); [right; apply svar_in; lia|].
  destruct (c_dec _ _ _ _ Hc1 Hfit2) as (m' & E & Hc'). exists (mkProg (svars p) (wvars p) m'). split; [|by split_and!].
  assert (E0 : sptr_copy (svar i p) (mem p) = Done (svar i p, m1)) by (unfold sptr_copy; by rewrite (so_bind_Done _ _ _ _ _ E1)).
  cbn [op_step]. unfold with_mem, sptr_delete. by rewrite (so_bind_Done _ _ _ _ _ E0), E.
Qed.

Lemma op_weak n w p k i : sound n w p -> few n w -> (k < w)%nat -> (i < n)%nat ->
  exists p', op_step (OWeak k i) p = Done p' /\ sound n w p'.
Proof.
  intros Hs Hf Hk Hi. pose proof (fits_vars n w p [] [] Hs Hf ltac:(cbn; lia)) as Hfit. pose proof Hs as (Hn & Hw & Hc).
  destruct (c_new_weak _ _ _ (svar i p) Hc Hfit) as (q & m1 & E1 & Hc1); [right; apply svar_in; lia|].
  destruct (op_wassign n w p k _ _ Hs Hf Hk Hc1) as (m' & E & Hs'). eexists. split; [|exact Hs'].
  cbn [op_step]. unfold with_mem, wptr_assign_sptr. by rewrite (so_bind_Done _ _ _ _ _ E1), (so_bind_Done _ _ _ _ _ E).
Qed.

Lemma op_wcopy n w p k l : sound n w p -> few n w -> (k < w)%nat -> (l < w)%nat ->
  exists p', op_step (OWCopy k l) p = Done p' /\ sound n w p'.
Proof.
  intros Hs Hf Hk Hl. pose proof (fits_vars n w p [] [] Hs Hf ltac:(cbn; lia)) as Hfit. pose proof Hs as (Hn & Hw & Hc).
  destruct (c_w_inc _ _ _ (wvar l p) Hc Hfit) as (m1 & E1 & Hc1); [right; apply wvar_in; lia|].
  destruct (op_wassign n w p k _ _ Hs Hf Hk Hc1) as (m' & E & Hs'). eexists. split; [|exact Hs'].
  cbn [op_step]. unfold with_mem, wptr_assign. by rewrite (so_bind_Done _ _ _ _ _ E1), (so_bind_Done _ _ _ _ _ E).
Qed.

Lemma op_wclear n w p k : sound n w p -> few n w -> (k < w)%nat -> exists p', op_step (OWClear k) p = Done p' /\ sound n w p'.
Proof.
  intros Hs Hf Hk. pose proof Hs as (Hn & Hw & Hc). apply counted_wnull in Hc.
  destruct (op_wassign n w p k _ _ Hs Hf Hk Hc) as (m' & E & Hs'). eexists. split; [|exact Hs'].
  cbn [op_step]. unfold with_mem, wptr_assign_raw. cbn [new_weak]. rewrite so_bind_ret. by rewrite (so_bind_Done _ _ _ _ _ E).
Qed.

(** Promotion gives what the weak pointer refers to, while it lives. *)
Lemma op_promote n w p i k : sound n w p -> few n w -> (k < w)%nat -> (i < n)%nat ->
  exists p', op_step (OPromote i k) p = Done p' /\ sound n w p' /\
    forall o, (exists q, wvar k p = Some q /\ target (mem p) q o) <-> svar i p' = Some o.
Proof.
  intros Hs Hf Hk Hi. pose proof (fits_vars n w p [] [] Hs Hf ltac:(cbn; lia)) as Hfit. pose proof Hs as (Hn & Hw & Hc).
  destruct (c_promote _ _ _ (wvar k p) Hc Hfit) as (t & m1 & E1 & Hc1 & Ht); [right; apply wvar_in; lia|].
  pose proof (fits_vars n w p [t] [] Hs Hf ltac:(cbn; lia)) as Hfit1.
  destruct (c_inc _ _ _ t Hc1 Hfit1) as (m2 & E2 & Hc2); [right; left|].
  pose proof (fits_vars n w p [t; t] [] Hs Hf ltac:(cbn; lia)) as Hfit2.
  assert (Hi' : (Datatypes.S i < length (t :: svars p))%nat) by (cbn; lia).
  destruct (c_assign (t :: svars p) (wvars p) m2 (Datatypes.S i) t (svar i p) Hc2 Hi' Hfit2 eq_refl) as (m3 & E3 & Hc3).
  change (<[Datatypes.S i := t]> (t :: svars p)) with (t :: <[i := t]> (svars p)) in Hc3.
  destruct (c_dec _ _ _ _ Hc3) as (m4 & E4 & Hc4).
  { unfold fits in *. cbn [length app] in *. by rewrite length_insert. }
  exists (mkProg (<[i := t]> (svars p)) (wvars p) m4). split; [|split].
  - assert (E0 : sptr_assign (svar i p) t m1 = Done (t, m3)).
    { unfold sptr_assign. by rewrite (so_bind_Done _ _ _ _ _ E2), (so_bind_Done _ _ _ _ _ E3). }
    cbn [op_step]. unfold with_mem, wptr_promote, sptr_delete.
    by rewrite (so_bind_Done _ _ _ _ _ E1), (so_bind_Done _ _ _ _ _ E0), (so_bind_Done _ _ _ _ _ E4).
  - split; [cbn; by rewrite length_insert|done].
  - intros o. rewrite Ht. unfold svar. cbn [svars]. rewrite list_lookup_insert_eq by lia. done.
Qed.

Lemma op_sound n w o p : sound n w p -> few n w -> in_range n w o -> exists p', op_step o p = Done p' /\ sound n w p'.
Proof.
  intros Hs Hf Hr. destruct o as [i|i j|i j|i|i|k i|k l|k|i k]; cbn [in_range] in Hr;
    [apply op_new|apply op_copy|apply op_move|apply op_clear|apply op_pass|apply op_weak|apply op_wcopy|apply op_wclear|];
    try tauto.
  destruct (op_promote n w p i k Hs Hf) as (p' & E & Hs' & _); [tauto..|]. by exists p'.
Qed.

Lemma run_sound n w os p : sound n w p -> few n w -> Forall (in_range n w) os -> exists p', op_run os p = Done p' /\ sound n w p'.
Proof.
  intros Hs Hf Ho. revert p Hs. induction Ho as [|o os Ho _ IH]; intros p Hs; [by exists p|].
  destruct (op_sound n w o p Hs Hf Ho) as (p1 & E1 & Hs1). destruct (IH p1 Hs1) as (p' & E & Hs').
  exists p'. split; [|done]. cbn [op_run]. by rewrite E1.
Qed.

(** ** Properties *)

Lemma sound_new n w oracle : sound n w (prog_new n w oracle).
Proof.
  split; [apply length_replicate|]. split; [apply length_replicate|].
  assert (H : forall n x, cnt (replicate n None) x = 0%nat).
  { intros k x. pose proof (cnt_pos (replicate k None) x) as Hp. destruct (cnt _ x); [done|].
    assert (Hin : Some x ∈ replicate k None) by (apply Hp; lia). apply elem_of_replicate in Hin as [[=] _]. }
  split; cbn -[cnt].
  - intros o b. by rewrite lookup_empty.
  - intros o. rewrite H. lia.
  - intros c r. by rewrite lookup_empty.
  - intros k x. by rewrite lookup_empty.
  - intros k. rewrite H. lia.
  - intros x. rewrite !lookup_empty. intros [[]|[[]|[]]]; done.
Qed.

(** C32: Objects that are put into their first pointer by assignment live exactly
    as long as a strong pointer to them: whatever a program of one thread does
    with its variables by making objects, copying, moving, clearing and passing
    strong pointers, making, copying and clearing weak ones and promoting them,
    and however often the exchanges fail, no operation follows a dangling
    pointer; an object exists if and only if a variable points to it; a weak
    pointer can be promoted to exactly the object it was made from, while that
    exists; and when all variables are null nothing is left in memory.  The
    assignment of a weak pointer to a strong one is not among the operations,
    since it leaks ([assigning_a_weak_pointer_leaks]), nor are threads that give
    up the last pointers at the same time ([last_releases_race]). *)
Theorem objects_live_with_pointers (n w : nat) (oracle : list bool) (os : list Op)
    (Hfew : few n w) (Hos : Forall (in_range n w) os) :
  exists p, op_run os (prog_new n w oracle) = Done p /\
    (forall o, is_Some (objects (mem p) !! o) <-> Some o ∈ svars p) /\
    (forall i k, (i < n)%nat -> (k < w)%nat -> exists p', op_step (OPromote i k) p = Done p' /\
       forall o, (exists q, wvar k p = Some q /\ target (mem p) q o) <-> svar i p' = Some o) /\
    (Forall (fun v => v = None) (svars p) -> Forall (fun v => v = None) (wvars p) ->
       objects (mem p) = ∅ /\ weaks (mem p) = ∅ /\ counters (mem p) = ∅).
Proof.
  destruct (run_sound n w os _ (sound_new n w oracle) Hfew Hos) as (p & E & Hs). exists p. split; [done|].
  pose proof Hs as (_ & _ & Hc). split_and!.
  - intros o. rewrite <- cnt_pos. split; [|apply (gd_S _ _ _ Hc)].
    intros [b Hb]. by destruct (gd_obj _ _ _ Hc _ _ Hb) as (c & _ & _ & Hp).
  - intros i k Hi Hk. destruct (op_promote n w p i k Hs Hfew Hk Hi) as (p' & E' & _ & Ht). by exists p'.
  - intros Hn Hw. rewrite Forall_forall in Hn, Hw.
    assert (Ho : objects (mem p) = ∅).
    { apply map_empty. intros o. apply eq_None_not_Some. intros [b Hb].
      destruct (gd_obj _ _ _ Hc _ _ Hb) as (c & _ & _ & Hp%cnt_pos%Hn). discriminate Hp. }
    assert (Hk : weaks (mem p) = ∅).
    { apply map_empty. intros k. apply eq_None_not_Some. intros [v Hv].
      destruct (gd_weak _ _ _ Hc _ _ Hv) as (_ & Hp%cnt_pos%Hw & _). discriminate Hp. }
    split_and!; [done|done|]. apply map_empty. intros c. apply eq_None_not_Some. intros [r Hr].
    destruct (gd_ctr _ _ _ Hc _ _ Hr) as [[o Hob]|[_ Hp]]; [by rewrite Ho in Hob|].
    rewrite nw_zero in Hp; [lia|]. intros k v Hv. by rewrite Hk in Hv.
Qed.

(** The stand-in for the service that is built with these pointers accepts
    every observer and keeps none.

    [dataobs_mgr_client.cpp:35-39] RegisterObserver *)
Definition client_RegisterObserver (dataObserver : Sptr) : SO Mem Z := mret 0.

(** The references of [RegisterObserver] to a new stub: the constructor from a
    bare pointer, an argument by value, and the element of a vector.

    [preferences_base.cpp:176-190] RegisterObserver *)
Definition register_stub : SO Mem (option Sptr) :=
  stub ← RefBase_new;
  observer ← sptr_raw (Some stub);
  argument ← sptr_convert observer;
  errcode ← client_RegisterObserver argument;
  sptr_delete argument;;
  if negb (errcode =? 0) then sptr_delete observer;; mret None else
  element ← sptr_copy observer;
  sptr_delete observer;;
  mret (Some element).

(** The constructor from a bare pointer counts nothing.  A copy then counts as
    the only reference, so that the object goes with the copy while the first
    pointer still points to it: registering an observer for changes by other
    processes uses the deleted stub.  Without a copy the object is never
    deleted. *)
Theorem raw_constructor_dangles (oracle : list bool) :
  register_stub (mem_new oracle) = Undef /\
  exists m, (stub ← RefBase_new; observer ← sptr_raw (Some stub); sptr_delete observer) (mem_new oracle) = Done (tt, m) /\
    is_Some (objects m !! 1%positive).
Proof. split; [reflexivity|]. eexists. split; [reflexivity|]. by eexists. Qed.

(** A moved object keeps the callback of the object it was moved from: with
    its last pointer the old object is deleted a first time, or a second one,
    and the moved one never. *)
Theorem moved_object_deletes_the_old (oracle : list bool) :
  exists m, (old ← RefBase_new; new ← RefBase_move old; p ← sptr_assign_raw None (Some new); sptr_delete p) (mem_new oracle) =
      Done (tt, m) /\
    objects m !! 1%positive = None /\ is_Some (objects m !! 3%positive) /\ events m = [FirstStrong 3; LastStrong 3; Destroyed 1].
Proof. eexists. split; [vm_compute; reflexivity|]. split; [done|]. split; [by eexists|done]. Qed.

(** Assigning to an object starts its counts anew: the pointers that exist no
    longer delete it. *)
Theorem assigned_object_leaks (oracle : list bool) :
  exists m, (a ← RefBase_new; p ← sptr_assign_raw None (Some a); b ← RefBase_new; q ← sptr_assign_raw None (Some b);
      RefBase_assign a b;; sptr_delete p;; sptr_delete q) (mem_new oracle) = Done (tt, m) /\
    is_Some (objects m !! 1%positive) /\ objects m !! 3%positive = None.
Proof. eexists. split; [vm_compute; reflexivity|]. split; [by eexists|done]. Qed.

(** Assigning a weak pointer to a strong one forgets what the strong one held,
    which is never deleted. *)
Theorem assigning_a_weak_pointer_leaks :
  exists m, (a ← RefBase_new; s ← sptr_assign_raw None (Some a); b ← RefBase_new; t ← sptr_assign_raw None (Some b);
      w ← wptr_from_sptr t; s ← sptr_assign_weak s w;
      sptr_delete s;; sptr_delete t;; wptr_delete w) (mem_new []) = Done (tt, m) /\
    is_Some (objects m !! 1%positive) /\ objects m !! 3%positive = None.
Proof. eexists. split; [vm_compute; reflexivity|]. split; [by eexists|done]. Qed.

(** [DecStrongRef] up to the strong count, and the rest of it.

    [refbase.cpp:329-335] DecStrongRef *)
Definition DecStrongRef_begin (o : ObjRef) : SO Mem Z :=
  b ← the_object o;
  c ← deref_counter (refs_ b);
  DecStrongRefCount c.

(** [refbase.cpp:336-340] DecStrongRef *)
Definition DecStrongRef_end (o : ObjRef) (curCount : Z) : SO Mem unit :=
  (if curCount =? 1 then _ ← the_object o; emit (LastStrong o) else mret tt);;
  DecWeakRef o.

(** Two threads give up the last strong and the last weak pointer.  The strong
    count is zero before the object is deleted, and whoever then gives up a
    weak reference deletes it: the thread of the strong pointer goes on with an
    object that is gone. *)
Theorem last_releases_race (oracle : list bool) :
  (o ← RefBase_new; _ ← sptr_assign_raw None (Some o); k ← new_weak (Some o);
   curCount ← DecStrongRef_begin o;          (* the thread of the strong pointer *)
   w_dec k;;                                 (* the thread of the weak pointer *)
   DecStrongRef_end o curCount) (mem_new oracle) = Undef.
Proof. reflexivity. Qed.

(** Two variables of each kind: a copy, a move, a weak pointer, its promotion. *)
Definition w_ops : list Op :=
  [ONew 0; OWeak 0 0; OCopy 1 0; OClear 0; OPromote 0 0; OMove 1 0; OPass 1; OClear 1; OPromote 0 0; OWCopy 1 0; OWClear 0; OWClear 1].

Example objects_live_with_pointers_witness :
  few 2 2 /\ Forall (in_range 2 2) w_ops /\ exists p, op_run w_ops (prog_new 2 2 [true; false; true]) = Done p.
Proof.
  assert (Hf : few 2 2) by (unfold few, LIM; lia). assert (Ho : Forall (in_range 2 2) w_ops) by (repeat constructor; cbn; lia).
  split; [exact Hf|]. split; [exact Ho|]. destruct (objects_live_with_pointers 2 2 [true; false; true] w_ops Hf Ho) as (p & E & _).
  exists p. exact E.
Defined.
