(* ===== verification/Env.v ===== *)
(** * The process environment

    What the library finds around it: a file system with an oracle that lets
    any system call fail, the process-wide fault reporter
    ([preferences_dfx_adapter.cpp]), the observer objects of the application
    and the data-observer service.  The effects that leave the library are
    recorded, in order, as events. *)

From S2P Require Import Prelude Errno Value Utils ConcurrentMap.

(** ** Fault reports *)

Definition NORMAL_DB : string := "XMLDB".
Definition ENHANCE_DB : string := "ENHANCEDB".
Definition EVENT_NAME_DB_CORRUPTED : string := "DATABASE_CORRUPTED".
Definition EVENT_NAME_ARKDATA_PREFERENCES_FAULT : string := "ARKDATA_PREFERENCES_FAULT".

(** [preferences_dfx_adapter.h:34-38] ReportedFaultBitMap *)
Inductive ReportedFaultBitMap :=
  | RESTORE_FROM_BAK | USE_WHEN_SCREEN_LOCKED | OBJECT_IS_NOT_ACTIVE.

#[export] Instance ReportedFaultBitMap_eq_dec : EqDecision ReportedFaultBitMap.
Proof. solve_decision. Defined.

Definition fault_offset (f : ReportedFaultBitMap) : Z :=
  match f with RESTORE_FROM_BAK => 0 | USE_WHEN_SCREEN_LOCKED => 1 | OBJECT_IS_NOT_ACTIVE => 2 end.

(** [preferences_dfx_adapter.h:40-48] ReportParam *)
Record ReportParam := mkReportParam {
  rp_bundleName : string; rp_dbType : string; rp_storeName : string;
  rp_errCode : Z; rp_errnoCode : Z; rp_appendix : string }.

(** [preferences_dfx_adapter.h:50-58] ReportFaultParam *)
Record ReportFaultParam := mkReportFaultParam {
  rf_faultType : string; rf_bundleName : string; rf_dbType : string;
  rf_storeName : string; rf_errCode : Z; rf_appendix : string }.

(** A parameter of a system event. *)
Inductive SysParam := PStr (s : string) | PU32 (z : Z) | PI32 (z : Z).

(** ** Observers *)

(** A [shared_ptr]/[weak_ptr] to an observer: the identity of its control
    block, [None] for the null pointer. *)
Definition ObsPtr := option positive.

(** ** Events *)

Inductive Event :=
  | EvSysEvent (eventName : string) (params : list (string * SysParam))
  | EvOnChange (obs : positive) (key : string)
  | EvOnChangeData (obs : positive) (records : gmap string PreferencesValue)
  | EvNotifyChange (uri : string)
  | EvRegister (uri : string) (obs : ObsPtr)
  | EvUnregister (uri : string) (obs : ObsPtr).

(** ** System calls *)

(** The fate of one system call: as the file system says, an error, or, for a
    [write], only the first [n] bytes. *)
Inductive SysFate := SysOk | SysErr (errno : Z) | SysShort (n : nat).

Record FileSystem := mkFileSystem {
  files : gmap string string;       (** regular files and their contents *)
  dirs : gset string;               (** directories *)
  errno_ : Z;
  tick : nat;                       (** system calls made so far *)
  fate : nat -> SysFate;            (** fate of the n-th system call *)
  xmlError_ : option string         (** libxml2's last error message *)
}.

(** The data-observer service: the results of its calls. *)
Record DataObsMgrClient := mkClient {
  cl_register : string -> ObsPtr -> Z;
  cl_unregister : string -> ObsPtr -> Z
}.

Inductive TokenType := TOKEN_HAP | TOKEN_NATIVE | TOKEN_SHELL | TOKEN_OTHER.

Record Services := mkServices {
  alive : gset positive;            (** observers that still have an owner *)
  client : option DataObsMgrClient; (** [DataObsMgrClient::GetInstance] *)
  stubAlloc : bool;                 (** [new (std::nothrow)] of a stub succeeds *)
  taskAccepted : bool;              (** the task processor takes a task *)
  callingToken : TokenType;         (** type of the calling token *)
  nativeProcess : option string;    (** [GetNativeTokenInfo] *)
  currentTime : string;             (** [GetCurrentTime] *)
  strerror : Z -> string
}.

Record Env := mkEnv {
  fs : FileSystem;
  svc : Services;
  events : list Event;              (** most recent last *)
  reportedFaults_ : gmap string Z
}.

Definition set_fs (f : FileSystem) (e : Env) : Env :=
  mkEnv f (svc e) (events e) (reportedFaults_ e).
Definition set_reportedFaults (r : gmap string Z) (e : Env) : Env :=
  mkEnv (fs e) (svc e) (events e) r.
Definition emit (ev : Event) : ST Env unit :=
  modify (fun e => mkEnv (fs e) (svc e) (events e ++ [ev]) (reportedFaults_ e)).

(** ** File operations *)

Definition ENOENT : Z := 2.
Definition EBADF : Z := 9.

(** Take the next fate; an error sets [errno]. *)
Definition syscall {A} (fail : A) (ok : SysFate -> ST FileSystem A) : ST Env A := fun e =>
  let f := fs e in
  let f1 := mkFileSystem (files f) (dirs f) (errno_ f) (S (tick f)) (fate f) (xmlError_ f) in
  match fate f (tick f) with
  | SysErr n =>
      (fail, set_fs (mkFileSystem (files f) (dirs f) n (S (tick f)) (fate f) (xmlError_ f)) e)
  | r => let '(a, f2) := ok r f1 in (a, set_fs f2 e)
  end.

Definition set_errno (n : Z) : ST FileSystem unit :=
  modify (fun f => mkFileSystem (files f) (dirs f) n (tick f) (fate f) (xmlError_ f)).
Definition set_files (m : gmap string string) : ST FileSystem unit :=
  modify (fun f => mkFileSystem m (dirs f) (errno_ f) (tick f) (fate f) (xmlError_ f)).

Definition set_xmlError (m : option string) : ST FileSystem unit :=
  modify (fun f => mkFileSystem (files f) (dirs f) (errno_ f) (tick f) (fate f) m).

Definition path_exists (f : FileSystem) (path : string) : bool :=
  bool_decide (is_Some (files f !! path)) || bool_decide (path ∈ dirs f).

(** A call on a path that must exist. *)
Definition on_path (path : string) : ST Env Z :=
  syscall (-1) (fun _ =>
    f ← get;
    if path_exists f path then mret 0 else set_errno ENOENT;; mret (-1)).

(** [preferences_file_operation.h:81-88] Access *)
Definition Access (filePath : string) : ST Env Z := on_path (c_str filePath).

Definition stat (path : string) : ST Env Z := on_path (c_str path).

(** [rename] replaces the target; its source must exist. *)
Definition rename (old new : string) : ST Env Z :=
  syscall (-1) (fun _ =>
    f ← get;
    match files f !! c_str old with
    | Some content => set_files (<[c_str new := content]> (delete (c_str old) (files f)));; mret 0
    | None => set_errno ENOENT;; mret (-1)
    end).

Definition remove (path : string) : ST Env Z :=
  syscall (-1) (fun _ =>
    f ← get;
    match files f !! c_str path with
    | Some _ => set_files (delete (c_str path) (files f));; mret 0
    | None => set_errno ENOENT;; mret (-1)
    end).

(** A descriptor, as the path it was opened on ([None]: -1). *)
Abbreviation Fd := (option string).

(** [preferences_file_operation.h:90-97] Open *)
Definition Open (filePath : string) : ST Env Fd :=
  syscall None (fun _ =>
    f ← get; set_files (<[c_str filePath := ""]> (files f));; mret (Some (c_str filePath))).

(** The number of bytes written, or -1.

    [preferences_file_operation.h:99-111] Write *)
Definition Write (fd : Fd) (buffer : string) : ST Env Z :=
  syscall (-1) (fun r =>
    f ← get;
    match fd with
    | None => set_errno EBADF;; mret (-1)
    | Some p =>
        let n := match r with SysShort n => Nat.min n (String.length buffer)
                            | _ => String.length buffer end in
        let old := default "" (files f !! p) in
        set_files (<[p := old +:+ String.substring 0 n buffer]> (files f));;
        mret (Z.of_nat n)
    end).

(** [preferences_file_operation.h:122-138] Fsync *)
Definition Fsync (fd : Fd) : ST Env bool :=
  match fd with
  | None => mret false
  | Some _ => r ← syscall (-1) (fun _ => mret 0); mret (negb (r =? -1))
  end.

(** [preferences_file_operation.h:113-120] Close *)
Definition Close (fd : Fd) : ST Env Z := syscall (-1) (fun _ => mret 0).

(** ** The fault reporter *)

(** [preferences_dfx_adapter.cpp:59-71] GetModuleName *)
Definition GetModuleName : ST Env string :=
  s ← gets svc;
  match callingToken s with
  | TOKEN_NATIVE | TOKEN_SHELL => mret (default "" (nativeProcess s))
  | _ => mret ""
  end.

(** The module and bundle names of a report. *)
Definition report_names (storeName bundleName : string) : ST Env (string * string) :=
  moduleName ← GetModuleName;
  let moduleName := if (String.length moduleName =? 0)%nat then storeName else moduleName in
  mret (moduleName, if (String.length bundleName =? 0)%nat then moduleName else bundleName).

(** [preferences_dfx_adapter.cpp:89-131] Report *)
Definition Report (reportParam : ReportParam) (eventName : string) : ST Env unit :=
  nowTime ← gets (fun e => currentTime (svc e));
  '(moduleName, bundleName) ← report_names (rp_storeName reportParam) (rp_bundleName reportParam);
  emit (EvSysEvent eventName
    [("BUNDLE_NAME", PStr (c_str bundleName)); ("MODULE_NAME", PStr (c_str moduleName));
     ("STORE_TYPE", PStr (c_str (rp_dbType reportParam)));
     ("STORE_NAME", PStr (c_str (rp_storeName reportParam)));
     ("SECURITY_LEVEL", PU32 0); ("PATH_AREA", PU32 0); ("ENCRYPT_STATUS", PU32 0);
     ("INTERGITY_CHECK", PU32 0); ("ERROR_CODE", PU32 (wrap_u 32 (rp_errCode reportParam)));
     ("ERRNO", PI32 (rp_errnoCode reportParam)); ("APPENDIX", PStr (c_str (rp_appendix reportParam)));
     ("ERROR_TIME", PStr (c_str nowTime))]).

(** [preferences_dfx_adapter.cpp:133-174] ReportFault *)
Definition ReportFault (reportParam : ReportFaultParam) : ST Env unit :=
  nowTime ← gets (fun e => currentTime (svc e));
  '(moduleName, bundleName) ← report_names (rf_storeName reportParam) (rf_bundleName reportParam);
  emit (EvSysEvent EVENT_NAME_ARKDATA_PREFERENCES_FAULT
    [("FAULT_TIME", PStr (c_str nowTime)); ("FAULT_TYPE", PStr (c_str (rf_faultType reportParam)));
     ("BUNDLE_NAME", PStr (c_str bundleName)); ("MODULE_NAME", PStr (c_str moduleName));
     ("STORE_NAME", PStr (c_str (rf_storeName reportParam)));
     ("BUSINESE_TYPE", PStr (c_str (rf_dbType reportParam)));
     ("ERROR_CODE", PI32 (rf_errCode reportParam)); ("APPENDIX", PStr (c_str (rf_appendix reportParam)))]).

(** [preferences_dfx_adapter.cpp:78-86] ReportAbnormalOperation *)
Definition report_once (reportParam : ReportFaultParam) (offset : Z) (_ : string) (report : Z)
    : ST Env (bool * Z) :=
  let mask := 1 in
  if negb (Z.land (Z.shiftr report offset) mask =? 0) then mret (true, report)
  else
    ReportFault reportParam;;
    mret (true, wrap_u 64 (Z.lor report (wrap_u 64 (Z.shiftl mask offset)))).

(** [preferences_dfx_adapter.cpp:73-87] ReportAbnormalOperation *)
Definition ReportAbnormalOperation (reportParam : ReportFaultParam) (faultOffset : ReportedFaultBitMap)
    : ST Env unit :=
  m ← gets reportedFaults_;
  '(_, m) ← Compute_ 0 m (rf_storeName reportParam)
              (Some (report_once reportParam (fault_offset faultOffset)));
  modify (set_reportedFaults m).

(** ** Frames: what the reporter leaves alone *)

Lemma GetModuleName_frame e : exists s, GetModuleName e = (s, e).
Proof.
  unfold GetModuleName, mbind, st_bind, gets, mret, st_ret.
  destruct (callingToken (svc e)); eauto.
Qed.

Lemma ReportFault_emits p e :
  exists ev, ReportFault p e = (tt, mkEnv (fs e) (svc e) (events e ++ [ev]) (reportedFaults_ e)).
Proof.
  unfold ReportFault, report_names, emit, modify, mbind, st_bind, gets, mret, st_ret.
  destruct (GetModuleName_frame e) as [s Hs]. rewrite Hs. eauto.
Qed.

Lemma Report_emits p n e :
  exists ev, Report p n e = (tt, mkEnv (fs e) (svc e) (events e ++ [ev]) (reportedFaults_ e)).
Proof.
  unfold Report, report_names, emit, modify, mbind, st_bind, gets, mret, st_ret.
  destruct (GetModuleName_frame e) as [s Hs]. rewrite Hs. eauto.
Qed.

(** The fault of this kind has been reported for this store. *)
Definition reported (e : Env) (store : string) (f : ReportedFaultBitMap) : bool :=
  Z.testbit (default 0 (reportedFaults_ e !! store)) (fault_offset f).

Lemma bit_test z n : 0 <= n -> negb (Z.land (Z.shiftr z n) 1 =? 0) = Z.testbit z n.
Proof.
  intros Hn. change 1 with (2 ^ 1 - 1) at 1. rewrite land_ones_mod by lia.
  rewrite Z.testbit_odd. change (2 ^ 1) with 2. rewrite Zmod_odd.
  by destruct (Z.odd (Z.shiftr z n)).
Qed.

Lemma fault_offset_bound f : 0 <= fault_offset f < 3.
Proof. destruct f; cbn; lia. Qed.

Lemma fault_offset_inj f g : fault_offset f = fault_offset g -> f = g.
Proof. by destruct f, g. Qed.

Lemma bit_set z n k : 0 <= n < 64 -> 0 <= k < 64 ->
  Z.testbit (wrap_u 64 (Z.lor z (wrap_u 64 (Z.shiftl 1 n)))) k = Z.testbit z k || (n =? k).
Proof.
  intros Hn Hk. unfold wrap_u. rewrite Z.mod_pow2_bits_low, Z.lor_spec, Z.mod_pow2_bits_low by lia.
  rewrite Z.shiftl_1_l. f_equal. by rewrite Z.pow2_bits_eqb by lia.
Qed.

(** Both branches of the reporter. *)
Lemma ReportAbnormalOperation_cases p f e :
  exists e', ReportAbnormalOperation p f e = (tt, e') /\
  fs e' = fs e /\ svc e' = svc e /\
  (forall store g, reported e' store g =
     reported e store g || bool_decide (store = rf_storeName p /\ f = g)) /\
  (if reported e (rf_storeName p) f then events e' = events e
   else exists ev, events e' = events e ++ [ev]).
Proof.
  set (st := rf_storeName p). set (r0 := default 0 (reportedFaults_ e !! st)).
  pose proof (fault_offset_bound f) as Hf.
  assert (Hr : reported e st f = Z.testbit r0 (fault_offset f)) by done. rewrite Hr.
  unfold ReportAbnormalOperation, Compute_, report_once.
  unfold mbind, st_bind, gets, modify, mret, st_ret.
  fold st. rewrite bit_test by lia.
  assert (E : forall m : gmap string Z, default 0 ((match m !! st with
    | Some _ => m | None => <[st := 0]> m end) !! st) = default 0 (m !! st)).
  { intros m. destruct (m !! st) eqn:Em; [by rewrite Em|]. by rewrite lookup_insert_eq. }
  rewrite E. fold r0. destruct (Z.testbit r0 (fault_offset f)) eqn:Eb.
  - eexists. split; [reflexivity|]. cbn. split_and!; [done..| |done].
    intros store g. unfold reported. cbn. destruct (decide (store = st)) as [->|Hne].
    + rewrite lookup_insert_eq. cbn. fold r0. case_bool_decide as Hd; [|by rewrite orb_false_r].
      destruct Hd as [_ <-]. by rewrite Eb.
    + rewrite lookup_insert_ne by done. rewrite bool_decide_eq_false_2 by tauto.
      rewrite orb_false_r. destruct (reportedFaults_ e !! st); [done|by rewrite lookup_insert_ne].
  - destruct (ReportFault_emits p e) as [ev ->]. eexists. split; [reflexivity|]. cbn.
    split_and!; [done..| |by exists ev].
    intros store g. pose proof (fault_offset_bound g). unfold reported. cbn.
    destruct (decide (store = st)) as [->|Hne].
    + rewrite lookup_insert_eq. cbn. rewrite bit_set by lia. fold r0. f_equal.
      apply eq_true_iff_eq. rewrite Z.eqb_eq, bool_decide_eq_true. split; [|by intros [_ <-]].
      intros ?%fault_offset_inj. done.
    + rewrite lookup_insert_ne by done. rewrite bool_decide_eq_false_2 by tauto.
      rewrite orb_false_r. destruct (reportedFaults_ e !! st); [done|by rewrite lookup_insert_ne].
Qed.

(** An abnormal operation of one kind is reported at most once per store:
    the first report emits exactly one event and marks exactly that store and
    kind; a repeated report emits nothing, marks nothing else, and neither
    touches the file system. *)
Theorem ReportAbnormalOperation_once (p : ReportFaultParam) (f : ReportedFaultBitMap) (e : Env) :
  let e1 := snd (ReportAbnormalOperation p f e) in
  let e2 := snd (ReportAbnormalOperation p f e1) in
  length (events e1) = (length (events e) + (if reported e (rf_storeName p) f then 0 else 1))%nat /\
  events e2 = events e1 /\ fs e2 = fs e /\
  (forall store g, reported e2 store g =
     reported e store g || bool_decide (store = rf_storeName p /\ f = g)).
Proof.
  destruct (ReportAbnormalOperation_cases p f e) as (e1 & E1 & Hfs1 & _ & Hr1 & Hev1).
  destruct (ReportAbnormalOperation_cases p f e1) as (e2 & E2 & Hfs2 & _ & Hr2 & Hev2).
  cbn zeta. rewrite E1. cbn [snd]. rewrite E2. cbn [snd].
  assert (Hrep : reported e1 (rf_storeName p) f = true).
  { rewrite Hr1, bool_decide_eq_true_2 by done. apply orb_true_r. }
  rewrite Hrep in Hev2. split_and!; [|done|congruence|].
  - destruct (reported e (rf_storeName p) f); [rewrite Hev1; lia|].
    destruct Hev1 as [ev ->]. rewrite length_app. cbn. lia.
  - intros store g. rewrite Hr2, Hr1. by destruct (reported e store g), (bool_decide _).
Qed.

(** ** Frames of the system calls *)

(** [framed e e']: the services, the fates of the system calls and the
    directories are as they were, and no system call was taken back. *)
Record framed (e e' : Env) : Prop := {
  framed_svc : svc e' = svc e;
  framed_fate : fate (fs e') = fate (fs e);
  framed_dirs : dirs (fs e') = dirs (fs e);
  framed_tick : (tick (fs e) <= tick (fs e'))%nat
}.

#[export] Instance framed_preorder : PreOrder framed.
Proof.
  split; [by split|]. intros e1 e2 e3 [] []. split; [congruence..|lia].
Qed.

Definition frames {A} (m : ST Env A) : Prop := forall e, framed e (snd (m e)).

(** The same for the part of a system call below the fate. *)
Definition fs_frames {A} (ok : SysFate -> ST FileSystem A) : Prop := forall r f,
  fate (snd (ok r f)) = fate f /\ dirs (snd (ok r f)) = dirs f /\ tick (snd (ok r f)) = tick f.

Lemma frames_same {A} (m : ST Env A) :
  (forall e, fs (snd (m e)) = fs e /\ svc (snd (m e)) = svc e) -> frames m.
Proof. intros Hm e. destruct (Hm e) as [Hf Hs]. split; rewrite ?Hf; done. Qed.

Lemma frames_ret {A} (a : A) : frames (mret a).
Proof. by apply frames_same. Qed.

Lemma frames_bind {A B} (m : ST Env A) (k : A -> ST Env B) :
  frames m -> (forall a, frames (k a)) -> frames (m ≫= k).
Proof.
  intros Hm Hk e. unfold mbind, st_bind. specialize (Hm e).
  destruct (m e) as [a e1]. etrans; [exact Hm|apply Hk].
Qed.

Lemma frames_syscall {A} (fail : A) (ok : SysFate -> ST FileSystem A) :
  fs_frames ok -> frames (syscall fail ok).
Proof.
  intros Hok e. unfold syscall. set (f1 := mkFileSystem _ _ _ _ _ _).
  destruct (fate (fs e) (tick (fs e))) as [|n|n].
  - destruct (Hok SysOk f1) as (H1 & H2 & H3). destruct (ok SysOk f1) as [a f2]. cbn in *.
    split; cbn; [done|congruence|congruence|]. rewrite H3. cbn. lia.
  - split; cbn; [done..|lia].
  - destruct (Hok (SysShort n) f1) as (H1 & H2 & H3). destruct (ok (SysShort n) f1) as [a f2]. cbn in *.
    split; cbn; [done|congruence|congruence|]. rewrite H3. cbn. lia.
Qed.

Lemma frames_emit ev : frames (emit ev).
Proof. by apply frames_same. Qed.

Lemma frames_gets {A} (f : Env -> A) : frames (gets f).
Proof. by apply frames_same. Qed.

#[export] Hint Resolve frames_ret frames_emit frames_gets : prefs.

(** Decompose a computation into its calls. *)
Ltac frame_step :=
  repeat first
    [ solve [auto with prefs]
    | apply frames_ret | apply frames_emit | apply frames_gets
    | apply frames_bind; [|intros]
    | case_match ].

(** The file-system part of a call, by cases on what it finds. *)
Ltac fs_step :=
  intros ? ?; unfold mbind, st_bind, get, set_files, set_errno, modify, mret, st_ret;
  repeat case_match; by split_and!.

Lemma fs_frames_on_path p : fs_frames (fun _ => f ← get;
  if path_exists f p then mret 0 else set_errno ENOENT;; mret (-1)).
Proof. fs_step. Qed.
Lemma frames_on_path p : frames (on_path p).
Proof. apply frames_syscall, fs_frames_on_path. Qed.
Lemma frames_Access p : frames (Access p).
Proof. apply frames_on_path. Qed.
Lemma frames_stat p : frames (stat p).
Proof. apply frames_on_path. Qed.
Lemma frames_rename a b : frames (rename a b).
Proof. apply frames_syscall. fs_step. Qed.
Lemma frames_remove p : frames (remove p).
Proof. apply frames_syscall. fs_step. Qed.
Lemma frames_Open p : frames (Open p).
Proof. apply frames_syscall. fs_step. Qed.
Lemma frames_Write fd b : frames (Write fd b).
Proof. apply frames_syscall. fs_step. Qed.
Lemma frames_Close fd : frames (Close fd).
Proof. apply frames_syscall. fs_step. Qed.
Lemma frames_Fsync fd : frames (Fsync fd).
Proof.
  unfold Fsync. destruct fd; [|apply frames_ret]. apply frames_bind; [|intros; apply frames_ret].
  apply frames_syscall. fs_step.
Qed.

#[export] Hint Resolve frames_Access frames_stat frames_rename frames_remove frames_Open
  frames_Write frames_Close frames_Fsync : prefs.

Lemma frames_ReportFault p : frames (ReportFault p).
Proof. apply frames_same. intros e. by destruct (ReportFault_emits p e) as [ev ->]. Qed.
Lemma frames_Report p n : frames (Report p n).
Proof. apply frames_same. intros e. by destruct (Report_emits p n e) as [ev ->]. Qed.
Lemma frames_ReportAbnormalOperation p f : frames (ReportAbnormalOperation p f).
Proof.
  apply frames_same. intros e.
  by destruct (ReportAbnormalOperation_cases p f e) as (e' & -> & Hf & Hs & _).
Qed.

#[export] Hint Resolve frames_ReportFault frames_Report frames_ReportAbnormalOperation : prefs.

(** No [write] is cut short. *)
Definition no_short_writes (e : Env) : Prop := forall n k, fate (fs e) n <> SysShort k.

(** No system call fails. *)
Definition no_faults (e : Env) : Prop := forall n, fate (fs e) n = SysOk.

(** Looking at a path leaves the files alone. *)
Lemma on_path_files p e : files (fs (snd (on_path p e))) = files (fs e).
Proof.
  unfold on_path, syscall, mbind, st_bind, get, set_errno, modify, mret, st_ret.
  repeat (case_match; simplify_eq/=); done.
Qed.

(** What a [write] of [buf] puts into the file. *)
Definition written (r : SysFate) (buf : string) : string :=
  match r with SysShort n => String.substring 0 (Nat.min n (String.length buf)) buf | _ => buf end.

(** Every [write] that does not fail puts [g buf] into the file. *)
Definition writes_as (g : string -> string) (e : Env) : Prop := forall k buf,
  (exists n, fate (fs e) k = SysErr n) \/ written (fate (fs e) k) buf = g buf.

Lemma no_short_writes_as e : no_short_writes e -> writes_as id e.
Proof.
  intros Hns k buf. destruct (fate (fs e) k) as [|n|n] eqn:E; [by right|left; by exists n|].
  by destruct (Hns k n).
Qed.

Lemma frames_writes {A} (m : ST Env A) g e : frames m -> writes_as g e -> writes_as g (snd (m e)).
Proof. intros Hm Hns k buf. rewrite (framed_fate _ _ (Hm e)). apply Hns. Qed.

Lemma frames_no_faults {A} (m : ST Env A) e : frames m -> no_faults e -> no_faults (snd (m e)).
Proof. intros Hm Hns n. rewrite (framed_fate _ _ (Hm e)). apply Hns. Qed.

(** Run the first call of a computation. *)
Lemma bind_run {A B} (m : ST Env A) (k : A -> ST Env B) e :
  (m ≫= k) e = k (fst (m e)) (snd (m e)).
Proof. unfold mbind, st_bind. by destruct (m e). Qed.

(** A statement about the result and the environment of a run. *)
Definition ensures {A} (run : A * Env) (Q : A -> Env -> Prop) : Prop := Q (fst run) (snd run).

(** ** Failing system calls *)

(** The next system call fails. *)
Definition faulted (e : Env) : Prop := exists n, fate (fs e) (tick (fs e)) = SysErr n.

(** No system call from now on fails; a [write] may still be cut short. *)
Definition calm (e : Env) : Prop := forall k n, (tick (fs e) <= k)%nat -> fate (fs e) k <> SysErr n.

(** At most one system call from now on fails. *)
Definition single_fault (e : Env) : Prop := forall i j n n',
  (tick (fs e) <= i)%nat -> (tick (fs e) <= j)%nat ->
  fate (fs e) i = SysErr n -> fate (fs e) j = SysErr n' -> i = j.

#[export] Instance faulted_dec e : Decision (faulted e).
Proof.
  destruct (fate (fs e) (tick (fs e))) as [|n|n] eqn:E; [right|left; by exists n|right];
    intros [n' En]; congruence.
Defined.

Lemma frames_calm {A} (m : ST Env A) e : frames m -> calm e -> calm (snd (m e)).
Proof.
  intros Hm Hc k n Hk. destruct (Hm e) as [_ -> _ Ht]. apply Hc. lia.
Qed.

Lemma frames_single {A} (m : ST Env A) e : frames m -> single_fault e -> single_fault (snd (m e)).
Proof.
  intros Hm Hc i j n n' Hi Hj. destruct (Hm e) as [_ -> _ Ht]. apply Hc; lia.
Qed.

Lemma frames_dirs {A} (m : ST Env A) e p : frames m -> p ∉ dirs (fs e) -> p ∉ dirs (fs (snd (m e))).
Proof. intros Hm. by rewrite (framed_dirs _ _ (Hm e)). Qed.

Lemma calm_next e : calm e -> ~ faulted e.
Proof. intros Hc [n En]. by apply (Hc (tick (fs e)) n). Qed.

Lemma no_faults_calm e : no_faults e -> calm e.
Proof. intros Hn k n _. by rewrite Hn. Qed.

Section syscall.
Context {A : Type} (fail : A) (ok : SysFate -> ST FileSystem A).

Lemma syscall_err e : faulted e ->
  fst (syscall fail ok e) = fail /\ files (fs (snd (syscall fail ok e))) = files (fs e).
Proof. intros [n En]. unfold syscall. by rewrite En. Qed.

(** After the one failure no call fails. *)
Lemma syscall_err_calm e : faulted e -> single_fault e -> calm (snd (syscall fail ok e)).
Proof.
  intros [n En] Hs. unfold syscall. rewrite En. intros k n' Hk E. cbn in *.
  assert (tick (fs e) = k) by (eapply Hs; [reflexivity|lia|exact En|exact E]). lia.
Qed.

(** A call that does not fail does what the file system says. *)
Lemma syscall_ok e : ~ faulted e -> exists r f,
  files f = files (fs e) /\ dirs f = dirs (fs e) /\ errno_ f = errno_ (fs e) /\
  fate (fs e) (tick (fs e)) = r /\
  fst (syscall fail ok e) = fst (ok r f) /\ fs (snd (syscall fail ok e)) = snd (ok r f).
Proof.
  intros Hn. unfold syscall, faulted in *. set (f1 := mkFileSystem _ _ _ _ _ _).
  destruct (fate (fs e) (tick (fs e))) as [|n|n] eqn:E; [|destruct Hn; by exists n|];
    eexists _, f1; split_and!; try reflexivity; by destruct (ok _ f1).
Qed.
End syscall.

(** Open up the call of a goal that does not fail. *)
Ltac sys_ok Hn :=
  match goal with
  | |- context [@syscall ?T ?fail ?ok ?e] =>
      let r := fresh "r" in let f := fresh "f" in
      let Hf := fresh "Hf" in let Hd := fresh "Hd" in let He := fresh "He" in
      let Ha := fresh "Ha" in let Hs := fresh "Hs" in
      destruct (@syscall_ok T fail ok e Hn) as (r & f & Hf & Hd & He & _ & Ha & Hs);
      rewrite ?Ha, ?Hs; clear Ha Hs; unfold mbind, st_bind, get, set_files, set_errno, modify, mret, st_ret; cbn [fst snd]
  end.

Lemma stat_ok p e : ~ faulted e ->
  fst (stat p e) = (if path_exists (fs e) (c_str p) then 0 else -1) /\
  files (fs (snd (stat p e))) = files (fs e).
Proof.
  intros Hn. split; [|apply on_path_files]. unfold stat, on_path. sys_ok Hn.
  unfold path_exists. rewrite Hf, Hd. by case_match.
Qed.

Lemma rename_ok a b c e : ~ faulted e -> files (fs e) !! c_str a = Some c ->
  fst (rename a b e) = 0 /\
  files (fs (snd (rename a b e))) = <[c_str b := c]> (delete (c_str a) (files (fs e))).
Proof. intros Hn Hc. unfold rename. sys_ok Hn. by rewrite Hf, Hc. Qed.

Lemma remove_ok p c e : ~ faulted e -> files (fs e) !! c_str p = Some c ->
  files (fs (snd (remove p e))) = delete (c_str p) (files (fs e)).
Proof. intros Hn Hc. unfold remove. sys_ok Hn. by rewrite Hf, Hc. Qed.

Lemma Open_ok p e : ~ faulted e ->
  fst (Open p e) = Some (c_str p) /\ files (fs (snd (Open p e))) = <[c_str p := ""]> (files (fs e)).
Proof. intros Hn. unfold Open. sys_ok Hn. by rewrite Hf. Qed.

Lemma Write_ok p buf e : ~ faulted e -> (fst (Write (Some p) buf e) <? 0) = false.
Proof. intros Hn. unfold Write. sys_ok Hn. apply Z.ltb_ge. lia. Qed.
