(* ===== verification/FileLock.v ===== *)
(** * The advisory file lock around reads and writes of a file

    Models [preferences_file_lock.cpp].  A guarded section is one step of the
    object, so the in-process mutex has no state of its own here; the lock
    file is created, tried and released as system calls. *)

From S2P Require Import Prelude Errno Utils Env.

(** The lock object: its file, and its descriptor when it is open. *)
Record PreferencesFileLock := mkFileLock { lock_filePath_ : string; fd_ : Fd }.

Definition ATTEMPTS : nat := 50.

(** [preferences_file_lock.cpp:49-54] PreferencesFileLock *)
Definition FileLock_new (path : string) : PreferencesFileLock :=
  mkFileLock (MakeFilePath path STR_LOCK) None.

(** [open] with [O_RDWR | O_CREAT]: an existing file keeps its contents. *)
Definition open_rw (path : string) : ST Env Fd :=
  syscall None (fun _ =>
    f ← get;
    set_files (<[c_str path := default "" (files f !! c_str path)]> (files f));;
    mret (Some (c_str path))).

Definition fcntl (fd : Fd) : ST Env Z := syscall (-1) (fun _ => mret 0).

(** The attempts; whether another process was seen holding the lock.

    [preferences_file_lock.cpp:99-107] Lock *)
Fixpoint lock_attempts (n : nat) (fd : Fd) (isMultiProcessing : bool) : ST Env bool :=
  match n with
  | O => mret isMultiProcessing
  | S n' =>
      r ← fcntl fd;
      if negb (r =? -1) then mret isMultiProcessing else lock_attempts n' fd true
  end.

(** [preferences_file_lock.cpp:86-109] Lock *)
Definition Lock (l : PreferencesFileLock) (isMultiProcessing : bool)
    : ST Env (PreferencesFileLock * bool) :=
  fd ← open_rw (lock_filePath_ l);
  let l := mkFileLock (lock_filePath_ l) fd in
  match fd with
  | None => mret (l, isMultiProcessing)
  | Some _ => isMultiProcessing ← lock_attempts ATTEMPTS fd isMultiProcessing; mret (l, isMultiProcessing)
  end.

(** [preferences_file_lock.cpp:73-79] ReadLock *)
Definition ReadLock (l : PreferencesFileLock) (isMultiProcessing : bool)
    : ST Env (PreferencesFileLock * bool) :=
  r ← Access (lock_filePath_ l);
  if negb (r =? 0) then mret (l, isMultiProcessing) else Lock l isMultiProcessing.

(** [preferences_file_lock.cpp:81-84] WriteLock *)
Definition WriteLock (l : PreferencesFileLock) (isMultiProcessing : bool)
    : ST Env (PreferencesFileLock * bool) :=
  Lock l isMultiProcessing.

(** [preferences_file_lock.cpp:56-71] ~PreferencesFileLock *)
Definition FileLock_release (l : PreferencesFileLock) : ST Env unit :=
  match fd_ l with
  | None => mret tt
  | Some _ => _ ← fcntl (fd_ l); _ ← Close (fd_ l); mret tt
  end.

(** ** Frames *)

Lemma frames_open_rw p : frames (open_rw p).
Proof. apply frames_syscall. fs_step. Qed.
Lemma frames_fcntl fd : frames (fcntl fd).
Proof. apply frames_syscall. fs_step. Qed.
#[export] Hint Resolve frames_open_rw frames_fcntl : prefs.

Lemma frames_lock_attempts n fd b : frames (lock_attempts n fd b).
Proof.
  revert b. induction n as [|n IH]; intros b; cbn [lock_attempts]; [apply frames_ret|].
  apply frames_bind; [auto with prefs|]. intros r. case_match; [apply frames_ret|apply IH].
Qed.
#[export] Hint Resolve frames_lock_attempts : prefs.

Lemma frames_Lock l b : frames (Lock l b).
Proof. unfold Lock. frame_step. Qed.
#[export] Hint Resolve frames_Lock : prefs.
Lemma frames_ReadLock l b : frames (ReadLock l b).
Proof. unfold ReadLock. frame_step. Qed.
Lemma frames_WriteLock l b : frames (WriteLock l b).
Proof. apply frames_Lock. Qed.
Lemma frames_FileLock_release l : frames (FileLock_release l).
Proof. unfold FileLock_release. frame_step. Qed.
#[export] Hint Resolve frames_ReadLock frames_WriteLock frames_FileLock_release : prefs.

(** ** What a computation keeps of the files

    [keeps_file p m]: whatever happens in [m], the contents of [p] stay. *)
Definition keeps_file {A} (p : string) (m : ST Env A) : Prop :=
  forall e, files (fs (snd (m e))) !! p = files (fs e) !! p.

Lemma keeps_ret {A} p (a : A) : keeps_file p (mret a).
Proof. done. Qed.

Lemma keeps_bind {A B} p (m : ST Env A) (k : A -> ST Env B) :
  keeps_file p m -> (forall a, keeps_file p (k a)) -> keeps_file p (m ≫= k).
Proof.
  intros Hm Hk e. unfold mbind, st_bind. specialize (Hm e). destruct (m e) as [a e1].
  rewrite (Hk a e1). exact Hm.
Qed.

Lemma keeps_syscall {A} p (fail : A) (ok : SysFate -> ST FileSystem A) :
  (forall r f, files (snd (ok r f)) !! p = files f !! p) -> keeps_file p (syscall fail ok).
Proof.
  intros Hok e. unfold syscall. set (f1 := mkFileSystem _ _ _ _ _ _).
  destruct (fate (fs e) (tick (fs e))) as [| |n]; [|done|].
  - pose proof (Hok SysOk f1) as H. by destruct (ok SysOk f1).
  - pose proof (Hok (SysShort n) f1) as H. by destruct (ok (SysShort n) f1).
Qed.

Ltac keep_step :=
  repeat first
    [ solve [auto with prefs]
    | apply keeps_ret
    | apply keeps_bind; [|intros]
    | case_match ].

Lemma keeps_Access p q : keeps_file p (Access q).
Proof. intros e. unfold Access. by rewrite on_path_files. Qed.
Lemma keeps_stat p q : keeps_file p (stat q).
Proof. intros e. unfold stat. by rewrite on_path_files. Qed.
Lemma keeps_Close p fd : keeps_file p (Close fd).
Proof. by apply keeps_syscall. Qed.
Lemma keeps_Fsync p fd : keeps_file p (Fsync fd).
Proof. unfold Fsync. case_match; [|done]. apply keeps_bind; [by apply keeps_syscall|done]. Qed.
Lemma keeps_fcntl p fd : keeps_file p (fcntl fd).
Proof. by apply keeps_syscall. Qed.
Lemma keeps_remove p q : p <> c_str q -> keeps_file p (remove q).
Proof.
  intros Hp. apply keeps_syscall. intros r f. unfold mbind, st_bind, get, mret, st_ret.
  case_match; [|done]. cbn. by rewrite lookup_delete_ne.
Qed.
Lemma keeps_open_rw p q : keeps_file p (open_rw q) \/ p = c_str q.
Proof.
  destruct (decide (p = c_str q)) as [->|Hp]; [by right|left]. apply keeps_syscall. intros r f.
  unfold mbind, st_bind, get, set_files, modify, mret, st_ret. cbn. by rewrite lookup_insert_ne.
Qed.
#[export] Hint Resolve keeps_Access keeps_stat keeps_Close keeps_Fsync keeps_fcntl : prefs.

Lemma keeps_lock_attempts p n fd b : keeps_file p (lock_attempts n fd b).
Proof.
  revert b. induction n as [|n IH]; intros b; cbn [lock_attempts]; [done|].
  apply keeps_bind; [auto with prefs|]. intros r. case_match; [done|apply IH].
Qed.
#[export] Hint Resolve keeps_lock_attempts : prefs.

Lemma keeps_Lock p l b : p <> c_str (lock_filePath_ l) -> keeps_file p (Lock l b).
Proof.
  intros Hp. unfold Lock. apply keeps_bind; [|intros; keep_step].
  destruct (keeps_open_rw p (lock_filePath_ l)); done.
Qed.

Lemma keeps_ReadLock p l b : p <> c_str (lock_filePath_ l) -> keeps_file p (ReadLock l b).
Proof.
  intros Hp. unfold ReadLock. apply keeps_bind; [auto with prefs|]. intros r.
  case_match; [done|by apply keeps_Lock].
Qed.

Lemma keeps_FileLock_release p l : keeps_file p (FileLock_release l).
Proof. unfold FileLock_release. keep_step. Qed.
#[export] Hint Resolve keeps_FileLock_release : prefs.
