(* ===== verification/LockSystem.v ===== *)
(** * The file lock between threads and processes

    [FileLock] runs a guarded section alone.  Here the threads of several
    processes run their sections at the same time, as a transition system: a
    step is what a thread does between two points at which another thread or
    process can see a difference, and a system call can fail at any of them.
    The table of mutexes that a process has for its files, the names of the
    lock files and the locks of the kernel are the state. *)

From S2P Require Import Prelude Errno Utils Env FileLock.

(** ** The locks of the kernel

    [F_SETLK] for a whole file.  The owner of a lock is a process, not a
    thread or a descriptor. *)

Inductive LockType := F_RDLCK | F_WRLCK.

#[export] Instance LockType_eq_dec : EqDecision LockType.
Proof. solve_decision. Defined.

Abbreviation Pid := nat.
Abbreviation Tid := nat.
Abbreviation Inode := positive.

(** Two processes cannot have both. *)
Definition conflict (a b : LockType) : bool :=
  match a, b with F_RDLCK, F_RDLCK => false | _, _ => true end.

Class AdvisoryLocks := {
  LockTable : Type;
  no_locks : LockTable;
  held : LockTable -> Inode -> Pid -> option LockType;
  setlk : Pid -> Inode -> LockType -> LockTable -> option LockTable;
  unlck : Pid -> Inode -> LockTable -> LockTable
}.

(** What [fcntl] is documented to do: a lock is refused when another process
    has one that conflicts, it replaces the one the process had, and a process
    gives up the one it has, for itself only.  [close] of any descriptor of a
    file gives up the lock of the process, like [F_UNLCK]. *)
Class AdvisoryLocksLaws `{AdvisoryLocks} := {
  held_no_locks i p : held no_locks i p = None;
  held_setlk p i t l l' j q : setlk p i t l = Some l' -> held l' j q = if decide (j = i /\ q = p) then Some t else held l j q;
  setlk_refused p i t l : setlk p i t l = None <-> exists q u, q <> p /\ held l i q = Some u /\ conflict t u = true;
  held_unlck p i l j q : held (unlck p i l) j q = if decide (j = i /\ q = p) then None else held l j q
}.

(** ** State *)

(** Where a thread stands in a guarded section. *)
Inductive SectionPc :=
  | PcMutex                          (** waits for [inProcessMutex_] *)
  | PcAccess                         (** before [Access] in [ReadLock] *)
  | PcOpen                           (** before [open] in [Lock] *)
  | PcTry (more : nat)               (** before [fcntl], with [more] attempts *)
  | PcBody (obtained : option LockType)  (** in the guarded section *)
  | PcUnlock                         (** after [inProcessMutex_->unlock] *)
  | PcClose                          (** before [close] *)
  | PcEnd.

#[export] Instance SectionPc_eq_dec : EqDecision SectionPc.
Proof. solve_decision. Defined.

(** A [PreferencesFileLock] with the thread that has it: its process, the lock
    it asks for, the file behind [fd_] and where the thread stands.

    [preferences_file_lock.h:35-49] PreferencesFileLock *)
Record Sect := mkSect {
  s_pid : Pid;
  s_filePath_ : string;
  s_inProcessMutex_ : positive;
  s_type : LockType;
  s_fd_ : option Inode;
  s_multi : bool;
  s_pc : SectionPc
}.

Definition at_pc (x : Sect) (pc : SectionPc) : Sect :=
  mkSect (s_pid x) (s_filePath_ x) (s_inProcessMutex_ x) (s_type x) (s_fd_ x) (s_multi x) pc.

Definition with_fd (x : Sect) (fd : option Inode) : Sect :=
  mkSect (s_pid x) (s_filePath_ x) (s_inProcessMutex_ x) (s_type x) fd (s_multi x) (s_pc x).

Definition seen_multi (x : Sect) : Sect :=
  mkSect (s_pid x) (s_filePath_ x) (s_inProcessMutex_ x) (s_type x) (s_fd_ x) true (s_pc x).

Section System.
Context `{AdvisoryLocks}.

(** The mutexes of all processes, by process and file; the thread that has
    each of them; the lock file of each name; and the locks of the kernel.

    [preferences_file_lock.h:27-34] PreferencesLockManager *)
Record LockSys := mkLockSys {
  inProcessMutexs_ : gmap (Pid * string) positive;
  next_mutex : positive;
  owner : gmap positive Tid;
  lockfiles : gmap string Inode;
  next_inode : Inode;
  flocks : LockTable;
  sections : gmap Tid Sect
}.

Definition LockSys_new : LockSys := mkLockSys ∅ 1 ∅ ∅ 1 no_locks ∅.

Definition set_section (t : Tid) (x : Sect) (s : LockSys) : LockSys :=
  mkLockSys (inProcessMutexs_ s) (next_mutex s) (owner s) (lockfiles s) (next_inode s) (flocks s) (<[t := x]> (sections s)).
Definition set_owner v (s : LockSys) : LockSys :=
  mkLockSys (inProcessMutexs_ s) (next_mutex s) v (lockfiles s) (next_inode s) (flocks s) (sections s).
Definition set_flocks v (s : LockSys) : LockSys :=
  mkLockSys (inProcessMutexs_ s) (next_mutex s) (owner s) (lockfiles s) (next_inode s) v (sections s).

(** ** Operations *)

(** [preferences_file_lock.cpp:35-44] PreferencesLockManager::Get *)
Definition LockManager_Get (p : Pid) (fileName : string) : ST LockSys positive := fun s =>
  match inProcessMutexs_ s !! (p, fileName) with
  | Some m => (m, s)
  | None =>
      let m := next_mutex s in
      (m, mkLockSys (<[(p, fileName) := m]> (inProcessMutexs_ s)) (Pos.succ m) (owner s) (lockfiles s) (next_inode s) (flocks s) (sections s))
  end.

(** The constructor up to the mutex, which it then waits for.

    [preferences_file_lock.cpp:49-54] PreferencesFileLock *)
Definition begin_section (t : Tid) (p : Pid) (path : string) (type : LockType) (s : LockSys) : LockSys :=
  let filePath := MakeFilePath path STR_LOCK in
  let '(m, s) := LockManager_Get p filePath s in
  set_section t (mkSect p filePath m type None false PcMutex) s.

(** [open] with [O_CREAT]: the lock file of the name, a new one when there is
    none. *)
Definition open_lockfile (path : string) : ST LockSys Inode := fun s =>
  match lockfiles s !! path with
  | Some i => (i, s)
  | None =>
      let i := next_inode s in
      (i, mkLockSys (inProcessMutexs_ s) (next_mutex s) (owner s) (<[path := i]> (lockfiles s)) (Pos.succ i) (flocks s) (sections s))
  end.

(** What follows the constructor: [ReadLock] tests the file, [WriteLock] goes
    on to [Lock].

    [preferences_file_lock.cpp:73-84] ReadLock *)
Definition after_mutex (x : Sect) : SectionPc :=
  match s_type x with F_RDLCK => PcAccess | F_WRLCK => PcOpen end.

(** [preferences_file_lock.cpp:73-79] ReadLock *)
Definition ReadLock_step (ok : bool) (x : Sect) (s : LockSys) : SectionPc :=
  if ok && bool_decide (is_Some (lockfiles s !! s_filePath_ x)) then PcOpen else PcBody None.

(** [preferences_file_lock.cpp:88-92] Lock *)
Definition open_step (ok : bool) (t : Tid) (x : Sect) (s : LockSys) : LockSys :=
  if ok then let '(i, s) := open_lockfile (s_filePath_ x) s in set_section t (at_pc (with_fd x (Some i)) (PcTry ATTEMPTS)) s
  else set_section t (at_pc x (PcBody None)) s.

(** One attempt, with [more] still to come after it.

    [preferences_file_lock.cpp:99-107] Lock *)
Definition try_step (ok : bool) (more : nat) (t : Tid) (x : Sect) (i : Inode) (s : LockSys) : LockSys :=
  match (if ok then setlk (s_pid x) i (s_type x) (flocks s) else None) with
  | Some l => set_section t (at_pc x (PcBody (Some (s_type x)))) (set_flocks l s)
  | None => set_section t (at_pc (seen_multi x) (match more with O => PcBody None | _ => PcTry more end)) s
  end.

(** The first statement of the destructor.

    [preferences_file_lock.cpp:56-59] ~PreferencesFileLock *)
Definition unlock_mutex_step (t : Tid) (x : Sect) (s : LockSys) : LockSys :=
  set_section t (at_pc x (match s_fd_ x with Some _ => PcUnlock | None => PcEnd end)) (set_owner (delete (s_inProcessMutex_ x) (owner s)) s).

(** [preferences_file_lock.cpp:60-67] ~PreferencesFileLock *)
Definition unlock_file_step (ok : bool) (t : Tid) (x : Sect) (i : Inode) (s : LockSys) : LockSys :=
  set_section t (at_pc x PcClose) (if ok then set_flocks (unlck (s_pid x) i (flocks s)) s else s).

(** [preferences_file_lock.cpp:68-69] ~PreferencesFileLock *)
Definition close_step (t : Tid) (x : Sect) (i : Inode) (s : LockSys) : LockSys :=
  set_section t (at_pc (with_fd x None) PcEnd) (set_flocks (unlck (s_pid x) i (flocks s)) s).

(** A step of a thread: the constructor waits for the mutex, then the lock, the
    section and the destructor; [ok] is false when its system call fails.

    [preferences_file_lock.cpp:49-109] PreferencesFileLock *)
Definition section_step (ok : bool) (t : Tid) (s : LockSys) : LockSys :=
  match sections s !! t with
  | None => s
  | Some x =>
      match s_pc x, s_fd_ x with
      | PcMutex, _ =>
          match owner s !! s_inProcessMutex_ x with
          | Some _ => s
          | None => set_section t (at_pc x (after_mutex x)) (set_owner (<[s_inProcessMutex_ x := t]> (owner s)) s)
          end
      | PcAccess, _ => set_section t (at_pc x (ReadLock_step ok x s)) s
      | PcOpen, _ => open_step ok t x s
      | PcTry (S more), Some i => try_step ok more t x i s
      | PcBody _, _ => unlock_mutex_step t x s
      | PcUnlock, Some i => unlock_file_step ok t x i s
      | PcClose, Some i => close_step t x i s
      | _, _ => s
      end
  end.

(** A thread that has no section begins one; a thread with a section goes on;
    a thread in a section that writes removes the lock file, as
    [DeletePreferences] does. *)
Inductive action :=
  | Begin (t : Tid) (p : Pid) (path : string) (type : LockType)
  | Step (t : Tid) (ok : bool)
  | RemoveLockFile (t : Tid).

Definition idle (t : Tid) (s : LockSys) : bool :=
  match sections s !! t with Some x => bool_decide (s_pc x = PcEnd) | None => true end.

(** [preferences_helper.cpp:265-265] DeletePreferences *)
Definition remove_lockfile (t : Tid) (s : LockSys) : LockSys :=
  match sections s !! t with
  | Some x =>
      match s_pc x, s_type x with
      | PcBody _, F_WRLCK => mkLockSys (inProcessMutexs_ s) (next_mutex s) (owner s) (delete (s_filePath_ x) (lockfiles s)) (next_inode s) (flocks s) (sections s)
      | _, _ => s
      end
  | None => s
  end.

Definition lock_step (a : action) (s : LockSys) : LockSys :=
  match a with
  | Begin t p path type => if idle t s then begin_section t p path type s else s
  | Step t ok => section_step ok t s
  | RemoveLockFile t => remove_lockfile t s
  end.

Definition lock_run (l : list action) (s : LockSys) : LockSys := foldl (fun s a => lock_step a s) s l.

(** The thread is in the guarded section of a file. *)
Definition in_body (s : LockSys) (t : Tid) (p : Pid) (path : string) (obtained : option LockType) : Prop :=
  exists x, sections s !! t = Some x /\ s_pid x = p /\ s_filePath_ x = MakeFilePath path STR_LOCK /\ s_pc x = PcBody obtained.

(** It has [inProcessMutex_]. *)
Definition has_mutex (pc : SectionPc) : bool :=
  match pc with PcAccess | PcOpen | PcTry _ | PcBody _ => true | _ => false end.
End System.

(** ** Reachable states *)

Section lock_facts.
Context `{AdvisoryLocksLaws}.

Lemma lock_run_app l1 l2 s : lock_run (l1 ++ l2) s = lock_run l2 (lock_run l1 s).
Proof. apply foldl_app. Qed.

Lemma lock_run_ind (P : LockSys -> Prop) (ok : action -> Prop) l s :
  (forall a s, ok a -> P s -> P (lock_step a s)) -> Forall ok l -> P s -> P (lock_run l s).
Proof. intros Hs Hl. revert s. induction Hl as [|a l Ha Hl IH]; intros s Hp; [done|]. apply IH, Hs; done. Qed.

(** Every section has the mutex of its process and file, which no other thread
    has while this one does; and a descriptor wherever it needs one. *)
Record lock_inv (s : LockSys) : Prop := {
  li_table t x : sections s !! t = Some x -> inProcessMutexs_ s !! (s_pid x, s_filePath_ x) = Some (s_inProcessMutex_ x);
  li_owner t x : sections s !! t = Some x -> has_mutex (s_pc x) = true -> owner s !! s_inProcessMutex_ x = Some t;
  li_owned m t : owner s !! m = Some t -> exists x, sections s !! t = Some x /\ s_inProcessMutex_ x = m /\ has_mutex (s_pc x) = true;
  li_fd t x : sections s !! t = Some x -> match s_pc x with PcTry n => n <> O /\ is_Some (s_fd_ x) | PcUnlock | PcClose => is_Some (s_fd_ x) | _ => True end
}.

Lemma lock_inv_new : lock_inv LockSys_new.
Proof. split; cbn; intros ? ?; by rewrite lookup_empty. Qed.

(** A step that changes one section, not its mutex, and no owner. *)
Lemma lock_inv_move s s' t x x' : lock_inv s -> sections s !! t = Some x -> sections s' = <[t := x']> (sections s) ->
  inProcessMutexs_ s' = inProcessMutexs_ s -> owner s' = owner s ->
  (s_pid x', s_filePath_ x', s_inProcessMutex_ x') = (s_pid x, s_filePath_ x, s_inProcessMutex_ x) ->
  has_mutex (s_pc x') = has_mutex (s_pc x) ->
  match s_pc x' with PcTry n => n <> O /\ is_Some (s_fd_ x') | PcUnlock | PcClose => is_Some (s_fd_ x') | _ => True end ->
  lock_inv s'.
Proof.
  intros [Ht Ho Hd Hf] Hx Hs Htab How [= Hp Hfi Hm] Hpc Hfd. split; rewrite ?Hs, ?Htab, ?How.
  - intros u y [[<- <-]|[_ Hy]]%lookup_insert_Some; [rewrite Hp, Hfi, Hm; by eapply Ht|by eapply Ht].
  - intros u y [[<- <-]|[_ Hy]]%lookup_insert_Some; [rewrite Hm, Hpc; by apply Ho|by apply Ho].
  - intros m u Hu. destruct (Hd m u Hu) as (y & Hy & Hym & Hyp). destruct (decide (u = t)) as [->|Hne].
    + exists x'. rewrite lookup_insert_eq. rewrite Hx in Hy. injection Hy as <-. by rewrite Hm, Hpc.
    + exists y. by rewrite lookup_insert_ne.
  - intros u y [[<- <-]|[_ Hy]]%lookup_insert_Some; [done|by eapply Hf].
Qed.

Lemma begin_section_eq t p path type s : exists tab m nm, begin_section t p path type s =
    mkLockSys tab nm (owner s) (lockfiles s) (next_inode s) (flocks s) (<[t := mkSect p (MakeFilePath path STR_LOCK) m type None false PcMutex]> (sections s)) /\
  tab !! (p, MakeFilePath path STR_LOCK) = Some m /\ inProcessMutexs_ s ⊆ tab.
Proof.
  unfold begin_section, LockManager_Get. destruct (inProcessMutexs_ s !! _) as [m|] eqn:E; cbn.
  - by exists (inProcessMutexs_ s), m, (next_mutex s).
  - eexists _, _, _. split; [reflexivity|]. split; [apply lookup_insert_eq|by apply insert_subseteq].
Qed.

Lemma lock_inv_begin t p path type s : idle t s = true -> lock_inv s -> lock_inv (begin_section t p path type s).
Proof.
  intros Hi [Ht Ho Hd Hf]. destruct (begin_section_eq t p path type s) as (tab & m & nm & -> & Hm & Hsub). split; cbn.
  - intros u y [[<- <-]|[_ Hy]]%lookup_insert_Some; [done|]. eapply lookup_weaken; [by eapply Ht|done].
  - intros u y [[<- <-]|[_ Hy]]%lookup_insert_Some; [done|by apply Ho].
  - intros k u Hu. destruct (Hd k u Hu) as (y & Hy & Hym & Hyp). exists y. rewrite lookup_insert_ne; [done|].
    intros <-. unfold idle in Hi. rewrite Hy in Hi. apply bool_decide_eq_true in Hi. by rewrite Hi in Hyp.
  - intros u y [[<- <-]|[_ Hy]]%lookup_insert_Some; [done|by eapply Hf].
Qed.

Lemma open_lockfile_eq path s : exists files i ni, open_lockfile path s =
    (i, mkLockSys (inProcessMutexs_ s) (next_mutex s) (owner s) files ni (flocks s) (sections s)) /\
  files !! path = Some i /\ lockfiles s ⊆ files.
Proof.
  unfold open_lockfile. destruct (lockfiles s !! path) as [i|] eqn:E.
  - exists (lockfiles s), i, (next_inode s). by destruct s.
  - eexists _, _, _. split; [reflexivity|]. split; [apply lookup_insert_eq|by apply insert_subseteq].
Qed.

Lemma lock_inv_section ok t s : lock_inv s -> lock_inv (section_step ok t s).
Proof.
  intros Hinv. unfold section_step. destruct (sections s !! t) as [x|] eqn:Hx; [|done]. pose proof (li_fd _ Hinv t x Hx) as Hfd.
  destruct (s_pc x) as [| | |[|more]|o| | |] eqn:Hpc; try done;
    match type of Hfd with True => idtac | _ => destruct (s_fd_ x) as [i|] eqn:Hi; [|by destruct_and?] end.
  - destruct (owner s !! s_inProcessMutex_ x) as [u|] eqn:Hown; [done|]. destruct Hinv as [Ht Ho Hd Hf]. split; cbn.
    + intros u y [[<- <-]|[_ Hy]]%lookup_insert_Some; [exact (Ht t x Hx)|by eapply Ht].
    + intros u y [[<- <-]|[Hne Hy]]%lookup_insert_Some Hm; [apply lookup_insert_eq|]. rewrite lookup_insert_ne; [by apply Ho|].
      intros E. pose proof (Ho u y Hy Hm) as Hu. by rewrite <- E, Hown in Hu.
    + intros m u [[<- <-]|[Hne Hu]]%lookup_insert_Some.
      * eexists. rewrite lookup_insert_eq. split; [done|]. split; [done|]. unfold after_mutex. cbn. by destruct (s_type x).
      * destruct (Hd m u Hu) as (y & Hy & Hym & Hyp). exists y. rewrite lookup_insert_ne; [done|]. intros <-.
        rewrite Hx in Hy. injection Hy as <-. by rewrite Hpc in Hyp.
    + intros u y [[<- <-]|[_ Hy]]%lookup_insert_Some; [|by eapply Hf]. cbn. unfold after_mutex. by destruct (s_type x).
  - unfold ReadLock_step. destruct (ok && _); (eapply lock_inv_move; [done..|by rewrite Hpc|done]).
  - unfold open_step. destruct ok.
    + destruct (open_lockfile_eq (s_filePath_ x) s) as (files & i & ni & -> & _). eapply lock_inv_move; [done..|by rewrite Hpc|cbn; by split].
    + eapply lock_inv_move; [done..|by rewrite Hpc|done].
  - unfold try_step. destruct (if ok then _ else _) as [l|].
    + eapply lock_inv_move; [done..|by rewrite Hpc|done].
    + eapply lock_inv_move; [done..|cbn; rewrite Hpc; by destruct more|cbn; destruct more; [done|]]. rewrite Hi. split; [done|by eexists].
  - destruct Hinv as [Ht Ho Hd Hf]. pose proof (Ho t x Hx ltac:(by rewrite Hpc)) as Hown. split; cbn.
    + intros u y [[<- <-]|[_ Hy]]%lookup_insert_Some; [exact (Ht t x Hx)|by eapply Ht].
    + intros u y [[<- <-]|[Hne Hy]]%lookup_insert_Some Hm; [cbn in Hm; by destruct (s_fd_ x)|]. rewrite lookup_delete_ne; [by apply Ho|].
      intros E. pose proof (Ho u y Hy Hm) as Hu. rewrite <- E, Hown in Hu. by injection Hu.
    + intros m u [Hne Hu]%lookup_delete_Some. destruct (Hd m u Hu) as (y & Hy & Hym & Hyp). exists y. rewrite lookup_insert_ne; [done|].
      intros <-. rewrite Hx in Hy. injection Hy as <-. done.
    + intros u y [[<- <-]|[_ Hy]]%lookup_insert_Some; [|by eapply Hf]. cbn. by destruct (s_fd_ x).
  - unfold unlock_file_step. eapply lock_inv_move; [done|done|..]; try by destruct ok. by rewrite Hpc. cbn. rewrite Hi. by eexists.
  - unfold close_step. eapply lock_inv_move; [done..|by rewrite Hpc|done].
Qed.

Lemma lock_inv_step a s : lock_inv s -> lock_inv (lock_step a s).
Proof.
  intros Hinv. destruct a as [t p path type|t ok|t]; cbn.
  - destruct (idle t s) eqn:Hi; [by apply lock_inv_begin|done].
  - by apply lock_inv_section.
  - unfold remove_lockfile. destruct Hinv as [Ht Ho Hd Hf]. repeat case_match; by split.
Qed.

Lemma lock_inv_run l s : lock_inv s -> lock_inv (lock_run l s).
Proof. apply (lock_run_ind _ (fun _ => True)); [intros; by apply lock_inv_step|by apply Forall_true]. Qed.

(** C29: in every reachable state two threads of one process are never both
    between the mutex and its release for the same file: sections of one
    process and file exclude each other, whatever the system calls answer. *)
Theorem sections_of_a_process_exclude (l : list action) (t1 t2 : Tid) (x1 x2 : Sect) :
  let s := lock_run l LockSys_new in
  sections s !! t1 = Some x1 -> sections s !! t2 = Some x2 -> s_pid x1 = s_pid x2 -> s_filePath_ x1 = s_filePath_ x2 ->
  has_mutex (s_pc x1) = true -> has_mutex (s_pc x2) = true -> t1 = t2.
Proof.
  intros s H1 H2 Hp Hf Hm1 Hm2. pose proof (lock_inv_run l _ lock_inv_new) as Hinv. fold s in Hinv.
  pose proof (li_table _ Hinv _ _ H1) as E1. rewrite Hp, Hf, (li_table _ Hinv _ _ H2) in E1. injection E1 as E.
  pose proof (li_owner _ Hinv _ _ H1 Hm1) as O1. rewrite <- E, (li_owner _ Hinv _ _ H2 Hm2) in O1. by injection O1.
Qed.

(** ** A section comes to its end *)

(** How many steps it can still take. *)
Definition steps_left (pc : SectionPc) : nat :=
  match pc with
  | PcMutex => 56
  | PcAccess => 55
  | PcOpen => 54
  | PcTry n => 3 + n
  | PcBody _ => 3
  | PcUnlock => 2
  | PcClose => 1
  | PcEnd => 0
  end.

Definition steps_of (t : Tid) (a : action) : bool := match a with Step u _ => bool_decide (u = t) | _ => false end.
Definition not_begun (t : Tid) (a : action) : Prop := match a with Begin u _ _ _ => u <> t | _ => True end.

Lemma remove_lockfile_sections u s : sections (remove_lockfile u s) = sections s.
Proof. unfold remove_lockfile. by repeat case_match. Qed.

Lemma section_step_other ok t u s : u <> t -> sections (section_step ok u s) !! t = sections s !! t.
Proof.
  intros Hne. unfold section_step, open_step, open_lockfile, try_step, unlock_mutex_step, unlock_file_step, close_step, set_section, set_owner, set_flocks.
  repeat case_match; simplify_eq; cbn; by rewrite ?lookup_insert_ne.
Qed.

Lemma section_step_own ok t s x : lock_inv s -> sections s !! t = Some x -> s_pc x <> PcMutex ->
  exists x', sections (section_step ok t s) !! t = Some x' /\ s_pc x' <> PcMutex /\
    (steps_left (s_pc x') <= pred (steps_left (s_pc x)))%nat.
Proof.
  intros Hinv Hx Hpc. pose proof (li_fd _ Hinv t x Hx) as Hfd. unfold section_step. rewrite Hx.
  destruct (s_pc x) as [| | |[|more]|o| | |] eqn:E; try done;
    match type of Hfd with True => idtac | _ => destruct (s_fd_ x) as [i|] eqn:Hi; [|by destruct_and?] end.
  - unfold ReadLock_step. eexists. split; [apply lookup_insert_eq|]. destruct (ok && _); split; (done || cbn; lia).
  - unfold open_step. destruct ok.
    + destruct (open_lockfile_eq (s_filePath_ x) s) as (files & i & ni & -> & _). eexists. split; [apply lookup_insert_eq|]. split; [done|unfold ATTEMPTS; cbn; lia].
    + eexists. split; [apply lookup_insert_eq|]. split; [done|cbn; lia].
  - by destruct Hfd.
  - unfold try_step. destruct (if ok then _ else _); (eexists; split; [apply lookup_insert_eq|]); cbn; [split; [done|lia]|].
    destruct more; split; (done || cbn; lia).
  - eexists. split; [apply lookup_insert_eq|]. cbn. destruct (s_fd_ x); split; (done || cbn; lia).
  - eexists. split; [by destruct ok; apply lookup_insert_eq|]. split; [done|cbn; lia].
  - eexists. split; [apply lookup_insert_eq|]. split; [done|cbn; lia].
  - exists x. rewrite E. by repeat case_match.
Qed.

Lemma section_runs_out l t s x : lock_inv s -> Forall (not_begun t) l -> sections s !! t = Some x -> s_pc x <> PcMutex ->
  exists x', sections (lock_run l s) !! t = Some x' /\ s_pc x' <> PcMutex /\
    (steps_left (s_pc x') <= steps_left (s_pc x) - length (filter (fun a => steps_of t a = true) l))%nat.
Proof.
  intros Hinv Hl. revert s x Hinv. induction Hl as [|a l Ha Hl IH]; intros s x Hinv Hx Hpc; [exists x; by rewrite Nat.sub_0_r|].
  cbn [lock_run foldl]. assert (Hstep : exists y, sections (lock_step a s) !! t = Some y /\ s_pc y <> PcMutex /\
    (steps_left (s_pc y) <= (if steps_of t a then pred (steps_left (s_pc x)) else steps_left (s_pc x)))%nat).
  { destruct a as [u p path ty|u ok|u]; cbn in *.
    - exists x. split; [|done]. destruct (idle u s); [|done].
      destruct (begin_section_eq u p path ty s) as (tab & m & nm & -> & _). cbn. by rewrite lookup_insert_ne.
    - case_bool_decide as Hu; [subst; by apply section_step_own|]. exists x. by rewrite section_step_other.
    - exists x. by rewrite remove_lockfile_sections. }
  destruct Hstep as (y & Hy & Hypc & Hle). destruct (IH _ y (lock_inv_step a s Hinv) Hy Hypc) as (x' & Hx' & Hpc' & Hle').
  exists x'. split; [done|]. split; [done|]. rewrite filter_cons. case_decide as Hs; [rewrite Hs in Hle; cbn [length]; lia|].
  destruct (steps_of t a); [done|lia].
Qed.

(** The attempts never exceed their number. *)
Lemma tries_bounded l t x : sections (lock_run l LockSys_new) !! t = Some x -> match s_pc x with PcTry n => (n <= 50)%nat | _ => True end.
Proof.
  revert t x. refine (lock_run_ind (fun s => forall t x, sections s !! t = Some x -> match s_pc x with PcTry n => (n <= 50)%nat | _ => True end)
    (fun _ => True) l _ _ _ _); [|by apply Forall_true|by intros t x; cbn; rewrite lookup_empty].
  intros a s _ IH t x. destruct a as [u p path ty|u ok|u]; cbn.
  - destruct (idle u s); [|by apply IH]. destruct (begin_section_eq u p path ty s) as (tab & m & nm & -> & _).
    cbn. intros [[<- <-]|[_ Hx]]%lookup_insert_Some; [done|by eapply IH].
  - destruct (decide (u = t)) as [->|Hne]; [|rewrite section_step_other by done; by apply IH].
    unfold section_step. destruct (sections s !! t) as [y|] eqn:Hy; [|rewrite Hy; done]. pose proof (IH t y Hy) as Hb.
    destruct (s_pc y) as [| | |[|more]|o| | |] eqn:E, (s_fd_ y); rewrite ?Hy; unfold open_step, open_lockfile, try_step, ReadLock_step, unlock_mutex_step, unlock_file_step, close_step, after_mutex;
      repeat case_match; simplify_eq; cbn; rewrite ?lookup_insert_eq, ?Hy; intros [= <-]; unfold ATTEMPTS; cbn; rewrite ?E; cbn in *; try rewrite E in *; simplify_eq; unfold ATTEMPTS in *; first [done|lia|congruence].
  - rewrite remove_lockfile_sections. by apply IH.
Qed.

(** C30: a thread that has the mutex of a file ends its section and has given
    the mutex back after 55 of its own steps, whatever the system calls answer
    and however the steps of other threads and processes come between: nobody
    waits forever for one section. *)
Theorem section_ends (l0 l : list action) (t : Tid) (m : positive) :
  let s := lock_run l0 LockSys_new in
  owner s !! m = Some t -> Forall (not_begun t) l -> (55 <= length (filter (fun a => steps_of t a = true) l))%nat ->
  (exists x, sections (lock_run l s) !! t = Some x /\ s_pc x = PcEnd) /\ owner (lock_run l s) !! m <> Some t.
Proof.
  intros s Hm Hl Hn. pose proof (lock_inv_run l0 _ lock_inv_new) as Hinv. fold s in Hinv.
  destruct (li_owned _ Hinv m t Hm) as (x & Hx & _ & Hpc).
  destruct (section_runs_out l t s x Hinv Hl Hx ltac:(intros E; by rewrite E in Hpc)) as (x' & Hx' & _ & Hle).
  assert (Hbound : (steps_left (s_pc x) <= 55)%nat).
  { pose proof (tries_bounded l0 t x Hx) as Hb. destruct (s_pc x); cbn in *; (done || lia). }
  assert (Hend : s_pc x' = PcEnd) by (destruct (s_pc x'); cbn in Hle; (done || lia)). split; [by exists x'|].
  intros Ho. destruct (li_owned _ (lock_inv_run l s Hinv) m t Ho) as (y & Hy & _ & Hyp). rewrite Hx' in Hy. injection Hy as <-. by rewrite Hend in Hyp.
Qed.

(** ** Between processes *)

(** Every process uses one thread, and nobody removes a lock file. *)
Definition lone (a : action) : Prop :=
  match a with Begin t p _ _ => p = t | Step _ _ => True | RemoveLockFile _ => False end.

(** The locks of the kernel do not conflict. *)
Definition compatible (l : LockTable) : Prop :=
  forall i p q a b, p <> q -> held l i p = Some a -> held l i q = Some b -> conflict a b = false.

Lemma conflict_sym a b : conflict a b = conflict b a.
Proof. by destruct a, b. Qed.

Lemma compatible_setlk p i t l l' : setlk p i t l = Some l' -> compatible l -> compatible l'.
Proof.
  intros E Hc. assert (Hno : forall q u, q <> p -> held l i q = Some u -> conflict t u = false).
  { intros q u Hq Hu. destruct (conflict t u) eqn:Ec; [|done].
    assert (Hr : setlk p i t l = None) by (apply setlk_refused; by exists q, u). by rewrite E in Hr. }
  intros j q r a b Hne. rewrite !(held_setlk _ _ _ _ _ _ _ E).
  destruct (decide (j = i /\ q = p)) as [[-> ->]|Hq], (decide (_ /\ r = _)) as [[? ?]|Hr]; subst; try done.
  - intros [= <-] Hb. by eapply Hno.
  - intros Ha [= <-]. rewrite conflict_sym. by eapply Hno.
  - by apply Hc.
Qed.

Lemma compatible_unlck p i l : compatible l -> compatible (unlck p i l).
Proof. intros Hc j q r a b Hne. rewrite !held_unlck. do 2 (case_decide; [done|]). by apply Hc. Qed.

Record lone_inv (s : LockSys) : Prop := {
  lo_pid t x : sections s !! t = Some x -> s_pid x = t;
  lo_file t x i : sections s !! t = Some x -> s_fd_ x = Some i -> lockfiles s !! s_filePath_ x = Some i;
  lo_held t x ty : sections s !! t = Some x -> s_pc x = PcBody (Some ty) ->
    exists i, s_fd_ x = Some i /\ held (flocks s) i t = Some ty;
  lo_compatible : compatible (flocks s)
}.

(** One section moves: the lock files stay, and the locks of the other
    processes too. *)
Lemma lone_inv_move s s' t x x' : lone_inv s -> sections s !! t = Some x -> sections s' = <[t := x']> (sections s) ->
  s_pid x' = s_pid x -> lockfiles s ⊆ lockfiles s' -> compatible (flocks s') ->
  (forall i u, u <> t -> held (flocks s') i u = held (flocks s) i u) ->
  (forall i, s_fd_ x' = Some i -> lockfiles s' !! s_filePath_ x' = Some i) ->
  (forall ty, s_pc x' = PcBody (Some ty) -> exists i, s_fd_ x' = Some i /\ held (flocks s') i t = Some ty) ->
  lone_inv s'.
Proof.
  intros [Hp Hf Hh Hc] Hx Hs Hpid Hfiles Hc' Hother Hfd Hbody. split; rewrite ?Hs; [..|done].
  - intros u y [[<- <-]|[_ Hy]]%lookup_insert_Some; [rewrite Hpid|]; by apply Hp.
  - intros u y i [[<- <-]|[_ Hy]]%lookup_insert_Some Hi; [by apply Hfd|]. eapply lookup_weaken; [by eapply Hf|done].
  - intros u y ty [[<- <-]|[Hne Hy]]%lookup_insert_Some Hpc; [by apply Hbody|].
    destruct (Hh u y ty Hy Hpc) as (i & Hi & Hheld). exists i. by rewrite Hother.
Qed.

Lemma lone_inv_section ok t s : lone_inv s -> lone_inv (section_step ok t s).
Proof.
  intros Hinv. unfold section_step. destruct (sections s !! t) as [x|] eqn:Hx; [|done].
  pose proof (lo_file _ Hinv t x) as Hfile. pose proof (lo_pid _ Hinv t x Hx) as Hpid. pose proof (lo_compatible _ Hinv) as Hc.
  assert (Hmove : forall s' x', sections s' = <[t := x']> (sections s) -> s_pid x' = s_pid x -> lockfiles s' = lockfiles s -> compatible (flocks s') ->
    (forall i u, u <> t -> held (flocks s') i u = held (flocks s) i u) -> s_filePath_ x' = s_filePath_ x -> (s_fd_ x' = s_fd_ x \/ s_fd_ x' = None) ->
    (forall ty, s_pc x' = PcBody (Some ty) -> exists i, s_fd_ x' = Some i /\ held (flocks s') i t = Some ty) -> lone_inv s').
  { intros s' x' Hs Hp Hl Hc' Ho Hpath Hfd Hb. eapply lone_inv_move; try done; [by rewrite Hl|].
    intros i Hi. destruct Hfd as [E|E]; rewrite E in Hi; [|done]. rewrite Hl, Hpath. by apply Hfile. }
  destruct (s_pc x) as [| | |[|more]|o| | |]; try done; try (destruct (s_fd_ x) as [i|] eqn:Hi; [|done]).
  - destruct (owner s !! s_inProcessMutex_ x); [done|]. eapply Hmove; try done; [by left|]. intros ty. cbn. unfold after_mutex. by destruct (s_type x).
  - eapply Hmove; try done; [by left|]. intros ty. cbn. unfold ReadLock_step. by destruct (ok && _).
  - unfold open_step. destruct ok; [|by eapply Hmove; try done; left].
    destruct (open_lockfile_eq (s_filePath_ x) s) as (files & i & ni & -> & Hpath & Hsub).
    eapply lone_inv_move; try done. intros j. cbn. by intros [= <-].
  - unfold try_step. destruct ok; cbn [andb]; [destruct (setlk _ _ _ _) as [l|] eqn:El|].
    + eapply Hmove; cbn; try done.
      * by eapply compatible_setlk.
      * intros j u Hu. rewrite (held_setlk _ _ _ _ _ _ _ El), decide_False by (intros [_ E]; congruence). done.
      * by left.
      * intros ty [= <-]. exists i. split; [done|]. rewrite (held_setlk _ _ _ _ _ _ _ El). by rewrite decide_True by (split; congruence).
    + eapply Hmove; try done; [by left|]. intros ty. cbn. by destruct more.
    + eapply Hmove; try done; [by left|]. intros ty. cbn. by destruct more.
  - eapply Hmove; try done; [by left|]. intros ty. cbn. by destruct (s_fd_ x).
  - unfold unlock_file_step. destruct ok; eapply Hmove; cbn; try done; [by apply compatible_unlck| |by left|by left].
    intros j u Hu. rewrite held_unlck, decide_False by (intros [_ E]; congruence). done.
  - eapply Hmove; cbn; try done; [by apply compatible_unlck| |by right].
    intros j u Hu. rewrite held_unlck, decide_False by (intros [_ E]; congruence). done.
Qed.

Lemma lone_inv_run l : Forall lone l -> lone_inv (lock_run l LockSys_new).
Proof.
  intros Hl. apply (lock_run_ind lone_inv lone); [|done|].
  - intros [t p path ty|t ok|t] s Ha Hinv; cbn in *; [|by apply lone_inv_section|done]. destruct (idle t s) eqn:Hi; [|done]. subst p.
    destruct (begin_section_eq t t path ty s) as (tab & m & nm & -> & _). destruct Hinv as [Hp Hf Hh Hc].
    split; cbn; [..|done].
    + intros u y [[<- <-]|[_ Hy]]%lookup_insert_Some; [done|by apply Hp].
    + intros u y i [[<- <-]|[_ Hy]]%lookup_insert_Some; [done|by eapply Hf].
    + intros u y ty' [[<- <-]|[_ Hy]]%lookup_insert_Some; [done|by eapply Hh].
  - split; cbn; try (intros ? ?; by rewrite lookup_empty). intros i p q a b _. by rewrite held_no_locks.
Qed.

(** C28: between processes that use one thread each and do not delete the
    store, the lock works: of two sections of one file that both obtained
    their lock, both read. *)
Theorem sections_of_processes_exclude (l : list action) (t1 t2 : Tid) (p1 p2 : Pid) (path : string) (a b : LockType)
    (Hl : Forall lone l) (Hne : t1 <> t2) :
  let s := lock_run l LockSys_new in
  in_body s t1 p1 path (Some a) -> in_body s t2 p2 path (Some b) -> a = F_RDLCK /\ b = F_RDLCK.
Proof.
  intros s (x1 & H1 & _ & Hf1 & Hb1) (x2 & H2 & _ & Hf2 & Hb2). pose proof (lone_inv_run l Hl) as Hinv. fold s in Hinv.
  destruct (lo_held _ Hinv _ _ _ H1 Hb1) as (i & Hi & Hh1), (lo_held _ Hinv _ _ _ H2 Hb2) as (j & Hj & Hh2).
  pose proof (lo_file _ Hinv _ _ _ H1 Hi) as E1. pose proof (lo_file _ Hinv _ _ _ H2 Hj) as E2. rewrite Hf1, <- Hf2, E2 in E1. injection E1 as ->.
  pose proof (lo_compatible _ Hinv i t1 t2 a b Hne Hh1 Hh2) as Hc. by destruct a, b.
Qed.
End lock_facts.

(** ** The locks of the kernel as a table *)

Definition table_refuses (p : Pid) (i : Inode) (t : LockType) (l : gmap (Inode * Pid) LockType) : Prop :=
  Exists (fun e => e.1.1 = i /\ e.1.2 <> p /\ conflict t e.2 = true) (map_to_list l).

#[export] Instance table_refuses_dec p i t l : Decision (table_refuses p i t l).
Proof. apply Exists_dec. intros e. apply _. Defined.

#[export] Instance ref_locks : AdvisoryLocks := {|
  LockTable := gmap (Inode * Pid) LockType;
  no_locks := ∅;
  held l i p := l !! (i, p);
  setlk p i t l := if decide (table_refuses p i t l) then None else Some (<[(i, p) := t]> l);
  unlck p i l := delete (i, p) l
|}.

#[export] Instance ref_locks_laws : AdvisoryLocksLaws.
Proof.
  split; cbn.
  - intros i p. apply lookup_empty.
  - intros p i t l l' j q. case_decide; [done|]. intros [= <-]. case_decide as E.
    + destruct E as [-> ->]. apply lookup_insert_eq.
    + apply lookup_insert_ne. intros [= -> ->]. by apply E.
  - intros p i t l. case_decide as E.
    + split; [intros _|done]. apply Exists_exists in E as ([[j q] u] & Hin & Hj & Hq & Hc). cbn in *. subst. apply elem_of_map_to_list in Hin. by exists q, u.
    + split; [done|]. intros (q & u & Hq & Hu & Hc). destruct E. apply Exists_exists. exists ((i, q), u). by rewrite elem_of_map_to_list.
  - intros p i l j q. case_decide as E.
    + destruct E as [-> ->]. apply lookup_delete_eq.
    + apply lookup_delete_ne. intros [= -> ->]. by apply E.
Qed.

(** ** Where the lock does not exclude *)

(** A thread that goes on [n] times. *)
Definition go (n : nat) (t : Tid) : list action := replicate n (Step t true).

(** Threads 1 and 2 of process 1, and thread 3 of process 2. *)
Definition released_early : list action :=
  Begin 1 1 "f" F_WRLCK :: go 3 1 ++ Begin 2 1 "f" F_WRLCK :: Step 1 true :: go 3 2 ++ go 2 1 ++ Begin 3 2 "f" F_WRLCK :: go 3 3.

(** Process 1 deletes the store while process 2 has the lock file open. *)
Definition removed_lockfile : list action :=
  Begin 1 1 "f" F_WRLCK :: go 3 1 ++ Begin 2 2 "f" F_WRLCK :: go 2 2 ++ RemoveLockFile 1 :: go 3 1 ++ Begin 3 3 "f" F_WRLCK :: go 3 3 ++ go 1 2.

(** A reader comes before there is a lock file. *)
Definition reader_before_lockfile : list action :=
  Begin 1 1 "f" F_RDLCK :: go 2 1 ++ Begin 2 2 "f" F_WRLCK :: go 3 2.

(** A process waits for longer than all attempts take. *)
Definition attempts_used_up : list action :=
  Begin 1 1 "f" F_WRLCK :: go 3 1 ++ Begin 2 2 "f" F_WRLCK :: go 52 2.

(** The lock does not exclude two processes in general.  The destructor
    gives the mutex of the process back before the lock of the file: another
    thread of the process can obtain both in between, and loses the lock of
    the file when the first one goes on, since the kernel's locks belong to
    processes.  Deleting the store removes the lock file, so that processes
    hold locks of two files of one name.  And a section runs without its lock
    when a reader finds no lock file or all attempts are used up. *)
Theorem lock_does_not_exclude :
  (let s := lock_run released_early LockSys_new in
     in_body s 2 1 "f" (Some F_WRLCK) /\ in_body s 3 2 "f" (Some F_WRLCK)) /\
  (let s := lock_run removed_lockfile LockSys_new in
     in_body s 2 2 "f" (Some F_WRLCK) /\ in_body s 3 3 "f" (Some F_WRLCK)) /\
  (let s := lock_run reader_before_lockfile LockSys_new in
     in_body s 1 1 "f" None /\ in_body s 2 2 "f" (Some F_WRLCK)) /\
  (let s := lock_run attempts_used_up LockSys_new in
     in_body s 1 1 "f" (Some F_WRLCK) /\ in_body s 2 2 "f" None).
Proof.
  unfold in_body. split_and!; (eexists; split_and!; [vm_compute; reflexivity|..]; vm_compute; reflexivity).
Qed.

(** ** Concrete runs *)

Definition one_of_two : list action := Begin 1 1 "f" F_WRLCK :: go 3 1 ++ Begin 2 1 "f" F_RDLCK :: go 9 2.

Lemma one_of_two_holder : exists x, sections (lock_run one_of_two LockSys_new) !! 1%nat = Some x /\ s_pid x = 1%nat /\
  s_filePath_ x = "f.lock" /\ has_mutex (s_pc x) = true.
Proof. eexists. split_and!; [vm_compute; reflexivity|..]; vm_compute; reflexivity. Qed.

Example sections_of_a_process_exclude_witness : ~ exists t x, sections (lock_run one_of_two LockSys_new) !! t = Some x /\
  s_pid x = 1%nat /\ s_filePath_ x = "f.lock" /\ has_mutex (s_pc x) = true /\ 1%nat <> t.
Proof.
  intros (t & x & Hx & Hp & Hf & Hm & Hne). destruct one_of_two_holder as (y & Hy & Hyp & Hyf & Hym). apply Hne.
  apply (sections_of_a_process_exclude one_of_two 1 t y x Hy Hx); [by rewrite Hp|by rewrite Hf|exact Hym|exact Hm].
Defined.

Example section_ends_witness :
  owner (lock_run (go 30 1 ++ Begin 2 1 "f" F_WRLCK :: go 30 1) (lock_run (Begin 1 1 "f" F_WRLCK :: go 1 1) LockSys_new)) !! 1%positive <> Some 1%nat.
Proof.
  apply (section_ends (Begin 1 1 "f" F_WRLCK :: go 1 1) (go 30 1 ++ Begin 2 1 "f" F_WRLCK :: go 30 1) 1 1).
  - vm_compute. reflexivity.
  - apply Forall_app. split; [by apply Forall_replicate|]. constructor; [done|by apply Forall_replicate].
  - vm_compute. lia.
Defined.

Definition two_readers : list action :=
  Begin 1 1 "f" F_WRLCK :: go 6 1 ++ Begin 2 2 "f" F_RDLCK :: go 4 2 ++ Begin 3 3 "f" F_RDLCK :: go 4 3.

Lemma two_readers_lone : Forall lone two_readers.
Proof. by repeat (constructor; [done|]). Qed.

Example sections_of_processes_exclude_witness :
  let s := lock_run two_readers LockSys_new in
  in_body s 2 2 "f" (Some F_RDLCK) /\ in_body s 3 3 "f" (Some F_RDLCK) /\ ~ in_body s 3 3 "f" (Some F_WRLCK).
Proof.
  intros s. assert (H2 : in_body s 2 2 "f" (Some F_RDLCK)).
  { unfold in_body. eexists; split_and!; [vm_compute; reflexivity|..]; vm_compute; reflexivity. }
  split; [exact H2|]. split.
  - unfold in_body. eexists; split_and!; [vm_compute; reflexivity|..]; vm_compute; reflexivity.
  - intros H3. by destruct (sections_of_processes_exclude two_readers 2 3 2 3 "f" F_RDLCK F_WRLCK two_readers_lone ltac:(done) H2 H3).
Defined.
