(* ===== verification/Xml.v ===== *)
(** * The XML file format

    Models the conversions of [preferences_xml_utils.cpp]: a value to the
    calls of libxml2's text writer, and a parsed node to a value.  libxml2
    itself is a parameter ([LibXml]): it turns a sequence of accepted writer
    calls into text and text into a tree; the law [xml_roundtrip] is its
    documented behaviour, that the text of a document parses to the document:
    for trees with valid names, no attribute twice, legal texts, and either
    one text or elements in each element, which is what this code writes. *)

From S2P Require Import Prelude Errno Value Utils NumText Base64.
Import Base64Helper.

(** A node of the parsed tree; the name of a text node is ["text"]. *)
Inductive XmlNode :=
  | Elem (name : string) (attrs : list (string * string)) (children : list XmlNode)
  | Text (content : string).

(** A call on the text writer. *)
Inductive WCall :=
  | StartDocument (encoding : string)
  | StartElement (name : string)
  | WriteAttribute (name value : string)
  | WriteString (content : string)
  | EndElement
  | EndDocument.

(** ** Values to text *)

(** [preferences_xml_utils.cpp:52-56] ValueVisitor *)
Record ValueVisitor := mkVisitor {
  typeTag : string; valueStr : string; childrenTag : string; arrayValues : list string }.

Definition scalar_tag (tag value : string) : ValueVisitor := mkVisitor tag value "" [].
Definition array_tag (tag child : string) (values : list string) : ValueVisitor :=
  mkVisitor tag "" child values.

Definition bool_text (b : bool) : string := if b then "true" else "false".

(** [preferences_xml_utils.cpp:58-179] ValueVisitor::operator() *)
Definition visit (value : PreferencesValue) : outcome ValueVisitor :=
  match value with
  | VInt val => Done (scalar_tag "int" (to_string val))
  | VBool val => Done (scalar_tag "bool" (bool_text val))
  | VLong val => Done (scalar_tag "long" (to_string val))
  | VFloat val => Done (scalar_tag "float" (float_to_string val))
  | VDouble val => Done (scalar_tag "double" (double_to_string val))
  | VString val => Done (scalar_tag "string" val)
  | VStringArray val => Done (array_tag "stringArray" "string" val)
  | VDoubleArray val => Done (array_tag "doubleArray" "double" (map double_to_string val))
  | VBoolArray val => Done (array_tag "boolArray" "bool" (map bool_text val))
  | VUint8Array val => s ← Encode val; Done (scalar_tag "uint8Array" s)
  | VObject val => Done (scalar_tag "object" (Value.valueStr val))
  | VBigInt val =>
      Done (array_tag "BigInt" "uint64_t"
        (map to_string (words_ val) ++ [to_string (wrap_u 64 (sign_ val))]))
  | VIntArray val => Done (array_tag "intArray" "int" (map to_string val))
  | VInt64Array val => Done (array_tag "int64Array" "int64" (map to_string val))
  | VMonostate => Done (scalar_tag "unknown" "")
  end.

Definition is_one_of (tags : list string) (s : string) : bool := bool_decide (s ∈ tags).

(** The calls of one child of an array.

    [preferences_xml_utils.cpp:825-838] WriteXmlElement *)
Definition child_calls (visitor : ValueVisitor) (child : string) : list WCall :=
  if bool_decide (childrenTag visitor = "string") then
    [StartElement (c_str (childrenTag visitor)); WriteString (c_str child); EndElement]
  else
    [StartElement (c_str (childrenTag visitor)); WriteAttribute "value" (c_str child); EndElement].

(** The calls on the writer, in order; [XML_CHECK] stops at the first that
    is refused (see [write_calls]).

    [preferences_xml_utils.cpp:802-842] WriteXmlElement *)
Definition WriteXmlElement (key : string) (value : PreferencesValue) : outcome (list WCall) :=
  visitor ← visit value;
  let tag := typeTag visitor in
  Done (
    if is_one_of ["string"; "uint8Array"; "object"] tag then
      [StartElement tag; WriteAttribute "key" (c_str key);
       WriteString (c_str (valueStr visitor)); EndElement]
    else if is_one_of ["int"; "long"; "float"; "bool"; "double"] tag then
      [StartElement tag; WriteAttribute "key" (c_str key);
       WriteAttribute "value" (c_str (valueStr visitor)); EndElement]
    else if is_one_of ["intArray"; "int64Array"; "doubleArray"; "stringArray"; "boolArray"; "BigInt"] tag then
      [StartElement tag; WriteAttribute "key" (c_str key)] ++
      concat (map (child_calls visitor) (arrayValues visitor)) ++ [EndElement]
    else []).

(** ** Nodes to elements *)

(** [preferences_xml_utils.h:27-34] Element *)
Inductive Element := mkElement {
  tag_ : string; key_ : string; value_ : string; children_ : list Element }.

(** [xmlGetProp]: the attribute's value, if there is one. *)
Definition xmlGetProp (node : XmlNode) (name : string) : option string :=
  match node with
  | Elem _ attrs _ => snd <$> find (fun a => bool_decide (a.1 = name)) attrs
  | Text _ => None
  end.

(** [xmlNodeGetContent]: the text below the node. *)
Fixpoint xmlNodeGetContent (node : XmlNode) : string :=
  match node with
  | Text s => s
  | Elem _ _ children => foldr (fun c acc => xmlNodeGetContent c +:+ acc) "" children
  end.

Definition node_name (node : XmlNode) : string :=
  match node with Elem name _ _ => name | Text _ => "text" end.

(** [preferences_xml_utils.cpp:654-678] ParsePrimitiveNodeElement *)
Definition ParsePrimitiveNodeElement (node : XmlNode) : option Element :=
  let key := xmlGetProp node "key" in
  match xmlGetProp node "value" with
  | Some value => Some (mkElement (node_name node) (default "" key) value [])
  | None => None
  end.

(** [preferences_xml_utils.cpp:681-705] ParseStringNodeElement *)
Definition ParseStringNodeElement (node : XmlNode) : option Element :=
  let key := xmlGetProp node "key" in
  Some (mkElement (node_name node) (default "" key) (xmlNodeGetContent node) []).

(** All the children, or failure at the first that cannot be parsed.

    [preferences_xml_utils.cpp:720-730] ParseArrayNodeElement *)
Definition parse_children (parse : XmlNode -> option Element) : list XmlNode -> option (list Element) :=
  fix go l :=
    match l with
    | [] => Some []
    | c :: l' => child ← parse c; rest ← go l'; Some (child :: rest)
    end.

(** [preferences_xml_utils.cpp:614-651] ParseNodeElement, with
    [ParseArrayNodeElement] (lines 708 to 739) as its last case. *)
Fixpoint ParseNodeElement (node : XmlNode) : option Element :=
  if is_one_of ["string"; "uint8Array"; "object"] (node_name node) then ParseStringNodeElement node
  else if is_one_of ["int"; "int64"; "long"; "bool"; "float"; "double"; "uint64_t"] (node_name node)
  then ParsePrimitiveNodeElement node
  else if is_one_of ["boolArray"; "stringArray"; "doubleArray"; "intArray"; "int64Array"; "BigInt"; "set"]
    (node_name node)
  then
    match xmlGetProp node "key" with
    | Some key =>
        match node with
        | Elem name _ children =>
            cs ← parse_children ParseNodeElement children; Some (mkElement name key "" cs)
        | Text _ => None
        end
    | None => None
    end
  else None.

(** [preferences_xml_utils.cpp:708-739] ParseArrayNodeElement *)
Definition ParseArrayNodeElement (node : XmlNode) : option Element :=
  match xmlGetProp node "key" with
  | Some key =>
      match node with
      | Elem name _ children =>
          cs ← parse_children ParseNodeElement children; Some (mkElement name key "" cs)
      | Text _ => None
      end
  | None => None
  end.

(** ** Elements to values *)

(** [preferences_xml_utils.cpp:324-337] Convert2PrefValue *)
Definition Convert2Pref_string (element : Element) : outcome string := Done (value_ element).
(** [preferences_xml_utils.cpp:328-329] Convert2PrefValue *)
Definition Convert2Pref_bool (element : Element) : outcome bool :=
  Done (bool_decide (value_ element = "true")).
(** [preferences_xml_utils.cpp:332-336] Convert2PrefValue *)
Definition Convert2Pref_number (scan : string -> outcome Z) (element : Element) : outcome Z :=
  scan (value_ element).

(** [preferences_xml_utils.cpp:340-347] Convert2PrefValue *)
Fixpoint Convert2Pref_vector {T} (convert : Element -> outcome T) (l : list Element) : outcome (list T) :=
  match l with
  | [] => Done []
  | child :: l' =>
      value ← convert child; values ← Convert2Pref_vector convert l'; Done (value :: values)
  end.

(** [preferences_xml_utils.cpp:349-361] Convert2PrefValue *)
Definition Convert2Pref_BigInt (element : Element) : outcome BigInt :=
  words ← Convert2Pref_vector (Convert2Pref_number (scan_unsigned 64)) (children_ element);
  match rev words with
  | [] => Done (mkBigInt [] 0)
  | last :: rest => Done (mkBigInt (rev rest) (wrap_s 32 last))
  end.

(** [preferences_xml_utils.cpp:370-375] Convert2PrefValue *)
Definition Convert2Pref_uint8 (element : Element) : outcome (list Z) :=
  r ← Decode (value_ element); Done (default [] r).

(** [preferences_xml_utils.cpp:377-380] Convert2PrefValue *)
Definition Convert2Pref_Object (element : Element) : outcome Object := Done (mkObject (value_ element)).

(** The alternatives of the variant in order, each with the name
    [GetTypeName] gives it and its conversion.

    [preferences_xml_utils.cpp:227-321] GetTypeName *)
Definition alternatives : list (string * (Element -> outcome PreferencesValue)) :=
  let vec {T} (mk : list T -> PreferencesValue) (c : Element -> outcome T) (e : Element) :=
    l ← Convert2Pref_vector c (children_ e); Done (mk l) in
  [("unknown", fun _ => Done VMonostate);
   ("int", fun e => z ← Convert2Pref_number (scan_signed 32) e; Done (VInt z));
   ("long", fun e => z ← Convert2Pref_number (scan_signed 64) e; Done (VLong z));
   ("float", fun e => z ← Convert2Pref_number scan_float e; Done (VFloat z));
   ("double", fun e => z ← Convert2Pref_number scan_double e; Done (VDouble z));
   ("bool", fun e => b ← Convert2Pref_bool e; Done (VBool b));
   ("string", fun e => s ← Convert2Pref_string e; Done (VString s));
   ("stringArray", vec VStringArray Convert2Pref_string);
   ("boolArray", vec VBoolArray Convert2Pref_bool);
   ("doubleArray", vec VDoubleArray (Convert2Pref_number scan_double));
   ("uint8Array", fun e => l ← Convert2Pref_uint8 e; Done (VUint8Array l));
   ("object", fun e => o ← Convert2Pref_Object e; Done (VObject o));
   ("BigInt", fun e => b ← Convert2Pref_BigInt e; Done (VBigInt b));
   ("intArray", vec VIntArray (Convert2Pref_number (scan_signed 32)));
   ("int64Array", vec VInt64Array (Convert2Pref_number (scan_signed 64)))].

(** The first alternative whose name is the element's tag; [None]: the tag is
    unknown and the element is skipped.

    [preferences_xml_utils.cpp:363-398] GetPrefValue *)
Definition GetPrefValue (element : Element) : outcome (option PreferencesValue) :=
  match find (fun a => bool_decide (tag_ element = a.1)) alternatives with
  | Some (_, convert) => value ← convert element; Done (Some value)
  | None => Done None
  end.

(** [insert] keeps the value of a key that is already there.

    [preferences_xml_utils.cpp:400-406] ReadXmlElement *)
Definition ReadXmlElement (element : Element) (prefConMap : gmap string PreferencesValue)
    : outcome (gmap string PreferencesValue) :=
  r ← GetPrefValue element;
  match r with
  | Some value =>
      Done (match prefConMap !! key_ element with
            | Some _ => prefConMap
            | None => <[key_ element := value]> prefConMap
            end)
  | None => Done prefConMap
  end.

(** The loop over the children of the root: success, and the map so far.

    [preferences_xml_utils.cpp:597-610] ReadSettingXml *)
Fixpoint read_nodes (l : list XmlNode) (conMap : gmap string PreferencesValue)
    : outcome (bool * gmap string PreferencesValue) :=
  match l with
  | [] => Done (true, conMap)
  | cur :: l' =>
      match ParseNodeElement cur with
      | Some element => conMap ← ReadXmlElement element conMap; read_nodes l' conMap
      | None => Done (false, conMap)
      end
  end.

(** ** libxml2 *)

Class LibXml := {
  xmlText : list WCall -> string;                 (** the buffer after these calls *)
  xmlCallOk : list WCall -> WCall -> bool;        (** the next call succeeds *)
  xmlBufferOk : Z -> bool;                        (** [xmlBufferCreateSize] *)
  xmlWriterOk : bool;                             (** [xmlNewTextWriterMemory] *)
  xmlParse : string -> option XmlNode + string;   (** a document and its root, or a message *)
  xmlIoError : string                             (** message of a failed open *)
}.

(** Text that the tests below call plain is printable ASCII without the
    characters that XML escapes. *)
Definition plain_char (a : ascii) : bool :=
  let c := code a in
  ((48 <=? c) && (c <=? 57)) || ((65 <=? c) && (c <=? 90)) || ((97 <=? c) && (c <=? 122)) ||
  (c =? 43) || (c =? 45) || (c =? 47) || (c =? 61) || (c =? 46).

Definition plain (s : string) : bool := forallb plain_char (String.list_ascii_of_string s).

(** A name of letters, digits and underscores. *)
Definition letter (a : ascii) : bool :=
  let c := code a in ((65 <=? c) && (c <=? 90)) || ((97 <=? c) && (c <=? 122)).

Definition xml_name (s : string) : bool :=
  match String.list_ascii_of_string s with
  | [] => false
  | a :: l => letter a && forallb (fun a => letter a || ((48 <=? code a) && (code a <=? 57)) || (code a =? 95)) l
  end.

(** The calls that write a node. *)
Fixpoint calls_of (t : XmlNode) : list WCall :=
  match t with
  | Elem name attrs children =>
      StartElement name :: map (fun a => WriteAttribute a.1 a.2) attrs ++ flat_map calls_of children ++ [EndElement]
  | Text s => [WriteString s]
  end.

Definition document_of (root : XmlNode) : list WCall := StartDocument "UTF-8" :: calls_of root ++ [EndDocument].

(** What is read back: a text without characters leaves no node. *)
Definition no_text (t : XmlNode) : bool := match t with Text "" => true | _ => false end.

Fixpoint parsed (t : XmlNode) : XmlNode :=
  match t with
  | Elem name attrs children => Elem name attrs (List.filter (fun c => negb (no_text c)) (map parsed children))
  | Text s => Text s
  end.

(** An element of at most [d] levels: valid names, no attribute twice, legal
    texts; in it are one text or elements. *)
Fixpoint writable (legal : string -> Prop) (d : nat) (t : XmlNode) : Prop :=
  match d, t with
  | S d, Elem name attrs children =>
      xml_name name = true /\ NoDup attrs.*1 /\ Forall (fun a => xml_name a.1 = true /\ legal a.2) attrs /\
      (Forall (writable legal d) children \/ exists s, children = [Text s] /\ legal s)
  | _, _ => False
  end.

(** [xml_legal s]: [s] may be content or an attribute value of a document.  The
    parser accepts 256 levels. *)
Class LibXmlLaws `{LibXml} := {
  xml_legal : string -> Prop;
  legal_plain s : plain s = true -> xml_legal s;
  xml_roundtrip root : writable xml_legal 256 root ->
    xmlParse (xmlText (document_of root)) = inl (Some (parsed root))
}.

(** ** Trees of values *)

Definition text_children (s : string) : list XmlNode := if bool_decide (s = "") then [] else [Text s].

Definition child_node (visitor : ValueVisitor) (child : string) : XmlNode :=
  if bool_decide (childrenTag visitor = "string") then
    Elem (childrenTag visitor) [] (text_children child)
  else Elem (childrenTag visitor) [("value", child)] [].

(** The node that represents a visited value. *)
Definition visitor_node (key : string) (visitor : ValueVisitor) : XmlNode :=
  let tag := typeTag visitor in
  if is_one_of ["string"; "uint8Array"; "object"] tag then
    Elem tag [("key", key)] (text_children (valueStr visitor))
  else if is_one_of ["int"; "long"; "float"; "bool"; "double"] tag then
    Elem tag [("key", key); ("value", valueStr visitor)] []
  else Elem tag [("key", key)] (map (child_node visitor) (arrayValues visitor)).

(** The nodes as they are written, with their empty texts. *)
Definition child_tree (visitor : ValueVisitor) (child : string) : XmlNode :=
  if bool_decide (childrenTag visitor = "string") then Elem (childrenTag visitor) [] [Text child]
  else Elem (childrenTag visitor) [("value", child)] [].

Definition visitor_tree (key : string) (visitor : ValueVisitor) : XmlNode :=
  let tag := typeTag visitor in
  if is_one_of ["string"; "uint8Array"; "object"] tag then Elem tag [("key", key)] [Text (valueStr visitor)]
  else if is_one_of ["int"; "long"; "float"; "bool"; "double"] tag then
    Elem tag [("key", key); ("value", valueStr visitor)] []
  else Elem tag [("key", key)] (map (child_tree visitor) (arrayValues visitor)).

Definition value_tags : list string :=
  ["string"; "uint8Array"; "object"; "int"; "long"; "float"; "bool"; "double"; "intArray";
    "int64Array"; "doubleArray"; "stringArray"; "boolArray"; "BigInt"].
Definition child_tags : list string := ["string"; "int"; "int64"; "bool"; "double"; "uint64_t"].

(** The visitor of a value other than "no value", with texts that [c_str]
    keeps. *)
Definition visitor_ok (visitor : ValueVisitor) : bool :=
  is_one_of value_tags (typeTag visitor) && no_nul (valueStr visitor) &&
  (bool_decide (arrayValues visitor = []) || is_one_of child_tags (childrenTag visitor)) &&
  forallb no_nul (arrayValues visitor).

Lemma is_one_of_all (p : string -> bool) tags s : is_one_of tags s = true -> forallb p tags = true -> p s = true.
Proof. intros Hs%bool_decide_eq_true Hp. rewrite forallb_forall in Hp. by apply Hp, list_elem_of_In. Qed.

Lemma parsed_text s : List.filter (fun c => negb (no_text c)) [Text s] = text_children s.
Proof. unfold text_children. cbn. by destruct s. Qed.

Lemma parsed_child visitor child : parsed (child_tree visitor child) = child_node visitor child.
Proof. unfold child_tree, child_node. case_bool_decide; [|done]. cbn [parsed map]. by rewrite parsed_text. Qed.

Lemma parsed_elements (ts : list XmlNode) : Forall (fun t => no_text (parsed t) = false) ts ->
  List.filter (fun c => negb (no_text c)) (map parsed ts) = map parsed ts.
Proof. induction 1 as [|t ts Ht _ IH]; [done|]. cbn. by rewrite Ht, IH. Qed.

Lemma parsed_visitor key visitor : parsed (visitor_tree key visitor) = visitor_node key visitor.
Proof.
  unfold visitor_tree, visitor_node. case_match; [cbn [parsed map]; by rewrite parsed_text|]. case_match; [done|].
  cbn [parsed]. rewrite parsed_elements.
  - f_equal. rewrite map_map. apply map_ext. apply parsed_child.
  - apply Forall_forall. intros t (s & <- & _)%list_elem_of_In%in_map_iff. rewrite parsed_child.
    unfold child_node. by case_match.
Qed.

Lemma child_calls_tree visitor child : is_one_of child_tags (childrenTag visitor) = true -> no_nul child = true ->
  child_calls visitor child = calls_of (child_tree visitor child).
Proof.
  intros Ht Hc. assert (no_nul (childrenTag visitor) = true) by (by eapply is_one_of_all).
  unfold child_calls, child_tree. rewrite !c_str_no_nul by done. by case_bool_decide.
Qed.

Lemma children_calls_tree visitor l : is_one_of child_tags (childrenTag visitor) = true -> forallb no_nul l = true ->
  concat (map (child_calls visitor) l) = flat_map calls_of (map (child_tree visitor) l).
Proof.
  intros Ht. induction l as [|x l IH]; [done|]. cbn [forallb map concat flat_map]. intros [Hx Hl]%andb_true_iff.
  by rewrite child_calls_tree, IH.
Qed.

(** The calls of one value are those of its node. *)
Lemma element_calls_tree key value visitor :
  visit value = Done visitor -> visitor_ok visitor = true -> no_nul key = true ->
  WriteXmlElement key value = Done (calls_of (visitor_tree key visitor)).
Proof.
  intros Hv Hok Hk. unfold WriteXmlElement. rewrite Hv, bind_Done. f_equal. unfold visitor_ok in Hok. bools. unfold visitor_tree.
  destruct (is_one_of ["string"; "uint8Array"; "object"] (typeTag visitor)) eqn:E1; [by rewrite !c_str_no_nul by done|].
  destruct (is_one_of ["int"; "long"; "float"; "bool"; "double"] (typeTag visitor)) eqn:E2; [by rewrite !c_str_no_nul by done|].
  assert (is_one_of ["intArray"; "int64Array"; "doubleArray"; "stringArray"; "boolArray"; "BigInt"] (typeTag visitor) = true) as ->.
  { unfold is_one_of, value_tags in *. bools. apply bool_decide_eq_true. set_solver. }
  cbn [calls_of map app]. rewrite c_str_no_nul by done. do 2 f_equal.
  destruct (arrayValues visitor) as [|x l] eqn:El; [done|]. by rewrite children_calls_tree.
Qed.

(** ** Plain texts *)

Lemma plain_no_nul s : plain s = true -> no_nul s = true.
Proof.
  unfold plain, no_nul. rewrite !forallb_forall. intros Hp a Ha. specialize (Hp a Ha).
  destruct (bool_decide_reflect (a = "000"%char)) as [->|]; [vm_compute in Hp; discriminate|done].
Qed.

Lemma plain_digit d : 0 <= d < 10 -> plain_char (digit d) = true.
Proof.
  intros H. unfold plain_char. rewrite code_digit by done.
  rewrite (proj2 (Z.leb_le 48 _)), (proj2 (Z.leb_le _ 57)) by lia. done.
Qed.

Lemma plain_digits fuel n tail : 0 <= n -> plain tail = true -> plain (digits fuel n tail) = true.
Proof.
  revert n tail. induction fuel as [|fuel IH]; intros n tail Hn Ht; [done|]. cbn [digits].
  assert (Hd : plain (String (digit (n mod 10)) tail) = true).
  { unfold plain. cbn [String.list_ascii_of_string forallb]. fold (plain tail).
    rewrite plain_digit by (apply Z.mod_pos_bound; lia). exact Ht. }
  case_match; [done|]. apply IH; [apply Z.div_pos; lia|done].
Qed.

Lemma plain_to_string z : plain (to_string z) = true.
Proof.
  unfold to_string, nat_text. destruct (Z.ltb_spec z 0).
  - change (plain ("-" +:+ ?s)) with (plain s). by apply plain_digits; [lia|].
  - by apply plain_digits.
Qed.

Lemma plain_b64 l : bytes_ok l = true -> plain (String.string_of_list_ascii (b64_ref l)) = true.
Proof.
  intros Hok. unfold plain. rewrite String.list_ascii_of_string_of_list_ascii.
  assert (Hc : forall n, 0 <= n < 64 -> plain_char (b64_char n) = true)
    by (apply sextet_forall; vm_compute; reflexivity).
  unfold bytes_ok in Hok. induction l as [|a|a b|a b c l IH] using list3_ind; [done|..];
    cbn [forallb] in Hok; bools; cbn [b64_ref app forallb];
    repeat match goal with H : in_u 8 _ = true |- _ => apply in_u_spec in H end;
    change (2 ^ 8) with 256 in *;
    rewrite !Hc by (Z.to_euclidean_division_equations; lia); auto.
Qed.

(** ** Values that the format represents exactly *)

Section lossless.
Context `{LibXmlLaws}.

Definition good_text (s : string) : Prop := no_nul s = true /\ xml_legal s.

Definition lossless_value (v : PreferencesValue) : Prop :=
  match v with
  | VMonostate | VFloat _ | VDouble _ | VDoubleArray _ => False
  | VInt _ | VLong _ | VBool _ | VBoolArray _ | VBigInt _ | VIntArray _ | VInt64Array _ =>
      value_ok v = true
  | VUint8Array l => value_ok v = true /\ Z.of_nat (length l) < 3 * (2 ^ 30 - 1)
  | VString s => good_text s
  | VObject o => good_text (Value.valueStr o)
  | VStringArray l => Forall good_text l
  end.

Lemma good_plain s : plain s = true -> good_text s.
Proof. intros Hs. split; [by apply plain_no_nul|by apply legal_plain]. Qed.

Lemma good_to_string z : good_text (to_string z).
Proof. apply good_plain, plain_to_string. Qed.

Lemma good_forallb l : Forall good_text l -> forallb no_nul l = true.
Proof. induction 1 as [|s l [Hs _] _ IH]; [done|]. cbn. by rewrite Hs, IH. Qed.

(** Every text of a visited value is good. *)
Definition visitor_good (visitor : ValueVisitor) : Prop :=
  good_text (valueStr visitor) /\ Forall good_text (arrayValues visitor).

(** Case on a tag among the given ones. *)
Ltac pick H := cbn [In] in H; repeat destruct H as [<-|H]; [..|destruct H].

Lemma text_content tag attrs s : xmlNodeGetContent (Elem tag attrs (text_children s)) = s.
Proof. unfold text_children. case_bool_decide; subst; [done|]. cbn. apply str_app_nil_r. Qed.

(** The parsed children of an array node. *)
Lemma parse_child_nodes tag l :
  In tag ["string"; "int"; "int64"; "bool"; "double"; "uint64_t"] ->
  parse_children ParseNodeElement (map (child_node (array_tag "" tag l)) l)
  = Some (map (fun s => mkElement tag "" s []) l).
Proof.
  intros Ht. generalize (array_tag "" tag l) as vis, (eq_refl : childrenTag (array_tag "" tag l) = tag).
  intros vis Hvis. induction l as [|s l IH]; [done|]. cbn [map parse_children].
  assert (ParseNodeElement (child_node vis s) = Some (mkElement tag "" s [])) as ->.
  { unfold child_node. rewrite Hvis. pick Ht; try done.
    transitivity (ParseStringNodeElement (Elem "string" [] (text_children s))); [done|].
    unfold ParseStringNodeElement. by rewrite text_content. }
  cbn [mbind option_bind]. by rewrite IH.
Qed.

Lemma convert_children {T} (convert : Element -> outcome T) (text : T -> string) tag (l : list T) :
  Forall (fun x => convert (mkElement tag "" (text x) []) = Done x) l ->
  Convert2Pref_vector convert (map (fun s => mkElement tag "" s []) (map text l)) = Done l.
Proof.
  induction 1 as [|x l Hx _ IH]; [done|]. cbn [map Convert2Pref_vector].
  by rewrite Hx, bind_Done, IH, bind_Done.
Qed.

Lemma Forall_of_forallb {T} (p : T -> bool) (P : T -> Prop) l :
  (forall x, p x = true -> P x) -> forallb p l = true -> Forall P l.
Proof.
  intros Hp. induction l as [|x l IH]; [constructor|]. cbn [forallb].
  intros [Hx Hl]%andb_true_iff. constructor; auto.
Qed.

Lemma good_texts {T} (text : T -> string) (l : list T) :
  (forall x, plain (text x) = true) -> Forall good_text (map text l).
Proof. intros Ht. induction l; constructor; [by apply good_plain|done]. Qed.

(** What the round trip of one value needs. *)
Definition represents (v : PreferencesValue) (visitor : ValueVisitor) : Prop :=
  visit v = Done visitor /\ visitor_ok visitor = true /\ visitor_good visitor /\
  forall key, exists element, ParseNodeElement (visitor_node key visitor) = Some element /\
    key_ element = key /\ GetPrefValue element = Done (Some v).

Lemma represents_scalar v tag s :
  visit v = Done (scalar_tag tag s) -> good_text s ->
  In tag ["int"; "long"; "bool"] ->
  (forall key, GetPrefValue (mkElement tag key s []) = Done (Some v)) ->
  represents v (scalar_tag tag s).
Proof.
  intros Hv Hs Ht Hg.
  split; [done|]. split; [|split; [by split|]].
  - unfold visitor_ok, scalar_tag. cbn [typeTag valueStr childrenTag arrayValues forallb]. rewrite (proj1 Hs). by pick Ht.
  - intros key. exists (mkElement tag key s []). split; [|by split].
    by pick Ht.
Qed.

Lemma represents_text v tag s :
  visit v = Done (scalar_tag tag s) -> good_text s ->
  In tag ["string"; "uint8Array"; "object"] ->
  (forall key, GetPrefValue (mkElement tag key s []) = Done (Some v)) ->
  represents v (scalar_tag tag s).
Proof.
  intros Hv Hs Ht Hg.
  split; [done|]. split; [|split; [by split|]].
  - unfold visitor_ok, scalar_tag. cbn [typeTag valueStr childrenTag arrayValues forallb]. rewrite (proj1 Hs). by pick Ht.
  - intros key. exists (mkElement tag key s []). split; [|by split].
    assert (E : ParseNodeElement (visitor_node key (scalar_tag tag s))
      = ParseStringNodeElement (Elem tag [("key", key)] (text_children s))) by (by pick Ht).
    rewrite E. unfold ParseStringNodeElement. by rewrite text_content.
Qed.

Lemma represents_array v tag child l :
  visit v = Done (array_tag tag child l) -> Forall good_text l ->
  In child ["string"; "int"; "int64"; "bool"; "double"; "uint64_t"] ->
  In tag ["intArray"; "int64Array"; "stringArray"; "boolArray"; "BigInt"] ->
  (forall key, GetPrefValue (mkElement tag key "" (map (fun s => mkElement child "" s []) l)) = Done (Some v)) ->
  represents v (array_tag tag child l).
Proof.
  intros Hv Hl Hch Ht Hg. pose proof (parse_child_nodes child l Hch) as Hp.
  assert (Hcn : is_one_of child_tags child = true) by (by pick Hch).
  split; [done|]. split; [|split; [split; [|done]; by apply good_plain|]].
  - unfold visitor_ok, array_tag. cbn [typeTag valueStr childrenTag arrayValues]. rewrite Hcn, good_forallb, orb_true_r by done. by pick Ht.
  - intros key. exists (mkElement tag key "" (map (fun s => mkElement child "" s []) l)).
    split; [|by split].
    assert (E : visitor_node key (array_tag tag child l)
      = Elem tag [("key", key)] (map (child_node (array_tag "" child l)) l)).
    { unfold visitor_node. cbn [typeTag array_tag arrayValues].
      by pick Ht. }
    rewrite E. pick Ht; cbn -[parse_children child_node]; by rewrite Hp.
Qed.

Ltac numbers :=
  first [ apply good_to_string | apply good_texts; intros; apply plain_to_string
        | apply good_texts; by intros [] ].

(** The conversion chosen by a concrete tag. *)
Lemma GetPref_conv tag key s cs convert :
  find (fun a => bool_decide (tag = a.1)) alternatives = Some (tag, convert) ->
  GetPrefValue (mkElement tag key s cs) = (value ← convert (mkElement tag key s cs); Done (Some value)).
Proof. intros E. unfold GetPrefValue. cbn [tag_]. by rewrite E. Qed.

Ltac choose := intros key; erewrite GetPref_conv by reflexivity; cbv beta;
  unfold Convert2Pref_number; cbn [value_ children_].

(** Every lossless value is represented exactly. *)
Lemma lossless_represents v : lossless_value v -> exists visitor, represents v visitor.
Proof.
  destruct v as [|z|z| | |b|t|l|l| |l|[t]|[ws sg]|l|l]; intros Hl; try done; cbn [lossless_value value_ok] in Hl.
  - eexists. apply represents_scalar; [reflexivity|numbers|cbn; tauto|].
    choose. by rewrite scan_signed_to_string.
  - eexists. apply represents_scalar; [reflexivity|numbers|cbn; tauto|].
    choose. by rewrite scan_signed_to_string.
  - eexists. apply represents_scalar; [reflexivity|apply good_plain; by destruct b|cbn; tauto|].
    intros key. by destruct b.
  - eexists. apply represents_text; [reflexivity|done|cbn; tauto|done].
  - eexists. apply represents_array; [reflexivity|done|cbn; tauto|cbn; tauto|].
    choose. rewrite <- (map_id l) at 1.
    rewrite (convert_children Convert2Pref_string id); [done|]. by apply Forall_true.
  - eexists. apply represents_array; [reflexivity|numbers|cbn; tauto|cbn; tauto|].
    choose.
    rewrite (convert_children Convert2Pref_bool bool_text); [done|]. apply Forall_true. by intros [].
  - destruct Hl as [Hb Hlen]. eexists. apply represents_text;
      [cbn; rewrite Encode_ref_eq by (done || lia); reflexivity|by apply good_plain, plain_b64|cbn; tauto|].
    choose. unfold Convert2Pref_uint8. cbn [value_].
    rewrite Decode_ref by done. done.
  - eexists. apply represents_text; [reflexivity|done|cbn; tauto|done].
  - bools. eexists. apply represents_array; [reflexivity| |cbn; tauto|cbn; tauto|].
    { apply Forall_app. split; [numbers|]. constructor; [numbers|constructor]. }
    choose. unfold Convert2Pref_BigInt. cbn [children_ words_ sign_].
    change [to_string (wrap_u 64 sg)] with (map to_string [wrap_u 64 sg]). rewrite <- (map_app to_string ws).
    rewrite (convert_children _ to_string).
    + rewrite bind_Done, rev_app_distr. cbn. rewrite rev_involutive.
      by rewrite wrap_s_wrap_u_wider by (done || lia).
    + apply Forall_app. split.
      * eapply Forall_of_forallb; [|exact H1]. intros x Hx. by apply scan_unsigned_to_string.
      * constructor; [|constructor]. apply scan_unsigned_to_string; [done|]. by apply wrap_u_in_u.
  - eexists. apply represents_array; [reflexivity|numbers|cbn; tauto|cbn; tauto|].
    choose.
    rewrite (convert_children _ to_string); [done|]. eapply Forall_of_forallb; [|exact Hl].
    intros x Hx. by apply scan_signed_to_string.
  - eexists. apply represents_array; [reflexivity|numbers|cbn; tauto|cbn; tauto|].
    choose.
    rewrite (convert_children _ to_string); [done|]. eapply Forall_of_forallb; [|exact Hl].
    intros x Hx. by apply scan_signed_to_string.
Qed.

(** ** Whole documents *)

(** The calls of the elements, in the iteration order of the map. *)
Fixpoint elements_calls (entries : list (string * PreferencesValue)) : outcome (list WCall) :=
  match entries with
  | [] => Done []
  | (key, value) :: rest =>
      calls ← WriteXmlElement key value; more ← elements_calls rest; Done (calls ++ more)
  end.

(** The calls of a document.

    [preferences_xml_utils.cpp:867-879] WriteSettingXml *)
Definition document_calls (entries : list (string * PreferencesValue)) : outcome (list WCall) :=
  calls ← elements_calls entries;
  Done ([StartDocument "UTF-8"; StartElement "preferences"; WriteAttribute "version" "1.0"] ++
        calls ++ [EndElement; EndDocument]).

Lemma writable_child d visitor child : is_one_of child_tags (childrenTag visitor) = true -> xml_legal child ->
  writable xml_legal (S d) (child_tree visitor child).
Proof.
  intros Ht Hc. assert (Hn : xml_name (childrenTag visitor) = true) by (by eapply is_one_of_all).
  unfold child_tree. case_bool_decide; cbn [writable]; split_and!; [done|constructor|constructor|right; by exists child|done|..].
  - apply NoDup_singleton.
  - by repeat constructor.
  - left. constructor.
Qed.

Lemma writable_element d key v visitor : represents v visitor -> good_text key ->
  writable xml_legal (S (S d)) (visitor_tree key visitor).
Proof.
  intros (_ & Hok & ([_ Hs] & Ha) & _) [_ Hk]. unfold visitor_ok in Hok. bools.
  assert (Hn : xml_name (typeTag visitor) = true) by (by eapply is_one_of_all).
  unfold visitor_tree. repeat case_match; (split; [done|]).
  - split; [apply NoDup_singleton|]. split; [by repeat constructor|]. right. by exists (valueStr visitor).
  - split; [by apply NoDup_ListNoDup; repeat constructor; cbn; intuition|]. split; [by repeat constructor|]. left. constructor.
  - split; [apply NoDup_singleton|]. split; [by repeat constructor|]. left.
    apply Forall_forall. intros t (s & <- & Hin)%list_elem_of_In%in_map_iff. apply writable_child.
    + destruct (arrayValues visitor); [done|done].
    + rewrite Forall_forall in Ha. by apply Ha, list_elem_of_In.
Qed.

(** The entries of a lossless map. *)
Definition lossless_entries (l : list (string * PreferencesValue)) : Prop :=
  Forall (fun kv => good_text kv.1 /\ lossless_value kv.2) l.

Lemma elements_calls_tree d l : lossless_entries l ->
  exists trees, elements_calls l = Done (flat_map calls_of trees) /\ Forall (writable xml_legal (S (S d))) trees /\
  Forall2 (fun kv node => exists element, ParseNodeElement node = Some element /\
    key_ element = kv.1 /\ GetPrefValue element = Done (Some kv.2)) l (map parsed trees).
Proof.
  induction 1 as [|[k v] l [Hk Hv] _ (trees & Hc & Hw & Hp)].
  { exists []. split_and!; [done|constructor..]. }
  cbn [fst snd] in *. destruct (lossless_represents v Hv) as (vis & Hrep).
  pose proof Hrep as (Hvis & Hok & Hgood & Hparse).
  exists (visitor_tree k vis :: trees). split_and!.
  - cbn [elements_calls flat_map]. rewrite (element_calls_tree k v vis) by (done || apply Hk). by rewrite bind_Done, Hc, bind_Done.
  - constructor; [by eapply writable_element|done].
  - cbn [map]. rewrite parsed_visitor. constructor; [apply Hparse|done].
Qed.

(** Reading entry after entry keeps what is there and adds the rest. *)
Lemma read_nodes_entries l nodes con :
  NoDup l.*1 ->
  Forall2 (fun (kv : string * PreferencesValue) node => exists element, ParseNodeElement node = Some element /\
    key_ element = kv.1 /\ GetPrefValue element = Done (Some kv.2)) l nodes ->
  read_nodes nodes con = Done (true, con ∪ list_to_map l).
Proof.
  intros Hnd Hf. revert con Hnd. induction Hf as [|[k v] node l nodes (el & Hp & Hk & Hv) _ IH];
    intros con Hnd.
  { cbn. by rewrite map_union_empty. }
  cbn in Hk, Hv, Hnd. apply NoDup_cons in Hnd as [Hkl Hnd].
  cbn [read_nodes]. rewrite Hp. unfold ReadXmlElement. rewrite Hv, bind_Done, bind_Done, IH by done.
  do 2 f_equal. subst k. apply map_eq. intros k. cbn [list_to_map foldr fst snd].
  rewrite !lookup_union. destruct (con !! key_ el) eqn:E.
  - destruct (decide (k = key_ el)) as [->|Hne].
    + rewrite E, lookup_insert_eq. by rewrite !union_Some_l.
    + by rewrite lookup_insert_ne by done.
  - destruct (decide (k = key_ el)) as [->|Hne].
    + rewrite !lookup_insert_eq, E. rewrite not_elem_of_list_to_map_1 by done. done.
    + by rewrite !lookup_insert_ne by done.
Qed.

(** The root's children, read from the text of the calls. *)
Lemma document_roundtrip l con : NoDup l.*1 -> lossless_entries l ->
  exists calls root, document_calls l = Done calls /\
    xmlParse (xmlText calls) = inl (Some root) /\
    (exists attrs nodes, root = Elem "preferences" attrs nodes /\
       read_nodes nodes con = Done (true, con ∪ list_to_map l)).
Proof.
  intros Hnd Hl. destruct (elements_calls_tree 253 l Hl) as (trees & Hc & Hw & Hp).
  set (root := Elem "preferences" [("version", "1.0")] trees).
  assert (Hroot : writable xml_legal 256 root).
  { split; [done|]. split; [apply NoDup_singleton|]. split; [repeat constructor; by apply legal_plain|by left]. }
  exists (document_of root), (parsed root). split_and!.
  - unfold document_calls. rewrite Hc, bind_Done. unfold document_of. cbn [root calls_of map app fst snd].
    by rewrite <- app_assoc.
  - by apply xml_roundtrip.
  - exists [("version", "1.0")], (map parsed trees). split; [|by apply read_nodes_entries].
    cbn [parsed root]. f_equal. apply parsed_elements. eapply Forall_impl; [exact Hw|]. by intros [].
Qed.
End lossless.

(** ** Properties *)

(** The entry that a node stands for, if it parses and its tag is known. *)
Definition node_entry (node : XmlNode) (k : string) (v : PreferencesValue) : Prop :=
  exists el, ParseNodeElement node = Some el /\ key_ el = k /\ GetPrefValue el = Done (Some v).

(** Loading a document, whatever its nodes: it succeeds exactly if every
    node parses; entries already in the map are kept; every entry added is the
    value of a node, and of several nodes with the same key the first one
    counts. *)
Theorem read_nodes_first_wins (nodes : list XmlNode) (con m : gmap string PreferencesValue) (r : bool)
    (Hread : read_nodes nodes con = Done (r, m)) :
  r = forallb (fun node => bool_decide (is_Some (ParseNodeElement node))) nodes /\
  con ⊆ m /\
  forall k v, m !! k = Some v ->
    con !! k = Some v \/
    con !! k = None /\ exists i node, nodes !! i = Some node /\ node_entry node k v /\
      forall j node' v', (j < i)%nat -> nodes !! j = Some node' -> ~ node_entry node' k v'.
Proof.
  revert con Hread. induction nodes as [|node nodes IH]; intros con; cbn [read_nodes forallb].
  { intros [= <- <-]. split_and!; [done..|]. by left. }
  destruct (ParseNodeElement node) as [el|] eqn:Hp; cbn [andb].
  2: { intros [= <- <-]. rewrite bool_decide_eq_false_2 by (by intros []). split_and!; [done..|]. by left. }
  rewrite bool_decide_eq_true_2 by done. unfold ReadXmlElement.
  destruct (GetPrefValue el) as [[v0|]| | |] eqn:Hv; try done; rewrite !bind_Done; intros Hr.
  - set (con' := match con !! key_ el with Some _ => con | None => <[key_ el := v0]> con end) in Hr.
    destruct (IH con' Hr) as (Hr1 & Hsub & Hold).
    assert (Hcon : con ⊆ con') by (unfold con'; case_match; [done|by apply insert_subseteq]).
    assert (Hkey : is_Some (con' !! key_ el)) by (unfold con'; case_match; [by rewrite H|by rewrite lookup_insert_eq]).
    split_and!; [done|by etrans|]. intros k v Hk. destruct (Hold k v Hk) as [Hc|(Hc & i & nd & Hi & He & Hf)].
    + destruct (con !! k) as [w|] eqn:Ek.
      { left. by rewrite (lookup_weaken _ _ _ _ Ek Hcon) in Hc. }
      right. split; [done|]. exists 0%nat, node. split; [done|]. split; [|intros; lia].
      exists el. split; [done|]. unfold con' in Hc. destruct (con !! key_ el); [congruence|].
      apply lookup_insert_Some in Hc as [[<- <-]|[_ ?]]; [done|congruence].
    + right. split; [by eapply lookup_weaken_None|]. exists (S i), nd. split_and!; [done..|].
      intros [|j] node' v' Hj Hn'; [|apply (Hf j); [lia|done]].
      injection Hn' as <-. intros (el' & Hp' & <- & _). simplify_eq. by destruct Hkey as [? ?]; congruence.
  - destruct (IH con Hr) as (Hr1 & Hsub & Hold). split_and!; [done..|].
    intros k v Hk. destruct (Hold k v Hk) as [Hc|(Hc & i & nd & Hi & He & Hf)]; [by left|right].
    split; [done|]. exists (S i), nd. split_and!; [done..|].
    intros [|j] node' v' Hj Hn'; [|apply (Hf j); [lia|done]].
    injection Hn' as <-. intros (el' & Hp' & _ & Hv'). simplify_eq. congruence.
Qed.

Example read_nodes_first_wins_witness :
  let l := [Elem "int" [("key", "a"); ("value", "1")] []; Elem "int" [("key", "a"); ("value", "2")] []] in
  exists r m, read_nodes l ∅ = Done (r, m) /\ m !! "a" = Some (VInt 1) /\
    r = forallb (fun node => bool_decide (is_Some (ParseNodeElement node))) l.
Proof.
  set (l := [Elem "int" [("key", "a"); ("value", "1")] []; Elem "int" [("key", "a"); ("value", "2")] []]).
  exists true, {[ "a" := VInt 1 ]}. split; [vm_compute; reflexivity|]. split; [done|].
  apply (read_nodes_first_wins l ∅ {[ "a" := VInt 1 ]} true). vm_compute. reflexivity.
Defined.

(** A double is stored with six decimals: the value nearest to 10^-7 is
    written as zero, and reading it gives zero. *)
Theorem double_precision_lost (key : string) :
  visit (VDouble 0x3E7AD7F29ABCAF48) = Done (scalar_tag "double" "0.000000") /\
  GetPrefValue (mkElement "double" key "0.000000" []) = Done (Some (VDouble 0)).
Proof. split; vm_compute; reflexivity. Qed.

(** An empty number field is not an error: the conversion leaves the
    variable that it then stores uninitialised, for every number type. *)
Theorem empty_number_uninitialised (tag key : string) (children : list Element)
    (Htag : In tag ["int"; "long"; "float"; "double"]) :
  GetPrefValue (mkElement tag key "" children) = Undef.
Proof. cbn in Htag. intuition subst; reflexivity. Qed.

Example empty_number_uninitialised_witness :
  read_nodes [Elem "int" [("key", "a"); ("value", "")] []] ∅ = Undef.
Proof.
  cbn [read_nodes]. change (ParseNodeElement (Elem "int" [("key", "a"); ("value", "")] [])) with
    (Some (mkElement "int" "a" "" [])). unfold ReadXmlElement.
  rewrite (empty_number_uninitialised "int" "a" [] (or_introl eq_refl)). reflexivity.
Defined.
