(* ===== verification/Store.v ===== *)
(** * Interfaces of a preferences object

    What [preferences_impl.cpp] asks of the XML module (a typeclass, whose
    laws the object's theorems assume) and of the third-party
    [SafeBlockQueue] (a parameter with its documented behaviour), together
    with reference instances on which the theorems are exercised. *)

From S2P Require Import Prelude Errno Value Env NumText Utils.
From Stdlib Require String.

(** ** The file format module *)

Class XmlStore := {
  ReadSettingXml : string -> string -> gmap string PreferencesValue ->
    ST Env (bool * gmap string PreferencesValue);
  WriteSettingXml : string -> string -> gmap string PreferencesValue -> ST Env bool
}.

Definition PATH_MAX : Z := 4096.

(** [stored e f]: what the file [f] holds; [lossless]: the entries that
    the format represents exactly. *)
Class XmlStoreLaws `{XmlStore} := {
  stored : Env -> string -> option (gmap string PreferencesValue);
  lossless : string -> PreferencesValue -> Prop;
  write_stored f b m e : no_short_writes e -> f <> "" -> no_nul f = true ->
    (forall k v, m !! k = Some v -> no_nul k = true /\ lossless k v) ->
    fst (WriteSettingXml f b m e) = true ->
    stored (snd (WriteSettingXml f b m e)) f = Some m;
  read_stored f b con m e : no_faults e -> no_nul f = true -> slen f <= PATH_MAX -> stored e f = Some m ->
    fst (fst (ReadSettingXml f b con e)) = true ->
    snd (fst (ReadSettingXml f b con e)) = con ∪ m /\
    stored (snd (ReadSettingXml f b con e)) f = Some m;
  stored_files f e e' : files (fs e') = files (fs e) -> stored e' f = stored e f;
  read_frames f b con : frames (ReadSettingXml f b con);
  write_frames f b m : frames (WriteSettingXml f b m)
}.

#[export] Hint Resolve read_frames write_frames : prefs.

(** ** The bounded queue of flush requests *)

Class SafeBlockQueue := {
  queue : Type;
  queue_new : nat -> queue;
  PushNoWait : queue -> Z -> bool * queue;
  PopNotWait : queue -> option Z * queue
}.

(** A first-in-first-out queue that refuses elements beyond its capacity. *)
Class SafeBlockQueueLaws `{SafeBlockQueue} := {
  elems : queue -> list Z;
  capacity : queue -> nat;
  elems_new n : elems (queue_new n) = [];
  capacity_new n : capacity (queue_new n) = n;
  push_spec q x :
    PushNoWait q x =
      (bool_decide (length (elems q) < capacity q)%nat, snd (PushNoWait q x)) /\
    capacity (snd (PushNoWait q x)) = capacity q /\
    elems (snd (PushNoWait q x)) =
      (if decide (length (elems q) < capacity q)%nat then elems q ++ [x] else elems q);
  pop_spec q :
    fst (PopNotWait q) = head (elems q) /\
    capacity (snd (PopNotWait q)) = capacity q /\
    elems (snd (PopNotWait q)) = tail (elems q)
}.

(** ** The key-value database of the enhanced store *)

(** What [preferences_enhance_impl.cpp] asks of the adapter: the state behind
    the pointer [db_], with the library below it. *)
Class KvDb := {
  kv : Type;
  kv_ApiInit : ST kv unit;
  kv_Enable : ST kv bool;
  kv_make : ST kv unit;                         (** [make_shared<PreferencesDb>] *)
  kv_destroy : SO kv unit;                      (** the destructor *)
  kv_Init : string -> string -> Env -> ST kv (Z * Env);
  kv_Put : list Z -> list Z -> ST kv Z;
  kv_Get : list Z -> ST kv (Z * list Z);
  kv_Delete : list Z -> ST kv Z;
  kv_GetAll : ST kv (Z * list (list Z * list Z));
  kv_DropCollection : ST kv Z;
  kv_CreateCollection : ST kv Z;
  kv_CloseDb : ST kv Z;
  kv_GetKernelDataVersion : ST kv (Z * Z)
}.

Definition blob_ok (b : list Z) : Prop := Z.of_nat (length b) < 2 ^ 32.

(** [data s]: the contents of the open database, [None] when it is closed.
    Any call may fail, and then changes nothing. *)
Class KvDbLaws `{KvDb} := {
  data : kv -> option (gmap (list Z) (list Z));
  kv_put_spec s k v m : data s = Some m -> blob_ok k -> blob_ok v ->
    exists r s', kv_Put k v s = (r, s') /\
    (r = E_OK /\ data s' = Some (<[k := v]> m) \/ r <> E_OK /\ data s' = Some m);
  kv_get_spec s k m : data s = Some m -> blob_ok k ->
    exists r v s', kv_Get k s = ((r, v), s') /\ data s' = Some m /\
    (r = E_OK /\ m !! k = Some v \/ r = E_NO_DATA /\ m !! k = None \/ r <> E_OK /\ r <> E_NO_DATA);
  kv_del_spec s k m : data s = Some m -> blob_ok k ->
    exists r s', kv_Delete k s = (r, s') /\
    (r = E_OK /\ data s' = Some (delete k m) \/ r <> E_OK /\ data s' = Some m);
  kv_all_spec s m : data s = Some m ->
    exists r l s', kv_GetAll s = ((r, l), s') /\ data s' = Some m /\ (r = E_OK -> l ≡ₚ map_to_list m);
  kv_drop_spec s m : data s = Some m ->
    exists r s', kv_DropCollection s = (r, s') /\
    (r = E_OK /\ data s' = Some ∅ \/ r <> E_OK /\ data s' = Some m);
  kv_create_spec s m : data s = Some m ->
    exists r s', kv_CreateCollection s = (r, s') /\ data s' = Some m;
  kv_version_spec s m : data s = Some m ->
    exists r n s', kv_GetKernelDataVersion s = ((r, n), s') /\ data s' = Some m;
  kv_close_spec s m : data s = Some m ->
    exists r s', kv_CloseDb s = (r, s') /\
    (r = E_OK /\ data s' = None \/ r <> E_OK /\ data s' = Some m)
}.

(** ** Reference instances *)

#[export] Instance list_queue : SafeBlockQueue := {|
  queue := nat * list Z;
  queue_new n := (n, []);
  PushNoWait q x :=
    if decide (length q.2 < q.1)%nat then (true, (q.1, q.2 ++ [x])) else (false, q);
  PopNotWait q := (head q.2, (q.1, tail q.2))
|}.

#[export] Instance list_queue_laws : SafeBlockQueueLaws.
Proof.
  refine {| elems := fun q : queue => snd q; capacity := fun q : queue => fst q |}; try done.
  intros [n l] x. cbn. case_decide as E; cbn; split_and!; try done.
  - by rewrite bool_decide_eq_true_2.
  - by rewrite bool_decide_eq_false_2.
Defined.

(** A value as a constructor tag, its strings and its numbers. *)
Definition flat (v : PreferencesValue) : nat * (list string * list Z) :=
  let bz (b : bool) : Z := if b then 1 else 0 in
  match v with
  | VMonostate => (0%nat, ([], []))
  | VInt z => (1%nat, ([], [z]))
  | VLong z => (2%nat, ([], [z]))
  | VFloat z => (3%nat, ([], [z]))
  | VDouble z => (4%nat, ([], [z]))
  | VBool b => (5%nat, ([], [bz b]))
  | VString s => (6%nat, ([s], []))
  | VStringArray l => (7%nat, (l, []))
  | VBoolArray l => (8%nat, ([], map bz l))
  | VDoubleArray l => (9%nat, ([], l))
  | VUint8Array l => (10%nat, ([], l))
  | VObject o => (11%nat, ([valueStr o], []))
  | VBigInt b => (12%nat, ([], sign_ b :: words_ b))
  | VIntArray l => (13%nat, ([], l))
  | VInt64Array l => (14%nat, ([], l))
  end.

Definition unflat (t : nat * (list string * list Z)) : PreferencesValue :=
  let '(c, (ss, zs)) := t in
  let z := default 0 (head zs) in
  let s := default "" (head ss) in
  match c with
  | 1%nat => VInt z | 2%nat => VLong z | 3%nat => VFloat z | 4%nat => VDouble z
  | 5%nat => VBool (z =? 1) | 6%nat => VString s | 7%nat => VStringArray ss
  | 8%nat => VBoolArray (map (fun z => z =? 1) zs) | 9%nat => VDoubleArray zs
  | 10%nat => VUint8Array zs | 11%nat => VObject (mkObject s)
  | 12%nat => VBigInt (mkBigInt (tail zs) z) | 13%nat => VIntArray zs
  | 14%nat => VInt64Array zs | _ => VMonostate
  end.

Lemma unflat_flat v : unflat (flat v) = v.
Proof.
  destruct v; try done; cbn; try by destruct v.
  f_equal. rewrite map_map. rewrite <- (map_id v) at 2. apply map_ext. by intros [].
Qed.

#[export] Instance PreferencesValue_countable : Countable PreferencesValue :=
  inj_countable' flat unflat unflat_flat.

(** The encoding of any countable datum as a decimal text. *)
Section enc_text.
Context `{Countable A}.

Definition enc_text (a : A) : string := to_string (Zpos (encode a)).

Definition dec_text (s : string) : option A :=
  match scan_field s with (_, Some (Zpos p)) => decode p | _ => None end.

Lemma dec_enc_text a : dec_text (enc_text a) = Some a.
Proof.
  unfold dec_text, enc_text. destruct (to_string_field (Zpos (encode a))) as (c & s & _ & _ & ->).
  change (Z.abs (Zpos (encode a))) with (Zpos (encode a)). cbn iota beta. apply decode_encode.
Qed.
End enc_text.

(** A store that keeps the encoding of the map. *)
Section text_store.
Definition map_text (m : gmap string PreferencesValue) : string := enc_text (map_to_list m).

Definition text_map (s : string) : option (gmap string PreferencesValue) :=
  list_to_map <$> (dec_text s : option (list (string * PreferencesValue))).

Lemma text_map_text m : text_map (map_text m) = Some m.
Proof. unfold text_map, map_text. rewrite dec_enc_text. cbn. by rewrite list_to_map_to_list. Qed.

#[export] Instance text_store : XmlStore := {|
  ReadSettingXml f _ con :=
    e ← get;
    match files (fs e) !! c_str f ≫= text_map with
    | Some m => mret (true, con ∪ m)
    | None => mret (false, con)
    end;
  WriteSettingXml f _ m :=
    fd ← Open f;
    n ← Write fd (map_text m);
    mret (negb (n <? 0))
|}.

Lemma text_read f b con e :
  ReadSettingXml f b con e =
  match files (fs e) !! c_str f ≫= text_map with
  | Some m => ((true, con ∪ m), e)
  | None => ((false, con), e)
  end.
Proof.
  change (ReadSettingXml f b con e) with
    ((match files (fs e) !! c_str f ≫= text_map with
      | Some m => mret (true, con ∪ m)
      | None => mret (false, con)
      end : ST Env _) e).
  by destruct (files (fs e) !! c_str f ≫= text_map).
Qed.

#[export] Instance text_store_laws : XmlStoreLaws.
Proof.
  refine {| stored e f := files (fs e) !! c_str f ≫= text_map; lossless _ _ := True |}.
  - intros f b m e Hns _ _ _. cbn. unfold Open, Write, syscall, mbind, st_bind, get, set_files,
      modify, mret, st_ret. cbn.
    destruct (fate (fs e) (tick (fs e))) as [|n|n] eqn:E1; cbn.
    2: destruct (fate (fs e) (S (tick (fs e)))) as [|n'|n']; cbn; done.
    2: by destruct (Hns _ _ E1).
    destruct (fate (fs e) (S (tick (fs e)))) as [|n'|n'] eqn:E2; cbn.
    2: done. 2: by destruct (Hns _ _ E2).
    intros _. rewrite lookup_insert_eq. cbn. rewrite lookup_insert_eq. cbn.
    change ("" +:+ ?x) with x. rewrite substring_full. apply text_map_text.
  - intros f b con m e _ _ _ Hs. rewrite text_read. by rewrite Hs.
  - intros f e e' ->. done.
  - intros f b con e. rewrite text_read. by case_match.
  - intros f b m. cbn. frame_step.
Defined.
End text_store.
