(* ===== verification/XmlUtils.v ===== *)
(** * Reading and saving the preferences file

    Models the file side of [preferences_xml_utils.cpp]: saving with a backup
    of the previous file, reading with restoration from the backup, and the
    reports; and shows that the module provides the interface [XmlStore]. *)

From S2P Require Import Prelude Errno Value Utils NumText Base64 Env FileLock Xml Store.

Section XmlUtils.
Context `{LibXml}.

(** What a run does after reaching undefined behaviour (an empty number
    field, a character 255 in a base64 text): unknown, so a parameter. *)
Context (undefined_read : gmap string PreferencesValue -> bool * gmap string PreferencesValue).
Context (undefined_write : bool).
(** The size that an unset [struct stat] holds. *)
Context (garbage_size : Z).

Definition TOO_MANY_OPEN_FILES : Z := 24.
Definition NO_SPACE_LEFT_ON_DEVICE : Z := 28.
Definition DISK_QUOTA_EXCEEDED : Z := 122.
Definition REQUIRED_KEY_NOT_AVAILABLE : Z := 126.
Definition REQUIRED_KEY_REVOKED : Z := 128.
Definition PRE_ALLOCATE_BUFFER_SIZE : Z := 128.

Definition errno : ST Env Z := gets (fun e => errno_ (fs e)).
Definition xmlGetLastError : ST Env (option string) := gets (fun e => xmlError_ (fs e)).
Definition set_lastError (m : option string) : ST Env unit := fun e =>
  (tt, set_fs (snd (set_xmlError m (fs e))) e).

(** [preferences_xml_utils.cpp:408-415] IsFileExist *)
Definition IsFileExist (inputPath : string) : ST Env bool :=
  if PATH_MAX <? slen inputPath then mret false
  else r ← stat inputPath; mret (r =? 0).

(** [preferences_xml_utils.cpp:417-423] RemoveBackupFile *)
Definition RemoveBackupFile (fileName : string) : ST Env unit :=
  let backupFileName := MakeFilePath fileName STR_BACKUP in
  ex ← IsFileExist backupFileName;
  if (ex : bool) then _ ← remove backupFileName; mret tt else mret tt.

(** [xmlReadFile]: open the file and parse it; a failure is recorded as the
    last error. *)
Definition xmlReadFile (fileName : string) : ST Env (option (option XmlNode)) :=
  content ← syscall None (fun _ =>
    f ← get;
    match files f !! c_str fileName with
    | Some content => mret (Some content)
    | None => set_errno ENOENT;; mret None
    end);
  match content with
  | None => set_lastError (Some xmlIoError);; mret None
  | Some content =>
      match xmlParse content with
      | inl root => mret (Some root)
      | inr message => set_lastError (Some message);; mret None
      end
  end.

(** [preferences_xml_utils.cpp:425-430] ReadFile *)
Definition ReadFile (fileName : string) : ST Env (option (option XmlNode) * Z) :=
  doc ← xmlReadFile fileName; errCode ← errno; mret (doc, errCode).

(** The message of the last error, or ["null"]. *)
Definition last_message : ST Env string := m ← xmlGetLastError; mret (default "null" m).

(** [preferences_xml_utils.cpp:432-443] ReportXmlFileCorrupted *)
Definition ReportXmlFileCorrupted (fileName bundleName operationMsg : string) (errCode : Z)
    : ST Env unit :=
  let reportParam := mkReportParam bundleName NORMAL_DB (extract_name fileName) E_ERROR errCode operationMsg in
  Report reportParam EVENT_NAME_DB_CORRUPTED;;
  Report (mkReportParam bundleName NORMAL_DB (extract_name fileName) E_OK 0 "restore success")
    EVENT_NAME_DB_CORRUPTED.

(** [preferences_xml_utils.cpp:445-461] ReportNonCorruptError *)
Definition ReportNonCorruptError (faultType fileName bundleName : string) (errCode : Z) : ST Env bool :=
  if (errCode =? REQUIRED_KEY_NOT_AVAILABLE) || (errCode =? REQUIRED_KEY_REVOKED) then
    ReportAbnormalOperation (mkReportFaultParam faultType bundleName NORMAL_DB (extract_name fileName)
      E_OPERAT_IS_LOCKED (faultType +:+ " the screen is locked.")) USE_WHEN_SCREEN_LOCKED;;
    mret true
  else if (errCode =? NO_SPACE_LEFT_ON_DEVICE) || (errCode =? DISK_QUOTA_EXCEEDED) ||
          (errCode =? TOO_MANY_OPEN_FILES) then
    e ← get;
    ReportFault (mkReportFaultParam faultType bundleName NORMAL_DB (extract_name fileName)
      E_ERROR (faultType +:+ " " +:+ strerror (svc e) errCode));;
    mret true
  else mret false.

(** The result, and the two out-parameters.

    [preferences_xml_utils.cpp:463-504] RenameFromBackupFile *)
Definition RenameFromBackupFile (fileName bundleName : string) (isReportCorrupt : bool)
    : ST Env (bool * bool * bool) :=
  let backupFileName := MakeFilePath fileName STR_BACKUP in
  ex ← IsFileExist backupFileName;
  if negb ex then mret (false, isReportCorrupt, false) else
  set_lastError None;;
  '(bakDoc, errCode) ← ReadFile backupFileName;
  match bakDoc with
  | None =>
      _ ← remove backupFileName;
      nonCorrupt ← ReportNonCorruptError "read bak failed" fileName bundleName errCode;
      mret (false, if (nonCorrupt : bool) then isReportCorrupt else true, true)
  | Some _ =>
      r ← rename backupFileName fileName;
      if negb (r =? 0) then mret (false, isReportCorrupt, true) else
      r ← stat fileName;
      f ← gets fs;
      let st_size := if r =? -1 then garbage_size
                     else slen (default "" (files f !! c_str fileName)) in
      ReportAbnormalOperation (mkReportFaultParam "read failed" bundleName NORMAL_DB
        (extract_name fileName) E_XML_RESTORED_FROM_BACKUP_FILE
        ("Restored from the backup. The file size is " +:+ to_string st_size +:+ ".")) RESTORE_FROM_BAK;;
      mret (true, false, true)
  end.

(** [preferences_xml_utils.cpp:506-514] RenameFile *)
Definition RenameFile (fileName fileType : string) : ST Env bool :=
  let name := MakeFilePath fileName fileType in
  r ← rename fileName name; mret (r =? 0).

(** [preferences_xml_utils.cpp:516-519] RenameToBackupFile *)
Definition RenameToBackupFile (fileName : string) : ST Env bool := RenameFile fileName STR_BACKUP.

(** [preferences_xml_utils.cpp:521-524] RenameToBrokenFile *)
Definition RenameToBrokenFile (fileName : string) : ST Env bool := RenameFile fileName STR_BROKEN.

(** The part of [XmlReadFile] under the lock, from the restoration on.

    [preferences_xml_utils.cpp:554-574] XmlReadFile *)
Definition XmlReadFile_restore (fileName bundleName : string) (isReport isMultiProcessing : bool)
    (errCode : Z) (errMessage : string) : ST Env (option (option XmlNode)) :=
  '(restored, isReport, isExist) ← RenameFromBackupFile fileName bundleName isReport;
  '(doc, errMessage) ←
    (if (restored : bool) then
       '(doc, bakErrCode) ← ReadFile fileName;
       message ← last_message;
       mret (doc, errMessage +:+ (" bak: errno is " +:+ to_string bakErrCode +:+
                                  ", errMessage is " +:+ message))
     else mret (None, errMessage));
  if (isMultiProcessing : bool) then
    ReportFault (mkReportFaultParam "read failed" bundleName NORMAL_DB (extract_name fileName)
      E_OPERAT_IS_CROSS_PROESS "Cross-process operations.");;
    mret doc
  else
    (if (isReport : bool) then
       if (isExist : bool) then ReportXmlFileCorrupted fileName bundleName errMessage errCode
       else ReportFault (mkReportFaultParam "read failed" bundleName NORMAL_DB (extract_name fileName)
         E_ERROR ("read failed, " +:+ errMessage))
     else mret tt);;
    mret doc.

(** [preferences_xml_utils.cpp:533-574] XmlReadFile *)
Definition XmlReadFile_locked (fileName bundleName : string) (isMultiProcessing : bool)
    : ST Env (option (option XmlNode)) :=
  ex ← IsFileExist fileName;
  if (ex : bool) then
    '(doc, errCode) ← ReadFile fileName;
    match doc with
    | Some root => mret (Some root)
    | None =>
        errMessage ← last_message;
        nonCorrupt ← ReportNonCorruptError "read failed" fileName bundleName errCode;
        if (nonCorrupt : bool) then mret None else
        renamed ← RenameToBrokenFile fileName;
        if negb renamed then mret None
        else XmlReadFile_restore fileName bundleName true isMultiProcessing errCode errMessage
    end
  else XmlReadFile_restore fileName bundleName false isMultiProcessing 0 "".

(** [preferences_xml_utils.cpp:526-575] XmlReadFile *)
Definition XmlReadFile (fileName bundleName : string) : ST Env (option (option XmlNode)) :=
  '(fileLock, isMultiProcessing) ← ReadLock (FileLock_new fileName) false;
  doc ← XmlReadFile_locked fileName bundleName isMultiProcessing;
  FileLock_release fileLock;;
  mret doc.

(** [preferences_xml_utils.cpp:578-611] ReadSettingXml *)
Definition Xml_ReadSettingXml (fileName bundleName : string) (conMap : gmap string PreferencesValue)
    : ST Env (outcome (bool * gmap string PreferencesValue)) :=
  if slen fileName =? 0 then mret (Done (false, conMap)) else
  doc ← XmlReadFile fileName bundleName;
  match doc with
  | None => mret (Done (false, conMap))
  | Some root =>
      match root with
      | Some (Elem name _ children) =>
          if bool_decide (name = "preferences") then mret (read_nodes children conMap)
          else mret (Done (false, conMap))
      | _ => mret (Done (false, conMap))
      end
  end.

(** [isReport] after the call.

    [preferences_xml_utils.cpp:741-770] ReportSaveFileFault *)
Definition ReportSaveFileFault (fileName bundleName : string) (isReport isMultiProcessing : bool)
    : ST Env bool :=
  errCode ← errno;
  errMessage ← last_message;
  ex ← IsFileExist fileName;
  isReport ← (if (ex : bool) then _ ← RenameToBrokenFile fileName; mret true else mret isReport);
  '(_, isReport, isExist) ← RenameFromBackupFile fileName bundleName isReport;
  nonCorrupt ← ReportNonCorruptError "write failed" fileName bundleName errCode;
  if (nonCorrupt : bool) then mret isReport else
  if (isMultiProcessing : bool) then
    ReportFault (mkReportFaultParam "write failed" bundleName NORMAL_DB (extract_name fileName)
      E_OPERAT_IS_CROSS_PROESS "Cross-process operations.");;
    mret isReport
  else
    (if (isReport : bool) then
       if (isExist : bool) then ReportXmlFileCorrupted fileName bundleName errMessage errCode
       else ReportFault (mkReportFaultParam "write failed" bundleName NORMAL_DB (extract_name fileName)
         E_ERROR ("write failed, " +:+ errMessage))
     else mret tt);;
    mret isReport.

(** The part of [SaveXmlFile] after the backup.

    [preferences_xml_utils.cpp:782-799] SaveXmlFile *)
Definition SaveXmlFile_write (fileName bundleName buf : string) (isMultiProcessing : bool) : ST Env bool :=
  fd ← Open (c_str fileName);
  match fd with
  | None => _ ← ReportSaveFileFault fileName bundleName false isMultiProcessing; mret false
  | Some _ =>
      n ← Write fd buf;
      if n <? 0 then
        _ ← ReportSaveFileFault fileName bundleName false isMultiProcessing;
        _ ← Close fd;
        mret false
      else
        _ ← Fsync fd;
        _ ← Close fd;
        RemoveBackupFile fileName;;
        mret true
  end.

(** The part of [SaveXmlFile] under the lock.

    [preferences_xml_utils.cpp:779-799] SaveXmlFile *)
Definition SaveXmlFile_locked (fileName bundleName buf : string) (isMultiProcessing : bool) : ST Env bool :=
  ex ← IsFileExist fileName;
  backed ← (if (ex : bool) then RenameToBackupFile fileName else mret true);
  if negb backed then mret false else SaveXmlFile_write fileName bundleName buf isMultiProcessing.

(** [preferences_xml_utils.cpp:772-800] SaveXmlFile *)
Definition SaveXmlFile (fileName bundleName buf : string) : ST Env bool :=
  '(fileLock, isMultiProcessing) ← WriteLock (FileLock_new fileName) false;
  r ← SaveXmlFile_locked fileName bundleName buf isMultiProcessing;
  FileLock_release fileLock;;
  mret r.

(** Every call on the writer succeeds ([XML_CHECK] returns at the first that
    does not). *)
Fixpoint calls_ok (done calls : list WCall) : bool :=
  match calls with
  | [] => true
  | c :: calls' => xmlCallOk done c && calls_ok (done ++ [c]) calls'
  end.

(** [preferences_xml_utils.cpp:845-882] WriteSettingXml *)
Definition Xml_WriteSettingXml (fileName bundleName : string)
    (writeToDiskMap : gmap string PreferencesValue) : ST Env (outcome bool) :=
  if (String.length fileName =? 0)%nat then mret (Done false)
  else if negb (xmlBufferOk (Z.of_nat (size writeToDiskMap) * PRE_ALLOCATE_BUFFER_SIZE)) then mret (Done false)
  else if negb xmlWriterOk then mret (Done false)
  else
    match document_calls (map_to_list writeToDiskMap) with
    | Done calls =>
        if negb (calls_ok [] calls) then mret (Done false)
        else r ← SaveXmlFile fileName bundleName (xmlText calls); mret (Done r)
    | Thrown => mret Thrown
    | Undef => mret Undef
    | NoFuel => mret NoFuel
    end.

(** The module as the objects see it. *)
#[export] Instance xml_utils : XmlStore := {|
  ReadSettingXml f b con :=
    r ← Xml_ReadSettingXml f b con;
    mret (match r with Done x => x | _ => undefined_read con end);
  WriteSettingXml f b m :=
    r ← Xml_WriteSettingXml f b m;
    mret (match r with Done x => x | _ => undefined_write end)
|}.
End XmlUtils.

(** ** The module keeps the services *)

Section XmlUtils_laws.
Context `{LibXmlLaws} (undefined_read : gmap string PreferencesValue -> bool * gmap string PreferencesValue).
Context (undefined_write : bool) (garbage_size : Z).

Lemma frames_get : frames get.
Proof. by apply frames_same. Qed.
Lemma frames_errno : frames errno.
Proof. by apply frames_same. Qed.
Lemma frames_set_lastError m : frames (set_lastError m).
Proof. by split. Qed.
Lemma frames_last_message : frames last_message.
Proof. by apply frames_same. Qed.
#[local] Hint Resolve frames_get frames_errno frames_set_lastError frames_last_message : prefs.

Lemma frames_IsFileExist p : frames (IsFileExist p).
Proof. unfold IsFileExist. frame_step. Qed.
#[local] Hint Resolve frames_IsFileExist : prefs.

Lemma frames_xmlReadFile p : frames (xmlReadFile p).
Proof.
  unfold xmlReadFile. apply frames_bind.
  - apply frames_syscall. fs_step.
  - intros c. frame_step.
Qed.
#[local] Hint Resolve frames_xmlReadFile : prefs.

Lemma frames_ReadFile p : frames (ReadFile p).
Proof. unfold ReadFile. frame_step. Qed.
Lemma frames_RemoveBackupFile p : frames (RemoveBackupFile p).
Proof. unfold RemoveBackupFile. frame_step. Qed.
Lemma frames_RenameFile p t : frames (RenameFile p t).
Proof. unfold RenameFile. frame_step. Qed.
Lemma frames_ReportNonCorruptError a b c n : frames (ReportNonCorruptError a b c n).
Proof. unfold ReportNonCorruptError. frame_step. Qed.
Lemma frames_ReportXmlFileCorrupted a b c n : frames (ReportXmlFileCorrupted a b c n).
Proof. unfold ReportXmlFileCorrupted. frame_step. Qed.
#[local] Hint Resolve frames_ReadFile frames_RemoveBackupFile frames_RenameFile
  frames_ReportNonCorruptError frames_ReportXmlFileCorrupted : prefs.

Lemma frames_RenameFromBackupFile f b r : frames (RenameFromBackupFile garbage_size f b r).
Proof. unfold RenameFromBackupFile. frame_step. Qed.
#[local] Hint Resolve frames_RenameFromBackupFile : prefs.

Lemma frames_XmlReadFile_restore f b r mp c m :
  frames (XmlReadFile_restore garbage_size f b r mp c m).
Proof. unfold XmlReadFile_restore. frame_step. Qed.
#[local] Hint Resolve frames_XmlReadFile_restore : prefs.

Lemma frames_XmlReadFile f b : frames (XmlReadFile garbage_size f b).
Proof. unfold XmlReadFile, XmlReadFile_locked, RenameToBrokenFile. frame_step. Qed.
#[local] Hint Resolve frames_XmlReadFile : prefs.

Lemma frames_Xml_ReadSettingXml f b con : frames (Xml_ReadSettingXml garbage_size f b con).
Proof. unfold Xml_ReadSettingXml. frame_step. Qed.

Lemma frames_ReportSaveFileFault f b r mp : frames (ReportSaveFileFault garbage_size f b r mp).
Proof. unfold ReportSaveFileFault, RenameToBrokenFile. frame_step. Qed.
#[local] Hint Resolve frames_ReportSaveFileFault : prefs.

Lemma frames_SaveXmlFile f b t : frames (SaveXmlFile garbage_size f b t).
Proof. unfold SaveXmlFile, SaveXmlFile_locked, SaveXmlFile_write, RenameToBackupFile. frame_step. Qed.
#[local] Hint Resolve frames_SaveXmlFile : prefs.

Lemma frames_Xml_WriteSettingXml f b m : frames (Xml_WriteSettingXml garbage_size f b m).
Proof. unfold Xml_WriteSettingXml. frame_step. Qed.

(** ** What a save leaves in the file *)

Lemma str_app_ne a b : b <> "" -> a <> a +:+ b.
Proof.
  intros Hb E. apply Hb. assert (Hl := str_length_app a b). rewrite <- E in Hl.
  destruct b; [done|cbn in Hl; lia].
Qed.

(** The companion file of [f] with a suffix is another file. *)
Lemma companion_ne f suffix : no_nul f = true -> no_nul suffix = true -> suffix <> "" ->
  f <> c_str (MakeFilePath f suffix).
Proof.
  intros Hf Hs Hne. unfold MakeFilePath. rewrite c_str_no_nul; [by apply str_app_ne|].
  by rewrite no_nul_app, Hf, Hs.
Qed.

Lemma keeps_IsFileExist p q : keeps_file p (IsFileExist q).
Proof. unfold IsFileExist. keep_step. Qed.
#[local] Hint Resolve keeps_IsFileExist : prefs.

Lemma keeps_RemoveBackupFile f : no_nul f = true -> keeps_file f (RemoveBackupFile f).
Proof.
  intros Hf. unfold RemoveBackupFile. apply keeps_bind; [auto with prefs|]. intros ex.
  destruct ex; [|done]. apply keeps_bind; [|done].
  apply keeps_remove, (companion_ne f STR_BACKUP); done.
Qed.

(** Opening a file empties it. *)
Lemma Open_truncates p e q :
  fst (Open p e) = Some q -> q = c_str p /\ files (fs (snd (Open p e))) !! c_str p = Some "".
Proof.
  unfold Open, syscall, mbind, st_bind, get, set_files, modify, mret, st_ret.
  case_match; cbn; intros; simplify_eq; by rewrite lookup_insert_eq.
Qed.

(** A write fills the empty file. *)
Lemma Write_fills p g buf e : writes_as g e -> files (fs e) !! p = Some "" ->
  (fst (Write (Some p) buf e) <? 0) = false ->
  files (fs (snd (Write (Some p) buf e))) !! p = Some (g buf).
Proof.
  intros Hw Hp. unfold Write, syscall, mbind, st_bind, get, set_files, modify, mret, st_ret.
  specialize (Hw (tick (fs e)) buf). case_match eqn:E; [|done|]; cbn; intros _;
    rewrite lookup_insert_eq, Hp; cbn; change ("" +:+ ?x) with x;
    (destruct Hw as [[n' ?]|<-]; [done|]); cbn; [|done].
  by rewrite substring_full.
Qed.

Lemma SaveXmlFile_write_written g f b buf mp e :
  no_nul f = true -> writes_as g e ->
  ensures (SaveXmlFile_write garbage_size f b buf mp e)
    (fun r e' => r = true -> files (fs e') !! f = Some (g buf)).
Proof.
  intros Hf Hns. unfold SaveXmlFile_write. rewrite bind_run.
  pose proof (Open_truncates (c_str f) e) as Hopen.
  apply (frames_writes (Open (c_str f)) g) in Hns; [|auto with prefs].
  destruct (Open (c_str f) e) as [[q|] e3]; cbn [fst snd] in *.
  2: { by rewrite bind_run. }
  destruct (Hopen _ eq_refl) as [-> Hempty]. rewrite c_str_idemp, (c_str_no_nul f) in * by done.
  rewrite bind_run. destruct (fst (Write (Some f) buf e3) <? 0) eqn:En.
  { by rewrite !bind_run. }
  intros _. pose proof (Write_fills _ _ _ _ Hns Hempty En) as Hfull. rewrite <- Hfull.
  generalize (snd (Write (Some f) buf e3)). apply keeps_bind; [auto with prefs|intros _].
  apply keeps_bind; [auto with prefs|intros _].
  apply keeps_bind; [by apply keeps_RemoveBackupFile|done].
Qed.

Lemma SaveXmlFile_locked_written g f b buf mp e :
  no_nul f = true -> writes_as g e ->
  fst (SaveXmlFile_locked garbage_size f b buf mp e) = true ->
  files (fs (snd (SaveXmlFile_locked garbage_size f b buf mp e))) !! f = Some (g buf).
Proof.
  intros Hf Hns. apply (frames_writes (IsFileExist f) g) in Hns; [|auto with prefs].
  change (ensures (SaveXmlFile_locked garbage_size f b buf mp e)
    (fun r e' => r = true -> files (fs e') !! f = Some (g buf))). unfold SaveXmlFile_locked. rewrite bind_run.
  revert Hns. generalize (snd (IsFileExist f e)) as e1. generalize (fst (IsFileExist f e)) as ex.
  intros ex e1 Hns. rewrite bind_run. set (bk := if ex then _ else _).
  apply (frames_writes bk g) in Hns; [|unfold bk, RenameToBackupFile; frame_step].
  destruct (fst (bk e1)); [|done]. by apply SaveXmlFile_write_written.
Qed.

Lemma SaveXmlFile_written g f b buf e :
  no_nul f = true -> writes_as g e ->
  fst (SaveXmlFile garbage_size f b buf e) = true ->
  files (fs (snd (SaveXmlFile garbage_size f b buf e))) !! f = Some (g buf).
Proof.
  intros Hf Hns. unfold SaveXmlFile. rewrite bind_run.
  apply (frames_writes (WriteLock (FileLock_new f) false) g) in Hns; [|auto with prefs].
  destruct (WriteLock (FileLock_new f) false e) as [[l mp] e1]. cbn [fst snd] in *.
  rewrite !bind_run. cbn [mret st_ret fst snd]. intros Hr.
  rewrite keeps_FileLock_release. by apply SaveXmlFile_locked_written.
Qed.

(** ** What a load finds in the file *)

Lemma IsFileExist_present f c e :
  no_faults e -> slen f <= PATH_MAX -> files (fs e) !! c_str f = Some c -> fst (IsFileExist f e) = true.
Proof.
  intros Hnf Hl Hc. unfold IsFileExist. rewrite (proj2 (Z.ltb_ge _ _)) by done. rewrite bind_run.
  unfold stat, on_path, syscall. rewrite Hnf. unfold mbind, st_bind, get, mret, st_ret, path_exists.
  cbn. rewrite Hc. by rewrite bool_decide_eq_true_2.
Qed.

Lemma keeps_xmlReadFile p f : keeps_file p (xmlReadFile f).
Proof.
  unfold xmlReadFile. apply keeps_bind.
  - apply keeps_syscall. intros r fs0. unfold mbind, st_bind, get, mret, st_ret. by case_match.
  - intros [c|]; [|done]. by case_match.
Qed.

Lemma ReadFile_present f c root e :
  no_faults e -> files (fs e) !! c_str f = Some c -> xmlParse c = inl root ->
  fst (fst (ReadFile f e)) = Some root.
Proof.
  intros Hnf Hc Hp. unfold ReadFile, xmlReadFile. rewrite !bind_run.
  unfold syscall. rewrite Hnf. unfold mbind, st_bind, get, mret, st_ret. cbn.
  rewrite Hc. cbn. by rewrite Hp.
Qed.

(** A file that is there and parses is returned, and stays. *)
Lemma XmlReadFile_present f b c root e :
  no_faults e -> no_nul f = true -> slen f <= PATH_MAX ->
  files (fs e) !! f = Some c -> xmlParse c = inl root ->
  fst (XmlReadFile garbage_size f b e) = Some root /\
  files (fs (snd (XmlReadFile garbage_size f b e))) !! f = Some c.
Proof.
  intros Hnf Hf Hl Hc Hp. unfold XmlReadFile. rewrite bind_run.
  assert (Hcl : files (fs (snd (ReadLock (FileLock_new f) false e))) !! f = Some c).
  { rewrite keeps_ReadLock; [done|]. apply (companion_ne f STR_LOCK); done. }
  apply (frames_no_faults (ReadLock (FileLock_new f) false)) in Hnf; [|auto with prefs].
  destruct (ReadLock (FileLock_new f) false e) as [[l mp] e1]. cbn [fst snd] in *.
  rewrite !bind_run. cbn [mret st_ret fst snd]. rewrite keeps_FileLock_release.
  unfold XmlReadFile_locked. rewrite bind_run.
  rewrite (IsFileExist_present f c) by (done || by rewrite c_str_no_nul).
  apply (frames_no_faults (IsFileExist f)) in Hnf; [|auto with prefs].
  rewrite <- (keeps_IsFileExist f f) in Hcl. revert Hnf Hcl. generalize (snd (IsFileExist f e1)) as e2.
  intros e2 Hnf Hcl. rewrite bind_run.
  assert (Hr : fst (fst (ReadFile f e2)) = Some root).
  { apply (ReadFile_present _ c); [done| |done]. by rewrite c_str_no_nul. }
  assert (Hk : files (fs (snd (ReadFile f e2))) !! f = Some c).
  { unfold ReadFile. rewrite bind_run. rewrite <- Hcl. apply (keeps_xmlReadFile f f). }
  destruct (ReadFile f e2) as [[doc n] e3]. cbn [fst snd] in *. subst doc. done.
Qed.

(** Reading into a map keeps what is there. *)
Lemma read_nodes_union con nodes acc r m :
  read_nodes nodes acc = Done (r, m) -> read_nodes nodes (con ∪ acc) = Done (r, con ∪ m).
Proof.
  revert acc. induction nodes as [|node nodes IH]; intros acc; cbn [read_nodes].
  { intros E. by simplify_eq. }
  destruct (ParseNodeElement node) as [el|]; [|intros E; by simplify_eq].
  unfold ReadXmlElement. destruct (GetPrefValue el) as [[v|]| | |]; try done.
  2: { rewrite !bind_Done. apply IH. }
  rewrite !bind_Done. intros E. rewrite <- (IH _ E). f_equal.
  destruct (acc !! key_ el) eqn:Ea.
  - destruct ((con ∪ acc) !! key_ el) eqn:Ec; [done|].
    apply lookup_union_None in Ec as [_ Ec]. congruence.
  - destruct (con !! key_ el) as [w|] eqn:Ec.
    + rewrite (lookup_union_Some_l _ _ _ _ Ec). symmetry. apply map_eq. intros k.
      rewrite !lookup_union. destruct (decide (k = key_ el)) as [->|]; [|by rewrite lookup_insert_ne].
      by rewrite Ec, !union_Some_l.
    + rewrite (proj2 (lookup_union_None _ _ _)) by done. by rewrite insert_union_r.
Qed.

(** What the text of a file holds. *)
Definition text_contents (content : string) : option (gmap string PreferencesValue) :=
  match xmlParse content with
  | inl (Some (Elem name _ children)) =>
      if bool_decide (name = "preferences") then
        match read_nodes children ∅ with Done (true, m) => Some m | _ => None end
      else None
  | _ => None
  end.

Lemma Xml_ReadSettingXml_present f b con c m e :
  no_faults e -> f <> "" -> no_nul f = true -> slen f <= PATH_MAX ->
  files (fs e) !! f = Some c -> text_contents c = Some m ->
  fst (Xml_ReadSettingXml garbage_size f b con e) = Done (true, con ∪ m) /\
  files (fs (snd (Xml_ReadSettingXml garbage_size f b con e))) !! f = Some c.
Proof.
  intros Hnf Hne Hf Hl Hc Ht. unfold text_contents in Ht.
  destruct (xmlParse c) as [[[name attrs nodes|]|]|] eqn:Ep; try done.
  destruct (XmlReadFile_present f b c _ e Hnf Hf Hl Hc Ep) as [Hr Hk].
  unfold Xml_ReadSettingXml. rewrite (proj2 (Z.eqb_neq _ _)).
  2: { unfold slen. destruct f; [done|cbn; lia]. }
  rewrite bind_run, Hr. case_bool_decide; [|done].
  destruct (read_nodes nodes ∅) as [[[] m0]| | |] eqn:Er; try done. injection Ht as <-.
  apply (read_nodes_union con) in Er. rewrite map_union_empty in Er. by rewrite Er.
Qed.

(** ** Failures while saving *)

Lemma IsFileExist_ok p e : ~ faulted e -> slen p <= PATH_MAX ->
  fst (IsFileExist p e) = path_exists (fs e) (c_str p).
Proof.
  intros Hn Hl. unfold IsFileExist. rewrite (proj2 (Z.ltb_ge _ _)) by done. rewrite bind_run.
  cbn [mret st_ret fst]. rewrite (proj1 (stat_ok p e Hn)). by case_match.
Qed.

Lemma IsFileExist_err p e : faulted e -> single_fault e -> slen p <= PATH_MAX ->
  fst (IsFileExist p e) = false /\ calm (snd (IsFileExist p e)).
Proof.
  intros Hn Hs Hl. unfold IsFileExist. rewrite (proj2 (Z.ltb_ge _ _)) by done. rewrite !bind_run.
  unfold stat, on_path. rewrite (proj1 (syscall_err _ _ e Hn)). cbn [mret st_ret fst snd].
  split; [done|]. by apply syscall_err_calm.
Qed.

Lemma IsFileExist_files p e : files (fs (snd (IsFileExist p e))) = files (fs e).
Proof. apply map_eq. intros q. apply keeps_IsFileExist. Qed.

(** What only reports keeps the files. *)
Lemma keeps_gets {A} p (g : Env -> A) : keeps_file p (gets g).
Proof. done. Qed.
Lemma keeps_errno p : keeps_file p errno.
Proof. done. Qed.
Lemma keeps_last_message p : keeps_file p last_message.
Proof. done. Qed.
Lemma keeps_set_lastError p m : keeps_file p (set_lastError m).
Proof. done. Qed.
Lemma keeps_get p : keeps_file p get.
Proof. done. Qed.
Lemma keeps_Report p r n : keeps_file p (Report r n).
Proof. intros e. by destruct (Report_emits r n e) as [ev ->]. Qed.
Lemma keeps_ReportFault p r : keeps_file p (ReportFault r).
Proof. intros e. by destruct (ReportFault_emits r e) as [ev ->]. Qed.
Lemma keeps_ReportAbnormalOperation p r g : keeps_file p (ReportAbnormalOperation r g).
Proof.
  intros e. destruct (ReportAbnormalOperation_cases r g e) as (e' & -> & Hf & _). cbn. by rewrite Hf.
Qed.
#[local] Hint Resolve keeps_gets keeps_errno keeps_last_message keeps_set_lastError keeps_get keeps_Report
  keeps_ReportFault keeps_ReportAbnormalOperation keeps_xmlReadFile : prefs.
Lemma keeps_ReportNonCorruptError p a b c n : keeps_file p (ReportNonCorruptError a b c n).
Proof. unfold ReportNonCorruptError. keep_step. Qed.
Lemma keeps_ReportXmlFileCorrupted p a b c n : keeps_file p (ReportXmlFileCorrupted a b c n).
Proof. unfold ReportXmlFileCorrupted. keep_step. Qed.
Lemma keeps_ReadFile p f : keeps_file p (ReadFile f).
Proof. unfold ReadFile. keep_step. Qed.
#[local] Hint Resolve keeps_ReportNonCorruptError keeps_ReportXmlFileCorrupted keeps_ReadFile : prefs.

Lemma ReadFile_ok f c root e : ~ faulted e -> files (fs e) !! c_str f = Some c -> xmlParse c = inl root ->
  fst (fst (ReadFile f e)) = Some root.
Proof.
  intros Hn Hc Hp. unfold ReadFile, xmlReadFile. rewrite !bind_run. cbn [mret st_ret fst].
  sys_ok Hn. rewrite Hf, Hc. cbn [fst snd]. by rewrite Hp.
Qed.

Definition backup (f : string) : string := MakeFilePath f STR_BACKUP.
Definition broken (f : string) : string := MakeFilePath f STR_BROKEN.

(** A backup that parses replaces the file. *)
Lemma RenameFromBackupFile_restores f b isReport c root e :
  calm e -> slen (backup f) <= PATH_MAX ->
  files (fs e) !! c_str (backup f) = Some c -> xmlParse c = inl root ->
  ensures (RenameFromBackupFile garbage_size f b isReport e) (fun r e' => r = (true, false, true) /\
    files (fs e') = <[c_str f := c]> (delete (c_str (backup f)) (files (fs e)))).
Proof.
  intros Hcalm Hl Hc Hp. unfold RenameFromBackupFile. fold (backup f). rewrite bind_run.
  rewrite IsFileExist_ok by (done || by apply calm_next).
  unfold path_exists at 1. rewrite Hc, bool_decide_eq_true_2 by done. cbn [orb negb].
  rewrite <- (IsFileExist_files (backup f) e) in Hc |- *.
  apply (frames_calm (IsFileExist (backup f))) in Hcalm; [|auto with prefs].
  revert Hcalm Hc. generalize (snd (IsFileExist (backup f) e)) as e1. intros e1 Hcalm Hc.
  rewrite bind_run. apply (frames_calm (set_lastError None)) in Hcalm; [|auto with prefs].
  change (files (fs e1)) with (files (fs (snd (set_lastError None e1)))) in Hc |- *.
  revert Hcalm Hc. generalize (snd (set_lastError None e1)) as e2. intros e2 Hcalm Hc.
  rewrite bind_run.
  pose proof (ReadFile_ok (backup f) c root e2 (calm_next _ Hcalm) Hc Hp) as Hr.
  assert (Hk : files (fs (snd (ReadFile (backup f) e2))) = files (fs e2)).
  { apply map_eq. intros q. apply keeps_ReadFile. }
  rewrite <- Hk in Hc |- *. apply (frames_calm (ReadFile (backup f))) in Hcalm; [|auto with prefs].
  destruct (ReadFile (backup f) e2) as [[doc n] e3]. cbn [fst snd] in *. subst doc. rewrite bind_run.
  destruct (rename_ok (backup f) f c e3 (calm_next _ Hcalm) Hc) as [-> Hren]. rewrite <- Hren.
  cbn [negb Z.eqb]. generalize (snd (rename (backup f) f e3)) as e4. intros e4. clear.
  rewrite !bind_run. split; [done|]. apply map_eq. intros q. cbn [mret st_ret fst snd].
  rewrite keeps_ReportAbnormalOperation. apply (keeps_stat q f).
Qed.

(** A path whose companions are files of their own. *)
Definition path_ok (f : string) : Prop := f <> "" /\ no_nul f = true /\ slen (backup f) <= PATH_MAX.

Lemma path_ok_facts f : path_ok f ->
  c_str f = f /\ c_str (backup f) = backup f /\ c_str (broken f) = broken f /\
  f <> backup f /\ f <> broken f /\ backup f <> broken f /\ slen f <= PATH_MAX.
Proof.
  intros (Hne & Hn & Hl). unfold backup, broken, MakeFilePath in *.
  rewrite !c_str_no_nul by (done || by rewrite no_nul_app, Hn).
  split_and!; try done; try by apply str_app_ne.
  - intros E. assert (Hlen := f_equal String.length E). revert Hlen. rewrite !str_length_app.
    cbn. lia.
  - revert Hl. unfold slen. rewrite str_length_app. lia.
Qed.

(** Moving the broken file away does not touch the backup. *)
Lemma RenameToBrokenFile_backup f e : path_ok f ->
  files (fs (snd (RenameToBrokenFile f e))) !! backup f = files (fs e) !! backup f.
Proof.
  intros Hf. destruct (path_ok_facts f Hf) as (H1 & H2 & H3 & H4 & H5 & H6 & _).
  unfold RenameToBrokenFile, RenameFile. rewrite bind_run. cbn [mret st_ret snd]. fold (broken f).
  revert e. apply keeps_syscall. intros r fs0. unfold mbind, st_bind, get, mret, st_ret.
  rewrite H1, H3. case_match; [|done]. cbn. by rewrite lookup_insert_ne, lookup_delete_ne.
Qed.

(** After a failed save the backup is the file again. *)
Lemma ReportSaveFileFault_restores f b isReport mp c root e :
  calm e -> path_ok f -> files (fs e) !! backup f = Some c -> xmlParse c = inl root ->
  files (fs (snd (ReportSaveFileFault garbage_size f b isReport mp e))) !! f = Some c.
Proof.
  intros Hcalm Hf Hc Hp. destruct (path_ok_facts f Hf) as (H1 & H2 & H3 & H4 & H5 & H6 & H7).
  unfold ReportSaveFileFault. rewrite bind_run, bind_run. cbn [snd errno last_message gets].
  change (snd (last_message e)) with e. rewrite bind_run.
  apply (frames_calm (IsFileExist f)) in Hcalm; [|auto with prefs].
  rewrite <- (keeps_IsFileExist (backup f) f) in Hc. revert Hcalm Hc.
  generalize (snd (IsFileExist f e)) as e1. generalize (fst (IsFileExist f e)) as ex. intros ex e1 Hcalm Hc.
  rewrite bind_run. set (mv := if ex then _ else _).
  apply (frames_calm mv) in Hcalm; [|unfold mv, RenameToBrokenFile; frame_step].
  assert (Hc1 : files (fs (snd (mv e1))) !! backup f = Some c).
  { unfold mv. destruct ex; [|done]. rewrite bind_run. by rewrite <- Hc, <- (RenameToBrokenFile_backup f e1). }
  revert Hcalm Hc1. generalize (snd (mv e1)) as e2. generalize (fst (mv e1)) as rep. clear Hc.
  intros rep e2 Hcalm Hc. rewrite bind_run.
  destruct (RenameFromBackupFile_restores f b rep c root e2 Hcalm) as [-> Hr]; [apply Hf|by rewrite H2|done|].
  rewrite H1 in Hr. assert (Hfin : files (fs (snd (RenameFromBackupFile garbage_size f b rep e2))) !! f = Some c).
  { by rewrite Hr, lookup_insert_eq. }
  rewrite <- Hfin. generalize (snd (RenameFromBackupFile garbage_size f b rep e2)) as e3. clear.
  apply keeps_bind; [auto with prefs|]. intros nc. keep_step.
Qed.

Definition read_ok (content : string) : Prop := exists root, xmlParse content = inl root.

Lemma RemoveBackupFile_gone f e : calm e -> path_ok f ->
  files (fs (snd (RemoveBackupFile f e))) !! backup f = None.
Proof.
  intros Hc Hf. destruct (path_ok_facts f Hf) as (H1 & H2 & _).
  unfold RemoveBackupFile. fold (backup f). rewrite bind_run.
  rewrite IsFileExist_ok by (apply Hf || by apply calm_next). unfold path_exists. rewrite H2.
  rewrite <- (IsFileExist_files (backup f) e). apply (frames_calm (IsFileExist (backup f))) in Hc; [|auto with prefs].
  revert Hc. generalize (dirs (fs e)) as D. generalize (snd (IsFileExist (backup f) e)) as e1.
  intros e1 D Hc. case_bool_decide as Hex; cbn [orb].
  - destruct Hex as [c Hex]. rewrite bind_run. cbn [mret st_ret snd].
    rewrite (remove_ok _ c) by (by rewrite ?H2 || by apply calm_next). by rewrite H2, lookup_delete_eq.
  - rewrite eq_None_not_Some. case_match; [|done]. rewrite bind_run. cbn [mret st_ret snd].
    unfold remove. pose proof (calm_next _ Hc) as Hn. sys_ok Hn. rewrite Hf0, H2.
    destruct (files (fs e1) !! backup f) eqn:E; [by destruct Hex|]. cbn. by rewrite Hf0, E.
Qed.

(** Without failing calls a save succeeds. *)
Lemma SaveXmlFile_write_calm f b buf mp e : calm e -> path_ok f ->
  ensures (SaveXmlFile_write garbage_size f b buf mp e)
    (fun r e' => r = true /\ files (fs e') !! backup f = None).
Proof.
  intros Hc Hf. unfold SaveXmlFile_write. rewrite bind_run.
  destruct (Open_ok (c_str f) e (calm_next _ Hc)) as [-> _].
  apply (frames_calm (Open (c_str f))) in Hc; [|auto with prefs].
  revert Hc. generalize (snd (Open (c_str f) e)) as e1. intros e1 Hc.
  rewrite bind_run, Write_ok by (by apply calm_next). rewrite !bind_run. split; [done|].
  cbn [mret st_ret snd]. apply RemoveBackupFile_gone; [|done].
  do 3 (apply frames_calm; [auto with prefs|]). done.
Qed.

(** Failing to write with one failing call restores the backup. *)
Lemma SaveXmlFile_write_atomic f b buf mp c e :
  single_fault e -> path_ok f -> files (fs e) !! backup f = Some c -> read_ok c ->
  ensures (SaveXmlFile_write garbage_size f b buf mp e)
    (fun r e' => r = false -> files (fs e') !! f = Some c).
Proof.
  intros Hs Hf Hc [root Hp]. destruct (path_ok_facts f Hf) as (H1 & H2 & H3 & H4 & H5 & H6 & H7).
  unfold SaveXmlFile_write. rewrite H1, bind_run. destruct (decide (faulted e)) as [Hn|Hn].
  - assert (Hcalm : calm (snd (Open f e))) by (by apply syscall_err_calm).
    assert (Hfs : files (fs (snd (Open f e))) !! backup f = Some c)
      by (unfold Open; by rewrite (proj2 (syscall_err _ _ e Hn))).
    assert (Hfd : fst (Open f e) = None) by (unfold Open; by rewrite (proj1 (syscall_err _ _ e Hn))).
    rewrite Hfd, bind_run. intros _. by apply (ReportSaveFileFault_restores _ _ _ _ c root).
  - destruct (Open_ok f e Hn) as [-> Ho]. rewrite H1 in *.
    assert (Hc1 : files (fs (snd (Open f e))) !! backup f = Some c) by (by rewrite Ho, lookup_insert_ne).
    apply (frames_single (Open f)) in Hs; [|auto with prefs].
    revert Hs Hc1. generalize (snd (Open f e)) as e1. intros e1 Hs Hc1. rewrite bind_run.
    destruct (decide (faulted e1)) as [Hn1|Hn1]; [|by rewrite Write_ok, !bind_run].
    assert (Hcalm : calm (snd (Write (Some f) buf e1))) by (by apply syscall_err_calm).
    assert (Hfs : files (fs (snd (Write (Some f) buf e1))) !! backup f = Some c)
      by (unfold Write; by rewrite (proj2 (syscall_err _ _ e1 Hn1))).
    assert (Hr : fst (Write (Some f) buf e1) = -1) by (unfold Write; by rewrite (proj1 (syscall_err _ _ e1 Hn1))).
    rewrite Hr. cbn [Z.ltb Z.compare]. rewrite !bind_run. intros _. cbn [mret st_ret snd].
    rewrite keeps_Close. by apply (ReportSaveFileFault_restores _ _ _ _ c root).
Qed.

(** Failing to save with one failing call leaves the old contents. *)
Lemma SaveXmlFile_locked_atomic f b buf mp c e :
  single_fault e -> path_ok f -> files (fs e) !! f = Some c -> read_ok c ->
  ensures (SaveXmlFile_locked garbage_size f b buf mp e)
    (fun r e' => r = false -> files (fs e') !! f = Some c).
Proof.
  intros Hs Hf Hc Hp. destruct (path_ok_facts f Hf) as (H1 & H2 & H3 & H4 & H5 & H6 & H7).
  unfold SaveXmlFile_locked. rewrite bind_run. destruct (decide (faulted e)) as [Hn|Hn].
  { destruct (IsFileExist_err f e Hn Hs H7) as [-> Hcalm]. rewrite bind_run. cbn [mret st_ret fst snd negb].
    unfold ensures. by destruct (SaveXmlFile_write_calm f b buf mp _ Hcalm Hf) as [-> _]. }
  rewrite IsFileExist_ok by done. unfold path_exists.
  rewrite H1, Hc, bool_decide_eq_true_2 by done. cbn [orb]. rewrite bind_run.
  rewrite <- (IsFileExist_files f e) in Hc. apply (frames_single (IsFileExist f)) in Hs; [|auto with prefs].
  revert Hs Hc. clear Hn. generalize (snd (IsFileExist f e)) as e1. intros e1 Hs Hc.
  unfold RenameToBackupFile, RenameFile. fold (backup f). rewrite !bind_run.
  cbn [mret st_ret fst snd]. destruct (decide (faulted e1)) as [Hn|Hn].
  - assert (Hr : fst (rename f (backup f) e1) = -1) by (unfold rename; by rewrite (proj1 (syscall_err _ _ e1 Hn))).
    rewrite Hr. intros _. cbn [Z.eqb negb mret st_ret snd].
    unfold rename. by rewrite (proj2 (syscall_err _ _ e1 Hn)).
  - destruct (rename_ok f (backup f) c e1 Hn) as [-> Hr]; [by rewrite H1|]. cbn [Z.eqb negb].
    apply (frames_single (rename f (backup f))) in Hs; [|auto with prefs].
    apply SaveXmlFile_write_atomic; [done..| |done]. by rewrite Hr, H2, lookup_insert_eq.
Qed.

(** Without failing calls a save of anything but a directory succeeds. *)
Lemma SaveXmlFile_calm f b buf e : calm e -> path_ok f -> f ∉ dirs (fs e) ->
  ensures (SaveXmlFile garbage_size f b buf e)
    (fun r e' => r = true /\ files (fs e') !! backup f = None).
Proof.
  intros Hc Hf Hd. destruct (path_ok_facts f Hf) as (H1 & H2 & H3 & H4 & H5 & H6 & H7).
  unfold SaveXmlFile. rewrite bind_run.
  apply (frames_calm (WriteLock (FileLock_new f) false)) in Hc; [|auto with prefs].
  apply (frames_dirs (WriteLock (FileLock_new f) false)) in Hd; [|auto with prefs].
  destruct (WriteLock (FileLock_new f) false e) as [[l mp] e1]. cbn [fst snd] in *.
  rewrite !bind_run. unfold ensures. cbn [mret st_ret fst snd]. rewrite keeps_FileLock_release.
  change (ensures (SaveXmlFile_locked garbage_size f b buf mp e1)
    (fun r e' => r = true /\ files (fs e') !! backup f = None)).
  unfold SaveXmlFile_locked. rewrite bind_run.
  rewrite IsFileExist_ok by (done || by apply calm_next). unfold path_exists. rewrite H1.
  rewrite (bool_decide_eq_false_2 (f ∈ _)) by done. rewrite orb_false_r.
  rewrite <- (IsFileExist_files f e1). apply (frames_calm (IsFileExist f)) in Hc; [|auto with prefs].
  revert Hc. generalize (snd (IsFileExist f e1)) as e2. intros e2 Hc. rewrite bind_run.
  case_bool_decide as Hex.
  - destruct Hex as [c Hex]. unfold RenameToBackupFile, RenameFile. fold (backup f). rewrite !bind_run.
    destruct (rename_ok f (backup f) c e2) as [-> _]; [by apply calm_next|by rewrite H1|].
    cbn [mret st_ret fst snd negb Z.eqb]. apply SaveXmlFile_write_calm; [|done]. apply frames_calm; auto with prefs.
  - cbn [mret st_ret fst snd negb]. by apply SaveXmlFile_write_calm.
Qed.

(** ** Restoring from the backup *)

Lemma str_app_inj_l a b c : a +:+ b = a +:+ c -> b = c.
Proof. induction a as [|x a IH]; [done|]. intros E. injection E as E. auto. Qed.

(** An [errno] that says nothing about keys, space or descriptors. *)
Definition benign (n : Z) : bool :=
  negb ((n =? REQUIRED_KEY_NOT_AVAILABLE) || (n =? REQUIRED_KEY_REVOKED) ||
        ((n =? NO_SPACE_LEFT_ON_DEVICE) || (n =? DISK_QUOTA_EXCEEDED) || (n =? TOO_MANY_OPEN_FILES))).

Definition benign_errno (e : Env) : Prop := benign (errno_ (fs e)) = true.

(** Without failing calls, [errno] stays benign. *)
Definition keeps_benign {A} (m : ST Env A) : Prop := forall e,
  calm e -> benign_errno e -> benign_errno (snd (m e)).

Lemma keeps_benign_bind {A B} (m : ST Env A) (k : A -> ST Env B) :
  frames m -> keeps_benign m -> (forall a, keeps_benign (k a)) -> keeps_benign (m ≫= k).
Proof. intros Hf Hm Hk e Hc Hb. rewrite bind_run. apply Hk; [by apply frames_calm|by apply Hm]. Qed.

Lemma keeps_benign_ret {A} (a : A) : keeps_benign (mret a).
Proof. by intros e _ Hb. Qed.

Lemma keeps_benign_syscall {A} (fail : A) (ok : SysFate -> ST FileSystem A) :
  (forall r f, benign (errno_ f) = true -> benign (errno_ (snd (ok r f))) = true) ->
  keeps_benign (syscall fail ok).
Proof.
  intros Hok e Hc Hb. unfold benign_errno.
  destruct (syscall_ok fail ok e (calm_next _ Hc)) as (r & f & _ & _ & He & _ & _ & ->).
  apply Hok. by rewrite He.
Qed.

Ltac benign_sys :=
  apply keeps_benign_syscall; intros ? ? ?;
  unfold mbind, st_bind, get, set_errno, set_files, modify, mret, st_ret; repeat case_match; done.

Lemma keeps_benign_IsFileExist f : keeps_benign (IsFileExist f).
Proof.
  unfold IsFileExist. case_match; [apply keeps_benign_ret|]. apply keeps_benign_bind; [auto with prefs|benign_sys|intros; apply keeps_benign_ret].
Qed.

Lemma keeps_benign_lock_attempts n fd b : keeps_benign (lock_attempts n fd b).
Proof.
  revert b. induction n as [|n IH]; intros b; cbn [lock_attempts]; [apply keeps_benign_ret|].
  apply keeps_benign_bind; [auto with prefs|benign_sys|]. intros r. case_match; [apply keeps_benign_ret|apply IH].
Qed.

Lemma keeps_benign_ReadLock l b : keeps_benign (ReadLock l b).
Proof.
  unfold ReadLock, Lock. apply keeps_benign_bind; [auto with prefs|benign_sys|]. intros r.
  case_match; [apply keeps_benign_ret|]. apply keeps_benign_bind; [auto with prefs|benign_sys|]. intros [fd|]; [|intros; apply keeps_benign_ret].
  apply keeps_benign_bind; [auto with prefs|apply keeps_benign_lock_attempts|intros; apply keeps_benign_ret].
Qed.

(** A file that does not parse. *)
Lemma ReadFile_corrupt f c msg e : ~ faulted e -> benign_errno e ->
  files (fs e) !! c_str f = Some c -> xmlParse c = inr msg ->
  ensures (ReadFile f e) (fun r e' => r.1 = None /\ benign r.2 = true).
Proof.
  intros Hn Hb Hc Hp. unfold ReadFile, xmlReadFile. rewrite !bind_run.
  match goal with |- context [@syscall ?T ?fl ?k e] =>
    destruct (@syscall_ok T fl k e Hn) as (r & f1 & Hf & _ & He & _ & Ha & Hs);
    destruct (@syscall T fl k e) as [a e1] end.
  unfold mbind, st_bind, get in Ha, Hs. cbn [fst snd] in Ha, Hs. rewrite Hf, Hc in Ha, Hs. cbn in Ha, Hs.
  subst a. cbn [fst snd]. rewrite Hp. split; [done|].
  change (benign (errno_ (fs e1)) = true). by rewrite Hs, He.
Qed.

Lemma ReportNonCorruptError_benign a f b n e : benign n = true ->
  ReportNonCorruptError a f b n e = (false, e).
Proof.
  intros Hb. unfold ReportNonCorruptError, benign in *. apply negb_true_iff, orb_false_iff in Hb as [-> ->].
  done.
Qed.

(** The restoration itself, once the file is out of the way. *)
Lemma XmlReadFile_restore_restores f b isReport mp n msg bak root e :
  calm e -> path_ok f -> files (fs e) !! backup f = Some bak -> xmlParse bak = inl root ->
  ensures (XmlReadFile_restore garbage_size f b isReport mp n msg e) (fun r e' => r = Some root /\
    files (fs e') = <[f := bak]> (delete (backup f) (files (fs e)))).
Proof.
  intros Hcalm Hf Hb Hp. destruct (path_ok_facts f Hf) as (H1 & H2 & H3 & H4 & H5 & H6 & H7).
  unfold XmlReadFile_restore. rewrite bind_run.
  destruct (RenameFromBackupFile_restores f b isReport bak root e Hcalm) as [-> Hr];
    [apply Hf|by rewrite H2|done|]. rewrite H1, H2 in Hr. rewrite <- Hr.
  apply (frames_calm (RenameFromBackupFile garbage_size f b isReport)) in Hcalm; [|auto with prefs].
  assert (Hc : files (fs (snd (RenameFromBackupFile garbage_size f b isReport e))) !! f = Some bak)
    by (by rewrite Hr, lookup_insert_eq).
  revert Hcalm Hc. generalize (snd (RenameFromBackupFile garbage_size f b isReport e)) as e1.
  clear Hr. intros e1 Hcalm Hc. rewrite bind_run, bind_run.
  pose proof (ReadFile_ok f bak root e1 (calm_next _ Hcalm) ltac:(by rewrite H1) Hp) as Hr.
  assert (Hk : files (fs (snd (ReadFile f e1))) = files (fs e1)) by (apply map_eq; intros q; apply keeps_ReadFile).
  destruct (ReadFile f e1) as [[doc n1] e2]. cbn [fst snd] in *. subst doc. rewrite <- Hk. clear.
  rewrite bind_run. cbn [mret st_ret fst snd]. change (snd (last_message e2)) with e2.
  destruct mp; rewrite bind_run; (split; [done|]); apply map_eq; intros q; cbn [mret st_ret snd].
  - apply keeps_ReportFault.
  - done.
Qed.

Lemma lock_ne f suffix : path_ok f -> no_nul suffix = true -> suffix <> STR_LOCK ->
  MakeFilePath f suffix <> c_str (MakeFilePath f STR_LOCK).
Proof.
  intros (_ & Hn & _) Hs Hne. unfold MakeFilePath. rewrite c_str_no_nul by (by rewrite no_nul_app, Hn).
  intros E. by apply str_app_inj_l in E.
Qed.

(** The file is missing, or does not parse. *)
Definition unreadable (f : string) (e : Env) : Prop :=
  (files (fs e) !! f = None /\ f ∉ dirs (fs e)) \/
  (exists c msg, files (fs e) !! f = Some c /\ xmlParse c = inr msg).

(** What is under the names of a store after a restoration. *)
Definition restored (f bak : string) (old : gmap string string) (e : Env) : Prop :=
  files (fs e) !! f = Some bak /\ files (fs e) !! backup f = None /\
  files (fs e) !! broken f = match old !! f with Some c => Some c | None => old !! broken f end.

Lemma XmlReadFile_locked_restores f b mp bak root e :
  calm e -> path_ok f -> benign_errno e -> unreadable f e ->
  files (fs e) !! backup f = Some bak -> xmlParse bak = inl root ->
  ensures (XmlReadFile_locked garbage_size f b mp e)
    (fun r e' => r = Some root /\ restored f bak (files (fs e)) e').
Proof.
  intros Hcalm Hf Hbe Hbad Hb Hp. destruct (path_ok_facts f Hf) as (H1 & H2 & H3 & H4 & H5 & H6 & H7).
  unfold XmlReadFile_locked. rewrite bind_run.
  rewrite IsFileExist_ok by (done || by apply calm_next). unfold path_exists. rewrite H1.
  apply (keeps_benign_IsFileExist f) in Hbe; [|done].
  apply (frames_calm (IsFileExist f)) in Hcalm; [|auto with prefs].
  pose proof (IsFileExist_files f e) as Hk. unfold unreadable in Hbad.
  rewrite <- Hk in Hb, Hbad |- *. revert Hbe Hcalm Hb Hbad.
  generalize (dirs (fs e)) as D. generalize (snd (IsFileExist f e)) as e1. clear Hk.
  intros e1 D Hbe Hcalm Hb [[Hno Hd]|(c & msg & Hc & Hpc)].
  - rewrite Hno, bool_decide_eq_false_2, bool_decide_eq_false_2 by (done || by intros []). cbn [orb].
    destruct (XmlReadFile_restore_restores f b false mp 0 "" bak root e1) as [Hres Hr]; try done.
    split; [done|]. unfold restored. rewrite Hr, Hno, lookup_insert_eq, !lookup_insert_ne by done.
    by rewrite lookup_delete_eq, lookup_delete_ne by done.
  - rewrite Hc, bool_decide_eq_true_2 by done. cbn [orb]. rewrite bind_run.
    destruct (ReadFile_corrupt f c msg e1 (calm_next _ Hcalm) Hbe) as [Hdoc Hn]; [by rewrite H1|done|].
    assert (Hk : files (fs (snd (ReadFile f e1))) = files (fs e1)) by (apply map_eq; intros q; apply keeps_ReadFile).
    apply (frames_calm (ReadFile f)) in Hcalm; [|auto with prefs]. rewrite <- Hk in Hb, Hc |- *.
    destruct (ReadFile f e1) as [[doc n] e2]. cbn [fst snd] in *. subst doc.
    rewrite bind_run. change (snd (last_message e2)) with e2. generalize (fst (last_message e2)) as m. intros m.
    rewrite bind_run, ReportNonCorruptError_benign by done. cbn [fst snd].
    unfold RenameToBrokenFile, RenameFile. fold (broken f). rewrite !bind_run. cbn [mret st_ret fst snd].
    destruct (rename_ok f (broken f) c e2) as [-> Hren]; [by apply calm_next|by rewrite H1|].
    rewrite H1, H3 in Hren. cbn [Z.eqb negb].
    apply (frames_calm (rename f (broken f))) in Hcalm; [|auto with prefs].
    destruct (XmlReadFile_restore_restores f b true mp n m bak root (snd (rename f (broken f) e2)))
      as [Hres Hr]; try done.
    { by rewrite Hren, lookup_insert_ne, lookup_delete_ne. }
    split; [done|]. unfold restored.
    rewrite Hr, Hren, Hc. split_and!; [by simplify_map_eq..|].
    by rewrite lookup_insert_ne, lookup_delete_ne, lookup_insert_eq.
Qed.

(** ** The interface of the object *)

(** The text of a representable map, read again. *)
Lemma document_contents (m : gmap string PreferencesValue) :
  (forall k v, m !! k = Some v -> good_text k /\ lossless_value v) ->
  exists calls, document_calls (map_to_list m) = Done calls /\ text_contents (xmlText calls) = Some m.
Proof.
  intros Hm. destruct (document_roundtrip (map_to_list m) ∅) as (calls & root & Hc & Hp & attrs & nodes & -> & Hr).
  - apply NoDup_fst_map_to_list.
  - apply Forall_forall. intros [k v] Hkv. by apply Hm, elem_of_map_to_list.
  - exists calls. split; [done|]. unfold text_contents. rewrite Hp, bool_decide_eq_true_2 by done.
    by rewrite Hr, map_empty_union, list_to_map_to_list.
Qed.

#[export] Instance xml_utils_laws : @XmlStoreLaws (xml_utils undefined_read undefined_write garbage_size).
Proof.
  unshelve refine (@Build_XmlStoreLaws (xml_utils undefined_read undefined_write garbage_size)
    (fun e f => files (fs e) !! c_str f ≫= text_contents)
    (fun k v => good_text k /\ lossless_value v) _ _ _ _ _).
  - intros f b m e Hns Hne Hf Hm. destruct (document_contents m) as (calls & Hc & Ht).
    { intros k v Hkv. by destruct (Hm k v Hkv) as [_ ?]. }
    cbn [WriteSettingXml xml_utils]. rewrite bind_run. cbn [mret st_ret fst snd].
    unfold Xml_WriteSettingXml. rewrite Hc.
    destruct (String.length f =? 0)%nat; [done|]. destruct (xmlBufferOk _); [|done].
    destruct xmlWriterOk; [|done]. destruct (calls_ok _ _); [|done]. cbn [negb].
    rewrite bind_run. cbn [mret st_ret fst snd]. intros Hr.
    rewrite c_str_no_nul, (SaveXmlFile_written id) by (done || by apply no_short_writes_as). exact Ht.
  - intros f b con m e Hnf Hf Hl Hst Hr. rewrite c_str_no_nul in * by done.
    destruct (files (fs e) !! f) as [c|] eqn:Hc; [|done]. cbn in Hst.
    destruct (decide (f = "")) as [->|Hne]; [done|].
    destruct (Xml_ReadSettingXml_present f b con c m e) as [H1 H2]; try done.
    cbn [ReadSettingXml xml_utils] in *. rewrite bind_run in *. cbn [mret st_ret fst snd] in *.
    rewrite H1 in *. by rewrite H2.
  - intros f e e' ->. done.
  - intros f b con. cbn [ReadSettingXml xml_utils].
    apply frames_bind; [apply frames_Xml_ReadSettingXml|intros; apply frames_ret].
  - intros f b m. cbn [WriteSettingXml xml_utils].
    apply frames_bind; [apply frames_Xml_WriteSettingXml|intros; apply frames_ret].
Defined.
End XmlUtils_laws.

(** ** Properties *)

Section XmlUtils_properties.
Context `{LibXmlLaws} (garbage_size : Z).

(** No allocation of libxml2 fails. *)
Definition libxml_ok : Prop :=
  (forall n, xmlBufferOk n = true) /\ xmlWriterOk = true /\ forall done c, xmlCallOk done c = true.

Lemma calls_ok_all (Hok : libxml_ok) done calls : calls_ok done calls = true.
Proof.
  revert done. induction calls as [|c calls IH]; intros done; cbn [calls_ok]; [reflexivity|].
  rewrite (proj2 (proj2 Hok)). apply IH.
Qed.

(** C4: A saved map is loaded again: when no system call fails or is cut short,
    libxml2 has memory and the path is one of a file (not empty, no NUL, not
    too long for its backup, no directory), [WriteSettingXml] of entries with
    legal texts and lossless values (no floats or doubles) succeeds and leaves
    no backup, and a [ReadSettingXml] of the file into any map succeeds and adds
    exactly the saved entries, those already in the map taking precedence. *)
Theorem xml_save_load (f b b' : string) (m con : gmap string PreferencesValue) (e : Env)
    (Hnf : no_faults e) (Hlib : libxml_ok) (Hf : path_ok f) (Hd : f ∉ dirs (fs e))
    (Hm : forall k v, m !! k = Some v -> good_text k /\ lossless_value v) :
  let '(w, e1) := Xml_WriteSettingXml garbage_size f b m e in
  let '(r, e2) := Xml_ReadSettingXml garbage_size f b' con e1 in
  w = Done true /\ files (fs e1) !! backup f = None /\
  r = Done (true, con ∪ m) /\ files (fs e2) !! f = files (fs e1) !! f.
Proof.
  destruct (path_ok_facts f Hf) as (H1' & _ & _ & _ & _ & _ & Hl). pose proof Hf as (Hne & Hn & _).
  destruct (document_contents m Hm) as (calls & Hc & Ht).
  unfold Xml_WriteSettingXml. rewrite Hc, calls_ok_all by done. destruct Hlib as (-> & -> & _).
  destruct (String.length f =? 0)%nat eqn:El; [by destruct f|]. cbn [negb]. rewrite bind_run.
  destruct (SaveXmlFile_calm garbage_size f b (xmlText calls) e) as [Hr Hbak]; [by apply no_faults_calm|done..|].
  assert (Hns : no_short_writes e) by (intros k n; by rewrite Hnf).
  pose proof (SaveXmlFile_written garbage_size id f b (xmlText calls) e Hn
    (no_short_writes_as _ Hns) Hr) as Hfile.
  apply (frames_no_faults (SaveXmlFile garbage_size f b (xmlText calls))) in Hnf; [|apply frames_SaveXmlFile].
  destruct (SaveXmlFile garbage_size f b (xmlText calls) e) as [r e1]. cbn [fst snd mret st_ret] in *. subst r.
  destruct (Xml_ReadSettingXml_present garbage_size f b' con _ m e1 Hnf Hne Hn Hl Hfile Ht) as [Hrd Hk].
  destruct (Xml_ReadSettingXml garbage_size f b' con e1) as [r e2]. cbn [fst snd] in *.
  split_and!; [done..|]. by rewrite Hk, Hfile.
Qed.

(** C5: Saving over a file that parses is atomic against one failing system
    call, whichever it is and whatever its error, as long as no [write] is cut
    short: [SaveXmlFile], on a path that is not empty, has no NUL and is not too
    long for the backup, either answers success and the file holds the new text,
    or answers failure and the file holds the old text.  (A [write] that is cut
    short is taken for a success and truncates the file,
    [SaveXmlFile_short_write]; a second failing call can lose the file,
    [SaveXmlFile_loses_data].) *)
Theorem SaveXmlFile_atomic (f b buf c : string) (e : Env)
    (Hs : single_fault e) (Hns : no_short_writes e) (Hf : path_ok f)
    (Hc : files (fs e) !! f = Some c) (Hp : read_ok c) :
  let '(r, e') := SaveXmlFile garbage_size f b buf e in
  files (fs e') !! f = Some (if r then buf else c).
Proof.
  pose proof Hf as (Hne & Hn & _).
  assert (Hw := SaveXmlFile_written garbage_size id f b buf e Hn (no_short_writes_as _ Hns)).
  unfold SaveXmlFile in *. rewrite bind_run in *.
  apply (frames_single (WriteLock (FileLock_new f) false)) in Hs; [|auto with prefs].
  assert (Hcl : files (fs (snd (WriteLock (FileLock_new f) false e))) !! f = Some c).
  { unfold WriteLock. rewrite keeps_Lock; [done|]. apply (companion_ne f STR_LOCK); done. }
  destruct (WriteLock (FileLock_new f) false e) as [[l mp] e1]. cbn [fst snd] in *.
  rewrite !bind_run in *. cbn [mret st_ret fst snd] in *. rewrite keeps_FileLock_release in *.
  pose proof (SaveXmlFile_locked_atomic garbage_size f b buf mp c e1 Hs Hf Hcl Hp) as Ha. unfold ensures in Ha.
  destruct (fst (SaveXmlFile_locked garbage_size f b buf mp e1)); auto.
Qed.

(** A [write] that is cut short is taken for a success: when the disk
    takes only [n] bytes of each write, [SaveXmlFile] answers success, the
    file holds the first [n] bytes of the text, and the backup is gone. *)
Theorem SaveXmlFile_short_write (f b buf : string) (n : nat) (e : Env)
    (Hshort : forall k, fate (fs e) k = SysShort n) (Hf : path_ok f) (Hd : f ∉ dirs (fs e)) :
  let '(r, e') := SaveXmlFile garbage_size f b buf e in
  r = true /\
  files (fs e') !! f = Some (String.substring 0 (Nat.min n (String.length buf)) buf) /\
  files (fs e') !! backup f = None.
Proof.
  assert (Hcalm : calm e) by (intros k n' _; by rewrite Hshort).
  destruct (SaveXmlFile_calm garbage_size f b buf e Hcalm Hf Hd) as [Hr Hbak].
  assert (Hw : writes_as (written (SysShort n)) e) by (intros k t; right; by rewrite Hshort).
  pose proof (SaveXmlFile_written garbage_size _ f b buf e (proj1 (proj2 Hf)) Hw Hr) as Hfile.
  destruct (SaveXmlFile garbage_size f b buf e) as [r e1]. cbn [fst snd] in *. by split_and!.
Qed.

(** C6: A file that is missing or does not parse is restored: if its backup
    parses, no system call fails and [errno] does not say that keys, space or
    descriptors are missing, [XmlReadFile] returns the backup's document, the
    file holds the backup's text, the backup is gone, and the unreadable text
    is kept under the broken name. *)
Theorem XmlReadFile_restores (f b bak : string) (root : option XmlNode) (e : Env)
    (Hcalm : calm e) (Hf : path_ok f) (Hbe : benign_errno e) (Hbad : unreadable f e)
    (Hb : files (fs e) !! backup f = Some bak) (Hp : xmlParse bak = inl root) :
  let '(doc, e') := XmlReadFile garbage_size f b e in
  doc = Some root /\ restored f bak (files (fs e)) e'.
Proof.
  unfold XmlReadFile. rewrite bind_run. pose proof Hf as (Hne & Hn & _).
  assert (Hk : forall s, s = "" \/ s = STR_BACKUP \/ s = STR_BROKEN ->
    files (fs (snd (ReadLock (FileLock_new f) false e))) !! MakeFilePath f s = files (fs e) !! MakeFilePath f s).
  { intros s Hs. apply keeps_ReadLock, lock_ne; destruct Hs as [->|[->| ->]]; done. }
  pose proof (Hk "" ltac:(auto)) as Hk1. pose proof (Hk STR_BACKUP ltac:(auto)) as Hk2.
  pose proof (Hk STR_BROKEN ltac:(auto)) as Hk3. unfold MakeFilePath at 1 2 in Hk1.
  rewrite str_app_nil_r in Hk1. fold (backup f) in Hk2. fold (broken f) in Hk3. clear Hk.
  pose proof (framed_dirs _ _ (frames_ReadLock (FileLock_new f) false e)) as Hdirs.
  apply (keeps_benign_ReadLock (FileLock_new f) false) in Hbe; [|done].
  apply (frames_calm (ReadLock (FileLock_new f) false)) in Hcalm; [|auto with prefs].
  destruct (ReadLock (FileLock_new f) false e) as [[l mp] e1]. cbn [fst snd] in *.
  assert (Hbad1 : unreadable f e1) by (unfold unreadable; by rewrite Hk1, Hdirs).
  rewrite !bind_run. cbn [mret st_ret]. rewrite <- Hk2 in Hb.
  destruct (XmlReadFile_locked_restores garbage_size f b mp bak root e1) as [-> (Hr1 & Hr2 & Hr3)]; try done.
  split; [done|]. unfold restored. rewrite !keeps_FileLock_release, Hr1, Hr2, Hr3, Hk1, Hk3. done.
Qed.

(** The descriptors of the process are exhausted: the opens of a save (of the
    lock, the file and the backup: calls 0, 3 and 6) fail, the calls on paths
    do not. *)
Definition no_descriptors (k : nat) : SysFate :=
  if (k =? 0)%nat || (k =? 3)%nat || (k =? 6)%nat then SysErr TOO_MANY_OPEN_FILES else SysOk.

(** A save with no free descriptor destroys the stored data: the file has
    been renamed to the backup, the new file cannot be opened, and because the
    backup cannot be opened either it is removed; [SaveXmlFile] answers
    failure and no file is left. *)
Theorem SaveXmlFile_loses_data (c buf b : string) (sv : Services) (faults : gmap string Z) :
  let e := mkEnv (mkFileSystem {[ "/data/p" := c ]} ∅ 0 0 no_descriptors None) sv [] faults in
  fst (SaveXmlFile garbage_size "/data/p" b buf e) = false /\
  files (fs (snd (SaveXmlFile garbage_size "/data/p" b buf e))) = ∅.
Proof.
  destruct sv as [al cl st ta tok np ct se]. destruct tok; split; vm_compute; reflexivity.
Qed.
End XmlUtils_properties.

(** ** A reference libxml2 and concrete runs

    The text of a sequence of calls is its encoding; the parser decodes it and
    builds the tree of the calls. *)

Definition flat_call (c : WCall) : nat * (string * string) :=
  match c with
  | StartDocument s => (0%nat, (s, "")) | StartElement s => (1%nat, (s, ""))
  | WriteAttribute n v => (2%nat, (n, v)) | WriteString s => (3%nat, (s, ""))
  | EndElement => (4%nat, ("", "")) | EndDocument => (5%nat, ("", ""))
  end.

Definition unflat_call (t : nat * (string * string)) : WCall :=
  let '(c, (a, b)) := t in
  match c with
  | 0%nat => StartDocument a | 1%nat => StartElement a | 2%nat => WriteAttribute a b
  | 3%nat => WriteString a | 4%nat => EndElement | _ => EndDocument
  end.

Lemma unflat_flat_call c : unflat_call (flat_call c) = c.
Proof. by destruct c. Qed.

#[export] Instance WCall_eq_dec : EqDecision WCall.
Proof. solve_decision. Defined.
#[export] Instance WCall_countable : Countable WCall :=
  inj_countable' flat_call unflat_call unflat_flat_call.

Definition frame : Type := string * list (string * string) * list XmlNode.

(** One call on the open elements (innermost first) and the finished root. *)
Definition call_step (st : list frame * option XmlNode) (c : WCall) : option (list frame * option XmlNode) :=
  let '(stack, root) := st in
  match c, stack with
  | StartDocument _, [] => Some st
  | StartElement n, _ => Some ((n, [], []) :: stack, root)
  | WriteAttribute n v, (name, attrs, []) :: rest => Some ((name, attrs ++ [(n, v)], []) :: rest, root)
  | WriteString s, (name, attrs, cs) :: rest =>
      Some ((name, attrs, if bool_decide (s = "") then cs else cs ++ [Text s]) :: rest, root)
  | EndElement, (name, attrs, cs) :: (name', attrs', cs') :: rest =>
      Some ((name', attrs', cs' ++ [Elem name attrs cs]) :: rest, root)
  | EndElement, [(name, attrs, cs)] => Some ([], Some (Elem name attrs cs))
  | EndDocument, [] => Some st
  | _, _ => None
  end.

Fixpoint run_calls (calls : list WCall) (st : list frame * option XmlNode)
    : option (list frame * option XmlNode) :=
  match calls with
  | [] => Some st
  | c :: calls' => st' ← call_step st c; run_calls calls' st'
  end.

(** The tree a complete sequence of calls describes. *)
Definition doc_of (calls : list WCall) : option XmlNode :=
  match run_calls calls ([], None) with Some ([], root) => root | _ => None end.

#[export] Instance ref_xml : LibXml := {|
  xmlText calls := enc_text calls;
  xmlCallOk _ _ := true;
  xmlBufferOk _ := true;
  xmlWriterOk := true;
  xmlParse s := match dec_text s with Some calls => inl (doc_of calls) | None => inr "parser error" end;
  xmlIoError := "I/O error"
|}.

Lemma run_calls_app a b st : run_calls (a ++ b) st = (st' ← run_calls a st; run_calls b st').
Proof.
  revert st. induction a as [|c a IH]; intros st; [done|]. cbn [app run_calls].
  destruct (call_step st c) as [st'|]; [|done]. cbn. apply IH.
Qed.

Lemma run_attributes l name attrs st rest :
  run_calls (map (fun a => WriteAttribute a.1 a.2) l ++ rest) ((name, attrs, []) :: st, None) =
  run_calls rest ((name, attrs ++ l, []) :: st, None).
Proof.
  revert attrs. induction l as [|[n v] l IH]; intros attrs; [by rewrite app_nil_r|]. cbn. rewrite IH. by rewrite <- app_assoc.
Qed.

(** Writing an element opens it and fills it. *)
Lemma run_element legal d t : writable legal d t -> exists name attrs children, parsed t = Elem name attrs children /\
  forall st, run_calls (calls_of t) (st, None) = run_calls [EndElement] ((name, attrs, children) :: st, None).
Proof.
  revert t. induction d as [|d IH]; intros t; [done|]. destruct t as [name attrs children|]; [|done].
  intros (_ & _ & _ & Hc). cbn [parsed calls_of]. eexists name, attrs, _. split; [done|]. intros st.
  cbn [run_calls call_step mbind option_bind]. rewrite run_attributes, run_calls_app. cbn [app].
  enough (E : run_calls (flat_map calls_of children) ((name, attrs, []) :: st, None) =
    Some ((name, attrs, List.filter (fun c => negb (no_text c)) (map parsed children)) :: st, None)) by (by rewrite E).
  destruct Hc as [Hc|(s & -> & _)]; [|cbn; by destruct s].
  change (@nil XmlNode) with (List.filter (fun c => negb (no_text c)) (map parsed [])) at 1.
  change children with ([] ++ children) at 2. generalize (@nil XmlNode) as before.
  induction Hc as [|t ts Ht _ IHc]; intros before; [by rewrite app_nil_r|].
  destruct (IH t Ht) as (n & a & cs & Ep & Er). cbn [flat_map]. rewrite run_calls_app, Er. cbn [run_calls call_step mbind option_bind].
  replace (before ++ t :: ts) with ((before ++ [t]) ++ ts) by (by rewrite <- app_assoc). rewrite <- IHc. repeat f_equal.
  rewrite map_app, List.filter_app. cbn [map List.filter]. by rewrite Ep.
Qed.

Lemma doc_of_written legal d root : writable legal d root -> doc_of (document_of root) = Some (parsed root).
Proof.
  intros Hr. destruct (run_element legal d root Hr) as (n & a & cs & -> & E). unfold doc_of, document_of.
  cbn [run_calls call_step mbind option_bind]. rewrite run_calls_app, E. done.
Qed.

#[export] Instance ref_xml_laws : LibXmlLaws.
Proof.
  refine {| xml_legal _ := True |}; [done|].
  intros root Hr. unfold xmlParse, xmlText, ref_xml. by rewrite dec_enc_text, (doc_of_written _ _ _ Hr).
Defined.

Definition ref_services : Services :=
  mkServices ∅ None true true TOKEN_HAP None "now" (fun _ => "error").
Definition ref_env (fl : gmap string string) (ft : nat -> SysFate) : Env :=
  mkEnv (mkFileSystem fl ∅ 0 0 ft None) ref_services [] ∅.

Lemma ref_path_ok : path_ok "/data/p".
Proof. by split_and!. Qed.

Definition ref_doc : string := enc_text [StartElement "preferences"; EndElement].

Lemma ref_doc_parses : xmlParse ref_doc = inl (Some (Elem "preferences" [] [])).
Proof. vm_compute. reflexivity. Qed.

Example xml_save_load_witness :
  let m : gmap string PreferencesValue := {[ "k" := VInt 7 ]} in
  let '(w, e1) := Xml_WriteSettingXml 0 "/data/p" "b" m (ref_env ∅ (fun _ => SysOk)) in
  let '(r, e2) := Xml_ReadSettingXml 0 "/data/p" "b" ∅ e1 in
  w = Done true /\ files (fs e1) !! "/data/p.bak" = None /\
  r = Done (true, ∅ ∪ m) /\ files (fs e2) !! "/data/p" = files (fs e1) !! "/data/p".
Proof.
  apply (xml_save_load 0 "/data/p" "b" "b" {[ "k" := VInt 7 ]} ∅ (ref_env ∅ (fun _ => SysOk)));
    [done|by split_and!|exact ref_path_ok|done|].
  intros k v [<- <-]%lookup_singleton_Some. by split.
Defined.

(** The fate under which the [n]-th call fails. *)
Definition fail_at (n k : nat) : SysFate := if (k =? n)%nat then SysErr NO_SPACE_LEFT_ON_DEVICE else SysOk.

Example SaveXmlFile_atomic_witness :
  let '(r, e') := SaveXmlFile 0 "/data/p" "b" "new" (ref_env {[ "/data/p" := ref_doc ]} (fail_at 5)) in
  r = false /\ files (fs e') !! "/data/p" = Some (if r then "new" else ref_doc).
Proof.
  assert (Hr : fst (SaveXmlFile 0 "/data/p" "b" "new" (ref_env {[ "/data/p" := ref_doc ]} (fail_at 5))) = false)
    by (vm_compute; reflexivity).
  pose proof (SaveXmlFile_atomic 0 "/data/p" "b" "new" ref_doc (ref_env {[ "/data/p" := ref_doc ]} (fail_at 5))) as Ha.
  destruct (SaveXmlFile _ _ _ _ _) as [r e']. split; [exact Hr|]. apply Ha.
  - intros i j n n' _ _. cbn. unfold fail_at. destruct (Nat.eqb_spec i 5), (Nat.eqb_spec j 5); congruence.
  - intros k n. cbn. unfold fail_at. destruct (k =? 5)%nat; discriminate.
  - exact ref_path_ok.
  - done.
  - eexists. exact ref_doc_parses.
Defined.

Example SaveXmlFile_short_write_witness :
  let '(r, e') := SaveXmlFile 0 "/data/p" "b" "abcdef" (ref_env {[ "/data/p" := ref_doc ]} (fun _ => SysShort 3)) in
  r = true /\ files (fs e') !! "/data/p" = Some (String.substring 0 (Nat.min 3 6) "abcdef") /\
  files (fs e') !! "/data/p.bak" = None.
Proof.
  apply (SaveXmlFile_short_write 0 "/data/p" "b" "abcdef" 3
    (ref_env {[ "/data/p" := ref_doc ]} (fun _ => SysShort 3))); [done|exact ref_path_ok|done].
Defined.

Example XmlReadFile_restores_witness :
  let e := ref_env (<[ "/data/p" := "junk" ]> {[ "/data/p.bak" := ref_doc ]}) (fun _ => SysOk) in
  let '(doc, e') := XmlReadFile 0 "/data/p" "b" e in
  doc = Some (Some (Elem "preferences" [] [])) /\ restored "/data/p" ref_doc (files (fs e)) e'.
Proof.
  apply (XmlReadFile_restores 0 "/data/p" "b" ref_doc (Some (Elem "preferences" [] []))
    (ref_env (<[ "/data/p" := "junk" ]> {[ "/data/p.bak" := ref_doc ]}) (fun _ => SysOk)));
    [done|exact ref_path_ok|done| |done|].
  - right. exists "junk", "parser error". by split.
  - exact ref_doc_parses.
Defined.
