(* ===== verification/DbAdapter.v ===== *)
(** * The adapter of the key-value database

    Models [preferences_db_adapter.cpp].  The database library is loaded at
    run time ([dlopen]) and is a parameter ([Grd]): its functions on a kernel
    state.  A loaded database is a handle; the pointer [db_] is an optional
    handle.  The last section shows what the adapter promises to the enhanced
    store ([KvDb]). *)

From S2P Require Import Prelude Errno Utils Env Store.

(** ** The library's functions *)

(** [preferences_db_adapter.h:116-136] GRD_APIInfo *)
Inductive Api :=
  | DbOpenApi | DbCloseApi | DbCreateCollectionApi | DbDropCollectionApi | DbIndexPreloadApi
  | DbKvPutApi | DbKvGetApi | DbKvDelApi | DbKvFilterApi | NextApi | GetValueApi | GetItemApi
  | GetItemSizeApi | FetchApi | FreeItemApi | FreeResultSetApi | DbRepairApi | DbGetConfigApi
  | DbSetEventCallbackApi.

(** The symbol of each function.

    [preferences_db_adapter.cpp:48-73] GRDDBApiInitEnhance *)
Definition symbol (a : Api) : string :=
  match a with
  | DbOpenApi => "GRD_DBOpen" | DbCloseApi => "GRD_DBClose"
  | DbCreateCollectionApi => "GRD_CreateCollection" | DbDropCollectionApi => "GRD_DropCollection"
  | DbIndexPreloadApi => "GRD_IndexPreload" | DbKvPutApi => "GRD_KVPut" | DbKvGetApi => "GRD_KVGet"
  | DbKvDelApi => "GRD_KVDel" | DbKvFilterApi => "GRD_KVFilter" | NextApi => "GRD_Next"
  | GetValueApi => "GRD_GetValue" | GetItemApi => "GRD_GetItem" | GetItemSizeApi => "GRD_KVGetSize"
  | FetchApi => "GRD_Fetch" | FreeItemApi => "GRD_KVFreeItem" | FreeResultSetApi => "GRD_FreeResultSet"
  | DbRepairApi => "GRD_DBRepair" | DbGetConfigApi => "GRD_GetConfig"
  | DbSetEventCallbackApi => "GRD_SetEventCallback"
  end.

(** What a cursor yields: the rows, each with the results of the two calls
    that fetch it, and the result of the step past the last row. *)
Record ResultSet := mkResultSet {
  rows : list (Z * Z * (list Z * list Z));
  end_code : Z
}.

Class Grd := {
  kernel : Type;
  handle : Type;
  dlopen_ok : bool;
  dlsym_ok : string -> bool;
  grd_open : string -> Z -> option handle -> kernel -> (Z * option handle * option string) * kernel;
  grd_close : option handle -> kernel -> Z * kernel;
  grd_create : option handle -> kernel -> Z * kernel;
  grd_drop : option handle -> kernel -> Z * kernel;
  grd_preload : option handle -> kernel -> Z * kernel;
  grd_put : option handle -> list Z -> list Z -> kernel -> Z * kernel;
  grd_get : option handle -> list Z -> kernel -> (Z * list Z) * kernel;
  grd_del : option handle -> list Z -> kernel -> Z * kernel;
  grd_filter : option handle -> kernel -> (Z * ResultSet) * kernel;
  grd_repair : string -> kernel -> Z * kernel;
  grd_config : option handle -> kernel -> (Z * Z);   (** type and value of the data version *)
  grd_set_callback : kernel -> Z * kernel
}.

Definition GRD_DB_OPEN_CREATE : Z := 1.
Definition GRD_DB_OPEN_CHECK : Z := 4.
Definition GRD_DB_DATATYPE_INTEGER : Z := 0.
Definition GRD_OK : Z := 0.
Definition GRD_NOT_SUPPORT : Z := -1000.
Definition GRD_OVER_LIMIT : Z := -2000.
Definition GRD_INVALID_ARGS : Z := -3000.
Definition GRD_NO_DATA : Z := -11000.
Definition GRD_FAILED_MEMORY_ALLOCATE : Z := -13000.
Definition GRD_FAILED_MEMORY_RELEASE : Z := -14000.
Definition GRD_UNDEFINED_TABLE : Z := -23000.
Definition GRD_REBUILD_DATABASE : Z := -38000.
Definition GRD_PERMISSION_DENIED : Z := -43000.
Definition GRD_DATA_CORRUPTED : Z := -45000.
Definition GRD_DB_BUSY : Z := -46000.

Definition CREATE_COLLECTION_RETRY_TIMES : nat := 2.
(** The attempts after the first. *)
Definition MORE_ATTEMPTS : nat := pred CREATE_COLLECTION_RETRY_TIMES.
Definition DB_REPAIR_RETRY_TIMES : nat := 3.

(** [preferences_db_adapter.cpp:75-84] GRDErrnoMap *)
Definition GRDErrnoMap : list (Z * Z) :=
  [(GRD_OK, E_OK); (GRD_NOT_SUPPORT, E_NOT_SUPPORTED);
   (GRD_OVER_LIMIT, E_DEFAULT_EXCEED_LENGTH_LIMIT); (GRD_INVALID_ARGS, E_INVALID_ARGS);
   (GRD_FAILED_MEMORY_ALLOCATE, E_OUT_OF_MEMORY); (GRD_FAILED_MEMORY_RELEASE, E_OUT_OF_MEMORY);
   (GRD_PERMISSION_DENIED, PERMISSION_DENIED); (GRD_NO_DATA, E_NO_DATA)].

(** [preferences_db_adapter.cpp:86-98] TransferGrdErrno *)
Definition TransferGrdErrno (err : Z) : Z :=
  if 0 <? err then err
  else match table_find err GRDErrnoMap with Some code => code | None => E_ERROR end.

Section DbAdapter.
Context `{Grd}.

(** ** State *)

(** [preferences_db_adapter.h:147-151] PreferenceDbAdapter *)
Record Adapter := mkAdapter {
  gLibrary_ : bool;              (** the library is loaded *)
  api_ : Api -> bool;            (** the function was found *)
  isInit_ : bool;
  eventInfo_ : string;
  callback_ : bool               (** the event callback is installed *)
}.

(** The adapter and one [PreferencesDb] on a kernel.

    [preferences_db_adapter.h:175-177] PreferencesDb *)
Record Db := mkDb {
  adapter : Adapter;
  kern : kernel;
  db_ : option handle;
  dbPath_ : string;
  db_bundleName_ : string;
  db_env : Env
}.

Definition set_adapter a s := mkDb a (kern s) (db_ s) (dbPath_ s) (db_bundleName_ s) (db_env s).
Definition set_kern k s := mkDb (adapter s) k (db_ s) (dbPath_ s) (db_bundleName_ s) (db_env s).
Definition set_db h s := mkDb (adapter s) (kern s) h (dbPath_ s) (db_bundleName_ s) (db_env s).
Definition set_names p b s := mkDb (adapter s) (kern s) (db_ s) p b (db_env s).
Definition set_db_env e s := mkDb (adapter s) (kern s) (db_ s) (dbPath_ s) (db_bundleName_ s) e.

(** A call of the library. *)
Definition call {A} (f : kernel -> A * kernel) : ST Db A := fun s =>
  let '(a, k) := f (kern s) in (a, set_kern k s).

Definition db_zoom_env {A} (m : ST Env A) : ST Db A := fun s =>
  let '(a, e) := m (db_env s) in (a, set_db_env e s).

(** ** Loading the library *)

(** [preferences_db_adapter.cpp:48-73] GRDDBApiInitEnhance *)
Definition GRDDBApiInitEnhance : Api -> bool := fun a => dlsym_ok (symbol a).

(** [preferences_db_adapter.cpp:149-160] RegisterDbEventCallback *)
Definition RegisterDbEventCallback : ST Db unit :=
  s ← get;
  if negb (api_ (adapter s) DbSetEventCallbackApi) then mret tt else
  errCode ← call grd_set_callback;
  if negb (errCode =? GRD_OK) then mret tt else
  modify (fun s => let a := adapter s in
    set_adapter (mkAdapter (gLibrary_ a) (api_ a) (isInit_ a) (eventInfo_ a) true) s).

(** [preferences_db_adapter.cpp:114-132] ApiInit *)
Definition ApiInit : ST Db unit :=
  s ← get;
  let a := adapter s in
  if isInit_ a then mret tt else
  modify (set_adapter (mkAdapter dlopen_ok (if dlopen_ok then GRDDBApiInitEnhance else api_ a) true
    (eventInfo_ a) (callback_ a)));;
  RegisterDbEventCallback.

(** [preferences_db_adapter.cpp:100-103] IsEnhandceDbEnable *)
Definition IsEnhandceDbEnable : ST Db bool := gets (fun s => gLibrary_ (adapter s)).

(** Whether [GetApiInstance] has a function.

    [preferences_db_adapter.cpp:105-112] GetApiInstance *)
Definition GetApiInstance (a : Api) : ST Db bool := ApiInit;; gets (fun s => api_ (adapter s) a).

(** [preferences_db_adapter.cpp:134-139] GetDbEventInfo *)
Definition GetDbEventInfo : ST Db string :=
  s ← get;
  let a := adapter s in
  modify (set_adapter (mkAdapter (gLibrary_ a) (api_ a) (isInit_ a) "" (callback_ a)));;
  mret (eventInfo_ a).

(** [preferences_db_adapter.cpp:141-147] DbEventCallback *)
Definition DbEventCallback (eventInfo : option string) : ST Db unit :=
  match eventInfo with
  | Some info =>
      modify (fun s => let a := adapter s in
        set_adapter (mkAdapter (gLibrary_ a) (api_ a) (isInit_ a) info (callback_ a)) s)
  | None => mret tt
  end.

(** ** The database object *)

(** [preferences_db_adapter.cpp:166-176] ~PreferencesDb *)
Definition PreferencesDb_destroy : SO Db unit :=
  s ← run_st get;
  close ← run_st (GetApiInstance DbCloseApi);
  if bool_decide (is_Some (db_ s)) || close then
    if (close : bool) then
      _ ← run_st (call (grd_close (db_ s)));
      run_st (modify (set_db None))
    else run_out Undef
  else mret tt.

(** [preferences_db_adapter.cpp:178-188] GetReportParam *)
Definition GetReportParam (s : Db) (info : string) (errCode : Z) : ReportParam :=
  mkReportParam (db_bundleName_ s) ENHANCE_DB (extract_name (dbPath_ s)) (wrap_u 32 errCode)
    (errno_ (fs (db_env s))) info.

(** [preferences_db_adapter.cpp:190-209] CloseDb *)
Definition Db_CloseDb : ST Db Z :=
  s ← get;
  match db_ s with
  | None => mret E_OK
  | Some _ =>
      ok ← GetApiInstance DbCloseApi;
      if negb ok then mret E_ERROR else
      errCode ← call (grd_close (db_ s));
      if negb (errCode =? E_OK) then mret (TransferGrdErrno errCode)
      else modify (set_db None);; mret E_OK
  end.

(** [preferences_db_adapter.cpp:211-223] CreateCollection *)
Definition CreateCollection : ST Db Z :=
  s ← get;
  ok ← GetApiInstance DbCreateCollectionApi;
  if negb ok then mret E_ERROR else
  errCode ← call (grd_create (db_ s)); mret (TransferGrdErrno errCode).

(** [preferences_db_adapter.cpp:225-243] OpenDb *)
Definition OpenDb (isNeedRebuild : bool) : ST Db Z :=
  s ← get;
  ok ← GetApiInstance DbOpenApi;
  if negb ok then mret E_ERROR else
  let flag := if isNeedRebuild then Z.lor GRD_DB_OPEN_CREATE GRD_DB_OPEN_CHECK else GRD_DB_OPEN_CREATE in
  '(errCode, db, event) ← call (grd_open (c_str (dbPath_ s)) flag (db_ s));
  modify (set_db db);;
  s ← get;
  (if callback_ (adapter s) then DbEventCallback event else mret tt);;
  mret errCode.

(** [preferences_db_adapter.cpp:245-256] RepairDb *)
Definition RepairDb : ST Db Z :=
  s ← get;
  ok ← GetApiInstance DbRepairApi;
  if negb ok then mret E_ERROR else call (grd_repair (c_str (dbPath_ s))).

(** The repair attempts: whether one succeeded.

    [preferences_db_adapter.cpp:262-281] TryRepairAndRebuild *)
Fixpoint repair_loop (retryTimes : nat) : ST Db bool :=
  match retryTimes with
  | O => mret false
  | S retryTimes =>
      innerErr ← RepairDb;
      if innerErr =? GRD_OK then mret true
      else if innerErr =? GRD_DB_BUSY then repair_loop retryTimes
      else mret false
  end.

(** [preferences_db_adapter.cpp:258-290] TryRepairAndRebuild *)
Definition TryRepairAndRebuild (openCode : Z) : ST Db Z :=
  repaired ← repair_loop DB_REPAIR_RETRY_TIMES;
  if (repaired : bool) then mret GRD_OK else
  innerErr ← OpenDb true;
  if (innerErr =? GRD_OK) || (innerErr =? GRD_REBUILD_DATABASE) then mret GRD_OK else mret innerErr.

(** The part of [Init] after the database was opened.

    [preferences_db_adapter.cpp:322-334] Init *)
Definition Db_Init_table : ST Db Z :=
  _ ← CreateCollection;
  s ← get;
  errCode ← call (grd_preload (db_ s));
  mret (TransferGrdErrno errCode).

(** [preferences_db_adapter.cpp:292-334] Init *)
Definition Db_Init (dbPath bundleName : string) : ST Db Z :=
  s ← get;
  match db_ s with
  | Some _ => mret E_OK
  | None =>
      ok ← GetApiInstance DbIndexPreloadApi;
      if negb ok then mret E_ERROR else
      modify (set_names (dbPath +:+ ".db") bundleName);;
      errCode ← OpenDb false;
      if errCode =? GRD_DATA_CORRUPTED then
        info ← GetDbEventInfo;
        s ← get;
        db_zoom_env (Report (GetReportParam s (if (String.length info =? 0)%nat then "db corrupted" else info)
          errCode) EVENT_NAME_DB_CORRUPTED);;
        innerErr ← TryRepairAndRebuild errCode;
        if negb (innerErr =? GRD_OK) then mret (TransferGrdErrno innerErr) else
        s ← get;
        let param := GetReportParam s "db repair success" GRD_OK in
        db_zoom_env (Report (mkReportParam (rp_bundleName param) (rp_dbType param) (rp_storeName param)
          (rp_errCode param) 0 (rp_appendix param)) EVENT_NAME_DB_CORRUPTED);;
        Db_Init_table
      else if negb (errCode =? GRD_OK) then mret (TransferGrdErrno errCode)
      else Db_Init_table
  end.

(** [preferences_db_adapter.cpp:533-539] BlobToKvItem *)
Definition BlobToKvItem (blob : list Z) : list Z := take (Z.to_nat (wrap_u 32 (Z.of_nat (length blob)))) blob.

(** [preferences_db_adapter.cpp:541-545] KvItemToBlob *)
Definition KvItemToBlob (item : list Z) : list Z := item.

(** The loop that the four operations on the table share: while the table is
    undefined, create it and try again, [retryTimes] more times.

    [preferences_db_adapter.cpp:349-365] Put *)
Fixpoint with_table {A} (op : ST Db (Z * A)) (retryTimes : nat) : ST Db (Z * A) :=
  '(ret, a) ← op;
  if ret =? GRD_UNDEFINED_TABLE then
    _ ← CreateCollection;
    match retryTimes with
    | O => mret (ret, a)
    | S retryTimes => with_table op retryTimes
    end
  else mret (ret, a).

Definition no_result (f : kernel -> Z * kernel) : ST Db (Z * unit) := r ← call f; mret (r, tt).

(** [preferences_db_adapter.cpp:336-368] Put *)
Definition Db_Put (key value : list Z) : ST Db Z :=
  s ← get;
  match db_ s with
  | None => mret E_ALREADY_CLOSED
  | Some _ =>
      ok ← GetApiInstance DbKvPutApi;
      if negb ok then mret E_ERROR else
      '(ret, _) ← with_table (no_result (grd_put (db_ s) (BlobToKvItem key) (BlobToKvItem value)))
                    MORE_ATTEMPTS;
      mret (TransferGrdErrno ret)
  end.

(** [preferences_db_adapter.cpp:370-401] Delete *)
Definition Db_Delete (key : list Z) : ST Db Z :=
  s ← get;
  match db_ s with
  | None => mret E_ALREADY_CLOSED
  | Some _ =>
      ok ← GetApiInstance DbKvDelApi;
      if negb ok then mret E_ERROR else
      '(ret, _) ← with_table (no_result (grd_del (db_ s) (BlobToKvItem key))) MORE_ATTEMPTS;
      mret (TransferGrdErrno ret)
  end.

(** [preferences_db_adapter.cpp:403-443] Get *)
Definition Db_Get (key : list Z) : ST Db (Z * list Z) :=
  s ← get;
  match db_ s with
  | None => mret (E_ALREADY_CLOSED, [])
  | Some _ =>
      ok1 ← GetApiInstance DbKvGetApi;
      ok2 ← GetApiInstance FreeItemApi;
      if negb ok1 || negb ok2 then mret (E_ERROR, []) else
      '(ret, innerVal) ← with_table (call (grd_get (db_ s) (BlobToKvItem key))) MORE_ATTEMPTS;
      if ret =? GRD_OK then mret (TransferGrdErrno ret, KvItemToBlob innerVal)
      else mret (TransferGrdErrno ret, [])
  end.

(** The rows up to the first that cannot be fetched.

    [preferences_db_adapter.cpp:445-469] GetAllInner *)
Fixpoint Db_GetAllInner (l : list (Z * Z * (list Z * list Z))) (data : list (list Z * list Z))
    : Z * list (list Z * list Z) :=
  match l with
  | [] => (TransferGrdErrno E_OK, data)
  | (sizeRet, itemRet, dataItem) :: l' =>
      if negb (sizeRet =? GRD_OK) then (TransferGrdErrno sizeRet, data)
      else if negb (itemRet =? E_OK) then (TransferGrdErrno itemRet, data)
      else Db_GetAllInner l' (data ++ [dataItem])
  end.

(** [preferences_db_adapter.cpp:471-477] IsApiValid *)
Definition IsApiValid : ST Db bool :=
  ApiInit;;
  gets (fun s => forallb (api_ (adapter s))
    [DbKvFilterApi; NextApi; GetItemSizeApi; GetItemApi; FreeResultSetApi]).

(** [preferences_db_adapter.cpp:479-514] GetAll *)
Definition Db_GetAll : ST Db (Z * list (list Z * list Z)) :=
  s ← get;
  match db_ s with
  | None => mret (E_ALREADY_CLOSED, [])
  | Some _ =>
      ok ← IsApiValid;
      if negb ok then mret (E_ERROR, []) else
      '(ret, resultSet) ← with_table (call (grd_filter (db_ s))) MORE_ATTEMPTS;
      if ret =? GRD_OK then mret (Db_GetAllInner (rows resultSet) [])
      else mret (TransferGrdErrno ret, [])
  end.

(** [preferences_db_adapter.cpp:516-531] DropCollection *)
Definition DropCollection : ST Db Z :=
  s ← get;
  match db_ s with
  | None => mret E_ALREADY_CLOSED
  | Some _ =>
      ok ← GetApiInstance DbDropCollectionApi;
      if negb ok then mret E_ERROR else
      errCode ← call (grd_drop (db_ s)); mret (TransferGrdErrno errCode)
  end.

(** [preferences_db_adapter.cpp:547-566] GetKernelDataVersion *)
Definition GetKernelDataVersion : ST Db (Z * Z) :=
  s ← get;
  match db_ s with
  | None => mret (E_ALREADY_CLOSED, 0)
  | Some _ =>
      ok ← GetApiInstance DbGetConfigApi;
      if negb ok then mret (E_ERROR, 0) else
      s ← get;
      let '(type, longValue) := grd_config (db_ s) (kern s) in
      if negb (type =? GRD_DB_DATATYPE_INTEGER) then mret (E_ERROR, 0) else mret (E_OK, longValue)
  end.

(** The adapter as the enhanced store sees it. *)
#[export] Instance db_kv : KvDb := {|
  kv := Db;
  kv_ApiInit := ApiInit;
  kv_Enable := IsEnhandceDbEnable;
  kv_make := modify (fun s => mkDb (adapter s) (kern s) None "" "" (db_env s));
  kv_destroy := PreferencesDb_destroy;
  kv_Init path bundle e := fun s =>
    let '(r, s') := Db_Init path bundle (set_db_env e s) in ((r, db_env s'), s');
  kv_Put := Db_Put; kv_Get := Db_Get; kv_Delete := Db_Delete; kv_GetAll := Db_GetAll;
  kv_DropCollection := DropCollection; kv_CreateCollection := CreateCollection;
  kv_CloseDb := Db_CloseDb; kv_GetKernelDataVersion := GetKernelDataVersion
|}.
End DbAdapter.

(** ** What the adapter promises *)

(** The documented behaviour of a sound library, whose cursors reach the last
    row (a row may still fail to be fetched): [table k h] is the collection
    of an open database, [None] when it does not exist.  Error codes are
    negative; a call that fails changes nothing. *)
Class GrdLaws `{Grd} := {
  table : kernel -> handle -> option (gmap (list Z) (list Z));
  put_undef h key v k : table k h = None ->
    exists k', grd_put (Some h) key v k = (GRD_UNDEFINED_TABLE, k') /\ table k' h = None;
  put_table h key v k m : table k h = Some m ->
    exists r k', grd_put (Some h) key v k = (r, k') /\
    (r = GRD_OK /\ table k' h = Some (<[key := v]> m) \/
     r < 0 /\ r <> GRD_UNDEFINED_TABLE /\ table k' h = Some m);
  get_undef h key k : table k h = None ->
    exists v k', grd_get (Some h) key k = ((GRD_UNDEFINED_TABLE, v), k') /\ table k' h = None;
  get_table h key k m : table k h = Some m ->
    exists r v k', grd_get (Some h) key k = ((r, v), k') /\ table k' h = Some m /\
    (r = GRD_OK /\ m !! key = Some v \/ r = GRD_NO_DATA /\ m !! key = None \/
     r < 0 /\ r <> GRD_NO_DATA /\ r <> GRD_UNDEFINED_TABLE);
  del_undef h key k : table k h = None ->
    exists k', grd_del (Some h) key k = (GRD_UNDEFINED_TABLE, k') /\ table k' h = None;
  del_table h key k m : table k h = Some m ->
    exists r k', grd_del (Some h) key k = (r, k') /\
    (r = GRD_OK /\ table k' h = Some (delete key m) \/
     r < 0 /\ r <> GRD_UNDEFINED_TABLE /\ table k' h = Some m);
  filter_undef h k : table k h = None ->
    exists rs k', grd_filter (Some h) k = ((GRD_UNDEFINED_TABLE, rs), k') /\ table k' h = None;
  filter_table h k m : table k h = Some m ->
    exists r rs k', grd_filter (Some h) k = ((r, rs), k') /\ table k' h = Some m /\
    r <> GRD_UNDEFINED_TABLE /\ r <= 0 /\
    (r = GRD_OK -> (rows rs).*2 ≡ₚ map_to_list m);
  create_table h k :
    exists r k', grd_create (Some h) k = (r, k') /\
    (table k' h = table k h \/ table k h = None /\ table k' h = Some ∅);
  drop_table h k :
    exists r k', grd_drop (Some h) k = (r, k') /\ r <= 0 /\
    (r = GRD_OK /\ table k' h = None \/ r < 0 /\ table k' h = table k h);
  close_table h k : exists r k', grd_close (Some h) k = (r, k') /\ r <= 0 /\ (r <> GRD_OK -> table k' h = table k h);
  set_callback_table h k : table (snd (grd_set_callback k)) h = table k h
}.

Lemma TransferGrdErrno_ok r : TransferGrdErrno r = E_OK <-> r = GRD_OK.
Proof.
  unfold TransferGrdErrno. split; [|by intros ->]. destruct (Z.ltb_spec 0 r); [unfold E_OK; lia|].
  unfold GRDErrnoMap. cbn [table_find]. 
  repeat match goal with |- context [r =? ?c] => destruct (Z.eqb_spec r c) as [->|] end;
    first [reflexivity|intros E; exfalso; revert E; vm_compute; discriminate].
Qed.

Lemma TransferGrdErrno_no_data r : r <= 0 -> TransferGrdErrno r = E_NO_DATA -> r = GRD_NO_DATA.
Proof.
  intros Hr. unfold TransferGrdErrno. rewrite (proj2 (Z.ltb_ge _ _)) by done.
  unfold GRDErrnoMap. cbn [table_find]. 
  repeat match goal with |- context [r =? ?c] => destruct (Z.eqb_spec r c) as [->|] end;
    first [reflexivity|intros E; exfalso; revert E; vm_compute; discriminate].
Qed.

Section DbAdapter_laws.
Context `{GrdLaws}.

(** The contents that a user of the adapter sees. *)
Definition db_data (s : Db) : option (gmap (list Z) (list Z)) :=
  match db_ s with Some h => Some (default ∅ (table (kern s) h)) | None => None end.

(** An open database. *)
Definition open_on (h : handle) (t : option (gmap (list Z) (list Z))) (s : Db) : Prop :=
  db_ s = Some h /\ table (kern s) h = t.

Lemma open_on_data h t s : open_on h t s -> db_data s = Some (default ∅ t).
Proof. intros [Hd <-]. unfold db_data. by rewrite Hd. Qed.

Lemma data_open s m : db_data s = Some m -> exists h t, open_on h t s /\ m = default ∅ t.
Proof. unfold db_data. destruct (db_ s) as [h|] eqn:E; [|done]. intros [= <-]. by exists h, (table (kern s) h). Qed.

(** Loading the library's functions leaves the databases alone. *)
Lemma ApiInit_open h t s : open_on h t s -> open_on h t (snd (ApiInit s)).
Proof.
  intros Hs. unfold ApiInit, RegisterDbEventCallback, call, mbind, st_bind, get, modify, mret, st_ret.
  destruct (isInit_ (adapter s)); [done|].
  destruct (negb _); [done|]. cbn. pose proof (set_callback_table h (kern s)) as Hk.
  destruct (grd_set_callback (kern s)) as [r k]. cbn in *.
  destruct Hs as [H1 H2]. destruct (negb (r =? GRD_OK)); cbn; split; cbn; congruence.
Qed.

Lemma GetApiInstance_open a h t s : open_on h t s ->
  exists b s', GetApiInstance a s = (b, s') /\ open_on h t s'.
Proof.
  intros Hs. apply ApiInit_open in Hs. unfold GetApiInstance, mbind, st_bind, gets.
  destruct (ApiInit s) as [[] s1]. eexists _, s1. done.
Qed.

Lemma CreateCollection_open h t s : open_on h t s ->
  exists r s' t', CreateCollection s = (r, s') /\ open_on h t' s' /\ default ∅ t' = default ∅ t /\
  (is_Some t -> is_Some t').
Proof.
  intros Hs. unfold CreateCollection, mbind, st_bind, get.
  destruct (GetApiInstance_open DbCreateCollectionApi h t s Hs) as ([] & s1 & -> & Hs1); cbn [negb].
  2: { by exists E_ERROR, s1, t. }
  destruct Hs as [Hd _]. rewrite Hd. unfold call. destruct Hs1 as [Hd1 <-].
  destruct (create_table h (kern s1)) as (r & k' & -> & Ht). unfold mret, st_ret.
  eexists _, _, (table k' h). split; [done|]. split; [done|].
  destruct Ht as [->|[-> ->]]; [done|]. cbn. split; [done|]. by intros [].
Qed.

(** One operation on the table: what it says and does when the table is
    there, and that it reports a missing table without touching anything. *)
Definition table_op {A} (op : ST Db (Z * A)) (h : handle)
    (Q : gmap (list Z) (list Z) -> Z -> A -> gmap (list Z) (list Z) -> Prop) : Prop :=
  (forall s, open_on h None s -> exists a s', op s = ((GRD_UNDEFINED_TABLE, a), s') /\ open_on h None s') /\
  (forall s m, open_on h (Some m) s -> exists r a s' m', op s = ((r, a), s') /\
     r <> GRD_UNDEFINED_TABLE /\ open_on h (Some m') s' /\ Q m r a m').

(** The retry loop: the operation was carried out on the contents, or the
    table could not be created and nothing changed. *)
Lemma with_table_spec {A} (op : ST Db (Z * A)) h Q n s t :
  table_op op h Q -> open_on h t s ->
  exists r a s' t', with_table op n s = ((r, a), s') /\ open_on h t' s' /\
  (Q (default ∅ t) r a (default ∅ t') \/ r = GRD_UNDEFINED_TABLE /\ default ∅ t' = default ∅ t).
Proof.
  intros [Hnone Hsome]. revert s t. induction n as [|n IH]; intros s t Hs;
    cbn [with_table]; unfold mbind, st_bind, mret, st_ret.
  - destruct t as [m|].
    + destruct (Hsome s m Hs) as (r & a & s' & m' & -> & Hr & Ho & HQ).
      rewrite (proj2 (Z.eqb_neq _ _)) by done. exists r, a, s', (Some m'). split_and!; [done..|]. by left.
    + destruct (Hnone s Hs) as (a & s' & -> & Ho). rewrite Z.eqb_refl.
      destruct (CreateCollection_open h None s' Ho) as (r & s2 & t' & -> & Ho' & Hd & _).
      exists GRD_UNDEFINED_TABLE, a, s2, t'. split_and!; [done..|]. by right.
  - destruct t as [m|].
    + destruct (Hsome s m Hs) as (r & a & s' & m' & -> & Hr & Ho & HQ).
      rewrite (proj2 (Z.eqb_neq _ _)) by done. exists r, a, s', (Some m'). split_and!; [done..|]. by left.
    + destruct (Hnone s Hs) as (a & s' & -> & Ho). rewrite Z.eqb_refl.
      destruct (CreateCollection_open h None s' Ho) as (r & s2 & t' & -> & Ho' & Hd & _).
      destruct (IH s2 t' Ho') as (r' & a' & s3 & t3 & -> & Ho3 & HQ).
      exists r', a', s3, t3. split; [done|]. split; [done|]. rewrite Hd in HQ. exact HQ.
Qed.

Lemma BlobToKvItem_id b : blob_ok b -> BlobToKvItem b = b.
Proof.
  unfold blob_ok, BlobToKvItem. intros Hb. rewrite wrap_u_id by (apply in_u_spec; lia).
  rewrite Nat2Z.id. apply firstn_all.
Qed.

(** The operations on the table, by the library's laws. *)
Lemma put_op h k v : table_op (no_result (grd_put (Some h) k v)) h
  (fun m r _ m' => r = GRD_OK /\ m' = <[k := v]> m \/ r < 0 /\ m' = m).
Proof.
  split; intros s; unfold no_result, call, mbind, st_bind, mret, st_ret.
  - intros [Hd Ht]. destruct (put_undef h k v (kern s) Ht) as (k' & -> & Ht'). by eexists _, _.
  - intros m [Hd Ht]. destruct (put_table h k v (kern s) m Ht) as (r & k' & -> & [[-> Ht']|(Hr & Hu & Ht')]).
    + eexists _, _, _, _. split; [done|]. split; [done|]. split; [done|]. by left.
    + eexists _, _, _, m. split; [done|]. split; [done|]. split; [done|]. by right.
Qed.

Lemma del_op h k : table_op (no_result (grd_del (Some h) k)) h
  (fun m r _ m' => r = GRD_OK /\ m' = delete k m \/ r < 0 /\ m' = m).
Proof.
  split; intros s; unfold no_result, call, mbind, st_bind, mret, st_ret.
  - intros [Hd Ht]. destruct (del_undef h k (kern s) Ht) as (k' & -> & Ht'). by eexists _, _.
  - intros m [Hd Ht]. destruct (del_table h k (kern s) m Ht) as (r & k' & -> & [[-> Ht']|(Hr & Hu & Ht')]).
    + eexists _, _, _, _. split; [done|]. split; [done|]. split; [done|]. by left.
    + eexists _, _, _, m. split; [done|]. split; [done|]. split; [done|]. by right.
Qed.

Lemma get_op h k : table_op (call (grd_get (Some h) k)) h
  (fun m r v m' => m' = m /\ (r = GRD_OK /\ m !! k = Some v \/ r = GRD_NO_DATA /\ m !! k = None \/
     r < 0 /\ r <> GRD_NO_DATA)).
Proof.
  split; intros s; unfold call.
  - intros [Hd Ht]. destruct (get_undef h k (kern s) Ht) as (v & k' & -> & Ht'). by eexists _, _.
  - intros m [Hd Ht]. destruct (get_table h k (kern s) m Ht) as (r & v & k' & -> & Ht' & Hr).
    eexists _, _, _, m. split; [done|]. split; [|split; [done|]; split; [done|]; tauto].
    destruct Hr as [[-> _]|[[-> _]|(_ & _ & ?)]]; done.
Qed.

Lemma filter_op h : table_op (call (grd_filter (Some h))) h
  (fun m r rs m' => m' = m /\ r <= 0 /\
     (r = GRD_OK -> (rows rs).*2 ≡ₚ map_to_list m)).
Proof.
  split; intros s; unfold call.
  - intros [Hd Ht]. destruct (filter_undef h (kern s) Ht) as (rs & k' & -> & Ht'). by eexists _, _.
  - intros m [Hd Ht]. destruct (filter_table h (kern s) m Ht) as (r & rs & k' & -> & Ht' & Hu & Hr & Hl).
    by eexists _, _, _, m.
Qed.

(** Every row is fetched, or the code says that one was not. *)
Lemma Db_GetAllInner_ok l acc data : Db_GetAllInner l acc = (E_OK, data) -> data = acc ++ l.*2.
Proof.
  revert acc. induction l as [|[[size item] x] l IH]; intros acc; cbn [Db_GetAllInner].
  { intros [= <-]. by rewrite app_nil_r. }
  destruct (Z.eqb_spec size GRD_OK) as [->|Hne]; cbn [negb]; [|intros [= E _]; by apply (proj1 (TransferGrdErrno_ok _)) in E].
  destruct (Z.eqb_spec item E_OK) as [->|Hne]; cbn [negb]; [|intros [= E _]; by apply (proj1 (TransferGrdErrno_ok _)) in E].
  intros ->%IH. by rewrite <- app_assoc.
Qed.

Lemma Transfer_neg r : r < 0 -> TransferGrdErrno r <> E_OK.
Proof. intros Hr E. apply (proj1 (TransferGrdErrno_ok r)) in E. unfold GRD_OK in E. lia. Qed.

(** Run the check for a library function on an open database. *)
Ltac api_check Hs :=
  match goal with
  | |- context [GetApiInstance ?a ?s] =>
      let b := fresh "b" in let s1 := fresh "s" in let E := fresh "E" in let Hs1 := fresh "Hs" in
      destruct (GetApiInstance_open a _ _ s Hs) as (b & s1 & E & Hs1); rewrite E; clear E
  end.

(** Each operation on an open database, as the interface states it. *)

Lemma Db_Put_spec s k v m : db_data s = Some m -> blob_ok k -> blob_ok v ->
  exists r s', Db_Put k v s = (r, s') /\
  (r = E_OK /\ db_data s' = Some (<[k := v]> m) \/ r <> E_OK /\ db_data s' = Some m).
Proof.
  intros Hm Hk Hv. apply data_open in Hm as (h & t & Hs & ->).
  unfold Db_Put, mbind, st_bind, get, mret, st_ret. rewrite (proj1 Hs), !BlobToKvItem_id by done.
  api_check Hs. destruct b; cbn [negb].
  2: { exists E_ERROR, s0. split; [done|]. right. by rewrite (open_on_data _ _ _ Hs0). }
  destruct (with_table_spec _ h _ MORE_ATTEMPTS s0 t (put_op h k v) Hs0) as (r & a & s' & t' & -> & Ho & HQ).
  eexists _, s'. split; [done|]. rewrite (open_on_data _ _ _ Ho).
  destruct HQ as [[[-> ->]|[Hr ->]]|[-> ->]]; [by left|right|right]; split; try done. by apply Transfer_neg.
Qed.

Lemma Db_Get_spec s k m : db_data s = Some m -> blob_ok k ->
  exists r v s', Db_Get k s = ((r, v), s') /\ db_data s' = Some m /\
  (r = E_OK /\ m !! k = Some v \/ r = E_NO_DATA /\ m !! k = None \/ r <> E_OK /\ r <> E_NO_DATA).
Proof.
  intros Hm Hk. apply data_open in Hm as (h & t & Hs & ->).
  unfold Db_Get, mbind, st_bind, get, mret, st_ret. rewrite (proj1 Hs), BlobToKvItem_id by done.
  api_check Hs. api_check Hs0. destruct b, b0; cbn [negb orb];
    try (eexists _, _, s1; split; [done|]; rewrite (open_on_data _ _ _ Hs1); split; [done|]; by right; right).
  destruct (with_table_spec _ h _ MORE_ATTEMPTS s1 t (get_op h k) Hs1) as (r & a & s' & t' & -> & Ho & HQ).
  destruct HQ as [[Hd [[-> Hm]|[[-> Hm]|[Hr Hn]]]]|[-> Hd]]; cbn [Z.eqb].
  + eexists _, _, s'. split; [done|]. rewrite (open_on_data _ _ _ Ho), Hd. split; [done|]. by left.
  + eexists _, _, s'. split; [done|]. rewrite (open_on_data _ _ _ Ho), Hd. split; [done|]. by right; left.
  + rewrite (proj2 (Z.eqb_neq r GRD_OK)) by (unfold GRD_OK; lia).
    eexists _, _, s'. split; [done|]. rewrite (open_on_data _ _ _ Ho), Hd. split; [done|]. right; right.
    split; [by apply Transfer_neg|]. intros E. apply TransferGrdErrno_no_data in E; [done|lia].
  + eexists _, _, s'. split; [done|]. rewrite (open_on_data _ _ _ Ho), Hd. split; [done|]. by right; right.
Qed.

Lemma Db_Delete_spec s k m : db_data s = Some m -> blob_ok k ->
  exists r s', Db_Delete k s = (r, s') /\
  (r = E_OK /\ db_data s' = Some (delete k m) \/ r <> E_OK /\ db_data s' = Some m).
Proof.
  intros Hm Hk. apply data_open in Hm as (h & t & Hs & ->).
  unfold Db_Delete, mbind, st_bind, get, mret, st_ret. rewrite (proj1 Hs), !BlobToKvItem_id by done.
  api_check Hs. destruct b; cbn [negb].
  2: { exists E_ERROR, s0. split; [done|]. right. by rewrite (open_on_data _ _ _ Hs0). }
  destruct (with_table_spec _ h _ MORE_ATTEMPTS s0 t (del_op h k) Hs0) as (r & a & s' & t' & -> & Ho & HQ).
  eexists _, s'. split; [done|]. rewrite (open_on_data _ _ _ Ho).
  destruct HQ as [[[-> ->]|[Hr ->]]|[-> ->]]; [by left|right|right]; split; try done. by apply Transfer_neg.
Qed.

Lemma Db_GetAll_spec s m : db_data s = Some m ->
  exists r l s', Db_GetAll s = ((r, l), s') /\ db_data s' = Some m /\ (r = E_OK -> l ≡ₚ map_to_list m).
Proof.
  intros Hm. apply data_open in Hm as (h & t & Hs & ->).
  unfold Db_GetAll, IsApiValid, mbind, st_bind, get, gets, mret, st_ret. rewrite (proj1 Hs).
  apply ApiInit_open in Hs. destruct (ApiInit s) as [[] s0]. cbn [snd] in Hs.
  destruct (forallb _ _); cbn [negb].
  2: { eexists _, _, s0. split; [done|]. by rewrite (open_on_data _ _ _ Hs). }
  destruct (with_table_spec _ h _ MORE_ATTEMPTS s0 t (filter_op h) Hs) as (r & rs & s' & t' & -> & Ho & HQ).
  destruct HQ as [(Hd & Hr & Hl)|[-> Hd]]; cbn [Z.eqb].
  + destruct (Z.eqb_spec r GRD_OK) as [->|Hne].
    * destruct (Db_GetAllInner (rows rs) []) as [e l] eqn:E. eexists _, _, s'. split; [done|].
      rewrite (open_on_data _ _ _ Ho), Hd. split; [done|]. intros ->. apply Db_GetAllInner_ok in E as ->. by apply Hl.
    * eexists _, _, s'. split; [done|]. rewrite (open_on_data _ _ _ Ho), Hd. split; [done|].
      intros E. by apply (proj1 (TransferGrdErrno_ok r)) in E.
  + eexists _, _, s'. split; [done|]. rewrite (open_on_data _ _ _ Ho), Hd. done.
Qed.

Lemma DropCollection_spec s m : db_data s = Some m ->
  exists r s', DropCollection s = (r, s') /\
  (r = E_OK /\ db_data s' = Some ∅ \/ r <> E_OK /\ db_data s' = Some m).
Proof.
  intros Hm. apply data_open in Hm as (h & t & Hs & ->).
  unfold DropCollection, mbind, st_bind, get, mret, st_ret. rewrite (proj1 Hs). api_check Hs. destruct b; cbn [negb].
  2: { exists E_ERROR, s0. split; [done|]. right. by rewrite (open_on_data _ _ _ Hs0). }
  destruct Hs0 as [Hd0 Ht0]. unfold call. destruct (drop_table h (kern s0)) as (r & k' & -> & Hr & Hq).
  eexists _, _. split; [done|]. unfold db_data. cbn. rewrite Hd0. destruct Hq as [[-> ->]|[Hn ->]].
  + by left.
  + right. split; [by apply Transfer_neg|]. by rewrite Ht0.
Qed.

Lemma CreateCollection_spec s m : db_data s = Some m ->
  exists r s', CreateCollection s = (r, s') /\ db_data s' = Some m.
Proof.
  intros Hm. apply data_open in Hm as (h & t & Hs & ->).
  destruct (CreateCollection_open h t s Hs) as (r & s' & t' & -> & Ho & Hd & _).
  exists r, s'. split; [done|]. by rewrite (open_on_data _ _ _ Ho), Hd.
Qed.

Lemma GetKernelDataVersion_spec s m : db_data s = Some m ->
  exists r n s', GetKernelDataVersion s = ((r, n), s') /\ db_data s' = Some m.
Proof.
  intros Hm. apply data_open in Hm as (h & t & Hs & ->).
  unfold GetKernelDataVersion, mbind, st_bind, get, mret, st_ret. rewrite (proj1 Hs). api_check Hs. destruct b; cbn [negb].
  2: { eexists _, _, s0. by rewrite (open_on_data _ _ _ Hs0). }
  destruct (grd_config _ _) as [ty n]. destruct (negb _); eexists _, _, s0; by rewrite (open_on_data _ _ _ Hs0).
Qed.

Lemma Db_CloseDb_spec s m : db_data s = Some m ->
  exists r s', Db_CloseDb s = (r, s') /\
  (r = E_OK /\ db_data s' = None \/ r <> E_OK /\ db_data s' = Some m).
Proof.
  intros Hm. apply data_open in Hm as (h & t & Hs & ->).
  unfold Db_CloseDb, mbind, st_bind, get, modify, mret, st_ret. rewrite (proj1 Hs). api_check Hs. destruct b; cbn [negb].
  2: { exists E_ERROR, s0. split; [done|]. right. by rewrite (open_on_data _ _ _ Hs0). }
  destruct Hs0 as [Hd0 Ht0]. unfold call. destruct (close_table h (kern s0)) as (r & k' & -> & Hr & Hq).
  destruct (Z.eqb_spec r E_OK) as [->|Hne]; cbn [negb].
  + eexists _, _. split; [done|]. by left.
  + eexists _, _. split; [done|]. right. split; [intros E; by apply (proj1 (TransferGrdErrno_ok r)) in E|].
    unfold db_data. cbn. by rewrite Hd0, Hq, Ht0.
Qed.

#[export] Instance db_kv_laws : KvDbLaws := {|
  data := db_data : @kv db_kv -> _;
  kv_put_spec := Db_Put_spec; kv_get_spec := Db_Get_spec; kv_del_spec := Db_Delete_spec;
  kv_all_spec := Db_GetAll_spec; kv_drop_spec := DropCollection_spec;
  kv_create_spec := CreateCollection_spec; kv_version_spec := GetKernelDataVersion_spec;
  kv_close_spec := Db_CloseDb_spec
|}.
End DbAdapter_laws.

(** ** Properties *)

Section DbAdapter_properties.
Context `{GrdLaws}.

(** C37: The adapter is a dictionary on an open database, also while its
    collection does not exist yet: if [Put] answers success, a [Get] of the
    same key that answers success returns the value and one of another key
    what it held before; a [Put] that fails changes no key. *)
Theorem Db_Put_Get (s : Db) (h : handle) (t : option (gmap (list Z) (list Z))) (key key' value : list Z)
    (Hopen : open_on h t s) (Hk : blob_ok key) (Hk' : blob_ok key') (Hv : blob_ok value) :
  let '(r, s1) := Db_Put key value s in
  let '((r', value'), _) := Db_Get key' s1 in
  r' = E_OK ->
  (if decide (r = E_OK /\ key = key') then Some value else default ∅ t !! key') = Some value'.
Proof.
  destruct (@kv_put_spec db_kv db_kv_laws s key value _ (open_on_data _ _ _ Hopen) Hk Hv) as (r & s1 & Hput & Hr).
  cbn in Hput. rewrite Hput.
  assert (Hd : exists m, db_data s1 = Some m /\
    m !! key' = (if decide (r = E_OK /\ key = key') then Some value else default ∅ t !! key')).
  { destruct Hr as [[-> Hd]|[Hne Hd]]; eexists; (split; [exact Hd|]).
    - case_decide as Hkk; [destruct Hkk as [_ ->]; by rewrite lookup_insert_eq|].
      rewrite lookup_insert_ne; [done|]. intros ->. by apply Hkk.
    - rewrite decide_False; [done|]. by intros []. }
  destruct Hd as (m & Hd & Hm).
  destruct (@kv_get_spec db_kv db_kv_laws s1 key' m Hd Hk') as (r' & v & s2 & Hget & _ & Hv'). cbn in Hget. rewrite Hget, <- Hm.
  intros ->. destruct Hv' as [[_ ?]|[[? _]|[? _]]]; done.
Qed.

(** The open finds a corrupted database and leaves the null pointer alone. *)
Definition open_corrupted (path : string) (s : Db) : Prop := exists ev k',
  grd_open (c_str (path +:+ ".db")) GRD_DB_OPEN_CREATE None (kern s) = ((GRD_DATA_CORRUPTED, None, ev), k').

(** A repaired database is not opened: when the open reports corruption
    and the repair succeeds, [Init] goes on without a database, so what it
    answers is the library's answer to preloading the index of a null
    database, and every later operation answers [E_ALREADY_CLOSED]. *)
Theorem Db_Init_repaired_not_open (s : Db) (path bundle : string)
    (Hclosed : db_ s = None) (Hinit : isInit_ (adapter s) = true)
    (Hapi : forall a, api_ (adapter s) a = true) (Hopen : open_corrupted path s)
    (Hrepair : forall p k, fst (grd_repair p k) = GRD_OK) :
  let '(r, s1) := Db_Init path bundle s in
  db_ s1 = None /\ (exists k, r = TransferGrdErrno (fst (grd_preload None k))) /\
  forall key value, fst (Db_Put key value s1) = E_ALREADY_CLOSED /\
    fst (fst (Db_Get key s1)) = E_ALREADY_CLOSED.
Proof.
  assert (Hget : forall a s0, isInit_ (adapter s0) = true -> (forall a, api_ (adapter s0) a = true) ->
    GetApiInstance a s0 = (true, s0)).
  { intros a s0 Hi Ha. unfold GetApiInstance, ApiInit, mbind, st_bind, get, gets, mret, st_ret. by rewrite Hi, Ha. }
  unfold Db_Init, mbind, st_bind, get, modify, mret, st_ret. rewrite Hclosed, Hget by done. cbn [negb].
  unfold OpenDb at 1. unfold mbind, st_bind, get, modify, mret, st_ret, call. rewrite Hget by done. cbn [negb].
  cbn [db_ set_names kern dbPath_]. rewrite Hclosed.
  destruct Hopen as (ev & k' & ->).
  set (ev_step := if callback_ _ then _ else _).
  assert (Hev : exists a, ev_step (set_db None (set_kern k' (set_names (path +:+ ".db") bundle s))) =
    (tt, set_adapter a (set_db None (set_kern k' (set_names (path +:+ ".db") bundle s)))) /\
    isInit_ a = true /\ forall x, api_ a x = true).
  { unfold ev_step. case_match; [destruct ev|]; eexists; (split; [reflexivity|]); by split. }
  clearbody ev_step. destruct Hev as (a & -> & Hia & Haa). change (GRD_DATA_CORRUPTED =? GRD_DATA_CORRUPTED) with true.
  cbn iota. unfold GetDbEventInfo, mbind, st_bind, get, modify, mret, st_ret. cbn [adapter set_adapter].
  unfold db_zoom_env at 1. match goal with |- context [Report ?p ?n ?e] => destruct (Report p n e) as [[] e1] end.
  unfold TryRepairAndRebuild, mbind, st_bind. cbn [repair_loop DB_REPAIR_RETRY_TIMES].
  unfold mbind, st_bind, RepairDb, mbind, st_bind, get, call, mret, st_ret.
  rewrite Hget by done. cbn [negb].
  match goal with |- context [grd_repair ?p ?k] => pose proof (Hrepair p k) as Hr; destruct (grd_repair p k) as [r2 k2] end.
  cbn in Hr. subst r2.
  change (GRD_OK =? GRD_OK) with true. cbn [negb]. unfold db_zoom_env. change (negb (GRD_OK =? GRD_OK)) with false. cbv beta iota.
  match goal with |- context [Report ?p ?n ?e] => destruct (Report p n e) as [[] e2] end.
  unfold Db_Init_table, CreateCollection, mbind, st_bind, get, call, mret, st_ret. rewrite Hget by done. cbn [negb].
  cbn. match goal with |- context [grd_create ?p ?k] => destruct (grd_create p k) as [r3 k3] end.
  cbn. match goal with |- context [grd_preload ?p ?k] => destruct (grd_preload p k) as [r4 k4] eqn:Ep end.
  cbn. split; [done|]. split; [|done]. exists k3. by rewrite Ep.
Qed.
End DbAdapter_properties.

(** ** A library with one database in memory *)

Record MemKernel := mkMem {
  mem_table : option (gmap (list Z) (list Z)); mem_version : Z; mem_corrupt : bool }.

Definition mem_set (t : option (gmap (list Z) (list Z))) (k : MemKernel) : MemKernel :=
  mkMem t (mem_version k + 1) (mem_corrupt k).

#[export] Instance mem_grd : Grd := {|
  kernel := MemKernel;
  handle := unit;
  dlopen_ok := true;
  dlsym_ok _ := true;
  grd_open _ _ db k :=
    if mem_corrupt k then ((GRD_DATA_CORRUPTED, db, Some "bad page"), k) else ((GRD_OK, Some tt, None), k);
  grd_close _ k := (GRD_OK, k);
  grd_create h k :=
    match h, mem_table k with
    | Some _, None => (GRD_OK, mem_set (Some ∅) k)
    | Some _, Some _ => (GRD_OK, k)
    | None, _ => (GRD_INVALID_ARGS, k)
    end;
  grd_drop h k :=
    match h with Some _ => (GRD_OK, mem_set None k) | None => (GRD_INVALID_ARGS, k) end;
  grd_preload h k := match h with Some _ => (GRD_OK, k) | None => (GRD_INVALID_ARGS, k) end;
  grd_put h key v k :=
    match mem_table k with
    | Some m => (GRD_OK, mem_set (Some (<[key := v]> m)) k)
    | None => (GRD_UNDEFINED_TABLE, k)
    end;
  grd_get h key k :=
    match mem_table k with
    | Some m => match m !! key with Some v => ((GRD_OK, v), k) | None => ((GRD_NO_DATA, []), k) end
    | None => ((GRD_UNDEFINED_TABLE, []), k)
    end;
  grd_del h key k :=
    match mem_table k with
    | Some m => (GRD_OK, mem_set (Some (delete key m)) k)
    | None => (GRD_UNDEFINED_TABLE, k)
    end;
  grd_filter h k :=
    match mem_table k with
    | Some m => ((GRD_OK, mkResultSet (map (fun kv => (GRD_OK, E_OK, kv)) (map_to_list m)) GRD_NO_DATA), k)
    | None => ((GRD_UNDEFINED_TABLE, mkResultSet [] GRD_NO_DATA), k)
    end;
  grd_repair _ k := (GRD_OK, mkMem (mem_table k) (mem_version k) false);
  grd_config _ k := (GRD_DB_DATATYPE_INTEGER, mem_version k);
  grd_set_callback k := (GRD_OK, k)
|}.

#[export] Instance mem_grd_laws : GrdLaws.
Proof.
  unshelve refine {| table k _ := mem_table k |}; cbn.
  - intros h key v k E. rewrite E. by exists k.
  - intros h key v k m ->. eexists _, _. split; [done|]. by left.
  - intros h key k E. rewrite E. by exists [], k.
  - intros h key k m E. rewrite E. destruct (m !! key) eqn:Em; eexists _, _, k; (split; [done|]); rewrite E; eauto.
  - intros h key k E. rewrite E. by exists k.
  - intros h key k m ->. eexists _, _. split; [done|]. by left.
  - intros h k E. rewrite E. by eexists _, k.
  - intros h k m E. rewrite E. eexists _, _, k. split; [done|]. split_and!; try done. intros _. cbn. rewrite map_map. by rewrite map_id.
  - intros h k. destruct (mem_table k) eqn:E; eexists _, _; (split; [done|]); [by left|by right].
  - intros h k. eexists _, _. split; [done|]. split; [done|]. by left.
  - intros h k. by eexists _, _.
  - done.
Defined.

Definition mem_services : Services := mkServices ∅ None true true TOKEN_HAP None "now" (fun _ => "error").
Definition mem_env : Env := mkEnv (mkFileSystem ∅ ∅ 0 0 (fun _ => SysOk) None) mem_services [] ∅.
Definition mem_adapter : Adapter := mkAdapter true (fun _ => true) true "" true.
Definition mem_db (h : option unit) (k : MemKernel) : Db := mkDb mem_adapter k h "/p.db" "b" mem_env.

Example Db_Put_Get_witness :
  let '(r, s1) := Db_Put [107] [1; 2] (mem_db (Some tt) (mkMem None 0 false)) in
  let '((r', value'), _) := Db_Get [107] s1 in
  r = E_OK /\ r' = E_OK /\ Some [1; 2] = Some value'.
Proof.
  pose proof (Db_Put_Get (mem_db (Some tt) (mkMem None 0 false)) tt None [107] [107] [1; 2]
    ltac:(by split) ltac:(done) ltac:(done) ltac:(done)) as Hg.
  change (Db_Put [107] [1; 2] (mem_db (Some tt) (mkMem None 0 false))) with
    (E_OK, mem_db (Some tt) (mkMem (Some {[ [107] := [1; 2] ]}) 2 false)) in *. cbv beta iota in Hg |- *.
  change (Db_Get [107] (mem_db (Some tt) (mkMem (Some {[ [107] := [1; 2] ]}) 2 false))) with
    ((E_OK, [1; 2]), mem_db (Some tt) (mkMem (Some {[ [107] := [1; 2] ]}) 2 false)) in *. cbv beta iota in Hg |- *.
  split; [done|]. split; [done|]. exact (Hg eq_refl).
Defined.

Example Db_Init_repaired_not_open_witness :
  let '(r, s1) := Db_Init "/p" "b" (mem_db None (mkMem None 0 true)) in
  db_ s1 = None /\ (exists k, r = TransferGrdErrno (fst (grd_preload None k))) /\
  forall key value, fst (Db_Put key value s1) = E_ALREADY_CLOSED /\ fst (fst (Db_Get key s1)) = E_ALREADY_CLOSED.
Proof.
  apply (Db_Init_repaired_not_open (mem_db None (mkMem None 0 true)) "/p" "b"); try done.
  by eexists _, _.
Defined.
