(* ===== verification/Base.v ===== *)
(** * What every preferences object has

    Models [preferences_base.cpp] and [preferences_base.h]: the typed
    accessors in terms of the virtual [Get] and [Put], the observer registry,
    and the one-time usage report.  The virtual methods are the fields of the
    class [Object]; [zoom_base] and [zoom_env] run an operation of a part on
    the whole object.  Work posted to an executor is kept in [tasks_] until a
    step of the object runs it. *)

From S2P Require Import Prelude Errno Value Utils NumText Env.

(** [preferences_observer.h:33-33] RegisterMode *)
Inductive RegisterMode := LOCAL_CHANGE | MULTI_PRECESS_CHANGE | DATA_CHANGE | CHANGE_BUTT.

(** The closures the library posts to its executors. *)
Inductive Task :=
  | LoadTask
  | FlushTask
  | NotifyTask (keysModified : gset string)
  | ObjectUsageTask.

(** [preferences_base.h:132-143] PreferencesBase *)
Record Base := mkBase {
  options_ : Options;
  localObservers_ : list ObsPtr;
  multiProcessObservers_ : list ObsPtr;
  dataObserversMap_ : gmap ObsPtr (gset string);
  objectReported_ : bool;
  tasks_ : list Task;
  env : Env
}.

Definition set_localObservers l b :=
  mkBase (options_ b) l (multiProcessObservers_ b) (dataObserversMap_ b) (objectReported_ b) (tasks_ b) (env b).
Definition set_multiProcessObservers l b :=
  mkBase (options_ b) (localObservers_ b) l (dataObserversMap_ b) (objectReported_ b) (tasks_ b) (env b).
Definition set_dataObserversMap m b :=
  mkBase (options_ b) (localObservers_ b) (multiProcessObservers_ b) m (objectReported_ b) (tasks_ b) (env b).
Definition set_objectReported r b :=
  mkBase (options_ b) (localObservers_ b) (multiProcessObservers_ b) (dataObserversMap_ b) r (tasks_ b) (env b).
Definition set_tasks t b :=
  mkBase (options_ b) (localObservers_ b) (multiProcessObservers_ b) (dataObserversMap_ b) (objectReported_ b) t (env b).
Definition set_env e b :=
  mkBase (options_ b) (localObservers_ b) (multiProcessObservers_ b) (dataObserversMap_ b) (objectReported_ b) (tasks_ b) e.

(** [preferences_base.cpp:37-39] PreferencesBase *)
Definition PreferencesBase (options : Options) (e : Env) : Base :=
  mkBase options [] [] ∅ false [] e.

(** An operation on the environment, run on the object. *)
Definition zoom_env {A} (m : ST Env A) : ST Base A := fun b =>
  let '(a, e) := m (env b) in (a, set_env e b).

(** Post a closure to an executor. *)
Definition post (t : Task) : ST Base unit := modify (fun b => set_tasks (tasks_ b ++ [t]) b).

(** The virtual methods an accessor of the base class calls. *)
Class Object (W : Type) := {
  base : W -> Base;
  set_base : Base -> W -> W;
  v_IsClose : string -> ST W bool;
  v_Get : string -> PreferencesValue -> ST W PreferencesValue;
  v_Put : string -> PreferencesValue -> ST W Z
}.

Definition zoom_base {W} `{Object W} {A} (m : ST Base A) : ST W A := fun w =>
  let '(a, b) := m (base w) in (a, set_base b w).

(** ** The base class's own virtual methods *)

(** [preferences_base.cpp:45-48] Get *)
Definition Base_Get (key : string) (defValue : PreferencesValue) : ST Base PreferencesValue := mret defValue.
(** [preferences_base.cpp:50-53] Put *)
Definition Base_Put (key : string) (value : PreferencesValue) : ST Base Z := mret E_OK.
(** [preferences_base.cpp:107-110] GetAll *)
Definition Base_GetAll : ST Base (gmap string PreferencesValue) := mret ∅.
(** [preferences_base.cpp:112-115] HasKey *)
Definition Base_HasKey (key : string) : ST Base bool := mret true.
(** [preferences_base.cpp:145-148] Delete *)
Definition Base_Delete (key : string) : ST Base Z := mret E_OK.
(** [preferences_base.cpp:150-153] Clear *)
Definition Base_Clear : ST Base Z := mret E_OK.
(** [preferences_base.cpp:155-157] Flush *)
Definition Base_Flush : ST Base unit := mret tt.
(** [preferences_base.cpp:159-162] FlushSync *)
Definition Base_FlushSync : ST Base Z := mret E_OK.
(** [preferences_base.cpp:223-226] GetGroupId *)
Definition GetGroupId : ST Base string := gets (fun b => dataGroupId (options_ b)).
(** [preferences_base.cpp:228-231] CloseDb *)
Definition Base_CloseDb : ST Base Z := mret E_OK.
(** [preferences_base.cpp:233-236] GetValue *)
Definition Base_GetValue (key : string) (defValue : PreferencesValue) : ST Base (Z * PreferencesValue) :=
  mret (E_OK, defValue).
(** [preferences_base.cpp:238-241] GetAllData *)
Definition Base_GetAllData : ST Base (Z * gmap string PreferencesValue) := mret (0, ∅).
(** [preferences_base.cpp:243-246] GetBundleName *)
Definition GetBundleName : ST Base string := gets (fun b => bundleName (options_ b)).
(** [preferences_base.cpp:264-267] GetAllDatas *)
Definition Base_GetAllDatas : ST Base (gmap string PreferencesValue) := mret ∅.
(** [preferences_base.h:104-107] Close *)
Definition Base_Close : ST Base Z := mret E_OK.
(** [preferences_base.h:109-112] IsClose *)
Definition Base_IsClose (name : string) : ST Base bool := mret false.

#[export] Instance Base_object : Object Base := {|
  base := fun b => b; set_base := fun b _ => b;
  v_IsClose := Base_IsClose; v_Get := Base_Get; v_Put := Base_Put |}.

(** ** Typed accessors *)

Section accessors.
Context {W : Type} `{Object W}.

(** [preferences_base.cpp:55-62] GetInt *)
Definition GetInt (key : string) (defValue : Z) : ST W Z :=
  preferencesValue ← v_Get key (PreferencesValue_int defValue);
  mret (if negb (IsInt preferencesValue) then defValue else default defValue (as_int preferencesValue)).

(** [preferences_base.cpp:64-71] GetString *)
Definition GetString (key : string) (defValue : string) : ST W string :=
  preferencesValue ← v_Get key (PreferencesValue_string defValue);
  mret (if negb (IsString preferencesValue) then defValue else default defValue (as_string preferencesValue)).

(** [preferences_base.cpp:72-79] GetBool *)
Definition GetBool (key : string) (defValue : bool) : ST W bool :=
  preferencesValue ← v_Get key (PreferencesValue_bool defValue);
  mret (if negb (IsBool preferencesValue) then defValue else default defValue (as_bool preferencesValue)).

(** [preferences_base.cpp:80-87] GetFloat *)
Definition GetFloat (key : string) (defValue : Z) : ST W Z :=
  preferencesValue ← v_Get key (PreferencesValue_float defValue);
  mret (if negb (IsFloat preferencesValue) then defValue else default defValue (as_float preferencesValue)).

(** [preferences_base.cpp:89-96] GetDouble *)
Definition GetDouble (key : string) (defValue : Z) : ST W Z :=
  preferencesValue ← v_Get key (PreferencesValue_double defValue);
  mret (if negb (IsDouble preferencesValue) then defValue else default defValue (as_double preferencesValue)).

(** [preferences_base.cpp:98-105] GetLong *)
Definition GetLong (key : string) (defValue : Z) : ST W Z :=
  preferencesValue ← v_Get key (PreferencesValue_int64 defValue);
  mret (if negb (IsLong preferencesValue) then defValue else default defValue (as_long preferencesValue)).

(** [preferences_base.cpp:117-120] PutInt *)
Definition PutInt (key : string) (value : Z) : ST W Z := v_Put key (PreferencesValue_int value).
(** [preferences_base.cpp:122-125] PutString *)
Definition PutString (key : string) (value : string) : ST W Z := v_Put key (PreferencesValue_string value).
(** [preferences_base.cpp:127-130] PutBool *)
Definition PutBool (key : string) (value : bool) : ST W Z := v_Put key (PreferencesValue_bool value).
(** [preferences_base.cpp:132-135] PutLong *)
Definition PutLong (key : string) (value : Z) : ST W Z := v_Put key (PreferencesValue_int64 value).
(** [preferences_base.cpp:137-140] PutFloat *)
Definition PutFloat (key : string) (value : Z) : ST W Z := v_Put key (PreferencesValue_float value).
(** [preferences_base.cpp:141-144] PutDouble *)
Definition PutDouble (key : string) (value : Z) : ST W Z := v_Put key (PreferencesValue_double value).
End accessors.

(** ** Observers *)

(** [weak_ptr::lock]: the observer while somebody owns it. *)
Definition lock (s : Services) (o : ObsPtr) : ObsPtr :=
  match o with Some p => if decide (p ∈ alive s) then Some p else None | None => None end.

(** An entry that [UnRegisterObserver] stops at. *)
Definition stops_at (s : Services) (preferencesObserver entry : ObsPtr) : bool :=
  let sharedObserver := lock s entry in
  bool_decide (sharedObserver = None) || bool_decide (sharedObserver = preferencesObserver).

Fixpoint erase_first (p : ObsPtr -> bool) (l : list ObsPtr) : list ObsPtr :=
  match l with
  | [] => []
  | o :: l' => if p o then l' else o :: erase_first p l'
  end.

Section observers.
Context {W : Type} `{Object W}.

(** [preferences_base.cpp:168-192] RegisterObserver *)
Definition RegisterObserver_locked (preferencesObserver : ObsPtr) (mode : RegisterMode) : ST Base Z :=
  b ← get;
  match mode with
  | LOCAL_CHANGE =>
      modify (set_localObservers (localObservers_ b ++ [preferencesObserver]));; mret E_OK
  | MULTI_PRECESS_CHANGE =>
      match client (svc (env b)) with
      | None => mret E_GET_DATAOBSMGRCLIENT_FAIL
      | Some dataObsMgrClient =>
          if negb (stubAlloc (svc (env b))) then mret E_ERROR else
          let uri := MakeUri (options_ b) "" in
          let errcode := cl_register dataObsMgrClient uri preferencesObserver in
          zoom_env (emit (EvRegister uri preferencesObserver));;
          if negb (errcode =? 0) then
            zoom_env (ReportFault (mkReportFaultParam "subscribe error" (bundleName (options_ b))
              NORMAL_DB (extract_name (filePath (options_ b))) E_SUBSCRIBE_FAILED
              ("subscribe failed, the reason is " +:+ to_string errcode)));;
            mret errcode
          else
            modify (set_multiProcessObservers (multiProcessObservers_ b ++ [preferencesObserver]));;
            mret E_OK
      end
  | _ => mret E_OK
  end.

(** [preferences_base.cpp:164-193] RegisterObserver *)
Definition RegisterObserver (preferencesObserver : ObsPtr) (mode : RegisterMode) : ST W Z :=
  _ ← v_IsClose "RegisterObserver";
  zoom_base (RegisterObserver_locked preferencesObserver mode).

(** [preferences_base.cpp:273-301] UnRegisterObserver *)
Definition UnRegisterObserver_locked (preferencesObserver : ObsPtr) (mode : RegisterMode) : ST Base Z :=
  b ← get;
  let stops := stops_at (svc (env b)) preferencesObserver in
  match mode with
  | LOCAL_CHANGE =>
      modify (set_localObservers (erase_first stops (localObservers_ b)));; mret E_OK
  | _ =>
      match find stops (multiProcessObservers_ b) with
      | None => mret E_OK
      | Some it =>
          match client (svc (env b)) with
          | None => mret E_GET_DATAOBSMGRCLIENT_FAIL
          | Some dataObsMgrClient =>
              let uri := MakeUri (options_ b) "" in
              let errcode := cl_unregister dataObsMgrClient uri it in
              zoom_env (emit (EvUnregister uri it));;
              if negb (errcode =? 0) then mret errcode
              else
                modify (set_multiProcessObservers (erase_first stops (multiProcessObservers_ b)));;
                mret E_OK
          end
      end
  end.

(** [preferences_base.cpp:269-302] UnRegisterObserver *)
Definition UnRegisterObserver (preferencesObserver : ObsPtr) (mode : RegisterMode) : ST W Z :=
  _ ← v_IsClose "UnRegisterObserver";
  zoom_base (UnRegisterObserver_locked preferencesObserver mode).

(** [preferences_base.cpp:253-261] RegisterDataObserver *)
Definition RegisterDataObserver_locked (preferencesObserver : ObsPtr) (keys : list string) : ST Base Z :=
  b ← get;
  match dataObserversMap_ b !! preferencesObserver with
  | None =>
      modify (set_dataObserversMap (<[preferencesObserver := list_to_set keys]> (dataObserversMap_ b)));;
      mret E_OK
  | Some old =>
      modify (set_dataObserversMap (<[preferencesObserver := old ∪ list_to_set keys]> (dataObserversMap_ b)));;
      mret E_OK
  end.

(** [preferences_base.cpp:248-262] RegisterDataObserver *)
Definition RegisterDataObserver (preferencesObserver : ObsPtr) (keys : list string) : ST W Z :=
  _ ← v_IsClose "RegisterDataObserver";
  zoom_base (RegisterDataObserver_locked preferencesObserver keys).

(** [preferences_base.cpp:200-220] UnRegisterDataObserver *)
Definition UnRegisterDataObserver_locked (preferencesObserver : ObsPtr) (keys : list string) : ST Base Z :=
  b ← get;
  match dataObserversMap_ b !! preferencesObserver with
  | None => mret E_OK
  | Some old =>
      let left := foldl (fun (s : gset string) key => if decide (key ∈ s) then s ∖ {[key]} else s) old keys in
      let left := match keys with [] => ∅ | _ => left end in
      if decide (left = ∅) then
        modify (set_dataObserversMap (delete preferencesObserver (dataObserversMap_ b)));; mret E_OK
      else
        modify (set_dataObserversMap (<[preferencesObserver := left]> (dataObserversMap_ b)));;
        mret E_OBSERVER_RESERVE
  end.

(** [preferences_base.cpp:195-221] UnRegisterDataObserver *)
Definition UnRegisterDataObserver (preferencesObserver : ObsPtr) (keys : list string) : ST W Z :=
  _ ← v_IsClose "UnRegisterDataObserver";
  zoom_base (UnRegisterDataObserver_locked preferencesObserver keys).

(** [preferences.h:318-331] Subscribe *)
Definition Subscribe (observer : ObsPtr) (mode : RegisterMode) (keys : list string) : ST W Z :=
  match mode with
  | LOCAL_CHANGE | MULTI_PRECESS_CHANGE => RegisterObserver observer mode
  | DATA_CHANGE => RegisterDataObserver observer keys
  | CHANGE_BUTT => mret E_INVALID_ARGS
  end.

(** [preferences.h:343-356] Unsubscribe *)
Definition Unsubscribe (observer : ObsPtr) (mode : RegisterMode) (keys : list string) : ST W Z :=
  match mode with
  | LOCAL_CHANGE | MULTI_PRECESS_CHANGE => UnRegisterObserver observer mode
  | DATA_CHANGE => UnRegisterDataObserver observer keys
  | CHANGE_BUTT => mret E_INVALID_ARGS
  end.
End observers.

(** [preferences_observer_stub.h:37-43] OnChangePreferences *)
Definition OnChangePreferences (preferencesObserver_ : ObsPtr) (key : string) : ST Env unit :=
  e ← get;
  match lock (svc e) preferencesObserver_ with
  | Some obs => emit (EvOnChange obs key)
  | None => mret tt
  end.

(** ** The usage report *)

(** [preferences_base.cpp:319-323] ReportObjectUsage *)
Definition ReportObjectUsage (value : PreferencesValue) : ST Base unit :=
  if negb (IsObject value) then mret tt
  else
    b ← get;
    modify (set_objectReported true);;
    if objectReported_ b then mret tt else post ObjectUsageTask.

(** The directory part of a path. *)
Definition parent_dir (path : string) : string := substr_to path (rfind_char "/" path).

(** The closure posted by [ReportObjectUsage].  It has a weak pointer to the
    object: [alive] says whether the object is still there.

    [preferences_base.cpp:324-355] ReportObjectUsage *)
Definition run_ObjectUsage (alive : bool) : ST Base unit :=
  if negb alive then mret tt else
  b ← get;
  let filePath := filePath (options_ b) in
  r ← zoom_env (Access (parent_dir filePath));
  if negb (r =? 0) then modify (set_objectReported false)
  else
    let flagFilePath := MakeFilePath filePath STR_OBJECT_FLAG in
    r ← zoom_env (Access flagFilePath);
    if r =? 0 then mret tt
    else
      zoom_env (ReportFault (mkReportFaultParam "object usage" (bundleName (options_ b))
        (if isEnhance (options_ b) then ENHANCE_DB else NORMAL_DB) (extract_name filePath) E_OK ""));;
      fd ← zoom_env (Open (c_str flagFilePath));
      match fd with
      | None => mret tt
      | Some _ => _ ← zoom_env (Close fd); mret tt
      end.

(** ** Facts *)

Lemma erase_keys (keys : list string) (old : gset string) :
  foldl (fun (s : gset string) key => if decide (key ∈ s) then s ∖ {[key]} else s) old keys
  = old ∖ list_to_set keys.
Proof.
  revert old. induction keys as [|k keys IH]; intros old; cbn [foldl list_to_set].
  { by rewrite difference_empty_L. }
  rewrite IH. apply set_eq. intros x. case_decide; rewrite !elem_of_difference, elem_of_union, ?elem_of_difference, elem_of_singleton;
    [tauto|]. split; [|tauto]. intros [Hx Hk]. split; [done|]. intros [->|?]; done.
Qed.

Lemma erase_first_ext p q l : Forall (fun o => p o = q o) l -> erase_first p l = erase_first q l.
Proof. induction 1 as [|o l Ho _ IH]; [done|]. cbn. by rewrite Ho, IH. Qed.

Lemma erase_first_snoc p l o :
  Forall (fun x => p x = false) l -> p o = true -> erase_first p (l ++ [o]) = l.
Proof. induction 1 as [|x l Hx _ IH]; intros Ho; cbn; [by rewrite Ho|]. by rewrite Hx, IH. Qed.

Lemma lock_alive s p : p ∈ alive s -> lock s (Some p) = Some p.
Proof. intros. unfold lock. by rewrite decide_True. Qed.

(** All the registered observers still have an owner. *)
Definition all_alive (s : Services) (l : list ObsPtr) : Prop :=
  Forall (fun o => exists p, o = Some p /\ p ∈ alive s) l.

(** Among live observers, [UnRegisterObserver] stops at the given one. *)
Lemma all_alive_mono s s' l : (alive s ⊆ alive s') -> all_alive s l -> all_alive s' l.
Proof. intros Hs Hl. unfold all_alive in *. eapply Forall_impl; [exact Hl|]. intros o (q & -> & Hq). exists q. split; [done|set_solver]. Qed.

Lemma stops_at_alive s o l :
  all_alive s l -> Forall (fun x => stops_at s o x = bool_decide (x = o)) l.
Proof.
  intros Hl. eapply Forall_impl; [exact Hl|]. intros x (p & -> & Hp). unfold stops_at. rewrite lock_alive by done.
  by rewrite bool_decide_eq_false_2.
Qed.

(** While every registered local observer is alive, unregistering an
    observer that was just registered for the first time restores the registry,
    and unregistering an observer removes its first registration only.  But an
    expired entry in front is erased in its place: the call then answers
    [E_OK] although the observer stays registered. *)
Theorem local_observer_registry (b : Base) (o : positive)
    (Hl : all_alive (svc (env b)) (localObservers_ b)) (Ho : o ∈ alive (svc (env b))) :
  let registered := snd (RegisterObserver (Some o) LOCAL_CHANGE b) in
  (Some o ∉ localObservers_ b ->
    UnRegisterObserver (Some o) LOCAL_CHANGE registered = (E_OK, b)) /\
  localObservers_ (snd (UnRegisterObserver (Some o) LOCAL_CHANGE b))
    = erase_first (fun x => bool_decide (x = Some o)) (localObservers_ b) /\
  (forall dead, dead ∉ alive (svc (env b)) ->
    let b' := set_localObservers (Some dead :: Some o :: localObservers_ b) b in
    fst (UnRegisterObserver (Some o) LOCAL_CHANGE b') = E_OK /\
    Some o ∈ localObservers_ (snd (UnRegisterObserver (Some o) LOCAL_CHANGE b'))).
Proof.
  intros registered. pose proof (stops_at_alive _ (Some o) _ Hl) as Hs. split_and!.
  - intros Hn. subst registered. destruct b as [op l m d r t e]. cbn in *.
    change ((E_OK, mkBase op (erase_first (stops_at (svc e) (Some o)) (l ++ [Some o])) m d r t e)
      = (E_OK, mkBase op l m d r t e)).
    rewrite erase_first_snoc; [done| |].
    + rewrite Forall_forall in *. intros x Hx. rewrite Hs by done.
      apply bool_decide_eq_false. by intros ->.
    + unfold stops_at. rewrite lock_alive by done. rewrite (bool_decide_eq_true_2 (Some o = Some o)) by done.
      apply orb_true_r.
  - cbn. by apply erase_first_ext.
  - intros dead Hd b'. split; [done|].
    change (localObservers_ _) with (erase_first (stops_at (svc (env b)) (Some o))
      (Some dead :: Some o :: localObservers_ b)).
    cbn [erase_first]. assert (stops_at (svc (env b)) (Some o) (Some dead) = true) as ->; [|left].
    unfold stops_at, lock. by rewrite decide_False by done.
Qed.

Definition witness_services : Services :=
  mkServices {[1%positive; 2%positive]} None true true TOKEN_HAP None "" (fun _ => "").
Definition witness_env : Env :=
  mkEnv (mkFileSystem ∅ ∅ 0 0 (fun _ => SysOk) None) witness_services [] ∅.
Definition witness_base : Base :=
  set_localObservers [Some 2%positive] (PreferencesBase (mkOptions "/data/p" "b" "" false) witness_env).

Example local_observer_registry_witness :
  UnRegisterObserver (Some 1%positive) LOCAL_CHANGE
    (snd (RegisterObserver (Some 1%positive) LOCAL_CHANGE witness_base)) = (E_OK, witness_base).
Proof.
  apply (proj1 (local_observer_registry witness_base 1%positive
    ltac:(repeat constructor; eexists; split; [reflexivity|by vm_compute]) ltac:(by vm_compute))).
  apply (bool_decide_unpack _). vm_compute. exact I.
Defined.

(** The data-observer registry is a map from observers to sets of keys:
    registering adds keys, unregistering named keys removes exactly those,
    unregistering without keys removes all of them; the observer leaves the
    registry exactly when no key is left, which is when the call returns [E_OK]
    rather than [E_OBSERVER_RESERVE]; no other observer is affected. *)
Theorem data_observer_registry (b : Base) (o : ObsPtr) (keys : list string) :
  let keys_of b o := default ∅ (dataObserversMap_ b !! o) in
  let '(r1, b1) := RegisterDataObserver o keys b in
  let '(r2, b2) := UnRegisterDataObserver o keys b in
  r1 = E_OK /\ keys_of b1 o = keys_of b o ∪ list_to_set keys /\
  keys_of b2 o = (if decide (keys = []) then ∅ else keys_of b o ∖ list_to_set keys) /\
  (r2 = E_OK <-> dataObserversMap_ b2 !! o = None) /\
  (r2 = E_OK \/ r2 = E_OBSERVER_RESERVE) /\
  (forall o', o' <> o -> dataObserversMap_ b1 !! o' = dataObserversMap_ b !! o' /\
                      dataObserversMap_ b2 !! o' = dataObserversMap_ b !! o').
Proof.
  intros keys_of. unfold RegisterDataObserver, UnRegisterDataObserver, RegisterDataObserver_locked,
    UnRegisterDataObserver_locked, zoom_base, mbind, st_bind, modify, mret, st_ret, get. cbn.
  subst keys_of. cbn. destruct (dataObserversMap_ b !! o) as [old|] eqn:E; cbn.
  - rewrite erase_keys.
    assert (Hleft : (match keys with [] => ∅ | _ => old ∖ list_to_set keys end)
      = (if decide (keys = []) then ∅ else old ∖ list_to_set keys)) by (by destruct keys).
    rewrite Hleft. set (left := if decide (keys = []) then _ else _).
    destruct (decide (left = ∅)) as [Hl|Hl]; cbn.
    + rewrite lookup_insert_eq, lookup_delete_eq, Hl. split_and!; try done; [by left|].
      intros o' Ho. by rewrite lookup_insert_ne, lookup_delete_ne by done.
    + rewrite !lookup_insert_eq. split_and!; try done; [by right|].
      intros o' Ho. by rewrite !lookup_insert_ne by done.
  - rewrite E, lookup_insert_eq. split_and!; try done; [cbn; set_solver|case_decide; set_solver|by left|].
    intros o' Ho. by rewrite lookup_insert_ne by done.
Qed.
