(* ===== verification/Impl.v ===== *)
(** * The in-memory preferences object over an XML file

    Models [preferences_impl.cpp] and [preferences_impl.h].  Every method is
    one step on the object (it holds the locks the source takes); the closures
    given to an executor are steps of their own ([run_task]), so the steps
    interleave as the executor chooses.  [loadWins] is the environment's
    choice whether the loader thread finishes within the two seconds for which
    a caller waits. *)

From S2P Require Import Prelude Errno Value Utils NumText Env Store Base.

Section Impl.
Context `{XmlStore} `{SafeBlockQueue}.

(** [preferences_impl.h:87-103] PreferencesImpl *)
Record PreferencesImpl := mkImpl {
  base_ : Base;
  loaded_ : bool;
  isNeverUnlock_ : bool;
  loadResult_ : bool;
  modifiedKeys_ : gset string;
  isCleared_ : bool;
  isActive_ : bool;
  valuesCache_ : gmap string PreferencesValue;
  queue_ : queue;
  loadWins : bool
}.

Definition upd_base b p := mkImpl b (loaded_ p) (isNeverUnlock_ p) (loadResult_ p)
  (modifiedKeys_ p) (isCleared_ p) (isActive_ p) (valuesCache_ p) (queue_ p) (loadWins p).
(** The three load flags. *)
Definition upd_load l n r p := mkImpl (base_ p) l n r
  (modifiedKeys_ p) (isCleared_ p) (isActive_ p) (valuesCache_ p) (queue_ p) (loadWins p).
Definition upd_active a p := mkImpl (base_ p) (loaded_ p) (isNeverUnlock_ p) (loadResult_ p)
  (modifiedKeys_ p) (isCleared_ p) a (valuesCache_ p) (queue_ p) (loadWins p).
(** The cached values with their modification marks. *)
Definition upd_cache m c v p := mkImpl (base_ p) (loaded_ p) (isNeverUnlock_ p) (loadResult_ p)
  m c (isActive_ p) v (queue_ p) (loadWins p).
Definition upd_queue q p := mkImpl (base_ p) (loaded_ p) (isNeverUnlock_ p) (loadResult_ p)
  (modifiedKeys_ p) (isCleared_ p) (isActive_ p) (valuesCache_ p) q (loadWins p).

Definition set_loaded b p := upd_load b (isNeverUnlock_ p) (loadResult_ p) p.
Definition set_isNeverUnlock b p := upd_load (loaded_ p) b (loadResult_ p) p.
Definition set_loadResult b p := upd_load (loaded_ p) (isNeverUnlock_ p) b p.
Definition set_valuesCache v p := upd_cache (modifiedKeys_ p) (isCleared_ p) v p.
Definition set_isCleared c p := upd_cache (modifiedKeys_ p) c (valuesCache_ p) p.

Definition on_base {A} (m : ST Base A) : ST PreferencesImpl A := fun p =>
  let '(a, b) := m (base_ p) in (a, upd_base b p).
Definition on_env {A} (m : ST Env A) : ST PreferencesImpl A := on_base (zoom_env m).
Definition opts : ST PreferencesImpl Options := gets (fun p => options_ (base_ p)).

(** [preferences_impl.cpp:45-54] PreferencesImpl *)
Definition PreferencesImpl_new (options : Options) (e : Env) : PreferencesImpl :=
  mkImpl (PreferencesBase options e) false false false ∅ false true ∅ (queue_new 1) false.

(** ** Loading *)

(** [preferences_impl.cpp:205-217] ReadSettingXml *)
Definition Impl_ReadSettingXml (conMap : gmap string PreferencesValue)
    : ST PreferencesImpl (bool * gmap string PreferencesValue) :=
  options ← opts;
  on_env (ReadSettingXml (filePath options) (bundleName options) conMap).

(** [preferences_impl.cpp:82-107] LoadFromDisk *)
Definition LoadFromDisk : ST PreferencesImpl unit :=
  p ← get;
  if loaded_ p then mret tt else
  options ← opts;
  r ← on_env (Access (parent_dir (filePath options)));
  (if negb (r =? 0) then modify (set_isNeverUnlock true) else mret tt);;
  '(loadResult, values) ← Impl_ReadSettingXml ∅;
  (if (loadResult : bool) then
     modify (set_valuesCache values);; modify (set_loadResult true);;
     modify (set_isNeverUnlock false)
   else mret tt);;
  modify (set_loaded true).

(** [preferences_impl.cpp:68-79] StartLoadFromDisk *)
Definition StartLoadFromDisk : ST PreferencesImpl bool :=
  modify (upd_load false false false);;
  accepted ← gets (fun p => taskAccepted (svc (env (base_ p))));
  if (accepted : bool) then on_base (post LoadTask);; mret true else mret false.

(** [preferences_impl.cpp:60-66] Init *)
Definition Init : ST PreferencesImpl Z :=
  r ← StartLoadFromDisk; mret (if negb r then E_ERROR else E_OK).

(** [preferences_impl.cpp:109-127] ReloadFromDisk *)
Definition ReloadFromDisk : ST PreferencesImpl bool :=
  p ← get;
  if loadResult_ p then mret false else
  '(loadResult, values) ← Impl_ReadSettingXml (valuesCache_ p);
  if (loadResult : bool) then
    modify (set_valuesCache values);;
    modify (set_isNeverUnlock false);;
    modify (set_loadResult true);;
    mret true
  else mret false.

(** [preferences_impl.cpp:129-144] PreLoad *)
Definition PreLoad : ST PreferencesImpl bool :=
  p ← get;
  if loadResult_ p then mret true else
  if negb (loaded_ p) then mret true else
  if isNeverUnlock_ p || negb (loadResult_ p) then
    r ← on_env (Access (filePath (options_ (base_ p))));
    if r =? 0 then ReloadFromDisk else mret true
  else mret true.

(** The pending load, taken by the loader thread. *)
Fixpoint take_load (l : list Task) : option (list Task) :=
  match l with
  | [] => None
  | LoadTask :: l' => Some l'
  | t :: l' => cons t <$> take_load l'
  end.

(** [preferences_impl.cpp:146-160] AwaitLoadFile *)
Definition AwaitLoadFile : ST PreferencesImpl unit :=
  p ← get;
  if loaded_ p then _ ← PreLoad; mret tt
  else if loadWins p then
    match take_load (tasks_ (base_ p)) with
    | Some rest => on_base (modify (set_tasks rest));; LoadFromDisk
    | None => mret tt
    end
  else mret tt.

(** ** Life cycle *)

(** [preferences_impl.cpp:219-223] Close *)
Definition Close : ST PreferencesImpl Z := modify (upd_active false);; mret E_OK.

(** [preferences_impl.cpp:225-237] IsClose *)
Definition IsClose (name : string) : ST PreferencesImpl bool :=
  p ← get;
  if isActive_ p then mret false else
  let options := options_ (base_ p) in
  on_env (ReportAbnormalOperation
    (mkReportFaultParam "inactive object" (bundleName options) NORMAL_DB
      (extract_name (filePath options)) E_OBJECT_NOT_ACTIVE (name +:+ " use after close."))
    OBJECT_IS_NOT_ACTIVE);;
  mret true.

(** ** Reading *)

(** [preferences_impl.cpp:162-179] Get *)
Definition Get (key : string) (defValue : PreferencesValue) : ST PreferencesImpl PreferencesValue :=
  if negb (CheckKey key =? E_OK) then mret defValue else
  AwaitLoadFile;;
  _ ← IsClose "Get";
  p ← get;
  if negb (isCleared_ p) then
    match valuesCache_ p !! key with
    | Some value => mret value
    | None => mret defValue
    end
  else mret defValue.

(** [preferences_impl.cpp:181-193] GetAll *)
Definition GetAll : ST PreferencesImpl (gmap string PreferencesValue) :=
  AwaitLoadFile;;
  _ ← IsClose "GetAll";
  p ← get;
  if negb (isCleared_ p) then
    mret (map_fold (fun k v (allDatas : gmap string PreferencesValue) => <[k := v]> allDatas) ∅ (valuesCache_ p))
  else mret ∅.

(** [preferences_impl.cpp:239-252] HasKey *)
Definition HasKey (key : string) : ST PreferencesImpl bool :=
  if negb (CheckKey key =? E_OK) then mret false else
  AwaitLoadFile;;
  _ ← IsClose "HasKey";
  p ← get;
  if isCleared_ p then mret false
  else mret (bool_decide (is_Some (valuesCache_ p !! key))).

(** [preferences_impl.cpp:401-418] GetValue *)
Definition GetValue (key : string) (defValue : PreferencesValue) : ST PreferencesImpl (Z * PreferencesValue) :=
  let errCode := CheckKey key in
  if negb (errCode =? E_OK) then mret (errCode, defValue) else
  AwaitLoadFile;;
  _ ← IsClose "GetValue";
  p ← get;
  if negb (isCleared_ p) then
    match valuesCache_ p !! key with
    | Some value => mret (E_OK, value)
    | None => mret (E_NO_DATA, defValue)
    end
  else mret (E_NO_DATA, defValue).

(** [preferences_impl.cpp:420-432] GetAllData *)
Definition GetAllData : ST PreferencesImpl (Z * gmap string PreferencesValue) :=
  AwaitLoadFile;;
  _ ← IsClose "GetAllData";
  p ← get;
  if negb (isCleared_ p) then
    mret (E_OK, map_fold (fun k v (allDatas : gmap string PreferencesValue) => <[k := v]> allDatas) ∅ (valuesCache_ p))
  else mret (E_OK, ∅).

(** [preferences_impl.cpp:434-443] GetAllDatas *)
Definition GetAllDatas : ST PreferencesImpl (gmap string PreferencesValue) :=
  AwaitLoadFile;;
  _ ← IsClose "GetAllDatas";
  p ← get;
  if negb (isCleared_ p) then mret (valuesCache_ p) else mret ∅.

(** ** Writing to the cache *)

(** [preferences_impl.cpp:254-289] Put *)
Definition Put (key : string) (value : PreferencesValue) : ST PreferencesImpl Z :=
  let errCode := CheckKey key in
  if negb (errCode =? E_OK) then mret errCode else
  let errCode := CheckValue value in
  if negb (errCode =? E_OK) then mret errCode else
  AwaitLoadFile;;
  _ ← IsClose "Put";
  on_base (ReportObjectUsage value);;
  p ← get;
  if isCleared_ p then
    modify (upd_cache (modifiedKeys_ p ∪ dom (valuesCache_ p) ∪ {[key]}) false {[key := value]});;
    mret E_OK
  else
    match valuesCache_ p !! key with
    | Some val =>
        if value_eqb val value then mret E_OK
        else modify (upd_cache (modifiedKeys_ p ∪ {[key]}) (isCleared_ p) (<[key := value]> (valuesCache_ p)));; mret E_OK
    | None => modify (upd_cache (modifiedKeys_ p ∪ {[key]}) (isCleared_ p) (<[key := value]> (valuesCache_ p)));; mret E_OK
    end.

(** [preferences_impl.cpp:291-308] Delete *)
Definition Delete (key : string) : ST PreferencesImpl Z :=
  let errCode := CheckKey key in
  if negb (errCode =? E_OK) then mret errCode else
  AwaitLoadFile;;
  _ ← IsClose "Delete";
  p ← get;
  if isCleared_ p then mret E_OK else
  if bool_decide (is_Some (valuesCache_ p !! key)) then
    modify (upd_cache (modifiedKeys_ p ∪ {[key]}) (isCleared_ p) (delete key (valuesCache_ p)));;
    mret E_OK
  else mret E_OK.

(** [preferences_impl.cpp:310-316] Clear *)
Definition Clear : ST PreferencesImpl Z :=
  AwaitLoadFile;;
  _ ← IsClose "Clear";
  modify (set_isCleared true);;
  mret E_OK.

(** ** Notification *)

(** The records one data observer is shown: its keys among the modified
    ones, with the written value, or no value for a deleted key. *)
Definition change_records (keys keysModified : gset string)
    (writeToDisk : gmap string PreferencesValue) : gmap string PreferencesValue :=
  set_fold (fun key (records : gmap string PreferencesValue) =>
    if decide (key ∈ keys)
    then <[key := default PreferencesValue_default (writeToDisk !! key)]> records
    else records) ∅ keysModified.

Fixpoint for_each {A} (f : A -> ST Env unit) (l : list A) : ST Env unit :=
  match l with [] => mret tt | x :: l' => f x;; for_each f l' end.

Definition notify_data_observer (keysModified : gset string)
    (writeToDisk : gmap string PreferencesValue) (entry : ObsPtr * gset string) : ST Env unit :=
  let records := change_records entry.2 keysModified writeToDisk in
  if decide (records = ∅) then mret tt else
  e ← get;
  match lock (svc e) entry.1 with
  | Some sharedPtr => emit (EvOnChangeData sharedPtr records)
  | None => mret tt
  end.

Definition notify_local_observer (keysModified : gset string) (it : ObsPtr) : ST Env unit :=
  for_each (fun key => OnChangePreferences it key) (elements keysModified).

(** [preferences_impl.cpp:486-508] ExecuteNotifyChange *)
Definition ExecuteNotifyChange (keysModified : gset string) : ST Base unit :=
  post (NotifyTask keysModified).

(** The closure of [ExecuteNotifyChange], less its log lines.

    [preferences_impl.cpp:489-506] ExecuteNotifyChange *)
Definition run_Notify (keysModified : gset string) : ST Base unit :=
  b ← get;
  match client (svc (env b)) with
  | None => mret tt
  | Some _ =>
      zoom_env (for_each (fun key => emit (EvNotifyChange (MakeUri (options_ b) key)))
        (elements keysModified))
  end.

(** [preferences_impl.cpp:445-484] NotifyPreferencesObserver *)
Definition NotifyPreferencesObserver (keysModified : gset string)
    (writeToDisk : gmap string PreferencesValue) : ST Base unit :=
  if decide (keysModified = ∅) then mret tt else
  b ← get;
  zoom_env (for_each (notify_data_observer keysModified writeToDisk) (map_to_list (dataObserversMap_ b)));;
  zoom_env (for_each (notify_local_observer keysModified) (localObservers_ b));;
  ExecuteNotifyChange keysModified.

(** ** Flushing *)

(** [preferences_impl.cpp:318-351] WriteToDiskFile *)
Definition WriteToDiskFile : ST PreferencesImpl Z :=
  p ← get;
  (if isCleared_ p then
     modify (upd_cache (modifiedKeys_ p ∪ dom (valuesCache_ p)) false ∅)
   else mret tt);;
  p ← get;
  if decide (modifiedKeys_ p = ∅) then mret E_OK else
  let keysModified := modifiedKeys_ p in
  let writeToDiskMap := valuesCache_ p in
  modify (upd_cache ∅ (isCleared_ p) (valuesCache_ p));;
  options ← opts;
  ok ← on_env (WriteSettingXml (filePath options) (bundleName options) writeToDiskMap);
  if negb ok then mret E_ERROR else
  p ← get;
  (if isNeverUnlock_ p then modify (set_isNeverUnlock false) else mret tt);;
  (if negb (loadResult_ p) then modify (set_loadResult true) else mret tt);;
  on_base (NotifyPreferencesObserver keysModified writeToDiskMap);;
  mret E_OK.

(** [preferences_impl.cpp:353-378] Flush *)
Definition Flush : ST PreferencesImpl unit :=
  _ ← IsClose "Flush";
  p ← get;
  let '(success, q) := PushNoWait (queue_ p) 1 in
  modify (upd_queue q);;
  if negb success then mret tt else on_base (post FlushTask).

(** Pop the request and, when there was one, write. *)
Definition pop_and_write : ST PreferencesImpl Z :=
  p ← get;
  let '(has, q) := PopNotWait (queue_ p) in
  modify (upd_queue q);;
  match has with
  | Some value => if value =? 1 then WriteToDiskFile else mret E_OK
  | None => mret E_OK
  end.

(** The closure scheduled by [Flush].  It has weak pointers to the object and to
    its queue, which is the object's alone: [alive] says whether they are still
    there.

    [preferences_impl.cpp:361-376] Flush *)
Definition run_Flush (alive : bool) : ST PreferencesImpl unit :=
  if negb alive then mret tt else
  ok ← PreLoad;
  if negb ok then mret tt else _ ← pop_and_write; mret tt.

(** [preferences_impl.cpp:380-399] FlushSync *)
Definition FlushSync : ST PreferencesImpl Z :=
  _ ← IsClose "FlushSync";
  p ← get;
  let '(success, q) := PushNoWait (queue_ p) 1 in
  modify (upd_queue q);;
  if (success : bool) then
    ok ← PreLoad;
    if negb ok then mret E_OK else pop_and_write
  else mret E_OK.

(** ** Steps of the executors *)

(** The other closures hold the object themselves. *)
Definition run_task (alive : bool) (t : Task) : ST PreferencesImpl unit :=
  match t with
  | LoadTask => LoadFromDisk
  | FlushTask => run_Flush alive
  | NotifyTask keysModified => on_base (run_Notify keysModified)
  | ObjectUsageTask => on_base (run_ObjectUsage alive)
  end.

(** Run the [n]-th pending closure, of an object that somebody holds. *)
Definition run_nth (n : nat) : ST PreferencesImpl unit :=
  p ← get;
  match tasks_ (base_ p) !! n with
  | None => mret tt
  | Some t =>
      on_base (modify (set_tasks (take n (tasks_ (base_ p)) ++ drop (S n) (tasks_ (base_ p)))));;
      run_task true t
  end.

#[export] Instance Impl_object : Object PreferencesImpl := {|
  Base.base := base_; Base.set_base := upd_base;
  v_IsClose := IsClose; v_Get := Get; v_Put := Put |}.
End Impl.

(** ** The object as a map *)

Section Impl_facts.
Context `{XmlStore} `{SafeBlockQueue}.

#[local] Abbreviation state := PreferencesImpl.

Definition env_of (p : state) : Env := env (base_ p).
Definition with_env (e : Env) (p : state) : state := upd_base (set_env e (base_ p)) p.

(** The file has been loaded, so no call waits or reloads. *)
Definition settled (p : state) : Prop := loaded_ p = true /\ loadResult_ p = true.

(** The contents a caller sees. *)
Definition view (p : state) : gmap string PreferencesValue :=
  if isCleared_ p then ∅ else valuesCache_ p.

(** Environments that differ only in what was reported. *)
Definition quiet (e e' : Env) : Prop := fs e' = fs e /\ svc e' = svc e.

Lemma quiet_refl e : quiet e e.
Proof. done. Qed.

Lemma with_env_id p : with_env (env_of p) p = p.
Proof. by destruct p as [[]]. Qed.

Lemma AwaitLoadFile_settled p : settled p -> AwaitLoadFile p = (tt, p).
Proof.
  intros [Hl Hr]. unfold AwaitLoadFile, PreLoad, mbind, st_bind, get, mret, st_ret.
  by rewrite Hl, Hr.
Qed.

Lemma PreLoad_settled p : settled p -> PreLoad p = (true, p).
Proof. intros [Hl Hr]. unfold PreLoad, mbind, st_bind, get, mret, st_ret. by rewrite Hr. Qed.

Lemma IsClose_quiet n p :
  exists r e', IsClose n p = (r, with_env e' p) /\ quiet (env_of p) e'.
Proof.
  unfold IsClose, mbind, st_bind, get, mret, st_ret. destruct (isActive_ p).
  - exists false, (env_of p). by rewrite with_env_id.
  - unfold on_env, on_base, zoom_env.
    match goal with |- context [ReportAbnormalOperation ?a ?b ?c] =>
      destruct (ReportAbnormalOperation_cases a b c) as (e' & -> & Hf & Hs & _) end.
    exists true, e'. done.
Qed.

(** A method that only looks: it waits, reports, and computes from the
    cache. *)
Lemma look_settled {A} n (k : state -> A) p :
  settled p ->
  exists e', (AwaitLoadFile;; _ ← IsClose n; p ← get; mret (k p) : ST state A) p
    = (k (with_env e' p), with_env e' p) /\ quiet (env_of p) e'.
Proof.
  intros Hs. rewrite (st_bind_eq _ _ _ _ _ (AwaitLoadFile_settled p Hs)).
  destruct (IsClose_quiet n p) as (r & e' & E & Hq). rewrite (st_bind_eq _ _ _ _ _ E).
  exists e'. done.
Qed.

Lemma fold_insert_id (m : gmap string PreferencesValue) :
  map_fold (fun k v (acc : gmap string PreferencesValue) => <[k := v]> acc) ∅ m = m.
Proof.
  apply (map_fold_weak_ind (fun r m => r = m)); [done|]. by intros k v m' r _ ->.
Qed.

(** ** The operations on the cache, and what they mean *)

Inductive op :=
  | OGet (key : string) (defValue : PreferencesValue)
  | OHasKey (key : string)
  | OGetValue (key : string) (defValue : PreferencesValue)
  | OGetAll | OGetAllData | OGetAllDatas
  | OPut (key : string) (value : PreferencesValue)
  | ODelete (key : string)
  | OClear.

Inductive reply :=
  | RValue (v : PreferencesValue)
  | RBool (b : bool)
  | RCode (z : Z)
  | RCodeValue (z : Z) (v : PreferencesValue)
  | RMap (m : gmap string PreferencesValue)
  | RCodeMap (z : Z) (m : gmap string PreferencesValue).

Definition exec (o : op) : ST state reply :=
  match o with
  | OGet k d => v ← Get k d; mret (RValue v)
  | OHasKey k => b ← HasKey k; mret (RBool b)
  | OGetValue k d => r ← GetValue k d; mret (RCodeValue r.1 r.2)
  | OGetAll => m ← GetAll; mret (RMap m)
  | OGetAllData => r ← GetAllData; mret (RCodeMap r.1 r.2)
  | OGetAllDatas => m ← GetAllDatas; mret (RMap m)
  | OPut k v => z ← Put k v; mret (RCode z)
  | ODelete k => z ← Delete k; mret (RCode z)
  | OClear => z ← Clear; mret (RCode z)
  end.

(** The abstract object: a finite map behind the argument checks. *)
Definition spec (o : op) (m : gmap string PreferencesValue) : reply * gmap string PreferencesValue :=
  match o with
  | OGet k d => (RValue (if CheckKey k =? E_OK then default d (m !! k) else d), m)
  | OHasKey k => (RBool ((CheckKey k =? E_OK) && bool_decide (is_Some (m !! k))), m)
  | OGetValue k d =>
      (if CheckKey k =? E_OK then
         match m !! k with Some v => RCodeValue E_OK v | None => RCodeValue E_NO_DATA d end
       else RCodeValue (CheckKey k) d, m)
  | OGetAll | OGetAllDatas => (RMap m, m)
  | OGetAllData => (RCodeMap E_OK m, m)
  | OPut k v =>
      if negb (CheckKey k =? E_OK) then (RCode (CheckKey k), m)
      else if negb (CheckValue v =? E_OK) then (RCode (CheckValue v), m)
      else (RCode E_OK, <[k := v]> m)
  | ODelete k =>
      if negb (CheckKey k =? E_OK) then (RCode (CheckKey k), m) else (RCode E_OK, delete k m)
  | OClear => (RCode E_OK, ∅)
  end.

(** What an operation of the cache may change, besides the reply: with
    [look], nothing; otherwise the cache, by [Put], [Delete] or [Clear]. *)
Definition cache_put (k : string) (v : PreferencesValue) (p : state) : state :=
  if isCleared_ p then
    upd_cache (modifiedKeys_ p ∪ dom (valuesCache_ p) ∪ {[k]}) false {[k := v]} p
  else
    match valuesCache_ p !! k with
    | Some val => if value_eqb val v then p
                  else upd_cache (modifiedKeys_ p ∪ {[k]}) (isCleared_ p) (<[k := v]> (valuesCache_ p)) p
    | None => upd_cache (modifiedKeys_ p ∪ {[k]}) (isCleared_ p) (<[k := v]> (valuesCache_ p)) p
    end.

Definition cache_delete (k : string) (p : state) : state :=
  if isCleared_ p then p
  else if bool_decide (is_Some (valuesCache_ p !! k))
  then upd_cache (modifiedKeys_ p ∪ {[k]}) (isCleared_ p) (delete k (valuesCache_ p)) p
  else p.

Definition cache_step (o : op) (p : state) : state :=
  match o with
  | OPut k v => if (CheckKey k =? E_OK) && (CheckValue v =? E_OK) then cache_put k v p else p
  | ODelete k => if CheckKey k =? E_OK then cache_delete k p else p
  | OClear => upd_cache (modifiedKeys_ p) true (valuesCache_ p) p
  | _ => p
  end.

(** The reply of an operation, from the contents. *)
Definition cache_reply (o : op) (p : state) : reply := (spec o (view p)).1.

(** [b] differs from [a] in reports and posted closures only. *)
Definition base_quiet (a b : Base) : Prop :=
  options_ b = options_ a /\ localObservers_ b = localObservers_ a /\
  dataObserversMap_ b = dataObserversMap_ a /\ quiet (env a) (env b).

Lemma ReportObjectUsage_quiet v b : base_quiet b (snd (ReportObjectUsage v b)).
Proof.
  unfold ReportObjectUsage, mbind, st_bind, get, modify, mret, st_ret.
  destruct (negb (IsObject v)); [done|]. by destruct (objectReported_ b).
Qed.

(** Run the prologue of a method of a settled object. *)
Ltac prologue p Hs name :=
  let r := fresh "r" in let e' := fresh "e'" in let E := fresh "E" in let Hq := fresh "Hq" in
  destruct (IsClose_quiet name p) as (r & e' & E & Hq);
  unfold mbind, st_bind, get, modify, mret, st_ret;
  rewrite (AwaitLoadFile_settled p Hs), E.

Lemma base_quiet_env e' p : quiet (env_of p) e' -> base_quiet (base_ p) (set_env e' (base_ p)).
Proof. done. Qed.

Lemma base_quiet_refl b : base_quiet b b.
Proof. done. Qed.

Lemma base_quiet_trans a b c : base_quiet a b -> base_quiet b c -> base_quiet a c.
Proof.
  intros (H1 & H2 & H3 & H4 & H5) (H6 & H7 & H8 & H9 & H10).
  unfold base_quiet, quiet. split_and!; congruence.
Qed.

Lemma upd_base_id p : upd_base (base_ p) p = p.
Proof. by destruct p. Qed.

(** Each operation on a settled object replies from the contents and takes
    the step on the cache. *)
Lemma exec_settled o p : settled p ->
  exists b', exec o p = (cache_reply o p, upd_base b' (cache_step o p)) /\
  base_quiet (base_ p) b'.
Proof.
  intros Hs. unfold cache_reply. destruct o; cbn [exec spec cache_step fst].
  - unfold Get. destruct (CheckKey key =? E_OK); cbn [negb].
    2: { exists (base_ p). by rewrite upd_base_id. }
    prologue p Hs "Get". unfold view. cbn [isCleared_ with_env upd_base valuesCache_].
    destruct (isCleared_ p); cbn [negb]; [by eexists|]. destruct (valuesCache_ p !! key); by eexists.
  - unfold HasKey. destruct (CheckKey key =? E_OK); cbn [negb andb].
    2: { exists (base_ p). by rewrite upd_base_id. }
    prologue p Hs "HasKey". unfold view. cbn [isCleared_ with_env upd_base valuesCache_].
    destruct (isCleared_ p); by eexists.
  - unfold GetValue. destruct (CheckKey key =? E_OK) eqn:Ek; cbn [negb].
    2: { exists (base_ p). by rewrite upd_base_id. }
    prologue p Hs "GetValue". unfold view. cbn [isCleared_ with_env upd_base valuesCache_].
    destruct (isCleared_ p); cbn [negb]; [by eexists|]. destruct (valuesCache_ p !! key); by eexists.
  - unfold GetAll. prologue p Hs "GetAll". unfold view.
    cbn [isCleared_ with_env upd_base valuesCache_]. rewrite fold_insert_id.
    destruct (isCleared_ p); by eexists.
  - unfold GetAllData. prologue p Hs "GetAllData". unfold view.
    cbn [isCleared_ with_env upd_base valuesCache_]. rewrite fold_insert_id.
    destruct (isCleared_ p); by eexists.
  - unfold GetAllDatas. prologue p Hs "GetAllDatas". unfold view.
    cbn [isCleared_ with_env upd_base valuesCache_]. destruct (isCleared_ p); by eexists.
  - unfold Put. destruct (CheckKey key =? E_OK) eqn:Ek; cbn [negb andb].
    2: { exists (base_ p). by rewrite upd_base_id. }
    destruct (CheckValue value =? E_OK) eqn:Ev; cbn [negb].
    2: { exists (base_ p). by rewrite upd_base_id. }
    prologue p Hs "Put". unfold on_base. set (b1 := base_ (with_env e' p)).
    pose proof (ReportObjectUsage_quiet value b1) as Hu.
    destruct (ReportObjectUsage value b1) as [[] b2]. cbn [snd] in Hu.
    exists b2. split; [|by eapply base_quiet_trans; [apply base_quiet_env|]].
    unfold cache_put. cbn [isCleared_ with_env upd_base valuesCache_ modifiedKeys_].
    destruct (isCleared_ p); [done|]. destruct (valuesCache_ p !! key); [|done].
    by destruct (value_eqb _ _).
  - unfold Delete. destruct (CheckKey key =? E_OK) eqn:Ek; cbn [negb].
    2: { exists (base_ p). by rewrite upd_base_id. }
    prologue p Hs "Delete". exists (set_env e' (base_ p)). split; [|done].
    unfold cache_delete. cbn [isCleared_ with_env upd_base valuesCache_ modifiedKeys_].
    destruct (isCleared_ p); [done|]. by destruct (bool_decide _).
  - unfold Clear. prologue p Hs "Clear". by eexists.
Qed.

(** ** Simulation by the map *)

(** Maps whose values cannot be told apart by [operator==]: [Put] keeps the
    old value when the new one compares equal (as 0.0 and -0.0 do). *)
Definition same_map (m1 m2 : gmap string PreferencesValue) : Prop :=
  forall k, option_Forall2 value_same (m1 !! k) (m2 !! k).

#[export] Instance same_map_equiv : Equivalence same_map.
Proof.
  split; intros m1; unfold same_map.
  - intros k. reflexivity.
  - intros m2 Hm k. symmetry. apply Hm.
  - intros m2 m3 H1 H2 k. etrans; [apply H1|apply H2].
Qed.

Definition same_reply (r1 r2 : reply) : Prop :=
  match r1, r2 with
  | RValue v1, RValue v2 => value_same v1 v2
  | RBool b1, RBool b2 => b1 = b2
  | RCode z1, RCode z2 => z1 = z2
  | RCodeValue z1 v1, RCodeValue z2 v2 => z1 = z2 /\ value_same v1 v2
  | RMap m1, RMap m2 => same_map m1 m2
  | RCodeMap z1 m1, RCodeMap z2 m2 => z1 = z2 /\ same_map m1 m2
  | _, _ => False
  end.

Lemma same_map_insert k v1 v2 m1 m2 :
  value_same v1 v2 -> same_map m1 m2 -> same_map (<[k := v1]> m1) (<[k := v2]> m2).
Proof.
  intros Hv Hm k'. destruct (decide (k = k')) as [->|Hk].
  - rewrite !lookup_insert_eq. by constructor.
  - rewrite !lookup_insert_ne by done. apply Hm.
Qed.

Lemma same_map_delete k m1 m2 : same_map m1 m2 -> same_map (delete k m1) (delete k m2).
Proof.
  intros Hm k'. destruct (decide (k = k')) as [->|Hk].
  - rewrite !lookup_delete_eq. constructor.
  - rewrite !lookup_delete_ne by done. apply Hm.
Qed.

(** The abstract operations respect the equivalence. *)
Lemma spec_proper o m1 m2 : same_map m1 m2 ->
  same_reply (spec o m1).1 (spec o m2).1 /\ same_map (spec o m1).2 (spec o m2).2.
Proof.
  intros Hm.
  assert (Hk : forall k, match m1 !! k, m2 !! k with
    | Some v1, Some v2 => value_same v1 v2 | None, None => True | _, _ => False end).
  { intros k. by destruct (Hm k). }
  destruct o; cbn [spec]; try (by split); try (specialize (Hk key)).
  - split; [|done]. destruct (CheckKey key =? E_OK); [|cbn; reflexivity].
    destruct (m1 !! key), (m2 !! key); cbn; done || reflexivity.
  - split; [|done]. cbn. f_equal. apply bool_decide_ext.
    destruct (m1 !! key), (m2 !! key); try done; split; intros; by eexists.
  - split; [|done]. destruct (CheckKey key =? E_OK); [|by cbn].
    destruct (m1 !! key), (m2 !! key); cbn; done || by split.
  - destruct (CheckKey key =? E_OK); [|done]. destruct (CheckValue value =? E_OK); [|done].
    split; [done|]. by apply same_map_insert; [reflexivity|].
  - destruct (CheckKey key =? E_OK); [|done]. split; [done|]. by apply same_map_delete.
Qed.

Lemma cache_put_view k v p : same_map (view (cache_put k v p)) (<[k := v]> (view p)).
Proof.
  unfold cache_put, view. destruct (isCleared_ p) eqn:Ec; cbn; [done|].
  destruct (valuesCache_ p !! k) as [val|] eqn:Ek; [|done].
  destruct (value_eqb val v) eqn:Ev; [|done]. rewrite Ec.
  rewrite <- (insert_id (valuesCache_ p) k val) at 1 by done.
  apply same_map_insert; [|done]. by right.
Qed.

Lemma cache_delete_view k p : view (cache_delete k p) = delete k (view p).
Proof.
  unfold cache_delete, view. destruct (isCleared_ p) eqn:Ec; [rewrite Ec; by rewrite delete_empty|].
  case_bool_decide as Hk; [done|]. rewrite Ec, delete_id; [done|]. by apply eq_None_not_Some.
Qed.

Lemma cache_step_view o p : same_map (view (cache_step o p)) (spec o (view p)).2.
Proof.
  destruct o; cbn [cache_step spec]; try done.
  - destruct (CheckKey key =? E_OK); [|done]. destruct (CheckValue value =? E_OK); [|done].
    apply cache_put_view.
  - destruct (CheckKey key =? E_OK); [|done]. by rewrite cache_delete_view.
Qed.

Lemma cache_step_settled o p : settled p -> settled (cache_step o p).
Proof.
  intros Hs. destruct o; cbn [cache_step]; try done; unfold cache_put, cache_delete;
    repeat case_match; done.
Qed.

Lemma cache_step_queue o p : queue_ (cache_step o p) = queue_ p.
Proof.
  destruct o; cbn [cache_step]; try done; unfold cache_put, cache_delete;
    repeat case_match; done.
Qed.

Fixpoint exec_all (os : list op) : ST state (list reply) :=
  match os with
  | [] => mret []
  | o :: os' => r ← exec o; rs ← exec_all os'; mret (r :: rs)
  end.

Fixpoint spec_all (os : list op) (m : gmap string PreferencesValue)
    : list reply * gmap string PreferencesValue :=
  match os with
  | [] => ([], m)
  | o :: os' =>
      let '(r, m1) := spec o m in let '(rs, m2) := spec_all os' m1 in (r :: rs, m2)
  end.

Lemma exec_all_cons o os p :
  exec_all (o :: os) p =
  (let '(r, p1) := exec o p in let '(rs, p2) := exec_all os p1 in (r :: rs, p2)).
Proof.
  cbn [exec_all]. unfold mbind, st_bind, mret, st_ret. destruct (exec o p) as [r p1].
  by destruct (exec_all os p1).
Qed.

(** ** The file and the modification marks *)

Definition path_of (p : state) : string := filePath (options_ (base_ p)).

(** Every key on which the cache differs from [m0] is marked. *)
Definition marked (m0 : gmap string PreferencesValue) (p : state) : Prop :=
  forall k, valuesCache_ p !! k <> m0 !! k -> k ∈ modifiedKeys_ p.

Lemma cache_step_marked m0 o p : marked m0 p -> marked m0 (cache_step o p).
Proof.
  intros Hm. destruct o; cbn [cache_step]; try done; unfold cache_put, cache_delete, marked in *.
  - repeat case_match; try done; cbn; intros k Hk; rewrite !elem_of_union, elem_of_singleton;
      destruct (decide (key = k)) as [->|Hne]; auto.
    1: { rewrite lookup_singleton_ne in Hk by done.
      destruct (valuesCache_ p !! k) eqn:E; [left; right; by apply elem_of_dom_2 in E|].
      left; left. apply Hm. congruence. }
    all: rewrite lookup_insert_ne in Hk by done; auto.
  - repeat case_match; try done; cbn; intros k Hk; rewrite !elem_of_union, elem_of_singleton.
    destruct (decide (key = k)) as [->|Hne]; [auto|].
    rewrite lookup_delete_ne in Hk by done. auto.
Qed.

(** ** Notifying changes the events only *)

Lemma for_each_quiet {A} (f : A -> ST Env unit) l e :
  (forall x e, quiet e (snd (f x e))) -> quiet e (snd (for_each f l e)).
Proof.
  intros Hf. revert e. induction l as [|x l IH]; intros e; [done|].
  cbn [for_each]. unfold mbind, st_bind. specialize (Hf x e). destruct (f x e) as [[] e1].
  destruct (IH e1), Hf. cbn [snd] in *. unfold quiet. split; congruence.
Qed.

Lemma notify_data_quiet km w x e : quiet e (snd (notify_data_observer km w x e)).
Proof.
  unfold notify_data_observer, mbind, st_bind, get, mret, st_ret. case_decide; [done|].
  by case_match.
Qed.

Lemma OnChange_quiet o k e : quiet e (snd (OnChangePreferences o k e)).
Proof. unfold OnChangePreferences, mbind, st_bind, get, mret, st_ret. by case_match. Qed.

Lemma notify_local_quiet km o e : quiet e (snd (notify_local_observer km o e)).
Proof. apply for_each_quiet. intros. apply OnChange_quiet. Qed.

Lemma Notify_quiet km w b : base_quiet b (snd (NotifyPreferencesObserver km w b)).
Proof.
  unfold NotifyPreferencesObserver, ExecuteNotifyChange, post, zoom_env, modify, mbind, st_bind,
    get, mret, st_ret. case_decide; [done|].
  pose proof (for_each_quiet (notify_data_observer km w) (map_to_list (dataObserversMap_ b)) (env b)
    (notify_data_quiet km w)) as Hq1.
  destruct (for_each _ (map_to_list (dataObserversMap_ b)) (env b)) as [[] e1]. cbn [env set_env].
  pose proof (for_each_quiet (notify_local_observer km) (localObservers_ b) e1
    (notify_local_quiet km)) as Hq2.
  destruct (for_each _ (localObservers_ b) e1) as [[] e2]. cbn [snd] in *.
  split_and!; try done. destruct Hq1, Hq2. unfold quiet. cbn. split; congruence.
Qed.

(** ** Writing the cache to the file *)

(** The first part of [WriteToDiskFile]: apply a pending [Clear]. *)
Definition apply_clear (p : state) : state :=
  if isCleared_ p then upd_cache (modifiedKeys_ p ∪ dom (valuesCache_ p)) false ∅ p else p.

Lemma apply_clear_view p : valuesCache_ (apply_clear p) = view p.
Proof. unfold apply_clear, view. by destruct (isCleared_ p). Qed.

Lemma apply_clear_base p : base_ (apply_clear p) = base_ p /\ isCleared_ (apply_clear p) = false /\
  queue_ (apply_clear p) = queue_ p /\ loaded_ (apply_clear p) = loaded_ p /\
  loadResult_ (apply_clear p) = loadResult_ p /\ isNeverUnlock_ (apply_clear p) = isNeverUnlock_ p.
Proof. unfold apply_clear. by destruct (isCleared_ p) eqn:E. Qed.

Lemma apply_clear_marked m0 p : marked m0 p -> marked m0 (apply_clear p).
Proof.
  unfold apply_clear, marked. intros Hm. destruct (isCleared_ p); [|done].
  cbn. intros k Hk. rewrite lookup_empty in Hk. rewrite elem_of_union.
  destruct (valuesCache_ p !! k) eqn:E; [right; by apply elem_of_dom_2 in E|].
  left. apply Hm. congruence.
Qed.

Lemma marked_unmodified m0 p : marked m0 p -> modifiedKeys_ p = ∅ -> valuesCache_ p = m0.
Proof.
  intros Hm He. apply map_eq. intros k. destruct (decide (valuesCache_ p !! k = m0 !! k)); [done|].
  exfalso. specialize (Hm k). rewrite He in Hm. set_solver.
Qed.

(** The object after the cached contents were taken for writing: the
    environment [e] and the flags may differ. *)
Definition taken (p p' : state) : Prop :=
  valuesCache_ p' = view p /\ isCleared_ p' = false /\ modifiedKeys_ p' = ∅ /\
  queue_ p' = queue_ p /\ options_ (base_ p') = options_ (base_ p) /\
  loaded_ p' = loaded_ p /\ (loadResult_ p = true -> loadResult_ p' = true).

Definition Write_call (p : state) : ST Env bool :=
  WriteSettingXml (path_of p) (bundleName (options_ (base_ p))) (view p).

(** The rest of a successful write: flags and notifications. *)
Definition finish_write (km : gset string) (w : gmap string PreferencesValue) : ST state Z :=
  p ← get;
  (if isNeverUnlock_ p then modify (set_isNeverUnlock false) else mret tt);;
  (if negb (loadResult_ p) then modify (set_loadResult true) else mret tt);;
  on_base (NotifyPreferencesObserver km w);;
  mret E_OK.

Lemma finish_write_spec km w p :
  exists p', finish_write km w p = (E_OK, p') /\ quiet (env_of p) (env_of p') /\
  valuesCache_ p' = valuesCache_ p /\ isCleared_ p' = isCleared_ p /\
  modifiedKeys_ p' = modifiedKeys_ p /\ queue_ p' = queue_ p /\
  options_ (base_ p') = options_ (base_ p) /\ loaded_ p' = loaded_ p /\ loadResult_ p' = true.
Proof.
  unfold finish_write, on_base, mbind, st_bind, get, modify, mret, st_ret.
  destruct (isNeverUnlock_ p) eqn:En; destruct (loadResult_ p) eqn:Er; cbn [negb];
    match goal with |- context [NotifyPreferencesObserver ?k ?w ?b] =>
      pose proof (Notify_quiet k w b) as (Ho & _ & _ & Hq);
      destruct (NotifyPreferencesObserver k w b) as [[] b'] end;
    eexists; (split; [reflexivity|]); cbn [snd] in *; unfold env_of; cbn; by split_and!.
Qed.

Lemma WriteToDiskFile_eq p :
  WriteToDiskFile p =
  (let p1 := apply_clear p in
   if decide (modifiedKeys_ p1 = ∅) then (E_OK, p1) else
   let p2 := upd_cache ∅ (isCleared_ p1) (valuesCache_ p1) p1 in
   let '(ok, e) := Write_call p (env_of p) in
   if negb ok then (E_ERROR, with_env e p2)
   else finish_write (modifiedKeys_ p1) (view p) (with_env e p2)).
Proof.
  unfold WriteToDiskFile, Write_call, apply_clear, view, path_of, env_of.
  unfold mbind, st_bind, get, modify, mret, st_ret, opts, gets, on_env, on_base, zoom_env.
  destruct (isCleared_ p) eqn:Ec; cbn zeta.
  - cbn [modifiedKeys_ upd_cache base_ valuesCache_ isCleared_].
    destruct (decide _); [done|].
    destruct (WriteSettingXml _ _ _ _) as [[] e]; cbn [negb]; done.
  - rewrite Ec. destruct (decide _); [done|].
    destruct (WriteSettingXml _ _ _ _) as [[] e]; cbn [negb]; done.
Qed.

(** Every outcome of a write. *)
Lemma WriteToDiskFile_cases p :
  exists r p', WriteToDiskFile p = (r, p') /\ taken p p' /\
  (modifiedKeys_ (apply_clear p) = ∅ /\ r = E_OK /\ env_of p' = env_of p \/
   modifiedKeys_ (apply_clear p) <> ∅ /\
   quiet (snd (Write_call p (env_of p))) (env_of p') /\
   r = (if fst (Write_call p (env_of p)) then E_OK else E_ERROR)).
Proof.
  rewrite WriteToDiskFile_eq. cbn zeta. pose proof (apply_clear_view p) as Hv.
  destruct (apply_clear_base p) as (Hb & Hc & Hq & Hl & Hr & Hn).
  destruct (decide (modifiedKeys_ (apply_clear p) = ∅)) as [He|He].
  - exists E_OK, (apply_clear p). split; [done|]. split; [|left].
    + unfold taken. rewrite Hb, Hl, Hr. by split_and!.
    + unfold env_of. by rewrite Hb.
  - destruct (Write_call p (env_of p)) as [[] e] eqn:Ew; cbn [negb fst snd].
    + destruct (finish_write_spec (modifiedKeys_ (apply_clear p)) (view p)
        (with_env e (upd_cache ∅ (isCleared_ (apply_clear p)) (valuesCache_ (apply_clear p)) (apply_clear p))))
        as (p' & -> & Hq' & H1' & H2' & H3' & H4' & H5' & H6' & H7').
      eexists _, p'. split; [reflexivity|]. cbn in *. rewrite Hb, Hl, Hq, Hv in *.
      split; [unfold taken; split_and!; congruence|]. right. by split_and!.
    + eexists _, _. split; [reflexivity|]. unfold taken. cbn. rewrite Hb, Hl, Hr, Hq, Hv.
      split; [by split_and!|]. right. by split_and!.
Qed.
End Impl_facts.

Section Impl_flush.
Context `{XmlStoreLaws} `{SafeBlockQueueLaws}.

#[local] Abbreviation state := PreferencesImpl.

Lemma stored_fs f e e' : fs e' = fs e -> stored e' f = stored e f.
Proof. intros E. apply stored_files. by rewrite E. Qed.

(** A path that names a file. *)
Definition good_path (f : string) : Prop := f <> "" /\ no_nul f = true /\ slen f <= PATH_MAX.

(** The contents can be represented in the file. *)
Definition representable (m : gmap string PreferencesValue) : Prop :=
  forall k v, m !! k = Some v -> no_nul k = true /\ lossless k v.

(** The file holds [m0] and the marks cover the difference. *)
Definition synced (m0 : gmap string PreferencesValue) (p : state) : Prop :=
  stored (env_of p) (path_of p) = Some m0 /\ marked m0 p.

Lemma with_env_synced m0 e p : quiet (env_of p) e -> synced m0 p -> synced m0 (with_env e p).
Proof.
  intros [Hf _] [Hs Hm]. split; [|exact Hm].
  change (stored e (path_of p) = Some m0). by rewrite (stored_fs _ (env_of p)).
Qed.

(** What a write achieves. *)
Lemma WriteToDiskFile_persists m0 p :
  synced m0 p -> no_short_writes (env_of p) -> good_path (path_of p) -> representable (view p) ->
  exists r p', WriteToDiskFile p = (r, p') /\ taken p p' /\
  (r = E_OK /\ stored (env_of p') (path_of p) = Some (view p) \/
   r = E_ERROR /\ fst (Write_call p (env_of p)) = false).
Proof.
  intros [Hst Hm] Hns Hp Hr. destruct (WriteToDiskFile_cases p) as (r & p' & E & Ht & Hc).
  exists r, p'. split; [done|]. split; [done|].
  destruct Hc as [(He & -> & Henv)|(He & [Hfs _] & ->)].
  - left. split; [done|]. rewrite Henv, Hst. f_equal.
    rewrite <- (apply_clear_view p). symmetry. apply marked_unmodified; [|done].
    by apply apply_clear_marked.
  - destruct (fst (Write_call p (env_of p))) eqn:Ew; [left|by right]. split; [done|].
    rewrite (stored_fs _ _ _ Hfs). destruct Hp as (? & ? & ?). by apply write_stored.
Qed.

(** A request in an otherwise empty queue is popped and written. *)
Lemma pop_and_write_eq p : elems (queue_ p) = [1] ->
  exists q, elems q = [] /\ capacity q = capacity (queue_ p) /\
  pop_and_write p = WriteToDiskFile (upd_queue q p).
Proof.
  intros Hq. destruct (pop_spec (queue_ p)) as (Hh & Hc & Ht). rewrite Hq in Hh, Ht.
  exists (snd (PopNotWait (queue_ p))). split; [done|]. split; [done|].
  unfold pop_and_write, mbind, st_bind, get, modify.
  destruct (PopNotWait (queue_ p)) as [has q]. cbn in *. by subst has.
Qed.

Lemma push_empty q : elems q = [] -> (0 < capacity q)%nat ->
  exists q', PushNoWait q 1 = (true, q') /\ elems q' = [1] /\ capacity q' = capacity q.
Proof.
  intros He Hc. destruct (push_spec q 1) as (Hp & Hcap & Hel). rewrite He in *.
  exists (snd (PushNoWait q 1)). rewrite Hp. cbn [length] in *.
  rewrite bool_decide_eq_true_2 by done. rewrite decide_True in Hel by done. done.
Qed.

Lemma push_full q x : length (elems q) = capacity q ->
  exists q', PushNoWait q x = (false, q') /\ elems q' = elems q /\ capacity q' = capacity q.
Proof.
  intros He. destruct (push_spec q x) as (Hp & Hcap & Hel).
  exists (snd (PushNoWait q x)). rewrite Hp. rewrite bool_decide_eq_false_2 by lia.
  rewrite decide_False in Hel by lia. done.
Qed.

(** A settled object with an empty request queue. *)
Definition idle (p : state) : Prop :=
  settled p /\ elems (queue_ p) = [] /\ (0 < capacity (queue_ p))%nat.

(** The contents of a [taken] object. *)
Lemma taken_view p p' : taken p p' -> view p' = view p.
Proof. intros (Hv & Hc & _). unfold view at 1. by rewrite Hc. Qed.

(** What a completed flush leaves. *)
Definition flushed (p : state) (r : Z) (p' : state) : Prop :=
  view p' = view p /\ modifiedKeys_ p' = ∅ /\ isCleared_ p' = false /\ idle p' /\ path_of p' = path_of p /\
  (r = E_OK -> synced (view p) p') /\ (r = E_OK \/ r = E_ERROR).

Lemma pop_and_write_flushed m0 p :
  settled p -> elems (queue_ p) = [1] -> (0 < capacity (queue_ p))%nat -> synced m0 p ->
  no_short_writes (env_of p) -> good_path (path_of p) -> representable (view p) ->
  exists r p', pop_and_write p = (r, p') /\ flushed p r p' /\
  r = (if decide (modifiedKeys_ (apply_clear p) = ∅) then E_OK else
       if fst (Write_call p (env_of p)) then E_OK else E_ERROR).
Proof.
  intros [Hl Hlr] Hq Hcap Hs Hns Hp Hr.
  destruct (pop_and_write_eq p Hq) as (q & Heq & Hcq & ->).
  destruct (WriteToDiskFile_cases (upd_queue q p)) as (r & p' & E & Ht & Hc).
  destruct (WriteToDiskFile_persists m0 (upd_queue q p) Hs Hns Hp Hr) as (r0 & p0 & E0 & _ & Hper).
  rewrite E in E0. injection E0 as <- <-. exists r, p'. split; [done|].
  pose proof (taken_view _ _ Ht) as Hview. destruct Ht as (Hv & Hcl & Hmk & Hqq & Ho & Hll & Hlr').
  assert (Hac : modifiedKeys_ (apply_clear (upd_queue q p)) = modifiedKeys_ (apply_clear p)).
  { unfold apply_clear. cbn. by destruct (isCleared_ p). }
  rewrite Hac in Hc. split.
  - unfold flushed, idle, settled. rewrite Hqq, Hll, Hlr' by done. cbn [queue_ upd_queue loaded_].
    rewrite Hcq. assert (Hpath : path_of p' = path_of p) by (unfold path_of; by rewrite Ho).
    split_and!; try done.
    + intros ->. destruct Hper as [[_ Hst]|[Hbad _]]; [|done]. split; [by rewrite Hpath|].
      intros k Hk. destruct Hk. by rewrite Hv.
    + destruct Hper as [[-> _]|[-> _]]; auto.
  - destruct Hc as [(He & -> & _)|(He & _ & ->)]; [by rewrite decide_True|].
    by rewrite decide_False.
Qed.

Lemma FlushSync_idle m0 p :
  idle p -> synced m0 p -> no_short_writes (env_of p) -> good_path (path_of p) -> representable (view p) ->
  exists r p' e, FlushSync p = (r, p') /\ flushed p r p' /\ quiet (env_of p) e /\
  r = (if decide (modifiedKeys_ (apply_clear p) = ∅) then E_OK else
       if fst (Write_call p e) then E_OK else E_ERROR).
Proof.
  intros (Hs & He & Hc) Hsy Hns Hp Hr. unfold FlushSync, mbind, st_bind, get, modify.
  destruct (IsClose_quiet "FlushSync" p) as (b & e & -> & Hq).
  cbn [queue_ with_env upd_base]. destruct (push_empty _ He Hc) as (q & -> & Hel & Hcap).
  rewrite PreLoad_settled by done. cbn [negb].
  destruct (pop_and_write_flushed m0 (upd_queue q (with_env e p))) as (r & p' & -> & Hfl & Hrr);
    [done|done|by cbn; rewrite Hcap|by apply with_env_synced| |done|done|].
  - unfold no_short_writes. cbn. by rewrite (proj1 Hq).
  - exists r, p', e. split_and!; [done|exact Hfl|exact Hq|]. rewrite Hrr.
    assert (Hac : modifiedKeys_ (apply_clear (upd_queue q (with_env e p))) = modifiedKeys_ (apply_clear p)).
    { unfold apply_clear. cbn. by destruct (isCleared_ p). }
    by rewrite Hac.
Qed.
End Impl_flush.

(** ** Limits *)

(** A key has a length between 1 and 1024, a text or an object one that is at
    most [2 ^ 24] when it is truncated to 32 bits, a big integer has words. *)
Definition within_limits (k : string) (v : PreferencesValue) : Prop :=
  1 <= slen k <= 1024 /\ (forall n, checked_length v = Some n -> n mod 2 ^ 32 <= 16777216) /\
  (forall b, v = VBigInt b -> words_ b <> []).

Definition bounded (m : gmap string PreferencesValue) : Prop := map_Forall within_limits m.

Lemma lengthCheck_ok n : lengthCheck n = E_OK <-> n mod 2 ^ 32 <= 16777216.
Proof.
  unfold lengthCheck, wrap_u. change MAX_VALUE_LENGTH with 16777216. destruct (Z.ltb_spec 16777216 (n mod 2 ^ 32)); split; intros; done || lia.
Qed.

Lemma CheckValue_ok v : CheckValue v = E_OK <->
  (forall n, checked_length v = Some n -> n mod 2 ^ 32 <= 16777216) /\ (forall b, v = VBigInt b -> words_ b <> []).
Proof.
  unfold CheckValue. destruct v as [ | | | | | |s| | | | |o|b| |]; cbn [as_string as_object as_bigint checked_length];
    rewrite ?lengthCheck_ok; try (split; [intros; split; congruence|intros [Hn _]; try done; by apply Hn]).
  destruct (words_ b) eqn:E; split; try done; [intros [_ Hb]; by destruct (Hb b eq_refl)|].
  intros _. split; [done|]. intros ? [= <-]. congruence.
Qed.

Lemma within_limits_checked k v : within_limits k v <-> CheckKey k = E_OK /\ CheckValue v = E_OK.
Proof. unfold within_limits. by rewrite (proj1 (CheckKey_spec k)), CheckValue_ok. Qed.

Lemma CheckValue_same a b : value_same a b -> CheckValue a = CheckValue b.
Proof.
  intros [->|Heq]; [done|]. destruct (has_float a) eqn:Ef; [|by apply value_eqb_eq in Heq as ->].
  by destruct a, b.
Qed.

#[local] Instance bounded_proper : Proper (same_map ==> impl) bounded.
Proof.
  intros m m' Hm Hb k v' Hk. specialize (Hm k). rewrite Hk in Hm. inversion Hm as [v ? Hv Ek|]; subst.
  apply within_limits_checked. rewrite <- (CheckValue_same v v' Hv). apply within_limits_checked. by apply Hb.
Qed.

Lemma spec_bounded o m : bounded m -> bounded (spec o m).2.
Proof.
  intros Hb. destruct o as [ | | | | | |k v|k|]; cbn [spec]; try done.
  - destruct (Z.eqb_spec (CheckKey k) E_OK), (Z.eqb_spec (CheckValue v) E_OK); try done. cbn.
    apply map_Forall_insert_2; [by apply within_limits_checked|done].
  - destruct (negb _); [done|]. by apply map_Forall_delete.
Qed.

Lemma spec_all_bounded os m : bounded m -> bounded (spec_all os m).2.
Proof.
  revert m. induction os as [|o os IH]; intros m Hb; [done|]. cbn [spec_all].
  pose proof (spec_bounded o m Hb) as Hb1. destruct (spec o m) as [r m1]. specialize (IH m1 Hb1).
  by destruct (spec_all os m1).
Qed.

(** ** Sequences of operations *)

Section Impl_sequences.
Context `{XmlStoreLaws} `{SafeBlockQueueLaws}.

#[local] Abbreviation state := PreferencesImpl.

(** What the cache operations keep. *)
Definition kept (p p' : state) : Prop :=
  queue_ p' = queue_ p /\ options_ (base_ p') = options_ (base_ p) /\ quiet (env_of p) (env_of p').

Lemma exec_settled_step m0 o p : settled p ->
  settled (snd (exec o p)) /\ kept p (snd (exec o p)) /\
  same_reply (fst (exec o p)) (spec o (view p)).1 /\
  same_map (view (snd (exec o p))) (spec o (view p)).2 /\
  (synced m0 p -> synced m0 (snd (exec o p))).
Proof.
  intros Hs. destruct (exec_settled o p Hs) as (b' & -> & Ho & _ & _ & Hq). cbn [fst snd].
  assert (Hbase : base_ (cache_step o p) = base_ p).
  { destruct o; cbn; unfold cache_put, cache_delete; repeat case_match; done. }
  split_and!.
  - exact (cache_step_settled o p Hs).
  - unfold kept, env_of. cbn. rewrite cache_step_queue. by split_and!.
  - apply spec_proper. reflexivity.
  - apply cache_step_view.
  - intros [Hst Hm]. split; [|exact (cache_step_marked m0 o p Hm)].
    unfold path_of, env_of. cbn. rewrite Ho. by rewrite (stored_fs _ _ _ (proj1 Hq)).
Qed.

Lemma exec_all_settled m0 os p m : settled p -> same_map (view p) m ->
  settled (snd (exec_all os p)) /\ kept p (snd (exec_all os p)) /\
  Forall2 same_reply (fst (exec_all os p)) (spec_all os m).1 /\
  same_map (view (snd (exec_all os p))) (spec_all os m).2 /\
  (synced m0 p -> synced m0 (snd (exec_all os p))).
Proof.
  revert p m. induction os as [|o os IH]; intros p m Hs Hm; [by split_and!|].
  rewrite exec_all_cons. cbn [spec_all].
  destruct (exec_settled_step m0 o p Hs) as (Hs1 & (Hk1 & Hk2 & Hk3 & Hk4) & Hr1 & Hv1 & Hsy1).
  destruct (spec_proper o _ _ Hm) as [Hrm Hvm].
  destruct (exec o p) as [r p1]. destruct (spec o m) as [r' m1]. cbn [fst snd] in *.
  destruct (IH p1 m1 Hs1) as (Hs2 & (Hk5 & Hk6 & Hk7 & Hk8) & Hr2 & Hv2 & Hsy2); [by etrans|].
  destruct (exec_all os p1) as [rs p2]. destruct (spec_all os m1) as [rs' m2]. cbn [fst snd] in *.
  split_and!; [done| | |done|auto].
  - unfold kept, quiet. split_and!; congruence.
  - constructor; [|done]. 
    destruct r, r', (spec o (view p)).1; cbn in *; try done; try congruence;
      try (by etrans); intuition (congruence || by etrans).
Qed.
End Impl_sequences.

(** ** Properties *)

Section Impl_properties.
Context `{XmlStoreLaws} `{SafeBlockQueueLaws}.

#[local] Abbreviation state := PreferencesImpl.

(** C1: A loaded preferences object is a finite map behind its argument
    checks: for every sequence of [Get], [HasKey], [GetValue], [GetAll],
    [GetAllData], [GetAllDatas], [Put], [Delete] and [Clear], each reply is
    the map's reply and the contents afterwards are the map's, up to values
    that [operator==] cannot tell apart; no operation touches the file
    system. *)
Theorem Impl_refines_map (os : list op) (p : state) (m : gmap string PreferencesValue)
    (Hs : settled p) (Hm : same_map (view p) m) :
  Forall2 same_reply (fst (exec_all os p)) (spec_all os m).1 /\
  same_map (view (snd (exec_all os p))) (spec_all os m).2 /\
  settled (snd (exec_all os p)) /\
  fs (env_of (snd (exec_all os p))) = fs (env_of p).
Proof.
  destruct (exec_all_settled ∅ os p m Hs Hm) as (H1' & (_ & _ & Hq & _) & H3' & H4' & _).
  by split_and!.
Qed.

(** C38: The limits hold of everything that is kept: an entry is accepted exactly
    within the limits, of the length of a text only the lower 32 bits counting,
    and no sequence of operations brings in an entry outside of them. *)
Theorem contents_within_limits (os : list op) (p : state) (Hs : settled p) (Hb : bounded (view p)) :
  bounded (view (snd (exec_all os p))) /\
  forall k v, (fst (exec (OPut k v) (snd (exec_all os p))) = RCode E_OK <-> within_limits k v).
Proof.
  destruct (exec_all_settled ∅ os p (view p) Hs ltac:(reflexivity)) as (Hs' & _ & _ & Hv & _). split.
  - symmetry in Hv. apply (bounded_proper _ _ Hv). by apply spec_all_bounded.
  - intros k v. destruct (exec_settled_step ∅ (OPut k v) _ Hs') as (_ & _ & Hr & _). rewrite within_limits_checked.
    destruct (fst (exec _ _)) as [| |z| | |] eqn:E; cbn [spec] in Hr;
      destruct (Z.eqb_spec (CheckKey k) E_OK), (Z.eqb_spec (CheckValue v) E_OK); cbn in Hr; try done; subst; split; try done; naive_solver.
Qed.

(** A fresh object that loads a file shows its contents. *)
Lemma LoadFromDisk_new options e m :
  no_faults e -> good_path (filePath options) -> stored e (filePath options) = Some m ->
  let opened := snd (LoadFromDisk (PreferencesImpl_new options e)) in
  loadResult_ opened = true -> view opened = m.
Proof.
  intros Hnf (_ & Hnn & Hlen) Hst. unfold LoadFromDisk, Impl_ReadSettingXml, opts, on_env, on_base, zoom_env, gets,
    mbind, st_bind, get, modify, mret, st_ret. cbn [PreferencesImpl_new loaded_ base_ options_ PreferencesBase env].
  destruct (Access (parent_dir (filePath options)) e) as [r e1] eqn:Ea.
  assert (Hst1 : stored e1 (filePath options) = Some m).
  { rewrite <- Hst. apply stored_files. change e1 with (snd (r, e1)). rewrite <- Ea. apply on_path_files. }
  assert (Hnf1 : no_faults e1).
  { intros n. change e1 with (snd (r, e1)). rewrite <- Ea, (framed_fate _ _ (frames_Access _ e)). apply Hnf. }
  pose proof (read_stored (filePath options) (bundleName options) ∅ m e1 Hnf1 Hnn Hlen Hst1) as Hrd.
  rewrite map_empty_union in Hrd.
  destruct (negb (r =? 0)); cbn; destruct (ReadSettingXml _ _ ∅ e1) as [[ok con] e2]; cbn in Hrd;
    destruct ok; cbn; try done; intros _; unfold view; cbn; by apply Hrd.
Qed.

(** C2: Flushed contents are durable.  Take a loaded object, without a flush
    that waits, on a path that names a file, whose file holds what the object
    shows but for the keys marked as modified; run any operations that leave
    contents which the format represents (no floats or doubles, no NUL in keys,
    legal texts), and [FlushSync].  When no [write] is cut short (one that is
    counts as done, [SaveXmlFile_short_write]), it answers [E_ERROR] if
    something was modified and [WriteSettingXml] of the contents, which is then
    called, reports a failure, and [E_OK] otherwise; the object shows what it
    did; and after [E_OK] an object that later reads these files without a
    failing system call, if its load succeeds, has the contents the map
    specification says. *)
Theorem FlushSync_durable (m0 : gmap string PreferencesValue) (os : list op) (p : state)
    (Hidle : idle p) (Hsync : synced m0 p) (Hns : no_short_writes (env_of p))
    (Hpath : good_path (path_of p))
    (Hrep : representable (view (snd (exec_all os p)))) :
  let p1 := snd (exec_all os p) in
  let '(r, p2) := FlushSync p1 in
  (exists e, quiet (env_of p1) e /\
     r = (if decide (modifiedKeys_ (apply_clear p1) = ∅) then E_OK else
          if fst (WriteSettingXml (path_of p1) (bundleName (options_ (base_ p1))) (view p1) e) then E_OK else E_ERROR)) /\
  view p2 = view p1 /\
  (r = E_OK -> forall e, files (fs e) = files (fs (env_of p2)) -> no_faults e ->
     let opened := snd (LoadFromDisk (PreferencesImpl_new (options_ (base_ p)) e)) in
     loadResult_ opened = true -> same_map (view opened) (spec_all os (view p)).2).
Proof.
  intros p1. destruct Hidle as (Hs & He & Hc).
  destruct (exec_all_settled m0 os p (view p) Hs ltac:(reflexivity))
    as (Hs1 & (Hk1 & Hk2 & Hk3 & Hk4) & _ & Hv1 & Hsy1).
  fold p1 in Hs1, Hk1, Hk2, Hk3, Hk4, Hv1, Hsy1, Hrep.
  assert (Hpp : path_of p1 = path_of p) by (unfold path_of; by rewrite Hk2).
  destruct (FlushSync_idle m0 p1) as (r & p2 & e & -> & (Hv & _ & _ & _ & Hpath2 & Hst & _) & Hq & Hr).
  - unfold idle. by rewrite Hk1.
  - auto.
  - unfold no_short_writes. by rewrite Hk3.
  - by rewrite Hpp.
  - done.
  - split; [by exists e|]. split; [done|]. intros Hok e' Hfiles Hnf opened Hres.
    destruct (Hst Hok) as [Hstored _]. rewrite Hpath2, Hpp in Hstored.
    rewrite <- (stored_files _ _ _ Hfiles) in Hstored. subst opened.
    rewrite (LoadFromDisk_new _ _ _ Hnf Hpath Hstored Hres). exact Hv1.
Qed.

(** A write that fails loses the modification marks: [FlushSync] answers
    [E_ERROR], and a retry answers [E_OK] without writing anything, so the
    file keeps missing the contents that the object still shows. *)
Theorem FlushSync_retry_writes_nothing (m0 : gmap string PreferencesValue) (p : state)
    (Hidle : idle p) (Hsync : synced m0 p) (Hns : no_short_writes (env_of p))
    (Hpath : good_path (path_of p)) (Hrep : representable (view p))
    (Hfail : fst (FlushSync p) = E_ERROR) :
  let p1 := snd (FlushSync p) in
  fst (FlushSync p1) = E_OK /\
  fs (env_of (snd (FlushSync p1))) = fs (env_of p1) /\
  view (snd (FlushSync p1)) = view p.
Proof.
  destruct (FlushSync_idle m0 p Hidle Hsync Hns Hpath Hrep)
    as (r & p1 & e & E & (Hv & Hmk & Hcl & (Hs1 & He1 & Hc1) & _) & _).
  rewrite E in Hfail |- *. cbn [fst snd] in *. subst r.
  unfold FlushSync, mbind, st_bind, get, modify.
  destruct (IsClose_quiet "FlushSync" p1) as (b & e1 & -> & Hq).
  cbn [queue_ with_env upd_base]. destruct (push_empty _ He1 Hc1) as (q & -> & Hel & Hcap).
  rewrite PreLoad_settled by done. cbn [negb].
  destruct (pop_and_write_eq (upd_queue q (with_env e1 p1)) Hel) as (q' & _ & _ & ->).
  set (p2 := upd_queue q' _).
  destruct (WriteToDiskFile_cases p2) as (r & p' & -> & Ht & Hc).
  assert (Hac : modifiedKeys_ (apply_clear p2) = ∅).
  { unfold apply_clear. cbn. by rewrite Hcl. }
  destruct Hc as [(_ & -> & Henv)|(Hne & _)]; [|done]. cbn [fst snd]. split; [done|].
  rewrite Henv. split; [apply Hq|]. rewrite (taken_view _ _ Ht). exact Hv.
Qed.

(** With a full queue a synchronous flush only reports. *)
Lemma Flush_full p : length (elems (queue_ p)) = capacity (queue_ p) ->
  exists e q, quiet (env_of p) e /\ elems q = elems (queue_ p) /\ capacity q = capacity (queue_ p) /\
  FlushSync p = (E_OK, upd_queue q (with_env e p)).
Proof.
  intros Hf. destruct (push_full _ 1 Hf) as (q & Hp & He & Hc).
  unfold FlushSync, mbind, st_bind, get, modify, mret, st_ret.
  destruct (IsClose_quiet "FlushSync" p) as (b & e & -> & Hq).
  cbn [queue_ with_env upd_base]. rewrite Hp. by exists e, q.
Qed.

(** An asynchronous flush posts one closure and writes nothing itself;
    when the executor runs the closure, the contents are flushed as by
    [FlushSync].  Until then a [FlushSync] answers [E_OK] at once although
    the contents are not in the file. *)
Theorem Flush_is_deferred (m0 : gmap string PreferencesValue) (p : state)
    (Hidle : idle p) (Hcap : capacity (queue_ p) = 1%nat) (Hsync : synced m0 p)
    (Hns : no_short_writes (env_of p)) (Hpath : good_path (path_of p)) (Hrep : representable (view p)) :
  let p1 := snd (Flush p) in
  tasks_ (base_ p1) = tasks_ (base_ p) ++ [FlushTask] /\
  view p1 = view p /\ fs (env_of p1) = fs (env_of p) /\
  (exists r p2, run_Flush true p1 = (tt, p2) /\ flushed p1 r p2) /\
  (exists p2, FlushSync p1 = (E_OK, p2) /\ fs (env_of p2) = fs (env_of p) /\ view p2 = view p /\
     modifiedKeys_ p2 = modifiedKeys_ p).
Proof.
  destruct Hidle as (Hs & He & Hc).
  assert (E : exists e q, quiet (env_of p) e /\ elems q = [1] /\ capacity q = 1%nat /\
    snd (Flush p) = (let p1 := upd_queue q (with_env e p) in
      upd_base (set_tasks (tasks_ (base_ p) ++ [FlushTask]) (base_ p1)) p1)).
  { unfold Flush, mbind, st_bind, get, modify, mret, st_ret.
    destruct (IsClose_quiet "Flush" p) as (b & e & -> & Hq).
    cbn [queue_ with_env upd_base]. destruct (push_empty _ He Hc) as (q & -> & Hel & Hcq).
    exists e, q. rewrite Hcq. by split_and!. }
  destruct E as (e & q & Hq & Hel & Hcq & E). cbn zeta. rewrite E. cbn zeta.
  set (p1 := upd_base _ _).
  assert (Hq1 : quiet (env_of p) (env_of p1)) by exact Hq.
  assert (Hsy1 : synced m0 p1).
  { destruct Hsync as [Hst Hm]. split; [|exact Hm]. unfold path_of. cbn.
    rewrite (stored_fs _ _ _ (proj1 Hq1)). exact Hst. }
  split_and!; [done|done|apply Hq| |].
  - unfold run_Flush, mbind, st_bind, mret, st_ret. cbn [negb].
    rewrite (PreLoad_settled p1) by done. cbn [negb].
    destruct (pop_and_write_flushed m0 p1) as (r & p2 & -> & Hfl & _); try done.
    + cbn. by rewrite Hcq; lia.
    + unfold no_short_writes. by rewrite (proj1 Hq1).
    + by exists r, p2.
  - destruct (Flush_full p1) as (e2 & q2 & Hq2 & _ & _ & ->).
    { cbn. by rewrite Hel, Hcq. }
    eexists. split; [reflexivity|]. split_and!; [|done..].
    change (fs e2 = fs (env_of p)). rewrite (proj1 Hq2). apply Hq1.
Qed.

(** When the file exists but cannot be read, a flush leaves its request
    in the queue: [FlushSync] answers [E_OK] without writing, and from then
    on, whatever the cache holds, every [FlushSync] answers [E_OK] and does
    nothing. *)
Theorem FlushSync_stuck_after_failed_reload (p : state) (e1 e2 : Env)
    (con : gmap string PreferencesValue)
    (Hact : isActive_ p = true) (Hload : loaded_ p = true) (Hres : loadResult_ p = false)
    (Hq : elems (queue_ p) = []) (Hcap : capacity (queue_ p) = 1%nat)
    (Hacc : Access (path_of p) (env_of p) = (0, e1))
    (Hread : ReadSettingXml (path_of p) (bundleName (options_ (base_ p))) (valuesCache_ p) e1
             = ((false, con), e2)) :
  fst (FlushSync p) = E_OK /\ elems (queue_ (snd (FlushSync p))) = [1] /\
  modifiedKeys_ (snd (FlushSync p)) = modifiedKeys_ p /\
  forall p' : state, queue_ p' = queue_ (snd (FlushSync p)) ->
    fst (FlushSync p') = E_OK /\ elems (queue_ (snd (FlushSync p'))) = [1] /\
    fs (env_of (snd (FlushSync p'))) = fs (env_of p') /\
    modifiedKeys_ (snd (FlushSync p')) = modifiedKeys_ p'.
Proof.
  assert (E : exists q, elems q = [1] /\ capacity q = 1%nat /\
    FlushSync p = (E_OK, with_env e2 (upd_queue q p))).
  { destruct (push_empty _ Hq ltac:(lia)) as (q & Hp & Hel & Hcq). exists q.
    split; [done|]. split; [congruence|].
    unfold FlushSync, IsClose, PreLoad, ReloadFromDisk, Impl_ReadSettingXml, opts, on_env, on_base,
      zoom_env, gets, mbind, st_bind, get, modify, mret, st_ret.
    rewrite Hact, Hp. cbn [upd_queue loadResult_ loaded_]. rewrite Hres, Hload. cbn [negb orb].
    rewrite orb_true_r. unfold path_of, env_of in *. cbn [upd_queue base_]. rewrite Hacc.
    cbn. rewrite Hres. cbn. rewrite Hread. done. }
  destruct E as (q & Hel & Hcq & ->). cbn [fst snd]. split_and!; [done|done|done|].
  intros p' Hp'. destruct (Flush_full p') as (e' & q' & [Hf _] & He' & _ & ->).
  { rewrite Hp'. cbn. by rewrite Hel, Hcq. }
  cbn [fst snd]. split_and!; [done| |done|done]. change (elems q' = [1]). rewrite He', Hp'. done.
Qed.

(** [Put] before the load, when the wait times out. *)
Lemma Put_unloaded k v p :
  loaded_ p = false -> loadWins p = false -> CheckKey k = E_OK -> CheckValue v = E_OK ->
  exists b', Put k v p = (E_OK, upd_base b' (cache_put k v p)) /\ options_ b' = options_ (base_ p).
Proof.
  intros Hl Hw Hk Hv. unfold Put. rewrite Hk, Hv. change (negb (E_OK =? E_OK)) with false. cbn iota.
  destruct (IsClose_quiet "Put" p) as (b & e & E & Hq).
  unfold AwaitLoadFile, mbind, st_bind, get, modify, mret, st_ret.
  rewrite Hl, Hw, E. unfold on_base. set (b1 := base_ (with_env e p)).
  pose proof (ReportObjectUsage_quiet v b1) as (Ho & _).
  destruct (ReportObjectUsage v b1) as [[] b2]. cbn [snd] in Ho. exists b2.
  split; [|exact Ho]. unfold cache_put. cbn [isCleared_ with_env upd_base valuesCache_ modifiedKeys_].
  destruct (isCleared_ p); [done|]. destruct (valuesCache_ p !! k); [|done]. by destruct (value_eqb _ _).
Qed.

Lemma cache_put_core k v p : isCleared_ p = false ->
  loaded_ (cache_put k v p) = loaded_ p /\ isCleared_ (cache_put k v p) = false /\
  base_ (cache_put k v p) = base_ p.
Proof. intros Hc. unfold cache_put. rewrite Hc. repeat case_match; by cbn. Qed.

(** A [Put] that gave up waiting for the loader is lost from the object:
    when the load completes, the cache is replaced by the file's contents,
    so [Get] answers from the file although [Put] had answered [E_OK]. *)
Theorem slow_load_discards_put (p : state) (k : string) (v : PreferencesValue)
    (m : gmap string PreferencesValue) (e1 e2 : Env) (r : Z)
    (Hload : loaded_ p = false) (Hwin : loadWins p = false) (Hcl : isCleared_ p = false)
    (Hk : CheckKey k = E_OK) (Hv : CheckValue v = E_OK) :
  let p1 := snd (Put k v p) in
  Access (parent_dir (path_of p)) (env_of p1) = (r, e1) ->
  ReadSettingXml (path_of p) (bundleName (options_ (base_ p))) ∅ e1 = ((true, m), e2) ->
  fst (Put k v p) = E_OK /\ (exists v', view p1 !! k = Some v' /\ value_same v' v) /\
  view (snd (LoadFromDisk p1)) = m.
Proof.
  destruct (Put_unloaded k v p Hload Hwin Hk Hv) as (b' & E & Ho). rewrite E. cbn zeta. cbn [fst snd].
  intros Hacc Hread. split; [done|]. split.
  - pose proof (cache_put_view k v p k) as Hsame. rewrite lookup_insert_eq in Hsame.
    change (view (upd_base b' (cache_put k v p))) with (view (cache_put k v p)).
    inversion Hsame; subst. eexists. split; [done|]. done.
  - destruct (cache_put_core k v p Hcl) as (Hl & Hc & Hb).
    unfold LoadFromDisk, Impl_ReadSettingXml, opts, on_env, on_base, zoom_env, gets, mbind, st_bind,
      get, modify, mret, st_ret, env_of, path_of in *.
    cbn [upd_base loaded_]. rewrite Hl, Hload. cbn in Hacc |- *. rewrite Ho, Hacc.
    destruct (negb (r =? 0)); cbn; rewrite Ho, Hread; unfold view; cbn; by rewrite Hc.
Qed.
End Impl_properties.

(** ** Who is notified *)

Section Impl_notify.
(** [m] appends the events [f] of the services and changes nothing else. *)
Definition emits (m : ST Env unit) (f : Services -> list Event) : Prop :=
  forall e, m e = (tt, mkEnv (fs e) (svc e) (events e ++ f (svc e)) (reportedFaults_ e)).

Lemma emits_for_each {A} (f : A -> ST Env unit) g l :
  (forall x, emits (f x) (g x)) -> emits (for_each f l) (fun s => l ≫= fun x => g x s).
Proof.
  intros Hf. induction l as [|x l IH]; intros e; cbn [for_each].
  { cbn. rewrite app_nil_r. by destruct e. }
  unfold mbind, st_bind. rewrite (Hf x e), IH. cbn. by rewrite <- app_assoc.
Qed.

Definition data_events (km : gset string) (w : gmap string PreferencesValue)
    (entry : ObsPtr * gset string) (s : Services) : list Event :=
  let records := change_records entry.2 km w in
  if decide (records = ∅) then [] else
  match lock s entry.1 with Some o => [EvOnChangeData o records] | None => [] end.

Lemma notify_data_emits km w x : emits (notify_data_observer km w x) (data_events km w x).
Proof.
  intros e. unfold notify_data_observer, data_events, mbind, st_bind, get, mret, st_ret.
  case_decide; [cbn; rewrite app_nil_r; by destruct e|].
  destruct (lock (svc e) x.1); [done|]. cbn. rewrite app_nil_r. by destruct e.
Qed.

Definition local_events (km : gset string) (o : ObsPtr) (s : Services) : list Event :=
  elements km ≫= fun k => match lock s o with Some p => [EvOnChange p k] | None => [] end.

Lemma notify_local_emits km o : emits (notify_local_observer km o) (local_events km o).
Proof.
  unfold notify_local_observer, local_events.
  apply (emits_for_each (fun key => OnChangePreferences o key)
    (fun k s => match lock s o with Some p => [EvOnChange p k] | None => [] end)).
  intros k e. unfold OnChangePreferences, mbind, st_bind, get, mret, st_ret.
  destruct (lock (svc e) o); [done|]. cbn. rewrite app_nil_r. by destruct e.
Qed.

Lemma change_records_lookup keys km w k :
  change_records keys km w !! k =
  (if decide (k ∈ km /\ k ∈ keys) then Some (default PreferencesValue_default (w !! k)) else None).
Proof.
  unfold change_records.
  refine (set_fold_ind_L (fun (r : gmap string PreferencesValue) (X : gset string) =>
    forall k, r !! k = if decide (k ∈ X /\ k ∈ keys)
      then Some (default PreferencesValue_default (w !! k)) else None) _ ∅ _ _ km k).
  - clear k. intros k. rewrite decide_False; [done|set_solver].
  - clear k. intros x X r Hx IH k. destruct (decide (x ∈ keys)) as [Hkx|Hkx].
    + destruct (decide (x = k)) as [->|Hne].
      * rewrite lookup_insert_eq, decide_True; [done|set_solver].
      * rewrite lookup_insert_ne, IH by done. apply decide_ext. set_solver.
    + rewrite IH. apply decide_ext. set_solver.
Qed.

Lemma lock_Some s o p : lock s o = Some p <-> o = Some p /\ p ∈ alive s.
Proof. unfold lock. destruct o; [case_decide|]; naive_solver. Qed.

(** C34: After a write, every observer that is still alive is told exactly its
    changes: a local observer each modified key; a data observer one map from
    the modified keys it subscribed to, if there is any, to the written
    values, a deleted key being shown with no value; and one closure is
    posted that tells the other processes. *)
Theorem NotifyPreferencesObserver_exact (km : gset string) (w : gmap string PreferencesValue)
    (b : Base) (Hkm : km <> ∅) :
  let b' := snd (NotifyPreferencesObserver km w b) in
  exists new, events (env b') = events (env b) ++ new /\
  (forall o k, EvOnChange o k ∈ new <->
     Some o ∈ localObservers_ b /\ o ∈ alive (svc (env b)) /\ k ∈ km) /\
  (forall o records, EvOnChangeData o records ∈ new <->
     exists keys, dataObserversMap_ b !! Some o = Some keys /\ o ∈ alive (svc (env b)) /\
     records <> ∅ /\
     forall k, records !! k = if decide (k ∈ km /\ k ∈ keys)
       then Some (default PreferencesValue_default (w !! k)) else None) /\
  tasks_ b' = tasks_ b ++ [NotifyTask km].
Proof.
  pose proof (emits_for_each _ _ (map_to_list (dataObserversMap_ b)) (notify_data_emits km w)) as Ed.
  pose proof (emits_for_each _ _ (localObservers_ b) (notify_local_emits km)) as El.
  unfold NotifyPreferencesObserver, ExecuteNotifyChange, post, zoom_env, modify, mbind, st_bind,
    get, mret, st_ret. rewrite decide_False by done.
  rewrite (Ed (env b)). cbn [env set_env]. rewrite El. cbn [svc snd env set_env events set_tasks].
  eexists. split; [symmetry; apply app_assoc|]. split_and!; [| |done].
  - intros o k. rewrite elem_of_app. split.
    + intros [Hin|Hin].
      * apply list_elem_of_bind in Hin as ([x keys] & Hin & _). unfold data_events in Hin.
        case_decide; [by apply not_elem_of_nil in Hin|]. case_match; [|by apply not_elem_of_nil in Hin].
        by apply list_elem_of_singleton in Hin.
      * apply list_elem_of_bind in Hin as (x & Hin & Hx). unfold local_events in Hin.
        apply list_elem_of_bind in Hin as (k' & Hin & Hk'). apply elem_of_elements in Hk'.
        case_match eqn:El'; [|by apply not_elem_of_nil in Hin].
        apply list_elem_of_singleton in Hin. simplify_eq. apply lock_Some in El' as [-> ?]. done.
    + intros (Ho & Ha & Hk). right. apply list_elem_of_bind. exists (Some o). split; [|done].
      unfold local_events. apply list_elem_of_bind. exists k. rewrite elem_of_elements. split; [|done].
      rewrite lock_alive by done. by apply list_elem_of_singleton.
  - intros o records. rewrite elem_of_app. split.
    + intros [Hin|Hin].
      * apply list_elem_of_bind in Hin as ([x keys] & Hin & Hx). unfold data_events in Hin.
        apply elem_of_map_to_list in Hx. cbn in Hin.
        case_decide as Hr; [by apply not_elem_of_nil in Hin|].
        case_match eqn:El'; [|by apply not_elem_of_nil in Hin].
        apply list_elem_of_singleton in Hin. simplify_eq. apply lock_Some in El' as [-> ?].
        exists keys. split_and!; [done..|]. intros k. apply change_records_lookup.
      * apply list_elem_of_bind in Hin as (x & Hin & Hx). unfold local_events in Hin.
        apply list_elem_of_bind in Hin as (k' & Hin & Hk').
        case_match; [|by apply not_elem_of_nil in Hin]. by apply list_elem_of_singleton in Hin.
    + intros (keys & Hm & Ha & Hr & Hrec). left. apply list_elem_of_bind.
      exists (Some o, keys). split; [|by apply elem_of_map_to_list]. unfold data_events. cbn [fst snd].
      assert (records = change_records keys km w) as ->.
      { apply map_eq. intros k. by rewrite Hrec, change_records_lookup. }
      rewrite decide_False, lock_alive by done. by apply list_elem_of_singleton.
Qed.
End Impl_notify.

(** ** The theorems on a concrete object *)

Definition w_options : Options := mkOptions "/data/p" "bundle" "" false.

(** An environment in which [/data/p] holds [text] and system calls fare as
    [fate] says. *)
Definition w_env (text : string) (fate : nat -> SysFate) : Env :=
  mkEnv (mkFileSystem {["/data/p" := text]} {["/data"]} 0 0 fate None) witness_services [] ∅.

(** An object that has loaded the empty map. *)
Definition w_loaded (fate : nat -> SysFate) : PreferencesImpl :=
  upd_load true false true (PreferencesImpl_new w_options (w_env (map_text ∅) fate)).

Definition w_put : PreferencesImpl :=
  upd_cache {["k"]} false {["k" := VInt 1]} (w_loaded (fun _ => SysOk)).

Definition w_failing : PreferencesImpl :=
  upd_cache {["k"]} false {["k" := VInt 1]} (w_loaded (fun n => if decide (n = 1%nat) then SysErr 28 else SysOk)).

Lemma w_synced f : synced ∅ (w_loaded f).
Proof. split; [vm_compute; reflexivity|]. intros k Hk. by destruct Hk. Qed.

Lemma w_marked f : synced ∅ (upd_cache {["k"]} false {["k" := VInt 1]} (w_loaded f)).
Proof.
  split; [vm_compute; reflexivity|]. intros k. cbn.
  destruct (decide (k = "k")) as [->|Hk]; [set_solver|].
  rewrite lookup_singleton_ne by done. by rewrite lookup_empty.
Qed.

Lemma w_path : good_path "/data/p".
Proof. split; [discriminate|]. split; [reflexivity|vm_compute; discriminate]. Qed.

Lemma w_idle f : idle (w_loaded f).
Proof. unfold idle, settled. cbn. repeat split; lia. Qed.

Lemma w_representable (k : string) (v : PreferencesValue) :
  no_nul k = true -> representable {[k := v]}.
Proof. intros Hk k' v' [<- <-]%lookup_singleton_Some. by split. Qed.

Example Impl_refines_map_witness :
  Forall2 same_reply
    (fst (exec_all [OPut "k" (VInt 1); OGet "k" (VInt 0)] (w_loaded (fun _ => SysOk))))
    [RCode E_OK; RValue (VInt 1)].
Proof.
  refine (proj1 (Impl_refines_map [OPut "k" (VInt 1); OGet "k" (VInt 0)]
    (w_loaded (fun _ => SysOk)) ∅ _ _)); [split; reflexivity|reflexivity].
Defined.

Example contents_within_limits_witness :
  bounded (view (snd (exec_all [OPut "k" (VInt 1)] (w_loaded (fun _ => SysOk))))).
Proof.
  refine (proj1 (contents_within_limits [OPut "k" (VInt 1)] (w_loaded (fun _ => SysOk)) _ _)); [split; reflexivity|].
  apply map_Forall_empty.
Defined.

Example FlushSync_durable_witness :
  fst (FlushSync (snd (exec_all [OPut "k" (VInt 1)] (w_loaded (fun _ => SysOk))))) = E_OK /\
  view (snd (FlushSync (snd (exec_all [OPut "k" (VInt 1)] (w_loaded (fun _ => SysOk))))))
    = {["k" := VInt 1]}.
Proof.
  split; [vm_compute; reflexivity|].
  pose proof (FlushSync_durable ∅ [OPut "k" (VInt 1)] (w_loaded (fun _ => SysOk))
    (w_idle _) (w_synced _) ltac:(done) w_path (w_representable "k" (VInt 1) eq_refl)) as Hd.
  cbn zeta in Hd. destruct (FlushSync (snd (exec_all _ _))) as [r p2].
  cbn [snd]. rewrite (proj1 (proj2 Hd)). vm_compute. reflexivity.
Defined.

Example FlushSync_retry_writes_nothing_witness :
  fst (FlushSync w_failing) = E_ERROR /\ fst (FlushSync (snd (FlushSync w_failing))) = E_OK.
Proof.
  split; [vm_compute; reflexivity|].
  refine (proj1 (FlushSync_retry_writes_nothing ∅ w_failing (w_idle _) (w_marked _) _ w_path
    (w_representable "k" (VInt 1) eq_refl) _)); [|vm_compute; reflexivity].
  intros n k. cbn. destruct (decide (n = 1%nat)); discriminate.
Defined.

Example Flush_is_deferred_witness :
  tasks_ (base_ (snd (Flush w_put))) = [FlushTask] /\ view (snd (Flush w_put)) = {["k" := VInt 1]}.
Proof.
  pose proof (Flush_is_deferred ∅ w_put (w_idle _) eq_refl (w_marked _) ltac:(done) w_path
    (w_representable "k" (VInt 1) eq_refl)) as Hd.
  split; [exact (proj1 Hd)|exact (proj1 (proj2 Hd))].
Defined.

(** An object whose load failed on a broken file. *)
Definition w_broken : PreferencesImpl :=
  upd_load true false false (PreferencesImpl_new w_options (w_env "broken" (fun _ => SysOk))).

Example FlushSync_stuck_after_failed_reload_witness :
  elems (queue_ (snd (FlushSync w_broken))) = [1] /\
  fst (FlushSync (upd_queue (queue_ (snd (FlushSync w_broken))) w_put)) = E_OK.
Proof.
  pose proof (FlushSync_stuck_after_failed_reload w_broken
    (snd (Access "/data/p" (env_of w_broken))) (snd (Access "/data/p" (env_of w_broken))) ∅
    eq_refl eq_refl eq_refl eq_refl eq_refl ltac:(vm_compute; reflexivity) ltac:(vm_compute; reflexivity)) as Hd.
  split; [exact (proj1 (proj2 Hd))|].
  exact (proj1 (proj2 (proj2 (proj2 Hd)) (upd_queue (queue_ (snd (FlushSync w_broken))) w_put) eq_refl)).
Defined.

(** An object whose loader is late. *)
Definition w_loading : PreferencesImpl :=
  PreferencesImpl_new w_options (w_env (map_text ∅) (fun _ => SysOk)).

Example slow_load_discards_put_witness :
  fst (Put "k" (VInt 1) w_loading) = E_OK /\
  view (snd (LoadFromDisk (snd (Put "k" (VInt 1) w_loading)))) = ∅.
Proof.
  pose proof (slow_load_discards_put w_loading "k" (VInt 1) ∅
    (snd (Access "/data" (env_of (snd (Put "k" (VInt 1) w_loading)))))
    (snd (Access "/data" (env_of (snd (Put "k" (VInt 1) w_loading))))) 0
    eq_refl eq_refl eq_refl eq_refl eq_refl ltac:(vm_compute; reflexivity) ltac:(vm_compute; reflexivity)) as Hd.
  split; [exact (proj1 Hd)|exact (proj2 (proj2 Hd))].
Defined.

Example NotifyPreferencesObserver_exact_witness :
  tasks_ (snd (NotifyPreferencesObserver {["k"]} {["k" := VInt 1]} witness_base)) = [NotifyTask {["k"]}].
Proof.
  destruct (NotifyPreferencesObserver_exact {["k"]} {["k" := VInt 1]} witness_base) as (new & _ & _ & _ & Ht);
    [discriminate|exact Ht].
Defined.
