(* ===== verification/Enhance.v ===== *)
(** * The preferences object over the key-value database

    Models [preferences_enhance_impl.cpp].  Values are stored as parcels
    under the bytes of their key; values of 512 KiB and more are cached in
    memory together with the database's version number.  The adapter is the
    interface [KvDb]; every method runs under the object's write lock and is
    one step; the closures posted to the executor are steps of their own. *)

From S2P Require Import Prelude Errno Value Utils Parcel Env Store DbAdapter Base Impl.

(** The closures the object posts. *)
Inductive ETask :=
  | ENotify (key : string) (value : PreferencesValue)
  | ENotifyBatch (allData : gmap string PreferencesValue).

Section Enhance.
Context `{KvDb}.
(** The bound of [memcpy_s], used by the parcels. *)
Context (RSIZE_MAX : Z).

(** [preferences_enhance_impl.h:69-73] PreferencesEnhanceImpl *)
Record Enhance := mkEnhance {
  e_base : Base;
  e_open : bool;                 (** [db_ != nullptr] *)
  e_kv : kv;
  cachedDataVersion_ : Z;
  largeCachedData_ : gmap string PreferencesValue;
  e_tasks : list ETask
}.

Definition e_set_base b e := mkEnhance b (e_open e) (e_kv e) (cachedDataVersion_ e) (largeCachedData_ e) (e_tasks e).
Definition e_set_db o s e := mkEnhance (e_base e) o s (cachedDataVersion_ e) (largeCachedData_ e) (e_tasks e).
Definition e_set_cache n c e := mkEnhance (e_base e) (e_open e) (e_kv e) n c (e_tasks e).
Definition e_set_tasks t e := mkEnhance (e_base e) (e_open e) (e_kv e) (cachedDataVersion_ e) (largeCachedData_ e) t.

Definition on_kv {A} (m : ST kv A) : ST Enhance A := fun e =>
  let '(a, s) := m (e_kv e) in (a, e_set_db (e_open e) s e).
Definition e_on_base {A} (m : ST Base A) : ST Enhance A := fun e =>
  let '(a, b) := m (e_base e) in (a, e_set_base b e).
Definition e_post (t : ETask) : ST Enhance unit := modify (fun e => e_set_tasks (e_tasks e ++ [t]) e).

(** [db_ = nullptr]: the destructor of the adapter object runs. *)
Definition drop_db : SO Enhance unit := fun e =>
  match kv_destroy (e_kv e) with
  | Done (_, s) => Done (tt, e_set_db false s e)
  | Thrown => Thrown | Undef => Undef | NoFuel => NoFuel
  end.

Definition CACHED_THRESHOLDS : Z := 512 * 1024.
Definition INT64_MAX : Z := 2 ^ 63 - 1.

(** The next version number. *)
Definition next_version (v : Z) : Z := if v =? INT64_MAX then 0 else v + 1.

Definition is_large (oriValue : list Z) : bool := CACHED_THRESHOLDS <=? Z.of_nat (length oriValue).

(** [preferences_enhance_impl.cpp:39-41] PreferencesEnhanceImpl *)
Definition Enhance_new (options : Options) (e : Env) (s : kv) : Enhance :=
  mkEnhance (PreferencesBase options e) false s 0 ∅ [].

(** [preferences_enhance_impl.cpp:48-63] Init *)
Definition Enh_Init : SO Enhance Z :=
  run_st (on_kv kv_ApiInit);;
  enabled ← run_st (on_kv kv_Enable);
  if negb enabled then mret E_ERROR else
  e ← run_st get;
  (if e_open e then drop_db else mret tt);;
  run_st (on_kv kv_make);;
  run_st (modify (fun e => e_set_cache 0 (largeCachedData_ e) (e_set_db true (e_kv e) e)));;
  e ← run_st get;
  let options := options_ (e_base e) in
  '(errCode, env') ← run_st (on_kv (kv_Init (filePath options) (bundleName options) (env (e_base e))));
  run_st (modify (fun e => e_set_base (set_env env' (e_base e)) e));;
  if negb (errCode =? E_OK) then drop_db;; mret errCode else mret errCode.

(** ** Reading *)

(** Where a key was found. *)
Inductive Found :=
  | VersionFailed
  | Cached (v : PreferencesValue)
  | DbFailed (errCode : Z)
  | DbValue (kernelDataVersion : Z) (oriValue : list Z).

(** The search that [Get], [HasKey] and [GetValue] share.

    [preferences_enhance_impl.cpp:77-97] Get *)
Definition find_key (key : string) : ST Enhance Found :=
  '(r, kernelDataVersion) ← on_kv kv_GetKernelDataVersion;
  if negb (r =? E_OK) then mret VersionFailed else
  e ← get;
  match (if kernelDataVersion =? cachedDataVersion_ e then largeCachedData_ e !! key else None) with
  | Some v => mret (Cached v)
  | None =>
      '(errCode, oriValue) ← on_kv (kv_Get (bytes_of_string key));
      if negb (errCode =? E_OK) then mret (DbFailed errCode) else mret (DbValue kernelDataVersion oriValue)
  end.

(** Cache a large value.

    [preferences_enhance_impl.cpp:101-104] Get *)
Definition cache_large (key : string) (kernelDataVersion : Z) (oriValue : list Z) (v : PreferencesValue)
    : ST Enhance unit :=
  if is_large oriValue then
    modify (fun e => e_set_cache kernelDataVersion (<[key := v]> (largeCachedData_ e)) e)
  else mret tt.

(** [preferences_enhance_impl.cpp:65-106] Get *)
Definition Enh_Get (key : string) (defValue : PreferencesValue) : SO Enhance PreferencesValue :=
  if negb (CheckKey key =? E_OK) then mret defValue else
  e ← run_st get;
  if negb (e_open e) then mret defValue else
  found ← run_st (find_key key);
  match found with
  | VersionFailed | DbFailed _ => mret defValue
  | Cached v => mret v
  | DbValue kernelDataVersion oriValue =>
      item ← run_out (UnmarshallingPreferenceValue oriValue);
      if negb (item.1 =? E_OK) then mret defValue else
      run_st (cache_large key kernelDataVersion oriValue item.2);;
      mret item.2
  end.

(** [preferences_enhance_impl.cpp:108-148] HasKey *)
Definition Enh_HasKey (key : string) : SO Enhance bool :=
  if negb (CheckKey key =? E_OK) then mret false else
  e ← run_st get;
  if negb (e_open e) then mret false else
  found ← run_st (find_key key);
  match found with
  | VersionFailed | DbFailed _ => mret false
  | Cached v => mret true
  | DbValue kernelDataVersion oriValue =>
      if is_large oriValue then
        item ← run_out (UnmarshallingPreferenceValue oriValue);
        if negb (item.1 =? E_OK) then mret true else
        run_st (cache_large key kernelDataVersion oriValue item.2);;
        mret true
      else mret true
  end.

(** [preferences_enhance_impl.cpp:367-410] GetValue *)
Definition Enh_GetValue (key : string) (defValue : PreferencesValue) : SO Enhance (Z * PreferencesValue) :=
  let errCode := CheckKey key in
  if negb (errCode =? E_OK) then mret (errCode, defValue) else
  e ← run_st get;
  if negb (e_open e) then mret (E_ALREADY_CLOSED, defValue) else
  found ← run_st (find_key key);
  match found with
  | VersionFailed => mret (E_ERROR, defValue)
  | DbFailed errCode => mret (errCode, defValue)
  | Cached v => mret (E_OK, v)
  | DbValue kernelDataVersion oriValue =>
      item ← run_out (UnmarshallingPreferenceValue oriValue);
      if negb (item.1 =? E_OK) then mret (item.1, defValue) else
      run_st (cache_large key kernelDataVersion oriValue item.2);;
      mret (E_OK, item.2)
  end.

(** The loop over the rows: the error, or the values, with the cache filled on
    the way ([insert] keeps the first value of a key).

    [preferences_enhance_impl.cpp:251-261] GetAllInner *)
Fixpoint collect (l : list (list Z * list Z)) (result : gmap string PreferencesValue)
    : SO Enhance (Z * gmap string PreferencesValue) :=
  match l with
  | [] => mret (E_OK, result)
  | (k, b) :: l' =>
      let key := string_of_bytes k in
      item ← run_out (UnmarshallingPreferenceValue b);
      let result := match result !! key with Some _ => result | None => <[key := item.2]> result end in
      if negb (item.1 =? E_OK) then mret (item.1, ∅) else
      run_st (if is_large b
              then modify (fun e => e_set_cache (cachedDataVersion_ e) (<[key := item.2]> (largeCachedData_ e)) e)
              else mret tt);;
      collect l' result
  end.

(** [preferences_enhance_impl.cpp:232-264] GetAllInner *)
Definition Enh_GetAllInner : SO Enhance (Z * gmap string PreferencesValue) :=
  e ← run_st get;
  if negb (e_open e) then mret (E_ALREADY_CLOSED, ∅) else
  '(r, kernelDataVersion) ← run_st (on_kv kv_GetKernelDataVersion);
  if negb (r =? E_OK) then mret (E_ERROR, ∅) else
  '(errCode, data) ← run_st (on_kv kv_GetAll);
  if negb (errCode =? E_OK) then mret (errCode, ∅) else
  '(code, result) ← collect data ∅;
  if negb (code =? E_OK) then mret (code, ∅) else
  run_st (modify (fun e => e_set_cache kernelDataVersion (largeCachedData_ e) e));;
  mret (E_OK, result).

Definition copy_all (m : gmap string PreferencesValue) : gmap string PreferencesValue :=
  map_fold (fun k v (allDatas : gmap string PreferencesValue) => <[k := v]> allDatas) ∅ m.

(** [preferences_enhance_impl.cpp:266-275] GetAll *)
Definition Enh_GetAll : SO Enhance (gmap string PreferencesValue) :=
  '(_, m) ← Enh_GetAllInner; mret (copy_all m).

(** [preferences_enhance_impl.cpp:412-421] GetAllData *)
Definition Enh_GetAllData : SO Enhance (Z * gmap string PreferencesValue) :=
  '(r, m) ← Enh_GetAllInner; mret (r, copy_all m).

(** [preferences_enhance_impl.cpp:423-427] GetAllDatas *)
Definition Enh_GetAllDatas : SO Enhance (gmap string PreferencesValue) :=
  '(_, m) ← Enh_GetAllInner; mret m.

(** ** Writing *)

(** [preferences_enhance_impl.cpp:150-197] Put *)
Definition Enh_Put (key : string) (value : PreferencesValue) : SO Enhance Z :=
  let errCode := CheckKey key in
  if negb (errCode =? E_OK) then mret errCode else
  let errCode := CheckValue value in
  if negb (errCode =? E_OK) then mret errCode else
  run_st (e_on_base (ReportObjectUsage value));;
  e ← run_st get;
  if negb (e_open e) then mret E_ERROR else
  oriValueLen ← run_out (CalSize value);
  '(errCode, oriValue) ← run_out (MarshallingPreferenceValue RSIZE_MAX value (replicate (Z.to_nat oriValueLen) 0));
  if negb (errCode =? E_OK) then mret errCode else
  errCode ← run_st (on_kv (kv_Put (bytes_of_string key) oriValue));
  if negb (errCode =? E_OK) then mret errCode else
  (if CACHED_THRESHOLDS <=? oriValueLen then
     run_st (modify (fun e =>
       e_set_cache (next_version (cachedDataVersion_ e)) (<[key := value]> (largeCachedData_ e)) e))
   else
     run_st (modify (fun e => e_set_cache (cachedDataVersion_ e) (delete key (largeCachedData_ e)) e)));;
  run_st (e_post (ENotify key value));;
  mret E_OK.

(** [preferences_enhance_impl.cpp:199-230] Delete *)
Definition Enh_Delete (key : string) : SO Enhance Z :=
  let errCode := CheckKey key in
  if negb (errCode =? E_OK) then mret errCode else
  e ← run_st get;
  if negb (e_open e) then mret E_ERROR else
  errCode ← run_st (on_kv (kv_Delete (bytes_of_string key)));
  if negb (errCode =? E_OK) then mret errCode else
  run_st (modify (fun e =>
    match largeCachedData_ e !! key with
    | Some _ => e_set_cache (next_version (cachedDataVersion_ e)) (delete key (largeCachedData_ e)) e
    | None => e
    end));;
  run_st (e_post (ENotify key PreferencesValue_default));;
  mret E_OK.

(** [preferences_enhance_impl.cpp:313-349] Clear *)
Definition Enh_Clear : SO Enhance Z :=
  e ← run_st get;
  if negb (e_open e) then mret E_ERROR else
  '(r, allData) ← Enh_GetAllInner;
  if negb (r =? E_OK) then mret r else
  errCode ← run_st (on_kv kv_DropCollection);
  if negb (errCode =? E_OK) then mret errCode else
  run_st (if decide (allData = ∅) then mret tt else e_post (ENotifyBatch allData));;
  errCode ← run_st (on_kv kv_CreateCollection);
  if negb (errCode =? E_OK) then mret errCode else
  run_st (modify (fun e => e_set_cache (next_version (cachedDataVersion_ e)) ∅ e));;
  mret E_OK.

(** [preferences_enhance_impl.cpp:351-365] CloseDb *)
Definition Enh_CloseDb : SO Enhance Z :=
  e ← run_st get;
  if negb (e_open e) then mret E_OK else
  errCode ← run_st (on_kv kv_CloseDb);
  if negb (errCode =? E_OK) then mret errCode else
  run_st (modify (fun e => e_set_cache (cachedDataVersion_ e) ∅ e));;
  drop_db;;
  mret E_OK.

(** [preferences_enhance_impl.cpp:43-46] ~PreferencesEnhanceImpl *)
Definition Enhance_destroy : SO Enhance unit := _ ← Enh_CloseDb; mret tt.

(** ** Notification *)

(** [preferences_enhance_impl.cpp:277-303] NotifyPreferencesObserver *)
Definition Enh_NotifyPreferencesObserver (key : string) (value : PreferencesValue) : ST Base unit :=
  b ← get;
  zoom_env (for_each (fun entry : ObsPtr * gset string =>
    if decide (key ∈ entry.2) then
      e ← get;
      match lock (svc e) entry.1 with
      | Some sharedPtr => emit (EvOnChangeData sharedPtr {[ key := value ]})
      | None => mret tt
      end
    else mret tt) (map_to_list (dataObserversMap_ b)));;
  zoom_env (for_each (fun it => OnChangePreferences it key) (localObservers_ b));;
  match client (svc (env b)) with
  | Some _ => zoom_env (emit (EvNotifyChange (MakeUri (options_ b) key)))
  | None => mret tt
  end.

Fixpoint notify_batch (l : list (string * PreferencesValue)) : ST Base unit :=
  match l with
  | [] => mret tt
  | (key, value) :: l' => Enh_NotifyPreferencesObserver key value;; notify_batch l'
  end.

(** [preferences_enhance_impl.cpp:305-311] NotifyPreferencesObserverBatchKeys *)
Definition NotifyPreferencesObserverBatchKeys (data : gmap string PreferencesValue) : ST Base unit :=
  notify_batch (map_to_list data).

(** The executor runs a posted closure. *)
Definition run_etask (t : ETask) : ST Enhance unit :=
  match t with
  | ENotify key value => e_on_base (Enh_NotifyPreferencesObserver key value)
  | ENotifyBatch allData => e_on_base (NotifyPreferencesObserverBatchKeys allData)
  end.
End Enhance.

(** ** The object as a map *)

(** A success code takes the success branch. *)
Ltac ok_code := change (E_OK =? E_OK) with true; cbn [negb].

Section Enhance_map.
Context `{KvDbLaws} (RSIZE_MAX : Z).

#[export] Instance bytes_of_string_inj : Inj (=) (=) bytes_of_string.
Proof. intros a b E. by rewrite <- (string_of_bytes_of_string a), E, string_of_bytes_of_string. Qed.

(** A value whose parcel can be read back. *)
Definition parcel_ok (v : PreferencesValue) : Prop :=
  parcel_supported v = true /\ value_ok v = true /\ parcel_size v < 2 ^ 32.

Lemma parcel_ok_read v : parcel_ok v -> UnmarshallingPreferenceValue (parcel_bytes v) = Done (E_OK, v).
Proof. intros (H1 & H2 & H3). apply Unmarshalling_ok; [done..|]. unfold small. unfold parcel_size in *. lia. Qed.

Lemma parcel_ok_blob v : parcel_ok v -> blob_ok (parcel_bytes v).
Proof. by intros (_ & _ & ?). Qed.

(** The database that holds [m]. *)
Definition stored_as (m : gmap string PreferencesValue) : gmap (list Z) (list Z) :=
  kmap bytes_of_string (parcel_bytes <$> m).

(** The object is open, its database holds [m], and what it caches is true. *)
Record einv (e : Enhance) (m : gmap string PreferencesValue) : Prop := {
  ei_open : e_open e = true;
  ei_data : data (e_kv e) = Some (stored_as m);
  ei_vals : map_Forall (fun _ => parcel_ok) m;
  ei_cache : largeCachedData_ e ⊆ m
}.

Lemma stored_lookup m k : stored_as m !! bytes_of_string k = parcel_bytes <$> m !! k.
Proof. unfold stored_as. by rewrite lookup_kmap, lookup_fmap by apply _. Qed.

Lemma einv_kv e m s : einv e m -> data s = Some (stored_as m) -> einv (e_set_db (e_open e) s e) m.
Proof. intros [] Hs. by split. Qed.

Lemma einv_cache e m n k v : einv e m -> m !! k = Some v ->
  einv (e_set_cache n (<[k := v]> (largeCachedData_ e)) e) m.
Proof. intros [] Hk. split; [done..|]. cbn. by apply insert_subseteq_l. Qed.

Lemma einv_version e m n : einv e m -> einv (e_set_cache n (largeCachedData_ e) e) m.
Proof. by intros []. Qed.

Lemma key_blob k : CheckKey k = E_OK -> blob_ok (bytes_of_string k).
Proof.
  intros Hk. unfold blob_ok. rewrite length_bytes_of_string. fold (slen k).
  destruct (CheckKey_cases k) as [[E _]|[[E _]|[_ ?]]]; [| |lia];
    rewrite Hk in E; vm_compute in E; discriminate.
Qed.

(** The shared search. *)
Lemma find_key_spec e m k : einv e m -> CheckKey k = E_OK ->
  exists f e', find_key k e = (f, e') /\ einv e' m /\
  match f with
  | VersionFailed => True
  | Cached v => m !! k = Some v
  | DbFailed r => r <> E_OK /\ (r = E_NO_DATA -> m !! k = None)
  | DbValue _ b => exists v, m !! k = Some v /\ b = parcel_bytes v
  end.
Proof.
  intros Hi Hk. unfold find_key, on_kv, mbind, st_bind, get, mret, st_ret.
  destruct (kv_version_spec (e_kv e) _ (ei_data _ _ Hi)) as (r & n & s1 & -> & Hd1).
  pose proof (einv_kv _ _ _ Hi Hd1) as Hi1. cbv beta iota zeta. destruct (negb (r =? E_OK)).
  { by eexists _, _. }
  set (e1 := e_set_db (e_open e) s1 e) in *.
  destruct (if n =? cachedDataVersion_ e1 then _ else _) as [v|] eqn:Ec.
  { eexists _, e1. split_and!; [done..|]. case_match; [|done]. by eapply lookup_weaken, ei_cache. }
  destruct (kv_get_spec (e_kv e1) _ _ (ei_data _ _ Hi1) (key_blob k Hk)) as (r' & b & s2 & -> & Hd2 & Hr).
  pose proof (einv_kv _ _ _ Hi1 Hd2) as Hi2. rewrite stored_lookup in Hr.
  destruct (Z.eqb_spec r' E_OK) as [->|Hne]; cbn [negb].
  - eexists _, _. split_and!; [done..|]. destruct Hr as [[_ Hl]|[[Hbad _]|[Hbad _]]]; [|done|done].
    destruct (m !! k) as [v|]; [|done]. exists v. by injection Hl as <-.
  - eexists _, _. split_and!; [done..|]. split; [done|]. intros ->. destruct Hr as [[? _]|[[_ Hl]|[_ ?]]]; [done| |done].
    by destruct (m !! k).
Qed.

Lemma cache_large_inv e m k n v : einv e m -> m !! k = Some v ->
  exists e', cache_large k n (parcel_bytes v) v e = (tt, e') /\ einv e' m.
Proof.
  intros Hi Hk. unfold cache_large. destruct (is_large _); [|by exists e].
  eexists. split; [done|]. by apply einv_cache.
Qed.

(** ** Every operation, on the map *)

Definition Enh_exec (o : op) : SO Enhance reply :=
  match o with
  | OGet k d => v ← Enh_Get k d; mret (RValue v)
  | OHasKey k => b ← Enh_HasKey k; mret (RBool b)
  | OGetValue k d => r ← Enh_GetValue k d; mret (RCodeValue r.1 r.2)
  | OGetAll => m ← Enh_GetAll; mret (RMap m)
  | OGetAllData => r ← Enh_GetAllData; mret (RCodeMap r.1 r.2)
  | OGetAllDatas => m ← Enh_GetAllDatas; mret (RMap m)
  | OPut k v => z ← Enh_Put RSIZE_MAX k v; mret (RCode z)
  | ODelete k => z ← Enh_Delete k; mret (RCode z)
  | OClear => z ← Enh_Clear; mret (RCode z)
  end.

(** The reply when the database fails (or the value has no parcel). *)
Definition failed_reply (o : op) (r : reply) : Prop :=
  match o, r with
  | OGet _ d, RValue v => v = d
  | OHasKey _, RBool b => b = false
  | OGetValue _ d, RCodeValue z v => z <> E_OK /\ v = d
  | OGetAll, RMap m | OGetAllDatas, RMap m => m = ∅
  | OGetAllData, RCodeMap z m => z <> E_OK /\ m = ∅
  | OPut _ _, RCode z | ODelete _, RCode z | OClear, RCode z => z <> E_OK
  | _, _ => False
  end.

(** A [Clear] that dropped the collection but could not create it again. *)
Definition half_cleared (o : op) (r : reply) (e : Enhance) : Prop :=
  o = OClear /\ (exists z, r = RCode z /\ z <> E_OK) /\ e_open e = true /\ data (e_kv e) = Some ∅.

(** What one operation may do on the contents [m]. *)
Definition simulates (o : op) (m : gmap string PreferencesValue) (r : reply) (e : Enhance) : Prop :=
  r = (spec o m).1 /\ einv e (spec o m).2 \/ failed_reply o r /\ einv e m \/ half_cleared o r e.

(** A well-typed argument of less than 4 GiB, which [memcpy_s] copies. *)
Definition op_ok (o : op) : Prop :=
  match o with OPut _ v => value_ok v = true /\ parcel_size v < 2 ^ 32 /\ parcel_size v <= RSIZE_MAX | _ => True end.

Lemma Enh_Get_sim e m k d : einv e m ->
  exists v e', Enh_Get k d e = Done (v, e') /\ simulates (OGet k d) m (RValue v) e'.
Proof.
  intros Hi. unfold Enh_Get, simulates, spec. cbn [fst snd].
  destruct (Z.eqb_spec (CheckKey k) E_OK) as [Hk|Hk]; cbn [negb].
  2: { exists d, e. split; [done|]. by left. }
  rewrite so_bind_st. cbn [fst snd get]. rewrite (ei_open _ _ Hi). cbn [negb]. rewrite so_bind_st.
  destruct (find_key_spec e m k Hi Hk) as (f & e1 & -> & Hi1 & Hf). cbn [fst snd].
  destruct f as [|v|r|n b].
  - exists d, e1. split; [done|]. right; left. by split.
  - exists v, e1. split; [done|]. left. by rewrite Hf.
  - exists d, e1. split; [done|]. right; left. by split.
  - destruct Hf as (v & Hv & ->).
    rewrite (so_bind_out _ _ _ _ (parcel_ok_read v (ei_vals _ _ Hi k v Hv))). cbn [fst snd]. ok_code.
    rewrite so_bind_st. destruct (cache_large_inv e1 m k n v Hi1 Hv) as (e2 & -> & Hi2).
    exists v, e2. split; [done|]. left. by rewrite Hv.
Qed.

Lemma Enh_HasKey_sim e m k : einv e m ->
  exists b e', Enh_HasKey k e = Done (b, e') /\ simulates (OHasKey k) m (RBool b) e'.
Proof.
  intros Hi. unfold Enh_HasKey, simulates, spec. cbn [fst snd].
  destruct (Z.eqb_spec (CheckKey k) E_OK) as [Hk|Hk]; cbn [negb andb].
  2: { exists false, e. split; [done|]. by left. }
  rewrite so_bind_st. cbn [fst snd get]. rewrite (ei_open _ _ Hi). cbn [negb]. rewrite so_bind_st.
  destruct (find_key_spec e m k Hi Hk) as (f & e1 & -> & Hi1 & Hf). cbn [fst snd].
  destruct f as [|v|r|n b].
  - exists false, e1. split; [done|]. right; left. by split.
  - exists true, e1. split; [done|]. left. by rewrite Hf, bool_decide_eq_true_2.
  - exists false, e1. split; [done|]. right; left. by split.
  - destruct Hf as (v & Hv & ->). rewrite Hv, bool_decide_eq_true_2 by done.
    destruct (is_large _); [|exists true, e1; split; [done|]; by left].
    rewrite (so_bind_out _ _ _ _ (parcel_ok_read v (ei_vals _ _ Hi k v Hv))). cbn [fst snd]. ok_code.
    rewrite so_bind_st. destruct (cache_large_inv e1 m k n v Hi1 Hv) as (e2 & -> & Hi2).
    exists true, e2. split; [done|]. by left.
Qed.

Lemma Enh_GetValue_sim e m k d : einv e m ->
  exists r e', Enh_GetValue k d e = Done (r, e') /\ simulates (OGetValue k d) m (RCodeValue r.1 r.2) e'.
Proof.
  intros Hi. unfold Enh_GetValue, simulates, spec. cbn [fst snd].
  destruct (Z.eqb_spec (CheckKey k) E_OK) as [Hk|Hk]; cbn [negb andb].
  2: { eexists _, e. split; [done|]. by left. }
  rewrite so_bind_st. cbn [fst snd get]. rewrite (ei_open _ _ Hi). cbn [negb]. rewrite so_bind_st.
  destruct (find_key_spec e m k Hi Hk) as (f & e1 & -> & Hi1 & Hf). cbn [fst snd].
  destruct f as [|v|r|n b].
  - eexists _, e1. split; [done|]. right; left. by split.
  - eexists _, e1. split; [done|]. left. by rewrite Hf.
  - eexists _, e1. split; [done|]. right; left. by destruct Hf.
  - destruct Hf as (v & Hv & ->).
    rewrite (so_bind_out _ _ _ _ (parcel_ok_read v (ei_vals _ _ Hi k v Hv))). cbn [fst snd]. ok_code.
    rewrite so_bind_st. destruct (cache_large_inv e1 m k n v Hi1 Hv) as (e2 & -> & Hi2).
    eexists _, e2. split; [done|]. left. by rewrite Hv.
Qed.

(** Collecting rows of the map. *)
Lemma collect_spec m (l : list (string * PreferencesValue)) acc e :
  einv e m -> (forall k v, (k, v) ∈ l -> m !! k = Some v) -> NoDup l.*1 -> (forall k, k ∈ l.*1 -> acc !! k = None) ->
  exists e', collect (prod_map bytes_of_string parcel_bytes <$> l) acc e = Done ((E_OK, acc ∪ list_to_map l), e') /\
  einv e' m.
Proof.
  revert acc e. induction l as [|[k v] l IH]; intros acc e Hi Hm Hnd Hacc; cbn [fmap list_fmap prod_map collect].
  { exists e. split; [|done]. by rewrite list_to_map_nil, map_union_empty. }
  apply NoDup_cons in Hnd as [Hk Hnd].
  assert (Hv : m !! k = Some v) by (apply Hm; by left).
  rewrite (so_bind_out _ _ _ _ (parcel_ok_read v (ei_vals _ _ Hi k v Hv))). cbn [fst snd].
  rewrite string_of_bytes_of_string, (Hacc k) by (by left). ok_code.
  rewrite so_bind_st. set (step := if is_large _ then _ else _).
  assert (Hstep : einv (snd (step e)) m).
  { unfold step. destruct (is_large _); [|done]. by apply einv_cache. }
  destruct (IH (<[k := v]> acc) _ Hstep) as (e' & -> & Hi').
  - intros k' v' Hin. apply Hm. by right.
  - done.
  - intros k' Hk'. rewrite lookup_insert_ne; [apply Hacc; by right|]. by intros ->.
  - exists e'. split; [|done]. rewrite list_to_map_cons.
    rewrite <- insert_union_r by (apply Hacc; by left). by rewrite insert_union_l.
Qed.

Lemma stored_rows m l : l ≡ₚ map_to_list (stored_as m) ->
  exists l0, l = prod_map bytes_of_string parcel_bytes <$> l0 /\ l0 ≡ₚ map_to_list m.
Proof.
  intros Hl. assert (Hp : l ≡ₚ prod_map bytes_of_string parcel_bytes <$> map_to_list m).
  { rewrite Hl. unfold stored_as. rewrite map_to_list_kmap by apply _. rewrite map_to_list_fmap, <- list_fmap_compose.
    apply reflexive_eq, list_fmap_ext. by intros ? []. }
  apply Permutation_map_inv in Hp as (l0 & -> & Hp). exists l0. split; [done|]. by symmetry.
Qed.

Lemma on_kv_eq {A} (f : ST kv A) e a s : f (e_kv e) = (a, s) -> on_kv f e = (a, e_set_db (e_open e) s e).
Proof. intros E. unfold on_kv. by rewrite E. Qed.

Lemma Enh_GetAllInner_sim e m : einv e m ->
  exists r res e', Enh_GetAllInner e = Done ((r, res), e') /\ einv e' m /\
  (r = E_OK /\ res = m \/ r <> E_OK /\ res = ∅).
Proof.
  intros Hi. unfold Enh_GetAllInner. rewrite so_bind_st. cbn [fst snd get]. rewrite (ei_open _ _ Hi). cbn [negb].
  rewrite so_bind_st.
  destruct (kv_version_spec (e_kv e) _ (ei_data _ _ Hi)) as (r & n & s1 & E1 & Hd1).
  rewrite (on_kv_eq _ _ _ _ E1). cbn [fst snd].
  pose proof (einv_kv _ _ _ Hi Hd1) as Hi1. set (e1 := e_set_db (e_open e) s1 e) in *.
  destruct (negb (r =? E_OK)).
  { eexists _, _, e1. split; [done|]. split; [done|]. by right. }
  rewrite so_bind_st.
  destruct (kv_all_spec (e_kv e1) _ (ei_data _ _ Hi1)) as (r2 & l & s2 & E2 & Hd2 & Hl).
  rewrite (on_kv_eq _ _ _ _ E2). cbn [fst snd].
  pose proof (einv_kv _ _ _ Hi1 Hd2) as Hi2. set (e2 := e_set_db (e_open e1) s2 e1) in *.
  destruct (Z.eqb_spec r2 E_OK) as [->|Hne]; cbn [negb].
  2: { eexists _, _, e2. split; [done|]. split; [done|]. by right. }
  destruct (stored_rows m l (Hl eq_refl)) as (l0 & -> & Hp).
  destruct (collect_spec m l0 ∅ e2 Hi2) as (e3 & Hc & Hi3).
  - intros k v Hin. apply elem_of_map_to_list. by rewrite <- Hp.
  - rewrite Hp. apply NoDup_fst_map_to_list.
  - intros k _. apply lookup_empty.
  - rewrite (so_bind_Done _ _ _ _ _ Hc). ok_code. rewrite so_bind_st. cbn [fst snd modify].
    eexists _, _, _. split; [done|]. split; [by apply einv_version|]. left. split; [done|].
    rewrite map_empty_union. rewrite <- (list_to_map_to_list m). apply list_to_map_proper; [|done].
    rewrite Hp. apply NoDup_fst_map_to_list.
Qed.

Lemma copy_all_id m : copy_all m = m.
Proof.
  unfold copy_all. apply (map_fold_weak_ind (fun r m => r = m)); [done|]. by intros k v m' r _ ->.
Qed.

Lemma parcel_unsupported v data : parcel_supported v = false ->
  CalSize v = Done 0 /\ MarshallingPreferenceValue RSIZE_MAX v data = Done (E_INVALID_ARGS, data).
Proof. by destruct v. Qed.

Lemma Enh_Put_sim e m k v : 24 <= RSIZE_MAX -> einv e m -> op_ok (OPut k v) ->
  exists z e', Enh_Put RSIZE_MAX k v e = Done (z, e') /\ simulates (OPut k v) m (RCode z) e'.
Proof.
  intros HR Hi (Hv & Hs & HsR). unfold Enh_Put, simulates, spec. cbn [fst snd].
  destruct (Z.eqb_spec (CheckKey k) E_OK) as [Hk|Hk]; cbn [negb].
  2: { eexists _, e. split; [done|]. by left. }
  destruct (Z.eqb_spec (CheckValue v) E_OK) as [Hcv|Hcv]; cbn [negb].
  2: { eexists _, e. split; [done|]. by left. }
  rewrite so_bind_st. set (e0 := snd (e_on_base (ReportObjectUsage v) e)).
  assert (Hi0 : einv e0 m).
  { unfold e0, e_on_base. destruct (ReportObjectUsage v (e_base e)) as [[] b]. by destruct Hi; split. }
  rewrite so_bind_st. cbn [fst snd get]. rewrite (ei_open _ _ Hi0). cbn [negb].
  destruct (parcel_supported v) eqn:Hsup.
  2: { destruct (parcel_unsupported v [] Hsup) as [Hc Hm].
       rewrite (so_bind_out _ _ _ _ Hc), (so_bind_out _ _ _ _ Hm).
       eexists _, e0. split; [done|]. right; left. by split. }
  rewrite (so_bind_out _ _ _ _ (CalSize_spec v Hsup)).
  assert (0 <= parcel_size v) by (unfold parcel_size; lia).
  rewrite wrap_u_id by (apply in_u_spec; lia).
  assert (Hmar : MarshallingPreferenceValue RSIZE_MAX v (replicate (Z.to_nat (parcel_size v)) 0) =
    Done (E_OK, parcel_bytes v)).
  { apply Marshalling_ok; [done|rewrite length_replicate; lia|lia..]. }
  rewrite (so_bind_out _ _ _ _ Hmar). cbn [fst snd]. ok_code.
  assert (Hpok : parcel_ok v) by done.
  rewrite so_bind_st.
  destruct (kv_put_spec (e_kv e0) (bytes_of_string k) (parcel_bytes v) _ (ei_data _ _ Hi0) (key_blob k Hk)
    (parcel_ok_blob v Hpok)) as (r & s1 & E1 & Hr). rewrite (on_kv_eq _ _ _ _ E1). cbn [fst snd].
  destruct (Z.eqb_spec r E_OK) as [->|Hne]; cbn [negb].
  2: { eexists _, _. split; [done|]. right; left. split; [done|]. apply einv_kv; [done|].
       by destruct Hr as [[? _]|[_ ?]]. }
  assert (Hd : data s1 = Some (stored_as (<[k := v]> m))).
  { destruct Hr as [[_ ->]|[? _]]; [|done]. unfold stored_as. by rewrite fmap_insert, kmap_insert by apply _. }
  set (e1 := e_set_db (e_open e0) s1 e0).
  assert (Hv' : map_Forall (fun _ => parcel_ok) (<[k := v]> m)) by (apply map_Forall_insert_2; [done|apply Hi0]).
  unfold mbind at 1, so_bind at 1.
  destruct (CACHED_THRESHOLDS <=? parcel_size v); unfold run_st at 1; cbn [modify].
  all: rewrite so_bind_st; eexists _, _; (split; [done|]); left; (split; [done|]); split; cbn; [apply Hi0|done|done|].
  - apply insert_mono, Hi0.
  - apply map_subseteq_spec. intros k' v' [Hne Hl]%lookup_delete_Some. rewrite lookup_insert_ne by done.
    eapply lookup_weaken; [exact Hl|apply Hi0].
Qed.

Lemma Enh_Delete_sim e m k : einv e m ->
  exists z e', Enh_Delete k e = Done (z, e') /\ simulates (ODelete k) m (RCode z) e'.
Proof.
  intros Hi. unfold Enh_Delete, simulates, spec. cbn [fst snd].
  destruct (Z.eqb_spec (CheckKey k) E_OK) as [Hk|Hk]; cbn [negb].
  2: { eexists _, e. split; [done|]. by left. }
  rewrite so_bind_st. cbn [fst snd get]. rewrite (ei_open _ _ Hi). cbn [negb]. rewrite so_bind_st.
  destruct (kv_del_spec (e_kv e) (bytes_of_string k) _ (ei_data _ _ Hi) (key_blob k Hk)) as (r & s1 & E1 & Hr).
  rewrite (on_kv_eq _ _ _ _ E1). cbn [fst snd]. set (e1 := e_set_db (e_open e) s1 e).
  destruct (Z.eqb_spec r E_OK) as [->|Hne]; cbn [negb].
  2: { eexists _, e1. split; [done|]. right; left. split; [done|]. apply einv_kv; [done|].
       by destruct Hr as [[? _]|[_ ?]]. }
  assert (Hd : data s1 = Some (stored_as (delete k m))).
  { destruct Hr as [[_ ->]|[? _]]; [|done]. unfold stored_as. by rewrite fmap_delete, kmap_delete by apply _. }
  rewrite so_bind_st, so_bind_st. eexists _, _. split; [done|]. left. split; [done|].
  destruct Hi as [Ho _ Hv Hc]. cbn. destruct (largeCachedData_ e !! k) eqn:Ek; split; cbn;
    try done; try by apply map_Forall_delete.
  - by apply delete_mono.
  - apply map_subseteq_spec. intros k' v' Hl. rewrite lookup_delete_ne by (by intros ->; congruence).
    by eapply lookup_weaken.
Qed.

Lemma Enh_Clear_sim e m : einv e m ->
  exists z e', Enh_Clear e = Done (z, e') /\ simulates OClear m (RCode z) e'.
Proof.
  intros Hi. unfold Enh_Clear, simulates, spec. cbn [fst snd].
  rewrite so_bind_st. cbn [fst snd get]. rewrite (ei_open _ _ Hi). cbn [negb].
  destruct (Enh_GetAllInner_sim e m Hi) as (r & res & e1 & Ha & Hi1 & Hr). rewrite (so_bind_Done _ _ _ _ _ Ha).
  destruct Hr as [[-> ->]|[Hne ->]]; [ok_code|rewrite (proj2 (Z.eqb_neq _ _)) by done; cbn [negb]].
  2: { eexists _, e1. split; [done|]. right; left. by split. }
  rewrite so_bind_st. destruct (kv_drop_spec (e_kv e1) _ (ei_data _ _ Hi1)) as (r & s2 & E2 & Hr).
  rewrite (on_kv_eq _ _ _ _ E2). cbn [fst snd]. set (e2 := e_set_db (e_open e1) s2 e1).
  destruct (Z.eqb_spec r E_OK) as [->|Hne]; cbn [negb].
  2: { eexists _, e2. split; [done|]. right; left. split; [done|]. apply einv_kv; [done|].
       by destruct Hr as [[? _]|[_ ?]]. }
  assert (Hd : data s2 = Some ∅) by (by destruct Hr as [[_ ?]|[? _]]).
  rewrite so_bind_st. set (step := if decide (m = ∅) then _ else _).
  assert (Hstep : e_kv (snd (step e2)) = s2 /\ e_open (snd (step e2)) = true).
  { unfold step. destruct (decide _); cbn; (split; [done|apply Hi1]). }
  destruct Hstep as [Hk Ho]. revert Hk Ho. generalize (snd (step e2)) as e3. intros e3 Hk Ho. rewrite so_bind_st.
  rewrite <- Hk in Hd. destruct (kv_create_spec (e_kv e3) _ Hd) as (r & s4 & E4 & Hd4).
  rewrite (on_kv_eq _ _ _ _ E4). cbn [fst snd]. destruct (Z.eqb_spec r E_OK) as [->|Hne]; cbn [negb].
  - rewrite so_bind_st. eexists _, _. split; [done|]. left. split; [done|]. split; cbn; try done.
  - eexists _, _. split; [done|]. right; right. split; [done|]. split; [by exists r|]. done.
Qed.
End Enhance_map.

(** ** Properties *)

Section Enhance_properties.
Context `{KvDbLaws} (RSIZE_MAX : Z).


(** A value written by another process can be hidden by the cache for
    good: the object has cached [old] for the key [a] at an earlier version;
    another process has stored [new] since, so the version moved on to [n].
    Reading any other large value [b] stamps the whole cache with [n], and
    from then on the object answers [old] for [a] although the database holds
    [new]. *)
Theorem Enh_Get_stale (e : Enhance) (a b : string) (old new vb d : PreferencesValue) (n : Z)
    (db : gmap (list Z) (list Z))
    (Hopen : e_open e = true) (Ha : CheckKey a = E_OK) (Hb : CheckKey b = E_OK) (Hab : a <> b)
    (Hdata : data (e_kv e) = Some db) (Hnew : db !! bytes_of_string a = Some (parcel_bytes new)) (Hne : old <> new)
    (Hvb : parcel_ok vb) (Hlarge : is_large (parcel_bytes vb) = true)
    (Hcache : largeCachedData_ e !! a = Some old) (Hver : cachedDataVersion_ e <> n)
    (Hkernel : kv_GetKernelDataVersion (e_kv e) = ((E_OK, n), e_kv e))
    (Hget : kv_Get (bytes_of_string b) (e_kv e) = ((E_OK, parcel_bytes vb), e_kv e)) :
  exists e', Enh_Get b d e = Done (vb, e') /\ data (e_kv e') = Some db /\
    Enh_Get a d e' = Done (old, e').
Proof.
  set (e' := e_set_cache n (<[b := vb]> (largeCachedData_ e)) e).
  assert (Hid : forall x s, s = e_kv x -> e_set_db (e_open x) s x = x) by (by intros [] ? ->).
  exists e'. split_and!; [|done|].
  - unfold Enh_Get. rewrite Hb, Z.eqb_refl. cbn [negb]. rewrite so_bind_st. cbn [fst snd get]. rewrite Hopen. cbn [negb].
    rewrite so_bind_st. unfold find_key, mbind, st_bind, get, mret, st_ret.
    rewrite (on_kv_eq _ e _ _ Hkernel), Hid by done. ok_code. cbv beta iota.
    rewrite (proj2 (Z.eqb_neq _ _)) by done. rewrite (on_kv_eq _ e _ _ Hget), Hid by done. ok_code. cbn [fst snd].
    unfold so_bind, run_out. rewrite (parcel_ok_read vb Hvb). cbn. ok_code. unfold cache_large. by rewrite Hlarge.
  - unfold Enh_Get. rewrite Ha, Z.eqb_refl. cbn [negb]. rewrite so_bind_st. cbn [fst snd get].
    change (e_open e') with (e_open e). rewrite Hopen. cbn [negb].
    rewrite so_bind_st. unfold find_key, mbind, st_bind, get, mret, st_ret.
    rewrite (on_kv_eq _ e' _ _ Hkernel), Hid by done. ok_code. cbv beta iota.
    change (cachedDataVersion_ e') with n. rewrite Z.eqb_refl. cbn.
    rewrite lookup_insert_ne by done. by rewrite Hcache.
Qed.
End Enhance_properties.

(** ** Concrete runs, over the adapter and the database in memory *)

Definition en_options : Options := mkOptions "/p" "b" "" true.

(** An open object on a database with this table. *)
Definition en_object (t : gmap (list Z) (list Z)) (cached : gmap string PreferencesValue) (version : Z) : Enhance :=
  mkEnhance (PreferencesBase en_options mem_env) true (mem_db (Some tt) (mkMem (Some t) version false)) 0 cached [].


Definition large_value : PreferencesValue := VUint8Array (replicate (Z.to_nat CACHED_THRESHOLDS) 0).

(** The table that the other process left. *)
Definition en_table (x y : list Z) : gmap (list Z) (list Z) :=
  <[bytes_of_string "a" := x]> {[ bytes_of_string "b" := y ]}.

Lemma en_table_get x y cached :
  kv_Get (bytes_of_string "b") (e_kv (en_object (en_table x y) cached 7)) =
  ((E_OK, y), e_kv (en_object (en_table x y) cached 7)).
Proof. reflexivity. Qed.

Lemma large_value_length : Z.of_nat (length (parcel_bytes large_value)) = CACHED_THRESHOLDS + 9.
Proof.
  unfold large_value, parcel_bytes, parcel_payload, sized_items.
  rewrite length_cons, length_app, length_le_encode.
  assert (Hl : forall n, length (concat (map (fun b : Z => [b]) (replicate n 0))) = n).
  { induction n as [|n IH]; [done|]. cbn [replicate map concat]. by rewrite length_app, IH. }
  rewrite Hl. unfold sizeof_size_t. rewrite Nat2Z.inj_succ, Nat2Z.inj_add, Z2Nat.id by done. lia.
Qed.

Lemma large_value_ok : parcel_ok large_value.
Proof.
  split_and!; [done| |unfold parcel_size; by rewrite large_value_length].
  unfold large_value, value_ok. apply forallb_forall. intros x Hx.
  apply list_elem_of_In, elem_of_replicate in Hx as [-> _].
  done.
Qed.

Lemma large_value_large : is_large (parcel_bytes large_value) = true.
Proof. unfold is_large. by rewrite large_value_length. Qed.

Example Enh_Get_stale_witness :
  exists e', Enh_Get "b" (VInt 0) (en_object (en_table (parcel_bytes (VInt 2)) (parcel_bytes large_value))
      {[ "a" := VInt 1 ]} 7) = Done (large_value, e') /\
    data (e_kv e') = Some (en_table (parcel_bytes (VInt 2)) (parcel_bytes large_value)) /\
    Enh_Get "a" (VInt 0) e' = Done (VInt 1, e').
Proof.
  apply (Enh_Get_stale (en_object (en_table (parcel_bytes (VInt 2)) (parcel_bytes large_value))
      {[ "a" := VInt 1 ]} 7) "a" "b" (VInt 1) (VInt 2) large_value (VInt 0) 7
      (en_table (parcel_bytes (VInt 2)) (parcel_bytes large_value)) eq_refl eq_refl eq_refl);
    [discriminate|reflexivity|reflexivity|discriminate|exact large_value_ok|exact large_value_large|reflexivity
    |discriminate|reflexivity|apply en_table_get].
Defined.
