(* ===== verification/Helper.v ===== *)
(** * The factory of preferences objects

    Models [preferences_helper.cpp]: the process-wide cache of objects by
    path, opening, removing and deleting.  An object is an entry of a store
    [objects] and the cache holds references, so that the application and the
    cache share it; the environment is threaded through the object that runs.
    The operations of one object on the database library do not show in
    another, so each object starts from the library state [library_]. *)

From S2P Require Import Prelude Errno Value Utils Env FileLock Store DbAdapter Base Impl Enhance.
From Stdlib Require String.

(** [preferences.h:32-35] StorageType *)
Inductive StorageType := XML | GSKV.

Definition DB_SUFFIX : list string := [".ctrl"; ".ctrl.dwr"; ".redo"; ".undo"; ".safe"; ".map"].

Definition trustList : list string :=
  ["uttest"; "alipay"; "com.jd."; "cmblife"; "os.mms"; "os.ouc"; "meetime"; "appgallery"; "screenreader"].

(** [preferences_helper.cpp:115-125] IsInTrustList *)
Definition IsInTrustList (bundleName : string) : bool :=
  existsb (fun t => bool_decide (is_Some (String.index 0 t bundleName))) trustList.

(** The path, and the error code.

    [preferences_helper.cpp:73-113] GetRealPath *)
Definition GetRealPath (path : string) : string * Z :=
  if (String.length path =? 0)%nat then ("", E_EMPTY_FILE_PATH)
  else if PATH_MAX <? slen path then ("", E_PATH_EXCEED_MAX_LENGTH)
  else match rfind_char "/" path with
  | None => ("", E_RELATIVE_PATH)
  | Some pos =>
      if negb (bool_decide (String.get 0 path = Some "/"%char)) then ("", E_RELATIVE_PATH)
      else if bool_decide (String.substring (S pos) (String.length path) path = "") then ("", E_EMPTY_FILE_NAME)
      else (path, E_OK)
  end.

(** The path is refused. *)
Definition refused (r : string * Z) : bool := bool_decide (r.1 = "") || negb (r.2 =? E_OK).

(** [preferences_helper.cpp:41-45] IsFileExist *)
Definition Helper_IsFileExist (path : string) : ST Env bool := r ← stat path; mret (r =? 0).

(** [preferences_helper.cpp:47-54] RemoveEnhanceDb *)
Definition RemoveEnhanceDb (filePath : string) : ST Env Z :=
  r ← remove filePath; mret (if negb (r =? 0) then E_DELETE_FILE_FAIL else E_OK).

(** Remove a file that exists; whether that went well. *)
Definition remove_if_exists (path : string) : ST Env bool :=
  ex ← Helper_IsFileExist path;
  if (ex : bool) then r ← RemoveEnhanceDb path; mret (r =? E_OK) else mret true.

(** [preferences_helper.cpp:63-68] RemoveEnhanceDbFileIfNeed *)
Fixpoint remove_suffixes (dbFilePath : string) (l : list string) : ST Env Z :=
  match l with
  | [] => mret E_OK
  | suffix :: l' =>
      ok ← remove_if_exists (dbFilePath +:+ suffix);
      if negb ok then mret E_DELETE_FILE_FAIL else remove_suffixes dbFilePath l'
  end.

(** [preferences_helper.cpp:56-71] RemoveEnhanceDbFileIfNeed *)
Definition RemoveEnhanceDbFileIfNeed (filePath : string) : ST Env Z :=
  let dbFilePath := filePath +:+ ".db" in
  ok ← remove_if_exists dbFilePath;
  if negb ok then mret E_DELETE_FILE_FAIL else remove_suffixes dbFilePath DB_SUFFIX.

(** The part of [DeletePreferences] under the file lock.

    [preferences_helper.cpp:262-274] DeletePreferences *)
Definition delete_files (path filePath : string) : ST Env Z :=
  let backupPath := MakeFilePath filePath STR_BACKUP in
  let brokenPath := MakeFilePath filePath STR_BROKEN in
  let lockFilePath := MakeFilePath filePath STR_LOCK in
  let objFlagPath := MakeFilePath filePath STR_OBJECT_FLAG in
  _ ← remove filePath;
  _ ← remove backupPath;
  _ ← remove brokenPath;
  _ ← remove lockFilePath;
  _ ← remove objFlagPath;
  r ← RemoveEnhanceDbFileIfNeed path;
  if negb (r =? E_OK) then mret E_DELETE_FILE_FAIL else
  ex1 ← Helper_IsFileExist filePath;
  if (ex1 : bool) then mret E_DELETE_FILE_FAIL else
  ex2 ← Helper_IsFileExist backupPath;
  if (ex2 : bool) then mret E_DELETE_FILE_FAIL else
  ex3 ← Helper_IsFileExist brokenPath;
  if (ex3 : bool) then mret E_DELETE_FILE_FAIL else
  ex4 ← Helper_IsFileExist lockFilePath;
  if (ex4 : bool) then mret E_DELETE_FILE_FAIL else
  mret E_OK.

(** The part of [DeletePreferences] after the cache.

    [preferences_helper.cpp:248-275] DeletePreferences *)
Definition DeletePreferences_files (path realPath bundleName : string) : ST Env Z :=
  let filePath := c_str realPath in
  '(fileLock, isMultiProcessing) ← WriteLock (FileLock_new filePath) false;
  (if (isMultiProcessing : bool) then
     ReportFault (mkReportFaultParam "DeletePreferences error" bundleName NORMAL_DB (extract_name filePath)
       E_OPERAT_IS_CROSS_PROESS "Cross-process operations.")
   else mret tt);;
  r ← delete_files path filePath;
  FileLock_release fileLock;;
  mret r.

Section Helper.
Context `{XmlStore} `{SafeBlockQueue} `{KvDb}.
(** The build has the key-value database. *)
Context (gskvEnabled : bool).

Inductive Pref :=
  | PXml (p : PreferencesImpl)
  | PEnhance (e : Enhance).

Record Helper := mkHelper {
  h_env : Env;
  prefsCache_ : gmap string (option positive * bool);
  objects : gmap positive Pref;
  isReportFault_ : bool;
  library_ : kv
}.

Definition h_set_env e h := mkHelper e (prefsCache_ h) (objects h) (isReportFault_ h) (library_ h).
Definition h_set_cache c h := mkHelper (h_env h) c (objects h) (isReportFault_ h) (library_ h).
Definition h_set_objects o h := mkHelper (h_env h) (prefsCache_ h) o (isReportFault_ h) (library_ h).
Definition h_set_reported r h := mkHelper (h_env h) (prefsCache_ h) (objects h) r (library_ h).

Definition h_on_env {A} (m : ST Env A) : ST Helper A := fun h =>
  let '(a, e) := m (h_env h) in (a, h_set_env e h).

(** A reference that no object has. *)
Definition next_ref (o : gmap positive Pref) : positive := Pos.succ (map_fold (fun k _ => Pos.max k) 1%positive o).

(** [std::make_shared]: a new object. *)
Definition alloc (p : Pref) : ST Helper positive := fun h =>
  let r := next_ref (objects h) in (r, h_set_objects (<[r := p]> (objects h)) h).

(** Run an operation of an object in the helper's environment. *)
Definition run_xml {A} (r : positive) (p : PreferencesImpl) (m : ST PreferencesImpl A) : ST Helper A := fun h =>
  let '(a, p') := m (upd_base (set_env (h_env h) (base_ p)) p) in
  (a, h_set_env (env (base_ p')) (h_set_objects (<[r := PXml p']> (objects h)) h)).

Definition run_enhance {A} (r : positive) (e : Enhance) (m : SO Enhance A) : SO Helper A := fun h =>
  '(a, e') ← m (e_set_base (set_env (h_env h) (e_base e)) e);
  Done (a, h_set_env (env (e_base e')) (h_set_objects (<[r := PEnhance e']> (objects h)) h)).

(** [preferences_helper.cpp:310-324] IsStorageTypeSupported *)
Definition IsStorageTypeSupported (type : StorageType) : bool :=
  match type with XML => true | GSKV => gskvEnabled end.

(** Create and initialise an object over the XML file. *)
Definition open_xml (options : Options) : SO Helper (Z * bool * option positive) :=
  h ← run_st get;
  let p := PreferencesImpl_new options (h_env h) in
  r ← run_st (alloc (PXml p));
  errCode ← run_st (run_xml r p Init);
  mret (errCode, false, Some r).

(** Create and initialise an object over the database. *)
Definition open_enhance (options : Options) : SO Helper (Z * bool * option positive) :=
  h ← run_st get;
  let e := Enhance_new options (h_env h) (library_ h) in
  r ← run_st (alloc (PEnhance e));
  errCode ← run_enhance r e Enh_Init;
  mret (errCode, true, Some r).

(** The error code, whether the object is over the database, and the object.

    [preferences_helper.cpp:127-162] GetPreferencesInner *)
Definition GetPreferencesInner (options : Options) : SO Helper (Z * bool * option positive) :=
  if IsInTrustList (bundleName options) then
    ex ← run_st (h_on_env (Helper_IsFileExist (filePath options)));
    if negb ex && IsStorageTypeSupported GSKV then open_enhance options
    else open_xml options
  else if negb (isEnhance options) then
    ex ← run_st (h_on_env (Helper_IsFileExist (filePath options +:+ ".db")));
    if (ex : bool) then mret (E_NOT_SUPPORTED, false, None) else open_xml options
  else
    ex ← run_st (h_on_env (Helper_IsFileExist (filePath options)));
    if (ex : bool) then mret (E_NOT_SUPPORTED, false, None) else
    if negb (IsStorageTypeSupported GSKV) then mret (E_NOT_SUPPORTED, false, None)
    else open_enhance options.

(** The part of [GetPreferences] for a path that is not cached.

    [preferences_helper.cpp:183-202] GetPreferences *)
Definition open_new (options : Options) (realPath : string) : SO Helper (option positive * Z) :=
  let options := mkOptions realPath (bundleName options) (dataGroupId options) (isEnhance options) in
  r ← run_st (h_on_env (Access (c_str (parent_dir realPath))));
  h ← run_st get;
  (if negb (r =? 0) then
     run_st (modify (h_set_reported true));;
     if isReportFault_ h then mret tt else
     run_st (h_on_env (ReportFault (mkReportFaultParam "GetPreferences error" (bundleName options) NORMAL_DB
       (extract_name (filePath options)) E_INVALID_FILE_PATH "The path is invalid.")))
   else mret tt);;
  '(errCode, isEnhancePreferences, pref) ← GetPreferencesInner options;
  if negb (errCode =? E_OK) then mret (None, errCode) else
  run_st (modify (fun h => h_set_cache (match prefsCache_ h !! realPath with
    | Some _ => prefsCache_ h
    | None => <[realPath := (pref, isEnhancePreferences)]> (prefsCache_ h)
    end) h));;
  mret (pref, errCode).

(** The object (or null) and the error code.

    [preferences_helper.cpp:164-202] GetPreferences *)
Definition GetPreferences (options : Options) : SO Helper (option positive * Z) :=
  let real := GetRealPath (filePath options) in
  if refused real then mret (None, real.2) else
  h ← run_st get;
  match prefsCache_ h !! real.1 with
  | Some (Some pre, _) => mret (Some pre, real.2)
  | Some (None, _) =>
      run_st (modify (h_set_cache (delete real.1 (prefsCache_ h))));;
      open_new options real.1
  | None => open_new options real.1
  end.

(** The calls through a cached pointer.  A [static_pointer_cast] to the class
    that the object does not have is undefined. *)
Definition cast_CloseDb (r : positive) : SO Helper Z :=
  h ← run_st get;
  match objects h !! r with
  | Some (PEnhance e) => run_enhance r e Enh_CloseDb
  | _ => run_out Undef
  end.

Definition cast_Close (r : positive) : SO Helper Z :=
  h ← run_st get;
  match objects h !! r with
  | Some (PXml p) => run_st (run_xml r p Close)
  | _ => run_out Undef
  end.

(** The virtual [CloseDb], of the object's own class. *)
Definition virtual_CloseDb (r : positive) : SO Helper Z :=
  h ← run_st get;
  match objects h !! r with
  | Some (PEnhance e) => run_enhance r e Enh_CloseDb
  | Some (PXml p) => run_st (run_xml r p (on_base Base_CloseDb))
  | None => run_out Undef
  end.

Definition pref_bundleName (p : Pref) : string :=
  match p with
  | PXml p => bundleName (options_ (base_ p))
  | PEnhance e => bundleName (options_ (e_base e))
  end.

(** [preferences_helper.cpp:204-226] DeletePreferencesCache *)
Definition DeletePreferencesCache (realPath : string) : SO Helper (string * Z) :=
  h ← run_st get;
  match prefsCache_ h !! realPath with
  | None => mret ("", E_OK)
  | Some (pref, isEnhance) =>
      '(name, errCode) ←
        (match pref with
         | None => mret ("", E_OK)
         | Some r =>
             errCode ← (if (isEnhance : bool) then virtual_CloseDb r else cast_Close r);
             mret (default "" (pref_bundleName <$> objects h !! r), errCode)
         end);
      (if errCode =? E_OK
       then run_st (modify (fun h => h_set_cache (delete realPath (prefsCache_ h)) h)) else mret tt);;
      mret (name, errCode)
  end.

(** [preferences_helper.cpp:228-275] DeletePreferences *)
Definition DeletePreferences (path : string) : SO Helper Z :=
  let real := GetRealPath path in
  if refused real then mret real.2 else
  '(name, code) ← DeletePreferencesCache real.1;
  if negb (code =? E_OK) then mret code else
  run_st (h_on_env (DeletePreferences_files path real.1 name)).

(** [preferences_helper.cpp:277-308] RemovePreferencesFromCache *)
Definition RemovePreferencesFromCache (path : string) : SO Helper Z :=
  let real := GetRealPath path in
  if refused real then mret real.2 else
  h ← run_st get;
  match prefsCache_ h !! real.1 with
  | None => mret E_OK
  | Some (pref, isEnhance) =>
      errCode ← (match pref with
                 | None => mret E_OK
                 | Some r =>
                     if (isEnhance : bool) then cast_CloseDb r else _ ← cast_Close r; mret E_OK
                 end);
      if negb (errCode =? E_OK) then mret E_ERROR else
      run_st (modify (fun h => h_set_cache (delete real.1 (prefsCache_ h)) h));;
      mret E_OK
  end.
End Helper.

(** ** Paths *)

Lemma rfind_char_none c s : rfind_char c s = None <-> c ∉ String.list_ascii_of_string s.
Proof.
  induction s as [|a s IH]; cbn [rfind_char String.list_ascii_of_string]; [split; [intros _ Hc; inv Hc|done]|].
  rewrite not_elem_of_cons, <- IH. destruct (rfind_char c s); [|case_decide]; naive_solver.
Qed.

(** The part after the last [c] has no [c]. *)
Lemma rfind_char_split c s n : rfind_char c s = Some n ->
  exists a b, s = a +:+ String c b /\ String.length a = n /\ c ∉ String.list_ascii_of_string b.
Proof.
  revert n. induction s as [|x s IH]; intros n; cbn [rfind_char]; [done|].
  destruct (rfind_char c s) as [m|] eqn:Em.
  - intros [= <-]. destruct (IH m eq_refl) as (a & b & -> & <- & Hb).
    by exists (String x a), b.
  - case_decide as Hx; [|done]. intros [= <-]. exists "", s. subst x. split_and!; [done..|].
    by apply rfind_char_none.
Qed.

Lemma rfind_char_app c a b : c ∉ String.list_ascii_of_string b ->
  rfind_char c (a +:+ String c b) = Some (String.length a).
Proof.
  intros Hb. induction a as [|x a IH].
  - change ("" +:+ String c b) with (String c b). cbn [rfind_char].
    by rewrite (proj2 (rfind_char_none c b) Hb), decide_True.
  - change (String x a +:+ String c b) with (String x (a +:+ String c b)). cbn [rfind_char]. by rewrite IH.
Qed.

Lemma substring_after a c b :
  String.substring (S (String.length a)) (String.length (a +:+ String c b)) (a +:+ String c b) = b.
Proof.
  assert (Hgo : forall n, (String.length b <= n)%nat -> String.substring (S (String.length a)) n (a +:+ String c b) = b).
  { induction a as [|x a IH]; intros n Hn.
    - change ("" +:+ String c b) with (String c b). cbn [String.length String.substring].
      revert n Hn. induction b as [|y b IHb]; intros [|n] Hn; cbn in *; try done; try lia.
      f_equal. apply IHb. lia.
    - change (String x a +:+ String c b) with (String x (a +:+ String c b)). cbn [String.length String.substring].
      by apply IH. }
  apply Hgo. rewrite str_length_app. cbn. lia.
Qed.

(** The path has this shape: absolute, with a file name at its end. *)
Definition absolute_file (path : string) : Prop := exists dir name,
  path = dir +:+ String "/" name /\ (dir = "" \/ String.get 0 dir = Some "/"%char) /\
  name <> "" /\ "/"%char ∉ String.list_ascii_of_string name.

Lemma GetRealPath_cases path :
  GetRealPath path = (path, E_OK) /\ refused (GetRealPath path) = false /\
    slen path <= PATH_MAX /\ absolute_file path \/
  (GetRealPath path).1 = "" /\ (GetRealPath path).2 <> E_OK /\ refused (GetRealPath path) = true /\
    ~ (slen path <= PATH_MAX /\ absolute_file path).
Proof.
  unfold GetRealPath. destruct (String.length path =? 0)%nat eqn:El.
  { right. split_and!; [done..|]. intros (_ & dir & name & -> & _).
    apply Nat.eqb_eq in El. rewrite str_length_app in El. cbn in El. lia. }
  destruct (PATH_MAX <? slen path) eqn:Em; bools.
  { right. split_and!; [done..|]. intros [? _]. lia. }
  destruct (rfind_char "/" path) as [pos|] eqn:Ep.
  2: { right. split_and!; [done..|]. intros (_ & dir & name & -> & _ & _ & Hn). by rewrite rfind_char_app in Ep. }
  destruct (rfind_char_split _ _ _ Ep) as (dir & name & -> & <- & Hn).
  rewrite substring_after. assert (Hshape : forall d n, dir +:+ String "/" name = d +:+ String "/" n ->
    "/"%char ∉ String.list_ascii_of_string n -> String.length d = String.length dir /\ n = name).
  { intros d n E Hn'. pose proof (rfind_char_app "/" d n Hn') as E'. rewrite <- E, Ep in E'.
    injection E' as E'. split; [done|]. rewrite <- (substring_after dir "/" name), <- (substring_after d "/" n).
    by rewrite E, E'. }
  assert (Hfirst : String.get 0 (dir +:+ String "/" name) = Some "/"%char <-> dir = "" \/ String.get 0 dir = Some "/"%char).
  { destruct dir; [naive_solver|]. cbn. split; [by right|]. by intros [?|?]. }
  destruct (bool_decide (String.get 0 (dir +:+ String "/" name) = Some "/"%char)) eqn:Ef; bools; cbn [negb].
  2: { right. split_and!; [done..|]. intros (_ & d & n & E & Hd & Hne & Hn'). destruct Ef. rewrite E.
       destruct d; [done|]. by destruct Hd. }
  destruct (bool_decide (name = "")) eqn:Ename; bools.
  { right. split_and!; [done..|]. intros (_ & d & n & E & Hd & Hne & Hn'). destruct (Hshape d n E Hn') as [_ ->]. done. }
  left. split_and!; [done| |done|exists dir, name; naive_solver].
  unfold refused. cbn. by destruct dir.
Qed.

(** A path is accepted exactly when it has at most [PATH_MAX] bytes, is
    absolute and ends in a non-empty file name; an accepted path is returned
    as it is, and a rejected one gives the empty string and an error code, so
    the callers' two checks agree. *)
Theorem GetRealPath_spec (path : string) :
  (refused (GetRealPath path) = false <-> slen path <= PATH_MAX /\ absolute_file path) /\
  GetRealPath path = (if refused (GetRealPath path) then ("", (GetRealPath path).2) else (path, E_OK)) /\
  (refused (GetRealPath path) = true -> (GetRealPath path).2 <> E_OK).
Proof.
  destruct (GetRealPath_cases path) as [(E & Hr & Hl & Ha)|(E1 & E2 & Hr & Hn)]; rewrite Hr.
  - by split_and!.
  - split_and!; [by split|by destruct (GetRealPath path); cbn in *; subst|done].
Qed.

Example GetRealPath_spec_witness :
  refused (GetRealPath "/data/") = true /\ (GetRealPath "/data/").2 <> E_OK.
Proof.
  split; [reflexivity|]. apply (proj2 (proj2 (GetRealPath_spec "/data/"))). reflexivity.
Defined.

(** ** Deleting files *)

(** [wipes names Q m]: when no system call fails and none of the names is a
    directory, [m] answers a value in [Q], removes exactly the files [l] and
    leaves every other file as it was. *)
Definition wipes {A} (names l : list string) (Q : A -> Prop) (m : ST Env A) : Prop :=
  frames m /\ forall e, calm e -> (forall q, q ∈ names -> q ∉ dirs (fs e)) ->
  Q (fst (m e)) /\ forall q, files (fs (snd (m e))) !! q = if decide (q ∈ l) then None else files (fs e) !! q.

Section wipes.
Context (names : list string).

Lemma wipes_ret {A} (a : A) (Q : A -> Prop) : Q a -> wipes names [] Q (mret a).
Proof. intros Hq. split; [apply frames_ret|]. intros e _ _. split; [done|]. intros q. by rewrite decide_False by set_solver. Qed.

Lemma wipes_bind {A B} l1 l2 (P : A -> Prop) (Q : B -> Prop) (m : ST Env A) (k : A -> ST Env B) :
  wipes names l1 P m -> (forall a, frames (k a)) -> (forall a, P a -> wipes names l2 Q (k a)) ->
  wipes names (l1 ++ l2) Q (m ≫= k).
Proof.
  intros [Hf Hm] Hfk Hk. split; [by apply frames_bind|]. intros e Hc Hd. rewrite bind_run.
  destruct (Hm e Hc Hd) as [HP Hl1].
  destruct (proj2 (Hk _ HP) (snd (m e))) as [HQ Hl2].
  { by apply frames_calm. }
  { intros q Hq. apply frames_dirs; [done|by apply Hd]. }
  split; [done|]. intros q. rewrite Hl2, Hl1. repeat case_decide; set_solver.
Qed.

Lemma wipes_weaken {A} l (P Q : A -> Prop) (m : ST Env A) :
  (forall a, P a -> Q a) -> wipes names l P m -> wipes names l Q m.
Proof. intros HPQ [Hf Hm]. split; [done|]. intros e Hc Hd. destruct (Hm e Hc Hd). auto. Qed.

Lemma lookup_delete_if (m : gmap string string) p q :
  delete p m !! q = if decide (q ∈ [p]) then None else m !! q.
Proof. case_decide as Hq; [apply list_elem_of_singleton in Hq as ->; apply lookup_delete_eq|apply lookup_delete_ne; set_solver]. Qed.

Lemma wipes_remove p : c_str p = p -> wipes names [p] (fun _ => True) (remove p).
Proof.
  intros Hp. split; [auto with prefs|]. intros e Hc%calm_next _. split; [done|]. intros q.
  unfold remove. sys_ok Hc. rewrite Hf, Hp. destruct (files (fs e) !! p) eqn:Ep; cbn.
  - apply lookup_delete_if.
  - rewrite Hf. case_decide as Hq; [by apply list_elem_of_singleton in Hq as ->|done].
Qed.

Lemma remove_present p c e : calm e -> files (fs e) !! c_str p = Some c -> fst (remove p e) = 0.
Proof. intros Hc%calm_next Hp. unfold remove. sys_ok Hc. by rewrite Hf, Hp. Qed.

Lemma exists_ok p e : calm e -> c_str p = p -> p ∉ dirs (fs e) ->
  fst (Helper_IsFileExist p e) = bool_decide (is_Some (files (fs e) !! p)) /\
  files (fs (snd (Helper_IsFileExist p e))) = files (fs e).
Proof.
  intros Hc%calm_next Hp Hd. unfold Helper_IsFileExist. rewrite bind_run.
  destruct (stat_ok p e Hc) as [Hs Hf]. split; [|exact Hf]. cbn. rewrite Hs, Hp. unfold path_exists.
  rewrite (bool_decide_eq_false_2 (p ∈ dirs _)), orb_false_r by done. by case_bool_decide.
Qed.

Lemma frames_exists p : frames (Helper_IsFileExist p).
Proof. unfold Helper_IsFileExist. frame_step. Qed.
Lemma frames_RemoveEnhanceDb p : frames (RemoveEnhanceDb p).
Proof. unfold RemoveEnhanceDb. frame_step. Qed.
#[local] Hint Resolve frames_exists frames_RemoveEnhanceDb : prefs.
Lemma frames_remove_if_exists p : frames (remove_if_exists p).
Proof. unfold remove_if_exists. frame_step. Qed.
#[local] Hint Resolve frames_remove_if_exists : prefs.
Lemma frames_remove_suffixes p l : frames (remove_suffixes p l).
Proof. induction l; cbn; frame_step. Qed.
#[local] Hint Resolve frames_remove_suffixes : prefs.
Lemma frames_RemoveEnhanceDbFileIfNeed p : frames (RemoveEnhanceDbFileIfNeed p).
Proof. unfold RemoveEnhanceDbFileIfNeed. frame_step. Qed.
#[local] Hint Resolve frames_RemoveEnhanceDbFileIfNeed : prefs.

Lemma wipes_remove_if_exists p : c_str p = p -> p ∈ names ->
  wipes names [p] (fun ok => ok = true) (remove_if_exists p).
Proof.
  intros Hp Hin. split; [auto with prefs|]. intros e Hc Hd. unfold remove_if_exists. rewrite bind_run.
  destruct (exists_ok p e Hc Hp (Hd p Hin)) as [-> Hf].
  apply (frames_calm (Helper_IsFileExist p)) in Hc; [|auto with prefs].
  assert (Hd' : forall q, q ∈ names -> q ∉ dirs (fs (snd (Helper_IsFileExist p e)))).
  { intros q Hq. apply frames_dirs; [auto with prefs|by apply Hd]. }
  revert Hc Hd' Hf. generalize (snd (Helper_IsFileExist p e)) as e1. intros e1 Hc Hd' Hf.
  case_bool_decide as Hex.
  - destruct Hex as [c Hc0]. unfold RemoveEnhanceDb. rewrite bind_run, bind_run. cbn [mret st_ret fst snd].
    rewrite (remove_present p c e1 Hc) by (by rewrite Hp, Hf). split; [done|].
    rewrite <- Hf. by apply (wipes_remove p Hp).
  - split; [done|]. intros q. cbn. rewrite Hf. case_decide as Hq; [|done].
    apply list_elem_of_singleton in Hq as ->. by apply eq_None_not_Some.
Qed.

Lemma wipes_remove_suffixes db l :
  (forall s, s ∈ l -> c_str (db +:+ s) = db +:+ s /\ db +:+ s ∈ names) ->
  wipes names (map (fun s => db +:+ s) l) (fun r => r = E_OK) (remove_suffixes db l).
Proof.
  induction l as [|s l IH]; intros Hl; cbn [remove_suffixes map]; [by apply wipes_ret|].
  destruct (Hl s ltac:(set_solver)) as [Hs Hin].
  apply (wipes_bind [_] _ (fun ok => ok = true)); [by apply wipes_remove_if_exists|intros; frame_step|].
  intros ? ->. cbn. apply IH. intros; apply Hl; set_solver.
Qed.
End wipes.

(** The files of a store. *)
Definition store_files (path : string) : list string :=
  path :: map (fun s => path +:+ s) [STR_BACKUP; STR_BROKEN; STR_LOCK; STR_OBJECT_FLAG] ++
  (path +:+ ".db") :: map (fun s => (path +:+ ".db") +:+ s) DB_SUFFIX.

Section store_files.
Context (path : string) (Hnul : no_nul path = true).
#[local] Hint Resolve frames_exists frames_RemoveEnhanceDb frames_remove_if_exists
  frames_remove_suffixes frames_RemoveEnhanceDbFileIfNeed : prefs.

Lemma store_files_c_str q : q ∈ store_files path -> c_str q = q.
Proof.
  intros Hq. apply c_str_no_nul. unfold store_files in Hq.
  rewrite elem_of_cons, elem_of_app, elem_of_cons, !list_elem_of_fmap in Hq.
  destruct Hq as [->|[(s & -> & Hs)|[->|(s & -> & Hs)]]]; rewrite ?no_nul_app, ?Hnul; cbn [andb]; [done| |done|].
  all: revert s Hs; apply Forall_forall; repeat constructor.
Qed.

Lemma absent_checked p e : calm e -> p ∈ store_files path -> p ∉ dirs (fs e) -> files (fs e) !! p = None ->
  exists e', Helper_IsFileExist p e = (false, e') /\ framed e e' /\ files (fs e') = files (fs e).
Proof.
  intros Hc Hp Hd Hn. destruct (exists_ok p e Hc (store_files_c_str p Hp) Hd) as [Ha Hf].
  pose proof (frames_exists p e) as Hfr. destruct (Helper_IsFileExist p e) as [b e']. cbn in *.
  rewrite Hn in Ha. rewrite bool_decide_eq_false_2 in Ha by (by intros []). subst b. by exists e'.
Qed.

(** The removals, with their answers. *)
Definition removals : ST Env Z :=
  _ ← remove path; _ ← remove (path +:+ STR_BACKUP); _ ← remove (path +:+ STR_BROKEN);
  _ ← remove (path +:+ STR_LOCK); _ ← remove (path +:+ STR_OBJECT_FLAG);
  RemoveEnhanceDbFileIfNeed path.

Lemma wipes_removals : wipes (store_files path) (store_files path) (fun r => r = E_OK) removals.
Proof.
  assert (Hrem : forall p, p ∈ store_files path -> wipes (store_files path) [p] (fun _ => True) (remove p)).
  { intros p Hp. by apply wipes_remove, store_files_c_str. }
  unfold removals, store_files at 2. cbn [map app].
  do 5 (apply (wipes_bind (store_files path) [_] _ (fun _ => True));
    [apply Hrem; unfold store_files; set_solver|intros; frame_step|intros _ _]).
  unfold RemoveEnhanceDbFileIfNeed.
  apply (wipes_bind _ [_] _ (fun ok => ok = true)); [|intros; frame_step|intros ? ->; cbn [negb]].
  - apply wipes_remove_if_exists; [apply store_files_c_str|]; unfold store_files; set_solver.
  - apply (wipes_remove_suffixes _ (path +:+ ".db") DB_SUFFIX). intros s Hs.
    assert (Hin : (path +:+ ".db") +:+ s ∈ store_files path).
    { unfold store_files. rewrite elem_of_cons, elem_of_app, elem_of_cons. do 3 right.
      apply list_elem_of_fmap. by exists s. }
    split; [by apply store_files_c_str|done].
Qed.

Lemma delete_files_calm e : calm e -> (forall q, q ∈ store_files path -> q ∉ dirs (fs e)) ->
  fst (delete_files path path e) = E_OK /\
  forall q, files (fs (snd (delete_files path path e))) !! q =
    if decide (q ∈ store_files path) then None else files (fs e) !! q.
Proof.
  intros Hc Hd. destruct wipes_removals as [Hfr Hw]. destruct (Hw e Hc Hd) as [Hr Hl].
  pose proof (Hfr e) as Hfe. apply (frames_calm removals) in Hc; [|done]. clear Hfr Hw.
  unfold delete_files, MakeFilePath. revert Hr Hl Hfe Hc. unfold removals.
  do 5 (rewrite (bind_run (remove _)), (bind_run (remove _))).
  rewrite (bind_run (RemoveEnhanceDbFileIfNeed path)).
  match goal with |- context [RemoveEnhanceDbFileIfNeed path ?x] =>
    destruct (RemoveEnhanceDbFileIfNeed path x) as [r e1] end.
  cbn [fst snd]. intros -> Hl Hfe Hc. change (negb (E_OK =? E_OK)) with false. cbn iota.
  assert (Hgo : forall p e', calm e' -> p ∈ store_files path -> framed e e' -> files (fs e') = files (fs e1) ->
    exists e'', Helper_IsFileExist p e' = (false, e'') /\ calm e'' /\ framed e e'' /\ files (fs e'') = files (fs e1)).
  { intros p e' Hc' Hp Hfe' Hf'. destruct (absent_checked p e' Hc' Hp) as (e'' & E & Hfr & Hf'').
    - rewrite (framed_dirs _ _ Hfe'). by apply Hd.
    - by rewrite Hf', Hl, decide_True.
    - exists e''. split; [done|]. split_and!; [|by etrans|congruence].
      change e'' with (snd (false, e'')). rewrite <- E. by apply frames_calm; [apply frames_exists|]. }
  do 4 (match goal with |- context [Helper_IsFileExist ?p ≫= _] =>
    match goal with |- context [(_ ≫= _) ?x] =>
      let e2 := fresh "e" in let E := fresh "E" in
      destruct (Hgo p x) as (e2 & E & ? & ? & ?);
        [done|unfold store_files; set_solver|done|done|rewrite !(st_bind_eq _ _ _ _ _ E); clear E] end end).
  split; [done|]. intros q. cbn. rewrite <- Hl. congruence.
Qed.
End store_files.

Section Helper_delete.
Context `{XmlStore} `{SafeBlockQueue} `{KvDb}.

(** Deleting the files of a store, with the lock around it. *)
Lemma DeletePreferences_files_calm path name e :
  no_nul path = true -> calm e -> (forall q, q ∈ store_files path -> q ∉ dirs (fs e)) ->
  fst (DeletePreferences_files path path name e) = E_OK /\
  forall q, files (fs (snd (DeletePreferences_files path path name e))) !! q =
    if decide (q ∈ store_files path) then None else files (fs e) !! q.
Proof.
  intros Hn Hc Hd. unfold DeletePreferences_files. rewrite c_str_no_nul by done.
  set (l := FileLock_new path). rewrite bind_run.
  assert (Hk : forall q, q ∉ store_files path ->
    files (fs (snd (WriteLock l false e))) !! q = files (fs e) !! q).
  { intros q Hq. apply keeps_Lock. cbn. unfold MakeFilePath. rewrite store_files_c_str with (path := path); [|done|].
    - intros ->. apply Hq. unfold store_files. set_solver.
    - unfold store_files. set_solver. }
  pose proof (frames_WriteLock l false e) as Hfr. apply (frames_calm (WriteLock l false)) in Hc; [|auto with prefs].
  destruct (WriteLock l false e) as [[l' mp] e1]. cbn [fst snd] in *. rewrite bind_run.
  set (rep := if mp then _ else _).
  assert (Hrep : frames rep /\ fs (snd (rep e1)) = fs e1).
  { unfold rep. destruct mp; [|by split; [apply frames_ret|]]. split; [auto with prefs|].
    by match goal with |- context [ReportFault ?p ?x] => destruct (ReportFault_emits p x) as [ev ->] end. }
  destruct Hrep as [Hfrep Hrep]. apply (frames_calm rep) in Hc; [|done].
  assert (Hd2 : forall q, q ∈ store_files path -> q ∉ dirs (fs (snd (rep e1)))).
  { intros q Hq. rewrite Hrep, (framed_dirs _ _ Hfr). by apply Hd. }
  destruct (delete_files_calm path Hn _ Hc Hd2) as [Hr Hl]. rewrite bind_run, bind_run. cbn [mret st_ret fst snd].
  split; [done|]. intros q. rewrite keeps_FileLock_release, Hl, Hrep. case_decide; [done|by apply Hk].
Qed.

Lemma Enh_CloseDb_base e r e' : Enh_CloseDb e = Done (r, e') -> e_base e' = e_base e.
Proof.
  unfold Enh_CloseDb, on_kv, drop_db, run_st, mbind, so_bind, get, mret, so_ret, modify.
  destruct (e_open e); cbn; [|by intros [= _ <-]]. destruct (kv_CloseDb (e_kv e)) as [c s].
  destruct (negb (c =? E_OK)); cbn; [by intros [= _ <-]|]. destruct (kv_destroy s) as [[? ?]| | |]; cbn; [|done..].
  by intros [= _ <-].
Qed.

(** Closing a cached object touches neither the files nor the cache. *)
Definition quiet {A} (m : SO Helper A) : Prop := forall h a h',
  m h = Done (a, h') -> h_env h' = h_env h /\ prefsCache_ h' = prefsCache_ h.

Lemma quiet_run_enhance r e : quiet (run_enhance r e Enh_CloseDb).
Proof.
  intros h a h'. unfold run_enhance, mbind, outcome_bind.
  destruct (Enh_CloseDb _) as [[c e']| | |] eqn:E; [|done..]. apply Enh_CloseDb_base in E.
  intros [= _ <-]. cbn. by rewrite E.
Qed.

Lemma quiet_virtual_CloseDb r : quiet (virtual_CloseDb r).
Proof.
  intros h a h'. unfold virtual_CloseDb. rewrite so_bind_st. cbn [get fst snd].
  destruct (objects h !! r) as [[p|e]|]; [|apply quiet_run_enhance|done]. by intros [= _ <-].
Qed.

Lemma quiet_cast_Close r : quiet (cast_Close r).
Proof.
  intros h a h'. unfold cast_Close. rewrite so_bind_st. cbn [get fst snd].
  destruct (objects h !! r) as [[p|e]|]; [|done..]. by intros [= _ <-].
Qed.

Lemma DeletePreferencesCache_quiet path h name code h1 :
  DeletePreferencesCache path h = Done ((name, code), h1) ->
  h_env h1 = h_env h /\ prefsCache_ h1 = if code =? E_OK then delete path (prefsCache_ h) else prefsCache_ h.
Proof.
  unfold DeletePreferencesCache. rewrite so_bind_st. cbn [get fst snd].
  destruct (prefsCache_ h !! path) as [[[r|] b]|] eqn:Ec.
  - set (cl := if b then _ else _). assert (Hq : quiet cl) by (destruct b; [apply quiet_virtual_CloseDb|apply quiet_cast_Close]).
    unfold mbind, so_bind. destruct (cl h) as [[c h2]| | |] eqn:E; [|done..]. apply Hq in E as [He Hcache].
    cbn. destruct (c =? E_OK) eqn:Ecode; cbn; intros [= _ <- <-]; rewrite ?Ecode; cbn; by rewrite ?He, ?Hcache.
  - by intros [= _ <- <-].
  - intros [= _ <- <-]. cbn. by rewrite delete_id.
Qed.

(** C9: Deleting a store removes it completely: for an accepted path whose
    cached object closes, when no system call fails and no directory bears one
    of its names, [DeletePreferences] answers [E_OK]; the file, its backup,
    the broken copy, the lock file, the object flag and every database file
    are gone, no other file is touched, and the cache has no entry for it. *)
Theorem DeletePreferences_complete (path name : string) (h h1 : Helper)
    (Hreal : refused (GetRealPath path) = false) (Hnul : no_nul path = true)
    (Hclose : DeletePreferencesCache path h = Done ((name, E_OK), h1))
    (Hcalm : calm (h_env h)) (Hdirs : forall q, q ∈ store_files path -> q ∉ dirs (fs (h_env h))) :
  exists h', DeletePreferences path h = Done (E_OK, h') /\
  (forall q, files (fs (h_env h')) !! q =
     if decide (q ∈ store_files path) then None else files (fs (h_env h)) !! q) /\
  prefsCache_ h' = delete path (prefsCache_ h).
Proof.
  destruct (GetRealPath_cases path) as [(E & _)|(_ & _ & E & _)]; [|congruence].
  unfold DeletePreferences. rewrite Hreal, E. cbn [fst snd]. rewrite (so_bind_Done _ _ _ _ _ Hclose).
  change (negb (E_OK =? E_OK)) with false. cbn iota.
  destruct (DeletePreferencesCache_quiet _ _ _ _ _ Hclose) as [He Hcache]. rewrite <- He in Hcalm, Hdirs |- *.
  destruct (DeletePreferences_files_calm path name _ Hnul Hcalm Hdirs) as [Hr Hl].
  unfold run_st, h_on_env. destruct (DeletePreferences_files path path name (h_env h1)) as [r e1].
  cbn in Hr, Hl. subst r. eexists. split; [reflexivity|]. split; [exact Hl|exact Hcache].
Qed.
End Helper_delete.

(** ** The cache *)

Section Helper_cache.
Context `{XmlStore} `{SafeBlockQueue} `{KvDb} (gskvEnabled : bool).

Definition is_enhance (o : Pref) : bool := match o with PXml _ => false | PEnhance _ => true end.

Definition pref_options (o : Pref) : Options :=
  match o with PXml p => options_ (base_ p) | PEnhance e => options_ (e_base e) end.

(** Every entry of the cache holds an object of the class its flag says,
    opened on the path it is filed under. *)
Definition cache_inv (h : Helper) : Prop := forall path entry,
  prefsCache_ h !! path = Some entry ->
  exists r o, entry = (Some r, is_enhance o) /\ objects h !! r = Some o /\ filePath (pref_options o) = path.

(** An object stays what it is. *)
Definition same_object (o o' : Pref) : Prop := is_enhance o' = is_enhance o /\ pref_options o' = pref_options o.

(** The objects stay, and the cache is not touched. *)
Record hstep (h h' : Helper) : Prop := {
  step_objects r o : objects h !! r = Some o -> exists o', objects h' !! r = Some o' /\ same_object o o';
  step_cache : prefsCache_ h' = prefsCache_ h
}.

#[export] Instance hstep_preorder : PreOrder hstep.
Proof.
  split.
  - intros h. split; [|done]. intros r o Ho. by exists o.
  - intros h1 h2 h3 [A1 A2] [B1 B2]. split; [|congruence]. intros r o Ho.
    destruct (A1 r o Ho) as (o2 & Ho2 & S1 & S2). destruct (B1 r o2 Ho2) as (o3 & Ho3 & T1 & T2).
    exists o3. split; [done|]. split; congruence.
Qed.

Definition steps {A} (m : SO Helper A) : Prop := forall h a h', m h = Done (a, h') -> hstep h h'.

Lemma steps_bind {A B} (m : SO Helper A) (k : A -> SO Helper B) :
  steps m -> (forall a, steps (k a)) -> steps (m ≫= k).
Proof.
  intros Hm Hk h b h'. unfold mbind, so_bind. destruct (m h) as [[a h1]| | |] eqn:E; [|done..].
  intros E'. etrans; [by eapply Hm|by eapply Hk].
Qed.

Lemma steps_ret {A} (a : A) : steps (mret a).
Proof. intros h a' h' [= _ <-]. reflexivity. Qed.

Lemma steps_st {A} (m : ST Helper A) : (forall h, hstep h (snd (m h))) -> steps (run_st m).
Proof. intros Hm h a h' [= E]. specialize (Hm h). by rewrite E in Hm. Qed.

Lemma steps_env {A} (m : ST Env A) : steps (run_st (h_on_env m)).
Proof.
  apply steps_st. intros h. unfold h_on_env. destruct (m (h_env h)). cbn. split; [|done].
  intros r o Ho. by exists o.
Qed.

Lemma hstep_update h h' r o o' : objects h !! r = Some o -> same_object o o' ->
  objects h' = <[r := o']> (objects h) -> prefsCache_ h' = prefsCache_ h -> hstep h h'.
Proof.
  intros Ho Hs E Ec. split; [|done]. intros r2 o2 Ho2. rewrite E. destruct (decide (r2 = r)) as [->|Hne].
  - exists o'. rewrite lookup_insert_eq. split; [done|]. congruence.
  - exists o2. by rewrite lookup_insert_ne.
Qed.

Lemma next_ref_fresh (m : gmap positive Pref) : m !! next_ref m = None.
Proof.
  assert (Hle : forall k o, m !! k = Some o -> (k <= map_fold (fun k _ => Pos.max k) 1 m)%positive).
  { revert m. refine (map_fold_weak_ind (fun r m => forall k o, m !! k = Some o -> (k <= r)%positive) _ _ _ _); [done|].
    intros i x m r _ IH k o. rewrite lookup_insert_Some. intros [[-> _]|[_ Hk]]; [lia|].
    specialize (IH k o Hk). lia. }
  destruct (m !! next_ref m) as [o|] eqn:E; [|done]. apply Hle in E. unfold next_ref in E. lia.
Qed.

Lemma hstep_alloc h o : hstep h (snd (alloc o h)).
Proof.
  split; [|done]. intros r o2 Ho2. exists o2. cbn. rewrite lookup_insert_ne; [done|].
  intros <-. by rewrite next_ref_fresh in Ho2.
Qed.

(** The operations of an enhanced object keep its options. *)
Definition keeps_options {A} (m : SO Enhance A) : Prop := forall e a e',
  m e = Done (a, e') -> options_ (e_base e') = options_ (e_base e).

Lemma keeps_options_bind {A B} (m : SO Enhance A) (k : A -> SO Enhance B) :
  keeps_options m -> (forall a, keeps_options (k a)) -> keeps_options (m ≫= k).
Proof.
  intros Hm Hk e b e'. unfold mbind, so_bind. destruct (m e) as [[a e1]| | |] eqn:E; [|done..].
  intros E'. rewrite (Hk _ _ _ _ E'). by eapply Hm.
Qed.

Lemma keeps_options_st {A} (m : ST Enhance A) :
  (forall e, options_ (e_base (snd (m e))) = options_ (e_base e)) -> keeps_options (run_st m).
Proof. intros Hm e a e' [= E]. specialize (Hm e). by rewrite E in Hm. Qed.

Lemma keeps_options_kv {A} (m : ST kv A) : keeps_options (run_st (on_kv m)).
Proof. apply keeps_options_st. intros e. unfold on_kv. by destruct (m (e_kv e)). Qed.

Lemma keeps_options_drop : keeps_options drop_db.
Proof. intros e a e'. unfold drop_db. destruct (kv_destroy (e_kv e)) as [[? ?]| | |]; by intros [= _ <-]. Qed.

Lemma keeps_options_Init : keeps_options Enh_Init.
Proof.
  unfold Enh_Init. repeat first
    [ apply keeps_options_bind; [|intros] | apply keeps_options_kv | apply keeps_options_drop
    | by apply keeps_options_st | case_match | by intros ? ? ? [= _ <-] ].
Qed.

Lemma keeps_options_CloseDb : keeps_options Enh_CloseDb.
Proof. intros e a e' E. by rewrite (Enh_CloseDb_base _ _ _ E). Qed.

Lemma run_enhance_step {A} (m : SO Enhance A) r e h a h' :
  keeps_options m -> objects h !! r = Some (PEnhance e) -> run_enhance r e m h = Done (a, h') ->
  hstep h h'.
Proof.
  intros Hm Ho. unfold run_enhance, mbind, outcome_bind.
  destruct (m _) as [[c e']| | |] eqn:E; [|done..]. apply Hm in E. intros [= _ <-].
  eapply hstep_update; [exact Ho| |reflexivity|done]. by split.
Qed.

(** What opening gives: an object of the right class, on the path. *)
Definition opened (options : Options) (code : Z) (flag : bool) (pref : option positive) (h h' : Helper) : Prop :=
  hstep h h' /\
  (code = E_OK -> exists r o, pref = Some r /\ objects h !! r = None /\ objects h' !! r = Some o /\
    is_enhance o = flag /\ pref_options o = options).

Lemma Init_options p : options_ (base_ (snd (Init p))) = options_ (base_ p).
Proof.
  unfold Init, StartLoadFromDisk, on_base, post, mbind, st_bind, modify, gets, mret, st_ret.
  destruct p. cbn. by destruct (taskAccepted _).
Qed.

Lemma open_xml_spec options h code flag pref h' :
  open_xml options h = Done ((code, flag, pref), h') -> opened options code flag pref h h'.
Proof.
  unfold open_xml. rewrite so_bind_st, so_bind_st, so_bind_st. cbn [get fst snd alloc]. intros [= <- <- <- <-].
  set (r := next_ref _). set (h1 := h_set_objects _ h). set (p := PreferencesImpl_new _ _).
  assert (Hst : exists p', options_ (base_ p') = options /\ exists e,
    snd (run_xml r p Init h1) = h_set_env e (h_set_objects (<[r := PXml p']> (objects h1)) h1)).
  { unfold run_xml. set (p0 := upd_base _ p).
    assert (Hp : options_ (base_ (snd (Init p0))) = options).
    { by rewrite Init_options. }
    destruct (Init p0) as [c p']. cbn in *. exists p'. split; [done|]. by eexists. }
  destruct Hst as (p' & Hp' & e & ->). split.
  - etrans; [apply (hstep_alloc h (PXml p))|]. eapply (hstep_update h1 _ r); [by apply lookup_insert_eq| |reflexivity|done].
    by split.
  - intros _. exists r, (PXml p'). split_and!; [done|apply next_ref_fresh| |done|done]. cbn. apply lookup_insert_eq.
Qed.

Lemma open_enhance_spec options h code flag pref h' :
  open_enhance options h = Done ((code, flag, pref), h') -> opened options code flag pref h h'.
Proof.
  unfold open_enhance. rewrite so_bind_st, so_bind_st. cbn [get fst snd alloc].
  set (r := next_ref _). set (h1 := h_set_objects _ h). set (p := Enhance_new _ _ _).
  assert (H1r : objects h1 !! r = Some (PEnhance p)) by apply lookup_insert_eq.
  unfold mbind, so_bind. destruct (run_enhance r p Enh_Init h1) as [[c h2]| | |] eqn:E; [|done..].
  intros [= <- <- <- <-].
  assert (Hst : hstep h1 h2) by (eapply run_enhance_step; [apply keeps_options_Init|exact H1r|exact E]).
  split; [etrans; [apply (hstep_alloc h (PEnhance p))|exact Hst]|]. intros _.
  destruct (step_objects _ _ Hst _ _ H1r) as (o' & Ho' & Hk & Hp). exists r, o'.
  by split_and!; [|apply next_ref_fresh|..].
Qed.

Lemma GetPreferencesInner_spec options h code flag pref h' :
  GetPreferencesInner gskvEnabled options h = Done ((code, flag, pref), h') ->
  opened options code flag pref h h'.
Proof.
  assert (Hex : forall p h, snd (h_on_env (Helper_IsFileExist p) h) = h_set_env (snd (Helper_IsFileExist p (h_env h))) h).
  { intros p h0. unfold h_on_env. by destruct (Helper_IsFileExist p (h_env h0)). }
  assert (Hlift : forall e, opened options code flag pref (h_set_env e h) h' -> opened options code flag pref h h').
  { intros e [Hs Ho]. split; [|done]. etrans; [|exact Hs]. split; [|done]. intros r o Hr. by exists o. }
  assert (Hns : forall e, Done ((E_NOT_SUPPORTED, false, None : option positive), h_set_env e h) = Done ((code, flag, pref), h') ->
    opened options code flag pref h h').
  { intros e [= <- <- <- <-]. split; [|done]. split; [|done]. intros r o Hr. by exists o. }
  assert (Hx : forall e, open_xml options (h_set_env e h) = Done ((code, flag, pref), h') -> opened options code flag pref h h').
  { intros e E. eapply Hlift, open_xml_spec, E. }
  assert (Hen : forall e, open_enhance options (h_set_env e h) = Done ((code, flag, pref), h') -> opened options code flag pref h h').
  { intros e E. eapply Hlift, open_enhance_spec, E. }
  unfold GetPreferencesInner. case_match; [|case_match]; rewrite so_bind_st, Hex; repeat (case_match; eauto).
Qed.

Lemma cache_inv_step h h' : hstep h h' -> cache_inv h -> cache_inv h'.
Proof.
  intros [Ho Hc] Hinv path entry. rewrite Hc. intros (r & o & -> & Hr & Hp)%Hinv.
  destruct (Ho r o Hr) as (o' & Ho' & Hk & Hpp). exists r, o'. split_and!; [by rewrite Hk|done|congruence].
Qed.

Lemma cache_inv_delete path h : cache_inv h -> cache_inv (h_set_cache (delete path (prefsCache_ h)) h).
Proof. intros Hinv p entry. cbn. intros [_ Hp]%lookup_delete_Some. by apply Hinv. Qed.

(** The entry that a new object gets. *)
Lemma open_new_spec options path h res h' : prefsCache_ h !! path = None ->
  open_new gskvEnabled options path h = Done (res, h') ->
  exists h1, hstep h h1 /\
  (res.2 <> E_OK /\ res.1 = None /\ h' = h1 \/
   exists r o, res = (Some r, E_OK) /\ objects h !! r = None /\ objects h1 !! r = Some o /\
     filePath (pref_options o) = path /\ h' = h_set_cache (<[path := (Some r, is_enhance o)]> (prefsCache_ h)) h1).
Proof.
  intros Hnone. unfold open_new. rewrite so_bind_st, so_bind_st. cbn [get fst snd].
  set (hA := snd (h_on_env _ h)). assert (HA : hstep h hA).
  { unfold hA, h_on_env. destruct (Access _ _). cbn. split; [|done]. intros r o Hr. by exists o. }
  set (rep := if negb _ then _ else _).
  assert (Hrep : exists hB, rep hA = Done (tt, hB) /\ hstep hA hB).
  { unfold rep. destruct (negb _); [|eexists; split; [reflexivity|reflexivity]]. rewrite so_bind_st. cbn [modify fst snd].
    set (hB := h_set_reported true hA). assert (HB : hstep hA hB) by (split; [intros r o Hr; by exists o|done]).
    destruct (isReportFault_ hA); [by eexists|]. unfold run_st, h_on_env.
    destruct (ReportFault _ _) as [[] e]. eexists. split; [reflexivity|]. etrans; [exact HB|].
    split; [|done]. intros r o Hr. by exists o. }
  destruct Hrep as (hB & EB & HB). rewrite (so_bind_Done _ _ _ _ _ EB). clear EB.
  unfold mbind at 1, so_bind at 1. destruct (GetPreferencesInner _ _ hB) as [[[[code flag] pref] hC]| | |] eqn:EI; [|done..].
  apply GetPreferencesInner_spec in EI as [HC Hok].
  assert (Hall : hstep h hC) by (etrans; [exact HA|etrans; [exact HB|exact HC]]).
  destruct (Z.eqb_spec code E_OK) as [->|Hne]; cbn [negb].
  - destruct (Hok eq_refl) as (r & o & -> & Hf & Ho & Hk & Hp). rewrite so_bind_st. cbn [modify fst snd].
    rewrite (step_cache _ _ Hall), Hnone. intros [= <- <-]. exists hC. split; [done|]. right. exists r, o.
    split_and!; [done| |done|by rewrite Hp|by rewrite Hk].
    destruct (objects h !! r) as [o0|] eqn:E0; [|done].
    destruct (step_objects h hB) with (r := r) (o := o0) as (o1 & Ho1 & _); [etrans; [exact HA|exact HB]|done|congruence].
  - intros [= <- <-]. exists hC. split; [done|]. by left.
Qed.

Lemma GetPreferences_real options h : refused (GetRealPath (filePath options)) = false ->
  GetPreferences gskvEnabled options h =
  match prefsCache_ h !! filePath options with
  | Some (Some pre, _) => Done ((Some pre, E_OK), h)
  | _ => open_new gskvEnabled options (filePath options) (h_set_cache (delete (filePath options) (prefsCache_ h)) h)
  end.
Proof.
  intros Hr. destruct (GetRealPath_cases (filePath options)) as [(E & _)|(_ & _ & E & _)]; [|congruence].
  unfold GetPreferences. rewrite Hr, E. cbn [fst snd]. rewrite so_bind_st. cbn [get fst snd].
  destruct (prefsCache_ h !! filePath options) as [[[r|] b]|] eqn:Ec; [done|by rewrite so_bind_st|].
  rewrite delete_id by done. by destruct h.
Qed.

Lemma GetPreferences_refused options h : refused (GetRealPath (filePath options)) = true ->
  GetPreferences gskvEnabled options h = Done ((None, (GetRealPath (filePath options)).2), h).
Proof. intros Hr. unfold GetPreferences. by rewrite Hr. Qed.

Lemma cache_inv_get options h res h' : cache_inv h ->
  GetPreferences gskvEnabled options h = Done (res, h') -> cache_inv h'.
Proof.
  intros Hinv. destruct (refused (GetRealPath (filePath options))) eqn:Hr.
  { rewrite GetPreferences_refused by done. by intros [= _ <-]. }
  rewrite GetPreferences_real by done. set (h0 := h_set_cache _ h).
  assert (Hinv0 : cache_inv h0) by (by apply cache_inv_delete).
  assert (Hgo : open_new gskvEnabled options (filePath options) h0 = Done (res, h') -> cache_inv h').
  { intros E. apply open_new_spec in E as (h1 & Hs & E); [|apply lookup_delete_eq].
    destruct E as [(_ & _ & ->)|(r & o & -> & Hf & Ho & Hp & ->)]; [by eapply cache_inv_step|].
    pose proof (cache_inv_step _ _ Hs Hinv0) as Hinv1. intros path entry. cbn.
    rewrite lookup_insert_Some. intros [[<- <-]|[_ Hl]]; [by exists r, o|].
    apply Hinv1. by rewrite (step_cache _ _ Hs). }
  destruct (prefsCache_ h !! _) as [[[r|] b]|]; [by intros [= _ <-]|exact Hgo|exact Hgo].
Qed.

(** Closing the object of an entry. *)
Lemma hstep_close (b : bool) r h c h' :
  (if b then virtual_CloseDb r else cast_Close r) h = Done (c, h') -> hstep h h'.
Proof.
  destruct b; unfold virtual_CloseDb, cast_Close; rewrite so_bind_st; cbn [get fst snd];
    destruct (objects h !! r) as [[p|e]|] eqn:Er; try done.
  - intros [= <- <-]. eapply hstep_update; [exact Er| |reflexivity|done]. by split.
  - apply run_enhance_step; [apply keeps_options_CloseDb|done].
  - intros [= <- <-]. eapply hstep_update; [exact Er| |reflexivity|done]. by split.
Qed.

Lemma cast_CloseDb_virtual r h c h' : cast_CloseDb r h = Done (c, h') -> virtual_CloseDb r h = Done (c, h').
Proof.
  unfold cast_CloseDb, virtual_CloseDb. rewrite !so_bind_st. cbn [get fst snd].
  by destruct (objects h !! r) as [[p|e]|].
Qed.

Lemma cache_inv_DeletePreferencesCache path h res h' : cache_inv h ->
  DeletePreferencesCache path h = Done (res, h') -> cache_inv h'.
Proof.
  intros Hinv. unfold DeletePreferencesCache. rewrite so_bind_st. cbn [get fst snd].
  destruct (prefsCache_ h !! path) as [[[r|] b]|] eqn:Ec; [| |by intros [= _ <-]].
  2: { intros [= _ <-]. by apply cache_inv_delete. }
  unfold mbind, so_bind. set (cl := if b then _ else _). destruct (cl h) as [[c h2]| | |] eqn:E; [|done..].
  apply hstep_close in E. pose proof (cache_inv_step _ _ E Hinv) as Hinv2. cbn.
  destruct (c =? E_OK); intros [= _ <-]; [by apply cache_inv_delete|done].
Qed.

Lemma cache_inv_env e h : cache_inv h -> cache_inv (h_set_env e h).
Proof. done. Qed.

Lemma cache_inv_del path h c h' : cache_inv h -> DeletePreferences path h = Done (c, h') -> cache_inv h'.
Proof.
  intros Hinv. unfold DeletePreferences. destruct (refused _); [by intros [= _ <-]|].
  unfold mbind, so_bind. destruct (DeletePreferencesCache _ h) as [[[name code] h1]| | |] eqn:E; [|done..].
  apply cache_inv_DeletePreferencesCache in E; [|done]. destruct (negb _); [by intros [= _ <-]|].
  unfold run_st, h_on_env. destruct (DeletePreferences_files _ _ _ _) as [r e1]. intros [= _ <-]. by apply cache_inv_env.
Qed.

Lemma cache_inv_rem path h c h' : cache_inv h -> RemovePreferencesFromCache path h = Done (c, h') -> cache_inv h'.
Proof.
  intros Hinv. unfold RemovePreferencesFromCache. destruct (refused _); [by intros [= _ <-]|].
  rewrite so_bind_st. cbn [get fst snd].
  destruct (prefsCache_ h !! _) as [[[r|] b]|] eqn:Ec; [| |by intros [= _ <-]].
  2: { intros [= _ <-]. by apply cache_inv_delete. }
  unfold mbind at 1, so_bind at 1. set (cl := if b then _ else _).
  assert (Hst : forall c1 h1, cl h = Done (c1, h1) -> hstep h h1).
  { unfold cl. destruct b; intros c1 h1.
    - intros E%cast_CloseDb_virtual. by apply (hstep_close true) in E.
    - unfold mbind, so_bind. destruct (cast_Close r h) as [[c0 h0]| | |] eqn:E; [|done..].
      apply (hstep_close false) in E. by intros [= _ <-]. }
  destruct (cl h) as [[c1 h1]| | |] eqn:E; [|done..].
  pose proof (cache_inv_step _ _ (Hst _ _ eq_refl) Hinv) as Hinv1.
  destruct (negb _); [by intros [= _ <-]|]. rewrite so_bind_st. intros [= _ <-]. by apply cache_inv_delete.
Qed.

(** ** Runs of the factory *)

Inductive helper_op :=
  | HGet (options : Options)
  | HDelete (path : string)
  | HRemove (path : string).

Definition helper_exec (o : helper_op) : SO Helper (option positive * Z) :=
  match o with
  | HGet options => GetPreferences gskvEnabled options
  | HDelete path => c ← DeletePreferences path; mret (None, c)
  | HRemove path => c ← RemovePreferencesFromCache path; mret (None, c)
  end.

Fixpoint helper_run (os : list helper_op) : SO Helper (list (option positive * Z)) :=
  match os with
  | [] => mret []
  | o :: os' => r ← helper_exec o; rs ← helper_run os'; mret (r :: rs)
  end.

Lemma helper_exec_inv o h res h' : cache_inv h -> helper_exec o h = Done (res, h') -> cache_inv h'.
Proof.
  intros Hinv. destruct o as [options|path|path]; cbn [helper_exec]; [by apply cache_inv_get|..];
    unfold mbind, so_bind.
  - destruct (DeletePreferences path h) as [[c h1]| | |] eqn:E; [|done..]. intros [= _ <-]. by eapply cache_inv_del.
  - destruct (RemovePreferencesFromCache path h) as [[c h1]| | |] eqn:E; [|done..]. intros [= _ <-]. by eapply cache_inv_rem.
Qed.

Lemma helper_run_inv os h res h' : cache_inv h -> helper_run os h = Done (res, h') -> cache_inv h'.
Proof.
  revert h res. induction os as [|o os IH]; intros h res Hinv; cbn [helper_run]; [by intros [= _ <-]|].
  unfold mbind, so_bind. destruct (helper_exec o h) as [[r h1]| | |] eqn:E; [|done..].
  apply helper_exec_inv in E; [|done]. destruct (helper_run os h1) as [[rs h2]| | |] eqn:E2; [|done..].
  intros [= _ <-]. by eapply IH.
Qed.

(** Every cached object is over an XML file. *)
Definition xml_only (h : Helper) : Prop := forall path entry, prefsCache_ h !! path = Some entry -> entry.2 = false.

Lemma cast_Close_done r h path : cache_inv h -> prefsCache_ h !! path = Some (Some r, false) ->
  exists h', cast_Close r h = Done (E_OK, h').
Proof.
  intros Hinv (r' & o & E & Ho & _)%Hinv. injection E as -> Ek. unfold cast_Close. rewrite so_bind_st.
  cbn [get fst snd]. rewrite Ho. destruct o as [p|e]; [|done]. by eexists.
Qed.

Lemma DeletePreferencesCache_done path h : cache_inv h -> xml_only h ->
  exists name h', DeletePreferencesCache path h = Done ((name, E_OK), h').
Proof.
  intros Hinv Hx. unfold DeletePreferencesCache. rewrite so_bind_st. cbn [get fst snd].
  destruct (prefsCache_ h !! path) as [[[r|] b]|] eqn:Ec; [|by eexists _, _..].
  pose proof (Hx _ _ Ec) as Eb. cbn in Eb. subst b. destruct (cast_Close_done r h path Hinv Ec) as [h1 E1].
  unfold mbind, so_bind. rewrite E1. by eexists _, _.
Qed.
End Helper_cache.

(** ** Properties of the factory *)

Section Helper_properties.
Context `{XmlStore} `{SafeBlockQueue} `{KvDb} (gskvEnabled : bool).

(** The cache is sound in every reachable state: after any sequence of
    opening, deleting and removing, every entry holds an object that exists,
    is of the class that the entry's flag names (so the static casts of the
    closing paths are right) and was opened on the entry's path; in
    particular no two paths share an object. *)
Theorem helper_cache_sound (os : list helper_op) (h h' : Helper) (rs : list (option positive * Z))
    (Hempty : prefsCache_ h = ∅) (Hrun : helper_run gskvEnabled os h = Done (rs, h')) :
  (forall path entry, prefsCache_ h' !! path = Some entry ->
    exists r o, entry = (Some r, is_enhance o) /\ objects h' !! r = Some o /\ filePath (pref_options o) = path) /\
  (forall path path' r b b', prefsCache_ h' !! path = Some (Some r, b) ->
    prefsCache_ h' !! path' = Some (Some r, b') -> path = path').
Proof.
  assert (Hinv : cache_inv h').
  { eapply helper_run_inv; [|exact Hrun]. intros path entry. by rewrite Hempty, lookup_empty. }
  split; [exact Hinv|]. intros path path' r b b' (r1 & o1 & E1 & Ho1 & <-)%Hinv (r2 & o2 & E2 & Ho2 & <-)%Hinv.
  congruence.
Qed.

(** One path has one object: when opening a path succeeds, every later
    opening of that path, whatever its other options say, returns the same
    object, and changes nothing. *)
Theorem GetPreferences_same_object (options options' : Options) (h h' : Helper) (r : positive)
    (Hget : GetPreferences gskvEnabled options h = Done ((Some r, E_OK), h'))
    (Hpath : filePath options' = filePath options) :
  GetPreferences gskvEnabled options' h' = Done ((Some r, E_OK), h').
Proof.
  destruct (refused (GetRealPath (filePath options))) eqn:Hr.
  { rewrite GetPreferences_refused in Hget by done. done. }
  rewrite GetPreferences_real by (by rewrite Hpath). rewrite Hpath.
  rewrite GetPreferences_real in Hget by done. set (h0 := h_set_cache _ h) in Hget.
  assert (Hgo : open_new gskvEnabled options (filePath options) h0 = Done ((Some r, E_OK), h') ->
    exists b, prefsCache_ h' !! filePath options = Some (Some r, b)).
  { intros (h1 & _ & [(_ & E & _)|(r' & o & E & _ & _ & _ & ->)])%open_new_spec; [done| |apply lookup_delete_eq].
    injection E as ->. exists (is_enhance o). cbn. apply lookup_insert_eq. }
  destruct (prefsCache_ h !! filePath options) as [[[r0|] b]|] eqn:Ec.
  - injection Hget as -> ->. by rewrite Ec.
  - destruct (Hgo Hget) as [b' ->]. done.
  - destruct (Hgo Hget) as [b' ->]. done.
Qed.

(** The other format holds the store already, or the format is not there. *)
Definition wrong_format (options : Options) (f : FileSystem) : Prop :=
  if isEnhance options
  then path_exists f (filePath options) = true \/ gskvEnabled = false
  else path_exists f (filePath options +:+ ".db") = true.

Lemma wrong_format_refused options h :
  IsInTrustList (bundleName options) = false -> no_nul (filePath options) = true -> calm (h_env h) ->
  wrong_format options (fs (h_env h)) ->
  GetPreferencesInner gskvEnabled options h =
    Done ((E_NOT_SUPPORTED, false, None), snd (h_on_env (Helper_IsFileExist
      (if isEnhance options then filePath options else filePath options +:+ ".db")) h)).
Proof.
  intros Ht Hn Hc Hw. unfold GetPreferencesInner, wrong_format in *. rewrite Ht.
  assert (Hex : forall p, no_nul p = true ->
    fst (h_on_env (Helper_IsFileExist p) h) = path_exists (fs (h_env h)) p).
  { intros p Hp. unfold h_on_env, Helper_IsFileExist. unfold mbind, st_bind, mret, st_ret.
    destruct (stat_ok p (h_env h) (calm_next _ Hc)) as [Hs _]. rewrite c_str_no_nul in Hs by done.
    destruct (stat p (h_env h)) as [c e]. cbn [fst] in *. rewrite Hs.
    by destruct (path_exists (fs (h_env h)) p). }
  destruct (isEnhance options); cbn [negb]; rewrite so_bind_st, Hex by (rewrite ?no_nul_app, ?Hn; cbn [andb]; done).
  - destruct (path_exists _ _); [done|]. destruct Hw as [?|Hg]; [done|]. cbn. by rewrite Hg.
  - by rewrite Hw.
Qed.

(** The two storage formats exclude each other: for a bundle outside the
    trust list and a path that is not open yet, asking for the XML format
    while the database file exists, or for the database while the XML file
    exists (or in a build without it), answers [E_NOT_SUPPORTED] and no
    object; no object is created, nothing is cached and no file changes. *)
Theorem storage_exclusive (options : Options) (h : Helper)
    (Hreal : refused (GetRealPath (filePath options)) = false) (Hnul : no_nul (filePath options) = true)
    (Hnew : prefsCache_ h !! filePath options = None) (Hcalm : calm (h_env h))
    (Htrust : IsInTrustList (bundleName options) = false)
    (Hwrong : wrong_format options (fs (h_env h))) :
  exists h', GetPreferences gskvEnabled options h = Done ((None, E_NOT_SUPPORTED), h') /\
  objects h' = objects h /\ prefsCache_ h' = prefsCache_ h /\ files (fs (h_env h')) = files (fs (h_env h)).
Proof.
  rewrite GetPreferences_real, Hnew by done. set (h0 := h_set_cache _ h).
  assert (Hc0 : prefsCache_ h0 = prefsCache_ h) by (by apply delete_id).
  unfold open_new. replace (mkOptions _ _ _ _) with options by (by destruct options).
  rewrite so_bind_st, so_bind_st. cbn [get fst snd].
  set (acc := Access _). set (hA := snd (h_on_env acc h0)).
  assert (HA : framed (h_env h) (h_env hA) /\ files (fs (h_env hA)) = files (fs (h_env h)) /\
    objects hA = objects h /\ prefsCache_ hA = prefsCache_ h).
  { pose proof (frames_Access (c_str (parent_dir (filePath options))) (h_env h)) as Hf.
    pose proof (on_path_files (c_str (c_str (parent_dir (filePath options)))) (h_env h)) as Hfi.
    unfold hA, h_on_env, acc. change (h_env h0) with (h_env h). unfold Access in *. destruct (on_path _ _). cbn in *.
    by split_and!. }
  set (rep := if negb _ then _ else _).
  assert (Hrep : exists hB, rep hA = Done (tt, hB) /\ fs (h_env hB) = fs (h_env hA) /\
    objects hB = objects hA /\ prefsCache_ hB = prefsCache_ hA).
  { unfold rep. destruct (negb _); [|by eexists]. rewrite so_bind_st. cbn [modify fst snd].
    destruct (isReportFault_ hA); [by eexists|]. unfold run_st, h_on_env.
    match goal with |- context [ReportFault ?p ?e] => destruct (ReportFault_emits p e) as [ev ->] end. by eexists. }
  destruct Hrep as (hB & EB & Hfs & HoB & HcB). destruct HA as (Hfr & Hfi & HoA & HcA).
  rewrite (so_bind_Done _ _ _ _ _ EB).
  assert (HcalmB : calm (h_env hB)).
  { intros k n Hk. rewrite Hfs in *. destruct Hfr as [_ -> _ Ht]. apply Hcalm. lia. }
  assert (HwB : wrong_format options (fs (h_env hB))).
  { unfold wrong_format, path_exists in *. by rewrite Hfs, Hfi, (framed_dirs _ _ Hfr). }
  rewrite (so_bind_Done _ _ _ _ _ (wrong_format_refused options hB Htrust Hnul HcalmB HwB)). cbn [negb].
  change (negb (E_NOT_SUPPORTED =? E_OK)) with true. cbn iota. eexists. split; [reflexivity|].
  set (q := if isEnhance options then _ else _). unfold h_on_env.
  assert (Hq : files (fs (snd (Helper_IsFileExist q (h_env hB)))) = files (fs (h_env hB))).
  { unfold Helper_IsFileExist. rewrite bind_run. apply on_path_files. }
  destruct (Helper_IsFileExist q (h_env hB)) as [b e]. cbn in *. rewrite Hq, Hfs. split_and!; congruence.
Qed.
End Helper_properties.

(** ** Concrete runs *)

Definition w_helper (text : string) : Helper :=
  mkHelper (w_env text (fun _ => SysOk)) ∅ ∅ false (mem_db None (mkMem None 0 false)).

(** The state after opening a store. *)
Definition w_opened : Helper :=
  h_set_cache {["/data/p" := (Some 2%positive, false)]}
    (h_set_env (set_fs (mkFileSystem {["/data/p" := ""]} {["/data"]} ENOENT 2 (fun _ => SysOk) None)
       (h_env (w_helper "")))
       (h_set_objects {[2%positive := PXml (snd (Init (PreferencesImpl_new w_options
          (set_fs (mkFileSystem {["/data/p" := ""]} {["/data"]} ENOENT 2 (fun _ => SysOk) None)
            (h_env (w_helper "")))))) ]} (w_helper ""))).

Lemma w_open : GetPreferences true w_options (w_helper "") = Done ((Some 2%positive, E_OK), w_opened).
Proof. reflexivity. Qed.

Example helper_cache_sound_witness :
  exists r o, (Some 2%positive, false) = (Some r, is_enhance o) /\ objects w_opened !! r = Some o /\
    filePath (pref_options o) = "/data/p".
Proof.
  apply (helper_cache_sound true [HGet w_options] (w_helper "") w_opened [(Some 2%positive, E_OK)]); [done| |done].
  cbn [helper_run helper_exec]. by rewrite (so_bind_Done _ _ _ _ _ w_open).
Defined.

(** The second opening asks for the database. *)
Example GetPreferences_same_object_witness :
  GetPreferences true (mkOptions "/data/p" "other" "" true) w_opened = Done ((Some 2%positive, E_OK), w_opened).
Proof. apply (GetPreferences_same_object true w_options _ (w_helper "")); [exact w_open|done]. Defined.

Lemma w_no_dirs q : q ∈ store_files "/data/p" -> q ∉ dirs (fs (h_env w_opened)).
Proof.
  intros Hq Hd. cbn in Hd. apply elem_of_singleton in Hd as ->.
  assert (Hno : bool_decide ("/data" ∈ store_files "/data/p") = false) by reflexivity.
  by apply bool_decide_eq_false in Hno.
Qed.

Example DeletePreferences_complete_witness :
  exists h', DeletePreferences "/data/p" w_opened = Done (E_OK, h') /\
  (forall q, files (fs (h_env h')) !! q =
     if decide (q ∈ store_files "/data/p") then None else files (fs (h_env w_opened)) !! q) /\
  prefsCache_ h' = delete "/data/p" (prefsCache_ w_opened).
Proof.
  eapply (DeletePreferences_complete "/data/p"); [reflexivity|reflexivity|reflexivity|done|exact w_no_dirs].
Defined.

Example storage_exclusive_witness :
  exists h', GetPreferences true (mkOptions "/data/p" "bundle" "" true) (w_helper "") =
    Done ((None, E_NOT_SUPPORTED), h') /\
  objects h' = ∅ /\ prefsCache_ h' = ∅ /\ files (fs (h_env h')) = {["/data/p" := ""]}.
Proof.
  apply (storage_exclusive true (mkOptions "/data/p" "bundle" "" true) (w_helper "")); try reflexivity; [done|].
  by left.
Defined.
