(* ===== verification/Handle.v ===== *)
(** * Calls on an object of the factory

    What the interfaces for other languages share: the context of an
    application, the virtual calls on an object of the factory, which dispatch
    on its class, and the ownership of observers.  For an object over the XML
    file that has been loaded, a call does what the map of [Impl] does. *)

From S2P Require Import Prelude Errno Value Utils ConcurrentMap Env FileLock Store DbAdapter Base Impl Enhance Helper.

(** The application context: where preferences are kept, where those of a data
    group are, with an error code, and the name of the bundle. *)
Record AppContext := mkAppContext {
  ctx_GetPreferencesDir : string;
  ctx_GetSystemPreferencesDir : string -> Z * string;
  ctx_GetBundleName : string
}.

(** ** Orders of maps *)

(** The order of a [std::unordered_map]. *)
Class Iteration := {
  iterate : gmap string PreferencesValue -> list (string * PreferencesValue);
  iterate_perm m : iterate m ≡ₚ map_to_list m
}.

#[export] Instance ref_iteration : Iteration := {| iterate := map_to_list; iterate_perm m := reflexivity _ |}.

(** The iteration order of a [std::map] with string keys. *)
Definition in_order (m : gmap string PreferencesValue) : list (string * PreferencesValue) :=
  iteration (fun a b : string => Is_true (String.leb a b)) m.

Section handle.
Context `{XmlStore} `{SafeBlockQueue} `{KvDb}.
Context (RSIZE_MAX : Z).

(** A virtual call on an object. *)
Definition virtual {A} (r : positive) (xml : ST PreferencesImpl A) (enhance : SO Enhance A) : SO Helper A :=
  h ← run_st get;
  match objects h !! r with
  | Some (PXml p) => run_st (run_xml r p xml)
  | Some (PEnhance e) => run_enhance r e enhance
  | None => run_out Undef
  end.

Definition obj_put (r : positive) (key : string) (value : PreferencesValue) : SO Helper Z :=
  virtual r (Put key value) (Enh_Put RSIZE_MAX key value).
Definition obj_get (r : positive) (key : string) (defValue : PreferencesValue) : SO Helper PreferencesValue :=
  virtual r (Get key defValue) (Enh_Get key defValue).
Definition obj_getvalue (r : positive) (key : string) (defValue : PreferencesValue) : SO Helper (Z * PreferencesValue) :=
  virtual r (GetValue key defValue) (Enh_GetValue key defValue).
Definition obj_haskey (r : positive) (key : string) : SO Helper bool := virtual r (HasKey key) (Enh_HasKey key).
Definition obj_getall (r : positive) : SO Helper (gmap string PreferencesValue) := virtual r GetAll Enh_GetAll.
Definition obj_getalldatas (r : positive) : SO Helper (gmap string PreferencesValue) := virtual r GetAllDatas Enh_GetAllDatas.
Definition obj_delete (r : positive) (key : string) : SO Helper Z := virtual r (Impl.Delete key) (Enh_Delete key).
Definition obj_clear (r : positive) : SO Helper Z := virtual r Impl.Clear Enh_Clear.
Definition obj_flushsync (r : positive) : SO Helper Z := virtual r FlushSync (run_st (e_on_base Base_FlushSync)).

(** A method of the base class. *)
Definition obj_base {A} (r : positive) (m : forall W, Object W -> ST W A) : SO Helper A :=
  virtual r (m PreferencesImpl _) (run_st (e_on_base (m Base _))).

Definition obj_register (r : positive) (o : positive) (mode : RegisterMode) : SO Helper Z :=
  obj_base r (fun W _ => RegisterObserver (Some o) mode).
Definition obj_unregister (r : positive) (o : positive) (mode : RegisterMode) : SO Helper Z :=
  obj_base r (fun W _ => UnRegisterObserver (Some o) mode).
Definition obj_register_data (r : positive) (o : positive) (keys : list string) : SO Helper Z :=
  obj_base r (fun W _ => RegisterDataObserver (Some o) keys).
Definition obj_unregister_data (r : positive) (o : positive) (keys : list string) : SO Helper Z :=
  obj_base r (fun W _ => UnRegisterDataObserver (Some o) keys).

Definition obj_subscribe (r : positive) (o : positive) (mode : RegisterMode) (keys : list string) : SO Helper Z :=
  obj_base r (fun W _ => Subscribe (Some o) mode keys).
Definition obj_unsubscribe (r : positive) (o : positive) (mode : RegisterMode) (keys : list string) : SO Helper Z :=
  obj_base r (fun W _ => Unsubscribe (Some o) mode keys).

(** ** Owners of observers *)

Definition map_alive (f : gset positive -> gset positive) (h : Helper) : Helper :=
  let e := h_env h in
  let s := svc e in
  let s' := mkServices (f (alive s)) (client s) (stubAlloc s) (taskAccepted s) (callingToken s)
    (nativeProcess s) (currentTime s) (strerror s) in
  h_set_env (mkEnv (fs e) s' (events e) (reportedFaults_ e)) h.

Definition drop_observers (l : list positive) : ST Helper unit := modify (map_alive (fun s => s ∖ list_to_set l)).
Definition own_observer (o : positive) : ST Helper unit := modify (map_alive (fun s => {[o]} ∪ s)).

End handle.

(** ** An object that has been loaded *)

Section opened.
Context `{XmlStore} `{SafeBlockQueue} `{KvDb}.

(** The reference [r] is to the object [p] over the XML file. *)
Record opened (h : Helper) (r : positive) (p : PreferencesImpl) : Prop := {
  op_object : objects h !! r = Some (PXml p);
  op_settled : settled p
}.

Lemma opened_alive f h r p : opened h r p -> opened (map_alive f h) r p.
Proof. by intros []. Qed.

(** A method that is one of the operations of [Impl]. *)
Lemma method_settled {A} (meth : ST PreferencesImpl A) (wrap : A -> reply) o p :
  exec o = (x ← meth; mret (wrap x)) -> settled p ->
  exists a b', meth p = (a, upd_base b' (cache_step o p)) /\ wrap a = cache_reply o p.
Proof.
  intros He Hs. destruct (exec_settled o p Hs) as (b' & E & _). rewrite He in E.
  unfold mbind, st_bind, mret, st_ret in E. destruct (meth p) as [a p1]. injection E as E1 E2.
  exists a, b'. by rewrite E2.
Qed.

(** A call does what the map does. *)
Lemma virtual_opened {A} (meth : ST PreferencesImpl A) (wrap : A -> reply) o me h r p :
  exec o = (x ← meth; mret (wrap x)) -> opened h r p ->
  exists a h' p', virtual r meth me h = Done (a, h') /\ opened h' r p' /\
    wrap a = (spec o (view p)).1 /\ same_map (view p') (spec o (view p)).2.
Proof.
  intros He [Ho Hs]. set (p0 := upd_base (set_env (h_env h) (base_ p)) p).
  destruct (method_settled meth wrap o p0 He Hs) as (a & b' & E & Hr).
  exists a, (h_set_env (env b') (h_set_objects (<[r := PXml (upd_base b' (cache_step o p0))]> (objects h)) h)),
    (upd_base b' (cache_step o p0)).
  split; [|split; [|split; [exact Hr|]]].
  - unfold virtual. rewrite so_bind_st. cbn [get fst snd]. rewrite Ho. unfold run_st, run_xml. fold p0. by rewrite E.
  - split; [cbn; apply lookup_insert_eq|exact (cache_step_settled o p0 Hs)].
  - exact (cache_step_view o p0).
Qed.

(** Up to values that [==] cannot tell apart. *)
Lemma virtual_same {A} (meth : ST PreferencesImpl A) (wrap : A -> reply) o me h r p m :
  exec o = (x ← meth; mret (wrap x)) -> opened h r p -> same_map (view p) m ->
  exists a h' p', virtual r meth me h = Done (a, h') /\ opened h' r p' /\
    same_reply (wrap a) (spec o m).1 /\ same_map (view p') (spec o m).2.
Proof.
  intros He Ho Hm. destruct (virtual_opened meth wrap o me h r p He Ho) as (a & h' & p' & E & Ho' & Ha & Hv).
  exists a, h', p'. destruct (spec_proper o _ _ Hm) as [Hr Hs]. rewrite Ha. split_and!; [done..|by etrans].
Qed.

(** A flush of an object that has been loaded leaves what it shows. *)
Lemma FlushSync_settled p : settled p -> exists r p', FlushSync p = (r, p') /\ settled p' /\ view p' = view p /\ options_ (base_ p') = options_ (base_ p).
Proof.
  intros Hs. unfold FlushSync, pop_and_write, mbind, st_bind, get, modify, mret, st_ret.
  destruct (IsClose_quiet "FlushSync" p) as (b & e & -> & _). destruct (PushNoWait _ 1) as [[] q]; [|by eexists _, _].
  rewrite PreLoad_settled by done. cbn [negb]. destruct (PopNotWait _) as [[v|] q']; [|by eexists _, _].
  destruct (v =? 1); [|by eexists _, _].
  destruct (WriteToDiskFile_cases (upd_queue q' (upd_queue q (with_env e p)))) as (r & p' & E & Ht & _).
  exists r, p'. split; [exact E|]. pose proof (taken_view _ _ Ht) as Hv.
  destruct Ht as (_ & _ & _ & _ & Ho & Hl & Hr). destruct Hs as [Hsl Hsr]. split; [split; [by rewrite Hl|by apply Hr]|by split].
Qed.

Lemma virtual_flush me h r p : opened h r p -> exists z h' p', virtual r FlushSync me h = Done (z, h') /\ opened h' r p' /\ view p' = view p.
Proof.
  intros [Ho Hs]. set (p0 := upd_base (set_env (h_env h) (base_ p)) p).
  destruct (FlushSync_settled p0 Hs) as (z & p' & E & Hs' & Hv & _).
  eexists z, _, p'. split; [|split; [|exact Hv]].
  - unfold virtual. rewrite so_bind_st. cbn [get fst snd]. rewrite Ho. unfold run_st, run_xml. fold p0. by rewrite E.
  - split; [cbn; apply lookup_insert_eq|exact Hs'].
Qed.

(** A call leaves the cache of the factory. *)
Lemma virtual_cache {A} r (xml : ST PreferencesImpl A) me h a h' : virtual r xml me h = Done (a, h') -> prefsCache_ h' = prefsCache_ h.
Proof.
  unfold virtual. rewrite so_bind_st. cbn [get fst snd]. destruct (objects h !! r) as [[p|e]|]; [..|done].
  - unfold run_st, run_xml. destruct (xml _) as [x p']. by intros [= _ <-].
  - unfold run_enhance. destruct (me _) as [[x e']| | |] eqn:E; cbn; [|done..]. by intros [= _ <-].
Qed.

(** A method for observers, which reports first and then works on the base
    under a lock. *)
Lemma locked_opened {A} (nm : string) (f : ST Base A) me h r p : opened h r p ->
  exists e', Impl.quiet (h_env h) e' /\
  virtual r (_ ← (v_IsClose nm : ST PreferencesImpl bool); zoom_base f) me h =
    Done ((f (set_env e' (base_ p))).1,
      h_set_env (env (f (set_env e' (base_ p))).2)
        (h_set_objects (<[r := PXml (upd_base (f (set_env e' (base_ p))).2 p)]> (objects h)) h)).
Proof.
  intros [Ho Hs]. set (p0 := upd_base (set_env (h_env h) (base_ p)) p).
  destruct (IsClose_quiet nm p0) as (b & e' & E & Hq). exists e'. split; [exact Hq|].
  unfold virtual. rewrite so_bind_st. cbn [get fst snd]. rewrite Ho. unfold run_st, run_xml. fold p0.
  cbn [v_IsClose Impl_object]. rewrite (st_bind_eq _ _ _ _ _ E). unfold zoom_base, mbind, st_bind, get, gets, modify, mret, st_ret. cbn.
  by destruct (f _) as [a b'].
Qed.
End opened.
