(* ===== verification/NdkMem.v ===== *)
(** * The memory behind the C interface

    The C interface, and the one for Cangjie, hand out pointers and take them
    back.  The memory is a map from references to the objects they point to;
    an allocation may fail ([allocates] says which ones succeed), a dangling or
    null pointer that is followed is the outcome [Undef], and so is freeing
    twice.  The file also
    has the error codes, identifiers and conversions of [oh_convertor.cpp]. *)

From S2P Require Import Prelude Errno Value.

(** ** Codes *)

(** [oh_preferences_err_code.h:52-71] OH_Preferences_ErrCode *)
Inductive OH_Preferences_ErrCode :=
  | PREFERENCES_OK
  | PREFERENCES_ERROR_INVALID_PARAM
  | PREFERENCES_ERROR_NOT_SUPPORTED
  | PREFERENCES_ERROR_BASE
  | PREFERENCES_ERROR_DELETE_FILE
  | PREFERENCES_ERROR_STORAGE
  | PREFERENCES_ERROR_MALLOC
  | PREFERENCES_ERROR_KEY_NOT_FOUND
  | PREFERENCES_ERROR_GET_DATAOBSMGRCLIENT.

Abbreviation Code := OH_Preferences_ErrCode.

#[export] Instance OH_Preferences_ErrCode_eq_dec : EqDecision OH_Preferences_ErrCode.
Proof. solve_decision. Defined.

(** [oh_preferences_err_code.h:54-70] OH_Preferences_ErrCode *)
Definition ndk_code (e : OH_Preferences_ErrCode) : Z :=
  match e with
  | PREFERENCES_OK => 0
  | PREFERENCES_ERROR_INVALID_PARAM => 401
  | PREFERENCES_ERROR_NOT_SUPPORTED => 801
  | PREFERENCES_ERROR_BASE => 15500000
  | PREFERENCES_ERROR_DELETE_FILE => 15500010
  | PREFERENCES_ERROR_STORAGE => 15500011
  | PREFERENCES_ERROR_MALLOC => 15500012
  | PREFERENCES_ERROR_KEY_NOT_FOUND => 15500013
  | PREFERENCES_ERROR_GET_DATAOBSMGRCLIENT => 15500019
  end.

(** [oh_convertor.cpp:21-33] ERROR_CODE_MAP *)
Definition ERROR_CODE_MAP : list (Z * OH_Preferences_ErrCode) := [
  (E_OK, PREFERENCES_OK);
  (E_INVALID_ARGS, PREFERENCES_ERROR_INVALID_PARAM);
  (E_KEY_EMPTY, PREFERENCES_ERROR_INVALID_PARAM);
  (E_KEY_EXCEED_MAX_LENGTH, PREFERENCES_ERROR_INVALID_PARAM);
  (E_VALUE_EXCEED_MAX_LENGTH, PREFERENCES_ERROR_INVALID_PARAM);
  (E_NOT_SUPPORTED, PREFERENCES_ERROR_NOT_SUPPORTED);
  (E_DELETE_FILE_FAIL, PREFERENCES_ERROR_DELETE_FILE);
  (E_GET_DATAOBSMGRCLIENT_FAIL, PREFERENCES_ERROR_GET_DATAOBSMGRCLIENT);
  (E_NO_DATA, PREFERENCES_ERROR_KEY_NOT_FOUND);
  (E_OBSERVER_RESERVE, PREFERENCES_OK)].

(** [oh_convertor.cpp:35-42] NativeErrToNdk *)
Definition NativeErrToNdk (nativeCode : Z) : OH_Preferences_ErrCode :=
  match table_find nativeCode ERROR_CODE_MAP with
  | Some e => e
  | None => PREFERENCES_ERROR_STORAGE
  end.

(** [oh_preferences_impl.h:26-31] PreferencesNdkStructId *)
Definition PREFERENCES_OH_OPTION_CID : Z := 1002931.
Definition PREFERENCES_OH_PREFERENCES_CID : Z := PREFERENCES_OH_OPTION_CID + 1.
Definition PREFERENCES_OH_VALUE_CID : Z := PREFERENCES_OH_PREFERENCES_CID + 1.
Definition PREFERENCES_OH_PAIR_CID : Z := PREFERENCES_OH_VALUE_CID + 1.

(** [oh_preferences.cpp:39-47] PreferencesStructValidCheck *)
Definition PreferencesStructValidCheck (originCid targetCid : Z) : bool :=
  if negb (originCid =? targetCid) then false else true.

(** ** Objects *)

Definition Ptr := option positive.

(** Memory that may not have been written yet. *)
Inductive cell (A : Type) := Uninit | Val (a : A).
Arguments Uninit {A}.
Arguments Val {A} a.

#[export] Instance cell_eq_dec `{EqDecision A} : EqDecision (cell A).
Proof. solve_decision. Defined.

(** [oh_preferences_value_impl.h:35-38] OH_PreferencesValueImpl *)
Record OH_PreferencesValueImpl := mkValueImpl { v_cid : Z; value_ : PreferencesValue }.

(** [oh_preferences_impl.h:83-98] OH_PreferencesOption *)
Record OH_PreferencesOption := mkOHOption {
  o_cid : Z;
  fileName : string;
  o_bundleName : string;
  o_dataGroupId : string;
  storageType : Z
}.

(** [oh_preferences_value_impl.h:27-32] OH_PreferencesPair *)
Record OH_PreferencesPair := mkPair {
  p_cid : cell Z;
  p_key : cell Ptr;
  p_value : cell Ptr;
  p_maxIndex : cell Z
}.

Definition pair_uninit : OH_PreferencesPair := mkPair Uninit Uninit Uninit Uninit.

(** The object behind the factory is a reference of [Helper]; an observer is
    a reference too, and a context is the address that the caller gave.

    [oh_preferences_impl.h:51-81] OH_PreferencesImpl *)
Record OH_PreferencesImpl := mkPrefsImpl {
  i_cid : Z;
  preferences_ : Ptr;
  filePath_ : string;
  dataObservers_ : list (positive * Z)
}.

(** An array of the Cangjie interface.

    [preferences_interface.h:26-39] CArrBool, CArrStr, CArrDouble *)
Record CArr := mkCArr { arr_head : Ptr; arr_size : Z }.

(** The struct has every member; [tag] says which one counts.  A [double] is
    the integer of its bits.

    [preferences_interface.h:41-50] ValueType *)
Record ValueType := mkValueType {
  integer : Z;
  float64 : Z;
  string_ : Ptr;
  boolean : bool;
  boolArray : CArr;
  doubleArray : CArr;
  stringArray : CArr;
  tag : Z
}.

(** What a pointer points to: a struct of an interface, or memory from
    [malloc]. *)
Inductive CObj :=
  | CValue (v : OH_PreferencesValueImpl)
  | COption (o : OH_PreferencesOption)
  | CPrefs (p : OH_PreferencesImpl)
  | CPairs (l : list OH_PreferencesPair)
  | CChars (l : list (cell ascii))
  | CStrings (l : list (cell Ptr))
  | CInts (l : list Z)              (** [int], [int64_t], [uint8_t], and the bits of [double] *)
  | CBools (l : list bool)
  | CValueTypes (l : list (cell ValueType)).

Record CMem := mkCMem {
  heap : gmap positive CObj;
  next_ptr : positive;
  allocations : nat;                (** how many were asked for *)
  allocates : nat -> bool           (** whether the n-th succeeds *)
}.

Definition set_heap h m := mkCMem h (next_ptr m) (allocations m) (allocates m).

(** [malloc] and [new (std::nothrow)] *)
Definition alloc_c (o : CObj) : ST CMem Ptr := fun m =>
  let m' := mkCMem (heap m) (next_ptr m) (S (allocations m)) (allocates m) in
  if allocates m (allocations m)
  then (Some (next_ptr m), mkCMem (<[next_ptr m := o]> (heap m)) (Pos.succ (next_ptr m)) (S (allocations m)) (allocates m))
  else (None, m').

Definition load (p : Ptr) : SO CMem CObj := fun m =>
  match p with
  | Some r => match heap m !! r with Some o => Done (o, m) | None => Undef end
  | None => Undef
  end.

Definition store (r : positive) (o : CObj) : SO CMem unit := fun m =>
  match heap m !! r with Some _ => Done (tt, set_heap (<[r := o]> (heap m)) m) | None => Undef end.

Definition free_ref (r : positive) : SO CMem unit := fun m =>
  match heap m !! r with Some _ => Done (tt, set_heap (delete r (heap m)) m) | None => Undef end.

(** [free]: of a null pointer it does nothing. *)
Definition free (p : Ptr) : SO CMem unit := match p with None => mret tt | Some r => free_ref r end.

(** Reading memory that was never written. *)
Definition read_cell {A} (c : cell A) : outcome A := match c with Val a => Done a | Uninit => Undef end.

(** The identifier, with which every struct of the interface begins. *)
Definition cid_of (o : CObj) : outcome Z :=
  match o with
  | CValue v => Done (v_cid v)
  | COption v => Done (o_cid v)
  | CPrefs v => Done (i_cid v)
  | CPairs (p :: _) => read_cell (p_cid p)
  | _ => Undef
  end.

Definition read_cid (p : Ptr) : SO CMem Z := o ← load p; run_out (cid_of o).

(** ** The functions of the C library for bounded memory *)

(** [memset_s] and [memcpy_s] answer whether they did their work, by the size
    of the destination and the number of bytes. *)
Class Securec := {
  memset_s : Z -> Z -> bool;
  memcpy_s : Z -> Z -> bool
}.

(** Both work within the bounds of the library, on at least one byte. *)
Class SecurecLaws `{Securec} := {
  memset_s_small n : 0 < n < 2 ^ 31 -> memset_s n n = true;
  memcpy_s_small d n : 0 <= n <= d -> 0 < d < 2 ^ 31 -> memcpy_s d n = true
}.

(** The characters of a string. *)
Definition chars (s : string) : list (cell ascii) := map Val (String.list_ascii_of_string s).

(** ** Facts *)

(** The error codes differ, so a code says which error it was. *)
Lemma ndk_code_inj a b : ndk_code a = ndk_code b -> a = b.
Proof. by destruct a, b. Qed.

Lemma load_eq r o m : heap m !! r = Some o -> load (Some r) m = Done (o, m).
Proof. intros E. unfold load. by rewrite E. Qed.

Lemma store_eq r o o' m : heap m !! r = Some o -> store r o' m = Done (tt, set_heap (<[r := o']> (heap m)) m).
Proof. intros E. unfold store. by rewrite E. Qed.

Lemma free_eq r o m : heap m !! r = Some o -> free (Some r) m = Done (tt, set_heap (delete r (heap m)) m).
Proof. intros E. cbn. unfold free_ref. by rewrite E. Qed.

Lemma read_cid_eq r o c m : heap m !! r = Some o -> cid_of o = Done c -> read_cid (Some r) m = Done (c, m).
Proof. intros E Ec. unfold read_cid. rewrite (so_bind_Done _ _ _ _ _ (load_eq _ _ _ E)). unfold run_out. by rewrite Ec. Qed.

Lemma PreferencesStructValidCheck_refl c : PreferencesStructValidCheck c c = true.
Proof. unfold PreferencesStructValidCheck. by rewrite Z.eqb_refl. Qed.

Lemma alloc_c_ok o m : allocates m (allocations m) = true ->
  alloc_c o m = (Some (next_ptr m),
    mkCMem (<[next_ptr m := o]> (heap m)) (Pos.succ (next_ptr m)) (S (allocations m)) (allocates m)).
Proof. intros E. unfold alloc_c. by rewrite E. Qed.

Lemma alloc_c_failed o m : allocates m (allocations m) = false ->
  alloc_c o m = (None, mkCMem (heap m) (next_ptr m) (S (allocations m)) (allocates m)).
Proof. intros E. unfold alloc_c. by rewrite E. Qed.

(** References above [next_ptr] are free. *)
Definition mem_ok (m : CMem) : Prop := forall r, (next_ptr m <= r)%positive -> heap m !! r = None.

Lemma mem_ok_alloc o m : mem_ok m -> mem_ok (snd (alloc_c o m)).
Proof.
  intros Hm. unfold alloc_c. destruct (allocates m (allocations m)); intros r Hr; cbn in *; [|by apply Hm].
  rewrite lookup_insert_ne by lia. apply Hm. lia.
Qed.

Lemma mem_ok_heap h m : mem_ok m -> (forall r, is_Some (h !! r) -> is_Some (heap m !! r)) -> mem_ok (set_heap h m).
Proof. intros Hm Hh r Hr. apply eq_None_not_Some. intros Hs%Hh. rewrite (Hm r Hr) in Hs. by destruct Hs. Qed.

(** What was allocated and then freed leaves no trace. *)
Lemma alloc_free o m : mem_ok m -> delete (next_ptr m) (<[next_ptr m := o]> (heap m)) = heap m.
Proof. intros Hm. rewrite delete_insert_eq. apply delete_id, Hm. lia. Qed.

(** *** Many objects *)

Fixpoint puts (l : list (positive * CObj)) (h : gmap positive CObj) : gmap positive CObj :=
  match l with [] => h | (r, o) :: l => puts l (<[r := o]> h) end.

Fixpoint del (rs : list positive) (h : gmap positive CObj) : gmap positive CObj :=
  match rs with [] => h | r :: rs => del rs (delete r h) end.

Lemma puts_app l1 l2 h : puts (l1 ++ l2) h = puts l2 (puts l1 h).
Proof. revert h. induction l1 as [|[r o] l1 IH]; intros h; [done|]. apply IH. Qed.

Lemma puts_ne l h q : q ∉ l.*1 -> puts l h !! q = h !! q.
Proof.
  revert h. induction l as [|[r o] l IH]; intros h Hq; [done|]. cbn [puts].
  apply not_elem_of_cons in Hq as [Hne Hq]. by rewrite IH, lookup_insert_ne.
Qed.

Lemma puts_in l h r o : NoDup l.*1 -> (r, o) ∈ l -> puts l h !! r = Some o.
Proof.
  revert h. induction l as [|[r0 o0] l IH]; intros h Hn Hin; [inv Hin|]. apply NoDup_cons in Hn as [Hr Hn]. cbn [puts].
  apply elem_of_cons in Hin as [[= -> ->]|Hin]; [by rewrite puts_ne, lookup_insert_eq|by apply IH].
Qed.

Lemma del_lookup rs h q : del rs h !! q = if decide (q ∈ rs) then None else h !! q.
Proof.
  revert h. induction rs as [|r rs IH]; intros h; [done|]. cbn [del]. rewrite IH.
  destruct (decide (q ∈ rs)) as [Hq|Hq]; [by rewrite decide_True by (by right)|].
  destruct (decide (q = r)) as [->|Hne].
  - by rewrite decide_True by left; rewrite lookup_delete_eq.
  - rewrite decide_False by (by rewrite not_elem_of_cons). by rewrite lookup_delete_ne.
Qed.

Lemma del_app r1 r2 h : del (r1 ++ r2) h = del r2 (del r1 h).
Proof. revert h. induction r1 as [|r r1 IH]; intros h; [done|]. apply IH. Qed.

(** What was not there before and is taken away leaves no trace. *)
Lemma del_puts l h : (forall r, r ∈ l.*1 -> h !! r = None) -> del l.*1 (puts l h) = h.
Proof.
  intros Hf. apply map_eq. intros q. rewrite del_lookup. case_decide as Hq; [by rewrite Hf|by apply puts_ne].
Qed.

(** *** Footprints

    What an operation made is a part [f] of the memory, apart from what was
    there. *)

Abbreviation Heap := (gmap positive CObj).

Record made (m : CMem) (f : Heap) (m' : CMem) : Prop := {
  md_heap : heap m' = f ∪ heap m;
  md_disj : f ##ₘ heap m;
  md_ok : mem_ok m';
  md_alloc : allocates m' = allocates m
}.

Lemma made_nothing m : mem_ok m -> made m ∅ m.
Proof. intros Hm. split; [by rewrite (left_id_L ∅ (∪))|apply map_disjoint_empty_l|done|done]. Qed.

Lemma made_trans m1 f1 m2 f2 m3 : made m1 f1 m2 -> made m2 f2 m3 -> made m1 (f2 ∪ f1) m3.
Proof.
  intros [H1 D1 _ A1] [H2 D2 O2 A2]. rewrite H1 in D2. apply map_disjoint_union_r in D2 as [D2 D3].
  split; [by rewrite H2, H1, (assoc_L (∪))|by apply map_disjoint_union_l|done|congruence].
Qed.

Lemma made_subset m f m' : made m f m' -> f ⊆ heap m'.
Proof. intros [-> _ _ _]. apply map_union_subseteq_l. Qed.

Lemma made_keeps m f m' g : made m f m' -> g ⊆ heap m -> g ⊆ heap m' /\ f ##ₘ g.
Proof.
  intros [-> D _ _] Hg. split; [|by eapply map_disjoint_weaken_r].
  etrans; [exact Hg|by apply map_union_subseteq_r].
Qed.

Lemma without_without (h f g : Heap) : (h ∖ f) ∖ g = h ∖ (f ∪ g).
Proof.
  apply map_eq. intros q. rewrite !lookup_difference, lookup_union. by destruct (f !! q), (g !! q).
Qed.

Lemma without_subset (h f g : Heap) : g ⊆ h -> f ##ₘ g -> g ⊆ h ∖ f.
Proof.
  intros Hg Hd. apply map_subseteq_spec. intros q o Hq. rewrite lookup_difference, (map_disjoint_Some_r f g q o Hd Hq).
  by eapply lookup_weaken.
Qed.

Lemma without_insert (h f : Heap) r o : delete r h ∖ f = h ∖ <[r := o]> f.
Proof.
  apply map_eq. intros q. rewrite !lookup_difference. destruct (decide (q = r)) as [->|Hne].
  - rewrite lookup_insert_eq, lookup_delete_eq. by destruct (f !! r).
  - by rewrite lookup_insert_ne, lookup_delete_ne.
Qed.

(** Taking away what was made. *)
Lemma made_undone m f m' : made m f m' -> heap m' ∖ f = heap m.
Proof.
  intros [-> D _ _]. apply map_eq. intros q. rewrite lookup_difference, lookup_union.
  destruct (f !! q) eqn:E; [by rewrite (map_disjoint_Some_l _ _ _ _ D E)|]. by rewrite (left_id None (∪)).
Qed.

Lemma mem_ok_without m (f : Heap) : mem_ok m -> mem_ok (set_heap (heap m ∖ f) m).
Proof. intros Hm. apply mem_ok_heap; [done|]. intros q. rewrite lookup_difference. by destruct (f !! q) as [|]; intros [? ?]. Qed.

Lemma free_without r o m : heap m !! r = Some o -> free (Some r) m = Done (tt, set_heap (heap m ∖ {[r := o]}) m).
Proof. intros E. rewrite (free_eq _ _ _ E), <- insert_empty, <- without_insert. by rewrite map_difference_empty. Qed.

(** One object more. *)
Lemma made_alloc o m : mem_ok m -> allocates m (allocations m) = true ->
  exists m', alloc_c o m = (Some (next_ptr m), m') /\ made m {[next_ptr m := o]} m'.
Proof.
  intros Hm E. rewrite (alloc_c_ok o m E). eexists. split; [reflexivity|]. split; cbn; [by rewrite insert_union_singleton_l| | |done].
  - apply map_disjoint_singleton_l, Hm. lia.
  - pose proof (mem_ok_alloc o m Hm) as Hx. by rewrite (alloc_c_ok o m E) in Hx.
Qed.

Lemma made_failed o m : mem_ok m -> allocates m (allocations m) = false ->
  exists m', alloc_c o m = (None, m') /\ made m ∅ m'.
Proof.
  intros Hm E. rewrite (alloc_c_failed o m E). eexists. split; [reflexivity|].
  split; cbn; [by rewrite (left_id_L ∅ (∪))|apply map_disjoint_empty_l|done|done].
Qed.

(** An object that was made is overwritten. *)
Lemma made_store m f m' r o o' : made m f m' -> f !! r = Some o ->
  exists m'', store r o' m' = Done (tt, m'') /\ made m (<[r := o']> f) m'' /\ heap m'' = <[r := o']> (heap m').
Proof.
  intros Hf Hr. pose proof (lookup_weaken _ _ _ _ Hr (made_subset _ _ _ Hf)) as Hr'. rewrite (store_eq _ _ _ _ Hr').
  eexists. split; [reflexivity|]. split; [|done]. destruct Hf as [Hh D Ho Ha]. split; [cbn; by rewrite Hh, insert_union_l| | |done].
  - apply map_disjoint_insert_l_2; [by eapply map_disjoint_Some_l|done].
  - apply mem_ok_heap; [done|]. intros q. rewrite lookup_insert_is_Some'. intros [<-|?]; [by rewrite Hr'|done].
Qed.

(** Everything that was made is freed. *)
Lemma made_freed m f m' : made m f m' -> mem_ok m -> made m ∅ (set_heap (heap m' ∖ f) m').
Proof.
  intros Hf Hm. rewrite (made_undone _ _ _ Hf). split; cbn; [by rewrite (left_id_L ∅ (∪))|apply map_disjoint_empty_l| |apply Hf].
  apply mem_ok_heap; [apply Hf|]. intros q [o Hq]. exists o. rewrite (md_heap _ _ _ Hf). apply lookup_union_Some_r; [apply Hf|done].
Qed.
