(* ===== verification/NdkValue.v ===== *)
(** * The value object of the C interface

    Models [oh_preferences_value.cpp] over the memory of [NdkMem].  A pointer
    through which a function returns a result is the flag whether it is null,
    and the result is part of the answer; an array given by the caller is the
    list of its elements, [None] for the null pointer, and reading past it is
    undefined. *)

From S2P Require Import Prelude Errno Value NdkMem.

(** [oh_preferences_value.h:54-123] Preference_ValueType *)
Inductive Preference_ValueType :=
  | PREFERENCE_TYPE_NULL
  | PREFERENCE_TYPE_INT
  | PREFERENCE_TYPE_BOOL
  | PREFERENCE_TYPE_STRING
  | PREFERENCE_TYPE_INT64
  | PREFERENCE_TYPE_DOUBLE
  | PREFERENCE_TYPE_INT_ARRAY
  | PREFERENCE_TYPE_BOOL_ARRAY
  | PREFERENCE_TYPE_STRING_ARRAY
  | PREFERENCE_TYPE_INT64_ARRAY
  | PREFERENCE_TYPE_DOUBLE_ARRAY
  | PREFERENCE_TYPE_BLOB
  | PREFERENCE_TYPE_BUTT.

#[export] Instance Preference_ValueType_eq_dec : EqDecision Preference_ValueType.
Proof. solve_decision. Defined.



(** ** The object *)

(** The object, when the pointer is one of a value.

    [oh_preferences_value.cpp:25-35] GetSelf *)
Definition GetSelf (value : Ptr) : SO CMem (option (positive * OH_PreferencesValueImpl)) :=
  match value with
  | None => mret None
  | Some r =>
      cid ← read_cid (Some r);
      if negb (PreferencesStructValidCheck cid PREFERENCES_OH_VALUE_CID) then mret None else
      o ← load (Some r);
      match o with
      | CValue v => mret (Some (r, v))
      | _ => run_out Undef
      end
  end.

(** [oh_preferences_value.cpp:192-201] OH_PreferencesValue_Create *)
Definition OH_PreferencesValue_Create : ST CMem Ptr :=
  alloc_c (CValue (mkValueImpl PREFERENCES_OH_VALUE_CID PreferencesValue_default)).

(** [oh_preferences_value.cpp:203-213] OH_PreferencesValue_Destroy *)
Definition OH_PreferencesValue_Destroy (value : Ptr) : SO CMem unit :=
  self ← GetSelf value;
  match self with
  | None => mret tt
  | Some (r, _) => free_ref r
  end.

(** [oh_preferences_value.cpp:67-98] OH_PreferencesValue_GetValueType *)
Definition OH_PreferencesValue_GetValueType (object : Ptr) : SO CMem Preference_ValueType :=
  self ← GetSelf object;
  match self with
  | None => mret PREFERENCE_TYPE_NULL
  | Some (_, self) =>
      let v := value_ self in
      mret (if IsInt v then PREFERENCE_TYPE_INT
        else if IsBool v then PREFERENCE_TYPE_BOOL
        else if IsString v then PREFERENCE_TYPE_STRING
        else if IsLong v then PREFERENCE_TYPE_INT64
        else if IsDouble v then PREFERENCE_TYPE_DOUBLE
        else if IsBoolArray v then PREFERENCE_TYPE_BOOL_ARRAY
        else if IsStringArray v then PREFERENCE_TYPE_STRING_ARRAY
        else if IsDoubleArray v then PREFERENCE_TYPE_DOUBLE_ARRAY
        else if IsUint8Array v then PREFERENCE_TYPE_BLOB
        else if IsIntArray v then PREFERENCE_TYPE_INT_ARRAY
        else if IsInt64Array v then PREFERENCE_TYPE_INT64_ARRAY
        else PREFERENCE_TYPE_NULL)
  end.

(** ** Getters *)

(** The shape of a getter: the object and the result pointers are checked,
    then the type, then the content is converted. *)
Definition value_get {A} (object : Ptr) (outs : bool) (is_type : PreferencesValue -> bool)
    (conv : PreferencesValue -> SO CMem (Code * option A)) : SO CMem (Code * option A) :=
  self ← GetSelf object;
  match self with
  | None => mret (PREFERENCES_ERROR_INVALID_PARAM, None)
  | Some (_, self) =>
      if negb outs then mret (PREFERENCES_ERROR_INVALID_PARAM, None) else
      if is_type (value_ self) then conv (value_ self)
      else mret (PREFERENCES_ERROR_KEY_NOT_FOUND, None)
  end.

(** A conversion of the variant, which throws when the type is another. *)
Definition convert {A} (a : option A) : outcome A := match a with Some a => Done a | None => Thrown end.

Definition scalar {A} (conv : PreferencesValue -> option A) (v : PreferencesValue) : SO CMem (Code * option A) :=
  a ← run_out (convert (conv v)); mret (PREFERENCES_OK, Some a).

(** [oh_preferences_value.cpp:100-115] OH_PreferencesValue_GetInt *)
Definition OH_PreferencesValue_GetInt (object : Ptr) (value : bool) : SO CMem (Code * option Z) :=
  value_get object value IsInt (scalar as_int).

(** [oh_preferences_value.cpp:117-132] OH_PreferencesValue_GetBool *)
Definition OH_PreferencesValue_GetBool (object : Ptr) (value : bool) : SO CMem (Code * option bool) :=
  value_get object value IsBool (scalar as_bool).

(** [oh_preferences_value.cpp:372-385] OH_PreferencesValue_GetInt64 *)
Definition OH_PreferencesValue_GetInt64 (object : Ptr) (value : bool) : SO CMem (Code * option Z) :=
  value_get object value IsLong (scalar as_long).

(** [oh_preferences_value.cpp:387-400] OH_PreferencesValue_GetDouble *)
Definition OH_PreferencesValue_GetDouble (object : Ptr) (value : bool) : SO CMem (Code * option Z) :=
  value_get object value IsDouble (scalar as_double).

Section strings.
Context `{Securec}.

Definition SIZE_MAX : Z := 2 ^ 64 - 1.

(** A string copied for the caller: a fresh buffer and its length with the
    final NUL, as 32 bits.

    [oh_preferences_value.cpp:144-170] OH_PreferencesValue_GetString *)
Definition string_out (str : string) : SO CMem (Code * option (Ptr * Z)) :=
  let strLen := slen str in
  if SIZE_MAX <=? strLen then mret (PREFERENCES_ERROR_INVALID_PARAM, None) else
  let zero := if memset_s (strLen + 1) (strLen + 1) then Val "000"%char else Uninit in
  ptr ← run_st (alloc_c (CChars (replicate (S (String.length str)) zero)));
  match ptr with
  | None => mret (PREFERENCES_ERROR_MALLOC, None)
  | Some r =>
      if 0 <? strLen then
        if negb (memcpy_s strLen strLen) then
          free ptr;; mret (PREFERENCES_ERROR_MALLOC, None)
        else
          store r (CChars (chars str ++ [zero]));;
          mret (PREFERENCES_OK, Some (ptr, wrap_u 32 (strLen + 1)))
      else mret (PREFERENCES_OK, Some (ptr, wrap_u 32 (strLen + 1)))
  end.

(** [oh_preferences_value.cpp:134-175] OH_PreferencesValue_GetString *)
Definition OH_PreferencesValue_GetString (object : Ptr) (value valueLen : bool) : SO CMem (Code * option (Ptr * Z)) :=
  value_get object (value && valueLen) IsString
    (fun v => str ← run_out (convert (as_string v)); string_out str).

(** [free(arrary[j])] for the first [i] elements. *)
Fixpoint free_cells (arrary : positive) (j i : nat) : SO CMem unit :=
  match i with
  | O => mret tt
  | S i =>
      o ← load (Some arrary);
      match o with
      | CStrings l => c ← run_out (index_ l (Z.of_nat j)); p ← run_out (read_cell c); free p
      | _ => run_out Undef
      end;;
      free_cells arrary (S j) i
  end.

(** The loop of [GetStringArray]: whether every string was copied.

    [oh_preferences_value.cpp:451-470] OH_PreferencesValue_GetStringArray *)
Fixpoint fill_strings (arrary : positive) (i : nat) (vec : list string) : SO CMem bool :=
  match vec with
  | [] => mret true
  | s :: vec' =>
      str ← run_st (alloc_c (CChars (replicate (S (String.length s)) Uninit)));
      match str with
      | None => free_cells arrary 0 i;; free (Some arrary);; mret false
      | Some r =>
          if negb (memcpy_s (slen s + 1) (slen s + 1)) then
            free str;; free_cells arrary 0 i;; free (Some arrary);; mret false
          else
            store r (CChars (chars s ++ [Val "000"%char]));;
            o ← load (Some arrary);
            match o with
            | CStrings l => store arrary (CStrings (<[i := Val str]> l))
            | _ => run_out Undef
            end;;
            fill_strings arrary (S i) vec'
      end
  end.

(** [oh_preferences_value.cpp:432-474] OH_PreferencesValue_GetStringArray *)
Definition OH_PreferencesValue_GetStringArray (object : Ptr) (value count : bool) : SO CMem (Code * option (Ptr * Z)) :=
  value_get object (value && count) IsStringArray (fun v =>
    vec ← run_out (convert (as_string_array v));
    if (length vec =? 0)%nat then mret (PREFERENCES_ERROR_INVALID_PARAM, None) else
    arrary ← run_st (alloc_c (CStrings (replicate (length vec) Uninit)));
    match arrary with
    | None => mret (PREFERENCES_ERROR_MALLOC, None)
    | Some r =>
        ok ← fill_strings r 0 vec;
        mret (if (ok : bool) then (PREFERENCES_OK, Some (arrary, wrap_u 32 (Z.of_nat (length vec))))
              else (PREFERENCES_ERROR_MALLOC, None))
    end).
End strings.

Definition UINT32_MAX : Z := 2 ^ 32 - 1.

(** The template, by how its elements are laid out in memory.

    [oh_preferences_value.cpp:274-296] CopyArrayOut *)
Definition CopyArrayOut {T} (layout : list T -> CObj) (src : list T) (outArray outCount : bool)
    : SO CMem (Code * option (Ptr * Z)) :=
  if negb (outArray && outCount) then mret (PREFERENCES_ERROR_INVALID_PARAM, None) else
  let count := Z.of_nat (length src) in
  if UINT32_MAX <? count then mret (PREFERENCES_ERROR_INVALID_PARAM, None) else
  ptr ← run_st (alloc_c (layout src));
  match ptr with
  | None => mret (PREFERENCES_ERROR_MALLOC, None)
  | Some _ => mret (PREFERENCES_OK, Some (ptr, wrap_u 32 count))
  end.

Definition array_get {T} (layout : list T -> CObj) (object : Ptr) (value count : bool)
    (is_type : PreferencesValue -> bool) (conv : PreferencesValue -> option (list T)) : SO CMem (Code * option (Ptr * Z)) :=
  value_get object (value && count) is_type
    (fun v => vec ← run_out (convert (conv v)); CopyArrayOut layout vec value count).

(** [oh_preferences_value.cpp:402-414] OH_PreferencesValue_GetIntArray *)
Definition OH_PreferencesValue_GetIntArray (object : Ptr) (value count : bool) : SO CMem (Code * option (Ptr * Z)) :=
  array_get CInts object value count IsIntArray as_int_array.

(** [oh_preferences_value.cpp:416-430] OH_PreferencesValue_GetBoolArray *)
Definition OH_PreferencesValue_GetBoolArray (object : Ptr) (value count : bool) : SO CMem (Code * option (Ptr * Z)) :=
  value_get object (value && count) IsBoolArray (fun v =>
    vec ← run_out (convert (as_bool_array v));
    r ← CopyArrayOut CBools vec value count;
    mret (if negb (bool_decide (r.1 = PREFERENCES_OK)) then (PREFERENCES_ERROR_MALLOC, None) else r)).

(** [oh_preferences_value.cpp:476-488] OH_PreferencesValue_GetInt64Array *)
Definition OH_PreferencesValue_GetInt64Array (object : Ptr) (value count : bool) : SO CMem (Code * option (Ptr * Z)) :=
  array_get CInts object value count IsInt64Array as_int64_array.

(** [oh_preferences_value.cpp:490-501] OH_PreferencesValue_GetDoubleArray *)
Definition OH_PreferencesValue_GetDoubleArray (object : Ptr) (value count : bool) : SO CMem (Code * option (Ptr * Z)) :=
  array_get CInts object value count IsDoubleArray as_double_array.

(** [oh_preferences_value.cpp:503-514] OH_PreferencesValue_GetBlob *)
Definition OH_PreferencesValue_GetBlob (object : Ptr) (value count : bool) : SO CMem (Code * option (Ptr * Z)) :=
  array_get CInts object value count IsUint8Array as_uint8_array.

(** ** Setters *)

(** The shape of a setter: the object is checked, then the argument, which
    gives the new content or an error. *)
Definition value_set (object : Ptr) (arg : outcome (option PreferencesValue)) : SO CMem Code :=
  self ← GetSelf object;
  match self with
  | None => mret PREFERENCES_ERROR_INVALID_PARAM
  | Some (r, self) =>
      v ← run_out arg;
      match v with
      | None => mret PREFERENCES_ERROR_INVALID_PARAM
      | Some v => store r (CValue (mkValueImpl (v_cid self) v));; mret PREFERENCES_OK
      end
  end.

(** [oh_preferences_value.cpp:215-224] OH_PreferencesValue_SetInt *)
Definition OH_PreferencesValue_SetInt (object : Ptr) (value : Z) : SO CMem Code :=
  value_set object (Done (Some (PreferencesValue_int value))).

(** [oh_preferences_value.cpp:226-235] OH_PreferencesValue_SetBool *)
Definition OH_PreferencesValue_SetBool (object : Ptr) (value : bool) : SO CMem Code :=
  value_set object (Done (Some (PreferencesValue_bool value))).

(** [oh_preferences_value.cpp:237-250] OH_PreferencesValue_SetString *)
Definition OH_PreferencesValue_SetString (object : Ptr) (value : option string) : SO CMem Code :=
  value_set object (Done ((fun s => PreferencesValue_string (c_str s)) <$> value)).

(** [oh_preferences_value.cpp:252-261] OH_PreferencesValue_SetInt64 *)
Definition OH_PreferencesValue_SetInt64 (object : Ptr) (value : Z) : SO CMem Code :=
  value_set object (Done (Some (PreferencesValue_int64 value))).

(** [oh_preferences_value.cpp:263-272] OH_PreferencesValue_SetDouble *)
Definition OH_PreferencesValue_SetDouble (object : Ptr) (value : Z) : SO CMem Code :=
  value_set object (Done (Some (PreferencesValue_double value))).

(** The vector of [count] elements from a pointer. *)
Definition vector_from {T} (value : list T) (count : Z) : outcome (list T) :=
  if count <=? Z.of_nat (length value) then Done (take (Z.to_nat count) value) else Undef.

Definition array_arg {T} (mk : list T -> PreferencesValue) (value : option (list T)) (count : Z)
    : outcome (option PreferencesValue) :=
  match value with
  | None => Done None
  | Some value => vec ← vector_from value count; Done (Some (mk vec))
  end.

(** [oh_preferences_value.cpp:298-307] OH_PreferencesValue_SetIntArray *)
Definition OH_PreferencesValue_SetIntArray (object : Ptr) (value : option (list Z)) (count : Z) : SO CMem Code :=
  value_set object (array_arg PreferencesValue_vector_int value count).

(** [oh_preferences_value.cpp:309-318] OH_PreferencesValue_SetDoubleArray *)
Definition OH_PreferencesValue_SetDoubleArray (object : Ptr) (value : option (list Z)) (count : Z) : SO CMem Code :=
  value_set object (array_arg PreferencesValue_vector_double value count).

(** [oh_preferences_value.cpp:320-329] OH_PreferencesValue_SetBoolArray *)
Definition OH_PreferencesValue_SetBoolArray (object : Ptr) (value : option (list bool)) (count : Z) : SO CMem Code :=
  value_set object (array_arg PreferencesValue_vector_bool value count).

(** The strings of the array, [None] when one of them is null. *)
Fixpoint strings_from (value : list (option string)) (count : nat) : outcome (option (list string)) :=
  match count, value with
  | O, _ => Done (Some [])
  | S _, [] => Undef
  | S _, None :: _ => Done None
  | S count, Some s :: value =>
      rest ← strings_from value count;
      Done (match rest with None => None | Some vec => Some (c_str s :: vec) end)
  end.

Definition strings_arg (value : option (list (option string))) (count : Z) : outcome (option PreferencesValue) :=
  match value with
  | None => Done None
  | Some value =>
      vec ← strings_from value (Z.to_nat count);
      Done (match vec with None => None | Some vec => Some (PreferencesValue_vector_string vec) end)
  end.

(** [oh_preferences_value.cpp:331-347] OH_PreferencesValue_SetStringArray *)
Definition OH_PreferencesValue_SetStringArray (object : Ptr) (value : option (list (option string))) (count : Z) : SO CMem Code :=
  value_set object (strings_arg value count).

(** [oh_preferences_value.cpp:349-359] OH_PreferencesValue_SetInt64Array *)
Definition OH_PreferencesValue_SetInt64Array (object : Ptr) (value : option (list Z)) (count : Z) : SO CMem Code :=
  value_set object (if count =? 0 then Done None else array_arg PreferencesValue_vector_int64 value count).

(** [oh_preferences_value.cpp:361-370] OH_PreferencesValue_SetBlob *)
Definition OH_PreferencesValue_SetBlob (object : Ptr) (value : option (list Z)) (count : Z) : SO CMem Code :=
  value_set object (array_arg PreferencesValue_vector_uint8 value count).

(** ** Pairs *)

Definition load_pairs (pairs : Ptr) : SO CMem (list OH_PreferencesPair) :=
  o ← load pairs; match o with CPairs l => mret l | _ => run_out Undef end.

(** A member of the pair at [index], null when the index or the pair is not
    valid. *)
Definition pair_member (member : OH_PreferencesPair -> cell Ptr) (pairs : Ptr) (index : Z) : SO CMem Ptr :=
  match pairs with
  | None => mret None
  | Some _ =>
      l ← load_pairs pairs;
      first ← run_out (index_ l 0);
      maxIndex ← run_out (read_cell (p_maxIndex first));
      if maxIndex <=? index then mret None else
      p ← run_out (index_ l index);
      cid ← run_out (read_cell (p_cid p));
      if negb (PreferencesStructValidCheck cid PREFERENCES_OH_PAIR_CID) then mret None else
      run_out (read_cell (member p))
  end.

(** [oh_preferences_value.cpp:37-50] OH_PreferencesPair_GetKey *)
Definition OH_PreferencesPair_GetKey (pairs : Ptr) (index : Z) : SO CMem Ptr := pair_member p_key pairs index.

(** [oh_preferences_value.cpp:52-65] OH_PreferencesPair_GetPreferencesValue *)
Definition OH_PreferencesPair_GetPreferencesValue (pairs : Ptr) (index : Z) : SO CMem Ptr :=
  pair_member p_value pairs index.

(** The loop of [OH_PreferencesPair_Destroy], over the next [n] pairs. *)
Fixpoint destroy_pairs (pairs : Ptr) (i n : nat) : SO CMem unit :=
  match n with
  | O => mret tt
  | S n =>
      l ← load_pairs pairs;
      p ← run_out (index_ l (Z.of_nat i));
      key ← run_out (read_cell (p_key p));
      free key;;
      value ← run_out (read_cell (p_value p));
      OH_PreferencesValue_Destroy value;;
      destroy_pairs pairs (S i) n
  end.

(** [oh_preferences_value.cpp:177-190] OH_PreferencesPair_Destroy *)
Definition OH_PreferencesPair_Destroy (pairs : Ptr) (count : Z) : SO CMem unit :=
  match pairs with
  | None => mret tt
  | Some _ => destroy_pairs pairs 0 (Z.to_nat count);; free pairs
  end.

(** ** A client *)

(** What a caller sets and gets. *)
Inductive Typed :=
  | TInt (v : Z) | TBool (v : bool) | TString (v : string) | TInt64 (v : Z) | TDouble (v : Z)
  | TIntArray (v : list Z) | TBoolArray (v : list bool) | TStringArray (v : list string)
  | TInt64Array (v : list Z) | TDoubleArray (v : list Z) | TBlob (v : list Z).

Definition typed_type (t : Typed) : Preference_ValueType :=
  match t with
  | TInt _ => PREFERENCE_TYPE_INT | TBool _ => PREFERENCE_TYPE_BOOL | TString _ => PREFERENCE_TYPE_STRING
  | TInt64 _ => PREFERENCE_TYPE_INT64 | TDouble _ => PREFERENCE_TYPE_DOUBLE
  | TIntArray _ => PREFERENCE_TYPE_INT_ARRAY | TBoolArray _ => PREFERENCE_TYPE_BOOL_ARRAY
  | TStringArray _ => PREFERENCE_TYPE_STRING_ARRAY | TInt64Array _ => PREFERENCE_TYPE_INT64_ARRAY
  | TDoubleArray _ => PREFERENCE_TYPE_DOUBLE_ARRAY | TBlob _ => PREFERENCE_TYPE_BLOB
  end.

Definition typed_value (t : Typed) : PreferencesValue :=
  match t with
  | TInt v => VInt v | TBool v => VBool v | TString v => VString v | TInt64 v => VLong v | TDouble v => VDouble v
  | TIntArray v => VIntArray v | TBoolArray v => VBoolArray v | TStringArray v => VStringArray v
  | TInt64Array v => VInt64Array v | TDoubleArray v => VDoubleArray v | TBlob v => VUint8Array v
  end.

(** Within the bounds of the functions: strings without NUL and shorter than
    2^31 bytes, counts of 32 bits, and no empty array where the functions do
    not take one. *)
Definition small_string (s : string) : bool := no_nul s && (slen s + 1 <? 2 ^ 31).

Definition small_count {T} (l : list T) : bool := Z.of_nat (length l) <=? UINT32_MAX.

Definition typed_ok (t : Typed) : bool :=
  match t with
  | TInt _ | TBool _ | TInt64 _ | TDouble _ => true
  | TString s => small_string s
  | TStringArray l => forallb small_string l && small_count l && negb (bool_decide (l = []))
  | TInt64Array l => small_count l && negb (bool_decide (l = []))
  | TIntArray l | TDoubleArray l | TBlob l => small_count l
  | TBoolArray l => small_count l
  end.

Definition set_typed (object : Ptr) (t : Typed) : SO CMem Code :=
  match t with
  | TInt v => OH_PreferencesValue_SetInt object v
  | TBool v => OH_PreferencesValue_SetBool object v
  | TString v => OH_PreferencesValue_SetString object (Some v)
  | TInt64 v => OH_PreferencesValue_SetInt64 object v
  | TDouble v => OH_PreferencesValue_SetDouble object v
  | TIntArray v => OH_PreferencesValue_SetIntArray object (Some v) (Z.of_nat (length v))
  | TBoolArray v => OH_PreferencesValue_SetBoolArray object (Some v) (Z.of_nat (length v))
  | TStringArray v => OH_PreferencesValue_SetStringArray object (Some (map Some v)) (Z.of_nat (length v))
  | TInt64Array v => OH_PreferencesValue_SetInt64Array object (Some v) (Z.of_nat (length v))
  | TDoubleArray v => OH_PreferencesValue_SetDoubleArray object (Some v) (Z.of_nat (length v))
  | TBlob v => OH_PreferencesValue_SetBlob object (Some v) (Z.of_nat (length v))
  end.

(** Reading a C string up to its NUL. *)
Fixpoint read_chars (l : list (cell ascii)) : outcome string :=
  match l with
  | [] | Uninit :: _ => Undef
  | Val c :: l => if decide (c = "000"%char) then Done "" else s ← read_chars l; Done (String c s)
  end.

(** The caller reads what it got and frees it. *)
Definition take_string (p : Ptr) : SO CMem string :=
  o ← load p;
  match o with CChars l => s ← run_out (read_chars l); free p;; mret s | _ => run_out Undef end.

Definition take_ints (p : Ptr) (n : Z) : SO CMem (list Z) :=
  o ← load p;
  match o with CInts l => v ← run_out (vector_from l n); free p;; mret v | _ => run_out Undef end.

Definition take_bools (p : Ptr) (n : Z) : SO CMem (list bool) :=
  o ← load p;
  match o with CBools l => v ← run_out (vector_from l n); free p;; mret v | _ => run_out Undef end.

Fixpoint take_cells (arr : positive) (j n : nat) : SO CMem (list string) :=
  match n with
  | O => mret []
  | S n =>
      o ← load (Some arr);
      match o with
      | CStrings l =>
          c ← run_out (index_ l (Z.of_nat j)); p ← run_out (read_cell c);
          s ← take_string p;
          rest ← take_cells arr (S j) n;
          mret (s :: rest)
      | _ => run_out Undef
      end
  end.

Definition take_strings (p : Ptr) (n : Z) : SO CMem (list string) :=
  match p with
  | None => run_out Undef
  | Some r => v ← take_cells r 0 (Z.to_nat n); free p;; mret v
  end.

Section client.
Context `{Securec}.

(** The answer of a getter with a buffer, read by [take]. *)
Definition taken {A} (get : SO CMem (Code * option (Ptr * Z))) (take : Ptr -> Z -> SO CMem A) (mk : A -> Typed)
    : SO CMem (Code * option Typed) :=
  r ← get;
  match r with
  | (code, None) => mret (code, None)
  | (code, Some (p, n)) => v ← take p n; mret (code, Some (mk v))
  end.

Definition given {A} (get : SO CMem (Code * option A)) (mk : A -> Typed) : SO CMem (Code * option Typed) :=
  r ← get; mret (r.1, mk <$> r.2).

Definition fetch (object : Ptr) (type : Preference_ValueType) : SO CMem (Code * option Typed) :=
  match type with
  | PREFERENCE_TYPE_INT => given (OH_PreferencesValue_GetInt object true) TInt
  | PREFERENCE_TYPE_BOOL => given (OH_PreferencesValue_GetBool object true) TBool
  | PREFERENCE_TYPE_STRING => taken (OH_PreferencesValue_GetString object true true) (fun p _ => take_string p) TString
  | PREFERENCE_TYPE_INT64 => given (OH_PreferencesValue_GetInt64 object true) TInt64
  | PREFERENCE_TYPE_DOUBLE => given (OH_PreferencesValue_GetDouble object true) TDouble
  | PREFERENCE_TYPE_INT_ARRAY => taken (OH_PreferencesValue_GetIntArray object true true) take_ints TIntArray
  | PREFERENCE_TYPE_BOOL_ARRAY => taken (OH_PreferencesValue_GetBoolArray object true true) take_bools TBoolArray
  | PREFERENCE_TYPE_STRING_ARRAY => taken (OH_PreferencesValue_GetStringArray object true true) take_strings TStringArray
  | PREFERENCE_TYPE_INT64_ARRAY => taken (OH_PreferencesValue_GetInt64Array object true true) take_ints TInt64Array
  | PREFERENCE_TYPE_DOUBLE_ARRAY => taken (OH_PreferencesValue_GetDoubleArray object true true) take_ints TDoubleArray
  | PREFERENCE_TYPE_BLOB => taken (OH_PreferencesValue_GetBlob object true true) take_ints TBlob
  | PREFERENCE_TYPE_NULL | PREFERENCE_TYPE_BUTT => mret (PREFERENCES_ERROR_KEY_NOT_FOUND, None)
  end.
End client.

(** ** Facts *)

(** The pointer is one of a value object that holds [v]. *)
Definition holds (m : CMem) (r : positive) (v : PreferencesValue) : Prop :=
  heap m !! r = Some (CValue (mkValueImpl PREFERENCES_OH_VALUE_CID v)).

Lemma GetSelf_holds m r v : holds m r v ->
  GetSelf (Some r) m = Done (Some (r, mkValueImpl PREFERENCES_OH_VALUE_CID v), m).
Proof.
  intros Hv. unfold GetSelf. rewrite (so_bind_Done _ _ _ _ _ (read_cid_eq _ _ _ _ Hv eq_refl)).
  cbn [v_cid]. rewrite PreferencesStructValidCheck_refl. cbn [negb].
  by rewrite (so_bind_Done _ _ _ _ _ (load_eq _ _ _ Hv)).
Qed.

Lemma value_get_holds {A} m r v is_type (conv : PreferencesValue -> SO CMem (Code * option A)) : holds m r v ->
  value_get (Some r) true is_type conv m =
    if is_type v then conv v m else Done ((PREFERENCES_ERROR_KEY_NOT_FOUND, None), m).
Proof.
  intros Hv. unfold value_get. rewrite (so_bind_Done _ _ _ _ _ (GetSelf_holds _ _ _ Hv)).
  cbn [negb value_]. by destruct (is_type v).
Qed.

Lemma value_set_holds m r v a : holds m r v ->
  value_set (Some r) (Done (Some a)) m =
    Done (PREFERENCES_OK, set_heap (<[r := CValue (mkValueImpl PREFERENCES_OH_VALUE_CID a)]> (heap m)) m).
Proof.
  intros Hv. unfold value_set. rewrite (so_bind_Done _ _ _ _ _ (GetSelf_holds _ _ _ Hv)).
  rewrite (so_bind_out _ _ _ _ eq_refl). by rewrite (so_bind_Done _ _ _ _ _ (store_eq _ _ _ _ Hv)).
Qed.

(** An allocation gives the next reference, or fails as it was to. *)
Lemma alloc_cases o m : mem_ok m ->
  (exists m', alloc_c o m = (Some (next_ptr m), m') /\ heap m' = <[next_ptr m := o]> (heap m) /\ mem_ok m' /\
     allocates m' = allocates m /\ (next_ptr m < next_ptr m')%positive) \/
  (exists m', alloc_c o m = (None, m') /\ heap m' = heap m /\ mem_ok m' /\ allocates m' = allocates m /\
     exists n, allocates m n = false).
Proof.
  intros Hm. pose proof (mem_ok_alloc o m Hm) as Hm'. unfold alloc_c in *. destruct (allocates m (allocations m)) eqn:E; cbn in *.
  - left. eexists. split; [reflexivity|]. split_and!; [done|done|done|cbn; lia].
  - right. eexists. split; [reflexivity|]. split_and!; [done..|by eexists].
Qed.

Definition NUL : ascii := "000"%char.

(** The buffer of a C string. *)
Definition c_buffer (s : string) : CObj := CChars (chars s ++ [Val NUL]).

Lemma read_chars_buffer s : read_chars (chars s ++ [Val NUL]) = Done (c_str s).
Proof.
  induction s as [|c s IH]; [done|]. unfold chars in *. cbn [String.list_ascii_of_string map app read_chars c_str].
  case_decide; [done|]. by rewrite IH.
Qed.

Lemma take_string_buffer m r s : heap m !! r = Some (c_buffer s) ->
  take_string (Some r) m = Done (c_str s, set_heap (delete r (heap m)) m).
Proof.
  intros Hr. unfold take_string. rewrite (so_bind_Done _ _ _ _ _ (load_eq _ _ _ Hr)). cbn [c_buffer].
  rewrite (so_bind_out _ _ _ _ (read_chars_buffer s)). by rewrite (so_bind_Done _ _ _ _ _ (free_eq _ _ _ Hr)).
Qed.

Section client_facts.
Context `{SecurecLaws}.

Lemma small_string_spec s : small_string s = true -> c_str s = s /\ slen s + 1 < 2 ^ 31 /\ 0 <= slen s.
Proof.
  unfold small_string. intros [Hn Hl]%andb_true_iff. apply Z.ltb_lt in Hl. split; [by apply c_str_no_nul|].
  unfold slen in *. lia.
Qed.

(** The string is copied to a new buffer, or the allocation fails. *)
Lemma string_out_spec s m : slen s + 1 < 2 ^ 31 -> mem_ok m ->
  (exists m', string_out s m = Done ((PREFERENCES_OK, Some (Some (next_ptr m), slen s + 1)), m') /\
     heap m' = <[next_ptr m := c_buffer s]> (heap m) /\ mem_ok m' /\ allocates m' = allocates m) \/
  (exists m', string_out s m = Done ((PREFERENCES_ERROR_MALLOC, None), m') /\ heap m' = heap m /\ mem_ok m' /\
     allocates m' = allocates m /\ exists n, allocates m n = false).
Proof.
  intros Hs Hm. assert (Hpos : 0 <= slen s) by (unfold slen; lia). unfold string_out.
  rewrite (proj2 (Z.leb_gt SIZE_MAX (slen s))) by (unfold SIZE_MAX; lia).
  rewrite memset_s_small by lia. rewrite so_bind_st. set (o := CChars (replicate _ _)).
  destruct (alloc_cases o m Hm) as [(m1 & E & Hh & Hm1 & Ha & _)|(m1 & E & Hh & Hm1 & Ha & Hn)]; rewrite E; cbn [fst snd].
  2: { right. by eexists. }
  left. assert (Hw : wrap_u 32 (slen s + 1) = slen s + 1) by (apply wrap_u_id, in_u_spec; lia).
  destruct (0 <? slen s) eqn:El; bools.
  - rewrite memcpy_s_small by lia. cbn [negb].
    assert (Hr : heap m1 !! next_ptr m = Some o) by (rewrite Hh; apply lookup_insert_eq).
    rewrite (so_bind_Done _ _ _ _ _ (store_eq _ _ _ _ Hr)), Hw. eexists. split; [reflexivity|]. cbn. split.
    + by rewrite Hh, insert_insert_eq.
    + split; [|done]. apply mem_ok_heap; [done|]. intros q. rewrite lookup_insert_is_Some'. intros [<-|?]; [by rewrite Hr|done].
  - rewrite Hw. eexists. split; [reflexivity|]. split; [|done]. rewrite Hh. unfold o. unfold slen in *.
    destruct s; [done|]. cbn in *. lia.
Qed.
End client_facts.

(** *** Arrays of strings in memory *)

(** The buffers of the strings [vec] at the references [rs]. *)
Definition buffers (rs : list positive) (vec : list string) : list (positive * CObj) :=
  zip_with (fun r s => (r, c_buffer s)) rs vec.

Definition putall (rs : list positive) (vec : list string) (h : gmap positive CObj) : gmap positive CObj :=
  puts (buffers rs vec) h.

Lemma buffers_refs rs vec : length rs = length vec -> (buffers rs vec).*1 = rs.
Proof. intros Hl. unfold buffers. rewrite fmap_zip_with_l; [done..|lia]. Qed.

Lemma putall_ne rs vec h q : length rs = length vec -> q ∉ rs -> putall rs vec h !! q = h !! q.
Proof. intros Hl Hq. apply puts_ne. by rewrite buffers_refs. Qed.

Lemma putall_in rs vec h k r s : length rs = length vec -> NoDup rs -> rs !! k = Some r -> vec !! k = Some s ->
  putall rs vec h !! r = Some (c_buffer s).
Proof.
  intros Hl Hn Hr Hs. apply puts_in; [by rewrite buffers_refs|]. apply list_elem_of_lookup. exists k.
  unfold buffers. by rewrite lookup_zip_with, Hr, Hs.
Qed.

Lemma putall_snoc rs vec h r s : length rs = length vec ->
  putall (rs ++ [r]) (vec ++ [s]) h = <[r := c_buffer s]> (putall rs vec h).
Proof. intros Hl. unfold putall, buffers. by rewrite zip_with_app, puts_app. Qed.

Lemma index_lookup {A} (l : list A) (k : nat) a : l !! k = Some a -> index_ l (Z.of_nat k) = Done a.
Proof. intros E. unfold index_. by rewrite Nat2Z.id, E. Qed.

Lemma free_cells_spec arr l rs : forall j m, heap m !! arr = Some (CStrings l) ->
  (forall k r, rs !! k = Some r -> l !! (j + k)%nat = Some (Val (Some r))) -> NoDup rs -> arr ∉ rs ->
  (forall r, r ∈ rs -> is_Some (heap m !! r)) ->
  free_cells arr j (length rs) m = Done (tt, set_heap (del rs (heap m)) m).
Proof.
  induction rs as [|r rs IH]; intros j m Ha Hc Hn Hr Hs; [by destruct m|].
  apply NoDup_cons in Hn as [Hrn Hn]. apply not_elem_of_cons in Hr as [Hne Hr].
  destruct (Hs r ltac:(left)) as [o Ho]. cbn [length free_cells del].
  rewrite (so_bind_Done _ _ _ _ _ (load_eq _ _ _ Ha)). unfold mbind at 1, so_bind at 1.
  specialize (Hc O r eq_refl) as Hc0. rewrite Nat.add_0_r in Hc0.
  rewrite (so_bind_out _ _ _ _ (index_lookup _ _ _ Hc0)), (so_bind_out (read_cell (Val (Some r))) _ _ _ eq_refl), (free_eq _ _ _ Ho).
  rewrite (IH (S j)); cbn [heap set_heap]; [done|by rewrite lookup_delete_ne| |done|done|].
  - intros k q Hk. rewrite Nat.add_succ_l, <- Nat.add_succ_r. by apply (Hc (S k)).
  - intros q Hq. rewrite lookup_delete_ne by (intros ->; done). apply Hs. by right.
Qed.

Lemma take_cells_spec arr l rs vec : length rs = length vec -> forall j m, heap m !! arr = Some (CStrings l) ->
  (forall k r, rs !! k = Some r -> l !! (j + k)%nat = Some (Val (Some r))) -> NoDup rs -> arr ∉ rs ->
  (forall k r s, rs !! k = Some r -> vec !! k = Some s -> heap m !! r = Some (c_buffer s)) ->
  take_cells arr j (length vec) m = Done (map c_str vec, set_heap (del rs (heap m)) m).
Proof.
  revert vec. induction rs as [|r rs IH]; intros [|s vec] Hl j m Ha Hc Hn Hr Hs; try done; [by destruct m|].
  apply NoDup_cons in Hn as [Hrn Hn]. apply not_elem_of_cons in Hr as [Hne Hr]. injection Hl as Hl.
  pose proof (Hs O r s eq_refl eq_refl) as Ho. cbn [length take_cells del map].
  rewrite (so_bind_Done _ _ _ _ _ (load_eq _ _ _ Ha)).
  specialize (Hc O r eq_refl) as Hc0. rewrite Nat.add_0_r in Hc0.
  rewrite (so_bind_out _ _ _ _ (index_lookup _ _ _ Hc0)), (so_bind_out (read_cell (Val (Some r))) _ _ _ eq_refl).
  rewrite (so_bind_Done _ _ _ _ _ (take_string_buffer _ _ _ Ho)).
  assert (E : take_cells arr (S j) (length vec) (set_heap (delete r (heap m)) m) =
    Done (map c_str vec, set_heap (del rs (delete r (heap m))) (set_heap (delete r (heap m)) m))).
  { apply IH; cbn [heap set_heap]; [done|by rewrite lookup_delete_ne| |done|done|].
    - intros k q Hk. rewrite Nat.add_succ_l, <- Nat.add_succ_r. by apply (Hc (S k)).
    - intros k q s' Hq Hk. rewrite lookup_delete_ne; [by apply (Hs (S k))|].
      intros ->. apply Hrn. by eapply list_elem_of_lookup_2. }
  by rewrite (so_bind_Done _ _ _ _ _ E).
Qed.

(** The array [arr] with the buffers of [vec] at [rs], and room for [n] more,
    in a memory that was [h] before. *)
Record filling (h : gmap positive CObj) (arr : positive) (rs : list positive) (vec : list string) (n : nat) (m : CMem) : Prop := {
  fl_heap : heap m = <[arr := CStrings (map (fun r => Val (Some r)) rs ++ replicate n Uninit)]> (putall rs vec h);
  fl_len : length rs = length vec;
  fl_nodup : NoDup rs;
  fl_fresh r : r ∈ rs -> h !! r = None;
  fl_arr : arr ∉ rs;
  fl_harr : h !! arr = None;
  fl_ok : mem_ok m
}.

Lemma filling_cells h arr rs vec n m : filling h arr rs vec n m ->
  heap m !! arr = Some (CStrings (map (fun r => Val (Some r)) rs ++ replicate n Uninit)) /\
  (forall k r, rs !! k = Some r -> (map (fun r => Val (Some r)) rs ++ replicate n Uninit) !! (0 + k)%nat = Some (Val (Some r))) /\
  (forall k r s, rs !! k = Some r -> vec !! k = Some s -> heap m !! r = Some (c_buffer s)).
Proof.
  intros Hf. rewrite (fl_heap _ _ _ _ _ _ Hf). split; [apply lookup_insert_eq|]. split.
  - intros k r Hk. rewrite lookup_app_l by (rewrite length_map; by eapply lookup_lt_Some).
    cbn. change (map ?f rs) with (f <$> rs). by rewrite list_lookup_fmap, Hk.
  - intros k r s Hr Hs. rewrite lookup_insert_ne.
    + apply (putall_in _ _ _ k); [apply (fl_len _ _ _ _ _ _ Hf)|apply (fl_nodup _ _ _ _ _ _ Hf)|done..].
    + intros ->. apply (fl_arr _ _ _ _ _ _ Hf). by eapply list_elem_of_lookup_2.
Qed.

(** Freeing the strings and the array gives the memory back. *)
Lemma filling_free h arr rs vec n m : filling h arr rs vec n m -> delete arr (del rs (heap m)) = h.
Proof.
  intros Hf. apply map_eq. intros q. rewrite (fl_heap _ _ _ _ _ _ Hf).
  destruct (decide (q = arr)) as [->|Hne]; [by rewrite lookup_delete_eq, (fl_harr _ _ _ _ _ _ Hf)|].
  rewrite lookup_delete_ne, del_lookup by done. case_decide as Hq; [by rewrite (fl_fresh _ _ _ _ _ _ Hf)|].
  rewrite lookup_insert_ne by done. apply putall_ne; [apply (fl_len _ _ _ _ _ _ Hf)|done].
Qed.

(** A memory with the same heap is filled as far. *)
Lemma filling_heap h arr rs vec n m m' : filling h arr rs vec n m -> heap m' = heap m -> mem_ok m' -> filling h arr rs vec n m'.
Proof. intros [] Hh Hm. split; try done. by rewrite Hh. Qed.

(** What is undone when a string cannot be copied. *)
Lemma filling_undo h arr rs vec n m : filling h arr rs vec n m ->
  exists m', (free_cells arr 0 (length rs);; free (Some arr);; mret false) m = Done (false, m') /\ heap m' = h /\ mem_ok m'.
Proof.
  intros Hf. destruct (filling_cells _ _ _ _ _ _ Hf) as (Ha & Hc & Hs).
  assert (Hin : forall r, r ∈ rs -> is_Some (heap m !! r)).
  { intros r [k Hk]%list_elem_of_lookup. destruct (lookup_lt_is_Some_2 vec k) as [s Hk2].
    - rewrite <- (fl_len _ _ _ _ _ _ Hf). by eapply lookup_lt_Some.
    - eexists. by eapply Hs. }
  rewrite (so_bind_Done _ _ _ _ _ (free_cells_spec arr _ rs 0 m Ha Hc (fl_nodup _ _ _ _ _ _ Hf) (fl_arr _ _ _ _ _ _ Hf) Hin)).
  assert (Ha2 : heap (set_heap (del rs (heap m)) m) !! arr = heap m !! arr).
  { cbn. rewrite del_lookup, decide_False by apply (fl_arr _ _ _ _ _ _ Hf). done. }
  rewrite Ha in Ha2. rewrite (so_bind_Done _ _ _ _ _ (free_eq _ _ _ Ha2)). eexists. split; [reflexivity|].
  cbn. rewrite (filling_free _ _ _ _ _ _ Hf). split; [done|].
  apply (mem_ok_heap h m (fl_ok _ _ _ _ _ _ Hf)). intros q. rewrite <- (filling_free _ _ _ _ _ _ Hf).
  rewrite lookup_delete_is_Some, del_lookup. intros [_ Hq]. case_decide; [by destruct Hq|done].
Qed.

(** One more string was copied. *)
Lemma filling_next h arr rs vec n s m m' : filling h arr rs vec (S n) m ->
  heap m' = <[arr := CStrings (<[length rs := Val (Some (next_ptr m))]> (map (fun r => Val (Some r)) rs ++ replicate (S n) Uninit))]>
              (<[next_ptr m := c_buffer s]> (heap m)) -> mem_ok m' ->
  filling h arr (rs ++ [next_ptr m]) (vec ++ [s]) n m'.
Proof.
  intros Hf Hh Hm. destruct (filling_cells _ _ _ _ _ _ Hf) as (Ha & Hc & Hs).
  pose proof (fl_ok _ _ _ _ _ _ Hf (next_ptr m) ltac:(lia)) as Hnew.
  assert (Hna : next_ptr m <> arr) by (intros E; rewrite E in Hnew; congruence).
  assert (Hnr : next_ptr m ∉ rs).
  { intros [k Hk]%list_elem_of_lookup. destruct (lookup_lt_is_Some_2 vec k) as [s' Hk2].
    - rewrite <- (fl_len _ _ _ _ _ _ Hf). by eapply lookup_lt_Some.
    - pose proof (Hs _ _ _ Hk Hk2). congruence. }
  destruct Hf as [F1 F2 F3 F4 F5 F6 F7]. split.
  - rewrite Hh, F1, (insert_insert_ne (putall rs vec h) (next_ptr m) arr), insert_insert_eq, putall_snoc by done.
    do 2 f_equal. rewrite map_app, <- app_assoc. cbn [map app].
    rewrite insert_app_r_alt by (rewrite length_map; lia). rewrite length_map, Nat.sub_diag. done.
  - rewrite !length_app. cbn. lia.
  - apply NoDup_app. split; [done|]. split; [|apply NoDup_singleton]. intros r Hr ->%list_elem_of_singleton. done.
  - intros r [Hr|Hr%list_elem_of_singleton]%elem_of_app; [auto|]. subst r.
    rewrite F1, lookup_insert_ne, putall_ne in Hnew by done. done.
  - rewrite not_elem_of_app, list_elem_of_singleton. auto.
  - done.
  - done.
Qed.

Section strings_facts.
Context `{SecurecLaws}.

Lemma fill_strings_spec h arr todo : forall rs vec m, filling h arr rs vec (length todo) m -> forallb small_string todo = true ->
  (exists rs' m', fill_strings arr (length rs) todo m = Done (true, m') /\ filling h arr rs' (vec ++ todo) 0 m') \/
  (exists m', fill_strings arr (length rs) todo m = Done (false, m') /\ heap m' = h /\ mem_ok m' /\
     exists n, allocates m n = false).
Proof.
  induction todo as [|s todo IH]; intros rs vec m Hf Hsm.
  { left. exists rs, m. by rewrite app_nil_r. }
  cbn [forallb] in Hsm. apply andb_true_iff in Hsm as [Hs Hsm].
  destruct (small_string_spec s Hs) as (_ & Hlen & Hpos). cbn [fill_strings length]. rewrite so_bind_st. set (o := CChars _).
  pose proof (fl_ok _ _ _ _ _ _ Hf) as Hm.
  destruct (alloc_cases o m Hm) as [(m1 & E & Hh & Hm1 & Hal & _)|(m1 & E & Hh & Hm1 & _ & Hn)]; rewrite E; cbn [fst snd].
  2: { right. destruct (filling_undo h arr rs vec _ m1 (filling_heap _ _ _ _ _ _ _ Hf Hh Hm1)) as (m2 & E2 & Hh2 & Hm2).
       by exists m2. }
  rewrite memcpy_s_small by lia. cbn [negb].
  destruct (filling_cells _ _ _ _ _ _ Hf) as (Ha & Hc & _). pose proof (Hm (next_ptr m) ltac:(lia)) as Hnew.
  assert (Hr : heap m1 !! next_ptr m = Some o) by (rewrite Hh; apply lookup_insert_eq).
  rewrite (so_bind_Done _ _ _ _ _ (store_eq _ _ _ _ Hr)). set (m2 := set_heap _ m1).
  assert (Ha2 : heap m2 !! arr = Some (CStrings (map (fun r => Val (Some r)) rs ++ replicate (S (length todo)) Uninit))).
  { cbn. rewrite Hh, insert_insert_eq, lookup_insert_ne; [exact Ha|congruence]. }
  rewrite (so_bind_Done _ _ _ _ _ (load_eq _ _ _ Ha2)), (so_bind_Done _ _ _ _ _ (store_eq _ _ _ _ Ha2)). set (m3 := set_heap _ m2).
  assert (Hm3 : mem_ok m3).
  { apply mem_ok_heap; [apply mem_ok_heap; [done|]|]; intros q; rewrite lookup_insert_is_Some'; intros [<-|?]; try done; by eexists. }
  assert (Hf3 : filling h arr (rs ++ [next_ptr m]) (vec ++ [s]) (length todo) m3).
  { apply (filling_next _ _ _ _ _ _ m); [done| |done]. cbn. by rewrite Hh, insert_insert_eq. }
  destruct (IH _ _ _ Hf3 Hsm) as [(rs' & m' & E3 & Hf')|(m' & E3 & Hh' & Hm' & Hn')];
    rewrite length_app, Nat.add_1_r in E3; [left|right].
  - exists rs', m'. rewrite <- app_assoc in Hf'. done.
  - exists m'. split; [exact E3|]. split; [done|]. split; [done|]. cbn in Hn'. by rewrite <- Hal.
Qed.
End strings_facts.

(** *** Getting what was set *)

(** What a getter of the type [ty] answers of an object that holds [t]. *)
Definition answer (t : Typed) (ty : Preference_ValueType) : Code * option Typed :=
  if decide (ty = typed_type t) then (PREFERENCES_OK, Some t) else (PREFERENCES_ERROR_KEY_NOT_FOUND, None).

(** A getter followed by its reader: the answer, or a failed allocation, and
    no trace in memory. *)
Definition gets_or_fails {A} (c : A) (fail : A) (x : outcome (A * CMem)) (m : CMem) : Prop :=
  exists a m', x = Done (a, m') /\ heap m' = heap m /\ mem_ok m' /\
    (a = c \/ a = fail /\ exists n, allocates m n = false).

Lemma gets_now {A} (c fail : A) m : mem_ok m -> gets_or_fails c fail (Done (c, m)) m.
Proof. intros Hm. exists c, m. auto. Qed.

Lemma gets_failed {A} (c fail : A) m m' : heap m' = heap m -> mem_ok m' -> (exists n, allocates m n = false) ->
  gets_or_fails c fail (Done (fail, m')) m.
Proof. intros. exists fail, m'. split_and!; [done..|by right]. Qed.

(** What the reader freed was allocated by the getter. *)
Lemma gets_freed {A} (c fail : A) o m m' : mem_ok m -> mem_ok m' -> heap m' = <[next_ptr m := o]> (heap m) ->
  gets_or_fails c fail (Done (c, set_heap (delete (next_ptr m) (heap m')) m')) m.
Proof.
  intros Hm Hm' Hh. eexists _, _. split; [reflexivity|]. split_and!; [|..|by left].
  - cbn. by rewrite Hh, alloc_free.
  - apply mem_ok_heap; [done|]. intros q. by rewrite lookup_delete_is_Some; intros [_ ?].
Qed.

Lemma CopyArrayOut_taken {T} layout (l : list T) take mk m : small_count l = true -> mem_ok m ->
  (forall m r, heap m !! r = Some (layout l) -> take (Some r) (Z.of_nat (length l)) m = Done (l, set_heap (delete r (heap m)) m)) ->
  gets_or_fails (PREFERENCES_OK, Some (mk l)) (PREFERENCES_ERROR_MALLOC, None)
    (taken (CopyArrayOut layout l true true) take mk m) m.
Proof.
  intros Hl Hm Ht. unfold small_count in Hl. apply Z.leb_le in Hl. unfold taken, CopyArrayOut. cbn [negb andb].
  rewrite (proj2 (Z.ltb_ge _ _) Hl). unfold mbind at 1, so_bind at 1. rewrite so_bind_st.
  rewrite wrap_u_id by (apply in_u_spec; unfold UINT32_MAX in Hl; lia).
  destruct (alloc_cases (layout l) m Hm) as [(m1 & E & Hh & Hm1 & _)|(m1 & E & Hh & Hm1 & _ & Hn)]; rewrite E; cbn [fst snd].
  2: { exact (gets_failed _ _ _ _ Hh Hm1 Hn). }
  assert (Hr : heap m1 !! next_ptr m = Some (layout l)) by (rewrite Hh; apply lookup_insert_eq).
  cbn -[set_heap]. rewrite (so_bind_Done _ _ _ _ _ (Ht m1 _ Hr)).
  exact (gets_freed _ _ _ _ _ Hm Hm1 Hh).
Qed.

Lemma take_ints_all l m r : heap m !! r = Some (CInts l) ->
  take_ints (Some r) (Z.of_nat (length l)) m = Done (l, set_heap (delete r (heap m)) m).
Proof.
  intros Hr. unfold take_ints. rewrite (so_bind_Done _ _ _ _ _ (load_eq _ _ _ Hr)). unfold vector_from.
  rewrite Z.leb_refl, Nat2Z.id, firstn_all. rewrite (so_bind_out _ _ _ _ eq_refl). by rewrite (so_bind_Done _ _ _ _ _ (free_eq _ _ _ Hr)).
Qed.

Lemma take_bools_all l m r : heap m !! r = Some (CBools l) ->
  take_bools (Some r) (Z.of_nat (length l)) m = Done (l, set_heap (delete r (heap m)) m).
Proof.
  intros Hr. unfold take_bools. rewrite (so_bind_Done _ _ _ _ _ (load_eq _ _ _ Hr)). unfold vector_from.
  rewrite Z.leb_refl, Nat2Z.id, firstn_all. rewrite (so_bind_out _ _ _ _ eq_refl). by rewrite (so_bind_Done _ _ _ _ _ (free_eq _ _ _ Hr)).
Qed.

Section fetch_facts.
Context `{SecurecLaws}.

Lemma GetString_taken m r s : holds m r (VString s) -> small_string s = true -> mem_ok m ->
  gets_or_fails (answer (TString s) PREFERENCE_TYPE_STRING) (PREFERENCES_ERROR_MALLOC, None) (fetch (Some r) PREFERENCE_TYPE_STRING m) m.
Proof.
  intros Hv Hs Hm. unfold fetch, taken, OH_PreferencesValue_GetString. cbn [andb]. unfold mbind at 1, so_bind at 1.
  rewrite (value_get_holds _ _ _ _ _ Hv). cbn [IsString as_string convert]. rewrite (so_bind_out _ _ _ _ eq_refl).
  destruct (small_string_spec s Hs) as (Hc & Hlen & _). destruct (string_out_spec s m Hlen Hm) as [(m' & E & Hh & Hm' & _)|(m' & E & Hh & Hm' & _ & Hn)]; rewrite E.
  2: { exact (gets_failed _ _ _ _ Hh Hm' Hn). }
  assert (Hr : heap m' !! next_ptr m = Some (c_buffer s)) by (rewrite Hh; apply lookup_insert_eq).
  rewrite (so_bind_Done _ _ _ _ _ (take_string_buffer _ _ _ Hr)), Hc.
  exact (gets_freed _ _ _ _ _ Hm Hm' Hh).
Qed.

Lemma map_c_str vec : forallb small_string vec = true -> map c_str vec = vec.
Proof. apply forallb_map_id. intros s Hs. by apply small_string_spec in Hs as (-> & _). Qed.

Lemma GetStringArray_taken m r vec : holds m r (VStringArray vec) -> typed_ok (TStringArray vec) = true -> mem_ok m ->
  gets_or_fails (answer (TStringArray vec) PREFERENCE_TYPE_STRING_ARRAY) (PREFERENCES_ERROR_MALLOC, None)
    (fetch (Some r) PREFERENCE_TYPE_STRING_ARRAY m) m.
Proof.
  intros Hv Hok Hm. cbn [typed_ok] in Hok. apply andb_true_iff in Hok as [[Hs Hc]%andb_true_iff Hne].
  unfold small_count in Hc. apply Z.leb_le in Hc. apply negb_true_iff, bool_decide_eq_false in Hne.
  unfold fetch, taken, OH_PreferencesValue_GetStringArray. cbn [andb]. unfold mbind at 1, so_bind at 1.
  rewrite (value_get_holds _ _ _ _ _ Hv). cbn [IsStringArray as_string_array convert]. rewrite (so_bind_out _ _ _ _ eq_refl).
  destruct (length vec =? 0)%nat eqn:El; [apply Nat.eqb_eq in El; by destruct vec|]. rewrite so_bind_st.
  destruct (alloc_cases (CStrings (replicate (length vec) Uninit)) m Hm) as [(m1 & E & Hh & Hm1 & Hal & _)|(m1 & E & Hh & Hm1 & _ & Hn)];
    rewrite E; cbn [fst snd].
  2: { exact (gets_failed _ _ _ _ Hh Hm1 Hn). }
  assert (Hf : filling (heap m) (next_ptr m) [] [] (length vec) m1).
  { split; try done; [apply NoDup_nil_2|by intros q Hq; inv Hq|by intros Hq; inv Hq|apply Hm; lia]. }
  destruct (fill_strings_spec _ _ vec [] [] m1 Hf Hs) as [(rs & m2 & E2 & Hf2)|(m2 & E2 & Hh2 & Hm2 & Hn)];
    cbn [length] in E2; rewrite (so_bind_Done _ _ _ _ _ E2).
  2: { rewrite Hal in Hn. exact (gets_failed _ _ _ _ Hh2 Hm2 Hn). }
  cbn [app] in Hf2. destruct (filling_cells _ _ _ _ _ _ Hf2) as (Ha & Hcell & Hstr).
  rewrite wrap_u_id by (apply in_u_spec; unfold UINT32_MAX in Hc; lia). cbn -[take_cells free heap Z.of_nat Z.to_nat]. unfold take_strings. rewrite Nat2Z.id.
  cbn -[take_cells free heap]. unfold mbind at 1, so_bind at 1.
  rewrite (so_bind_Done _ _ _ _ _ (take_cells_spec _ _ _ _ (fl_len _ _ _ _ _ _ Hf2) 0 m2 Ha Hcell (fl_nodup _ _ _ _ _ _ Hf2) (fl_arr _ _ _ _ _ _ Hf2) Hstr)).
  assert (Ha3 : heap (set_heap (del rs (heap m2)) m2) !! next_ptr m = heap m2 !! next_ptr m).
  { cbn. rewrite del_lookup, decide_False by apply (fl_arr _ _ _ _ _ _ Hf2). done. }
  rewrite Ha in Ha3. rewrite (so_bind_Done _ _ _ _ _ (free_eq _ _ _ Ha3)), map_c_str by done. cbn [heap set_heap].
  exists (answer (TStringArray vec) PREFERENCE_TYPE_STRING_ARRAY), (set_heap (heap m) m2). rewrite (filling_free _ _ _ _ _ _ Hf2).
  split; [done|]. split; [done|]. split; [|by left]. apply mem_ok_heap; [apply (fl_ok _ _ _ _ _ _ Hf2)|]. intros q.
  rewrite <- (filling_free _ _ _ _ _ _ Hf2), lookup_delete_is_Some, del_lookup. intros [_ Hq]. case_decide; [by destruct Hq|done].
Qed.
End fetch_facts.

Lemma vector_from_all {T} (l : list T) : vector_from l (Z.of_nat (length l)) = Done l.
Proof. unfold vector_from. by rewrite Z.leb_refl, Nat2Z.id, firstn_all. Qed.

Lemma strings_from_all (l : list string) : strings_from (map Some l) (length l) = Done (Some (map c_str l)).
Proof. induction l as [|s l IH]; [done|]. cbn [map length strings_from]. by rewrite IH. Qed.

Section typed_facts.
Context `{SecurecLaws}.

Lemma set_typed_spec m r v t : holds m r v -> typed_ok t = true ->
  set_typed (Some r) t m =
    Done (PREFERENCES_OK, set_heap (<[r := CValue (mkValueImpl PREFERENCES_OH_VALUE_CID (typed_value t))]> (heap m)) m).
Proof.
  intros Hv Hok. rewrite <- (value_set_holds m r v _ Hv).
  destruct t as [z|b|s|z|z|l|l|l|l|l|l]; try done; cbn [set_typed typed_value typed_ok] in *.
  - unfold OH_PreferencesValue_SetString. cbn. by destruct (small_string_spec s Hok) as (-> & _).
  - unfold OH_PreferencesValue_SetIntArray, array_arg. by rewrite vector_from_all.
  - unfold OH_PreferencesValue_SetBoolArray, array_arg. by rewrite vector_from_all.
  - apply andb_true_iff in Hok as [[Hs _]%andb_true_iff _].
    unfold OH_PreferencesValue_SetStringArray, strings_arg. by rewrite Nat2Z.id, strings_from_all, map_c_str.
  - apply andb_true_iff in Hok as [_ Hne]. apply negb_true_iff, bool_decide_eq_false in Hne.
    unfold OH_PreferencesValue_SetInt64Array, array_arg. rewrite vector_from_all.
    by destruct l.
  - unfold OH_PreferencesValue_SetDoubleArray, array_arg. by rewrite vector_from_all.
  - unfold OH_PreferencesValue_SetBlob, array_arg. by rewrite vector_from_all.
Qed.

Lemma GetValueType_holds m r t : holds m r (typed_value t) ->
  OH_PreferencesValue_GetValueType (Some r) m = Done (typed_type t, m).
Proof.
  intros Hv. unfold OH_PreferencesValue_GetValueType. rewrite (so_bind_Done _ _ _ _ _ (GetSelf_holds _ _ _ Hv)).
  by destruct t.
Qed.

Lemma array_fetched {T} (layout : list T -> CObj) take mk is_type conv m r v (l : list T) : holds m r v ->
  is_type v = true -> conv v = Some l -> small_count l = true -> mem_ok m ->
  (forall m r, heap m !! r = Some (layout l) -> take (Some r) (Z.of_nat (length l)) m = Done (l, set_heap (delete r (heap m)) m)) ->
  gets_or_fails (PREFERENCES_OK, Some (mk l)) (PREFERENCES_ERROR_MALLOC, None)
    (taken (array_get layout (Some r) true true is_type conv) take mk m) m.
Proof.
  intros Hv Ht Hc Hl Hm Htake. pose proof (CopyArrayOut_taken layout l take mk m Hl Hm Htake) as Hg.
  unfold taken, array_get in *. unfold mbind at 1, so_bind at 1. cbn [andb]. rewrite (value_get_holds _ _ _ _ _ Hv), Ht, Hc.
  cbn [convert]. rewrite (so_bind_out _ _ _ _ eq_refl). exact Hg.
Qed.

Lemma bools_fetched m r l : holds m r (VBoolArray l) -> small_count l = true -> mem_ok m ->
  gets_or_fails (PREFERENCES_OK, Some (TBoolArray l)) (PREFERENCES_ERROR_MALLOC, None)
    (fetch (Some r) PREFERENCE_TYPE_BOOL_ARRAY m) m.
Proof.
  intros Hv Hl Hm.
  assert (E : OH_PreferencesValue_GetBoolArray (Some r) true true m = array_get CBools (Some r) true true IsBoolArray as_bool_array m).
  { unfold OH_PreferencesValue_GetBoolArray, array_get. cbn [andb]. rewrite !(value_get_holds _ _ _ _ _ Hv). cbn [IsBoolArray as_bool_array convert].
    rewrite !(so_bind_out _ _ _ _ eq_refl). unfold CopyArrayOut. cbn [negb andb]. unfold small_count in Hl. apply Z.leb_le in Hl.
    rewrite (proj2 (Z.ltb_ge _ _) Hl). unfold mbind at 1, so_bind at 1. rewrite so_bind_st.
    by destruct (alloc_c _ m) as [[]]. }
  pose proof (array_fetched CBools take_bools TBoolArray IsBoolArray as_bool_array m r _ l Hv eq_refl eq_refl Hl Hm (take_bools_all l)) as Hg.
  unfold fetch, taken in *. revert Hg. unfold mbind at 1, so_bind at 1. rewrite <- E. by unfold mbind at 1, so_bind at 1.
Qed.

(** A getter of the right type gives what was set, another one says so, and
    only a failed allocation keeps the right one from it. *)
Lemma fetch_spec m r t ty : holds m r (typed_value t) -> typed_ok t = true -> mem_ok m ->
  gets_or_fails (answer t ty) (PREFERENCES_ERROR_MALLOC, None) (fetch (Some r) ty m) m.
Proof.
  intros Hv Hok Hm. destruct (decide (ty = typed_type t)) as [->|Hne].
  - assert (Ha : answer t (typed_type t) = (PREFERENCES_OK, Some t)) by (unfold answer; by rewrite decide_True).
    destruct t as [z|b|s|z|z|l|l|l|l|l|l]; cbn [typed_type typed_value typed_ok] in *; try rewrite Ha.
    1,2,4,5: unfold fetch, given, mbind at 1, so_bind at 1;
      unfold OH_PreferencesValue_GetInt, OH_PreferencesValue_GetBool, OH_PreferencesValue_GetInt64, OH_PreferencesValue_GetDouble;
      rewrite (value_get_holds _ _ _ _ _ Hv); by apply gets_now.
    + rewrite <- Ha. by apply GetString_taken.
    + by apply (array_fetched CInts _ _ _ _ _ _ _ _ Hv); [..|apply take_ints_all].
    + by apply bools_fetched.
    + rewrite <- Ha. by apply GetStringArray_taken.
    + apply andb_true_iff in Hok as [Hl _]. by apply (array_fetched CInts _ _ _ _ _ _ _ _ Hv); [..|apply take_ints_all].
    + by apply (array_fetched CInts _ _ _ _ _ _ _ _ Hv); [..|apply take_ints_all].
    + by apply (array_fetched CInts _ _ _ _ _ _ _ _ Hv); [..|apply take_ints_all].
  - assert (E : fetch (Some r) ty m = Done (answer t ty, m)); [|rewrite E; by apply gets_now].
    unfold answer. rewrite decide_False by done. unfold fetch.
    destruct ty; try reflexivity; unfold given, taken, mbind at 1, so_bind at 1;
      unfold OH_PreferencesValue_GetInt, OH_PreferencesValue_GetBool, OH_PreferencesValue_GetInt64, OH_PreferencesValue_GetDouble,
        OH_PreferencesValue_GetString, OH_PreferencesValue_GetStringArray, OH_PreferencesValue_GetIntArray, OH_PreferencesValue_GetBoolArray,
        OH_PreferencesValue_GetInt64Array, OH_PreferencesValue_GetDoubleArray, OH_PreferencesValue_GetBlob, array_get; cbn [andb];
      rewrite (value_get_holds _ _ _ _ _ Hv); by destruct t.
Qed.
End typed_facts.

(** ** Properties *)

Section value_properties.
Context `{SecurecLaws}.

(** C18: A value object keeps one typed value.  Setting any of the eleven types
    through a valid pointer, within the bounds of the functions (texts without
    NUL and shorter than 2 GiB, counts of 32 bits, and not an empty array of
    strings, which its getter refuses, nor of 64-bit numbers, which its setter
    refuses), succeeds and changes no other object; the type is then the one
    that was set; a getter of this type hands out what was set, a getter of any
    other type answers that the key is not found, and an allocation that fails
    is reported as such.  After the caller has freed what it was given, and also
    when the getter failed half-way through an array of strings, the memory is
    as it was before. *)
Theorem value_object_typed (m : CMem) (r : positive) (v : PreferencesValue) (t : Typed)
    (Hv : holds m r v) (Hm : mem_ok m) (Hok : typed_ok t = true) :
  exists m1, set_typed (Some r) t m = Done (PREFERENCES_OK, m1) /\
    holds m1 r (typed_value t) /\ (forall q, q <> r -> heap m1 !! q = heap m !! q) /\
    OH_PreferencesValue_GetValueType (Some r) m1 = Done (typed_type t, m1) /\
    forall ty, exists a m2, fetch (Some r) ty m1 = Done (a, m2) /\ heap m2 = heap m1 /\
      (a = answer t ty \/ a = (PREFERENCES_ERROR_MALLOC, None) /\ exists n, allocates m n = false).
Proof.
  rewrite (set_typed_spec m r v t Hv Hok). eexists. split; [reflexivity|].
  set (m1 := set_heap _ m). assert (Hv1 : holds m1 r (typed_value t)) by apply lookup_insert_eq.
  split; [done|]. split; [intros q Hq; cbn; by rewrite lookup_insert_ne|]. split; [by apply GetValueType_holds|].
  intros ty. destruct (fetch_spec m1 r t ty Hv1 Hok) as (a & m2 & E & Hh & _ & Ha); [|by exists a, m2].
  apply mem_ok_heap; [done|]. intros q. rewrite lookup_insert_is_Some'. intros [<-|?]; [by rewrite Hv|done].
Qed.
End value_properties.

(** *** A concrete object *)

(** Functions for bounded memory that work within the bound of the library. *)
#[export] Instance ref_securec : Securec :=
  {| memset_s d n := (n <=? d) && (d <? 2 ^ 31); memcpy_s d n := (n <=? d) && (d <? 2 ^ 31) |}.

#[export] Instance ref_securec_laws : SecurecLaws.
Proof.
  split; intros; cbn [memset_s memcpy_s ref_securec]; apply andb_true_iff; split; (apply Z.leb_le || apply Z.ltb_lt); lia.
Qed.

(** One value object, and memory for three allocations. *)
Definition w_mem : CMem :=
  mkCMem {[1%positive := CValue (mkValueImpl PREFERENCES_OH_VALUE_CID VMonostate)]} 2 0 (fun n => (n <? 3)%nat).

Lemma w_mem_ok : mem_ok w_mem.
Proof. intros r Hr. cbn. apply lookup_singleton_ne. cbn in Hr. lia. Qed.

(** Three strings need four. *)
Example value_object_typed_witness :
  exists m1, set_typed (Some 1%positive) (TStringArray ["a"; "b"; "c"]) w_mem = Done (PREFERENCES_OK, m1) /\
    fetch (Some 1%positive) PREFERENCE_TYPE_STRING_ARRAY m1 <> Undef.
Proof.
  destruct (value_object_typed w_mem 1 VMonostate (TStringArray ["a"; "b"; "c"]) eq_refl w_mem_ok eq_refl)
    as (m1 & E & _ & _ & _ & Hf). exists m1. split; [exact E|].
  destruct (Hf PREFERENCE_TYPE_STRING_ARRAY) as (a & m2 & E2 & _). rewrite E2. discriminate.
Defined.
