(* ===== verification/NdkOption.v ===== *)
(** * The options of the C interface

    Models [oh_preferences_option.cpp] over the memory of [NdkMem].  The lock
    of an option object makes each accessor one step. *)

From S2P Require Import Prelude Errno Value Utils Env Store DbAdapter Base Impl Enhance Helper NdkMem.

(** [oh_preferences_option.h:60-65] Preferences_StorageType *)
Definition PREFERENCES_STORAGE_XML : Z := 0.
Definition PREFERENCES_STORAGE_GSKV : Z := 1.

(** [oh_convertor.cpp:44-50] NdkStorageTypeToNative *)
Definition NdkStorageTypeToNative (type : Z) : StorageType :=
  if type =? PREFERENCES_STORAGE_GSKV then GSKV else XML.

(** ** The object *)

(** [oh_preferences_option.cpp:26-35] SetFileName *)
Definition SetFileName (str : string) (o : OH_PreferencesOption) : Code * OH_PreferencesOption :=
  if bool_decide (str = "") then (PREFERENCES_ERROR_INVALID_PARAM, o)
  else (PREFERENCES_OK, mkOHOption (o_cid o) str (o_bundleName o) (o_dataGroupId o) (storageType o)).

(** [oh_preferences_option.cpp:37-41] SetBundleName *)
Definition SetBundleName (str : string) (o : OH_PreferencesOption) : OH_PreferencesOption :=
  mkOHOption (o_cid o) (fileName o) str (o_dataGroupId o) (storageType o).

(** [oh_preferences_option.cpp:43-47] SetDataGroupId *)
Definition SetDataGroupId (str : string) (o : OH_PreferencesOption) : OH_PreferencesOption :=
  mkOHOption (o_cid o) (fileName o) (o_bundleName o) str (storageType o).

(** [oh_preferences_option.cpp:49-53] SetStorageType *)
Definition SetStorageType (type : Z) (o : OH_PreferencesOption) : OH_PreferencesOption :=
  mkOHOption (o_cid o) (fileName o) (o_bundleName o) (o_dataGroupId o) type.

(** [oh_preferences_option.cpp:55-59] GetStorageType *)
Definition GetStorageType (o : OH_PreferencesOption) : Z := storageType o.
(** [oh_preferences_option.cpp:61-65] GetFileName *)
Definition GetFileName (o : OH_PreferencesOption) : string := fileName o.
(** [oh_preferences_option.cpp:67-71] GetBundleName *)
Definition OH_GetBundleName (o : OH_PreferencesOption) : string := o_bundleName o.
(** [oh_preferences_option.cpp:73-77] GetDataGroupId *)
Definition GetDataGroupId (o : OH_PreferencesOption) : string := o_dataGroupId o.

(** ** The functions *)

Section option_functions.
(** The build has the key-value database. *)
Context (gskvEnabled : bool).

(** [oh_preferences_option.cpp:79-92] OH_PreferencesOption_Create *)
Definition OH_PreferencesOption_Create : ST CMem Ptr :=
  let opt := mkOHOption PREFERENCES_OH_OPTION_CID "" "" "" PREFERENCES_STORAGE_GSKV in
  alloc_c (COption (if negb (IsStorageTypeSupported gskvEnabled (NdkStorageTypeToNative PREFERENCES_STORAGE_GSKV))
                    then SetStorageType PREFERENCES_STORAGE_XML opt else opt)).
End option_functions.

(** The option behind a pointer, when its identifier is that of an option. *)
Definition GetOption (opt : Ptr) : SO CMem (option (positive * OH_PreferencesOption)) :=
  match opt with
  | None => mret None
  | Some r =>
      cid ← read_cid (Some r);
      if negb (PreferencesStructValidCheck cid PREFERENCES_OH_OPTION_CID) then mret None else
      o ← load (Some r);
      match o with
      | COption o => mret (Some (r, o))
      | _ => run_out Undef
      end
  end.

(** A setter of a string: the pointers are checked before the identifier. *)
Definition option_set (opt : Ptr) (str : option string)
    (f : string -> OH_PreferencesOption -> Code * OH_PreferencesOption) : SO CMem Code :=
  match opt, str with
  | Some _, Some str =>
      self ← GetOption opt;
      match self with
      | None => mret PREFERENCES_ERROR_INVALID_PARAM
      | Some (r, o) => let '(code, o') := f (c_str str) o in store r (COption o');; mret code
      end
  | _, _ => mret PREFERENCES_ERROR_INVALID_PARAM
  end.

(** [oh_preferences_option.cpp:94-105] OH_PreferencesOption_SetFileName *)
Definition OH_PreferencesOption_SetFileName (opt : Ptr) (fileName : option string) : SO CMem Code :=
  option_set opt fileName SetFileName.

(** [oh_preferences_option.cpp:107-119] OH_PreferencesOption_SetBundleName *)
Definition OH_PreferencesOption_SetBundleName (opt : Ptr) (bundleName : option string) : SO CMem Code :=
  option_set opt bundleName (fun str o => (PREFERENCES_OK, SetBundleName str o)).

(** [oh_preferences_option.cpp:121-133] OH_PreferencesOption_SetDataGroupId *)
Definition OH_PreferencesOption_SetDataGroupId (opt : Ptr) (dataGroupId : option string) : SO CMem Code :=
  option_set opt dataGroupId (fun str o => (PREFERENCES_OK, SetDataGroupId str o)).

(** [oh_preferences_option.cpp:135-150] OH_PreferencesOption_SetStorageType *)
Definition OH_PreferencesOption_SetStorageType (opt : Ptr) (type : Z) : SO CMem Code :=
  self ← GetOption opt;
  match self with
  | None => mret PREFERENCES_ERROR_INVALID_PARAM
  | Some (r, o) =>
      if (type <? PREFERENCES_STORAGE_XML) || (PREFERENCES_STORAGE_GSKV <? type)
      then mret PREFERENCES_ERROR_INVALID_PARAM
      else store r (COption (SetStorageType type o));; mret PREFERENCES_OK
  end.

(** [oh_preferences_option.cpp:152-163] OH_PreferencesOption_Destroy *)
Definition OH_PreferencesOption_Destroy (opt : Ptr) : SO CMem Code :=
  self ← GetOption opt;
  match self with
  | None => mret PREFERENCES_ERROR_INVALID_PARAM
  | Some (r, _) => free_ref r;; mret PREFERENCES_OK
  end.
