(* ===== verification/Ndk.v ===== *)
(** * The C interface of a preferences object

    Models [oh_preferences.cpp] over the factory ([Helper]) and the memory of
    the C interface ([NdkMem]).  A handle is a pointer to a struct that refers
    to an object of the factory; the calls through it are the virtual methods
    of the object's class.  The application context, the order in which an
    unordered map is walked and the bounded-memory functions are outside the
    repository and parameters. *)

From S2P Require Import Prelude Errno Value Utils Env FileLock Store DbAdapter Base Impl Enhance Helper.
From S2P Require Import Handle NdkMem NdkValue NdkOption.

(** The function of an observer, [None] for null, and its context.

    [oh_preferences_impl.h:33-45] NDKPreferencesObserver *)
Record NDKPreferencesObserver := mkNDKObserver { dataObserver_ : option Z; context_ : Z }.

Section Ndk.
Context `{XmlStore} `{SafeBlockQueue} `{KvDb} `{Securec} `{Iteration}.
Context (RSIZE_MAX : Z) (gskvEnabled : bool) (appContext : option AppContext).

Record Ndk := mkNdk {
  mem : CMem;
  hlp : Helper;
  observers_ : gmap positive NDKPreferencesObserver;
  next_obs : positive              (** the next observer that is made *)
}.

Definition n_set_hlp h n := mkNdk (mem n) h (observers_ n) (next_obs n).

Definition on_mem {A} (m : SO CMem A) : SO Ndk A := fun n =>
  '(a, c) ← m (mem n); Done (a, mkNdk c (hlp n) (observers_ n) (next_obs n)).

Definition on_helper {A} (m : SO Helper A) : SO Ndk A := fun n =>
  '(a, h) ← m (hlp n); Done (a, n_set_hlp h n).

(** The virtual calls, on the object behind a handle. *)
Definition v_put r key value : SO Ndk Z := on_helper (obj_put RSIZE_MAX r key value).
Definition v_get r key defValue : SO Ndk PreferencesValue := on_helper (obj_get r key defValue).
Definition v_getvalue r key defValue : SO Ndk (Z * PreferencesValue) := on_helper (obj_getvalue r key defValue).
Definition v_haskey r key : SO Ndk bool := on_helper (obj_haskey r key).
Definition v_getalldatas r : SO Ndk (gmap string PreferencesValue) := on_helper (obj_getalldatas r).
Definition v_delete r key : SO Ndk Z := on_helper (obj_delete r key).
Definition v_clear r : SO Ndk Z := on_helper (obj_clear r).
Definition v_flushsync r : SO Ndk Z := on_helper (obj_flushsync r).
Definition v_register r o mode : SO Ndk Z := on_helper (obj_register r o mode).
Definition v_unregister r o mode : SO Ndk Z := on_helper (obj_unregister r o mode).
Definition v_register_data r o keys : SO Ndk Z := on_helper (obj_register_data r o keys).
Definition v_unregister_data r o keys : SO Ndk Z := on_helper (obj_unregister_data r o keys).

(** Observers that lose their last owner. *)
Definition drop_observers (l : list positive) : SO Ndk unit := on_helper (run_st (Handle.drop_observers l)).

(** ** The handle *)

(** [oh_preferences.cpp:114-123] GetPreferencesImpl *)
Definition GetPreferencesImpl (preference : Ptr) : SO CMem (option (positive * OH_PreferencesImpl)) :=
  match preference with
  | None => mret None
  | Some r =>
      cid ← read_cid (Some r);
      if negb (PreferencesStructValidCheck cid PREFERENCES_OH_PREFERENCES_CID) then mret None else
      o ← load (Some r);
      match o with
      | CPrefs p => mret (Some (r, p))
      | _ => run_out Undef
      end
  end.

(** The object of the factory behind the handle, or null.

    [oh_preferences.cpp:125-141] GetNativePreferencesFromOH *)
Definition GetNativePreferencesFromOH (preference : Ptr) : SO CMem Ptr :=
  preferencesImpl ← GetPreferencesImpl preference;
  match preferencesImpl with
  | None => mret None
  | Some (_, p) =>
      if negb (PreferencesStructValidCheck (i_cid p) PREFERENCES_OH_PREFERENCES_CID) then mret None else
      match preferences_ p with
      | None => mret None
      | Some inner => mret (Some inner)
      end
  end.

(** The shape of a call through a handle: the handle and the pointers of the
    caller are checked, and [bad] is the answer when one is not valid. *)
Definition with_native {A} (preference : Ptr) (pointers : bool) (bad : A) (k : positive -> SO Ndk A) : SO Ndk A :=
  innerPreferences ← on_mem (GetNativePreferencesFromOH preference);
  match innerPreferences with
  | None => mret bad
  | Some r => if negb pointers then mret bad else k r
  end.

Definition given_ {A} (p : option A) : bool := match p with Some _ => true | None => false end.

(** ** Opening, closing, deleting *)

(** [oh_preferences.cpp:49-66] GetPreferencesDir *)
Definition GetPreferencesDir (o : OH_PreferencesOption) : Code * string :=
  match appContext with
  | None => (PREFERENCES_ERROR_STORAGE, "")
  | Some context =>
      if bool_decide (NdkOption.GetDataGroupId o = "") then (PREFERENCES_OK, ctx_GetPreferencesDir context) else
      let '(err, stagePreferencesDir) := ctx_GetSystemPreferencesDir context (NdkOption.GetDataGroupId o) in
      if negb (err =? 0) then (PREFERENCES_ERROR_INVALID_PARAM, stagePreferencesDir)
      else (PREFERENCES_OK, stagePreferencesDir)
  end.

(** The option behind a pointer that is not null and names a file: the name is
    read before the identifier is checked. *)
Definition named_option (opt : Ptr) : SO CMem (option OH_PreferencesOption) :=
  match opt with
  | None => mret None
  | Some r =>
      o ← load (Some r);
      match o with
      | COption o =>
          mret (if bool_decide (fileName o = "") || negb (PreferencesStructValidCheck (o_cid o) PREFERENCES_OH_OPTION_CID)
                then None else Some o)
      | _ => run_out Undef
      end
  end.

(** The handle or null, and what is written to [errCode].

    [oh_preferences.cpp:68-112] OH_Preferences_Open *)
Definition OH_Preferences_Open (opt : Ptr) (errCode : bool) : SO Ndk (Ptr * option Code) :=
  valid ← on_mem (named_option opt);
  match valid with
  | None => mret (None, if errCode then Some PREFERENCES_ERROR_INVALID_PARAM else None)
  | Some o =>
      if negb errCode then mret (None, None) else
      let '(dirErr, dir) := GetPreferencesDir o in
      if negb (bool_decide (dirErr = PREFERENCES_OK)) then mret (None, Some dirErr) else
      let path := dir +:+ "/" +:+ GetFileName o in
      let type := GetStorageType o in
      let nativeOptions := mkOptions path (OH_GetBundleName o) (NdkOption.GetDataGroupId o)
        (type =? PREFERENCES_STORAGE_GSKV) in
      '(innerPreferences, nativeErr) ← on_helper (GetPreferences gskvEnabled nativeOptions);
      let err := NativeErrToNdk nativeErr in
      match innerPreferences with
      | None => mret (None, Some err)
      | Some inner =>
          if negb (bool_decide (err = PREFERENCES_OK)) then mret (None, Some err) else
          preferenceImpl ← on_mem (run_st (alloc_c (CPrefs (mkPrefsImpl PREFERENCES_OH_PREFERENCES_CID (Some inner) path []))));
          match preferenceImpl with
          | None => mret (None, Some PREFERENCES_ERROR_MALLOC)
          | Some _ => mret (preferenceImpl, Some err)
          end
      end
  end.

(** [oh_preferences.cpp:155-178] OH_Preferences_Close *)
Definition OH_Preferences_Close (preference : Ptr) : SO Ndk Code :=
  preferencesImpl ← on_mem (GetPreferencesImpl preference);
  match preferencesImpl with
  | None => mret PREFERENCES_ERROR_INVALID_PARAM
  | Some (r, p) =>
      match preferences_ p with
      | None => mret PREFERENCES_ERROR_INVALID_PARAM
      | Some inner =>
          _ ← v_flushsync inner;
          errCode ← on_helper (RemovePreferencesFromCache (filePath_ p));
          if negb (errCode =? E_OK) then mret (NativeErrToNdk errCode) else
          on_mem (free_ref r);;
          drop_observers (map fst (dataObservers_ p));;
          mret PREFERENCES_OK
      end
  end.

(** [oh_preferences.cpp:180-197] OH_Preferences_DeletePreferences *)
Definition OH_Preferences_DeletePreferences (opt : Ptr) : SO Ndk Code :=
  valid ← on_mem (named_option opt);
  match valid with
  | None => mret PREFERENCES_ERROR_INVALID_PARAM
  | Some o =>
      let '(dirErr, dir) := GetPreferencesDir o in
      if negb (bool_decide (dirErr = PREFERENCES_OK)) || bool_decide (dir = "") then mret PREFERENCES_ERROR_INVALID_PARAM else
      errCode ← on_helper (DeletePreferences (dir +:+ "/" +:+ fileName o));
      mret (NativeErrToNdk errCode)
  end.

(** ** Values *)

(** The value is taken from the pointer without a check of its identifier.

    [oh_preferences.cpp:199-216] OH_Preferences_SetValue *)
Definition OH_Preferences_SetValue (preference : Ptr) (key : option string) (value : Ptr) : SO Ndk Code :=
  with_native preference (given_ key && given_ value) PREFERENCES_ERROR_INVALID_PARAM (fun inner =>
    o ← on_mem (load value);
    match o with
    | CValue v =>
        errCode ← v_put inner (c_str (default "" key)) (value_ v);
        mret (if negb (errCode =? E_OK) then PREFERENCES_ERROR_STORAGE else PREFERENCES_OK)
    | _ => run_out Undef
    end).

(** [value] points to the pointer [object].  The comparison with [nullptr] is
    that of two values, and a null string is the empty string.

    [oh_preferences.cpp:218-237] OH_Preferences_GetValue *)
Definition OH_Preferences_GetValue (preference : Ptr) (key : option string) (value : option Ptr) : SO Ndk Code :=
  with_native preference (given_ key && given_ value) PREFERENCES_ERROR_INVALID_PARAM (fun inner =>
    prefValue ← v_get inner (c_str (default "" key)) PreferencesValue_default;
    if value_eqb prefValue (PreferencesValue_cstr None) then mret PREFERENCES_ERROR_INVALID_PARAM else
    let object := default None value in
    o ← on_mem (load object);
    match o, object with
    | CValue v, Some r => on_mem (store r (CValue (mkValueImpl (v_cid v) prefValue)));; mret PREFERENCES_OK
    | _, _ => run_out Undef
    end).

(** [oh_preferences.cpp:305-316] OH_Preferences_HasKey *)
Definition OH_Preferences_HasKey (preference : Ptr) (key : option string) : SO Ndk bool :=
  with_native preference (given_ key) false (fun inner => v_haskey inner (c_str (default "" key))).

(** [oh_preferences.cpp:318-334] OH_Preferences_Flush *)
Definition OH_Preferences_Flush (preference : Ptr) : SO Ndk Code :=
  with_native preference true PREFERENCES_ERROR_INVALID_PARAM (fun inner =>
    errCode ← v_flushsync inner;
    mret (if negb (errCode =? E_OK) then NativeErrToNdk errCode else PREFERENCES_OK)).

(** [oh_preferences.cpp:336-352] OH_Preferences_ClearCache *)
Definition OH_Preferences_ClearCache (preference : Ptr) : SO Ndk Code :=
  with_native preference true PREFERENCES_ERROR_INVALID_PARAM (fun inner =>
    errCode ← v_clear inner;
    mret (if negb (errCode =? E_OK) then NativeErrToNdk errCode else PREFERENCES_OK)).

(** The shape of a typed getter. *)
Definition native_get {A} (preference : Ptr) (key : option string) (outs : bool)
    (is_type : PreferencesValue -> bool) (conv : PreferencesValue -> SO CMem (Code * option A)) : SO Ndk (Code * option A) :=
  with_native preference (given_ key && outs) (PREFERENCES_ERROR_INVALID_PARAM, None) (fun inner =>
    '(err, v) ← v_getvalue inner (c_str (default "" key)) PreferencesValue_default;
    if negb (err =? E_OK) then mret (NativeErrToNdk err, None) else
    if is_type v then
      '(code, out) ← on_mem (conv v);
      mret (if bool_decide (code = PREFERENCES_OK) then NativeErrToNdk err else code, out)
    else mret (PREFERENCES_ERROR_KEY_NOT_FOUND, None)).

(** [oh_preferences.cpp:354-380] OH_Preferences_GetInt *)
Definition OH_Preferences_GetInt (preference : Ptr) (key : option string) (value : bool) : SO Ndk (Code * option Z) :=
  native_get preference key value IsInt (scalar as_int).

(** [oh_preferences.cpp:382-434] OH_Preferences_GetString *)
Definition OH_Preferences_GetString (preference : Ptr) (key : option string) (value valueLen : bool)
    : SO Ndk (Code * option (Ptr * Z)) :=
  native_get preference key (value && valueLen) IsString (fun v => str ← run_out (convert (as_string v)); string_out str).

(** [oh_preferences.cpp:436-439] OH_Preferences_FreeString *)
Definition OH_Preferences_FreeString (string : Ptr) : SO Ndk unit := on_mem (free string).

(** [oh_preferences.cpp:441-467] OH_Preferences_GetBool *)
Definition OH_Preferences_GetBool (preference : Ptr) (key : option string) (value : bool) : SO Ndk (Code * option bool) :=
  native_get preference key value IsBool (scalar as_bool).

(** The shape of a typed setter. *)
Definition native_put (preference : Ptr) (key : option string) (pointers : bool) (v : PreferencesValue) : SO Ndk Code :=
  with_native preference (given_ key && pointers) PREFERENCES_ERROR_INVALID_PARAM (fun inner =>
    errCode ← v_put inner (c_str (default "" key)) v;
    mret (NativeErrToNdk errCode)).

(** [oh_preferences.cpp:469-483] OH_Preferences_SetInt *)
Definition OH_Preferences_SetInt (preference : Ptr) (key : option string) (value : Z) : SO Ndk Code :=
  native_put preference key true (PreferencesValue_int value).

(** [oh_preferences.cpp:485-499] OH_Preferences_SetBool *)
Definition OH_Preferences_SetBool (preference : Ptr) (key : option string) (value : bool) : SO Ndk Code :=
  native_put preference key true (PreferencesValue_bool value).

(** [oh_preferences.cpp:501-516] OH_Preferences_SetString *)
Definition OH_Preferences_SetString (preference : Ptr) (key value : option string) : SO Ndk Code :=
  native_put preference key (given_ value) (PreferencesValue_string (c_str (default "" value))).

(** [oh_preferences.cpp:518-532] OH_Preferences_Delete *)
Definition OH_Preferences_Delete (preference : Ptr) (key : option string) : SO Ndk Code :=
  with_native preference (given_ key) PREFERENCES_ERROR_INVALID_PARAM (fun inner =>
    errCode ← v_delete inner (c_str (default "" key));
    mret (NativeErrToNdk errCode)).

(** ** All pairs *)

Definition update_pair (pairs : Ptr) (i : nat) (f : OH_PreferencesPair -> OH_PreferencesPair) : SO CMem unit :=
  l ← load_pairs pairs;
  p ← run_out (index_ l (Z.of_nat i));
  match pairs with
  | Some r => store r (CPairs (<[i := f p]> l))
  | None => run_out Undef
  end.

(** [strdup] *)
Definition strdup (s : string) : ST CMem Ptr := alloc_c (c_buffer (c_str s)).

(** The loop of [PackData], from index [i], of [size] pairs in all; what it
    returns.

    [oh_preferences.cpp:239-262] PackData *)
Fixpoint PackData (pairs : Ptr) (size : Z) (i : nat) (res : list (string * PreferencesValue)) : SO CMem Z :=
  match res with
  | [] => mret 0
  | (key, value) :: res' =>
      update_pair pairs i (fun p => mkPair (Val PREFERENCES_OH_PAIR_CID) (p_key p) (p_value p) (Val (wrap_u 32 size)));;
      k ← run_st (strdup key);
      update_pair pairs i (fun p => mkPair (p_cid p) (Val k) (p_value p) (p_maxIndex p));;
      match k with
      | None => mret (wrap_u 32 (Z.of_nat i))
      | Some _ =>
          valueImpl ← run_st (alloc_c (CValue (mkValueImpl PREFERENCES_OH_VALUE_CID value)));
          match valueImpl with
          | None => mret (wrap_u 32 (Z.of_nat i))
          | Some _ =>
              update_pair pairs i (fun p => mkPair (p_cid p) (p_key p) (Val valueImpl) (p_maxIndex p));;
              PackData pairs size (S i) res'
          end
      end
  end.

(** The code, and what is written to [pairs] and [count].

    [oh_preferences.cpp:281-302] OH_Preferences_GetAll *)
Definition pairs_out (res : gmap string PreferencesValue) : SO CMem (Code * option (Ptr * Z)) :=
  let l := iterate res in
  let size := Z.of_nat (length l) in
  if size =? 0 then mret (PREFERENCES_ERROR_KEY_NOT_FOUND, None) else
  let count := wrap_u 32 size in
  pairs ← run_st (alloc_c (CPairs (replicate (length l) pair_uninit)));
  match pairs with
  | None => mret (PREFERENCES_ERROR_MALLOC, Some (None, count))
  | Some _ =>
      iCount ← PackData pairs size 0 l;
      if negb (iCount =? 0) then
        OH_PreferencesPair_Destroy pairs iCount;;
        mret (PREFERENCES_ERROR_MALLOC, Some (None, count))
      else mret (PREFERENCES_OK, Some (pairs, count))
  end.

(** [oh_preferences.cpp:264-303] OH_Preferences_GetAll *)
Definition OH_Preferences_GetAll (preference : Ptr) (pairs count : bool) : SO Ndk (Code * option (Ptr * Z)) :=
  with_native preference (pairs && count) (PREFERENCES_ERROR_INVALID_PARAM, None) (fun inner =>
    res ← v_getalldatas inner;
    on_mem (pairs_out res)).
(** ** Observers *)

(** A new observer, owned by who made it. *)
Definition make_observer (observer : option Z) (context : Z) : SO Ndk positive := fun n =>
  let o := next_obs n in
  let '(_, h) := own_observer o (hlp n) in
  Done (o, mkNdk (mem n) h (<[o := mkNDKObserver observer context]> (observers_ n)) (Pos.succ o)).

(** [oh_preferences.cpp:734-740] ObserverCompare *)
Definition ObserverCompare (o : NDKPreferencesObserver) (other : option Z) : bool :=
  match other with None => false | Some _ => bool_decide (other = dataObserver_ o) end.

Definition set_dataObservers (l : list (positive * Z)) (p : OH_PreferencesImpl) : OH_PreferencesImpl :=
  mkPrefsImpl (i_cid p) (preferences_ p) (filePath_ p) l.

(** The struct behind a handle that was checked, and its object. *)
Definition load_prefs (r : positive) : SO CMem OH_PreferencesImpl :=
  o ← load (Some r); match o with CPrefs p => mret p | _ => run_out Undef end.

Definition inner_of (p : OH_PreferencesImpl) : outcome positive :=
  match preferences_ p with Some inner => Done inner | None => Undef end.

(** [oh_preferences.cpp:614-627] RegisterDataObserver *)
Definition Impl_RegisterDataObserver (r : positive) (observer : option Z) (context : Z) (keys : list string) : SO Ndk Code :=
  ndkObserver ← make_observer observer context;
  p ← on_mem (load_prefs r);
  inner ← run_out (inner_of p);
  errCode ← v_register_data inner ndkObserver keys;
  (if negb (errCode =? E_OK) then drop_observers [ndkObserver]
   else on_mem (store r (CPrefs (set_dataObservers (dataObservers_ p ++ [(ndkObserver, context)]) p))));;
  mret (NativeErrToNdk errCode).

(** The observer that is made has no owner left when the function returns.

    [oh_preferences.cpp:629-639] RegisterMultiProcessDataObserver *)
Definition Impl_RegisterMultiProcessDataObserver (r : positive) (observer : option Z) (context : Z) : SO Ndk Code :=
  ndkObserver ← make_observer observer context;
  p ← on_mem (load_prefs r);
  inner ← run_out (inner_of p);
  errCode ← v_register inner ndkObserver MULTI_PRECESS_CHANGE;
  drop_observers [ndkObserver];;
  mret (NativeErrToNdk errCode).

(** The loop of [UnregisterDataObserver], from index [i - 1] down: the code it
    returns.

    [oh_preferences.cpp:705-719] UnregisterDataObserver *)
Fixpoint unregister_loop (r : positive) (observer : option Z) (context : Z) (keys : list string) (i : nat) : SO Ndk Code :=
  match i with
  | O => mret PREFERENCES_OK
  | S i =>
      n ← run_st get;
      p ← on_mem (load_prefs r);
      '(o, c) ← run_out (index_ (dataObservers_ p) (Z.of_nat i));
      obs ← run_out (match observers_ n !! o with Some obs => Done obs | None => Undef end);
      if negb (ObserverCompare obs observer) || negb (c =? context)
      then unregister_loop r observer context keys i
      else
        inner ← run_out (inner_of p);
        errCode ← v_unregister_data inner o keys;
        if negb (errCode =? E_OK) then mret (NativeErrToNdk errCode) else
        match keys with
        | [] =>
            on_mem (store r (CPrefs (set_dataObservers (delete i (dataObservers_ p)) p)));;
            drop_observers [o];;
            unregister_loop r observer context keys i
        | _ => unregister_loop r observer context keys i
        end
  end.

(** [oh_preferences.cpp:698-721] UnregisterDataObserver *)
Definition Impl_UnregisterDataObserver (r : positive) (observer : option Z) (context : Z) (keys : list string) : SO Ndk Code :=
  p ← on_mem (load_prefs r);
  match dataObservers_ p with
  | [] => mret PREFERENCES_OK
  | l => unregister_loop r observer context keys (length l)
  end.

(** [oh_preferences.cpp:723-732] UnregisterMultiProcessDataObserver *)
Definition Impl_UnregisterMultiProcessDataObserver (r : positive) (observer : option Z) (context : Z) : SO Ndk Code :=
  ndkObserver ← make_observer observer context;
  p ← on_mem (load_prefs r);
  inner ← run_out (inner_of p);
  errCode ← v_unregister inner ndkObserver MULTI_PRECESS_CHANGE;
  drop_observers [ndkObserver];;
  mret (if negb (errCode =? E_OK) then NativeErrToNdk errCode else PREFERENCES_OK).

(** [keysVec] of [keyCount] keys: a null key makes a string of a null pointer. *)
Fixpoint keys_from (keys : list (option string)) (count : nat) : outcome (list string) :=
  match count, keys with
  | O, _ => Done []
  | S count, Some key :: keys => keysVec ← keys_from keys count; Done (c_str key :: keysVec)
  | S _, _ => Undef
  end.

(** What the functions for observers check first; a code of the class is
    converted like one of the library. *)
Definition with_observer (preference : Ptr) (pointers : bool) (k : positive -> SO Ndk Code) : SO Ndk Code :=
  preferencesImpl ← on_mem (GetPreferencesImpl preference);
  match preferencesImpl with
  | None => mret PREFERENCES_ERROR_INVALID_PARAM
  | Some (r, _) =>
      if negb pointers then mret PREFERENCES_ERROR_INVALID_PARAM else
      code ← k r;
      mret (NativeErrToNdk (ndk_code code))
  end.

(** [oh_preferences.cpp:534-551] OH_Preferences_RegisterDataObserver *)
Definition OH_Preferences_RegisterDataObserver (preference : Ptr) (context : Z) (observer : option Z)
    (keys : option (list (option string))) (keyCount : Z) : SO Ndk Code :=
  with_observer preference (given_ observer && given_ keys) (fun r =>
    keysVec ← run_out (keys_from (default [] keys) (Z.to_nat keyCount));
    Impl_RegisterDataObserver r observer context keysVec).

(** [oh_preferences.cpp:553-565] OH_Preferences_RegisterMultiProcessDataObserver *)
Definition OH_Preferences_RegisterMultiProcessDataObserver (preference : Ptr) (context : Z) (observer : option Z) : SO Ndk Code :=
  with_observer preference (given_ observer) (fun r => Impl_RegisterMultiProcessDataObserver r observer context).

(** [oh_preferences.cpp:567-582] OH_Preferences_UnregisterDataObserver *)
Definition OH_Preferences_UnregisterDataObserver (preference : Ptr) (context : Z) (observer : option Z)
    (keys : option (list (option string))) (keyCount : Z) : SO Ndk Code :=
  with_observer preference (given_ observer && given_ keys) (fun r =>
    keysVec ← run_out (keys_from (default [] keys) (Z.to_nat keyCount));
    Impl_UnregisterDataObserver r observer context keysVec).

(** [oh_preferences.cpp:584-595] OH_Preferences_UnregisterMultiProcessDataObserver *)
Definition OH_Preferences_UnregisterMultiProcessDataObserver (preference : Ptr) (context : Z) (observer : option Z) : SO Ndk Code :=
  with_observer preference (given_ observer) (fun r => Impl_UnregisterMultiProcessDataObserver r observer context).

(** [oh_preferences.cpp:597-612] OH_Preferences_IsStorageTypeSupported *)
Definition OH_Preferences_IsStorageTypeSupported (type : Z) (isSupported : bool) : Code * option bool :=
  if (type <? PREFERENCES_STORAGE_XML) || (PREFERENCES_STORAGE_GSKV <? type) || negb isSupported
  then (PREFERENCES_ERROR_INVALID_PARAM, None)
  else (PREFERENCES_OK, Some (IsStorageTypeSupported gskvEnabled (NdkStorageTypeToNative type))).

(** *** The callback *)

(** [new] of the standard library's containers, which does not fail here. *)
Definition new_c (o : CObj) : ST CMem positive := fun m =>
  (next_ptr m, mkCMem (<[next_ptr m := o]> (heap m)) (Pos.succ (next_ptr m)) (allocations m) (allocates m)).

(** The copies of the keys.

    [oh_preferences.cpp:662-666] OnChange *)
Fixpoint copy_keys (records : list (string * PreferencesValue)) : ST CMem (list positive) :=
  match records with
  | [] => mret []
  | (key, _) :: records => r ← new_c (c_buffer key); rest ← copy_keys records; mret (r :: rest)
  end.

Fixpoint free_all (l : list positive) : SO CMem unit :=
  match l with [] => mret tt | r :: l => free_ref r;; free_all l end.

(** [delete] through a pointer to the base class: the base has no virtual
    destructor, and the objects are of the derived class. *)
Definition delete_base (value : Ptr) : outcome unit := match value with None => Done tt | Some _ => Undef end.

(** [oh_preferences.cpp:644-649] FreePairValue *)
Fixpoint FreePairValue (pairs : Ptr) (i n : nat) : SO CMem unit :=
  match n with
  | O => mret tt
  | S n =>
      l ← load_pairs pairs;
      p ← run_out (index_ l (Z.of_nat i));
      value ← run_out (read_cell (p_value p));
      run_out (delete_base value);;
      FreePairValue pairs (S i) n
  end.

(** The loop over the records, from index [i]: whether every pair was made.

    [oh_preferences.cpp:674-688] OnChange *)
Fixpoint make_pairs (pairs : Ptr) (count : Z) (i : nat) (keys : list positive) (records : list (string * PreferencesValue))
    : SO CMem bool :=
  match keys, records with
  | k :: keys, (_, value) :: records =>
      valueImpl ← run_st (alloc_c (CValue (mkValueImpl PREFERENCES_OH_VALUE_CID value)));
      match valueImpl with
      | None => FreePairValue pairs 0 i;; free pairs;; mret false
      | Some _ =>
          update_pair pairs i (fun _ => mkPair (Val PREFERENCES_OH_PAIR_CID) (Val (Some k)) (Val valueImpl) (Val (wrap_u 32 count)));;
          make_pairs pairs count (S i) keys records
      end
  | _, _ => mret true
  end.

(** What the callback is called with: the context, the pairs and their number;
    and the copies of the keys, which live until the function returns.  No
    call when there is no function, no record or no memory.

    [oh_preferences.cpp:651-689] OnChange *)
Definition OnChange_call (o : NDKPreferencesObserver) (records : list (string * PreferencesValue))
    : SO CMem (option (Z * Ptr * Z) * list positive) :=
  match dataObserver_ o with
  | None => mret (None, [])
  | Some _ =>
      let count := Z.of_nat (length records) in
      if count =? 0 then mret (None, []) else
      keys ← run_st (copy_keys records);
      pairs ← run_st (alloc_c (CPairs (replicate (length records) pair_uninit)));
      match pairs with
      | None => mret (None, keys)
      | Some _ =>
          made ← make_pairs pairs count 0 keys records;
          mret (if (made : bool) then Some (context_ o, pairs, wrap_u 32 count) else None, keys)
      end
  end.

(** The function, with [callback] for what the application's function does.

    [oh_preferences.cpp:651-692] OnChange *)
Definition NDK_OnChange (callback : Z -> Ptr -> Z -> SO CMem unit) (o : NDKPreferencesObserver)
    (records : list (string * PreferencesValue)) : SO CMem unit :=
  '(call, keys) ← OnChange_call o records;
  (match call with
   | None => mret tt
   | Some (context, pairs, count) =>
       callback context pairs count;;
       FreePairValue pairs 0 (length records);;
       free pairs
   end);;
  free_all keys.
End Ndk.

