(* ===== verification/NdkClient.v ===== *)
(** * What a client of the C interface sees

    Facts about [Ndk]: the pairs of [OH_Preferences_GetAll] in memory, a
    handle as a map from C strings to values, the errors that the interface
    hides, the observers and the callback. *)

From S2P Require Import Prelude Errno Value Utils Env FileLock Store DbAdapter Base Impl Enhance Helper.
From S2P Require Import Handle NdkMem NdkValue NdkOption Ndk.

(** ** All pairs in memory *)

(** An entry of the map, with the references of its key and its value. *)
Record Packed := mkPacked { k_ref : positive; v_ref : positive; entry : string * PreferencesValue }.

Definition pair_of (size : Z) (e : Packed) : OH_PreferencesPair :=
  mkPair (Val PREFERENCES_OH_PAIR_CID) (Val (Some (k_ref e))) (Val (Some (v_ref e))) (Val size).

(** The objects of the entries. *)
Definition objects_of (done : list Packed) : list (positive * CObj) :=
  concat (map (fun e => [(k_ref e, c_buffer (c_str (entry e).1));
                         (v_ref e, CValue (mkValueImpl PREFERENCES_OH_VALUE_CID (entry e).2))]) done).

(** The array [a] with the pairs of [done] and room for [n] more, in a memory
    that was [h] before. *)
Record packing (h : gmap positive CObj) (a : positive) (size : Z) (done : list Packed) (n : nat) (m : CMem) : Prop := {
  pk_heap : heap m = <[a := CPairs (map (pair_of size) done ++ replicate n pair_uninit)]> (puts (objects_of done) h);
  pk_nodup : NoDup (objects_of done).*1;
  pk_fresh r : r ∈ (objects_of done).*1 -> h !! r = None;
  pk_arr : a ∉ (objects_of done).*1;
  pk_harr : h !! a = None;
  pk_ok : mem_ok m
}.

Lemma load_pairs_eq a l m : heap m !! a = Some (CPairs l) -> load_pairs (Some a) m = Done (l, m).
Proof. intros Ha. unfold load_pairs. by rewrite (so_bind_Done _ _ _ _ _ (load_eq _ _ _ Ha)). Qed.

Lemma update_pair_nf a i f l g p m : heap m = <[a := CPairs l]> g -> mem_ok m -> l !! i = Some p ->
  exists m', update_pair (Some a) i f m = Done (tt, m') /\ heap m' = <[a := CPairs (<[i := f p]> l)]> g /\ mem_ok m' /\
    next_ptr m' = next_ptr m /\ allocates m' = allocates m.
Proof.
  intros Hh Hm Hp. assert (Ha : heap m !! a = Some (CPairs l)) by (rewrite Hh; apply lookup_insert_eq).
  unfold update_pair. rewrite (so_bind_Done _ _ _ _ _ (load_pairs_eq _ _ _ Ha)), (so_bind_out _ _ _ _ (index_lookup _ _ _ Hp)), (store_eq _ _ _ _ Ha).
  eexists. split; [reflexivity|]. split; [cbn; by rewrite Hh, insert_insert_eq|]. split; [|done].
  apply mem_ok_heap; [done|]. intros q. rewrite lookup_insert_is_Some'. intros [<-|?]; [by rewrite Ha|done].
Qed.

Lemma alloc_nf a o x g m : heap m = <[a := x]> g -> mem_ok m -> (forall n, allocates m n = true) ->
  exists m', alloc_c o m = (Some (next_ptr m), m') /\ heap m' = <[a := x]> (<[next_ptr m := o]> g) /\ mem_ok m' /\
    allocates m' = allocates m /\ (next_ptr m < next_ptr m')%positive.
Proof.
  intros Hh Hm Hal. destruct (alloc_cases o m Hm) as [(m' & E & Hh' & Hm' & Ha & Hn)|(m' & _ & _ & _ & _ & n & Hf)].
  2: { by rewrite Hal in Hf. }
  exists m'. split; [done|]. split; [|done]. rewrite Hh', Hh. apply insert_insert_ne.
  intros E0. pose proof (Hm (next_ptr m) ltac:(lia)) as Hno. rewrite E0, Hh, lookup_insert_eq in Hno. done.
Qed.

Lemma objects_of_snoc done e : objects_of (done ++ [e]) = objects_of done ++
  [(k_ref e, c_buffer (c_str (entry e).1)); (v_ref e, CValue (mkValueImpl PREFERENCES_OH_VALUE_CID (entry e).2))].
Proof. unfold objects_of. by rewrite map_app, concat_app. Qed.

(** A reference that memory does not have yet. *)
Lemma packing_fresh h a size done n m r : packing h a size done n m -> heap m !! r = None ->
  r <> a /\ (r ∉ (objects_of done).*1) /\ h !! r = None.
Proof.
  intros Hp Hr. rewrite (pk_heap _ _ _ _ _ _ Hp) in Hr.
  destruct (decide (r = a)) as [->|Hne]; [by rewrite lookup_insert_eq in Hr|].
  rewrite lookup_insert_ne in Hr by done. split; [done|].
  destruct (decide (r ∈ (objects_of done).*1)) as [Hin|Hno]; [|split; [done|by rewrite puts_ne in Hr]].
  apply list_elem_of_fmap in Hin as ([r' o] & -> & Hin). cbn in Hr.
  by rewrite (puts_in _ _ _ _ (pk_nodup _ _ _ _ _ _ Hp) Hin) in Hr.
Qed.

(** One more pair is made. *)
Lemma PackData_step h a size done n m key value : packing h a (wrap_u 32 size) done (S n) m -> (forall n, allocates m n = true) ->
  exists e m', entry e = (key, value) /\ packing h a (wrap_u 32 size) (done ++ [e]) n m' /\ allocates m' = allocates m /\
    forall res, PackData (Some a) size (length done) ((key, value) :: res) m = PackData (Some a) size (S (length done)) res m'.
Proof.
  intros Hp Hal. pose proof (pk_heap _ _ _ _ _ _ Hp) as Hh. pose proof (pk_ok _ _ _ _ _ _ Hp) as Hm.
  cbn [replicate] in Hh. set (i := length done).
  assert (Hins : forall p q : OH_PreferencesPair, <[i := q]> (map (pair_of (wrap_u 32 size)) done ++ p :: replicate n pair_uninit) =
    map (pair_of (wrap_u 32 size)) done ++ q :: replicate n pair_uninit).
  { intros p q. rewrite insert_app_r_alt by (rewrite length_map; unfold i; lia). rewrite length_map. unfold i. by rewrite Nat.sub_diag. }
  assert (Hat : forall p : OH_PreferencesPair, (map (pair_of (wrap_u 32 size)) done ++ p :: replicate n pair_uninit) !! i = Some p).
  { intros p. apply list_lookup_middle. by rewrite length_map. }
  cbn [PackData]. destruct (update_pair_nf a i (fun p => mkPair (Val PREFERENCES_OH_PAIR_CID) (p_key p) (p_value p) (Val (wrap_u 32 size))) _ _ _ m Hh Hm (Hat _))
    as (m1 & E1 & Hh1 & Hm1 & Hn1 & Ha1). rewrite Hins in Hh1. cbn [p_key p_value pair_uninit] in Hh1.
  destruct (alloc_nf a (c_buffer (c_str key)) _ _ m1 Hh1 Hm1 ltac:(by rewrite Ha1)) as (m2 & E2 & Hh2 & Hm2 & Ha2 & Hlt2).
  destruct (update_pair_nf a i (fun p => mkPair (p_cid p) (Val (Some (next_ptr m1))) (p_value p) (p_maxIndex p)) _ _ _ m2 Hh2 Hm2 (Hat _))
    as (m3 & E3 & Hh3 & Hm3 & Hn3 & Ha3). rewrite Hins in Hh3. cbn [p_cid p_value p_maxIndex] in Hh3.
  destruct (alloc_nf a (CValue (mkValueImpl PREFERENCES_OH_VALUE_CID value)) _ _ m3 Hh3 Hm3 ltac:(by rewrite Ha3, Ha2, Ha1))
    as (m4 & E4 & Hh4 & Hm4 & Ha4 & Hlt4).
  destruct (update_pair_nf a i (fun p => mkPair (p_cid p) (p_key p) (Val (Some (next_ptr m3))) (p_maxIndex p)) _ _ _ m4 Hh4 Hm4 (Hat _))
    as (m5 & E5 & Hh5 & Hm5 & Hn5 & Ha5). rewrite Hins in Hh5. cbn [p_cid p_key p_maxIndex] in Hh5.
  pose proof (packing_fresh _ _ _ _ _ _ (next_ptr m) Hp (Hm (next_ptr m) ltac:(lia))) as (K1 & K2 & K3).
  pose proof (packing_fresh _ _ _ _ _ _ (next_ptr m3) Hp (Hm (next_ptr m3) ltac:(lia))) as (V1 & V2 & V3).
  assert (Hkv : next_ptr m <> next_ptr m3) by (rewrite Hn3; lia).
  exists (mkPacked (next_ptr m) (next_ptr m3) (key, value)), m5. split; [done|]. split; [|split; [congruence|]].
  - split; try done.
    + rewrite Hh5, objects_of_snoc, puts_app, map_app, <- app_assoc. rewrite Hn1. done.
    + rewrite objects_of_snoc, fmap_app. apply NoDup_app. split; [apply (pk_nodup _ _ _ _ _ _ Hp)|]. split.
      * intros r Hr. cbn. rewrite !not_elem_of_cons. split_and!; [by intros ->..|by intros Hx; inv Hx].
      * cbn. apply NoDup_cons. split; [by rewrite list_elem_of_singleton|apply NoDup_singleton].
    + intros r. rewrite objects_of_snoc, fmap_app, elem_of_app. intros [Hr|Hr]; [by apply (pk_fresh _ _ _ _ _ _ Hp)|].
      cbn in Hr. apply elem_of_cons in Hr as [-> |Hr]; [done|]. apply list_elem_of_singleton in Hr as ->. done.
    + rewrite objects_of_snoc, fmap_app, not_elem_of_app. split; [apply (pk_arr _ _ _ _ _ _ Hp)|]. cbn.
      rewrite !not_elem_of_cons. split_and!; [by intros ->..|by intros Hx; inv Hx].
    + apply (pk_harr _ _ _ _ _ _ Hp).
  - intros res. rewrite (so_bind_Done _ _ _ _ _ E1), so_bind_st. unfold strdup. rewrite E2. cbn [fst snd].
    rewrite (so_bind_Done _ _ _ _ _ E3), so_bind_st, E4. cbn [fst snd]. by rewrite (so_bind_Done _ _ _ _ _ E5).
Qed.

Lemma PackData_all h a size res : forall done m, packing h a (wrap_u 32 size) done (length res) m -> (forall n, allocates m n = true) ->
  exists es m', map entry es = map entry done ++ res /\ packing h a (wrap_u 32 size) es 0 m' /\
    PackData (Some a) size (length done) res m = Done (0, m').
Proof.
  induction res as [|[key value] res IH]; intros done m Hp Hal.
  { exists done, m. by rewrite app_nil_r. }
  destruct (PackData_step _ _ _ _ _ _ key value Hp Hal) as (e & m1 & He & Hp1 & Ha1 & E1).
  destruct (IH (done ++ [e]) m1 Hp1 ltac:(by rewrite Ha1)) as (es & m' & Hes & Hp' & E').
  exists es, m'. split; [|split; [done|]].
  - rewrite Hes, map_app, <- app_assoc. cbn. by rewrite He.
  - rewrite E1. rewrite length_app, Nat.add_1_r in E'. exact E'.
Qed.

Lemma objects_of_in done e : e ∈ done ->
  (k_ref e, c_buffer (c_str (entry e).1)) ∈ objects_of done /\
  (v_ref e, CValue (mkValueImpl PREFERENCES_OH_VALUE_CID (entry e).2)) ∈ objects_of done.
Proof.
  intros He. unfold objects_of. split; apply list_elem_of_In, in_concat;
    (eexists; split; [apply in_map, list_elem_of_In, He|]); cbn; auto.
Qed.

(** What is found in memory behind the pairs. *)
Lemma packing_reads h a size es m : packing h a size es 0 m ->
  heap m !! a = Some (CPairs (map (pair_of size) es)) /\
  forall e, e ∈ es -> heap m !! k_ref e = Some (c_buffer (c_str (entry e).1)) /\ holds m (v_ref e) (entry e).2.
Proof.
  intros Hp. rewrite (pk_heap _ _ _ _ _ _ Hp). split; [rewrite lookup_insert_eq; by rewrite app_nil_r|].
  intros e He. destruct (objects_of_in es e He) as [Hk Hv]. unfold holds. rewrite (pk_heap _ _ _ _ _ _ Hp).
  assert (Hne : forall r o, (r, o) ∈ objects_of es -> a <> r).
  { intros r o Hr <-. apply (pk_arr _ _ _ _ _ _ Hp). apply (list_elem_of_fmap_2 fst _ _ Hr). }
  rewrite !lookup_insert_ne by (by eapply Hne). split; by apply puts_in; [apply (pk_nodup _ _ _ _ _ _ Hp)|].
Qed.

(** Reading a member of the pair at an index. *)
Lemma pair_member_at member ptr size es a m i e : heap m !! a = Some (CPairs (map (pair_of size) es)) ->
  es !! i = Some e -> member (pair_of size e) = Val ptr -> Z.of_nat (length es) <= size ->
  pair_member member (Some a) (Z.of_nat i) m = Done (ptr, m).
Proof.
  intros Ha He Hm Hsize. unfold pair_member. rewrite (so_bind_Done _ _ _ _ _ (load_pairs_eq _ _ _ Ha)).
  destruct es as [|e0 es]; [done|]. rewrite (so_bind_out (index_ _ 0) _ _ (pair_of size e0)) by done.
  rewrite (so_bind_out _ _ _ size) by done.
  assert (Hi : (i < length (e0 :: es))%nat) by (by eapply lookup_lt_Some).
  rewrite (proj2 (Z.leb_gt size (Z.of_nat i))) by lia.
  rewrite (so_bind_out _ _ _ (pair_of size e)).
  2: { apply index_lookup. change (map ?f ?l) with (f <$> l). by rewrite list_lookup_fmap, He. }
  rewrite (so_bind_out _ _ _ PREFERENCES_OH_PAIR_CID) by done. rewrite PreferencesStructValidCheck_refl. cbn [negb].
  unfold run_out. by rewrite Hm.
Qed.

Lemma pair_member_over member size es a m i : heap m !! a = Some (CPairs (map (pair_of size) es)) -> es <> [] ->
  size <= i -> pair_member member (Some a) i m = Done (None, m).
Proof.
  intros Ha He Hi. unfold pair_member. rewrite (so_bind_Done _ _ _ _ _ (load_pairs_eq _ _ _ Ha)).
  destruct es as [|e0 es]; [done|]. rewrite (so_bind_out (index_ _ 0) _ _ (pair_of size e0)) by done.
  rewrite (so_bind_out _ _ _ size) by done. by rewrite (proj2 (Z.leb_le _ _) Hi).
Qed.

(** Destroying the pairs frees keys and values. *)
Lemma destroy_pairs_spec a size l es : forall j m, heap m !! a = Some (CPairs l) ->
  (forall k e, es !! k = Some e -> l !! (j + k)%nat = Some (pair_of size e)) ->
  NoDup (objects_of es).*1 -> a ∉ (objects_of es).*1 ->
  (forall e, e ∈ es -> is_Some (heap m !! k_ref e) /\ holds m (v_ref e) (entry e).2) ->
  destroy_pairs (Some a) j (length es) m = Done (tt, set_heap (del (objects_of es).*1 (heap m)) m).
Proof.
  induction es as [|e es IH]; intros j m Ha Hl Hn Harr Hin; [by destruct m|].
  change (objects_of (e :: es)).*1 with (k_ref e :: v_ref e :: (objects_of es).*1) in *.
  apply NoDup_cons in Hn as [Hk Hn]. apply NoDup_cons in Hn as [Hv Hn].
  apply not_elem_of_cons in Harr as [Hak Harr]. apply not_elem_of_cons in Harr as [Hav Harr].
  apply not_elem_of_cons in Hk as [Hkv Hk].
  destruct (Hin e ltac:(left)) as [[ok Hok] Hov]. cbn [length destroy_pairs del].
  rewrite (so_bind_Done _ _ _ _ _ (load_pairs_eq _ _ _ Ha)).
  pose proof (Hl O e eq_refl) as Hl0. rewrite Nat.add_0_r in Hl0.
  rewrite (so_bind_out _ _ _ _ (index_lookup _ _ _ Hl0)), (so_bind_out _ _ _ (Some (k_ref e))) by done.
  rewrite (so_bind_Done _ _ _ _ _ (free_eq _ _ _ Hok)), (so_bind_out _ _ _ (Some (v_ref e))) by done.
  set (m1 := set_heap _ m). assert (Hov1 : holds m1 (v_ref e) (entry e).2) by (unfold holds; cbn; by rewrite lookup_delete_ne).
  assert (Ed : OH_PreferencesValue_Destroy (Some (v_ref e)) m1 = Done (tt, set_heap (delete (v_ref e) (heap m1)) m1)).
  { unfold OH_PreferencesValue_Destroy. rewrite (so_bind_Done _ _ _ _ _ (GetSelf_holds _ _ _ Hov1)). exact (free_eq _ _ _ Hov1). }
  rewrite (so_bind_Done _ _ _ _ _ Ed). set (m2 := set_heap _ m1).
  rewrite (IH (S j) m2); [done| | |done|done|].
  - cbn. by rewrite !lookup_delete_ne.
  - intros i e' Hi. rewrite Nat.add_succ_l, <- Nat.add_succ_r. by apply (Hl (S i)).
  - intros e' He'. destruct (objects_of_in es e' He') as [Hk' Hv'].
    apply (list_elem_of_fmap_2 fst) in Hk', Hv'. cbn in Hk', Hv'.
    destruct (Hin e' ltac:(by right)) as [Hk2 Hv2]. unfold holds in *. cbn.
    rewrite !lookup_delete_ne by congruence. done.
Qed.

Lemma packing_destroy h a size es m : packing h a size es 0 m ->
  exists m', OH_PreferencesPair_Destroy (Some a) (Z.of_nat (length es)) m = Done (tt, m') /\ heap m' = h.
Proof.
  intros Hp. destruct (packing_reads _ _ _ _ _ Hp) as [Ha Hr]. unfold OH_PreferencesPair_Destroy. rewrite Nat2Z.id.
  assert (E : destroy_pairs (Some a) 0 (length es) m = Done (tt, set_heap (del (objects_of es).*1 (heap m)) m)).
  { apply (destroy_pairs_spec a size (map (pair_of size) es)); [done| |apply (pk_nodup _ _ _ _ _ _ Hp)|apply (pk_arr _ _ _ _ _ _ Hp)|].
    - intros k e He. rewrite Nat.add_0_l. change (map ?f ?l) with (f <$> l). by rewrite list_lookup_fmap, He.
    - intros e He. destruct (Hr e He) as [Hk Hv]. split; [by eexists|done]. }
  rewrite (so_bind_Done _ _ _ _ _ E).
  assert (Ha2 : heap (set_heap (del (objects_of es).*1 (heap m)) m) !! a = Some (CPairs (map (pair_of size) es))).
  { cbn. rewrite del_lookup, decide_False by apply (pk_arr _ _ _ _ _ _ Hp). done. }
  rewrite (free_eq _ _ _ Ha2). eexists. split; [reflexivity|]. cbn.
  apply map_eq. intros q. destruct (decide (q = a)) as [->|Hne]; [by rewrite lookup_delete_eq, (pk_harr _ _ _ _ _ _ Hp)|].
  rewrite lookup_delete_ne, del_lookup by done. case_decide as Hq; [by rewrite (pk_fresh _ _ _ _ _ _ Hp)|].
  by rewrite (pk_heap _ _ _ _ _ _ Hp), lookup_insert_ne, puts_ne.
Qed.

(** ** A handle to an object over the XML file *)

Section linked.
Context `{XmlStore} `{SafeBlockQueue} `{KvDb} `{Securec} `{Iteration}.
Context (RSIZE_MAX : Z) (gskvEnabled : bool) (appContext : option AppContext).

(** The handle [r] refers to the object [p] of the factory, which has been
    loaded. *)
Record linked (n : Ndk) (r inner : positive) (p : PreferencesImpl) : Prop := {
  li_handle : exists path obs, heap (mem n) !! r =
    Some (CPrefs (mkPrefsImpl PREFERENCES_OH_PREFERENCES_CID (Some inner) path obs));
  li_opened : opened (hlp n) inner p
}.

Lemma GetNative_linked n r inner p : linked n r inner p ->
  on_mem (GetNativePreferencesFromOH (Some r)) n = Done (Some inner, n).
Proof.
  intros [(path & obs & Hh) _]. unfold on_mem, GetNativePreferencesFromOH, GetPreferencesImpl.
  set (q := mkPrefsImpl _ _ _ _) in Hh.
  assert (E : GetPreferencesImpl (Some r) (mem n) = Done (Some (r, q), mem n)).
  { unfold GetPreferencesImpl. rewrite (so_bind_Done _ _ _ _ _ (read_cid_eq _ _ _ _ Hh eq_refl)). cbn [i_cid q].
    rewrite PreferencesStructValidCheck_refl. cbn [negb]. by rewrite (so_bind_Done _ _ _ _ _ (load_eq _ _ _ Hh)). }
  fold (GetPreferencesImpl (Some r)). rewrite (so_bind_Done _ _ _ _ _ E). cbn [i_cid preferences_ q].
  rewrite PreferencesStructValidCheck_refl. cbn. by destruct n.
Qed.

Lemma with_native_linked {A} n r inner p (bad : A) k : linked n r inner p ->
  with_native (Some r) true bad k n = k inner n.
Proof. intros Hl. unfold with_native. by rewrite (so_bind_Done _ _ _ _ _ (GetNative_linked _ _ _ _ Hl)). Qed.

Lemma on_helper_done {A} (f : SO Helper A) a n h : f (hlp n) = Done (a, h) -> on_helper f n = Done (a, n_set_hlp h n).
Proof. intros E. unfold on_helper. by rewrite E. Qed.

Lemma linked_helper n r inner p h p' : linked n r inner p -> opened h inner p' -> linked (n_set_hlp h n) r inner p'.
Proof. by intros [Hh _]. Qed.

(** The object after an operation. *)
Lemma virtual_linked {A} (meth : ST PreferencesImpl A) (wrap : A -> reply) o me n r inner p :
  exec o = (x ← meth; mret (wrap x)) -> linked n r inner p ->
  exists a n' p', on_helper (virtual inner meth me) n = Done (a, n') /\ linked n' r inner p' /\ mem n' = mem n /\
    wrap a = (spec o (view p)).1 /\ same_map (view p') (spec o (view p)).2.
Proof.
  intros He Hl. destruct (virtual_opened meth wrap o me _ _ _ He (li_opened _ _ _ _ Hl)) as (a & h & p' & E & Ho & Ha & Hv).
  exists a, (n_set_hlp h n), p'. rewrite (on_helper_done _ _ _ _ E). split_and!; try done. by eapply linked_helper.
Qed.

(** *** The interface as a map *)

(** A string that was handed out, read and freed by the caller. *)
Definition get_string (preference : Ptr) (key : option string) : SO Ndk (Code * option string) :=
  r ← OH_Preferences_GetString preference key true true;
  match r with
  | (code, None) => mret (code, None)
  | (code, Some (ptr, _)) => s ← on_mem (take_string ptr); mret (code, Some s)
  end.

Inductive COp :=
  | CSetInt (key : string) (v : Z)
  | CSetBool (key : string) (v : bool)
  | CSetString (key v : string)
  | CGetInt (key : string)
  | CGetBool (key : string)
  | CGetString (key : string)
  | CHasKey (key : string)
  | CDelete (key : string)
  | CClear.

Inductive CReply :=
  | CCode (c : Code)
  | CInt (c : Code) (v : option Z)
  | CBool (c : Code) (v : option bool)
  | CStr (c : Code) (v : option string)
  | CHas (b : bool).

Definition c_exec (preference : Ptr) (o : COp) : SO Ndk CReply :=
  match o with
  | CSetInt k v => c ← OH_Preferences_SetInt RSIZE_MAX preference (Some k) v; mret (CCode c)
  | CSetBool k v => c ← OH_Preferences_SetBool RSIZE_MAX preference (Some k) v; mret (CCode c)
  | CSetString k v => c ← OH_Preferences_SetString RSIZE_MAX preference (Some k) (Some v); mret (CCode c)
  | CGetInt k => r ← OH_Preferences_GetInt preference (Some k) true; mret (CInt r.1 r.2)
  | CGetBool k => r ← OH_Preferences_GetBool preference (Some k) true; mret (CBool r.1 r.2)
  | CGetString k => r ← get_string preference (Some k); mret (CStr r.1 r.2)
  | CHasKey k => b ← OH_Preferences_HasKey preference (Some k); mret (CHas b)
  | CDelete k => c ← OH_Preferences_Delete preference (Some k); mret (CCode c)
  | CClear => c ← OH_Preferences_ClearCache preference; mret (CCode c)
  end.

Fixpoint c_run (preference : Ptr) (os : list COp) : SO Ndk (list CReply) :=
  match os with
  | [] => mret []
  | o :: os => r ← c_exec preference o; rs ← c_run preference os; mret (r :: rs)
  end.

(** The abstract store: a map of C strings to values. *)
Definition c_put (k : string) (v : PreferencesValue) (m : gmap string PreferencesValue) : CReply * gmap string PreferencesValue :=
  if negb (CheckKey k =? E_OK) then (CCode (NativeErrToNdk (CheckKey k)), m)
  else if negb (CheckValue v =? E_OK) then (CCode (NativeErrToNdk (CheckValue v)), m)
  else (CCode PREFERENCES_OK, <[k := v]> m).

(** The code of a getter, and what it gives when the value has its type. *)
Definition c_lookup {A} (k : string) (conv : PreferencesValue -> option A) (m : gmap string PreferencesValue) : Code * option A :=
  if negb (CheckKey k =? E_OK) then (NativeErrToNdk (CheckKey k), None) else
  match m !! k with
  | None => (PREFERENCES_ERROR_KEY_NOT_FOUND, None)
  | Some v => match conv v with
              | Some a => (PREFERENCES_OK, Some a)
              | None => (PREFERENCES_ERROR_KEY_NOT_FOUND, None)
              end
  end.

Definition c_spec (o : COp) (m : gmap string PreferencesValue) : CReply * gmap string PreferencesValue :=
  match o with
  | CSetInt k v => c_put (c_str k) (VInt v) m
  | CSetBool k v => c_put (c_str k) (VBool v) m
  | CSetString k v => c_put (c_str k) (VString (c_str v)) m
  | CGetInt k => let r := c_lookup (c_str k) as_int m in (CInt r.1 r.2, m)
  | CGetBool k => let r := c_lookup (c_str k) as_bool m in (CBool r.1 r.2, m)
  | CGetString k => let r := c_lookup (c_str k) as_string m in (CStr r.1 (c_str <$> r.2), m)
  | CHasKey k => (CHas ((CheckKey (c_str k) =? E_OK) && bool_decide (is_Some (m !! c_str k))), m)
  | CDelete k => if negb (CheckKey (c_str k) =? E_OK) then (CCode (NativeErrToNdk (CheckKey (c_str k))), m)
                 else (CCode PREFERENCES_OK, delete (c_str k) m)
  | CClear => (CCode PREFERENCES_OK, ∅)
  end.

Fixpoint c_spec_all (os : list COp) (m : gmap string PreferencesValue) : list CReply * gmap string PreferencesValue :=
  match os with
  | [] => ([], m)
  | o :: os => let '(r, m1) := c_spec o m in let '(rs, m2) := c_spec_all os m1 in (r :: rs, m2)
  end.

(** Every string of the store can be copied. *)
Definition strings_small (m : gmap string PreferencesValue) : Prop :=
  forall k s, m !! k = Some (VString s) -> slen s + 1 < 2 ^ 31.

Definition c_op_ok (o : COp) : Prop := match o with CSetString _ v => slen v + 1 < 2 ^ 31 | _ => True end.

(** The store and the abstract one. *)
Record sim (n : Ndk) (r inner : positive) (p : PreferencesImpl) (m : gmap string PreferencesValue) : Prop := {
  sm_linked : linked n r inner p;
  sm_map : same_map (view p) m;
  sm_small : strings_small m;
  sm_mem : mem_ok (mem n)
}.

(** What is answered instead when the copy of a string cannot be allocated. *)
Definition agrees (m : CMem) (a b : CReply) : Prop :=
  a = b \/ (exists c s, b = CStr c (Some s)) /\ a = CStr PREFERENCES_ERROR_MALLOC None /\ exists i, allocates m i = false.

Lemma virtual_sim {A} (meth : ST PreferencesImpl A) (wrap : A -> reply) o me n r inner p m :
  exec o = (x ← meth; mret (wrap x)) -> sim n r inner p m ->
  exists a n' p', on_helper (virtual inner meth me) n = Done (a, n') /\ linked n' r inner p' /\ mem n' = mem n /\
    same_reply (wrap a) (spec o m).1 /\ same_map (view p') (spec o m).2.
Proof.
  intros He [Hl Hm _ _]. destruct (virtual_linked meth wrap o me n r inner p He Hl) as (a & n' & p' & E & Hl' & Hmem & Ha & Hv).
  exists a, n', p'. destruct (spec_proper o _ _ Hm) as [Hr Hs]. rewrite Ha. split_and!; [done..|by etrans].
Qed.

Lemma strings_small_insert k v m : strings_small m -> (forall s, v = VString s -> slen s + 1 < 2 ^ 31) ->
  strings_small (<[k := v]> m).
Proof. intros Hm Hv k' s. rewrite lookup_insert_Some. intros [[_ ->]|[_ Hk]]; [by apply Hv|by eapply Hm]. Qed.

Lemma strings_small_delete k m : strings_small m -> strings_small (delete k m).
Proof. intros Hm k' s [_ Hk]%lookup_delete_Some. by eapply Hm. Qed.

Lemma slen_c_str s : slen (c_str s) <= slen s.
Proof.
  unfold slen. induction s as [|a s IH]; [done|]. cbn [c_str]. case_decide; cbn [String.length]; lia.
Qed.

(** Setters. *)
Lemma put_sim k v n r inner p m : sim n r inner p m -> (forall s, v = VString s -> slen s + 1 < 2 ^ 31) ->
  exists c n' p', native_put RSIZE_MAX (Some r) (Some k) true v n = Done (c, n') /\
    CCode c = (c_put (c_str k) v m).1 /\ sim n' r inner p' (c_put (c_str k) v m).2 /\ mem n' = mem n.
Proof.
  intros Hs Hv. unfold native_put. cbn [given_ andb]. rewrite (with_native_linked _ _ _ _ _ _ (sm_linked _ _ _ _ _ Hs)).
  destruct (virtual_sim (Put (c_str k) v) RCode (OPut (c_str k) v) (Enh_Put RSIZE_MAX (c_str k) v) n r inner p m eq_refl Hs)
    as (z & n' & p' & E & Hl & Hmem & Hr & Hm).
  unfold v_put. cbn [default id]. rewrite (so_bind_Done _ _ _ _ _ E).
  exists (NativeErrToNdk z), n', p'. split; [done|]. unfold c_put. cbn [spec] in Hr, Hm.
  destruct (negb (CheckKey (c_str k) =? E_OK)) eqn:Ek; [|destruct (negb (CheckValue v =? E_OK)) eqn:Ev];
    cbn [fst snd same_reply] in *; subst z; (split; [done|]); (split; [|done]); split; try done; rewrite ?Hmem; try apply Hs.
  apply strings_small_insert; [apply Hs|done].
Qed.

(** Getters: the conversion is run when the value has the type. *)
Lemma get_sim {A B} k outs (is_type : PreferencesValue -> bool) (conv : PreferencesValue -> SO CMem (Code * option A))
    (as_ : PreferencesValue -> option B) n r inner p m : sim n r inner p m -> outs = true ->
  (forall v, is_type v = bool_decide (is_Some (as_ v))) -> (forall v, is_type v = true -> has_float v = false) ->
  exists n' p', sim n' r inner p' m /\ mem n' = mem n /\
    native_get (Some r) (Some k) outs is_type conv n =
      match c_lookup (c_str k) (fun v => v' ← as_ v; Some v) m with
      | (_, Some v) =>
          '(code, out) ← on_mem (conv v);
          mret (if bool_decide (code = PREFERENCES_OK) then PREFERENCES_OK else code, out)
      | (c, None) => mret (c, None)
      end n'.
Proof.
  intros Hs -> Ht Hf. unfold native_get. cbn [given_ andb]. rewrite (with_native_linked _ _ _ _ _ _ (sm_linked _ _ _ _ _ Hs)).
  destruct (virtual_sim (GetValue (c_str k) PreferencesValue_default) (fun r => RCodeValue r.1 r.2) (OGetValue (c_str k) PreferencesValue_default)
    (Enh_GetValue (c_str k) PreferencesValue_default) n r inner p m eq_refl Hs) as ([z v] & n' & p' & E & Hl & Hmem & Hr & Hm).
  exists n', p'. split; [split; [done|exact Hm|apply Hs|rewrite Hmem; apply Hs]|]. split; [done|].
  unfold v_getvalue. cbn [default id]. rewrite (so_bind_Done _ _ _ _ _ E). unfold c_lookup. cbn [spec fst] in Hr.
  destruct (CheckKey (c_str k) =? E_OK) eqn:Ek; cbn [negb].
  2: { destruct Hr as [-> _]. by rewrite Ek. }
  destruct (m !! c_str k) as [v'|]; [|by destruct Hr as [-> _]]. destruct Hr as [-> Hv].
  cbn [fst snd] in Hv. assert (Hvv : is_type v = true \/ is_type v' = true -> v = v').
  { intros Hor. destruct Hv as [->|He]; [done|]. destruct Hor as [Hty|Hty]; [by apply value_eqb_eq; [apply Hf|]|].
    symmetry. rewrite value_eqb_sym in He. by apply value_eqb_eq; [apply Hf|]. }
  cbn [Z.eqb E_OK negb fst]. destruct (is_type v) eqn:Etv.
  - specialize (Hvv ltac:(by left)) as <-. rewrite Ht in Etv. apply bool_decide_eq_true in Etv as [b Hb]. by rewrite Hb.
  - destruct (is_type v') eqn:Etv'; [rewrite (Hvv ltac:(by right)) in Etv; congruence|].
    rewrite Ht in Etv'. apply bool_decide_eq_false, eq_None_not_Some in Etv'. by rewrite Etv'.
Qed.

Lemma on_mem_done {A} (f : SO CMem A) a n c : f (mem n) = Done (a, c) ->
  on_mem f n = Done (a, mkNdk c (hlp n) (observers_ n) (next_obs n)).
Proof. intros E. unfold on_mem. by rewrite E. Qed.

Lemma on_mem_same {A} (f : SO CMem A) a n : f (mem n) = Done (a, mem n) -> on_mem f n = Done (a, n).
Proof. intros E. rewrite (on_mem_done _ _ _ _ E). by destruct n. Qed.

(** A getter of a scalar. *)
Lemma scalar_sim {B} k (is_type : PreferencesValue -> bool) (as_ : PreferencesValue -> option B) n r inner p m :
  sim n r inner p m ->
  (forall v, is_type v = bool_decide (is_Some (as_ v))) -> (forall v, is_type v = true -> has_float v = false) ->
  exists n' p', sim n' r inner p' m /\ mem n' = mem n /\
    native_get (Some r) (Some k) true is_type (scalar as_) n = Done (c_lookup (c_str k) as_ m, n').
Proof.
  intros Hs Ht Hf. destruct (get_sim k true is_type (scalar as_) as_ n r inner p m Hs eq_refl Ht Hf) as (n' & p' & Hs' & Hmem & E).
  exists n', p'. split; [done|]. split; [done|]. rewrite E. unfold c_lookup.
  destruct (CheckKey (c_str k) =? E_OK); cbn [negb]; [|done]. destruct (m !! c_str k) as [v|]; [|done].
  destruct (as_ v) as [b|] eqn:Eb; cbn [mbind option_bind]; [|done].
  rewrite (so_bind_Done _ _ _ _ _ (on_mem_same (scalar as_ v) (PREFERENCES_OK, Some b) n' ltac:(unfold scalar; by rewrite Eb))).
  done.
Qed.

Lemma get_string_sim k n r inner p m : SecurecLaws -> sim n r inner p m ->
  exists a n' p', get_string (Some r) (Some k) n = Done (a, n') /\ sim n' r inner p' m /\
    heap (mem n') = heap (mem n) /\ allocates (mem n') = allocates (mem n) /\
    agrees (mem n) (CStr a.1 a.2) (c_spec (CGetString k) m).1.
Proof.
  intros Hlaws Hs.
  set (conv := fun v => str ← run_out (convert (as_string v)); string_out str).
  destruct (get_sim k true IsString conv as_string n r inner p m Hs eq_refl ltac:(by intros []) ltac:(by intros [])) as (n1 & p1 & Hs1 & Hmem & E).
  cbn [c_spec fst]. unfold get_string, OH_Preferences_GetString. cbn [andb]. fold conv. unfold mbind at 1, so_bind at 1. rewrite E. clear E.
  unfold c_lookup. destruct (CheckKey (c_str k) =? E_OK); cbn [negb].
  2: { eexists _, n1, p1. split; [reflexivity|]. rewrite Hmem. split_and!; [done..|by left]. }
  destruct (m !! c_str k) as [v|] eqn:Ek.
  2: { eexists _, n1, p1. split; [reflexivity|]. rewrite Hmem. split_and!; [done..|by left]. }
  destruct (as_string v) as [s|] eqn:Es.
  2: { cbn. eexists _, n1, p1. split; [reflexivity|]. rewrite Hmem. split_and!; [done..|by left]. }
  destruct v; try done. injection Es as ->. pose proof (sm_small _ _ _ _ _ Hs _ _ Ek) as Hlen.
  destruct Hs1 as [[Hh Ho] Hm1 Hsm Hmo].
  assert (Hc : conv (VString s) = string_out s) by done.
  destruct (string_out_spec s (mem n1) Hlen Hmo) as [(m' & E & Hhe & Hm' & Hal)|(m' & E & Hhe & Hm' & Hal & Hn)].
  - cbn [option_bind mbind as_string]. rewrite (so_bind_Done _ _ _ _ _ (on_mem_done (conv (VString s)) _ n1 _ E)).
    assert (Hr : heap m' !! next_ptr (mem n1) = Some (c_buffer s)) by (rewrite Hhe; apply lookup_insert_eq).
    cbn -[on_mem]. rewrite (so_bind_Done _ _ _ _ _ (on_mem_done (take_string _) _ (mkNdk m' _ _ _) _ (take_string_buffer _ _ _ Hr))).
    eexists _, _, p1. split; [reflexivity|]. cbn -[delete]. rewrite Hhe, alloc_free by done. split_and!; [|by rewrite Hmem|by rewrite Hal, Hmem|by left].
    split; [split; done|done|done|]. apply mem_ok_heap; [done|]. intros q Hq. rewrite Hhe.
    apply lookup_insert_is_Some'. by right.
  - cbn [option_bind mbind as_string]. rewrite (so_bind_Done _ _ _ _ _ (on_mem_done (conv (VString s)) _ n1 _ E)).
    eexists _, _, p1. split; [reflexivity|]. cbn. rewrite Hhe, Hal, Hmem. split_and!; [|done|done|].
    + split; [split; [cbn; by rewrite Hhe|done]|done|done|done].
    + right. rewrite Hmem in Hn. by eauto.
Qed.

(** One operation. *)
Lemma c_exec_sim o n r inner p m : SecurecLaws -> sim n r inner p m -> c_op_ok o ->
  exists a n' p', c_exec (Some r) o n = Done (a, n') /\ sim n' r inner p' (c_spec o m).2 /\
    heap (mem n') = heap (mem n) /\ allocates (mem n') = allocates (mem n) /\ agrees (mem n) a (c_spec o m).1.
Proof.
  intros Hlaws Hs Hok.
  assert (Hput : forall k v, (forall s, v = VString s -> slen s + 1 < 2 ^ 31) ->
    exists a n' p', (c ← native_put RSIZE_MAX (Some r) (Some k) true v; mret (CCode c)) n = Done (a, n') /\
      sim n' r inner p' (c_put (c_str k) v m).2 /\
      heap (mem n') = heap (mem n) /\ allocates (mem n') = allocates (mem n) /\ agrees (mem n) a (c_put (c_str k) v m).1).
  { intros k v Hv. destruct (put_sim k v n r inner p m Hs Hv) as (c & n' & p' & E & Hc & Hs' & Hmem).
    exists (CCode c), n', p'. rewrite (so_bind_Done _ _ _ _ _ E), Hmem, Hc. split_and!; [done..|by left]. }
  destruct o; cbn [c_exec c_op_ok] in *.
  - by apply Hput.
  - by apply Hput.
  - apply Hput. intros s [= <-]. pose proof (slen_c_str v). cbn [default id]. lia.
  - destruct (scalar_sim key IsInt as_int n r inner p m Hs ltac:(by intros []) ltac:(by intros [])) as (n' & p' & Hs' & Hmem & E).
    unfold OH_Preferences_GetInt. rewrite (so_bind_Done _ _ _ _ _ E). eexists _, n', p'. split; [reflexivity|]. rewrite Hmem. split_and!; [done..|by left].
  - destruct (scalar_sim key IsBool as_bool n r inner p m Hs ltac:(by intros []) ltac:(by intros [])) as (n' & p' & Hs' & Hmem & E).
    unfold OH_Preferences_GetBool. rewrite (so_bind_Done _ _ _ _ _ E). eexists _, n', p'. split; [reflexivity|]. rewrite Hmem. split_and!; [done..|by left].
  - destruct (get_string_sim key n r inner p m Hlaws Hs) as (a & n' & p' & E & Hs' & Hh & Hal & Ha).
    rewrite (so_bind_Done _ _ _ _ _ E). by exists (CStr a.1 a.2), n', p'.
  - destruct (virtual_sim (HasKey (c_str key)) RBool (OHasKey (c_str key)) (Enh_HasKey (c_str key)) n r inner p m eq_refl Hs)
      as (b & n' & p' & E & Hl & Hmem & Hr & Hm).
    unfold OH_Preferences_HasKey. cbn [given_]. unfold mbind at 1, so_bind at 1. rewrite (with_native_linked _ _ _ _ _ _ (sm_linked _ _ _ _ _ Hs)).
    unfold v_haskey, obj_haskey. cbn [default id]. rewrite E. cbn [spec same_reply fst snd] in *. subst b.
    eexists _, n', p'. split; [reflexivity|]. rewrite Hmem. split_and!; [|done|done|by left].
    split; [done|exact Hm|apply Hs|rewrite Hmem; apply Hs].
  - destruct (virtual_sim (Impl.Delete (c_str key)) RCode (ODelete (c_str key)) (Enh_Delete (c_str key)) n r inner p m eq_refl Hs)
      as (z & n' & p' & E & Hl & Hmem & Hr & Hm).
    unfold OH_Preferences_Delete. cbn [given_]. unfold mbind at 1, so_bind at 1. rewrite (with_native_linked _ _ _ _ _ _ (sm_linked _ _ _ _ _ Hs)).
    unfold v_delete. cbn [default id]. rewrite (so_bind_Done _ _ _ _ _ E). cbn [spec c_spec] in *.
    destruct (negb _); cbn [same_reply fst snd] in *; subst z; eexists _, n', p'; (split; [reflexivity|]); rewrite Hmem; (split_and!; [|done|done|by left]);
      (split; [done|exact Hm| |rewrite Hmem; apply Hs]); [apply Hs|apply strings_small_delete, Hs].
  - destruct (virtual_sim Impl.Clear RCode OClear Enh_Clear n r inner p m eq_refl Hs) as (z & n' & p' & E & Hl & Hmem & Hr & Hm).
    unfold OH_Preferences_ClearCache. unfold mbind at 1, so_bind at 1. rewrite (with_native_linked _ _ _ _ _ _ (sm_linked _ _ _ _ _ Hs)).
    unfold v_clear. rewrite (so_bind_Done _ _ _ _ _ E). cbn [spec same_reply fst snd] in *. subst z. eexists _, n', p'. split; [reflexivity|].
    rewrite Hmem. split_and!; [|done|done|by left]. split; [done|exact Hm|by intros k s|rewrite Hmem; apply Hs].
Qed.

Lemma c_run_sim os : forall n r inner p m, SecurecLaws -> sim n r inner p m -> Forall c_op_ok os ->
  exists rs n' p', c_run (Some r) os n = Done (rs, n') /\ sim n' r inner p' (c_spec_all os m).2 /\
    heap (mem n') = heap (mem n) /\ allocates (mem n') = allocates (mem n) /\
    Forall2 (agrees (mem n)) rs (c_spec_all os m).1.
Proof.
  induction os as [|o os IH]; intros n r inner p m Hlaws Hs Hok; [by exists [], n, p|]. inv Hok as [|? ? Ho Hos].
  destruct (c_exec_sim o n r inner p m Hlaws Hs Ho) as (a & n1 & p1 & E1 & Hs1 & Hh1 & Ha1 & Hag).
  cbn [c_run c_spec_all]. destruct (c_spec o m) as [a' m1] eqn:Ec. cbn [fst snd] in *.
  destruct (IH n1 r inner p1 m1 Hlaws Hs1 Hos) as (rs & n2 & p2 & E2 & Hs2 & Hh2 & Ha2 & Hag2).
  destruct (c_spec_all os m1) as [rs' m2]. cbn [fst snd] in *.
  exists (a :: rs), n2, p2. rewrite (so_bind_Done _ _ _ _ _ E1), (so_bind_Done _ _ _ _ _ E2).
  split; [done|]. split; [done|]. split; [congruence|]. split; [congruence|]. constructor; [done|].
  eapply Forall2_impl; [exact Hag2|]. intros x y [?|(? & ? & Hi)]; [by left|right]. by rewrite Ha1 in Hi.
Qed.

(** ** Properties *)

(** C17: Through a handle to a loaded object, any sequence of the C functions
    for integers, booleans and strings, [HasKey], [Delete] and [ClearCache]
    behaves as a map from C strings to values: keys and strings end at their
    first NUL, keys that are empty or too long are refused with the code of
    the interface, a getter answers that the key is not found when the key is
    absent or has another type, and a getter of a string answers
    [PREFERENCES_ERROR_MALLOC] only when an allocation failed.  The object
    keeps the contents of the map, the handle stays valid and, once the caller
    has freed the strings it got, the memory of the interface is as before. *)
Theorem ndk_refines_map (n : Ndk) (r inner : positive) (p : PreferencesImpl) (m : gmap string PreferencesValue)
    (os : list COp) (Hlaws : SecurecLaws) (Hl : linked n r inner p) (Hm : same_map (view p) m) (Hsmall : strings_small m)
    (Hmem : mem_ok (mem n)) (Hok : Forall c_op_ok os) :
  exists rs n' p', c_run (Some r) os n = Done (rs, n') /\
    Forall2 (agrees (mem n)) rs (c_spec_all os m).1 /\
    linked n' r inner p' /\ same_map (view p') (c_spec_all os m).2 /\ heap (mem n') = heap (mem n).
Proof.
  destruct (c_run_sim os n r inner p m Hlaws (Build_sim _ _ _ _ _ Hl Hm Hsmall Hmem) Hok) as (rs & n' & p' & E & Hs & Hh & _ & Hag).
  exists rs, n', p'. split_and!; [done|done|apply Hs|apply Hs|done].
Qed.

(** The caller of [OH_Preferences_GetAll] reads the pair at an index. *)
Definition read_pair (pairs : Ptr) (i : Z) : SO CMem (string * PreferencesValue) :=
  k ← OH_PreferencesPair_GetKey pairs i;
  o ← load k;
  key ← (match o with CChars l => run_out (read_chars l) | _ => run_out Undef end);
  v ← OH_PreferencesPair_GetPreferencesValue pairs i;
  self ← GetSelf v;
  match self with Some (_, self) => mret (key, value_ self) | None => run_out Undef end.


Lemma read_pair_eq a size es m i e s : heap m !! a = Some (CPairs (map (pair_of size) es)) -> es !! i = Some e ->
  Z.of_nat (length es) <= size -> heap m !! k_ref e = Some (c_buffer s) -> holds m (v_ref e) (entry e).2 ->
  read_pair (Some a) (Z.of_nat i) m = Done ((c_str s, (entry e).2), m).
Proof.
  intros Ha He Hsize Hk Hv. unfold read_pair, OH_PreferencesPair_GetKey, OH_PreferencesPair_GetPreferencesValue.
  rewrite (so_bind_Done _ _ _ _ _ (pair_member_at p_key (Some (k_ref e)) _ _ _ _ _ _ Ha He eq_refl Hsize)).
  rewrite (so_bind_Done _ _ _ _ _ (load_eq _ _ _ Hk)).
  assert (Ek : run_out (read_chars (chars s ++ [Val NUL])) m = Done (c_str s, m)) by (unfold run_out; by rewrite read_chars_buffer).
  unfold c_buffer. rewrite (so_bind_Done _ _ _ _ _ Ek).
  rewrite (so_bind_Done _ _ _ _ _ (pair_member_at p_value (Some (v_ref e)) _ _ _ _ _ _ Ha He eq_refl Hsize)).
  by rewrite (so_bind_Done _ _ _ _ _ (GetSelf_holds _ _ _ Hv)).
Qed.

Lemma read_pair_at h a size es m i e : packing h a size es 0 m -> es !! i = Some e -> Z.of_nat (length es) <= size ->
  read_pair (Some a) (Z.of_nat i) m = Done ((c_str (entry e).1, (entry e).2), m).
Proof.
  intros Hp He Hsize. destruct (packing_reads _ _ _ _ _ Hp) as [Ha Hr].
  destruct (Hr e (list_elem_of_lookup_2 _ _ _ He)) as [Hk Hv]. rewrite <- (c_str_idemp (entry e).1). by apply (read_pair_eq a size es).
Qed.

(** The pairs are made in a memory where every allocation succeeds. *)
Lemma pairs_out_packed res m : mem_ok m -> (forall i, allocates m i = true) -> res <> ∅ -> Z.of_nat (size res) < 2 ^ 32 ->
  exists es m', pairs_out res m = Done ((PREFERENCES_OK, Some (Some (next_ptr m), Z.of_nat (size res))), m') /\
    packing (heap m) (next_ptr m) (Z.of_nat (size res)) es 0 m' /\ map entry es = iterate res /\ length es = size res.
Proof.
  intros Hm Hal Hne Hsize.
  assert (Hlen : length (iterate res) = size res) by (rewrite (Permutation_length (iterate_perm res)); apply length_map_to_list).
  assert (Hpos : size res <> 0%nat) by (by apply map_size_non_empty_iff).
  assert (Hw : wrap_u 32 (Z.of_nat (size res)) = Z.of_nat (size res)) by (apply wrap_u_id, in_u_spec; lia).
  unfold pairs_out. rewrite Hlen, (proj2 (Z.eqb_neq _ _)) by lia. rewrite so_bind_st, Hw.
  destruct (alloc_cases (CPairs (replicate (size res) pair_uninit)) m Hm) as [(m1 & E & Hh & Hm1 & Ha1 & _)|(_ & _ & _ & _ & _ & i & Hf)].
  2: { by rewrite Hal in Hf. }
  rewrite E. cbn [fst snd].
  assert (Hp : packing (heap m) (next_ptr m) (wrap_u 32 (Z.of_nat (size res))) [] (length (iterate res)) m1).
  { rewrite Hlen. split; try done; [apply NoDup_nil_2|by intros q Hq; inv Hq|by intros Hq; inv Hq|apply Hm; lia]. }
  destruct (PackData_all (heap m) (next_ptr m) (Z.of_nat (size res)) (iterate res) [] m1 Hp ltac:(by rewrite Ha1)) as (es & m2 & Hes & Hp2 & E2).
  rewrite (so_bind_Done _ _ _ _ _ E2). rewrite Hw in Hp2. exists es, m2. cbn in Hes. split_and!; [done..|].
  by rewrite <- Hlen, <- Hes, length_map.
Qed.

(** C19: [OH_Preferences_GetAll] hands out every pair of the object: when the
    object is not empty and no allocation fails, the count is the number of
    keys, the pairs from index 0 are the entries of the map in the order in
    which it is walked (a key ends at its first NUL), an index past the last
    pair gives null, the handle stays valid, and
    [OH_PreferencesPair_Destroy] with the count gives back all memory. *)
Theorem GetAll_pairs (n : Ndk) (r inner : positive) (p : PreferencesImpl) (Hl : linked n r inner p) (Hmem : mem_ok (mem n))
    (Hal : forall i, allocates (mem n) i = true) (Hne : view p <> ∅) (Hsize : Z.of_nat (size (view p)) < 2 ^ 32) :
  exists a n' p', OH_Preferences_GetAll (Some r) true true n =
      Done ((PREFERENCES_OK, Some (Some a, Z.of_nat (size (view p)))), n') /\
    linked n' r inner p' /\
    (forall i k v, iterate (view p) !! i = Some (k, v) -> read_pair (Some a) (Z.of_nat i) (mem n') = Done ((c_str k, v), mem n')) /\
    (forall i, Z.of_nat (size (view p)) <= i -> OH_PreferencesPair_GetKey (Some a) i (mem n') = Done (None, mem n') /\
       OH_PreferencesPair_GetPreferencesValue (Some a) i (mem n') = Done (None, mem n')) /\
    exists c, OH_PreferencesPair_Destroy (Some a) (Z.of_nat (size (view p))) (mem n') = Done (tt, c) /\ heap c = heap (mem n).
Proof.
  destruct (virtual_linked GetAllDatas RMap OGetAllDatas Enh_GetAllDatas n r inner p eq_refl Hl) as (res & n1 & p1 & E & Hl1 & Hm1 & Hres & _).
  cbn [spec fst] in Hres. injection Hres as ->. rewrite <- Hm1 in *.
  destruct (pairs_out_packed (view p) (mem n1) Hmem Hal Hne Hsize) as (es & m' & E2 & Hp & Hes & Hlen).
  destruct (packing_reads _ _ _ _ _ Hp) as [Ha _].
  exists (next_ptr (mem n1)), (mkNdk m' (hlp n1) (observers_ n1) (next_obs n1)), p1. split_and!.
  - unfold OH_Preferences_GetAll. cbn [andb]. rewrite (with_native_linked _ _ _ _ _ _ Hl).
    unfold v_getalldatas. by rewrite (so_bind_Done _ _ _ _ _ E), (on_mem_done _ _ _ _ E2).
  - destruct Hl1 as [(path & obs & Hh) Ho]. split; [|done]. exists path, obs. cbn.
    rewrite (pk_heap _ _ _ _ _ _ Hp). rewrite lookup_insert_ne.
    + rewrite puts_ne; [done|]. intros Hin. by rewrite (pk_fresh _ _ _ _ _ _ Hp _ Hin) in Hh.
    + intros <-. by rewrite (pk_harr _ _ _ _ _ _ Hp) in Hh.
  - intros i k v Hi. rewrite <- Hes in Hi. change (map ?f ?l) with (f <$> l) in Hi. apply list_lookup_fmap_Some in Hi as (e & He & Hi).
    cbn [mem]. rewrite (read_pair_at _ _ _ _ _ _ _ Hp Hi) by lia. by rewrite <- He.
  - intros i Hi. assert (Hes0 : es <> []). { intros ->. by apply Hne, map_size_empty_inv. }
    unfold OH_PreferencesPair_GetKey, OH_PreferencesPair_GetPreferencesValue. cbn [mem]. by rewrite !(pair_member_over _ _ _ _ _ _ Ha Hes0 Hi).
  - rewrite <- Hlen. apply (packing_destroy _ _ _ _ _ Hp).
Qed.

(** *** What the interface gets wrong *)

(** Memory where the array is there, but no copy of the first entry. *)
Definition first_entry_fails (m : CMem) : Prop :=
  allocates m (allocations m) = true /\
  (allocates m (S (allocations m)) = false \/ allocates m (S (S (allocations m))) = false).

Lemma PackData_first_fails a l size key value res m :
  heap m !! a = Some (CPairs (pair_uninit :: l)) -> mem_ok m ->
  (allocates m (allocations m) = false \/ allocates m (S (allocations m)) = false) ->
  exists m' k, PackData (Some a) size 0 ((key, value) :: res) m = Done (0, m') /\
    heap m' !! a = Some (CPairs (mkPair (Val PREFERENCES_OH_PAIR_CID) (Val k) Uninit (Val (wrap_u 32 size)) :: l)).
Proof.
  intros Ha Hm Hf. set (p1 := mkPair (Val PREFERENCES_OH_PAIR_CID) Uninit Uninit (Val (wrap_u 32 size))).
  assert (Hup : forall f p m0, heap m0 !! a = Some (CPairs (p :: l)) ->
    update_pair (Some a) 0 f m0 = Done (tt, set_heap (<[a := CPairs (f p :: l)]> (heap m0)) m0)).
  { intros f p m0 Hm0. unfold update_pair. rewrite (so_bind_Done _ _ _ _ _ (load_pairs_eq _ _ _ Hm0)).
    rewrite (so_bind_out _ _ _ p) by done. by rewrite (store_eq _ _ _ _ Hm0). }
  cbn [PackData]. rewrite (so_bind_Done _ _ _ _ _ (Hup _ _ _ Ha)). cbn [p_key p_value pair_uninit]. fold p1.
  set (m1 := set_heap _ m). assert (Ha1 : heap m1 !! a = Some (CPairs (p1 :: l))) by apply lookup_insert_eq.
  rewrite so_bind_st. unfold strdup. destruct (allocates m (allocations m)) eqn:E1.
  - destruct Hf as [|E2]; [done|]. rewrite (alloc_c_ok (c_buffer _) m1 E1). cbn [fst snd].
    set (m2 := mkCMem _ _ _ _). assert (Ha2 : heap m2 !! a = Some (CPairs (p1 :: l))).
    { cbn [heap m2]. rewrite lookup_insert_ne; [exact Ha1|]. cbn. intros <-. by rewrite Hm in Ha by lia. }
    rewrite (so_bind_Done _ _ _ _ _ (Hup _ _ _ Ha2)), so_bind_st, (alloc_c_failed _ (set_heap _ m2) E2). cbn [fst snd].
    eexists _, _. split; [reflexivity|]. cbn [heap set_heap]. by rewrite lookup_insert_eq.
  - rewrite (alloc_c_failed _ m1 E1). cbn [fst snd]. set (m2 := mkCMem _ _ _ _).
    assert (Ha2 : heap m2 !! a = Some (CPairs (p1 :: l))) by exact Ha1.
    rewrite (so_bind_Done _ _ _ _ _ (Hup _ _ _ Ha2)). eexists _, _. split; [reflexivity|]. cbn [heap set_heap]. by rewrite lookup_insert_eq.
Qed.

(** When the copy of the first entry fails, [PackData] returns the number
    0 that also stands for success: [OH_Preferences_GetAll] answers
    [PREFERENCES_OK] with pairs that were never written, and both reading the
    value of the first pair and destroying the pairs read memory that was not
    initialised. *)
Theorem GetAll_first_failure_is_ok (n : Ndk) (r inner : positive) (p : PreferencesImpl) (Hl : linked n r inner p)
    (Hmem : mem_ok (mem n)) (Hne : view p <> ∅) (Hsize : Z.of_nat (size (view p)) < 2 ^ 32) (Hf : first_entry_fails (mem n)) :
  exists a n', OH_Preferences_GetAll (Some r) true true n = Done ((PREFERENCES_OK, Some (Some a, Z.of_nat (size (view p)))), n') /\
    OH_PreferencesPair_GetPreferencesValue (Some a) 0 (mem n') = Undef /\
    OH_PreferencesPair_Destroy (Some a) (Z.of_nat (size (view p))) (mem n') = Undef.
Proof.
  destruct (virtual_linked GetAllDatas RMap OGetAllDatas Enh_GetAllDatas n r inner p eq_refl Hl) as (res & n1 & p1 & E & _ & Hm1 & Hres & _).
  cbn [spec fst] in Hres. injection Hres as ->. rewrite <- Hm1 in *. destruct Hf as [Hok Hf].
  assert (Hlen : length (iterate (view p)) = size (view p)) by (rewrite (Permutation_length (iterate_perm _)); apply length_map_to_list).
  assert (Hpos : size (view p) <> 0%nat) by (by apply map_size_non_empty_iff).
  assert (Hw : wrap_u 32 (Z.of_nat (size (view p))) = Z.of_nat (size (view p))) by (apply wrap_u_id, in_u_spec; lia).
  destruct (iterate (view p)) as [|[key value] l] eqn:Eit; [by rewrite <- Hlen in Hpos|]. cbn [length] in Hlen.
  set (m1 := mem n1) in *. set (a := next_ptr m1).
  set (m2 := mkCMem (<[a := CPairs (replicate (size (view p)) pair_uninit)]> (heap m1)) (Pos.succ a) (S (allocations m1)) (allocates m1)).
  assert (Hm2 : mem_ok m2).
  { pose proof (mem_ok_alloc (CPairs (replicate (size (view p)) pair_uninit)) m1 Hmem) as Hx. unfold alloc_c in Hx. by rewrite Hok in Hx. }
  destruct (PackData_first_fails a (replicate (length l) pair_uninit) (Z.of_nat (size (view p))) key value l m2) as (m3 & k & E3 & Ha3).
  { cbn [heap m2]. rewrite <- Hlen at 1. apply lookup_insert_eq. }
  { done. }
  { exact Hf. }
  rewrite Hw in Ha3. exists a, (mkNdk m3 (hlp n1) (observers_ n1) (next_obs n1)). cbn [mem].
  set (q := mkPair _ _ _ _) in Ha3. pose proof (load_pairs_eq _ _ _ Ha3) as Hload. split_and!.
  - unfold OH_Preferences_GetAll. cbn [andb]. rewrite (with_native_linked _ _ _ _ _ _ Hl).
    unfold v_getalldatas. rewrite (so_bind_Done _ _ _ _ _ E). apply on_mem_done. fold m1. unfold pairs_out. rewrite Eit.
    cbn [length]. rewrite Hlen, (proj2 (Z.eqb_neq _ _)) by lia. rewrite so_bind_st, (alloc_c_ok _ m1 Hok). cbn [fst snd].
    fold a m2. rewrite (so_bind_Done _ _ _ _ _ E3). cbn. by rewrite Hw.
  - unfold OH_PreferencesPair_GetPreferencesValue, pair_member. rewrite (so_bind_Done _ _ _ _ _ Hload).
    rewrite (so_bind_out (index_ _ 0) _ _ q), (so_bind_out _ _ _ (Z.of_nat (size (view p)))) by done.
    rewrite (proj2 (Z.leb_gt _ _)) by lia. rewrite (so_bind_out (index_ _ 0) _ _ q) by done.
    by rewrite (so_bind_out _ _ _ PREFERENCES_OH_PAIR_CID).
  - unfold OH_PreferencesPair_Destroy. rewrite Nat2Z.id. unfold mbind at 1, so_bind at 1. rewrite <- Hlen. cbn [destroy_pairs].
    rewrite (so_bind_Done _ _ _ _ _ Hload), (so_bind_out (index_ _ _) _ _ q), (so_bind_out _ _ _ k) by done.
    unfold mbind at 1, so_bind at 1. destruct k as [k|]; [|done]. cbn [free]. unfold free_ref. by destruct (heap m3 !! k).
Qed.

(** What [OH_Preferences_GetValue] finds. *)
Definition found (k : string) (m : gmap string PreferencesValue) : PreferencesValue :=
  if CheckKey k =? E_OK then default VMonostate (m !! k) else VMonostate.

(** [OH_Preferences_GetValue] answers [PREFERENCES_OK] and writes a null
    value for a key that is absent or not valid, whereas a key that holds the
    empty string, which compares equal to the null pointer it looks for, is
    answered with [PREFERENCES_ERROR_INVALID_PARAM] and writes nothing; any
    other value is written to the caller's object.  No other object of the
    interface changes. *)
Theorem GetValue_reads (n : Ndk) (r inner q : positive) (p : PreferencesImpl) (key : string) (v : PreferencesValue)
    (Hl : linked n r inner p) (Hq : holds (mem n) q v) :
  let w := found (c_str key) (view p) in
  exists n' p', linked n' r inner p' /\ same_map (view p') (view p) /\
    OH_Preferences_GetValue (Some r) (Some key) (Some (Some q)) n =
      Done (if decide (w = VString "") then PREFERENCES_ERROR_INVALID_PARAM else PREFERENCES_OK, n') /\
    heap (mem n') = if decide (w = VString "") then heap (mem n)
                    else <[q := CValue (mkValueImpl PREFERENCES_OH_VALUE_CID w)]> (heap (mem n)).
Proof.
  intros w.
  destruct (virtual_linked (Get (c_str key) PreferencesValue_default) RValue (OGet (c_str key) PreferencesValue_default)
    (Enh_Get (c_str key) PreferencesValue_default) n r inner p eq_refl Hl) as (a & n1 & p1 & E & Hl1 & Hm1 & Ha & Hv).
  cbn [spec fst] in Ha. injection Ha as Ha. change (a = w) in Ha. subst a.
  assert (Eget : OH_Preferences_GetValue (Some r) (Some key) (Some (Some q)) n =
    (if value_eqb w (VString "") then mret PREFERENCES_ERROR_INVALID_PARAM else
      on_mem (store q (CValue (mkValueImpl PREFERENCES_OH_VALUE_CID w)));; mret PREFERENCES_OK) n1).
  { unfold OH_Preferences_GetValue. cbn [given_ andb]. rewrite (with_native_linked _ _ _ _ _ _ Hl).
    unfold v_get. cbn [default id]. rewrite (so_bind_Done _ _ _ _ _ E).
    change (PreferencesValue_cstr None) with (VString ""). destruct (value_eqb w (VString "")); [done|].
    rewrite <- Hm1 in Hq. by rewrite (so_bind_Done _ _ _ _ _ (on_mem_same (load (Some q)) _ n1 (load_eq _ _ _ Hq))). }
  rewrite Eget. assert (Hw : value_eqb w (VString "") = bool_decide (w = VString "")).
  { apply eq_true_iff_eq. rewrite value_eqb_sym, (value_eqb_eq (VString "") w eq_refl), bool_decide_eq_true. naive_solver. }
  rewrite Hw. case_bool_decide as Hd.
  - rewrite !decide_True by done. exists n1, p1. rewrite Hm1. done.
  - rewrite !decide_False by done. rewrite <- Hm1 in Hq. rewrite (so_bind_Done _ _ _ _ _ (on_mem_done _ _ n1 _ (store_eq _ _ _ _ Hq))).
    eexists _, p1. split; [|split; [done|split; [reflexivity|cbn; by rewrite Hm1]]].
    destruct Hl1 as [(path & obs & Hh) Ho]. split; [|done]. exists path, obs. cbn [mem heap set_heap].
    rewrite lookup_insert_ne; [done|]. intros <-. unfold holds in Hq. by rewrite Hh in Hq.
Qed.

(** *** Observers *)

(** A method for observers. *)
Lemma locked_linked {A} (nm : string) (f : ST Base A) me n r inner p : linked n r inner p ->
  exists e', Impl.quiet (h_env (hlp n)) e' /\
  on_helper (virtual inner (_ ← (v_IsClose nm : ST PreferencesImpl bool); zoom_base f) me) n =
    Done ((f (set_env e' (base_ p))).1,
      n_set_hlp (h_set_env (env (f (set_env e' (base_ p))).2)
        (h_set_objects (<[inner := PXml (upd_base (f (set_env e' (base_ p))).2 p)]> (objects (hlp n))) (hlp n))) n).
Proof.
  intros Hl. destruct (locked_opened nm f me _ _ _ (li_opened _ _ _ _ Hl)) as (e' & Hq & E).
  exists e'. by rewrite (on_helper_done _ _ _ _ E).
Qed.

(** The state with one observer more. *)
Definition with_new_observer (f : Z) (context : Z) (n : Ndk) : Ndk :=
  match make_observer (Some f) context n with Done (_, n') => n' | _ => n end.

Lemma make_observer_eq f context n : make_observer (Some f) context n = Done (next_obs n, with_new_observer f context n).
Proof. done. Qed.

Lemma with_new_observer_linked f context n r inner p : linked n r inner p -> linked (with_new_observer f context n) r inner p.
Proof. intros [Hh Ho]. split; [exact Hh|by apply opened_alive]. Qed.

Lemma GetPreferencesImpl_linked n r inner p : linked n r inner p ->
  exists q, preferences_ q = Some inner /\ heap (mem n) !! r = Some (CPrefs q) /\ i_cid q = PREFERENCES_OH_PREFERENCES_CID /\
    on_mem (GetPreferencesImpl (Some r)) n = Done (Some (r, q), n).
Proof.
  intros [(path & obs & Hh) _]. eexists. split; [|split; [exact Hh|split; [reflexivity|]]]; [done|].
  apply on_mem_same. unfold GetPreferencesImpl. rewrite (so_bind_Done _ _ _ _ _ (read_cid_eq _ _ _ _ Hh eq_refl)). cbn [i_cid].
  rewrite PreferencesStructValidCheck_refl. cbn [negb]. by rewrite (so_bind_Done _ _ _ _ _ (load_eq _ _ _ Hh)).
Qed.

Lemma load_prefs_eq n r q : heap (mem n) !! r = Some (CPrefs q) -> on_mem (load_prefs r) n = Done (q, n).
Proof. intros Hh. apply on_mem_same. unfold load_prefs. by rewrite (so_bind_Done _ _ _ _ _ (load_eq _ _ _ Hh)). Qed.

Lemma keys_from_all (keys : list string) : keys_from (map Some keys) (length keys) = Done (map c_str keys).
Proof. induction keys as [|k keys IH]; [done|]. cbn [map length keys_from]. by rewrite IH. Qed.

(** A function for observers through a valid handle. *)
Lemma with_observer_linked n r inner p k : linked n r inner p ->
  with_observer (Some r) true k n = (code ← k r; mret (NativeErrToNdk (ndk_code code))) n.
Proof.
  intros Hl. destruct (GetPreferencesImpl_linked _ _ _ _ Hl) as (q & _ & _ & _ & E).
  unfold with_observer. by rewrite (so_bind_Done _ _ _ _ _ E).
Qed.

Lemma RegisterDataObserver_linked n r inner p f context keys : linked n r inner p ->
  dataObserversMap_ (base_ p) !! (Some (next_obs n) : ObsPtr) = None ->
  exists n' p', Impl_RegisterDataObserver r (Some f) context keys n = Done (PREFERENCES_OK, n') /\
    linked n' r inner p' /\ next_obs n ∈ alive (svc (h_env (hlp n'))) /\
    observers_ n' !! next_obs n = Some (mkNDKObserver (Some f) context) /\
    dataObserversMap_ (base_ p') = <[Some (next_obs n) := list_to_set keys]> (dataObserversMap_ (base_ p)).
Proof.
  intros Hl Hfresh. destruct (GetPreferencesImpl_linked _ _ _ _ Hl) as (q & Hin & Hh & Hc & _).
  set (n1 := with_new_observer f context n). pose proof (with_new_observer_linked f context _ _ _ _ Hl) as Hl1. fold n1 in Hl1.
  destruct (locked_linked "RegisterDataObserver" (RegisterDataObserver_locked (Some (next_obs n)) keys)
    (run_st (e_on_base (RegisterDataObserver (Some (next_obs n)) keys))) n1 r inner p Hl1) as (e' & Hq & E).
  assert (Er : RegisterDataObserver_locked (Some (next_obs n)) keys (set_env e' (base_ p)) =
    (E_OK, set_dataObserversMap (<[Some (next_obs n) := list_to_set keys]> (dataObserversMap_ (base_ p))) (set_env e' (base_ p)))).
  { unfold RegisterDataObserver_locked, mbind, st_bind, get. cbn [dataObserversMap_ set_env]. destruct (_ !! _) eqn:Ef in |- *; [|done]. by rewrite Hfresh in Ef. }
  rewrite Er in E. cbn [fst snd] in E. unfold Impl_RegisterDataObserver. rewrite (so_bind_Done _ _ _ _ _ (make_observer_eq f context n)). fold n1.
  rewrite (so_bind_Done _ _ _ _ _ (load_prefs_eq n1 r q Hh)), (so_bind_out _ _ _ inner) by (unfold inner_of; by rewrite Hin).
  assert (E2 := E). change (on_helper _ n1) with (v_register_data inner (next_obs n) keys n1) in E2.
  rewrite (so_bind_Done _ _ _ _ _ E2). cbn [negb E_OK Z.eqb]. set (n2 := n_set_hlp _ n1).
  assert (Es := on_mem_done _ _ n2 _ (store_eq r _ (CPrefs (set_dataObservers (dataObservers_ q ++ [(next_obs n, context)]) q)) (mem n2) Hh)).
  rewrite (so_bind_Done _ _ _ _ _ Es). eexists _, _. split; [reflexivity|]. split; [split; [|split]|].
  - destruct q as [c i path obs]. cbn in *. subst c i. eexists path, _. by rewrite lookup_insert_eq.
  - cbn. apply lookup_insert_eq.
  - apply Hl.
  - cbn. destruct Hq as [_ ->]. split; [cbn; set_solver|]. split; [apply lookup_insert_eq|done].
Qed.

Lemma RegisterMultiProcess_linked n r inner p f context c : linked n r inner p ->
  client (svc (h_env (hlp n))) = c -> stubAlloc (svc (h_env (hlp n))) = true ->
  (forall cl uri o, c = Some cl -> cl_register cl uri o = 0) ->
  exists n' p', Impl_RegisterMultiProcessDataObserver r (Some f) context n =
      Done (match c with None => PREFERENCES_ERROR_GET_DATAOBSMGRCLIENT | Some _ => PREFERENCES_OK end, n') /\
    linked n' r inner p' /\ (next_obs n ∉ alive (svc (h_env (hlp n')))) /\
    multiProcessObservers_ (base_ p') = multiProcessObservers_ (base_ p) ++ (match c with None => [] | Some _ => [Some (next_obs n)] end).
Proof.
  intros Hl Hc Hs Hr. destruct (GetPreferencesImpl_linked _ _ _ _ Hl) as (q & Hin & Hh & Hcid & _).
  set (n1 := with_new_observer f context n). pose proof (with_new_observer_linked f context _ _ _ _ Hl) as Hl1. fold n1 in Hl1.
  destruct (locked_linked "RegisterObserver" (RegisterObserver_locked (Some (next_obs n)) MULTI_PRECESS_CHANGE)
    (run_st (e_on_base (RegisterObserver (Some (next_obs n)) MULTI_PRECESS_CHANGE))) n1 r inner p Hl1) as (e' & [_ Hq] & E).
  change (on_helper _ n1) with (v_register inner (next_obs n) MULTI_PRECESS_CHANGE n1) in E.
  set (res := RegisterObserver_locked _ _ _) in E.
  assert (Hres : exists b', res = (match c with None => E_GET_DATAOBSMGRCLIENT_FAIL | Some _ => E_OK end, b') /\
    multiProcessObservers_ b' = multiProcessObservers_ (base_ p) ++ (match c with None => [] | Some _ => [Some (next_obs n)] end)).
  { unfold res, RegisterObserver_locked, mbind, st_bind, get. cbn [env set_env]. rewrite Hq.
    change (client (svc (h_env (hlp n1)))) with (client (svc (h_env (hlp n)))).
    change (stubAlloc (svc (h_env (hlp n1)))) with (stubAlloc (svc (h_env (hlp n)))). rewrite Hc, Hs. cbn [negb].
    destruct c as [cl|]; [rewrite (Hr cl _ _ eq_refl); cbn; by eexists|eexists; split; [reflexivity|by rewrite app_nil_r]]. }
  destruct Hres as (b' & -> & Hb'). cbn [fst snd] in E.
  unfold Impl_RegisterMultiProcessDataObserver. rewrite (so_bind_Done _ _ _ _ _ (make_observer_eq f context n)). fold n1.
  rewrite (so_bind_Done _ _ _ _ _ (load_prefs_eq n1 r q Hh)), (so_bind_out _ _ _ inner) by (unfold inner_of; by rewrite Hin).
  rewrite (so_bind_Done _ _ _ _ _ E). eexists _, (upd_base b' p). split; [by destruct c|]. split; [split; [|split]|].
  - by apply Hl.
  - cbn. apply lookup_insert_eq.
  - apply Hl.
  - cbn -[difference]. split; [set_solver|done].
Qed.

(** An observer for data changes is owned by the handle: after
    [OH_Preferences_RegisterDataObserver] it is alive and registered for the
    keys.  An observer for other processes is not: when
    [OH_Preferences_RegisterMultiProcessDataObserver] answers
    [PREFERENCES_OK] the object keeps a pointer to an observer that died with
    the call, and no notification ever reaches the application.  When the
    service has no client, the code is converted twice and the application
    reads [PREFERENCES_ERROR_STORAGE] instead of
    [PREFERENCES_ERROR_GET_DATAOBSMGRCLIENT]. *)
Theorem observers_of_a_handle (n : Ndk) (r inner : positive) (p : PreferencesImpl) (f context : Z) (keys : list string)
    (Hl : linked n r inner p) (Hfresh : dataObserversMap_ (base_ p) !! (Some (next_obs n) : ObsPtr) = None)
    (Hstub : stubAlloc (svc (h_env (hlp n))) = true)
    (Hreg : forall cl uri o, client (svc (h_env (hlp n))) = Some cl -> cl_register cl uri o = 0) :
  (exists n' p', OH_Preferences_RegisterDataObserver (Some r) context (Some f) (Some (map Some keys)) (Z.of_nat (length keys)) n =
      Done (PREFERENCES_OK, n') /\ linked n' r inner p' /\ next_obs n ∈ alive (svc (h_env (hlp n'))) /\
    dataObserversMap_ (base_ p') = <[Some (next_obs n) := list_to_set (map c_str keys)]> (dataObserversMap_ (base_ p))) /\
  (exists n' p', OH_Preferences_RegisterMultiProcessDataObserver (Some r) context (Some f) n =
      Done (match client (svc (h_env (hlp n))) with Some _ => PREFERENCES_OK | None => PREFERENCES_ERROR_STORAGE end, n') /\
    linked n' r inner p' /\
    (client (svc (h_env (hlp n))) <> None -> Some (next_obs n) ∈ multiProcessObservers_ (base_ p')) /\
    forall key e, alive (svc e) = alive (svc (h_env (hlp n'))) -> OnChangePreferences (Some (next_obs n)) key e = (tt, e)).
Proof.
  split.
  - unfold OH_Preferences_RegisterDataObserver. cbn [given_ andb]. rewrite (with_observer_linked _ _ _ _ _ Hl). cbn [default id].
    rewrite Nat2Z.id. rewrite keys_from_all.
    destruct (RegisterDataObserver_linked n r inner p f context (map c_str keys) Hl Hfresh) as (n' & p' & E & Hl' & Ha & _ & Hm).
    exists n', p'. split; [|done]. unfold mbind at 1, so_bind at 1. rewrite (so_bind_out _ _ _ _ eq_refl), E. done.
  - destruct (RegisterMultiProcess_linked n r inner p f context _ Hl eq_refl Hstub Hreg) as (n' & p' & E & Hl' & Ha & Hm).
    exists n', p'. unfold OH_Preferences_RegisterMultiProcessDataObserver. cbn [given_]. rewrite (with_observer_linked _ _ _ _ _ Hl).
    rewrite (so_bind_Done _ _ _ _ _ E). split; [by destruct (client _)|]. split; [done|]. rewrite Hm. split.
    + destruct (client _); [|done]. intros _. apply elem_of_app. right. by left.
    + intros key e He. unfold OnChangePreferences, mbind, st_bind, get, lock. by rewrite He, decide_False.
Qed.

(** *** The callback *)

(** The pairs of [done] in the array [a] with room for [n] more, and the keys
    that are left to use. *)
Record making (a : positive) (size : Z) (done : list Packed) (n : nat) (keys : list (positive * string)) (m : CMem) : Prop := {
  mk_arr : heap m !! a = Some (CPairs (map (pair_of size) done ++ replicate n pair_uninit));
  mk_done e : e ∈ done -> heap m !! k_ref e = Some (c_buffer (entry e).1) /\ holds m (v_ref e) (entry e).2;
  mk_keys r s : (r, s) ∈ keys -> heap m !! r = Some (c_buffer s);
  mk_ok : mem_ok m;
  mk_alloc i : allocates m i = true
}.

Lemma copy_keys_spec records : forall m, mem_ok m -> exists rs m', copy_keys records m = (rs, m') /\ length rs = length records /\
  mem_ok m' /\ allocates m' = allocates m /\ (forall q, is_Some (heap m !! q) -> heap m' !! q = heap m !! q) /\
  forall r s, (r, s) ∈ zip rs records.*1 -> heap m' !! r = Some (c_buffer s).
Proof.
  induction records as [|[key v] records IH]; intros m Hm.
  { exists [], m. split_and!; try done. intros r s Hin. inv Hin. }
  cbn [copy_keys]. unfold mbind, st_bind, new_c. set (m1 := mkCMem _ _ _ _).
  assert (Hm1 : mem_ok m1). { intros q Hq. cbn in *. rewrite lookup_insert_ne by lia. apply Hm. lia. }
  destruct (IH m1 Hm1) as (rs & m' & E & Hlen & Hm' & Hal & Hkeep & Hk). rewrite E. exists (next_ptr m :: rs), m'.
  assert (Hfirst : heap m' !! next_ptr m = Some (c_buffer key)).
  { rewrite Hkeep; cbn; rewrite lookup_insert_eq; [done|by eexists]. }
  split_and!; [done|cbn; lia|done|done| |].
  - intros q Hq. destruct (decide (q = next_ptr m)) as [->|Hne]; [rewrite Hm in Hq by lia; by destruct Hq|].
    rewrite Hkeep; cbn; by rewrite lookup_insert_ne.
  - intros r s. cbn. intros [[= -> ->]|Hin]%elem_of_cons; [done|by apply Hk].
Qed.

Lemma make_pairs_spec a count records : forall done keys m, length keys = length records ->
  making a (wrap_u 32 count) done (length records) (zip keys records.*1) m ->
  exists es m', make_pairs (Some a) count (length done) keys records m = Done (true, m') /\
    map entry es = map entry done ++ records /\ making a (wrap_u 32 count) es 0 [] m'.
Proof.
  induction records as [|[key value] records IH]; intros done keys m Hlen Hmk.
  { exists done, m. rewrite app_nil_r. destruct keys; [|done]. split_and!; done. }
  destruct keys as [|k keys]; [done|]. cbn [make_pairs]. rewrite so_bind_st, (alloc_c_ok _ m (mk_alloc _ _ _ _ _ _ Hmk _)). cbn [fst snd].
  pose proof (mk_arr _ _ _ _ _ _ Hmk) as Ha. pose proof (mk_ok _ _ _ _ _ _ Hmk) as Hm.
  set (m1 := mkCMem _ _ _ _). set (v := next_ptr m) in *.
  assert (Hkeep : forall q o, heap m !! q = Some o -> heap m1 !! q = Some o).
  { intros q o Hq. cbn. rewrite lookup_insert_ne; [done|]. intros <-. by rewrite Hm in Hq by (unfold v; lia). }
  pose proof (Hkeep _ _ Ha) as Ha1. cbn [length replicate] in Ha1.
  set (e := mkPacked k v (key, value)). set (l' := map (pair_of (wrap_u 32 count)) (done ++ [e]) ++ replicate (length records) pair_uninit).
  set (m2 := set_heap (<[a := CPairs l']> (heap m1)) m1).
  assert (Eu : update_pair (Some a) (length done) (fun _ => mkPair (Val PREFERENCES_OH_PAIR_CID) (Val (Some k)) (Val (Some v)) (Val (wrap_u 32 count))) m1 = Done (tt, m2)).
  { unfold update_pair. rewrite (so_bind_Done _ _ _ _ _ (load_pairs_eq _ _ _ Ha1)).
    rewrite (so_bind_out _ _ _ pair_uninit). 2: { apply index_lookup, list_lookup_middle. by rewrite length_map. }
    rewrite (store_eq _ _ _ _ Ha1). unfold m2, l'. rewrite map_app, <- app_assoc.
    rewrite insert_app_r_alt by (rewrite length_map; lia). by rewrite length_map, Nat.sub_diag. }
  rewrite (so_bind_Done _ _ _ _ _ Eu).
  assert (Hold : forall q o, heap m !! q = Some o -> q <> a -> heap m2 !! q = Some o).
  { intros q o Hq Hne. cbn. rewrite lookup_insert_ne by done. by apply Hkeep. }
  assert (Hk : forall s, heap m !! a <> Some (c_buffer s)) by (intros s; by rewrite Ha).
  assert (Hmk2 : making a (wrap_u 32 count) (done ++ [e]) (length records) (zip keys records.*1) m2).
  { split.
    - apply lookup_insert_eq.
    - intros e0 [He|He%list_elem_of_singleton]%elem_of_app.
      + destruct (mk_done _ _ _ _ _ _ Hmk e0 He) as [H1' H2']. split; apply Hold; try done; intros E; [rewrite E in H1'; by eapply Hk|].
        unfold holds in H2'. rewrite E in H2'. by rewrite Ha in H2'.
      + subst e0. cbn [k_ref v_ref entry fst snd e]. split.
        * apply Hold; [apply (mk_keys _ _ _ _ _ _ Hmk); by left|]. intros ->. eapply Hk, (mk_keys _ _ _ _ _ _ Hmk). by left.
        * unfold holds. cbn. rewrite lookup_insert_ne; [apply lookup_insert_eq|]. intros E. by rewrite E, Hm in Ha by (unfold v; lia).
    - intros q s Hin. assert (Hq : heap m !! q = Some (c_buffer s)) by (apply (mk_keys _ _ _ _ _ _ Hmk); by right).
      apply Hold; [done|]. intros ->. by eapply Hk.
    - apply mem_ok_heap.
      + pose proof (mem_ok_alloc (CValue (mkValueImpl PREFERENCES_OH_VALUE_CID value)) m Hm) as Hx.
        by rewrite (alloc_c_ok _ m (mk_alloc _ _ _ _ _ _ Hmk _)) in Hx.
      + intros q. rewrite lookup_insert_is_Some'. intros [<-|?]; [by rewrite Ha1|done].
    - apply (mk_alloc _ _ _ _ _ _ Hmk). }
  destruct (IH (done ++ [e]) keys m2 ltac:(cbn in Hlen; lia) Hmk2) as (es & m' & E & Hes & Hmk').
  exists es, m'. rewrite length_app, Nat.add_1_r in E. split; [exact E|]. split; [|done]. rewrite Hes, map_app, <- app_assoc. done.
Qed.

(** When data changes, the function of the application is called with its
    context, the number of records and an array in which it can read every
    record in order (a key up to its first NUL); whatever it does with the
    memory, as long as it leaves the array, the values are then deleted
    through a pointer to their base class, which has no virtual destructor:
    every delivered notification ends in undefined behaviour. *)
Theorem OnChange_delivers_then_undefined (o : NDKPreferencesObserver) (records : list (string * PreferencesValue)) (m : CMem)
    (callback : Z -> Ptr -> Z -> SO CMem unit)
    (Hf : dataObserver_ o <> None) (Hne : records <> []) (Hsize : Z.of_nat (length records) < 2 ^ 32)
    (Hm : mem_ok m) (Hal : forall i, allocates m i = true) :
  exists a keys m1, OnChange_call o records m = Done ((Some (context_ o, Some a, Z.of_nat (length records)), keys), m1) /\
    (forall i k v, records !! i = Some (k, v) -> read_pair (Some a) (Z.of_nat i) m1 = Done ((c_str k, v), m1)) /\
    forall m2, callback (context_ o) (Some a) (Z.of_nat (length records)) m1 = Done (tt, m2) -> heap m2 !! a = heap m1 !! a ->
      NDK_OnChange callback o records m = Undef.
Proof.
  destruct (copy_keys_spec records m Hm) as (rs & m0 & E0 & Hlen & Hm0 & Hal0 & _ & Hk). rewrite <- Hal0 in Hal.
  assert (Hw : wrap_u 32 (Z.of_nat (length records)) = Z.of_nat (length records)) by (apply wrap_u_id, in_u_spec; lia).
  set (a := next_ptr m0). set (arr := CPairs (replicate (length records) pair_uninit)).
  destruct (alloc_cases arr m0 Hm0) as [(m1 & E1 & Hh1 & Hm1 & Hal1 & _)|(_ & _ & _ & _ & _ & i & Hi)]; [|by rewrite Hal in Hi].
  fold a in E1, Hh1. assert (Hmk : making a (wrap_u 32 (Z.of_nat (length records))) [] (length records) (zip rs records.*1) m1).
  { split; [by rewrite Hh1, lookup_insert_eq|by intros e He; inv He| |done|by rewrite Hal1].
    intros r s Hin. pose proof (Hk _ _ Hin) as Hr. rewrite Hh1, lookup_insert_ne; [done|].
    intros E. rewrite <- E, Hm0 in Hr by (unfold a; lia). done. }
  destruct (make_pairs_spec a (Z.of_nat (length records)) records [] rs m1 Hlen Hmk) as (es & m2 & E2 & Hes & Hmk2).
  cbn [map app] in Hes. cbn [length] in E2. rewrite Hw in Hmk2. pose proof (mk_arr _ _ _ _ _ _ Hmk2) as Ha2. cbn [replicate] in Ha2. rewrite app_nil_r in Ha2.
  assert (Hlen2 : length es = length records) by (by rewrite <- Hes, length_map).
  assert (Ecall : OnChange_call o records m = Done ((Some (context_ o, Some a, Z.of_nat (length records)), rs), m2)).
  { unfold OnChange_call. destruct (dataObserver_ o); [|done].
    rewrite (proj2 (Z.eqb_neq _ _)) by (destruct records; cbn in *; [done|lia]).
    rewrite so_bind_st, E0. cbn [fst snd]. rewrite so_bind_st. fold arr. rewrite E1. cbn [fst snd]. rewrite (so_bind_Done _ _ _ _ _ E2). by rewrite Hw. }
  exists a, rs, m2. split; [done|]. split.
  - intros i k v Hi. rewrite <- Hes in Hi. change (map ?f ?l) with (f <$> l) in Hi. apply list_lookup_fmap_Some in Hi as (e & He & Hi).
    destruct (mk_done _ _ _ _ _ _ Hmk2 e (list_elem_of_lookup_2 _ _ _ Hi)) as [Hek Hev]. rewrite <- He in Hek.
    rewrite (read_pair_eq _ _ _ _ _ _ _ Ha2 Hi) by (done || lia). by rewrite <- He.
  - intros m3 Ecb Hkeep. rewrite Ha2 in Hkeep. unfold NDK_OnChange. rewrite (so_bind_Done _ _ _ _ _ Ecall).
    unfold mbind at 1, so_bind at 1. rewrite (so_bind_Done _ _ _ _ _ Ecb). destruct records as [|rec records]; [done|].
    destruct es as [|e es]; [done|]. unfold mbind at 1, so_bind at 1. cbn [length FreePairValue].
    by rewrite (so_bind_Done _ _ _ _ _ (load_pairs_eq _ _ _ Hkeep)), (so_bind_out (index_ _ _) _ _ (pair_of (Z.of_nat (length (rec :: records))) e)), (so_bind_out _ _ _ (Some (v_ref e))).
Qed.
End linked.

(** *** A concrete handle *)

(** A handle at 1 to the object 2, which holds [vals], and a value object at 3. *)
Definition w_prefs (vals : gmap string PreferencesValue) : PreferencesImpl :=
  upd_cache ∅ false vals (upd_load true false true (PreferencesImpl_new w_options (w_env "" (fun _ => SysOk)))).

Definition w_ndk (vals : gmap string PreferencesValue) (allocs : nat -> bool) : Ndk :=
  mkNdk (mkCMem {[1%positive := CPrefs (mkPrefsImpl PREFERENCES_OH_PREFERENCES_CID (Some 2%positive) "/data/p" []);
                  3%positive := CValue (mkValueImpl PREFERENCES_OH_VALUE_CID (VInt 9))]} 4 0 allocs)
    (h_set_objects {[2%positive := PXml (w_prefs vals)]} (w_helper "")) ∅ 1.

Lemma w_linked vals allocs : linked (w_ndk vals allocs) 1 2 (w_prefs vals).
Proof. split; [by eexists _, _|by split]. Qed.

Lemma w_ndk_mem_ok vals allocs : mem_ok (mem (w_ndk vals allocs)).
Proof.
  intros r Hr. cbn in *. rewrite lookup_insert_ne by lia. apply lookup_singleton_ne. lia.
Qed.

Lemma strings_small_empty : strings_small ∅.
Proof. intros k s. by rewrite lookup_empty. Qed.

Example ndk_refines_map_witness :
  exists rs n' p', c_run 0 (Some 1%positive) [CSetString "k" "text"; CGetString "k"; CGetInt "k"; CClear; CHasKey "k"] (w_ndk ∅ (fun _ => true))
      = Done (rs, n') /\ linked n' 1 2 p' /\
    Forall2 (agrees (mem (w_ndk ∅ (fun _ => true)))) rs
      [CCode PREFERENCES_OK; CStr PREFERENCES_OK (Some "text"); CInt PREFERENCES_ERROR_KEY_NOT_FOUND None;
       CCode PREFERENCES_OK; CHas false].
Proof.
  destruct (ndk_refines_map 0 (w_ndk ∅ (fun _ => true)) 1 2 (w_prefs ∅) ∅
    [CSetString "k" "text"; CGetString "k"; CGetInt "k"; CClear; CHasKey "k"] ref_securec_laws (w_linked _ _) ltac:(exact (reflexivity (R := same_map) ∅))
    strings_small_empty (w_ndk_mem_ok _ _) ltac:(by repeat constructor)) as (rs & n' & p' & E & Hr & Hl & _).
  exists rs, n', p'. split; [exact E|]. split; [exact Hl|exact Hr].
Defined.

Example GetAll_pairs_witness :
  exists a n', OH_Preferences_GetAll (Some 1%positive) true true (w_ndk {["k" := VInt 7]} (fun _ => true)) =
      Done ((PREFERENCES_OK, Some (Some a, 1)), n') /\
    read_pair (Some a) 0 (mem n') = Done (("k", VInt 7), mem n').
Proof.
  destruct (GetAll_pairs (w_ndk {["k" := VInt 7]} (fun _ => true)) 1 2 (w_prefs {["k" := VInt 7]}) (w_linked _ _) (w_ndk_mem_ok _ _)
    ltac:(done) ltac:(done) ltac:(done)) as (a & n' & p' & E & _ & Hr & _).
  exists a, n'. split; [exact E|]. apply (Hr 0%nat "k" (VInt 7)). vm_compute. reflexivity.
Defined.

Lemma w_nonempty : view (w_prefs {["k" := VInt 7]}) <> ∅.
Proof. intros E. apply (f_equal (fun m => m !! "k")) in E. by vm_compute in E. Qed.

(** The array is allocated, and the first key is not. *)
Example GetAll_first_failure_is_ok_witness :
  exists a n', OH_Preferences_GetAll (Some 1%positive) true true (w_ndk {["k" := VInt 7]} (fun i => (i =? 0)%nat)) =
      Done ((PREFERENCES_OK, Some (Some a, 1)), n') /\ OH_PreferencesPair_Destroy (Some a) 1 (mem n') = Undef.
Proof.
  destruct (GetAll_first_failure_is_ok (w_ndk {["k" := VInt 7]} (fun i => (i =? 0)%nat)) 1 2 (w_prefs {["k" := VInt 7]}) (w_linked _ _) (w_ndk_mem_ok _ _)
    w_nonempty ltac:(done) ltac:(split; [done|by left])) as (a & n' & E & _ & Hd). exists a, n'. split; [exact E|exact Hd].
Defined.

(** A missing key, and one with the empty string. *)
Example GetValue_reads_witness :
  (exists n', OH_Preferences_GetValue (Some 1%positive) (Some "none") (Some (Some 3%positive)) (w_ndk {["k" := VString ""]} (fun _ => true)) =
     Done (PREFERENCES_OK, n')) /\
  (exists n', OH_Preferences_GetValue (Some 1%positive) (Some "k") (Some (Some 3%positive)) (w_ndk {["k" := VString ""]} (fun _ => true)) =
     Done (PREFERENCES_ERROR_INVALID_PARAM, n')).
Proof.
  split.
  - destruct (GetValue_reads (w_ndk {["k" := VString ""]} (fun _ => true)) 1 2 3 (w_prefs {["k" := VString ""]}) "none" (VInt 9) (w_linked _ _) eq_refl)
      as (n' & p' & _ & _ & E & _). exists n'. exact E.
  - destruct (GetValue_reads (w_ndk {["k" := VString ""]} (fun _ => true)) 1 2 3 (w_prefs {["k" := VString ""]}) "k" (VInt 9) (w_linked _ _) eq_refl)
      as (n' & p' & _ & _ & E & _). exists n'. exact E.
Defined.

(** Without a client of the service. *)
Example observers_of_a_handle_witness :
  exists n', OH_Preferences_RegisterMultiProcessDataObserver (Some 1%positive) 5 (Some 8) (w_ndk ∅ (fun _ => true)) = Done (PREFERENCES_ERROR_STORAGE, n').
Proof.
  destruct (observers_of_a_handle (w_ndk ∅ (fun _ => true)) 1 2 (w_prefs ∅) 8 5 ["k"] (w_linked _ _) ltac:(done) ltac:(done) ltac:(done))
    as (_ & n' & p' & E & _). exists n'. exact E.
Defined.

Example OnChange_delivers_then_undefined_witness :
  NDK_OnChange (fun _ _ _ => mret tt) (mkNDKObserver (Some 8) 5) [("k", VInt 7)] (mem (w_ndk ∅ (fun _ => true))) = Undef.
Proof.
  destruct (OnChange_delivers_then_undefined (mkNDKObserver (Some 8) 5) [("k", VInt 7)] (mem (w_ndk ∅ (fun _ => true))) (fun _ _ _ => mret tt)
    ltac:(done) ltac:(done) ltac:(done) (w_ndk_mem_ok _ _) ltac:(done)) as (a & keys & m1 & _ & _ & Hu).
  by apply (Hu m1).
Defined.
