(* ===== verification/Cj.v ===== *)
(** * The interface for Cangjie

    Models [preferences_ffi.cpp], [preferences_impl.cpp] and
    [preferences_utils.cpp] of [frameworks/cj] over the factory and the memory
    of [NdkMem].  An instance is found by its number in a table that the
    runtime of Cangjie keeps; how it chooses a number is outside the
    repository, and so is its code for a number without an instance.  The
    branches for Windows and macOS are left out. *)

From S2P Require Import Prelude Errno Value Utils ConcurrentMap Env FileLock Store DbAdapter Base Impl Enhance Helper.
From S2P Require Import Handle NdkMem NdkValue.

(** ** Values *)

(** [cj/src/preferences_utils.h:25-27] TagType *)
Definition TYPE_INT : Z := 0.
Definition TYPE_DOU : Z := 1.
Definition TYPE_STR : Z := 2.
Definition TYPE_BOOL : Z := 3.
Definition TYPE_BOOLARR : Z := 4.
Definition TYPE_DOUARR : Z := 5.
Definition TYPE_STRARR : Z := 6.

(** Zero initialisation. *)
Definition CArr0 : CArr := mkCArr None 0.
Definition ValueType0 : ValueType := mkValueType 0 0 None false CArr0 CArr0 CArr0 0.

(** [preferences_interface.h:52-56] ValueTypes *)
Record ValueTypes := mkValueTypes { vs_key : Ptr; vs_head : Ptr; vs_size : Z }.
Definition ValueTypes0 : ValueTypes := mkValueTypes None None 0.

(** *** To the object *)

(** [std::string] of a pointer. *)
Definition read_string (p : Ptr) : SO CMem string :=
  o ← load p; match o with CChars l => run_out (read_chars l) | _ => run_out Undef end.

(** The first [n] elements behind a pointer, which is not followed when there
    are none. *)
Definition read_bools (p : Ptr) (n : Z) : SO CMem (list bool) :=
  if n <=? 0 then mret [] else
  o ← load p; match o with CBools l => run_out (vector_from l n) | _ => run_out Undef end.

Definition read_doubles (p : Ptr) (n : Z) : SO CMem (list Z) :=
  if n <=? 0 then mret [] else
  o ← load p; match o with CInts l => run_out (vector_from l n) | _ => run_out Undef end.

Definition load_strings (p : Ptr) : SO CMem (list (cell Ptr)) :=
  o ← load p; match o with CStrings l => mret l | _ => run_out Undef end.

(** [n] strings from index [i]. *)
Fixpoint read_strings (p : Ptr) (i n : nat) : SO CMem (list string) :=
  match n with
  | O => mret []
  | S n =>
      l ← load_strings p;
      c ← run_out (index_ l (Z.of_nat i));
      q ← run_out (read_cell c);
      s ← read_string q;
      rest ← read_strings p (S i) n;
      mret (s :: rest)
  end.

(** [cj/src/preferences_impl.cpp:195-244] CValueTypeToNativeValue *)
Definition CValueTypeToNativeValue (value : ValueType) : SO CMem PreferencesValue :=
  let t := tag value in
  if t =? TYPE_INT then mret (PreferencesValue_int64 (integer value))
  else if t =? TYPE_DOU then mret (PreferencesValue_double (float64 value))
  else if t =? TYPE_STR then s ← read_string (string_ value); mret (PreferencesValue_string s)
  else if t =? TYPE_BOOL then mret (PreferencesValue_bool (boolean value))
  else if t =? TYPE_BOOLARR then
    bools ← read_bools (arr_head (boolArray value)) (arr_size (boolArray value));
    mret (PreferencesValue_vector_bool bools)
  else if t =? TYPE_DOUARR then
    doubles ← read_doubles (arr_head (doubleArray value)) (arr_size (doubleArray value));
    mret (PreferencesValue_vector_double doubles)
  else if t =? TYPE_STRARR then
    strings ← read_strings (arr_head (stringArray value)) 0 (Z.to_nat (arr_size (stringArray value)));
    mret (PreferencesValue_vector_string strings)
  else mret (PreferencesValue_int (-1)).

(** *** From the object *)

(** An empty string gives a null pointer, as a failed allocation does.

    [cj/src/preferences_utils.cpp:20-31] MallocCString *)
Definition MallocCString (origin : string) : ST CMem Ptr :=
  if bool_decide (origin = "") then mret None else alloc_c (c_buffer origin).

(** [cj/src/preferences_impl.cpp:280-295] VectorToDoubleArray *)
Definition VectorToDoubleArray (doubles : list Z) (code : Z) : SO CMem (CArr * Z) :=
  if (length doubles =? 0)%nat then mret (CArr0, code) else
  head ← run_st (alloc_c (CInts doubles));
  match head with
  | None => mret (CArr0, E_ERROR)
  | Some _ => mret (mkCArr head (Z.of_nat (length doubles)), code)
  end.

(** [cj/src/preferences_impl.cpp:297-312] VectorToBoolArray *)
Definition VectorToBoolArray (bools : list bool) (code : Z) : SO CMem (CArr * Z) :=
  if (length bools =? 0)%nat then mret (CArr0, code) else
  head ← run_st (alloc_c (CBools bools));
  match head with
  | None => mret (CArr0, E_ERROR)
  | Some _ => mret (mkCArr head (Z.of_nat (length bools)), code)
  end.

(** [cj/src/preferences_impl.cpp:314-319] FreeCharPointer *)
Definition FreeCharPointer (ptr : positive) (count : nat) : SO CMem unit := free_cells ptr 0 count.

Definition set_string (arr : positive) (i : nat) (p : Ptr) : SO CMem unit :=
  l ← load_strings (Some arr); store arr (CStrings (<[i := Val p]> l)).

(** The loop of [VectorToCharPointer]: whether every string was copied.

    [cj/src/preferences_impl.cpp:331-339] VectorToCharPointer *)
Fixpoint fill_pointers (result : positive) (i : nat) (vec : list string) : SO CMem bool :=
  match vec with
  | [] => mret true
  | s :: vec' =>
      p ← run_st (MallocCString s);
      set_string result i p;;
      match p with
      | None => FreeCharPointer result i;; free (Some result);; mret false
      | Some _ => fill_pointers result (S i) vec'
      end
  end.

(** [cj/src/preferences_impl.cpp:321-341] VectorToCharPointer *)
Definition VectorToCharPointer (vec : list string) (code : Z) : SO CMem (Ptr * Z) :=
  if (length vec =? 0)%nat then mret (None, code) else
  result ← run_st (alloc_c (CStrings (replicate (length vec) Uninit)));
  match result with
  | None => mret (None, E_ERROR)
  | Some r => ok ← fill_pointers r 0 vec; mret (if (ok : bool) then (result, code) else (None, E_ERROR))
  end.

(** [cj/src/preferences_impl.cpp:343-352] VectorToStringArray *)
Definition VectorToStringArray (strings : list string) (code : Z) : SO CMem (CArr * Z) :=
  '(head, code) ← VectorToCharPointer strings code;
  mret (if negb (code =? E_OK) then (CArr0, code) else (mkCArr head (Z.of_nat (length strings)), code)).

(** [cj/src/preferences_impl.cpp:354-393] NativeValueToCValueType *)
Definition NativeValueToCValueType (pValue : PreferencesValue) (code : Z) : SO CMem (ValueType * Z) :=
  match pValue with
  | VInt z => mret (mkValueType z 0 None false CArr0 CArr0 CArr0 TYPE_INT, code)
  | VLong z => mret (mkValueType z 0 None false CArr0 CArr0 CArr0 TYPE_INT, code)
  | VFloat b => mret (mkValueType 0 (float_to_double b) None false CArr0 CArr0 CArr0 TYPE_DOU, code)
  | VDouble b => mret (mkValueType 0 b None false CArr0 CArr0 CArr0 TYPE_DOU, code)
  | VString s =>
      p ← run_st (MallocCString s);
      mret (mkValueType 0 0 p false CArr0 CArr0 CArr0 TYPE_STR, code)
  | VBool b => mret (mkValueType 0 0 None b CArr0 CArr0 CArr0 TYPE_BOOL, code)
  | VBoolArray l =>
      '(a, code) ← VectorToBoolArray l code;
      mret (mkValueType 0 0 None false a CArr0 CArr0 TYPE_BOOLARR, code)
  | VDoubleArray l =>
      '(a, code) ← VectorToDoubleArray l code;
      mret (mkValueType 0 0 None false CArr0 a CArr0 TYPE_DOUARR, code)
  | VStringArray l =>
      '(a, code) ← VectorToStringArray l code;
      mret (mkValueType 0 0 None false CArr0 CArr0 a TYPE_STRARR, code)
  | _ => mret (mkValueType 0 0 None false CArr0 CArr0 CArr0 (wrap_u 8 (-1)), code)
  end.

(** The loop of [NativeValuesToCValueTypes] needs to free what it made.

    [cj/src/preferences_impl.cpp:246-271] FreeValueType *)
Definition FreeValueType (v : ValueType) : SO CMem unit :=
  if tag v =? TYPE_STR then free (string_ v)
  else if tag v =? TYPE_BOOLARR then free (arr_head (boolArray v))
  else if tag v =? TYPE_DOUARR then free (arr_head (doubleArray v))
  else if tag v =? TYPE_STRARR then
    (match arr_head (stringArray v) with
     | None => if arr_size (stringArray v) <=? 0 then mret tt else run_out Undef
     | Some head => free_cells head 0 (Z.to_nat (arr_size (stringArray v)))
     end);;
    free (arr_head (stringArray v))
  else mret tt.

Definition load_values (p : Ptr) : SO CMem (list (cell ValueType)) :=
  o ← load p; match o with CValueTypes l => mret l | _ => run_out Undef end.

(** From index [i].

    [cj/src/preferences_impl.cpp:273-278] FreeValueTypes *)
Fixpoint FreeValueTypes (v : positive) (i count : nat) : SO CMem unit :=
  match count with
  | O => mret tt
  | S count =>
      l ← load_values (Some v);
      c ← run_out (index_ l (Z.of_nat i));
      x ← run_out (read_cell c);
      FreeValueType x;;
      FreeValueTypes v (S i) count
  end.

Definition set_value (arr : positive) (i : nat) (v : ValueType) : SO CMem unit :=
  l ← load_values (Some arr); store arr (CValueTypes (<[i := Val v]> l)).

(** The loop of [NativeValuesToCValueTypes], from index [i]: the code.

    [cj/src/preferences_impl.cpp:410-432] NativeValuesToCValueTypes *)
Fixpoint fill_values (key head : positive) (i : nat) (objects : list (string * PreferencesValue)) (code : Z) : SO CMem Z :=
  match objects with
  | [] => mret code
  | (k, value) :: objects =>
      p ← run_st (MallocCString k);
      set_string key i p;;
      match p with
      | None =>
          FreeCharPointer key i;; FreeValueTypes head 0 i;; free (Some key);; free (Some head);; mret E_ERROR
      | Some _ =>
          '(v, code) ← NativeValueToCValueType value code;
          set_value head i v;;
          if negb (code =? E_OK) then
            free p;; FreeCharPointer key i;; FreeValueTypes head 0 i;; free (Some key);; free (Some head);; mret E_ERROR
          else fill_values key head (S i) objects code
      end
  end.

(** [cj/src/preferences_impl.cpp:395-434] NativeValuesToCValueTypes *)
Definition NativeValuesToCValueTypes (objects : list (string * PreferencesValue)) (code : Z) : SO CMem (ValueTypes * Z) :=
  let size := Z.of_nat (length objects) in
  key ← run_st (alloc_c (CStrings (replicate (length objects) Uninit)));
  match key with
  | None => mret (mkValueTypes None None size, E_ERROR)
  | Some k =>
      head ← run_st (alloc_c (CValueTypes (replicate (length objects) Uninit)));
      match head with
      | None => free key;; mret (mkValueTypes key None size, E_ERROR)
      | Some h => code ← fill_values k h 0 objects code; mret (mkValueTypes key head size, code)
      end
  end.

(** *** Given back *)

(** The loop over the strings of an array. *)
Definition free_strings (head : Ptr) (size : Z) : SO CMem unit :=
  match head with
  | None => mret tt
  | Some h => free_cells h 0 (Z.to_nat size);; free head
  end.

(** What is left in the struct.

    [preferences_ffi.cpp:211-238] FfiOHOSPreferencesFreeValueType *)
Definition FfiOHOSPreferencesFreeValueType (pValue : option ValueType) : SO CMem (option ValueType) :=
  match pValue with
  | None => mret None
  | Some v =>
      if tag v =? TYPE_STR then
        free (string_ v);;
        mret (Some (mkValueType (integer v) (float64 v) None (boolean v) (boolArray v) (doubleArray v) (stringArray v) (tag v)))
      else if tag v =? TYPE_BOOLARR then
        free (arr_head (boolArray v));;
        mret (Some (mkValueType (integer v) (float64 v) (string_ v) (boolean v) CArr0 (doubleArray v) (stringArray v) (tag v)))
      else if tag v =? TYPE_DOUARR then
        free (arr_head (doubleArray v));;
        mret (Some (mkValueType (integer v) (float64 v) (string_ v) (boolean v) (boolArray v) CArr0 (stringArray v) (tag v)))
      else if tag v =? TYPE_STRARR then
        free_strings (arr_head (stringArray v)) (arr_size (stringArray v));;
        mret (Some (mkValueType (integer v) (float64 v) (string_ v) (boolean v) (boolArray v) (doubleArray v) CArr0 (tag v)))
      else mret (Some v)
  end.

(** The loop over the values, from index [i]. *)
Fixpoint free_values (head : positive) (i n : nat) : SO CMem unit :=
  match n with
  | O => mret tt
  | S n =>
      l ← load_values (Some head);
      c ← run_out (index_ l (Z.of_nat i));
      v ← run_out (read_cell c);
      v' ← FfiOHOSPreferencesFreeValueType (Some v);
      set_value head i (default v v');;
      free_values head (S i) n
  end.

(** [preferences_ffi.cpp:240-261] FfiOHOSPreferencesFreeValueTypes *)
Definition FfiOHOSPreferencesFreeValueTypes (pValues : option ValueTypes) : SO CMem (option ValueTypes) :=
  match pValues with
  | None => mret None
  | Some values =>
      free_strings (vs_key values) (vs_size values);;
      (match vs_head values with
       | None => mret tt
       | Some head => free_values head 0 (Z.to_nat (vs_size values));; free (Some head)
       end);;
      mret (Some ValueTypes0)
  end.

(** ** Instances *)

(** A pointer to a function of the application, 0 when null, and the function
    that is called.

    [cj/src/preferences_impl.h:40-47] CJPreferencesObserver *)
Record CJPreferencesObserver := mkCJObserver { m_callback : Z; m_callbackRef : Z }.

(** [cj/src/preferences_impl.h:49-91] PreferencesImpl *)
Record CjPreferences := mkCjPreferences {
  cj_preferences : Ptr;
  cj_localObservers : list positive;
  cj_multiProcessObservers : list positive
}.

(** The runtime's choice of a number for a new instance, [None] when it cannot
    make one. *)
Class FFIData := { NewID : gmap Z CjPreferences -> option Z }.

(** The number is not in use, and not 0. *)
Class FFIDataLaws `{FFIData} := {
  NewID_fresh t id : NewID t = Some id -> t !! id = None /\ id <> 0
}.

Section Cj.
Context `{XmlStore} `{SafeBlockQueue} `{KvDb} `{FFIData}.
Context (RSIZE_MAX : Z) (gskvEnabled : bool) (ERR_INVALID_INSTANCE_CODE : Z).

Record Cj := mkCj {
  cj_mem : CMem;
  cj_hlp : Helper;
  instances : gmap Z CjPreferences;
  cj_observers : gmap positive CJPreferencesObserver;
  cj_next : positive               (** the next observer that is made *)
}.

Definition cj_on_mem {A} (m : SO CMem A) : SO Cj A := fun c =>
  '(a, x) ← m (cj_mem c); Done (a, mkCj x (cj_hlp c) (instances c) (cj_observers c) (cj_next c)).

Definition cj_on_helper {A} (m : SO Helper A) : SO Cj A := fun c =>
  '(a, h) ← m (cj_hlp c); Done (a, mkCj (cj_mem c) h (instances c) (cj_observers c) (cj_next c)).

Definition set_instance (id : Z) (p : CjPreferences) : ST Cj unit :=
  modify (fun c => mkCj (cj_mem c) (cj_hlp c) (<[id := p]> (instances c)) (cj_observers c) (cj_next c)).

(** A [const char*] where a string is wanted. *)
Definition c_arg (s : option string) : outcome string := match s with Some s => Done (c_str s) | None => Undef end.

(** *** Opening and deleting *)

(** [cj/src/preferences_impl.cpp:36-79] GetInstancePath *)
Definition GetInstancePath (context : option AppContext) (name dataGroupId : string) : Z * string :=
  match context with
  | None => (E_ERROR, "")
  | Some context =>
      let '(errcode, preferencesDir) := ctx_GetSystemPreferencesDir context dataGroupId in
      if negb (errcode =? 0) then (errcode, "") else (E_OK, preferencesDir +:+ "/" +:+ name)
  end.

(** The constructor: the new object and what is written to [errCode], which is
    not checked for null.

    [cj/src/preferences_impl.cpp:81-115] PreferencesImpl *)
Definition PreferencesImpl_ctor (context : option AppContext) (name dataGroupId : string) (errCode : bool)
    : SO Cj (CjPreferences * Z) :=
  let fails code := if errCode then mret (mkCjPreferences None [] [], code) else run_out Undef in
  match context with
  | None => fails (-1)
  | Some ctx =>
      let '(code, path) := GetInstancePath context name dataGroupId in
      if negb (code =? E_OK) then fails code else
      '(proxy, err) ← cj_on_helper (GetPreferences gskvEnabled (mkOptions path (ctx_GetBundleName ctx) dataGroupId false));
      if negb (err =? E_OK) then fails err else
      if errCode then mret (mkCjPreferences proxy [] [], err) else run_out Undef
  end.

(** [cj/src/preferences_impl.cpp:117-129] DeletePreferences *)
Definition Cj_DeletePreferences (context : option AppContext) (name dataGroupId : string) : SO Cj Z :=
  let '(code, path) := GetInstancePath context name dataGroupId in
  if negb (code =? E_OK) then mret code else
  errCode ← cj_on_helper (DeletePreferences path);
  mret (if negb (errCode =? E_OK) then errCode else 0).

(** [cj/src/preferences_impl.cpp:131-143] RemovePreferencesFromCache *)
Definition Cj_RemovePreferencesFromCache (context : option AppContext) (name dataGroupId : string) : SO Cj Z :=
  let '(code, path) := GetInstancePath context name dataGroupId in
  if negb (code =? 0) then mret code else
  errCode ← cj_on_helper (RemovePreferencesFromCache path);
  mret (if negb (errCode =? E_OK) then errCode else E_OK).

(** The number of the new instance or 0, and what is written to [errCode].

    [preferences_ffi.cpp:38-46] FfiOHOSPreferencesGetPreferences *)
Definition FfiOHOSPreferencesGetPreferences (context : option AppContext) (name dataGroupId : option string) (errCode : bool)
    : SO Cj (Z * Z) :=
  n ← run_out (c_arg name);
  g ← run_out (c_arg dataGroupId);
  '(p, err) ← PreferencesImpl_ctor context n g errCode;
  c ← run_st get;
  match NewID (instances c) with
  | None => mret (0, err)
  | Some id => run_st (set_instance id p);; mret (id, err)
  end.

(** [preferences_ffi.cpp:48-52] FfiOHOSPreferencesDeletePreferences *)
Definition FfiOHOSPreferencesDeletePreferences (context : option AppContext) (name dataGroupId : option string) : SO Cj Z :=
  n ← run_out (c_arg name); g ← run_out (c_arg dataGroupId); Cj_DeletePreferences context n g.

(** [preferences_ffi.cpp:54-58] FfiOHOSPreferencesRemovePreferencesFromCache *)
Definition FfiOHOSPreferencesRemovePreferencesFromCache (context : option AppContext) (name dataGroupId : option string) : SO Cj Z :=
  n ← run_out (c_arg name); g ← run_out (c_arg dataGroupId); Cj_RemovePreferencesFromCache context n g.

(** The same with the number of a context, which [FFIGetContext] finds.

    [preferences_ffi.cpp:60-78] FfiOHOSPreferencesGetPreferencesV1 *)
Definition FfiOHOSPreferencesGetPreferencesV1 (FFIGetContext : Z -> option AppContext) (ctxId : Z)
    (name dataGroupId : option string) (errCode : bool) : SO Cj (Z * option Z) :=
  match FFIGetContext ctxId with
  | None => mret (0, if errCode then Some E_ERROR else None)
  | Some context =>
      '(id, err) ← FfiOHOSPreferencesGetPreferences (Some context) name dataGroupId errCode; mret (id, Some err)
  end.

(** [preferences_ffi.cpp:80-91] FfiOHOSPreferencesDeletePreferencesV1 *)
Definition FfiOHOSPreferencesDeletePreferencesV1 (FFIGetContext : Z -> option AppContext) (ctxId : Z)
    (name dataGroupId : option string) : SO Cj Z :=
  match FFIGetContext ctxId with
  | None => mret E_ERROR
  | Some context => FfiOHOSPreferencesDeletePreferences (Some context) name dataGroupId
  end.

(** [preferences_ffi.cpp:93-104] FfiOHOSPreferencesRemovePreferencesFromCacheV1 *)
Definition FfiOHOSPreferencesRemovePreferencesFromCacheV1 (FFIGetContext : Z -> option AppContext) (ctxId : Z)
    (name dataGroupId : option string) : SO Cj Z :=
  match FFIGetContext ctxId with
  | None => mret E_ERROR
  | Some context => FfiOHOSPreferencesRemovePreferencesFromCache (Some context) name dataGroupId
  end.

(** *** Entries *)

(** A method on an instance whose object may be null. *)
Definition on_preferences {A} (self : CjPreferences) (bad : A) (k : positive -> SO Cj A) : SO Cj A :=
  match cj_preferences self with None => mret bad | Some r => k r end.

(** [cj/src/preferences_impl.cpp:145-153] Flush *)
Definition Cj_Flush (self : CjPreferences) : SO Cj unit :=
  on_preferences self tt (fun r => _ ← cj_on_helper (obj_flushsync r); mret tt).

(** [cj/src/preferences_impl.cpp:155-163] Clear *)
Definition Cj_Clear (self : CjPreferences) : SO Cj unit :=
  on_preferences self tt (fun r => _ ← cj_on_helper (obj_clear r); mret tt).

(** [cj/src/preferences_impl.cpp:165-173] Delete *)
Definition Cj_Delete (self : CjPreferences) (key : string) : SO Cj Z :=
  on_preferences self E_ERROR (fun r => cj_on_helper (obj_delete r key)).

(** [cj/src/preferences_impl.cpp:175-183] HasKey *)
Definition Cj_HasKey (self : CjPreferences) (key : string) : SO Cj bool :=
  on_preferences self false (fun r => cj_on_helper (obj_haskey r key)).

(** [cj/src/preferences_impl.cpp:436-449] Get *)
Definition Cj_Get (self : CjPreferences) (key : string) (defValue : ValueType) : SO Cj ValueType :=
  on_preferences self ValueType0 (fun r =>
    p ← cj_on_mem (CValueTypeToNativeValue defValue);
    v ← cj_on_helper (obj_get r key p);
    '(v, err) ← cj_on_mem (NativeValueToCValueType v E_OK);
    mret (if negb (err =? E_OK) then ValueType0 else v)).

(** [cj/src/preferences_impl.cpp:451-458] Put *)
Definition Cj_Put (self : CjPreferences) (key : string) (value : ValueType) : SO Cj Z :=
  on_preferences self E_ERROR (fun r =>
    v ← cj_on_mem (CValueTypeToNativeValue value);
    cj_on_helper (obj_put RSIZE_MAX r key v)).

(** [cj/src/preferences_impl.cpp:460-472] GetAll *)
Definition Cj_GetAll (self : CjPreferences) : SO Cj ValueTypes :=
  on_preferences self ValueTypes0 (fun r =>
    objects ← cj_on_helper (obj_getall r);
    '(vs, err) ← cj_on_mem (NativeValuesToCValueTypes (in_order objects) E_OK);
    mret (if negb (err =? E_OK) then ValueTypes0 else vs)).

(** *** Observers *)

(** [cj/src/preferences_impl.cpp:185-188] IsSameFunction *)
Definition IsSameFunction (f1 f2 : Z) : bool := f1 =? f2.

(** [cj/src/preferences_impl.cpp:190-193] ConvertToRegisterMode *)
Definition ConvertToRegisterMode (mode : string) : RegisterMode :=
  if bool_decide (mode = "change") then LOCAL_CHANGE else MULTI_PRECESS_CHANGE.

Definition is_local (mode : RegisterMode) : bool := match mode with LOCAL_CHANGE => true | _ => false end.

(** The list of a mode. *)
Definition observers_of (mode : RegisterMode) (self : CjPreferences) : list positive :=
  if is_local mode then cj_localObservers self else cj_multiProcessObservers self.

Definition set_observers (mode : RegisterMode) (l : list positive) (self : CjPreferences) : CjPreferences :=
  if is_local mode then mkCjPreferences (cj_preferences self) l (cj_multiProcessObservers self)
  else mkCjPreferences (cj_preferences self) (cj_localObservers self) l.

(** A new observer with its first owner.

    [cj/src/preferences_impl.cpp:538-546] CJPreferencesObserver *)
Definition make_cj_observer (callback callbackRef : Z) : SO Cj positive := fun c =>
  let o := cj_next c in
  let '(_, h) := own_observer o (cj_hlp c) in
  Done (o, mkCj (cj_mem c) h (instances c) (<[o := mkCJObserver callback callbackRef]> (cj_observers c)) (Pos.succ o)).

Definition cj_drop (l : list positive) : SO Cj unit := cj_on_helper (run_st (drop_observers l)).

(** What the function of the application is called with.

    [cj/src/preferences_impl.cpp:548-551] OnChange *)
Definition CJ_OnChange (o : CJPreferencesObserver) (key : string) : Z * string := (m_callbackRef o, c_str key).

(** The code, and the instance after the call.

    [cj/src/preferences_impl.cpp:474-491] RegisterObserver *)
Definition Cj_RegisterObserver (self : CjPreferences) (mode : string) (callback callbackRef : Z) : SO Cj (Z * CjPreferences) :=
  observer ← make_cj_observer callback callbackRef;
  match cj_preferences self with
  | None => cj_drop [observer];; mret (E_ERROR, self)
  | Some r =>
      let m := ConvertToRegisterMode mode in
      errCode ← cj_on_helper (obj_register r observer m);
      if negb (errCode =? E_OK) then cj_drop [observer];; mret (errCode, self)
      else mret (E_OK, set_observers m (observers_of m self ++ [observer]) self)
  end.

(** The first observer with this callback. *)
Fixpoint find_callback (obs : gmap positive CJPreferencesObserver) (callback : Z) (l : list positive) : outcome (option (list positive * positive * list positive)) :=
  match l with
  | [] => Done None
  | it :: l =>
      match obs !! it with
      | None => Undef
      | Some o =>
          if IsSameFunction callback (m_callback o) then Done (Some ([], it, l)) else
          r ← find_callback obs callback l;
          Done (match r with Some (l1, it', l2) => Some (it :: l1, it', l2) | None => None end)
      end
  end.

(** [cj/src/preferences_impl.cpp:493-515] UnRegisterObserver *)
Definition Cj_UnRegisterObserver (self : CjPreferences) (mode : string) (callback : Z) : SO Cj (Z * CjPreferences) :=
  let m := ConvertToRegisterMode mode in
  match cj_preferences self with
  | None => mret (E_ERROR, self)
  | Some r =>
      c ← run_st get;
      found ← run_out (find_callback (cj_observers c) callback (observers_of m self));
      match found with
      | None => mret (E_OK, self)
      | Some (l1, it, l2) =>
          errCode ← cj_on_helper (obj_unregister r it m);
          if negb (errCode =? E_OK) then mret (errCode, self)
          else cj_drop [it];; mret (E_OK, set_observers m (l1 ++ l2) self)
      end
  end.

(** Whether one of them failed. *)
Fixpoint unregister_each (r : positive) (m : RegisterMode) (l : list positive) : SO Cj bool :=
  match l with
  | [] => mret false
  | observer :: l =>
      errCode ← cj_on_helper (obj_unregister r observer m);
      failed ← unregister_each r m l;
      mret (negb (errCode =? E_OK) || failed)
  end.

(** [cj/src/preferences_impl.cpp:517-536] UnRegisteredAllObservers *)
Definition Cj_UnRegisteredAllObservers (self : CjPreferences) (mode : string) : SO Cj (Z * CjPreferences) :=
  let m := ConvertToRegisterMode mode in
  match cj_preferences self with
  | None => mret (E_ERROR, self)
  | Some r =>
      hasFailed ← unregister_each r m (observers_of m self);
      cj_drop (observers_of m self);;
      mret (if (hasFailed : bool) then E_ERROR else E_OK, set_observers m [] self)
  end.

(** *** By number *)

Definition with_instance {A} (id : Z) (bad : A) (k : CjPreferences -> SO Cj A) : SO Cj A :=
  c ← run_st get;
  match instances c !! id with None => mret bad | Some self => k self end.

(** A method that changes the instance. *)
Definition updating {A} (id : Z) (m : SO Cj (A * CjPreferences)) : SO Cj A :=
  '(a, self) ← m; run_st (set_instance id self);; mret a.

(** [preferences_ffi.cpp:106-114] FfiOHOSPreferencesGet *)
Definition FfiOHOSPreferencesGet (id : Z) (key : option string) (defValue : ValueType) : SO Cj ValueType :=
  with_instance id ValueType0 (fun instance => k ← run_out (c_arg key); Cj_Get instance k defValue).

(** [preferences_ffi.cpp:116-124] FfiOHOSPreferencesPut *)
Definition FfiOHOSPreferencesPut (id : Z) (key : option string) (value : ValueType) : SO Cj Z :=
  with_instance id ERR_INVALID_INSTANCE_CODE (fun instance => k ← run_out (c_arg key); Cj_Put instance k value).

(** [preferences_ffi.cpp:126-134] FfiOHOSPreferencesGetAll *)
Definition FfiOHOSPreferencesGetAll (id : Z) : SO Cj ValueTypes := with_instance id ValueTypes0 Cj_GetAll.

(** [preferences_ffi.cpp:136-145] FfiOHOSPreferencesFlush *)
Definition FfiOHOSPreferencesFlush (id : Z) : SO Cj unit := with_instance id tt Cj_Flush.

(** [preferences_ffi.cpp:147-156] FfiOHOSPreferencesClear *)
Definition FfiOHOSPreferencesClear (id : Z) : SO Cj unit := with_instance id tt Cj_Clear.

(** [preferences_ffi.cpp:158-166] FfiOHOSPreferencesHas *)
Definition FfiOHOSPreferencesHas (id : Z) (key : option string) : SO Cj bool :=
  with_instance id false (fun instance => k ← run_out (c_arg key); Cj_HasKey instance k).

(** [preferences_ffi.cpp:168-176] FfiOHOSPreferencesDelete *)
Definition FfiOHOSPreferencesDelete (id : Z) (key : option string) : SO Cj Z :=
  with_instance id ERR_INVALID_INSTANCE_CODE (fun instance => k ← run_out (c_arg key); Cj_Delete instance k).

(** The observer calls the function that it is known by.

    [preferences_ffi.cpp:178-188] FfiOHOSPreferencesOn *)
Definition FfiOHOSPreferencesOn (id : Z) (mode : option string) (callbackRef : Z) : SO Cj Z :=
  with_instance id ERR_INVALID_INSTANCE_CODE (fun instance =>
    m ← run_out (c_arg mode); updating id (Cj_RegisterObserver instance m callbackRef callbackRef)).

(** [preferences_ffi.cpp:190-198] FfiOHOSPreferencesOff *)
Definition FfiOHOSPreferencesOff (id : Z) (mode : option string) (callbackRef : Z) : SO Cj Z :=
  with_instance id ERR_INVALID_INSTANCE_CODE (fun instance =>
    m ← run_out (c_arg mode); updating id (Cj_UnRegisterObserver instance m callbackRef)).

(** [preferences_ffi.cpp:200-209] FfiOHOSPreferencesOffAll *)
Definition FfiOHOSPreferencesOffAll (id : Z) (mode : option string) : SO Cj Z :=
  with_instance id ERR_INVALID_INSTANCE_CODE (fun instance =>
    m ← run_out (c_arg mode); updating id (Cj_UnRegisteredAllObservers instance m)).
End Cj.
