(* ===== verification/CjClient.v ===== *)
(** * What a client of the interface for Cangjie sees

    Facts about [Cj]: which part of memory belongs to a value that was handed
    out, that a value comes back and is given back, that nothing leaks when an
    allocation fails half-way, and which values are lost. *)

From S2P Require Import Prelude Errno Value Utils ConcurrentMap Env FileLock Store DbAdapter Base Impl Enhance Helper.
From S2P Require Import Handle NdkMem NdkValue Cj.

(** ** Arrays of strings *)

(** The array [a] of [cells] and the strings [vec] at [rs]. *)
Definition strs (a : positive) (cells : list (cell Ptr)) (rs : list positive) (vec : list string) : Heap :=
  <[a := CStrings cells]> (list_to_map (buffers rs vec)).

Definition cells_of (rs : list positive) : list (cell Ptr) := map (fun r => Val (Some r)) rs.

Record strs_ok (a : positive) (rs : list positive) (vec : list string) : Prop := {
  so_len : length rs = length vec;
  so_nodup : NoDup rs;
  so_arr : a ∉ rs
}.

Lemma buffers_lookup rs vec k r s : length rs = length vec -> NoDup rs -> rs !! k = Some r -> vec !! k = Some s ->
  (list_to_map (buffers rs vec) : Heap) !! r = Some (c_buffer s).
Proof.
  intros Hl Hn Hr Hs. apply elem_of_list_to_map_1; [by rewrite buffers_refs|]. apply list_elem_of_lookup. exists k.
  unfold buffers. by rewrite lookup_zip_with, Hr, Hs.
Qed.

Lemma buffers_none rs vec q : length rs = length vec -> q ∉ rs -> (list_to_map (buffers rs vec) : Heap) !! q = None.
Proof. intros Hl Hq. apply not_elem_of_list_to_map_1. by rewrite buffers_refs. Qed.

Lemma buffers_some rs vec q : length rs = length vec -> NoDup rs -> q ∈ rs -> is_Some ((list_to_map (buffers rs vec) : Heap) !! q).
Proof.
  intros Hl Hn [k Hk]%list_elem_of_lookup. destruct (lookup_lt_is_Some_2 vec k) as [s Hs].
  { rewrite <- Hl. by eapply lookup_lt_Some. }
  eexists. by eapply buffers_lookup.
Qed.

Lemma strs_arr a cells rs vec : strs a cells rs vec !! a = Some (CStrings cells).
Proof. apply lookup_insert_eq. Qed.

Lemma strs_string a cells rs vec k r s : strs_ok a rs vec -> rs !! k = Some r -> vec !! k = Some s ->
  strs a cells rs vec !! r = Some (c_buffer s).
Proof.
  intros [Hl Hn Ha] Hr Hs. unfold strs. rewrite lookup_insert_ne; [by eapply buffers_lookup|].
  intros ->. apply Ha. by eapply list_elem_of_lookup_2.
Qed.

Lemma cells_of_lookup rs tl k r : rs !! k = Some r -> (cells_of rs ++ tl) !! (0 + k)%nat = Some (Val (Some r)).
Proof.
  intros Hk. rewrite Nat.add_0_l, lookup_app_l by (unfold cells_of; rewrite length_map; by eapply lookup_lt_Some).
  unfold cells_of. change (map ?f ?l) with (f <$> l). by rewrite list_lookup_fmap, Hk.
Qed.

Lemma del_buffers a x rs vec (h : Heap) : strs_ok a rs vec -> delete a (del rs h) = h ∖ <[a := x]> (list_to_map (buffers rs vec)).
Proof.
  intros [Hl Hn Ha]. rewrite <- without_insert. apply map_eq. intros q. rewrite lookup_difference.
  destruct (decide (q = a)) as [->|Hne]; [rewrite !lookup_delete_eq; by destruct (_ !! _)|].
  rewrite !lookup_delete_ne, del_lookup by done. case_decide as Hq.
  - by destruct (buffers_some rs vec q Hl Hn Hq) as [o ->].
  - by rewrite buffers_none.
Qed.

(** The strings are freed, then the array. *)
Lemma free_strs a tl rs vec m : strs_ok a rs vec -> strs a (cells_of rs ++ tl) rs vec ⊆ heap m ->
  (free_cells a 0 (length rs);; free (Some a)) m = Done (tt, set_heap (heap m ∖ strs a (cells_of rs ++ tl) rs vec) m).
Proof.
  intros Hok Hsub. pose proof (lookup_weaken _ _ _ _ (strs_arr a (cells_of rs ++ tl) rs vec) Hsub) as Ha.
  assert (Hin : forall r, r ∈ rs -> is_Some (heap m !! r)).
  { intros r [k Hk]%list_elem_of_lookup. destruct (lookup_lt_is_Some_2 vec k) as [s Hs].
    { rewrite <- (so_len _ _ _ Hok). by eapply lookup_lt_Some. }
    eexists. eapply lookup_weaken; [by eapply strs_string|done]. }
  rewrite (so_bind_Done _ _ _ _ _ (free_cells_spec a _ rs 0 m Ha (fun k r => cells_of_lookup rs tl k r) (so_nodup _ _ _ Hok) (so_arr _ _ _ Hok) Hin)).
  assert (Ha2 : heap (set_heap (del rs (heap m)) m) !! a = Some (CStrings (cells_of rs ++ tl))).
  { cbn. rewrite del_lookup, decide_False by apply (so_arr _ _ _ Hok). done. }
  rewrite (free_eq _ _ _ Ha2). unfold strs. by rewrite <- del_buffers.
Qed.

(** Reading them. *)
Lemma read_string_buffer m r s : heap m !! r = Some (c_buffer s) -> read_string (Some r) m = Done (c_str s, m).
Proof.
  intros Hr. unfold read_string. rewrite (so_bind_Done _ _ _ _ _ (load_eq _ _ _ Hr)). unfold c_buffer, run_out.
  by rewrite read_chars_buffer.
Qed.

Lemma load_strings_eq m a l : heap m !! a = Some (CStrings l) -> load_strings (Some a) m = Done (l, m).
Proof. intros Ha. unfold load_strings. by rewrite (so_bind_Done _ _ _ _ _ (load_eq _ _ _ Ha)). Qed.

Lemma read_strings_spec a l rs vec m : length rs = length vec -> forall j, heap m !! a = Some (CStrings l) ->
  (forall k r, rs !! k = Some r -> l !! (j + k)%nat = Some (Val (Some r))) ->
  (forall k r s, rs !! k = Some r -> vec !! k = Some s -> heap m !! r = Some (c_buffer s)) ->
  read_strings (Some a) j (length vec) m = Done (map c_str vec, m).
Proof.
  revert vec. induction rs as [|r rs IH]; intros [|s vec] Hl j Ha Hc Hs; try done. injection Hl as Hl.
  cbn [length read_strings map]. rewrite (so_bind_Done _ _ _ _ _ (load_strings_eq _ _ _ Ha)).
  pose proof (Hc O r eq_refl) as Hc0. rewrite Nat.add_0_r in Hc0.
  rewrite (so_bind_out _ _ _ _ (index_lookup _ _ _ Hc0)), (so_bind_out (read_cell (Val (Some r))) _ _ _ eq_refl).
  rewrite (so_bind_Done _ _ _ _ _ (read_string_buffer _ _ _ (Hs O r s eq_refl eq_refl))).
  rewrite (so_bind_Done _ _ _ _ _ (IH vec Hl (S j) Ha ltac:(intros k q Hk; rewrite Nat.add_succ_l, <- Nat.add_succ_r; by apply (Hc (S k)))
    ltac:(intros k q s' Hq Hk; by apply (Hs (S k))))). done.
Qed.

(** *** Making them *)

Definition bad_string (s : string) : bool := bool_decide (s = "").

(** One string: a buffer, or null when it is empty or no memory is left. *)
Lemma MallocCString_spec s m : mem_ok m ->
  (exists r m', MallocCString s m = (Some r, m') /\ made m {[r := c_buffer s]} m' /\ bad_string s = false) \/
  (exists m', MallocCString s m = (None, m') /\ made m ∅ m' /\ (bad_string s = true \/ exists i, allocates m i = false)).
Proof.
  intros Hm. unfold MallocCString, bad_string. case_bool_decide as Hs.
  { right. exists m. split; [done|]. split; [by apply made_nothing|by left]. }
  destruct (allocates m (allocations m)) eqn:E.
  - left. destruct (made_alloc (c_buffer s) m Hm E) as (m' & E2 & Hmd). by exists (next_ptr m), m'.
  - right. destruct (made_failed (c_buffer s) m Hm E) as (m' & E2 & Hmd). exists m'. split_and!; [done..|right; by eexists].
Qed.

Lemma set_string_made m f m' a l i p : made m f m' -> f !! a = Some (CStrings l) ->
  exists m'', set_string a i p m' = Done (tt, m'') /\ made m (<[a := CStrings (<[i := Val p]> l)]> f) m''.
Proof.
  intros Hf Ha. pose proof (lookup_weaken _ _ _ _ Ha (made_subset _ _ _ Hf)) as Ha'.
  unfold set_string. rewrite (so_bind_Done _ _ _ _ _ (load_strings_eq _ _ _ Ha')).
  destruct (made_store _ _ _ _ _ (CStrings (<[i := Val p]> l)) Hf Ha) as (m'' & E & Hmd & _). by exists m''.
Qed.

(** What was made is freed, and [fails] is the answer. *)
Lemma strs_undone {A} (b : A) m a tl rs vec m' : made m (strs a (cells_of rs ++ tl) rs vec) m' -> strs_ok a rs vec -> mem_ok m ->
  exists m'', (FreeCharPointer a (length rs);; free (Some a);; mret b) m' = Done (b, m'') /\ made m ∅ m''.
Proof.
  intros Hmd Hok Hm. pose proof (free_strs _ _ _ _ _ Hok (made_subset _ _ _ Hmd)) as E.
  eexists. split; [|by eapply made_freed].
  unfold FreeCharPointer. revert E. unfold mbind, so_bind. destruct (free_cells _ _ _ _) as [[[] m1]| | |]; try done.
  by intros ->.
Qed.

Lemma insert_cells rs (c d : cell Ptr) tl : <[length rs := c]> (cells_of rs ++ d :: tl) = cells_of rs ++ c :: tl.
Proof. unfold cells_of. rewrite insert_app_r_alt by (rewrite length_map; lia). by rewrite length_map, Nat.sub_diag. Qed.

(** One string more. *)
Lemma strs_snoc a l rs vec r s : length rs = length vec -> r <> a -> r ∉ rs ->
  strs a l (rs ++ [r]) (vec ++ [s]) = {[r := c_buffer s]} ∪ strs a l rs vec.
Proof.
  intros Hl Hra Hr. unfold strs, buffers. rewrite zip_with_app by done. cbn [zip_with]. rewrite list_to_map_app. cbn [list_to_map fold_right].
  rewrite <- insert_union_singleton_l, (insert_insert_ne _ r a) by done. f_equal.
  rewrite insert_empty. rewrite <- insert_union_singleton_r; [done|].
  apply not_elem_of_list_to_map_1. change (zip_with _ rs vec) with (buffers rs vec). by rewrite buffers_refs.
Qed.

Lemma strs_ok_snoc a rs vec r s : strs_ok a rs vec -> r <> a -> r ∉ rs -> strs_ok a (rs ++ [r]) (vec ++ [s]).
Proof.
  intros [L N A] Hra Hr. split; [rewrite !length_app; cbn; lia| |].
  - apply NoDup_app. split; [done|]. split; [|apply NoDup_singleton]. intros q Hq ->%list_elem_of_singleton. done.
  - rewrite not_elem_of_app, list_elem_of_singleton. by split; [|intros ->].
Qed.

Lemma strs_cells a l l' rs vec : <[a := CStrings l']> (strs a l rs vec) = strs a l' rs vec.
Proof. unfold strs. by rewrite insert_insert_eq. Qed.

Lemma strs_in a l rs vec r : strs_ok a rs vec -> r ∈ a :: rs -> is_Some (strs a l rs vec !! r).
Proof.
  intros [L N A] [-> |Hin]%elem_of_cons; [by eexists; apply strs_arr|]. unfold strs.
  destruct (decide (r = a)) as [->|Hne]; [by rewrite lookup_insert_eq; eexists|]. rewrite lookup_insert_ne by done. by apply buffers_some.
Qed.

(** A new reference is none of these. *)
Lemma strs_fresh a l rs vec r (h : Heap) : strs_ok a rs vec -> strs a l rs vec ⊆ h -> h !! r = None -> r <> a /\ r ∉ rs.
Proof.
  intros Hok Hs Hr. assert (Hno : r ∉ a :: rs).
  { intros Hin. destruct (strs_in a l rs vec r Hok Hin) as [o Ho]. by rewrite (lookup_weaken _ _ _ _ Ho Hs) in Hr. }
  by apply not_elem_of_cons in Hno.
Qed.

Lemma cells_of_snoc rs r tl : cells_of (rs ++ [r]) ++ tl = cells_of rs ++ Val (Some r) :: tl.
Proof. unfold cells_of. by rewrite map_app, <- app_assoc. Qed.

Lemma fill_pointers_spec m0 a todo : mem_ok m0 -> forall rs vec m,
  made m0 (strs a (cells_of rs ++ replicate (length todo) Uninit) rs vec) m -> strs_ok a rs vec ->
  (exists rs' m', fill_pointers a (length rs) todo m = Done (true, m') /\ strs_ok a rs' (vec ++ todo) /\
     made m0 (strs a (cells_of rs') rs' (vec ++ todo)) m' /\ existsb bad_string todo = false) \/
  (exists m', fill_pointers a (length rs) todo m = Done (false, m') /\ made m0 ∅ m' /\
     (existsb bad_string todo = true \/ exists i, allocates m0 i = false)).
Proof.
  intros Hm0. induction todo as [|s todo IH]; intros rs vec m Hmd Hok.
  { left. exists rs, m. cbn [length replicate] in Hmd. by rewrite !app_nil_r in *. }
  cbn [fill_pointers length replicate] in *. rewrite so_bind_st.
  destruct (MallocCString_spec s m (md_ok _ _ _ Hmd)) as [(r & m1 & E & Hmd1 & Hgood)|(m1 & E & Hmd1 & Hwhy)]; rewrite E; cbn [fst snd].
  - set (F := strs a (cells_of rs ++ Uninit :: replicate (length todo) Uninit) rs vec) in *.
    pose proof (made_trans _ _ _ _ _ Hmd Hmd1) as Hmd2. pose proof (md_disj _ _ _ Hmd1) as Hd. apply map_disjoint_singleton_l in Hd.
    destruct (strs_fresh a _ rs vec r _ Hok (made_subset _ _ _ Hmd) Hd) as [Hra Hrr].
    assert (Ha2 : ({[r := c_buffer s]} ∪ F) !! a = Some (CStrings (cells_of rs ++ Uninit :: replicate (length todo) Uninit))).
    { rewrite lookup_union_r by (by apply lookup_singleton_ne). apply strs_arr. }
    destruct (set_string_made _ _ _ a _ (length rs) (Some r) Hmd2 Ha2) as (m2 & E2 & Hmd3).
    rewrite (so_bind_Done _ _ _ _ _ E2). rewrite insert_cells in Hmd3.
    assert (Hmd4 : made m0 (strs a (cells_of (rs ++ [r]) ++ replicate (length todo) Uninit) (rs ++ [r]) (vec ++ [s])) m2).
    { rewrite strs_snoc, cells_of_snoc by (apply Hok || done). rewrite <- (strs_cells a (cells_of rs ++ Uninit :: replicate (length todo) Uninit)).
      rewrite <- insert_union_r by (by apply lookup_singleton_ne). exact Hmd3. }
    pose proof (strs_ok_snoc _ _ _ _ s Hok Hra Hrr) as Hok3.
    destruct (IH _ _ _ Hmd4 Hok3) as [(rs' & m' & E3 & Hok' & Hmd' & Hg')|(m' & E3 & Hmd' & Hwhy)]; rewrite length_app, Nat.add_1_r in E3.
    + left. exists rs', m'. rewrite <- app_assoc in *. cbn [existsb]. by rewrite Hgood.
    + right. exists m'. split_and!; [done..|]. destruct Hwhy as [Hw|Hw]; [left; cbn; by rewrite Hw, orb_true_r|by right].
  - right. pose proof (made_trans _ _ _ _ _ Hmd Hmd1) as Hmd2. rewrite (left_id_L ∅ (∪)) in Hmd2.
    destruct (set_string_made _ _ _ a _ (length rs) None Hmd2 (strs_arr _ _ _ _)) as (m2 & E2 & Hmd3).
    rewrite (so_bind_Done _ _ _ _ _ E2). rewrite insert_cells, strs_cells in Hmd3.
    destruct (strs_undone false _ _ _ _ _ _ Hmd3 Hok Hm0) as (m3 & E3 & Hmd4). exists m3. split; [exact E3|]. split; [done|].
    destruct Hwhy as [Hw|[i Hi]]; [left; cbn; by rewrite Hw|]. right. exists i. by rewrite <- (md_alloc _ _ _ Hmd).
Qed.

(** ** One value *)

(** The types that the interface does not have. *)
Definition unsupported (v : PreferencesValue) : bool :=
  match v with
  | VInt _ | VLong _ | VFloat _ | VDouble _ | VBool _ | VString _ | VBoolArray _ | VDoubleArray _ | VStringArray _ => false
  | _ => true
  end.

(** [c] is the value [v], with the part [f] of memory. *)
Inductive repr : ValueType -> PreferencesValue -> Heap -> Prop :=
  | R_int z : repr (mkValueType z 0 None false CArr0 CArr0 CArr0 TYPE_INT) (VInt z) ∅
  | R_long z : repr (mkValueType z 0 None false CArr0 CArr0 CArr0 TYPE_INT) (VLong z) ∅
  | R_float b : repr (mkValueType 0 (float_to_double b) None false CArr0 CArr0 CArr0 TYPE_DOU) (VFloat b) ∅
  | R_double b : repr (mkValueType 0 b None false CArr0 CArr0 CArr0 TYPE_DOU) (VDouble b) ∅
  | R_bool b : repr (mkValueType 0 0 None b CArr0 CArr0 CArr0 TYPE_BOOL) (VBool b) ∅
  | R_string r s : repr (mkValueType 0 0 (Some r) false CArr0 CArr0 CArr0 TYPE_STR) (VString s) {[r := c_buffer s]}
  | R_null s : repr (mkValueType 0 0 None false CArr0 CArr0 CArr0 TYPE_STR) (VString s) ∅
  | R_bools0 : repr (mkValueType 0 0 None false CArr0 CArr0 CArr0 TYPE_BOOLARR) (VBoolArray []) ∅
  | R_bools r l : l <> [] ->
      repr (mkValueType 0 0 None false (mkCArr (Some r) (Z.of_nat (length l))) CArr0 CArr0 TYPE_BOOLARR) (VBoolArray l) {[r := CBools l]}
  | R_doubles0 : repr (mkValueType 0 0 None false CArr0 CArr0 CArr0 TYPE_DOUARR) (VDoubleArray []) ∅
  | R_doubles r l : l <> [] ->
      repr (mkValueType 0 0 None false CArr0 (mkCArr (Some r) (Z.of_nat (length l))) CArr0 TYPE_DOUARR) (VDoubleArray l) {[r := CInts l]}
  | R_strings0 : repr (mkValueType 0 0 None false CArr0 CArr0 CArr0 TYPE_STRARR) (VStringArray []) ∅
  | R_strings a rs l : l <> [] -> strs_ok a rs l ->
      repr (mkValueType 0 0 None false CArr0 CArr0 (mkCArr (Some a) (Z.of_nat (length l))) TYPE_STRARR) (VStringArray l)
        (strs a (cells_of rs) rs l)
  | R_other v : unsupported v = true ->
      repr (mkValueType 0 0 None false CArr0 CArr0 CArr0 (wrap_u 8 (-1))) v ∅.

(** A string without a buffer. *)
Definition lost (c : ValueType) (v : PreferencesValue) : Prop := exists s, v = VString s /\ string_ c = None.

#[export] Instance lost_dec c v : Decision (lost c v).
Proof.
  destruct (decide (string_ c = None)) as [E|E]; [|right; by intros (s & _ & Hs)].
  destruct v; try (right; by intros (s & Es & _)). left. by eexists.
Defined.

(** What the value is when it is handed back: integers are 64 bits wide,
    floating-point numbers are doubles, a string ends at its first NUL, and a
    type that the interface does not have has become the number -1. *)
Definition comes_back (v : PreferencesValue) : PreferencesValue :=
  match v with
  | VInt z => VLong z
  | VFloat b => VDouble (float_to_double b)
  | VString s => VString (c_str s)
  | VStringArray l => VStringArray (map c_str l)
  | VLong _ | VDouble _ | VBool _ | VBoolArray _ | VDoubleArray _ => v
  | _ => VInt (-1)
  end.

(** A value that is never handed out. *)
Definition bad_value (v : PreferencesValue) : bool :=
  match v with VStringArray l => existsb bad_string l | _ => false end.

Lemma array_out {T} (layout : list T -> CObj) (l : list T) m : mem_ok m ->
  (exists r m', alloc_c (layout l) m = (Some r, m') /\ made m {[r := layout l]} m') \/
  (exists m', alloc_c (layout l) m = (None, m') /\ made m ∅ m' /\ exists i, allocates m i = false).
Proof.
  intros Hm. destruct (allocates m (allocations m)) eqn:E.
  - left. destruct (made_alloc (layout l) m Hm E) as (m' & E2 & Hmd). by eexists _, m'.
  - right. destruct (made_failed (layout l) m Hm E) as (m' & E2 & Hmd). exists m'. eauto.
Qed.

Lemma VectorToCharPointer_spec l m : mem_ok m -> l <> [] ->
  (exists a rs m', VectorToCharPointer l E_OK m = Done ((Some a, E_OK), m') /\ strs_ok a rs l /\ made m (strs a (cells_of rs) rs l) m' /\ existsb bad_string l = false) \/
  (exists p m', VectorToCharPointer l E_OK m = Done ((p, E_ERROR), m') /\ made m ∅ m' /\
     (existsb bad_string l = true \/ exists i, allocates m i = false)).
Proof.
  intros Hm Hl. unfold VectorToCharPointer. destruct (length l =? 0)%nat eqn:E0; [apply Nat.eqb_eq in E0; by destruct l|].
  rewrite so_bind_st. destruct (array_out CStrings (replicate (length l) Uninit) m Hm) as [(a & m1 & E & Hmd)|(m1 & E & Hmd & Hf)]; rewrite E; cbn [fst snd].
  2: { right. exists None, m1. auto. }
  assert (Hmd1 : made m (strs a (cells_of [] ++ replicate (length l) Uninit) [] []) m1) by exact Hmd.
  destruct (fill_pointers_spec m a l Hm [] [] m1 Hmd1) as [(rs & m2 & E2 & Hok & Hmd2 & Hg)|(m2 & E2 & Hmd2 & Hwhy)].
  { split; [done|by apply NoDup_nil_2|by apply not_elem_of_nil]. }
  - left. exists a, rs, m2. cbn [length] in E2. by rewrite (so_bind_Done _ _ _ _ _ E2).
  - right. exists None, m2. cbn [length] in E2. by rewrite (so_bind_Done _ _ _ _ _ E2).
Qed.

(** A value is handed out with what it needs, or nothing is left. *)
Definition handed_out (v : PreferencesValue) (m : CMem) : Prop :=
  (exists c f m', NativeValueToCValueType v E_OK m = Done ((c, E_OK), m') /\ repr c v f /\ made m f m' /\
     bad_value v = false /\ (lost c v -> v = VString "" \/ exists i, allocates m i = false)) \/
  (exists c m', NativeValueToCValueType v E_OK m = Done ((c, E_ERROR), m') /\ made m ∅ m' /\
     (bad_value v = true \/ exists i, allocates m i = false)).

Lemma hand_out v m : mem_ok m -> handed_out v m.
Proof.
  intros Hm. pose proof (made_nothing m Hm) as H0.
  assert (Hempty : forall c v, repr c v ∅ -> bad_value v = false -> (forall s, v <> VString s) ->
    NativeValueToCValueType v E_OK m = Done ((c, E_OK), m) -> handed_out v m).
  { intros c v0 Hr Hb Hs E. left. exists c, ∅, m. split_and!; [done..|]. intros (s & Es & _). by destruct (Hs s). }
  destruct v; try (eapply Hempty; [by constructor|done|done|done]).
  - unfold handed_out; cbn [NativeValueToCValueType bad_value]. rewrite so_bind_st. destruct (MallocCString_spec v m Hm) as [(r & m' & E & Hmd & _)|(m' & E & Hmd & Hwhy)]; rewrite E; cbn [fst snd]; left.
    + eexists _, _, m'. split; [reflexivity|]. split; [apply R_string|]. split; [done|]. split; [done|]. by intros (s & _ & Hn).
    + eexists _, _, m'. split; [reflexivity|]. split; [apply R_null|]. split; [done|]. split; [done|].
      intros _. destruct Hwhy as [Hb|Hb]; [left|by right]. unfold bad_string in Hb. apply bool_decide_eq_true in Hb. by subst.
  - destruct (decide (v = [])) as [->|Hl]; [by eapply Hempty; [apply R_strings0|..]|].
    unfold handed_out; cbn [NativeValueToCValueType bad_value]. unfold VectorToStringArray. destruct (VectorToCharPointer_spec v m Hm Hl) as [(a & rs & m' & E & Hok & Hmd & Hg)|(p & m' & E & Hmd & Hwhy)]; [left|right];
      unfold mbind at 1, so_bind at 1; rewrite (so_bind_Done _ _ _ _ _ E).
    + eexists _, _, m'. split; [reflexivity|]. split; [by apply R_strings|]. split; [done|]. split; [done|]. by intros (s & Es & _).
    + eexists _, m'. split; [reflexivity|]. split; [done|done].
  - destruct (decide (v = [])) as [->|Hl]; [by eapply Hempty; [apply R_bools0|..]|].
    unfold handed_out; cbn [NativeValueToCValueType bad_value]. unfold VectorToBoolArray. destruct (length v =? 0)%nat eqn:E0; [apply Nat.eqb_eq in E0; by destruct v|].
    destruct (array_out CBools v m Hm) as [(r & m' & E & Hmd)|(m' & E & Hmd & Hf)]; [left|right];
      unfold mbind at 1, so_bind at 1; rewrite so_bind_st, E; cbn [fst snd].
    + eexists _, _, m'. split; [reflexivity|]. split; [by apply R_bools|]. split; [done|]. split; [done|]. by intros (s & Es & _).
    + eexists _, m'. split; [reflexivity|]. split; [done|by right].
  - destruct (decide (v = [])) as [->|Hl]; [by eapply Hempty; [apply R_doubles0|..]|].
    unfold handed_out; cbn [NativeValueToCValueType bad_value]. unfold VectorToDoubleArray. destruct (length v =? 0)%nat eqn:E0; [apply Nat.eqb_eq in E0; by destruct v|].
    destruct (array_out CInts v m Hm) as [(r & m' & E & Hmd)|(m' & E & Hmd & Hf)]; [left|right];
      unfold mbind at 1, so_bind at 1; rewrite so_bind_st, E; cbn [fst snd].
    + eexists _, _, m'. split; [reflexivity|]. split; [by apply R_doubles|]. split; [done|]. split; [done|]. by intros (s & Es & _).
    + eexists _, m'. split; [reflexivity|]. split; [done|by right].
Qed.

Lemma singleton_subset r o (h : Heap) : {[r := o]} ⊆ h -> h !! r = Some o.
Proof. intros Hs. eapply lookup_weaken; [apply lookup_singleton_eq|exact Hs]. Qed.

(** A value that was handed out is read. *)
Lemma repr_read c v f m : repr c v f -> f ⊆ heap m -> ~ lost c v -> CValueTypeToNativeValue c m = Done (comes_back v, m).
Proof.
  intros Hr Hs Hl. destruct Hr; try reflexivity.
  - change (CValueTypeToNativeValue _ m) with ((s ← read_string (Some r); mret (PreferencesValue_string s)) m).
    by rewrite (so_bind_Done _ _ _ _ _ (read_string_buffer _ _ _ (singleton_subset _ _ _ Hs))).
  - destruct Hl. by exists s.
  - change (CValueTypeToNativeValue _ m) with ((bools ← read_bools (Some r) (Z.of_nat (length l)); mret (PreferencesValue_vector_bool bools)) m).
    unfold read_bools. rewrite (proj2 (Z.leb_gt _ _)) by (destruct l; cbn in *; [done|lia]).
    unfold mbind at 1, so_bind at 1. rewrite (so_bind_Done _ _ _ _ _ (load_eq _ _ _ (singleton_subset _ _ _ Hs))).
    unfold run_out. by rewrite vector_from_all.
  - change (CValueTypeToNativeValue _ m) with ((doubles ← read_doubles (Some r) (Z.of_nat (length l)); mret (PreferencesValue_vector_double doubles)) m).
    unfold read_doubles. rewrite (proj2 (Z.leb_gt _ _)) by (destruct l; cbn in *; [done|lia]).
    unfold mbind at 1, so_bind at 1. rewrite (so_bind_Done _ _ _ _ _ (load_eq _ _ _ (singleton_subset _ _ _ Hs))).
    unfold run_out. by rewrite vector_from_all.
  - change (CValueTypeToNativeValue _ m) with ((strings ← read_strings (Some a) 0 (Z.to_nat (Z.of_nat (length l))); mret (PreferencesValue_vector_string strings)) m).
    rewrite Nat2Z.id. match goal with Hok : strs_ok _ _ _ |- _ => rename Hok into Hok' end.
    pose proof (read_strings_spec a (cells_of rs) rs l m (so_len _ _ _ Hok') 0 (lookup_weaken _ _ _ _ (strs_arr _ _ _ _) Hs)
      ltac:(intros k r Hk; rewrite <- (app_nil_r (cells_of rs)); by apply cells_of_lookup)
      ltac:(intros k r s Hk Hks; eapply lookup_weaken; [by eapply strs_string|exact Hs])) as E.
    by rewrite (so_bind_Done _ _ _ _ _ E).
  - by destruct v.
Qed.

(** A string without a buffer is not. *)
Lemma lost_read c v m f : repr c v f -> lost c v -> CValueTypeToNativeValue c m = Undef.
Proof. intros Hr (s & -> & Hn). by inv Hr. Qed.

(** The parts of a value are freed by either function. *)
Lemma repr_free c v f m : repr c v f -> f ⊆ heap m ->
  FreeValueType c m = Done (tt, set_heap (heap m ∖ f) m) /\
  exists c', FfiOHOSPreferencesFreeValueType (Some c) m = Done (Some c', set_heap (heap m ∖ f) m).
Proof.
  intros Hr Hs.
  assert (H0 : set_heap (heap m ∖ ∅) m = m) by (rewrite map_difference_empty; by destruct m).
  destruct Hr; try (rewrite H0; split; [reflexivity|by eexists]).
  - pose proof (free_without _ _ _ (singleton_subset _ _ _ Hs)) as E. split; [exact E|].
    eexists. exact (so_bind_Done _ _ _ _ _ E).
  - pose proof (free_without _ _ _ (singleton_subset _ _ _ Hs)) as E. split; [exact E|].
    eexists. exact (so_bind_Done _ _ _ _ _ E).
  - pose proof (free_without _ _ _ (singleton_subset _ _ _ Hs)) as E. split; [exact E|].
    eexists. exact (so_bind_Done _ _ _ _ _ E).
  - match goal with Hok : strs_ok _ _ _ |- _ => rename Hok into Hok' end.
    rewrite <- (app_nil_r (cells_of rs)) in Hs. pose proof (free_strs a [] rs l m Hok' Hs) as E. rewrite app_nil_r in E.
    rewrite (so_len _ _ _ Hok') in E. split.
    + change (FreeValueType _ m) with ((free_cells a 0 (Z.to_nat (Z.of_nat (length l)));; free (Some a)) m). rewrite Nat2Z.id. exact E.
    + rewrite <- (Nat2Z.id (length l)) in E. eexists. exact (so_bind_Done _ _ _ _ _ E).
Qed.


(** C33: A value handed to the application comes back as what it was and is
    given back entirely: [NativeValueToCValueType] succeeds for every value
    unless an allocation fails or an array has an empty string, and then it
    leaves nothing behind.  What it hands out reads as the value (with wider
    numbers, strings up to their first NUL, and -1 for the types that the
    interface does not have), except that a string that is empty or could not
    be copied is a null pointer, which cannot be read; and
    [FfiOHOSPreferencesFreeValueType] returns the memory to what it was. *)
Theorem cj_value_roundtrip (m : CMem) (v : PreferencesValue) (Hm : mem_ok m) :
  exists c code m1, NativeValueToCValueType v E_OK m = Done ((c, code), m1) /\
    ((code = E_OK /\ bad_value v = false /\
      CValueTypeToNativeValue c m1 = (if decide (lost c v) then Undef else Done (comes_back v, m1)) /\
      (lost c v -> v = VString "" \/ exists i, allocates m i = false) /\
      exists c' m2, FfiOHOSPreferencesFreeValueType (Some c) m1 = Done (Some c', m2) /\ heap m2 = heap m) \/
     (code = E_ERROR /\ heap m1 = heap m /\ (bad_value v = true \/ exists i, allocates m i = false))).
Proof.
  destruct (hand_out v m Hm) as [(c & f & m1 & E & Hr & Hmd & Hb & Hl)|(c & m1 & E & Hmd & Hwhy)].
  - exists c, E_OK, m1. split; [done|]. left. split_and!; try done.
    + case_decide as Hd; [by eapply lost_read|]. eapply repr_read; [done|by eapply made_subset|done].
    + destruct (repr_free c v f m1 Hr (made_subset _ _ _ Hmd)) as [_ (c' & Ef)]. eexists c', _. split; [exact Ef|].
      exact (made_undone _ _ _ Hmd).
  - exists c, E_ERROR, m1. split; [done|]. right. split; [done|]. split; [|done].
    rewrite (md_heap _ _ _ Hmd). apply (left_id_L ∅ (∪)).
Qed.

(** ** All values *)

Inductive reprs : list ValueType -> list PreferencesValue -> Heap -> Prop :=
  | RS_nil : reprs [] [] ∅
  | RS_cons c v f cs vs F : repr c v f -> reprs cs vs F -> f ##ₘ F -> reprs (c :: cs) (v :: vs) (f ∪ F).

Lemma reprs_snoc cs vs F c v f : reprs cs vs F -> repr c v f -> f ##ₘ F -> reprs (cs ++ [c]) (vs ++ [v]) (f ∪ F).
Proof.
  intros Hrs Hr Hd. revert Hd. induction Hrs as [|c0 v0 f0 cs vs F H0 Hrs IH Hd0]; intros Hd.
  { by constructor; [|constructor|]. }
  apply map_disjoint_union_r in Hd as [Hd1 Hd2]. rewrite (assoc_L (∪)), (map_union_comm f f0), <- (assoc_L (∪)) by done.
  constructor; [done|by apply IH|]. by apply map_disjoint_union_r.
Qed.

Lemma reprs_length cs vs F : reprs cs vs F -> length cs = length vs.
Proof. induction 1; cbn; lia. Qed.

Lemma reprs_at cs vs F i c : reprs cs vs F -> cs !! i = Some c ->
  exists v f, vs !! i = Some v /\ repr c v f /\ f ⊆ F.
Proof.
  intros Hrs. revert i. induction Hrs as [|c0 v0 f0 cs vs F H0 Hrs IH Hd0]; intros [|i] Hi; try done.
  - injection Hi as <-. exists v0, f0. split_and!; [done..|apply map_union_subseteq_l].
  - destruct (IH i Hi) as (v & f & Hv & Hr & Hs). exists v, f. split_and!; [done..|]. etrans; [exact Hs|by apply map_union_subseteq_r].
Qed.

Lemma load_values_eq m a l : heap m !! a = Some (CValueTypes l) -> load_values (Some a) m = Done (l, m).
Proof. intros Ha. unfold load_values. by rewrite (so_bind_Done _ _ _ _ _ (load_eq _ _ _ Ha)). Qed.

(** The values are freed when the rest cannot be made. *)
Lemma FreeValueTypes_spec h l cs vs F : reprs cs vs F -> forall j m, heap m !! h = Some (CValueTypes l) ->
  (forall k c, cs !! k = Some c -> l !! (j + k)%nat = Some (Val c)) -> F ⊆ heap m -> F !! h = None ->
  FreeValueTypes h j (length cs) m = Done (tt, set_heap (heap m ∖ F) m).
Proof.
  induction 1 as [|c v f cs vs F Hr Hrs IH Hd]; intros j m Hh Hc Hs Hn.
  { rewrite map_difference_empty. by destruct m. }
  cbn [length FreeValueTypes]. rewrite (so_bind_Done _ _ _ _ _ (load_values_eq _ _ _ Hh)).
  pose proof (Hc O c eq_refl) as Hc0. rewrite Nat.add_0_r in Hc0.
  rewrite (so_bind_out _ _ _ _ (index_lookup _ _ _ Hc0)), (so_bind_out (read_cell (Val c)) _ _ _ eq_refl).
  assert (Hs1 : f ⊆ heap m) by (etrans; [apply map_union_subseteq_l|exact Hs]).
  assert (Hs2 : F ⊆ heap m) by (etrans; [by apply map_union_subseteq_r|exact Hs]).
  apply lookup_union_None in Hn as [Hn1 Hn2]. destruct (repr_free c v f m Hr Hs1) as [E _].
  rewrite (so_bind_Done _ _ _ _ _ E). rewrite (IH (S j)).
  - cbn [heap set_heap]. by rewrite without_without.
  - cbn [heap set_heap]. by rewrite lookup_difference, Hn1.
  - intros k d Hk. rewrite Nat.add_succ_l, <- Nat.add_succ_r. by apply (Hc (S k)).
  - by apply without_subset.
  - done.
Qed.

(** The caller gives the values back. *)
Lemma free_values_spec h cs vs F : reprs cs vs F -> forall l j m, heap m !! h = Some (CValueTypes l) ->
  (forall k c, cs !! k = Some c -> l !! (j + k)%nat = Some (Val c)) -> F ⊆ heap m -> F !! h = None ->
  exists m', free_values h j (length cs) m = Done (tt, m') /\ delete h (heap m') = delete h (heap m) ∖ F /\ is_Some (heap m' !! h).
Proof.
  induction 1 as [|c v f cs vs F Hr Hrs IH Hd]; intros l j m Hh Hc Hs Hn.
  { exists m. rewrite map_difference_empty. split_and!; [done..|by eexists]. }
  cbn [length free_values]. rewrite (so_bind_Done _ _ _ _ _ (load_values_eq _ _ _ Hh)).
  pose proof (Hc O c eq_refl) as Hc0. rewrite Nat.add_0_r in Hc0.
  rewrite (so_bind_out _ _ _ _ (index_lookup _ _ _ Hc0)), (so_bind_out (read_cell (Val c)) _ _ _ eq_refl).
  assert (Hs1 : f ⊆ heap m) by (etrans; [apply map_union_subseteq_l|exact Hs]).
  assert (Hs2 : F ⊆ heap m) by (etrans; [by apply map_union_subseteq_r|exact Hs]).
  apply lookup_union_None in Hn as [Hn1 Hn2]. destruct (repr_free c v f m Hr Hs1) as [_ (c' & E)].
  rewrite (so_bind_Done _ _ _ _ _ E). set (m1 := set_heap (heap m ∖ f) m).
  assert (Hh1 : heap m1 !! h = Some (CValueTypes l)) by (cbn [heap m1 set_heap]; by rewrite lookup_difference, Hn1).
  unfold set_value. unfold mbind at 1, so_bind at 1. rewrite (so_bind_Done _ _ _ _ _ (load_values_eq _ _ _ Hh1)), (store_eq _ _ _ _ Hh1).
  cbn [default id]. set (m2 := set_heap _ m1).
  destruct (IH (<[j := Val c']> l) (S j) m2) as (m' & E' & Hd' & Hh').
  - apply lookup_insert_eq.
  - intros k d Hk. rewrite list_lookup_insert_ne by lia. rewrite Nat.add_succ_l, <- Nat.add_succ_r. by apply (Hc (S k)).
  - cbn [heap m2 m1 set_heap]. apply insert_subseteq_r; [done|]. by apply without_subset.
  - done.
  - exists m'. split; [exact E'|]. split; [|done]. rewrite Hd'. cbn [heap m2 m1 set_heap]. rewrite delete_insert_eq, <- without_without. f_equal.
    apply map_eq. intros q. rewrite lookup_difference. destruct (decide (q = h)) as [->|Hne]; [rewrite !lookup_delete_eq; by rewrite Hn1|].
    by rewrite !lookup_delete_ne, lookup_difference.
Qed.

(** The arrays [k] and [h] with the keys and values so far, and room for [n]
    more. *)
Definition pairs_part (k h : positive) (tl : list (cell Ptr)) (tl' : list (cell ValueType)) (ks : list positive)
    (keys : list string) (cs : list ValueType) (F : Heap) : Heap :=
  strs k (cells_of ks ++ tl) ks keys ∪ ({[h := CValueTypes (map Val cs ++ tl')]} ∪ F).

Record pairs_ok (k h : positive) (ks : list positive) (keys : list string) (cs : list ValueType) (vs : list PreferencesValue) (F : Heap) : Prop := {
  po_strs : strs_ok k ks keys;
  po_reprs : reprs cs vs F;
  po_len : length ks = length cs;
  po_disj l : strs k l ks keys ##ₘ F;
  po_h : k <> h /\ (h ∉ ks) /\ F !! h = None
}.

Lemma strs_lookup_none a l rs vec q : length rs = length vec -> q <> a -> q ∉ rs -> strs a l rs vec !! q = None.
Proof. intros Hl Hne Hq. unfold strs. rewrite lookup_insert_ne by done. by apply buffers_none. Qed.

Lemma pairs_disj k h l ks keys cs vs F x : pairs_ok k h ks keys cs vs F -> strs k l ks keys ##ₘ ({[h := x]} ∪ F) /\ {[h := x]} ##ₘ F.
Proof.
  intros [Hs _ _ Hd (Hkh & Hh & HF)]. split; [|by apply map_disjoint_singleton_l]. apply map_disjoint_union_r. split; [|done].
  apply map_disjoint_singleton_r. apply strs_lookup_none; [apply Hs|done|done].
Qed.

Lemma pairs_head k h tl tl' ks keys cs vs F : pairs_ok k h ks keys cs vs F ->
  pairs_part k h tl tl' ks keys cs F !! h = Some (CValueTypes (map Val cs ++ tl')).
Proof.
  intros Hok. destruct (pairs_disj k h (cells_of ks ++ tl) ks keys cs vs F (CValueTypes (map Val cs ++ tl')) Hok) as [Hd _].
  unfold pairs_part. apply lookup_union_Some_r; [done|]. apply lookup_union_Some_l, lookup_singleton_eq.
Qed.

Lemma pairs_key k h tl tl' ks keys cs F : pairs_part k h tl tl' ks keys cs F !! k = Some (CStrings (cells_of ks ++ tl)).
Proof. apply lookup_union_Some_l, strs_arr. Qed.

Lemma pairs_parts k h tl tl' ks keys cs vs F (m : Heap) : pairs_ok k h ks keys cs vs F -> pairs_part k h tl tl' ks keys cs F ⊆ m ->
  strs k (cells_of ks ++ tl) ks keys ⊆ m /\ F ⊆ m.
Proof.
  intros Hok Hs. destruct (pairs_disj k h (cells_of ks ++ tl) ks keys cs vs F (CValueTypes (map Val cs ++ tl')) Hok) as [Hd Hd2]. split.
  - etrans; [apply map_union_subseteq_l|exact Hs].
  - etrans; [|exact Hs]. etrans; [by apply map_union_subseteq_r|]. by apply map_union_subseteq_r.
Qed.

(** Without the same references. *)
Lemma without_dom (h f g : Heap) : dom f = dom g -> h ∖ f = h ∖ g.
Proof.
  intros Hd. apply map_eq. intros q. rewrite !lookup_difference.
  destruct (f !! q) eqn:Ef, (g !! q) eqn:Eg; try done.
  - apply elem_of_dom_2 in Ef. apply not_elem_of_dom in Eg. congruence.
  - apply elem_of_dom_2 in Eg. apply not_elem_of_dom in Ef. congruence.
Qed.

Lemma delete_without (h : Heap) r o : delete r h = h ∖ {[r := o]}.
Proof. by rewrite <- insert_empty, <- without_insert, map_difference_empty. Qed.

Lemma del_without a rs vec (h : Heap) : strs_ok a rs vec -> del rs h = h ∖ (list_to_map (buffers rs vec) : Heap).
Proof.
  intros [Hl Hn _]. apply map_eq. intros q. rewrite del_lookup, lookup_difference. case_decide as Hq.
  - by destruct (buffers_some rs vec q Hl Hn Hq) as [o ->].
  - by rewrite buffers_none.
Qed.

(** What the loop does when it fails. *)
Definition undo_pairs (k h : positive) (i : nat) : SO CMem Z :=
  FreeCharPointer k i;; FreeValueTypes h 0 i;; free (Some k);; free (Some h);; mret E_ERROR.

Lemma pairs_undone m0 k h tl tl' ks keys cs vs F m : mem_ok m0 -> pairs_ok k h ks keys cs vs F ->
  made m0 (pairs_part k h tl tl' ks keys cs F) m -> exists m', undo_pairs k h (length ks) m = Done (E_ERROR, m') /\ made m0 ∅ m'.
Proof.
  intros Hm0 Hok Hmd. pose proof (made_subset _ _ _ Hmd) as Hsub. destruct (pairs_parts _ _ _ _ _ _ _ _ _ _ Hok Hsub) as [Hs HF].
  pose proof (lookup_weaken _ _ _ _ (pairs_key k h tl tl' ks keys cs F) Hsub) as Hk.
  pose proof (lookup_weaken _ _ _ _ (pairs_head k h tl tl' ks keys cs vs F Hok) Hsub) as Hh.
  destruct Hok as [Hso Hrs Hlen Hd (Hkh & Hhs & HFh)].
  assert (Hin : forall r, r ∈ ks -> is_Some (heap m !! r)).
  { intros r [i Hi]%list_elem_of_lookup. destruct (lookup_lt_is_Some_2 keys i) as [s Hks].
    { rewrite <- (so_len _ _ _ Hso). by eapply lookup_lt_Some. }
    eexists. eapply lookup_weaken; [by eapply strs_string|exact Hs]. }
  unfold undo_pairs, FreeCharPointer.
  rewrite (so_bind_Done _ _ _ _ _ (free_cells_spec k _ ks 0 m Hk (fun i r => cells_of_lookup ks tl i r) (so_nodup _ _ _ Hso) (so_arr _ _ _ Hso) Hin)).
  set (m1 := set_heap (del ks (heap m)) m).
  assert (Hl1 : forall q, q ∉ ks -> heap m1 !! q = heap m !! q) by (intros q Hq; cbn; by rewrite del_lookup, decide_False).
  assert (HF1 : F ⊆ heap m1).
  { cbn [heap m1 set_heap]. rewrite (del_without k ks keys) by done. apply without_subset; [done|].
    specialize (Hd []). unfold strs in Hd. by apply map_disjoint_insert_l in Hd as [_ Hd]. }
  rewrite Hlen. rewrite (so_bind_Done _ _ _ _ _ (FreeValueTypes_spec h (map Val cs ++ tl') cs vs F Hrs 0 m1 ltac:(by rewrite Hl1)
    ltac:(intros i c Hi; rewrite Nat.add_0_l, lookup_app_l by (rewrite length_map; by eapply lookup_lt_Some);
          change (map ?f ?l) with (f <$> l); by rewrite list_lookup_fmap, Hi) HF1 HFh)).
  set (m2 := set_heap (heap m1 ∖ F) m1).
  assert (HFk : F !! k = None) by (specialize (Hd []); unfold strs in Hd; by apply map_disjoint_insert_l in Hd as [Hd _]).
  assert (Hk2 : heap m2 !! k = Some (CStrings (cells_of ks ++ tl))).
  { cbn [heap m2 set_heap]. rewrite lookup_difference, HFk, Hl1; [done|apply (so_arr _ _ _ Hso)]. }
  rewrite (so_bind_Done _ _ _ _ _ (free_eq _ _ _ Hk2)). set (m3 := set_heap _ m2).
  assert (Hh3 : heap m3 !! h = Some (CValueTypes (map Val cs ++ tl'))).
  { cbn [heap m3 m2 set_heap]. by rewrite lookup_delete_ne, lookup_difference, HFh, Hl1. }
  rewrite (so_bind_Done _ _ _ _ _ (free_eq _ _ _ Hh3)). eexists. split; [reflexivity|].
  assert (Hfin : delete h (heap m3) = heap m ∖ pairs_part k h tl tl' ks keys cs F).
  { cbn [heap m3 m2 m1 set_heap]. rewrite (del_without k ks keys) by done.
    rewrite (delete_without _ k (CStrings [])), (delete_without _ h (CStrings [])), !without_without. apply without_dom.
    unfold pairs_part, strs. rewrite !dom_union_L, dom_insert_L, !dom_singleton_L. set_solver. }
  rewrite Hfin. exact (made_freed _ _ _ Hmd Hm0).
Qed.

Lemma pairs_set_key k h tl tl1 tl' ks keys cs F :
  <[k := CStrings (cells_of ks ++ tl1)]> (pairs_part k h tl tl' ks keys cs F) = pairs_part k h tl1 tl' ks keys cs F.
Proof. unfold pairs_part. by rewrite insert_union_l, strs_cells. Qed.

Lemma pairs_set_head k h tl tl' tl1 ks keys cs vs F : pairs_ok k h ks keys cs vs F ->
  <[h := CValueTypes (map Val cs ++ tl1)]> (pairs_part k h tl tl' ks keys cs F) = pairs_part k h tl tl1 ks keys cs F.
Proof.
  intros [Hs _ _ _ (Hkh & Hh & _)]. unfold pairs_part.
  rewrite insert_union_r by (apply strs_lookup_none; [apply Hs|done|done]). by rewrite insert_union_l, insert_singleton_eq.
Qed.

Lemma insert_vals cs (c d : cell ValueType) tl : <[length cs := c]> (map Val cs ++ d :: tl) = map Val cs ++ c :: tl.
Proof. rewrite insert_app_r_alt by (rewrite length_map; lia). by rewrite length_map, Nat.sub_diag. Qed.

Lemma strs_disj_any a l l' rs vec (X : Heap) : strs a l rs vec ##ₘ X -> strs a l' rs vec ##ₘ X.
Proof. unfold strs. rewrite !map_disjoint_insert_l. done. Qed.

(** One pair more. *)
Lemma pairs_next k h ks keys cs vs F r key c v f tl tl' (hp : Heap) : pairs_ok k h ks keys cs vs F ->
  pairs_part k h (Val (Some r) :: tl) (Val c :: tl') ks keys cs F ⊆ hp -> hp !! r = None ->
  repr c v f -> f ##ₘ {[r := c_buffer key]} ∪ hp ->
  pairs_ok k h (ks ++ [r]) (keys ++ [key]) (cs ++ [c]) (vs ++ [v]) (f ∪ F) /\
  f ∪ ({[r := c_buffer key]} ∪ pairs_part k h (Val (Some r) :: tl) (Val c :: tl') ks keys cs F) =
    pairs_part k h tl tl' (ks ++ [r]) (keys ++ [key]) (cs ++ [c]) (f ∪ F).
Proof.
  intros Hok Hsub Hr Hrepr Hd. destruct (pairs_parts _ _ _ _ _ _ _ _ _ _ Hok Hsub) as [Hs HF].
  pose proof (lookup_weaken _ _ _ _ (pairs_head k h (Val (Some r) :: tl) (Val c :: tl') ks keys cs vs F Hok) Hsub) as Hh.
  destruct (strs_fresh _ _ _ _ r _ (po_strs _ _ _ _ _ _ _ Hok) Hs Hr) as [Hrk Hrks].
  apply map_disjoint_union_r in Hd as [Hdr Hdh].
  assert (HFr : F !! r = None). { destruct (F !! r) eqn:E; [|done]. by rewrite (lookup_weaken _ _ _ _ E HF) in Hr. }
  pose proof (map_disjoint_weaken_r _ _ _ Hdh Hs) as Hfs. pose proof (map_disjoint_weaken_r _ _ _ Hdh HF) as HfF.
  pose proof (map_disjoint_Some_r _ _ _ _ Hdh Hh) as Hfh.
  destruct Hok as [Hso Hrs Hlen Hdi (Hkh & Hhs & HFh)].
  assert (Hsn : forall l, strs k l (ks ++ [r]) (keys ++ [key]) = {[r := c_buffer key]} ∪ strs k l ks keys).
  { intros l. apply strs_snoc; [apply Hso|done|done]. }
  split; [split|].
  - by apply strs_ok_snoc.
  - by apply reprs_snoc.
  - rewrite !length_app. cbn. lia.
  - intros l. rewrite Hsn. apply map_disjoint_union_l. split.
    + apply map_disjoint_union_r. split; [done|by apply map_disjoint_singleton_l].
    + apply map_disjoint_union_r. split; [|apply Hdi]. symmetry in Hfs. by eapply strs_disj_any.
  - split; [done|]. split; [|by apply lookup_union_None].
    rewrite not_elem_of_app, list_elem_of_singleton. split; [done|]. intros ->. by rewrite Hr in Hh.
  - unfold pairs_part. rewrite Hsn, cells_of_snoc, map_app, <- app_assoc. cbn [map app].
    set (S1 := strs k _ ks keys) in *. set (R := {[r := c_buffer key]}) in *. set (V := {[h := _]}).
    rewrite (assoc_L (∪) R S1). rewrite (assoc_L (∪) f (R ∪ S1)), (map_union_comm f (R ∪ S1)) by (apply map_disjoint_union_r; done).
    rewrite <- (assoc_L (∪) (R ∪ S1)). f_equal. rewrite (assoc_L (∪) f V), (map_union_comm f V), <- (assoc_L (∪)); [done|].
    by apply map_disjoint_singleton_r.
Qed.

Lemma made_free_one m0 r o (P : Heap) m : mem_ok m0 -> made m0 ({[r := o]} ∪ P) m -> P !! r = None ->
  exists m', free (Some r) m = Done (tt, m') /\ made m0 P m'.
Proof.
  intros Hm0 [Hh Hd Hm Ha] HP. apply map_disjoint_union_l in Hd as [Hd1 Hd2]. apply map_disjoint_singleton_l in Hd1.
  assert (Hr : heap m !! r = Some o) by (rewrite Hh; apply lookup_union_Some_l, lookup_union_Some_l, lookup_singleton_eq).
  rewrite (free_eq _ _ _ Hr). eexists. split; [reflexivity|].
  assert (E : delete r (heap m) = P ∪ heap m0).
  { rewrite Hh, <- (assoc_L (∪)), <- insert_union_singleton_l. apply delete_insert_id, lookup_union_None. done. }
  split; [exact E|done| |done]. apply mem_ok_heap; [done|]. intros q. rewrite lookup_delete_is_Some. by intros [_ ?].
Qed.

(** An entry that is not handed out. *)
Definition bad_entry (e : string * PreferencesValue) : bool := bad_string e.1 || bad_value e.2.

(** Only an empty string, or a failed allocation, gives a string without a
    buffer. *)
Definition few_lost (m : CMem) (c : ValueType) (v : PreferencesValue) : Prop :=
  lost c v -> v = VString "" \/ exists i, allocates m i = false.

(** Which cells are written does not matter for what is apart. *)
Lemma pairs_disj_any k h tl tl' tl1 tl1' ks keys cs vs F (X : Heap) : pairs_ok k h ks keys cs vs F ->
  X ##ₘ pairs_part k h tl tl' ks keys cs F -> X ##ₘ pairs_part k h tl1 tl1' ks keys cs F.
Proof.
  intros _. unfold pairs_part. rewrite !map_disjoint_union_r, !map_disjoint_singleton_r. intros (Hs & Hh & HF).
  split_and!; [|done|done]. symmetry in Hs. symmetry. by eapply strs_disj_any.
Qed.

(** What the loop ends with. *)
Definition filled (m0 : CMem) (k h : positive) (keys : list string) (vs : list PreferencesValue) (m : CMem) : Prop :=
  exists ks cs F, pairs_ok k h ks keys cs vs F /\ made m0 (pairs_part k h [] [] ks keys cs F) m /\ Forall2 (few_lost m0) cs vs.

Lemma set_value_made m f m' a l i v : made m f m' -> f !! a = Some (CValueTypes l) ->
  exists m'', set_value a i v m' = Done (tt, m'') /\ made m (<[a := CValueTypes (<[i := Val v]> l)]> f) m''.
Proof.
  intros Hf Ha. pose proof (lookup_weaken _ _ _ _ Ha (made_subset _ _ _ Hf)) as Ha'.
  unfold set_value. rewrite (so_bind_Done _ _ _ _ _ (load_values_eq _ _ _ Ha')).
  destruct (made_store _ _ _ _ _ (CValueTypes (<[i := Val v]> l)) Hf Ha) as (m'' & E & Hmd & _). by exists m''.
Qed.

(** The state with a key and no value yet. *)
Lemma keyed m0 k h n ks keys cs vs F m p : pairs_ok k h ks keys cs vs F ->
  forall X, made m0 (X ∪ pairs_part k h (replicate (S n) Uninit) (replicate (S n) Uninit) ks keys cs F) m -> X !! k = None ->
  exists m', set_string k (length ks) p m = Done (tt, m') /\
    made m0 (X ∪ pairs_part k h (Val p :: replicate n Uninit) (replicate (S n) Uninit) ks keys cs F) m'.
Proof.
  intros Hok X Hmd HX. cbn [replicate] in *.
  destruct (set_string_made m0 _ m k (cells_of ks ++ Uninit :: replicate n Uninit) (length ks) p Hmd) as (m' & E & Hmd').
  { rewrite lookup_union_r by done. apply pairs_key. }
  exists m'. split; [exact E|]. rewrite insert_cells, insert_union_r, pairs_set_key in Hmd' by done. exact Hmd'.
Qed.

Lemma valued m0 k h tl n ks keys cs vs F m c : pairs_ok k h ks keys cs vs F ->
  forall X, made m0 (X ∪ pairs_part k h tl (replicate (S n) Uninit) ks keys cs F) m -> X !! h = None ->
  exists m', set_value h (length ks) c m = Done (tt, m') /\
    made m0 (X ∪ pairs_part k h tl (Val c :: replicate n Uninit) ks keys cs F) m'.
Proof.
  intros Hok X Hmd HX. cbn [replicate] in *.
  destruct (set_value_made m0 _ m h (map Val cs ++ Uninit :: replicate n Uninit) (length cs) c Hmd) as (m' & E & Hmd').
  { rewrite lookup_union_r by done. by eapply pairs_head. }
  exists m'. rewrite (po_len _ _ _ _ _ _ _ Hok). split; [exact E|]. rewrite insert_vals, insert_union_r, (pairs_set_head _ _ _ _ _ _ _ _ _ _ Hok) in Hmd' by done. exact Hmd'.
Qed.

Lemma fill_values_spec m0 k h todo : mem_ok m0 -> forall ks keys cs vs F m, pairs_ok k h ks keys cs vs F ->
  made m0 (pairs_part k h (replicate (length todo) Uninit) (replicate (length todo) Uninit) ks keys cs F) m ->
  Forall2 (few_lost m0) cs vs ->
  (exists m', fill_values k h (length ks) todo E_OK m = Done (E_OK, m') /\ filled m0 k h (keys ++ todo.*1) (vs ++ todo.*2) m' /\
     existsb bad_entry todo = false) \/
  (exists m', fill_values k h (length ks) todo E_OK m = Done (E_ERROR, m') /\ made m0 ∅ m' /\
     (existsb bad_entry todo = true \/ exists i, allocates m0 i = false)).
Proof.
  intros Hm0. induction todo as [|[key v] todo IH]; intros ks keys cs vs F m Hok Hmd Hfew.
  { left. exists m. cbn [fmap list_fmap]. rewrite !app_nil_r. split; [done|]. split; [by exists ks, cs, F|done]. }
  cbn [length fill_values] in *. rewrite so_bind_st.
  destruct (MallocCString_spec key m (md_ok _ _ _ Hmd)) as [(r & m1 & E & Hmd1 & Hg)|(m1 & E & Hmd1 & Hwhy)]; rewrite E; cbn [fst snd].
  2: { right. pose proof (made_trans _ _ _ _ _ Hmd Hmd1) as Hmd2.
    destruct (keyed m0 k h (length todo) ks keys cs vs F m1 None Hok _ Hmd2 (lookup_empty _)) as (m2 & E2 & Hmd3).
    rewrite (so_bind_Done _ _ _ _ _ E2). rewrite (left_id_L ∅ (∪)) in Hmd3.
    destruct (pairs_undone _ _ _ _ _ _ _ _ _ _ _ Hm0 Hok Hmd3) as (m3 & E3 & Hmd4). exists m3. split; [exact E3|]. split; [done|].
    destruct Hwhy as [Hw|[i Hi]]; [left; unfold bad_entry; cbn [existsb fst]; by rewrite Hw|right; exists i; by rewrite <- (md_alloc _ _ _ Hmd)]. }
  pose proof (made_trans _ _ _ _ _ Hmd Hmd1) as Hmd2. pose proof (md_disj _ _ _ Hmd1) as Hr. apply map_disjoint_singleton_l in Hr.
  destruct (pairs_parts _ _ _ _ _ _ _ _ _ _ Hok (made_subset _ _ _ Hmd)) as [Hsub _].
  destruct (strs_fresh _ _ _ _ r _ (po_strs _ _ _ _ _ _ _ Hok) Hsub Hr) as [Hrk Hrks].
  assert (Hrh : r <> h).
  { intros ->. by rewrite (lookup_weaken _ _ _ _ (pairs_head k h _ _ ks keys cs vs F Hok) (made_subset _ _ _ Hmd)) in Hr. }
  assert (Hfree : forall tl tl', pairs_part k h tl tl' ks keys cs F !! r = None).
  { intros tl tl'. apply (map_disjoint_singleton_l _ r (c_buffer key)). eapply (pairs_disj_any k h); [exact Hok|].
    apply map_disjoint_singleton_l. exact (lookup_weaken_None _ _ _ Hr (made_subset _ _ _ Hmd)). }
  destruct (keyed m0 k h (length todo) ks keys cs vs F m1 (Some r) Hok _ Hmd2 ltac:(by apply lookup_singleton_ne)) as (m2 & E2 & Hmd3).
  rewrite (so_bind_Done _ _ _ _ _ E2). set (P := pairs_part k h (Val (Some r) :: replicate (length todo) Uninit) (replicate (S (length todo)) Uninit) ks keys cs F) in *.
  destruct (hand_out v m2 (md_ok _ _ _ Hmd3)) as [(c & f & m3 & E3 & Hrepr & Hmd4 & Hb & Hl)|(c & m3 & E3 & Hmd4 & Hwhy)];
    rewrite (so_bind_Done _ _ _ _ _ E3); pose proof (made_trans _ _ _ _ _ Hmd3 Hmd4) as Hmd5; rewrite (assoc_L (∪)) in Hmd5.
  - set (P2 := pairs_part k h (Val (Some r) :: replicate (length todo) Uninit) (Val c :: replicate (length todo) Uninit) ks keys cs F).
    pose proof (made_subset _ _ _ Hmd3) as Hsub3. assert (Hfd : f ##ₘ {[r := c_buffer key]} ∪ P) by (eapply map_disjoint_weaken_r; [apply Hmd4|done]).
    apply map_disjoint_union_r in Hfd as [Hfr HfP]. pose proof (pairs_disj_any _ _ _ _ (Val (Some r) :: replicate (length todo) Uninit) (Val c :: replicate (length todo) Uninit) _ _ _ _ _ _ Hok HfP) as HfP2.
    assert (HrP2 : P2 !! r = None).
    { exact (Hfree _ _). }
    destruct (valued m0 k h _ (length todo) ks keys cs vs F m3 c Hok _ Hmd5) as (m4 & E4 & Hmd6).
    { apply lookup_union_None. split; [|by apply lookup_singleton_ne]. eapply map_disjoint_Some_r; [exact HfP|]. by eapply pairs_head. }
    rewrite (so_bind_Done _ _ _ _ _ E4). cbn [negb Z.eqb E_OK]. rewrite <- (assoc_L (∪)) in Hmd6. fold P2 in Hmd6.
    destruct (pairs_next k h ks keys cs vs F r key c v f _ _ P2 Hok (reflexivity _) HrP2 Hrepr ltac:(by apply map_disjoint_union_r)) as [Hok' Heq].
    fold P2 in Heq. pose proof (eq_ind _ (fun X : Heap => made m0 X m4) Hmd6 _ Heq) as Hmd7.
    assert (Hfew' : Forall2 (few_lost m0) (cs ++ [c]) (vs ++ [v])).
    { apply Forall2_app; [done|]. constructor; [|constructor]. intros Hlost. destruct (Hl Hlost) as [Hv|[i Hi]]; [by left|right].
      exists i. by rewrite <- (md_alloc _ _ _ Hmd3). }
    destruct (IH _ _ _ _ _ m4 Hok' Hmd7 Hfew') as [(m' & E' & Hf' & Hb')|(m' & E' & Hf' & Hw')]; rewrite length_app, Nat.add_1_r in E'; [left|right].
    + exists m'. split; [exact E'|]. rewrite <- !app_assoc in Hf'. split; [exact Hf'|]. unfold bad_entry at 1. cbn [existsb fst snd]. by rewrite Hg, Hb.
    + exists m'. split; [exact E'|]. split; [done|]. destruct Hw' as [Hw'|Hw']; [left; cbn [existsb]; by rewrite Hw', orb_true_r|by right].
  - right. destruct (valued m0 k h _ (length todo) ks keys cs vs F m3 c Hok _ Hmd5) as (m4 & E4 & Hmd6).
    { rewrite (left_id_L ∅ (∪)). by apply lookup_singleton_ne. }
    rewrite (so_bind_Done _ _ _ _ _ E4), (left_id_L ∅ (∪)) in *. change (negb (E_ERROR =? E_OK)) with true.
    destruct (made_free_one m0 r (c_buffer key) _ m4 Hm0 Hmd6) as (m5 & E5 & Hmd7).
    { exact (Hfree _ _). }
    rewrite (so_bind_Done _ _ _ _ _ E5). destruct (pairs_undone _ _ _ _ _ _ _ _ _ _ _ Hm0 Hok Hmd7) as (m6 & E6 & Hmd8).
    exists m6. split; [exact E6|]. split; [done|]. destruct Hwhy as [Hw|[i Hi]].
    + left. unfold bad_entry. cbn [existsb fst snd]. by rewrite Hw, orb_true_r.
    + right. exists i. by rewrite <- (md_alloc _ _ _ Hmd3).
Qed.

(** The application reads the pair at an index. *)
Definition cj_read_pair (vs : ValueTypes) (i : nat) : SO CMem (string * PreferencesValue) :=
  l ← load_strings (vs_key vs);
  c ← run_out (index_ l (Z.of_nat i));
  p ← run_out (read_cell c);
  key ← read_string p;
  l' ← load_values (vs_head vs);
  c' ← run_out (index_ l' (Z.of_nat i));
  x ← run_out (read_cell c');
  v ← CValueTypeToNativeValue x;
  mret (key, v).

Lemma vals_lookup (cs : list ValueType) tl i c : cs !! i = Some c -> (map Val cs ++ tl) !! (0 + i)%nat = Some (Val c).
Proof.
  intros Hi. rewrite Nat.add_0_l, lookup_app_l by (rewrite length_map; by eapply lookup_lt_Some).
  change (map ?f ?l) with (f <$> l). by rewrite list_lookup_fmap, Hi.
Qed.

Lemma filled_reads m0 k h keys vs m n i key v : filled m0 k h keys vs m -> keys !! i = Some key -> vs !! i = Some v ->
  (v = VString "" \/ exists j, allocates m0 j = false) \/
  cj_read_pair (mkValueTypes (Some k) (Some h) n) i m = Done ((c_str key, comes_back v), m).
Proof.
  intros (ks & cs & F & Hok & Hmd & Hfew) Hkey Hv. pose proof (made_subset _ _ _ Hmd) as Hsub.
  destruct (pairs_parts _ _ _ _ _ _ _ _ _ _ Hok Hsub) as [Hs HF].
  pose proof (po_strs _ _ _ _ _ _ _ Hok) as Hso. pose proof (po_reprs _ _ _ _ _ _ _ Hok) as Hrs. pose proof (po_len _ _ _ _ _ _ _ Hok) as Hlen.
  assert (Hi : (i < length vs)%nat) by (by eapply lookup_lt_Some).
  destruct (lookup_lt_is_Some_2 cs i) as [c Hc]; [by rewrite (reprs_length _ _ _ Hrs)|].
  destruct (lookup_lt_is_Some_2 ks i) as [r Hr]; [by rewrite Hlen, (reprs_length _ _ _ Hrs)|].
  destruct (reprs_at _ _ _ _ _ Hrs Hc) as (v' & f & Hv' & Hrepr & Hf). rewrite Hv in Hv'. injection Hv' as <-.
  pose proof (Forall2_lookup_lr _ _ _ _ _ _ Hfew Hc Hv) as Hl. destruct (decide (lost c v)) as [Hd|Hd]; [left; by apply Hl|right].
  unfold cj_read_pair. cbn [vs_key vs_head].
  rewrite (so_bind_Done _ _ _ _ _ (load_strings_eq _ _ _ (lookup_weaken _ _ _ _ (pairs_key k h [] [] ks keys cs F) Hsub))).
  rewrite (so_bind_out _ _ _ _ (index_lookup _ _ _ (cells_of_lookup ks [] i r Hr))), (so_bind_out (read_cell (Val (Some r))) _ _ _ eq_refl).
  rewrite (so_bind_Done _ _ _ _ _ (read_string_buffer _ _ _ (lookup_weaken _ _ _ _ (strs_string k _ ks keys i r key Hso Hr Hkey) Hs))).
  rewrite (so_bind_Done _ _ _ _ _ (load_values_eq _ _ _ (lookup_weaken _ _ _ _ (pairs_head k h [] [] ks keys cs vs F Hok) Hsub))).
  rewrite (so_bind_out _ _ _ _ (index_lookup _ _ _ (vals_lookup cs [] i c Hc))), (so_bind_out (read_cell (Val c)) _ _ _ eq_refl).
  by rewrite (so_bind_Done _ _ _ _ _ (repr_read c v f m Hrepr ltac:(by etrans) Hd)).
Qed.

(** Everything is given back. *)
Lemma filled_freed m0 k h keys vs m : filled m0 k h keys vs m ->
  exists m', FfiOHOSPreferencesFreeValueTypes (Some (mkValueTypes (Some k) (Some h) (Z.of_nat (length keys)))) m =
    Done (Some ValueTypes0, m') /\ heap m' = heap m0.
Proof.
  intros (ks & cs & F & Hok & Hmd & _). pose proof (made_subset _ _ _ Hmd) as Hsub.
  destruct (pairs_parts _ _ _ _ _ _ _ _ _ _ Hok Hsub) as [Hs HF].
  pose proof (lookup_weaken _ _ _ _ (pairs_head k h [] [] ks keys cs vs F Hok) Hsub) as Hh.
  destruct Hok as [Hso Hrs Hlen Hd (Hkh & Hhs & HFh)].
  pose proof (free_strs k [] ks keys m Hso Hs) as E1. set (m1 := set_heap (heap m ∖ _) m) in E1.
  unfold FfiOHOSPreferencesFreeValueTypes. cbn [vs_key vs_head vs_size free_strings]. rewrite Nat2Z.id.
  rewrite (so_len _ _ _ Hso) in E1. pose proof E1 as E1'.
  rewrite (so_bind_Done _ _ _ _ _ E1').
  assert (Hn : strs k (cells_of ks ++ []) ks keys !! h = None) by (apply strs_lookup_none; [apply Hso|done|done]).
  destruct (free_values_spec h cs vs F Hrs (map Val cs ++ []) 0 m1) as (m2 & E2 & Hd2 & [o Ho]).
  - cbn [heap m1 set_heap]. by rewrite lookup_difference, Hn.
  - intros i c. apply vals_lookup.
  - apply without_subset; [done|apply Hd].
  - done.
  - assert (Hlk : length keys = length cs) by (rewrite <- (so_len _ _ _ Hso); done). rewrite Hlk.
    unfold mbind at 1, so_bind at 1. rewrite (so_bind_Done _ _ _ _ _ E2), (free_eq _ _ _ Ho). eexists. split; [reflexivity|].
    cbn [heap set_heap]. rewrite Hd2. cbn [heap m1 set_heap]. rewrite <- (made_undone _ _ _ Hmd).
    rewrite (delete_without _ h (CStrings [])), !without_without. apply without_dom.
    unfold pairs_part. rewrite !dom_union_L, !dom_singleton_L. set_solver.
Qed.

(** All values, or nothing. *)
Lemma all_values objs m : mem_ok m ->
  (exists k h m', NativeValuesToCValueTypes objs E_OK m = Done ((mkValueTypes (Some k) (Some h) (Z.of_nat (length objs)), E_OK), m') /\
     filled m k h objs.*1 objs.*2 m' /\ existsb bad_entry objs = false) \/
  (exists vs m', NativeValuesToCValueTypes objs E_OK m = Done ((vs, E_ERROR), m') /\ heap m' = heap m /\ mem_ok m' /\
     (existsb bad_entry objs = true \/ exists i, allocates m i = false)).
Proof.
  intros Hm. unfold NativeValuesToCValueTypes. rewrite so_bind_st.
  destruct (array_out CStrings (replicate (length objs) Uninit) m Hm) as [(k & m1 & E1 & Hmd1)|(m1 & E1 & Hmd1 & Hf)]; rewrite E1; cbn [fst snd].
  2: { right. eexists _, m1. split; [reflexivity|]. rewrite (md_heap _ _ _ Hmd1), (left_id_L ∅ (∪)). split_and!; [done|apply Hmd1|by right]. }
  rewrite so_bind_st.
  destruct (array_out CValueTypes (replicate (length objs) Uninit) m1 (md_ok _ _ _ Hmd1)) as [(h & m2 & E2 & Hmd2)|(m2 & E2 & Hmd2 & [i Hi])]; rewrite E2; cbn [fst snd].
  2: { right. pose proof (made_trans _ _ _ _ _ Hmd1 Hmd2) as Hmd. rewrite (left_id_L ∅ (∪)) in Hmd. rewrite <- (right_id_L ∅ (∪) {[k := _]}) in Hmd.
    destruct (made_free_one m k _ ∅ m2 Hm Hmd (lookup_empty _)) as (m3 & E3 & Hmd3). rewrite (so_bind_Done _ _ _ _ _ E3).
    eexists _, m3. split; [reflexivity|]. rewrite (md_heap _ _ _ Hmd3), (left_id_L ∅ (∪)). split_and!; [done|apply Hmd3|].
    right. exists i. by rewrite <- (md_alloc _ _ _ Hmd1). }
  pose proof (made_trans _ _ _ _ _ Hmd1 Hmd2) as Hmd. pose proof (md_disj _ _ _ Hmd2) as Hh. apply map_disjoint_singleton_l in Hh.
  assert (Hkh : k <> h).
  { intros ->. pose proof (lookup_weaken _ _ _ _ (lookup_singleton_eq _ _) (made_subset _ _ _ Hmd1)) as Hx. by rewrite Hx in Hh. }
  assert (Hok : pairs_ok k h [] [] [] [] ∅).
  { split; [split; [done|by apply NoDup_nil_2|by apply not_elem_of_nil]|constructor|done|intros l; apply map_disjoint_empty_r|].
    split; [done|]. split; [by apply not_elem_of_nil|done]. }
  assert (Hpart : pairs_part k h (replicate (length objs) Uninit) (replicate (length objs) Uninit) [] [] [] ∅ =
    {[h := CValueTypes (replicate (length objs) Uninit)]} ∪ {[k := CStrings (replicate (length objs) Uninit)]}).
  { unfold pairs_part. rewrite (right_id_L ∅ (∪)). unfold strs. cbn [buffers zip_with list_to_map fold_right cells_of map app]. rewrite insert_empty.
    apply map_union_comm, map_disjoint_singleton_l. by apply lookup_singleton_ne. }
  assert (Hmd' : made m (pairs_part k h (replicate (length objs) Uninit) (replicate (length objs) Uninit) [] [] [] ∅) m2) by (rewrite Hpart; exact Hmd).
  destruct (fill_values_spec m k h objs Hm [] [] [] [] ∅ m2 Hok Hmd' ltac:(constructor)) as [(m3 & E3 & Hfi & Hb)|(m3 & E3 & Hmd3 & Hwhy)];
    cbn [length] in E3; rewrite (so_bind_Done _ _ _ _ _ E3); [left|right].
  - by exists k, h, m3.
  - eexists _, m3. split; [reflexivity|]. rewrite (md_heap _ _ _ Hmd3), (left_id_L ∅ (∪)). split_and!; [done|apply Hmd3|done].
Qed.

(** ** Instances *)

Section instance_facts.
Context `{XmlStore} `{SafeBlockQueue} `{KvDb} `{FFIData}.
Context (RSIZE_MAX : Z) (gskvEnabled : bool) (ERR_INVALID_INSTANCE_CODE : Z).

(** The number [id] is of an instance whose object [p] has been loaded. *)
Record cj_linked (c : Cj) (id : Z) (self : CjPreferences) (r : positive) (p : PreferencesImpl) : Prop := {
  cl_instance : instances c !! id = Some self;
  cl_object : cj_preferences self = Some r;
  cl_opened : opened (cj_hlp c) r p;
  cl_mem : mem_ok (cj_mem c)
}.

Lemma with_instance_linked {A} c id self r p (bad : A) k : cj_linked c id self r p -> with_instance id bad k c = k self c.
Proof. intros [Hi _ _ _]. unfold with_instance. rewrite so_bind_st. cbn [get fst snd]. by rewrite Hi. Qed.

Lemma on_preferences_linked {A} c id self r p (bad : A) k : cj_linked c id self r p -> on_preferences self bad k c = k r c.
Proof. intros [_ Ho _ _]. unfold on_preferences. by rewrite Ho. Qed.

Definition cj_set_hlp h (c : Cj) := mkCj (cj_mem c) h (instances c) (cj_observers c) (cj_next c).
Definition cj_set_mem m (c : Cj) := mkCj m (cj_hlp c) (instances c) (cj_observers c) (cj_next c).

Lemma cj_on_helper_done {A} (f : SO Helper A) a c h : f (cj_hlp c) = Done (a, h) -> cj_on_helper f c = Done (a, cj_set_hlp h c).
Proof. intros E. unfold cj_on_helper. by rewrite E. Qed.

Lemma cj_on_mem_done {A} (f : SO CMem A) a c m : f (cj_mem c) = Done (a, m) -> cj_on_mem f c = Done (a, cj_set_mem m c).
Proof. intros E. unfold cj_on_mem. by rewrite E. Qed.

Lemma cj_on_mem_same {A} (f : SO CMem A) a c : f (cj_mem c) = Done (a, cj_mem c) -> cj_on_mem f c = Done (a, c).
Proof. intros E. rewrite (cj_on_mem_done _ _ _ _ E). by destruct c. Qed.

(** A call on the object of an instance. *)
Lemma cj_virtual {A} (meth : ST PreferencesImpl A) (wrap : A -> reply) o me c id self r p :
  exec o = (x ← meth; mret (wrap x)) -> cj_linked c id self r p ->
  exists a h p', cj_on_helper (virtual r meth me) c = Done (a, cj_set_hlp h c) /\
    cj_linked (cj_set_hlp h c) id self r p' /\ wrap a = (spec o (view p)).1 /\ same_map (view p') (spec o (view p)).2.
Proof.
  intros He [Hi Ho Hop Hm]. destruct (virtual_opened meth wrap o me _ _ _ He Hop) as (a & h & p' & E & Hop' & Ha & Hv).
  exists a, h, p'. by rewrite (cj_on_helper_done _ _ _ _ E).
Qed.

Lemma cj_linked_mem c id self r p m : cj_linked c id self r p -> mem_ok m -> cj_linked (cj_set_mem m c) id self r p.
Proof. by intros []. Qed.

(** An entry of the map that is not handed out. *)
Definition has_bad_entry (m : gmap string PreferencesValue) : Prop := exists k v, m !! k = Some v /\ bad_entry (k, v) = true.

Lemma in_order_perm m : in_order m ≡ₚ map_to_list m.
Proof. apply iteration_perm. Qed.

Lemma in_order_bad m b : existsb bad_entry (in_order m) = b -> if b then has_bad_entry m else ~ has_bad_entry m.
Proof.
  intros <-. assert (Hin : forall k v, (k, v) ∈ in_order m <-> m !! k = Some v).
  { intros k v. rewrite in_order_perm. apply elem_of_map_to_list. }
  destruct (existsb bad_entry (in_order m)) eqn:E.
  - apply existsb_exists in E as ([k v] & Hkv & Hb). exists k, v. split; [apply Hin, list_elem_of_In, Hkv|done].
  - intros (k & v & Hkv & Hb). apply Hin, list_elem_of_In in Hkv.
    assert (Ht : existsb bad_entry (in_order m) = true) by (apply existsb_exists; by exists (k, v)). congruence.
Qed.

Lemma Cj_GetAll_linked c id self r p : cj_linked c id self r p ->
  exists h p', cj_linked (cj_set_hlp h c) id self r p' /\ same_map (view p') (view p) /\
    FfiOHOSPreferencesGetAll id c =
      ('(vs, err) ← cj_on_mem (NativeValuesToCValueTypes (in_order (view p)) E_OK);
       mret (if negb (err =? E_OK) then ValueTypes0 else vs)) (cj_set_hlp h c).
Proof.
  intros Hl. destruct (cj_virtual GetAll RMap OGetAll Enh_GetAll c id self r p eq_refl Hl) as (m & h & p' & E & Hl' & Ha & Hv).
  injection Ha as ->. exists h, p'. split; [done|]. split; [exact Hv|].
  unfold FfiOHOSPreferencesGetAll. rewrite (with_instance_linked _ _ _ _ _ _ _ Hl). unfold Cj_GetAll.
  rewrite (on_preferences_linked _ _ _ _ _ _ _ Hl). unfold obj_getall. by rewrite (so_bind_Done _ _ _ _ _ E).
Qed.

(** [FfiOHOSPreferencesGetAll] hands out everything or nothing: either
    the answer is null and no memory is kept, which only happens when an
    allocation fails or the object has an empty key or an array with an empty
    string; or the answer has as many entries as the object, each of which
    reads as the entry of the map at this place of the key order (a string
    that is empty or could not be copied has no buffer), and
    [FfiOHOSPreferencesFreeValueTypes] returns the memory to what it was. *)
Theorem cj_GetAll_all_or_nothing (c : Cj) (id : Z) (self : CjPreferences) (r : positive) (p : PreferencesImpl)
    (Hl : cj_linked c id self r p) :
  exists vs c' p', FfiOHOSPreferencesGetAll id c = Done (vs, c') /\ cj_linked c' id self r p' /\ same_map (view p') (view p) /\
    ((vs = ValueTypes0 /\ heap (cj_mem c') = heap (cj_mem c) /\
      (has_bad_entry (view p) \/ exists i, allocates (cj_mem c) i = false)) \/
     (vs_size vs = Z.of_nat (size (view p)) /\ ~ has_bad_entry (view p) /\
      (forall i k v, in_order (view p) !! i = Some (k, v) ->
         (v = VString "" \/ exists j, allocates (cj_mem c) j = false) \/
         cj_read_pair vs i (cj_mem c') = Done ((c_str k, comes_back v), cj_mem c')) /\
      exists m', FfiOHOSPreferencesFreeValueTypes (Some vs) (cj_mem c') = Done (Some ValueTypes0, m') /\
        heap m' = heap (cj_mem c))).
Proof.
  destruct (Cj_GetAll_linked c id self r p Hl) as (h & p' & Hl' & Hv & E). rewrite E. set (c1 := cj_set_hlp h c) in *.
  destruct (all_values (in_order (view p)) (cj_mem c1) (cl_mem _ _ _ _ _ Hl')) as [(k & hd & m' & E2 & Hf & Hb)|(vs & m' & E2 & Hh & Hm & Hwhy)];
    rewrite (so_bind_Done _ _ _ _ _ (cj_on_mem_done _ _ c1 _ E2)).
  - change (negb (E_OK =? E_OK)) with false. eexists _, (cj_set_mem m' c1), p'. split; [reflexivity|]. split; [|split; [done|right]].
    + apply cj_linked_mem; [done|]. destruct Hf as (? & ? & ? & _ & Hmd & _). apply Hmd.
    + cbn [vs_size]. assert (Hlen : length (in_order (view p)) = size (view p)).
      { rewrite (Permutation_length (in_order_perm _)). apply length_map_to_list. }
      split; [by rewrite Hlen|]. split; [exact (in_order_bad _ _ Hb)|]. split.
      * intros i key v Hi. apply (filled_reads (cj_mem c1) k hd (in_order (view p)).*1 (in_order (view p)).*2 m' _ i key v Hf);
          by rewrite list_lookup_fmap, Hi.
      * destruct (filled_freed _ _ _ _ _ _ Hf) as (m2 & E3 & Hh). exists m2. rewrite length_fmap in E3. done.
  - change (negb (E_ERROR =? E_OK)) with true. eexists _, (cj_set_mem m' c1), p'. split; [reflexivity|]. split; [by apply cj_linked_mem|]. split; [done|left].
    split; [done|]. split; [exact Hh|]. destruct Hwhy as [Hw|Hw]; [left; exact (in_order_bad _ _ Hw)|by right].
Qed.

Lemma Cj_Get_linked c id self r p key def d : cj_linked c id self r p -> CheckKey (c_str key) = E_OK ->
  CValueTypeToNativeValue def (cj_mem c) = Done (d, cj_mem c) ->
  exists h p', cj_linked (cj_set_hlp h c) id self r p' /\ same_map (view p') (view p) /\
    FfiOHOSPreferencesGet id (Some key) def c =
      ('(v, err) ← cj_on_mem (NativeValueToCValueType (default d (view p !! c_str key)) E_OK);
       mret (if negb (err =? E_OK) then ValueType0 else v)) (cj_set_hlp h c).
Proof.
  intros Hl Hk Hd.
  destruct (cj_virtual (Get (c_str key) d) RValue (OGet (c_str key) d) (Enh_Get (c_str key) d) c id self r p eq_refl Hl) as (v & h & p' & E & Hl' & Ha & Hv).
  cbn [spec fst] in Ha. rewrite Hk in Ha. injection Ha as ->. exists h, p'. split; [done|]. split; [exact Hv|].
  unfold FfiOHOSPreferencesGet. rewrite (with_instance_linked _ _ _ _ _ _ _ Hl), (so_bind_out (c_arg (Some key)) _ _ _ eq_refl). unfold Cj_Get.
  rewrite (on_preferences_linked _ _ _ _ _ _ _ Hl), (so_bind_Done _ _ _ _ _ (cj_on_mem_same _ _ c Hd)). unfold obj_get.
  by rewrite (so_bind_Done _ _ _ _ _ E).
Qed.

Lemma Cj_Put_linked c id self r p key vt v : cj_linked c id self r p -> CheckKey (c_str key) = E_OK -> CheckValue v = E_OK ->
  CValueTypeToNativeValue vt (cj_mem c) = Done (v, cj_mem c) ->
  exists h p', FfiOHOSPreferencesPut RSIZE_MAX ERR_INVALID_INSTANCE_CODE id (Some key) vt c = Done (E_OK, cj_set_hlp h c) /\
    cj_linked (cj_set_hlp h c) id self r p' /\ same_map (view p') (<[c_str key := v]> (view p)).
Proof.
  intros Hl Hk Hcv Hd.
  destruct (cj_virtual (Put (c_str key) v) RCode (OPut (c_str key) v) (Enh_Put RSIZE_MAX (c_str key) v) c id self r p eq_refl Hl) as (z & h & p' & E & Hl' & Ha & Hv).
  cbn [spec] in Ha, Hv. rewrite Hk, Hcv in Ha, Hv. injection Ha as ->. exists h, p'. split; [|done].
  unfold FfiOHOSPreferencesPut. rewrite (with_instance_linked _ _ _ _ _ _ _ Hl), (so_bind_out (c_arg (Some key)) _ _ _ eq_refl). unfold Cj_Put.
  by rewrite (on_preferences_linked _ _ _ _ _ _ _ Hl), (so_bind_Done _ _ _ _ _ (cj_on_mem_same _ _ c Hd)).
Qed.

Lemma float_to_double_zero b : fp_is_zero 32 b = true -> fp_is_zero 64 (float_to_double b) = true.
Proof.
  unfold fp_is_zero. intros Hb%Z.eqb_eq. apply Z.eqb_eq. unfold float_to_double.
  assert (He : (b / 2 ^ 23) mod 2 ^ 8 = 0).
  { apply Z.mod_divide in Hb as [q ->]; [|lia]. change (2 ^ (32 - 1)) with (2 ^ 8 * 2 ^ 23). rewrite Z.mul_assoc, Z.div_mul by lia.
    by apply Z.mod_mul. }
  assert (Hf : b mod 2 ^ 23 = 0).
  { apply Z.mod_divide in Hb as [q ->]; [|lia]. change (2 ^ (32 - 1)) with (2 ^ 8 * 2 ^ 23). rewrite Z.mul_assoc. by apply Z.mod_mul. }
  rewrite He, Hf. cbn [Z.eqb]. by destruct (2 ^ 31 <=? b).
Qed.

(** Values that compare equal come back as such. *)
Lemma fp_zero_not_nan w mant b : 0 <= (2 ^ (w - 1 - mant) - 1) * 2 ^ mant -> fp_is_zero w b = true -> fp_is_nan w mant b = false.
Proof. unfold fp_is_zero, fp_is_nan. intros Hp Hb%Z.eqb_eq. rewrite Hb. rewrite Z.gtb_ltb. by apply Z.ltb_ge. Qed.

#[export] Instance comes_back_proper : Proper (value_same ==> value_same) comes_back.
Proof.
  intros a b [->|E]; [by left|]. destruct (has_float a) eqn:Hf; [|left; f_equal; by apply value_eqb_eq].
  destruct a; try done; destruct b; try done; cbn [comes_back]; [|by right..].
  cbn [value_eqb] in E. unfold float_eqb, fp_eqb in E. apply andb_true_iff in E as [_ E]. apply orb_true_iff in E as [E|E].
  - apply Z.eqb_eq in E as ->. by left.
  - apply andb_true_iff in E as [E1 E2]. apply float_to_double_zero in E1, E2. right. cbn [value_eqb]. unfold double_eqb, fp_eqb.
    rewrite (fp_zero_not_nan 64 52 _ ltac:(done) E1), (fp_zero_not_nan 64 52 _ ltac:(done) E2), E1, E2. by rewrite orb_true_r.
Qed.

Lemma value_same_eq a b : has_float b = false -> value_same a b -> a = b.
Proof. intros Hf [->|E]; [done|]. rewrite value_eqb_sym in E. symmetry. by apply value_eqb_eq. Qed.

(** What an application puts it gets back: a value that the interface can
    read, with a valid key, is stored under the key up to its first NUL; the
    next [FfiOHOSPreferencesGet] hands out a value that reads as the stored one
    (numbers wider), whatever default it is given, when no allocation fails
    and the value has no empty string; giving it back returns the memory to
    what it was. *)
Theorem cj_put_get (c : Cj) (id : Z) (self : CjPreferences) (r : positive) (p : PreferencesImpl) (key : string)
    (vt def : ValueType) (v d : PreferencesValue)
    (Hl : cj_linked c id self r p) (Hk : CheckKey (c_str key) = E_OK) (Hcv : CheckValue v = E_OK)
    (Hv : CValueTypeToNativeValue vt (cj_mem c) = Done (v, cj_mem c))
    (Hd : CValueTypeToNativeValue def (cj_mem c) = Done (d, cj_mem c))
    (Hgood : bad_value v = false) (Hne : v <> VString "") (Hal : forall i, allocates (cj_mem c) i = true) :
  exists c1 p1 x c2 w x' m', FfiOHOSPreferencesPut RSIZE_MAX ERR_INVALID_INSTANCE_CODE id (Some key) vt c = Done (E_OK, c1) /\
    cj_linked c1 id self r p1 /\ same_map (view p1) (<[c_str key := v]> (view p)) /\
    FfiOHOSPreferencesGet id (Some key) def c1 = Done (x, c2) /\
    CValueTypeToNativeValue x (cj_mem c2) = Done (w, cj_mem c2) /\ value_same w (comes_back v) /\
    FfiOHOSPreferencesFreeValueType (Some x) (cj_mem c2) = Done (Some x', m') /\ heap m' = heap (cj_mem c).
Proof.
  destruct (Cj_Put_linked c id self r p key vt v Hl Hk Hcv Hv) as (h & p1 & E1 & Hl1 & Hv1). set (c1 := cj_set_hlp h c) in *.
  destruct (Cj_Get_linked c1 id self r p1 key def d Hl1 Hk Hd) as (h2 & p2 & Hl2 & Hv2 & E2). set (c2 := cj_set_hlp h2 c1) in *.
  pose proof (Hv1 (c_str key)) as Hsame. rewrite lookup_insert_eq in Hsame. destruct (view p1 !! c_str key) as [w0|]; [|inv Hsame].
  cbn [default] in E2. assert (Hw0 : value_same w0 v) by (by inv Hsame).
  assert (Hgood0 : bad_value w0 = false /\ w0 <> VString "").
  { destruct (has_float v) eqn:Hf; [|by rewrite (value_same_eq _ _ Hf Hw0)]. destruct Hw0 as [->|E]; [done|].
    by destruct w0; try done; destruct v. }
  destruct Hgood0 as [Hg0 Hn0].
  destruct (hand_out w0 (cj_mem c2) (cl_mem _ _ _ _ _ Hl2)) as [(x & f & m' & E3 & Hr & Hmd & _ & Hlost)|(x & m' & E3 & _ & [Hb|[i Hi]])].
  2: by rewrite Hg0 in Hb. 2: by rewrite Hal in Hi.
  rewrite (so_bind_Done _ _ _ _ _ (cj_on_mem_done _ _ c2 _ E3)) in E2. change (negb (E_OK =? E_OK)) with false in E2.
  assert (Hnl : ~ lost x w0) by (intros Hx; destruct (Hlost Hx) as [?|[i Hi]]; [done|by rewrite Hal in Hi]).
  destruct (repr_free x w0 f m' Hr (made_subset _ _ _ Hmd)) as [_ (x' & E4)].
  exists c1, p1, x, (cj_set_mem m' c2), (comes_back w0), x', (set_heap (heap m' ∖ f) m'). split_and!; try done.
  - exact (repr_read x w0 f m' Hr (made_subset _ _ _ Hmd) Hnl).
  - by apply comes_back_proper.
  - exact (made_undone _ _ _ Hmd).
Qed.

(** Empty strings are lost: an entry that is the empty string is handed
    out as a string with a null pointer, and putting this value back is
    undefined behaviour; an entry that is an array with an empty string reads
    as the number 0, and hides all entries from
    [FfiOHOSPreferencesGetAll]. *)
Theorem cj_empty_strings (c : Cj) (id : Z) (self : CjPreferences) (r : positive) (p : PreferencesImpl) (key : string)
    (def : ValueType) (d : PreferencesValue)
    (Hl : cj_linked c id self r p) (Hk : CheckKey (c_str key) = E_OK)
    (Hd : CValueTypeToNativeValue def (cj_mem c) = Done (d, cj_mem c)) :
  (view p !! c_str key = Some (VString "") -> exists x c', FfiOHOSPreferencesGet id (Some key) def c = Done (x, c') /\
     tag x = TYPE_STR /\ string_ x = None /\
     forall k, FfiOHOSPreferencesPut RSIZE_MAX ERR_INVALID_INSTANCE_CODE id (Some k) x c' = Undef) /\
  (forall l, view p !! c_str key = Some (VStringArray l) -> "" ∈ l ->
     (exists c', FfiOHOSPreferencesGet id (Some key) def c = Done (ValueType0, c') /\ heap (cj_mem c') = heap (cj_mem c)) /\
     exists c', FfiOHOSPreferencesGetAll id c = Done (ValueTypes0, c')).
Proof.
  destruct (Cj_Get_linked c id self r p key def d Hl Hk Hd) as (h & p' & Hl' & _ & E). set (c1 := cj_set_hlp h c) in *. split.
  - intros Hv. rewrite Hv in E. cbn [default] in E.
    assert (E2 : NativeValueToCValueType (VString "") E_OK (cj_mem c1) = Done ((mkValueType 0 0 None false CArr0 CArr0 CArr0 TYPE_STR, E_OK), cj_mem c1)) by done.
    rewrite (so_bind_Done _ _ _ _ _ (cj_on_mem_same _ _ c1 E2)) in E. eexists _, c1. split; [exact E|]. split; [done|]. split; [done|].
    intros k. unfold FfiOHOSPreferencesPut. rewrite (with_instance_linked _ _ _ _ _ _ _ Hl'), (so_bind_out (c_arg (Some k)) _ _ _ eq_refl). unfold Cj_Put.
    by rewrite (on_preferences_linked _ _ _ _ _ _ _ Hl').
  - intros l Hv Hin. rewrite Hv in E. cbn [default] in E.
    assert (Hb : existsb bad_string l = true) by (apply existsb_exists; exists ""; by split; [apply list_elem_of_In|]). split.
    + destruct (hand_out (VStringArray l) (cj_mem c1) (cl_mem _ _ _ _ _ Hl')) as [(x & f & m' & _ & _ & _ & Hg & _)|(x & m' & E2 & Hmd & _)].
      { cbn [bad_value] in Hg. congruence. }
      rewrite (so_bind_Done _ _ _ _ _ (cj_on_mem_done _ _ c1 _ E2)) in E. eexists. split; [exact E|]. cbn [cj_mem cj_set_mem].
      rewrite (md_heap _ _ _ Hmd). apply (left_id_L ∅ (∪)).
    + destruct (Cj_GetAll_linked c id self r p Hl) as (h2 & p2 & Hl2 & _ & E2). set (c2 := cj_set_hlp h2 c) in *. rewrite E2.
      destruct (all_values (in_order (view p)) (cj_mem c2) (cl_mem _ _ _ _ _ Hl2)) as [(k & hd & m' & _ & _ & Hg)|(vs & m' & E3 & _)].
      * exfalso. apply (in_order_bad _ _ Hg). exists (c_str key), (VStringArray l). split; [done|]. unfold bad_entry. cbn [fst snd bad_value]. by rewrite Hb, orb_true_r.
      * rewrite (so_bind_Done _ _ _ _ _ (cj_on_mem_done _ _ c2 _ E3)). by eexists.
Qed.

(** *** Observers *)

Lemma register_linked c id self r p o mode z b' : cj_linked c id self r p ->
  (forall e', Impl.quiet (h_env (cj_hlp c)) e' -> RegisterObserver_locked (Some o) mode (set_env e' (base_ p)) = (z, b' e')) ->
  exists e' h, Impl.quiet (h_env (cj_hlp c)) e' /\ cj_on_helper (obj_register r o mode) c = Done (z, cj_set_hlp h c) /\
    h_env h = env (b' e') /\ cj_linked (cj_set_hlp h c) id self r (upd_base (b' e') p).
Proof.
  intros [Hi Ho Hop Hm] Hz.
  destruct (locked_opened "RegisterObserver" (RegisterObserver_locked (Some o) mode) (run_st (e_on_base (RegisterObserver (Some o) mode))) _ _ _ Hop) as (e' & Hq & E).
  rewrite (Hz e' Hq) in E. cbn [fst snd] in E. eexists e', _. split; [done|]. split; [exact (cj_on_helper_done (obj_register r o mode) _ c _ E)|].
  split; [done|]. split; try done. split; [cbn; apply lookup_insert_eq|apply Hop].
Qed.

Lemma unregister_linked c id self r p o mode z b' : cj_linked c id self r p ->
  (forall e', Impl.quiet (h_env (cj_hlp c)) e' -> UnRegisterObserver_locked (Some o) mode (set_env e' (base_ p)) = (z, b' e')) ->
  exists e' h, Impl.quiet (h_env (cj_hlp c)) e' /\ cj_on_helper (obj_unregister r o mode) c = Done (z, cj_set_hlp h c) /\
    h_env h = env (b' e') /\ cj_linked (cj_set_hlp h c) id self r (upd_base (b' e') p).
Proof.
  intros [Hi Ho Hop Hm] Hz.
  destruct (locked_opened "UnRegisterObserver" (UnRegisterObserver_locked (Some o) mode) (run_st (e_on_base (UnRegisterObserver (Some o) mode))) _ _ _ Hop) as (e' & Hq & E).
  rewrite (Hz e' Hq) in E. cbn [fst snd] in E. eexists e', _. split; [done|]. split; [exact (cj_on_helper_done (obj_unregister r o mode) _ c _ E)|].
  split; [done|]. split; try done. split; [cbn; apply lookup_insert_eq|apply Hop].
Qed.

(** The first observer with a callback that no other has. *)
Lemma find_callback_last obs callback l o cr : (forall it, it ∈ l -> exists ob, obs !! it = Some ob /\ m_callback ob <> callback) ->
  obs !! o = Some (mkCJObserver callback cr) -> find_callback obs callback (l ++ [o]) = Done (Some (l, o, [])).
Proof.
  intros Hl Ho. induction l as [|it l IH]; cbn [app find_callback].
  - rewrite Ho. unfold IsSameFunction. cbn [m_callback]. by rewrite Z.eqb_refl.
  - destruct (Hl it ltac:(left)) as (ob & -> & Hne). unfold IsSameFunction. rewrite (proj2 (Z.eqb_neq _ _)) by congruence.
    by rewrite IH by (intros; apply Hl; by right).
Qed.

(** The state with one observer more. *)
Definition with_cj_observer (callback : Z) (c : Cj) : Cj :=
  match make_cj_observer callback callback c with Done (_, c') => c' | _ => c end.

Lemma with_cj_observer_linked callback c id self r p : cj_linked c id self r p -> cj_linked (with_cj_observer callback c) id self r p.
Proof. intros [Hi Ho Hop Hm]. split; [exact Hi|done|by apply opened_alive|exact Hm]. Qed.

Lemma set_instance_linked c id self self' r p : cj_linked c id self r p -> cj_preferences self' = Some r ->
  cj_linked (set_instance id self' c).2 id self' r p.
Proof. intros [Hi Ho Hop Hm] Ho'. split; [apply lookup_insert_eq|done|exact Hop|exact Hm]. Qed.

(** Switching an observer for local changes on. *)
Lemma On_local c id self r p callback : cj_linked c id self r p ->
  exists c1 p1, FfiOHOSPreferencesOn ERR_INVALID_INSTANCE_CODE id (Some "change") callback c = Done (E_OK, c1) /\
    cj_linked c1 id (set_observers LOCAL_CHANGE (cj_localObservers self ++ [cj_next c]) self) r p1 /\
    localObservers_ (base_ p1) = localObservers_ (base_ p) ++ [Some (cj_next c)] /\
    alive (svc (h_env (cj_hlp c1))) = {[cj_next c]} ∪ alive (svc (h_env (cj_hlp c))) /\
    cj_observers c1 = <[cj_next c := mkCJObserver callback callback]> (cj_observers c).
Proof.
  intros Hl. set (o := cj_next c). set (cA := with_cj_observer callback c).
  pose proof (with_cj_observer_linked callback c id self r p Hl) as HlA. fold cA in HlA.
  destruct (register_linked cA id self r p o LOCAL_CHANGE E_OK (fun e' => set_localObservers (localObservers_ (base_ p) ++ [Some o]) (set_env e' (base_ p)))
    HlA ltac:(done)) as (e' & h & [_ Hq] & E & Henv & Hl').
  set (self' := set_observers LOCAL_CHANGE (cj_localObservers self ++ [o]) self).
  exists (set_instance id self' (cj_set_hlp h cA)).2, (upd_base (set_localObservers (localObservers_ (base_ p) ++ [Some o]) (set_env e' (base_ p))) p).
  split; [|split; [|split; [done|split]]].
  - unfold FfiOHOSPreferencesOn. rewrite (with_instance_linked _ _ _ _ _ _ _ Hl), (so_bind_out (c_arg (Some "change")) _ _ _ eq_refl).
    assert (Er : Cj_RegisterObserver self "change" callback callback c = Done ((E_OK, self'), cj_set_hlp h cA)).
    { unfold Cj_RegisterObserver. rewrite (so_bind_Done (make_cj_observer callback callback) _ c o cA) by done.
      rewrite (cl_object _ _ _ _ _ Hl). change (ConvertToRegisterMode "change") with LOCAL_CHANGE. by rewrite (so_bind_Done _ _ _ _ _ E). }
    change (c_str "change") with "change". unfold updating. rewrite (so_bind_Done _ _ _ _ _ Er). by rewrite so_bind_st.
  - apply (set_instance_linked _ _ self); [done|]. apply Hl.
  - cbn [set_instance modify snd cj_hlp cj_set_hlp]. rewrite Henv. cbn [env set_localObservers set_env]. by rewrite Hq.
  - done.
Qed.

(** And off, when it was the last to be switched on. *)
Lemma Off_local c id self r p callback l o : cj_linked c id self r p -> cj_localObservers self = l ++ [o] ->
  (forall it, it ∈ l -> exists ob, cj_observers c !! it = Some ob /\ m_callback ob <> callback) ->
  cj_observers c !! o = Some (mkCJObserver callback callback) ->
  forall bl, localObservers_ (base_ p) = bl ++ [Some o] -> Some o ∉ bl -> all_alive (svc (h_env (cj_hlp c))) (bl ++ [Some o]) ->
  exists c1 p1, FfiOHOSPreferencesOff ERR_INVALID_INSTANCE_CODE id (Some "change") callback c = Done (E_OK, c1) /\
    cj_linked c1 id (set_observers LOCAL_CHANGE l self) r p1 /\ localObservers_ (base_ p1) = bl /\
    alive (svc (h_env (cj_hlp c1))) = alive (svc (h_env (cj_hlp c))) ∖ {[o]}.
Proof.
  intros Hl Hself Hcb Ho bl Hbl Hnew Hal.
  destruct (unregister_linked c id self r p o LOCAL_CHANGE E_OK (fun e' => set_localObservers bl (set_env e' (base_ p))) Hl) as (e' & h & [_ Hq] & E & Henv & Hl').
  { intros e' [_ Hq]. unfold UnRegisterObserver_locked, mbind, st_bind, get, modify, mret, st_ret. cbn [localObservers_ set_env env].
    rewrite Hq. repeat f_equal. rewrite Hbl. pose proof (stops_at_alive _ (Some o) _ Hal) as Hst. rewrite Forall_forall in Hst.
    apply erase_first_snoc.
    - apply Forall_forall. intros x Hx. rewrite Hst by (apply elem_of_app; by left). apply bool_decide_eq_false. by intros ->.
    - rewrite Hst by (apply elem_of_app; right; by left). by apply bool_decide_eq_true. }
  set (self' := set_observers LOCAL_CHANGE l self). set (c2 := cj_set_hlp (map_alive (fun s => s ∖ list_to_set [o]) h) (cj_set_hlp h c)).
  exists (set_instance id self' c2).2, (upd_base (set_localObservers bl (set_env e' (base_ p))) p). split; [|split; [|split; [done|]]].
  - unfold FfiOHOSPreferencesOff. rewrite (with_instance_linked _ _ _ _ _ _ _ Hl), (so_bind_out (c_arg (Some "change")) _ _ _ eq_refl).
    assert (Er : Cj_UnRegisterObserver self "change" callback c = Done ((E_OK, self'), c2)).
    { unfold Cj_UnRegisterObserver. change (ConvertToRegisterMode "change") with LOCAL_CHANGE. rewrite (cl_object _ _ _ _ _ Hl), so_bind_st. cbn [get fst snd].
      change (observers_of LOCAL_CHANGE self) with (cj_localObservers self). rewrite Hself.
      rewrite (so_bind_out _ _ _ _ (find_callback_last _ _ _ _ _ Hcb Ho)), (so_bind_Done _ _ _ _ _ E). cbn [negb Z.eqb E_OK].
      rewrite (so_bind_Done (cj_drop [o]) _ _ tt c2) by done. by rewrite app_nil_r. }
    change (c_str "change") with "change". unfold updating. rewrite (so_bind_Done _ _ _ _ _ Er). by rewrite so_bind_st.
  - apply (set_instance_linked _ _ self); [|apply Hl]. destruct Hl' as [Hi2 Ho2 Hop2 Hm2]. split; [exact Hi2|done|by apply opened_alive|exact Hm2].
  - cbn [set_instance modify snd cj_hlp cj_set_hlp c2]. unfold map_alive. cbn [h_env h_set_env svc alive]. rewrite Henv. cbn [env set_localObservers set_env].
    rewrite Hq. set_solver.
Qed.

Lemma set_observers_back l self : set_observers LOCAL_CHANGE (cj_localObservers self) (set_observers LOCAL_CHANGE l self) = self.
Proof. by destruct self. Qed.

(** An observer for local changes switched on is registered with the
    object and alive, and switched off again with the same callback it is
    unregistered and destroyed, and the instance, the registry of the object
    and the observers alive are as they were before. *)
Theorem cj_observer_on_off (c : Cj) (id : Z) (self : CjPreferences) (r : positive) (p : PreferencesImpl) (callback : Z)
    (Hl : cj_linked c id self r p)
    (Hcb : forall it, it ∈ cj_localObservers self -> exists ob, cj_observers c !! it = Some ob /\ m_callback ob <> callback)
    (Hnext : cj_observers c !! cj_next c = None) (Hdead : cj_next c ∉ alive (svc (h_env (cj_hlp c))))
    (Hal : all_alive (svc (h_env (cj_hlp c))) (localObservers_ (base_ p))) :
  exists c1 self1 p1 c2 p2,
    FfiOHOSPreferencesOn ERR_INVALID_INSTANCE_CODE id (Some "change") callback c = Done (E_OK, c1) /\ cj_linked c1 id self1 r p1 /\
    localObservers_ (base_ p1) = localObservers_ (base_ p) ++ [Some (cj_next c)] /\ (cj_next c ∈ alive (svc (h_env (cj_hlp c1)))) /\
    FfiOHOSPreferencesOff ERR_INVALID_INSTANCE_CODE id (Some "change") callback c1 = Done (E_OK, c2) /\ cj_linked c2 id self r p2 /\
    localObservers_ (base_ p2) = localObservers_ (base_ p) /\
    alive (svc (h_env (cj_hlp c2))) = alive (svc (h_env (cj_hlp c))).
Proof.
  destruct (On_local c id self r p callback Hl) as (c1 & p1 & E1 & Hl1 & Hb1 & Ha1 & Ho1).
  set (self1 := set_observers LOCAL_CHANGE (cj_localObservers self ++ [cj_next c]) self) in *.
  destruct (Off_local c1 id self1 r p1 callback (cj_localObservers self) (cj_next c) Hl1 eq_refl) with (bl := localObservers_ (base_ p))
    as (c2 & p2 & E2 & Hl2 & Hb2 & Ha2); [|by rewrite Ho1, lookup_insert_eq|done|..].
  - intros it Hit. destruct (Hcb it Hit) as (ob & Hob & Hne). exists ob. split; [|done].
    rewrite Ho1, lookup_insert_ne; [done|]. intros <-. by rewrite Hnext in Hob.
  - intros Hin. unfold all_alive in Hal. rewrite Forall_forall in Hal. by destruct (Hal _ Hin) as (q & [= <-] & Hq).
  - apply Forall_app_2; [apply (all_alive_mono (svc (h_env (cj_hlp c)))); [set_solver|done]|].
    apply Forall_singleton. exists (cj_next c). split; [done|set_solver].
  - exists c1, self1, p1, c2, p2. unfold self1 in Hl2. rewrite set_observers_back in Hl2.
    split_and!; [done..|rewrite Ha1; set_solver|done|done|done|rewrite Ha2, Ha1; set_solver].
Qed.
End instance_facts.

(** *** A concrete instance *)

#[export] Instance ref_ffi_data : FFIData := {| NewID t := Some (fresh ({[0]} ∪ dom t : gset Z)) |}.

#[export] Instance ref_ffi_data_laws : FFIDataLaws.
Proof.
  split. intros t id [= <-]. pose proof (is_fresh ({[0]} ∪ dom t : gset Z)) as Hf. split.
  - apply not_elem_of_dom. set_solver.
  - intros E. rewrite E in Hf. set_solver.
Qed.

(** The instance 1 over the object 2, which holds [vals]. *)
Definition w_cj_prefs (vals : gmap string PreferencesValue) : PreferencesImpl :=
  upd_cache ∅ false vals (upd_load true false true (PreferencesImpl_new w_options (w_env "" (fun _ => SysOk)))).

Definition w_cj (vals : gmap string PreferencesValue) (allocs : nat -> bool) : Cj :=
  mkCj (mkCMem ∅ 1 0 allocs) (h_set_objects {[2%positive := PXml (w_cj_prefs vals)]} (w_helper "")) {[1 := mkCjPreferences (Some 2%positive) [] []]} ∅ 9.

Lemma w_cj_mem_ok allocs : mem_ok (mkCMem ∅ 1 0 allocs).
Proof. intros r Hr. apply lookup_empty. Qed.

Lemma w_cj_linked vals allocs : cj_linked (w_cj vals allocs) 1 (mkCjPreferences (Some 2%positive) [] []) 2 (w_cj_prefs vals).
Proof. split; [done|done|by split|apply w_cj_mem_ok]. Qed.

Lemma not_some_allocation : ~ exists i : nat, true = false.
Proof. by intros [? ?]. Qed.

Lemma in_order_singleton k v : in_order {[k := v]} = [(k, v)].
Proof. apply Permutation_singleton_r. rewrite in_order_perm. by rewrite map_to_list_singleton. Qed.

Example cj_value_roundtrip_witness :
  exists c m1, NativeValueToCValueType (VStringArray ["a"; "b"]) E_OK (mkCMem ∅ 1 0 (fun _ => true)) = Done ((c, E_OK), m1) /\
    CValueTypeToNativeValue c m1 = Done (VStringArray ["a"; "b"], m1).
Proof.
  destruct (cj_value_roundtrip (mkCMem ∅ 1 0 (fun _ => true)) (VStringArray ["a"; "b"]) (w_cj_mem_ok _))
    as (c & code & m1 & E & [(-> & _ & Er & Hl & _)|(_ & _ & [Hb|Ha])]); [|done|by destruct (not_some_allocation Ha)].
  exists c, m1. split; [exact E|]. rewrite decide_False in Er; [exact Er|]. by intros [? [? ?]].
Defined.

Example cj_GetAll_all_or_nothing_witness :
  exists vs c', FfiOHOSPreferencesGetAll 1 (w_cj {["k" := VInt 7]} (fun _ => true)) = Done (vs, c') /\
    vs_size vs = 1 /\ cj_read_pair vs 0 (cj_mem c') = Done (("k", VLong 7), cj_mem c').
Proof.
  destruct (cj_GetAll_all_or_nothing (w_cj {["k" := VInt 7]} (fun _ => true)) 1 _ 2 _ (w_cj_linked _ _))
    as (vs & c' & p' & E & _ & _ & [(_ & _ & [(k & v & Hk & Hb)|Ha])|(Hs & _ & Hr & _)]).
  - exfalso. change (({["k" := VInt 7]} : gmap string PreferencesValue) !! k = Some v) in Hk. apply lookup_singleton_Some in Hk as [<- <-]. done.
  - by destruct (not_some_allocation Ha).
  - exists vs, c'. split; [exact E|]. split; [exact Hs|].
    destruct (Hr 0%nat "k" (VInt 7)) as [[?|Ha]|Er]; [|done|by destruct (not_some_allocation Ha)|exact Er].
    change (view (w_cj_prefs {["k" := VInt 7]})) with ({["k" := VInt 7]} : gmap string PreferencesValue). by rewrite in_order_singleton.
Defined.

Example cj_put_get_witness :
  exists c1 x c2, FfiOHOSPreferencesPut 100 0 1 (Some "k") (mkValueType 5 0 None false CArr0 CArr0 CArr0 TYPE_INT) (w_cj ∅ (fun _ => true)) = Done (E_OK, c1) /\
    FfiOHOSPreferencesGet 1 (Some "k") (mkValueType 9 0 None false CArr0 CArr0 CArr0 TYPE_INT) c1 = Done (x, c2) /\
    CValueTypeToNativeValue x (cj_mem c2) = Done (VLong 5, cj_mem c2).
Proof.
  destruct (cj_put_get 100 0 (w_cj ∅ (fun _ => true)) 1 _ 2 _ "k" (mkValueType 5 0 None false CArr0 CArr0 CArr0 TYPE_INT)
    (mkValueType 9 0 None false CArr0 CArr0 CArr0 TYPE_INT) (VLong 5) (VLong 9) (w_cj_linked _ _) eq_refl eq_refl eq_refl eq_refl eq_refl
    ltac:(done) (fun _ => eq_refl)) as (c1 & p1 & x & c2 & w & x' & m' & E1 & _ & _ & E2 & Er & Hw & _).
  exists c1, x, c2. split; [exact E1|]. split; [exact E2|]. by rewrite <- (value_same_eq w (VLong 5) eq_refl Hw).
Defined.

Example cj_empty_strings_witness :
  (exists x c', FfiOHOSPreferencesGet 1 (Some "k") (mkValueType 9 0 None false CArr0 CArr0 CArr0 TYPE_INT) (w_cj {["k" := VString ""]} (fun _ => true)) = Done (x, c') /\
    FfiOHOSPreferencesPut 100 0 1 (Some "k") x c' = Undef) /\
  (exists c', FfiOHOSPreferencesGetAll 1 (w_cj {["k" := VStringArray ["a"; ""]]} (fun _ => true)) = Done (ValueTypes0, c')).
Proof.
  split.
  - destruct (cj_empty_strings 100 0 (w_cj {["k" := VString ""]} (fun _ => true)) 1 _ 2 _ "k" (mkValueType 9 0 None false CArr0 CArr0 CArr0 TYPE_INT) (VLong 9)
      (w_cj_linked _ _) eq_refl eq_refl) as [Hs _]. destruct (Hs eq_refl) as (x & c' & E & _ & _ & Hput). exists x, c'. split; [exact E|apply Hput].
  - destruct (cj_empty_strings 100 0 (w_cj {["k" := VStringArray ["a"; ""]]} (fun _ => true)) 1 _ 2 _ "k" (mkValueType 9 0 None false CArr0 CArr0 CArr0 TYPE_INT) (VLong 9)
      (w_cj_linked _ _) eq_refl eq_refl) as [_ Ha]. destruct (Ha ["a"; ""] eq_refl) as [_ (c' & E)]; [by right; left|]. exists c'. exact E.
Defined.

Example cj_observer_on_off_witness :
  exists c1 c2, FfiOHOSPreferencesOn 0 1 (Some "change") 8 (w_cj ∅ (fun _ => true)) = Done (E_OK, c1) /\ (9%positive ∈ alive (svc (h_env (cj_hlp c1)))) /\
    FfiOHOSPreferencesOff 0 1 (Some "change") 8 c1 = Done (E_OK, c2) /\ alive (svc (h_env (cj_hlp c2))) = alive witness_services.
Proof.
  destruct (cj_observer_on_off 0 (w_cj ∅ (fun _ => true)) 1 _ 2 _ 8 (w_cj_linked _ _)) as (c1 & self1 & p1 & c2 & p2 & E1 & _ & _ & Hin & E2 & _ & _ & Ha).
  - intros it Hit. by apply not_elem_of_nil in Hit.
  - done.
  - intros Hin. change (9%positive ∈ alive witness_services) in Hin. by vm_compute in Hin.
  - constructor.
  - exists c1, c2. split; [exact E1|]. split; [exact Hin|]. split; [exact E2|exact Ha].
Defined.
