(* ===== verification/JsValue.v ===== *)
(** * Values between JavaScript and the store

    Models [js_common_utils.cpp] and [js_common_utils.h] of [frameworks/js].
    The JavaScript engine is behind the class [Napi]: its values are a type,
    and a function of the engine gives [None] where it answers another status
    than [napi_ok].  The contents of an object do not change during a call. *)

From S2P Require Import Prelude Errno Value Utils.

(** ** The engine *)

Inductive napi_valuetype :=
  | napi_undefined | napi_null | napi_boolean | napi_number | napi_string
  | napi_symbol | napi_object | napi_function | napi_external | napi_bigint.

#[export] Instance napi_valuetype_eq_dec : EqDecision napi_valuetype.
Proof. solve_decision. Defined.

Definition napi_ok : Z := 0.
Definition napi_invalid_arg : Z := 1.

(** A null [napi_value] is [None].  [json_stringify] and [json_parse] call the
    functions of the global object [JSON]. *)
Class Napi := {
  napi_value : Type;
  napi_typeof : napi_value -> napi_valuetype;
  napi_get_value_string_utf8 : napi_value -> option string;
  napi_get_value_bool : napi_value -> option bool;
  napi_get_value_double : napi_value -> option Z;
  napi_get_value_int32 : napi_value -> option Z;
  napi_is_array : napi_value -> bool;
  napi_get_elements : napi_value -> list napi_value;
  napi_is_typedarray : napi_value -> bool;
  napi_get_typedarray_info : napi_value -> Z + bool * list Z;   (** whether its elements are [uint8_t], its bytes *)
  napi_get_value_bigint_words : napi_value -> Z + Z * list Z;
  napi_has_named_property : napi_value -> string -> option bool;
  napi_get_named_property : napi_value -> string -> option napi_value;
  napi_strict_equals : napi_value -> napi_value -> bool;
  json_stringify : napi_value -> Z + napi_value;
  json_parse : bool -> napi_value -> option napi_value;
  napi_get_null : napi_value;
  napi_get_undefined : napi_value;
  napi_get_boolean : bool -> option napi_value;
  napi_create_int32 : Z -> option napi_value;
  napi_create_uint32 : Z -> option napi_value;
  napi_create_int64 : Z -> option napi_value;
  napi_create_double : Z -> option napi_value;
  napi_create_string_utf8 : string -> option napi_value;
  napi_create_array : list (option napi_value) -> option napi_value;
  napi_create_uint8array : list Z -> option napi_value;
  napi_create_bigint_words : Z -> list Z -> option napi_value;
  napi_create_sendable_array : list (option napi_value) -> option napi_value;
  napi_create_sendable_uint8array : list Z -> option napi_value;
  napi_create_object_with_properties : list (string * option napi_value) -> napi_value;
  napi_define_properties : list (string * option napi_value) -> napi_value;      (** of a new object *)
  napi_create_sendable_object_with_properties : list (string * option napi_value) -> napi_value;
  napi_new_instance : positive -> option napi_value;     (** an object that wraps a native object *)
  napi_unwrap : napi_value -> option positive;
  napi_is_sendable : napi_value -> bool;
  napi_new_sendable_instance : positive -> option napi_value;
  napi_unwrap_sendable : napi_value -> option positive;
  napi_malloc : Z -> bool;          (** whether [malloc] or [new] gives so many bytes *)
  napi_copy_string_utf8 : napi_value -> Z -> option string;   (** what is put into a buffer of so many bytes, less the NUL *)
  uninit_sign : Z                   (** what an uninitialised [int] holds *)
}.

(** ** Results

    The code and the value that was written: [inr] is [napi_ok]. *)

Definition JS_OK : Z := 0.
Definition JS_ERR : Z := -1.
(** [preferences_error.h:29-29] EXCEED_MAX_LENGTH *)
Definition EXCEED_MAX_LENGTH : Z := -2.
(** [preferences_error.h:30-30] NAPI_TYPE_ERROR *)
Definition NAPI_TYPE_ERROR : Z := -3.

Section JsValue.
Context `{Napi}.

(** ** From JavaScript *)

(** [js_common_utils.cpp:28-54] Convert2NativeValue *)
Definition Native_string (jsValue : napi_value) : Z + string :=
  match napi_get_value_string_utf8 jsValue with
  | None => inl NAPI_TYPE_ERROR
  | Some s =>
      if MAX_VALUE_LENGTH <? slen s then inl EXCEED_MAX_LENGTH
      else if negb (napi_malloc (slen s + 1)) then inl JS_ERR
      else inr (c_str s)
  end.

(** [js_common_utils.cpp:56-66] Convert2NativeValue *)
Definition Native_bool (jsValue : napi_value) : Z + bool :=
  match napi_get_value_bool jsValue with None => inl NAPI_TYPE_ERROR | Some b => inr b end.

(** [js_common_utils.cpp:68-78] Convert2NativeValue *)
Definition Native_double (jsValue : napi_value) : Z + Z :=
  match napi_get_value_double jsValue with None => inl NAPI_TYPE_ERROR | Some d => inr d end.

(** For [float], [int32_t], [int64_t] and [std::monostate].

    [js_common_utils.cpp:80-96] Convert2NativeValue *)
Definition Native_none {A} (jsValue : napi_value) : Z + A := inl NAPI_TYPE_ERROR.

(** [js_common_utils.cpp:98-128] Convert2NativeValue *)
Definition Native_uint8s (jsValue : napi_value) : Z + list Z :=
  if negb (napi_is_typedarray jsValue) then inl NAPI_TYPE_ERROR else
  match napi_get_typedarray_info jsValue with
  | inl result => inl result
  | inr (is_uint8, data) =>
      if negb is_uint8 then inl NAPI_TYPE_ERROR
      else if MAX_VALUE_LENGTH <? Z.of_nat (length data) then inl EXCEED_MAX_LENGTH
      else inr data
  end.

(** [js_common_utils.cpp:310-326] JsonStringify *)
Definition JsonStringify (value : napi_value) : Z + napi_value := json_stringify value.

(** [js_common_utils.cpp:130-142] Convert2NativeValue *)
Definition Native_Object (jsValue : napi_value) : Z + Object :=
  if negb (bool_decide (napi_typeof jsValue = napi_object)) then inl NAPI_TYPE_ERROR
  else match JsonStringify jsValue with
       | inl status => inl status
       | inr jsonStr => match Native_string jsonStr with inl e => inl e | inr s => inr (mkObject s) end
       end.

(** Without words the sign keeps what it held.

    [js_common_utils.cpp:144-163] Convert2NativeValue *)
Definition Native_BigInt (jsValue : napi_value) : Z + BigInt :=
  if negb (bool_decide (napi_typeof jsValue = napi_bigint)) then inl NAPI_TYPE_ERROR
  else match napi_get_value_bigint_words jsValue with
       | inl status => inl status
       | inr (sign, words) =>
           inr (if (length words =? 0)%nat then mkBigInt [] uninit_sign else mkBigInt words sign)
       end.

Fixpoint Native_elements {A} (conv : napi_value -> Z + A) (l : list napi_value) : Z + list A :=
  match l with
  | [] => inr []
  | element :: l =>
      match conv element with
      | inl status => inl status
      | inr item => match Native_elements conv l with inl status => inl status | inr value => inr (item :: value) end
      end
  end.

(** [js_common_utils.h:128-153] Convert2NativeValue *)
Definition Native_vector {A} (conv : napi_value -> Z + A) (jsValue : napi_value) : Z + list A :=
  if negb (napi_is_array jsValue) then inl NAPI_TYPE_ERROR else Native_elements conv (napi_get_elements jsValue).

(** One alternative of the variant, then the others.

    [js_common_utils.h:102-111] GetCPPValue *)
Definition GetCPPValue {A} (conv : napi_value -> Z + A) (wrap : A -> PreferencesValue) (jsValue : napi_value)
    (others : Z + PreferencesValue) : Z + PreferencesValue :=
  match conv jsValue with
  | inr a => inr (wrap a)
  | inl ret => if ret =? NAPI_TYPE_ERROR then others else inl ret
  end.

(** The alternatives in the order of the variant.

    [js_common_utils.h:155-159] Convert2NativeValue *)
Definition Native_variant (jsValue : napi_value) : Z + PreferencesValue :=
  GetCPPValue (@Native_none unit) (fun _ => VMonostate) jsValue (
  GetCPPValue Native_none VInt jsValue (
  GetCPPValue Native_none VLong jsValue (
  GetCPPValue Native_none VFloat jsValue (
  GetCPPValue Native_double VDouble jsValue (
  GetCPPValue Native_bool VBool jsValue (
  GetCPPValue Native_string VString jsValue (
  GetCPPValue (Native_vector Native_string) VStringArray jsValue (
  GetCPPValue (Native_vector Native_bool) VBoolArray jsValue (
  GetCPPValue (Native_vector Native_double) VDoubleArray jsValue (
  GetCPPValue Native_uint8s VUint8Array jsValue (
  GetCPPValue Native_Object VObject jsValue (
  GetCPPValue Native_BigInt VBigInt jsValue (
  GetCPPValue (Native_vector Native_none) VIntArray jsValue (
  GetCPPValue (Native_vector Native_none) VInt64Array jsValue (
  inl napi_invalid_arg))))))))))))))).

(** [js_common_utils.cpp:170-182] Equals *)
Definition Equals (value : option napi_value) (copy : option napi_value) : bool :=
  match copy with
  | None => match value with None => true | Some _ => false end
  | Some copyValue => match value with Some v => napi_strict_equals v copyValue | None => false end
  end.

(** ** To JavaScript *)

(** [js_common_utils.cpp:328-352] JsonParse *)
Definition JsonParse (inStr : string) (sendable : bool) : option napi_value :=
  if bool_decide (inStr = "") then None
  else match napi_create_string_utf8 inStr with
       | None => None
       | Some jsValue => json_parse sendable jsValue
       end.

(** [js_common_utils.h:161-173] Convert2JSValue *)
Definition JS_vector {A} (conv : A -> option napi_value) (value : list A) : option napi_value :=
  napi_create_array (map conv value).

(** [js_common_utils.cpp:244-264] Convert2JSValue *)
Definition JS_uint8s (value : list Z) : option napi_value := napi_create_uint8array value.

(** [js_common_utils.cpp:285-294] Convert2JSValue *)
Definition JS_BigInt (value : BigInt) : option napi_value := napi_create_bigint_words (sign_ value) (words_ value).

(** [js_common_utils.h:118-125] GetJSValue *)
Definition JS_variant (value : PreferencesValue) : option napi_value :=
  match value with
  | VMonostate => Some napi_get_null
  | VInt v => napi_create_int32 v
  | VLong v => napi_create_int64 v
  | VFloat b => napi_create_double (float_to_double b)
  | VDouble b => napi_create_double b
  | VBool b => napi_get_boolean b
  | VString s => napi_create_string_utf8 s
  | VStringArray l => JS_vector napi_create_string_utf8 l
  | VBoolArray l => JS_vector napi_get_boolean l
  | VDoubleArray l => JS_vector napi_create_double l
  | VUint8Array l => JS_uint8s l
  | VObject o => JsonParse (valueStr o) false
  | VBigInt b => JS_BigInt b
  | VIntArray l => JS_vector napi_create_int32 l
  | VInt64Array l => JS_vector napi_create_int64 l
  end.

(** *** For sendable objects *)

(** [js_sendable_utils.h:116-141] ConvertFromSendable *)
Definition FromSendable_vector {A} (conv : napi_value -> Z + A) (jsValue : napi_value) : Z + list A := Native_vector conv jsValue.

(** The conversions of the alternatives are those for other objects.

    [js_sendable_utils.h:88-97] GetCPPValue *)
Definition FromSendable_variant (jsValue : napi_value) : Z + PreferencesValue := Native_variant jsValue.

(** [js_sendable_utils.h:150-163] ConvertToSendable *)
Definition Sendable_vector {A} (conv : A -> option napi_value) (value : list A) : option napi_value :=
  napi_create_sendable_array (map conv value).

(** [js_sendable_utils.cpp:106-126] ConvertToSendable *)
Definition Sendable_uint8s (value : list Z) : option napi_value := napi_create_sendable_uint8array value.

(** [js_sendable_utils.cpp:133-140] ConvertToSendable *)
Definition Sendable_Object (value : Object) : option napi_value := JsonParse (valueStr value) true.

(** [js_sendable_utils.h:105-113] GetSendableValue *)
Definition Sendable_variant (value : PreferencesValue) : option napi_value :=
  match value with
  | VStringArray l => Sendable_vector napi_create_string_utf8 l
  | VBoolArray l => Sendable_vector napi_get_boolean l
  | VDoubleArray l => Sendable_vector napi_create_double l
  | VUint8Array l => Sendable_uint8s l
  | VObject o => Sendable_Object o
  | VIntArray l => Sendable_vector napi_create_int32 l
  | VInt64Array l => Sendable_vector napi_create_int64 l
  | _ => JS_variant value
  end.
End JsValue.

(** ** What the engine is documented to do

    [number_of] is the number that an integer becomes, [utf8] says which byte
    strings are texts, which the engine keeps as they are. *)
Class NapiLaws `{Napi} := {
  number_of : Z -> Z;
  utf8 : string -> bool;
  string_typeof v : is_Some (napi_get_value_string_utf8 v) <-> napi_typeof v = napi_string;
  bool_typeof v : is_Some (napi_get_value_bool v) <-> napi_typeof v = napi_boolean;
  double_typeof v : is_Some (napi_get_value_double v) <-> napi_typeof v = napi_number;
  array_typeof v : napi_is_array v = true -> napi_typeof v = napi_object;
  typedarray_typeof v : napi_is_typedarray v = true -> napi_typeof v = napi_object /\ napi_is_array v = false;
  undefined_typeof : napi_typeof napi_get_undefined = napi_undefined;
  created_string s v : utf8 s = true -> napi_create_string_utf8 s = Some v -> napi_get_value_string_utf8 v = Some s;
  created_bool b v : napi_get_boolean b = Some v -> napi_get_value_bool v = Some b;
  created_double d v : fp_is_nan 64 52 d = false -> napi_create_double d = Some v -> napi_get_value_double v = Some d;
  created_int32 z v : napi_create_int32 z = Some v -> napi_get_value_double v = Some (number_of z);
  created_int64 z v : napi_create_int64 z = Some v -> napi_get_value_double v = Some (number_of z);
  created_array l v : napi_create_array l = Some v -> napi_is_array v = true /\ napi_get_elements v = map (default napi_get_undefined) l;
  created_uint8array l v : napi_create_uint8array l = Some v -> napi_is_typedarray v = true /\ napi_get_typedarray_info v = inr (true, l);
  copied_string v s n : napi_get_value_string_utf8 v = Some s -> slen s < n -> napi_copy_string_utf8 v n = Some s;
  created_instance p v : napi_new_instance p = Some v -> napi_unwrap v = Some p;
  created_bigint sign words v : napi_create_bigint_words sign words = Some v ->
    napi_typeof v = napi_bigint /\
    (last words <> Some 0 -> napi_get_value_bigint_words v = inr (if sign =? 0 then 0 else 1, words))
}.

(** ** What is stored *)

Section facts.
Context `{NapiLaws}.

(** A converter that refuses a value. *)
Lemma Native_string_other v : napi_typeof v <> napi_string -> Native_string v = inl NAPI_TYPE_ERROR.
Proof.
  intros Ht. unfold Native_string. destruct (napi_get_value_string_utf8 v) eqn:E; [|done].
  destruct Ht. apply string_typeof. by eexists.
Qed.

Lemma Native_bool_other v : napi_typeof v <> napi_boolean -> Native_bool v = inl NAPI_TYPE_ERROR.
Proof.
  intros Ht. unfold Native_bool. destruct (napi_get_value_bool v) eqn:E; [|done]. destruct Ht. apply bool_typeof. by eexists.
Qed.

Lemma Native_double_other v : napi_typeof v <> napi_number -> Native_double v = inl NAPI_TYPE_ERROR.
Proof.
  intros Ht. unfold Native_double. destruct (napi_get_value_double v) eqn:E; [|done]. destruct Ht. apply double_typeof. by eexists.
Qed.

Lemma Native_vector_other {A} (conv : napi_value -> Z + A) v : napi_is_array v = false -> Native_vector conv v = inl NAPI_TYPE_ERROR.
Proof. intros E. unfold Native_vector. by rewrite E. Qed.

Lemma Native_uint8s_other v : napi_is_typedarray v = false -> Native_uint8s v = inl NAPI_TYPE_ERROR.
Proof. intros E. unfold Native_uint8s. by rewrite E. Qed.

Lemma Native_Object_other v : napi_typeof v <> napi_object -> Native_Object v = inl NAPI_TYPE_ERROR.
Proof. intros Ht. unfold Native_Object. by rewrite bool_decide_false. Qed.

Lemma Native_BigInt_other v : napi_typeof v <> napi_bigint -> Native_BigInt v = inl NAPI_TYPE_ERROR.
Proof. intros Ht. unfold Native_BigInt. by rewrite bool_decide_false. Qed.

Lemma GetCPPValue_refused {A} (conv : napi_value -> Z + A) wrap v others : conv v = inl NAPI_TYPE_ERROR -> GetCPPValue conv wrap v others = others.
Proof. intros E. unfold GetCPPValue. by rewrite E. Qed.

Lemma GetCPPValue_taken {A} (conv : napi_value -> Z + A) wrap v a others : conv v = inr a -> GetCPPValue conv wrap v others = inr (wrap a).
Proof. intros E. unfold GetCPPValue. by rewrite E. Qed.

Lemma GetCPPValue_failed {A} (conv : napi_value -> Z + A) wrap v ret others : conv v = inl ret -> ret <> NAPI_TYPE_ERROR -> GetCPPValue conv wrap v others = inl ret.
Proof. intros E Hr. unfold GetCPPValue. rewrite E. by rewrite (proj2 (Z.eqb_neq _ _)). Qed.

Lemma not_array v : napi_typeof v <> napi_object -> napi_is_array v = false.
Proof. intros Ht. destruct (napi_is_array v) eqn:E; [|done]. by destruct Ht; apply array_typeof. Qed.

Lemma not_typedarray v : napi_typeof v <> napi_object \/ napi_is_array v = true -> napi_is_typedarray v = false.
Proof. intros Ht. destruct (napi_is_typedarray v) eqn:E; [|done]. apply typedarray_typeof in E as [E1 E2]. destruct Ht; congruence. Qed.

(** The next alternative refuses the value. *)
Ltac refused :=
  rewrite GetCPPValue_refused by
    first [ reflexivity
          | apply Native_string_other; congruence | apply Native_bool_other; congruence | apply Native_double_other; congruence
          | apply Native_vector_other; (assumption || (apply not_array; congruence))
          | apply Native_uint8s_other, not_typedarray; (right; assumption) || (left; congruence)
          | apply Native_Object_other; congruence | apply Native_BigInt_other; congruence ].

(** A text that is not too long, and can be read. *)
Definition readable (v : napi_value) (s : string) : Prop :=
  napi_get_value_string_utf8 v = Some s /\ slen s <= MAX_VALUE_LENGTH /\ napi_malloc (slen s + 1) = true.

Lemma readable_string v s : readable v s -> Native_string v = inr (c_str s).
Proof. intros (E & Hl & Hm). unfold Native_string. by rewrite E, (proj2 (Z.ltb_ge _ _) Hl), Hm. Qed.

Lemma readable_typeof v s : readable v s -> napi_typeof v = napi_string.
Proof. intros (E & _). apply string_typeof. by eexists. Qed.

Lemma Native_elements_all {A} (conv : napi_value -> Z + A) l a : Forall2 (fun v x => conv v = inr x) l a -> Native_elements conv l = inr a.
Proof. induction 1 as [|v x l a Hv _ IH]; [done|]. cbn [Native_elements]. by rewrite Hv, IH. Qed.

(** The first element that is not converted decides. *)
Lemma Native_elements_refused {A} (conv : napi_value -> Z + A) l v : v ∈ l ->
  (forall u, u ∈ l -> conv u = inl NAPI_TYPE_ERROR \/ exists a, conv u = inr a) -> conv v = inl NAPI_TYPE_ERROR ->
  Native_elements conv l = inl NAPI_TYPE_ERROR.
Proof.
  induction l as [|u l IH]; intros Hin Hall Hv; [by apply not_elem_of_nil in Hin|]. cbn [Native_elements].
  destruct (Hall u ltac:(left)) as [->|[a Ha]]; [done|]. rewrite Ha. apply elem_of_cons in Hin as [->|Hin]; [congruence|].
  rewrite IH; [done|done| |done]. intros w Hw. apply Hall. by right.
Qed.

Lemma Native_vector_all {A} (conv : napi_value -> Z + A) v a : napi_is_array v = true ->
  Forall2 (fun v x => conv v = inr x) (napi_get_elements v) a -> Native_vector conv v = inr a.
Proof. intros E Ha. unfold Native_vector. rewrite E. by apply Native_elements_all. Qed.

Lemma Native_vector_refused {A} (conv : napi_value -> Z + A) v u : napi_is_array v = true -> u ∈ napi_get_elements v ->
  (forall w, w ∈ napi_get_elements v -> conv w = inl NAPI_TYPE_ERROR \/ exists a, conv w = inr a) -> conv u = inl NAPI_TYPE_ERROR ->
  Native_vector conv v = inl NAPI_TYPE_ERROR.
Proof. intros E Hu Hall Hr. unfold Native_vector. rewrite E. by eapply Native_elements_refused. Qed.

(** No string in it is too long. *)
Definition strings_readable (v : napi_value) : Prop :=
  forall u, u ∈ napi_get_elements v -> napi_typeof u = napi_string -> exists s, readable u s.

Lemma strings_tried v : strings_readable v -> forall w, w ∈ napi_get_elements v -> Native_string w = inl NAPI_TYPE_ERROR \/ exists a, Native_string w = inr a.
Proof.
  intros Hs w Hw. destruct (decide (napi_typeof w = napi_string)) as [Ht|Ht]; [|left; by apply Native_string_other].
  right. destruct (Hs w Hw Ht) as [s Hr]. eexists. by apply readable_string.
Qed.

Lemma bools_tried w : Native_bool w = inl NAPI_TYPE_ERROR \/ exists a, Native_bool w = inr a.
Proof. unfold Native_bool. destruct (napi_get_value_bool w); [right; by eexists|by left]. Qed.

Lemma doubles_tried w : Native_double w = inl NAPI_TYPE_ERROR \/ exists a, Native_double w = inr a.
Proof. unfold Native_double. destruct (napi_get_value_double w); [right; by eexists|by left]. Qed.

(** The elements do not all have the type. *)
Definition not_all (t : napi_valuetype) (v : napi_value) : Prop := exists u, u ∈ napi_get_elements v /\ napi_typeof u <> t.

Lemma strings_refused v : napi_is_array v = true -> strings_readable v -> not_all napi_string v -> Native_vector Native_string v = inl NAPI_TYPE_ERROR.
Proof. intros E Hs (u & Hu & Ht). eapply Native_vector_refused; [done|done|by apply strings_tried|by apply Native_string_other]. Qed.

Lemma bools_refused v : napi_is_array v = true -> not_all napi_boolean v -> Native_vector Native_bool v = inl NAPI_TYPE_ERROR.
Proof. intros E (u & Hu & Ht). eapply Native_vector_refused; [done|done|intros; apply bools_tried|by apply Native_bool_other]. Qed.

Lemma doubles_refused v : napi_is_array v = true -> not_all napi_number v -> Native_vector Native_double v = inl NAPI_TYPE_ERROR.
Proof. intros E (u & Hu & Ht). eapply Native_vector_refused; [done|done|intros; apply doubles_tried|by apply Native_double_other]. Qed.

Lemma variant_string v : forall s, readable v s -> Native_variant v = inr (VString (c_str s)).
Proof.
  unfold Native_variant. intros s Hs. pose proof (readable_typeof v s Hs) as Ht. do 6 refused. by rewrite (GetCPPValue_taken _ _ _ _ _ (readable_string v s Hs)).
Qed.

Lemma variant_long_string v : forall s, napi_get_value_string_utf8 v = Some s -> MAX_VALUE_LENGTH < slen s -> Native_variant v = inl EXCEED_MAX_LENGTH.
Proof.
  unfold Native_variant. intros s Hs Hl. assert (Ht : napi_typeof v = napi_string) by (apply string_typeof; by eexists). do 6 refused.
  apply GetCPPValue_failed; [|done]. unfold Native_string. by rewrite Hs, (proj2 (Z.ltb_lt _ _) Hl).
Qed.

Lemma variant_bool v : forall b, napi_get_value_bool v = Some b -> Native_variant v = inr (VBool b).
Proof.
  unfold Native_variant. intros b Hb. assert (Ht : napi_typeof v = napi_boolean) by (apply bool_typeof; by eexists). do 5 refused.
  apply GetCPPValue_taken. unfold Native_bool. by rewrite Hb.
Qed.

Lemma variant_double v : forall d, napi_get_value_double v = Some d -> Native_variant v = inr (VDouble d).
Proof.
  unfold Native_variant. intros d Hd. do 4 refused. apply GetCPPValue_taken. unfold Native_double. by rewrite Hd.
Qed.

Lemma variant_strings v : forall l, napi_is_array v = true -> Forall2 readable (napi_get_elements v) l -> Native_variant v = inr (VStringArray (map c_str l)).
Proof.
  unfold Native_variant. intros l E Hl. pose proof (array_typeof v E) as Ht. do 7 refused. apply GetCPPValue_taken, Native_vector_all; [done|].
  apply Forall2_fmap_r. eapply Forall2_impl; [exact Hl|]. intros; by apply readable_string.
Qed.

Lemma variant_bools v : forall b l, napi_is_array v = true -> Forall2 (fun u c => napi_get_value_bool u = Some c) (napi_get_elements v) (b :: l) -> Native_variant v = inr (VBoolArray (b :: l)).
Proof.
  unfold Native_variant. intros b l E Hl. pose proof (array_typeof v E) as Ht. inversion Hl as [|u c us cs Hu Hus Eu]; subst.
  assert (Hnot : napi_typeof u = napi_boolean) by (apply bool_typeof; by eexists). do 7 refused.
  rewrite GetCPPValue_refused.
  + apply GetCPPValue_taken, Native_vector_all; [done|]. rewrite <- Eu. constructor; [|eapply Forall2_impl; [exact Hus|]];
      intros; unfold Native_bool; by simplify_option_eq.
  + unfold Native_vector. rewrite E, <- Eu. cbn [negb Native_elements]. by rewrite Native_string_other by congruence.
Qed.

Lemma variant_doubles v : forall d l, napi_is_array v = true -> Forall2 (fun u c => napi_get_value_double u = Some c) (napi_get_elements v) (d :: l) -> Native_variant v = inr (VDoubleArray (d :: l)).
Proof.
  unfold Native_variant. intros d l E Hl. pose proof (array_typeof v E) as Ht. inversion Hl as [|u c us cs Hu Hus Eu]; subst.
  assert (Hnot : napi_typeof u = napi_number) by (apply double_typeof; by eexists). do 7 refused.
  assert (Hstr : Native_vector Native_string v = inl NAPI_TYPE_ERROR)
    by (unfold Native_vector; rewrite E, <- Eu; cbn [negb Native_elements]; by rewrite Native_string_other by congruence).
  assert (Hbool : Native_vector Native_bool v = inl NAPI_TYPE_ERROR)
    by (unfold Native_vector; rewrite E, <- Eu; cbn [negb Native_elements]; by rewrite Native_bool_other by congruence).
  rewrite (GetCPPValue_refused _ _ _ _ Hstr), (GetCPPValue_refused _ _ _ _ Hbool).
  apply GetCPPValue_taken, Native_vector_all; [done|]. rewrite <- Eu. constructor; [|eapply Forall2_impl; [exact Hus|]];
    intros; unfold Native_double; by simplify_option_eq.
Qed.

Lemma variant_uint8s v : forall l, napi_is_typedarray v = true -> napi_get_typedarray_info v = inr (true, l) -> Z.of_nat (length l) <= MAX_VALUE_LENGTH -> Native_variant v = inr (VUint8Array l).
Proof.
  unfold Native_variant. intros l E Hi Hl. pose proof (typedarray_typeof v E) as [Ht Ha]. do 10 refused. apply GetCPPValue_taken.
  unfold Native_uint8s. by rewrite E, Hi, (proj2 (Z.ltb_ge _ _) Hl).
Qed.

Lemma variant_object v : forall text s, napi_typeof v = napi_object -> json_stringify v = inr text -> readable text s -> (napi_is_array v = true -> strings_readable v /\ not_all napi_string v /\ not_all napi_boolean v /\ not_all napi_number v) -> (napi_is_typedarray v = true -> exists l, napi_get_typedarray_info v = inr (false, l)) -> Native_variant v = inr (VObject (mkObject (c_str s))).
Proof.
  unfold Native_variant. intros text s Ht Hj Hs Harr Htyped. do 7 refused. assert (Hv : Native_Object v = inr (mkObject (c_str s))).
  { unfold Native_Object, JsonStringify. by rewrite bool_decide_true, Hj, (readable_string _ _ Hs) by done. }
  assert (Hu8 : Native_uint8s v = inl NAPI_TYPE_ERROR).
  { unfold Native_uint8s. destruct (napi_is_typedarray v) eqn:E; [|done]. by destruct (Htyped eq_refl) as [l ->]. }
  destruct (napi_is_array v) eqn:E.
  + destruct (Harr eq_refl) as (Hr & Hns & Hnb & Hnd). rewrite !GetCPPValue_refused by (done || by apply strings_refused || by apply bools_refused || by apply doubles_refused).
    by apply GetCPPValue_taken.
  + do 3 refused. rewrite GetCPPValue_refused by done. by apply GetCPPValue_taken.
Qed.

Lemma variant_refused v : napi_typeof v ∈ [napi_undefined; napi_null; napi_symbol; napi_function; napi_external] -> Native_variant v = inl napi_invalid_arg.
Proof.
  unfold Native_variant. intros Hin. assert (Hbad : napi_typeof v <> napi_boolean /\ napi_typeof v <> napi_number /\ napi_typeof v <> napi_string /\
    napi_typeof v <> napi_object /\ napi_typeof v <> napi_bigint) by (repeat setoid_rewrite elem_of_cons in Hin; setoid_rewrite elem_of_nil in Hin; intuition congruence).
  destruct Hbad as (? & ? & ? & ? & ?). by do 15 refused.
Qed.

(** What a value of JavaScript is stored as.  Primitive values keep their
    type, with strings cut at a NUL; an array of strings, of booleans or of
    numbers becomes the array of that type and an empty one an array of
    strings; every other object, so also a mixed array and a typed array that
    is not of bytes, becomes its JSON text; [undefined], [null], functions and
    symbols are refused, and so are texts of more than 16 MB. *)
Theorem js_value_kinds (v : napi_value) :
  (forall s, readable v s -> Native_variant v = inr (VString (c_str s))) /\
  (forall s, napi_get_value_string_utf8 v = Some s -> MAX_VALUE_LENGTH < slen s -> Native_variant v = inl EXCEED_MAX_LENGTH) /\
  (forall b, napi_get_value_bool v = Some b -> Native_variant v = inr (VBool b)) /\
  (forall d, napi_get_value_double v = Some d -> Native_variant v = inr (VDouble d)) /\
  (forall l, napi_is_array v = true -> Forall2 readable (napi_get_elements v) l -> Native_variant v = inr (VStringArray (map c_str l))) /\
  (forall b l, napi_is_array v = true -> Forall2 (fun u c => napi_get_value_bool u = Some c) (napi_get_elements v) (b :: l) ->
     Native_variant v = inr (VBoolArray (b :: l))) /\
  (forall d l, napi_is_array v = true -> Forall2 (fun u c => napi_get_value_double u = Some c) (napi_get_elements v) (d :: l) ->
     Native_variant v = inr (VDoubleArray (d :: l))) /\
  (forall l, napi_is_typedarray v = true -> napi_get_typedarray_info v = inr (true, l) -> Z.of_nat (length l) <= MAX_VALUE_LENGTH ->
     Native_variant v = inr (VUint8Array l)) /\
  (forall text s, napi_typeof v = napi_object -> json_stringify v = inr text -> readable text s ->
     (napi_is_array v = true -> strings_readable v /\ not_all napi_string v /\ not_all napi_boolean v /\ not_all napi_number v) ->
     (napi_is_typedarray v = true -> exists l, napi_get_typedarray_info v = inr (false, l)) ->
     Native_variant v = inr (VObject (mkObject (c_str s)))) /\
  (napi_typeof v ∈ [napi_undefined; napi_null; napi_symbol; napi_function; napi_external] -> Native_variant v = inl napi_invalid_arg).
Proof.
  split_and!; [apply variant_string|apply variant_long_string|apply variant_bool|apply variant_double|apply variant_strings|apply variant_bools|apply variant_doubles|apply variant_uint8s|apply variant_object|apply variant_refused].
Qed.

Lemma variant_bigint v sign words : napi_typeof v = napi_bigint -> napi_get_value_bigint_words v = inr (sign, words) -> words <> [] ->
  Native_variant v = inr (VBigInt (mkBigInt words sign)).
Proof.
  intros Ht Hw Hn. unfold Native_variant. do 12 refused. apply GetCPPValue_taken. unfold Native_BigInt.
  rewrite bool_decide_true by done. rewrite Hw. by destruct words.
Qed.

(** ** And back *)

(** No function that makes a value fails, and there is memory. *)
Record engine_works : Prop := {
  ew_string s : is_Some (napi_create_string_utf8 s);
  ew_bool b : is_Some (napi_get_boolean b);
  ew_double d : is_Some (napi_create_double d);
  ew_int32 z : is_Some (napi_create_int32 z);
  ew_int64 z : is_Some (napi_create_int64 z);
  ew_malloc n : napi_malloc n = true
}.

Definition text_ok (s : string) : Prop := utf8 s = true /\ slen s <= MAX_VALUE_LENGTH.
Definition number_ok (d : Z) : Prop := fp_is_nan 64 52 d = false.

(** The values that JavaScript can read and hand back. *)
Definition js_keeps (w : PreferencesValue) : Prop :=
  match w with
  | VMonostate | VObject _ => False
  | VInt _ | VLong _ | VBool _ | VBoolArray _ | VIntArray _ | VInt64Array _ => True
  | VFloat b => number_ok (float_to_double b)
  | VDouble b => number_ok b
  | VString s => text_ok s
  | VStringArray l => Forall text_ok l
  | VDoubleArray l => Forall number_ok l
  | VUint8Array l => Z.of_nat (length l) <= MAX_VALUE_LENGTH
  | VBigInt b => words_ b <> [] /\ last (words_ b) <> Some 0 /\ (sign_ b = 0 \/ sign_ b = 1)
  end.

(** An empty array has no type. *)
Definition typed_array {A} (wrap : list A -> PreferencesValue) (l : list A) : PreferencesValue :=
  match l with [] => VStringArray [] | _ => wrap l end.

(** What comes back: every number is a double, a string ends at a NUL. *)
Definition js_reads (w : PreferencesValue) : PreferencesValue :=
  match w with
  | VInt z | VLong z => VDouble (number_of z)
  | VFloat b => VDouble (float_to_double b)
  | VString s => VString (c_str s)
  | VStringArray l => VStringArray (map c_str l)
  | VBoolArray l => typed_array VBoolArray l
  | VDoubleArray l => typed_array VDoubleArray l
  | VIntArray l | VInt64Array l => typed_array VDoubleArray (map number_of l)
  | _ => w
  end.

Lemma created_elements {A B} (make : A -> option napi_value) (get : napi_value -> B -> Prop) (r : A -> B) l :
  (forall a, a ∈ l -> exists v, make a = Some v /\ get v (r a)) -> Forall2 get (map (default napi_get_undefined) (map make l)) (map r l).
Proof.
  induction l as [|a l IH]; intros Hall; [constructor|]. cbn [map]. constructor; [|apply IH; intros; apply Hall; by right].
  destruct (Hall a ltac:(left)) as (v & -> & Hv). exact Hv.
Qed.

Lemma empty_array v : napi_is_array v = true -> napi_get_elements v = [] -> Native_variant v = inr (VStringArray []).
Proof. intros E El. apply (variant_strings v []); [done|]. rewrite El. constructor. Qed.

Lemma text_created s : engine_works -> text_ok s -> exists v, napi_create_string_utf8 s = Some v /\ readable v s.
Proof.
  intros Hw [Hu Hl]. destruct (ew_string Hw s) as [v Hv]. exists v. split; [done|]. split_and!; [by apply (created_string s v)|done|apply (ew_malloc Hw)].
Qed.

Lemma bools_back v l : engine_works -> JS_vector napi_get_boolean l = Some v -> Native_variant v = inr (typed_array VBoolArray l).
Proof.
  intros Hw Hv. apply created_array in Hv as [E El]. destruct l as [|b l]; [by apply empty_array|].
  apply variant_bools; [done|]. rewrite El.
  pose proof (created_elements napi_get_boolean (fun u c => napi_get_value_bool u = Some c) (fun x => x) (b :: l)) as Hc. rewrite map_id in Hc.
  apply Hc. intros a _. destruct (ew_bool Hw a) as [u Hu]. exists u. split; [done|]. by apply (created_bool a u).
Qed.

Lemma doubles_back {A} (make : A -> option napi_value) (r : A -> Z) v l :
  (forall a, a ∈ l -> exists u, make a = Some u /\ napi_get_value_double u = Some (r a)) -> JS_vector make l = Some v ->
  Native_variant v = inr (typed_array VDoubleArray (map r l)).
Proof.
  intros Hmake Hv. apply created_array in Hv as [E El]. destruct l as [|d l]; [by apply empty_array|].
  cbn [map typed_array]. apply variant_doubles; [done|]. rewrite El. exact (created_elements make (fun u c => napi_get_value_double u = Some c) r (d :: l) Hmake).
Qed.

(** C21: A stored value that is handed to JavaScript and stored again is the
    value that it was, up to the types JavaScript does not have: every number is
    a double, an empty array is one of strings, and strings end at a NUL.  It
    holds for numbers that are not NaN, booleans, texts of UTF-8 and byte arrays
    of at most 16 MiB, BigInts as JavaScript makes them (some words, the last
    one not zero, a sign of 0 or 1) and arrays of numbers, of booleans and of
    such texts, and when the engine can make the values and has memory; objects
    and "no value" are not covered. *)
Theorem js_roundtrip (w : PreferencesValue) (v : napi_value) (Hworks : engine_works) (Hkeeps : js_keeps w) (Hv : JS_variant w = Some v) :
  Native_variant v = inr (js_reads w).
Proof.
  destruct w as [|z|z|b|b|b|s|l|l|l|l|o|b|l|l]; cbn [js_keeps JS_variant js_reads] in *; try done.
  - by apply variant_double, (created_int32 z).
  - by apply variant_double, (created_int64 z).
  - by apply variant_double, created_double.
  - by apply variant_double, created_double.
  - by apply variant_bool, created_bool.
  - destruct (text_created s Hworks Hkeeps) as (u & Hu & Hr). rewrite Hv in Hu. injection Hu as <-. by apply variant_string.
  - apply created_array in Hv as [E El]. rewrite Forall_forall in Hkeeps. apply variant_strings; [done|]. rewrite El.
    pose proof (created_elements napi_create_string_utf8 readable (fun x => x) l) as Hc. rewrite map_id in Hc.
    apply Hc. intros s Hs. by apply text_created, Hkeeps.
  - by apply bools_back.
  - pose proof (doubles_back napi_create_double (fun x => x) v l) as Hb. rewrite map_id in Hb. apply Hb; [|done]. intros d Hd. rewrite Forall_forall in Hkeeps.
    destruct (ew_double Hworks d) as [u Hu]. exists u. split; [done|]. apply created_double; [by apply Hkeeps|done].
  - apply created_uint8array in Hv as [E Ei]. by apply variant_uint8s.
  - destruct Hkeeps as (Hn & Hlast & Hs). apply created_bigint in Hv as [Ht Hw]. rewrite (variant_bigint _ _ _ Ht (Hw Hlast) Hn).
    destruct b as [ws sg]; cbn in *. by destruct Hs as [-> | ->].
  - eapply doubles_back; [|done]. intros z _. destruct (ew_int32 Hworks z) as [u Hu]. exists u. split; [done|by apply (created_int32 z)].
  - eapply doubles_back; [|done]. intros z _. destruct (ew_int64 Hworks z) as [u Hu]. exists u. split; [done|by apply (created_int64 z)].
Qed.
End facts.

(** ** A concrete engine *)

Inductive JsVal :=
  | JUndef | JNull | JBool (b : bool) | JNum (d : Z) | JStr (s : string) | JFun (f : nat)
  | JBig (sign : Z) (words : list Z) | JArr (l : list JsVal) | JU8 (l : list Z) | JObj (text : string) (props : list (string * JsVal)) | JNative (p : positive) | JSendable (p : positive).

Definition js_typeof (v : JsVal) : napi_valuetype :=
  match v with
  | JUndef => napi_undefined | JNull => napi_null | JBool _ => napi_boolean | JNum _ => napi_number | JStr _ => napi_string
  | JFun _ => napi_function | JBig _ _ => napi_bigint | JArr _ | JU8 _ | JObj _ _ | JNative _ | JSendable _ => napi_object
  end.

(** The bits of a small integer. *)
Definition double_of_int (z : Z) : Z :=
  if z =? 0 then 0 else
  let k := Z.log2 (Z.abs z) in (if z <? 0 then 2 ^ 63 else 0) + (k + 1022) * 2 ^ 52 + Z.abs z * 2 ^ 52 / 2 ^ k.

(** Functions are equal when they are the same, and so on for the others. *)
Definition js_equals (a b : JsVal) : bool :=
  match a, b with
  | JUndef, JUndef | JNull, JNull => true
  | JBool x, JBool y => Bool.eqb x y
  | JNum x, JNum y => double_eqb x y
  | JStr x, JStr y => bool_decide (x = y)
  | JFun f, JFun g => (f =? g)%nat
  | _, _ => false
  end.

#[export] Instance ref_napi : Napi := {|
  napi_value := JsVal;
  napi_typeof := js_typeof;
  napi_get_value_string_utf8 v := match v with JStr s => Some s | _ => None end;
  napi_get_value_bool v := match v with JBool b => Some b | _ => None end;
  napi_get_value_double v := match v with JNum d => Some d | _ => None end;
  napi_get_value_int32 v := match v with JNum _ => Some 0 | _ => None end;
  napi_is_array v := match v with JArr _ => true | _ => false end;
  napi_get_elements v := match v with JArr l => l | _ => [] end;
  napi_is_typedarray v := match v with JU8 _ => true | _ => false end;
  napi_get_typedarray_info v := match v with JU8 l => inr (true, l) | _ => inl napi_invalid_arg end;
  napi_get_value_bigint_words v := match v with JBig sign words => inr (sign, words) | _ => inl napi_invalid_arg end;
  napi_has_named_property v name := match v with JObj _ props => Some (bool_decide (is_Some (list_to_map (M := gmap string JsVal) props !! name))) | _ => None end;
  napi_get_named_property v name := match v with JObj _ props => list_to_map (M := gmap string JsVal) props !! name | _ => None end;
  napi_strict_equals := js_equals;
  json_stringify v := match v with JObj text _ => inr (JStr text) | _ => inl napi_invalid_arg end;
  json_parse _ v := match v with JStr text => Some (JObj text []) | _ => None end;
  napi_get_null := JNull;
  napi_get_undefined := JUndef;
  napi_get_boolean b := Some (JBool b);
  napi_create_int32 z := Some (JNum (double_of_int z));
  napi_create_uint32 z := Some (JNum (double_of_int z));
  napi_create_int64 z := Some (JNum (double_of_int z));
  napi_create_double d := Some (JNum d);
  napi_create_string_utf8 s := Some (JStr s);
  napi_create_array l := Some (JArr (map (default JUndef) l));
  napi_create_uint8array l := Some (JU8 l);
  napi_create_bigint_words sign words := Some (JBig (if sign =? 0 then 0 else 1) words);
  napi_create_sendable_array l := Some (JArr (map (default JUndef) l));
  napi_create_sendable_uint8array l := Some (JU8 l);
  napi_create_object_with_properties props := JObj "{}" (map (fun e => (e.1, default JUndef e.2)) props);
  napi_define_properties props := JObj "{}" (map (fun e => (e.1, default JUndef e.2)) props);
  napi_create_sendable_object_with_properties props := JObj "{}" (map (fun e => (e.1, default JUndef e.2)) props);
  napi_new_instance p := Some (JNative p);
  napi_unwrap v := match v with JNative p => Some p | _ => None end;
  napi_is_sendable v := match v with JSendable _ => true | _ => false end;
  napi_new_sendable_instance p := Some (JSendable p);
  napi_unwrap_sendable v := match v with JSendable p => Some p | _ => None end;
  napi_malloc _ := true;
  napi_copy_string_utf8 v n := match v with JStr s => Some (String.substring 0 (Z.to_nat (n - 1)) s) | _ => None end;
  uninit_sign := 0
|}.

Lemma substring_all s n : (String.length s <= n)%nat -> String.substring 0 n s = s.
Proof. revert n. induction s as [|a s IH]; intros [|n] Hn; cbn in *; [done..|lia|]. rewrite IH by lia. done. Qed.

#[export] Instance ref_napi_laws : NapiLaws.
Proof.
  refine {| number_of := double_of_int; utf8 := fun _ => true |}; cbn; try (intros [] ?; by try intros [=]); try (intros ? v; by intros [= <-]).
  - intros []; split; by (intros [? [=]] || intros [=] || eexists).
  - intros []; split; by (intros [? [=]] || intros [=] || eexists).
  - intros []; split; by (intros [? [=]] || intros [=] || eexists).
  - done.
  - by intros s v _ [= <-].
  - by intros d v _ [= <-].
  - intros v s n. destruct v; try done. intros [= ->] Hn. unfold slen in Hn. rewrite substring_all by lia. done.
  - by intros sign words v [= <-].
Defined.

Lemma ref_engine_works : engine_works.
Proof. split; intros; try done; by eexists. Qed.

Example js_roundtrip_witness :
  exists v, JS_variant (VStringArray ["a"; "b"]) = Some v /\ Native_variant v = inr (VStringArray ["a"; "b"]).
Proof.
  eexists. split; [reflexivity|]. apply (js_roundtrip (VStringArray ["a"; "b"]) _ ref_engine_works); [|reflexivity].
  by repeat constructor.
Defined.

Abbreviation ref_native := (@Native_variant ref_napi).

(** A mixed array, and a null. *)
Example js_kinds_samples :
  ref_native (JArr [JStr "a"; JNum 0]) = inl napi_invalid_arg /\ ref_native JNull = inl napi_invalid_arg /\
  ref_native (JArr [JNum 0; JNum 1]) = inr (VDoubleArray [0; 1]) /\ ref_native (JObj "{}" []) = inr (VObject (mkObject "{}")) /\
  double_of_int 1 = 4607182418800017408 /\ double_of_int (-6) = 13841813454723219456.
Proof. repeat split; vm_compute; reflexivity. Qed.

Example js_value_kinds_witness : ref_native (JArr [JStr "a"; JStr "b"]) = inr (VStringArray ["a"; "b"]).
Proof.
  pose proof (js_value_kinds (H := ref_napi) (JArr [JStr "a"; JStr "b"])) as (_ & _ & _ & _ & Hs & _). apply (Hs ["a"; "b"] eq_refl). by repeat constructor.
Defined.
