(* ===== verification/Js.v ===== *)
(** * The interface for JavaScript

    Models [napi_async_call.cpp], [js_ability.cpp], [js_observer.cpp] with
    [uv_queue.cpp], [napi_preferences_observer.cpp], [napi_preferences.cpp] and
    [napi_preferences_helper.cpp] of [frameworks/js] over the factory.  A call
    checks its arguments, does its work and makes its result; an asynchronous
    one leaves the work to another thread and the result to a later turn of
    the JavaScript thread, which are steps of their own. *)

From S2P Require Import Prelude Errno Value Utils NumText ConcurrentMap Env FileLock Store DbAdapter Base Impl Enhance Helper.
From S2P Require Import Handle JsValue.

(** ** Errors *)

Definition JS_E_INVALID_PARAM : Z := 401.
Definition JS_E_INNER_ERROR : Z := 15500000.
Definition JS_E_NOT_STAGE_MODE : Z := 15501001.
Definition JS_E_DATA_GROUP_ID_INVALID : Z := 15501002.
Definition JS_E_NOT_SUPPORTED : Z := 801.
Definition JS_E_GET_DATAOBSMGRCLIENT_FAIL : Z := 15500019.
Definition JS_E_DELETE_FILE_FAIL : Z := 15500010.

(** [preferences_error.h:40-44] JsErrorCode *)
Record JsErrorCode := mkJsErrorCode { nativeCode : Z; jsCode : Z; message : string }.

(** [preferences_error.cpp:20-42] JS_ERROR_MAPS *)
Definition JS_ERROR_MAPS : list JsErrorCode := [
  mkJsErrorCode JS_E_NOT_STAGE_MODE JS_E_NOT_STAGE_MODE "The operations is supported in stage mode only.";
  mkJsErrorCode JS_E_DATA_GROUP_ID_INVALID JS_E_DATA_GROUP_ID_INVALID "Invalid dataGroupId.";
  mkJsErrorCode E_INVALID_ARGS JS_E_INNER_ERROR "Invalid arguments.";
  mkJsErrorCode E_KEY_EMPTY JS_E_INNER_ERROR "The key is empty.";
  mkJsErrorCode E_KEY_EXCEED_MAX_LENGTH JS_E_INNER_ERROR "The key length exceeds 1024 characters.";
  mkJsErrorCode E_RELATIVE_PATH JS_E_INNER_ERROR "Relative path is not allowed.";
  mkJsErrorCode E_EMPTY_FILE_PATH JS_E_INNER_ERROR "The file path is empty.";
  mkJsErrorCode E_DELETE_FILE_FAIL JS_E_DELETE_FILE_FAIL "Failed to delete the user preferences persistence file.";
  mkJsErrorCode E_EMPTY_FILE_NAME JS_E_INNER_ERROR "The file name is empty.";
  mkJsErrorCode E_INVALID_FILE_PATH JS_E_INNER_ERROR "Invalid file path.";
  mkJsErrorCode E_PATH_EXCEED_MAX_LENGTH JS_E_INNER_ERROR "The file path length exceeds the limit.";
  mkJsErrorCode E_VALUE_EXCEED_MAX_LENGTH JS_E_INNER_ERROR "The value length exceeds 16 MB.";
  mkJsErrorCode PERMISSION_DENIED JS_E_INNER_ERROR "Permission denied.";
  mkJsErrorCode E_GET_DATAOBSMGRCLIENT_FAIL JS_E_GET_DATAOBSMGRCLIENT_FAIL "Failed to obtain the subscription service.";
  mkJsErrorCode E_ALREADY_CLOSED JS_E_INNER_ERROR "The database has been closed.";
  mkJsErrorCode E_NOT_SUPPORTED JS_E_NOT_SUPPORTED "Capability not supported."].

(** The first entry that is not less, which is what [std::lower_bound] finds in
    an increasing table. *)
Fixpoint lower_bound (code : Z) (l : list JsErrorCode) : option JsErrorCode :=
  match l with
  | [] => None
  | e :: l => if nativeCode e <? code then lower_bound code l else Some e
  end.

(** [preferences_error.cpp:56-67] GetJsErrorCode *)
Definition GetJsErrorCode (errorCode : Z) : option JsErrorCode :=
  match lower_bound errorCode JS_ERROR_MAPS with
  | Some e => if nativeCode e =? errorCode then Some e else None
  | None => None
  end.

(** [preferences_error.h:90-95] JSError *)
Inductive JSError :=
  | ParamTypeError (errmsg : string)
  | ParamNumError (wantNum : string)
  | InnerError (msg : string)
  | InnerCode (code : Z).

(** [preferences_error.h:97-132] GetCode *)
Definition GetCode (e : JSError) : Z :=
  match e with
  | ParamTypeError _ | ParamNumError _ => JS_E_INVALID_PARAM
  | InnerError _ => JS_E_INNER_ERROR
  | InnerCode code => match GetJsErrorCode code with Some e => jsCode e | None => JS_E_INNER_ERROR end
  end.

(** [preferences_error.h:134-157] GetMsg *)
Definition GetMsg (e : JSError) : string :=
  match e with
  | ParamTypeError errmsg => "Parameter error. " +:+ errmsg
  | ParamNumError wantNum => "Parameter error. Need " +:+ wantNum +:+ " parameters!"
  | InnerError msg => "Inner error. " +:+ msg
  | InnerCode code => match GetJsErrorCode code with Some e => message e | None => "Inner error. Error code " +:+ to_string code end
  end.

(** [preferences_error.h:26-26] MAX_INPUT_COUNT *)
Definition MAX_INPUT_COUNT : nat := 10.

(** ** State *)

(** A callback of JavaScript with the queue that calls it.  [None] is a
    reference that was deleted.

    The environment is the one of its queue, and [jo_queue] says whether the
    queue is still there.

    [js_observer.h:23-38] JSObserver *)
Record JsObserver `{Napi} := mkJsObserver {
  jo_callback : option napi_value;
  jo_sendable : bool;
  jo_env : positive;
  jo_queue : bool
}.
Arguments mkJsObserver {_} _ _ _ _.

(** [napi/preferences/include/napi_preferences.h:40-83] PreferencesProxy *)
Record PreferencesProxy := mkProxy {
  px_instance : option positive;
  px_localObservers : list positive;
  px_multiProcessObservers : list positive;
  px_dataObservers : list positive
}.

(** The observers that one environment has with a sendable object.

    [napi/sendable_preferences/include/napi_preferences.h:73-88] JSObservers *)
Record JSObservers := mkJSObservers { so_local : list positive; so_multi : list positive; so_data : list positive }.

(** An object that is shared by the environments.

    [napi/sendable_preferences/include/napi_preferences.h:40-91] PreferencesProxy *)
Record SendableProxy := mkSendable { sp_instance : option positive; sp_observers : gmap positive JSObservers }.

(** What a call asks of the store: the fields of the contexts that are set
    when the arguments are checked.

    [napi/preferences/src/napi_preferences.cpp:36-51] PreferencesAsyncContext *)
Inductive Request `{Napi} :=
  | RGetAll
  | RGetValue (key : string) (input : napi_value)
  | RSetValue (key : string) (value : PreferencesValue)
  | RDelete (key : string)
  | RHasKey (key : string)
  | RFlush
  | RClear
  | RGetPreferences (options : Options)
  | RDeletePreferences (path : string)
  | RRemovePreferencesFromCache (path : string)
  | RIsStorageTypeSupported (type : StorageType)
  | RSendable (r : Request).

(** What the work leaves in the context. *)
Inductive Answer `{Napi} :=
  | AElements (m : gmap string PreferencesValue)
  | AValue (v : PreferencesValue) (input : napi_value)
  | AFlag (b : bool)
  | AProxy (p : option positive)
  | ANothing
  | ASendable (a : Answer).

(** An asynchronous call between its steps: the object behind its weak pointer,
    the callback, or [None] for a promise, and the code and answer of its work.

    [napi_async_call.h:33-55] BaseContext *)
Record Work `{Napi} := mkWork {
  w_instance : option positive;
  w_request : Request;
  w_callback : option napi_value;
  w_sendable : bool;
  w_done : option (Z * Answer)
}.
Arguments mkWork {_} _ _ _ _ _.

(** What JavaScript sees, besides results: an error object is its code and
    message, [None] is a missing one. *)
Inductive JsEvent `{Napi} :=
  | Threw (e : JSError)
  | Resolved (work : positive) (v : napi_value)
  | Rejected (work : positive) (e : option JSError)
  | CalledBack (callback : napi_value) (e : option JSError) (v : napi_value)
  | Notified (callback : napi_value) (args : list (option napi_value))
  | Asserted (msg : string)                             (** a failed NAPI_ASSERT *)
  | LastError                                           (** a failed NAPI_CALL *)
  | ThrewText (code : option string) (msg : string)     (** napi_throw_error *)
  | CalledWith (callback : napi_value) (args : list (option napi_value)).

(** [js_ability.h:31-31] CONTEXT_MODE *)
Inductive CONTEXT_MODE := INIT | FA | STAGE.

(** The application around the engine: whether a value is a context of the
    stage model, that context, and the context of the current ability. *)
Class AbilityRuntime `{Napi} := {
  IsStageContext : option napi_value -> option bool;
  GetStageModeContext : option napi_value -> option AppContext;
  GetCurrentAbilityContext : option AppContext
}.

Section Js.
Context `{XmlStore} `{SafeBlockQueue} `{KvDb} `{Iteration} `{Napi} `{!AbilityRuntime}.
Context (RSIZE_MAX : Z) (gskvEnabled : bool).

Record Js := mkJs {
  js_hlp : Helper;
  gContextNode : CONTEXT_MODE;
  js_proxies : gmap positive PreferencesProxy;
  js_next_proxy : positive;
  js_observers : gmap positive JsObserver;
  js_next : positive;
  js_works : gmap positive Work;
  js_next_work : positive;
  js_posted : list (positive * list (option napi_value));
  js_events : list JsEvent;
  js_sendables : gmap positive SendableProxy
}.

Definition set_hlp h (j : Js) := mkJs h (gContextNode j) (js_proxies j) (js_next_proxy j) (js_observers j) (js_next j) (js_works j) (js_next_work j) (js_posted j) (js_events j) (js_sendables j).
Definition set_context c (j : Js) := mkJs (js_hlp j) c (js_proxies j) (js_next_proxy j) (js_observers j) (js_next j) (js_works j) (js_next_work j) (js_posted j) (js_events j) (js_sendables j).
Definition set_proxies v (j : Js) := mkJs (js_hlp j) (gContextNode j) v (js_next_proxy j) (js_observers j) (js_next j) (js_works j) (js_next_work j) (js_posted j) (js_events j) (js_sendables j).
Definition set_js_observers v (j : Js) := mkJs (js_hlp j) (gContextNode j) (js_proxies j) (js_next_proxy j) v (js_next j) (js_works j) (js_next_work j) (js_posted j) (js_events j) (js_sendables j).
Definition set_works v (j : Js) := mkJs (js_hlp j) (gContextNode j) (js_proxies j) (js_next_proxy j) (js_observers j) (js_next j) v (js_next_work j) (js_posted j) (js_events j) (js_sendables j).
Definition set_posted v (j : Js) := mkJs (js_hlp j) (gContextNode j) (js_proxies j) (js_next_proxy j) (js_observers j) (js_next j) (js_works j) (js_next_work j) v (js_events j) (js_sendables j).
Definition emit (e : JsEvent) : ST Js unit :=
  modify (fun j => mkJs (js_hlp j) (gContextNode j) (js_proxies j) (js_next_proxy j) (js_observers j) (js_next j) (js_works j) (js_next_work j) (js_posted j) (js_events j ++ [e]) (js_sendables j)).

Definition js_on_helper {A} (m : SO Helper A) : SO Js A := fun j => '(a, h) ← m (js_hlp j); Done (a, set_hlp h j).

(** ** Arguments *)

(** What the check of the arguments gives: an error, or the object and the
    request. *)
Abbreviation Input := (sum JSError (option positive * Request)).

Definition checked {A B} (ok : bool) (e : A) (k : A + B) : A + B := if ok then k else inl e.

(** The text that is wanted, whatever the code of a failure.

    [napi/preferences/src/napi_preferences.cpp:148-155] ParseKey *)
Definition ParseKey (arg : napi_value) : JSError + string :=
  match Native_string arg with
  | inl _ => inl (ParamTypeError "The key must be string.")
  | inr key => checked (slen key <=? MAX_KEY_LENGTH) (ParamTypeError "The key must be less than 1024 bytes.") (inr key)
  end.

(** [napi/preferences/src/napi_preferences.cpp:157-166] ParseDefValue *)
Definition ParseDefValue (jsVal : napi_value) : JSError + PreferencesValue :=
  match Native_variant jsVal with
  | inr v => inr v
  | inl rc =>
      inl (ParamTypeError (if rc =? EXCEED_MAX_LENGTH then "The type of value must be less then 16 * 1024 * 1024 btyes."
                           else "The type of value must be ValueType."))
  end.

(** [napi/preferences/src/napi_preferences.cpp:196-206] GetSelfInstance *)
Definition GetSelfInstance (self : napi_value) (j : Js) : option positive * option positive :=
  match napi_unwrap self with
  | None => (None, None)
  | Some obj => (Some obj, match js_proxies j !! obj with Some p => px_instance p | None => None end)
  end.

(** The object behind [this], or an error. *)
Definition self_instance (self : napi_value) (j : Js) (msg : string) (r : Request) : Input :=
  match GetSelfInstance self j with
  | (Some _, Some instance) => inr (Some instance, r)
  | _ => inl (InnerError msg)
  end.

(** A method that takes nothing.

    [napi/preferences/src/napi_preferences.cpp:211-216] GetAll *)
Definition input_GetAll (argv : list napi_value) (self : napi_value) (j : Js) : Input :=
  match argv with
  | [] => self_instance self j "Failed to unwrap when getting all." RGetAll
  | _ => inl (ParamNumError "0 or 1")
  end.

(** [napi/preferences/src/napi_preferences.cpp:238-245] GetValue *)
Definition input_GetValue (argv : list napi_value) (self : napi_value) (j : Js) : Input :=
  match argv with
  | [k; d] =>
      match ParseKey k with
      | inl e => inl e
      | inr key => self_instance self j "Failed to unwrap when getting value." (RGetValue key d)
      end
  | _ => inl (ParamNumError "2 or 3")
  end.

(** [napi/preferences/src/napi_preferences.cpp:274-281] SetValue *)
Definition input_SetValue (argv : list napi_value) (self : napi_value) (j : Js) : Input :=
  match argv with
  | [k; v] =>
      match ParseKey k with
      | inl e => inl e
      | inr key =>
          match ParseDefValue v with
          | inl e => inl e
          | inr value => self_instance self j "Failed to unwrap when setting value." (RSetValue key value)
          end
      end
  | _ => inl (ParamNumError "2 or 3")
  end.

(** [napi/preferences/src/napi_preferences.cpp:304-310] Delete *)
Definition input_Delete (argv : list napi_value) (self : napi_value) (j : Js) : Input :=
  match argv with
  | [k] => match ParseKey k with inl e => inl e | inr key => self_instance self j "Failed to unwrap when deleting value." (RDelete key) end
  | _ => inl (ParamNumError "1 or 2")
  end.

(** [napi/preferences/src/napi_preferences.cpp:333-339] HasKey *)
Definition input_HasKey (argv : list napi_value) (self : napi_value) (j : Js) : Input :=
  match argv with
  | [k] => match ParseKey k with inl e => inl e | inr key => self_instance self j "Failed to unwrap when having key." (RHasKey key) end
  | _ => inl (ParamNumError "1 or 2")
  end.

(** [napi/preferences/src/napi_preferences.cpp:363-368] Flush *)
Definition input_Flush (argv : list napi_value) (self : napi_value) (j : Js) : Input :=
  match argv with [] => self_instance self j "Failed to unwrap when flushing." RFlush | _ => inl (ParamNumError "0 or 1") end.

(** [napi/preferences/src/napi_preferences.cpp:391-396] Clear *)
Definition input_Clear (argv : list napi_value) (self : napi_value) (j : Js) : Input :=
  match argv with [] => self_instance self j "Failed to unwrap unwrap when clearing." RClear | _ => inl (ParamNumError "0 or 1") end.

(** *** Of the factory *)

Definition type_is_nothing (v : napi_value) : bool :=
  bool_decide (napi_typeof v = napi_null) || bool_decide (napi_typeof v = napi_undefined).

(** The type that a number stands for. *)
Definition storage_type (v : napi_value) : JSError + StorageType :=
  match napi_get_value_int32 v with
  | None => inl (ParamTypeError "The storageType must be StorageType which is enum.")
  | Some intVal =>
      checked ((intVal =? 0) || (intVal =? 1)) (ParamTypeError "Storage type value invalid.") (inr (if intVal =? 0 then XML else GSKV))
  end.

(** A property that may be missing, null or undefined. *)
Definition optional_property {A} (obj : napi_value) (name : string) (default : A) (read : napi_value -> option A) : option A :=
  match napi_has_named_property obj name with
  | None => None
  | Some false => Some default
  | Some true =>
      match napi_get_named_property obj name with
      | None => None
      | Some temp => if type_is_nothing temp then Some default else read temp
      end
  end.

(** The data group and the type of storage; the caller gives every failure the
    same error.

    [napi/preferences/src/napi_preferences_helper.cpp:49-90] ParseOptionalParameters *)
Definition ParseOptionalParameters (options : napi_value) : option (string * StorageType) :=
  match optional_property options "dataGroupId" "" (fun temp => match Native_string temp with inr s => Some s | inl _ => None end) with
  | None => None
  | Some dataGroupId =>
      match optional_property options "storageType" XML (fun temp => match storage_type temp with inr t => Some t | inl _ => None end) with
      | None => None
      | Some t => Some (dataGroupId, t)
      end
  end.

(** [js_ability.cpp:23-34] GetContextMode *)
Definition GetContextMode (value : option napi_value) : ST Js CONTEXT_MODE := fun j =>
  match gContextNode j with
  | INIT =>
      match IsStageContext value with
      | Some isStageMode => let m := if (isStageMode : bool) then STAGE else FA in (m, set_context m j)
      | None => (INIT, j)
      end
  | m => (m, j)
  end.

(** The error, and the directory and the name of the bundle as far as they were
    set.

    [js_ability.cpp:36-71] GetContextInfo *)
Definition GetContextInfo (value : option napi_value) (dataGroupId : string) : ST Js (option JSError * (string * string)) :=
  mode ← GetContextMode value;
  mret match mode with
  | STAGE =>
      match GetStageModeContext value with
      | Some stageContext =>
          let '(errcode, preferencesDir) := ctx_GetSystemPreferencesDir stageContext dataGroupId in
          if negb (errcode =? 0) then (Some (InnerCode JS_E_DATA_GROUP_ID_INVALID), (preferencesDir, ""))
          else (None, (preferencesDir, ctx_GetBundleName stageContext))
      | None => (Some (ParamTypeError "The context is invalid."), ("", ""))
      end
  | _ =>
      if negb (bool_decide (dataGroupId = "")) then (Some (InnerCode JS_E_NOT_STAGE_MODE), ("", "")) else
      match GetCurrentAbilityContext with
      | None => (Some (ParamTypeError "The context is invalid."), ("", ""))
      | Some abilityContext => (None, ((ctx_GetSystemPreferencesDir abilityContext "").2, ""))
      end
  end.

(** The name, or the name and the optional fields of an object.

    [napi/preferences/src/napi_preferences_helper.cpp:92-103] ParseParameters *)
Definition parse_name (arg : napi_value) : JSError + (string * string * StorageType) :=
  match Native_string arg with
  | inr name => inr (name, "", XML)
  | inl _ =>
      match napi_get_named_property arg "name" with
      | None => inl (ParamTypeError "napi call failed when get name.")
      | Some temp =>
          match Native_string temp with
          | inl _ => inl (ParamTypeError "The name must be string.")
          | inr name =>
              match ParseOptionalParameters arg with
              | None => inl (ParamTypeError "parse optional param failed")
              | Some (dataGroupId, t) => inr (name, dataGroupId, t)
              end
          end
      end
  end.

(** [napi/preferences/src/napi_preferences_helper.cpp:92-110] ParseParameters *)
Definition ParseParameters (context arg : napi_value) : ST Js (JSError + Options) :=
  match parse_name arg with
  | inl e => mret (inl e)
  | inr (name, dataGroupId, t) =>
      info ← GetContextInfo (Some context) dataGroupId;
      mret match info with
      | (Some e, _) => inl e
      | (None, (preferencesDir, bundleName)) =>
          inr (mkOptions (preferencesDir +:+ "/" +:+ name) bundleName dataGroupId (match t with GSKV => true | XML => false end))
      end
  end.

Definition with_parameters (argv : list napi_value) (k : Options -> Request) : ST Js Input :=
  match argv with
  | [context; arg] =>
      o ← ParseParameters context arg;
      mret match o with inl e => inl e | inr options => inr (None, k options) end
  | _ => mret (inl (ParamNumError "2 or 3"))
  end.

(** [napi/preferences/src/napi_preferences_helper.cpp:115-118] GetPreferences *)
Definition input_GetPreferences (argv : list napi_value) : ST Js Input := with_parameters argv RGetPreferences.

(** [napi/preferences/src/napi_preferences_helper.cpp:140-143] DeletePreferences *)
Definition input_DeletePreferences (argv : list napi_value) : ST Js Input :=
  with_parameters argv (fun o => RDeletePreferences (filePath o)).

(** [napi/preferences/src/napi_preferences_helper.cpp:161-164] RemovePreferencesFromCache *)
Definition input_RemovePreferencesFromCache (argv : list napi_value) : ST Js Input :=
  with_parameters argv (fun o => RRemovePreferencesFromCache (filePath o)).

(** An error is thrown at once.

    [napi/preferences/src/napi_preferences_helper.cpp:182-195] IsStorageTypeSupported *)
Definition input_IsStorageTypeSupported (argv : list napi_value) : Input :=
  match argv with
  | [v] => match storage_type v with inl e => inl e | inr t => inr (None, RIsStorageTypeSupported t) end
  | _ => inl (ParamNumError "must have 1 param")
  end.

(** ** The work *)

(** With the object behind the weak pointer, or the code of its absence. *)
Definition with_instance_of (instance : option positive) (k : positive -> SO Js (Z * Answer)) : SO Js (Z * Answer) :=
  j ← run_st get;
  match instance with
  | Some r => match objects (js_hlp j) !! r with Some _ => k r | None => mret (JS_E_INNER_ERROR, ANothing) end
  | None => mret (JS_E_INNER_ERROR, ANothing)
  end.

(** [napi/preferences/src/napi_preferences.cpp:217-225] GetAll *)
Definition exec_GetAll (r : positive) : SO Js (Z * Answer) :=
  m ← js_on_helper (obj_getalldatas r); mret (JS_OK, AElements m).

(** The default for the store is the number 0 as an [int64_t], whatever the
    caller's default is.

    [napi/preferences/src/napi_preferences.cpp:246-254] GetValue *)
Definition exec_GetValue (r : positive) (key : string) (input : napi_value) : SO Js (Z * Answer) :=
  v ← js_on_helper (obj_get r key (VLong 0)); mret (JS_OK, AValue v input).

(** [napi/preferences/src/napi_preferences.cpp:282-289] SetValue *)
Definition exec_SetValue (r : positive) (key : string) (value : PreferencesValue) : SO Js (Z * Answer) :=
  code ← js_on_helper (obj_put RSIZE_MAX r key value); mret (code, ANothing).

(** [napi/preferences/src/napi_preferences.cpp:311-318] Delete *)
Definition exec_Delete (r : positive) (key : string) : SO Js (Z * Answer) :=
  code ← js_on_helper (obj_delete r key); mret (code, ANothing).

(** [napi/preferences/src/napi_preferences.cpp:340-348] HasKey *)
Definition exec_HasKey (r : positive) (key : string) : SO Js (Z * Answer) :=
  b ← js_on_helper (obj_haskey r key); mret (JS_OK, AFlag b).

(** [napi/preferences/src/napi_preferences.cpp:369-376] Flush *)
Definition exec_Flush (r : positive) : SO Js (Z * Answer) :=
  code ← js_on_helper (obj_flushsync r); mret (code, ANothing).

(** [napi/preferences/src/napi_preferences.cpp:397-404] Clear *)
Definition exec_Clear (r : positive) : SO Js (Z * Answer) :=
  code ← js_on_helper (obj_clear r); mret (code, ANothing).

(** [napi/preferences/src/napi_preferences_helper.cpp:119-125] GetPreferences *)
Definition exec_GetPreferences (options : Options) : SO Js (Z * Answer) :=
  '(proxy, errCode) ← js_on_helper (GetPreferences gskvEnabled options); mret (errCode, AProxy proxy).

(** [napi/preferences/src/napi_preferences_helper.cpp:144-146] DeletePreferences *)
Definition exec_DeletePreferences (path : string) : SO Js (Z * Answer) :=
  code ← js_on_helper (DeletePreferences path); mret (code, ANothing).

(** [napi/preferences/src/napi_preferences_helper.cpp:165-167] RemovePreferencesFromCache *)
Definition exec_RemovePreferencesFromCache (path : string) : SO Js (Z * Answer) :=
  code ← js_on_helper (RemovePreferencesFromCache path); mret (code, ANothing).

(** The work of a sendable object is that of another; its result is made
    differently.

    [napi_async_call.cpp:145-152] OnExecute *)
Fixpoint OnExecute (instance : option positive) (request : Request) : SO Js (Z * Answer) :=
  match request with
  | RGetAll => with_instance_of instance exec_GetAll
  | RGetValue key input => with_instance_of instance (fun r => exec_GetValue r key input)
  | RSetValue key value => with_instance_of instance (fun r => exec_SetValue r key value)
  | RDelete key => with_instance_of instance (fun r => exec_Delete r key)
  | RHasKey key => with_instance_of instance (fun r => exec_HasKey r key)
  | RFlush => with_instance_of instance exec_Flush
  | RClear => with_instance_of instance exec_Clear
  | RGetPreferences options => exec_GetPreferences options
  | RDeletePreferences path => exec_DeletePreferences path
  | RRemovePreferencesFromCache path => exec_RemovePreferencesFromCache path
  | RIsStorageTypeSupported type => mret (JS_OK, AFlag (IsStorageTypeSupported gskvEnabled type))
  | RSendable request => '(code, answer) ← OnExecute instance request; mret (code, ASendable answer)
  end.

(** ** The result *)

(** [napi/preferences/src/napi_preferences.cpp:168-171] IsPureDigits *)
Definition IsPureDigits (str : string) : bool :=
  forallb (fun a => let n := Z.of_nat (nat_of_ascii a) in (48 <=? n) && (n <=? 57)) (String.list_ascii_of_string str).

(** [napi/preferences/src/napi_preferences.cpp:173-194] GetAllExecute *)
Definition GetAllExecute (allElements : gmap string PreferencesValue) : napi_value :=
  let l := iterate allElements in
  let descriptors := map (fun e => (c_str e.1, JS_variant e.2)) l in
  if existsb (fun e => IsPureDigits e.1) l then napi_define_properties descriptors
  else napi_create_object_with_properties descriptors.

(** The new object of JavaScript with its proxy.

    [napi/preferences/src/napi_preferences.cpp:102-135] NewInstance *)
Definition NewInstance (value : option positive) : ST Js (option napi_value) := fun j =>
  match value with
  | None => (None, j)
  | Some r =>
      let obj := js_next_proxy j in
      match napi_new_instance obj with
      | None => (None, j)
      | Some instance =>
          (Some instance, mkJs (js_hlp j) (gContextNode j) (<[obj := mkProxy (Some r) [] [] []]> (js_proxies j)) (Pos.succ obj)
             (js_observers j) (js_next j) (js_works j) (js_next_work j) (js_posted j) (js_events j) (js_sendables j))
      end
  end.

(** A stored [int64_t] is taken for the default of the store: the answer is the
    default of the caller.

    [napi/preferences/src/napi_preferences.cpp:255-264] GetValue *)
Definition output_GetValue (v : PreferencesValue) (input : napi_value) : JSError + napi_value :=
  match (if IsLong v then Some input else JS_variant v) with
  | Some result => inr result
  | None => inl (InnerError "Failed to delete reference when getting value.")
  end.

(** The last part of each method.

    [napi/preferences/src/napi_preferences.cpp:349-353] HasKey *)
Definition output_plain (answer : Answer) : ST Js (JSError + napi_value) :=
  match answer with
  | AElements m => mret (inr (GetAllExecute m))
  | AValue v input => mret (output_GetValue v input)
  | AFlag b => mret match napi_get_boolean b with Some v => inr v | None => inl (InnerError "Failed to get boolean when having key.") end
  | AProxy p =>
      instance ← NewInstance p;
      mret match instance with Some v => inr v | None => inl (InnerError "Failed to get instance when getting preferences.") end
  | ANothing | ASendable _ => mret (inr napi_get_undefined)
  end.

(** *** Of sendable objects *)

(** [napi/sendable_preferences/src/napi_preferences.cpp:176-186] GetAllExecute *)
Definition Sendable_GetAllExecute (allElements : gmap string PreferencesValue) : napi_value :=
  napi_create_sendable_object_with_properties (map (fun e => (c_str e.1, Sendable_variant e.2)) (iterate allElements)).

(** [napi/sendable_preferences/src/napi_preferences.cpp:100-131] NewInstance *)
Definition Sendable_NewInstance (value : option positive) : ST Js (option napi_value) := fun j =>
  match value with
  | None => (None, j)
  | Some r =>
      let obj := js_next_proxy j in
      match napi_new_sendable_instance obj with
      | None => (None, j)
      | Some instance =>
          (Some instance, mkJs (js_hlp j) (gContextNode j) (js_proxies j) (Pos.succ obj) (js_observers j) (js_next j) (js_works j) (js_next_work j)
             (js_posted j) (js_events j) (<[obj := mkSendable (Some r) ∅]> (js_sendables j)))
      end
  end.

(** [napi/sendable_preferences/src/napi_preferences.cpp:233-243] GetValue *)
Definition Sendable_output_GetValue (v : PreferencesValue) (input : napi_value) : JSError + napi_value :=
  match (if IsLong v then Some input else Sendable_variant v) with
  | Some result => inr result
  | None => inl (InnerError "Failed to delete reference when getting value.")
  end.

Definition output (answer : Answer) : ST Js (JSError + napi_value) :=
  match answer with
  | ASendable (AElements m) => mret (inr (Sendable_GetAllExecute m))
  | ASendable (AValue v input) => mret (Sendable_output_GetValue v input)
  | ASendable (AProxy p) =>
      instance ← Sendable_NewInstance p;
      mret match instance with Some v => inr v | None => inl (InnerError "Failed to get instance when getting preferences.") end
  | ASendable answer => output_plain answer
  | _ => output_plain answer
  end.

(** [napi_async_call.cpp:154-166] OnComplete *)
Definition OnComplete (execCode : Z) (answer : Answer) : ST Js (JSError + napi_value) :=
  if negb (execCode =? E_OK) then mret (inl (InnerCode execCode)) else output answer.

(** ** Calls *)

(** The callback at the end of the arguments, if there is one.

    [napi_async_call.cpp:28-40] SetAction *)
Definition split_callback (sendable : bool) (argv : list napi_value) : list napi_value * option napi_value :=
  match last argv with
  | Some v => if negb sendable && bool_decide (napi_typeof v = napi_function) then (removelast argv, Some v) else (argv, None)
  | None => (argv, None)
  end.

(** Nothing tells the caller of a failure: the result is [undefined].

    [napi_async_call.cpp:138-143] Sync *)
Definition Sync (instance : option positive) (request : Request) : SO Js napi_value :=
  '(code, answer) ← OnExecute instance request;
  result ← run_st (OnComplete code answer);
  mret match result with inr v => v | inl _ => napi_get_undefined end.

(** Making the promise and queueing the work succeed.  The result is the number
    of the work, for its promise.

    [napi_async_call.cpp:104-136] Async *)
Definition Async (instance : option positive) (request : Request) (callback : option napi_value) (sendable : bool) : ST Js positive := fun j =>
  let id := js_next_work j in
  (id, mkJs (js_hlp j) (gContextNode j) (js_proxies j) (js_next_proxy j) (js_observers j) (js_next j)
    (<[id := mkWork instance request callback sendable None]> (js_works j)) (Pos.succ id) (js_posted j) (js_events j) (js_sendables j)).

(** The result of a call: null when an error was thrown. *)
Inductive CallResult := Thrown | Value (v : napi_value) | Promise (id : positive) | Later.

(** The array has room for ten arguments, and the last one is read wherever it
    is.

    [napi_async_call.cpp:25-60] SetAction *)
Definition call_method (isAsync : bool) (input : napi_value -> list napi_value -> ST Js Input) (self : napi_value) (argv : list napi_value) : SO Js CallResult :=
  if (MAX_INPUT_COUNT <? length argv)%nat then run_out Undef else
  let '(argv, callback) := split_callback (napi_is_sendable self) argv in
  i ← run_st (input self argv);
  match i with
  | inl e => run_st (emit (Threw e));; mret Thrown
  | inr (instance, request) =>
      if isAsync then
        id ← run_st (Async instance request callback (napi_is_sendable self));
        mret (match callback with None => Promise id | Some _ => Later end)
      else v ← Sync instance request; mret (Value v)
  end.

(** The work of a queued call, on another thread. *)
Definition run_work (id : positive) : SO Js unit :=
  j ← run_st get;
  match js_works j !! id with
  | Some (mkWork instance request callback sendable None) =>
      a ← OnExecute instance request;
      run_st (modify (fun j => set_works (<[id := mkWork instance request callback sendable (Some a)]> (js_works j)) j))
  | _ => mret tt
  end.

(** The error object that is handed out; an error of the arguments has none.

    [napi_async_call.cpp:82-97] SetBusinessError *)
Definition SetBusinessError (error : JSError) : option JSError :=
  if GetCode error =? JS_E_INVALID_PARAM then None else Some error.

(** [napi_async_call.cpp:174-204] OnReturn *)
Definition OnReturn (id : positive) (w : Work) (result : JSError + napi_value) : ST Js unit :=
  match w_callback w with
  | None => emit match result with inr v => Resolved id v | inl e => Rejected id (SetBusinessError e) end
  | Some callback =>
      if w_sendable w then mret tt
      else emit match result with inr v => CalledBack callback None v | inl e => CalledBack callback (SetBusinessError e) napi_get_undefined end
  end.

(** Back on the JavaScript thread.

    [napi_async_call.cpp:168-172] OnComplete *)
Definition complete_work (id : positive) : ST Js unit :=
  j ← get;
  match js_works j !! id with
  | Some w =>
      match w_done w with
      | Some (code, answer) =>
          result ← OnComplete code answer;
          modify (fun j => set_works (delete id (js_works j)) j);;
          OnReturn id w result
      | None => mret tt
      end
  | None => mret tt
  end.

(** The check of a method of an object, and of a function, which does not look
    at [this]. *)
Definition reading (input : list napi_value -> napi_value -> Js -> Input) (self : napi_value) (argv : list napi_value) : ST Js Input :=
  fun j => (input argv self j, j).

(** [napi/preferences/src/napi_preferences.cpp:208-233] GetAll *)
Definition PreferencesProxy_GetAll (isAsync : bool) := call_method isAsync (reading input_GetAll).
(** [napi/preferences/src/napi_preferences.cpp:235-269] GetValue *)
Definition PreferencesProxy_GetValue (isAsync : bool) := call_method isAsync (reading input_GetValue).
(** [napi/preferences/src/napi_preferences.cpp:271-299] SetValue *)
Definition PreferencesProxy_SetValue (isAsync : bool) := call_method isAsync (reading input_SetValue).
(** [napi/preferences/src/napi_preferences.cpp:301-328] Delete *)
Definition PreferencesProxy_Delete (isAsync : bool) := call_method isAsync (reading input_Delete).
(** [napi/preferences/src/napi_preferences.cpp:330-358] HasKey *)
Definition PreferencesProxy_HasKey (isAsync : bool) := call_method isAsync (reading input_HasKey).
(** [napi/preferences/src/napi_preferences.cpp:360-386] Flush *)
Definition PreferencesProxy_Flush (isAsync : bool) := call_method isAsync (reading input_Flush).
(** [napi/preferences/src/napi_preferences.cpp:388-414] Clear *)
Definition PreferencesProxy_Clear (isAsync : bool) := call_method isAsync (reading input_Clear).
(** [napi/preferences/src/napi_preferences_helper.cpp:112-135] GetPreferences *)
Definition Js_GetPreferences (isAsync : bool) := call_method isAsync (fun _ => input_GetPreferences).
(** [napi/preferences/src/napi_preferences_helper.cpp:137-156] DeletePreferences *)
Definition Js_DeletePreferences (isAsync : bool) := call_method isAsync (fun _ => input_DeletePreferences).
(** [napi/preferences/src/napi_preferences_helper.cpp:158-177] RemovePreferencesFromCache *)
Definition Js_RemovePreferencesFromCache (isAsync : bool) := call_method isAsync (fun _ => input_RemovePreferencesFromCache).
(** [napi/preferences/src/napi_preferences_helper.cpp:179-211] IsStorageTypeSupported *)
Definition Js_IsStorageTypeSupported := call_method false (fun _ argv j => (input_IsStorageTypeSupported argv, j)).

(** ** Observers *)

(** The list of a mode.

    [napi/preferences/src/napi_preferences.cpp:502-503] HasRegisteredObserver *)
Definition px_observers (mode : RegisterMode) (p : PreferencesProxy) : list positive :=
  match mode with
  | LOCAL_CHANGE => px_localObservers p
  | MULTI_PRECESS_CHANGE => px_multiProcessObservers p
  | _ => px_dataObservers p
  end.

Definition set_px_observers (mode : RegisterMode) (l : list positive) (p : PreferencesProxy) : PreferencesProxy :=
  match mode with
  | LOCAL_CHANGE => mkProxy (px_instance p) l (px_multiProcessObservers p) (px_dataObservers p)
  | MULTI_PRECESS_CHANGE => mkProxy (px_instance p) (px_localObservers p) l (px_dataObservers p)
  | _ => mkProxy (px_instance p) (px_localObservers p) (px_multiProcessObservers p) l
  end.

Definition the_proxy (obj : positive) : SO Js PreferencesProxy :=
  j ← run_st get;
  match js_proxies j !! obj with Some p => mret p | None => run_out Undef end.

Definition put_observers (obj : positive) (mode : RegisterMode) (l : list positive) : SO Js unit :=
  p ← the_proxy obj;
  run_st (modify (fun j => set_proxies (<[obj := set_px_observers mode l p]> (js_proxies j)) j)).

(** The environment of the objects that are not shared. *)
Definition main_env : positive := 1.

(** A new observer with its first owner.

    [js_observer.cpp:19-23] JSObserver *)
Definition make_js_observer (env : positive) (callback : napi_value) : SO Js positive := fun j =>
  let o := js_next j in
  let '(_, h) := own_observer o (js_hlp j) in
  Done (o, mkJs h (gContextNode j) (js_proxies j) (js_next_proxy j) (<[o := mkJsObserver (Some callback) false env true]> (js_observers j)) (Pos.succ o)
    (js_works j) (js_next_work j) (js_posted j) (js_events j) (js_sendables j)).

(** [js_observer.cpp:34-44] ClearCallback *)
Definition ClearCallback (o : positive) : ST Js unit := modify (fun j =>
  match js_observers j !! o with
  | Some x => if jo_queue x then set_js_observers (<[o := mkJsObserver None (jo_sendable x) (jo_env x) (jo_queue x)]> (js_observers j)) j else j
  | None => j
  end).

(** Notifications that were not delivered own their observers. *)
Definition posted_owns (j : Js) (o : positive) : bool := existsb (fun e => bool_decide (e.1 = o)) (js_posted j).

(** A list that owned observers is left by some. *)
Definition js_drop (l : list positive) : SO Js unit :=
  j ← run_st get;
  js_on_helper (run_st (drop_observers (List.filter (fun o => negb (posted_owns j o)) l))).

(** The queue of observers goes with the object that owned it. *)
Definition lose_queue (l : list positive) : ST Js unit := modify (fun j =>
  set_js_observers (foldr (fun o m => match m !! o with
    | Some x => <[o := mkJsObserver (jo_callback x) (jo_sendable x) (jo_env x) false]> m
    | None => m
    end) (js_observers j) l) j).

(** Whether the observer has the callback.

    [js_observer.cpp:29-32] GetCallback *)
Definition has_callback (j : Js) (callback : napi_value) (o : positive) : bool :=
  match js_observers j !! o with Some x => Equals (Some callback) (jo_callback x) | None => false end.

(** [napi/preferences/src/napi_preferences.cpp:500-511] HasRegisteredObserver *)
Definition HasRegisteredObserver (obj : positive) (callback : napi_value) (mode : RegisterMode) : SO Js bool :=
  p ← the_proxy obj;
  j ← run_st get;
  mret (existsb (has_callback j callback) (px_observers mode p)).

(** [napi/preferences/src/napi_preferences.cpp:513-522] ConvertToRegisterMode *)
Definition js_register_mode (mode : string) : RegisterMode :=
  if bool_decide (mode = "change") then LOCAL_CHANGE
  else if bool_decide (mode = "multiProcessChange") then MULTI_PRECESS_CHANGE else DATA_CHANGE.

(** A new observer is given to the object and to the list of the mode.

    [napi/preferences/src/napi_preferences.cpp:529-540] RegisteredObserver *)
Definition add_observer (obj : positive) (callback : napi_value) (mode : RegisterMode) (register : positive -> positive -> SO Helper Z) : SO Js Z :=
  observer ← make_js_observer main_env callback;
  p ← the_proxy obj;
  match px_instance p with
  | None => js_drop [observer];; mret JS_E_INNER_ERROR
  | Some instance =>
      errCode ← js_on_helper (register instance observer);
      if negb (errCode =? E_OK) then js_drop [observer];; mret errCode
      else put_observers obj mode (px_observers mode p ++ [observer]);; mret E_OK
  end.

(** [napi/preferences/src/napi_preferences.cpp:524-543] RegisteredObserver *)
Definition RegisteredObserver (obj : positive) (callback : napi_value) (mode : RegisterMode) : SO Js Z :=
  has ← HasRegisteredObserver obj callback mode;
  if (has : bool) then mret E_OK else add_observer obj callback mode (fun instance o => obj_register instance o mode).

(** Keys for a callback that has some already are not registered.

    [napi/preferences/src/napi_preferences.cpp:625-645] RegisteredDataObserver *)
Definition RegisteredDataObserver (obj : positive) (keys : list string) (callback : napi_value) : SO Js Z :=
  p ← the_proxy obj;
  match px_instance p with
  | None => mret JS_E_INNER_ERROR
  | Some _ =>
      has ← HasRegisteredObserver obj callback DATA_CHANGE;
      if (has : bool) then mret E_OK else add_observer obj callback DATA_CHANGE (fun instance o => obj_register_data instance o keys)
  end.

(** The first observer with the callback, and what is around it. *)
Fixpoint split_at_callback (j : Js) (callback : napi_value) (l : list positive) : option (list positive * positive * list positive) :=
  match l with
  | [] => None
  | o :: l =>
      if has_callback j callback o then Some ([], o, l)
      else match split_at_callback j callback l with Some (l1, x, l2) => Some (o :: l1, x, l2) | None => None end
  end.

(** [napi/preferences/src/napi_preferences.cpp:545-569] UnRegisteredObserver *)
Definition UnRegisteredObserver (obj : positive) (callback : napi_value) (mode : RegisterMode) : SO Js Z :=
  p ← the_proxy obj;
  match px_instance p with
  | None => mret JS_E_INNER_ERROR
  | Some instance =>
      j ← run_st get;
      match split_at_callback j callback (px_observers mode p) with
      | None => mret E_OK
      | Some (l1, o, l2) =>
          errCode ← js_on_helper (obj_unregister instance o mode);
          if negb (errCode =? E_OK) then mret errCode else
          run_st (ClearCallback o);;
          put_observers obj mode (l1 ++ l2);;
          js_drop [o];;
          mret E_OK
      end
  end.

(** Whether one of them failed. *)
Fixpoint js_unregister_each (instance : positive) (mode : RegisterMode) (l : list positive) : SO Js bool :=
  match l with
  | [] => mret false
  | observer :: l =>
      errCode ← js_on_helper (obj_unregister instance observer mode);
      run_st (ClearCallback observer);;
      failed ← js_unregister_each instance mode l;
      mret (negb (errCode =? E_OK) || failed)
  end.

(** The loop over the observers of data: those that are left, and the code of
    the failure that ended it.

    [napi/preferences/src/napi_preferences.cpp:688-707] UnRegisteredDataObserver *)
Fixpoint unregister_data_loop (instance : positive) (keys : list string) (callback : option napi_value) (l : list positive)
    : SO Js (list positive * option Z) :=
  match l with
  | [] => mret ([], None)
  | o :: rest =>
      j ← run_st get;
      if (match callback with None => true | Some f => has_callback j f o end) then
        errCode ← js_on_helper (obj_unregister_data instance o keys);
        if negb (errCode =? E_OK) && negb (errCode =? E_OBSERVER_RESERVE) then mret (l, Some errCode) else
        kept ← (if errCode =? E_OK then run_st (ClearCallback o);; js_drop [o];; mret [] else mret [o]);
        match callback with
        | Some _ => mret (kept ++ rest, None)
        | None => '(rest, e) ← unregister_data_loop instance keys callback rest; mret (kept ++ rest, e)
        end
      else '(rest, e) ← unregister_data_loop instance keys callback rest; mret (o :: rest, e)
  end.

(** [napi/preferences/src/napi_preferences.cpp:678-710] UnRegisteredDataObserver *)
Definition UnRegisteredDataObserver (obj : positive) (keys : list string) (callback : option napi_value) : SO Js Z :=
  p ← the_proxy obj;
  match px_instance p with
  | None => mret JS_E_INNER_ERROR
  | Some instance =>
      '(l, e) ← unregister_data_loop instance keys callback (px_dataObservers p);
      put_observers obj DATA_CHANGE l;;
      mret (default E_OK e)
  end.

(** [napi/preferences/src/napi_preferences.cpp:571-596] UnRegisteredAllObservers *)
Definition Js_UnRegisteredAllObservers (obj : positive) (mode : RegisterMode) (keys : list string) : SO Js Z :=
  match mode with
  | DATA_CHANGE => UnRegisteredDataObserver obj keys None
  | _ =>
      p ← the_proxy obj;
      match px_instance p with
      | None => mret JS_E_INNER_ERROR
      | Some instance =>
          hasFailed ← js_unregister_each instance mode (px_observers mode p);
          put_observers obj mode [];;
          js_drop (px_observers mode p);;
          mret (if (hasFailed : bool) then E_ERROR else E_OK)
      end
  end.

(** *** [on] and [off] *)

Definition throw (e : JSError) : SO Js CallResult := run_st (emit (Threw e));; mret Thrown.

(** The code of a registration, which is thrown when it is not [OK]. *)
Definition returning (code : SO Js Z) : SO Js CallResult :=
  errCode ← code;
  if errCode =? JS_OK then mret (Value napi_get_undefined) else throw (InnerCode errCode).

(** The proxy behind [this] when it has an object. *)
Definition with_proxy (self : napi_value) (msg : string) (k : positive -> SO Js CallResult) : SO Js CallResult :=
  j ← run_st get;
  match GetSelfInstance self j with
  | (Some obj, Some _) => k obj
  | _ => throw (InnerError msg)
  end.

Definition mode_name (registerMode : string) : bool :=
  bool_decide (registerMode = "change") || bool_decide (registerMode = "multiProcessChange") || bool_decide (registerMode = "dataChange").

(** The text of a string, empty when it is not read. *)
Definition text_of (v : napi_value) : string := match Native_string v with inr s => s | inl _ => "" end.

(** [napi/preferences/src/napi_preferences.cpp:598-623] RegisterDataObserver *)
Definition RegisterDataObserver_js (argv : list napi_value) (self : napi_value) : SO Js CallResult :=
  match argv with
  | [_; k; f] =>
      if negb (napi_is_array k) then throw (ParamTypeError "The keys must be Array.") else
      match Native_vector Native_string k with
      | inr (key :: keys) =>
          if negb (bool_decide (napi_typeof f = napi_function)) then throw (ParamTypeError "The callback must be function.") else
          with_proxy self "Failed to unwrap when register callback" (fun obj => returning (RegisteredDataObserver obj (key :: keys) f))
      | _ => throw (ParamTypeError "The keys must be Array<string>.")
      end
  | _ => throw (ParamNumError "3")
  end.

(** [napi/preferences/src/napi_preferences.cpp:416-451] RegisterObserver *)
Definition RegisterObserver_js (argv : list napi_value) (self : napi_value) : SO Js CallResult :=
  match argv with
  | m :: f :: rest =>
      if (1 <? length rest)%nat then throw (ParamNumError "2 or 3") else
      if negb (bool_decide (napi_typeof m = napi_string)) then throw (ParamTypeError "The registerMode must be string.") else
      let registerMode := text_of m in
      if negb (mode_name registerMode) then throw (ParamTypeError "The registerMode must be 'change' or 'multiProcessChange' or 'dataChange'.") else
      if bool_decide (registerMode = "dataChange") then RegisterDataObserver_js argv self else
      match rest with
      | [] =>
          if negb (bool_decide (napi_typeof f = napi_function)) then throw (ParamTypeError "The callback must be function.") else
          with_proxy self "Failed to unwrap when register callback" (fun obj => returning (RegisteredObserver obj f (js_register_mode registerMode)))
      | _ => throw (ParamNumError "2")
      end
  | _ => throw (ParamNumError "2 or 3")
  end.

(** A callback that may be missing: a function, or nothing. *)
Definition callback_arg (f : option napi_value) : JSError + option napi_value :=
  match f with
  | None => inr None
  | Some v =>
      if bool_decide (napi_typeof v = napi_function) then inr (Some v)
      else checked (type_is_nothing v) (ParamTypeError "The callback must be function.") (inr None)
  end.

(** [napi/preferences/src/napi_preferences.cpp:647-676] UnRegisterDataObserver *)
Definition UnRegisterDataObserver_js (argv : list napi_value) (self : napi_value) : SO Js CallResult :=
  match argv with
  | _ :: k :: rest =>
      if (1 <? length rest)%nat then throw (ParamNumError "2 or 3") else
      match Native_vector Native_string k with
      | inl _ => throw (ParamTypeError "The keys must be Array<string>.")
      | inr keys =>
          match callback_arg (head rest) with
          | inl e => throw e
          | inr f =>
              with_proxy self "Failed to unwrap when unregister callback" (fun obj =>
                returning (match f with
                           | Some _ => UnRegisteredDataObserver obj keys f
                           | None => Js_UnRegisteredAllObservers obj DATA_CHANGE keys
                           end))
          end
      end
  | _ => throw (ParamNumError "2 or 3")
  end.

(** [napi/preferences/src/napi_preferences.cpp:453-498] UnRegisterObserver *)
Definition UnRegisterObserver_js (argv : list napi_value) (self : napi_value) : SO Js CallResult :=
  match argv with
  | m :: rest =>
      if negb (bool_decide (napi_typeof m = napi_string)) then throw (ParamTypeError "The registerMode must be string.") else
      let registerMode := text_of m in
      if negb (mode_name registerMode) then throw (ParamTypeError "The unRegisterMode must be 'change' or 'multiProcessChange' or 'dataChange'.") else
      if bool_decide (registerMode = "dataChange") then UnRegisterDataObserver_js argv self else
      if (1 <? length rest)%nat then throw (ParamNumError "1 or 2") else
      match callback_arg (head rest) with
      | inl e => throw e
      | inr f =>
          with_proxy self "Failed to unwrap when register callback" (fun obj =>
            returning (match f with
                       | Some callback => UnRegisteredObserver obj callback (js_register_mode registerMode)
                       | None => Js_UnRegisteredAllObservers obj (js_register_mode registerMode) []
                       end))
      end
  | [] => throw (ParamNumError "more than 1")
  end.

(** The object of JavaScript is collected, with its lists and its queue.

    [napi/preferences/src/napi_preferences.cpp:60-72] ~PreferencesProxy *)
Definition PreferencesProxy_Destructor (obj : positive) : SO Js unit :=
  _ ← Js_UnRegisteredAllObservers obj LOCAL_CHANGE [];
  _ ← Js_UnRegisteredAllObservers obj MULTI_PRECESS_CHANGE [];
  _ ← Js_UnRegisteredAllObservers obj DATA_CHANGE [];
  p ← the_proxy obj;
  let l := px_localObservers p ++ px_multiProcessObservers p ++ px_dataObservers p in
  run_st (lose_queue l);;
  run_st (modify (fun j => set_proxies (delete obj (js_proxies j)) j));;
  js_drop l.

(** *** Notifications *)

(** An event for the environment of the observer.

    [js_observer.cpp:57-78] AsyncCall *)
Definition JSObserver_AsyncCall (o : positive) (args : list (option napi_value)) : ST Js unit := modify (fun j =>
  match js_observers j !! o with
  | Some (mkJsObserver (Some _) _ _ true) => set_posted (js_posted j ++ [(o, args)]) j
  | _ => j
  end).

(** [napi_preferences_observer.cpp:29-36] OnChange *)
Definition JS_OnChange (o : positive) (key : string) : ST Js unit :=
  JSObserver_AsyncCall o [napi_create_string_utf8 key].

(** The values are those for sendable objects, also when the object is not.

    [napi_preferences_observer.cpp:38-53] OnChange *)
Definition JS_OnChange_records (o : positive) (records : gmap string PreferencesValue) : ST Js unit := fun j =>
  match js_observers j !! o with
  | Some x =>
      let descriptors := map (fun e => (c_str e.1, Sendable_variant e.2)) (in_order records) in
      JSObserver_AsyncCall o [Some (if jo_sendable x then napi_create_sendable_object_with_properties descriptors
                                    else napi_create_object_with_properties descriptors)] j
  | None => (tt, j)
  end.

(** Whether the list of an object has the observer. *)
Definition listed (j : Js) (o : positive) : bool :=
  existsb (fun e => bool_decide (o ∈ px_localObservers e.2 ++ px_multiProcessObservers e.2 ++ px_dataObservers e.2)) (map_to_list (js_proxies j)) ||
  existsb (fun e => existsb (fun f => bool_decide (o ∈ so_local f.2 ++ so_multi f.2 ++ so_data f.2)) (map_to_list (sp_observers e.2)))
    (map_to_list (js_sendables j)).

(** The first event of an environment, and the others. *)
Fixpoint next_posted (j : Js) (env : positive) (l : list (positive * list (option napi_value)))
    : option (positive * list (option napi_value) * list (positive * list (option napi_value))) :=
  match l with
  | [] => None
  | e :: l =>
      if (match js_observers j !! e.1 with Some x => bool_decide (jo_env x = env) | None => false end) then Some (e, l)
      else match next_posted j env l with Some (x, rest) => Some (x, e :: rest) | None => None end
  end.

(** The next event of an environment: the callback is called unless it was
    cleared meanwhile, and the event gives up its observer, which others may
    own.

    [uv_queue.cpp:35-77] AsyncCall *)
Definition run_posted_keeping (owned : positive -> bool) (env : positive) : SO Js unit :=
  j ← run_st get;
  match next_posted j env (js_posted j) with
  | None => mret tt
  | Some ((o, args), rest) =>
      run_st (modify (set_posted rest));;
      (match js_observers j !! o with
       | Some (mkJsObserver (Some callback) _ _ _) => run_st (emit (Notified callback args))
       | _ => mret tt
       end);;
      if listed j o || owned o then mret tt else js_drop [o]
  end.

Definition run_posted : positive -> SO Js unit := run_posted_keeping (fun _ => false).
End Js.
