(* ===== verification/JsSendable.v ===== *)
(** * Sendable objects of JavaScript

    Models [napi_preferences.cpp] and [napi_preferences_helper.cpp] of
    [frameworks/js/napi/sendable_preferences]: objects that several
    environments of the engine share, over the calls of [Js].  The observers
    of an environment are kept apart and go with it. *)

From S2P Require Import Prelude Errno Value Utils NumText ConcurrentMap Env FileLock Store DbAdapter Base Impl Enhance Helper.
From S2P Require Import Handle JsValue Js.

Section JsSendable.
Context `{XmlStore} `{SafeBlockQueue} `{KvDb} `{Iteration} `{Napi} `{!AbilityRuntime}.
Context (RSIZE_MAX : Z) (gskvEnabled : bool).

Abbreviation Input := (sum JSError (option positive * Request)).
Abbreviation call := (call_method RSIZE_MAX gskvEnabled).

(** ** Arguments *)

(** [napi/sendable_preferences/src/napi_preferences.cpp:144-151] ParseKey *)
Definition Sendable_ParseKey (arg : napi_value) : JSError + string :=
  match Native_string arg with
  | inl _ => inl (ParamTypeError "The key must be string.")
  | inr key => checked (slen key <=? MAX_KEY_LENGTH) (ParamTypeError "The key must be less than 1024 bytes.") (inr key)
  end.

(** [napi/sendable_preferences/src/napi_preferences.cpp:153-162] ParseDefValue *)
Definition Sendable_ParseDefValue (jsVal : napi_value) : JSError + PreferencesValue :=
  match FromSendable_variant jsVal with
  | inr v => inr v
  | inl rc =>
      inl (ParamTypeError (if rc =? EXCEED_MAX_LENGTH then "The type of value must be less then 16 * 1024 * 1024 btyes."
                           else "The type of value must be ValueType."))
  end.

(** [napi/sendable_preferences/src/napi_preferences.cpp:164-174] GetSelfInstance *)
Definition Sendable_GetSelfInstance (self : napi_value) (j : Js) : option positive * option positive :=
  match napi_unwrap_sendable self with
  | None => (None, None)
  | Some obj => (Some obj, match js_sendables j !! obj with Some p => sp_instance p | None => None end)
  end.

(** Only the object of JavaScript is checked. *)
Definition sendable_instance (self : napi_value) (j : Js) (msg : string) (r : Request) : Input :=
  match Sendable_GetSelfInstance self j with
  | (Some _, instance) => inr (instance, RSendable r)
  | (None, _) => inl (InnerError msg)
  end.

Definition sendable_input_GetAll (argv : list napi_value) (self : napi_value) (j : Js) : Input :=
  match argv with
  | [] => sendable_instance self j "Failed to unwrap when getting all." RGetAll
  | _ => inl (ParamNumError "0 or 1")
  end.

Definition sendable_input_GetValue (argv : list napi_value) (self : napi_value) (j : Js) : Input :=
  match argv with
  | [k; d] =>
      match Sendable_ParseKey k with
      | inl e => inl e
      | inr key => sendable_instance self j "Failed to unwrap when getting value." (RGetValue key d)
      end
  | _ => inl (ParamNumError "2 or 3")
  end.

Definition sendable_input_SetValue (argv : list napi_value) (self : napi_value) (j : Js) : Input :=
  match argv with
  | [k; v] =>
      match Sendable_ParseKey k with
      | inl e => inl e
      | inr key =>
          match Sendable_ParseDefValue v with
          | inl e => inl e
          | inr value => sendable_instance self j "Failed to unwrap when setting value." (RSetValue key value)
          end
      end
  | _ => inl (ParamNumError "2 or 3")
  end.

Definition sendable_input_Delete (argv : list napi_value) (self : napi_value) (j : Js) : Input :=
  match argv with
  | [k] => match Sendable_ParseKey k with inl e => inl e | inr key => sendable_instance self j "Failed to unwrap when deleting value." (RDelete key) end
  | _ => inl (ParamNumError "1 or 2")
  end.

Definition sendable_input_HasKey (argv : list napi_value) (self : napi_value) (j : Js) : Input :=
  match argv with
  | [k] => match Sendable_ParseKey k with inl e => inl e | inr key => sendable_instance self j "Failed to unwrap when having key." (RHasKey key) end
  | _ => inl (ParamNumError "1 or 2")
  end.

Definition sendable_input_Flush (argv : list napi_value) (self : napi_value) (j : Js) : Input :=
  match argv with [] => sendable_instance self j "Failed to unwrap when flushing." RFlush | _ => inl (ParamNumError "0 or 1") end.

Definition sendable_input_Clear (argv : list napi_value) (self : napi_value) (j : Js) : Input :=
  match argv with [] => sendable_instance self j "Failed to unwrap unwrap when clearing." RClear | _ => inl (ParamNumError "0 or 1") end.

(** *** Of the factory *)

(** A status that is not [napi_ok] leaves the null pointer, or [false], that
    was there before. *)
Definition sendable_name (arg : napi_value) : JSError + (string * string) :=
  match Native_string arg with
  | inr name => inr (name, "")
  | inl _ =>
      match napi_get_named_property arg "name" with
      | None => inl (ParamTypeError "The name must be string.")
      | Some temp =>
          match Native_string temp with
          | inl _ => inl (ParamTypeError "The name must be string.")
          | inr name =>
              match napi_has_named_property arg "dataGroupId", napi_get_named_property arg "dataGroupId" with
              | Some true, Some temp =>
                  if type_is_nothing temp then inr (name, "")
                  else match Native_string temp with
                       | inl _ => inl (ParamTypeError "The dataGroupId must be string.")
                       | inr dataGroupId => inr (name, dataGroupId)
                       end
              | _, _ => inr (name, "")
              end
          end
      end
  end.

(** [napi/sendable_preferences/src/napi_preferences_helper.cpp:47-75] ParseParameters *)
Definition Sendable_ParseParameters (context arg : napi_value) : ST Js (JSError + Options) :=
  match sendable_name arg with
  | inl e => mret (inl e)
  | inr (name, dataGroupId) =>
      info ← GetContextInfo (Some context) dataGroupId;
      mret match info with
      | (Some e, _) => inl e
      | (None, (preferencesDir, bundleName)) => inr (mkOptions (preferencesDir +:+ "/" +:+ name) bundleName dataGroupId false)
      end
  end.

Definition with_sendable_parameters (k : Options -> Request) (self : napi_value) (argv : list napi_value) : ST Js Input :=
  match argv with
  | [context; arg] =>
      o ← Sendable_ParseParameters context arg;
      mret match o with inl e => inl e | inr options => inr (None, RSendable (k options)) end
  | _ => mret (inl (ParamNumError "2 or 3"))
  end.

(** ** Calls *)

(** [napi/sendable_preferences/src/napi_preferences.cpp:188-211] GetAll *)
Definition Sendable_GetAll (isAsync : bool) := call isAsync (reading sendable_input_GetAll).
(** [napi/sendable_preferences/src/napi_preferences.cpp:213-248] GetValue *)
Definition Sendable_GetValue (isAsync : bool) := call isAsync (reading sendable_input_GetValue).
(** [napi/sendable_preferences/src/napi_preferences.cpp:250-279] SetValue *)
Definition Sendable_SetValue (isAsync : bool) := call isAsync (reading sendable_input_SetValue).
(** [napi/sendable_preferences/src/napi_preferences.cpp:281-309] Delete *)
Definition Sendable_Delete (isAsync : bool) := call isAsync (reading sendable_input_Delete).
(** [napi/sendable_preferences/src/napi_preferences.cpp:311-340] HasKey *)
Definition Sendable_HasKey (isAsync : bool) := call isAsync (reading sendable_input_HasKey).
(** [napi/sendable_preferences/src/napi_preferences.cpp:342-369] Flush *)
Definition Sendable_Flush (isAsync : bool) := call isAsync (reading sendable_input_Flush).
(** [napi/sendable_preferences/src/napi_preferences.cpp:371-398] Clear *)
Definition Sendable_Clear (isAsync : bool) := call isAsync (reading sendable_input_Clear).
(** [napi/sendable_preferences/src/napi_preferences_helper.cpp:77-99] GetPreferences *)
Definition Sendable_GetPreferences (isAsync : bool) := call isAsync (with_sendable_parameters RGetPreferences).
(** [napi/sendable_preferences/src/napi_preferences_helper.cpp:101-118] DeletePreferences *)
Definition Sendable_DeletePreferences (isAsync : bool) := call isAsync (with_sendable_parameters (fun o => RDeletePreferences (filePath o))).
(** [napi/sendable_preferences/src/napi_preferences_helper.cpp:120-137] RemovePreferencesFromCache *)
Definition Sendable_RemovePreferencesFromCache (isAsync : bool) :=
  call isAsync (with_sendable_parameters (fun o => RRemovePreferencesFromCache (filePath o))).

(** ** Observers *)

Definition so_list (mode : RegisterMode) (o : JSObservers) : list positive :=
  match mode with
  | LOCAL_CHANGE => so_local o
  | MULTI_PRECESS_CHANGE => so_multi o
  | _ => so_data o
  end.

Definition set_so_list (mode : RegisterMode) (l : list positive) (o : JSObservers) : JSObservers :=
  match mode with
  | LOCAL_CHANGE => mkJSObservers l (so_multi o) (so_data o)
  | MULTI_PRECESS_CHANGE => mkJSObservers (so_local o) l (so_data o)
  | _ => mkJSObservers (so_local o) (so_multi o) l
  end.

Definition no_observers : JSObservers := mkJSObservers [] [] [].

Definition set_sendables v (j : Js) : Js :=
  mkJs (js_hlp j) (gContextNode j) (js_proxies j) (js_next_proxy j) (js_observers j) (js_next j) (js_works j) (js_next_work j) (js_posted j) (js_events j) v.

Definition the_sendable (obj : positive) : SO Js SendableProxy :=
  j ← run_st get;
  match js_sendables j !! obj with Some p => mret p | None => run_out Undef end.

(** The observers of an environment change. *)
Definition put_env (obj env : positive) (v : JSObservers) : SO Js unit :=
  p ← the_sendable obj;
  run_st (modify (fun j => set_sendables (<[obj := mkSendable (sp_instance p) (<[env := v]> (sp_observers p))]> (js_sendables j)) j)).

(** [napi/sendable_preferences/src/napi_preferences.cpp:565-591] Subscribe *)
Definition JSObservers_Subscribe (obj env : positive) (self : JSObservers) (callback : napi_value) (mode : RegisterMode) (keys : list string) : SO Js Z :=
  j ← run_st get;
  if existsb (has_callback j callback) (so_list mode self) then mret E_OK else
  jsObserver ← make_js_observer env callback;
  p ← the_sendable obj;
  match sp_instance p with
  | None => js_drop [jsObserver];; mret JS_E_INNER_ERROR
  | Some instance =>
      errCode ← js_on_helper (obj_subscribe instance jsObserver mode keys);
      if negb (errCode =? E_OK) then js_drop [jsObserver];; mret errCode
      else put_env obj env (set_so_list mode (so_list mode self ++ [jsObserver]) self);; mret errCode
  end.

(** The observers that are left, and the last failure.

    [napi/sendable_preferences/src/napi_preferences.cpp:602-613] Unsubscribe *)
Fixpoint unsubscribe_loop (instance : positive) (callback : option napi_value) (mode : RegisterMode) (keys : list string) (l : list positive)
    : SO Js (list positive * option Z) :=
  match l with
  | [] => mret ([], None)
  | o :: rest =>
      j ← run_st get;
      if (match callback with None => true | Some f => has_callback j f o end) then
        status ← js_on_helper (obj_unsubscribe instance o mode keys);
        if status =? E_OK then
          run_st (ClearCallback o);;
          js_drop [o];;
          unsubscribe_loop instance callback mode keys rest
        else
          '(kept, e) ← unsubscribe_loop instance callback mode keys rest;
          mret (o :: kept, Some (default status e))
      else
        '(kept, e) ← unsubscribe_loop instance callback mode keys rest;
        mret (o :: kept, e)
  end.

(** [napi/sendable_preferences/src/napi_preferences.cpp:593-616] Unsubscribe *)
Definition JSObservers_Unsubscribe (obj env : positive) (self : JSObservers) (callback : option napi_value) (mode : RegisterMode) (keys : list string) : SO Js Z :=
  p ← the_sendable obj;
  match sp_instance p with
  | None => mret JS_E_INNER_ERROR
  | Some instance =>
      '(l, e) ← unsubscribe_loop instance callback mode keys (so_list mode self);
      put_env obj env (set_so_list mode l self);;
      mret (default E_OK e)
  end.

(** The observers of an environment are made when it has none.

    [napi/sendable_preferences/src/napi_preferences.cpp:506-519] RegisteredObserver *)
Definition Sendable_RegisteredObserver (obj env : positive) (callback : napi_value) (mode : RegisterMode) (keys : list string) : SO Js Z :=
  p ← the_sendable obj;
  it ← (match sp_observers p !! env with
        | Some it => mret it
        | None => put_env obj env no_observers;; mret no_observers
        end);
  JSObservers_Subscribe obj env it callback mode keys.

(** [napi/sendable_preferences/src/napi_preferences.cpp:521-530] UnregisteredObserver *)
Definition Sendable_UnregisteredObserver (obj env : positive) (callback : option napi_value) (mode : RegisterMode) (keys : list string) : SO Js Z :=
  p ← the_sendable obj;
  match sp_observers p !! env with
  | None => mret E_OK
  | Some it => JSObservers_Unsubscribe obj env it callback mode keys
  end.

(** The observers of an environment at the moment. *)
Definition env_observers (obj env : positive) : SO Js JSObservers :=
  p ← the_sendable obj;
  mret (default no_observers (sp_observers p !! env)).

(** All observers of an environment, and the environment, are given up.

    [napi/sendable_preferences/src/napi_preferences.cpp:532-541] ~JSObservers *)
Definition JSObservers_Destructor (obj env : positive) : SO Js unit :=
  it ← env_observers obj env;
  _ ← JSObservers_Unsubscribe obj env it None LOCAL_CHANGE [];
  it ← env_observers obj env;
  _ ← JSObservers_Unsubscribe obj env it None MULTI_PRECESS_CHANGE [];
  it ← env_observers obj env;
  _ ← JSObservers_Unsubscribe obj env it None DATA_CHANGE [];
  p ← the_sendable obj;
  let it := default no_observers (sp_observers p !! env) in
  let l := so_local it ++ so_multi it ++ so_data it in
  run_st (lose_queue l);;
  run_st (modify (fun j => set_sendables (<[obj := mkSendable (sp_instance p) (delete env (sp_observers p))]> (js_sendables j)) j));;
  js_drop l.

(** An environment that had observers with the object ends.

    [napi/sendable_preferences/src/napi_preferences.cpp:549-563] CleanEnv *)
Definition CleanEnv (obj env : positive) : SO Js unit :=
  j ← run_st get;
  match js_sendables j !! obj with
  | Some p => match sp_observers p !! env with Some _ => JSObservers_Destructor obj env | None => mret tt end
  | None => mret tt
  end.

Fixpoint destroy_each (obj : positive) (envs : list positive) : SO Js unit :=
  match envs with
  | [] => mret tt
  | env :: envs => JSObservers_Destructor obj env;; destroy_each obj envs
  end.

(** The last environment has let go of the object.

    [napi/sendable_preferences/src/napi_preferences.cpp:58-62] ~PreferencesProxy *)
Definition Sendable_Destructor (obj : positive) : SO Js unit :=
  p ← the_sendable obj;
  destroy_each obj (map_to_list (sp_observers p)).*1;;
  run_st (modify (fun j => set_sendables (delete obj (js_sendables j)) j)).

(** *** [on] and [off] *)

Definition keys_of (mode : RegisterMode) (arg : napi_value) : JSError + list string :=
  match mode with
  | DATA_CHANGE =>
      match FromSendable_vector Native_string arg with
      | inr (key :: keys) => inr (key :: keys)
      | _ => inl (ParamTypeError "The keys must be Array<string>.")
      end
  | _ => inr []
  end.

(** The arguments after the mode: the keys, when the mode has some, and what is
    left.  A missing argument is [undefined]. *)
Definition mode_args (mode : RegisterMode) (args : list napi_value) : JSError + (list string * list napi_value) :=
  match keys_of mode (default napi_get_undefined (head args)) with
  | inl e => inl e
  | inr keys => inr (keys, match mode with DATA_CHANGE => tail args | _ => args end)
  end.

(** [napi/sendable_preferences/src/napi_preferences.cpp:400-440] RegisterObserver *)
Definition Sendable_RegisterObserver_js (env : positive) (argv : list napi_value) (self : napi_value) : SO Js CallResult :=
  match argv with
  | m :: f :: rest =>
      if (1 <? length rest)%nat then throw (ParamNumError "2 or 3") else
      if negb (bool_decide (napi_typeof m = napi_string)) then throw (ParamTypeError "The registerMode must be string.") else
      if negb (mode_name (text_of m)) then throw (ParamTypeError "The registerMode must be 'change' or 'multiProcessChange' or 'dataChange'.") else
      let mode := js_register_mode (text_of m) in
      match mode_args mode (f :: rest) with
      | inl e => throw e
      | inr (keys, [callback]) =>
          if negb (bool_decide (napi_typeof callback = napi_function)) then throw (ParamTypeError "The callback must be function.") else
          j ← run_st get;
          match Sendable_GetSelfInstance self j with
          | (Some obj, Some _) => returning (Sendable_RegisteredObserver obj env callback mode keys)
          | _ => throw (InnerError "Failed to unwrap when register callback")
          end
      | inr _ => throw (ParamNumError "2 or 3")
      end
  | _ => throw (ParamNumError "2 or 3")
  end.

(** A callback that is [undefined] or [null] is one, which no observer has.

    [napi/sendable_preferences/src/napi_preferences.cpp:442-493] UnregisterObserver *)
Definition Sendable_UnregisterObserver_js (env : positive) (argv : list napi_value) (self : napi_value) : SO Js CallResult :=
  match argv with
  | m :: args =>
      if negb (bool_decide (napi_typeof m = napi_string)) then throw (ParamTypeError "The registerMode must be string.") else
      if negb (mode_name (text_of m)) then throw (ParamTypeError "The unRegisterMode must be 'change' or 'multiProcessChange' or 'dataChange'.") else
      let mode := js_register_mode (text_of m) in
      match mode_args mode args with
      | inl e => throw e
      | inr (keys, rest) =>
          if (1 <? length rest)%nat then throw (ParamNumError "1 or 2 or 3") else
          let callback := head rest in
          if (match callback with
              | Some f => negb (bool_decide (napi_typeof f = napi_function) || type_is_nothing f)
              | None => false
              end) then throw (ParamTypeError "The callback must be function.") else
          j ← run_st get;
          match Sendable_GetSelfInstance self j with
          | (Some obj, _) => returning (Sendable_UnregisteredObserver obj env callback mode keys)
          | (None, _) => throw (InnerError "Failed to unwrap when unregister callback")
          end
      end
  | [] => throw (ParamNumError "more than 1")
  end.
End JsSendable.
