(* ===== verification/JsStorage.v ===== *)
(** * The older storage interface for JavaScript

    Models [napi_storage.cpp] and [napi_storage_helper.cpp] of
    [frameworks/js/napi/storage].  A storage object owns an object of the store
    for good; its synchronous methods check their arguments themselves, the
    others are calls of [napi_async_call.cpp], whose work may follow a null
    pointer. *)

From S2P Require Import Prelude Errno Value Utils NumText ConcurrentMap Env FileLock Store DbAdapter Base Impl Enhance Helper.
From S2P Require Import Handle JsValue Js.

(** ** State *)

(** [napi/storage/include/napi_storage.h:33-68] StorageProxy *)
Record StorageProxy := mkStorageProxy { sg_value : positive; sg_observers : list positive }.

(** What a call asks of the object, with the key and the value as far as they
    were read.

    [napi_storage.cpp:36-48] StorageAysncContext *)
Inductive StRequest :=
  | StGet (key : string) (defValue : PreferencesValue)
  | StPut (key : string) (defValue : PreferencesValue)
  | StDelete (key : string)
  | StHas (key : string)
  | StFlush
  | StClear
  | StGetStorage (path : string)
  | StDeleteStorage (path : string)
  | StRemoveStorage (path : string).

Inductive StAnswer :=
  | StValue (v : PreferencesValue)
  | StFlag (b : bool)
  | StPath (path : string)
  | StNothing.

(** An asynchronous call between its steps. *)
Record StWork `{Napi} := mkStWork {
  sw_bound : option positive;
  sw_request : StRequest;
  sw_callback : option napi_value;
  sw_sendable : bool;
  sw_done : option (Z * StAnswer)
}.
Arguments mkStWork {_} _ _ _ _ _.

Definition ERR : Z := -1.
Definition PATH_MAX : Z := 4096.

Section JsStorage.
Context `{XmlStore} `{SafeBlockQueue} `{KvDb} `{Iteration} `{Napi} `{!AbilityRuntime}.
Context (RSIZE_MAX : Z) (gskvEnabled : bool).

Record St := mkSt {
  st_js : Js;
  st_proxies : gmap positive StorageProxy;
  st_works : gmap positive StWork;
  st_next_work : positive
}.

Definition set_st_js j (s : St) := mkSt j (st_proxies s) (st_works s) (st_next_work s).
Definition set_st_proxies v (s : St) := mkSt (st_js s) v (st_works s) (st_next_work s).
Definition set_st_works v (s : St) := mkSt (st_js s) (st_proxies s) v (st_next_work s).

Definition on_js {A} (m : SO Js A) : SO St A := fun s => '(a, j) ← m (st_js s); Done (a, set_st_js j s).
Definition on_store {A} (m : SO Helper A) : SO St A := on_js (js_on_helper m).
Definition raise (e : JsEvent) : SO St CallResult := on_js (run_st (emit e));; mret Thrown.

(** The values that JavaScript sees for a null pointer. *)
Definition nothing : SO St CallResult := mret (Value napi_get_undefined).

(** ** Typed access through the pointer

    The accessors of [Base] on either kind of object. *)

Definition obj_GetDouble (r : positive) (key : string) (defValue : Z) : SO Helper Z :=
  v ← obj_get r key (PreferencesValue_double defValue);
  mret (if negb (IsDouble v) then defValue else default defValue (as_double v)).
Definition obj_GetString (r : positive) (key : string) (defValue : string) : SO Helper string :=
  v ← obj_get r key (PreferencesValue_string defValue);
  mret (if negb (IsString v) then defValue else default defValue (as_string v)).
Definition obj_GetBool (r : positive) (key : string) (defValue : bool) : SO Helper bool :=
  v ← obj_get r key (PreferencesValue_bool defValue);
  mret (if negb (IsBool v) then defValue else default defValue (as_bool v)).
Definition obj_PutDouble (r : positive) (key : string) (value : Z) : SO Helper Z := obj_put RSIZE_MAX r key (PreferencesValue_double value).
Definition obj_PutString (r : positive) (key : string) (value : string) : SO Helper Z := obj_put RSIZE_MAX r key (PreferencesValue_string value).
Definition obj_PutBool (r : positive) (key : string) (value : bool) : SO Helper Z := obj_put RSIZE_MAX r key (PreferencesValue_bool value).

(** ** Objects *)

Definition path_options (path : string) : Options := mkOptions path "" "" false.

(** The storage behind a pointer: a null pointer, and one to something else, is
    not followed. *)
Definition the_storage (obj : option positive) : SO St StorageProxy :=
  s ← run_st get;
  match obj with
  | Some obj => match st_proxies s !! obj with Some p => mret p | None => run_out Undef end
  | None => run_out Undef
  end.

(** What the constructor leaves: an exception, an object that is not one of a
    storage, or one that is. *)
Inductive NewResult := NewFailed | NewBare | NewWrapped (thiz : napi_value).

(** [napi_storage.cpp:119-165] New *)
Definition Storage_New (arg : napi_value) : SO St NewResult :=
  if negb (bool_decide (napi_typeof arg = napi_string)) then raise (Asserted "input type not string");; mret NewFailed else
  if negb (napi_malloc PATH_MAX) then mret NewBare else
  match napi_copy_string_utf8 arg PATH_MAX with
  | None => mret NewBare
  | Some path =>
      '(preference, errCode) ← on_store (GetPreferences gskvEnabled (path_options (c_str path)));
      match preference with
      | None => raise (Asserted "failed to call native");; mret NewFailed
      | Some r =>
          s ← run_st get;
          let j := st_js s in
          let obj := js_next_proxy j in
          match napi_new_instance obj with
          | None => mret NewBare
          | Some thiz =>
              run_st (modify (fun s => mkSt
                (mkJs (js_hlp j) (gContextNode j) (js_proxies j) (Pos.succ obj) (js_observers j) (js_next j) (js_works j) (js_next_work j) (js_posted j) (js_events j) (js_sendables j))
                (<[obj := mkStorageProxy r []]> (st_proxies s)) (st_works s) (st_next_work s)));;
              mret (NewWrapped thiz)
          end
      end
  end.

(** The instance when there is no exception.

    [napi_storage.cpp:98-117] NewInstance *)
Definition Storage_NewInstance (arg : napi_value) : SO St (option napi_value) :=
  n ← Storage_New arg;
  mret match n with NewFailed => None | NewBare => Some (napi_define_properties []) | NewWrapped thiz => Some thiz end.

(** ** Arguments *)

(** A text of a limited length.

    [napi_storage.cpp:175-203] ParseString *)
Definition St_ParseString (jsStr : napi_value) (maxLength : Z) : Z + string :=
  match napi_get_value_string_utf8 jsStr with
  | None => inl ERR
  | Some s =>
      if maxLength <? slen s then inl ERR
      else if negb (napi_malloc (slen s + 1)) then inl ERR
      else inr (c_str s)
  end.

(** The key, an error, or neither when there is no memory for it.

    [napi_storage.cpp:257-299] ParseKey *)
Definition St_ParseKey (arg : napi_value) : JSError + option string :=
  if negb (bool_decide (napi_typeof arg = napi_string)) then inl (ParamTypeError "The key must be string.") else
  match napi_get_value_string_utf8 arg with
  | None => inl (ParamTypeError "Failed to get keyBufferSize.")
  | Some s =>
      if MAX_KEY_LENGTH <? slen s then inl (ParamTypeError "The key must be less than 1024 bytes.")
      else if negb (napi_malloc (slen s + 1)) then inr None
      else inr (Some (c_str s))
  end.

(** [napi_storage.cpp:301-350] ParseDefValue *)
Definition St_ParseDefValue (jsVal : napi_value) : JSError + PreferencesValue :=
  match napi_typeof jsVal with
  | napi_number => match Native_double jsVal with inr d => inr (PreferencesValue_double d) | inl _ => inl (ParamTypeError "The type of value must be ValueType.") end
  | napi_string =>
      match Native_string jsVal with
      | inr s => inr (PreferencesValue_string s)
      | inl ret =>
          inl (ParamTypeError (if ret =? EXCEED_MAX_LENGTH then "The value must be less than 16 * 1024 * 1024 bytes."
                               else "The type of value must be ValueType."))
      end
  | napi_boolean => match Native_bool jsVal with inr b => inr (PreferencesValue_bool b) | inl _ => inl (ParamTypeError "The type of value must be ValueType.") end
  | _ => inl (ParamTypeError "The type of value must be ValueType.")
  end.

(** The value that the context holds before one is read. *)
Definition no_value : PreferencesValue := PreferencesValue_int 0.

(** An error of the arguments, or what is to be done with which object. *)
Definition StInput : Type := sum JSError (option positive * StRequest).

(** A key and a value. *)
Definition st_input_entry (request : string -> PreferencesValue -> StRequest) (argv : list napi_value) (self : napi_value) : StInput :=
  match argv with
  | [k; v] =>
      match St_ParseKey k with
      | inl e => inl e
      | inr None => inr (None, request "" no_value)
      | inr (Some key) => match St_ParseDefValue v with inl e => inl e | inr value => inr (napi_unwrap self, request key value) end
      end
  | _ => inl (ParamNumError "2 or 3")
  end.

Definition st_input_key (request : string -> StRequest) (argv : list napi_value) (self : napi_value) : StInput :=
  match argv with
  | [k] =>
      match St_ParseKey k with
      | inl e => inl e
      | inr None => inr (None, request "")
      | inr (Some key) => inr (napi_unwrap self, request key)
      end
  | _ => inl (ParamNumError "1 or 2")
  end.

Definition st_input_none (request : StRequest) (argv : list napi_value) (self : napi_value) : StInput :=
  match argv with [] => inr (napi_unwrap self, request) | _ => inl (ParamNumError "0 or 1") end.

(** The path that was read, whether or not it was: memory that was not written
    is not read.

    [napi_storage_helper.cpp:52-68] ParseString *)
Definition St_ParsePath (value : napi_value) : outcome (option string) :=
  if negb (napi_malloc PATH_MAX) then Done None else
  match napi_copy_string_utf8 value PATH_MAX with None => Undef | Some path => Done (Some (c_str path)) end.

Definition st_input_path (request : string -> StRequest) (argv : list napi_value) : outcome StInput :=
  match argv with
  | [value] => path ← St_ParsePath value; Done (inr (None, request (default "" path)))
  | _ => Done (inl (ParamNumError "1 or 2"))
  end.

(** ** The work *)

(** [napi_storage.cpp:362-379] GetValue *)
Definition st_exec_get (bound : option positive) (key : string) (defValue : PreferencesValue) : SO St (Z * StAnswer) :=
  match defValue with
  | VBool b => obj ← the_storage bound; v ← on_store (obj_GetBool (sg_value obj) key b); mret (JS_OK, StValue (PreferencesValue_bool v))
  | VString x => obj ← the_storage bound; v ← on_store (obj_GetString (sg_value obj) key x); mret (JS_OK, StValue (PreferencesValue_string v))
  | VDouble d => obj ← the_storage bound; v ← on_store (obj_GetDouble (sg_value obj) key d); mret (JS_OK, StValue (PreferencesValue_double v))
  | _ => mret (ERR, StValue defValue)
  end.

(** [napi_storage.cpp:452-465] SetValue *)
Definition st_exec_put (bound : option positive) (key : string) (defValue : PreferencesValue) : SO St (Z * StAnswer) :=
  match defValue with
  | VBool b => obj ← the_storage bound; code ← on_store (obj_PutBool (sg_value obj) key b); mret (code, StNothing)
  | VString x => obj ← the_storage bound; code ← on_store (obj_PutString (sg_value obj) key x); mret (code, StNothing)
  | VDouble d => obj ← the_storage bound; code ← on_store (obj_PutDouble (sg_value obj) key d); mret (code, StNothing)
  | _ => mret (ERR, StNothing)
  end.

Definition st_execute (bound : option positive) (request : StRequest) : SO St (Z * StAnswer) :=
  match request with
  | StGet key v => st_exec_get bound key v
  | StPut key v => st_exec_put bound key v
  | StDelete key => obj ← the_storage bound; code ← on_store (obj_delete (sg_value obj) key); mret (code, StNothing)
  | StHas key => obj ← the_storage bound; b ← on_store (obj_haskey (sg_value obj) key); mret (JS_OK, StFlag b)
  | StFlush => obj ← the_storage bound; code ← on_store (obj_flushsync (sg_value obj)); mret (code, StNothing)
  | StClear => obj ← the_storage bound; code ← on_store (obj_clear (sg_value obj)); mret (code, StNothing)
  | StGetStorage path =>
      '(preference, errCode) ← on_store (GetPreferences gskvEnabled (path_options path)); mret (errCode, StPath path)
  | StDeleteStorage path => code ← on_store (DeletePreferences path); mret (if code =? E_OK then JS_OK else ERR, StNothing)
  | StRemoveStorage path => code ← on_store (RemovePreferencesFromCache path); mret (if code =? E_OK then JS_OK else ERR, StNothing)
  end.

(** ** The result *)

(** [napi_storage.cpp:380-393] GetValue *)
Definition st_output_value (v : PreferencesValue) : JSError + option napi_value :=
  match v with
  | VBool b => inr (napi_get_boolean b)
  | VString x => inr (napi_create_string_utf8 x)
  | VDouble d => inr (napi_create_double d)
  | _ => inl (InnerError "type error in get value.")
  end.

(** A null pointer, [None], becomes [undefined]. *)
Definition st_output (answer : StAnswer) : SO St (JSError + option napi_value) :=
  match answer with
  | StValue v => mret (st_output_value v)
  | StFlag b => mret match napi_get_boolean b with Some v => inr (Some v) | None => inl (InnerError "Failed to get boolean when having key.") end
  | StPath path =>
      instance ← (match napi_create_string_utf8 path with Some v => Storage_NewInstance v | None => run_out Undef end);
      mret match instance with Some v => inr (Some v) | None => inl (InnerError "Failed to get instance when getting storage.") end
  | StNothing => mret (inr (Some napi_get_undefined))
  end.

Definition st_complete (code : Z) (answer : StAnswer) : SO St (JSError + napi_value) :=
  if negb (code =? E_OK) then mret (inl (InnerCode code))
  else result ← st_output answer; mret match result with inl e => inl e | inr v => inr (default napi_get_undefined v) end.

(** ** Calls

    The steps of [napi_async_call.cpp], as in [Js]; these calls are always
    asynchronous. *)

Definition st_call (input : list napi_value -> napi_value -> outcome StInput) (self : napi_value) (argv : list napi_value) : SO St CallResult :=
  if (MAX_INPUT_COUNT <? length argv)%nat then run_out Undef else
  let '(argv, callback) := split_callback (napi_is_sendable self) argv in
  i ← run_out (input argv self);
  match i with
  | inl e => raise (Threw e)
  | inr (bound, request) =>
      s ← run_st get;
      let id := st_next_work s in
      run_st (modify (fun s => mkSt (st_js s) (st_proxies s) (<[id := mkStWork bound request callback (napi_is_sendable self) None]> (st_works s)) (Pos.succ id)));;
      mret (match callback with None => Promise id | Some _ => Later end)
  end.

Definition st_run_work (id : positive) : SO St unit :=
  s ← run_st get;
  match st_works s !! id with
  | Some (mkStWork bound request callback sendable None) =>
      a ← st_execute bound request;
      run_st (modify (fun s => set_st_works (<[id := mkStWork bound request callback sendable (Some a)]> (st_works s)) s))
  | _ => mret tt
  end.

Definition st_complete_work (id : positive) : SO St unit :=
  s ← run_st get;
  match st_works s !! id with
  | Some (mkStWork bound request callback sendable (Some (code, answer))) =>
      result ← st_complete code answer;
      run_st (modify (fun s => set_st_works (delete id (st_works s)) s));;
      match callback with
      | None => on_js (run_st (emit match result with inr v => Resolved id v | inl e => Rejected id (SetBusinessError e) end))
      | Some f =>
          if sendable then mret tt
          else on_js (run_st (emit match result with inr v => CalledBack f None v | inl e => CalledBack f (SetBusinessError e) napi_get_undefined end))
      end
  | _ => mret tt
  end.

Definition pure_input (input : list napi_value -> napi_value -> StInput) (argv : list napi_value) (self : napi_value) : outcome StInput := Done (input argv self).

(** [napi_storage.cpp:352-398] GetValue *)
Definition Storage_GetValue := st_call (pure_input (st_input_entry StGet)).
(** [napi_storage.cpp:442-475] SetValue *)
Definition Storage_SetValue := st_call (pure_input (st_input_entry StPut)).
(** [napi_storage.cpp:499-522] Delete *)
Definition Storage_Delete := st_call (pure_input (st_input_key StDelete)).
(** [napi_storage.cpp:547-571] HasKey *)
Definition Storage_HasKey := st_call (pure_input (st_input_key StHas)).
(** [napi_storage.cpp:573-594] Flush *)
Definition Storage_Flush := st_call (pure_input (st_input_none StFlush)).
(** [napi_storage.cpp:621-642] Clear *)
Definition Storage_Clear := st_call (pure_input (st_input_none StClear)).
(** [napi_storage_helper.cpp:70-96] GetStorage *)
Definition GetStorage := st_call (fun argv _ => st_input_path StGetStorage argv).
(** [napi_storage_helper.cpp:143-168] DeleteStorage *)
Definition DeleteStorage := st_call (fun argv _ => st_input_path StDeleteStorage argv).
(** [napi_storage_helper.cpp:189-212] RemoveStorageFromCache *)
Definition RemoveStorageFromCache := st_call (fun argv _ => st_input_path StRemoveStorage argv).

(** ** Synchronous methods *)

(** The storage behind [this], or the error of the call that looks for it. *)
Definition with_storage (self : napi_value) (k : StorageProxy -> SO St CallResult) : SO St CallResult :=
  match napi_unwrap self with
  | None => raise LastError
  | Some obj => p ← the_storage (Some obj); k p
  end.

(** A key that is read as a text of at most 1024 bytes. *)
Definition with_key (arg : napi_value) (k : string -> SO St CallResult) : SO St CallResult :=
  if negb (bool_decide (napi_typeof arg = napi_string)) then raise (Asserted "type mismatch for key") else
  match St_ParseString arg MAX_KEY_LENGTH with
  | inl _ => raise (Asserted "ParseString failed")
  | inr key => k key
  end.

(** What a call of the engine made, or the error when it failed. *)
Definition answer_of (v : option napi_value) : SO St CallResult :=
  match v with Some v => mret (Value v) | None => raise LastError end.

Definition asserted (code : Z) (msg : string) : SO St CallResult := if code =? E_OK then nothing else raise (Asserted msg).

(** [napi_storage.cpp:205-255] GetValueSync *)
Definition Storage_GetValueSync (self : napi_value) (argv : list napi_value) : SO St CallResult :=
  match argv with
  | [k; d] =>
      with_key k (fun key =>
      with_storage self (fun obj =>
        match napi_typeof d with
        | napi_number =>
            match napi_get_value_double d with
            | None => raise LastError
            | Some value => result ← on_store (obj_GetDouble (sg_value obj) key value); answer_of (napi_create_double result)
            end
        | napi_string =>
            if negb (napi_malloc MAX_VALUE_LENGTH) then nothing else
            match napi_copy_string_utf8 d MAX_VALUE_LENGTH with
            | None => run_out Undef
            | Some value => result ← on_store (obj_GetString (sg_value obj) key (c_str value)); answer_of (napi_create_string_utf8 result)
            end
        | napi_boolean =>
            match napi_get_value_bool d with
            | None => raise LastError
            | Some value => result ← on_store (obj_GetBool (sg_value obj) key value); answer_of (napi_get_boolean result)
            end
        | _ => raise (Asserted "Wrong second parameter type")
        end))
  | _ => raise (Asserted "Wrong number of arguments")
  end.

(** [napi_storage.cpp:400-440] SetValueSync *)
Definition Storage_SetValueSync (self : napi_value) (argv : list napi_value) : SO St CallResult :=
  match argv with
  | [k; v] =>
      with_key k (fun key =>
      with_storage self (fun obj =>
        match napi_typeof v with
        | napi_number =>
            match napi_get_value_double v with
            | None => raise LastError
            | Some value => code ← on_store (obj_PutDouble (sg_value obj) key value); asserted code "call PutDouble failed"
            end
        | napi_string =>
            match St_ParseString v MAX_VALUE_LENGTH with
            | inl _ => raise (Asserted "ParseString failed")
            | inr value => code ← on_store (obj_PutString (sg_value obj) key value); asserted code "call PutString failed"
            end
        | napi_boolean =>
            match napi_get_value_bool v with
            | None => raise LastError
            | Some value => code ← on_store (obj_PutBool (sg_value obj) key value); asserted code "call PutBool failed"
            end
        | _ => raise (Asserted "Wrong second parameter type")
        end))
  | _ => raise (Asserted "Wrong number of arguments")
  end.

(** [napi_storage.cpp:477-497] DeleteSync *)
Definition Storage_DeleteSync (self : napi_value) (argv : list napi_value) : SO St CallResult :=
  match argv with
  | [k] => with_key k (fun key => with_storage self (fun obj => code ← on_store (obj_delete (sg_value obj) key); asserted code "call Delete failed"))
  | _ => raise (Asserted "Wrong number of arguments")
  end.

(** [napi_storage.cpp:524-545] HasKeySync *)
Definition Storage_HasKeySync (self : napi_value) (argv : list napi_value) : SO St CallResult :=
  match argv with
  | [k] => with_key k (fun key => with_storage self (fun obj => b ← on_store (obj_haskey (sg_value obj) key); answer_of (napi_get_boolean b)))
  | _ => raise (Asserted "Wrong number of arguments")
  end.

(** The code of the flush is the result.

    [napi_storage.cpp:596-607] FlushSync *)
Definition Storage_FlushSync (self : napi_value) : SO St CallResult :=
  with_storage self (fun obj => result ← on_store (obj_flushsync (sg_value obj)); answer_of (napi_create_int64 result)).

(** [napi_storage.cpp:609-619] ClearSync *)
Definition Storage_ClearSync (self : napi_value) : SO St CallResult :=
  with_storage self (fun obj => code ← on_store (obj_clear (sg_value obj)); asserted code "call Clear failed").

(** A missing argument is [undefined].

    [napi_storage_helper.cpp:40-50] GetStorageSync *)
Definition GetStorageSync (argv : list napi_value) : SO St CallResult :=
  instance ← Storage_NewInstance (default napi_get_undefined (head argv));
  mret match instance with Some v => Value v | None => Thrown end.

(** [napi_storage_helper.cpp:98-123] GetInputPath *)
Definition GetInputPath (argv : list napi_value) : option string :=
  match argv with
  | value :: _ =>
      if negb (bool_decide (napi_typeof value = napi_string)) then None
      else if negb (napi_malloc PATH_MAX) then None
      else match napi_copy_string_utf8 value PATH_MAX with Some path => Some (c_str path) | None => None end
  | [] => None
  end.

(** [napi_storage_helper.cpp:125-141] DeleteStorageSync *)
Definition DeleteStorageSync (argv : list napi_value) : SO St CallResult :=
  match GetInputPath argv with
  | None => raise (ThrewText None "Input path error")
  | Some path =>
      errCode ← on_store (DeletePreferences path);
      if negb (errCode =? E_OK) then raise (ThrewText (Some (to_string errCode)) "deleteStorage failed") else nothing
  end.

(** [napi_storage_helper.cpp:170-187] RemoveStorageFromCacheSync *)
Definition RemoveStorageFromCacheSync (argv : list napi_value) : SO St CallResult :=
  match GetInputPath argv with
  | None => raise (ThrewText None "Input path error")
  | Some path =>
      errCode ← on_store (RemovePreferencesFromCache path);
      if negb (errCode =? E_OK) then raise (ThrewText (Some (to_string errCode)) "removeStorageFromCache failed") else nothing
  end.

(** ** Observers *)

Definition put_st_observers (obj : positive) (l : list positive) : SO St unit :=
  p ← the_storage (Some obj);
  run_st (modify (fun s => set_st_proxies (<[obj := mkStorageProxy (sg_value p) l]> (st_proxies s)) s)).

(** [napi_storage.cpp:694-704] HasRegisteredObserver *)
Definition Storage_HasRegisteredObserver (obj : positive) (callback : napi_value) : SO St bool :=
  p ← the_storage (Some obj);
  s ← run_st get;
  mret (existsb (has_callback (st_js s) callback) (sg_observers p)).

(** The observer is listed whether or not the object took it.

    [napi_storage.cpp:706-714] RegisterObserver *)
Definition Storage_RegisterObserver (obj : positive) (callback : napi_value) : SO St unit :=
  has ← Storage_HasRegisteredObserver obj callback;
  if (has : bool) then mret tt else
  p ← the_storage (Some obj);
  observer ← on_js (make_js_observer main_env callback);
  _ ← on_store (obj_register (sg_value p) observer LOCAL_CHANGE);
  put_st_observers obj (sg_observers p ++ [observer]).

(** The callbacks of the observers are kept.

    [napi_storage.cpp:716-729] UnRegisterObserver *)
Fixpoint st_unregister_loop (value : positive) (callback : napi_value) (l : list positive) : SO St (list positive) :=
  match l with
  | [] => mret []
  | o :: rest =>
      s ← run_st get;
      if negb (has_callback (st_js s) callback o) then kept ← st_unregister_loop value callback rest; mret (o :: kept)
      else
        _ ← on_store (obj_unregister value o LOCAL_CHANGE);
        on_js (js_drop [o]);;
        st_unregister_loop value callback rest
  end.

(** [napi_storage.cpp:716-729] UnRegisterObserver *)
Definition Storage_UnRegisterObserver (obj : positive) (callback : napi_value) : SO St unit :=
  p ← the_storage (Some obj);
  l ← st_unregister_loop (sg_value p) callback (sg_observers p);
  put_st_observers obj l.

(** The text is ['change'] and the second argument a function; missing ones are
    [undefined]. *)
Definition st_change_args (argv : list napi_value) (msg : string) (k : napi_value -> SO St CallResult) : SO St CallResult :=
  let m := default napi_get_undefined (head argv) in
  let f := default napi_get_undefined (head (tail argv)) in
  if negb (bool_decide (napi_typeof m = napi_string)) then raise (Asserted msg) else
  if negb (match Native_string m with inr change => bool_decide (change = "change") | inl _ => false end) then raise (Asserted "type should be 'change'") else
  if negb (bool_decide (napi_typeof f = napi_function)) then raise (Asserted "observer not function type") else k f.

(** [napi_storage.cpp:644-667] RegisterObserver *)
Definition Storage_RegisterObserver_js (self : napi_value) (argv : list napi_value) : SO St CallResult :=
  st_change_args argv "type should be 'change'" (fun f =>
    match napi_unwrap self with None => raise LastError | Some obj => Storage_RegisterObserver obj f;; nothing end).

(** [napi_storage.cpp:669-692] UnRegisterObserver *)
Definition Storage_UnRegisterObserver_js (self : napi_value) (argv : list napi_value) : SO St CallResult :=
  st_change_args argv "key not string type" (fun f =>
    match napi_unwrap self with None => raise LastError | Some obj => Storage_UnRegisterObserver obj f;; nothing end).

Fixpoint st_unregister_each (value : positive) (l : list positive) : SO St unit :=
  match l with
  | [] => mret tt
  | o :: l => _ ← on_store (obj_unregister value o LOCAL_CHANGE); st_unregister_each value l
  end.

(** [napi_storage.cpp:57-65] ~StorageProxy *)
Definition Storage_Destructor (obj : positive) : SO St unit :=
  p ← the_storage (Some obj);
  st_unregister_each (sg_value p) (sg_observers p);;
  on_js (run_st (lose_queue (sg_observers p)));;
  run_st (modify (fun s => set_st_proxies (delete obj (st_proxies s)) s));;
  on_js (js_drop (sg_observers p)).

(** The next event, whose observer the lists of storages may own. *)
Definition st_run_posted : SO St unit :=
  s ← run_st get;
  on_js (run_posted_keeping (fun o => existsb (fun e => bool_decide (o ∈ sg_observers e.2)) (map_to_list (st_proxies s))) main_env).
End JsStorage.
