(* ===== verification/JsClient.v ===== *)
(** * What a program in JavaScript sees

    Facts about [Js]: through an object of JavaScript the synchronous methods
    are those of a map, which failures are reported, which entries are hidden,
    and that observers are switched on and off. *)

From S2P Require Import Prelude Errno Value Utils NumText ConcurrentMap Env FileLock Store DbAdapter Base Impl Enhance Helper.
From S2P Require Import Handle JsValue Js.

(** The number of arguments of a call is within the limit. *)
Abbreviation few l := (length l <= MAX_INPUT_COUNT)%nat.
Ltac few_args := unfold MAX_INPUT_COUNT; cbn [length]; lia.

(** The cases of a method and its arguments. *)
Ltac by_args m argv := destruct m; destruct argv as [|? [|? [|? ?]]]; try done.

Section js_client.
Context `{XmlStore} `{SafeBlockQueue} `{KvDb} `{Iteration} `{NapiLaws} `{!AbilityRuntime}.
Context (RSIZE_MAX : Z) (gskvEnabled : bool).

(** The value [self] wraps the proxy [obj], whose object [p] has been loaded. *)
Record js_linked (j : Js) (self : napi_value) (obj r : positive) (px : PreferencesProxy) (p : PreferencesImpl) : Prop := {
  jl_unwrap : napi_unwrap self = Some obj;
  jl_proxy : js_proxies j !! obj = Some px;
  jl_instance : px_instance px = Some r;
  jl_plain : napi_is_sendable self = false;
  jl_opened : opened (js_hlp j) r p
}.

Lemma js_on_helper_done {A} (f : SO Helper A) a j h : f (js_hlp j) = Done (a, h) -> js_on_helper f j = Done (a, set_hlp h j).
Proof. intros E. unfold js_on_helper. by rewrite E. Qed.

Lemma self_instance_linked j self obj r px p msg req : js_linked j self obj r px p -> self_instance self j msg req = inr (Some r, req).
Proof. intros [Hu Hp Hi _ _]. unfold self_instance, GetSelfInstance. by rewrite Hu, Hp, Hi. Qed.

(** A call on the object of a proxy. *)
Lemma js_virtual {A} (meth : ST PreferencesImpl A) (wrap : A -> reply) o me j self obj r px p :
  exec o = (x ← meth; mret (wrap x)) -> js_linked j self obj r px p ->
  exists a h p', js_on_helper (virtual r meth me) j = Done (a, set_hlp h j) /\
    js_linked (set_hlp h j) self obj r px p' /\ wrap a = (spec o (view p)).1 /\ same_map (view p') (spec o (view p)).2.
Proof.
  intros He [Hu Hp Hi Hs Hop]. destruct (virtual_opened meth wrap o me _ _ _ He Hop) as (a & h & p' & E & Hop' & Ha & Hv).
  exists a, h, p'. by rewrite (js_on_helper_done _ _ _ _ E).
Qed.

Lemma with_instance_of_linked j self obj r px p k : js_linked j self obj r px p -> with_instance_of (Some r) k j = k r j.
Proof. intros [_ _ _ _ [Ho _]]. unfold with_instance_of. rewrite so_bind_st. cbn [get fst snd]. by rewrite Ho. Qed.

Lemma emit_linked e j self obj r px p : js_linked j self obj r px p -> js_linked (emit e j).2 self obj r px p.
Proof. by intros []. Qed.

(** ** Synchronous methods *)

Inductive js_method := MPut | MGet | MHas | MDelete | MClear | MGetAll | MFlush.

(** A synchronous call: the method, with all of its arguments. *)
Definition js_op : Type := js_method * list napi_value.

Definition js_call (self : napi_value) (o : js_op) : SO Js CallResult :=
  match o.1 with
  | MPut => PreferencesProxy_SetValue RSIZE_MAX gskvEnabled false self o.2
  | MGet => PreferencesProxy_GetValue RSIZE_MAX gskvEnabled false self o.2
  | MHas => PreferencesProxy_HasKey RSIZE_MAX gskvEnabled false self o.2
  | MDelete => PreferencesProxy_Delete RSIZE_MAX gskvEnabled false self o.2
  | MClear => PreferencesProxy_Clear RSIZE_MAX gskvEnabled false self o.2
  | MGetAll => PreferencesProxy_GetAll RSIZE_MAX gskvEnabled false self o.2
  | MFlush => PreferencesProxy_Flush RSIZE_MAX gskvEnabled false self o.2
  end.

(** A function at the end is taken for a callback, which is never called. *)
Definition js_argv (o : js_op) : list napi_value := (split_callback false o.2).1.

(** What a call asks for: something of the map, or that it be flushed. *)
Inductive Ask := AskMap (q : op) | AskFlush.

Definition key_ask (k : napi_value) (f : string -> option Ask) : option Ask :=
  match ParseKey k with inr key => f key | inl _ => None end.

(** The arguments that are accepted, and what they ask for. *)
Definition args_ask (m : js_method) (argv : list napi_value) : option Ask :=
  match m, argv with
  | MPut, [k; v] => key_ask k (fun key => match Native_variant v with inr w => Some (AskMap (OPut key w)) | inl _ => None end)
  | MGet, [k; _] => key_ask k (fun key => Some (AskMap (OGet key (VLong 0))))
  | MHas, [k] => key_ask k (fun key => Some (AskMap (OHasKey key)))
  | MDelete, [k] => key_ask k (fun key => Some (AskMap (ODelete key)))
  | MClear, [] => Some (AskMap OClear)
  | MGetAll, [] => Some (AskMap OGetAllDatas)
  | MFlush, [] => Some AskFlush
  | _, _ => None
  end.

Definition js_asks (o : js_op) : option Ask := args_ask o.1 (js_argv o).

(** The reply on the map [m], where values are compared with [==]; a flush may
    fail. *)
Definition replies (q : Ask) (m : gmap string PreferencesValue) (rep : reply) : Prop :=
  match q with AskMap q => same_reply rep (spec q m).1 | AskFlush => exists z, rep = RCode z end.

Definition ask_map (q : Ask) (m : gmap string PreferencesValue) : gmap string PreferencesValue :=
  match q with AskMap q => (spec q m).2 | AskFlush => m end.

(** The map after a call. *)
Definition js_map (o : js_op) (m : gmap string PreferencesValue) : gmap string PreferencesValue :=
  match js_asks o with Some q => ask_map q m | None => m end.

(** What a reply is for JavaScript: codes are lost, and an [int64_t] is the
    default of the caller, the second argument. *)
Definition js_result (argv : list napi_value) (rep : reply) : napi_value :=
  match rep with
  | RValue w => if IsLong w then default napi_get_undefined (argv !! 1%nat) else default napi_get_undefined (JS_variant w)
  | RBool b => default napi_get_undefined (napi_get_boolean b)
  | RMap m => GetAllExecute m
  | _ => napi_get_undefined
  end.

Definition js_agrees (o : js_op) (m : gmap string PreferencesValue) (res : CallResult) : Prop :=
  match js_asks o with
  | None => res = Thrown
  | Some q => exists rep, replies q m rep /\ res = Value (js_result (js_argv o) rep)
  end.

Fixpoint js_run (self : napi_value) (l : list js_op) : SO Js (list CallResult) :=
  match l with
  | [] => mret []
  | o :: l => r ← js_call self o; rs ← js_run self l; mret (r :: rs)
  end.

Fixpoint js_agree_all (l : list js_op) (m : gmap string PreferencesValue) (rs : list CallResult) : Prop :=
  match l, rs with
  | [], [] => True
  | o :: l, r :: rs => js_agrees o m r /\ js_agree_all l (js_map o m) rs
  | _, _ => False
  end.

(** *** The shape of a synchronous call *)

Lemma call_split isAsync input self argv argv' cb i j : napi_is_sendable self = false -> few argv -> split_callback false argv = (argv', cb) ->
  input self argv' j = (i, j) ->
  call_method RSIZE_MAX gskvEnabled isAsync input self argv j = match i with
    | inl e => Done (Thrown, (emit (Threw e) j).2)
    | inr (instance, request) =>
        (if isAsync then
           id ← run_st (Async instance request cb false);
           mret (match cb with None => Promise id | Some _ => Later end)
         else v ← Sync RSIZE_MAX gskvEnabled instance request; mret (Value v)) j
    end.
Proof.
  intros Hs Hf Es Ei. unfold call_method. rewrite (proj2 (Nat.ltb_ge _ _) Hf), Hs, Es, so_bind_st, Ei. cbn [fst snd].
  destruct i as [e|[instance request]]; [by rewrite so_bind_st|done].
Qed.

Lemma call_throws input self argv argv' cb e j : napi_is_sendable self = false -> few argv -> split_callback false argv = (argv', cb) ->
  input self argv' j = (inl e, j) ->
  call_method RSIZE_MAX gskvEnabled false input self argv j = Done (Thrown, (emit (Threw e) j).2).
Proof. intros Hs Hf Es Ei. by rewrite (call_split _ _ _ _ _ _ _ _ Hs Hf Es Ei). Qed.

Lemma call_works input self argv argv' cb inst req j code a j' : napi_is_sendable self = false -> few argv -> split_callback false argv = (argv', cb) ->
  input self argv' j = (inr (inst, req), j) -> OnExecute RSIZE_MAX gskvEnabled inst req j = Done ((code, a), j') ->
  call_method RSIZE_MAX gskvEnabled false input self argv j =
    Done (Value (match (OnComplete code a j').1 with inr v => v | inl _ => napi_get_undefined end), (OnComplete code a j').2).
Proof.
  intros Hs Hf Es Ei Ee. rewrite (call_split _ _ _ _ _ _ _ _ Hs Hf Es Ei). unfold Sync, mbind, so_bind. rewrite Ee.
  unfold run_st. by destruct (OnComplete code a j').
Qed.

(** *** What the check of the arguments gives *)

Definition js_input (m : js_method) : list napi_value -> napi_value -> Js -> sum JSError (option positive * Request) :=
  match m with
  | MPut => input_SetValue | MGet => input_GetValue | MHas => input_HasKey | MDelete => input_Delete | MClear => input_Clear
  | MGetAll => input_GetAll | MFlush => input_Flush
  end.

Definition key_request (k : napi_value) (f : string -> JSError + Request) : JSError + Request :=
  match ParseKey k with inl e => inl e | inr key => f key end.

(** The request, on any object. *)
Definition js_request (m : js_method) (argv : list napi_value) : JSError + Request :=
  match m, argv with
  | MPut, [k; v] => key_request k (fun key => match ParseDefValue v with inl e => inl e | inr value => inr (RSetValue key value) end)
  | MGet, [k; d] => key_request k (fun key => inr (RGetValue key d))
  | MHas, [k] => key_request k (fun key => inr (RHasKey key))
  | MDelete, [k] => key_request k (fun key => inr (RDelete key))
  | MClear, [] => inr RClear
  | MGetAll, [] => inr RGetAll
  | MFlush, [] => inr RFlush
  | (MPut | MGet), _ => inl (ParamNumError "2 or 3")
  | (MHas | MDelete), _ => inl (ParamNumError "1 or 2")
  | _, _ => inl (ParamNumError "0 or 1")
  end.

Lemma js_call_input self o : js_call self o = call_method RSIZE_MAX gskvEnabled false (reading (js_input o.1)) self o.2.
Proof. by destruct o as [[] argv]. Qed.

Lemma js_input_linked self m argv j obj r px p : js_linked j self obj r px p ->
  js_input m argv self j = match js_request m argv with inl e => inl e | inr q => inr (Some r, q) end.
Proof.
  intros Hl. pose proof (fun msg q => self_instance_linked _ _ _ _ _ _ msg q Hl) as Hself.
  by_args m argv; cbn [js_input js_request]; unfold key_request, input_SetValue, input_GetValue, input_HasKey, input_Delete, input_Clear, input_GetAll, input_Flush;
    try (destruct (ParseKey _) as [e|key]; [done|]); try (destruct (ParseDefValue _) as [e|w]; [done|]); by rewrite Hself.
Qed.

Lemma request_asks m argv : match args_ask m argv with None => exists e, js_request m argv = inl e | Some _ => exists q, js_request m argv = inr q end.
Proof.
  by_args m argv; try (by eexists); cbn [args_ask js_request]; unfold key_ask, key_request; (destruct (ParseKey _) as [e|key]; [by exists e|]); try (by eexists).
  unfold ParseDefValue. destruct (Native_variant _); by eexists.
Qed.

(** *** What the work gives *)

(** The result of the work for a reply. *)
Definition js_answer (argv : list napi_value) (rep : reply) : Z * Answer :=
  match rep with
  | RCode z => (z, ANothing)
  | RValue w => (JS_OK, AValue w (default napi_get_undefined (argv !! 1%nat)))
  | RBool b => (JS_OK, AFlag b)
  | RMap m => (JS_OK, AElements m)
  | _ => (JS_OK, ANothing)
  end.

(** An accepted call on a loaded object. *)
Lemma request_works m argv q req j self obj r px p : args_ask m argv = Some q -> js_request m argv = inr req -> js_linked j self obj r px p ->
  exists rep h p', OnExecute RSIZE_MAX gskvEnabled (Some r) req j = Done (js_answer argv rep, set_hlp h j) /\ js_linked (set_hlp h j) self obj r px p' /\
    match q with AskMap q => rep = (spec q (view p)).1 | AskFlush => exists z, rep = RCode z end /\ same_map (view p') (ask_map q (view p)).
Proof.
  intros Ha Hr Hl.
  assert (Hw : forall (A : Type) (meth : ST PreferencesImpl A) (wrap : A -> reply) q me (g : A -> Z * Answer), exec q = (x ← meth; mret (wrap x)) ->
    (forall x, g x = js_answer argv (wrap x)) ->
    exists rep h p', with_instance_of (Some r) (fun r => x ← js_on_helper (virtual r meth me); mret (g x)) j = Done (js_answer argv rep, set_hlp h j) /\
      js_linked (set_hlp h j) self obj r px p' /\ rep = (spec q (view p)).1 /\ same_map (view p') (spec q (view p)).2).
  { intros A meth wrap q' me g He Hg. destruct (js_virtual meth wrap q' me j self obj r px p He Hl) as (x & h & p' & E & Hl' & Hx & Hv).
    exists (wrap x), h, p'. split; [|done]. rewrite (with_instance_of_linked _ _ _ _ _ _ _ Hl), (so_bind_Done _ _ _ _ _ E). by rewrite <- Hg. }
  by_args m argv; cbn [args_ask js_request] in Ha, Hr; unfold key_ask, key_request in Ha, Hr;
    try (destruct (ParseKey _) as [e|key]; [done|]).
  - unfold ParseDefValue in Hr. destruct (Native_variant _) as [e|w]; [done|]. injection Hr as <-. injection Ha as <-.
    exact (Hw _ (Put key w) RCode (OPut key w) (Enh_Put RSIZE_MAX key w) (fun z => (z, ANothing)) eq_refl (fun _ => eq_refl)).
  - injection Hr as <-. injection Ha as <-.
    exact (Hw _ (Get key (VLong 0)) RValue (OGet key (VLong 0)) (Enh_Get key (VLong 0)) (fun w => (JS_OK, AValue w _)) eq_refl (fun _ => eq_refl)).
  - injection Hr as <-. injection Ha as <-.
    exact (Hw _ (HasKey key) RBool (OHasKey key) (Enh_HasKey key) (fun b => (JS_OK, AFlag b)) eq_refl (fun _ => eq_refl)).
  - injection Hr as <-. injection Ha as <-.
    exact (Hw _ (Impl.Delete key) RCode (ODelete key) (Enh_Delete key) (fun z => (z, ANothing)) eq_refl (fun _ => eq_refl)).
  - injection Hr as <-. injection Ha as <-. exact (Hw _ Impl.Clear RCode OClear Enh_Clear (fun z => (z, ANothing)) eq_refl (fun _ => eq_refl)).
  - injection Hr as <-. injection Ha as <-.
    exact (Hw _ GetAllDatas RMap OGetAllDatas Enh_GetAllDatas (fun m => (JS_OK, AElements m)) eq_refl (fun _ => eq_refl)).
  - injection Hr as <-. injection Ha as <-. pose proof Hl as [Hu Hp Hi Hs Hop].
    destruct (virtual_flush (run_st (e_on_base Base_FlushSync)) _ _ _ Hop) as (z & h & p' & E & Hop' & Hv).
    exists (RCode z), h, p'. split; [|split; [done|]; split; [by exists z|cbn [ask_map]; by rewrite Hv]].
    cbn [OnExecute]. rewrite (with_instance_of_linked _ _ _ _ _ _ _ Hl). unfold exec_Flush.
    by rewrite (so_bind_Done _ _ _ _ _ (js_on_helper_done (obj_flushsync r) _ _ _ E)).
Qed.

(** What JavaScript gets of it. *)
Lemma js_completes argv rep j : exists res, OnComplete (js_answer argv rep).1 (js_answer argv rep).2 j = (res, j) /\
  (match res with inr v => v | inl _ => napi_get_undefined end) = js_result argv rep.
Proof.
  destruct rep as [w|b|z|z w|m|z m]; cbn [js_answer js_result fst snd]; unfold OnComplete.
  1: { eexists. split; [done|]. unfold output_GetValue. destruct (IsLong w); [done|]. by destruct (JS_variant w). }
  1: { eexists. split; [done|]. by destruct (napi_get_boolean b). }
  1: { destruct (negb (z =? E_OK)); by eexists. }
  all: by eexists.
Qed.

Lemma replies_of q p m rep : match q with AskMap q => rep = (spec q (view p)).1 | AskFlush => exists z, rep = RCode z end ->
  same_map (view p) m -> replies q m rep /\ same_map (ask_map q (view p)) (ask_map q m).
Proof. destruct q as [q|]; intros Hrep Hm; [|done]. subst rep. by apply spec_proper. Qed.

Lemma js_call_sim self o j obj r px p m : few o.2 -> js_linked j self obj r px p -> same_map (view p) m ->
  exists res j' p', js_call self o j = Done (res, j') /\ js_linked j' self obj r px p' /\ js_agrees o m res /\ same_map (view p') (js_map o m).
Proof.
  intros Hf Hl Hm. rewrite js_call_input. destruct (split_callback false o.2) as [argv cb] eqn:Es.
  assert (Ea : js_argv o = argv) by (unfold js_argv; by rewrite Es). unfold js_agrees, js_map, js_asks. rewrite Ea.
  pose proof (js_input_linked self o.1 argv j obj r px p Hl) as Ei. pose proof (request_asks o.1 argv) as Hreq.
  destruct (args_ask o.1 argv) as [q|] eqn:Hask; destruct Hreq as [x Hreq]; rewrite Hreq in Ei.
  - destruct (request_works _ _ _ _ _ _ _ _ _ _ Hask Hreq Hl) as (rep & h & p' & Ew & Hl' & Hrep & Hv).
    destruct (js_completes argv rep (set_hlp h j)) as (res & Ec & Hres). destruct (js_answer argv rep) as [code a]. cbn [fst snd] in Ec.
    destruct (replies_of q p m rep Hrep Hm) as [Hr Hmap]. exists (Value (js_result argv rep)), (set_hlp h j), p'.
    split; [|split; [done|split; [by exists rep|by etrans]]]. assert (Ein : reading (js_input o.1) self argv j = (inr (Some r, x), j)) by (unfold reading; by rewrite Ei).
    rewrite (call_works _ _ _ _ _ _ _ _ _ _ _ (jl_plain _ _ _ _ _ _ Hl) Hf Es Ein Ew), Ec. cbn [fst snd]. by rewrite Hres.
  - eexists _, _, p. split; [|split; [|split; [done|exact Hm]]].
    + eapply call_throws; [exact (jl_plain _ _ _ _ _ _ Hl)|done|exact Es|]. unfold reading. by rewrite Ei.
    + by apply emit_linked.
Qed.

(** C20: through an object of JavaScript over a loaded object of the store, any
    sequence of the synchronous calls [putSync], [getSync], [hasSync],
    [deleteSync], [clearSync], [getAllSync] and [flushSync], each with any
    arguments, right or wrong and at most ten, answers as the calls do on a map:
    a function at the end is taken for a callback, which is dropped; arguments
    that are not accepted, in number or in kind, throw and change nothing; a
    call whose work fails answers [undefined] like one that works; [getSync] on
    an [int64_t] answers the default of the caller; [getAllSync] answers the
    object made of all entries; and [flushSync] answers [undefined] and changes
    no entry.  (More than ten arguments are read outside of an array,
    [too_many_arguments].) *)
Theorem js_refines_map (self : napi_value) (l : list js_op) (j : Js) (obj r : positive) (px : PreferencesProxy) (p : PreferencesImpl)
    (m : gmap string PreferencesValue) (Hl : js_linked j self obj r px p) (Hm : same_map (view p) m) (Hfew : Forall (fun o => few o.2) l) :
  exists rs j' p', js_run self l j = Done (rs, j') /\ js_linked j' self obj r px p' /\ js_agree_all l m rs /\
    same_map (view p') (foldl (fun m o => js_map o m) m l).
Proof.
  revert j p m Hl Hm. induction Hfew as [|o l Ho _ IH]; intros j p m Hl Hm; [by exists [], j, p|].
  destruct (js_call_sim self o j obj r px p m Ho Hl Hm) as (res & j1 & p1 & E & Hl1 & Hr & Hm1).
  destruct (IH j1 p1 (js_map o m) Hl1 Hm1) as (rs & j2 & p2 & E2 & Hl2 & Hrs & Hm2).
  exists (res :: rs), j2, p2. split; [|done]. cbn [js_run]. by rewrite (so_bind_Done _ _ _ _ _ E), (so_bind_Done _ _ _ _ _ E2).
Qed.

(** ** Failures *)

(** The last of more than ten arguments is read from outside of the array. *)
Lemma too_many_arguments isAsync input self argv j : (MAX_INPUT_COUNT < length argv)%nat ->
  call_method RSIZE_MAX gskvEnabled isAsync input self argv j = Undef.
Proof. intros Hn. unfold call_method. by rewrite (proj2 (Nat.ltb_lt _ _) Hn). Qed.

Lemma lower_bound_in code l e : lower_bound code l = Some e -> e ∈ l.
Proof. induction l as [|x l IH]; cbn; [done|]. case_match; [intros; right; auto|intros [= ->]; left]. Qed.

Lemma GetCode_inner code : GetCode (InnerCode code) <> JS_E_INVALID_PARAM.
Proof.
  cbn [GetCode]. unfold GetJsErrorCode. destruct (lower_bound code JS_ERROR_MAPS) as [e|] eqn:E; [|done].
  destruct (nativeCode e =? code); [|done]. apply lower_bound_in in E. unfold JS_ERROR_MAPS in E.
  repeat (apply elem_of_cons in E as [->|E]; [done|]). by apply not_elem_of_nil in E.
Qed.

(** C22: a failure of the work is reported only to asynchronous callers.  A
    synchronous call whose work fails answers [undefined] and throws nothing;
    the work of an asynchronous one leaves its code, and the promise is
    rejected, or the callback called, with the error of that code, which is
    never missing. *)
Theorem js_failures (input : napi_value -> list napi_value -> ST Js (sum JSError (option positive * Request))) (self : napi_value) (argv : list napi_value) (inst : option positive) (req : Request)
    (j j1 : Js) (code : Z) (a : Answer)
    (Hplain : napi_is_sendable self = false) (Hfew : few argv) (Hs : split_callback false argv = (argv, None))
    (Hi : input self argv j = (inr (inst, req), j))
    (He : OnExecute RSIZE_MAX gskvEnabled inst req j = Done ((code, a), j1)) (Hfail : code <> E_OK) :
  call_method RSIZE_MAX gskvEnabled false input self argv j = Done (Value napi_get_undefined, j1) /\
  (exists id j', call_method RSIZE_MAX gskvEnabled true input self argv j = Done (Promise id, j') /\
     js_works j' !! id = Some (mkWork inst req None false None)) /\
  (forall id cb, js_works j !! id = Some (mkWork inst req cb false None) ->
     run_work RSIZE_MAX gskvEnabled id j = Done (tt, set_works (<[id := mkWork inst req cb false (Some (code, a))]> (js_works j1)) j1)) /\
  (forall id j2 cb, js_works j2 !! id = Some (mkWork inst req cb false (Some (code, a))) ->
     js_events (complete_work id j2).2 = js_events j2 ++
       [match cb with None => Rejected id (Some (InnerCode code)) | Some f => CalledBack f (Some (InnerCode code)) napi_get_undefined end]).
Proof.
  assert (Hc : forall j, OnComplete code a j = (inl (InnerCode code), j)).
  { intros j'. unfold OnComplete. by rewrite (proj2 (Z.eqb_neq _ _) Hfail). }
  split_and!.
  - rewrite (call_works input self argv argv None inst req j code a j1 Hplain Hfew Hs Hi He). by rewrite Hc.
  - eexists _, _. split.
    + rewrite (call_split true _ _ _ _ _ _ _ Hplain Hfew Hs Hi). by rewrite so_bind_st.
    + cbn. apply lookup_insert_eq.
  - intros id cb Hw. unfold run_work. rewrite so_bind_st. cbn [get fst snd]. rewrite Hw. by rewrite (so_bind_Done _ _ _ _ _ He).
  - intros id j2 cb Hw. unfold complete_work, mbind, st_bind, get. rewrite Hw. cbn [w_done]. rewrite Hc.
    unfold modify, OnReturn, SetBusinessError. rewrite (proj2 (Z.eqb_neq _ _) (GetCode_inner code)). by destruct cb.
Qed.

(** ** Observers *)

Lemma has_callback_set_hlp h j f o : has_callback (set_hlp h j) f o = has_callback j f o.
Proof. done. Qed.

Lemma the_proxy_linked j self obj r px p : js_linked j self obj r px p -> the_proxy obj j = Done (px, j).
Proof. intros [_ Hp _ _ _]. unfold the_proxy. rewrite so_bind_st. cbn [get fst snd]. by rewrite Hp. Qed.

(** A method of the base, under its lock, with the answer [z]. *)
Lemma opened_locked nm (f : ST Base Z) me j r p z b' : opened (js_hlp j) r p ->
  (forall e', Impl.quiet (h_env (js_hlp j)) e' -> f (set_env e' (base_ p)) = (z, b' e')) ->
  exists e' h, Impl.quiet (h_env (js_hlp j)) e' /\
    js_on_helper (virtual r (_ ← (v_IsClose nm : ST PreferencesImpl bool); zoom_base f) me) j = Done (z, set_hlp h j) /\
    h_env h = env (b' e') /\ opened h r (upd_base (b' e') p).
Proof.
  intros Hop Hz. destruct (locked_opened nm f me _ _ _ Hop) as (e' & Hq & E). rewrite (Hz e' Hq) in E. cbn [fst snd] in E.
  eexists e', _. split; [done|]. split; [exact (js_on_helper_done _ _ j _ E)|]. split; [done|].
  split; [cbn; apply lookup_insert_eq|apply Hop].
Qed.

Lemma js_locked nm (f : ST Base Z) me j self obj r px p z b' : js_linked j self obj r px p ->
  (forall e', Impl.quiet (h_env (js_hlp j)) e' -> f (set_env e' (base_ p)) = (z, b' e')) ->
  exists e' h, Impl.quiet (h_env (js_hlp j)) e' /\
    js_on_helper (virtual r (_ ← (v_IsClose nm : ST PreferencesImpl bool); zoom_base f) me) j = Done (z, set_hlp h j) /\
    h_env h = env (b' e') /\ js_linked (set_hlp h j) self obj r px (upd_base (b' e') p).
Proof.
  intros [Hu Hp Hi Hs Hop] Hz. destruct (opened_locked nm f me j r p z b' Hop Hz) as (e' & h & Hq & E & He & Ho). by exists e', h.
Qed.

(** An observer with the callback [f] among those that do not have it. *)
Lemma split_at_last j f l o : (forall x, x ∈ l -> has_callback j f x = false) -> has_callback j f o = true ->
  split_at_callback j f (l ++ [o]) = Some (l, o, []).
Proof.
  intros Hl Ho. induction l as [|x l IH]; cbn [app split_at_callback]; [by rewrite Ho|].
  rewrite (Hl x ltac:(left)). by rewrite IH by (intros; apply Hl; by right).
Qed.

Lemma nobody_has j f l : (forall x, x ∈ l -> has_callback j f x = false) -> existsb (has_callback j f) l = false.
Proof.
  intros Hl. destruct (existsb _ l) eqn:E; [|done]. apply existsb_exists in E as (x & Hx & Hh). apply list_elem_of_In in Hx.
  by rewrite Hl in Hh.
Qed.

Lemma put_observers_linked j self obj r px p mode l : js_linked j self obj r px p ->
  exists j', put_observers obj mode l j = Done (tt, j') /\ j' = set_proxies (<[obj := set_px_observers mode l px]> (js_proxies j)) j /\
    js_linked j' self obj r (set_px_observers mode l px) p.
Proof.
  intros Hl. eexists. split; [|split; [reflexivity|]].
  - unfold put_observers. rewrite (so_bind_Done _ _ _ _ _ (the_proxy_linked _ _ _ _ _ _ Hl)). done.
  - destruct Hl as [Hu Hp Hi Hs Ho]. split; [done|apply lookup_insert_eq|by destruct mode|done|done].
Qed.

(** Data keys for a callback that has an observer already. *)
Lemma data_observer_twice j self obj r px p keys f : js_linked j self obj r px p ->
  existsb (has_callback j f) (px_dataObservers px) = true -> RegisteredDataObserver obj keys f j = Done (E_OK, j).
Proof.
  intros Hl Hh. unfold RegisteredDataObserver. rewrite (so_bind_Done _ _ _ _ _ (the_proxy_linked _ _ _ _ _ _ Hl)).
  rewrite (jl_instance _ _ _ _ _ _ Hl). unfold HasRegisteredObserver, mbind, so_bind. rewrite (the_proxy_linked _ _ _ _ _ _ Hl).
  cbn. by rewrite Hh.
Qed.

Lemma with_proxy_linked j self obj r px p msg k : js_linked j self obj r px p -> with_proxy self msg k j = k obj j.
Proof. intros [Hu Hp Hi _ _]. unfold with_proxy. rewrite so_bind_st. cbn [get fst snd]. unfold GetSelfInstance. by rewrite Hu, Hp, Hi. Qed.

Lemma returning_ok m j j' : m j = Done (E_OK, j') -> returning m j = Done (Value napi_get_undefined, j').
Proof. intros E. unfold returning. by rewrite (so_bind_Done _ _ _ _ _ E). Qed.

(** The text of a mode. *)
Record is_change (m : napi_value) : Prop := { ic_type : napi_typeof m = napi_string; ic_text : Native_string m = inr "change" }.

Lemma on_change m f self j obj r px p : js_linked j self obj r px p -> is_change m -> napi_typeof f = napi_function ->
  RegisterObserver_js [m; f] self j = returning (RegisteredObserver obj f LOCAL_CHANGE) j.
Proof.
  intros Hl [Ht Hm] Hf. unfold RegisterObserver_js. cbn [length Nat.ltb Nat.leb]. rewrite (bool_decide_true _ Ht). unfold text_of. rewrite Hm.
  cbn [negb]. change (mode_name "change") with true. cbn [negb]. rewrite bool_decide_false by done. rewrite (bool_decide_true _ Hf). cbn [negb].
  by rewrite (with_proxy_linked _ _ _ _ _ _ _ _ Hl).
Qed.

Lemma off_change m f self j obj r px p : js_linked j self obj r px p -> is_change m -> napi_typeof f = napi_function ->
  UnRegisterObserver_js [m; f] self j = returning (UnRegisteredObserver obj f LOCAL_CHANGE) j.
Proof.
  intros Hl [Ht Hm] Hf. unfold UnRegisterObserver_js. rewrite (bool_decide_true _ Ht). unfold text_of. rewrite Hm.
  cbn [negb]. change (mode_name "change") with true. cbn [negb]. rewrite bool_decide_false by done. cbn [length Nat.ltb Nat.leb head callback_arg].
  rewrite (bool_decide_true _ Hf). cbv beta iota. by rewrite (with_proxy_linked _ _ _ _ _ _ _ _ Hl).
Qed.

Lemma HasRegistered_linked j self obj r px p f mode : js_linked j self obj r px p ->
  HasRegisteredObserver obj f mode j = Done (existsb (has_callback j f) (px_observers mode px), j).
Proof. intros Hl. unfold HasRegisteredObserver. by rewrite (so_bind_Done _ _ _ _ _ (the_proxy_linked _ _ _ _ _ _ Hl)). Qed.

(** The state with one observer more. *)
Definition with_js_observer (f : napi_value) (j : Js) : Js :=
  match make_js_observer main_env f j with Done (_, j') => j' | _ => j end.

Lemma with_js_observer_linked f j self obj r px p : js_linked j self obj r px p -> js_linked (with_js_observer f j) self obj r px p.
Proof. intros [Hu Hp Hi Hs Ho]. split; [done..|by apply opened_alive]. Qed.

Lemma local_on f j self obj r px p : js_linked j self obj r px p -> (forall x, x ∈ px_localObservers px -> has_callback j f x = false) ->
  exists j1 p1, RegisteredObserver obj f LOCAL_CHANGE j = Done (E_OK, j1) /\
    js_linked j1 self obj r (set_px_observers LOCAL_CHANGE (px_localObservers px ++ [js_next j]) px) p1 /\
    localObservers_ (base_ p1) = localObservers_ (base_ p) ++ [Some (js_next j)] /\
    alive (svc (h_env (js_hlp j1))) = {[js_next j]} ∪ alive (svc (h_env (js_hlp j))) /\
    js_observers j1 = <[js_next j := mkJsObserver (Some f) false main_env true]> (js_observers j) /\
    js_posted j1 = js_posted j.
Proof.
  intros Hl Hnone. set (o := js_next j). set (jA := with_js_observer f j). pose proof (with_js_observer_linked f _ _ _ _ _ _ Hl) as HlA. fold jA in HlA.
  destruct (js_locked "RegisterObserver" (RegisterObserver_locked (Some o) LOCAL_CHANGE) (run_st (e_on_base (RegisterObserver (Some o) LOCAL_CHANGE)))
    jA self obj r px p E_OK (fun e' => set_localObservers (localObservers_ (base_ p) ++ [Some o]) (set_env e' (base_ p))) HlA ltac:(done))
    as (e' & h & [_ Hq] & E & Henv & Hl').
  destruct (put_observers_linked _ _ _ _ _ _ LOCAL_CHANGE (px_localObservers px ++ [o]) Hl') as (j1 & E2 & Hj1 & Hl1).
  exists j1. eexists. split; [|split; [exact Hl1|]].
  - unfold RegisteredObserver. rewrite (so_bind_Done _ _ _ _ _ (HasRegistered_linked _ _ _ _ _ _ f LOCAL_CHANGE Hl)).
    cbn [px_observers]. rewrite (nobody_has _ _ _ Hnone). unfold add_observer. rewrite (so_bind_Done (make_js_observer main_env f) _ j o jA) by done.
    rewrite (so_bind_Done _ _ _ _ _ (the_proxy_linked _ _ _ _ _ _ HlA)), (jl_instance _ _ _ _ _ _ Hl).
    rewrite (so_bind_Done (js_on_helper (obj_register r o LOCAL_CHANGE)) _ _ _ _ E). cbn [negb Z.eqb E_OK]. by rewrite (so_bind_Done _ _ _ _ _ E2).
  - split; [done|]. subst j1. split; [|done]. cbn [set_proxies set_hlp js_hlp]. rewrite Henv. cbn [env set_localObservers set_env]. by rewrite Hq.
Qed.

Lemma ClearCallback_linked o j self obj r px p : js_linked j self obj r px p -> js_linked (ClearCallback o j).2 self obj r px p.
Proof. intros [Hu Hp Hi Hs Ho]. unfold ClearCallback, modify. cbn [snd]. destruct (js_observers j !! o) as [x|]; [destruct (jo_queue x)|]; by split. Qed.

Lemma ClearCallback_at o x j : js_observers j !! o = Some x -> jo_queue x = true ->
  ClearCallback o j = (tt, set_js_observers (<[o := mkJsObserver None (jo_sendable x) (jo_env x) (jo_queue x)]> (js_observers j)) j).
Proof. intros E Hq. unfold ClearCallback, modify. by rewrite E, Hq. Qed.

(** A list that is left by an observer without notifications on their way. *)
Lemma js_drop_one o j : posted_owns j o = false ->
  js_drop [o] j = Done (tt, set_hlp (map_alive (fun s => s ∖ list_to_set [o]) (js_hlp j)) j).
Proof. intros Ho. unfold js_drop. rewrite so_bind_st. cbn [get fst snd List.filter]. by rewrite Ho. Qed.

Lemma local_off f j self obj r px p l o bl : js_linked j self obj r px p -> posted_owns j o = false -> px_localObservers px = l ++ [o] ->
  (forall x, x ∈ l -> has_callback j f x = false) -> has_callback j f o = true -> js_observers j !! o = Some (mkJsObserver (Some f) false main_env true) ->
  localObservers_ (base_ p) = bl ++ [Some o] -> (Some o ∉ bl) -> all_alive (svc (h_env (js_hlp j))) (bl ++ [Some o]) ->
  exists j1 p1, UnRegisteredObserver obj f LOCAL_CHANGE j = Done (E_OK, j1) /\
    js_linked j1 self obj r (set_px_observers LOCAL_CHANGE l px) p1 /\ localObservers_ (base_ p1) = bl /\
    alive (svc (h_env (js_hlp j1))) = alive (svc (h_env (js_hlp j))) ∖ {[o]} /\
    js_observers j1 !! o = Some (mkJsObserver None false main_env true) /\ js_events j1 = js_events j.
Proof.
  intros Hl Hown Hpx Hnone Hhas Ho Hbl Hnew Hal.
  destruct (js_locked "UnRegisterObserver" (UnRegisterObserver_locked (Some o) LOCAL_CHANGE) (run_st (e_on_base (UnRegisterObserver (Some o) LOCAL_CHANGE)))
    j self obj r px p E_OK (fun e' => set_localObservers bl (set_env e' (base_ p))) Hl) as (e' & h & [_ Hq] & E & Henv & Hl').
  { intros e' [_ Hq]. unfold UnRegisterObserver_locked, mbind, st_bind, get, modify, mret, st_ret. cbn [localObservers_ set_env env].
    rewrite Hq. repeat f_equal. rewrite Hbl. pose proof (stops_at_alive _ (Some o) _ Hal) as Hst. rewrite Forall_forall in Hst.
    apply erase_first_snoc.
    - apply Forall_forall. intros x Hx. rewrite Hst by (apply elem_of_app; by left). apply bool_decide_eq_false. by intros ->.
    - rewrite Hst by (apply elem_of_app; right; by left). by apply bool_decide_eq_true. }
  pose proof (ClearCallback_linked o _ _ _ _ _ _ Hl') as Hl2. rewrite (ClearCallback_at o (mkJsObserver (Some f) false main_env true) (set_hlp h j) Ho eq_refl) in Hl2. cbn [snd] in Hl2.
  destruct (put_observers_linked _ _ _ _ _ _ LOCAL_CHANGE l Hl2) as (j2 & E2 & Hj2 & Hl3).
  exists (set_hlp (map_alive (fun s => s ∖ list_to_set [o]) (js_hlp j2)) j2). eexists. split; [|split; [|split; [|split; [|split]]]].
  - unfold UnRegisteredObserver. rewrite (so_bind_Done _ _ _ _ _ (the_proxy_linked _ _ _ _ _ _ Hl)), (jl_instance _ _ _ _ _ _ Hl), so_bind_st.
    cbn [get fst snd px_observers]. rewrite Hpx, (split_at_last _ _ _ _ Hnone Hhas), (so_bind_Done (js_on_helper (obj_unregister r o LOCAL_CHANGE)) _ _ _ _ E).
    cbn [negb Z.eqb E_OK]. rewrite so_bind_st, (ClearCallback_at o (mkJsObserver (Some f) false main_env true) (set_hlp h j) Ho eq_refl). cbn [fst snd]. rewrite app_nil_r.
    rewrite (so_bind_Done _ _ _ _ _ E2). assert (Hown2 : posted_owns j2 o = false) by (by subst j2).
    by rewrite (so_bind_Done (js_drop [o]) _ _ _ _ (js_drop_one o j2 Hown2)).
  - destruct Hl3 as [Hu3 Hp3 Hi3 Hs3 Ho3]. split; [done..|]. exact (opened_alive _ _ _ _ Ho3).
  - done.
  - subst j2. unfold map_alive. cbn [set_hlp set_proxies set_js_observers js_hlp h_env h_set_env svc alive]. rewrite Henv. cbn [env set_localObservers set_env]. rewrite Hq. set_solver.
  - subst j2. cbn. by rewrite lookup_insert_eq.
  - by subst j2.
Qed.

Lemma px_observers_back l px : set_px_observers LOCAL_CHANGE (px_localObservers px) (set_px_observers LOCAL_CHANGE l px) = px.
Proof. by destruct px. Qed.

(** C23: [on('change', f)] registers an observer with the object of the store,
    the same call again changes nothing, and [off('change', f)] takes it away:
    the registries of the proxy and of the object and the observers that are
    alive are as they were, and a notification that was on its way is not
    delivered any more.  The function is equal to itself and has no observer on
    the proxy yet, the observer that the call makes is new, and all observers
    that are registered with the object are still alive: one that has expired
    would be erased in place of the new one, which would stay registered
    ([UnRegisterObserver] takes an expired entry for the one it looks for). *)
Theorem js_observer_on_off (self m f : napi_value) (j : Js) (obj r : positive) (px : PreferencesProxy) (p : PreferencesImpl)
    (Hl : js_linked j self obj r px p) (Hm : is_change m) (Hf : napi_typeof f = napi_function) (Heq : napi_strict_equals f f = true)
    (Hnone : forall x, x ∈ px_localObservers px -> has_callback j f x = false) (Hnext : js_next j ∉ px_localObservers px)
    (Hdead : js_next j ∉ alive (svc (h_env (js_hlp j)))) (Hal : all_alive (svc (h_env (js_hlp j))) (localObservers_ (base_ p)))
    (Hposted : posted_owns j (js_next j) = false) :
  exists j1 px1 p1 j2 p2,
    RegisterObserver_js [m; f] self j = Done (Value napi_get_undefined, j1) /\ js_linked j1 self obj r px1 p1 /\
    localObservers_ (base_ p1) = localObservers_ (base_ p) ++ [Some (js_next j)] /\ (js_next j ∈ alive (svc (h_env (js_hlp j1)))) /\
    RegisterObserver_js [m; f] self j1 = Done (Value napi_get_undefined, j1) /\
    UnRegisterObserver_js [m; f] self j1 = Done (Value napi_get_undefined, j2) /\ js_linked j2 self obj r px p2 /\
    localObservers_ (base_ p2) = localObservers_ (base_ p) /\ alive (svc (h_env (js_hlp j2))) = alive (svc (h_env (js_hlp j))) /\
    (forall args rest, exists j3, run_posted main_env (set_posted ((js_next j, args) :: rest) j2) = Done (tt, j3) /\ js_events j3 = js_events j2).
Proof.
  destruct (local_on f j self obj r px p Hl Hnone) as (j1 & p1 & E1 & Hl1 & Hb1 & Ha1 & Ho1 & Hp1).
  set (px1 := set_px_observers LOCAL_CHANGE (px_localObservers px ++ [js_next j]) px) in *.
  assert (Hhas : has_callback j1 f (js_next j) = true) by (unfold has_callback; rewrite Ho1, lookup_insert_eq; exact Heq).
  destruct (local_off f j1 self obj r px1 p1 (px_localObservers px) (js_next j) (localObservers_ (base_ p)) Hl1 ltac:(unfold posted_owns; by rewrite Hp1) eq_refl)
    as (j2 & p2 & E2 & Hl2 & Hb2 & Ha2 & Ho2 & He2); [|done|by rewrite Ho1, lookup_insert_eq|done|..].
  - intros x Hx. unfold has_callback. rewrite Ho1, lookup_insert_ne by (by intros <-). by apply Hnone.
  - intros Hin. unfold all_alive in Hal. rewrite Forall_forall in Hal. by destruct (Hal _ Hin) as (q & [= <-] & Hq).
  - apply Forall_app_2; [apply (all_alive_mono (svc (h_env (js_hlp j)))); [set_solver|done]|].
    apply Forall_singleton. exists (js_next j). split; [done|set_solver].
  - exists j1, px1, p1, j2, p2. unfold px1 in Hl2. rewrite px_observers_back in Hl2. split_and!; try done.
    + rewrite (on_change _ _ _ _ _ _ _ _ Hl Hm Hf). by apply returning_ok.
    + rewrite Ha1. set_solver.
    + rewrite (on_change _ _ _ _ _ _ _ _ Hl1 Hm Hf). apply returning_ok. unfold RegisteredObserver.
      rewrite (so_bind_Done _ _ _ _ _ (HasRegistered_linked _ _ _ _ _ _ f LOCAL_CHANGE Hl1)). cbn [px_observers px1 set_px_observers px_localObservers].
      rewrite existsb_app. cbn [existsb]. by rewrite Hhas, orb_true_r.
    + rewrite (off_change _ _ _ _ _ _ _ _ Hl1 Hm Hf). by apply returning_ok.
    + rewrite Ha2, Ha1. set_solver.
    + intros args rest. unfold run_posted, run_posted_keeping. rewrite so_bind_st. cbn [get fst snd set_posted js_posted next_posted js_observers]. rewrite Ho2.
      cbn [jo_env]. rewrite bool_decide_true by done. rewrite !so_bind_st. cbn [modify fst snd].
      destruct (_ || _); rewrite Ho2; by eexists.
Qed.
End js_client.

(** ** A concrete program *)

(** An application of the stage model. *)
#[export] Instance ref_ability : AbilityRuntime := {|
  IsStageContext _ := Some true;
  GetStageModeContext _ := Some (mkAppContext "/p" (fun _ => (0, "/p")) "b");
  GetCurrentAbilityContext := None
|}.

(** The proxy 1 over the object 2, which holds [vals]. *)
Definition w_js_prefs (vals : gmap string PreferencesValue) : PreferencesImpl :=
  upd_cache ∅ false vals (upd_load true false true (PreferencesImpl_new w_options (w_env "" (fun _ => SysOk)))).

Definition w_js (vals : gmap string PreferencesValue) : Js :=
  mkJs (h_set_objects {[2%positive := PXml (w_js_prefs vals)]} (w_helper "")) STAGE {[1%positive := mkProxy (Some 2%positive) [] [] []]} 2%positive ∅ 9%positive ∅ 1%positive [] [] ∅.

Lemma w_js_linked vals : js_linked (w_js vals) (JNative 1) 1 2 (mkProxy (Some 2%positive) [] [] []) (w_js_prefs vals).
Proof. split; [done..|by split]. Qed.

(** The values as the concrete engine's. *)
Definition jv (v : JsVal) : @napi_value ref_napi := v.

Definition w_calls : list js_op :=
  [(MPut, [jv (JStr "k"); jv (JNum 5)]); (MGet, [jv (JStr "k"); jv JNull]); (MHas, [jv (JFun 0)]); (MFlush, []);
   (MDelete, [jv (JStr "k"); jv (JFun 0)]); (MHas, [jv (JStr "k")]); (MClear, [jv (JStr "k")])].

Example js_refines_map_witness :
  exists rs j p', js_run 100 false (jv (JNative 1)) w_calls (w_js ∅) = Done (rs, j) /\
    js_linked j (JNative 1) 1 2 (mkProxy (Some 2%positive) [] [] []) p' /\ js_agree_all w_calls ∅ rs.
Proof.
  destruct (js_refines_map 100 false (jv (JNative 1)) w_calls (w_js ∅) 1 2 _ _ ∅ (w_js_linked ∅)) as (rs & j & p' & E & Hl & Ha & _); [done|repeat constructor; few_args|].
  exists rs, j, p'. split; [exact E|]. split; [exact Hl|exact Ha].
Defined.

(** The results of these calls. *)
Example js_results : match js_run 100 false (jv (JNative 1)) w_calls (w_js ∅) with Done (rs, _) => Some rs | _ => None end =
  Some [Value JUndef; Value (JNum 5); Thrown; Value JUndef; Value JUndef; Value (JBool false); Thrown].
Proof. vm_cast_no_check (@eq_refl (option (list CallResult)) (Some [Value JUndef; Value (JNum 5); Thrown; Value JUndef; Value JUndef; Value (JBool false); Thrown])). Qed.

(** A key that is empty. *)
Example js_failures_witness : exists j1,
  call_method 100 false false (reading input_Delete) (jv (JNative 1)) [jv (JStr "")] (w_js ∅) = Done (Value JUndef, j1).
Proof.
  assert (He : match OnExecute 100 false (Some 2%positive) (RDelete "") (w_js ∅) with Done ((code, _), _) => code =? E_OK | _ => true end = false).
  { vm_cast_no_check (@eq_refl bool false). }
  destruct (OnExecute 100 false (Some 2%positive) (RDelete "") (w_js ∅)) as [[[code a] j1]| | |] eqn:E; [|done..].
  exists j1. apply (js_failures 100 false (reading input_Delete) (jv (JNative 1)) [jv (JStr "")] (Some 2%positive) (RDelete "") (w_js ∅) j1 code a
    eq_refl ltac:(few_args) eq_refl eq_refl E). by apply Z.eqb_neq.
Defined.

Example js_observer_on_off_witness : exists j1 j2,
  RegisterObserver_js [jv (JStr "change"); jv (JFun 7)] (jv (JNative 1)) (w_js ∅) = Done (Value JUndef, j1) /\
  (9%positive ∈ alive (svc (h_env (js_hlp j1)))) /\
  UnRegisterObserver_js [jv (JStr "change"); jv (JFun 7)] (jv (JNative 1)) j1 = Done (Value JUndef, j2) /\
  alive (svc (h_env (js_hlp j2))) = alive witness_services.
Proof.
  destruct (js_observer_on_off (jv (JNative 1)) (jv (JStr "change")) (jv (JFun 7)) (w_js ∅) 1 2 _ _ (w_js_linked ∅))
    as (j1 & px1 & p1 & j2 & p2 & E1 & _ & _ & Hin & _ & E2 & _ & _ & Ha & _).
  - split; reflexivity.
  - done.
  - done.
  - intros x Hx. by apply not_elem_of_nil in Hx.
  - apply not_elem_of_nil.
  - intros Hin. change (9%positive ∈ alive witness_services) in Hin. by vm_compute in Hin.
  - constructor.
  - reflexivity.
  - exists j1, j2. split; [exact E1|]. split; [exact Hin|]. split; [exact E2|exact Ha].
Defined.
