(* ===== verification/JsStorageClient.v ===== *)
(** * What a program sees of a storage object

    Facts about [JsStorage]: the synchronous methods are those of a map of
    numbers, texts and booleans and report every failure, and an observer that
    was switched off may still be called. *)

From S2P Require Import Prelude Errno Value Utils NumText ConcurrentMap Env FileLock Store DbAdapter Base Impl Enhance Helper.
From S2P Require Import Handle JsValue Js JsStorage JsClient.

Section js_storage_client.
Context `{XmlStore} `{SafeBlockQueue} `{KvDb} `{Iteration} `{NapiLaws} `{!AbilityRuntime}.
Context (RSIZE_MAX : Z) (gskvEnabled : bool).

(** The value [self] is the storage [obj], whose object [p] has been loaded. *)
Record st_linked (s : St) (self : napi_value) (obj r : positive) (l : list positive) (p : PreferencesImpl) : Prop := {
  sl_self : napi_unwrap self = Some obj;
  sl_storage : st_proxies s !! obj = Some (mkStorageProxy r l);
  sl_opened : opened (js_hlp (st_js s)) r p
}.

Definition set_st_hlp h (s : St) : St := set_st_js (set_hlp h (st_js s)) s.

Lemma on_store_done {A} (f : SO Helper A) a s h : f (js_hlp (st_js s)) = Done (a, h) -> on_store f s = Done (a, set_st_hlp h s).
Proof. intros E. unfold on_store, on_js, js_on_helper. by rewrite E. Qed.

Lemma on_js_done {A} (f : SO Js A) a s j : f (st_js s) = Done (a, j) -> on_js f s = Done (a, set_st_js j s).
Proof. intros E. unfold on_js. by rewrite E. Qed.

Lemma the_storage_linked s self obj r l p : st_linked s self obj r l p -> the_storage (Some obj) s = Done (mkStorageProxy r l, s).
Proof. intros [_ Hp _]. unfold the_storage. rewrite so_bind_st. cbn [get fst snd]. by rewrite Hp. Qed.

Lemma with_storage_linked s self obj r l p k : st_linked s self obj r l p -> with_storage self k s = k (mkStorageProxy r l) s.
Proof. intros Hl. unfold with_storage. rewrite (sl_self _ _ _ _ _ _ Hl). by rewrite (so_bind_Done _ _ _ _ _ (the_storage_linked _ _ _ _ _ _ Hl)). Qed.

Lemma raise_done e s : raise e s = Done (Thrown, set_st_js (emit e (st_js s)).2 s).
Proof. done. Qed.

Lemma raise_linked e s self obj r l p : st_linked s self obj r l p -> st_linked (set_st_js (emit e (st_js s)).2 s) self obj r l p.
Proof. by intros []. Qed.

(** A call on the object of a storage. *)
Lemma st_virtual {A} (meth : ST PreferencesImpl A) (wrap : A -> reply) o me s self obj r l p :
  exec o = (x ← meth; mret (wrap x)) -> st_linked s self obj r l p ->
  exists a h p', virtual r meth me (js_hlp (st_js s)) = Done (a, h) /\ on_store (virtual r meth me) s = Done (a, set_st_hlp h s) /\
    st_linked (set_st_hlp h s) self obj r l p' /\ wrap a = (spec o (view p)).1 /\ same_map (view p') (spec o (view p)).2.
Proof.
  intros He [Hu Hp Hop]. destruct (virtual_opened meth wrap o me _ _ _ He Hop) as (a & h & p' & E & Hop' & Ha & Hv).
  exists a, h, p'. split; [done|]. split; [exact (on_store_done _ _ _ _ E)|]. by split.
Qed.

(** ** Synchronous methods *)

Inductive st_op :=
  | SgPut (k v : napi_value)
  | SgGet (k d : napi_value)
  | SgHas (k : napi_value)
  | SgDelete (k : napi_value)
  | SgClear.

Definition st_do (self : napi_value) (o : st_op) : SO St CallResult :=
  match o with
  | SgPut k v => Storage_SetValueSync RSIZE_MAX self [k; v]
  | SgGet k d => Storage_GetValueSync self [k; d]
  | SgHas k => Storage_HasKeySync self [k]
  | SgDelete k => Storage_DeleteSync self [k]
  | SgClear => Storage_ClearSync self
  end.

(** A number, a text or a boolean that is put, and one that is a default. *)
Definition st_put_value (v : napi_value) : option PreferencesValue :=
  match napi_typeof v with
  | napi_number => VDouble <$> napi_get_value_double v
  | napi_string => match St_ParseString v MAX_VALUE_LENGTH with inr x => Some (VString x) | inl _ => None end
  | napi_boolean => VBool <$> napi_get_value_bool v
  | _ => None
  end.

Definition st_default (d : napi_value) : option PreferencesValue :=
  match napi_typeof d with
  | napi_number => VDouble <$> napi_get_value_double d
  | napi_string => (fun x => VString (c_str x)) <$> napi_copy_string_utf8 d MAX_VALUE_LENGTH
  | napi_boolean => VBool <$> napi_get_value_bool d
  | _ => None
  end.

Definition st_key (k : napi_value) : option string :=
  if negb (bool_decide (napi_typeof k = napi_string)) then None
  else match St_ParseString k MAX_KEY_LENGTH with inr key => Some key | inl _ => None end.

(** What a call asks of the map, when its arguments are accepted. *)
Definition st_asks (o : st_op) : option op :=
  match o with
  | SgPut k v => match st_key k, st_put_value v with Some key, Some w => Some (OPut key w) | _, _ => None end
  | SgGet k d => match st_key k, st_default d with Some key, Some w => Some (OGet key w) | _, _ => None end
  | SgHas k => OHasKey <$> st_key k
  | SgDelete k => ODelete <$> st_key k
  | SgClear => Some OClear
  end.

(** The entry when it has the type of the default. *)
Definition of_type (d w : PreferencesValue) : PreferencesValue :=
  match d, w with
  | VDouble _, VDouble _ | VString _, VString _ | VBool _, VBool _ => w
  | _, _ => d
  end.

Definition answered (v : option napi_value) : CallResult := match v with Some v => Value v | None => Thrown end.

(** The result: a failure throws. *)
Definition st_result (o : st_op) (rep : reply) : CallResult :=
  match o, rep with
  | SgGet _ d, RValue w => match st_default d with Some x => answered (JS_variant (of_type x w)) | None => Thrown end
  | SgHas _, RBool b => answered (napi_get_boolean b)
  | _, RCode z => if z =? E_OK then Value napi_get_undefined else Thrown
  | _, _ => Thrown
  end.

Definition st_agrees (o : st_op) (m : gmap string PreferencesValue) (res : CallResult) : Prop :=
  match st_asks o with
  | None => res = Thrown
  | Some q => exists rep, same_reply rep (spec q m).1 /\ res = st_result o rep
  end.

Definition st_map (o : st_op) (m : gmap string PreferencesValue) : gmap string PreferencesValue :=
  match st_asks o with Some q => (spec q m).2 | None => m end.

(** *** The methods on a loaded object *)

(** The result is [res], and the object is [p'] then. *)
Definition st_ends (m : SO St CallResult) (s : St) (self : napi_value) (obj r : positive) (l : list positive) (p' : PreferencesImpl) (res : CallResult) : Prop :=
  exists s', m s = Done (res, s') /\ st_linked s' self obj r l p'.

Lemma ends_raise e s self obj r l p : st_linked s self obj r l p -> st_ends (raise e) s self obj r l p Thrown.
Proof. intros Hl. eexists. split; [reflexivity|by apply raise_linked]. Qed.

Lemma ends_answer v s self obj r l p : st_linked s self obj r l p -> st_ends (answer_of v) s self obj r l p (answered v).
Proof. intros Hl. destruct v as [v|]; [by exists s|by apply ends_raise]. Qed.

Lemma ends_asserted z msg s self obj r l p : st_linked s self obj r l p ->
  st_ends (asserted z msg) s self obj r l p (if z =? E_OK then Value napi_get_undefined else Thrown).
Proof. intros Hl. unfold asserted. destruct (z =? E_OK); [by exists s|by apply ends_raise]. Qed.

Lemma ends_key k f s self obj r l p p' res : st_linked s self obj r l p ->
  (st_key k = None -> p' = p /\ res = Thrown) -> (forall key, st_key k = Some key -> st_ends (f key) s self obj r l p' res) ->
  st_ends (with_key k f) s self obj r l p' res.
Proof.
  intros Hl Hn Hs. unfold with_key, st_key in *. destruct (negb _); [destruct (Hn eq_refl) as [-> ->]; by apply ends_raise|].
  destruct (St_ParseString k MAX_KEY_LENGTH); [destruct (Hn eq_refl) as [-> ->]; by apply ends_raise|by apply Hs].
Qed.

Lemma ends_storage f s self obj r l p p' res : st_linked s self obj r l p -> st_ends (f (mkStorageProxy r l)) s self obj r l p' res ->
  st_ends (with_storage self f) s self obj r l p' res.
Proof. intros Hl (s' & E & Hl'). exists s'. by rewrite (with_storage_linked _ _ _ _ _ _ _ Hl). Qed.

(** One call on the object, and what is made of its answer. *)
Lemma ends_virtual {A} (meth : ST PreferencesImpl A) (wrap : A -> reply) q me (k : A -> SO St CallResult) res s self obj r l p :
  exec q = (x ← meth; mret (wrap x)) -> st_linked s self obj r l p ->
  (forall x s' p', st_linked s' self obj r l p' -> wrap x = (spec q (view p)).1 -> st_ends (k x) s' self obj r l p' res) ->
  exists p', st_ends (x ← on_store (virtual r meth me); k x) s self obj r l p' res /\ same_map (view p') (spec q (view p)).2.
Proof.
  intros He Hl Hk. destruct (st_virtual meth wrap q me s self obj r l p He Hl) as (x & h & p' & _ & E & Hl' & Hx & Hv).
  exists p'. split; [|done]. destruct (Hk x _ p' Hl' Hx) as (s' & E' & Hl2). exists s'. by rewrite (so_bind_Done _ _ _ _ _ E).
Qed.

(** A typed accessor. *)
Lemma ends_get {A} (test : PreferencesValue -> bool) (as_a : PreferencesValue -> option A) (mk : A -> PreferencesValue) key d (k : A -> SO St CallResult) res
    s self obj r l p : st_linked s self obj r l p ->
  (forall x s' p' w, st_linked s' self obj r l p' -> RValue w = (spec (OGet key (mk d)) (view p)).1 ->
     x = (if negb (test w) then d else default d (as_a w)) -> st_ends (k x) s' self obj r l p' res) ->
  exists p', st_ends (x ← on_store (v ← obj_get r key (mk d); mret (if negb (test v) then d else default d (as_a v))); k x) s self obj r l p' res /\
    same_map (view p') (spec (OGet key (mk d)) (view p)).2.
Proof.
  intros Hl Hk. destruct (st_virtual (Get key (mk d)) RValue (OGet key (mk d)) (Enh_Get key (mk d)) s self obj r l p eq_refl Hl) as (w & h & p' & E & _ & Hl' & Hw & Hv).
  exists p'. split; [|done]. destruct (Hk (if negb (test w) then d else default d (as_a w)) _ p' w Hl' Hw eq_refl) as (s' & E' & Hl2). exists s'. split; [|done].
  rewrite (so_bind_Done _ _ _ (if negb (test w) then d else default d (as_a w)) (set_st_hlp h s)); [done|].
  apply on_store_done. unfold obj_get. by rewrite (so_bind_Done _ _ _ _ _ E).
Qed.

(** Memory is given, and texts are copied. *)
Context (enough_memory : forall n, napi_malloc n = true).
Context (texts_copied : forall v n, napi_typeof v = napi_string -> is_Some (napi_copy_string_utf8 v n)).

(** Arguments that are not accepted. *)
Lemma st_refused o s self obj r l p : st_linked s self obj r l p -> st_asks o = None -> st_ends (st_do self o) s self obj r l p Thrown.
Proof.
  intros Hl Ha. destruct o as [k v|k d|k|k|]; cbn [st_asks st_do] in *; [..|done].
  - apply (ends_key k _ s self obj r l p p Thrown Hl); [done|]. intros key Ek. rewrite Ek in Ha. apply (ends_storage _ s self obj r l p p Thrown Hl).
    unfold st_put_value in Ha. destruct (napi_typeof v); try (by apply ends_raise).
    + destruct (napi_get_value_bool v); [done|by apply ends_raise].
    + destruct (napi_get_value_double v); [done|by apply ends_raise].
    + destruct (St_ParseString v MAX_VALUE_LENGTH); [by apply ends_raise|done].
  - apply (ends_key k _ s self obj r l p p Thrown Hl); [done|]. intros key Ek. rewrite Ek in Ha. apply (ends_storage _ s self obj r l p p Thrown Hl).
    unfold st_default in Ha. destruct (napi_typeof d) eqn:Et; try (by apply ends_raise).
    + destruct (napi_get_value_bool d); [done|by apply ends_raise].
    + destruct (napi_get_value_double d); [done|by apply ends_raise].
    + destruct (texts_copied d MAX_VALUE_LENGTH Et) as [x Ex]. by rewrite Ex in Ha.
  - apply (ends_key k _ s self obj r l p p Thrown Hl); [done|]. intros key Ek. by rewrite Ek in Ha.
  - apply (ends_key k _ s self obj r l p p Thrown Hl); [done|]. intros key Ek. by rewrite Ek in Ha.
Qed.

(** A code of the object that is asserted. *)
Lemma ends_coded (meth : ST PreferencesImpl Z) q me msg s self obj r l p : exec q = (x ← meth; mret (RCode x)) -> st_linked s self obj r l p ->
  exists p', st_ends (code ← on_store (virtual r meth me); asserted code msg) s self obj r l p'
    (match (spec q (view p)).1 with RCode z => if z =? E_OK then Value napi_get_undefined else Thrown | _ => Thrown end) /\
    same_map (view p') (spec q (view p)).2.
Proof. intros He Hl. apply (ends_virtual meth RCode q me); [done..|]. intros z s' p' Hl' Hz. rewrite <- Hz. by apply ends_asserted. Qed.

Lemma ends_put key w msg s self obj r l p : st_linked s self obj r l p ->
  exists p', st_ends (code ← on_store (obj_put RSIZE_MAX r key w); asserted code msg) s self obj r l p'
    (match (spec (OPut key w) (view p)).1 with RCode z => if z =? E_OK then Value napi_get_undefined else Thrown | _ => Thrown end) /\
    same_map (view p') (spec (OPut key w) (view p)).2.
Proof. by apply (ends_coded (Put key w) (OPut key w) (Enh_Put RSIZE_MAX key w)). Qed.

Lemma st_accepted o q s self obj r l p : st_linked s self obj r l p -> st_asks o = Some q ->
  exists p', st_ends (st_do self o) s self obj r l p' (st_result o (spec q (view p)).1) /\ same_map (view p') (spec q (view p)).2.
Proof.
  intros Hl Ha.
  assert (Hkey : forall k f Q res, (forall key, st_key k = Some key -> exists p', st_ends (f key (mkStorageProxy r l)) s self obj r l p' res /\ Q p') ->
    is_Some (st_key k) -> exists p', st_ends (with_key k (fun key => with_storage self (f key))) s self obj r l p' res /\ Q p').
  { intros k f Q res Hf [key Ek]. destruct (Hf key Ek) as (p' & E & HQ). exists p'. split; [|done].
    apply (ends_key k _ s self obj r l p p' res Hl); [by rewrite Ek|]. intros key' Ek'. replace key' with key by congruence.
    by apply (ends_storage _ s self obj r l p p' res Hl). }
  destruct o as [k v|k d|k|k|]; cbn [st_asks st_do] in *.
  - destruct (st_key k) as [key|] eqn:Ek; [|done]. destruct (st_put_value v) as [w|] eqn:Ew; [|done]. injection Ha as <-.
    apply Hkey; [|by exists key]. intros key' Ek'. replace key' with key by congruence. unfold st_put_value in Ew.
    cbn [st_result sg_value]. destruct (napi_typeof v); try discriminate Ew.
    + destruct (napi_get_value_bool v) as [b|]; [|done]. injection Ew as <-. by apply ends_put.
    + destruct (napi_get_value_double v) as [b|]; [|done]. injection Ew as <-. by apply ends_put.
    + destruct (St_ParseString v MAX_VALUE_LENGTH) as [|x]; [done|]. injection Ew as <-. by apply ends_put.
  - destruct (st_key k) as [key|] eqn:Ek; [|done]. destruct (st_default d) as [w|] eqn:Ew; [|done]. injection Ha as <-.
    apply Hkey; [|by exists key]. intros key' Ek'. replace key' with key by congruence. cbn [st_result sg_value].
    assert (Ed := Ew). unfold st_default in Ed. destruct (napi_typeof d) eqn:Et; try discriminate Ed.
    + destruct (napi_get_value_bool d) as [b|]; [|done]. injection Ed as <-.
      apply (ends_get IsBool as_bool VBool); [done|]. intros x s' p' u Hl' Hu ->. rewrite <- Hu. rewrite Ew. destruct u; by apply ends_answer.
    + destruct (napi_get_value_double d) as [b|]; [|done]. injection Ed as <-.
      apply (ends_get IsDouble as_double VDouble); [done|]. intros x s' p' u Hl' Hu ->. rewrite <- Hu. rewrite Ew. destruct u; by apply ends_answer.
    + rewrite enough_memory. cbn [negb]. destruct (napi_copy_string_utf8 d MAX_VALUE_LENGTH) as [y|]; [|done]. injection Ed as <-.
      apply (ends_get IsString as_string VString); [done|]. intros x s' p' u Hl' Hu ->. rewrite <- Hu. rewrite Ew. destruct u; by apply ends_answer.
  - destruct (st_key k) as [key|] eqn:Ek; [|done]. injection Ha as <-. apply Hkey; [|by exists key]. intros key' Ek'. replace key' with key by congruence.
    apply (ends_virtual (HasKey key) RBool (OHasKey key) (Enh_HasKey key)); [done..|]. intros b s' p' Hl' Hb. rewrite <- Hb. by apply ends_answer.
  - destruct (st_key k) as [key|] eqn:Ek; [|done]. injection Ha as <-. apply Hkey; [|by exists key]. intros key' Ek'. replace key' with key by congruence.
    by apply (ends_coded (Impl.Delete key) (ODelete key) (Enh_Delete key)).
  - injection Ha as <-. destruct (ends_coded Impl.Clear OClear Enh_Clear "call Clear failed" s self obj r l p eq_refl Hl) as (p' & E & Hv).
    exists p'. split; [|exact Hv]. by apply (ends_storage _ s self obj r l p p' _ Hl).
Qed.

Lemma st_do_sim o s self obj r l p m : st_linked s self obj r l p -> same_map (view p) m ->
  exists res p', st_ends (st_do self o) s self obj r l p' res /\ st_agrees o m res /\ same_map (view p') (st_map o m).
Proof.
  intros Hl Hm. unfold st_agrees, st_map. destruct (st_asks o) as [q|] eqn:Ha.
  - destruct (st_accepted o q s self obj r l p Hl Ha) as (p' & E & Hv). destruct (spec_proper q _ _ Hm) as [Hr Hs].
    eexists _, p'. split; [exact E|]. split; [by eexists|by etrans].
  - eexists _, p. split; [by apply st_refused|done].
Qed.

Fixpoint st_run (self : napi_value) (ops : list st_op) : SO St (list CallResult) :=
  match ops with
  | [] => mret []
  | o :: ops => r ← st_do self o; rs ← st_run self ops; mret (r :: rs)
  end.

Fixpoint st_agree_all (ops : list st_op) (m : gmap string PreferencesValue) (rs : list CallResult) : Prop :=
  match ops, rs with
  | [], [] => True
  | o :: ops, r :: rs => st_agrees o m r /\ st_agree_all ops (st_map o m) rs
  | _, _ => False
  end.

(** Through a storage object over a loaded object of the store, any
    sequence of synchronous calls, with any arguments, answers as the calls do
    on a map of numbers, texts and booleans: arguments that are not accepted
    and calls that the map refuses throw, and [getSync] answers the entry when
    it has the type of the default, and the default otherwise. *)
Theorem storage_refines_map (self : napi_value) (ops : list st_op) (s : St) (obj r : positive) (l : list positive) (p : PreferencesImpl)
    (m : gmap string PreferencesValue) (Hl : st_linked s self obj r l p) (Hm : same_map (view p) m) :
  exists rs s' p', st_run self ops s = Done (rs, s') /\ st_linked s' self obj r l p' /\ st_agree_all ops m rs /\
    same_map (view p') (foldl (fun m o => st_map o m) m ops).
Proof.
  revert s p m Hl Hm. induction ops as [|o ops IH]; intros s p m Hl Hm; [by exists [], s, p|].
  destruct (st_do_sim o s self obj r l p m Hl Hm) as (res & p1 & (s1 & E & Hl1) & Hr & Hm1).
  destruct (IH s1 p1 (st_map o m) Hl1 Hm1) as (rs & s2 & p2 & E2 & Hl2 & Hrs & Hm2).
  exists (res :: rs), s2, p2. split; [|done]. cbn [st_run]. by rewrite (so_bind_Done _ _ _ _ _ E), (so_bind_Done _ _ _ _ _ E2).
Qed.
End js_storage_client.

(** ** Observers *)

Section storage_observers.
Context `{XmlStore} `{SafeBlockQueue} `{KvDb} `{Iteration} `{NapiLaws} `{!AbilityRuntime}.

(** [off('change', f)] of a storage object leaves the callback with the
    observer: a notification that was on its way is delivered after it. *)
Theorem storage_off_still_calls (self m f : napi_value) (s : St) (obj r o : positive) (p : PreferencesImpl) (args : list (option napi_value))
    (Hl : st_linked s self obj r [o] p) (Hm : is_change m) (Hf : napi_typeof f = napi_function) (Heq : napi_strict_equals f f = true)
    (Ho : js_observers (st_js s) !! o = Some (mkJsObserver (Some f) false main_env true)) (Hp : js_posted (st_js s) = [(o, args)]) :
  exists s1 p1 s2, Storage_UnRegisterObserver_js self [m; f] s = Done (Value napi_get_undefined, s1) /\ st_linked s1 self obj r [] p1 /\
    st_run_posted s1 = Done (tt, s2) /\ js_events (st_js s2) = js_events (st_js s) ++ [Notified f args].
Proof.
  destruct Hl as [Hu Hsp Hop]. destruct Hm as [Hmt Hms].
  destruct (opened_locked "UnRegisterObserver" (UnRegisterObserver_locked (Some o) LOCAL_CHANGE) (run_st (e_on_base (UnRegisterObserver (Some o) LOCAL_CHANGE)))
    (st_js s) r p E_OK (fun e' => set_localObservers (erase_first (stops_at (svc e') (Some o)) (localObservers_ (base_ p))) (set_env e' (base_ p))) Hop)
    as (e' & h & _ & E & _ & Hop'); [done|].
  assert (E0 : on_store (obj_unregister r o LOCAL_CHANGE) s = Done (E_OK, set_st_hlp h s)) by exact (on_js_done _ _ _ _ E).
  set (s0 := set_st_hlp h s) in *.
  assert (Hcb : has_callback (st_js s) f o = true) by (unfold has_callback; rewrite Ho; exact Heq).
  assert (Hdrop : on_js (js_drop [o]) s0 = Done (tt, set_st_hlp (map_alive (fun x => x ∖ list_to_set []) (js_hlp (st_js s0))) s0)).
  { apply on_js_done. unfold js_drop. rewrite so_bind_st. cbn [get fst snd List.filter].
    assert (posted_owns (st_js s0) o = true) as -> by (unfold posted_owns; cbn; rewrite Hp; cbn; by rewrite bool_decide_true). done. }
  set (s1 := set_st_hlp (map_alive (fun x => x ∖ list_to_set []) (js_hlp (st_js s0))) s0) in *.
  assert (Hl0 : st_linked s self obj r [o] p) by by split.
  assert (Eloop : st_unregister_loop r f [o] s = Done ([], s1)).
  { cbn [st_unregister_loop]. rewrite so_bind_st. cbn [get fst snd]. rewrite Hcb. cbn [negb].
    rewrite (so_bind_Done _ _ _ _ _ E0), (so_bind_Done _ _ _ _ _ Hdrop). done. }
  set (s2 := set_st_proxies (<[obj := mkStorageProxy r []]> (st_proxies s1)) s1).
  assert (Eoff : Storage_UnRegisterObserver obj f s = Done (tt, s2)).
  { unfold Storage_UnRegisterObserver. rewrite (so_bind_Done _ _ _ _ _ (the_storage_linked _ _ _ _ _ _ Hl0)). cbn [sg_value sg_observers].
    rewrite (so_bind_Done _ _ _ _ _ Eloop). unfold put_st_observers.
    assert (Eat : the_storage (Some obj) s1 = Done (mkStorageProxy r [o], s1)).
    { unfold the_storage. rewrite so_bind_st. cbn [get fst snd]. change (st_proxies s1) with (st_proxies s). by rewrite Hsp. }
    by rewrite (so_bind_Done _ _ _ _ _ Eat). }
  assert (Hrun : exists j', run_posted_keeping (fun o => existsb (fun e => bool_decide (o ∈ sg_observers e.2)) (map_to_list (st_proxies s2))) main_env (st_js s2) =
      Done (tt, j') /\ js_events j' = js_events (st_js s) ++ [Notified f args]).
  { unfold run_posted_keeping. rewrite so_bind_st. cbn [get fst snd].
    change (js_posted (st_js s2)) with (js_posted (st_js s)). change (js_observers (st_js s2)) with (js_observers (st_js s)).
    rewrite Hp. cbn [next_posted fst]. change (js_observers (st_js s2)) with (js_observers (st_js s)). rewrite Ho. cbn [jo_env].
    rewrite bool_decide_true by done. rewrite so_bind_st. cbn [modify fst snd]. rewrite Ho, so_bind_st. destruct (_ || _); by eexists. }
  destruct Hrun as (j' & Erun & Hev).
  exists s2, (upd_base (set_localObservers (erase_first (stops_at (svc e') (Some o)) (localObservers_ (base_ p))) (set_env e' (base_ p))) p), (set_st_js j' s2).
  split; [|split; [|split; [|exact Hev]]].
  - unfold Storage_UnRegisterObserver_js, st_change_args. cbn [head tail default]. change (id m) with m. change (id f) with f.
    rewrite (bool_decide_true _ Hmt), Hms, (bool_decide_true _ Hf). cbn [negb]. rewrite bool_decide_true by done. cbn [negb].
    rewrite Hu. by rewrite (so_bind_Done _ _ _ _ _ Eoff).
  - split; [done|apply lookup_insert_eq|]. exact (opened_alive _ _ _ _ Hop').
  - unfold st_run_posted. rewrite so_bind_st. cbn [get fst snd]. exact (on_js_done _ _ _ _ Erun).
Qed.
End storage_observers.

(** ** Concrete instances *)

(** The storage 1 over the object 2, which holds [vals]. *)
Definition w_st (j : Js) (l : list positive) : St := mkSt j {[1%positive := mkStorageProxy 2 l]} ∅ 1%positive.

Lemma w_st_linked j l p : opened (js_hlp j) 2 p -> st_linked (w_st j l) (jv (JNative 1)) 1 2 l p.
Proof. by split. Qed.

Lemma w_js_opened vals : opened (js_hlp (w_js vals)) 2 (w_js_prefs vals).
Proof. by split. Qed.

Definition w_st_calls : list st_op :=
  [SgPut (jv (JStr "k")) (jv (JNum 5)); SgGet (jv (JStr "k")) (jv (JNum 6)); SgGet (jv (JStr "k")) (jv (JBool true)); SgPut (jv (JStr "k")) (jv JNull);
   SgDelete (jv (JStr "k")); SgHas (jv (JStr "k"))].

Example storage_refines_map_witness :
  exists rs s' p', st_run 100 (jv (JNative 1)) w_st_calls (w_st (w_js ∅) []) = Done (rs, s') /\
    st_linked s' (jv (JNative 1)) 1 2 [] p' /\ st_agree_all w_st_calls ∅ rs.
Proof.
  assert (Hmem : forall n, @napi_malloc ref_napi n = true) by done.
  assert (Hcopy : forall v n, @napi_typeof ref_napi v = napi_string -> is_Some (@napi_copy_string_utf8 ref_napi v n)) by (intros [] n ?; done || by eexists).
  destruct (storage_refines_map 100 Hmem Hcopy (jv (JNative 1)) w_st_calls (w_st (w_js ∅) []) 1 2 [] _ ∅ (w_st_linked _ _ _ (w_js_opened ∅)))
    as (rs & s' & p' & E & Hl & Ha & _); [done|].
  by exists rs, s', p'.
Defined.

(** The results of these calls. *)
Example storage_results : match st_run 100 (jv (JNative 1)) w_st_calls (w_st (w_js ∅) []) with Done (rs, _) => Some rs | _ => None end =
  Some [Value JUndef; Value (JNum 5); Value (JBool true); Thrown; Value JUndef; Value (JBool false)].
Proof.
  vm_cast_no_check (@eq_refl (option (list CallResult)) (Some [Value JUndef; Value (JNum 5); Value (JBool true); Thrown; Value JUndef; Value (JBool false)])).
Qed.

(** The observer 9, whose queue has a notification. *)
Definition w_st_posted : Js :=
  set_posted [(9%positive, [Some (jv (JStr "k"))])] (set_js_observers {[9%positive := mkJsObserver (Some (jv (JFun 7))) false main_env true]} (w_js ∅)).

Example storage_off_still_calls_witness : exists s1 s2,
  Storage_UnRegisterObserver_js (jv (JNative 1)) [jv (JStr "change"); jv (JFun 7)] (w_st w_st_posted [9%positive]) = Done (Value JUndef, s1) /\
  st_run_posted s1 = Done (tt, s2) /\ js_events (st_js s2) = [Notified (jv (JFun 7)) [Some (jv (JStr "k"))]].
Proof.
  destruct (storage_off_still_calls (jv (JNative 1)) (jv (JStr "change")) (jv (JFun 7)) (w_st w_st_posted [9%positive]) 1 2 9 (w_js_prefs ∅) [Some (jv (JStr "k"))])
    as (s1 & p1 & s2 & E1 & _ & E2 & Hev).
  - by split.
  - split; reflexivity.
  - reflexivity.
  - reflexivity.
  - reflexivity.
  - reflexivity.
  - by exists s1, s2.
Defined.
