(* ===== verification/JsSystem.v ===== *)
(** * The storage of the system for JavaScript

    Models [napi_system_storage.cpp] of [frameworks/js/napi/system_storage]:
    [get], [set], [delete] and [clear] on one file of texts, each given one
    object with the key, the value, the default and up to three callbacks. *)

From S2P Require Import Prelude Errno Value Utils NumText ConcurrentMap Env FileLock Store DbAdapter Base Impl Enhance Helper.
From S2P Require Import Handle JsValue Js JsStorage.

(** ** What is asked of the engine *)

(** The steps that can fail when a work is made. *)
Inductive WorkStep := NewContext | CreateResource | CreatePromise | CreateWork | QueueWork.

(** Some calls may behave otherwise while an exception is pending, which is the
    first argument. *)
Class WorkEngine `{Napi} := {
  napi_property : bool -> napi_value -> string -> option napi_value;   (** of a property that is there and is read *)
  napi_create_reference : bool -> napi_value -> bool;
  work_step : bool -> WorkStep -> bool;
  napi_call_function : napi_value -> list napi_value -> bool           (** [false] when the function throws *)
}.

(** ** Codes and messages *)

Definition SYS_MAX_KEY_LENGTH : Z := 32.
Definition SYS_MAX_VALUE_LENGTH : Z := 128.

(** [napi_system_storage.cpp:85-99] GetMessageInfo *)
Definition GetMessageInfo (errCode : Z) : string :=
  if errCode =? E_KEY_EMPTY then "The key string is null or empty."
  else if errCode =? E_KEY_EXCEED_LENGTH_LIMIT then "The key string length should shorter than 32."
  else if errCode =? E_VALUE_EXCEED_LENGTH_LIMIT then "The value string length should shorter than 128."
  else if errCode =? E_DEFAULT_EXCEED_LENGTH_LIMIT then "The default string length should shorter than 128."
  else "unknown err".

(** [napi_system_storage.cpp:101-115] ConversionToSysStorageErrorCode *)
Definition ConversionToSysStorageErrorCode (errCode : Z) : Z :=
  if errCode =? E_KEY_EMPTY then -1006
  else if errCode =? E_KEY_EXCEED_LENGTH_LIMIT then -1016
  else if errCode =? E_VALUE_EXCEED_LENGTH_LIMIT then -1017
  else if errCode =? E_DEFAULT_EXCEED_LENGTH_LIMIT then -1018
  else errCode.

(** ** State *)

Inductive SysRequest := SysGet | SysSet | SysDelete | SysClear.

(** [napi_system_storage.cpp:29-40] AsyncContext *)
Record SysContext `{Napi} := mkSysContext {
  sc_request : SysRequest;
  sc_key : string;
  sc_def : string;
  sc_val : string;
  sc_prefName : string;
  sc_success : option napi_value;
  sc_fail : option napi_value;
  sc_complete : option napi_value;
  sc_output : Z
}.
Arguments mkSysContext {_} _ _ _ _ _ _ _ _ _.

Section JsSystem.
Context `{XmlStore} `{SafeBlockQueue} `{KvDb} `{Iteration} `{Napi} `{!AbilityRuntime} `{!WorkEngine}.
Context (RSIZE_MAX : Z) (gskvEnabled : bool).

Record SystemState := mkSystemState {
  sy_js : Js;
  sy_works : gmap positive SysContext;
  sy_next_work : positive
}.

Definition set_sy_js j (s : SystemState) := mkSystemState j (sy_works s) (sy_next_work s).
Definition set_sy_works v (s : SystemState) := mkSystemState (sy_js s) v (sy_next_work s).

Definition sys_on_js {A} (m : SO Js A) : SO SystemState A := fun s => '(a, j) ← m (sy_js s); Done (a, set_sy_js j s).
Definition sys_on_store {A} (m : SO Helper A) : SO SystemState A := sys_on_js (js_on_helper m).

Fixpoint emit_all (l : list JsEvent) : ST Js unit := match l with [] => mret tt | e :: l => emit e;; emit_all l end.
Definition sys_emit (l : list JsEvent) : SO SystemState unit := sys_on_js (run_st (emit_all l)).

(** ** Arguments

    Each part is read with a flag that says whether an exception is pending, and
    gives what it threw. *)

(** What is assigned, if anything.

    [napi_system_storage.cpp:58-69] ParseString *)
Definition Sys_ParseString (pending : bool) (object : napi_value) (name : string) (enable : bool) : JsEvent + option string :=
  match napi_property pending object name with
  | None => inr None
  | Some value =>
      let ret := Native_string value in
      let key := match ret with inr s => s | inl _ => "" end in
      if enable || (match ret with inr _ => true | inl _ => false end && negb (bool_decide (key = ""))) then inr (Some key)
      else inl (Asserted "StorageOptions is empty.")
  end.

(** [napi_system_storage.cpp:71-83] ParseFunction *)
Definition Sys_ParseFunction (pending : bool) (object : napi_value) (name : string) : JsEvent + option napi_value :=
  match napi_property pending object name with
  | None => inr None
  | Some value =>
      if negb (bool_decide (napi_typeof value = napi_function)) then inl (Asserted "Wrong argument, function expected.")
      else if negb (napi_create_reference pending value) then inl LastError
      else inr (Some value)
  end.

(** Read a part: an exception does not stop the call. *)
Definition part {A} (read : bool -> JsEvent + A) (none : A) (pending : bool) : SO SystemState (A * bool) :=
  match read pending with
  | inl e => sys_emit [e];; mret (none, true)
  | inr a => mret (a, pending)
  end.

(** The error of the context is not looked at.

    [napi_system_storage.cpp:180-185] GetPrefName *)
Definition GetPrefName : ST Js string :=
  info ← GetContextInfo None "";
  mret (info.2.1 +:+ "/default.xml").

(** The call as JavaScript sees it: an exception hides the promise. *)
Definition returned (pending : bool) (r : CallResult) : CallResult := if pending then Thrown else r.

(** [napi_system_storage.cpp:187-239] Operate *)
Definition Operate (argv : list napi_value) (parseStrFlag : bool) (execute : SysRequest) : SO SystemState CallResult :=
  match argv with
  | [object] =>
      if negb (bool_decide (napi_typeof object = napi_object))
      then sys_emit [Asserted "Wrong argument type, object expected."];; mret Thrown else
      if negb (work_step false NewContext) then mret (Value napi_get_undefined) else
      prefName ← sys_on_js (run_st GetPrefName);
      '(key, pending) ← part (fun p => Sys_ParseString p object "key" parseStrFlag) None false;
      '(val, pending) ← part (fun p => Sys_ParseString p object "value" false) None pending;
      '(def, pending) ← part (fun p => Sys_ParseString p object "default" false) None pending;
      '(success, pending) ← part (fun p => Sys_ParseFunction p object "success") None pending;
      '(fail, pending) ← part (fun p => Sys_ParseFunction p object "fail") None pending;
      '(complete, pending) ← part (fun p => Sys_ParseFunction p object "complete") None pending;
      let context := mkSysContext execute (default "" key) (default "" def) (default "" val) prefName success fail complete E_ERROR in
      if negb (work_step pending CreateResource && work_step pending CreatePromise) then mret (returned pending (Value napi_get_undefined)) else
      s ← run_st get;
      let id := sy_next_work s in
      let queued := work_step pending CreateWork && work_step pending QueueWork in
      run_st (modify (fun s => mkSystemState (sy_js s) (if queued then <[id := context]> (sy_works s) else sy_works s) (Pos.succ id)));;
      mret (returned pending (Promise id))
  | _ => sys_emit [Asserted "Not enough arguments, expected 1."];; mret Thrown
  end.

(** ** The work *)

(** The code, and the value as the work leaves it. *)
Definition with_file (context : SysContext) (k : positive -> SO SystemState (Z * string)) : SO SystemState (Z * string) :=
  '(pref, output) ← sys_on_store (GetPreferences gskvEnabled (path_options (sc_prefName context)));
  if negb (output =? E_OK) then mret (output, sc_val context) else
  match pref with Some r => k r | None => run_out Undef end.

(** The code of opening the file is the result, and the pointer is followed
    whatever that code is.

    [napi_system_storage.cpp:241-258] NapiGet *)
Definition sys_get (context : SysContext) : SO SystemState (Z * string) :=
  if SYS_MAX_KEY_LENGTH <? slen (sc_key context) then mret (E_KEY_EXCEED_LENGTH_LIMIT, sc_val context) else
  if SYS_MAX_VALUE_LENGTH <? slen (sc_def context) then mret (E_DEFAULT_EXCEED_LENGTH_LIMIT, sc_val context) else
  '(pref, output) ← sys_on_store (GetPreferences gskvEnabled (path_options (sc_prefName context)));
  match pref with
  | None => run_out Undef
  | Some r => val ← sys_on_store (obj_GetString r (sc_key context) (sc_def context)); mret (output, val)
  end.

(** [napi_system_storage.cpp:260-280] NapiSet *)
Definition sys_set (context : SysContext) : SO SystemState (Z * string) :=
  if SYS_MAX_KEY_LENGTH <? slen (sc_key context) then mret (E_KEY_EXCEED_LENGTH_LIMIT, sc_val context) else
  if SYS_MAX_VALUE_LENGTH <? slen (sc_val context) then mret (E_VALUE_EXCEED_LENGTH_LIMIT, sc_val context) else
  with_file context (fun r =>
    output ← sys_on_store (obj_PutString RSIZE_MAX r (sc_key context) (sc_val context));
    _ ← sys_on_store (obj_flushsync r);
    mret (output, sc_val context)).

(** [napi_system_storage.cpp:282-298] NapiDelete *)
Definition sys_delete (context : SysContext) : SO SystemState (Z * string) :=
  if SYS_MAX_KEY_LENGTH <? slen (sc_key context) then mret (E_KEY_EXCEED_LENGTH_LIMIT, sc_val context) else
  with_file context (fun r =>
    output ← sys_on_store (obj_delete r (sc_key context));
    _ ← sys_on_store (obj_flushsync r);
    mret (output, sc_val context)).

(** [napi_system_storage.cpp:300-311] NapiClear *)
Definition sys_clear (context : SysContext) : SO SystemState (Z * string) :=
  with_file context (fun r =>
    output ← sys_on_store (obj_clear r);
    _ ← sys_on_store (obj_flushsync r);
    mret (output, sc_val context)).

Definition sys_execute (context : SysContext) : SO SystemState (Z * string) :=
  match sc_request context with
  | SysGet => sys_get context
  | SysSet => sys_set context
  | SysDelete => sys_delete context
  | SysClear => sys_clear context
  end.

Definition finished (r : Z * string) (c : SysContext) : SysContext :=
  mkSysContext (sc_request c) (sc_key c) (sc_def c) r.2 (sc_prefName c) (sc_success c) (sc_fail c) (sc_complete c) r.1.

Definition sys_run_work (id : positive) : SO SystemState unit :=
  s ← run_st get;
  match sy_works s !! id with
  | None => mret tt
  | Some context =>
      r ← sys_execute context;
      run_st (modify (fun s => set_sy_works (<[id := finished r context]> (sy_works s)) s))
  end.

(** ** Completion *)

(** A callback is called with values that the engine makes; it may throw, and
    then the rest of the completion is not done. *)
Definition call_back (f : napi_value) (args : option (list napi_value)) : list JsEvent * bool :=
  match args with
  | None => ([LastError], false)
  | Some args =>
      if napi_call_function f args then ([CalledWith f (map Some args)], true)
      else ([CalledWith f (map Some args); LastError], false)
  end.

Definition call_back_if (here : bool) (f : option napi_value) (args : option (list napi_value)) : list JsEvent * bool :=
  match f with Some f => if here then call_back f args else ([], true) | None => ([], true) end.

Definition and_then (a b : list JsEvent * bool) : list JsEvent * bool := if a.2 then (a.1 ++ b.1, b.2) else a.

Definition success_result (c : SysContext) : option (list napi_value) := v ← napi_create_string_utf8 (sc_val c); mret [v].

Definition fail_result (c : SysContext) : option (list napi_value) :=
  m ← napi_create_string_utf8 (GetMessageInfo (sc_output c));
  z ← napi_create_int32 (ConversionToSysStorageErrorCode (sc_output c));
  mret [m; z].

(** What is called, thrown and resolved.

    [napi_system_storage.cpp:134-178] Complete *)
Definition Complete (status : bool) (id : positive) (ctx : SysContext) : list JsEvent :=
  if negb status then [ThrewText None "Execute callback failed."] else
  (and_then (call_back_if (sc_output ctx =? E_OK) (sc_success ctx) (success_result ctx))
  (and_then (call_back_if (negb (sc_output ctx =? E_OK)) (sc_fail ctx) (fail_result ctx))
  (and_then (call_back_if true (sc_complete ctx) (Some []))
    ([Resolved id napi_get_undefined], true)))).1.

Definition sys_complete_work (status : bool) (id : positive) : SO SystemState unit :=
  s ← run_st get;
  match sy_works s !! id with
  | None => mret tt
  | Some context =>
      sys_emit (Complete status id context);;
      run_st (modify (fun s => set_sy_works (delete id (sy_works s)) s))
  end.

(** ** Methods *)

(** [napi_system_storage.cpp:241-258] NapiGet *)
Definition NapiGet (argv : list napi_value) : SO SystemState CallResult := Operate argv true SysGet.
(** [napi_system_storage.cpp:260-280] NapiSet *)
Definition NapiSet (argv : list napi_value) : SO SystemState CallResult := Operate argv true SysSet.
(** [napi_system_storage.cpp:282-298] NapiDelete *)
Definition NapiDelete (argv : list napi_value) : SO SystemState CallResult := Operate argv true SysDelete.
(** [napi_system_storage.cpp:300-311] NapiClear *)
Definition NapiClear (argv : list napi_value) : SO SystemState CallResult := Operate argv false SysClear.
End JsSystem.
