(* ===== verification/JsShared.v ===== *)
(** * What environments see of a shared object

    Facts about [JsSendable]: a sendable object answers as another one does,
    its values apart, and the observers of the environments are apart as long as
    the object lives. *)

From S2P Require Import Prelude Errno Value Utils NumText ConcurrentMap Env FileLock Store DbAdapter Base Impl Enhance Helper.
From S2P Require Import Handle JsValue Js JsSendable JsClient.

Section js_shared.
Context `{XmlStore} `{SafeBlockQueue} `{KvDb} `{Iteration} `{NapiLaws} `{!AbilityRuntime}.
Context (RSIZE_MAX : Z) (gskvEnabled : bool).

(** ** Calls *)

(** The value [self] is the sendable object [obj] over the object [r]. *)
Record sendable_linked (j : Js) (self : napi_value) (obj r : positive) (sp : SendableProxy) : Prop := {
  sl_unwrap : napi_unwrap_sendable self = Some obj;
  sl_proxy : js_sendables j !! obj = Some sp;
  sl_instance : sp_instance sp = Some r;
  sl_sendable : napi_is_sendable self = true
}.

Definition sendable_call (self : napi_value) (o : js_op) : SO Js CallResult :=
  match o.1 with
  | MPut => Sendable_SetValue RSIZE_MAX gskvEnabled false self o.2
  | MGet => Sendable_GetValue RSIZE_MAX gskvEnabled false self o.2
  | MHas => Sendable_HasKey RSIZE_MAX gskvEnabled false self o.2
  | MDelete => Sendable_Delete RSIZE_MAX gskvEnabled false self o.2
  | MClear => Sendable_Clear RSIZE_MAX gskvEnabled false self o.2
  | MGetAll => Sendable_GetAll RSIZE_MAX gskvEnabled false self o.2
  | MFlush => Sendable_Flush RSIZE_MAX gskvEnabled false self o.2
  end.

(** The last argument of a call on a plain object may be taken for a callback. *)
Definition no_callback (o : js_op) : Prop := forall v, last o.2 = Some v -> napi_typeof v <> napi_function.

Definition sendable_input (m : js_method) : list napi_value -> napi_value -> Js -> sum JSError (option positive * Request) :=
  match m with
  | MPut => sendable_input_SetValue | MGet => sendable_input_GetValue | MHas => sendable_input_HasKey
  | MDelete => sendable_input_Delete | MClear => sendable_input_Clear | MGetAll => sendable_input_GetAll | MFlush => sendable_input_Flush
  end.

Lemma sendable_call_input self o : sendable_call self o = call_method RSIZE_MAX gskvEnabled false (reading (sendable_input o.1)) self o.2.
Proof. by destruct o as [[] argv]. Qed.

Lemma sendable_input_linked self m argv j obj r sp : sendable_linked j self obj r sp ->
  sendable_input m argv self j = match js_request m argv with inl e => inl e | inr q => inr (Some r, RSendable q) end.
Proof.
  intros [Hu Hp Hi _]. assert (Hs : forall msg q, sendable_instance self j msg q = inr (Some r, RSendable q)).
  { intros msg q. unfold sendable_instance, Sendable_GetSelfInstance. by rewrite Hu, Hp, Hi. }
  by_args m argv; cbn [sendable_input js_request]; unfold key_request, sendable_input_SetValue, sendable_input_GetValue,
    sendable_input_HasKey, sendable_input_Delete, sendable_input_Clear, sendable_input_GetAll, sendable_input_Flush;
    try (change (Sendable_ParseKey ?k) with (ParseKey k); destruct (ParseKey _) as [e|key]; [done|]);
    try (change (Sendable_ParseDefValue ?v) with (ParseDefValue v); destruct (ParseDefValue _) as [e|w]; [done|]); by rewrite Hs.
Qed.

(** A call on an object of either kind, whose check gives [i]. *)
Lemma call_checked input self argv i j : few argv -> split_callback (napi_is_sendable self) argv = (argv, None) -> input self argv j = (i, j) ->
  call_method RSIZE_MAX gskvEnabled false input self argv j = match i with
    | inl e => Done (Thrown, (emit (Threw e) j).2)
    | inr (instance, request) => (v ← Sync RSIZE_MAX gskvEnabled instance request; mret (Value v)) j
    end.
Proof.
  intros Hf Es Ei. unfold call_method. rewrite (proj2 (Nat.ltb_ge _ _) Hf), Es, so_bind_st, Ei. cbn [fst snd].
  destruct i as [e|[instance request]]; [by rewrite so_bind_st|done].
Qed.

Lemma no_callback_split o b : no_callback o -> split_callback b o.2 = (o.2, None).
Proof.
  intros Hn. unfold split_callback. destruct (last o.2) as [v|] eqn:E; [|done].
  rewrite (bool_decide_false (napi_typeof v = napi_function)) by by apply Hn. by rewrite andb_false_r.
Qed.

Lemma Sync_value inst req j code a j1 res : OnExecute RSIZE_MAX gskvEnabled inst req j = Done ((code, a), j1) -> OnComplete code a j1 = (res, j1) ->
  (v ← Sync RSIZE_MAX gskvEnabled inst req; mret (Value v)) j = Done (Value (match res with inr v => v | inl _ => napi_get_undefined end), j1).
Proof.
  intros E Ec. unfold Sync. unfold mbind, so_bind. rewrite E. cbn [fst snd]. unfold run_st. by rewrite Ec.
Qed.

(** What a reply is for JavaScript through a sendable object: entries are made
    sendable values, and all of them a sendable object. *)
Definition sendable_result (argv : list napi_value) (rep : reply) : napi_value :=
  match rep with
  | RValue w => if IsLong w then default napi_get_undefined (argv !! 1%nat) else default napi_get_undefined (Sendable_variant w)
  | RMap m => Sendable_GetAllExecute m
  | _ => js_result argv rep
  end.

Lemma sendable_completes argv rep j : exists res, OnComplete (js_answer argv rep).1 (ASendable (js_answer argv rep).2) j = (res, j) /\
  (match res with inr v => v | inl _ => napi_get_undefined end) = sendable_result argv rep.
Proof.
  destruct rep as [w|b|z|z w|m|z m]; cbn [js_answer sendable_result js_result fst snd]; unfold OnComplete.
  1: { eexists. split; [done|]. unfold Sendable_output_GetValue. destruct (IsLong w); [done|]. by destruct (Sendable_variant w). }
  1: { eexists. split; [done|]. by destruct (napi_get_boolean b). }
  1: { destruct (negb (z =? E_OK)); by eexists. }
  all: by eexists.
Qed.

(** C25: a sendable object answers as another object over the same entries
    does: any call of [putSync], [getSync], [hasSync], [deleteSync],
    [clearSync], [getAllSync] and [flushSync], with any arguments, at most ten
    and no function for the last one, has the same effect on both, and throws
    the same error or is answered from the same reply of the object; the answer
    is the same value, but that an entry that is got is made a sendable value
    and all entries a sendable object (and not, as for the other, an object
    whose properties are defined one by one when a key consists of digits). *)
Theorem sendable_like_plain (self sself : napi_value) (o : js_op) (j : Js) (obj sobj r : positive) (px : PreferencesProxy) (sp : SendableProxy)
    (p : PreferencesImpl) (Hl : js_linked j self obj r px p) (Hs : sendable_linked j sself sobj r sp) (Hn : no_callback o) (Hfew : few o.2) :
  exists res res' j' p', js_call RSIZE_MAX gskvEnabled self o j = Done (res, j') /\ sendable_call sself o j = Done (res', j') /\
    js_linked j' self obj r px p' /\ sendable_linked j' sself sobj r sp /\
    match js_asks o with
    | None => res = Thrown /\ res' = Thrown
    | Some q => exists rep, replies q (view p) rep /\ res = Value (js_result o.2 rep) /\ res' = Value (sendable_result o.2 rep)
    end.
Proof.
  rewrite js_call_input, sendable_call_input.
  rewrite (call_checked (reading (js_input o.1)) self o.2 _ j Hfew (no_callback_split o _ Hn) eq_refl).
  rewrite (call_checked (reading (sendable_input o.1)) sself o.2 _ j Hfew (no_callback_split o _ Hn) eq_refl).
  rewrite (js_input_linked _ _ _ _ _ _ _ _ Hl), (sendable_input_linked _ _ _ _ _ _ _ Hs).
  unfold js_asks, js_argv. rewrite (no_callback_split o false Hn). cbn [fst]. pose proof (request_asks o.1 o.2) as Hreq.
  destruct (args_ask o.1 o.2) as [q|] eqn:Hask; destruct Hreq as [req Hreq]; rewrite Hreq.
  2: { eexists _, _, _, p. split; [done|]. split; [done|]. split; [by apply emit_linked|]. split; [by destruct Hs|done]. }
  destruct (request_works RSIZE_MAX gskvEnabled _ _ _ _ _ _ _ _ _ _ Hask Hreq Hl) as (rep & h & p' & E & Hl' & Hrep & _).
  destruct (js_completes o.2 rep (set_hlp h j)) as (v1 & Ec1 & Hv1). destruct (sendable_completes o.2 rep (set_hlp h j)) as (v2 & Ec2 & Hv2).
  destruct (replies_of q p (view p) rep Hrep ltac:(reflexivity)) as [Hr _]. destruct (js_answer o.2 rep) as [code a]. cbn [fst snd] in *.
  assert (Es : OnExecute RSIZE_MAX gskvEnabled (Some r) (RSendable req) j = Done ((code, ASendable a), set_hlp h j)).
  { cbn [OnExecute]. by rewrite (so_bind_Done _ _ _ _ _ E). }
  eexists _, _, (set_hlp h j), p'. split; [exact (Sync_value _ _ _ _ _ _ _ E Ec1)|]. split; [exact (Sync_value _ _ _ _ _ _ _ Es Ec2)|].
  split; [done|]. split; [by destruct Hs|]. exists rep. by rewrite Hv1, Hv2.
Qed.

(** ** Environments *)

Definition listed_by (it : JSObservers) : list positive := so_local it ++ so_multi it ++ so_data it.

Definition is_of (env : positive) (j : Js) (o : positive) : Prop := exists x, js_observers j !! o = Some x /\ jo_env x = env.

(** Every observer that an environment has with an object is one of its own. *)
Record envs_sound (j : Js) : Prop := {
  es_env obj p env it o : js_sendables j !! obj = Some p -> sp_observers p !! env = Some it -> o ∈ listed_by it -> is_of env j o;
  es_fresh o : (js_next j <= o)%positive -> js_observers j !! o = None;
  es_objects obj : (js_next_proxy j <= obj)%positive -> js_sendables j !! obj = None
}.

Lemma is_of_at env j o x : js_observers j !! o = Some x -> is_of env j o <-> jo_env x = env.
Proof. intros E. unfold is_of. rewrite E. split; [by intros (y & [= ->] & Hy)|by exists x]. Qed.

(** The callbacks that may be called. *)
Context (allowed : napi_value -> Prop).

(** What a step of the environment [env] leaves as it is. *)
Record keeps (env : positive) (j j' : Js) : Prop := {
  kp_env o e : is_of e j o -> is_of e j' o;
  kp_others o e : e <> env -> is_of e j o -> js_observers j' !! o = js_observers j !! o;
  kp_lists obj p e it : e <> env -> js_sendables j !! obj = Some p -> sp_observers p !! e = Some it ->
    exists p', js_sendables j' !! obj = Some p' /\ sp_observers p' !! e = Some it;
  kp_notified f args : Notified f args ∈ js_events j' -> Notified f args ∈ js_events j \/ allowed f
}.

Lemma keeps_refl env j : keeps env j j.
Proof. split; [done|done| |by left]. intros obj p e it _ Hp Hi. by exists p. Qed.

Lemma keeps_trans env j1 j2 j3 : keeps env j1 j2 -> keeps env j2 j3 -> keeps env j1 j3.
Proof.
  intros [A1 A2 A3 A4] [B1 B2 B3 B4]. split; [auto| | |intros f args [Hin|Hf]%B4; [by apply A4|by right]].
  - intros o e Hne Ho. rewrite (B2 o e Hne (A1 o e Ho)). exact (A2 o e Hne Ho).
  - intros obj p e it Hne Hp Hi. destruct (A3 obj p e it Hne Hp Hi) as (p2 & Hp2 & Hi2). exact (B3 obj p2 e it Hne Hp2 Hi2).
Qed.

(** A step of [env] that began in [j0]. *)
Definition on_way (env : positive) (j0 j : Js) : Prop := keeps env j0 j /\ envs_sound j.

Lemma on_way_step env j0 j j' : on_way env j0 j -> keeps env j j' -> envs_sound j' -> on_way env j0 j'.
Proof. intros [Hk _] Hk' Hs. split; [by eapply keeps_trans|done]. Qed.

(** Only the object of the store, the queue or the events change. *)
Lemma same_lists env j j' : js_sendables j' = js_sendables j -> js_observers j' = js_observers j -> js_next j' = js_next j ->
  (js_next_proxy j <= js_next_proxy j')%positive ->
  (forall f args, Notified f args ∈ js_events j' -> Notified f args ∈ js_events j \/ allowed f) -> envs_sound j -> keeps env j j' /\ envs_sound j'.
Proof.
  intros Es Eo En Ex Ee [Hs Hf Ho]. split; split; unfold is_of; rewrite ?Es, ?Eo, ?En; try done.
  - intros obj p e it _ Hp Hi. by exists p.
  - intros obj Hobj. apply Ho. lia.
Qed.

Lemma way_helper {A} env j0 (m : SO Helper A) : leads (on_way env j0) (js_on_helper m) (fun _ => on_way env j0).
Proof.
  intros j a j' Hj E. unfold js_on_helper, mbind, outcome_bind in E. destruct (m (js_hlp j)) as [[x h]| | |]; try discriminate E.
  injection E as <- <-. destruct (same_lists env j (set_hlp h j) eq_refl eq_refl eq_refl (Pos.le_refl _) (fun _ _ Hin => or_introl Hin) (proj2 Hj)) as [Hk Hs].
  by eapply on_way_step.
Qed.

Lemma way_get {A} env j0 (k : Js -> SO Js A) Q : (forall j, leads (fun j' => j' = j /\ on_way env j0 j) (k j) Q) -> leads (on_way env j0) (j ← run_st get; k j) Q.
Proof. intros Hk j a j' Hj E. rewrite so_bind_st in E. exact (Hk j j a j' (conj eq_refl Hj) E). Qed.

Lemma way_drop env j0 l : leads (on_way env j0) (js_drop l) (fun _ => on_way env j0).
Proof. apply way_get. intros j. eapply leads_weaken; [apply (way_helper env j0)|by intros ? [-> ?]|done]. Qed.

Lemma way_the_sendable env j0 obj : leads (on_way env j0) (the_sendable obj) (fun p j => js_sendables j !! obj = Some p /\ on_way env j0 j).
Proof.
  apply way_get. intros j j' a s' [-> Hj] E. destruct (js_sendables j !! obj) as [p|] eqn:Ep; [|done]. by injection E as <- <-.
Qed.

(** A new observer of the environment. *)
Lemma way_make env j0 f : leads (on_way env j0) (make_js_observer env f) (fun o j => is_of env j o /\ on_way env j0 j).
Proof.
  intros j o j' [Hk Hs] E. injection E as <- <-.
  assert (Hnew : js_observers j !! js_next j = None) by (apply Hs; lia).
  assert (Hkeep : forall o e, is_of e j o -> <[js_next j := mkJsObserver (Some f) false env true]> (js_observers j) !! o = js_observers j !! o).
  { intros o e (x & Ho & _). rewrite lookup_insert_ne; [done|]. intros <-. by rewrite Hnew in Ho. }
  split; [|apply (on_way_step env j0 j); [done| |]].
  - exists (mkJsObserver (Some f) false env true). split; [apply lookup_insert_eq|done].
  - split; try done; try by left.
    + intros o e Ho. unfold is_of. cbn. by rewrite (Hkeep _ _ Ho).
    + intros o e _ Ho. by apply (Hkeep _ e).
    + intros obj p e it _ Hp Hi. by exists p.
  - split.
    + intros obj p e it o Hp Hi Ho. unfold is_of. cbn. pose proof (es_env _ Hs _ _ _ _ _ Hp Hi Ho) as Hof. by rewrite (Hkeep _ _ Hof).
    + intros o Ho. cbn in *. rewrite lookup_insert_ne by lia. apply Hs. lia.
    + apply Hs.
Qed.

(** The callback of an observer of the environment, or its queue, goes. *)
Lemma way_change env j0 j o x : on_way env j0 j -> is_of env j o -> jo_env x = env ->
  on_way env j0 (set_js_observers (<[o := x]> (js_observers j)) j).
Proof.
  intros Hj (y & Hy & Ey) Ex. apply (on_way_step env j0 j); [done| |].
  - split; try done; try by left.
    + intros u e (z & Hz & Ez). unfold is_of. cbn. destruct (decide (u = o)) as [-> |Hne]; [|by rewrite lookup_insert_ne; eauto].
      exists x. rewrite lookup_insert_eq. split; [done|]. congruence.
    + intros u e Hne (z & Hz & Ez). cbn. rewrite lookup_insert_ne; [done|]. intros <-. congruence.
    + intros obj p e it _ Hp Hi. by exists p.
  - destruct Hj as [_ [Hs Hf Ho]]. split; [| |done].
    + intros obj p e it u Hp Hi Hu. destruct (Hs obj p e it u Hp Hi Hu) as (z & Hz & Ez). unfold is_of. cbn.
      destruct (decide (u = o)) as [-> |Hne]; [|by rewrite lookup_insert_ne; eauto]. exists x. rewrite lookup_insert_eq. split; [done|]. congruence.
    + intros u Hu. cbn in *. rewrite lookup_insert_ne; [by apply Hf|]. intros <-. by rewrite Hf in Hy.
Qed.

Lemma way_clear env j0 o : leads (fun j => is_of env j o /\ on_way env j0 j) (run_st (ClearCallback o)) (fun _ => on_way env j0).
Proof.
  apply leads_st. intros j [(x & Hx & Ex) Hj]. unfold ClearCallback, modify. cbn [snd fst]. rewrite Hx. destruct (jo_queue x); [|done].
  apply way_change; [done|by exists x|done].
Qed.

Lemma is_of_change o e j u x : is_of e j u -> (forall y, js_observers j !! o = Some y -> jo_env x = jo_env y) ->
  is_of e (set_js_observers (<[o := x]> (js_observers j)) j) u.
Proof.
  intros (y & Hy & Ey) Hx. unfold is_of. cbn. destruct (decide (u = o)) as [-> |Hne]; [|by rewrite lookup_insert_ne; eauto].
  exists x. rewrite lookup_insert_eq. split; [done|]. by rewrite (Hx y Hy).
Qed.

(** The lists of the environment with an object change. *)
Lemma way_put env j0 obj it : leads (fun j => (forall o, o ∈ listed_by it -> is_of env j o) /\ on_way env j0 j) (put_env obj env it)
  (fun _ => on_way env j0).
Proof.
  unfold put_env. eapply leads_bind with (Q := fun p j => js_sendables j !! obj = Some p /\ (forall o, o ∈ listed_by it -> is_of env j o) /\ on_way env j0 j).
  { intros j p j' [Hit Hj] E. pose proof (way_the_sendable env j0 obj j p j' Hj E) as [Hp Hj']. split; [done|]. split; [|done].
    unfold the_sendable in E. rewrite so_bind_st in E. cbn [get fst snd] in E. destruct (js_sendables j !! obj); [by injection E as <- <-|done]. }
  intros p. apply leads_st. intros j (Hp & Hit & Hj). unfold modify. cbn [fst snd]. apply (on_way_step env j0 j); [done| |].
  - split; try done; try by left. intros obj' p' e it' Hne Hp' Hi'. cbn. destruct (decide (obj' = obj)) as [-> |Hno].
    + exists (mkSendable (sp_instance p) (<[env := it]> (sp_observers p))). rewrite lookup_insert_eq. split; [done|]. cbn.
      rewrite lookup_insert_ne by done. congruence.
    + exists p'. by rewrite lookup_insert_ne.
  - destruct Hj as [_ [Hs Hf Hx]]. split; [|done|].
    2: { intros obj' Ho. cbn in *. rewrite lookup_insert_ne; [by apply Hx|]. intros <-. by rewrite Hx in Hp. }
    intros obj' p' e it' o. cbn. destruct (decide (obj' = obj)) as [-> |Hno].
    + rewrite lookup_insert_eq. intros [= <-]. cbn. destruct (decide (e = env)) as [-> |Hne].
      * rewrite lookup_insert_eq. intros [= <-]. apply Hit.
      * rewrite lookup_insert_ne by done. intros Hi Ho. exact (Hs obj p e it' o Hp Hi Ho).
    + rewrite lookup_insert_ne by done. apply Hs.
Qed.

(** With observers that are known to be of the environment. *)
Definition way_with (env : positive) (j0 : Js) (l : list positive) (j : Js) : Prop := (forall o, o ∈ l -> is_of env j o) /\ on_way env j0 j.

Lemma way_frame {A} env j0 l (m : SO Js A) (Q : A -> Js -> Prop) : (forall j1, leads (way_with env j1 l) m (fun a j => Q a j /\ on_way env j1 j)) ->
  leads (way_with env j0 l) m (fun a j => Q a j /\ way_with env j0 l j).
Proof.
  intros Hm j a j' [Hl Hj] E. destruct (Hm j j a j' (conj Hl (conj (keeps_refl env j) (proj2 Hj))) E) as [Hq [Hk Hs]]. split; [done|]. split.
  - intros o Ho. apply Hk, Hl, Ho.
  - by apply (on_way_step env j0 j).
Qed.

Lemma way_forget {A} env j0 l (m : SO Js A) Q : leads (on_way env j0) m Q -> leads (way_with env j0 l) m Q.
Proof. intros Hm. eapply leads_weaken; [exact Hm|by intros ? [_ ?]|done]. Qed.

Lemma way_with_step {A} env j0 l (m : SO Js A) : (forall j1, leads (way_with env j1 l) m (fun _ => on_way env j1)) ->
  leads (way_with env j0 l) m (fun _ => way_with env j0 l).
Proof.
  intros Hm. eapply leads_weaken; [apply (way_frame env j0 l m (fun _ _ => True)); intros j1|done|by intros ? ? [_ ?]].
  eapply leads_weaken; [apply Hm|done|done].
Qed.

Lemma way_with_helper {A} env j0 l (m : SO Helper A) : leads (way_with env j0 l) (js_on_helper m) (fun _ => way_with env j0 l).
Proof. apply way_with_step. intros j1. apply way_forget, way_helper. Qed.

Lemma way_with_drop env j0 l d : leads (way_with env j0 l) (js_drop d) (fun _ => way_with env j0 l).
Proof. apply way_with_step. intros j1. apply way_forget, way_drop. Qed.

Lemma way_with_clear env j0 l o : o ∈ l -> leads (way_with env j0 l) (run_st (ClearCallback o)) (fun _ => way_with env j0 l).
Proof.
  intros Ho. apply way_with_step. intros j1. eapply leads_weaken; [apply (way_clear env j1 o)| |done].
  intros s [Hl Hs]. split; [by apply Hl|done].
Qed.

Lemma way_with_sendable env j0 l obj :
  leads (way_with env j0 l) (the_sendable obj) (fun p j => js_sendables j !! obj = Some p /\ way_with env j0 l j).
Proof. apply (way_frame env j0 l). intros j1. apply way_forget, way_the_sendable. Qed.

Lemma way_with_get {A} env j0 l (k : Js -> SO Js A) Q : (forall j, leads (way_with env j0 l) (k j) Q) -> leads (way_with env j0 l) (j ← run_st get; k j) Q.
Proof. intros Hk j a j' Hj E. rewrite so_bind_st in E. exact (Hk j j a j' Hj E). Qed.

Lemma listed_by_snoc mode it o : forall u, u ∈ listed_by (set_so_list mode (so_list mode it ++ [o]) it) -> u ∈ listed_by it ++ [o].
Proof. unfold listed_by. destruct mode; cbn [so_list set_so_list so_local so_multi so_data]; set_solver. Qed.

Lemma way_subscribe env j0 obj it f mode keys :
  leads (way_with env j0 (listed_by it)) (JSObservers_Subscribe obj env it f mode keys) (fun _ => on_way env j0).
Proof.
  unfold JSObservers_Subscribe. apply way_with_get. intros j. destruct (existsb _ _); [apply leads_ret; by intros ? [_ ?]|].
  apply leads_bind with (Q := fun o => way_with env j0 (listed_by it ++ [o])).
  { eapply leads_weaken; [apply (way_frame env j0 (listed_by it) _ (fun o j => is_of env j o)); intros j1; apply way_forget, way_make|done|].
    intros o s [Ho [Hl Hs]]. split; [|done]. intros u [Hu|Hu%list_elem_of_singleton]%elem_of_app; [by apply Hl|by subst u]. }
  intros o. eapply leads_bind; [apply way_with_sendable|]. intros p.
  apply leads_weaken with (P := way_with env j0 (listed_by it ++ [o])) (Q := fun _ => on_way env j0); [|by intros ? [_ ?]|done].
  destruct (sp_instance p) as [instance|].
  - eapply leads_bind; [apply way_with_helper|]. intros errCode. destruct (negb (errCode =? E_OK)).
    + eapply leads_bind; [apply way_forget, way_drop|]. intros ?. by apply leads_ret.
    + eapply leads_bind with (Q := fun _ => on_way env j0); [|intros ?; by apply leads_ret].
      eapply leads_weaken; [apply (way_put env j0)| |done]. intros s [Hl Hs]. split; [|done]. intros u Hu%listed_by_snoc. by apply Hl.
  - eapply leads_bind; [apply way_forget, way_drop|]. intros ?. by apply leads_ret.
Qed.

(** The loop gives back observers that it was given. *)
Lemma way_loop env j0 r f mode keys l : forall more, leads (way_with env j0 (l ++ more)) (unsubscribe_loop r f mode keys l)
  (fun a j => (forall o, o ∈ a.1 -> o ∈ l) /\ way_with env j0 (l ++ more) j).
Proof.
  induction l as [|o l IH]; intros more; cbn [unsubscribe_loop].
  { apply leads_ret. intros s Hs. by split. }
  assert (Hrest : forall e0 : option Z -> option Z, leads (way_with env j0 (o :: l ++ more))
    ('(kept, e) ← unsubscribe_loop r f mode keys l; mret (o :: kept, e0 e)) (fun a j => (forall u, u ∈ a.1 -> u ∈ o :: l) /\ way_with env j0 (o :: l ++ more) j)).
  { intros e0. eapply leads_bind with (Q := fun a j => (forall u, u ∈ a.1 -> u ∈ l) /\ way_with env j0 (o :: l ++ more) j).
    - eapply leads_weaken; [apply (IH (more ++ [o]))| |].
      + intros s [Hl Hs]. split; [|done]. intros u Hu. apply Hl. set_solver.
      + intros a s [Ha [Hl Hs]]. split; [done|]. split; [|done]. intros u Hu. apply Hl. set_solver.
    - intros [kept e]. apply leads_ret. intros s [Ha Hs]. split; [|done]. cbn in *. set_solver. }
  apply way_with_get. intros j. destruct (match f with None => true | Some f => has_callback j f o end); [|exact (Hrest (fun e => e))].
  eapply leads_bind; [apply way_with_helper|]. intros status. destruct (status =? E_OK); [|exact (Hrest (fun e => Some (default status e)))].
  eapply leads_bind; [apply (way_with_clear env j0 _ o); left|]. intros ?. eapply leads_bind; [apply way_with_drop|]. intros ?.
  eapply leads_weaken; [apply (IH (more ++ [o]))| |].
  - intros s [Hl Hs]. split; [|done]. intros u Hu. apply Hl. set_solver.
  - intros x s [Ha [Hl Hs]]. split; [intros u Hu; right; by apply Ha|]. split; [|done]. intros u Hu. apply Hl. set_solver.
Qed.

Lemma so_list_listed mode it o : o ∈ so_list mode it -> o ∈ listed_by it.
Proof. unfold listed_by. destruct mode; cbn; set_solver. Qed.

Lemma listed_by_set mode l it o : o ∈ listed_by (set_so_list mode l it) -> o ∈ l \/ o ∈ listed_by it.
Proof. unfold listed_by. destruct mode; cbn; set_solver. Qed.

Lemma way_unsubscribe env j0 obj it f mode keys :
  leads (way_with env j0 (listed_by it)) (JSObservers_Unsubscribe obj env it f mode keys) (fun _ => on_way env j0).
Proof.
  unfold JSObservers_Unsubscribe. eapply leads_bind; [apply way_with_sendable|]. intros p.
  apply leads_weaken with (P := way_with env j0 (so_list mode it ++ listed_by it)) (Q := fun _ => on_way env j0); [| |done].
  - destruct (sp_instance p) as [instance|]; [|apply leads_ret; by intros ? [_ ?]].
    eapply leads_bind; [apply way_loop|]. intros [l e]. eapply leads_bind with (Q := fun _ => on_way env j0); [|intros ?; by apply leads_ret].
    eapply leads_weaken; [apply (way_put env j0)| |done]. intros s [Hl [Ha Hs]]. split; [|done]. cbn in Hl.
    intros o [Ho|Ho]%listed_by_set; apply Ha; set_solver.
  - intros s [_ [Ha Hs]]. split; [|done]. intros o [Ho%so_list_listed|Ho]%elem_of_app; by apply Ha.
Qed.

Lemma way_env_observers env j0 obj : leads (on_way env j0) (env_observers obj env) (fun it => way_with env j0 (listed_by it)).
Proof.
  unfold env_observers. eapply leads_bind; [apply way_the_sendable|]. intros p. apply leads_ret. intros s [Hp Hs]. split; [|done].
  destruct (sp_observers p !! env) as [it|] eqn:E; cbn [default]; [|intros o Ho; by apply not_elem_of_nil in Ho].
  intros o Ho. by eapply (es_env _ (proj2 Hs)).
Qed.

Lemma way_unsubscribe_all env j0 obj mode : leads (on_way env j0) (it ← env_observers obj env; JSObservers_Unsubscribe obj env it None mode []) (fun _ => on_way env j0).
Proof. eapply leads_bind; [apply way_env_observers|]. intros it. apply way_unsubscribe. Qed.

Lemma way_lose_queue env j0 l : leads (way_with env j0 l) (run_st (lose_queue l)) (fun _ => way_with env j0 l).
Proof.
  apply way_with_step. intros j1. apply leads_st. intros j [Hl Hj]. unfold lose_queue, modify. cbn [fst snd].
  assert (Hw : on_way env j (set_js_observers (foldr (fun o m => match m !! o with
    | Some x => <[o := mkJsObserver (jo_callback x) (jo_sendable x) (jo_env x) false]> m | None => m end) (js_observers j) l) j)).
  { induction l as [|o l IH]; cbn [foldr].
    { assert (set_js_observers (js_observers j) j = j) as -> by (by destruct j). split; [apply keeps_refl|apply Hj]. }
    specialize (IH (fun u Hu => Hl u (list_elem_of_further u o l Hu))). set (m := foldr _ (js_observers j) l) in *.
    destruct (m !! o) as [x|] eqn:Ex; [|exact IH]. pose proof (kp_env _ _ _ (proj1 IH) o env (Hl o (list_elem_of_here o l))) as Ho.
    apply (way_change env j (set_js_observers m j) o); [done|done|]. destruct Ho as (y & Hy & Ey). cbn in Hy. by replace x with y by congruence. }
  destruct Hw as [Hk Hs]. by apply (on_way_step env j1 j).
Qed.

(** The lists of the environment with an object go. *)
Lemma way_delete env j0 l obj p : leads (fun j => js_sendables j !! obj = Some p /\ way_with env j0 l j)
  (run_st (modify (fun j => set_sendables (<[obj := mkSendable (sp_instance p) (delete env (sp_observers p))]> (js_sendables j)) j)))
  (fun _ => on_way env j0).
Proof.
  apply leads_st. intros j (Hp & _ & Hj). unfold modify. cbn [fst snd]. apply (on_way_step env j0 j); [done| |].
  - split; try done; try by left. intros obj' p' e it Hne Hp' Hi. cbn. destruct (decide (obj' = obj)) as [-> |Hno].
    + eexists. rewrite lookup_insert_eq. split; [done|]. cbn. rewrite lookup_delete_ne by done. congruence.
    + exists p'. by rewrite lookup_insert_ne.
  - destruct Hj as [_ [Hs Hf Hx]]. split; [|done|].
    2: { intros obj' Ho. cbn in *. rewrite lookup_insert_ne; [by apply Hx|]. intros <-. by rewrite Hx in Hp. }
    intros obj' p' e it o. cbn. destruct (decide (obj' = obj)) as [-> |Hno].
    + rewrite lookup_insert_eq. intros [= <-]. cbn. intros [_ Hi]%lookup_delete_Some Ho. exact (Hs obj p e it o Hp Hi Ho).
    + rewrite lookup_insert_ne by done. apply Hs.
Qed.

Lemma way_destructor env j0 obj : leads (on_way env j0) (JSObservers_Destructor obj env) (fun _ => on_way env j0).
Proof.
  assert (Hbind : forall mode (k : SO Js unit), leads (on_way env j0) k (fun _ => on_way env j0) ->
    leads (on_way env j0) (it ← env_observers obj env; _ ← JSObservers_Unsubscribe obj env it None mode []; k) (fun _ => on_way env j0)).
  { intros mode k Hk. eapply leads_bind; [apply way_env_observers|]. intros it. eapply leads_bind; [apply way_unsubscribe|]. intros ?. exact Hk. }
  unfold JSObservers_Destructor. do 3 apply Hbind. eapply leads_bind; [apply way_the_sendable|]. intros p.
  set (it := default no_observers (sp_observers p !! env)).
  eapply leads_bind with (Q := fun _ j => js_sendables j !! obj = Some p /\ way_with env j0 (listed_by it) j).
  - intros j u j' [Hp Hj] E. split; [injection E as <- <-; done|]. eapply (way_lose_queue env j0); [|exact E]. split; [|done].
    unfold it. destruct (sp_observers p !! env) as [it'|] eqn:Ei; cbn [default]; [|intros o Ho; by apply not_elem_of_nil in Ho].
    intros o Ho. by eapply (es_env _ (proj2 Hj)).
  - intros ?. eapply leads_bind; [apply way_delete|]. intros ?. apply way_drop.
Qed.

Lemma way_throw env j0 e : leads (on_way env j0) (throw e) (fun _ => on_way env j0).
Proof.
  unfold throw. eapply leads_bind with (Q := fun _ => on_way env j0); [|intros ?; by apply leads_ret]. apply leads_st. intros j Hj.
  destruct (same_lists env j (emit (Threw e) j).2 eq_refl eq_refl eq_refl (Pos.le_refl _)) as [Hk Hs]; [|apply Hj|by apply (on_way_step env j0 j)].
  intros f args [Hin|Hin%list_elem_of_singleton]%elem_of_app; [by left|discriminate Hin].
Qed.

Lemma way_returning env j0 m : leads (on_way env j0) m (fun _ => on_way env j0) -> leads (on_way env j0) (returning m) (fun _ => on_way env j0).
Proof.
  intros Hm. unfold returning. eapply leads_bind; [exact Hm|]. intros code. destruct (code =? JS_OK); [by apply leads_ret|apply way_throw].
Qed.

Lemma way_registered env j0 obj f mode keys : leads (on_way env j0) (Sendable_RegisteredObserver obj env f mode keys) (fun _ => on_way env j0).
Proof.
  unfold Sendable_RegisteredObserver. eapply leads_bind; [apply way_the_sendable|]. intros p.
  apply leads_bind with (Q := fun it => way_with env j0 (listed_by it)); [|intros it; apply way_subscribe].
  destruct (sp_observers p !! env) as [it|] eqn:E.
  - apply leads_ret. intros s [Hp Hs]. split; [|done]. intros o Ho. by eapply (es_env _ (proj2 Hs)).
  - eapply leads_bind with (Q := fun _ => on_way env j0).
    + eapply leads_weaken; [apply (way_put env j0)| |done]. intros s [_ Hs]. split; [|done]. intros o Ho. by apply not_elem_of_nil in Ho.
    + intros ?. apply leads_ret. intros s Hs. split; [|done]. intros o Ho. by apply not_elem_of_nil in Ho.
Qed.

Lemma way_unregistered env j0 obj f mode keys : leads (on_way env j0) (Sendable_UnregisteredObserver obj env f mode keys) (fun _ => on_way env j0).
Proof.
  unfold Sendable_UnregisteredObserver. eapply leads_bind; [apply way_the_sendable|]. intros p.
  destruct (sp_observers p !! env) as [it|] eqn:E; [|apply leads_ret; by intros ? [_ ?]].
  eapply leads_weaken; [apply (way_unsubscribe env j0)| |done]. intros s [Hp Hs]. split; [|done]. intros o Ho. by eapply (es_env _ (proj2 Hs)).
Qed.

Lemma way_on env j0 argv self : leads (on_way env j0) (Sendable_RegisterObserver_js env argv self) (fun _ => on_way env j0).
Proof.
  unfold Sendable_RegisterObserver_js. destruct argv as [|m [|f rest]]; [apply way_throw..|].
  repeat (destruct (_ : bool); [apply way_throw|]). destruct (mode_args _ _) as [e|[keys [|g [|? ?]]]]; [apply way_throw..| |apply way_throw].
  destruct (negb _); [apply way_throw|]. apply way_get. intros j. apply leads_weaken with (P := on_way env j0) (Q := fun _ => on_way env j0); [|by intros ? [-> ?]|done].
  destruct (Sendable_GetSelfInstance self j) as [[obj|] [r|]]; try apply way_throw. apply way_returning, way_registered.
Qed.

Lemma way_off env j0 argv self : leads (on_way env j0) (Sendable_UnregisterObserver_js env argv self) (fun _ => on_way env j0).
Proof.
  unfold Sendable_UnregisterObserver_js. destruct argv as [|m args]; [apply way_throw|].
  repeat (destruct (negb _); [apply way_throw|]). destruct (mode_args _ _) as [e|[keys rest]]; [apply way_throw|].
  destruct (1 <? length rest)%nat; [apply way_throw|]. destruct (match head rest with Some _ => _ | None => _ end); [apply way_throw|].
  apply way_get. intros j. apply leads_weaken with (P := on_way env j0) (Q := fun _ => on_way env j0); [|by intros ? [-> ?]|done].
  destruct (Sendable_GetSelfInstance self j) as [[obj|] r]; [|apply way_throw]. apply way_returning, way_unregistered.
Qed.

Lemma way_clean env j0 obj : leads (on_way env j0) (CleanEnv obj env) (fun _ => on_way env j0).
Proof.
  unfold CleanEnv. apply way_get. intros j. apply leads_weaken with (P := on_way env j0) (Q := fun _ => on_way env j0); [|by intros ? [-> ?]|done].
  destruct (js_sendables j !! obj) as [p|]; [|by apply leads_ret]. destruct (sp_observers p !! env); [apply way_destructor|by apply leads_ret].
Qed.

(** A change that no list, observer or notification is part of. *)
Lemma way_modify env j0 j j' : on_way env j0 j -> js_sendables j' = js_sendables j -> js_observers j' = js_observers j -> js_next j' = js_next j ->
  (js_next_proxy j <= js_next_proxy j')%positive -> (forall f args, Notified f args ∈ js_events j' -> Notified f args ∈ js_events j \/ allowed f) -> on_way env j0 j'.
Proof. intros Hj Es Eo En Ex Ee. destruct (same_lists env j j' Es Eo En Ex Ee (proj2 Hj)) as [Hk Hs]. by apply (on_way_step env j0 j). Qed.

(** The check of arguments at most learns what kind of application it is in. *)
Definition looks_only (input : napi_value -> list napi_value -> ST Js (sum JSError (option positive * Request))) : Prop :=
  forall self argv j, (input self argv j).2 = j \/ exists c, (input self argv j).2 = set_context c j.

Lemma way_looks env j0 input self argv : looks_only input -> leads (on_way env j0) (run_st (input self argv)) (fun _ => on_way env j0).
Proof. intros Hi. apply leads_st. intros j Hj. destruct (Hi self argv j) as [-> |[c ->]]; [done|apply (way_modify env j0 j); try done; by left]. Qed.

Lemma way_with_instance env j0 inst k : (forall r, leads (on_way env j0) (k r) (fun _ => on_way env j0)) ->
  leads (on_way env j0) (with_instance_of inst k) (fun _ => on_way env j0).
Proof.
  intros Hk. unfold with_instance_of. apply way_get. intros j.
  apply leads_weaken with (P := on_way env j0) (Q := fun _ => on_way env j0); [|by intros ? [-> ?]|done].
  destruct inst as [r|]; [|by apply leads_ret]. destruct (objects _ !! r); [apply Hk|by apply leads_ret].
Qed.

Lemma way_execute env j0 inst req : leads (on_way env j0) (OnExecute RSIZE_MAX gskvEnabled inst req) (fun _ => on_way env j0).
Proof.
  assert (Hx : forall A B (m : SO Helper A) (g : A -> B), leads (on_way env j0) (x ← js_on_helper m; mret (g x)) (fun _ => on_way env j0)).
  { intros A B m g. eapply leads_bind; [apply way_helper|]. intros x. by apply leads_ret. }
  induction req; cbn [OnExecute]; try (apply way_with_instance; intros r); try apply Hx; try (by apply leads_ret).
  - unfold exec_GetPreferences. eapply leads_bind; [apply way_helper|]. intros [proxy errCode]. by apply leads_ret.
  - eapply leads_bind; [exact IHreq|]. intros [code answer]. by apply leads_ret.
Qed.

(** New objects have no observers. *)
Lemma way_completed env j0 code a j : on_way env j0 j -> on_way env j0 (OnComplete code a j).2.
Proof.
  assert (Hplain : forall a j, on_way env j0 j -> on_way env j0 (output_plain a j).2).
  { intros b s Hj. destruct b as [m|v i|b|[r|]| |b]; try done; cbn; unfold NewInstance, mbind, st_bind.
    destruct (napi_new_instance _) as [v|]; [|done]. apply (way_modify env j0 s); cbn; [done..|lia|by left]. }
  intros Hj. unfold OnComplete. destruct (negb (code =? E_OK)); [done|].
  destruct a as [m|v i|b|p| |[m|v i|b|[r|]| |b]]; try (by apply Hplain); try done.
  - cbn. unfold Sendable_NewInstance, mbind, st_bind. destruct (napi_new_sendable_instance _) as [v|]; [|done]. cbn [fst snd].
    set (obj := js_next_proxy j). destruct Hj as [Hk [Hs Hf Hx]]. assert (Hnone : js_sendables j !! obj = None) by (apply Hx; lia).
    apply (on_way_step env j0 j); [by split| |].
    + split; try done; try by left. intros obj' p e it _ Hp Hi. exists p. cbn. rewrite lookup_insert_ne; [done|]. intros <-. by rewrite Hnone in Hp.
    + split; cbn; [|done|].
      * intros obj' p e it o. destruct (decide (obj' = obj)) as [-> |Hne].
        -- rewrite lookup_insert_eq. intros [= <-]. cbn. by rewrite lookup_empty.
        -- rewrite lookup_insert_ne by done. apply Hs.
      * intros obj' Hobj. rewrite lookup_insert_ne by lia. apply Hx. lia.
Qed.

Lemma way_completion env j0 code a : leads (on_way env j0) (run_st (OnComplete code a)) (fun _ => on_way env j0).
Proof. apply leads_st. intros j. apply way_completed. Qed.

Lemma way_call env j0 isAsync input self argv : looks_only input ->
  leads (on_way env j0) (call_method RSIZE_MAX gskvEnabled isAsync input self argv) (fun _ => on_way env j0).
Proof.
  intros Hi. unfold call_method. destruct (MAX_INPUT_COUNT <? length argv)%nat; [by intros j a j' _|].
  destruct (split_callback _ argv) as [argv' callback]. eapply leads_bind; [by apply way_looks|]. intros [e|[inst req]].
  - eapply leads_bind with (Q := fun _ => on_way env j0); [|intros ?; by apply leads_ret]. apply leads_st. intros j Hj.
    apply (way_modify env j0 j); try done. intros f args [Hin|Hin%list_elem_of_singleton]%elem_of_app; [by left|discriminate Hin].
  - destruct isAsync.
    + eapply leads_bind with (Q := fun _ => on_way env j0); [|intros ?; by apply leads_ret]. apply leads_st. intros j Hj. apply (way_modify env j0 j); try done; by left.
    + eapply leads_bind with (Q := fun _ => on_way env j0); [|intros ?; by apply leads_ret]. unfold Sync.
      eapply leads_bind; [apply way_execute|]. intros [code a]. eapply leads_bind; [apply way_completion|]. intros ?. by apply leads_ret.
Qed.

Lemma way_work env j0 id : leads (on_way env j0) (run_work RSIZE_MAX gskvEnabled id) (fun _ => on_way env j0).
Proof.
  unfold run_work. apply way_get. intros j. apply leads_weaken with (P := on_way env j0) (Q := fun _ => on_way env j0); [|by intros ? [-> ?]|done].
  destruct (js_works j !! id) as [[inst req cb sd [a|]]|]; try by apply leads_ret.
  eapply leads_bind; [apply way_execute|]. intros a. apply leads_st. intros s Hs. apply (way_modify env j0 s); try done. by left.
Qed.

Lemma way_complete env j0 id j : on_way env j0 j -> on_way env j0 (complete_work id j).2.
Proof.
  intros Hj. unfold complete_work, mbind, st_bind, get. destruct (js_works j !! id) as [[inst req cb sd [[code a]|]]|]; cbn [w_done]; try done.
  pose proof (way_completed env j0 code a j Hj) as Hc. destruct (OnComplete code a j) as [res j1]. cbn [snd] in Hc.
  unfold modify, OnReturn. cbn [w_callback w_sendable].
  assert (Hone : forall e s, on_way env j0 s -> (forall f args, e <> Notified f args) -> on_way env j0 (emit e s).2).
  { intros e s Hs He. apply (way_modify env j0 s); try done. intros f args [Hin|Hin%list_elem_of_singleton]%elem_of_app; [by left|by destruct (He f args)]. }
  assert (Hd : on_way env j0 (set_works (delete id (js_works j1)) j1)) by (apply (way_modify env j0 j1); try done; by left).
  destruct cb as [cb|]; [destruct sd; [done|]|]; destruct res; by apply Hone.
Qed.

Lemma way_posted env j0 j v : on_way env j0 j -> on_way env j0 (set_posted v j).
Proof. intros Hj. apply (way_modify env j0 j); try done. by left. Qed.

Lemma way_notified env j0 o args j : on_way env j0 j -> on_way env j0 (JSObserver_AsyncCall o args j).2.
Proof. intros Hj. unfold JSObserver_AsyncCall, modify. cbn [snd]. destruct (js_observers j !! o) as [[[f|] ? ? []]|]; try done. by apply way_posted. Qed.

(** The observer of the event is one of the environment. *)
Lemma next_posted_env j env l o args rest : next_posted j env l = Some ((o, args), rest) -> is_of env j o.
Proof.
  revert rest. induction l as [|e l IH]; intros rest E; [done|]. cbn [next_posted] in E. destruct (js_observers j !! e.1) as [x|] eqn:Ex.
  - case_bool_decide as Hx.
    + injection E as -> <-. exists x. by split.
    + destruct (next_posted j env l) as [[e' r']|]; [|done]. injection E as -> <-. by eapply IH.
  - destruct (next_posted j env l) as [[e' r']|]; [|done]. injection E as -> <-. by eapply IH.
Qed.

Lemma way_deliver env j0 j j' : on_way env j0 j -> (forall o x f, js_observers j !! o = Some x -> jo_env x = env -> jo_callback x = Some f -> allowed f) ->
  run_posted env j = Done (tt, j') -> on_way env j0 j'.
Proof.
  intros Hj Hall E. unfold run_posted, run_posted_keeping in E. rewrite so_bind_st in E. cbn [get fst snd] in E.
  destruct (next_posted j env (js_posted j)) as [[[o args] rest]|] eqn:En; [|by injection E as <-].
  rewrite so_bind_st in E. cbn [modify fst snd] in E.
  refine ((_ : leads (on_way env j0) _ (fun _ => on_way env j0)) _ _ _ (way_posted env j0 j rest Hj) E).
  eapply leads_bind with (Q := fun _ => on_way env j0); [|intros ?; destruct (listed j o || false); [by apply leads_ret|apply way_drop]].
  destruct (next_posted_env _ _ _ _ _ _ En) as (x & Ex & Hx). rewrite Ex. destruct x as [[f|] sd e q]; [|by apply leads_ret].
  apply leads_st. intros s Hs. apply (way_modify env j0 s); try done.
  intros g as' [Hin|Hin%list_elem_of_singleton]%elem_of_app; [by left|]. injection Hin as -> _. right. by eapply Hall.
Qed.
End js_shared.

Section environments.
Context `{XmlStore} `{SafeBlockQueue} `{KvDb} `{Iteration} `{NapiLaws} `{!AbilityRuntime}.
Context (RSIZE_MAX : Z) (gskvEnabled : bool).

(** What happens in an environment: calls, on its thread or as work on
    another, registrations, its end, notifications by the store and their
    delivery. *)
Inductive env_step (env : positive) (j : Js) : Js -> Prop :=
  | EnvCall isAsync input self argv res j' : looks_only input ->
      call_method RSIZE_MAX gskvEnabled isAsync input self argv j = Done (res, j') -> env_step env j j'
  | EnvWork id j' : run_work RSIZE_MAX gskvEnabled id j = Done (tt, j') -> env_step env j j'
  | EnvCompletes id : env_step env j (complete_work id j).2
  | EnvOn argv self res j' : Sendable_RegisterObserver_js env argv self j = Done (res, j') -> env_step env j j'
  | EnvOff argv self res j' : Sendable_UnregisterObserver_js env argv self j = Done (res, j') -> env_step env j j'
  | EnvEnds obj j' : CleanEnv obj env j = Done (tt, j') -> env_step env j j'
  | EnvNotified o key : env_step env j (JS_OnChange o key j).2
  | EnvNotifiedRecords o records : env_step env j (JS_OnChange_records o records j).2
  | EnvDelivers j' : run_posted env j = Done (tt, j') -> env_step env j j'.

(** The checks of the calls. *)
Lemma sendable_inputs_look : Forall looks_only [reading sendable_input_GetAll; reading sendable_input_GetValue; reading sendable_input_SetValue;
  reading sendable_input_Delete; reading sendable_input_HasKey; reading sendable_input_Flush; reading sendable_input_Clear] /\
  forall k, looks_only (with_sendable_parameters k).
Proof.
  split; [repeat constructor; by left|]. intros k self argv j. unfold with_sendable_parameters.
  destruct argv as [|c [|a [|? ?]]]; try by left. unfold Sendable_ParseParameters, GetContextInfo, GetContextMode, mbind, st_bind.
  destruct (sendable_name a) as [e|[name group]]; [by left|]. destruct (gContextNode j); [|by left..].
  destruct (IsStageContext (Some c)) as [b|]; [right; by eexists|by left].
Qed.

Lemma env_step_way env j0 j j' (allowed : napi_value -> Prop) :
  (forall o x f, js_observers j !! o = Some x -> jo_env x = env -> jo_callback x = Some f -> allowed f) ->
  on_way allowed env j0 j -> env_step env j j' -> on_way allowed env j0 j'.
Proof.
  intros Hall Hj [isAsync input self argv res s Hi E|id s E|id|argv self res s E|argv self res s E|obj s E|o key|o records|s E].
  - exact (way_call RSIZE_MAX gskvEnabled allowed env j0 isAsync input self argv Hi j res s Hj E).
  - exact (way_work RSIZE_MAX gskvEnabled allowed env j0 id j tt s Hj E).
  - by apply way_complete.
  - exact (way_on allowed env j0 argv self j res s Hj E).
  - exact (way_off allowed env j0 argv self j res s Hj E).
  - exact (way_clean allowed env j0 obj j tt s Hj E).
  - by apply way_notified.
  - unfold JS_OnChange_records. destruct (js_observers j !! o); [by apply way_notified|done].
  - exact (way_deliver allowed env j0 j s Hj Hall E).
Qed.

(** *** The end of an object *)

Section confined.
Context (obj : positive) (L : list positive) (j0 : Js).

(** Only the observers [L], among which are those with the object, have been
    touched, and no other object. *)
Record confined (j : Js) : Prop := {
  cf_observers o : o ∉ L -> js_observers j !! o = js_observers j0 !! o;
  cf_objects obj' : obj' <> obj -> js_sendables j !! obj' = js_sendables j0 !! obj';
  cf_listed p e it o : js_sendables j !! obj = Some p -> sp_observers p !! e = Some it -> o ∈ listed_by it -> o ∈ L;
  cf_events : js_events j = js_events j0
}.

Definition within (it : JSObservers) : Prop := forall o, o ∈ listed_by it -> o ∈ L.

Lemma within_none : within no_observers.
Proof. intros o Ho. by apply not_elem_of_nil in Ho. Qed.

Lemma within_of j p env : confined j -> js_sendables j !! obj = Some p -> within (default no_observers (sp_observers p !! env)).
Proof. intros Hj Hp. destruct (sp_observers p !! env) as [it|] eqn:E; [intros o; by apply (cf_listed _ Hj p env)|apply within_none]. Qed.

Lemma conf_helper {A} (m : SO Helper A) : leads confined (js_on_helper m) (fun _ => confined).
Proof.
  intros j a j' [H1' H2' H3' H4'] E. unfold js_on_helper, mbind, outcome_bind in E. destruct (m (js_hlp j)) as [[x h]| | |]; try discriminate E.
  by injection E as <- <-.
Qed.

Lemma conf_get {A} (k : Js -> SO Js A) Q : (forall j, leads confined (k j) Q) -> leads confined (j ← run_st get; k j) Q.
Proof. intros Hk j a j' Hj E. rewrite so_bind_st in E. exact (Hk j j a j' Hj E). Qed.

Lemma conf_drop l : leads confined (js_drop l) (fun _ => confined).
Proof. apply conf_get. intros j. apply conf_helper. Qed.

Lemma conf_sendable : leads confined (the_sendable obj) (fun p j => js_sendables j !! obj = Some p /\ confined j).
Proof.
  intros j p j' Hj E. unfold the_sendable in E. rewrite so_bind_st in E. cbn [get fst snd] in E.
  destruct (js_sendables j !! obj) as [p0|] eqn:Ep; [by injection E as <- <-|done].
Qed.

(** The observers of the object become some of [L]. *)
Lemma conf_lists (f : gmap positive JSObservers -> gmap positive JSObservers) p :
  (forall j e it, confined j -> js_sendables j !! obj = Some p -> f (sp_observers p) !! e = Some it -> within it) ->
  leads (fun j => js_sendables j !! obj = Some p /\ confined j)
    (run_st (modify (fun j => set_sendables (<[obj := mkSendable (sp_instance p) (f (sp_observers p))]> (js_sendables j)) j))) (fun _ => confined).
Proof.
  intros Hf. apply leads_st. intros j [Hp Hj]. unfold modify. cbn [fst snd]. destruct Hj as [H1' H2' H3' H4'] eqn:Ej. split; [done| | |done].
  - intros obj' Hne. cbn. rewrite lookup_insert_ne by done. by apply H2'.
  - intros p' e it o. cbn. rewrite lookup_insert_eq. intros [= <-]. cbn. intros Hi. by eapply (Hf j).
Qed.

Lemma conf_put env it : within it -> leads confined (put_env obj env it) (fun _ => confined).
Proof.
  intros Hit. unfold put_env. eapply leads_bind; [apply conf_sendable|]. intros p. apply (conf_lists (<[env := it]>) p).
  intros j e it' Hj Hp [[<- <-]|[_ Hi]]%lookup_insert_Some; [done|]. intros o. by apply (cf_listed _ Hj p e).
Qed.

Lemma conf_clear o : o ∈ L -> leads confined (run_st (ClearCallback o)) (fun _ => confined).
Proof.
  intros Ho. apply leads_st. intros j Hj. unfold ClearCallback, modify. cbn [fst snd]. destruct (js_observers j !! o) as [x|]; [|done].
  destruct (jo_queue x); [|done]. destruct Hj as [H1' H2' H3' H4']. split; try done.
  intros u Hu. cbn. rewrite lookup_insert_ne by (by intros ->). by apply H1'.
Qed.

Lemma conf_lose l : (forall o, o ∈ l -> o ∈ L) -> leads confined (run_st (lose_queue l)) (fun _ => confined).
Proof.
  intros Hl. apply leads_st. intros j [H1' H2' H3' H4']. split; try done. intros u Hu. cbn. rewrite <- (H1' u Hu). clear H1' H2' H3' H4'.
  induction l as [|o l IH]; [done|]. cbn [foldr]. rewrite <- IH by (intros; apply Hl; by right).
  case_match; [|done]. rewrite lookup_insert_ne; [done|]. intros ->. by apply Hu, Hl; left.
Qed.

Lemma conf_loop r f mode keys l : (forall o, o ∈ l -> o ∈ L) ->
  leads confined (unsubscribe_loop r f mode keys l) (fun a j => (forall o, o ∈ a.1 -> o ∈ L) /\ confined j).
Proof.
  induction l as [|o l IH]; intros Hl; cbn [unsubscribe_loop]; [by apply leads_ret|].
  specialize (IH (fun u Hu => Hl u (list_elem_of_further u o l Hu))).
  assert (Hrest : forall e0 : option Z -> option Z, leads confined ('(kept, e) ← unsubscribe_loop r f mode keys l; mret (o :: kept, e0 e))
    (fun a j => (forall u, u ∈ a.1 -> u ∈ L) /\ confined j)).
  { intros e0. eapply leads_bind; [exact IH|]. intros [kept e]. apply leads_ret. intros j [Ha Hj]. split; [|done].
    intros u [->|Hu]%elem_of_cons; [apply Hl; left|by apply Ha]. }
  apply conf_get. intros j. destruct (match f with None => true | Some f => has_callback j f o end); [|exact (Hrest (fun e => e))].
  eapply leads_bind; [apply conf_helper|]. intros status. destruct (status =? E_OK); [|exact (Hrest (fun e => Some (default status e)))].
  eapply leads_bind; [apply conf_clear, Hl; left|]. intros ?. eapply leads_bind; [apply conf_drop|]. intros ?. exact IH.
Qed.

Lemma conf_unsubscribe env it mode : within it -> leads confined (JSObservers_Unsubscribe obj env it None mode []) (fun _ => confined).
Proof.
  intros Hit. unfold JSObservers_Unsubscribe. eapply leads_bind; [apply conf_sendable|]. intros p.
  apply leads_weaken with (P := confined) (Q := fun _ => confined); [|by intros ? [_ ?]|done].
  destruct (sp_instance p) as [instance|]; [|by apply leads_ret].
  eapply leads_bind; [apply conf_loop; intros o Ho; by apply Hit, (so_list_listed mode)|]. intros [l e].
  intros j z j' [Hl Hj] E. revert j z j' Hj E. change (leads confined (put_env obj env (set_so_list mode l it);; mret (default E_OK e)) (fun _ => confined)).
  eapply leads_bind; [apply conf_put|intros ?; by apply leads_ret]. intros o [Ho|Ho]%listed_by_set; [by apply Hl|by apply Hit].
Qed.

Lemma conf_destructor env : leads confined (JSObservers_Destructor obj env) (fun _ => confined).
Proof.
  assert (Hobs : leads confined (env_observers obj env) (fun it j => within it /\ confined j)).
  { unfold env_observers. eapply leads_bind; [apply conf_sendable|]. intros p. apply leads_ret. intros j [Hp Hj]. split; [by apply (within_of j)|done]. }
  assert (Hbind : forall mode (k : SO Js unit), leads confined k (fun _ => confined) ->
    leads confined (it ← env_observers obj env; _ ← JSObservers_Unsubscribe obj env it None mode []; k) (fun _ => confined)).
  { intros mode k Hk. eapply leads_bind; [exact Hobs|]. intros it j z j' [Hit Hj] E. revert j z j' Hj E.
    change (leads confined (_ ← JSObservers_Unsubscribe obj env it None mode []; k) (fun _ => confined)).
    eapply leads_bind; [by apply conf_unsubscribe|]. intros ?. exact Hk. }
  unfold JSObservers_Destructor. do 3 apply Hbind. eapply leads_bind; [apply conf_sendable|]. intros p.
  eapply leads_bind with (Q := fun _ j => js_sendables j !! obj = Some p /\ confined j).
  - intros j u j' [Hp Hj] E. pose proof (conf_lose _ (within_of j p env Hj Hp) j u j' Hj E) as Hj'. by injection E as <- <-.
  - intros ?. eapply leads_bind; [apply (conf_lists (delete env) p)|intros ?; apply conf_drop].
    intros j e it Hj Hp [_ Hi]%lookup_delete_Some o. by apply (cf_listed _ Hj p e).
Qed.

Lemma conf_each envs : leads confined (destroy_each obj envs) (fun _ => confined).
Proof. induction envs as [|env envs IH]; cbn [destroy_each]; [by apply leads_ret|]. eapply leads_bind; [apply conf_destructor|intros ?; exact IH]. Qed.
End confined.

(** The observers that are registered with an object. *)
Definition observers_of (j : Js) (obj : positive) : list positive :=
  match js_sendables j !! obj with Some p => '(_, it) ← map_to_list (sp_observers p); listed_by it | None => [] end.

Lemma destructor_confined obj j j' : Sendable_Destructor obj j = Done (tt, j') ->
  js_sendables j' !! obj = None /\ (forall obj', obj' <> obj -> js_sendables j' !! obj' = js_sendables j !! obj') /\
  (forall o, o ∉ observers_of j obj -> js_observers j' !! o = js_observers j !! o) /\ js_events j' = js_events j.
Proof.
  intros E. assert (Hj : confined obj (observers_of j obj) j j).
  { split; [done|done| |done]. intros p e it o Hp Hi Ho. unfold observers_of. rewrite Hp. apply list_elem_of_bind. exists (e, it). split; [done|by apply elem_of_map_to_list]. }
  revert E. unfold Sendable_Destructor, mbind at 1, so_bind at 1. destruct (the_sendable obj j) as [[p j1]| | |] eqn:E1; [|done..].
  pose proof (proj2 (conf_sendable obj _ j j p j1 Hj E1)) as Hj1. unfold mbind at 1, so_bind at 1.
  destruct (destroy_each _ _ j1) as [[u j2]| | |] eqn:E2; [|done..]. intros [= <-].
  pose proof (conf_each obj _ j _ j1 u j2 Hj1 E2) as [H1' H2' H3' H4']. split_and!; [apply lookup_delete_eq| |done|done].
  intros obj' Hne. cbn. rewrite lookup_delete_ne by done. by apply H2'.
Qed.

Lemma destructor_sound obj j j' : envs_sound j -> Sendable_Destructor obj j = Done (tt, j') -> envs_sound j'.
Proof.
  intros Hs. assert (Heach : forall envs s, envs_sound s -> forall s', destroy_each obj envs s = Done (tt, s') -> envs_sound s').
  { induction envs as [|env envs IH]; intros s Hs0 s'; cbn [destroy_each]; [by intros [= <-]|]. unfold mbind, so_bind.
    destruct (JSObservers_Destructor obj env s) as [[[] s1]| | |] eqn:E1; [|done..]. apply IH.
    exact (proj2 (way_destructor (fun _ => True) env s obj s tt s1 (conj (keeps_refl _ env s) Hs0) E1)). }
  unfold Sendable_Destructor, the_sendable, mbind at 1, so_bind at 1. rewrite so_bind_st. cbn [get fst snd].
  destruct (js_sendables j !! obj) as [p|]; [|done]. cbn [mret so_ret]. unfold mbind at 1, so_bind at 1.
  destruct (destroy_each obj _ j) as [[[] j2]| | |] eqn:E2; [|done..]. intros [= <-]. destruct (Heach _ _ Hs _ E2) as [H1' H2' H3'].
  split; [|done|].
  - intros obj' p' e it o. cbn. intros [_ Hp]%lookup_delete_Some. by apply (H1' obj').
  - intros obj' Ho. cbn. destruct (decide (obj' = obj)) as [->|Hne]; [apply lookup_delete_eq|]. rewrite lookup_delete_ne by done. by apply H3'.
Qed.

(** The states that are reached from one without observers. *)
Inductive env_reachable : Js -> Prop :=
  | env_start j : map_Forall (fun obj p => sp_observers p = ∅ /\ (obj < js_next_proxy j)%positive) (js_sendables j) -> js_observers j = ∅ -> env_reachable j
  | env_next env j j' : env_reachable j -> env_step env j j' -> env_reachable j'
  | env_finalized obj j j' : env_reachable j -> Sendable_Destructor obj j = Done (tt, j') -> env_reachable j'.

Lemma env_reachable_sound j : env_reachable j -> envs_sound j.
Proof.
  induction 1 as [j Es Eo|env j j' _ IH Hstep|obj j j' _ IH Hend].
  - split.
    + intros obj p env it o Hp Hi. destruct (Es obj p Hp) as [E _]. by rewrite E, lookup_empty in Hi.
    + intros o _. rewrite Eo. apply lookup_empty.
    + intros obj Hobj. destruct (js_sendables j !! obj) as [p|] eqn:Hp; [|done]. destruct (Es obj p Hp) as [_ Hlt]. lia.
  - exact (proj2 (env_step_way env j j j' (fun _ => True) (fun _ _ _ _ _ _ => I) (conj (keeps_refl _ env j) IH) Hstep)).
  - by apply (destructor_sound obj j).
Qed.

(** C24: The environments that share objects do not disturb each other: in
    every state that is reached, whatever happens in one of them (calls of
    methods, their work and its completion, [on] and [off] of shared objects, the
    end of the environment, notifications and their delivery) leaves the
    observers of the others, with each object, registered as they are and with
    their callbacks, and runs only callbacks that it registered itself.  When the
    last environment lets go of an object its finalizer gives up the observers
    that any environment has with this object, and touches neither other
    objects, nor observers that are not registered with this one, nor runs any
    callback.  ([on] and [off] of objects that are not shared are not among the
    steps.) *)
Theorem environments_apart (j : Js) (Hreach : env_reachable j) :
  (forall env j', env_step env j j' ->
     (forall obj p e it, e <> env -> js_sendables j !! obj = Some p -> sp_observers p !! e = Some it ->
        (exists p', js_sendables j' !! obj = Some p' /\ sp_observers p' !! e = Some it) /\
        (forall o, o ∈ listed_by it -> exists x, js_observers j !! o = Some x /\ jo_env x = e /\ js_observers j' !! o = Some x)) /\
     (forall f args, Notified f args ∈ js_events j' -> Notified f args ∈ js_events j \/
        exists o x, js_observers j !! o = Some x /\ jo_env x = env /\ jo_callback x = Some f)) /\
  (forall obj j', Sendable_Destructor obj j = Done (tt, j') ->
     js_sendables j' !! obj = None /\ (forall obj', obj' <> obj -> js_sendables j' !! obj' = js_sendables j !! obj') /\
     (forall o, o ∉ observers_of j obj -> js_observers j' !! o = js_observers j !! o) /\ js_events j' = js_events j).
Proof.
  pose proof (env_reachable_sound j Hreach) as Hs. split; [intros env j' Hstep|intros obj j'; apply destructor_confined].
  set (allowed f := exists o x, js_observers j !! o = Some x /\ jo_env x = env /\ jo_callback x = Some f).
  destruct (env_step_way env j j j' allowed) as [Hk _]; [by intros o x f Ho Hx Hf; exists o, x|by split; [apply keeps_refl|]|done|].
  split; [|apply Hk]. intros obj p e it Hne Hp Hi. split; [by eapply (kp_lists _ _ _ _ Hk)|].
  intros o Ho. pose proof (es_env _ Hs _ _ _ _ _ Hp Hi Ho) as Hof. pose proof (kp_others _ _ _ _ Hk o e Hne Hof) as Ho'.
  destruct Hof as (x & Ex & Hx). exists x. by rewrite Ho', Ex.
Qed.

(** ** Keys that are left *)

Lemma loop_skip r f mode keys j l tail kept e j' : (forall x, x ∈ l -> has_callback j f x = false) ->
  unsubscribe_loop r (Some f) mode keys tail j = Done ((kept, e), j') ->
  unsubscribe_loop r (Some f) mode keys (l ++ tail) j = Done ((l ++ kept, e), j').
Proof.
  intros Hl E. induction l as [|x l IH]; [done|]. cbn [app unsubscribe_loop]. rewrite so_bind_st. cbn [get fst snd].
  rewrite (Hl x ltac:(left)). rewrite (so_bind_Done _ _ _ _ _ (IH ltac:(intros; apply Hl; by right))). done.
Qed.

Lemma the_sendable_at j obj sp : js_sendables j !! obj = Some sp -> the_sendable obj j = Done (sp, j).
Proof. intros E. unfold the_sendable. rewrite so_bind_st. cbn [get fst snd]. by rewrite E. Qed.

(** [off('dataChange', keys, f)] of a sendable object on some of the keys
    that [f] was registered for does its work, the keys are taken from the
    registry and the others stay, and yet throws: the code that says that keys
    are left is taken for an error. *)
Theorem sendable_off_throws (env : positive) (self m ks f : napi_value) (j : Js) (obj r : positive) (sp : SendableProxy) (p : PreferencesImpl)
    (it : JSObservers) (l : list positive) (o : positive) (key : string) (keys : list string) (old : gset string)
    (Hs : sendable_linked j self obj r sp) (Hop : opened (js_hlp j) r p) (Hm : napi_typeof m = napi_string) (Hmode : Native_string m = inr "dataChange")
    (Hks : Native_vector Native_string ks = inr (key :: keys)) (Hf : napi_typeof f = napi_function)
    (Hit : sp_observers sp !! env = Some it) (Hl : so_data it = l ++ [o]) (Hnone : forall x, x ∈ l -> has_callback j f x = false)
    (Hhas : has_callback j f o = true) (Hold : dataObserversMap_ (base_ p) !! (Some o : ObsPtr) = Some old) (Hleft : old ∖ list_to_set (key :: keys) <> ∅) :
  exists j' p', Sendable_UnregisterObserver_js env [m; ks; f] self j = Done (Thrown, j') /\
    js_events j' = js_events j ++ [Threw (InnerCode E_OBSERVER_RESERVE)] /\
    sendable_linked j' self obj r sp /\ opened (js_hlp j') r p' /\
    dataObserversMap_ (base_ p') = <[(Some o : ObsPtr) := old ∖ list_to_set (key :: keys)]> (dataObserversMap_ (base_ p)).
Proof.
  destruct Hs as [Hu Hp Hi Hsd].
  destruct (opened_locked "UnRegisterDataObserver" (UnRegisterDataObserver_locked (Some o) (key :: keys))
    (run_st (e_on_base (UnRegisterDataObserver (Some o) (key :: keys)))) j r p E_OBSERVER_RESERVE
    (fun e' => set_dataObserversMap (<[(Some o : ObsPtr) := old ∖ list_to_set (key :: keys)]> (dataObserversMap_ (base_ p))) (set_env e' (base_ p))) Hop)
    as (e' & h & _ & E & _ & Hop').
  { intros e' _. unfold UnRegisterDataObserver_locked, mbind, st_bind, get, modify, mret, st_ret. cbn [dataObserversMap_ set_env]. rewrite Hold, erase_keys.
    by rewrite decide_False. }
  assert (Eloop : unsubscribe_loop r (Some f) DATA_CHANGE (key :: keys) (so_data it) j = Done ((so_data it, Some E_OBSERVER_RESERVE), set_hlp h j)).
  { rewrite Hl. apply loop_skip; [done|]. cbn [unsubscribe_loop]. rewrite so_bind_st. cbn [get fst snd]. rewrite Hhas.
    rewrite (so_bind_Done (js_on_helper (obj_unsubscribe r o DATA_CHANGE (key :: keys))) _ _ _ _ E). done. }
  eexists _, _. split.
  - unfold Sendable_UnregisterObserver_js. rewrite (bool_decide_true _ Hm). unfold text_of. rewrite Hmode.
    change (mode_name "dataChange") with true. change (js_register_mode "dataChange") with DATA_CHANGE. cbn [negb].
    unfold mode_args. cbn [head default keys_of]. unfold FromSendable_vector. change (id ks) with ks. rewrite Hks. cbn [tail length Nat.ltb Nat.leb head].
    rewrite (bool_decide_true _ Hf). cbn [orb negb]. rewrite so_bind_st. cbn [get fst snd]. unfold Sendable_GetSelfInstance. rewrite Hu.
    set (j1 := set_hlp h j). assert (Hp1 : js_sendables j1 !! obj = Some sp) by done.
    assert (Eoff : Sendable_UnregisteredObserver obj env (Some f) DATA_CHANGE (key :: keys) j = Done (E_OBSERVER_RESERVE,
      set_sendables (<[obj := mkSendable (sp_instance sp) (<[env := set_so_list DATA_CHANGE (so_data it) it]> (sp_observers sp))]> (js_sendables j1)) j1)).
    { unfold Sendable_UnregisteredObserver. rewrite (so_bind_Done _ _ _ _ _ (the_sendable_at j obj sp Hp)), Hit. unfold JSObservers_Unsubscribe.
      rewrite (so_bind_Done _ _ _ _ _ (the_sendable_at j obj sp Hp)), Hi. cbn [so_list]. rewrite (so_bind_Done _ _ _ _ _ Eloop). cbn [fst snd].
      assert (Eput : forall v, put_env obj env v j1 =
        Done (tt, set_sendables (<[obj := mkSendable (sp_instance sp) (<[env := v]> (sp_observers sp))]> (js_sendables j1)) j1)).
      { intros v. unfold put_env. by rewrite (so_bind_Done _ _ _ _ _ (the_sendable_at j1 obj sp Hp1)). }
      rewrite (so_bind_Done _ _ _ _ _ (Eput _)). by rewrite Hi. }
    unfold returning. rewrite (so_bind_Done _ _ _ _ _ Eoff). change (E_OBSERVER_RESERVE =? JS_OK) with false. reflexivity.
  - split; [done|]. assert (Hback : set_so_list DATA_CHANGE (so_data it) it = it) by (by destruct it).
    rewrite Hback, (insert_id (sp_observers sp) env it Hit). split; [|split; [exact Hop'|done]].
    split; [done| |done|done]. cbn. rewrite lookup_insert_eq. by destruct sp.
Qed.
End environments.

(** ** Concrete programs *)

(** The sendable object 1 over the object [p] of the store, without observers. *)
Definition w_shared (p : PreferencesImpl) : Js :=
  mkJs (h_set_objects {[2%positive := PXml p]} (w_helper "")) STAGE {[1%positive := mkProxy (Some 2%positive) [] [] []]} 2%positive ∅ 9%positive ∅ 1%positive [] []
    {[1%positive := mkSendable (Some 2%positive) ∅]}.

Lemma w_shared_plain p : settled p -> js_linked (w_shared p) (jv (JNative 1)) 1 2 (mkProxy (Some 2%positive) [] [] []) p.
Proof. intros Hp. split; [done..|]. by split. Qed.

Lemma w_shared_linked p : sendable_linked (w_shared p) (jv (JSendable 1)) 1 2 (mkSendable (Some 2%positive) ∅).
Proof. by split. Qed.

Example sendable_like_plain_witness : exists res res' j' m,
  js_call 100 false (jv (JNative 1)) (MGetAll, []) (w_shared (w_js_prefs {["k" := VInt 7]})) = Done (res, j') /\
  sendable_call 100 false (jv (JSendable 1)) (MGetAll, []) (w_shared (w_js_prefs {["k" := VInt 7]})) = Done (res', j') /\
  res = Value (GetAllExecute m) /\ res' = Value (Sendable_GetAllExecute m).
Proof.
  destruct (sendable_like_plain 100 false (jv (JNative 1)) (jv (JSendable 1)) (MGetAll, []) (w_shared (w_js_prefs {["k" := VInt 7]}))
    1 1 2 _ _ _ (w_shared_plain (w_js_prefs {["k" := VInt 7]}) ltac:(done)) (w_shared_linked _) ltac:(done) ltac:(cbn [snd]; few_args))
    as (res & res' & j' & p' & E & E' & _ & _ & rep & Hr & Hres & Hres').
  destruct rep as [| | | |m|]; try (exfalso; exact Hr). exists res, res', j', m. split; [exact E|]. split; [exact E'|]. split; [exact Hres|exact Hres'].
Defined.

(** The environment 5 has switched an observer on. *)
Definition w_on : outcome (CallResult * Js) :=
  Sendable_RegisterObserver_js 5 [jv (JStr "change"); jv (JFun 7)] (jv (JSendable 1)) (w_shared (w_js_prefs ∅)).

(** When the environment 6 ends it stays. *)
Example environments_apart_witness : exists res j j' p', w_on = Done (res, j) /\ CleanEnv 1 6 j = Done (tt, j') /\
  js_sendables j' !! 1%positive = Some p' /\ sp_observers p' !! 5%positive = Some (mkJSObservers [9%positive] [] []).
Proof.
  assert (Hl : match w_on with
    | Done (_, j) => match js_sendables j !! 1%positive with Some p => sp_observers p !! 5%positive | None => None end
    | _ => None
    end = Some (mkJSObservers [9%positive] [] [])) by vm_cast_no_check (@eq_refl (option JSObservers) (Some (mkJSObservers [9%positive] [] []))).
  assert (He : match w_on with Done (_, j) => match CleanEnv 1 6 j with Done (tt, _) => true | _ => false end | _ => false end = true)
    by vm_cast_no_check (@eq_refl bool true).
  destruct w_on as [[res j]| | |] eqn:Eon; [|discriminate He..]. destruct (js_sendables j !! 1%positive) as [p|] eqn:Ep; [|discriminate Hl].
  destruct (CleanEnv 1 6 j) as [[[] j']| | |] eqn:Ec; [|discriminate He..].
  assert (Hr : env_reachable 100 false j).
  { eapply env_next; [apply (env_start 100 false (w_shared (w_js_prefs ∅)))|exact (EnvOn 100 false 5 _ _ _ res j Eon)]; [|done].
    by apply map_Forall_singleton. }
  destruct (proj1 (environments_apart 100 false j Hr) 6%positive j' (EnvEnds 100 false 6 j 1 j' Ec)) as [Ha _].
  destruct (Ha 1%positive p 5%positive _ ltac:(done) Ep Hl) as [(p' & Hp' & Hi') _]. by exists res, j, j', p'.
Defined.

(** The callback 7 is registered for two keys. *)
Definition w_keys : PreferencesImpl :=
  upd_base (set_dataObserversMap {[(Some 9%positive : ObsPtr) := {["a"; "b"]}]} (base_ (w_js_prefs ∅))) (w_js_prefs ∅).

Definition w_registered : Js :=
  set_sendables {[1%positive := mkSendable (Some 2%positive) {[5%positive := mkJSObservers [] [] [9%positive]]}]}
    (set_js_observers {[9%positive := mkJsObserver (Some (jv (JFun 7))) false 5 true]} (w_shared w_keys)).

Example sendable_off_throws_witness : exists j',
  Sendable_UnregisterObserver_js 5 [jv (JStr "dataChange"); jv (JArr [JStr "a"]); jv (JFun 7)] (jv (JSendable 1)) w_registered = Done (Thrown, j').
Proof.
  destruct (sendable_off_throws 5 (jv (JSendable 1)) (jv (JStr "dataChange")) (jv (JArr [JStr "a"])) (jv (JFun 7)) w_registered 1 2
    (mkSendable (Some 2%positive) {[5%positive := mkJSObservers [] [] [9%positive]]}) w_keys (mkJSObservers [] [] [9%positive]) [] 9 "a" [] {["a"; "b"]})
    as (j' & p' & E & _); try done.
  - intros x Hx. by apply not_elem_of_nil in Hx.
  - by exists j'.
Defined.
