(* ===== verification/JsModules.v ===== *)
(** * What the JavaScript modules export

    The classes and modules that the native code registers with the engine:
    each is a table from names to functions and constants.  A program calls the
    definitions of [Js], [JsSendable], [JsStorage] and [JsSystem] through these
    names. *)

From S2P Require Import Prelude Errno Value Utils NumText ConcurrentMap Env FileLock Store DbAdapter Base Impl Enhance Helper.
From S2P Require Import Handle JsValue Js JsSendable JsStorage JsClient JsStorageClient JsSystem JsShared.

Section JsModules.
Context `{XmlStore} `{SafeBlockQueue} `{KvDb} `{Iteration} `{Napi} `{!AbilityRuntime} `{!WorkEngine}.
Context (RSIZE_MAX : Z) (gskvEnabled : bool).

(** ** Tables *)

(** A function of [this] and the arguments, a number, or an object of numbers. *)
Inductive Export (S : Type) :=
  | Function (f : napi_value -> list napi_value -> SO S CallResult)
  | Property (v : option napi_value)
  | Enumeration (members : list (string * option napi_value)).

Definition Table (S : Type) : Type := list (string * Export S).

(** What is behind a name: a later definition of a name replaces an earlier one. *)
Fixpoint member {S} (t : Table S) (name : string) : option (Export S) :=
  match t with
  | [] => None
  | (n, e) :: t' => match member t' name with Some e' => Some e' | None => if decide (n = name) then Some e else None end
  end.

(** A function with the data [ASYNC] or [SYNC], which are not changed after they
    are set.

    [napi_async_call.cpp:21-21] g_async *)
Definition g_async : bool := true.

(** [napi_async_call.cpp:22-22] g_sync *)
Definition g_sync : bool := negb g_async.

Abbreviation ASYNC := g_async.
Abbreviation SYNC := g_sync.

(** [napi/preferences/src/napi_preferences.cpp:74-100] Init *)
Definition PreferencesProxy_Init : Table Js :=
  [("put", Function _ (PreferencesProxy_SetValue RSIZE_MAX gskvEnabled ASYNC));
   ("putSync", Function _ (PreferencesProxy_SetValue RSIZE_MAX gskvEnabled SYNC));
   ("get", Function _ (PreferencesProxy_GetValue RSIZE_MAX gskvEnabled ASYNC));
   ("getSync", Function _ (PreferencesProxy_GetValue RSIZE_MAX gskvEnabled SYNC));
   ("getAll", Function _ (PreferencesProxy_GetAll RSIZE_MAX gskvEnabled ASYNC));
   ("getAllSync", Function _ (PreferencesProxy_GetAll RSIZE_MAX gskvEnabled SYNC));
   ("delete", Function _ (PreferencesProxy_Delete RSIZE_MAX gskvEnabled ASYNC));
   ("deleteSync", Function _ (PreferencesProxy_Delete RSIZE_MAX gskvEnabled SYNC));
   ("clear", Function _ (PreferencesProxy_Clear RSIZE_MAX gskvEnabled ASYNC));
   ("clearSync", Function _ (PreferencesProxy_Clear RSIZE_MAX gskvEnabled SYNC));
   ("has", Function _ (PreferencesProxy_HasKey RSIZE_MAX gskvEnabled ASYNC));
   ("hasSync", Function _ (PreferencesProxy_HasKey RSIZE_MAX gskvEnabled SYNC));
   ("flush", Function _ (PreferencesProxy_Flush RSIZE_MAX gskvEnabled ASYNC));
   ("flushSync", Function _ (PreferencesProxy_Flush RSIZE_MAX gskvEnabled SYNC));
   ("on", Function _ (fun self argv => RegisterObserver_js argv self));
   ("off", Function _ (fun self argv => UnRegisterObserver_js argv self))].

(** [napi/preferences/src/napi_preferences_helper.cpp:213-223] SetNamedProperty *)
Definition SetNamedProperty (name : string) (value : Z) : string * option napi_value := (name, napi_create_int32 value).

(** [napi/preferences/src/napi_preferences_helper.cpp:225-233] ExportStorageType *)
Definition ExportStorageType : list (string * option napi_value) := [SetNamedProperty "XML" 0; SetNamedProperty "GSKV" 1].

(** [napi/preferences/src/napi_preferences_helper.cpp:235-251] InitPreferencesHelper *)
Definition InitPreferencesHelper : Table Js :=
  [("getPreferences", Function _ (Js_GetPreferences RSIZE_MAX gskvEnabled ASYNC));
   ("getPreferencesSync", Function _ (Js_GetPreferences RSIZE_MAX gskvEnabled SYNC));
   ("deletePreferences", Function _ (Js_DeletePreferences RSIZE_MAX gskvEnabled ASYNC));
   ("deletePreferencesSync", Function _ (Js_DeletePreferences RSIZE_MAX gskvEnabled SYNC));
   ("removePreferencesFromCache", Function _ (Js_RemovePreferencesFromCache RSIZE_MAX gskvEnabled ASYNC));
   ("removePreferencesFromCacheSync", Function _ (Js_RemovePreferencesFromCache RSIZE_MAX gskvEnabled SYNC));
   ("MAX_KEY_LENGTH", Property _ (napi_create_uint32 MAX_KEY_LENGTH));
   ("MAX_VALUE_LENGTH", Property _ (napi_create_uint32 MAX_VALUE_LENGTH));
   ("StorageType", Enumeration _ ExportStorageType);
   ("isStorageTypeSupported", Function _ (Js_IsStorageTypeSupported RSIZE_MAX gskvEnabled))].

(** The class in one environment.

    [napi/sendable_preferences/src/napi_preferences.cpp:72-98] Init *)
Definition Sendable_Init (env : positive) : Table Js :=
  [("put", Function _ (Sendable_SetValue RSIZE_MAX gskvEnabled ASYNC));
   ("putSync", Function _ (Sendable_SetValue RSIZE_MAX gskvEnabled SYNC));
   ("get", Function _ (Sendable_GetValue RSIZE_MAX gskvEnabled ASYNC));
   ("getSync", Function _ (Sendable_GetValue RSIZE_MAX gskvEnabled SYNC));
   ("getAll", Function _ (Sendable_GetAll RSIZE_MAX gskvEnabled ASYNC));
   ("getAllSync", Function _ (Sendable_GetAll RSIZE_MAX gskvEnabled SYNC));
   ("delete", Function _ (Sendable_Delete RSIZE_MAX gskvEnabled ASYNC));
   ("deleteSync", Function _ (Sendable_Delete RSIZE_MAX gskvEnabled SYNC));
   ("clear", Function _ (Sendable_Clear RSIZE_MAX gskvEnabled ASYNC));
   ("clearSync", Function _ (Sendable_Clear RSIZE_MAX gskvEnabled SYNC));
   ("has", Function _ (Sendable_HasKey RSIZE_MAX gskvEnabled ASYNC));
   ("hasSync", Function _ (Sendable_HasKey RSIZE_MAX gskvEnabled SYNC));
   ("flush", Function _ (Sendable_Flush RSIZE_MAX gskvEnabled ASYNC));
   ("flushSync", Function _ (Sendable_Flush RSIZE_MAX gskvEnabled SYNC));
   ("on", Function _ (fun self argv => Sendable_RegisterObserver_js env argv self));
   ("off", Function _ (fun self argv => Sendable_UnregisterObserver_js env argv self))].

(** [napi/sendable_preferences/src/napi_preferences_helper.cpp:139-153] InitPreferencesHelper *)
Definition Sendable_InitPreferencesHelper : Table Js :=
  [("getPreferences", Function _ (Sendable_GetPreferences RSIZE_MAX gskvEnabled ASYNC));
   ("getPreferencesSync", Function _ (Sendable_GetPreferences RSIZE_MAX gskvEnabled SYNC));
   ("deletePreferences", Function _ (Sendable_DeletePreferences RSIZE_MAX gskvEnabled ASYNC));
   ("deletePreferencesSync", Function _ (Sendable_DeletePreferences RSIZE_MAX gskvEnabled SYNC));
   ("removePreferencesFromCache", Function _ (Sendable_RemovePreferencesFromCache RSIZE_MAX gskvEnabled ASYNC));
   ("removePreferencesFromCacheSync", Function _ (Sendable_RemovePreferencesFromCache RSIZE_MAX gskvEnabled SYNC));
   ("MAX_KEY_LENGTH", Property _ (napi_create_uint32 MAX_KEY_LENGTH));
   ("MAX_VALUE_LENGTH", Property _ (napi_create_uint32 MAX_VALUE_LENGTH))].

(** [napi_storage.cpp:73-96] Init *)
Definition StorageProxy_Init : Table St :=
  [("putSync", Function _ (Storage_SetValueSync RSIZE_MAX));
   ("put", Function _ Storage_SetValue);
   ("getSync", Function _ Storage_GetValueSync);
   ("get", Function _ Storage_GetValue);
   ("deleteSync", Function _ Storage_DeleteSync);
   ("delete", Function _ Storage_Delete);
   ("clearSync", Function _ (fun self _ => Storage_ClearSync self));
   ("clear", Function _ Storage_Clear);
   ("hasSync", Function _ Storage_HasKeySync);
   ("has", Function _ Storage_HasKey);
   ("flushSync", Function _ (fun self _ => Storage_FlushSync self));
   ("flush", Function _ Storage_Flush);
   ("on", Function _ Storage_RegisterObserver_js);
   ("off", Function _ Storage_UnRegisterObserver_js)].

(** [napi_storage_helper.cpp:214-228] InitPreferenceHelper *)
Definition InitPreferenceHelper : Table St :=
  [("getStorage", Function _ GetStorage);
   ("getStorageSync", Function _ (fun _ => GetStorageSync gskvEnabled));
   ("deleteStorage", Function _ DeleteStorage);
   ("deleteStorageSync", Function _ (fun _ => DeleteStorageSync));
   ("removeStorageFromCache", Function _ RemoveStorageFromCache);
   ("removeStorageFromCacheSync", Function _ (fun _ => RemoveStorageFromCacheSync));
   ("MAX_KEY_LENGTH", Property _ (napi_create_uint32 MAX_KEY_LENGTH));
   ("MAX_VALUE_LENGTH", Property _ (napi_create_uint32 MAX_VALUE_LENGTH))].

(** [napi_system_storage.cpp:313-323] InitSystemStorage *)
Definition InitSystemStorage : Table SystemState :=
  [("get", Function _ (fun _ => NapiGet));
   ("delete", Function _ (fun _ => NapiDelete));
   ("clear", Function _ (fun _ => NapiClear));
   ("set", Function _ (fun _ => NapiSet))].
(** ** Calls by name *)

(** Calling what is not a function is an error of the program. *)
Definition call_member {S} (t : Table S) (name : string) (self : napi_value) (argv : list napi_value) : SO S CallResult :=
  match member t name with Some (Function _ f) => f self argv | _ => run_out Undef end.

Definition js_name (m : js_method) : string :=
  match m with
  | MPut => "putSync" | MGet => "getSync" | MHas => "hasSync" | MDelete => "deleteSync" | MClear => "clearSync"
  | MGetAll => "getAllSync" | MFlush => "flushSync"
  end.

Definition st_name (o : st_op) : string :=
  match o with SgPut _ _ => "putSync" | SgGet _ _ => "getSync" | SgHas _ => "hasSync" | SgDelete _ => "deleteSync" | SgClear => "clearSync" end.

Definition st_args (o : st_op) : list napi_value :=
  match o with SgPut k v => [k; v] | SgGet k d => [k; d] | SgHas k | SgDelete k => [k] | SgClear => [] end.

Fixpoint run_named (t : Table Js) (self : napi_value) (l : list js_op) : SO Js (list CallResult) :=
  match l with
  | [] => mret []
  | o :: l => r ← call_member t (js_name o.1) self o.2; rs ← run_named t self l; mret (r :: rs)
  end.

Definition names {S} (t : Table S) : list string := map fst t.

(** The name of the synchronous form of a method. *)
Definition sync_name (n : string) : string := n +:+ "Sync".

(** The name and the name with [Sync] read their arguments alike and ask for the
    same work; one does it on another thread, the other at once. *)
Definition two_forms (t : Table Js) (n : string) : Prop :=
  exists input, member t n = Some (Function _ (call_method RSIZE_MAX gskvEnabled true input)) /\
    member t (sync_name n) = Some (Function _ (call_method RSIZE_MAX gskvEnabled false input)).

Definition methods : list string := ["put"; "get"; "getAll"; "delete"; "clear"; "has"; "flush"].
Definition functions : list string := ["getPreferences"; "deletePreferences"; "removePreferencesFromCache"].

(** ** Properties *)

(** No name of a table is given twice. *)
Theorem names_distinct (env : positive) :
  NoDup (names PreferencesProxy_Init) /\ NoDup (names InitPreferencesHelper) /\ NoDup (names (Sendable_Init env)) /\
  NoDup (names Sendable_InitPreferencesHelper) /\ NoDup (names StorageProxy_Init) /\ NoDup (names InitPreferenceHelper) /\
  NoDup (names InitSystemStorage).
Proof. split_and!; apply (bool_decide_unpack _); vm_compute; exact I. Qed.

(** The methods and functions of plain and of sendable objects have the same
    names, and each name that starts work with a promise or a callback has a
    twin that does the same work at once; only the types of storage are not
    exported for sendable objects. *)
Theorem two_forms_of_methods (env : positive) :
  names (Sendable_Init env) = names PreferencesProxy_Init /\
  names InitPreferencesHelper = names Sendable_InitPreferencesHelper ++ ["StorageType"; "isStorageTypeSupported"] /\
  Forall (two_forms PreferencesProxy_Init) methods /\ Forall (two_forms (Sendable_Init env)) methods /\
  Forall (two_forms InitPreferencesHelper) functions /\ Forall (two_forms Sendable_InitPreferencesHelper) functions.
Proof.
  split; [done|]. split; [done|]. unfold methods, functions.
  split_and!; repeat constructor; eexists; by split.
Qed.

(** A program that uses the names of the synchronous methods runs the calls
    that [js_refines_map], [sendable_like_plain] and [storage_refines_map] speak
    of. *)
Theorem names_reach_calls (env : positive) (self : napi_value) :
  (forall l j, run_named PreferencesProxy_Init self l j = js_run RSIZE_MAX gskvEnabled self l j) /\
  (forall o, call_member (Sendable_Init env) (js_name o.1) self o.2 = sendable_call RSIZE_MAX gskvEnabled self o) /\
  (forall o, call_member StorageProxy_Init (st_name o) self (st_args o) = st_do RSIZE_MAX self o).
Proof.
  split; [|split; [by intros [[] argv]|by intros []]]. intros l. induction l as [|o l IH]; intros j; [done|]. cbn [run_named js_run].
  assert (call_member PreferencesProxy_Init (js_name o.1) self o.2 = js_call RSIZE_MAX gskvEnabled self o) as -> by (by destruct o as [[] argv]).
  unfold mbind, so_bind. destruct (js_call _ _ _ _ _) as [[r j1]| | |]; [|done..]. by rewrite IH.
Qed.

(** The constants of [StorageType] are read as the types that they name, by an
    engine that gives back the numbers it was given. *)
Theorem StorageType_read_back (Hint : forall z v, napi_create_int32 z = Some v -> napi_get_value_int32 v = Some z)
    (name : string) (v : napi_value) (Hv : (name, Some v) ∈ ExportStorageType) :
  storage_type v = inr (if decide (name = "XML") then XML else GSKV).
Proof.
  unfold ExportStorageType, SetNamedProperty in Hv.
  apply elem_of_cons in Hv as [[= -> Hv]|[[= -> Hv]|[]%elem_of_nil]%elem_of_cons]; unfold storage_type; by rewrite (Hint _ _ (eq_sym Hv)).
Qed.
End JsModules.
