(* ===== verification/EtsValue.v ===== *)
(** * Values of the interface for ArkTS

    Models [taihe_common_utils.cpp] and [ani_common_utils.cpp] of
    [frameworks/ets/taihe/common]: the unions that the interface description
    declares, their conversions from and to values of the store, and the objects
    that are made for all entries.  The runtime is a class. *)

From S2P Require Import Prelude Errno Value Utils ConcurrentMap Env FileLock Store DbAdapter Base Impl Handle NdkMem JsValue Js.

(** ** The unions *)

(** [preferences/idl/ohos.data.preferences.taihe:21-26] ArrayValueType *)
Inductive ArrayValueType :=
  | AtLong (v : Z)
  | AtDouble (bits : Z)
  | AtString (v : string)
  | AtBoolean (v : bool).

(** The accessors of a union, which the interface generates: what they give for
    another alternative is theirs. *)
Class Taihe := {
  get_longType_ref : ArrayValueType -> outcome Z;
  get_doubleType_ref : ArrayValueType -> outcome Z;
  get_stringType_ref : ArrayValueType -> outcome string;
  get_booleanType_ref : ArrayValueType -> outcome bool
}.

Class TaiheLaws `{Taihe} := {
  get_long z : get_longType_ref (AtLong z) = Done z;
  get_double z : get_doubleType_ref (AtDouble z) = Done z;
  get_string s : get_stringType_ref (AtString s) = Done s;
  get_boolean b : get_booleanType_ref (AtBoolean b) = Done b
}.

(** The argument of a constructor. *)
Inductive AniArg := ArgLong (z : Z) | ArgDouble (bits : Z) | ArgBool (b : bool) | ArgSize (z : Z).

(** The runtime.  A call that fails gives [None]; a call that changes an object
    that was just made gives the object as it is then. *)
Class Ani := {
  ani_object : Type;
  ani_class : Type;
  ani_method : Type;
  ani_function : Type;
  ani_namespace : Type;
  FindClass : string -> option ani_class;
  Class_FindMethod : ani_class -> string -> option string -> option ani_method;
  Class_FindStaticMethod : ani_class -> string -> string -> option ani_method;
  FindNamespace : string -> option ani_namespace;
  Namespace_FindFunction : ani_namespace -> string -> option ani_function;
  Object_New : ani_class -> ani_method -> option AniArg -> option ani_object;
  Object_GetFieldByName_Ref : ani_object -> string -> option ani_object;
  Object_CallMethodByName_Void : ani_object -> string -> string -> Z -> option ani_object -> option ani_object;
  Object_CallMethod_Void : ani_object -> ani_method -> option ani_object -> ani_object -> option ani_object;
  Class_CallStaticMethod_Ref : ani_class -> ani_method -> option ani_object -> option ani_object;
  Function_Call_Ref : ani_function -> list Z -> option ani_object;        (** of a buffer of bytes *)
  String_NewUTF8 : string -> option ani_object;
  String_GetUTF8Size : ani_object -> option Z;
  String_GetUTF8 : ani_object -> Z -> option string;
  CreateArrayBuffer : Z -> bool;
  ArrayBuffer_GetInfo : ani_object -> option Z;                            (** the size of the buffer *)
  with_bytes : ani_object -> list Z -> ani_object;                         (** the array whose buffer was filled *)
  Reference_StrictEquals : ani_object -> ani_object -> bool;               (** [true] when it succeeds and they are equal *)
  GlobalReference_Create : ani_object -> bool;
  GlobalReference_Delete : ani_object -> bool
}.

(** The opaque of an object is its handle, which may be null.

    [preferences/idl/ohos.data.preferences.taihe:31-40] ValueType *)
Inductive ValueType `{Ani} :=
  | EtLong (v : Z)
  | EtDouble (bits : Z)
  | EtString (v : string)
  | EtBoolean (v : bool)
  | EtArray (l : list ArrayValueType)
  | EtUint8Array (l : list Z)
  | EtBigint (words : list Z)
  | EtObject (o : option ani_object).

Section EtsValue.
Context `{Taihe} `{Ani} `{Securec}.

(** ** From the interface *)

(** [taihe_common_utils.cpp:52-62] ConvertToArrayWithType *)
Definition ConvertToArrayWithType {T} (mk : list T -> PreferencesValue) (getter : ArrayValueType -> outcome T) (l : list ArrayValueType) : outcome PreferencesValue :=
  result ← mapM getter l; Done (mk result).

(** The type of the first element decides.

    [taihe_common_utils.cpp:64-88] ConvertToArray *)
Definition ConvertToArray (ref : list ArrayValueType) : outcome PreferencesValue :=
  match ref with
  | [] => Done (VDoubleArray [])
  | AtLong _ :: _ => ConvertToArrayWithType VInt64Array get_longType_ref ref
  | AtDouble _ :: _ => ConvertToArrayWithType VDoubleArray get_doubleType_ref ref
  | AtString _ :: _ => ConvertToArrayWithType VStringArray get_stringType_ref ref
  | AtBoolean _ :: _ => ConvertToArrayWithType VBoolArray get_booleanType_ref ref
  end.

(** The last word; there is none in an empty array.

    [taihe_common_utils.cpp:96-99] GetBigintSign *)
Definition GetBigintSign (bigintArray : list Z) : outcome Z :=
  match last bigintArray with
  | None => Undef
  | Some w => Done (if Z.shiftr w 63 =? 0 then 1 else 0)
  end.

(** [taihe_common_utils.cpp:101-107] ConvertToBigint *)
Definition ConvertToBigint (words : list Z) : outcome PreferencesValue :=
  sign ← GetBigintSign words; Done (VBigInt (mkBigInt words sign)).

(** [ani_common_utils.cpp:497-518] AniStringToStdStr *)
Definition AniStringToStdStr (env : bool) (aniStr : ani_object) : string :=
  if negb env then "" else
  match String_GetUTF8Size aniStr with
  | None => ""
  | Some strSize => if strSize =? 0 then "" else default "" (String_GetUTF8 aniStr (strSize + 1))
  end.

(** The text of an object, or nothing.

    [ani_common_utils.cpp:520-548] AniObjectToPreferencesValue *)
Definition AniObjectToPreferencesValue (env : bool) (object : option ani_object) : PreferencesValue :=
  if negb env then PreferencesValue_default else
  match FindClass "std.core.JSON" with
  | None => PreferencesValue_default
  | Some cls =>
      match Class_FindStaticMethod cls "stringify" "Y:C{std.core.String}" with
      | None => PreferencesValue_default
      | Some stringify =>
          match Class_CallStaticMethod_Ref cls stringify object with
          | None => PreferencesValue_default
          | Some result => VObject (mkObject (AniStringToStdStr env result))
          end
      end
  end.

(** [taihe_common_utils.cpp:115-134] ConvertToPreferencesValue *)
Definition ConvertToPreferencesValue (env : bool) (valueType : ValueType) : outcome PreferencesValue :=
  match valueType with
  | EtLong v => Done (VLong v)
  | EtDouble v => Done (VDouble v)
  | EtString v => Done (VString v)
  | EtBoolean v => Done (VBool v)
  | EtArray ref => ConvertToArray ref
  | EtUint8Array ref => Done (VUint8Array ref)
  | EtBigint ref => ConvertToBigint ref
  | EtObject ref => Done (AniObjectToPreferencesValue env ref)
  end.

(** ** To the interface *)

(** [ani_common_utils.cpp:42-55] StdStringToANIString *)
Definition StdStringToANIString (env : bool) (str : string) : option ani_object :=
  if negb env then None else String_NewUTF8 str.

(** The text, not an object.

    [ani_common_utils.cpp:399-403] ObjectToANIObject *)
Definition ObjectToANIObject (env : bool) (obj : Value.Object) : option ani_object := StdStringToANIString env (valueStr obj).

(** A value that is not an object throws.  The error that is set is the second
    part.

    [taihe_common_utils.cpp:211-218] ConvertFromObject *)
Definition ConvertFromObject (env : bool) (value : PreferencesValue) : outcome (ValueType * option JSError) :=
  match as_object value with
  | None => Prelude.Thrown
  | Some o =>
      match ObjectToANIObject env o with
      | None => Done (EtObject None, Some (InnerError "Failed to convert object."))
      | Some obj => Done (EtObject (Some obj), None)
      end
  end.

(** [taihe_common_utils.cpp:226-262] ConvertToValueType *)
Definition ConvertToValueType (env : bool) (value : PreferencesValue) : outcome (ValueType * option JSError) :=
  match value with
  | VLong v => Done (EtLong v, None)
  | VFloat v => Done (EtDouble (float_to_double v), None)
  | VDouble v => Done (EtDouble v, None)
  | VBool v => Done (EtBoolean v, None)
  | VString v => Done (EtString v, None)
  | VStringArray l => Done (EtArray (map AtString l), None)
  | VBoolArray l => Done (EtArray (map AtBoolean l), None)
  | VInt64Array l => Done (EtArray (map AtLong l), None)
  | VDoubleArray l => Done (EtArray (map AtDouble l), None)
  | VUint8Array l => Done (EtUint8Array l, None)
  | VBigInt b => Done (EtBigint (words_ b), None)
  | _ => ConvertFromObject env value
  end.

Fixpoint convert_records (env : bool) (records : list (string * PreferencesValue)) (result : gmap string ValueType) (errors : list JSError) :
    outcome (gmap string ValueType * list JSError) :=
  match records with
  | [] => Done (result, errors)
  | (key, value) :: records =>
      '(v, e) ← ConvertToValueType env value;
      convert_records env records (<[key := v]> result) (errors ++ option_list e)
  end.

(** The records in the order of their keys, with the errors that are set.

    [taihe_common_utils.cpp:264-272] ConvertMapToTaiheMap *)
Definition ConvertMapToTaiheMap (env : bool) (records : gmap string PreferencesValue) : outcome (gmap string ValueType * list JSError) :=
  convert_records env (in_order records) ∅ [].

(** ** Objects of the runtime *)

(** An object of a class that is found, by a constructor that is found. *)
Definition new_object (env : bool) (name sig : string) (arg : option AniArg) : option ani_object :=
  if negb env then None else
  cls ← FindClass name;
  ctor ← Class_FindMethod cls "<ctor>" (Some sig);
  Object_New cls ctor arg.

(** [ani_common_utils.cpp:57-83] Int64ToObject *)
Definition Int64ToObject (env : bool) (value : Z) : option ani_object := new_object env "std.core.Long" "l:" (Some (ArgLong value)).

(** [ani_common_utils.cpp:85-111] DoubleToObject *)
Definition DoubleToObject (env : bool) (value : Z) : option ani_object := new_object env "std.core.Double" "d:" (Some (ArgDouble value)).

(** [ani_common_utils.cpp:113-116] LongToObject *)
Definition LongToObject (env : bool) (value : Z) : option ani_object := Int64ToObject env value.

(** [ani_common_utils.cpp:118-121] FloatToObject *)
Definition FloatToObject (env : bool) (value : Z) : option ani_object := DoubleToObject env (float_to_double value).

(** [ani_common_utils.cpp:123-150] BoolToObject *)
Definition BoolToObject (env : bool) (value : bool) : option ani_object := new_object env "std.core.Boolean" "z:" (Some (ArgBool value)).

(** [ani_common_utils.cpp:152-156] StringToObject *)
Definition StringToObject (env : bool) (value : string) : option ani_object := StdStringToANIString env value.

(** [ani_common_utils.cpp:158-197] BigIntToObject *)
Definition BigIntToObject (env : bool) (value : BigInt) : option ani_object :=
  if negb env then None else
  aniNamespace ← FindNamespace "@ohos.data.preferences.preferences";
  castFunc ← Namespace_FindFunction aniNamespace "fromArrayBufferToBigInt";
  let bufferLength := Z.of_nat (length (words_ value)) * 8 in
  if negb (CreateArrayBuffer bufferLength) then None else
  if negb (memcpy_s bufferLength bufferLength) then None else
  Function_Call_Ref castFunc (concat (map (le_encode 8) (words_ value))).

(** [ani_common_utils.cpp:199-243] Uint8ArrayToObject *)
Definition Uint8ArrayToObject (env : bool) (values : list Z) : option ani_object :=
  let valueSize := Z.of_nat (length values) in
  aniObject ← new_object env "escompat.Uint8Array" "i:" (Some (ArgSize valueSize));
  buffer ← Object_GetFieldByName_Ref aniObject "buffer";
  bufLength ← ArrayBuffer_GetInfo buffer;
  if negb (memcpy_s bufLength valueSize) then None else Some (with_bytes aniObject values).

(** Set the elements one after the other.  When a call fails the array is given
    up, or, with [lenient], handed out as it is. *)
Fixpoint set_elements (lenient : bool) (index : Z) (arrayObj : ani_object) (l : list (option ani_object)) : option ani_object :=
  match l with
  | [] => Some arrayObj
  | v :: l =>
      match Object_CallMethodByName_Void arrayObj "$_set" "iY:" index v with
      | None => if lenient then Some arrayObj else None
      | Some arrayObj => set_elements lenient (index + 1) arrayObj l
      end
  end.

Definition new_array {A} (env : bool) (values : list A) : option ani_object :=
  new_object env "std.core.Array" "i:" (Some (ArgSize (Z.of_nat (length values)))).

(** A text that cannot be made ends the loop. *)
Fixpoint set_strings (index : Z) (arrayObj : ani_object) (l : list string) : option ani_object :=
  match l with
  | [] => Some arrayObj
  | value :: l =>
      ani_str ← String_NewUTF8 value;
      arrayObj ← Object_CallMethodByName_Void arrayObj "$_set" "iY:" index (Some ani_str);
      set_strings (index + 1) arrayObj l
  end.

(** [ani_common_utils.cpp:245-285] StringArrayToObject *)
Definition StringArrayToObject (env : bool) (values : list string) : option ani_object :=
  arrayObj ← new_array env values; set_strings 0 arrayObj values.

(** [ani_common_utils.cpp:287-323] BoolArrayToObject *)
Definition BoolArrayToObject (env : bool) (values : list bool) : option ani_object :=
  arrayObj ← new_array env values; set_elements false 0 arrayObj (map (BoolToObject env) values).

(** [ani_common_utils.cpp:325-360] Int64ArrayToObject *)
Definition Int64ArrayToObject (env : bool) (values : list Z) : option ani_object :=
  arrayObj ← new_array env values; set_elements true 0 arrayObj (map (Int64ToObject env) values).

(** [ani_common_utils.cpp:362-397] DoubleArrayToObject *)
Definition DoubleArrayToObject (env : bool) (values : list Z) : option ani_object :=
  arrayObj ← new_array env values; set_elements true 0 arrayObj (map (DoubleToObject env) values).

(** [ani_common_utils.cpp:405-448] PreferencesValueToObject *)
Definition PreferencesValueToObject (env : bool) (res : PreferencesValue) : option ani_object :=
  if negb env then None else
  match res with
  | VString v => StringToObject env v
  | VBool v => BoolToObject env v
  | VLong v => LongToObject env v
  | VFloat v => FloatToObject env v
  | VDouble v => DoubleToObject env v
  | VUint8Array l => Uint8ArrayToObject env l
  | VStringArray l => StringArrayToObject env l
  | VBoolArray l => BoolArrayToObject env l
  | VInt64Array l => Int64ArrayToObject env l
  | VDoubleArray l => DoubleArrayToObject env l
  | VBigInt b => BigIntToObject env b
  | VObject o => ObjectToANIObject env o
  | _ => None
  end.

(** A key that cannot be made is a null key. *)
Fixpoint set_entries (env : bool) (setter : ani_method) (aniObject : ani_object) (values : list (string * PreferencesValue)) : option ani_object :=
  match values with
  | [] => Some aniObject
  | (key, value) :: values =>
      aniObjVal ← PreferencesValueToObject env value;
      aniObject ← Object_CallMethod_Void aniObject setter (StdStringToANIString env key) aniObjVal;
      set_entries env setter aniObject values
  end.

(** The entries in the order in which they are given.

    [ani_common_utils.cpp:450-495] PreferencesMapToObject *)
Definition PreferencesMapToObject (env : bool) (values : list (string * PreferencesValue)) : option ani_object :=
  if negb env then None else
  cls ← FindClass "std.core.Record";
  aniCtor ← Class_FindMethod cls "<ctor>" (Some ":");
  aniObject ← Object_New cls aniCtor None;
  setter ← Class_FindMethod cls "$_set" None;
  set_entries env setter aniObject values.
End EtsValue.
