(* ===== verification/Ets.v ===== *)
(** * The interface for ArkTS

    Models [preferences_proxy.cpp], [ohos.data.preferences.impl.cpp],
    [ani_ability.cpp] and [taihe_preferences_observer.cpp] of
    [frameworks/ets/taihe]: proxies of objects of the store with their
    observers, and the functions of the factory.  An error is set with the
    runtime, besides the value that a call gives. *)

From S2P Require Import Prelude Errno Value Utils ConcurrentMap Env FileLock Store DbAdapter Base Impl Enhance Helper.
From S2P Require Import Handle NdkMem JsValue Js EtsValue.

(** ** State *)

(** [taihe_preferences_observer.h:27-28] CallbackType *)
Inductive EtsCallback := StringCallback (cb : positive) | MapCallback (cb : positive).

(** [taihe_preferences_observer.h:30-40] TaihePreferencesObserver *)
Record EtsObserver := mkEtsObserver { eo_callback : EtsCallback; eo_ref : positive }.

(** [preferences_proxy.h:88-92] PreferencesProxy *)
Record EtsProxy := mkEtsProxy {
  ep_preferences : option positive;
  ep_local : list positive;
  ep_multi : list positive;
  ep_data : list positive
}.

(** What reaches the runtime. *)
Inductive EtsEvent `{Ani} :=
  | BusinessError (e : JSError)
  | CalledKey (cb : positive) (key : string)
  | CalledRecords (cb : positive) (records : gmap string ValueType).

(** The application around the runtime. *)
Class AniAbility `{Ani} := {
  ani_IsStageContext : ani_object -> option bool;
  ani_GetStageModeContext : ani_object -> option AppContext
}.

(** The options of a call: a part may be [undefined] or [null].

    [preferences/idl/ohos.data.preferences.taihe:52-66] Options *)
Record TaiheOptions := mkTaiheOptions { to_name : string; to_dataGroupId : option string; to_storageType : option Z }.

(** [ohos.data.preferences.impl.cpp:42-48] PreferencesInfo *)
Record PreferencesInfo := mkPreferencesInfo {
  pi_path : string;
  pi_name : string;
  pi_bundleName : string;
  pi_dataGroupId : string;
  pi_storageType : StorageType
}.

Section Ets.
Context `{XmlStore} `{SafeBlockQueue} `{KvDb} `{Iteration} `{Taihe} `{Ani} `{Securec} `{!AniAbility}.
Context (RSIZE_MAX : Z) (gskvEnabled : bool).
(** Whether the thread that runs the code has an environment of the runtime. *)
Context (env : bool).

Record Ets := mkEts {
  et_hlp : Helper;
  et_mode : CONTEXT_MODE;
  et_proxies : gmap positive EtsProxy;
  et_next_proxy : positive;
  et_observers : gmap positive EtsObserver;
  et_next : positive;
  et_refs : gmap positive ani_object;        (** the global references *)
  et_next_ref : positive;
  et_events : list EtsEvent
}.

Definition set_et_hlp h (s : Ets) := mkEts h (et_mode s) (et_proxies s) (et_next_proxy s) (et_observers s) (et_next s) (et_refs s) (et_next_ref s) (et_events s).
Definition set_et_mode m (s : Ets) := mkEts (et_hlp s) m (et_proxies s) (et_next_proxy s) (et_observers s) (et_next s) (et_refs s) (et_next_ref s) (et_events s).
Definition set_et_proxies v (s : Ets) := mkEts (et_hlp s) (et_mode s) v (et_next_proxy s) (et_observers s) (et_next s) (et_refs s) (et_next_ref s) (et_events s).
Definition set_et_observers v (s : Ets) := mkEts (et_hlp s) (et_mode s) (et_proxies s) (et_next_proxy s) v (et_next s) (et_refs s) (et_next_ref s) (et_events s).
Definition set_et_refs v (s : Ets) := mkEts (et_hlp s) (et_mode s) (et_proxies s) (et_next_proxy s) (et_observers s) (et_next s) v (et_next_ref s) (et_events s).
Definition ets_emit (e : EtsEvent) : SO Ets unit :=
  run_st (modify (fun s => mkEts (et_hlp s) (et_mode s) (et_proxies s) (et_next_proxy s) (et_observers s) (et_next s) (et_refs s) (et_next_ref s) (et_events s ++ [e]))).

Definition ets_store {A} (m : SO Helper A) : SO Ets A := fun s => '(a, h) ← m (et_hlp s); Done (a, set_et_hlp h s).

(** [taihe_common_utils.cpp:274-278] SetBusinessError *)
Definition Ets_SetBusinessError (error : JSError) : SO Ets unit := ets_emit (BusinessError error).

Definition set_code (errCode : Z) : SO Ets unit := if errCode =? E_OK then mret tt else Ets_SetBusinessError (InnerCode errCode).

(** ** Contexts and options *)

(** [ani_ability.cpp:28-40] GetContextMode *)
Definition Ets_GetContextMode (context : ani_object) : ST Ets CONTEXT_MODE := fun s =>
  match et_mode s with
  | INIT =>
      match ani_IsStageContext context with
      | Some isStageMode => let m := if (isStageMode : bool) then STAGE else FA in (m, set_et_mode m s)
      | None => (INIT, s)
      end
  | m => (m, s)
  end.

(** Without an error the directory and the name of the bundle are empty when the
    application is not of the stage model.

    [ani_ability.cpp:42-62] GetContextInfo *)
Definition Ets_GetContextInfo (context : ani_object) (dataGroupId : string) : ST Ets (JSError + string * string) :=
  mode ← Ets_GetContextMode context;
  mret match mode with
  | STAGE =>
      match ani_GetStageModeContext context with
      | None => inl (ParamTypeError "The context is invalid.")
      | Some stageContext =>
          let '(errcode, preferencesDir) := ctx_GetSystemPreferencesDir stageContext dataGroupId in
          if negb (errcode =? 0) then inl (InnerCode JS_E_DATA_GROUP_ID_INVALID)
          else inr (preferencesDir, ctx_GetBundleName stageContext)
      end
  | _ => inr ("", "")
  end.

(** [ohos.data.preferences.impl.cpp:50-66] ParseOptions *)
Definition ParseOptions (options : TaiheOptions) : JSError + PreferencesInfo :=
  let info := mkPreferencesInfo "" (to_name options) "" (default "" (to_dataGroupId options)) in
  match to_storageType options with
  | None => inr (info XML)
  | Some storageTypeVal =>
      if storageTypeVal =? 0 then inr (info XML)
      else if storageTypeVal =? 1 then inr (info GSKV)
      else inl (ParamTypeError "Storage type value invalid.")
  end.

(** [ohos.data.preferences.impl.cpp:68-82] ParseContext *)
Definition ParseContext (context : ani_object) (info : PreferencesInfo) : ST Ets (JSError + PreferencesInfo) :=
  if negb env then mret (inl (InnerError "Failed to get env.")) else
  r ← Ets_GetContextInfo context (pi_dataGroupId info);
  mret match r with
  | inl err => inl err
  | inr (preferencesDir, bundleName) =>
      inr (mkPreferencesInfo (preferencesDir +:+ "/" +:+ pi_name info) (pi_name info) bundleName (pi_dataGroupId info) (pi_storageType info))
  end.

Definition with_context {A} (context : ani_object) (info : PreferencesInfo) (none : SO Ets A) (k : PreferencesInfo -> SO Ets A) : SO Ets A :=
  r ← run_st (ParseContext context info);
  match r with inl err => Ets_SetBusinessError err;; none | inr info => k info end.

Definition with_options {A} (options : TaiheOptions) (none : SO Ets A) (k : PreferencesInfo -> SO Ets A) : SO Ets A :=
  match ParseOptions options with inl err => Ets_SetBusinessError err;; none | inr info => k info end.

Definition named (name : string) : PreferencesInfo := mkPreferencesInfo "" name "" "" XML.

(** ** The factory *)

(** [preferences_proxy.cpp:35-38] PreferencesProxy *)
Definition EtsProxy_new (preferences : option positive) : SO Ets positive := fun s =>
  let id := et_next_proxy s in
  Done (id, mkEts (et_hlp s) (et_mode s) (<[id := mkEtsProxy preferences [] [] []]> (et_proxies s)) (Pos.succ id) (et_observers s) (et_next s) (et_refs s) (et_next_ref s) (et_events s)).

(** A failure gives a proxy without an object.

    [ohos.data.preferences.impl.cpp:84-99] GetPreferences *)
Definition Ets_GetPreferences (context : ani_object) (info : PreferencesInfo) : SO Ets positive :=
  with_context context info (EtsProxy_new None) (fun info =>
    '(preferences, errCode) ← ets_store (GetPreferences gskvEnabled
      (mkOptions (pi_path info) (pi_bundleName info) (pi_dataGroupId info) (match pi_storageType info with GSKV => true | XML => false end)));
    if negb (errCode =? E_OK) then Ets_SetBusinessError (InnerCode errCode);; EtsProxy_new None else EtsProxy_new preferences).

(** [ohos.data.preferences.impl.cpp:101-110] GetPreferencesSync *)
Definition GetPreferencesSync (context : ani_object) (options : TaiheOptions) : SO Ets positive :=
  with_options options (EtsProxy_new None) (Ets_GetPreferences context).

(** [ohos.data.preferences.impl.cpp:112-118] GetPreferencesSyncByName *)
Definition GetPreferencesSyncByName (context : ani_object) (name : string) : SO Ets positive := Ets_GetPreferences context (named name).

(** [ohos.data.preferences.impl.cpp:120-126] isStorageTypeSupported *)
Definition Ets_isStorageTypeSupported (storageTypeVal : Z) : bool :=
  IsStorageTypeSupported gskvEnabled (if storageTypeVal =? 0 then XML else GSKV).

(** [ohos.data.preferences.impl.cpp:128-139] DeletePreferences *)
Definition Ets_DeletePreferences (context : ani_object) (info : PreferencesInfo) : SO Ets unit :=
  with_context context info (mret tt) (fun info => errCode ← ets_store (DeletePreferences (pi_path info)); set_code errCode).

(** [ohos.data.preferences.impl.cpp:141-150] DeletePreferencesSync *)
Definition DeletePreferencesSync (context : ani_object) (options : TaiheOptions) : SO Ets unit :=
  with_options options (mret tt) (Ets_DeletePreferences context).

(** [ohos.data.preferences.impl.cpp:152-158] DeletePreferencesSyncByName *)
Definition DeletePreferencesSyncByName (context : ani_object) (name : string) : SO Ets unit := Ets_DeletePreferences context (named name).

(** [ohos.data.preferences.impl.cpp:160-171] RemovePreferencesFromCache *)
Definition Ets_RemovePreferencesFromCache (context : ani_object) (info : PreferencesInfo) : SO Ets unit :=
  with_context context info (mret tt) (fun info => errCode ← ets_store (RemovePreferencesFromCache (pi_path info)); set_code errCode).

(** [ohos.data.preferences.impl.cpp:173-179] RemovePreferencesFromCacheSync *)
Definition RemovePreferencesFromCacheSync (context : ani_object) (name : string) : SO Ets unit := Ets_RemovePreferencesFromCache context (named name).

(** [ohos.data.preferences.impl.cpp:181-190] RemovePreferencesFromCacheSyncByOptions *)
Definition RemovePreferencesFromCacheSyncByOptions (context : ani_object) (options : TaiheOptions) : SO Ets unit :=
  with_options options (mret tt) (Ets_RemovePreferencesFromCache context).

(** ** Entries *)

Definition ets_proxy (self : positive) : SO Ets EtsProxy :=
  s ← run_st get;
  match et_proxies s !! self with Some p => mret p | None => run_out Undef end.

(** The object of a proxy, or an error. *)
Definition with_preferences {A} (self : positive) (none : A) (k : positive -> EtsProxy -> SO Ets A) : SO Ets A :=
  p ← ets_proxy self;
  match ep_preferences p with
  | None => Ets_SetBusinessError (InnerError "Failed to get instance.");; mret none
  | Some r => k r p
  end.

(** [preferences_proxy.cpp:48-51] CheckKey *)
Definition Ets_CheckKey (key : string) : bool := slen key <=? MAX_KEY_LENGTH.

Definition with_short_key {A} (key : string) (none : A) (k : SO Ets A) : SO Ets A :=
  if negb (Ets_CheckKey key) then Ets_SetBusinessError (ParamTypeError "The key must be less than 1024 bytes.");; mret none else k.

(** [preferences_proxy.cpp:53-70] GetSync *)
Definition GetSync (self : positive) (key : string) (defValue : ValueType) : SO Ets ValueType :=
  with_preferences self defValue (fun r _ => with_short_key key defValue (
    preferencesValue ← ets_store (obj_get r key PreferencesValue_default);
    match preferencesValue with
    | VMonostate => mret defValue
    | _ =>
        '(v, err) ← run_out (ConvertToValueType env preferencesValue);
        match err with Some e => Ets_SetBusinessError e;; mret v | None => mret v end
    end)).

(** The handle of the object that holds all entries, or null.

    [preferences_proxy.cpp:72-84] GetAllSync *)
Definition GetAllSync (self : positive) : SO Ets (option ani_object) :=
  with_preferences self None (fun r _ =>
    allElements ← ets_store (obj_getalldatas r);
    match PreferencesMapToObject env (iterate allElements) with
    | None => Ets_SetBusinessError (InnerError "Failed to convert object.");; mret None
    | Some mapObj => mret (Some mapObj)
    end).

(** [preferences_proxy.cpp:86-98] HasSync *)
Definition HasSync (self : positive) (key : string) : SO Ets bool :=
  with_preferences self false (fun r _ => with_short_key key false (ets_store (obj_haskey r key))).

(** The length of an array of bytes, and of a text. *)
Definition value_length (value : ValueType) (nativeValue : PreferencesValue) : Z :=
  match value, nativeValue with
  | EtUint8Array _, VUint8Array l => Z.of_nat (length l)
  | EtString _, VString s => slen s
  | _, _ => 0
  end.

(** [preferences_proxy.cpp:100-134] PutSync *)
Definition PutSync (self : positive) (key : string) (value : ValueType) : SO Ets unit :=
  with_preferences self tt (fun r _ => with_short_key key tt (
    nativeValue ← run_out (ConvertToPreferencesValue env value);
    if bool_decide (nativeValue = VMonostate) then Ets_SetBusinessError (InnerError "Failed to parse value.") else
    if MAX_VALUE_LENGTH <? value_length value nativeValue
    then Ets_SetBusinessError (ParamTypeError "The value must be less than 6*1024*1024 bytes.") else
    errCode ← ets_store (obj_put RSIZE_MAX r key nativeValue);
    set_code errCode)).

(** [preferences_proxy.cpp:136-151] DeleteSync *)
Definition DeleteSync (self : positive) (key : string) : SO Ets unit :=
  with_preferences self tt (fun r _ => with_short_key key tt (errCode ← ets_store (obj_delete r key); set_code errCode)).

(** [preferences_proxy.cpp:153-163] ClearSync *)
Definition ClearSync (self : positive) : SO Ets unit :=
  with_preferences self tt (fun r _ => errCode ← ets_store (obj_clear r); set_code errCode).

(** [preferences_proxy.cpp:165-175] FlushSync *)
Definition Ets_FlushSync (self : positive) : SO Ets unit :=
  with_preferences self tt (fun r _ => errCode ← ets_store (obj_flushsync r); set_code errCode).

(** ** Observers *)

Definition listed_in (mode : RegisterMode) (p : EtsProxy) : list positive :=
  match mode with LOCAL_CHANGE => ep_local p | MULTI_PRECESS_CHANGE => ep_multi p | _ => ep_data p end.

Definition put_list (mode : RegisterMode) (l : list positive) (p : EtsProxy) : EtsProxy :=
  match mode with
  | LOCAL_CHANGE => mkEtsProxy (ep_preferences p) l (ep_multi p) (ep_data p)
  | MULTI_PRECESS_CHANGE => mkEtsProxy (ep_preferences p) (ep_local p) l (ep_data p)
  | _ => mkEtsProxy (ep_preferences p) (ep_local p) (ep_multi p) l
  end.

Definition put_listed (self : positive) (mode : RegisterMode) (l : list positive) : SO Ets unit :=
  p ← ets_proxy self;
  run_st (modify (fun s => set_et_proxies (<[self := put_list mode l p]> (et_proxies s)) s)).

(** [preferences_proxy.cpp:191-199] CreateGlobalReference *)
Definition CreateGlobalReference (opq : ani_object) : SO Ets (JSError + positive) := fun s =>
  if negb (GlobalReference_Create opq) then Done (inl (InnerError "Failed to create ref."), s) else
  let ref := et_next_ref s in
  Done (inr ref, mkEts (et_hlp s) (et_mode s) (et_proxies s) (et_next_proxy s) (et_observers s) (et_next s) (<[ref := opq]> (et_refs s)) (Pos.succ ref) (et_events s)).

Definition delete_reference (ref : positive) : ST Ets unit := modify (fun s =>
  match et_refs s !! ref with
  | Some o => if GlobalReference_Delete o then set_et_refs (delete ref (et_refs s)) s else s
  | None => s
  end).

(** A new observer with its owner.

    [taihe_preferences_observer.cpp:22-23] TaihePreferencesObserver *)
Definition EtsObserver_new (callback : EtsCallback) (ref : positive) : SO Ets positive := fun s =>
  let o := et_next s in
  let '(_, h) := own_observer o (et_hlp s) in
  Done (o, mkEts h (et_mode s) (et_proxies s) (et_next_proxy s) (<[o := mkEtsObserver callback ref]> (et_observers s)) (Pos.succ o) (et_refs s) (et_next_ref s) (et_events s)).

(** [taihe_preferences_observer.cpp:25-32] ~TaihePreferencesObserver *)
Definition EtsObserver_destroy (o : positive) : SO Ets unit :=
  s ← run_st get;
  (match et_observers s !! o with
   | Some x => if env then run_st (delete_reference (eo_ref x)) else mret tt
   | None => mret tt
   end);;
  run_st (modify (fun s => set_et_observers (delete o (et_observers s)) s));;
  ets_store (run_st (drop_observers [o])).

Fixpoint EtsObserver_destroy_all (l : list positive) : SO Ets unit :=
  match l with [] => mret tt | o :: l => EtsObserver_destroy o;; EtsObserver_destroy_all l end.

(** Whether an observer has the function that is referred to. *)
Definition refers_to (s : Ets) (callbackRef o : positive) : bool :=
  match et_refs s !! callbackRef, et_observers s !! o with
  | Some f, Some x => match et_refs s !! eo_ref x with Some g => Reference_StrictEquals f g | None => false end
  | _, _ => false
  end.

(** [preferences_proxy.cpp:177-189] HasRegisteredObserver *)
Definition Ets_HasRegisteredObserver (self callbackRef : positive) (mode : RegisterMode) : SO Ets bool :=
  p ← ets_proxy self;
  s ← run_st get;
  mret (existsb (refers_to s callbackRef) (listed_in mode p)).

(** The object, an environment and a reference to the function, or an error. *)
Definition with_reference (self : positive) (opq : ani_object) (k : positive -> positive -> SO Ets unit) : SO Ets unit :=
  with_preferences self tt (fun r _ =>
    if negb env then Ets_SetBusinessError (InnerError "Failed to get env.") else
    c ← CreateGlobalReference opq;
    match c with inl err => Ets_SetBusinessError err | inr callbackRef => k r callbackRef end).

(** A new observer for the function, unless one has it. *)
Definition register_new (self : positive) (mode : RegisterMode) (callback : EtsCallback) (callbackRef : positive) (register : positive -> SO Helper Z) : SO Ets unit :=
  has ← Ets_HasRegisteredObserver self callbackRef mode;
  if (has : bool) then run_st (delete_reference callbackRef) else
  observer ← EtsObserver_new callback callbackRef;
  errCode ← ets_store (register observer);
  if negb (errCode =? E_OK) then Ets_SetBusinessError (InnerCode errCode);; EtsObserver_destroy observer else
  p ← ets_proxy self;
  put_listed self mode (listed_in mode p ++ [observer]).

(** [preferences_proxy.cpp:201-236] RegisteredObserver *)
Definition Ets_RegisteredObserver (self : positive) (mode : RegisterMode) (callback : EtsCallback) (opq : ani_object) : SO Ets unit :=
  with_reference self opq (fun r callbackRef => register_new self mode callback callbackRef (fun o => obj_register r o mode)).

(** [preferences_proxy.cpp:238-273] RegisteredDataObserver *)
Definition Ets_RegisteredDataObserver (self : positive) (keys : list string) (callback : EtsCallback) (opq : ani_object) : SO Ets unit :=
  with_reference self opq (fun r callbackRef => register_new self DATA_CHANGE callback callbackRef (fun o => obj_register_data r o keys)).

(** [preferences_proxy.cpp:275-278] OnChange *)
Definition Ets_OnChange (self cb : positive) (opq : ani_object) : SO Ets unit := Ets_RegisteredObserver self LOCAL_CHANGE (StringCallback cb) opq.

(** [preferences_proxy.cpp:280-284] OnDataChange *)
Definition Ets_OnDataChange (self : positive) (keys : list string) (cb : positive) (opq : ani_object) : SO Ets unit :=
  Ets_RegisteredDataObserver self keys (MapCallback cb) opq.

(** [preferences_proxy.cpp:286-289] OnMultiProcessChange *)
Definition Ets_OnMultiProcessChange (self cb : positive) (opq : ani_object) : SO Ets unit :=
  Ets_RegisteredObserver self MULTI_PRECESS_CHANGE (StringCallback cb) opq.

Definition first_referring (s : Ets) (callbackRef : positive) (l : list positive) : option positive := head (filter (fun o => refers_to s callbackRef o = true) l).

Fixpoint without_first (o : positive) (l : list positive) : list positive :=
  match l with [] => [] | x :: l => if bool_decide (x = o) then l else x :: without_first o l end.

(** The first observer with the function; the reference that was made to find it
    stays. *)
Definition unregister_first (self callbackRef : positive) (mode : RegisterMode) (unregister : positive -> SO Helper Z) (accepts : Z -> bool) : SO Ets unit :=
  p ← ets_proxy self;
  s ← run_st get;
  match first_referring s callbackRef (listed_in mode p) with
  | None => mret tt
  | Some o =>
      errCode ← ets_store (unregister o);
      if negb (accepts errCode) then Ets_SetBusinessError (InnerCode errCode) else
      if errCode =? E_OK then put_listed self mode (without_first o (listed_in mode p));; EtsObserver_destroy o else mret tt
  end.

(** [preferences_proxy.cpp:291-326] UnRegisteredObserver *)
Definition Ets_UnRegisteredObserver (self : positive) (mode : RegisterMode) (opq : ani_object) : SO Ets unit :=
  with_reference self opq (fun r callbackRef => unregister_first self callbackRef mode (fun o => obj_unregister r o mode) (fun z => z =? E_OK)).

(** The last error of the observers. *)
Fixpoint unregister_every (r : positive) (mode : RegisterMode) (l : list positive) (errCode : Z) : SO Ets Z :=
  match l with
  | [] => mret errCode
  | o :: l =>
      result ← ets_store (obj_unregister r o mode);
      unregister_every r mode l (if result =? E_OK then errCode else result)
  end.

(** [preferences_proxy.cpp:328-352] UnRegisteredAllObservers *)
Definition Ets_UnRegisteredAllObservers (self : positive) (mode : RegisterMode) : SO Ets unit :=
  with_preferences self tt (fun r p =>
    errCode ← unregister_every r mode (listed_in mode p) E_OK;
    put_listed self mode [];;
    EtsObserver_destroy_all (listed_in mode p);;
    set_code errCode).

(** [preferences_proxy.cpp:354-362] OffChange *)
Definition Ets_OffChange (self : positive) (opq : option ani_object) : SO Ets unit :=
  match opq with Some f => Ets_UnRegisteredObserver self LOCAL_CHANGE f | None => Ets_UnRegisteredAllObservers self LOCAL_CHANGE end.

Definition accepts_reserve (z : Z) : bool := (z =? E_OK) || (z =? E_OBSERVER_RESERVE).

(** [preferences_proxy.cpp:364-401] UnRegisteredDataObserver *)
Definition Ets_UnRegisteredDataObserver (self : positive) (keys : list string) (opq : ani_object) : SO Ets unit :=
  with_reference self opq (fun r callbackRef => unregister_first self callbackRef DATA_CHANGE (fun o => obj_unregister_data r o keys) accepts_reserve).

(** An error ends the loop.

    [preferences_proxy.cpp:412-423] UnRegisteredAllDataObserver *)
Fixpoint unregister_data_loop (self r : positive) (keys : list string) (kept l : list positive) : SO Ets unit :=
  match l with
  | [] => mret tt
  | o :: l =>
      errCode ← ets_store (obj_unregister_data r o keys);
      if negb (accepts_reserve errCode) then Ets_SetBusinessError (InnerCode errCode) else
      if errCode =? E_OK then
        put_listed self DATA_CHANGE (kept ++ l);; EtsObserver_destroy o;; unregister_data_loop self r keys kept l
      else unregister_data_loop self r keys (kept ++ [o]) l
  end.

(** [preferences_proxy.cpp:403-426] UnRegisteredAllDataObserver *)
Definition Ets_UnRegisteredAllDataObserver (self : positive) (keys : list string) : SO Ets unit :=
  with_preferences self tt (fun r p => unregister_data_loop self r keys [] (ep_data p)).

(** [preferences_proxy.cpp:428-436] OffMultiProcessChange *)
Definition Ets_OffMultiProcessChange (self : positive) (opq : option ani_object) : SO Ets unit :=
  match opq with Some f => Ets_UnRegisteredObserver self MULTI_PRECESS_CHANGE f | None => Ets_UnRegisteredAllObservers self MULTI_PRECESS_CHANGE end.

(** [preferences_proxy.cpp:438-447] OffDataChange *)
Definition Ets_OffDataChange (self : positive) (keys : list string) (opq : option ani_object) : SO Ets unit :=
  match opq with Some f => Ets_UnRegisteredDataObserver self keys f | None => Ets_UnRegisteredAllDataObserver self keys end.

(** What is left of the observers goes with the proxy.

    [preferences_proxy.cpp:40-46] ~PreferencesProxy *)
Definition EtsProxy_destroy (self : positive) : SO Ets unit :=
  Ets_UnRegisteredAllObservers self LOCAL_CHANGE;;
  Ets_UnRegisteredAllObservers self MULTI_PRECESS_CHANGE;;
  Ets_UnRegisteredAllDataObserver self [];;
  p ← ets_proxy self;
  run_st (modify (fun s => set_et_proxies (delete self (et_proxies s)) s));;
  EtsObserver_destroy_all (ep_data p).

(** ** Notifications *)

(** [taihe_preferences_observer.cpp:34-41] OnChange *)
Definition EtsObserver_OnChange (o : positive) (key : string) : SO Ets unit :=
  s ← run_st get;
  match et_observers s !! o with
  | None => run_out Undef
  | Some x => match eo_callback x with StringCallback cb => ets_emit (CalledKey cb key) | MapCallback _ => mret tt end
  end.

Fixpoint set_errors (l : list JSError) : SO Ets unit := match l with [] => mret tt | e :: l => Ets_SetBusinessError e;; set_errors l end.

(** [taihe_preferences_observer.cpp:43-50] OnChange *)
Definition EtsObserver_OnChange_records (o : positive) (records : gmap string PreferencesValue) : SO Ets unit :=
  s ← run_st get;
  match et_observers s !! o with
  | None => run_out Undef
  | Some x =>
      match eo_callback x with
      | StringCallback _ => mret tt
      | MapCallback cb =>
          '(m, errors) ← run_out (ConvertMapToTaiheMap env records);
          set_errors errors;;
          ets_emit (CalledRecords cb m)
      end
  end.
End Ets.
