(* ===== verification/EtsClient.v ===== *)
(** * What a program sees of the interface for ArkTS

    Facts about [EtsValue] and [Ets]: values come back, calls are those of a map
    and set an error when they fail, and which entries of the store the interface
    cannot hand out. *)

From S2P Require Import Prelude Errno Value Utils NumText ConcurrentMap Env FileLock Store DbAdapter Base Impl Enhance Helper.
From S2P Require Import Handle NdkMem NdkValue JsValue Js JsClient EtsValue Ets.

(** ** Values *)

Section ets_values.
Context `{TaiheLaws} `{Ani} `{Securec}.
Context (env : bool).

Lemma mapM_getter {T} (mk : T -> ArrayValueType) (get : ArrayValueType -> outcome T) l :
  (forall x, get (mk x) = Done x) -> mapM get (map mk l) = Done l.
Proof. intros Hg. induction l as [|x l IH]; [done|]. cbn [map mapM]. rewrite Hg. cbn. by rewrite IH. Qed.

(** Elements of one type. *)
Definition uniform (l : list ArrayValueType) : Prop :=
  (exists vs, l = map AtLong vs) \/ (exists vs, l = map AtDouble vs) \/ (exists vs, l = map AtString vs) \/ (exists vs, l = map AtBoolean vs).

(** Values that come back: not objects, no arrays of several types and no
    number without words. *)
Definition plain (v : ValueType) : Prop :=
  match v with EtArray l => uniform l | EtBigint words => words <> [] | EtObject _ => False | _ => True end.

Lemma ConvertToArray_uniform l : uniform l -> exists w, ConvertToArray l = Done w /\ ConvertToValueType env w = Done (EtArray l, None).
Proof.
  destruct l as [|x l]; [by eexists|].
  intros [[vs E]|[[vs E]|[[vs E]|[vs E]]]]; rewrite E; destruct vs as [|y vs]; try discriminate E; cbn [map ConvertToArray]; unfold ConvertToArrayWithType.
  - change (AtLong y :: map AtLong vs) with (map AtLong (y :: vs)). rewrite (mapM_getter AtLong) by apply get_long. by eexists.
  - change (AtDouble y :: map AtDouble vs) with (map AtDouble (y :: vs)). rewrite (mapM_getter AtDouble) by apply get_double. by eexists.
  - change (AtString y :: map AtString vs) with (map AtString (y :: vs)). rewrite (mapM_getter AtString) by apply get_string. by eexists.
  - change (AtBoolean y :: map AtBoolean vs) with (map AtBoolean (y :: vs)). rewrite (mapM_getter AtBoolean) by apply get_boolean. by eexists.
Qed.

(** A value of the interface, other than an object, an array with elements
    of several types and a number without words, is converted for the store and
    converted back to itself, without an error. *)
Theorem ets_value_roundtrip (v : ValueType) (Hv : plain v) :
  exists w, ConvertToPreferencesValue env v = Done w /\ ConvertToValueType env w = Done (v, None).
Proof.
  destruct v; cbn [ConvertToPreferencesValue plain] in *; try done; try by eexists.
  - by apply ConvertToArray_uniform.
  - destruct (exists_last Hv) as (ws & w & ->). unfold ConvertToBigint, GetBigintSign. rewrite last_snoc. by eexists.
Qed.

(** The entries that cannot be handed out. *)
Definition unreadable (w : PreferencesValue) : bool := match w with VInt _ | VIntArray _ => true | _ => false end.

Lemma readable_converts w : unreadable w = false -> w <> VMonostate -> exists v e, ConvertToValueType env w = Done (v, e).
Proof. intros Hr Hm. destruct w; try done; try by eexists _, _. cbn. unfold ConvertFromObject. cbn. destruct (ObjectToANIObject env v); by eexists _, _. Qed.

Lemma unreadable_throws w : unreadable w = true \/ w = VMonostate -> ConvertToValueType env w = Prelude.Thrown.
Proof. intros [Hu| ->]; [|done]. by destruct w. Qed.

Lemma mapM_not_monostate {T} mk (get : ArrayValueType -> outcome T) l w : ConvertToArrayWithType mk get l = Done w -> exists vs, w = mk vs.
Proof. unfold ConvertToArrayWithType. destruct (mapM get l); cbn; [intros [= <-]; by eexists|done..]. Qed.

(** What a program puts can be handed out. *)
Lemma converted_readable v w : ConvertToPreferencesValue env v = Done w -> unreadable w = false.
Proof.
  destruct v as [| | | |l| |words|o]; cbn [ConvertToPreferencesValue]; try by intros [= <-].
  - destruct l as [|[] l]; cbn [ConvertToArray]; [by intros [= <-]|..]; by intros [vs ->]%mapM_not_monostate.
  - unfold ConvertToBigint. destruct (GetBigintSign words); [by intros [= <-]|done..].
  - intros [= <-]. unfold AniObjectToPreferencesValue. repeat case_match; done.
Qed.
End ets_values.

(** ** Calls *)

Section ets_calls.
Context `{XmlStore} `{SafeBlockQueue} `{KvDb} `{Iteration} `{TaiheLaws} `{Ani} `{Securec} `{!AniAbility}.
Context (RSIZE_MAX : Z) (gskvEnabled env : bool).

(** The proxy [self] is over the object [r], which is loaded. *)
Record ets_linked (s : Ets) (self r : positive) (px : EtsProxy) (p : PreferencesImpl) : Prop := {
  el_proxy : et_proxies s !! self = Some px;
  el_preferences : ep_preferences px = Some r;
  el_opened : opened (et_hlp s) r p
}.

Inductive ets_op :=
  | EGet (k : string) (d : ValueType)
  | EGetAll
  | EHas (k : string)
  | EPut (k : string) (v : ValueType)
  | EDelete (k : string)
  | EClear
  | EFlush.

Inductive ets_result := EtsV (v : ValueType) | EtsO (o : option ani_object) | EtsB (b : bool) | EtsNothing.

Definition ets_do (self : positive) (o : ets_op) : SO Ets ets_result :=
  match o with
  | EGet k d => v ← GetSync env self k d; mret (EtsV v)
  | EGetAll => x ← GetAllSync env self; mret (EtsO x)
  | EHas k => b ← HasSync self k; mret (EtsB b)
  | EPut k v => PutSync RSIZE_MAX env self k v;; mret EtsNothing
  | EDelete k => DeleteSync self k;; mret EtsNothing
  | EClear => ClearSync self;; mret EtsNothing
  | EFlush => Ets_FlushSync self;; mret EtsNothing
  end.

(** What a call asks of the map, or the error of its arguments. *)
Definition long_error : JSError := ParamTypeError "The key must be less than 1024 bytes.".

Definition with_key_of (k : string) (q : JSError + op) : JSError + op := if Ets_CheckKey k then q else inl long_error.

Definition ets_asks (o : ets_op) : option (JSError + op) :=
  match o with
  | EGet k _ => Some (with_key_of k (inr (OGet k VMonostate)))
  | EGetAll => Some (inr OGetAllDatas)
  | EHas k => Some (with_key_of k (inr (OHasKey k)))
  | EPut k v =>
      Some (with_key_of k match ConvertToPreferencesValue env v with
        | Done w =>
            if bool_decide (w = VMonostate) then inl (InnerError "Failed to parse value.")
            else if MAX_VALUE_LENGTH <? value_length v w then inl (ParamTypeError "The value must be less than 6*1024*1024 bytes.")
            else inr (OPut k w)
        | _ => inr OClear
        end)
  | EDelete k => Some (with_key_of k (inr (ODelete k)))
  | EClear => Some (inr OClear)
  | EFlush => None
  end.

Definition code_error (z : Z) : list JSError := if z =? E_OK then [] else [InnerCode z].

(** The result and the errors that are set. *)
Definition ets_refusal (o : ets_op) : ets_result := match o with EGet _ d => EtsV d | EHas _ => EtsB false | _ => EtsNothing end.

Definition ets_answer (o : ets_op) (rep : reply) : option (ets_result * list JSError) :=
  match o, rep with
  | EGet _ d, RValue VMonostate => Some (EtsV d, [])
  | EGet _ _, RValue w => match ConvertToValueType env w with Done (v, e) => Some (EtsV v, option_list e) | _ => None end
  | EGetAll, RMap w =>
      match PreferencesMapToObject env (iterate w) with
      | Some x => Some (EtsO (Some x), [])
      | None => Some (EtsO None, [InnerError "Failed to convert object."])
      end
  | EHas _, RBool b => Some (EtsB b, [])
  | _, RCode z => Some (EtsNothing, code_error z)
  | _, _ => None
  end.

Definition ets_agrees (o : ets_op) (m : gmap string PreferencesValue) (res : ets_result) (errs : list JSError) : Prop :=
  match ets_asks o with
  | None => res = EtsNothing /\ exists z, errs = code_error z
  | Some (inl e) => res = ets_refusal o /\ errs = [e]
  | Some (inr q) => exists rep, same_reply rep (spec q m).1 /\ ets_answer o rep = Some (res, errs)
  end.

Definition ets_map (o : ets_op) (m : gmap string PreferencesValue) : gmap string PreferencesValue :=
  match ets_asks o with Some (inr q) => (spec q m).2 | _ => m end.

(** Values that are put can be converted. *)
Definition ets_ok (o : ets_op) : Prop := match o with EPut _ v => exists w, ConvertToPreferencesValue env v = Done w | _ => True end.

(** Every entry can be handed out. *)
Definition readable (m : gmap string PreferencesValue) : Prop := map_Forall (fun _ w => unreadable w = false) m.

(** *** Steps *)

Definition push_errors (l : list JSError) (s : Ets) : Ets :=
  mkEts (et_hlp s) (et_mode s) (et_proxies s) (et_next_proxy s) (et_observers s) (et_next s) (et_refs s) (et_next_ref s) (et_events s ++ map BusinessError l).

(** The computation gives [res], the errors [errs] and the object [p']. *)
Definition ets_ends {A} (m : SO Ets A) (s : Ets) (self r : positive) (px : EtsProxy) (p' : PreferencesImpl) (res : A) (errs : list JSError) : Prop :=
  exists h, m s = Done (res, push_errors errs (set_et_hlp h s)) /\ opened h r p'.

Lemma ets_linked_after h errs s self r px p p' : ets_linked s self r px p -> opened h r p' -> ets_linked (push_errors errs (set_et_hlp h s)) self r px p'.
Proof. by intros [] Ho. Qed.

Lemma push_nothing s : push_errors [] s = s.
Proof. destruct s. unfold push_errors. cbn. by rewrite app_nil_r. Qed.

Lemma set_et_hlp_id s : set_et_hlp (et_hlp s) s = s.
Proof. by destruct s. Qed.

Lemma ets_store_done {A} (f : SO Helper A) a s h : f (et_hlp s) = Done (a, h) -> ets_store f s = Done (a, set_et_hlp h s).
Proof. intros E. unfold ets_store. by rewrite E. Qed.

Lemma ets_proxy_linked s self r px p : ets_linked s self r px p -> ets_proxy self s = Done (px, s).
Proof. intros [Hp _ _]. unfold ets_proxy. rewrite so_bind_st. cbn [get fst snd]. by rewrite Hp. Qed.

Lemma with_preferences_linked {A} s self r px p (none : A) k : ets_linked s self r px p -> with_preferences self none k s = k r px s.
Proof. intros Hl. unfold with_preferences. rewrite (so_bind_Done _ _ _ _ _ (ets_proxy_linked _ _ _ _ _ Hl)). by rewrite (el_preferences _ _ _ _ _ Hl). Qed.

Lemma ends_preferences {A} (none : A) k s self r px p p' res errs : ets_linked s self r px p -> ets_ends (k r px) s self r px p' res errs ->
  ets_ends (with_preferences self none k) s self r px p' res errs.
Proof. intros Hl (h & E & Ho). exists h. by rewrite (with_preferences_linked s self r px p). Qed.

Lemma ends_err {A} e (a : A) s self r px p : ets_linked s self r px p -> ets_ends (Ets_SetBusinessError e;; mret a) s self r px p a [e].
Proof. intros Hl. exists (et_hlp s). split; [by rewrite set_et_hlp_id|apply Hl]. Qed.

Lemma ends_ret {A} (a : A) s self r px p : ets_linked s self r px p -> ets_ends (mret a) s self r px p a [].
Proof. intros Hl. exists (et_hlp s). split; [by rewrite set_et_hlp_id, push_nothing|apply Hl]. Qed.

(** The rest of a computation that gave no error. *)
Lemma ends_bind {A B} (m : SO Ets A) (k : A -> SO Ets B) s self r px p1 a p' b errs :
  ets_ends m s self r px p1 a [] -> (forall h, opened h r p1 -> ets_ends (k a) (set_et_hlp h s) self r px p' b errs) ->
  ets_ends (m ≫= k) s self r px p' b errs.
Proof.
  intros (h & E & Ho) Hk. destruct (Hk h Ho) as (h' & E' & Ho'). exists h'. split; [|exact Ho'].
  rewrite push_nothing in E. by rewrite (so_bind_Done _ _ _ _ _ E).
Qed.

Lemma ends_map {A B} (m : SO Ets A) (f : A -> B) s self r px p' a errs : ets_ends m s self r px p' a errs -> ets_ends (x ← m; mret (f x)) s self r px p' (f a) errs.
Proof. intros (h & E & Ho). exists h. by rewrite (so_bind_Done _ _ _ _ _ E). Qed.

Lemma ends_code z s self r px p : ets_linked s self r px p -> ets_ends (set_code z) s self r px p tt (code_error z).
Proof. intros Hl. unfold set_code, code_error. destruct (z =? E_OK); [by apply ends_ret|by apply (ends_err _ tt)]. Qed.

Lemma ends_short {A} k (none : A) m s self r px p p' res errs : ets_linked s self r px p ->
  (if Ets_CheckKey k then ets_ends m s self r px p' res errs else p' = p /\ res = none /\ errs = [long_error]) ->
  ets_ends (with_short_key k none m) s self r px p' res errs.
Proof. intros Hl Hk. unfold with_short_key. destruct (Ets_CheckKey k); [done|]. destruct Hk as (-> & -> & ->). by apply ends_err. Qed.

Lemma ets_relinked h s self r px p p' : ets_linked s self r px p -> opened h r p' -> ets_linked (set_et_hlp h s) self r px p'.
Proof. by intros [] Ho. Qed.

(** A call on the object. *)
Lemma ends_call {A} (meth : ST PreferencesImpl A) (wrap : A -> reply) q me s self r px p m :
  exec q = (x ← meth; mret (wrap x)) -> ets_linked s self r px p -> same_map (view p) m ->
  exists a p', ets_ends (ets_store (virtual r meth me)) s self r px p' a [] /\ same_reply (wrap a) (spec q m).1 /\ same_map (view p') (spec q m).2.
Proof.
  intros He Hl Hm. destruct (virtual_same meth wrap q me _ _ _ _ He (el_opened _ _ _ _ _ Hl) Hm) as (a & h & p' & E & Ho & Ha & Hv).
  exists a, p'. split; [|done]. exists h. by rewrite (ets_store_done _ _ _ _ E), push_nothing.
Qed.

(** A call that answers a code. *)
Lemma ets_ends_coded (meth : ST PreferencesImpl Z) q me s self r px p m :
  exec q = (x ← meth; mret (RCode x)) -> ets_linked s self r px p -> same_map (view p) m ->
  exists z p', ets_ends (errCode ← ets_store (virtual r meth me); set_code errCode) s self r px p' tt (code_error z) /\
    same_reply (RCode z) (spec q m).1 /\ same_map (view p') (spec q m).2.
Proof.
  intros He Hl Hm. destruct (ends_call meth RCode q me s self r px p m He Hl Hm) as (z & p' & E & Hz & Hv).
  exists z, p'. split; [|done]. apply (ends_bind _ _ _ _ _ _ _ _ _ _ _ E). intros h Ho. apply ends_code. by apply (ets_relinked h s self r px p).
Qed.

Lemma unreadable_same a b : value_same a b -> unreadable a = unreadable b.
Proof. intros [->|E]; [done|]. by destruct a, b. Qed.

(** *** Simulation *)

Lemma ets_agrees_short o k (q : op) m res errs : ets_asks o = Some (with_key_of k (inr q)) -> Ets_CheckKey k = true ->
  (exists rep, same_reply rep (spec q m).1 /\ ets_answer o rep = Some (res, errs)) -> ets_agrees o m res errs.
Proof. intros Ha Hk. unfold ets_agrees. rewrite Ha. unfold with_key_of. by rewrite Hk. Qed.

Lemma ets_map_short o k (q : op) m : ets_asks o = Some (with_key_of k (inr q)) -> Ets_CheckKey k = true -> ets_map o m = (spec q m).2.
Proof. intros Ha Hk. unfold ets_map. rewrite Ha. unfold with_key_of. by rewrite Hk. Qed.

(** A key that is too long. *)
Lemma ets_long o k (q : JSError + op) s self r px p m : ets_linked s self r px p -> same_map (view p) m ->
  ets_asks o = Some (with_key_of k q) -> Ets_CheckKey k = false -> ets_ends (ets_do self o) s self r px p (ets_refusal o) [long_error] ->
  exists res errs p', ets_ends (ets_do self o) s self r px p' res errs /\ ets_agrees o m res errs /\ same_map (view p') (ets_map o m).
Proof.
  intros Hl Hm Ha Hk E. exists (ets_refusal o), [long_error], p. split; [exact E|]. unfold ets_agrees, ets_map. rewrite Ha. unfold with_key_of. by rewrite Hk.
Qed.

(** A key that is not. *)
Lemma ets_short o k (q : op) s self r px m res errs p' :
  ets_asks o = Some (with_key_of k (inr q)) -> Ets_CheckKey k = true -> ets_ends (ets_do self o) s self r px p' res errs ->
  (exists rep, same_reply rep (spec q m).1 /\ ets_answer o rep = Some (res, errs)) -> same_map (view p') (spec q m).2 ->
  exists res errs p', ets_ends (ets_do self o) s self r px p' res errs /\ ets_agrees o m res errs /\ same_map (view p') (ets_map o m).
Proof.
  intros Ha Hk E Hrep Hv. exists res, errs, p'. split; [exact E|]. rewrite (ets_map_short o k q m Ha Hk). split; [|exact Hv].
  by apply (ets_agrees_short o k q).
Qed.

Lemma ets_get_sim k d s self r px p m : ets_linked s self r px p -> same_map (view p) m -> readable m ->
  exists res errs p', ets_ends (ets_do self (EGet k d)) s self r px p' res errs /\ ets_agrees (EGet k d) m res errs /\ same_map (view p') (ets_map (EGet k d) m).
Proof.
  intros Hl Hm Hr. destruct (Ets_CheckKey k) eqn:Hk.
  - destruct (ends_call (Get k VMonostate) RValue (OGet k VMonostate) (Enh_Get k VMonostate) s self r px p m eq_refl Hl Hm) as (w & p' & E & Hw & Hv).
    cbn [spec fst same_reply] in Hw. set (w0 := if CheckKey k =? E_OK then default VMonostate (m !! k) else VMonostate) in Hw.
    assert (Hrw : unreadable w = false).
    { rewrite (unreadable_same _ _ Hw). unfold w0. destruct (CheckKey k =? E_OK); [|done]. destruct (m !! k) as [x|] eqn:Ex; [|done]. exact (Hr k x Ex). }
    assert (Hrest : exists v errs, ets_answer (EGet k d) (RValue w) = Some (EtsV v, errs) /\
      forall h, opened h r p' -> ets_ends (match w with
        | VMonostate => mret d
        | _ => '(v, err) ← run_out (ConvertToValueType env w); match err with Some e => Ets_SetBusinessError e;; mret v | None => mret v end
        end) (set_et_hlp h s) self r px p' v errs).
    { destruct (decide (w = VMonostate)) as [->|Hne].
      { exists d, []. split; [done|]. intros h Ho. apply ends_ret. by apply (ets_relinked h s self r px p). }
      destruct (readable_converts env w Hrw Hne) as (v & e & Ec). exists v, (option_list e). split; [cbn; rewrite Ec; by destruct w|].
      intros h Ho. assert (Hl' : ets_linked (set_et_hlp h s) self r px p') by by apply (ets_relinked h s self r px p).
      rewrite Ec. destruct e as [e|].
      - destruct (ends_err e v _ _ _ _ _ Hl') as (h' & E' & Ho'). exists h'. split; [|exact Ho']. destruct w; done || exact E'.
      - destruct (ends_ret v _ _ _ _ _ Hl') as (h' & E' & Ho'). exists h'. split; [|exact Ho']. destruct w; done || exact E'. }
    destruct Hrest as (v & errs & Hans & Hrest).
    apply (ets_short (EGet k d) k (OGet k VMonostate) s self r px m (EtsV v) errs p'); [done|done| |by exists (RValue w)|exact Hv].
    cbn [ets_do]. apply (ends_map _ EtsV). unfold GetSync. apply (ends_preferences _ _ _ _ _ _ p); [done|].
    apply (ends_short _ _ _ _ _ _ _ p); [done|]. rewrite Hk. exact (ends_bind _ _ _ _ _ _ _ _ _ _ _ E Hrest).
  - apply (ets_long (EGet k d) k (inr (OGet k VMonostate)) s self r px p m); try done. cbn [ets_do ets_refusal]. apply (ends_map _ EtsV). unfold GetSync.
    apply (ends_preferences _ _ _ _ _ _ p); [done|]. apply (ends_short _ _ _ _ _ _ _ p); [done|]. by rewrite Hk.
Qed.

Lemma ets_put_sim k v s self r px p m : ets_linked s self r px p -> same_map (view p) m -> ets_ok (EPut k v) ->
  exists res errs p', ets_ends (ets_do self (EPut k v)) s self r px p' res errs /\ ets_agrees (EPut k v) m res errs /\ same_map (view p') (ets_map (EPut k v) m).
Proof.
  intros Hl Hm [w Ew].
  assert (Hput : forall p' errs, (if Ets_CheckKey k then ets_ends (if bool_decide (w = VMonostate) then Ets_SetBusinessError (InnerError "Failed to parse value.") else
      if MAX_VALUE_LENGTH <? value_length v w then Ets_SetBusinessError (ParamTypeError "The value must be less than 6*1024*1024 bytes.") else
      errCode ← ets_store (obj_put RSIZE_MAX r k w); set_code errCode) s self r px p' tt errs else p' = p /\ errs = [long_error]) ->
    ets_ends (ets_do self (EPut k v)) s self r px p' EtsNothing errs).
  { intros p' errs Hend. cbn [ets_do]. apply (ends_map (PutSync RSIZE_MAX env self k v) (fun _ => EtsNothing) _ _ _ _ _ tt). unfold PutSync.
    apply (ends_preferences _ _ _ _ _ _ p); [done|]. apply (ends_short _ _ _ _ _ _ _ p); [done|].
    destruct (Ets_CheckKey k); [|by destruct Hend as [-> ->]]. destruct Hend as (h & E & Ho). exists h. split; [|exact Ho]. by rewrite Ew. }
  unfold ets_agrees, ets_map. cbn [ets_asks]. rewrite Ew. unfold with_key_of. destruct (Ets_CheckKey k).
  - destruct (bool_decide (w = VMonostate)).
    { exists EtsNothing, [InnerError "Failed to parse value."], p. split; [|done]. apply Hput. by apply (ends_err _ tt). }
    destruct (MAX_VALUE_LENGTH <? value_length v w).
    { exists EtsNothing, [ParamTypeError "The value must be less than 6*1024*1024 bytes."], p. split; [|done]. apply Hput. by apply (ends_err _ tt). }
    destruct (ets_ends_coded (Put k w) (OPut k w) (Enh_Put RSIZE_MAX k w) s self r px p m eq_refl Hl Hm) as (z & p' & E & Hz & Hv).
    exists EtsNothing, (code_error z), p'. split; [by apply Hput|]. split; [by exists (RCode z)|exact Hv].
  - exists EtsNothing, [long_error], p. split; [by apply Hput|done].
Qed.

Lemma ets_getall_sim s self r px p m : ets_linked s self r px p -> same_map (view p) m ->
  exists res errs p', ets_ends (ets_do self EGetAll) s self r px p' res errs /\ ets_agrees EGetAll m res errs /\ same_map (view p') (ets_map EGetAll m).
Proof.
  intros Hl Hm. destruct (ends_call GetAllDatas RMap OGetAllDatas Enh_GetAllDatas s self r px p m eq_refl Hl Hm) as (w & p' & E & Hw & Hv).
  assert (Hrest : exists x errs, ets_answer EGetAll (RMap w) = Some (EtsO x, errs) /\
    forall h, opened h r p' -> ets_ends (match PreferencesMapToObject env (iterate w) with
      | None => Ets_SetBusinessError (InnerError "Failed to convert object.");; mret None
      | Some mapObj => mret (Some mapObj)
      end) (set_et_hlp h s) self r px p' x errs).
  { cbn [ets_answer]. destruct (PreferencesMapToObject env (iterate w)) as [x|]; eexists _, _; (split; [reflexivity|]); intros h Ho;
      [apply ends_ret|apply ends_err]; by apply (ets_relinked h s self r px p). }
  destruct Hrest as (x & errs & Hans & Hrest). exists (EtsO x), errs, p'. split; [|split; [by exists (RMap w)|exact Hv]].
  cbn [ets_do]. apply (ends_map _ EtsO). unfold GetAllSync. apply (ends_preferences _ _ _ _ _ _ p); [done|].
  exact (ends_bind _ _ _ _ _ _ _ _ _ _ _ E Hrest).
Qed.

Lemma ets_do_sim o s self r px p m : ets_linked s self r px p -> same_map (view p) m -> readable m -> ets_ok o ->
  exists res errs p', ets_ends (ets_do self o) s self r px p' res errs /\ ets_agrees o m res errs /\ same_map (view p') (ets_map o m).
Proof.
  intros Hl Hm Hr Hok. destruct o as [k d| |k|k v|k| |]; [by apply (ets_get_sim _ _ _ _ _ _ p)|by apply (ets_getall_sim _ _ _ _ p)| |by apply (ets_put_sim _ _ _ _ _ _ p)|..].
  - destruct (Ets_CheckKey k) eqn:Hk.
    + destruct (ends_call (HasKey k) RBool (OHasKey k) (Enh_HasKey k) s self r px p m eq_refl Hl Hm) as (b & p' & E & Hb & Hv).
      apply (ets_short (EHas k) k (OHasKey k) s self r px m (EtsB b) [] p'); [done|done| |by exists (RBool b)|exact Hv].
      cbn [ets_do]. apply (ends_map _ EtsB). unfold HasSync. apply (ends_preferences _ _ _ _ _ _ p); [done|].
      apply (ends_short _ _ _ _ _ _ _ p); [done|]. by rewrite Hk.
    + apply (ets_long (EHas k) k (inr (OHasKey k)) s self r px p m); try done. cbn [ets_do ets_refusal]. apply (ends_map _ EtsB). unfold HasSync.
      apply (ends_preferences _ _ _ _ _ _ p); [done|]. apply (ends_short _ _ _ _ _ _ _ p); [done|]. by rewrite Hk.
  - destruct (Ets_CheckKey k) eqn:Hk.
    + destruct (ets_ends_coded (Impl.Delete k) (ODelete k) (Enh_Delete k) s self r px p m eq_refl Hl Hm) as (z & p' & E & Hz & Hv).
      apply (ets_short (EDelete k) k (ODelete k) s self r px m EtsNothing (code_error z) p'); [done|done| |by exists (RCode z)|exact Hv].
      cbn [ets_do]. apply (ends_map (DeleteSync self k) (fun _ => EtsNothing) _ _ _ _ _ tt). unfold DeleteSync. apply (ends_preferences _ _ _ _ _ _ p); [done|].
      apply (ends_short _ _ _ _ _ _ _ p); [done|]. by rewrite Hk.
    + apply (ets_long (EDelete k) k (inr (ODelete k)) s self r px p m); try done. cbn [ets_do ets_refusal].
      apply (ends_map (DeleteSync self k) (fun _ => EtsNothing) _ _ _ _ _ tt). unfold DeleteSync.
      apply (ends_preferences _ _ _ _ _ _ p); [done|]. apply (ends_short _ _ _ _ _ _ _ p); [done|]. by rewrite Hk.
  - destruct (ets_ends_coded Impl.Clear OClear Enh_Clear s self r px p m eq_refl Hl Hm) as (z & p' & E & Hz & Hv).
    exists EtsNothing, (code_error z), p'. split; [|split; [by exists (RCode z)|exact Hv]].
    cbn [ets_do]. apply (ends_map (ClearSync self) (fun _ => EtsNothing) _ _ _ _ _ tt). unfold ClearSync. by apply (ends_preferences _ _ _ _ _ _ p).
  - destruct (virtual_flush (run_st (e_on_base Base_FlushSync)) _ _ _ (el_opened _ _ _ _ _ Hl)) as (z & h & p' & E & Ho & Hv).
    exists EtsNothing, (code_error z), p'. split; [|split; [by split; [|exists z]|]]; [|unfold ets_map; cbn [ets_asks]; by rewrite Hv].
    cbn [ets_do]. apply (ends_map (Ets_FlushSync self) (fun _ => EtsNothing) _ _ _ _ _ tt). unfold Ets_FlushSync. apply (ends_preferences _ _ _ _ _ _ p); [done|].
    apply (ends_bind _ _ _ _ _ _ p' z); [exists h; by rewrite (ets_store_done (obj_flushsync r) _ _ _ E), push_nothing|].
    intros h' Ho'. apply ends_code. by apply (ets_relinked h' s self r px p).
Qed.

Lemma ets_map_readable o m : ets_ok o -> readable m -> readable (ets_map o m).
Proof.
  intros Hok Hr. unfold ets_map. destruct o as [k d| |k|k v|k| |]; cbn [ets_asks]; try done; unfold with_key_of; try (by destruct (Ets_CheckKey k)).
  - destruct Hok as [w Ew]. rewrite Ew. destruct (Ets_CheckKey k); [|done]. destruct (bool_decide _); [done|]. destruct (_ <? _); [done|].
    cbn [spec]. destruct (negb _); [done|]. destruct (negb _); [done|]. apply map_Forall_insert_2; [|done]. by apply (converted_readable env v).
  - destruct (Ets_CheckKey k); [|done]. cbn [spec]. destruct (negb _); [done|]. by apply map_Forall_delete.
Qed.

Fixpoint ets_run (self : positive) (ops : list ets_op) : SO Ets (list ets_result) :=
  match ops with
  | [] => mret []
  | o :: ops => r ← ets_do self o; rs ← ets_run self ops; mret (r :: rs)
  end.

(** The results and, call by call, the errors. *)
Fixpoint ets_agree_all (ops : list ets_op) (m : gmap string PreferencesValue) (rs : list ets_result) (errs : list (list JSError)) : Prop :=
  match ops, rs, errs with
  | [], [], [] => True
  | o :: ops, r :: rs, e :: errs => ets_agrees o m r e /\ ets_agree_all ops (ets_map o m) rs errs
  | _, _, _ => False
  end.

(** C27: through a proxy over a loaded object whose entries have types that the
    interface has, any sequence of the calls get, getAll, has, put, delete,
    clear and flush, whose values can be converted, answers as the calls do on a
    map: get answers the entry converted, getAll the object made of all entries,
    each with the error that the conversion sets; a call that fails sets the
    error of the check or of the code that the map answers, and answers the
    default, null, [false] or nothing. A flush keeps the map and answers
    nothing; which code it gets is left open here, and it sets the error of that
    code unless it is [E_OK]. *)
Theorem ets_refines_map (self : positive) (ops : list ets_op) (s : Ets) (r : positive) (px : EtsProxy) (p : PreferencesImpl)
    (m : gmap string PreferencesValue)
    (Hl : ets_linked s self r px p) (Hm : same_map (view p) m) (Hr : readable m) (Hok : Forall ets_ok ops) :
  exists rs errs s' p', ets_run self ops s = Done (rs, s') /\ ets_linked s' self r px p' /\ ets_agree_all ops m rs errs /\
    same_map (view p') (foldl (fun m o => ets_map o m) m ops) /\ et_events s' = et_events s ++ map BusinessError (concat errs).
Proof.
  revert s p m Hl Hm Hr. induction Hok as [|o ops Ho Hok IH]; intros s p m Hl Hm Hr.
  { exists [], [], s, p. by rewrite app_nil_r. }
  destruct (ets_do_sim o s self r px p m Hl Hm Hr Ho) as (res & es & p1 & (h & E & Hop) & Ha & Hm1).
  destruct (IH _ p1 _ (ets_linked_after h es _ _ _ _ _ _ Hl Hop) Hm1 (ets_map_readable o m Ho Hr)) as (rs & errs & s' & p' & E' & Hl' & Hrs & Hm' & Hev).
  exists (res :: rs), (es :: errs), s', p'. split; [cbn [ets_run]; by rewrite (so_bind_Done _ _ _ _ _ E), (so_bind_Done _ _ _ _ _ E')|].
  split; [exact Hl'|]. split; [done|]. split; [exact Hm'|]. rewrite Hev. cbn [concat push_errors et_events]. by rewrite map_app, app_assoc.
Qed.
End ets_calls.

(** ** What cannot be handed out *)

Section ets_unreadable.
Context `{XmlStore} `{SafeBlockQueue} `{KvDb} `{Iteration} `{TaiheLaws} `{Ani} `{Securec} `{!AniAbility}.
Context (env : bool).

Lemma set_entries_unreadable setter o l k w : (k, w) ∈ l -> PreferencesValueToObject env w = None -> set_entries env setter o l = None.
Proof.
  intros Hin Hw. revert o. induction l as [|[k' w'] l IH]; intros o; [by apply elem_of_nil in Hin|]. cbn [set_entries].
  apply elem_of_cons in Hin as [[= -> ->]|Hin]; [by rewrite Hw|].
  destruct (PreferencesValueToObject env w'); [|done]. cbn. destruct (Object_CallMethod_Void _ _ _ _); [|done]. by apply IH.
Qed.

Lemma PreferencesMapToObject_unreadable l k w : (k, w) ∈ l -> PreferencesValueToObject env w = None -> PreferencesMapToObject env l = None.
Proof.
  intros Hin Hw. unfold PreferencesMapToObject. destruct (negb env); [done|]. do 4 (match goal with |- (?m ≫= _) = None => destruct m; [cbn|done] end).
  by apply (set_entries_unreadable _ _ _ k w).
Qed.

Lemma unreadable_object w : unreadable w = true -> PreferencesValueToObject env w = None.
Proof. unfold PreferencesValueToObject. destruct (negb env); by destruct w. Qed.

(** One entry with an [int] or an array of [int]s, which the other
    interfaces store, makes the interface useless for the whole store: [getSync]
    of its key ends with an exception of C++ that nothing catches, and
    [getAllSync] gives nothing but an error. *)
Theorem native_int_is_fatal (self r : positive) (s : Ets) (px : EtsProxy) (p : PreferencesImpl) (k : string) (w : PreferencesValue) (d : ValueType)
    (Hl : ets_linked s self r px p) (Hk : CheckKey k = E_OK) (Hw : view p !! k = Some w) (Hu : unreadable w = true) :
  GetSync env self k d s = Prelude.Thrown /\
  (exists s', GetAllSync env self s = Done (None, s') /\ et_events s' = et_events s ++ [BusinessError (InnerError "Failed to convert object.")]).
Proof.
  assert (Hshort : Ets_CheckKey k = true).
  { unfold Ets_CheckKey. unfold CheckKey in Hk. destruct (slen k =? 0); [done|]. destruct (MAX_KEY_LENGTH <? slen k) eqn:E; [done|].
    apply Z.leb_le. by apply Z.ltb_ge in E. }
  split.
  - destruct (virtual_opened (Get k VMonostate) RValue (OGet k VMonostate) (Enh_Get k VMonostate) _ _ _ eq_refl (el_opened _ _ _ _ _ Hl)) as (a & h & p' & E & _ & Ha & _).
    cbn [spec fst] in Ha. rewrite Hk, Hw in Ha. injection Ha as ->. change (default VMonostate (Some w)) with w in E.
    unfold GetSync. rewrite (with_preferences_linked s self r px p) by done. unfold with_short_key. rewrite Hshort. cbn [negb].
    rewrite (so_bind_Done _ _ _ _ _ (ets_store_done (obj_get r k PreferencesValue_default) _ _ _ E)).
    unfold mbind, so_bind, run_out. rewrite (unreadable_throws env w) by by left. by destruct w.
  - destruct (virtual_opened GetAllDatas RMap OGetAllDatas Enh_GetAllDatas _ _ _ eq_refl (el_opened _ _ _ _ _ Hl)) as (a & h & p' & E & _ & Ha & _).
    cbn [spec fst] in Ha. injection Ha as ->. unfold GetAllSync. rewrite (with_preferences_linked s self r px p) by done.
    rewrite (so_bind_Done _ _ _ _ _ (ets_store_done (obj_getalldatas r) _ _ _ E)).
    rewrite (PreferencesMapToObject_unreadable _ k w); [by eexists| |by apply unreadable_object].
    rewrite iterate_perm. by apply elem_of_map_to_list.
Qed.

(** *** Notifications *)

Lemma ConvertToValueType_cases w : ConvertToValueType env w = Prelude.Thrown \/ exists r, ConvertToValueType env w = Done r.
Proof.
  destruct (unreadable w) eqn:Hu; [left; apply unreadable_throws; by left|].
  destruct (decide (w = VMonostate)) as [->|Hm]; [by left|]. right. destruct (readable_converts env w Hu Hm) as (v & e & E). by exists (v, e).
Qed.

Lemma convert_records_throws l k result errors : (k, VMonostate) ∈ l -> convert_records env l result errors = Prelude.Thrown.
Proof.
  revert result errors. induction l as [|[k' w] l IH]; intros result errors Hin; [by apply elem_of_nil in Hin|]. cbn [convert_records].
  destruct (ConvertToValueType_cases w) as [->|[[v e] E]]; [done|]. rewrite E. cbn.
  apply IH. apply elem_of_cons in Hin as [[= -> <-]|Hin]; [done|exact Hin].
Qed.

Lemma elem_of_in_order (m : gmap string PreferencesValue) k w : m !! k = Some w -> (k, w) ∈ in_order m.
Proof. intros Hk. unfold in_order. rewrite iteration_perm. by apply elem_of_map_to_list. Qed.

(** When a key that an observer of data watches was deleted, the record of
    the change holds no value, and the notification ends with an exception of
    C++: the callback is not called. *)
Theorem deleted_key_is_fatal (o cb ref : positive) (s : Ets) (keys keysModified : gset string) (written : gmap string PreferencesValue) (k : string)
    (Ho : et_observers s !! o = Some (mkEtsObserver (MapCallback cb) ref)) (Hk : k ∈ keys) (Hm : k ∈ keysModified) (Hd : written !! k = None) :
  EtsObserver_OnChange_records env o (change_records keys keysModified written) s = Prelude.Thrown.
Proof.
  unfold EtsObserver_OnChange_records. rewrite so_bind_st. cbn [get fst snd]. rewrite Ho. cbn [eo_callback].
  unfold mbind, so_bind, run_out, ConvertMapToTaiheMap. rewrite (convert_records_throws _ k); [done|]. apply elem_of_in_order.
  rewrite change_records_lookup, Hd. by rewrite decide_True by set_solver.
Qed.
End ets_unreadable.

(** ** Observers *)

Section ets_observers.
Context `{XmlStore} `{SafeBlockQueue} `{KvDb} `{Iteration} `{TaiheLaws} `{Ani} `{Securec} `{!AniAbility}.

(** An observer whose function is not [f]. *)
Definition has_other (s : Ets) (f : ani_object) (x : positive) : Prop :=
  exists y g, et_observers s !! x = Some y /\ et_refs s !! eo_ref y = Some g /\ Reference_StrictEquals f g = false.

Definition ets_alive (s : Ets) : gset positive := alive (svc (h_env (et_hlp s))).

Lemma others_refer s f ref x : et_refs s !! ref = Some f -> has_other s f x -> refers_to s ref x = false.
Proof. intros Hf (y & g & Hy & Hg & He). unfold refers_to. by rewrite Hf, Hy, Hg. Qed.

Lemma nobody_refers s f ref l : et_refs s !! ref = Some f -> (forall x, x ∈ l -> has_other s f x) -> existsb (refers_to s ref) l = false.
Proof.
  intros Hf Hl. induction l as [|x l IH]; [done|]. cbn [existsb]. rewrite (others_refer s f ref x Hf) by (apply Hl; by left).
  apply IH. intros y Hy. apply Hl. by right.
Qed.

Lemma last_refers s f ref l o : et_refs s !! ref = Some f -> (forall x, x ∈ l -> has_other s f x) -> refers_to s ref o = true ->
  first_referring s ref (l ++ [o]) = Some o.
Proof.
  intros Hf Hl Ho. unfold first_referring. rewrite filter_app. assert (filter (fun x => refers_to s ref x = true) l = []) as ->.
  { clear Ho. induction l as [|x l IH]; [done|]. rewrite filter_cons_False.
    - apply IH. intros y Hy. apply Hl. by right.
    - rewrite (others_refer s f ref x Hf); [done|apply Hl; by left]. }
  cbn. by rewrite decide_True.
Qed.

Lemma without_last o l : (o ∉ l) -> without_first o (l ++ [o]) = l.
Proof.
  intros Ho. induction l as [|x l IH]; cbn; [by rewrite bool_decide_true|].
  rewrite bool_decide_false by (intros ->; apply Ho; by left). f_equal. apply IH. intros Hin. apply Ho. by right.
Qed.

Lemma put_list_back px l : put_list LOCAL_CHANGE (ep_local px) (put_list LOCAL_CHANGE l px) = px.
Proof. by destruct px. Qed.

(** A method of the base on the object of a proxy, under its lock. *)
Lemma ets_locked nm (f : ST Base Z) me s self r px p z b' : ets_linked s self r px p ->
  (forall e', Impl.quiet (h_env (et_hlp s)) e' -> f (set_env e' (base_ p)) = (z, b' e')) ->
  exists e' h, Impl.quiet (h_env (et_hlp s)) e' /\
    ets_store (virtual r (_ ← (v_IsClose nm : ST PreferencesImpl bool); zoom_base f) me) s = Done (z, set_et_hlp h s) /\
    h_env h = env (b' e') /\ ets_linked (set_et_hlp h s) self r px (upd_base (b' e') p).
Proof.
  intros [Hp Hr Ho] Hz. destruct (locked_opened nm f me _ _ _ Ho) as (e' & Hq & E). rewrite (Hz e' Hq) in E. cbn [fst snd] in E.
  eexists e', _. split; [done|]. split; [exact (ets_store_done _ _ s _ E)|]. split; [done|]. split; [done|done|].
  split; [cbn; apply lookup_insert_eq|apply Ho].
Qed.

Lemma put_listed_linked s self r px p mode l : ets_linked s self r px p ->
  put_listed self mode l s = Done (tt, set_et_proxies (<[self := put_list mode l px]> (et_proxies s)) s) /\
  ets_linked (set_et_proxies (<[self := put_list mode l px]> (et_proxies s)) s) self r (put_list mode l px) p.
Proof.
  intros Hl. split.
  - unfold put_listed. by rewrite (so_bind_Done _ _ _ _ _ (ets_proxy_linked _ _ _ _ _ Hl)).
  - destruct Hl as [Hp Hr Ho]. split; [apply lookup_insert_eq|by destruct mode|done].
Qed.

(** The state with the reference [ref] to [f], and with an observer. *)
Definition with_ref (f : ani_object) (s : Ets) : Ets :=
  mkEts (et_hlp s) (et_mode s) (et_proxies s) (et_next_proxy s) (et_observers s) (et_next s) (<[et_next_ref s := f]> (et_refs s)) (Pos.succ (et_next_ref s)) (et_events s).

Definition with_observer (callback : EtsCallback) (ref : positive) (s : Ets) : Ets :=
  mkEts (own_observer (et_next s) (et_hlp s)).2 (et_mode s) (et_proxies s) (et_next_proxy s) (<[et_next s := mkEtsObserver callback ref]> (et_observers s))
    (Pos.succ (et_next s)) (et_refs s) (et_next_ref s) (et_events s).

Lemma with_ref_linked f s self r px p : ets_linked s self r px p -> ets_linked (with_ref f s) self r px p.
Proof. by intros []. Qed.

Lemma ets_with_observer_linked cb ref s self r px p : ets_linked s self r px p -> ets_linked (with_observer cb ref s) self r px p.
Proof. intros [Hp Hr Ho]. split; [done..|]. by apply opened_alive. Qed.

Lemma with_ref_other f s x : et_refs s !! et_next_ref s = None -> has_other s f x -> has_other (with_ref f s) f x.
Proof.
  intros Hn (y & g & Hy & Hg & He). exists y, g. split_and!; [done| |done]. cbn. rewrite lookup_insert_ne; [done|]. intros E. congruence.
Qed.

Lemma with_reference_done s self r px p f k : ets_linked s self r px p -> GlobalReference_Create f = true ->
  with_reference true self f k s = k r (et_next_ref s) (with_ref f s).
Proof.
  intros Hl Hc. unfold with_reference. rewrite (with_preferences_linked s self r px p) by done. cbn [negb].
  rewrite (so_bind_Done _ _ _ (inr (et_next_ref s)) (with_ref f s)); [done|]. unfold CreateGlobalReference. by rewrite Hc.
Qed.

(** What [onChange] leaves. *)
Record watched (s s1 : Ets) (self r : positive) (px : EtsProxy) (p : PreferencesImpl) (f : ani_object) (cb : positive) (p1 : PreferencesImpl) : Prop := {
  wt_linked : ets_linked s1 self r (put_list LOCAL_CHANGE (ep_local px ++ [et_next s]) px) p1;
  wt_object : localObservers_ (base_ p1) = localObservers_ (base_ p) ++ [Some (et_next s)];
  wt_alive : ets_alive s1 = {[et_next s]} ∪ ets_alive s;
  wt_observers : et_observers s1 = <[et_next s := mkEtsObserver (StringCallback cb) (et_next_ref s)]> (et_observers s);
  wt_refs : et_refs s1 = <[et_next_ref s := f]> (et_refs s);
  wt_next_ref : et_next_ref s1 = Pos.succ (et_next_ref s);
  wt_events : et_events s1 = et_events s
}.

Lemma ets_on s self r px p f cb : ets_linked s self r px p -> GlobalReference_Create f = true -> et_refs s !! et_next_ref s = None ->
  (forall x, x ∈ ep_local px -> has_other s f x) ->
  exists s1 p1, Ets_OnChange true self cb f s = Done (tt, s1) /\ watched s s1 self r px p f cb p1.
Proof.
  intros Hl Hc Hfresh Hnone. set (o := et_next s). set (ref := et_next_ref s). set (sA := with_ref f s).
  set (sB := with_observer (StringCallback cb) ref sA).
  assert (HlB : ets_linked sB self r px p) by by apply ets_with_observer_linked, with_ref_linked.
  destruct (ets_locked "RegisterObserver" (RegisterObserver_locked (Some o) LOCAL_CHANGE) (run_st (e_on_base (RegisterObserver (Some o) LOCAL_CHANGE)))
    sB self r px p E_OK (fun e' => set_localObservers (localObservers_ (base_ p) ++ [Some o]) (set_env e' (base_ p))) HlB ltac:(done))
    as (e' & h & [_ Hq] & E & Henv & Hl').
  destruct (put_listed_linked _ _ _ _ _ LOCAL_CHANGE (ep_local px ++ [o]) Hl') as [E2 Hl2].
  eexists _, _. split.
  - unfold Ets_OnChange, Ets_RegisteredObserver. rewrite (with_reference_done s self r px p) by done. unfold register_new.
    assert (Ehas : Ets_HasRegisteredObserver self ref LOCAL_CHANGE sA = Done (false, sA)).
    { unfold Ets_HasRegisteredObserver. rewrite (so_bind_Done _ _ _ _ _ (ets_proxy_linked _ _ _ _ _ (with_ref_linked f _ _ _ _ _ Hl))), so_bind_st. cbn [get fst snd listed_in].
      rewrite (nobody_refers _ f); [done|apply lookup_insert_eq|]. intros x Hx. by apply with_ref_other, Hnone. }
    rewrite (so_bind_Done _ _ _ _ _ Ehas). rewrite (so_bind_Done (EtsObserver_new (StringCallback cb) ref) _ sA o sB) by done.
    rewrite (so_bind_Done (ets_store (obj_register r o LOCAL_CHANGE)) _ _ _ _ E). cbn [negb Z.eqb E_OK].
    rewrite (so_bind_Done _ _ _ _ _ (ets_proxy_linked _ _ _ _ _ Hl')). exact E2.
  - split; [exact Hl2|done| |done..]. unfold ets_alive. cbn [set_et_proxies set_et_hlp et_hlp]. rewrite Henv. cbn [env set_localObservers set_env]. by rewrite Hq.
Qed.

(** The object gives up its last observer. *)
Lemma ets_unregister s self r px p o bl : ets_linked s self r px p -> localObservers_ (base_ p) = bl ++ [Some o] -> (Some o ∉ bl) ->
  all_alive (svc (h_env (et_hlp s))) (bl ++ [Some o]) ->
  exists h p', ets_store (obj_unregister r o LOCAL_CHANGE) s = Done (E_OK, set_et_hlp h s) /\ ets_linked (set_et_hlp h s) self r px p' /\
    localObservers_ (base_ p') = bl /\ ets_alive (set_et_hlp h s) = ets_alive s.
Proof.
  intros Hl Hb Hnew Hal.
  destruct (ets_locked "UnRegisterObserver" (UnRegisterObserver_locked (Some o) LOCAL_CHANGE) (run_st (e_on_base (UnRegisterObserver (Some o) LOCAL_CHANGE)))
    s self r px p E_OK (fun e' => set_localObservers bl (set_env e' (base_ p))) Hl) as (e' & h & [_ Hq] & E & Henv & Hl').
  { intros e' [_ Hq]. unfold UnRegisterObserver_locked, mbind, st_bind, get, modify, mret, st_ret. cbn [localObservers_ set_env env].
    rewrite Hq, Hb. repeat f_equal. pose proof (stops_at_alive _ (Some o) _ Hal) as Hst. rewrite Forall_forall in Hst.
    apply erase_first_snoc.
    - apply Forall_forall. intros x Hx. rewrite Hst by (apply elem_of_app; by left). apply bool_decide_eq_false. by intros ->.
    - rewrite Hst by (apply elem_of_app; right; by left). by apply bool_decide_eq_true. }
  exists h. eexists. split; [exact E|]. split; [exact Hl'|]. split; [done|]. unfold ets_alive. cbn [set_et_hlp et_hlp]. rewrite Henv.
  cbn [env set_localObservers set_env]. by rewrite Hq.
Qed.

(** An observer goes with its reference. *)
Lemma EtsObserver_destroy_done o x f s : et_observers s !! o = Some x -> et_refs s !! eo_ref x = Some f -> GlobalReference_Delete f = true ->
  EtsObserver_destroy true o s = Done (tt, mkEts (map_alive (fun y => y ∖ list_to_set [o]) (et_hlp s)) (et_mode s) (et_proxies s) (et_next_proxy s)
    (delete o (et_observers s)) (et_next s) (delete (eo_ref x) (et_refs s)) (et_next_ref s) (et_events s)).
Proof.
  intros Ho Hf Hd. unfold EtsObserver_destroy. rewrite so_bind_st. cbn [get fst snd]. rewrite Ho, so_bind_st. unfold delete_reference, modify.
  cbn [fst snd]. rewrite Hf, Hd, so_bind_st. done.
Qed.

Lemma linked_in s1 s2 self r px p : ets_linked s1 self r px p -> et_proxies s2 = et_proxies s1 -> opened (et_hlp s2) r p -> ets_linked s2 self r px p.
Proof. intros [Hp Hr Ho] E Ho2. split; [by rewrite E|done|done]. Qed.

(** [offChange] for the last observer of a proxy. *)
Lemma ets_off s self r px p f o x l bl : ets_linked s self r px p -> GlobalReference_Create f = true -> GlobalReference_Delete f = true ->
  Reference_StrictEquals f f = true -> et_refs s !! et_next_ref s = None -> ep_local px = l ++ [o] -> (o ∉ l) -> (forall y, y ∈ l -> has_other s f y) ->
  et_observers s !! o = Some x -> et_refs s !! eo_ref x = Some f -> localObservers_ (base_ p) = bl ++ [Some o] -> (Some o ∉ bl) ->
  all_alive (svc (h_env (et_hlp s))) (bl ++ [Some o]) ->
  exists s2 p2, Ets_OffChange true self (Some f) s = Done (tt, s2) /\ ets_linked s2 self r (put_list LOCAL_CHANGE l px) p2 /\
    localObservers_ (base_ p2) = bl /\ ets_alive s2 = ets_alive s ∖ {[o]} /\ et_observers s2 = delete o (et_observers s) /\
    et_events s2 = et_events s /\ et_refs s2 = delete (eo_ref x) (<[et_next_ref s := f]> (et_refs s)).
Proof.
  intros Hl Hc Hd Heq Hfresh Hpx Hin Hnone Ho Hx Hb Hnew Hal. set (sA := with_ref f s). pose proof (with_ref_linked f _ _ _ _ _ Hl) as HlA. fold sA in HlA.
  assert (HrA : et_refs sA !! eo_ref x = Some f) by (cbn; rewrite lookup_insert_ne; [done|congruence]).
  destruct (ets_unregister sA self r px p o bl HlA Hb Hnew Hal) as (h & p2 & E & Hl' & Hb2 & Ha2).
  destruct (put_listed_linked _ _ _ _ _ LOCAL_CHANGE l Hl') as [E2 Hl2]. set (s3 := set_et_proxies _ _) in E2, Hl2.
  assert (Hfind : first_referring sA (et_next_ref s) (l ++ [o]) = Some o).
  { apply (last_refers sA f); [apply lookup_insert_eq| |].
    - intros y Hy. by apply with_ref_other, Hnone.
    - unfold refers_to. cbn [et_refs sA with_ref et_observers]. rewrite lookup_insert_eq, Ho. change (<[et_next_ref s := f]> (et_refs s)) with (et_refs sA). by rewrite HrA. }
  eexists _, p2. split; [|split; [|split; [exact Hb2|split]]].
  - unfold Ets_OffChange, Ets_UnRegisteredObserver. rewrite (with_reference_done s self r px p) by done. unfold unregister_first. fold sA.
    rewrite (so_bind_Done _ _ _ _ _ (ets_proxy_linked _ _ _ _ _ HlA)), so_bind_st. cbn [get fst snd listed_in]. rewrite Hpx, Hfind, (so_bind_Done _ _ _ _ _ E).
    cbn [negb Z.eqb E_OK]. rewrite (without_last _ _ Hin), (so_bind_Done _ _ _ _ _ E2). exact (EtsObserver_destroy_done o x f s3 Ho HrA Hd).
  - apply (linked_in s3); [exact Hl2|done|]. apply opened_alive. apply Hl2.
  - transitivity (ets_alive (set_et_hlp h sA) ∖ {[o]}); [|by rewrite Ha2]. unfold ets_alive, map_alive. cbn. set_solver.
  - done.
Qed.

(** [onChange] and then [offChange] with the same function leave the
    registries of the proxy and of the object and the observers that are alive as
    they were and set no error, but the reference to the function that [offChange]
    makes to look for the observer stays for good. *)
Theorem ets_on_off_leaks (self r cb : positive) (f : ani_object) (s : Ets) (px : EtsProxy) (p : PreferencesImpl)
    (Hl : ets_linked s self r px p) (Hc : GlobalReference_Create f = true) (Hd : GlobalReference_Delete f = true) (Heq : Reference_StrictEquals f f = true)
    (Hfresh : et_refs s !! et_next_ref s = None) (Hfresh' : et_refs s !! Pos.succ (et_next_ref s) = None) (Hnew : et_observers s !! et_next s = None)
    (Hnone : forall x, x ∈ ep_local px -> has_other s f x) (Hdead : et_next s ∉ ets_alive s)
    (Hal : all_alive (svc (h_env (et_hlp s))) (localObservers_ (base_ p))) :
  exists s1 p1 s2 p2,
    Ets_OnChange true self cb f s = Done (tt, s1) /\ watched s s1 self r px p f cb p1 /\
    Ets_OffChange true self (Some f) s1 = Done (tt, s2) /\ ets_linked s2 self r px p2 /\
    localObservers_ (base_ p2) = localObservers_ (base_ p) /\ ets_alive s2 = ets_alive s /\ et_observers s2 = et_observers s /\
    et_events s2 = et_events s /\ et_refs s2 = <[Pos.succ (et_next_ref s) := f]> (et_refs s).
Proof.
  destruct (ets_on s self r px p f cb Hl Hc Hfresh Hnone) as (s1 & p1 & E1 & Hw). exists s1, p1. pose proof Hw as [Hl1 Hb1 Ha1 Ho1 Hr1 Hn1 Hev1].
  assert (Hin : et_next s ∉ ep_local px) by (intros Hin; destruct (Hnone _ Hin) as (y & g & Hy & _); congruence).
  assert (Hne : et_next_ref s <> Pos.succ (et_next_ref s)) by lia.
  destruct (ets_off s1 self r _ p1 f (et_next s) (mkEtsObserver (StringCallback cb) (et_next_ref s)) (ep_local px) (localObservers_ (base_ p)) Hl1 Hc Hd Heq)
    as (s2 & p2 & E2 & Hl2 & Hb2 & Ha2 & Ho2 & Hev2 & Hr2); try done.
  - by rewrite Hn1, Hr1, lookup_insert_ne.
  - intros y Hy. destruct (Hnone y Hy) as (z & g & Hz & Hg & He). exists z, g. rewrite Ho1, Hr1. split_and!; [|rewrite lookup_insert_ne; [done|congruence]|done].
    rewrite lookup_insert_ne; [done|]. intros E0. apply Hin. by rewrite E0.
  - by rewrite Ho1, lookup_insert_eq.
  - by rewrite Hr1, lookup_insert_eq.
  - intros Hx. unfold all_alive in Hal. rewrite Forall_forall in Hal. by destruct (Hal _ Hx) as (q & [= <-] & Hq').
  - change (all_alive (svc (h_env (et_hlp s1))) (localObservers_ (base_ p) ++ [Some (et_next s)])).
    assert (Hsub : forall q, q ∈ ets_alive s -> q ∈ ets_alive s1) by (rewrite Ha1; set_solver).
    apply Forall_app_2; [by apply (all_alive_mono (svc (h_env (et_hlp s))))|]. apply Forall_singleton. exists (et_next s). split; [done|].
    change (et_next s ∈ ets_alive s1). rewrite Ha1. set_solver.
  - exists s2, p2. rewrite put_list_back in Hl2. split_and!; try done.
    + rewrite Ha2, Ha1. set_solver.
    + by rewrite Ho2, Ho1, delete_insert_id.
    + by rewrite Hev2.
    + rewrite Hr2, Hn1, Hr1. cbn [eo_ref]. by rewrite delete_insert_ne, delete_insert_id by done.
Qed.
End ets_observers.

(** ** Other surprises *)

Section ets_surprises.
Context `{XmlStore} `{SafeBlockQueue} `{KvDb} `{Iteration} `{TaiheLaws} `{Ani} `{Securec} `{!AniAbility}.
Context (gskvEnabled env : bool).

(** A proxy without an object, which a failure to open gives, sets an error three
    times when it is destroyed, long after the call that failed. *)
Theorem empty_proxy_sets_errors (self : positive) (s : Ets) (Hs : et_proxies s !! self = Some (mkEtsProxy None [] [] [])) :
  exists s', EtsProxy_destroy env self s = Done (tt, s') /\ et_proxies s' = delete self (et_proxies s) /\
    et_events s' = et_events s ++ replicate 3 (BusinessError (InnerError "Failed to get instance.")).
Proof.
  set (e := InnerError "Failed to get instance.").
  assert (Hw : forall A (none : A) k t, et_proxies t !! self = Some (mkEtsProxy None [] [] []) -> with_preferences self none k t = Done (none, push_errors [e] t)).
  { intros A none k t Ht. unfold with_preferences. rewrite (so_bind_Done _ _ _ (mkEtsProxy None [] [] []) t); [done|].
    unfold ets_proxy. rewrite so_bind_st. cbn [get fst snd]. by rewrite Ht. }
  set (s1 := push_errors [e] s). set (s2 := push_errors [e] s1). set (s3 := push_errors [e] s2).
  assert (Ep : ets_proxy self s3 = Done (mkEtsProxy None [] [] [], s3)) by (unfold ets_proxy; rewrite so_bind_st; cbn [get fst snd]; change (et_proxies s3) with (et_proxies s); by rewrite Hs).
  eexists. split; [|split].
  - unfold EtsProxy_destroy, Ets_UnRegisteredAllObservers, Ets_UnRegisteredAllDataObserver. rewrite (so_bind_Done _ _ _ _ _ (Hw _ tt _ s Hs)), (so_bind_Done _ _ _ _ _ (Hw _ tt _ s1 Hs)), (so_bind_Done _ _ _ _ _ (Hw _ tt _ s2 Hs)).
    rewrite (so_bind_Done _ _ _ _ _ Ep), so_bind_st. reflexivity.
  - done.
  - cbn. by rewrite <- !app_assoc.
Qed.

(** Outside of the stage model the directory is empty and no error is set: the
    file is one of the root directory. *)
Theorem fa_mode_opens_root (context : ani_object) (info : PreferencesInfo) (s : Ets) (Hs : et_mode s = FA) :
  ParseContext true context info s = (inr (mkPreferencesInfo ("/" +:+ pi_name info) (pi_name info) "" (pi_dataGroupId info) (pi_storageType info)), s).
Proof. unfold ParseContext, Ets_GetContextInfo, Ets_GetContextMode, mbind, st_bind, mret, st_ret. cbn [negb]. by rewrite Hs. Qed.
End ets_surprises.

(** The sign of a number that is not negative is the one that the interface for
    JavaScript takes for negative. *)
Theorem bigint_negative_for_js `{TaiheLaws} `{Ani} `{Securec} `{NapiLaws} (env : bool) (words : list Z) (w : Z) (x : PreferencesValue) (v : napi_value)
    (Hlast : last words = Some w) (Hw : 0 < w < 2 ^ 63)
    (Hx : ConvertToPreferencesValue env (EtBigint words) = Done x) (Hv : JS_variant x = Some v) :
  napi_typeof v = napi_bigint /\ napi_get_value_bigint_words v = inr (1, words).
Proof.
  cbn [ConvertToPreferencesValue] in Hx. unfold ConvertToBigint, GetBigintSign in Hx. rewrite Hlast in Hx.
  rewrite Z.shiftr_div_pow2, Z.div_small in Hx by lia. injection Hx as <-. cbn [JS_variant] in Hv.
  destruct (created_bigint _ _ _ Hv) as [Ht Hg]. split; [exact Ht|]. apply Hg. cbn [words_]. intros E. rewrite Hlast in E. injection E as E. lia.
Qed.

(** ** Concrete instances *)

#[export] Instance ref_taihe : Taihe := {|
  get_longType_ref v := match v with AtLong z => Done z | _ => Undef end;
  get_doubleType_ref v := match v with AtDouble z => Done z | _ => Undef end;
  get_stringType_ref v := match v with AtString z => Done z | _ => Undef end;
  get_booleanType_ref v := match v with AtBoolean z => Done z | _ => Undef end
|}.

#[export] Instance ref_taihe_laws : TaiheLaws.
Proof. by split. Defined.

(** The objects of a small runtime. *)
Inductive RefObj :=
  | OText (s : string)
  | OFun (n : nat)
  | OBox (c : string) (arg : option AniArg)
  | OArr (l : list (option RefObj))
  | ORec (l : list (option RefObj * RefObj))
  | OBytes (l : list Z)
  | OBuffer (n : Z).

#[export] Instance ref_ani : Ani := {|
  ani_object := RefObj; ani_class := string; ani_method := string; ani_function := string; ani_namespace := string;
  FindClass c := Some c;
  Class_FindMethod _ m _ := Some m;
  Class_FindStaticMethod _ m _ := Some m;
  FindNamespace n := Some n;
  Namespace_FindFunction _ f := Some f;
  Object_New c _ arg := Some (if String.eqb c "std.core.Array" then OArr [] else if String.eqb c "std.core.Record" then ORec [] else OBox c arg);
  Object_GetFieldByName_Ref o _ := match o with OBox _ (Some (ArgSize n)) => Some (OBuffer n) | _ => None end;
  Object_CallMethodByName_Void o _ _ _ v := match o with OArr l => Some (OArr (l ++ [v])) | _ => None end;
  Object_CallMethod_Void o _ k v := match o with ORec l => Some (ORec (l ++ [(k, v)])) | _ => None end;
  Class_CallStaticMethod_Ref _ _ _ := Some (OText "{}");
  Function_Call_Ref _ l := Some (OBytes l);
  String_NewUTF8 s := Some (OText s);
  String_GetUTF8Size o := match o with OText s => Some (slen s) | _ => None end;
  String_GetUTF8 o _ := match o with OText s => Some s | _ => None end;
  CreateArrayBuffer _ := true;
  ArrayBuffer_GetInfo o := match o with OBuffer n => Some n | _ => None end;
  with_bytes _ l := OBytes l;
  Reference_StrictEquals a b := match a, b with OFun m, OFun n => Nat.eqb m n | _, _ => false end;
  GlobalReference_Create _ := true;
  GlobalReference_Delete _ := true
|}.

#[export] Instance ref_ani_ability : AniAbility := {|
  ani_IsStageContext _ := Some true;
  ani_GetStageModeContext _ := Some (mkAppContext "/p" (fun _ => (0, "/p")) "b")
|}.

(** The proxy 1 over the object 2, which holds [vals]. *)
Definition w_ets (vals : gmap string PreferencesValue) : Ets :=
  mkEts (js_hlp (w_js vals)) STAGE {[1%positive := mkEtsProxy (Some 2%positive) [] [] []]} 2%positive ∅ 9%positive ∅ 1%positive [].

Lemma w_ets_linked vals : ets_linked (w_ets vals) 1 2 (mkEtsProxy (Some 2%positive) [] [] []) (w_js_prefs vals).
Proof. split; [done|done|by split]. Qed.

(** The values and the objects as those of the concrete runtime. *)
Definition ev (v : @ValueType ref_ani) : @ValueType ref_ani := v.
Definition eo (o : RefObj) : @ani_object ref_ani := o.

Example ets_value_roundtrip_witness : exists w,
  ConvertToPreferencesValue true (ev (EtArray [AtString "a"; AtString "b"])) = Done w /\ ConvertToValueType true w = Done (ev (EtArray [AtString "a"; AtString "b"]), None).
Proof. apply (ets_value_roundtrip true (ev (EtArray [AtString "a"; AtString "b"]))). right. right. left. by exists ["a"; "b"]. Defined.

Definition w_ets_calls : list ets_op :=
  [EPut "k" (ev (EtLong 5)); EGet "k" (ev (EtString "d")); EPut "" (ev (EtLong 1)); EHas "k"; EGetAll; EDelete "k"; EGet "k" (ev (EtString "d"))].

Example ets_refines_map_witness : exists rs errs s' p',
  ets_run 100 true 1 w_ets_calls (w_ets ∅) = Done (rs, s') /\ ets_linked s' 1 2 (mkEtsProxy (Some 2%positive) [] [] []) p' /\
  ets_agree_all true w_ets_calls ∅ rs errs /\ et_events s' = map BusinessError (concat errs).
Proof.
  destruct (ets_refines_map 100 true 1 w_ets_calls (w_ets ∅) 2 _ _ ∅ (w_ets_linked ∅)) as (rs & errs & s' & p' & E & Hl & Ha & _ & Hev).
  - done.
  - apply map_Forall_empty.
  - repeat constructor; by eexists.
  - exists rs, errs, s', p'. split_and!; [exact E|exact Hl|exact Ha|exact Hev].
Defined.

(** The results of these calls, and the events. *)
Example ets_results : match ets_run 100 true 1 w_ets_calls (w_ets ∅) with Done (rs, s') => Some (rs, et_events s') | _ => None end =
  Some ([EtsNothing; EtsV (ev (EtLong 5)); EtsNothing; EtsB true; EtsO (Some (eo (ORec [(Some (OText "k"), OBox "std.core.Long" (Some (ArgLong 5)))]))); EtsNothing;
     EtsV (ev (EtString "d"))], [BusinessError (InnerCode E_KEY_EMPTY)]).
Proof.
  vm_cast_no_check (@eq_refl (option (list ets_result * list EtsEvent))
    (Some ([EtsNothing; EtsV (ev (EtLong 5)); EtsNothing; EtsB true; EtsO (Some (eo (ORec [(Some (OText "k"), OBox "std.core.Long" (Some (ArgLong 5)))]))); EtsNothing;
     EtsV (ev (EtString "d"))], [BusinessError (InnerCode E_KEY_EMPTY)]))).
Qed.

Example native_int_is_fatal_witness :
  GetSync true 1 "k" (ev (EtLong 0)) (w_ets {["k" := VInt 7]}) = Prelude.Thrown /\
  (exists s', GetAllSync true 1 (w_ets {["k" := VInt 7]}) = Done (None, s') /\ et_events s' = [BusinessError (InnerError "Failed to convert object.")]).
Proof.
  apply (native_int_is_fatal true 1 2 (w_ets {["k" := VInt 7]}) _ _ "k" (VInt 7) (ev (EtLong 0)) (w_ets_linked {["k" := VInt 7]})); reflexivity.
Defined.

(** The observer 9 for the key, which was deleted. *)
Example deleted_key_is_fatal_witness :
  EtsObserver_OnChange_records true 9 (change_records {["k"]} {["k"]} ∅)
    (set_et_observers {[9%positive := mkEtsObserver (MapCallback 3) 1]} (w_ets ∅)) = Prelude.Thrown.
Proof.
  apply (deleted_key_is_fatal true 9 3 1 (set_et_observers {[9%positive := mkEtsObserver (MapCallback 3) 1]} (w_ets ∅)) {["k"]} {["k"]} ∅ "k");
    [reflexivity|by apply elem_of_singleton..|reflexivity].
Defined.

Example ets_on_off_leaks_witness : exists s1 s2,
  Ets_OnChange true 1 4 (eo (OFun 7)) (w_ets ∅) = Done (tt, s1) /\ Ets_OffChange true 1 (Some (eo (OFun 7))) s1 = Done (tt, s2) /\
  ets_alive s2 = ets_alive (w_ets ∅) /\ et_refs s2 = {[2%positive := eo (OFun 7)]}.
Proof.
  destruct (ets_on_off_leaks 1 2 4 (eo (OFun 7)) (w_ets ∅) _ _ (w_ets_linked ∅)) as (s1 & p1 & s2 & p2 & E1 & _ & E2 & _ & _ & Ha & _ & _ & Hr).
  - reflexivity.
  - reflexivity.
  - reflexivity.
  - reflexivity.
  - reflexivity.
  - reflexivity.
  - intros x Hx. by apply not_elem_of_nil in Hx.
  - intros Hin. change (9%positive ∈ alive witness_services) in Hin. by vm_compute in Hin.
  - constructor.
  - by exists s1, s2.
Defined.

Example empty_proxy_sets_errors_witness : exists s',
  EtsProxy_destroy true 1 (set_et_proxies {[1%positive := mkEtsProxy None [] [] []]} (w_ets ∅)) = Done (tt, s') /\ length (et_events s') = 3%nat.
Proof.
  destruct (empty_proxy_sets_errors true 1 (set_et_proxies {[1%positive := mkEtsProxy None [] [] []]} (w_ets ∅))) as (s' & E & _ & Hev); [reflexivity|].
  exists s'. split; [exact E|]. by rewrite Hev.
Defined.

Example fa_mode_opens_root_witness :
  (ParseContext true (eo (OFun 0)) (named "f") (set_et_mode FA (w_ets ∅))).1 = inr (mkPreferencesInfo "/f" "f" "" "" XML).
Proof. rewrite (fa_mode_opens_root (eo (OFun 0)) (named "f") (set_et_mode FA (w_ets ∅))); reflexivity. Defined.

Example bigint_negative_for_js_witness : exists x v,
  ConvertToPreferencesValue true (ev (EtBigint [5])) = Done x /\ JS_variant x = Some v /\ @napi_get_value_bigint_words ref_napi v = inr (1, [5]).
Proof.
  exists (VBigInt (mkBigInt [5] 1)). eexists. split; [reflexivity|]. split; [reflexivity|].
  apply (bigint_negative_for_js true [5] 5 (VBigInt (mkBigInt [5] 1))); [reflexivity|lia|reflexivity|reflexivity].
Defined.
