(* ===== verification/System.v ===== *)
(** * The object over the XML file

    Puts the parts together: a preferences object ([Impl]) whose file is read
    and written by the XML module ([XmlUtils]).  The object's theorems are
    proved against the interface [XmlStore]; here the interface is the module
    itself, and flushing and reopening are shown to succeed, not only to be
    right when they succeed. *)

From S2P Require Import Prelude Errno Value Utils Env FileLock Xml Store XmlUtils Base Impl.

Section System.
Context `{LibXmlLaws} `{SafeBlockQueueLaws}.
Context (undefined_read : gmap string PreferencesValue -> bool * gmap string PreferencesValue).
Context (undefined_write : bool) (garbage_size : Z).

#[local] Instance store : XmlStore := xml_utils undefined_read undefined_write garbage_size.
#[local] Instance store_laws : XmlStoreLaws := xml_utils_laws undefined_read undefined_write garbage_size.

Lemma path_ok_good f : path_ok f -> good_path f.
Proof. intros Hf. pose proof (path_ok_facts f Hf) as (_ & _ & _ & _ & _ & _ & Hl). by destruct Hf as (? & ? & _). Qed.

(** Writing a representable map succeeds. *)
Lemma WriteSettingXml_succeeds f b m e :
  no_faults e -> libxml_ok -> path_ok f -> f ∉ dirs (fs e) -> representable m ->
  fst (WriteSettingXml f b m e) = true.
Proof.
  intros Hnf Hlib Hf Hd Hm. destruct (document_contents m) as (calls & Hc & _).
  { intros k v Hkv. by destruct (Hm k v Hkv) as [_ ?]. }
  cbn [WriteSettingXml store xml_utils]. rewrite bind_run. cbn [mret st_ret fst].
  unfold Xml_WriteSettingXml. rewrite Hc, calls_ok_all by done. destruct Hlib as (-> & -> & _).
  destruct (String.length f =? 0)%nat eqn:El; [by destruct Hf, f|]. cbn [negb]. rewrite bind_run.
  cbn [mret st_ret fst]. apply SaveXmlFile_calm; [by apply no_faults_calm|done..].
Qed.

(** Reading what is stored succeeds. *)
Lemma ReadSettingXml_succeeds f b con m e :
  no_faults e -> path_ok f -> stored e f = Some m -> fst (fst (ReadSettingXml f b con e)) = true.
Proof.
  intros Hnf Hf Hst. pose proof (path_ok_facts f Hf) as (H1' & _ & _ & _ & _ & _ & Hl).
  destruct Hf as (Hne & Hn & _).
  change (files (fs e) !! c_str f ≫= text_contents = Some m) in Hst. rewrite H1' in Hst.
  destruct (files (fs e) !! f) as [c|] eqn:Hc; [|done]. cbn in Hst.
  destruct (Xml_ReadSettingXml_present garbage_size f b con c m e) as [Hr _]; try done.
  cbn [ReadSettingXml store xml_utils]. rewrite bind_run. cbn [mret st_ret fst]. by rewrite Hr.
Qed.

(** Opening an object on a stored map loads it. *)
Lemma LoadFromDisk_succeeds options e m :
  no_faults e -> path_ok (filePath options) -> stored e (filePath options) = Some m ->
  let opened := snd (LoadFromDisk (PreferencesImpl_new options e)) in
  loadResult_ opened = true /\ view opened = m.
Proof.
  intros Hnf Hf Hst.
  assert (Hres : loadResult_ (snd (LoadFromDisk (PreferencesImpl_new options e))) = true).
  { unfold LoadFromDisk, Impl_ReadSettingXml, opts, on_env, on_base, zoom_env, gets,
      mbind, st_bind, get, modify, mret, st_ret.
    cbn [PreferencesImpl_new loaded_ base_ options_ PreferencesBase env].
    assert (Hst1 : stored (snd (Access (parent_dir (filePath options)) e)) (filePath options) = Some m).
    { rewrite <- Hst. apply stored_files, on_path_files. }
    apply (frames_no_faults (Access (parent_dir (filePath options)))) in Hnf; [|auto with prefs].
    destruct (Access (parent_dir (filePath options)) e) as [r e1]. cbn [snd] in *.
    pose proof (ReadSettingXml_succeeds _ (bundleName options) ∅ m e1 Hnf Hf Hst1) as Hok.
    revert Hok. destruct (negb (r =? 0)); cbn -[ReadSettingXml];
      destruct (ReadSettingXml _ _ ∅ e1) as [[ok con] e2]; intros Hok; cbn in Hok; by subst ok. }
  split; [done|]. apply LoadFromDisk_new; [done|by apply path_ok_good|done|done].
Qed.

(** C3: What an application stores survives a restart: on a loaded object over
    the XML file, without a flush that waits and with its file in step with what
    it shows but for the marked keys, run any [Put], [Delete], [Clear] and reads
    that leave contents which the format represents (no floats or doubles, no
    NUL in keys, legal texts), then [FlushSync]; if no system call fails or is
    cut short, libxml2 has memory and the path is one of a file (not empty, no
    NUL, not too long for its backup, no directory), [FlushSync] answers
    [E_OK], and a new object that opens the file loads it and has the contents
    that the map specification says. *)
Theorem flush_survives_restart (m0 : gmap string PreferencesValue) (os : list op) (p : PreferencesImpl)
    (Hidle : idle p) (Hsync : synced m0 p) (Hnf : no_faults (env_of p)) (Hlib : libxml_ok)
    (Hpath : path_ok (path_of p)) (Hd : path_of p ∉ dirs (fs (env_of p)))
    (Hrep : representable (view (snd (exec_all os p)))) :
  let '(r, p2) := FlushSync (snd (exec_all os p)) in
  r = E_OK /\
  forall e, files (fs e) = files (fs (env_of p2)) -> no_faults e ->
    let opened := snd (LoadFromDisk (PreferencesImpl_new (options_ (base_ p)) e)) in
    loadResult_ opened = true /\ same_map (view opened) (spec_all os (view p)).2.
Proof.
  pose proof Hidle as (Hs & He & Hc).
  destruct (exec_all_settled m0 os p (view p) Hs ltac:(reflexivity))
    as (Hs1 & (Hk1 & Hk2 & Hk3 & Hk4) & _ & Hv1 & Hsy1).
  set (p1 := snd (exec_all os p)) in *.
  assert (Hpp : path_of p1 = path_of p) by (unfold path_of; by rewrite Hk2).
  destruct (FlushSync_idle m0 p1) as (r & p2 & e & -> & (Hv & _ & _ & _ & Hpath2 & Hst & _) & [Hq _] & Hr).
  - unfold idle. by rewrite Hk1.
  - auto.
  - intros n k. rewrite Hk3. by rewrite Hnf.
  - rewrite Hpp. by apply path_ok_good.
  - done.
  - assert (Hok : r = E_OK).
    { rewrite Hr. case_decide; [done|]. unfold Write_call.
      rewrite WriteSettingXml_succeeds; [done| |done|by rewrite Hpp| |done].
      - intros n. by rewrite Hq, Hk3.
      - by rewrite Hq, Hk3, Hpp. }
    split; [done|]. intros e' Hfiles Hnf'. destruct (Hst Hok) as [Hstored _].
    rewrite Hpath2, Hpp in Hstored. rewrite <- (stored_files _ _ _ Hfiles) in Hstored.
    destruct (LoadFromDisk_succeeds _ _ _ Hnf' Hpath Hstored) as [Hl1 Hl2]. split; [done|].
    rewrite Hl2. exact Hv1.
Qed.
End System.

(** ** A concrete run *)

Section System_witness.
#[local] Instance ref_store : XmlStore := xml_utils (fun con => (false, con)) false 0.
#[local] Instance ref_store_laws : XmlStoreLaws := xml_utils_laws (fun con => (false, con)) false 0.

(** An object that has loaded the empty document. *)
Definition s_loaded : PreferencesImpl :=
  upd_load true false true (PreferencesImpl_new w_options (w_env ref_doc (fun _ => SysOk))).

Lemma s_synced : synced ∅ s_loaded.
Proof. split; [vm_compute; reflexivity|]. intros k Hk. by destruct Hk. Qed.

Lemma s_idle : idle s_loaded.
Proof. unfold idle, settled. cbn. repeat split; lia. Qed.

Lemma s_representable : representable (view (snd (exec_all [OPut "k" (VInt 1)] s_loaded))).
Proof.
  assert (E : view (snd (exec_all [OPut "k" (VInt 1)] s_loaded)) = {[ "k" := VInt 1 ]}) by (vm_compute; reflexivity).
  rewrite E. intros k v [<- <-]%lookup_singleton_Some. by split_and!.
Qed.

Example flush_survives_restart_witness :
  fst (FlushSync (snd (exec_all [OPut "k" (VInt 1)] s_loaded))) = E_OK.
Proof.
  pose proof (flush_survives_restart (fun con => (false, con)) false 0 ∅ [OPut "k" (VInt 1)] s_loaded
    s_idle s_synced ltac:(done) ltac:(by split_and!)
    ref_path_ok ltac:(set_solver) s_representable) as Hd.
  destruct (FlushSync _) as [r p2]. exact (proj1 Hd).
Defined.
End System_witness.
