(* ===== verification/Lane.v ===== *)
(** * A pool of one executor with the closures it was given

    [ExecutorPool] knows a closure only by a number.  Here the numbers get a
    meaning: a lane is a pool of the library with the table of the closures it
    was given, in order; a step of the pool that runs a number hands the
    closure out to be run.  Every closure is handed out at most once, and a
    closure that is due is handed out within a bounded number of steps of the
    scheduler's thread. *)

From stdpp Require Import sorting.
From S2P Require Import Prelude Pool TaskQueue ExecutorPool ExecutorPoolStop TaskProcessor PoolSequence.

Section Lane.
Context {T : Type}.

Record Lane := mkLane { sys : Sys; table : list T }.

Definition on_sys {A} (m : SO Sys A) : SO Lane A := fun l =>
  '(a, s) ← m (sys l); Done (a, mkLane s (table l)).

(** The closure gets the next number. *)
Definition number (t : T) : ST Lane nat := fun l => (length (table l), mkLane (sys l) (table l ++ [t])).

(** A closure to run at once, or after a delay. *)
Definition lane_Execute (t : T) : SO Lane Z := n ← run_st (number t); on_sys (Execute n).
Definition lane_Schedule (delay : Z) (t : T) : SO Lane Z := n ← run_st (number t); on_sys (Schedule_once delay n).

(** A step of the pool, and the closures that are to be run now. *)
Definition lane_step (a : Action) : SO Lane (list T) :=
  l ← run_st get;
  on_sys (sys_step a);;
  l' ← run_st get;
  mret (omap (fun n => table l' !! n) (drop (length (log (sys l))) (log (sys l')))).

(** ** The invariant *)

Definition lane_sequence (l : Lane) : Sequence := sequence_of (sys l).

(** Each number of the table is queued, being run or has run. *)
Record lane_ok (l : Lane) : Prop := {
  lo_served : served (sys l);
  lo_closures : s_closures (lane_sequence l) ≡ₚ seq 0 (length (table l))
}.

Lemma lane_ok_new min : lane_ok (mkLane (ExecutorPool_new 1 min) []).
Proof. split; [apply served_new|]. unfold lane_sequence. cbn [sys]. by rewrite sequence_new. Qed.

Lemma log_in_table l n : lane_ok l -> n ∈ log (sys l) -> is_Some (table l !! n).
Proof.
  intros [_ Hp] Hn. apply lookup_lt_is_Some. assert (Hin : n ∈ s_closures (lane_sequence l)) by (apply elem_of_app; by left).
  rewrite Hp in Hin. apply elem_of_seq in Hin. lia.
Qed.

(** A closure that has run is not run again. *)
Lemma log_nodup l : lane_ok l -> NoDup (log (sys l)).
Proof.
  intros [_ Hp]. assert (Hnd : NoDup (s_closures (lane_sequence l))) by (rewrite Hp; apply NoDup_seq).
  by apply NoDup_app in Hnd as [? _].
Qed.

(** Wherever the scheduler is with a closure, it still is. *)
Definition keeps_way (s s' : Sys) : Prop := forall x n L N k, on_the_way x n L N k s -> on_the_way x n L N k s'.

(** What a closure, once given, waits for: it is queued for a time not after
    [t], being run, or has run. *)
Definition awaited (t : Z) (n : nat) (s : Sequence) : Prop :=
  (exists u, u <= t /\ (u, n) ∈ s_queue s) \/ s_running s = Some n \/ n ∈ s_log s.

Lemma seq_step_awaited o t n s s' : seq_step o s s' -> awaited t n s -> awaited t n s'.
Proof.
  unfold awaited. intros []; cbn; try done.
  - intros [(u & Hu & Hin)|Hr]; [|by right]. left. exists u. split; [done|]. rewrite insert_timed_perm. by right.
  - intros [(u & Hu & [[= -> ->]|Hin]%elem_of_cons)|[Hr|Hl]]; [by right; left|left; by exists u|done|by right; right].
  - intros [Hq|[[= ->]|Hl]]; [by left|right; right; apply elem_of_app; right; left|right; right; apply elem_of_app; by left].
Qed.

Lemma seq_give_inv d f s s' : seq_step (Some (d, f)) s s' ->
  s_queue s' = insert_timed (s_clock s + d, f) (s_queue s) /\ s_log s' = s_log s /\ s_clock s' = s_clock s.
Proof. by inversion 1. Qed.

Lemma seq_log_inv o s s' : seq_step o s s' -> s_log s' = s_log s \/ exists n, s_log s' = s_log s ++ [n].
Proof. destruct 1; cbn; eauto. Qed.

Lemma seq_clock_mono o s s' : seq_step o s s' -> s_clock s <= s_clock s'.
Proof. destruct 1; cbn; lia. Qed.

Lemma run_inv {S A} (m : SO S A) s s' : (_ ← m; mret tt) s = Done (tt, s') -> exists r, m s = Done (r, s').
Proof. unfold mbind, so_bind. destruct (m s) as [[r s1]| | |]; [|done..]. intros [= <-]. by exists r. Qed.

(** A closure is given: as an action of the pool. *)
Lemma lane_give_ok a t l (m : nat -> SO Sys Z) d : lane_ok l -> library_action a -> (forall x, a <> AThread x) ->
  request a = Some (d, length (table l)) -> 0 <= d ->
  (forall s, sys_step a s = (_ ← m (length (table l)); mret tt) s) ->
  exists r l', (n ← run_st (number t); on_sys (m n)) l = Done (r, l') /\ lane_ok l' /\
    table l' = table l ++ [t] /\ log (sys l') = log (sys l) /\ clock (sys l') = clock (sys l) /\ keeps_way (sys l) (sys l') /\
    awaited (clock (sys l) + d) (length (table l)) (lane_sequence l') /\
    (forall u n, awaited u n (lane_sequence l) -> awaited u n (lane_sequence l')).
Proof.
  intros [Hsv Hp] Ha Hnt Hreq Hd Hm. destruct (served_step a (sys l) Ha Hsv) as (s' & E & Hsv' & _ & Hsim).
  pose proof E as E1. rewrite Hm in E1. apply run_inv in E1 as [r Er]. rewrite Hreq in Hsim.
  exists r, (mkLane s' (table l ++ [t])). unfold lane_sequence. cbn [sys table].
  split. { rewrite so_bind_st. cbn [number fst snd]. unfold on_sys. cbn [sys table]. by rewrite Er. }
  destruct (seq_give_inv _ _ _ _ Hsim) as (Hq & Hlog).
  split; [|split; [done|split; [apply Hlog|split; [apply Hlog|split; [|split]]]]].
  - split; cbn [sys table]; [done|]. unfold lane_sequence. cbn [sys]. rewrite (seq_step_conserves _ _ _ Hsim), length_app, Nat.add_1_r, seq_S.
    cbn. unfold lane_sequence in Hp. by rewrite Hp.
  - intros x n L N k Hw. destruct (on_the_way_stay x n L N k a (sys l) Hw) as (s1 & E' & Hw' & _).
    + destruct a; try done; cbn in *; unfold INVALID_INTERVAL in *; lia.
    + by apply Hnt.
    + assert (s1 = s') as -> by congruence. done.
  - unfold awaited. left. exists (clock (sys l) + d). split; [lia|].
    rewrite Hq, insert_timed_perm. left.
  - intros u n. by apply (seq_step_awaited _ _ _ _ _ Hsim).
Qed.

Definition given (t : T) (d : Z) (l l' : Lane) : Prop :=
  lane_ok l' /\ table l' = table l ++ [t] /\ log (sys l') = log (sys l) /\ clock (sys l') = clock (sys l) /\ keeps_way (sys l) (sys l') /\
  awaited (clock (sys l) + d) (length (table l)) (lane_sequence l') /\
  (forall u n, awaited u n (lane_sequence l) -> awaited u n (lane_sequence l')).

Lemma lane_Execute_ok t l : lane_ok l -> exists r l', lane_Execute t l = Done (r, l') /\ given t 0 l l'.
Proof. intros Hl. by apply (lane_give_ok (AExecute (length (table l)))). Qed.

Lemma lane_Schedule_ok d t l : lane_ok l -> 0 <= d -> exists r l', lane_Schedule d t l = Done (r, l') /\ given t d l l'.
Proof. intros Hl Hd. by apply (lane_give_ok (ASchedule (length (table l)) d INVALID_INTERVAL 1)). Qed.

(** ** Steps *)

(** The pool on its own. *)
Definition inner (a : Action) : Prop :=
  match a with ACall _ | AThread _ | ATimeout _ | ATick _ => True | _ => False end.

Lemma inner_library a : inner a -> library_action a.
Proof. by destruct a. Qed.

Lemma inner_request a : inner a -> request a = None.
Proof. by destruct a. Qed.

(** A step hands out nothing, or the closure of the number that it runs. *)
Definition hands_out (ts : list T) (l l' : Lane) : Prop :=
  (ts = [] /\ log (sys l') = log (sys l)) \/
  (exists n t, ts = [t] /\ table l !! n = Some t /\ (n ∉ log (sys l)) /\ log (sys l') = log (sys l) ++ [n]).

Lemma lane_step_eq a l s' : sys_step a (sys l) = Done (tt, s') ->
  lane_step a l = Done (omap (fun n => table l !! n) (drop (length (log (sys l))) (log s')), mkLane s' (table l)).
Proof.
  intros E. unfold lane_step. rewrite so_bind_st. cbn [get fst snd].
  rewrite (so_bind_Done _ _ _ tt (mkLane s' (table l))) by (unfold on_sys; by rewrite E). by rewrite so_bind_st.
Qed.

Lemma lane_step_table a l ts l' : lane_step a l = Done (ts, l') -> table l' = table l.
Proof.
  unfold lane_step. rewrite so_bind_st. unfold mbind at 1, so_bind at 1, on_sys.
  cbn [get fst snd]. destruct (sys_step a (sys l)) as [[[] s]| | |]; [|done..]. cbn -[omap]. by intros [= _ <-].
Qed.

Lemma lane_step_ok a l : lane_ok l -> inner a -> exists ts l', lane_step a l = Done (ts, l') /\
  lane_ok l' /\ table l' = table l /\ hands_out ts l l' /\ clock (sys l) <= clock (sys l') /\
  (forall u n, awaited u n (lane_sequence l) -> awaited u n (lane_sequence l')).
Proof.
  intros Hl Ha. pose proof Hl as [Hsv Hp]. destruct (served_step a (sys l) (inner_library a Ha) Hsv) as (s' & E & Hsv' & _ & Hsim).
  rewrite (inner_request a Ha) in Hsim. eexists _, (mkLane s' (table l)). split; [by apply lane_step_eq|].
  assert (Hl' : lane_ok (mkLane s' (table l))).
  { split; [done|]. unfold lane_sequence in *. cbn [sys table]. rewrite (seq_step_conserves _ _ _ Hsim), <- Hp. cbn. by rewrite app_nil_r. }
  split; [done|]. split; [done|].
  split; [|split; [apply (seq_clock_mono _ _ _ Hsim)|intros u n; by apply (seq_step_awaited _ _ _ _ _ Hsim)]].
  pose proof (seq_log_inv _ _ _ Hsim) as Hlog. cbn [s_log sequence_of] in Hlog.
  unfold hands_out. cbn [sys]. destruct Hlog as [->|[n Hn]]; [left; by rewrite drop_all|]. right.
  destruct (log_in_table _ n Hl') as [t Ht]; [cbn [sys]; rewrite Hn; apply elem_of_app; right; left|]. cbn [table] in Ht.
  exists n, t. rewrite Hn, drop_app_length. cbn. rewrite Ht. split; [done|]. split; [done|]. split; [|done].
  pose proof (log_nodup _ Hl') as Hnd. cbn [sys] in Hnd. rewrite Hn in Hnd. apply NoDup_app in Hnd as (_ & Hnd & _).
  intros Hin. apply (Hnd n Hin). left.
Qed.

(** The scheduler's own step brings the closure nearer or hands it out; any
    other step leaves it where it is. *)
Lemma lane_thread_way x n L N k t l : lane_ok l -> on_the_way x n L N k (sys l) -> table l !! n = Some t ->
  exists ts l', lane_step (AThread x) l = Done (ts, l') /\
    ((exists k', k = S k' /\ on_the_way x n L N k' (sys l')) \/ ts = [t]).
Proof.
  intros Hl Hw Ht. destruct (on_the_way_thread x n L N k (sys l) Hw) as (s' & E & Hcase).
  eexists _, (mkLane s' (table l)). split; [by apply lane_step_eq|].
  destruct Hcase as [Hk|(l0 & Hlog' & Hlog & _)]; [by left|right].
  replace (log s') with (log (sys l) ++ [n]) by (by rewrite Hlog', Hlog, <- app_assoc). rewrite drop_app_length. cbn. by rewrite Ht.
Qed.

Lemma lane_other_way x n L N k a l : lane_ok l -> inner a -> a <> AThread x -> on_the_way x n L N k (sys l) ->
  exists l', lane_step a l = Done ([], l') /\ on_the_way x n L N k (sys l').
Proof.
  intros Hl Ha Hne Hw. destruct (on_the_way_stay x n L N k a (sys l) Hw) as (s' & E & Hw' & Hlog); [by destruct a|done|].
  exists (mkLane s' (table l)). split; [|done]. rewrite (lane_step_eq a l s' E), Hlog. by rewrite drop_all.
Qed.

(** ** From given to on the way *)

Lemma executing_way n s st : inv_at st s -> executing s = Some n -> exists x, scheduler_ s = Some x /\ on_the_way x n (log s) 0 1 s.
Proof.
  intros Hi He. assert (exists x, st = SBound x) as [x ->].
  { destruct st as [|x|x|x]; [..|by exists x]; by rewrite (executing_none _ s Hi) in He. }
  destruct (bound_executor _ _ Hi) as (p & Ep & Hp). rewrite (executing_bound x p s Hi Ep) in He.
  exists x. split; [apply (ia_sched _ _ Hi)|]. split; [done|]. exists p, []. split; [done|]. split; [by rewrite app_nil_r|].
  split; [done|]. right. destruct p as [| | |t [c|]|id| | | |]; try done. split; [|cbn; lia]. exists t. split; [done|].
  unfold closure_of in He. destruct (exec t); congruence.
Qed.

Lemma due_at_position u n s st : inv_at st s -> (u, n) ∈ s_queue (sequence_of s) -> u <= clock s ->
  exists j, due_at j n s /\ (j < length (tasks_ (delayTasks_ s)))%nat.
Proof.
  intros Hi Hin Hu. cbn in Hin. apply list_elem_of_fmap in Hin as (e & He & Hin). unfold timed in He.
  apply list_elem_of_split in Hin as (l1 & l2 & Eq). exists (length l1). split; [|rewrite Eq, length_app; cbn; lia].
  assert (Hte : e_time e = u) by congruence.
  exists l1, e, l2. split; [done|]. split; [done|]. split.
  - apply Forall_app. split; [|repeat constructor; lia].
    pose proof (inv_sorted _ (ia_queue _ _ Hi)) as Hs. rewrite Eq in Hs. apply Forall_forall. intros y Hy.
    assert (Hb : before y e).
    { clear -Hs Hy. induction l1 as [|z l1 IH]; [inv Hy|]. cbn in Hs. apply StronglySorted_cons in Hs as [Hz Hs].
      apply elem_of_cons in Hy as [->|Hy]; [|auto]. rewrite Forall_app, Forall_cons in Hz. apply Hz. }
    unfold before in Hb. lia.
  - destruct (proj1 (ia_tasks _ _ Hi) e) as [[f Hf] _]; [rewrite Eq; set_solver|].
    unfold closure_of in He. rewrite Hf in He |- *. cbn in He. congruence.
Qed.

Lemma way_mono x n L N N' k k' s : (N <= N')%nat -> (k <= k')%nat -> on_the_way x n L N k s -> on_the_way x n L N' k' s.
Proof.
  intros HN Hk (Hi & p & l & Hx & Hl & Hp & Hcase). split; [done|]. exists p, l. split_and!; [done..|].
  destruct Hcase as [(j & Hd & H1 & H2)|(Ht & H1 & H2)]; [left; exists j; split_and!; [done|lia|lia]|right; split_and!; [done|lia|lia]].
Qed.

(** How many steps of the scheduler's thread are enough. *)
Definition enough_steps (l : Lane) : nat := 6 * S (length (tasks_ (delayTasks_ (sys l)))).

(** A closure whose time has come has run, or the scheduler is on its way. *)
Lemma awaited_way t n l : lane_ok l -> calls (sys l) = [] -> awaited t n (lane_sequence l) -> t <= clock (sys l) ->
  n ∈ log (sys l) \/ exists x, scheduler_ (sys l) = Some x /\
    exists N, on_the_way x n (log (sys l)) N (enough_steps l) (sys l).
Proof.
  intros [Hsv _] Hc Ha Ht. destruct (sv_inv _ Hsv) as [st Hi].
  destruct Ha as [(u & Hu & Hin)|[Hr|Hl]]; [| |by left]; right.
  - destruct (due_at_position u n (sys l) st Hi Hin ltac:(lia)) as (j & Hd & Hj).
    destruct (due_on_the_way j n (sys l) (ex_intro _ st Hi) Hc Hd) as (x & Hx & Hw). exists x. split; [done|]. eexists.
    eapply way_mono; [..|exact Hw]; [done|unfold enough_steps; lia].
  - destruct (executing_way n (sys l) st Hi Hr) as (x & Hx & Hw). exists x. split; [done|]. eexists.
    eapply way_mono; [..|exact Hw]; [done|unfold enough_steps; lia].
Qed.
End Lane.
