(* ===== verification/Dispatch.v ===== *)
(** * Clients of the library's executors

    The objects of the library have closures run on two pools, both of one
    executor ([Lane]): the static pool of [PreferencesBase] and the pool of the
    task processor.  What has a state, is called by the application and posts
    closures that are to run on it later is a client, of the class [Client]; the
    instances are one object ([Runtime]) and the factory with all of its objects
    ([Process]).  A call of a client is one step, with the closures that it
    hands over; the calls in flight, threads, time-outs and the clock of the
    pools are steps of their own, and the step in which a thread runs a closure
    runs it on the client.  In every run, the closures of a client that are
    posted are run within a bounded number of steps of the pools. *)

From S2P Require Import Prelude Pool TaskQueue ExecutorPool ExecutorPoolStop TaskProcessor PoolSequence Lane.

(** In ticks of the clock, which are milliseconds here.

    [preferences_impl.cpp:42-42] TASK_EXEC_TIME *)
Definition TASK_EXEC_TIME : Z := 100.

(** [preferences_base.cpp:35-35] executorPool_ *)
Definition executorPool_new : Sys := ExecutorPool_new 1 0.

(** How a closure is handed over. *)
Inductive Way := ToProcessor | Delayed | AtOnce.

(** The calls of a client may be undefined, its closures are not. *)
Class Client (C T K : Type) := {
  call : K -> SO C unit;
  runs : T -> ST C unit;
  posted : C -> list T;                 (** what has been posted, in order *)
  drained : C -> C;                       (** and the client without it *)
  way : T -> Way;
  posted_drained c : posted (drained c) = []
}.

Inductive Which := Static | Processor.

#[export] Instance Which_eq_dec : EqDecision Which.
Proof. solve_decision. Defined.

(** What goes on in a pool: a call in flight, a thread, a time-out. *)
Inductive Inner := ICall (i : nat) | IThread (x : DataRef) | ITimeout (x : DataRef).

#[export] Instance Inner_eq_dec : EqDecision Inner.
Proof. solve_decision. Defined.

Definition inner_action (i : Inner) : Action :=
  match i with ICall i => ACall i | IThread x => AThread x | ITimeout x => ATimeout x end.

Inductive RAction {K : Type} :=
  | RCall (c : K)
  | RPool (w : Which) (i : Inner)
  | RTick (n : nat).
Arguments RAction : clear implicits.

Section Dispatch.
Context {C T K : Type} `{!Client C T K}.

#[local] Abbreviation TaskLane := (@Lane.Lane T).
#[local] Abbreviation RAction := (RAction K).

Record Runtime := mkRuntime {
  object : C;
  executorPool_ : TaskLane;
  processor_ : TaskLane
}.

(** The pools as the library makes them. *)
Definition runtime_of (c : C) : Runtime := mkRuntime c (mkLane executorPool_new []) (mkLane processor_pool []).

Definition lane_of (w : Which) (r : Runtime) : TaskLane :=
  match w with Static => executorPool_ r | Processor => processor_ r end.

Definition set_lane (w : Which) (l : TaskLane) (r : Runtime) : Runtime :=
  match w with Static => mkRuntime (object r) l (processor_ r) | Processor => mkRuntime (object r) (executorPool_ r) l end.

Definition on_object {A} (m : SO C A) : SO Runtime A := fun r =>
  '(a, c) ← m (object r); Done (a, mkRuntime c (executorPool_ r) (processor_ r)).

Definition on_lane {A} (w : Which) (m : SO TaskLane A) : SO Runtime A := fun r =>
  '(a, l) ← m (lane_of w r); Done (a, set_lane w l r).

(** ** Handing closures over *)

(** [preferences_impl.cpp:75-78] StartLoadFromDisk *)
Definition give_load (t : T) : SO Runtime unit := _ ← on_lane Processor (lane_Execute t); mret tt.

(** [preferences_impl.cpp:360-377] Flush *)
Definition give_flush (t : T) : SO Runtime unit := _ ← on_lane Static (lane_Schedule TASK_EXEC_TIME t); mret tt.

(** The closures to run at once.

    [preferences_impl.cpp:489-507] ExecuteNotifyChange *)
Definition give_now (t : T) : SO Runtime unit := _ ← on_lane Static (lane_Execute t); mret tt.

Definition give (t : T) : SO Runtime unit :=
  match way t with ToProcessor => give_load t | Delayed => give_flush t | AtOnce => give_now t end.

Fixpoint give_all (ts : list T) : SO Runtime unit :=
  match ts with [] => mret tt | t :: ts' => give t;; give_all ts' end.

(** What the client has posted goes to the pools. *)
Definition hand_over : SO Runtime unit :=
  r ← run_st get;
  on_object (run_st (modify drained));;
  give_all (posted (object r)).

(** ** Steps *)

(** Run what a step of a pool has handed out. *)
Fixpoint run_closures (ts : list T) : SO Runtime unit :=
  match ts with
  | [] => mret tt
  | t :: ts' => on_object (run_st (runs t));; hand_over;; run_closures ts'
  end.

Definition r_step (b : RAction) : SO Runtime unit :=
  match b with
  | RCall c => on_object (call c);; hand_over
  | RPool w i => ts ← on_lane w (lane_step (inner_action i)); run_closures ts
  | RTick n => _ ← on_lane Static (lane_step (ATick n)); _ ← on_lane Processor (lane_step (ATick n)); mret tt
  end.

Fixpoint r_run (bs : list RAction) : SO Runtime unit :=
  match bs with [] => mret tt | b :: bs' => r_step b;; r_run bs' end.

(** ** The invariant *)

Record r_ok (r : Runtime) : Prop := {
  ro_static : lane_ok (executorPool_ r);
  ro_processor : lane_ok (processor_ r);
  ro_tasks : posted (object r) = []
}.

Lemma ro_lane w r : r_ok r -> lane_ok (lane_of w r).
Proof. by intros [? ? _]; destruct w. Qed.

Lemma r_ok_new c : posted c = [] -> r_ok (runtime_of c).
Proof. intros Hc. split; [apply lane_ok_new..|done]. Qed.

(** A lane that has been given more. *)
Record grows (l l' : TaskLane) : Prop := {
  gr_ok : lane_ok l -> lane_ok l';
  gr_table : table l `prefix_of` table l';
  gr_log : log (sys l') = log (sys l);
  gr_clock : clock (sys l') = clock (sys l);
  gr_way : keeps_way (sys l) (sys l');
  gr_awaited u n : awaited u n (lane_sequence l) -> awaited u n (lane_sequence l')
}.

#[export] Instance grows_preorder : PreOrder grows.
Proof.
  split; [intros l; split; unfold keeps_way; auto; reflexivity|].
  intros l1 l2 l3 [] []. split; [auto|by etrans|congruence|congruence|intros x n L N k Hw; auto|auto].
Qed.

Lemma given_grows t d l l' : given t d l l' -> grows l l'.
Proof. intros (Hok & Ht & Hl & Hc & Hw & _ & Ha). split; [done|rewrite Ht; by apply prefix_app_r|done..]. Qed.

(** Where a closure goes, and how long it is to wait. *)
Definition place (t : T) : Which := match way t with ToProcessor => Processor | _ => Static end.
Definition delay (t : T) : Z := match way t with Delayed => TASK_EXEC_TIME | _ => 0 end.

(** The closure is in its lane, is awaited from now and has not run. *)
Definition handed (c : Which -> Z) (r : Runtime) (t : T) : Prop :=
  exists n, table (lane_of (place t) r) !! n = Some t /\ (n ∉ log (sys (lane_of (place t) r))) /\
    awaited (c (place t) + delay t) n (lane_sequence (lane_of (place t) r)).

Lemma set_lane_of w l r : lane_of w (set_lane w l r) = l /\ (forall w', w' <> w -> lane_of w' (set_lane w l r) = lane_of w' r) /\
  object (set_lane w l r) = object r.
Proof. destruct w; split_and!; try done; by intros []. Qed.

Lemma lookup_snoc {A} (l : list A) x : (l ++ [x]) !! length l = Some x.
Proof. by apply list_lookup_middle. Qed.

Lemma give_lane_ok w (m : SO TaskLane Z) t r : lane_ok (lane_of w r) -> (exists z l', m (lane_of w r) = Done (z, l') /\ given t (delay t) (lane_of w r) l') ->
  w = place t ->
  exists r', (_ ← on_lane w m; mret tt) r = Done (tt, r') /\ object r' = object r /\
    (forall w', grows (lane_of w' r) (lane_of w' r')) /\ handed (fun w => clock (sys (lane_of w r))) r' t.
Proof.
  intros Hl (z & l' & E & Hg) ->. destruct (set_lane_of (place t) l' r) as (H1' & H2' & H3').
  exists (set_lane (place t) l' r). split; [unfold mbind, so_bind, on_lane; by rewrite E|]. split; [done|]. split.
  - intros w'. destruct (decide (w' = place t)) as [->|Hw]; [rewrite H1'; by eapply given_grows|by rewrite H2'].
  - destruct Hg as (_ & Ht & Hlog & _ & _ & Ha & _). exists (length (table (lane_of (place t) r))). rewrite H1'. split; [|split; [|done]].
    + rewrite Ht. apply lookup_snoc.
    + rewrite Hlog. intros Hin. apply log_in_table in Hin as [u Hu]; [|done]. apply lookup_lt_Some in Hu. lia.
Qed.

Lemma give_ok t r : lane_ok (executorPool_ r) -> lane_ok (processor_ r) ->
  exists r', give t r = Done (tt, r') /\ object r' = object r /\
    (forall w', grows (lane_of w' r) (lane_of w' r')) /\ handed (fun w => clock (sys (lane_of w r))) r' t.
Proof.
  intros Hs Hp. unfold give. destruct (way t) eqn:Hw; (apply give_lane_ok; unfold place, delay; rewrite ?Hw; [done| |done]);
    first [by apply lane_Execute_ok | by apply lane_Schedule_ok].
Qed.

Lemma handed_grows c r r' t : (forall w, grows (lane_of w r) (lane_of w r')) -> handed c r t -> handed c r' t.
Proof.
  intros Hg (n & Ht & Hn & Ha). exists n. split; [|split; [by rewrite (gr_log _ _ (Hg _))|by apply (gr_awaited _ _ (Hg _))]].
  eapply prefix_lookup_Some; [exact Ht|apply (gr_table _ _ (Hg _))].
Qed.

Lemma give_all_ok ts r : lane_ok (executorPool_ r) -> lane_ok (processor_ r) ->
  exists r', give_all ts r = Done (tt, r') /\ object r' = object r /\
    (forall w, grows (lane_of w r) (lane_of w r')) /\ (forall t, t ∈ ts -> handed (fun w => clock (sys (lane_of w r))) r' t).
Proof.
  revert r. induction ts as [|t ts IH]; intros r Hs Hp; [exists r; split_and!; [done..|intros t Ht; inv Ht]|].
  destruct (give_ok t r Hs Hp) as (r1 & E1 & Ho1 & Hg1 & Hh1).
  destruct (IH r1) as (r2 & E2 & Ho2 & Hg2 & Hh2); [by apply (gr_ok _ _ (Hg1 Static))|by apply (gr_ok _ _ (Hg1 Processor))|].
  exists r2. cbn [give_all]. rewrite (so_bind_Done _ _ _ _ _ E1). split; [done|]. split; [congruence|].
  split; [intros w; etrans; [exact (Hg1 w)|exact (Hg2 w)]|]. intros t' [->|Ht']%elem_of_cons; [by eapply handed_grows|].
  destruct (Hh2 t' Ht') as (n & Hn & Hlog & Ha). exists n. split; [done|]. split; [done|]. by rewrite <- (gr_clock _ _ (Hg1 _)).
Qed.

(** The client has handed its closures over; nothing else happened to it. *)
Lemma hand_over_ok r : lane_ok (executorPool_ r) -> lane_ok (processor_ r) ->
  exists r', hand_over r = Done (tt, r') /\ r_ok r' /\ object r' = drained (object r) /\
    (forall w, grows (lane_of w r) (lane_of w r')) /\
    (forall t, t ∈ posted (object r) -> handed (fun w => clock (sys (lane_of w r))) r' t).
Proof.
  intros Hs Hp. unfold hand_over. rewrite so_bind_st.
  rewrite (so_bind_Done _ _ _ tt (mkRuntime (drained (object r)) (executorPool_ r) (processor_ r))) by done. cbn [get fst].
  destruct (give_all_ok (posted (object r)) (mkRuntime (drained (object r)) (executorPool_ r) (processor_ r)) Hs Hp)
    as (r' & E & Ho & Hg & Hh). exists r'. split; [done|]. split; [|split; [done|split]].
  - split; [by apply (gr_ok _ _ (Hg Static))|by apply (gr_ok _ _ (Hg Processor))|rewrite Ho; apply posted_drained].
  - intros w. specialize (Hg w). destruct w; exact Hg.
  - intros t Ht. destruct (Hh t Ht) as (n & Hn & Hlog & Ha). exists n. split; [done|]. split; [done|].
    revert Ha. generalize (place t). by intros [].
Qed.

(** A closure is run on the client, which hands over what it posts. *)
Definition after (t : T) (c : C) : C := drained (runs t c).2.

Lemma act_ok (m : SO C unit) r c : r_ok r -> m (object r) = Done (tt, c) ->
  exists r', (on_object m;; hand_over) r = Done (tt, r') /\ r_ok r' /\ object r' = drained c /\
    (forall w, grows (lane_of w r) (lane_of w r')) /\
    (forall t, t ∈ posted c -> handed (fun w => clock (sys (lane_of w r))) r' t).
Proof.
  intros [Hs Hp _] E. rewrite (so_bind_Done _ _ _ tt (mkRuntime c (executorPool_ r) (processor_ r))) by (unfold on_object; by rewrite E).
  destruct (hand_over_ok (mkRuntime c (executorPool_ r) (processor_ r)) Hs Hp) as (r' & E' & Hok & Ho & Hg & Hh).
  exists r'. split; [done|]. split; [done|]. split; [done|]. split; [intros w; specialize (Hg w); destruct w; exact Hg|].
  intros t Ht. destruct (Hh t Ht) as (n & Hn & Hlog & Ha). exists n. split; [done|]. split; [done|].
  revert Ha. generalize (place t). by intros [].
Qed.

Lemma run_closures_ok ts r : r_ok r ->
  exists r', run_closures ts r = Done (tt, r') /\ r_ok r' /\ object r' = foldl (fun c t => after t c) (object r) ts /\
    (forall w, grows (lane_of w r) (lane_of w r')).
Proof.
  revert r. induction ts as [|t ts IH]; intros r Hr; [by exists r|].
  destruct (act_ok (run_st (runs t)) r (runs t (object r)).2 Hr) as (r1 & E1 & Hr1 & Ho1 & Hg1 & _).
  { unfold run_st. by destruct (runs t (object r)) as [[] c]. }
  destruct (IH r1 Hr1) as (r2 & E2 & Hr2 & Ho2 & Hg2).
  exists r2. split; [|split; [done|split]].
  - cbn [run_closures]. revert E1. unfold mbind, so_bind. destruct (on_object _ r) as [[[] r0]| | |]; [|done..]. by intros ->.
  - by rewrite Ho2, Ho1.
  - intros w. etrans; [exact (Hg1 w)|exact (Hg2 w)].
Qed.

(** A lane later on. *)
Record later (l l' : TaskLane) : Prop := {
  la_table : table l `prefix_of` table l';
  la_clock : clock (sys l) <= clock (sys l');
  la_awaited u n : awaited u n (lane_sequence l) -> awaited u n (lane_sequence l')
}.

#[export] Instance later_preorder : PreOrder later.
Proof.
  split; [intros l; split; auto; reflexivity|]. intros l1 l2 l3 [] []. split; [by etrans|by etrans|auto].
Qed.

Lemma grows_later l l' : grows l l' -> later l l'.
Proof. intros []. split; [done|by apply Z.eq_le_incl|done]. Qed.

Lemma on_lane_step w a r : r_ok r -> inner a -> exists ts l', lane_step a (lane_of w r) = Done (ts, l') /\
  on_lane w (lane_step a) r = Done (ts, set_lane w l' r) /\ r_ok (set_lane w l' r) /\ later (lane_of w r) l' /\
  hands_out ts (lane_of w r) l'.
Proof.
  intros Hr Ha. destruct (lane_step_ok a (lane_of w r) (ro_lane w r Hr) Ha) as (ts & l' & E & Hl' & Ht & Hh & Hc & Haw).
  exists ts, l'. split; [done|]. split; [unfold on_lane; by rewrite E|]. split.
  - destruct Hr as [Hs Hp Hts]. by destruct w; split.
  - split; [split; [by rewrite Ht|done|done]|done].
Qed.

(** Where the closures go, and what a step does to the client. *)
Lemma r_step_pool w i r : r_ok r -> exists ts l' r', lane_step (inner_action i) (lane_of w r) = Done (ts, l') /\
  r_step (RPool w i) r = Done (tt, r') /\ r_ok r' /\ hands_out ts (lane_of w r) l' /\
  object r' = foldl (fun c t => after t c) (object r) ts /\ grows l' (lane_of w r') /\
  (forall w', w' <> w -> grows (lane_of w' r) (lane_of w' r')) /\ later (lane_of w r) (lane_of w r').
Proof.
  intros Hr. destruct (on_lane_step w (inner_action i) r Hr ltac:(by destruct i)) as (ts & l' & E & El & Hr1 & Hla & Hh).
  destruct (run_closures_ok ts _ Hr1) as (r' & E' & Hr' & Ho & Hg). destruct (set_lane_of w l' r) as (L1 & L2 & L3).
  exists ts, l', r'. split; [done|]. split; [cbn [r_step]; by rewrite (so_bind_Done _ _ _ _ _ El)|].
  split; [done|]. split; [done|]. split; [by rewrite Ho, L3|]. pose proof (Hg w) as Hw. rewrite L1 in Hw.
  split; [done|]. split; [intros w' Hne; specialize (Hg w'); by rewrite L2 in Hg|]. etrans; [exact Hla|by apply grows_later].
Qed.

Lemma lane_tick n (l : TaskLane) :
  lane_step (ATick n) l = Done ([], mkLane (set_clock (clock (sys l) + Z.of_nat n) (sys l)) (table l)).
Proof.
  rewrite (lane_step_eq (ATick n) l (set_clock (clock (sys l) + Z.of_nat n) (sys l))) by done.
  cbn [log set_clock]. by rewrite drop_all.
Qed.

Lemma r_step_tick n r : r_ok r -> exists r', r_step (RTick n) r = Done (tt, r') /\ r_ok r' /\ object r' = object r /\
  forall w, later (lane_of w r) (lane_of w r') /\ lane_step (ATick n) (lane_of w r) = Done ([], lane_of w r').
Proof.
  intros Hr. destruct (on_lane_step Static (ATick n) r Hr I) as (ts1 & l1 & E1 & El1 & Hr1 & Hla1 & _).
  destruct (on_lane_step Processor (ATick n) _ Hr1 I) as (ts2 & l2 & E2 & El2 & Hr2 & Hla2 & _).
  exists (set_lane Processor l2 (set_lane Static l1 r)). split; [|split; [done|split; [done|]]].
  - cbn [r_step]. rewrite (so_bind_Done _ _ _ _ _ El1). by rewrite (so_bind_Done _ _ _ _ _ El2).
  - rewrite lane_tick in E1, E2. injection E1 as <- <-. injection E2 as <- <-.
    intros []; (split; [done|apply lane_tick]).
Qed.

Lemma r_step_call c r x : r_ok r -> call c (object r) = Done (tt, x) -> exists r', r_step (RCall c) r = Done (tt, r') /\ r_ok r' /\
  object r' = drained x /\ (forall w, grows (lane_of w r) (lane_of w r')) /\
  (forall t, t ∈ posted x -> handed (fun w => clock (sys (lane_of w r))) r' t).
Proof. apply act_ok. Qed.

(** A call that is defined. *)
Lemma r_step_called c r r' : r_step (RCall c) r = Done (tt, r') -> exists x, call c (object r) = Done (tt, x).
Proof.
  cbn [r_step]. unfold mbind, so_bind, on_object. destruct (call c (object r)) as [[[] x]| | |]; [|done..]. by exists x.
Qed.

(** Only a call of the application can be undefined. *)
Lemma r_step_inside b r : r_ok r -> (match b with RCall _ => False | _ => True end) -> exists r', r_step b r = Done (tt, r').
Proof.
  intros Hr Hb. destruct b as [c|w i|n]; [done|..].
  - destruct (r_step_pool w i r Hr) as (ts & l' & r' & _ & E & _). by exists r'.
  - destruct (r_step_tick n r Hr) as (r' & E & _). by exists r'.
Qed.

(** Each step that is defined keeps the invariant. *)
Lemma r_step_ok b r r' : r_ok r -> r_step b r = Done (tt, r') -> r_ok r' /\ forall w, later (lane_of w r) (lane_of w r').
Proof.
  intros Hr E. destruct b as [c|w i|n].
  - destruct (r_step_called c r r' E) as [x Ex]. destruct (r_step_call c r x Hr Ex) as (r1 & E1 & Hr1 & _ & Hg & _).
    assert (r1 = r') as -> by congruence. split; [done|]. intros w. by apply grows_later.
  - destruct (r_step_pool w i r Hr) as (ts & l' & r1 & _ & E1 & Hr1 & _ & _ & _ & Hg & Hla). assert (r1 = r') as -> by congruence.
    split; [done|]. intros w'. destruct (decide (w' = w)) as [->|Hne]; [done|by apply grows_later, Hg].
  - destruct (r_step_tick n r Hr) as (r1 & E1 & Hr1 & _ & Hw). assert (r1 = r') as -> by congruence. split; [done|]. intros w. apply Hw.
Qed.

Lemma r_run_cons b bs r r' : r_run (b :: bs) r = Done (tt, r') <-> exists r1, r_step b r = Done (tt, r1) /\ r_run bs r1 = Done (tt, r').
Proof.
  cbn [r_run]. split.
  - unfold mbind, so_bind. destruct (r_step b r) as [[[] r1]| | |]; [|done..]. by exists r1.
  - intros (r1 & E & E1). by rewrite (so_bind_Done _ _ _ _ _ E).
Qed.

Lemma r_run_app bs bs' r r' : r_run (bs ++ bs') r = Done (tt, r') <-> exists r1, r_run bs r = Done (tt, r1) /\ r_run bs' r1 = Done (tt, r').
Proof.
  revert r. induction bs as [|b bs IH]; intros r; cbn [app].
  - split; [by exists r|by intros (r1 & [= ->] & ?)].
  - rewrite r_run_cons. setoid_rewrite IH. setoid_rewrite r_run_cons. naive_solver.
Qed.

Lemma r_run_ok bs r r' : r_ok r -> r_run bs r = Done (tt, r') -> r_ok r' /\ forall w, later (lane_of w r) (lane_of w r').
Proof.
  revert r. induction bs as [|b bs IH]; intros r Hr; [by intros [= ->]|].
  rewrite r_run_cons. intros (r1 & E1 & E2). destruct (r_step_ok b r r1 Hr E1) as [Hr1 H1']. destruct (IH r1 Hr1 E2) as [Hr2 H2'].
  split; [done|]. intros w. etrans; [apply H1'|apply H2'].
Qed.

(** Without calls of the application nothing is undefined. *)
Definition pools_only (b : RAction) : Prop := match b with RCall _ => False | _ => True end.

Lemma r_run_inside bs r : r_ok r -> Forall pools_only bs -> exists r', r_run bs r = Done (tt, r').
Proof.
  revert r. induction bs as [|b bs IH]; intros r Hr; [by exists r|]. intros [Hb Hbs]%Forall_cons.
  destruct (r_step_inside b r Hr) as [r1 E1]; [by destruct b|]. destruct (r_step_ok b r r1 Hr E1) as [Hr1 _].
  destruct (IH r1 Hr1 Hbs) as [r2 E2]. exists r2. apply r_run_cons. by exists r1.
Qed.

(** What calls and closures keep of the client, a run keeps. *)
Section keeps.
Context (R : C -> C -> Prop) `{!PreOrder R}.
Context (R_call : forall k c x, call k c = Done (tt, x) -> R c x) (R_runs : forall t c, R c (runs t c).2) (R_drained : forall c, R c (drained c)).

Lemma after_keeps ts c : R c (foldl (fun c t => after t c) c ts).
Proof.
  revert c. induction ts as [|t ts IH]; intros c; [reflexivity|]. etrans; [|apply IH].
  unfold after. etrans; [apply R_runs|apply R_drained].
Qed.

Lemma r_step_keeps b r r' : r_ok r -> r_step b r = Done (tt, r') -> R (object r) (object r').
Proof.
  intros Hr E. destruct b as [c|w i|n].
  - destruct (r_step_called c r r' E) as [x Ex]. destruct (r_step_call c r x Hr Ex) as (r1 & E1 & _ & Ho & _).
    assert (r1 = r') as -> by congruence. rewrite Ho. etrans; [by eapply R_call|apply R_drained].
  - destruct (r_step_pool w i r Hr) as (ts & l' & r1 & _ & E1 & _ & _ & Ho & _). assert (r1 = r') as -> by congruence.
    rewrite Ho. apply after_keeps.
  - destruct (r_step_tick n r Hr) as (r1 & E1 & _ & Ho & _). assert (r1 = r') as -> by congruence. by rewrite Ho.
Qed.

Lemma r_run_keeps bs r r' : r_ok r -> r_run bs r = Done (tt, r') -> R (object r) (object r').
Proof.
  revert r. induction bs as [|b bs IH]; intros r Hr; [by intros [= ->]|]. rewrite r_run_cons. intros (r1 & E1 & E2).
  etrans; [by eapply r_step_keeps|]. apply IH; [by eapply r_step_ok|done].
Qed.
End keeps.

(** ** A closure on its way *)

(** The step is one of a pool, which hands the closure out. *)
Definition hands (t : T) (b : RAction) (r : Runtime) : Prop :=
  exists w i l', b = RPool w i /\ lane_step (inner_action i) (lane_of w r) = Done ([t], l').

(** The closure [n] of a lane, which is [t], is on its way. *)
Definition coming (w : Which) (t : T) (x : DataRef) (n k : nat) (r : Runtime) : Prop :=
  table (lane_of w r) !! n = Some t /\ exists L N, on_the_way x n L N k (sys (lane_of w r)).

Lemma inner_action_inj i x : inner_action i = AThread x -> i = IThread x.
Proof. by destruct i; intros [= ->]. Qed.

(** Each step leaves it there; the thread of its scheduler brings it nearer,
    until it is run on the client. *)
Lemma coming_step w t x n k b r r' : r_ok r -> coming w t x n k r -> r_step b r = Done (tt, r') ->
  (b <> RPool w (IThread x) /\ coming w t x n k r' \/
   b = RPool w (IThread x) /\ (exists k', k = S k' /\ coming w t x n k' r') \/
   b = RPool w (IThread x) /\ hands t b r /\ object r' = after t (object r)).
Proof.
  intros Hr (Ht & L & N & Hw) E.
  assert (Hlater : forall k', later (lane_of w r) (lane_of w r') -> on_the_way x n L N k' (sys (lane_of w r')) -> coming w t x n k' r').
  { intros k' Hla Hw'. split; [|by exists L, N]. eapply prefix_lookup_Some; [exact Ht|apply Hla]. }
  destruct b as [c|w0 i|m].
  - destruct (r_step_called c r r' E) as [y Ey]. destruct (r_step_call c r y Hr Ey) as (r1 & E1 & _ & _ & Hg & _).
    assert (r1 = r') as -> by congruence. left. split; [done|]. apply Hlater; [by apply grows_later|]. by apply (gr_way _ _ (Hg w)).
  - destruct (r_step_pool w0 i r Hr) as (ts & l' & r0 & El & E0 & Hr' & _ & Ho & Hg & Hg' & Hla). assert (r0 = r') as -> by congruence.
    destruct (decide (w0 = w)) as [->|Hne]; [destruct (decide (i = IThread x)) as [->|Hi]|].
    + right. destruct (lane_thread_way x n L N k t (lane_of w r) (ro_lane w r Hr) Hw Ht) as (ts1 & l1 & E1 & Hcase).
      cbn [inner_action] in El. assert (ts1 = ts /\ l1 = l') as [-> ->] by (split; congruence).
      destruct Hcase as [(k' & -> & Hw')|Hts]; [left|right]; (split; [done|]).
      * exists k'. split; [done|]. apply Hlater; [done|]. by apply (gr_way _ _ Hg).
      * split; [by exists w, (IThread x), l'; rewrite <- Hts|by rewrite Ho, Hts].
    + left. split; [congruence|]. apply Hlater; [done|]. apply (gr_way _ _ Hg).
      destruct (lane_other_way x n L N k (inner_action i) (lane_of w r) (ro_lane w r Hr)) as (l1 & E1 & Hw'); [by destruct i| |done|].
      { by intros ->%inner_action_inj. }
      by assert (l1 = l') as -> by congruence.
    + left. split; [congruence|]. specialize (Hg' w (not_eq_sym Hne)). apply Hlater; [by apply grows_later|]. by apply (gr_way _ _ Hg').
  - destruct (r_step_tick m r Hr) as (r0 & E0 & Hr' & _ & Hla). assert (r0 = r') as -> by congruence. left. split; [done|].
    destruct (Hla w) as [Hla1 El]. apply Hlater; [done|].
    destruct (lane_other_way x n L N k (ATick m) (lane_of w r) (ro_lane w r Hr) I ltac:(done) Hw) as (l1 & E1 & Hw').
    by assert (l1 = lane_of w r') as <- by congruence.
Qed.

Definition is_step (w : Which) (x : DataRef) (b : RAction) : bool :=
  match b with RPool w' i => bool_decide (w' = w) && bool_decide (i = IThread x) | _ => false end.

Lemma is_step_spec w x b : is_step w x b <-> b = RPool w (IThread x).
Proof.
  unfold is_step. destruct b; [by split| |by split]. rewrite Is_true_true, andb_true_iff, !bool_decide_eq_true.
  split; [by intros [-> ->]|by intros [= -> ->]].
Qed.

(** How often the thread of a pool takes a step. *)
Definition r_steps_of (w : Which) (x : DataRef) (bs : list RAction) : nat :=
  length (filter (is_step w x) bs).

(** In the run, a pool hands the closure out and it is run on the client. *)
Definition runs_in (t : T) (bs : list RAction) (r : Runtime) : Prop :=
  exists bs1 b bs2 r1 r2, bs = bs1 ++ b :: bs2 /\ r_run bs1 r = Done (tt, r1) /\ r_step b r1 = Done (tt, r2) /\
    hands t b r1 /\ object r2 = after t (object r1).

Lemma runs_in_here t b bs r r' : r_step b r = Done (tt, r') -> hands t b r -> object r' = after t (object r) -> runs_in t (b :: bs) r.
Proof. intros E Ht Ho. by exists [], b, bs, r, r'. Qed.

Lemma runs_in_later t b bs r r' : r_step b r = Done (tt, r') -> runs_in t bs r' -> runs_in t (b :: bs) r.
Proof.
  intros E (bs1 & b' & bs2 & r1 & r2 & -> & E1 & E2 & Ho). exists (b :: bs1), b', bs2, r1, r2. split; [done|]. split; [|done].
  cbn [r_run]. by rewrite (so_bind_Done _ _ _ _ _ E).
Qed.

Lemma runs_in_app t bs bs' r r' : r_run bs r = Done (tt, r') -> runs_in t bs' r' -> runs_in t (bs ++ bs') r.
Proof.
  revert r. induction bs as [|b bs IH]; intros r; [by intros [= ->]|]. rewrite r_run_cons. intros (r1 & E & E1) Hr.
  eapply runs_in_later; [done|by apply IH].
Qed.

Lemma runs_in_weaken t bs bs' r : runs_in t bs r -> runs_in t (bs ++ bs') r.
Proof. intros (bs1 & b & bs2 & r1 & r2 & -> & H'). exists bs1, b, (bs2 ++ bs'), r1, r2. split; [|done]. by rewrite <- app_assoc. Qed.

(** A closure that has run since was run on the client. *)
Lemma step_ran w t n b r r' : r_ok r -> r_step b r = Done (tt, r') -> table (lane_of w r) !! n = Some t ->
  n ∉ log (sys (lane_of w r)) -> n ∉ log (sys (lane_of w r')) \/ hands t b r /\ object r' = after t (object r).
Proof.
  intros Hr E Ht Hn. destruct b as [c|w0 i|m].
  - destruct (r_step_called c r r' E) as [y Ey]. destruct (r_step_call c r y Hr Ey) as (r1 & E1 & _ & _ & Hg & _).
    assert (r1 = r') as -> by congruence. left. by rewrite (gr_log _ _ (Hg w)).
  - destruct (r_step_pool w0 i r Hr) as (ts & l' & r1 & El & E1 & _ & Hh & Ho & Hg & Hg' & _). assert (r1 = r') as -> by congruence.
    destruct (decide (w0 = w)) as [->|Hne]; [|left; by rewrite (gr_log _ _ (Hg' w (not_eq_sym Hne)))].
    rewrite (gr_log _ _ Hg). destruct Hh as [[_ ->]|(n' & t' & -> & Ht' & _ & ->)]; [by left|].
    destruct (decide (n' = n)) as [->|Hnn]; [right|left; set_solver]. assert (t' = t) as -> by congruence.
    split; [by exists w, i, l'|by rewrite Ho].
  - destruct (r_step_tick m r Hr) as (r1 & E1 & _ & _ & Hla). assert (r1 = r') as -> by congruence.
    left. destruct (Hla w) as [_ El]. rewrite lane_tick in El. injection El as El. by rewrite <- El.
Qed.

Lemma run_ran w t n bs r r' : r_ok r -> r_run bs r = Done (tt, r') -> table (lane_of w r) !! n = Some t ->
  n ∉ log (sys (lane_of w r)) -> n ∉ log (sys (lane_of w r')) \/ runs_in t bs r.
Proof.
  revert r. induction bs as [|b bs IH]; intros r Hr; [intros [= ->]; by left|]. rewrite r_run_cons. intros (r1 & E & E1) Ht Hn.
  destruct (r_step_ok b r r1 Hr E) as [Hr1 Hla].
  destruct (step_ran w t n b r r1 Hr E Ht Hn) as [Hn1|[Hh Ho]]; [|right; by eapply runs_in_here].
  destruct (IH r1 Hr1 E1) as [Hn2|Hrun]; [|done|by left|right; by eapply runs_in_later].
  eapply prefix_lookup_Some; [exact Ht|apply Hla].
Qed.

Lemma coming_pos w t x n k r : coming w t x n k r -> (1 <= k)%nat.
Proof. intros (_ & L & N & Hw). by eapply on_the_way_pos. Qed.

Lemma coming_run w t x n k bs r r' : r_ok r -> coming w t x n k r -> r_run bs r = Done (tt, r') ->
  (k <= r_steps_of w x bs)%nat -> runs_in t bs r.
Proof.
  revert k r. induction bs as [|b bs IH]; intros k r Hr Hw.
  { intros _ Hk. apply coming_pos in Hw. cbn in Hk. lia. }
  rewrite r_run_cons. intros (r1 & E & E1) Hk. destruct (r_step_ok b r r1 Hr E) as [Hr1 _]. unfold r_steps_of in Hk.
  destruct (coming_step w t x n k b r r1 Hr Hw E) as [[Hb Hw']|[(-> & k' & -> & Hw')|(-> & Hh & Ho)]].
  - rewrite filter_cons_False in Hk by by rewrite is_step_spec. eapply runs_in_later; [done|by eapply IH].
  - rewrite filter_cons_True in Hk by by rewrite is_step_spec. cbn in Hk. eapply runs_in_later; [done|]. eapply IH; [done..|]. unfold r_steps_of. lia.
  - by eapply runs_in_here.
Qed.

(** What the theorems ask for in a run, of one lane. *)
Definition lane_after (w : Which) (bs : list RAction) (r : Runtime) : list ExecutorPool.Call * Z * option DataRef * nat :=
  match r_run bs r with
  | Done (_, r') => let l := lane_of w r' in (calls (sys l), clock (sys l), scheduler_ (sys l), enough_steps l)
  | _ => ([CDone], -1, None, 0%nat)
  end.

Lemma lane_after_run w b bs r r1 r2 v : r_step b r = Done (tt, r1) -> r_run bs r1 = Done (tt, r2) -> lane_after w (b :: bs) r = v ->
  let l := lane_of w r2 in calls (sys l) = v.1.1.1 /\ clock (sys l) = v.1.1.2 /\ scheduler_ (sys l) = v.1.2 /\ enough_steps l = v.2.
Proof.
  intros E1 E2 <-. unfold lane_after. rewrite (proj2 (r_run_cons _ _ _ _) (ex_intro _ _ (conj E1 E2))). by split_and!.
Qed.

(** A closure that a call posts, and what is enough for it to be run. *)
Lemma posted_runs c t bs0 bs r x r1 r2 r3 : r_ok r -> call c (object r) = Done (tt, x) -> t ∈ posted x ->
  r_step (RCall c) r = Done (tt, r1) -> r_run bs0 r1 = Done (tt, r2) -> r_run bs r2 = Done (tt, r3) ->
  calls (sys (lane_of (place t) r2)) = [] ->
  clock (sys (lane_of (place t) r)) + delay t <= clock (sys (lane_of (place t) r2)) ->
  (forall y, scheduler_ (sys (lane_of (place t) r2)) = Some y ->
     (enough_steps (lane_of (place t) r2) <= r_steps_of (place t) y bs)%nat) ->
  runs_in t (bs0 ++ bs) r1.
Proof.
  intros Hr Ex Ht E1 E2 E3 Hc Hclk Hbs. destruct (r_step_call c r x Hr Ex) as (r0 & E0 & Hr1 & _ & _ & Hh).
  assert (r0 = r1) as -> by congruence. destruct (r_run_ok bs0 r1 r2 Hr1 E2) as [Hr2 Hla].
  destruct (Hh t Ht) as (n & Hn & Hlog & Ha).
  destruct (run_ran (place t) t n bs0 r1 r2 Hr1 E2 Hn Hlog) as [Hlog2|Hrun]; [|by apply runs_in_weaken].
  destruct (awaited_way _ n _ (ro_lane (place t) r2 Hr2) Hc (la_awaited _ _ (Hla _) _ _ Ha) Hclk) as [|(y & Hy & N & Hw)]; [done|].
  eapply runs_in_app; [exact E2|]. eapply (coming_run (place t) t y n (enough_steps (lane_of (place t) r2))); [done| |exact E3|by apply Hbs].
  split; [|by eexists _, _]. eapply prefix_lookup_Some; [exact Hn|apply Hla].
Qed.

End Dispatch.
Arguments Runtime : clear implicits.
