(* ===== verification/Runtime.v ===== *)
(** * A preferences object on the executors of the library

    In [Impl] the closures of an object are steps that may come at any time.
    Here the object is a client of the library's pools ([Dispatch]): it hands
    its loads to the task processor, its flushes to the static pool with their
    delay, and what it has to tell to others to the static pool at once.  A call
    that waits for the file to be loaded is placed where its wait ends, so that
    the object's own choice [loadWins] is not used. *)

From S2P Require Import Prelude Pool TaskQueue ExecutorPool ExecutorPoolStop TaskProcessor PoolSequence Lane Dispatch.
From S2P Require Import Errno Value Utils NumText Env FileLock Xml Store XmlUtils Base Impl System.

Section Runtime.
Context `{XmlStore} `{SafeBlockQueue}.

Inductive Call := CInit | COp (o : op) | CFlush | CFlushSync | CClose.

Definition impl_call (c : Call) : ST PreferencesImpl unit :=
  match c with
  | CInit => _ ← Init; mret tt
  | COp o => _ ← Impl.exec o; mret tt
  | CFlush => Flush
  | CFlushSync => _ ← FlushSync; mret tt
  | CClose => _ ← Impl.Close; mret tt
  end.

(** The object without what it has posted. *)
Definition no_tasks (p : PreferencesImpl) : PreferencesImpl := upd_base (set_tasks [] (base_ p)) p.

Definition task_way (t : Task) : Way := match t with LoadTask => ToProcessor | FlushTask => Delayed | _ => AtOnce end.

#[export] Instance impl_client : Client PreferencesImpl Task Call := {|
  call c := run_st (impl_call c);
  runs := run_task true;
  posted p := tasks_ (base_ p);
  drained := no_tasks;
  way := task_way;
  posted_drained p := eq_refl
|}.

Definition Runtime_new (options : Options) (e : Env) : Runtime PreferencesImpl Task := runtime_of (PreferencesImpl_new options e).

(** ** Nothing is undefined *)

Definition after_call (c : Call) (p : PreferencesImpl) : PreferencesImpl := no_tasks (impl_call c p).2.

Lemma impl_call_eq c p : call c p = Done (tt, (impl_call c p).2).
Proof. cbn [call impl_client]. unfold run_st. by destruct (impl_call c p) as [[] p']. Qed.

Lemma r_call c (r : Runtime PreferencesImpl Task) : r_ok r -> exists r', r_step (RCall c) r = Done (tt, r') /\ r_ok r' /\
  object r' = after_call c (object r) /\ (forall w, grows (lane_of w r) (lane_of w r')).
Proof.
  intros Hr. destruct (r_step_call c r _ Hr (impl_call_eq c (object r))) as (r' & E & Hr' & Ho & Hg & _). by exists r'.
Qed.

Lemma r_total b (r : Runtime PreferencesImpl Task) : r_ok r -> exists r', r_step b r = Done (tt, r') /\ r_ok r'.
Proof.
  intros Hr. assert (exists r', r_step b r = Done (tt, r')) as [r' E].
  { destruct b as [c|w i|n]; [|by apply r_step_inside..]. destruct (r_call c r Hr) as (r' & E & _). by exists r'. }
  exists r'. split; [done|]. by destruct (r_step_ok b r r' Hr E).
Qed.

Lemma r_run_total bs (r : Runtime PreferencesImpl Task) : r_ok r -> exists r', r_run bs r = Done (tt, r') /\ r_ok r'.
Proof.
  revert r. induction bs as [|b bs IH]; intros r Hr; [by exists r|].
  destruct (r_total b r Hr) as (r1 & E1 & Hr1). destruct (IH r1 Hr1) as (r2 & E2 & Hr2).
  exists r2. split; [|done]. apply r_run_cons. by exists r1.
Qed.

Lemma r_ok_made options e : r_ok (Runtime_new options e).
Proof. by apply r_ok_new. Qed.

(** A closure that a call posts, and what is enough for it to be run. *)
Lemma object_posted_runs c t bs0 bs (r : Runtime PreferencesImpl Task) : r_ok r -> t ∈ tasks_ (base_ (impl_call c (object r)).2) ->
  exists r1 r2, r_step (RCall c) r = Done (tt, r1) /\ r_run bs0 r1 = Done (tt, r2) /\
    (calls (sys (lane_of (place t) r2)) = [] ->
     clock (sys (lane_of (place t) r)) + delay t <= clock (sys (lane_of (place t) r2)) ->
     (forall x, scheduler_ (sys (lane_of (place t) r2)) = Some x ->
        (enough_steps (lane_of (place t) r2) <= r_steps_of (place t) x bs)%nat) ->
     runs_in t (bs0 ++ bs) r1).
Proof.
  intros Hr Ht. destruct (r_total (RCall c) r Hr) as (r1 & E1 & Hr1). destruct (r_run_total bs0 r1 Hr1) as (r2 & E2 & Hr2).
  destruct (r_run_total bs r2 Hr2) as (r3 & E3 & _). exists r1, r2. split; [done|]. split; [done|].
  intros Hc Hclk Hx. exact (posted_runs c t bs0 bs r _ r1 r2 r3 Hr (impl_call_eq c (object r)) Ht E1 E2 E3 Hc Hclk Hx).
Qed.

(** ** Properties *)

(** What an object hands to the executors is run on it: from any state that
    an object and the pools reach, let a call post a closure and let anything
    happen ([bs0]) until its delay is over and no call of its pool is in
    flight; then a number of steps of the pool's scheduler, six for each task
    that is queued and six more, is enough for the closure to have been run on
    the object, whatever else happens meanwhile ([bs]).  All of these steps
    are defined. *)
Theorem posted_closure_runs (options : Options) (e : Env) (as_ bs0 bs : list (RAction Call)) (r : Runtime PreferencesImpl Task)
    (c : Call) (t : Task) (Hrun : r_run as_ (Runtime_new options e) = Done (tt, r))
    (Hpost : t ∈ tasks_ (base_ (impl_call c (object r)).2)) :
  exists r1 r2, r_step (RCall c) r = Done (tt, r1) /\ r_run bs0 r1 = Done (tt, r2) /\
    (calls (sys (lane_of (place t) r2)) = [] ->
     clock (sys (lane_of (place t) r)) + delay t <= clock (sys (lane_of (place t) r2)) ->
     (forall x, scheduler_ (sys (lane_of (place t) r2)) = Some x ->
        (enough_steps (lane_of (place t) r2) <= r_steps_of (place t) x bs)%nat) ->
     runs_in t (bs0 ++ bs) r1).
Proof. destruct (r_run_ok as_ _ r (r_ok_made options e) Hrun) as [Hr _]. by apply object_posted_runs. Qed.
End Runtime.

(** The load of a new object, on the pool of the task processor. *)
Definition w_bs0 : list (RAction Call) := replicate 2 (RPool Processor (ICall 0)).
Definition w_bs : list (RAction Call) := replicate 12 (RPool Processor (IThread 1)).

Example posted_closure_runs_witness :
  exists r1 r2, r_step (RCall CInit) (Runtime_new w_options (w_env (map_text ∅) (fun _ => SysOk))) = Done (tt, r1) /\
    r_run w_bs0 r1 = Done (tt, r2) /\ runs_in LoadTask (w_bs0 ++ w_bs) r1.
Proof.
  set (r0 := Runtime_new w_options (w_env (map_text ∅) (fun _ => SysOk))).
  destruct (posted_closure_runs w_options (w_env (map_text ∅) (fun _ => SysOk)) [] w_bs0 w_bs r0 CInit LoadTask eq_refl)
    as (r1 & r2 & E1 & E2 & Hruns); [by left|].
  exists r1, r2. split; [exact E1|]. split; [exact E2|].
  assert (Hp : match r_run (RCall CInit :: w_bs0) r0 with
    | Done (_, r) => (calls (sys (processor_ r)), clock (sys (processor_ r)), scheduler_ (sys (processor_ r)), enough_steps (processor_ r))
    | _ => ([], 1, None, 0%nat) end = ([], 0, Some 1%positive, 12%nat)) by (vm_compute; reflexivity).
  cbn [r_run] in Hp. unfold mbind, so_bind in Hp. rewrite E1 in Hp. unfold w_bs0 in E2, Hp. cbn [r_run replicate] in E2, Hp.
  unfold mbind, so_bind in E2, Hp. rewrite E2 in Hp.
  pose proof (f_equal snd Hp : enough_steps (processor_ r2) = 12%nat) as H4'.
  injection Hp as H1' H2' H3' _. apply Hruns.
  - exact H1'.
  - change (0 + 0 <= clock (sys (processor_ r2))). rewrite H2'. lia.
  - intros x Hx. change (scheduler_ (sys (processor_ r2)) = Some x) in Hx. rewrite H3' in Hx. injection Hx as <-.
    change (enough_steps (processor_ r2) <= r_steps_of Processor 1 w_bs)%nat. rewrite H4'. vm_compute. apply le_n.
Defined.
