(* ===== verification/RuntimeClient.v ===== *)
(** * What becomes of an object's closures

    Over [Runtime], with the XML module [XmlUtils] below: an object that has
    loaded its file stays in order whatever its calls and the pools do, and
    what is flushed reaches the file: within a bounded number of steps of the
    pool's scheduler after the flush's delay there is a moment at which the
    file holds the contents of the object. *)

From S2P Require Import Prelude Pool TaskQueue ExecutorPool ExecutorPoolStop TaskProcessor PoolSequence Lane Dispatch.
From S2P Require Import Errno Value Utils NumText Env FileLock Xml Store XmlUtils Base Impl System Runtime.

Section RuntimeClient.
Context `{LibXmlLaws} `{SafeBlockQueueLaws}.
Context (undefined_read : gmap string PreferencesValue -> bool * gmap string PreferencesValue).
Context (undefined_write : bool) (garbage_size : Z).
Context (Hlib : libxml_ok).

#[local] Instance store : XmlStore := xml_utils undefined_read undefined_write garbage_size.
#[local] Instance store_laws : XmlStoreLaws := xml_utils_laws undefined_read undefined_write garbage_size.

#[local] Abbreviation state := PreferencesImpl.
#[local] Abbreviation Runtime := (Runtime PreferencesImpl Task).
#[local] Abbreviation RAction := (RAction Call).

(** ** An object in order *)

(** The object has loaded its file; its marks cover what the file lacks; no
    system call fails; its contents can be represented. *)
Record steady (p : state) : Prop := {
  st_settled : settled p;
  st_queue : elems (queue_ p) = [] \/ elems (queue_ p) = [1];
  st_capacity : capacity (queue_ p) = 1%nat;
  st_synced : exists m, synced m p;
  st_faults : no_faults (env_of p);
  st_path : path_ok (path_of p);
  st_dir : path_of p ∉ dirs (fs (env_of p));
  st_contents : representable (view p)
}.

(** A flush has been asked for. *)
Definition requested (p : state) : Prop := steady p /\ elems (queue_ p) = [1].

(** The file holds the contents, and no flush is asked for. *)
Definition wrote (p : state) : Prop :=
  steady p /\ elems (queue_ p) = [] /\ modifiedKeys_ p = ∅ /\ stored (env_of p) (path_of p) = Some (view p).

(** A part changes that is not the cache: the file stays as it is. *)
Definition base_later (b b' : Base) : Prop :=
  options_ b' = options_ b /\ framed (env b) (env b') /\
  files (fs (env b')) !! filePath (options_ b) = files (fs (env b)) !! filePath (options_ b).

Lemma base_quiet_later b b' : base_quiet b b' -> base_later b b'.
Proof. intros (Ho & _ & _ & Hf & Hs). split; [done|]. split; [by split; rewrite ?Hf, ?Hs|by rewrite Hf]. Qed.

Lemma stored_at e e' f : path_ok f -> files (fs e') !! f = files (fs e) !! f -> stored e' f = stored e f.
Proof.
  intros Hf E. pose proof (path_ok_facts f Hf) as (Hc & _).
  change (files (fs e') !! c_str f ≫= text_contents = files (fs e) !! c_str f ≫= text_contents). by rewrite Hc, E.
Qed.

Lemma steady_base p b' : steady p -> base_later (base_ p) b' -> steady (upd_base b' p).
Proof.
  intros [Hs Hq Hc [m [Hst Hm]] Hf Hp Hd Hr] (Ho & Hfr & Hfile).
  assert (Hpath : path_of (upd_base b' p) = path_of p) by (unfold path_of; cbn; by rewrite Ho).
  split; try done; rewrite ?Hpath; try done.
  - exists m. split; [|done]. rewrite Hpath. change (env_of (upd_base b' p)) with (env b').
    rewrite (stored_at (env_of p) (env b')); done.
  - intros n. change (env_of (upd_base b' p)) with (env b'). rewrite (framed_fate _ _ Hfr). apply Hf.
  - change (env_of (upd_base b' p)) with (env b'). by rewrite (framed_dirs _ _ Hfr).
Qed.

Lemma no_tasks_later b : base_later b (set_tasks [] b).
Proof. split; [done|]. by split. Qed.

Lemma steady_no_tasks p : steady p -> steady (no_tasks p).
Proof. intros Hp. apply steady_base; [done|apply no_tasks_later]. Qed.

Lemma wrote_no_tasks p : wrote p -> wrote (no_tasks p).
Proof. intros (Hs & Hw). split; [by apply steady_no_tasks|done]. Qed.

Lemma requested_no_tasks p : requested p -> requested (no_tasks p).
Proof. intros (Hs & Hw). split; [by apply steady_no_tasks|done]. Qed.

(** ** Operations on the cache *)

(** Only what the format represents is put. *)
Definition op_ok (o : op) : Prop :=
  match o with OPut k v => no_nul k = true /\ lossless k v | _ => True end.

Lemma representable_insert k v m : no_nul k = true -> lossless k v -> representable m -> representable (<[k := v]> m).
Proof. intros Hk Hv Hm k' v' [[<- <-]|[_ Hl]]%lookup_insert_Some; [done|by apply Hm]. Qed.

Lemma representable_step o p : op_ok o -> representable (view p) -> representable (view (cache_step o p)).
Proof.
  intros Ho Hr. destruct o; cbn [cache_step]; try done.
  - destruct (_ && _); [|done]. destruct Ho as [Hk Hv]. unfold cache_put, view in *.
    destruct (isCleared_ p) eqn:Ec.
    + cbn. rewrite <- insert_empty. apply representable_insert; [done|done|]. intros k' v'. by rewrite lookup_empty.
    + destruct (valuesCache_ p !! key); [destruct (value_eqb _ _)|]; rewrite ?Ec; cbn; rewrite ?Ec; try done; by apply representable_insert.
  - destruct (CheckKey key =? E_OK); [|done]. rewrite cache_delete_view. intros k v [_ Hl]%lookup_delete_Some. by apply Hr.
Qed.

Lemma cache_step_base o p : base_ (cache_step o p) = base_ p.
Proof. destruct o; cbn; unfold cache_put, cache_delete; repeat case_match; done. Qed.

Lemma steady_step o p : op_ok o -> steady p -> steady (cache_step o p).
Proof.
  intros Ho Hs. pose proof Hs as [Hse Hq Hc [m [Hst Hm]] Hf Hp Hd Hr].
  assert (Hpath : path_of (cache_step o p) = path_of p) by (unfold path_of; by rewrite cache_step_base).
  assert (Henv : env_of (cache_step o p) = env_of p) by (unfold env_of; by rewrite cache_step_base).
  split; rewrite ?Hpath, ?Henv, ?cache_step_queue; try done.
  - by apply cache_step_settled.
  - exists m. split; [by rewrite Hpath, Henv|by apply cache_step_marked].
  - by apply representable_step.
Qed.

Lemma exec_steady o p : op_ok o -> steady p -> steady (Impl.exec o p).2 /\ queue_ (Impl.exec o p).2 = queue_ p.
Proof.
  intros Ho Hs. destruct (exec_settled o p (st_settled _ Hs)) as (b' & -> & Hq). cbn [snd].
  split; [|by rewrite <- (cache_step_queue o p)]. apply steady_base; [by apply steady_step|].
  rewrite cache_step_base. by apply base_quiet_later.
Qed.

(** ** Writing and flushing *)

(** A write of an object in order, whose request has been taken. *)
Lemma write_steady p : steady p -> elems (queue_ p) = [] ->
  exists p', WriteToDiskFile p = (E_OK, p') /\ wrote p'.
Proof.
  intros [Hs Hq Hc [m [Hst Hm]] Hf Hp Hd Hr] He. pose proof (path_ok_good _ Hp) as Hg.
  assert (Hns : no_short_writes (env_of p)) by (intros n k; by rewrite Hf).
  destruct (WriteToDiskFile_persists m p (conj Hst Hm) Hns Hg Hr) as (r & p' & E & Ht & Hcase).
  destruct (WriteToDiskFile_cases p) as (r0 & p0 & E0 & _ & Henv). rewrite E in E0. injection E0 as <- <-.
  assert (Hok : fst (Write_call p (env_of p)) = true) by (by apply WriteSettingXml_succeeds).
  destruct Hcase as [[-> Hst']|[_ Hbad]]; [|congruence]. exists p'. split; [done|].
  pose proof (taken_view _ _ Ht) as Hview. destruct Ht as (Hv & Hcl & Hmk & Hqq & Ho & Hl & Hlr).
  assert (Hpath : path_of p' = path_of p) by (unfold path_of; by rewrite Ho).
  assert (Hfr : framed (env_of p) (env_of p')).
  { destruct Henv as [(_ & _ & ->)|(_ & [Hq1 Hq2] & _)]; [reflexivity|].
    destruct (write_frames (path_of p) (bundleName (options_ (base_ p))) (view p) (env_of p)) as [H1' H2' H3' H4'].
    unfold Write_call in *. split; rewrite ?Hq1, ?Hq2; done. }
  assert (Hst2 : stored (env_of p') (path_of p') = Some (view p')) by (by rewrite Hpath, Hview).
  split; [|by rewrite Hqq].
  split; rewrite ?Hpath, ?Hview, ?Hqq; try done.
  - split; [rewrite Hl; apply Hs|apply Hlr, Hs].
  - exists (view p). split; [by rewrite Hpath|]. intros k Hk. by rewrite Hv in Hk.
  - intros n. by rewrite (framed_fate _ _ Hfr).
  - by rewrite (framed_dirs _ _ Hfr).
Qed.

Lemma steady_queue q p : steady p -> elems q = [] \/ elems q = [1] -> capacity q = 1%nat -> steady (upd_queue q p).
Proof. intros [] Hq Hc. by split. Qed.

Lemma pop_steady p : requested p -> exists p', pop_and_write p = (E_OK, p') /\ wrote p'.
Proof.
  intros [Hs Hq]. destruct (pop_and_write_eq p Hq) as (q & Hel & Hcap & ->).
  apply write_steady; [|done]. apply steady_queue; [done|by left|by rewrite Hcap, (st_capacity _ Hs)].
Qed.

Lemma steady_env e p : quiet (env_of p) e -> steady p -> steady (with_env e p).
Proof. intros Hq Hp. apply steady_base; [done|]. by apply base_quiet_later. Qed.

Lemma push_steady p : steady p -> elems (queue_ p) = [] -> exists q, PushNoWait (queue_ p) 1 = (true, q) /\
  forall p', steady p' -> queue_ p' = queue_ p -> requested (upd_queue q p').
Proof.
  intros Hs He. destruct (push_empty _ He) as (q & Hp & Hel & Hc); [rewrite (st_capacity _ Hs); lia|].
  exists q. split; [done|]. intros p' Hs' Hq. split; [|done]. apply steady_queue; [done|by right|by rewrite Hc, (st_capacity _ Hs)].
Qed.

Lemma push_requested p : requested p -> exists q, PushNoWait (queue_ p) 1 = (false, q) /\
  forall p', steady p' -> queue_ p' = queue_ p -> requested (upd_queue q p').
Proof.
  intros [Hs He]. destruct (push_full (queue_ p) 1) as (q & Hp & Hel & Hc); [by rewrite He, (st_capacity _ Hs)|].
  exists q. split; [done|]. intros p' Hs' Hq. split; [|by cbn; rewrite Hel].
  apply steady_queue; [done|right; by rewrite Hel|by rewrite Hc, (st_capacity _ Hs)].
Qed.

(** Asking for a flush: once, the closure is handed over with it. *)
Lemma Flush_steady p : steady p -> requested (Flush p).2 /\ (elems (queue_ p) = [] -> FlushTask ∈ tasks_ (base_ (Flush p).2)).
Proof.
  intros Hs. unfold Flush, mbind, st_bind, get, modify, mret, st_ret.
  destruct (IsClose_quiet "Flush" p) as (b & e & -> & Hq). cbn [queue_ with_env upd_base].
  destruct (st_queue _ Hs) as [He|He].
  - destruct (push_steady p Hs He) as (q & -> & Hreq).
    destruct (Hreq (with_env e p) (steady_env e p Hq Hs) eq_refl) as [Hs' Hel]. split.
    + split; [|done]. unfold on_base, post, modify. cbn [snd]. apply steady_base; [done|].
      split; [done|]. by split.
    + intros _. cbn. apply elem_of_app. right. left.
  - destruct (push_requested p (conj Hs He)) as (q & -> & Hreq). split; [|by rewrite He].
    apply Hreq; [by apply steady_env|done].
Qed.

(** A synchronous flush writes, unless a flush has been asked for. *)
Lemma FlushSync_steady p : steady p -> wrote (FlushSync p).2 \/ (requested p /\ requested (FlushSync p).2).
Proof.
  intros Hs. unfold FlushSync, mbind, st_bind, get, modify, mret, st_ret.
  destruct (IsClose_quiet "FlushSync" p) as (b & e & -> & Hq). cbn [queue_ with_env upd_base].
  destruct (st_queue _ Hs) as [He|He].
  - left. destruct (push_steady p Hs He) as (q & -> & Hreq). cbn iota beta.
    pose proof (Hreq (with_env e p) (steady_env e p Hq Hs) eq_refl) as Hr.
    rewrite PreLoad_settled by apply Hr. cbn [negb]. destruct (pop_steady _ Hr) as (p' & E & Hw). rewrite E. exact Hw.
  - right. split; [done|]. destruct (push_requested p (conj Hs He)) as (q & -> & Hreq).
    apply Hreq; [by apply steady_env|done].
Qed.

(** ** Closures *)

Lemma run_Flush_steady p : steady p -> steady (run_Flush true p).2 /\ (requested p -> wrote (run_Flush true p).2).
Proof.
  intros Hs. unfold run_Flush, mbind, st_bind, mret, st_ret. cbn [negb]. rewrite (PreLoad_settled p (st_settled _ Hs)). cbn [negb].
  destruct (st_queue _ Hs) as [He|He].
  - unfold pop_and_write, mbind, st_bind, get, modify, mret, st_ret.
    destruct (pop_spec (queue_ p)) as (Hh & Hc & Ht). rewrite He in Hh, Ht.
    destruct (PopNotWait (queue_ p)) as [has q]. cbn in Hh, Hc, Ht |- *. subst has. cbn. split; [|by intros [_ Hq]; rewrite He in Hq].
    apply steady_queue; [done|by left|by rewrite Hc, (st_capacity _ Hs)].
  - destruct (pop_steady p (conj Hs He)) as (p' & -> & Hw). split; [apply Hw|done].
Qed.

Lemma run_Notify_quiet km b : base_quiet b (run_Notify km b).2.
Proof.
  unfold run_Notify, mbind, st_bind, get, mret, st_ret. destruct (client _); [|done]. unfold zoom_env.
  pose proof (for_each_quiet (fun key => emit (EvNotifyChange (MakeUri (options_ b) key))) (elements km) (env b)) as Hq.
  destruct (for_each _ _ _) as [[] e]. split_and!; [done..|]. by apply Hq.
Qed.

(** A call on the environment within the base class. *)
Lemma base_later_env {A} (m : ST Env A) b : frames m -> keeps_file (filePath (options_ b)) m ->
  base_later b (zoom_env m b).2.
Proof.
  intros Hf Hk. unfold zoom_env. specialize (Hf (env b)). specialize (Hk (env b)). destruct (m (env b)) as [a e]. by split.
Qed.

#[local] Instance base_later_preorder : PreOrder base_later.
Proof.
  split; [intros b; split; [done|split; [reflexivity|done]]|].
  intros b1 b2 b3 (O1 & F1 & K1) (O2 & F2 & K2). split; [congruence|]. split; [by etrans|]. rewrite O1 in K2. by rewrite K2.
Qed.

(** The next call of the base class. *)
Lemma base_later_bind {A B} (m : ST Env A) (k : A -> ST Base B) b : frames m -> keeps_file (filePath (options_ b)) m ->
  (forall a b', options_ b' = options_ b -> base_later b' (k a b').2) -> base_later b ((a ← zoom_env m; k a) b).2.
Proof.
  intros Hf Hk Hb. pose proof (base_later_env m b Hf Hk) as Hl. unfold mbind, st_bind.
  destruct (zoom_env m b) as [a b']. etrans; [exact Hl|]. apply Hb, Hl.
Qed.

Lemma run_ObjectUsage_later b : path_ok (filePath (options_ b)) -> base_later b (run_ObjectUsage true b).2.
Proof.
  intros Hp. unfold run_ObjectUsage, mbind at 1, st_bind at 1, get. cbn [negb]. set (f := filePath (options_ b)) in *.
  apply base_later_bind; [auto with prefs|apply keeps_Access|]. intros r b1 Ho1.
  destruct (negb (r =? 0)); [split; [done|by split]|].
  apply base_later_bind; [auto with prefs|apply keeps_Access|]. intros r2 b2 Ho2.
  destruct (r2 =? 0); [split; [done|by split]|].
  apply base_later_bind; [auto with prefs| |intros [] b3 Ho3].
  { intros e. by destruct (ReportFault_emits (mkReportFaultParam "object usage" (bundleName (options_ b))
      (if isEnhance (options_ b) then ENHANCE_DB else NORMAL_DB) (extract_name f) E_OK "") e) as [ev ->]. }
  apply base_later_bind; [auto with prefs| |intros fd b4 Ho4].
  { rewrite Ho3, Ho2, Ho1. apply keeps_syscall. intros r3 f3. unfold mbind, st_bind, get, set_files, modify, mret, st_ret. cbn.
    rewrite lookup_insert_ne; [done|]. rewrite (c_str_no_nul (c_str _)).
    - apply not_eq_sym, (companion_ne f STR_OBJECT_FLAG); [apply Hp|done..].
    - unfold MakeFilePath. rewrite c_str_no_nul; rewrite no_nul_app; by rewrite (proj1 (proj2 Hp)). }
  destruct fd; [|split; [done|by split]].
  apply base_later_bind; [auto with prefs|apply keeps_Close|]. intros r5 b5 _. split; [done|by split].
Qed.

Lemma task_steady t p : steady p ->
  steady (run_task true t p).2 /\ (requested p -> match t with FlushTask => wrote (run_task true t p).2 | _ => requested (run_task true t p).2 end).
Proof.
  intros Hs. pose proof (st_settled _ Hs) as [Hl _].
  assert (Hbase : forall m : ST Base unit, base_later (base_ p) (m (base_ p)).2 -> steady (on_base m p).2 /\
    (requested p -> requested (on_base m p).2)).
  { intros m Hm. unfold on_base. destruct (m (base_ p)) as [[] b']. cbn [snd] in *.
    assert (Hs' : steady (upd_base b' p)) by by apply steady_base. split; [done|]. intros [_ He]. by split. }
  destruct t; cbn [run_task].
  - unfold LoadFromDisk, mbind, st_bind, get, mret, st_ret. rewrite Hl. done.
  - by apply run_Flush_steady.
  - apply Hbase, base_quiet_later, run_Notify_quiet.
  - apply Hbase, run_ObjectUsage_later. apply Hs.
Qed.

(** ** Steps of the object and its executors *)

(** The object is not initialised again, and only what the format represents
    is put. *)
Definition call_ok (c : Call) : Prop :=
  match c with CInit => False | COp o => op_ok o | _ => True end.

Definition allowed (b : RAction) : Prop := match b with RCall c => call_ok c | _ => True end.

Lemma call_steady c p : call_ok c -> steady p ->
  steady (impl_call c p).2 /\ (requested p -> requested (impl_call c p).2 \/ wrote (impl_call c p).2).
Proof.
  intros Hc Hs. destruct c as [|o| | |]; cbn [impl_call]; unfold mbind, st_bind, mret, st_ret.
  - done.
  - destruct (exec_steady o p Hc Hs) as [Hs' Hq]. destruct (Impl.exec o p) as [r p']. cbn in *.
    split; [done|]. intros [_ He]. left. split; [done|by rewrite Hq].
  - destruct (Flush_steady p Hs) as [Hr _]. split; [apply Hr|by left].
  - pose proof (FlushSync_steady p Hs) as Hf. destruct (FlushSync p) as [r p']. cbn in *.
    destruct Hf as [Hw|[_ Hr]]; [split; [apply Hw|by right]|split; [apply Hr|by left]].
  - cbn. assert (Hs' : steady (upd_active false p)) by by destruct Hs; split. split; [done|]. intros [_ He]. by left.
Qed.

(** What a step does to the object. *)
Lemma step_object b (r r' : Runtime) : r_ok r -> r_step b r = Done (tt, r') ->
  object r' = object r \/ (exists c, b = RCall c /\ object r' = after_call c (object r)) \/
  exists t, object r' = after t (object r).
Proof.
  intros Hr E. destruct b as [c|w i|n].
  - destruct (r_call c r Hr) as (r1 & E1 & _ & Ho & _). assert (r1 = r') as -> by congruence. right. left. by exists c.
  - destruct (r_step_pool w i r Hr) as (ts & l & r1 & _ & E1 & _ & Hh & Ho & _). assert (r1 = r') as -> by congruence.
    destruct Hh as [[-> _]|(n & t & -> & _)]; [by left|]. right. right. by exists t.
  - destruct (r_step_tick n r Hr) as (r1 & E1 & _ & Ho & _). assert (r1 = r') as -> by congruence. by left.
Qed.

Lemma step_steady b (r r' : Runtime) : r_ok r -> allowed b -> steady (object r) -> r_step b r = Done (tt, r') ->
  steady (object r') /\ (requested (object r) -> requested (object r') \/ wrote (object r')).
Proof.
  intros Hr Hb Hs E. destruct (step_object b r r' Hr E) as [->|[(c & -> & ->)|(t & ->)]]; [by split; [|left]|..].
  - destruct (call_steady c _ Hb Hs) as [Hs' Hq]. split; [by apply steady_no_tasks|].
    intros Hreq. destruct (Hq Hreq); [left; by apply requested_no_tasks|right; by apply wrote_no_tasks].
  - destruct (task_steady t _ Hs) as [Hs' Hq]. split; [by apply steady_no_tasks|].
    intros Hreq%Hq. destruct t; first [left; by apply requested_no_tasks|right; by apply wrote_no_tasks].
Qed.

(** In the run there is a moment at which the file holds the contents. *)
Definition writes_in (bs : list RAction) (r : Runtime) : Prop :=
  exists bs1 bs2 r1, bs = bs1 ++ bs2 /\ r_run bs1 r = Done (tt, r1) /\ wrote (object r1).

Lemma run_steady bs (r r' : Runtime) : r_ok r -> Forall allowed bs -> steady (object r) -> r_run bs r = Done (tt, r') ->
  steady (object r') /\ (requested (object r) -> requested (object r') \/ writes_in bs r).
Proof.
  revert r. induction bs as [|b bs IH]; intros r Hr Ha Hs; [intros [= ->]; by split; [|left]|].
  apply Forall_cons in Ha as [Hb Ha]. rewrite r_run_cons. intros (r1 & E & E1).
  destruct (r_step_ok b r r1 Hr E) as [Hr1 _]. destruct (step_steady b r r1 Hr Hb Hs E) as [Hs1 Hq].
  destruct (IH r1 Hr1 Ha Hs1 E1) as [Hs2 Hq2]. split; [done|]. intros Hreq.
  assert (Hrun : forall bs1 r2, r_run bs1 r1 = Done (tt, r2) -> r_run (b :: bs1) r = Done (tt, r2)).
  { intros bs1 r2 E2. apply r_run_cons. by exists r1. }
  destruct (Hq Hreq) as [Hreq1|Hw].
  - destruct (Hq2 Hreq1) as [?|(bs1 & bs2 & r2 & -> & E2 & Hw)]; [by left|]. right.
    exists (b :: bs1), bs2, r2. split; [done|]. split; [by apply Hrun|done].
  - right. exists [b], bs, r1. split; [done|]. split; [by apply Hrun|done].
Qed.

(** ** Loading *)

(** Opening an object on a stored map: all of the object afterwards. *)
Lemma LoadFromDisk_opened options e m :
  no_faults e -> path_ok (filePath options) -> stored e (filePath options) = Some m ->
  exists b, LoadFromDisk (PreferencesImpl_new options e) =
    (tt, mkImpl b true false true ∅ false true m (queue_new 1) false) /\
    options_ b = options /\ framed e (env b) /\ stored (env b) (filePath options) = Some m.
Proof.
  intros Hnf Hf Hst. set (f := filePath options) in *.
  unfold LoadFromDisk, Impl_ReadSettingXml, opts, on_env, on_base, zoom_env, gets,
    mbind, st_bind, get, modify, mret, st_ret. cbn [PreferencesImpl_new loaded_ base_ options_ PreferencesBase env].
  fold f. pose proof (frames_Access (parent_dir f) e) as Hf1.
  assert (Hst1 : stored (Access (parent_dir f) e).2 f = Some m) by (rewrite <- Hst; apply stored_files, on_path_files).
  destruct (Access (parent_dir f) e) as [r e1]. cbn [snd] in *.
  assert (Hnf1 : no_faults e1) by (intros n; rewrite (framed_fate _ _ Hf1); apply Hnf).
  pose proof (ReadSettingXml_succeeds undefined_read undefined_write garbage_size f (bundleName options) ∅ m e1 Hnf1 Hf Hst1) as Hok.
  pose proof (read_frames f (bundleName options) ∅ e1) as Hf2. destruct (path_ok_good f Hf) as (_ & Hnn & Hlen).
  destruct (read_stored f (bundleName options) ∅ m e1 Hnf1 Hnn Hlen Hst1 Hok) as [Hcon Hst2].
  destruct (negb (r =? 0)); cbn -[ReadSettingXml]; fold f;
    destruct (ReadSettingXml f (bundleName options) ∅ e1) as [[ok con] e2]; cbn in Hok, Hcon, Hst2, Hf2; subst ok con; cbn;
    rewrite map_empty_union; eexists; (split; [reflexivity|]); cbn; (split; [done|]); (split; [by etrans|done]).
Qed.

(** The load that a new object asks for. *)
Lemma give_new_load (p : state) : exists l,
  give_all [LoadTask] (runtime_of p) = Done (tt, mkRuntime p (mkLane executorPool_new []) l) /\ table l = [LoadTask].
Proof.
  destruct (lane_Execute_ok LoadTask (mkLane processor_pool []) (lane_ok_new 0)) as (z & l & E & Hg).
  exists l. split; [|apply Hg]. cbn [give_all]. unfold give. cbn [way impl_client task_way].
  unfold give_load, on_lane, mbind, so_bind. cbn [lane_of runtime_of processor_]. by rewrite E.
Qed.

(** An object that was made and is being loaded. *)
Definition loading (p : state) (r : Runtime) : Prop :=
  r_ok r /\ object r = p /\ table (executorPool_ r) = [] /\ table (processor_ r) = [LoadTask].

Lemma loading_step p b (r r' : Runtime) : loading p r -> pools_only b -> r_step b r = Done (tt, r') ->
  loading p r' \/ (r_ok r' /\ object r' = after LoadTask p).
Proof.
  intros (Hr & Ho & Ht1 & Ht2) Hb E. destruct b as [c|w i|n]; [done|..].
  - destruct (on_lane_step w (inner_action i) r Hr ltac:(by destruct i)) as (ts & l' & El & Eo & Hr1 & _ & Hh).
    cbn [r_step] in E. rewrite (so_bind_Done _ _ _ _ _ Eo) in E.
    pose proof (lane_step_table _ _ _ _ El) as Htab. destruct (set_lane_of w l' r) as (L1 & L2 & L3).
    destruct Hh as [[-> _]|(n & t & -> & Ht & _)].
    + cbn [run_closures] in E. injection E as <-. left. split; [done|]. split; [by rewrite L3|].
      destruct w; cbn in *; by rewrite Htab.
    + right. destruct (run_closures_ok [t] _ Hr1) as (r2 & E2 & Hr2 & Ho2 & _). assert (r2 = r') as -> by congruence.
      split; [done|]. rewrite Ho2, L3, Ho. assert (t = LoadTask) as ->; [|done].
      destruct w; cbn in Ht; [by rewrite Ht1 in Ht|rewrite Ht2 in Ht; destruct n as [|[]]; [by injection Ht as <-|done..]].
  - destruct (r_step_tick n r Hr) as (r1 & E1 & Hr1 & Ho1 & Hla). assert (r1 = r') as -> by congruence. left.
    split; [done|]. split; [congruence|].
    split; [rewrite <- Ht1; exact (lane_step_table _ _ _ _ (proj2 (Hla Static)))|rewrite <- Ht2; exact (lane_step_table _ _ _ _ (proj2 (Hla Processor)))].
Qed.

(** A load that was asked for and is run. *)
Lemma loading_run p bs r : loading p r -> Forall pools_only bs -> runs_in LoadTask bs r ->
  exists bs1 bs2 r1, bs = bs1 ++ bs2 /\ r_run bs1 r = Done (tt, r1) /\ r_ok r1 /\ object r1 = after LoadTask p.
Proof.
  intros Hl Hb (bs1 & b & bs2 & r1 & r2 & -> & E1 & E2 & _ & Ho). revert r Hl E1 Hb.
  induction bs1 as [|b1 bs1 IH]; intros r Hl E1 Hb; cbn [app] in *; apply Forall_cons in Hb as [Hb1 Hb].
  - injection E1 as ->. exists [b], bs2, r2. split; [done|]. split; [apply r_run_cons; by exists r2|].
    pose proof Hl as (Hr & Hobj & _). destruct (r_step_ok b r1 r2 Hr E2) as [Hr3 _]. split; [done|]. by rewrite Ho, Hobj.
  - apply r_run_cons in E1 as (r0 & E0 & E1).
    assert (Hrun : forall bs' r', r_run bs' r0 = Done (tt, r') -> r_run (b1 :: bs') r = Done (tt, r')).
    { intros bs' r' E'. apply r_run_cons. by exists r0. }
    destruct (loading_step p b1 r r0 Hl Hb1 E0) as [Hl0|[Hr0 Ho0]].
    + destruct (IH r0 Hl0 E1 Hb) as (cs1 & cs2 & r3 & Eq & E3 & H3). exists (b1 :: cs1), cs2, r3.
      split; [by rewrite Eq|]. split; [by apply Hrun|done].
    + exists [b1], (bs1 ++ b :: bs2), r0. split; [done|]. split; [by apply Hrun|done].
Qed.

Lemma opened_steady options e m :
  no_faults e -> path_ok (filePath options) -> filePath options ∉ dirs (fs e) -> representable m ->
  stored e (filePath options) = Some m ->
  let p := after LoadTask (PreferencesImpl_new options e) in
  steady p /\ elems (queue_ p) = [] /\ view p = m /\ options_ (base_ p) = options.
Proof.
  intros Hnf Hf Hd Hm Hst. destruct (LoadFromDisk_opened options e m Hnf Hf Hst) as (b & E & Ho & Hfr & Hst').
  cbv zeta. unfold after. cbn [runs drained impl_client run_task]. rewrite E. cbn [snd]. set (p := mkImpl _ _ _ _ _ _ _ _ _ _).
  assert (Hpath : path_of p = filePath options) by (unfold path_of; cbn; by rewrite Ho).
  split; [|split; [apply elems_new|by split]]. apply steady_no_tasks. split; rewrite ?Hpath; try done.
  - left. apply elems_new.
  - apply capacity_new.
  - exists m. split; [by rewrite Hpath|]. by intros k.
  - intros n. change (fate (fs (env b)) n = SysOk). rewrite (framed_fate _ _ Hfr). apply Hnf.
  - change (filePath options ∉ dirs (fs (env b))). by rewrite (framed_dirs _ _ Hfr).
Qed.

(** ** Properties *)

(** C16: A new object is loaded: let it be made over a file that parses to
    contents which the format represents, on the path of a file, with no system
    call failing or cut short, and let [Init] hand its load to the task
    processor, which takes it.  Then, with nothing but the executors at work and
    no call in flight, six steps of the scheduler of the task processor's pool
    for each task that is queued there and six more are enough for the object to
    have read its file; it then shows what the file holds and is in order. *)
Theorem object_loads (options : Options) (e : Env) (m : gmap string PreferencesValue) (bs0 bs : list RAction)
    (Hnf : no_faults e) (Hpath : path_ok (filePath options)) (Hd : filePath options ∉ dirs (fs e))
    (Hrep : representable m) (Hst : stored e (filePath options) = Some m) (Hacc : taskAccepted (svc e) = true)
    (Hbs0 : Forall pools_only bs0) (Hbs : Forall pools_only bs) :
  exists r1 r2, r_step (RCall CInit) (Runtime_new options e) = Done (tt, r1) /\ r_run bs0 r1 = Done (tt, r2) /\
    (calls (sys (processor_ r2)) = [] ->
     (forall x, scheduler_ (sys (processor_ r2)) = Some x ->
        (enough_steps (processor_ r2) <= r_steps_of Processor x bs)%nat) ->
     exists bs1 bs2 r3, bs0 ++ bs = bs1 ++ bs2 /\ r_run bs1 r1 = Done (tt, r3) /\ r_ok r3 /\
       steady (object r3) /\ elems (queue_ (object r3)) = [] /\ view (object r3) = m).
Proof.
  set (r := Runtime_new options e). pose proof (r_ok_made options e : r_ok r) as Hr.
  assert (Hcall : (impl_call CInit (object r)).2 = upd_base (set_tasks [LoadTask] (base_ (object r))) (object r)).
  { cbn. unfold Init, StartLoadFromDisk, mbind, st_bind, gets, modify, mret, st_ret. cbn. by rewrite Hacc. }
  destruct (object_posted_runs CInit LoadTask bs0 bs r Hr) as (r1 & r2 & E1 & E2 & Hruns); [rewrite Hcall; by left|].
  exists r1, r2. split; [done|]. split; [done|]. intros Hc Hx.
  destruct (r_call CInit r Hr) as (r0 & E0 & Hr1 & Ho1 & Hg1). assert (r0 = r1) as -> by congruence. clear E0.
  assert (Hload : loading (PreferencesImpl_new options e) r1).
  { split; [done|]. split; [by rewrite Ho1; unfold after_call; rewrite Hcall|].
    revert E1. cbn [r_step]. rewrite (so_bind_Done _ _ _ tt (mkRuntime (impl_call CInit (object r)).2 (executorPool_ r) (processor_ r)))
      by (unfold on_object; by rewrite impl_call_eq).
    unfold hand_over. rewrite so_bind_st. cbn [get fst snd object]. rewrite Hcall.
    rewrite (so_bind_Done _ _ _ tt (runtime_of (PreferencesImpl_new options e))) by done.
    destruct (give_new_load (PreferencesImpl_new options e)) as (l & El & Htab). cbn [fst posted impl_client upd_base base_ set_tasks tasks_ object].
    rewrite El.
    intros [= <-]. split; [done|exact Htab]. }
  apply (loading_run _ _ _ Hload) in Hruns as (bs1 & bs2 & r3 & Eq & E3 & Hr3 & Ho3); [| |done|..|exact Hx].
  - exists bs1, bs2, r3. split; [done|]. split; [done|]. split; [done|]. rewrite Ho3.
    destruct (opened_steady options e m Hnf Hpath Hd Hrep Hst) as (Hs & He & Hv & _). done.
  - by apply Forall_app.
  - destruct (r_run_ok bs0 r1 r2 Hr1 E2) as [_ Hla].
    pose proof (la_clock _ _ (Hla Processor)) as Hclk. rewrite (gr_clock _ _ (Hg1 Processor)) in Hclk.
    by rewrite Z.add_0_r.
Qed.

End RuntimeClient.

(** ** Concrete runs *)

Section RuntimeClient_witness.
#[local] Abbreviation Runtime := (Runtime PreferencesImpl Task).
#[local] Abbreviation RAction := (RAction Call).
#[local] Instance ref_store : XmlStore := xml_utils (fun con => (false, con)) false 0.
#[local] Instance ref_store_laws : XmlStoreLaws := xml_utils_laws (fun con => (false, con)) false 0.

(** An empty document is loaded. *)
Example object_loads_witness :
  exists r1 r3 bs1, r_step (RCall CInit) (Runtime_new w_options (w_env ref_doc (fun _ => SysOk))) = Done (tt, r1) /\
    r_run bs1 r1 = Done (tt, r3) /\ view (object r3) = ∅.
Proof.
  destruct (object_loads (fun con => (false, con)) false 0 w_options (w_env ref_doc (fun _ => SysOk)) ∅ w_bs0 w_bs)
    as (r1 & r2 & E1 & E2 & H).
  - done.
  - exact ref_path_ok.
  - set_solver.
  - intros k v. by rewrite lookup_empty.
  - vm_compute. reflexivity.
  - reflexivity.
  - repeat constructor.
  - repeat constructor.
  - destruct (lane_after_run Processor _ _ _ _ _ ([], 0, Some 1%positive, 12%nat) E1 E2 ltac:(vm_compute; reflexivity)) as (Hc & _ & Hx & Hn).
    destruct H as (bs1 & bs2 & r3 & _ & E3 & _ & _ & _ & Hv); [exact Hc| |].
    + intros x Hx'. change (scheduler_ (sys (lane_of Processor r2)) = Some x) in Hx'. rewrite Hx in Hx'. injection Hx' as <-.
      change (enough_steps (lane_of Processor r2) <= r_steps_of Processor 1 w_bs)%nat. rewrite Hn. vm_compute. apply le_n.
    + exists r1, r3, bs1. split; [exact E1|]. split; [exact E3|exact Hv].
Defined.

(** An object in order, with something put into it, on fresh pools. *)
Definition s_put : PreferencesImpl := upd_cache {["k"]} false {["k" := VInt 1]} s_loaded.
Definition w_runtime : Runtime := mkRuntime s_put (mkLane executorPool_new []) (mkLane processor_pool []).

Lemma s_put_steady : steady (fun con => (false, con)) false 0 s_put.
Proof.
  split.
  - by split.
  - by left.
  - reflexivity.
  - exists ∅. split; [vm_compute; reflexivity|]. intros k. cbn. rewrite elem_of_singleton.
    destruct (decide (k = "k")) as [->|Hk]; [done|]. by rewrite lookup_singleton_ne, lookup_empty by done.
  - done.
  - exact ref_path_ok.
  - set_solver.
  - assert (Hv : view s_put = {["k" := VInt 1]}) by reflexivity. rewrite Hv.
    intros k v [<- <-]%lookup_singleton_Some. by split_and!.
Qed.

Definition w_flush_bs0 : list RAction := replicate 2 (RPool Static (ICall 0)) ++ [RTick 100].
Definition w_flush_bs : list RAction := replicate 12 (RPool Static (IThread 1)).

End RuntimeClient_witness.
