(* ===== verification/JsSystemClient.v ===== *)
(** * What a program sees of the system storage

    Facts about [JsSystem]: the calls are those of a map of texts with limits of
    their own, and with the XML module below what they do is in the file when
    they are done. *)

From S2P Require Import Prelude Errno Value Utils NumText ConcurrentMap Env FileLock Store DbAdapter Base Impl Enhance Helper.
From S2P Require Import Handle JsValue Js JsStorage JsClient JsSystem.
From S2P Require Import Xml XmlUtils System Lane Dispatch Runtime RuntimeClient.

Section js_system_client.
Context `{XmlStore} `{SafeBlockQueue} `{KvDb} `{Iteration} `{Napi} `{!AbilityRuntime} `{!WorkEngine}.
Context (RSIZE_MAX : Z) (gskvEnabled : bool).

(** The object [r] is on its file: what reads keep, and changes that are
    allowed keep when they are flushed. *)
Context (on_file : positive -> Helper -> Prop) (change_ok : op -> Prop).
Context (on_file_get : forall r key d h a h', on_file r h -> virtual r (Get key d) (Enh_Get key d) h = Done (a, h') -> on_file r h').
Context (on_file_change : forall r q (meth : ST PreferencesImpl Z) me h a h1 z h2, exec q = (x ← meth; mret (RCode x)) -> change_ok q -> on_file r h ->
  virtual r meth me h = Done (a, h1) -> obj_flushsync r h1 = Done (z, h2) -> on_file r h2).

(** The file [path] is the object [r], which holds [p]. *)
Record file_linked (s : SystemState) (path : string) (r : positive) (p : PreferencesImpl) : Prop := {
  fl_name : GetPrefName (sy_js s) = (path, sy_js s);
  fl_real : GetRealPath path = (path, E_OK);
  fl_cached : exists b, prefsCache_ (js_hlp (sy_js s)) !! path = Some (Some r, b);
  fl_opened : opened (js_hlp (sy_js s)) r p
}.

(** ** The specification *)

Definition long_key (c : SysContext) : bool := 32 <? slen (sc_key c).
Definition no_key (c : SysContext) : bool := slen (sc_key c) =? 0.

(** The code and the value that a work leaves, and the map then. *)
Definition sys_spec (c : SysContext) (m : gmap string PreferencesValue) : Z * string * gmap string PreferencesValue :=
  match sc_request c with
  | SysGet =>
      if long_key c then (E_KEY_EXCEED_LENGTH_LIMIT, sc_val c, m)
      else if 128 <? slen (sc_def c) then (E_DEFAULT_EXCEED_LENGTH_LIMIT, sc_val c, m)
      else (E_OK, match m !! sc_key c with Some (VString x) => if no_key c then sc_def c else x | _ => sc_def c end, m)
  | SysSet =>
      if long_key c then (E_KEY_EXCEED_LENGTH_LIMIT, sc_val c, m)
      else if 128 <? slen (sc_val c) then (E_VALUE_EXCEED_LENGTH_LIMIT, sc_val c, m)
      else if no_key c then (E_KEY_EMPTY, sc_val c, m)
      else (E_OK, sc_val c, <[sc_key c := VString (sc_val c)]> m)
  | SysDelete =>
      if long_key c then (E_KEY_EXCEED_LENGTH_LIMIT, sc_val c, m)
      else if no_key c then (E_KEY_EMPTY, sc_val c, m)
      else (E_OK, sc_val c, delete (sc_key c) m)
  | SysClear => (E_OK, sc_val c, ∅)
  end.

(** ** The work *)

Definition set_sy_hlp h (s : SystemState) : SystemState := set_sy_js (set_hlp h (sy_js s)) s.

Lemma sys_store_done {A} (f : SO Helper A) a s h : f (js_hlp (sy_js s)) = Done (a, h) -> sys_on_store f s = Done (a, set_sy_hlp h s).
Proof. intros E. unfold sys_on_store, sys_on_js, js_on_helper. by rewrite E. Qed.

Lemma sys_js_done {A} (f : SO Js A) a s j : f (sy_js s) = Done (a, j) -> sys_on_js f s = Done (a, set_sy_js j s).
Proof. intros E. unfold sys_on_js. by rewrite E. Qed.

(** The name of the file depends on the mode of the context only. *)
Lemma GetPrefName_mode j j' path : gContextNode j' = gContextNode j -> GetPrefName j = (path, j) -> GetPrefName j' = (path, j').
Proof.
  intros Hm. unfold GetPrefName, GetContextInfo, GetContextMode, mbind, st_bind, mret, st_ret. rewrite Hm.
  destruct (gContextNode j) eqn:Eg; [destruct (IsStageContext None) as [b|]|..]; try by intros [= <-].
  intros [= _ E]. apply (f_equal gContextNode) in E. cbn in E. rewrite Eg in E. by destruct b.
Qed.

Lemma file_linked_hlp s path r p h p' : file_linked s path r p -> prefsCache_ h = prefsCache_ (js_hlp (sy_js s)) -> opened h r p' ->
  file_linked (set_sy_hlp h s) path r p'.
Proof.
  intros [Hn Hr Hc Ho] Eh Ho'. split; [by apply (GetPrefName_mode (sy_js s))|done|by cbn; rewrite Eh|done].
Qed.

Lemma open_cached s path r p : file_linked s path r p ->
  sys_on_store (GetPreferences gskvEnabled (path_options path)) s = Done ((Some r, E_OK), set_sy_hlp (js_hlp (sy_js s)) s).
Proof.
  intros [_ Hr [b Hc] _]. apply sys_store_done. unfold GetPreferences. cbn [filePath path_options]. rewrite Hr.
  assert (refused (path, E_OK) = false) as ->.
  { unfold refused. cbn. rewrite orb_false_r. apply bool_decide_eq_false. intros ->. by vm_compute in Hr. }
  rewrite so_bind_st. cbn [get fst snd]. by rewrite Hc.
Qed.

(** A call on the object of the file. *)
Lemma sys_virtual {A} (meth : ST PreferencesImpl A) (wrap : A -> reply) o me s path r p m :
  exec o = (x ← meth; mret (wrap x)) -> file_linked s path r p -> same_map (view p) m ->
  exists a h p', virtual r meth me (js_hlp (sy_js s)) = Done (a, h) /\ sys_on_store (virtual r meth me) s = Done (a, set_sy_hlp h s) /\ file_linked (set_sy_hlp h s) path r p' /\
    same_reply (wrap a) (spec o m).1 /\ same_map (view p') (spec o m).2.
Proof.
  intros He Hl Hm. destruct (virtual_same meth wrap o me _ _ _ _ He (fl_opened _ _ _ _ Hl) Hm) as (a & h & p' & E & Ho & Ha & Hv).
  exists a, h, p'. split; [exact E|]. split; [exact (sys_store_done _ _ _ _ E)|]. split; [|done].
  apply (file_linked_hlp s path r p); [done|exact (virtual_cache _ _ _ _ _ _ E)|done].
Qed.

Lemma sys_flush s path r p : file_linked s path r p ->
  exists z h p', obj_flushsync r (js_hlp (sy_js s)) = Done (z, h) /\ sys_on_store (obj_flushsync r) s = Done (z, set_sy_hlp h s) /\ file_linked (set_sy_hlp h s) path r p' /\ view p' = view p.
Proof.
  intros Hl. destruct (virtual_flush (run_st (e_on_base Base_FlushSync)) _ _ _ (fl_opened _ _ _ _ Hl)) as (z & h & p' & E & Ho & Hv).
  exists z, h, p'. split; [exact E|]. split; [exact (sys_store_done _ _ _ _ E)|]. split; [|done].
  apply (file_linked_hlp s path r p); [done|exact (virtual_cache _ _ _ _ _ _ E)|done].
Qed.

(** What a work ends with. *)
Definition works (m : SO SystemState (Z * string)) (s : SystemState) (path : string) (r : positive) (res : Z * string) (after : gmap string PreferencesValue) : Prop :=
  exists h p', m s = Done (res, set_sy_hlp h s) /\ file_linked (set_sy_hlp h s) path r p' /\ on_file r h /\ same_map (view p') after.

Lemma works_ret res s path r p m : file_linked s path r p -> on_file r (js_hlp (sy_js s)) -> same_map (view p) m -> works (mret res) s path r res m.
Proof.
  intros Hl Hf Hm. exists (js_hlp (sy_js s)), p. split; [by destruct s as [[] ? ?]|]. split; [|done].
  apply (file_linked_hlp s path r p); [done|done|by destruct Hl].
Qed.

(** A change of the file, which is then flushed. *)
Lemma works_changed (meth : ST PreferencesImpl Z) q me c s path r p m z after :
  exec q = (x ← meth; mret (RCode x)) -> change_ok q -> spec q m = (RCode z, after) -> sc_prefName c = path -> file_linked s path r p ->
  on_file r (js_hlp (sy_js s)) -> same_map (view p) m ->
  works (with_file gskvEnabled c (fun r => output ← sys_on_store (virtual r meth me); _ ← sys_on_store (obj_flushsync r); mret (output, sc_val c)))
    s path r (z, sc_val c) after.
Proof.
  intros He Hok Hq Hp Hl Hf Hm.
  set (s0 := set_sy_hlp (js_hlp (sy_js s)) s).
  assert (Hl0 : file_linked s0 path r p) by (apply (file_linked_hlp s path r p); [done|done|by destruct Hl]).
  destruct (sys_virtual meth RCode q me s0 path r p m He Hl0 Hm) as (a & h & p1 & E1h & E1 & Hl1 & Ha & Hm1). rewrite Hq in Ha, Hm1. cbn in Ha, Hm1. subst a.
  destruct (sys_flush _ _ _ _ Hl1) as (z' & h2 & p2 & E2h & E2 & Hl2 & Hv2).
  exists h2, p2. split; [|split; [exact Hl2|split; [exact (on_file_change r q meth me _ _ _ _ _ He Hok Hf E1h E2h)|by rewrite Hv2]]].
  unfold with_file. rewrite Hp, (so_bind_Done _ _ _ _ _ (open_cached s path r p Hl)). change (E_OK =? E_OK) with true. cbn [negb]. by rewrite (so_bind_Done _ _ _ _ _ E1), (so_bind_Done _ _ _ _ _ E2).
Qed.

Lemma CheckKey_short k : (32 <? slen k) = false -> CheckKey k = (if slen k =? 0 then E_KEY_EMPTY else E_OK).
Proof.
  intros Hk. unfold CheckKey. destruct (slen k =? 0); [done|].
  replace (MAX_KEY_LENGTH <? slen k) with false; [done|]. symmetry. apply Z.ltb_ge in Hk. apply Z.ltb_ge. unfold MAX_KEY_LENGTH. lia.
Qed.

(** The file is there already. *)
Lemma file_reopened s path r p : file_linked s path r p -> file_linked (set_sy_hlp (js_hlp (sy_js s)) s) path r p.
Proof. intros Hl. apply (file_linked_hlp s path r p); [done|done|by destruct Hl]. Qed.

Lemma as_string_same a b : value_same a b -> as_string a = as_string b.
Proof. intros [->|E]; [done|]. destruct a, b; try done. cbn in E. by apply bool_decide_eq_true in E as ->. Qed.

Lemma get_spec c s path r p m : sc_request c = SysGet -> sc_prefName c = path -> file_linked s path r p -> on_file r (js_hlp (sy_js s)) -> same_map (view p) m ->
  works (sys_get gskvEnabled c) s path r (sys_spec c m).1 (sys_spec c m).2.
Proof.
  intros Hq Hp Hl Hf Hm. unfold sys_spec. rewrite Hq. unfold sys_get, long_key, no_key, SYS_MAX_KEY_LENGTH, SYS_MAX_VALUE_LENGTH.
  destruct (32 <? slen (sc_key c)) eqn:Hk; [by apply (works_ret _ _ _ _ p)|].
  destruct (128 <? slen (sc_def c)); [by apply (works_ret _ _ _ _ p)|].
  destruct (sys_virtual (Get (sc_key c) (VString (sc_def c))) RValue (OGet (sc_key c) (VString (sc_def c))) (Enh_Get (sc_key c) (VString (sc_def c)))
    _ path r p m eq_refl (file_reopened _ _ _ _ Hl) Hm) as (a & h & p1 & E & _ & Hl1 & Ha & Hm1).
  exists h, p1. split; [|split; [exact Hl1|split; [exact (on_file_get _ _ _ _ _ _ Hf E)|exact Hm1]]].
  rewrite Hp, (so_bind_Done _ _ _ _ _ (open_cached s path r p Hl)).
  assert (Eget : sys_on_store (obj_GetString r (sc_key c) (sc_def c)) (set_sy_hlp (js_hlp (sy_js s)) s) =
    Done (default (sc_def c) (as_string a), set_sy_hlp h s)).
  { apply (sys_store_done (obj_GetString r (sc_key c) (sc_def c)) _ (set_sy_hlp (js_hlp (sy_js s)) s)). unfold obj_GetString, obj_get, PreferencesValue_string.
    rewrite (so_bind_Done _ _ _ _ _ E). by destruct a. }
  rewrite (so_bind_Done _ _ _ _ _ Eget). cbn [fst snd]. unfold mret, so_ret. do 3 f_equal.
  cbn [spec fst same_reply] in Ha. apply as_string_same in Ha. rewrite Ha, (CheckKey_short _ Hk).
  destruct (slen (sc_key c) =? 0); [by destruct (m !! sc_key c) as [[]|]|]. cbn. by destruct (m !! sc_key c) as [[]|].
Qed.

(** What a call asks of the object. *)
Definition sys_op (c : SysContext) : op :=
  match sc_request c with
  | SysGet => OGet (sc_key c) (VString (sc_def c))
  | SysSet => OPut (sc_key c) (VString (sc_val c))
  | SysDelete => ODelete (sc_key c)
  | SysClear => OClear
  end.

(** The work of a call. *)
Lemma execute_spec c s path r p m : change_ok (sys_op c) -> sc_prefName c = path -> file_linked s path r p -> on_file r (js_hlp (sy_js s)) -> same_map (view p) m ->
  works (sys_execute RSIZE_MAX gskvEnabled c) s path r (sys_spec c m).1 (sys_spec c m).2.
Proof.
  unfold sys_op. intros Hok Hp Hl Hf Hm. unfold sys_execute. destruct (sc_request c) eqn:Hq; [by apply (get_spec c s path r p)|..]; unfold sys_spec; rewrite Hq.
  - unfold sys_set, long_key, SYS_MAX_KEY_LENGTH, SYS_MAX_VALUE_LENGTH. destruct (32 <? slen (sc_key c)) eqn:Hk; [by apply (works_ret _ _ _ _ p)|].
    destruct (128 <? slen (sc_val c)) eqn:Hv; [by apply (works_ret _ _ _ _ p)|]. unfold no_key.
    destruct (slen (sc_key c) =? 0) eqn:Hz; cbn [fst snd];
      apply (works_changed (Put (sc_key c) (VString (sc_val c))) (OPut (sc_key c) (VString (sc_val c))) _ c s path r p m); try done; cbn [spec];
      rewrite (CheckKey_short _ Hk), Hz; [done|].
    assert (CheckValue (VString (sc_val c)) = E_OK) as ->; [|done].
    unfold CheckValue, lengthCheck, wrap_u. cbn [as_string]. apply Z.ltb_ge in Hv.
    rewrite Z.mod_small by (unfold slen in *; lia). replace (MAX_VALUE_LENGTH <? slen (sc_val c)) with false; [done|].
    symmetry. apply Z.ltb_ge. unfold MAX_VALUE_LENGTH. lia.
  - unfold sys_delete, long_key, SYS_MAX_KEY_LENGTH. destruct (32 <? slen (sc_key c)) eqn:Hk; [by apply (works_ret _ _ _ _ p)|]. unfold no_key.
    destruct (slen (sc_key c) =? 0) eqn:Hz; cbn [fst snd]; apply (works_changed (Impl.Delete (sc_key c)) (ODelete (sc_key c)) _ c s path r p m); try done; cbn [spec];
      by rewrite (CheckKey_short _ Hk), Hz.
  - by apply (works_changed Impl.Clear OClear _ c s path r p m).
Qed.

(** ** Calls *)

Definition method (request : SysRequest) : list napi_value -> SO SystemState CallResult :=
  match request with SysGet => NapiGet | SysSet => NapiSet | SysDelete => NapiDelete | SysClear => NapiClear end.

(** A call, its work and its completion. *)
Definition sys_do (call : SysRequest * napi_value) : SO SystemState CallResult :=
  res ← method call.1 [call.2];
  match res with Promise id => sys_run_work RSIZE_MAX gskvEnabled id;; sys_complete_work true id | _ => mret tt end;;
  mret res.

Fixpoint sys_run (calls : list (SysRequest * napi_value)) : SO SystemState (list CallResult) :=
  match calls with
  | [] => mret []
  | c :: calls => r ← sys_do c; rs ← sys_run calls; mret (r :: rs)
  end.

Definition key_may_be_empty (request : SysRequest) : bool := match request with SysClear => false | _ => true end.

(** What a call asks for, when every part of its object is accepted. *)
Definition asked (path : string) (call : SysRequest * napi_value) : option SysContext :=
  let '(request, object) := call in
  if negb (bool_decide (napi_typeof object = napi_object)) then None else
  match Sys_ParseString false object "key" (key_may_be_empty request), Sys_ParseString false object "value" false,
    Sys_ParseString false object "default" false, Sys_ParseFunction false object "success", Sys_ParseFunction false object "fail",
    Sys_ParseFunction false object "complete" with
  | inr key, inr val, inr def, inr success, inr fail, inr complete =>
      Some (mkSysContext request (default "" key) (default "" def) (default "" val) path success fail complete E_ERROR)
  | _, _, _, _, _, _ => None
  end.

(** What the completions do, in order. *)
Fixpoint sys_completions (id : positive) (cs : list SysContext) (m : gmap string PreferencesValue) : list JsEvent :=
  match cs with
  | [] => []
  | c :: cs => Complete true id (finished (sys_spec c m).1 c) ++ sys_completions (Pos.succ id) cs (sys_spec c m).2
  end.

Definition after_calls (cs : list SysContext) (m : gmap string PreferencesValue) : gmap string PreferencesValue := foldl (fun m c => (sys_spec c m).2) m cs.

Lemma asked_name path call c : asked path call = Some c -> sc_prefName c = path /\ sc_request c = call.1.
Proof.
  destruct call as [request object]. unfold asked. destruct (negb _); [done|]. repeat case_match; try done. by intros [= <-].
Qed.

(** Events are only added. *)
Lemma emit_all_events l j : exists j', emit_all l j = (tt, j') /\ js_events j' = js_events j ++ l /\ js_hlp j' = js_hlp j /\ gContextNode j' = gContextNode j.
Proof.
  revert j. induction l as [|e l IH]; intros j; cbn [emit_all]; [by exists j; rewrite app_nil_r|].
  unfold mbind, st_bind. destruct (emit e j) as [[] j1] eqn:E. injection E as <-. destruct (IH (emit e j).2) as (j' & E' & Hev & Hh & Hg).
  exists j'. split; [exact E'|]. split; [|done]. rewrite Hev. cbn. by rewrite <- app_assoc.
Qed.

(** ** A call that is accepted *)

Context (works_made : forall step, work_step false step = true).

Lemma Operate_accepted call s path r p c : file_linked s path r p -> asked path call = Some c ->
  method call.1 [call.2] s = Done (Promise (sy_next_work s), mkSystemState (sy_js s) (<[sy_next_work s := c]> (sy_works s)) (Pos.succ (sy_next_work s))).
Proof.
  intros Hl Ha. destruct call as [request object]. unfold asked in Ha. destruct (negb _) eqn:Ht; [done|].
  destruct (Sys_ParseString false object "key" _) as [|key] eqn:E1; [done|]. destruct (Sys_ParseString false object "value" _) as [|val] eqn:E2; [done|].
  destruct (Sys_ParseString false object "default" _) as [|def] eqn:E3; [done|]. destruct (Sys_ParseFunction false object "success") as [|f1] eqn:E4; [done|].
  destruct (Sys_ParseFunction false object "fail") as [|f2] eqn:E5; [done|]. destruct (Sys_ParseFunction false object "complete") as [|f3] eqn:E6; [done|].
  injection Ha as <-.
  assert (Hname : sys_on_js (run_st GetPrefName) s = Done (path, s)).
  { rewrite (sys_js_done _ path s (sy_js s)); [by destruct s|]. unfold run_st. by rewrite (fl_name _ _ _ _ Hl). }
  assert (Hop : Operate [object] (key_may_be_empty request) request s = Done (Promise (sy_next_work s), mkSystemState (sy_js s)
    (<[sy_next_work s := mkSysContext request (default "" key) (default "" def) (default "" val) path f1 f2 f3 E_ERROR]> (sy_works s)) (Pos.succ (sy_next_work s)))).
  { unfold Operate. rewrite Ht, works_made. cbn [negb]. rewrite (so_bind_Done _ _ _ _ _ Hname).
    unfold part. rewrite E1, so_bind_ret, E2, so_bind_ret, E3, so_bind_ret, E4, so_bind_ret, E5, so_bind_ret, E6, so_bind_ret.
    rewrite !works_made. done. }
  by destruct request.
Qed.

Lemma sys_do_spec call s path r p c m : file_linked s path r p -> on_file r (js_hlp (sy_js s)) -> same_map (view p) m -> asked path call = Some c -> change_ok (sys_op c) ->
  exists s' p', sys_do call s = Done (Promise (sy_next_work s), s') /\ file_linked s' path r p' /\ on_file r (js_hlp (sy_js s')) /\ same_map (view p') (sys_spec c m).2 /\
    sy_next_work s' = Pos.succ (sy_next_work s) /\
    js_events (sy_js s') = js_events (sy_js s) ++ Complete true (sy_next_work s) (finished (sys_spec c m).1 c).
Proof.
  intros Hl Hf Hm Ha Hok. pose proof (Operate_accepted _ _ _ _ _ _ Hl Ha) as Eop. destruct (asked_name _ _ _ Ha) as [Hp _].
  set (id := sy_next_work s) in *. set (s1 := mkSystemState (sy_js s) (<[id := c]> (sy_works s)) (Pos.succ id)) in *.
  assert (Hl1 : file_linked s1 path r p) by (by destruct Hl).
  destruct (execute_spec c s1 path r p m Hok Hp Hl1 Hf Hm) as (h & p' & Eex & Hl2 & Hf2 & Hm2).
  set (res := (sys_spec c m).1) in *.
  set (s2 := set_sy_works (<[id := finished res c]> (sy_works s1)) (set_sy_hlp h s1)).
  assert (Erun : sys_run_work RSIZE_MAX gskvEnabled id s1 = Done (tt, s2)).
  { unfold sys_run_work. rewrite so_bind_st. cbn [get fst snd s1 sy_works]. rewrite lookup_insert_eq. by rewrite (so_bind_Done _ _ _ _ _ Eex). }
  destruct (emit_all_events (Complete true id (finished res c)) (sy_js s2)) as (j & Ej & Hev & Hh & Hg).
  set (s3 := set_sy_works (delete id (sy_works s2)) (set_sy_js j s2)).
  assert (Ecomp : sys_complete_work true id s2 = Done (tt, s3)).
  { unfold sys_complete_work. rewrite so_bind_st. cbn [get fst snd s2 set_sy_works sy_works]. rewrite lookup_insert_eq. unfold sys_emit.
    rewrite (so_bind_Done _ _ _ tt (set_sy_js j s2)); [done|]. apply sys_js_done. unfold run_st. by rewrite Ej. }
  exists s3, p'. split_and!; [|destruct Hl2 as [Hn Hr Hc Ho]|cbn; by rewrite Hh|done|done|exact Hev].
  - unfold sys_do. rewrite (so_bind_Done _ _ _ _ _ Eop). cbv beta iota.
    rewrite (so_bind_Done _ _ _ tt s3); [done|]. by rewrite (so_bind_Done _ _ _ _ _ Erun).
  - split; [by apply (GetPrefName_mode (sy_js (set_sy_hlp h s1)))|done|cbn; by rewrite Hh|cbn; by rewrite Hh].
Qed.

(** A sequence of accepted calls, each completed before the next. *)
Lemma sys_run_spec calls cs : Forall2 (fun call c => asked (sc_prefName c) call = Some c) calls cs -> forall s path r p m,
  Forall (fun c => sc_prefName c = path /\ change_ok (sys_op c)) cs -> file_linked s path r p -> on_file r (js_hlp (sy_js s)) -> same_map (view p) m ->
  exists rs s' p', sys_run calls s = Done (rs, s') /\ file_linked s' path r p' /\ on_file r (js_hlp (sy_js s')) /\ same_map (view p') (after_calls cs m) /\
    rs = (fun i => Promise (Pos.of_nat (Pos.to_nat (sy_next_work s) + i))) <$> seq 0 (length calls) /\
    js_events (sy_js s') = js_events (sy_js s) ++ sys_completions (sy_next_work s) cs m.
Proof.
  intros Ha. induction Ha as [|call c calls cs Hc Ha IH]; intros s path r p m Hok Hl Hf Hm.
  { exists [], s, p. by rewrite app_nil_r. }
  apply Forall_cons in Hok as [[Hp Hok] Hoks]. rewrite Hp in Hc.
  destruct (sys_do_spec call s path r p c m Hl Hf Hm Hc Hok) as (s1 & p1 & E1 & Hl1 & Hf1 & Hm1 & Hn & Hev).
  destruct (IH s1 path r p1 _ Hoks Hl1 Hf1 Hm1) as (rs & s2 & p2 & E2 & Hl2 & Hf2 & Hm2 & Hrs & Hev2).
  exists (Promise (sy_next_work s) :: rs), s2, p2. split; [|split; [exact Hl2|split; [exact Hf2|split; [exact Hm2|split]]]].
  - cbn [sys_run]. by rewrite (so_bind_Done _ _ _ _ _ E1), (so_bind_Done _ _ _ _ _ E2).
  - rewrite Hrs, Hn. cbn [length seq fmap list_fmap]. f_equal; [f_equal; lia|]. rewrite <- fmap_S_seq, <- list_fmap_compose.
    apply list_fmap_ext. intros _ i _. cbn. f_equal. lia.
  - rewrite Hev2, Hev, Hn. cbn [sys_completions]. by rewrite <- app_assoc.
Qed.
End js_system_client.

(** ** On the file *)

Section js_system_file.
Context `{LibXmlLaws} `{SafeBlockQueueLaws} `{KvDb} `{Iteration} `{Napi} `{!AbilityRuntime} `{!WorkEngine}.
Context (undefined_read : gmap string PreferencesValue -> bool * gmap string PreferencesValue).
Context (undefined_write : bool) (garbage_size : Z) (Hlib : libxml_ok).
Context (RSIZE_MAX : Z) (gskvEnabled : bool).

#[local] Instance sys_store : XmlStore := xml_utils undefined_read undefined_write garbage_size.
#[local] Instance sys_store_laws : XmlStoreLaws := xml_utils_laws undefined_read undefined_write garbage_size.

#[local] Abbreviation wrote := (wrote undefined_read undefined_write garbage_size).
#[local] Abbreviation steady := (steady undefined_read undefined_write garbage_size).
#[local] Abbreviation op_ok := (RuntimeClient.op_ok undefined_read undefined_write garbage_size).

(** The object in its environment. *)
Definition in_place (h : Helper) (p : PreferencesImpl) : PreferencesImpl := upd_base (set_env (h_env h) (base_ p)) p.

(** The object [r] is in order, on [path], and the file holds what it shows. *)
Definition saved (path : string) (r : positive) (h : Helper) : Prop :=
  exists p, objects h !! r = Some (PXml p) /\ path_of p = path /\ wrote (in_place h p).

Lemma wrote_read p b : wrote p -> base_quiet (base_ p) b -> wrote (upd_base b p).
Proof.
  intros (Hs & Hq & Hmk & Hst) Hb. assert (Hpath : path_of (upd_base b p) = path_of p) by (unfold path_of; cbn; by rewrite (proj1 Hb)).
  pose proof (base_quiet_later _ _ Hb) as Hl. split; [by apply steady_base|]. split; [done|]. split; [done|].
  rewrite Hpath. change (env_of (upd_base b p)) with (env b). change (view (upd_base b p)) with (view p).
  rewrite <- Hst. apply (stored_at undefined_read undefined_write garbage_size); [apply (st_path _ _ _ _ Hs)|apply Hl].
Qed.

(** What a method does to the object in its place. *)
Lemma virtual_in_place {A} path r (meth : ST PreferencesImpl A) me h a h' p : objects h !! r = Some (PXml p) -> path_of p = path ->
  virtual r meth me h = Done (a, h') -> (a, (meth (in_place h p)).2) = meth (in_place h p) /\
  objects h' !! r = Some (PXml (meth (in_place h p)).2) /\ in_place h' (meth (in_place h p)).2 = (meth (in_place h p)).2.
Proof.
  intros Hr Hp. unfold virtual. rewrite so_bind_st. cbn [get fst snd]. rewrite Hr. unfold run_st, run_xml. fold (in_place h p).
  destruct (meth (in_place h p)) as [x p'] eqn:E. intros [= <- <-]. split; [done|]. cbn. split; [apply lookup_insert_eq|].
  by destruct p' as [[] ? ? ? ? ? ? ? ? ?].
Qed.

Lemma saved_get path r key d h a h' : saved path r h -> virtual r (Get key d) (Enh_Get key d) h = Done (a, h') -> saved path r h'.
Proof.
  intros (p & Hr & Hp & Hw) E. destruct (virtual_in_place path _ _ _ _ _ _ _ Hr Hp E) as (_ & Hr' & Hin).
  exists (Get key d (in_place h p)).2. split; [done|]. rewrite Hin.
  pose proof (exec_settled (OGet key d) (in_place h p) (st_settled _ _ _ _ (proj1 Hw))) as (b & Eb & Hb).
  cbn [exec] in Eb. unfold mbind, st_bind, mret, st_ret in Eb. destruct (Get key d (in_place h p)) as [x p']. injection Eb as _ ->.
  cbn [snd cache_step]. split; [|by apply wrote_read]. unfold path_of. cbn. by rewrite (proj1 Hb).
Qed.

Lemma saved_change path r q (meth : ST PreferencesImpl Z) me h a h1 z h2 : exec q = (x ← meth; mret (RCode x)) -> op_ok q -> saved path r h ->
  virtual r meth me h = Done (a, h1) -> obj_flushsync r h1 = Done (z, h2) -> saved path r h2.
Proof.
  intros He Hq (p & Hr & Hp & Hw) E1 E2. destruct (virtual_in_place path _ _ _ _ _ _ _ Hr Hp E1) as (_ & Hr1 & Hin1).
  assert (steady (exec q (in_place h p)).2 /\ queue_ (exec q (in_place h p)).2 = queue_ (in_place h p)) as [Hs1 Hq1]
    by exact (exec_steady undefined_read undefined_write garbage_size q (in_place h p) Hq (proj1 Hw)).
  pose proof (exec_settled q (in_place h p) (st_settled _ _ _ _ (proj1 Hw))) as (b & Eb & Hb).
  rewrite He in Hs1, Hq1, Eb. unfold mbind, st_bind, mret, st_ret in Hs1, Hq1, Eb.
  destruct (meth (in_place h p)) as [x p1]. cbn [fst snd] in *. injection Eb as _ Eb.
  assert (Hp1 : path_of p1 = path).
  { rewrite Eb. unfold path_of. cbn. by rewrite (proj1 Hb). }
  destruct (virtual_in_place path _ _ _ _ _ _ _ Hr1 Hp1 E2) as (_ & Hr2 & Hin2). rewrite Hin1 in Hr2, Hin2.
  destruct (FlushSync_steady undefined_read undefined_write garbage_size Hlib p1 Hs1) as [Hw2|[[_ Hel] _]].
  2: { rewrite Hq1, (proj1 (proj2 Hw)) in Hel. done. }
  exists (FlushSync p1).2. split; [done|]. rewrite Hin2. split; [|done].
  destruct (FlushSync_settled p1 (st_settled _ _ _ _ Hs1)) as (z' & p2 & -> & _ & _ & Ho). cbn [snd].
  unfold path_of. by rewrite Ho.
Qed.

(** The texts of a call are legal. *)
Definition texts_ok (c : SysContext) : Prop := good_text (sc_key c) /\ good_text (sc_val c).

End js_system_file.

(** ** A call that throws *)

Section thrown.
Context `{XmlStore} `{SafeBlockQueue} `{KvDb} `{Iteration} `{Napi} `{!AbilityRuntime} `{!WorkEngine}.

(** The flag says whether anything was thrown. *)
Definition only_throws (s s' : SystemState) (p p' : bool) : Prop :=
  sy_works s' = sy_works s /\ sy_next_work s' = sy_next_work s /\
  exists l, js_events (sy_js s') = js_events (sy_js s) ++ l /\ p' = p || negb (bool_decide (length l = 0%nat)).

Lemma only_throws_trans s1 s2 s3 p1 p2 p3 : only_throws s1 s2 p1 p2 -> only_throws s2 s3 p2 p3 -> only_throws s1 s3 p1 p3.
Proof.
  intros (W1 & N1 & l1 & E1 & ->) (W2 & N2 & l2 & E2 & ->). split_and!; [congruence..|]. exists (l1 ++ l2). rewrite E2, E1, app_assoc. split; [done|].
  rewrite length_app, <- orb_assoc. f_equal. do 3 case_bool_decide; cbn; lia || done.
Qed.

Lemma part_throws {A} (read : bool -> JsEvent + A) none p s : exists a p' s', part read none p s = Done ((a, p'), s') /\ only_throws s s' p p'.
Proof.
  unfold part. destruct (read p) as [e|a].
  - eexists none, true, _. split; [reflexivity|]. split_and!; [done..|]. exists [e]. split; [done|]. by rewrite orb_comm.
  - exists a, p, s. split; [done|]. split_and!; [done..|]. exists []. rewrite app_nil_r. split; [done|]. by rewrite orb_comm.
Qed.

(** A call of the system storage whose object has a part that is refused
    throws, and does the work all the same: whatever the object holds, the work
    is queued, and the call throws when something was thrown on the way. *)
Theorem Operate_always_queues (object : napi_value) (parseStrFlag : bool) (request : SysRequest) (s : SystemState)
    (Ht : napi_typeof object = napi_object) (Hw : forall p step, work_step p step = true) :
  exists res s' c l, Operate [object] parseStrFlag request s = Done (res, s') /\ sy_works s' !! sy_next_work s = Some c /\ sc_request c = request /\
    js_events (sy_js s') = js_events (sy_js s) ++ l /\ res = (if bool_decide (length l = 0%nat) then Promise (sy_next_work s) else Thrown).
Proof.
  unfold Operate. rewrite bool_decide_true by done. cbn [negb]. rewrite Hw. cbn [negb].
  destruct (GetPrefName (sy_js s)) as [path j] eqn:En.
  assert (Hj : js_events j = js_events (sy_js s)).
  { revert En. unfold GetPrefName, GetContextInfo, GetContextMode, mbind, st_bind, mret, st_ret.
    destruct (gContextNode (sy_js s)); [destruct (IsStageContext None) as [[]|]|..]; by intros [= _ <-]. }
  assert (Hname : sys_on_js (run_st GetPrefName) s = Done (path, set_sy_js j s)) by (apply sys_js_done; unfold run_st; by rewrite En).
  rewrite (so_bind_Done _ _ _ _ _ Hname). clear Hname.
  destruct (part_throws (fun p => Sys_ParseString p object "key" parseStrFlag) None false (set_sy_js j s)) as (key & p1 & s1 & E1 & T1).
  rewrite (so_bind_Done _ _ _ _ _ E1). cbv beta iota.
  destruct (part_throws (fun p => Sys_ParseString p object "value" false) None p1 s1) as (val & p2 & s2 & E2 & T2).
  rewrite (so_bind_Done _ _ _ _ _ E2). cbv beta iota.
  destruct (part_throws (fun p => Sys_ParseString p object "default" false) None p2 s2) as (def & p3 & s3 & E3 & T3).
  rewrite (so_bind_Done _ _ _ _ _ E3). cbv beta iota.
  destruct (part_throws (fun p => Sys_ParseFunction p object "success") None p3 s3) as (f1 & p4 & s4 & E4 & T4).
  rewrite (so_bind_Done _ _ _ _ _ E4). cbv beta iota.
  destruct (part_throws (fun p => Sys_ParseFunction p object "fail") None p4 s4) as (f2 & p5 & s5 & E5 & T5).
  rewrite (so_bind_Done _ _ _ _ _ E5). cbv beta iota.
  destruct (part_throws (fun p => Sys_ParseFunction p object "complete") None p5 s5) as (f3 & p6 & s6 & E6 & T6).
  rewrite (so_bind_Done _ _ _ _ _ E6). cbv beta iota.
  pose proof (only_throws_trans _ _ _ _ _ _ (only_throws_trans _ _ _ _ _ _ (only_throws_trans _ _ _ _ _ _ (only_throws_trans _ _ _ _ _ _
    (only_throws_trans _ _ _ _ _ _ T1 T2) T3) T4) T5) T6) as (_ & Hn & l & Hev & Hp).
  change (sy_next_work (set_sy_js j s)) with (sy_next_work s) in Hn. change (js_events (sy_js (set_sy_js j s))) with (js_events j) in Hev. rewrite Hj in Hev.
  rewrite !Hw. cbn [negb andb]. rewrite so_bind_st. cbn [get fst snd]. rewrite so_bind_st. cbn [modify fst snd].
  eexists _, _, _, l. split; [reflexivity|]. cbn [sy_works sy_js sy_next_work]. rewrite Hn. split; [apply lookup_insert_eq|]. split; [done|].
  split; [exact Hev|]. unfold returned. rewrite Hp. by case_bool_decide.
Qed.
End thrown.

(** ** Concrete instances *)

(** An engine whose objects have the properties that they list, and whose
    functions return. *)
#[export] Instance ref_work_engine : @WorkEngine ref_napi := {|
  napi_property _ object name := @napi_get_named_property ref_napi object name;
  napi_create_reference _ _ := true;
  work_step _ _ := true;
  napi_call_function _ _ := true
|}.

Definition w_sys (vals : gmap string PreferencesValue) : SystemState :=
  mkSystemState (set_hlp (h_set_cache {["/p/default.xml" := (Some 2%positive, false)]} (js_hlp (w_js vals))) (w_js vals)) ∅ 1%positive.

Definition w_sys_calls : list (SysRequest * @napi_value ref_napi) :=
  [(SysSet, JObj "" [("key", JStr "k"); ("value", JStr "v"); ("complete", JFun 1)]);
   (SysGet, JObj "" [("key", JStr "k"); ("success", JFun 2)]);
   (SysSet, JObj "" [("key", JStr ""); ("value", JStr "v"); ("fail", JFun 3)])].

Definition w_sys_contexts : list (@SysContext ref_napi) :=
  [mkSysContext SysSet "k" "" "v" "/p/default.xml" None None (Some (jv (JFun 1))) E_ERROR;
   mkSysContext SysGet "k" "" "" "/p/default.xml" (Some (jv (JFun 2))) None None E_ERROR;
   mkSysContext SysSet "" "" "v" "/p/default.xml" None (Some (jv (JFun 3))) None E_ERROR].

(** The object of an empty file, loaded, and the storage with it. *)
#[local] Abbreviation ref_sys_store := (xml_utils (fun con => (false, con)) false 0).

Definition w_file_env : Env :=
  mkEnv (mkFileSystem {["/p/default.xml" := ref_doc]} {["/p"]} 0 0 (fun _ => SysOk) None) witness_services [] ∅.

Definition w_file_prefs : PreferencesImpl := upd_load true false true (PreferencesImpl_new (path_options "/p/default.xml") w_file_env).

Definition w_file : SystemState :=
  set_sy_hlp (h_set_env w_file_env (h_set_objects {[2%positive := PXml w_file_prefs]} (js_hlp (sy_js (w_sys ∅))))) (w_sys ∅).

Lemma w_file_linked : file_linked w_file "/p/default.xml" 2 w_file_prefs.
Proof. split; [reflexivity|by vm_compute|by exists false|by split]. Qed.

Lemma w_file_saved : saved (fun con => (false, con)) false 0 "/p/default.xml" 2 (js_hlp (sy_js w_file)).
Proof.
  assert (Hv : view w_file_prefs = ∅) by reflexivity.
  assert (Hst : @stored ref_sys_store _ w_file_env "/p/default.xml" = Some ∅) by (vm_compute; reflexivity).
  exists w_file_prefs. split; [done|]. split; [done|]. split; [|by split_and!]. split.
  - by split.
  - by left.
  - done.
  - exists ∅. split; [exact Hst|]. intros k Hk. by destruct Hk.
  - intros n. cbn. reflexivity.
  - by split_and!.
  - change ("/p/default.xml" ∉ ({["/p"]} : gset string)). by apply not_elem_of_singleton.
  - intros k v. change (view _) with (view w_file_prefs). by rewrite Hv, lookup_empty.
Qed.


(** An empty value. *)
Example Operate_always_queues_witness : exists s' c,
  NapiSet [JObj "" [("key", JStr "k"); ("value", JStr "")]] (w_sys ∅) = Done (Thrown, s') /\ sy_works s' !! 1%positive = Some c /\ sc_request c = SysSet.
Proof.
  assert (Hmade : forall p step, @work_step ref_napi ref_work_engine p step = true) by done.
  destruct (Operate_always_queues (JObj "" [("key", JStr "k"); ("value", JStr "")] : @napi_value ref_napi) true SysSet (w_sys ∅) eq_refl Hmade)
    as (res & s' & c & l & E & Hc & Hq & Hev & Hres).
  assert (Hv : match NapiSet [JObj "" [("key", JStr "k"); ("value", JStr "")] : @napi_value ref_napi] (w_sys ∅) with Done (Thrown, _) => true | _ => false end = true)
    by reflexivity.
  exists s', c. split; [|by split]. destruct res; try done; exfalso; revert Hv; unfold NapiSet; by rewrite E.
Defined.
