(* ===== verification/Process.v ===== *)
(** * The factory and all of its objects on the executors

    The process as a whole: the factory is a client of the library's pools
    ([Dispatch]), which all of its objects share, over the file and over the
    database.  Calls of the application on the factory and on any object that it
    has a pointer to, the closures of all objects and the steps of the pools
    interleave freely.

    An object lives as long as somebody points to it: the application, the cache
    of the factory, or a closure that has a pointer of its own.  The closures of
    [Flush] and of the report on objects have a weak pointer and do nothing when
    the object is gone.  An object that is gone is left in the store, where
    nobody can reach it; that the destructor of an object over the database
    closes it, the object's own, is not modelled. *)

From S2P Require Import Prelude Pool TaskQueue ExecutorPool ExecutorPoolStop TaskProcessor PoolSequence Lane Dispatch.
From S2P Require Import Errno Value Utils ConcurrentMap Env FileLock Store DbAdapter Base Impl Enhance Helper Handle Runtime.

Section Process.
Context `{XmlStore} `{SafeBlockQueue} `{KvDb}.
Context (RSIZE_MAX : Z) (gskvEnabled : bool).

(** ** The factory as a client *)

(** The factory; the objects that the application has a pointer to; and, for
    each closure that is still to run and holds its object, that object. *)
Record Proc := mkProc { factory : Helper; held : gset positive; owners : list positive }.

(** Somebody points to the object. *)
Definition alive_in (s : Proc) (r : positive) : bool :=
  bool_decide (r ∈ held s) || bool_decide (r ∈ owners s) ||
  bool_decide (map_Exists (fun _ entry => entry.1 = Some r) (prefsCache_ (factory s))).

(** The calls on an object. *)
Inductive ObjectCall :=
  | COp (o : op)
  | CFlush
  | CFlushSync
  | CRegister (o : positive) (mode : RegisterMode)
  | CUnregister (o : positive) (mode : RegisterMode).

Inductive PCall :=
  | PFactory (o : helper_op)
  | PObject (r : positive) (c : ObjectCall)
  | PRelease (r : positive).                    (** the last pointer of the application goes *)

Definition object_call (r : positive) (c : ObjectCall) : SO Helper unit :=
  match c with
  | COp o => _ ← virtual r (Impl.exec o) (Enh_exec RSIZE_MAX o); mret tt
  | CFlush => _ ← virtual r Flush (run_st (e_on_base Base_Flush)); mret tt
  | CFlushSync => _ ← obj_flushsync r; mret tt
  | CRegister o mode => _ ← obj_register r o mode; mret tt
  | CUnregister o mode => _ ← obj_unregister r o mode; mret tt
  end.

Definition on_factory {A} (m : SO Helper A) : SO Proc A := fun s =>
  '(a, h) ← m (factory s); Done (a, mkProc h (held s) (owners s)).

(** What the factory gives is held. *)
Definition hold (pref : option positive) (s : Proc) : Proc :=
  match pref with Some r => mkProc (factory s) ({[r]} ∪ held s) (owners s) | None => s end.

(** A call on an object is made through a pointer, which the application must
    have. *)
Definition p_call (c : PCall) : SO Proc unit :=
  match c with
  | PFactory o => '(pref, _) ← on_factory (helper_exec gskvEnabled o); run_st (modify (hold pref))
  | PObject r c => s ← run_st get; if decide (r ∈ held s) then on_factory (object_call r c) else run_out Undef
  | PRelease r => run_st (modify (fun s => mkProc (factory s) (held s ∖ {[r]}) (owners s)))
  end.

(** A closure of the base class, or of an object over the database. *)
Definition PTask : Type := Task + ETask.

(** The closure has a pointer to its object that is not weak. *)
Definition owning (t : PTask) : bool :=
  match t with inl (FlushTask | ObjectUsageTask) => false | _ => true end.

Definition pref_tasks (o : Pref) : list PTask :=
  match o with
  | PXml p => inl <$> tasks_ (base_ p)
  | PEnhance e => (inl <$> tasks_ (e_base e)) ++ (inr <$> e_tasks e)
  end.

Definition pref_drained (o : Pref) : Pref :=
  match o with
  | PXml p => PXml (no_tasks p)
  | PEnhance e => PEnhance (e_set_tasks [] (e_set_base (set_tasks [] (e_base e)) e))
  end.

(** What the objects have posted, with the object. *)
Definition h_posted (h : Helper) : list (positive * PTask) :=
  '(r, o) ← map_to_list (objects h); pair r <$> pref_tasks o.

Definition h_drained (h : Helper) : Helper := h_set_objects (pref_drained <$> objects h) h.

Definition p_posted (s : Proc) : list (positive * PTask) := h_posted (factory s).

Definition p_drained (s : Proc) : Proc :=
  mkProc (h_drained (factory s)) (held s) (owners s ++ (List.filter (fun rt => owning rt.2) (p_posted s)).*1).

(** A closure that an object over the database posts through its base class. *)
Definition base_closure (alive : bool) (t : Task) : ST Base unit :=
  match t with
  | NotifyTask keysModified => run_Notify keysModified
  | ObjectUsageTask => run_ObjectUsage alive
  | _ => mret tt
  end.

Definition h_runs (alive : bool) (rt : positive * PTask) : ST Helper unit := fun h =>
  match objects h !! rt.1, rt.2 with
  | Some (PXml p), inl t => run_xml rt.1 p (run_task alive t) h
  | Some (PEnhance e), t =>
      let e0 := e_set_base (set_env (h_env h) (e_base e)) e in
      let e' := (match t with inl t => e_on_base (base_closure alive t) | inr t => run_etask t end e0).2 in
      (tt, h_set_env (env (e_base e')) (h_set_objects (<[rt.1 := PEnhance e']> (objects h)) h))
  | _, _ => (tt, h)
  end.

Fixpoint without_one (r : positive) (l : list positive) : list positive :=
  match l with [] => [] | x :: l => if decide (x = r) then l else x :: without_one r l end.

(** A closure that has been run lets its object go. *)
Definition p_runs (rt : positive * PTask) : ST Proc unit := fun s =>
  (tt, mkProc (h_runs (alive_in s rt.1) rt (factory s)).2 (held s)
    (if owning rt.2 then without_one rt.1 (owners s) else owners s)).

Definition p_way (rt : positive * PTask) : Way := match rt.2 with inl t => task_way t | inr _ => AtOnce end.

Lemma pref_tasks_drained o : pref_tasks (pref_drained o) = [].
Proof. by destruct o. Qed.

Lemma h_posted_drained h : h_posted (h_drained h) = [].
Proof.
  destruct (h_posted (h_drained h)) as [|x l] eqn:E; [done|]. assert (Hx : x ∈ h_posted (h_drained h)) by (rewrite E; left).
  unfold h_posted in Hx. apply list_elem_of_bind in Hx as ([r o] & Hx & Hin%elem_of_map_to_list).
  cbn [h_drained objects h_set_objects] in Hin. rewrite lookup_fmap in Hin.
  destruct (objects h !! r) as [o0|]; [|done]. injection Hin as <-. by rewrite pref_tasks_drained in Hx; apply elem_of_nil in Hx.
Qed.

Lemma p_posted_drained s : p_posted (p_drained s) = [].
Proof. apply h_posted_drained. Qed.

#[export] Instance process_client : Client Proc (positive * PTask) PCall := {|
  Dispatch.call := p_call;
  runs := p_runs;
  posted := p_posted;
  drained := p_drained;
  way := p_way;
  posted_drained := p_posted_drained
|}.

#[local] Abbreviation Runtime := (Runtime Proc (positive * PTask)).
#[local] Abbreviation RAction := (RAction PCall).

Lemma p_posted_in h r o t : objects h !! r = Some o -> t ∈ pref_tasks o -> (r, t) ∈ h_posted h.
Proof.
  intros Ho Ht. unfold h_posted. apply list_elem_of_bind. exists (r, o). split; [by apply list_elem_of_fmap; exists t|].
  by apply elem_of_map_to_list.
Qed.

(** ** The objects stay *)

(** No object goes, and each keeps its class. *)
Definition remains (h h' : Helper) : Prop := forall r o, objects h !! r = Some o ->
  exists o', objects h' !! r = Some o' /\ is_enhance o' = is_enhance o.

#[local] Instance remains_preorder : PreOrder remains.
Proof.
  split; [intros h r o Ho; by exists o|]. intros h1 h2 h3 H12 H23 r o Ho.
  destruct (H12 r o Ho) as (o2 & Ho2 & E2). destruct (H23 r o2 Ho2) as (o3 & Ho3 & E3). exists o3. split; [done|congruence].
Qed.

Lemma hstep_remains h h' : hstep h h' -> remains h h'.
Proof. intros [Ho _] r o Hr. destruct (Ho r o Hr) as (o' & Ho' & Hs & _). by exists o'. Qed.

Lemma remains_insert h h' r o o' : objects h !! r = Some o -> is_enhance o' = is_enhance o ->
  objects h' = <[r := o']> (objects h) -> remains h h'.
Proof.
  intros Ho Hs E r2 o2 Ho2. rewrite E. destruct (decide (r2 = r)) as [->|Hne].
  - exists o'. rewrite lookup_insert_eq. split; [done|congruence].
  - exists o2. by rewrite lookup_insert_ne.
Qed.

Lemma remains_same h h' : objects h' = objects h -> remains h h'.
Proof. intros E r o Ho. exists o. by rewrite E. Qed.

Definition staying {A} (m : SO Helper A) : Prop := forall h a h', m h = Done (a, h') -> remains h h'.

Lemma staying_bind {A B} (m : SO Helper A) (k : A -> SO Helper B) : staying m -> (forall a, staying (k a)) -> staying (m ≫= k).
Proof.
  intros Hm Hk h b h'. unfold mbind, so_bind. destruct (m h) as [[a h1]| | |] eqn:E; [|done..].
  intros E'. etrans; [by eapply Hm|by eapply Hk].
Qed.

Lemma staying_ret {A} (a : A) : staying (mret a).
Proof. intros h a' h' [= _ <-]. reflexivity. Qed.

Lemma staying_st {A} (m : ST Helper A) : (forall h, objects (m h).2 = objects h) -> staying (run_st m).
Proof. intros Hm h a h' [= E]. apply remains_same. specialize (Hm h). by rewrite E in Hm. Qed.

Lemma staying_env {A} (m : ST Env A) : staying (run_st (h_on_env m)).
Proof. apply staying_st. intros h. unfold h_on_env. by destruct (m (h_env h)). Qed.

Lemma staying_virtual {A} r (xml : ST PreferencesImpl A) (enhance : SO Enhance A) : staying (virtual r xml enhance).
Proof.
  intros h a h'. unfold virtual. rewrite so_bind_st. cbn [get fst snd]. destruct (objects h !! r) as [[p|e]|] eqn:Er; [..|done].
  - unfold run_st, run_xml. destruct (xml _) as [c p']. intros [= _ <-]. by apply (remains_insert _ _ r (PXml p) (PXml p')).
  - unfold run_enhance, mbind, outcome_bind. destruct (enhance _) as [[c e']| | |]; [|done..]. intros [= _ <-]. by apply (remains_insert _ _ r (PEnhance e) (PEnhance e')).
Qed.

Lemma staying_close (b : bool) r : staying (if b then virtual_CloseDb r else cast_Close r).
Proof. intros h a h' E. by eapply hstep_remains, hstep_close. Qed.

Lemma staying_open_new options path h a h' : prefsCache_ h !! path = None ->
  open_new gskvEnabled options path h = Done (a, h') -> remains h h'.
Proof.
  intros Hc E. apply open_new_spec in E as (h1 & Hs%hstep_remains & Hcase); [|done].
  destruct Hcase as [(_ & _ & ->)|(r & o & _ & _ & _ & _ & ->)]; [done|]. etrans; [exact Hs|by apply remains_same].
Qed.

Lemma staying_get options : staying (GetPreferences gskvEnabled options).
Proof.
  intros h a h'. destruct (refused (GetRealPath (filePath options))) eqn:Hr.
  { rewrite GetPreferences_refused by done. intros [= _ <-]. reflexivity. }
  rewrite GetPreferences_real by done. set (h0 := h_set_cache _ h).
  assert (Hgo : open_new gskvEnabled options (filePath options) h0 = Done (a, h') -> remains h h').
  { intros E%staying_open_new; [|apply lookup_delete_eq]. etrans; [|exact E]. by apply remains_same. }
  destruct (prefsCache_ h !! _) as [[[r|] b]|]; [intros [= _ <-]; reflexivity|exact Hgo|exact Hgo].
Qed.

Lemma staying_drop_cache path : staying (run_st (modify (fun h => h_set_cache (delete path (prefsCache_ h)) h))).
Proof. by apply staying_st. Qed.

Lemma staying_read {A} (k : Helper -> SO Helper A) : (forall h, staying (k h)) -> staying (h ← run_st get; k h).
Proof. intros Hk. apply staying_bind; [by apply staying_st|done]. Qed.

Lemma staying_del path : staying (DeletePreferences path).
Proof.
  unfold DeletePreferences. case_match; [apply staying_ret|]. apply staying_bind.
  - unfold DeletePreferencesCache. apply staying_read. intros h. destruct (prefsCache_ h !! _) as [[pref b]|]; [|apply staying_ret].
    apply staying_bind.
    + destruct pref; [|apply staying_ret]. apply staying_bind; [apply staying_close|intros; apply staying_ret].
    + intros [name c]. apply staying_bind; [|intros; apply staying_ret]. case_match; [apply staying_drop_cache|apply staying_ret].
  - intros [name c]. case_match; [apply staying_ret|apply staying_env].
Qed.

Lemma staying_rem path : staying (RemovePreferencesFromCache path).
Proof.
  unfold RemovePreferencesFromCache. case_match; [apply staying_ret|]. apply staying_read. intros h.
  destruct (prefsCache_ h !! _) as [[pref b]|]; [|apply staying_ret]. apply staying_bind.
  - destruct pref as [r|]; [|apply staying_ret]. destruct b.
    + intros h1 a h2 E%cast_CloseDb_virtual. by apply (staying_close true r) in E.
    + apply staying_bind; [apply (staying_close false)|intros; apply staying_ret].
  - intros c. case_match; [apply staying_ret|]. apply staying_bind; [apply staying_drop_cache|intros; apply staying_ret].
Qed.

Lemma staying_helper o : staying (helper_exec gskvEnabled o).
Proof.
  destruct o; cbn [helper_exec]; [apply staying_get|..]; apply staying_bind; try (intros; apply staying_ret);
    [apply staying_del|apply staying_rem].
Qed.

Lemma staying_object r c : staying (object_call r c).
Proof. destruct c; (apply staying_bind; [apply staying_virtual|intros; apply staying_ret]). Qed.

(** What the calls of the factory and those of objects keep, a call keeps. *)
Lemma p_call_keeps (R : relation Helper) `{!Reflexive R} c s x :
  (forall o h a h', helper_exec gskvEnabled o h = Done (a, h') -> R h h') ->
  (forall r c h a h', object_call r c h = Done (a, h') -> R h h') ->
  p_call c s = Done (tt, x) -> R (factory s) (factory x).
Proof.
  intros Hf Ho. destruct c as [o|r c|r]; cbn [p_call].
  - unfold on_factory, mbind, so_bind, outcome_bind. destruct (helper_exec gskvEnabled o (factory s)) as [[[pref code] h]| | |] eqn:E; [|done..].
    intros [= <-]. specialize (Hf _ _ _ _ E). by destruct pref.
  - rewrite so_bind_st. cbn [get fst snd]. case_decide; [|done]. unfold on_factory, mbind, outcome_bind.
    destruct (object_call r c (factory s)) as [[[] h]| | |] eqn:E; [|done..]. intros [= <-]. by eapply Ho.
  - by intros [= <-].
Qed.

Lemma runs_remains alive rt h : remains h (h_runs alive rt h).2.
Proof.
  destruct rt as [r t]. unfold h_runs. cbn [fst snd]. destruct (objects h !! r) as [[p|e]|] eqn:Er; [| |reflexivity].
  - destruct t as [t|t]; [|reflexivity]. unfold run_xml. destruct (run_task _ t _) as [c p'].
    by apply (remains_insert _ _ r (PXml p) (PXml p')).
  - cbn zeta. set (e' := snd (_ (e_set_base _ e))). by apply (remains_insert _ _ r (PEnhance e) (PEnhance e')).
Qed.

Lemma drained_remains h : remains h (h_drained h).
Proof.
  intros r o Ho. exists (pref_drained o). cbn. rewrite lookup_fmap, Ho. split; [done|by destruct o].
Qed.
(** What the calls and the closures keep of the factory, a run keeps. *)
Lemma p_run_keeps (R : relation Helper) `{!PreOrder R} bs (r r' : Runtime) :
  (forall o h a h', helper_exec gskvEnabled o h = Done (a, h') -> R h h') ->
  (forall r c h a h', object_call r c h = Done (a, h') -> R h h') ->
  (forall alive rt h, R h (h_runs alive rt h).2) -> (forall h, R h (h_drained h)) ->
  r_ok r -> r_run bs r = Done (tt, r') -> R (factory (object r)) (factory (object r')).
Proof.
  intros Hf Ho Hr Hd Hok E. set (R' := fun s s' => R (factory s) (factory s')).
  assert (PreOrder R') by (split; [intros s; unfold R'; reflexivity|intros s1 s2 s3; unfold R'; apply transitivity]).
  apply (r_run_keeps R') with (bs := bs); [..|done|done].
  - intros c s x. by apply p_call_keeps; [apply _|..].
  - intros rt s. apply Hr.
  - intros s. apply Hd.
Qed.

Lemma run_remains bs (r r' : Runtime) : r_ok r -> r_run bs r = Done (tt, r') -> remains (factory (object r)) (factory (object r')).
Proof.
  apply p_run_keeps; [apply _|exact staying_helper|exact staying_object|exact runs_remains|exact drained_remains].
Qed.

(** ** A new object asks for its load *)

Definition same_objects {A} (m : SO Helper A) : Prop := forall h a h', m h = Done (a, h') -> objects h' = objects h.

Lemma same_objects_env {A} (m : ST Env A) : same_objects (run_st (h_on_env m)).
Proof. intros h a h'. unfold run_st, h_on_env. destruct (m (h_env h)) as [b e]. by intros [= _ <-]. Qed.

Lemma same_objects_st {A} (m : ST Helper A) : (forall h, objects (m h).2 = objects h) -> same_objects (run_st m).
Proof. intros Hm h a h' [= E]. specialize (Hm h). by rewrite E in Hm. Qed.

Lemma same_objects_bind {A B} (m : SO Helper A) (k : A -> SO Helper B) : same_objects m -> (forall a, same_objects (k a)) -> same_objects (m ≫= k).
Proof.
  intros Hm Hk h b h'. unfold mbind, so_bind. destruct (m h) as [[a h1]| | |] eqn:E; [|done..].
  intros E'. rewrite (Hk _ _ _ _ E'). by eapply Hm.
Qed.

Lemma same_objects_ret {A} (a : A) : same_objects (mret a).
Proof. by intros h a' h' [= _ <-]. Qed.

(** Where the result is good, each new object over a file waits for its load. *)
Definition loads_new {A} (good : A -> Prop) (m : SO Helper A) : Prop := forall h a h', m h = Done (a, h') -> good a ->
  forall i p, objects h !! i = None -> objects h' !! i = Some (PXml p) -> LoadTask ∈ tasks_ (base_ p).

Lemma loads_new_same {A} (good : A -> Prop) (m : SO Helper A) : same_objects m -> loads_new good m.
Proof. intros Hm h a h' E _ i p Hn Hi. rewrite (Hm _ _ _ E) in Hi. congruence. Qed.

Lemma loads_new_after {A B} (good : B -> Prop) (m : SO Helper A) (k : A -> SO Helper B) :
  same_objects m -> (forall a, loads_new good (k a)) -> loads_new good (m ≫= k).
Proof.
  intros Hm Hk h b h'. unfold mbind, so_bind. destruct (m h) as [[a h1]| | |] eqn:E; [|done..].
  intros E' Hb i p Hn. eapply Hk; [exact E'|done|by rewrite (Hm _ _ _ E)].
Qed.

Lemma loads_new_before {A B} (good : A -> Prop) (good' : B -> Prop) (m : SO Helper A) (k : A -> SO Helper B) :
  loads_new good m -> (forall a, same_objects (k a)) -> (forall a h b h', k a h = Done (b, h') -> good' b -> good a) ->
  loads_new good' (m ≫= k).
Proof.
  intros Hm Hk Hg h b h'. unfold mbind, so_bind. destruct (m h) as [[a h1]| | |] eqn:E; [|done..].
  intros E' Hb i p Hn Hi. rewrite (Hk _ _ _ _ E') in Hi. by eapply (Hm _ _ _ E); [eapply Hg|..].
Qed.

Definition opened_ok (r : Z * bool * option positive) : Prop := r.1.1 = E_OK.

Lemma open_xml_loads options : loads_new opened_ok (open_xml options).
Proof.
  intros h [[code flag] pref] h'. unfold open_xml. rewrite so_bind_st, so_bind_st, so_bind_st. cbn [get fst snd alloc].
  intros [= <- <- <- <-] Hok i p Hn. unfold opened_ok in Hok. cbn [fst] in Hok. revert Hok. unfold run_xml, Init, StartLoadFromDisk, mbind, st_bind, modify, gets, mret, st_ret.
  cbn. destruct (taskAccepted _); [|done]. cbn. intros _ Hi. apply lookup_insert_Some in Hi as [[_ Hi]|[Hne Hi]]; [injection Hi as <-; left|].
  apply lookup_insert_Some in Hi as [[Heq _]|[_ Hl]]; [done|congruence].
Qed.

Lemma open_enhance_loads options : loads_new opened_ok (open_enhance options).
Proof.
  intros h r h'. unfold open_enhance. rewrite so_bind_st, so_bind_st. cbn [get fst snd alloc]. unfold run_enhance.
  unfold mbind, so_bind, outcome_bind. destruct (Enh_Init _) as [[c e']| | |]; [|done..].
  intros [= _ <-] _ i p Hn. cbn. intros [[_ ?]|[_ [[_ ?]|[_ ?]]%lookup_insert_Some]]%lookup_insert_Some; congruence.
Qed.

Lemma GetPreferencesInner_loads options : loads_new opened_ok (GetPreferencesInner gskvEnabled options).
Proof.
  assert (Hret : forall r, loads_new opened_ok (mret r)) by (intros r; apply loads_new_same, same_objects_ret).
  unfold GetPreferencesInner. repeat case_match;
    (apply loads_new_after; [apply same_objects_env|intros ex; repeat case_match; first [apply open_xml_loads|apply open_enhance_loads|apply Hret]]).
Qed.

Definition got (res : option positive * Z) : Prop := res.2 = E_OK.

Lemma open_new_loads options path : loads_new got (open_new gskvEnabled options path).
Proof.
  unfold open_new. apply loads_new_after; [apply same_objects_env|intros r]. apply loads_new_after; [by apply same_objects_st|intros h].
  apply loads_new_after.
  { case_match; [|apply same_objects_ret]. apply same_objects_bind; [by apply same_objects_st|intros []].
    case_match; [apply same_objects_ret|apply same_objects_env]. }
  intros []. eapply (loads_new_before opened_ok); [apply GetPreferencesInner_loads|..].
  - intros [[code flag] pref]. case_match; [apply same_objects_ret|]. apply same_objects_bind; [by apply same_objects_st|intros []; apply same_objects_ret].
  - intros [[code flag] pref] h1 b h2. destruct (Z.eqb_spec code E_OK) as [->|Hne]; cbn [negb]; [done|]. by intros [= <- _].
Qed.

Lemma GetPreferences_loads options : loads_new got (GetPreferences gskvEnabled options).
Proof.
  assert (Hret : forall r, loads_new got (mret r)) by (intros r; apply loads_new_same, same_objects_ret).
  unfold GetPreferences. case_match; [apply Hret|]. apply loads_new_after; [by apply same_objects_st|intros h].
  destruct (prefsCache_ h !! _) as [[[pre|] b]|]; [apply Hret| |apply open_new_loads].
  apply loads_new_after; [by apply same_objects_st|intros []; apply open_new_loads].
Qed.

Lemma LoadFromDisk_loaded p : loaded_ (LoadFromDisk p).2 = true.
Proof.
  unfold LoadFromDisk, mbind at 1, st_bind at 1, get. destruct (loaded_ p) eqn:El; [exact El|].
  unfold mbind, st_bind, modify, mret, st_ret. repeat (case_match; try done).
Qed.
Lemma process_ok_made s : p_posted s = [] -> r_ok (runtime_of s : Runtime).
Proof. intros Hh. by apply (r_ok_new (K := PCall)). Qed.

(** A call of the factory that succeeds is a call of the process, which holds
    what it gets. *)
Lemma p_call_get options s pref code x : GetPreferences gskvEnabled options (factory s) = Done ((pref, code), x) ->
  p_call (PFactory (HGet options)) s = Done (tt, hold pref (mkProc x (held s) (owners s))).
Proof.
  intros E. cbn [p_call helper_exec]. unfold on_factory, mbind, so_bind, outcome_bind. by rewrite E.
Qed.

(** The load of an object. *)
Definition load_of (i : positive) : positive * PTask := (i, inl LoadTask).

(** ** Properties *)

(** C12: What any object hands to the executors is run: in any state that the
    process reaches, let a call of the application post closures and let
    anything happen ([bs0]) until the delay of one of them is over and no call
    of its pool is in flight; then a number of steps of the pool's scheduler,
    six for each task that is queued and six more, is enough for the pool to
    have handed the closure out and for it to have been run, among the others,
    whatever the application calls, on any object that it has a pointer to, and
    the closures of other objects do meanwhile ([bs]), as long as it is defined.
    To be run is to work on its object; the closure of [Flush] and the one of
    the report on objects, which have only a weak pointer, work on the object if
    the application, the cache of the factory or a closure that is still to run
    has a pointer to it at that moment, and do nothing otherwise. *)
Theorem process_closure_runs (h0 : Proc) (as_ bs0 bs : list RAction) (r : Runtime) (c : PCall) (x : Proc) (rt : positive * PTask)
    (Hnew : p_posted h0 = []) (Hrun : r_run as_ (runtime_of h0) = Done (tt, r))
    (Hcall : p_call c (object r) = Done (tt, x)) (Hpost : rt ∈ p_posted x) :
  exists r1, r_step (RCall c) r = Done (tt, r1) /\ forall r2 r3, r_run bs0 r1 = Done (tt, r2) -> r_run bs r2 = Done (tt, r3) ->
    calls (sys (lane_of (place rt) r2)) = [] ->
    clock (sys (lane_of (place rt) r)) + delay rt <= clock (sys (lane_of (place rt) r2)) ->
    (forall y, scheduler_ (sys (lane_of (place rt) r2)) = Some y ->
       (enough_steps (lane_of (place rt) r2) <= r_steps_of (place rt) y bs)%nat) ->
    runs_in rt (bs0 ++ bs) r1.
Proof.
  destruct (r_run_ok as_ _ r (process_ok_made h0 Hnew) Hrun) as [Hr _]. destruct (r_step_call c r x Hr Hcall) as (r1 & E1 & _).
  exists r1. split; [done|]. intros r2 r3 E2 E3. by apply (posted_runs c rt bs0 bs r x r1 r2 r3).
Qed.

(** C14: Every object that is opened gets loaded, so that no call waits for it for
    ever: when the factory makes a new object over a file, then from any later
    moment at which no call of the task processor's pool is in flight (no thread
    is inside [Execute] or [Schedule]), six steps of the scheduler of that pool
    for each task that is queued there and six more are enough for a moment to
    have come at which the object is loaded, whatever the application calls, on
    any object, and the closures of other objects do before and meanwhile, as
    long as it is defined. *)
Theorem opened_object_is_loaded (h0 : Proc) (as_ bs0 bs : list RAction) (r : Runtime) (options : Options) (x : Helper) (i : positive)
    (p : PreferencesImpl) (Hnew : p_posted h0 = []) (Hrun : r_run as_ (runtime_of h0) = Done (tt, r))
    (Hget : GetPreferences gskvEnabled options (factory (object r)) = Done ((Some i, E_OK), x))
    (Hfresh : objects (factory (object r)) !! i = None) (Hxml : objects x !! i = Some (PXml p)) :
  exists r1, r_step (RCall (PFactory (HGet options))) r = Done (tt, r1) /\
    forall r2 r3, r_run bs0 r1 = Done (tt, r2) -> r_run bs r2 = Done (tt, r3) ->
    calls (sys (processor_ r2)) = [] ->
    (forall y, scheduler_ (sys (processor_ r2)) = Some y -> (enough_steps (processor_ r2) <= r_steps_of Processor y bs)%nat) ->
    exists bs1 bs2 r', bs0 ++ bs = bs1 ++ bs2 /\ r_run bs1 r1 = Done (tt, r') /\
      exists p', objects (factory (object r')) !! i = Some (PXml p') /\ loaded_ p' = true.
Proof.
  destruct (r_run_ok as_ _ r (process_ok_made h0 Hnew) Hrun) as [Hr _]. set (c := PFactory (HGet options)).
  set (s := hold (Some i) (mkProc x (held (object r)) (owners (object r)))).
  assert (Hcall : p_call c (object r) = Done (tt, s)) by (by apply (p_call_get _ _ _ E_OK)).
  pose proof (GetPreferences_loads options _ _ _ Hget eq_refl i p Hfresh Hxml) as Hload.
  assert (Hpost : load_of i ∈ p_posted s).
  { apply (p_posted_in x i (PXml p)); [done|]. apply list_elem_of_fmap. by exists LoadTask. }
  destruct (r_step_call c r s Hr Hcall) as (r1 & E1 & Hr1 & Ho1 & Hg1 & _). exists r1. split; [done|]. intros r2 r3 E2 E3 Hc Hy.
  destruct (posted_runs c (load_of i) bs0 bs r s r1 r2 r3 Hr Hcall Hpost E1 E2 E3 Hc) as (bs1 & b & bs2 & r4 & r5 & Eq & E4 & E5 & _ & Ho);
    [|exact Hy|].
  { destruct (r_run_ok bs0 r1 r2 Hr1 E2) as [_ Hla]. pose proof (la_clock _ _ (Hla Processor)) as Hclk.
    rewrite (gr_clock _ _ (Hg1 Processor)) in Hclk. by rewrite Z.add_0_r. }
  exists (bs1 ++ [b]), bs2, r5. split; [by rewrite <- app_assoc|].
  split; [apply r_run_app; exists r4; split; [done|]; apply r_run_cons; by exists r5|].
  assert (Hrem : remains x (factory (object r4))).
  { etrans; [apply drained_remains|]. change (h_drained x) with (factory (drained s)). rewrite <- Ho1. by apply (run_remains bs1). }
  destruct (Hrem i (PXml p) Hxml) as (o & Hi & He). destruct o as [p4|]; [|done].
  assert (Ho5 : object r5 = p_drained (p_runs (load_of i) (object r4)).2) by exact Ho.
  rewrite Ho5. unfold p_runs, h_runs. cbn [load_of fst snd]. rewrite Hi. unfold run_xml.
  pose proof (LoadFromDisk_loaded (upd_base (set_env (h_env (factory (object r4))) (base_ p4)) p4)) as Hl. cbn [run_task].
  destruct (LoadFromDisk _) as [[] p5]. exists (no_tasks p5). cbn. by rewrite lookup_fmap, lookup_insert_eq.
Qed.
End Process.

(** ** Concrete runs *)

(** The opening of a store: its object hands its load to the task processor. *)
#[local] Instance w_client : Client Proc (positive * PTask) PCall := process_client 100 true.

(** A process that has done nothing yet. *)
Definition new_process (h : Helper) : Proc := mkProc h ∅ [].
Definition w_process : Runtime Proc (positive * PTask) := runtime_of (new_process (w_helper "")).
Definition w_proc_opened : Proc := mkProc w_opened {[2%positive]} [].
Definition w_get : PCall := PFactory (HGet w_options).
Definition w_get_bs0 : list (RAction PCall) := replicate 2 (RPool Processor (ICall 0)).
Definition w_get_bs : list (RAction PCall) := replicate 12 (RPool Processor (IThread 1)).

Lemma w_get_call : p_call 100 true w_get (object w_process) = Done (tt, w_proc_opened).
Proof. apply (p_call_get 100 true w_options (new_process (w_helper "")) _ _ _ w_open). Qed.

(** What the theorems ask for, in the run of the pools. *)
Lemma w_get_runs r1 : r_step (RCall w_get) w_process = Done (tt, r1) ->
  exists r2 r3, r_run w_get_bs0 r1 = Done (tt, r2) /\ r_run w_get_bs r2 = Done (tt, r3) /\
    calls (sys (processor_ r2)) = [] /\ clock (sys (processor_ r2)) = 0 /\
    forall y, scheduler_ (sys (processor_ r2)) = Some y -> (enough_steps (processor_ r2) <= r_steps_of Processor y w_get_bs)%nat.
Proof.
  intros E1. assert (Hr : r_ok w_process) by (by apply (process_ok_made 100 true)).
  destruct (r_step_ok _ _ _ Hr E1) as [Hr1 _]. destruct (r_run_inside w_get_bs0 r1 Hr1) as [r2 E2]; [repeat constructor|].
  destruct (r_run_ok _ _ _ Hr1 E2) as [Hr2 _]. destruct (r_run_inside w_get_bs r2 Hr2) as [r3 E3]; [repeat constructor|].
  destruct (lane_after_run Processor _ _ _ _ _ ([], 0, Some 1%positive, 12%nat) E1 E2 ltac:(vm_compute; reflexivity)) as (Hc & Ht & Hx & Hn).
  cbn [lane_of fst snd] in *. exists r2, r3. split_and!; [done..|]. intros y. rewrite Hx, Hn. intros [= <-]. by vm_compute.
Qed.

Example process_closure_runs_witness :
  exists r1, r_step (RCall w_get) w_process = Done (tt, r1) /\ runs_in (load_of 2) (w_get_bs0 ++ w_get_bs) r1.
Proof.
  destruct (process_closure_runs 100 true (new_process (w_helper "")) [] w_get_bs0 w_get_bs w_process w_get w_proc_opened (load_of 2)) as (r1 & E1 & H).
  - reflexivity.
  - reflexivity.
  - exact w_get_call.
  - vm_compute. left.
  - destruct (w_get_runs r1 E1) as (r2 & r3 & E2 & E3 & Hc & Ht & Hy). exists r1. split; [exact E1|].
    apply (H r2 r3 E2 E3 Hc); [|exact Hy]. change (0 + 0 <= clock (sys (processor_ r2))). rewrite Ht. discriminate.
Defined.

Example opened_object_is_loaded_witness :
  exists r1 bs1 r' p', r_step (RCall w_get) w_process = Done (tt, r1) /\ r_run bs1 r1 = Done (tt, r') /\
    objects (factory (object r')) !! 2%positive = Some (PXml p') /\ loaded_ p' = true.
Proof.
  destruct (opened_object_is_loaded 100 true (new_process (w_helper "")) [] w_get_bs0 w_get_bs w_process w_options w_opened 2%positive _
    eq_refl eq_refl w_open eq_refl eq_refl) as (r1 & E1 & H).
  destruct (w_get_runs r1 E1) as (r2 & r3 & E2 & E3 & Hc & _ & Hy).
  destruct (H r2 r3 E2 E3 Hc Hy) as (bs1 & bs2 & r' & _ & E' & p' & Hi & Hl).
  exists r1, bs1, r', p'. split; [exact E1|]. split; [exact E'|]. split; [exact Hi|exact Hl].
Defined.
