(* ===== verification/ProcessCache.v ===== *)
(** * The cache of the factory while everything runs

    Over [Process]: the cache of the factory is sound in every state of the
    process, with calls on the objects and closures between those of the
    factory.  An object keeps its options, whatever is done with it. *)

From S2P Require Import Prelude Pool TaskQueue ExecutorPool ExecutorPoolStop TaskProcessor PoolSequence Lane Dispatch.
From S2P Require Import Errno Value Utils ConcurrentMap Env FileLock Store DbAdapter Base Impl Enhance Helper Handle Runtime Process.

(** ** What an operation keeps *)

Section kept.
Context {S X : Type} (part : S -> X).

Definition st_keeps {A} (m : ST S A) : Prop := forall s, part (m s).2 = part s.

Lemma st_keeps_bind {A B} (m : ST S A) (k : A -> ST S B) : st_keeps m -> (forall a, st_keeps (k a)) -> st_keeps (m ≫= k).
Proof.
  intros Hm Hk s. unfold mbind, st_bind. specialize (Hm s). destruct (m s) as [a s']. by rewrite (Hk a s').
Qed.

Lemma st_keeps_ret {A} (a : A) : st_keeps (mret a).
Proof. done. Qed.

Lemma st_keeps_get : st_keeps get.
Proof. done. Qed.

Lemma st_keeps_gets {A} (f : S -> A) : st_keeps (gets f).
Proof. done. Qed.

Lemma st_keeps_modify f : (forall s, part (f s) = part s) -> st_keeps (modify f).
Proof. intros Hf s. apply Hf. Qed.
End kept.

Create HintDb keeps.
#[export] Hint Resolve st_keeps_ret st_keeps_get st_keeps_gets : keeps.

(** Follow the operation: its calls by the hints, its own changes by
    computation. *)
Ltac keeps :=
  repeat first
    [ solve [auto with keeps]
    | apply st_keeps_bind; [|intros]
    | apply st_keeps_modify; by intros
    | case_match ].

(** ** Options *)

Definition base_options (b : Base) : Options := options_ b.

Lemma zoom_env_keeps {A} (m : ST Env A) : st_keeps base_options (zoom_env m).
Proof. intros b. unfold zoom_env. by destruct (m (env b)). Qed.

Lemma post_keeps t : st_keeps base_options (post t).
Proof. done. Qed.

#[export] Hint Resolve zoom_env_keeps post_keeps : keeps.

Lemma ReportObjectUsage_keeps v : st_keeps base_options (ReportObjectUsage v).
Proof. unfold ReportObjectUsage. keeps. Qed.

Lemma run_ObjectUsage_keeps alive : st_keeps base_options (run_ObjectUsage alive).
Proof. unfold run_ObjectUsage. keeps. Qed.

Lemma run_Notify_keeps km : st_keeps base_options (run_Notify km).
Proof. unfold run_Notify. keeps. Qed.

Lemma NotifyPreferencesObserver_keeps km w : st_keeps base_options (NotifyPreferencesObserver km w).
Proof. unfold NotifyPreferencesObserver, ExecuteNotifyChange. keeps. Qed.

Lemma RegisterObserver_locked_keeps o mode : st_keeps base_options (RegisterObserver_locked o mode).
Proof. unfold RegisterObserver_locked. keeps. Qed.

Lemma UnRegisterObserver_locked_keeps o mode : st_keeps base_options (UnRegisterObserver_locked o mode).
Proof. unfold UnRegisterObserver_locked. keeps. Qed.

Lemma Enh_Notify_keeps key v : st_keeps base_options (Enh_NotifyPreferencesObserver key v).
Proof. unfold Enh_NotifyPreferencesObserver. keeps. Qed.

#[export] Hint Resolve ReportObjectUsage_keeps run_ObjectUsage_keeps run_Notify_keeps NotifyPreferencesObserver_keeps
  RegisterObserver_locked_keeps UnRegisterObserver_locked_keeps Enh_Notify_keeps : keeps.

Lemma notify_batch_keeps l : st_keeps base_options (notify_batch l).
Proof. induction l as [|[key v] l IH]; cbn [notify_batch]; keeps. Qed.

#[export] Hint Resolve notify_batch_keeps : keeps.

(** ** Objects over the file *)

Section ProcessCache.
Context `{XmlStore} `{SafeBlockQueue} `{KvDb}.
Context (RSIZE_MAX : Z) (gskvEnabled : bool).

Definition impl_options (p : PreferencesImpl) : Options := options_ (base_ p).

Lemma on_base_keeps {A} (m : ST Base A) : st_keeps base_options m -> st_keeps impl_options (on_base m).
Proof. intros Hm p. unfold on_base. specialize (Hm (base_ p)). by destruct (m (base_ p)). Qed.

Lemma on_env_keeps {A} (m : ST Env A) : st_keeps impl_options (on_env m).
Proof. apply on_base_keeps, zoom_env_keeps. Qed.

#[local] Hint Resolve on_base_keeps on_env_keeps : keeps.

Lemma Impl_ReadSettingXml_keeps m : st_keeps impl_options (Impl_ReadSettingXml m).
Proof. unfold Impl_ReadSettingXml, opts. keeps. Qed.

#[local] Hint Resolve Impl_ReadSettingXml_keeps : keeps.

Lemma LoadFromDisk_keeps : st_keeps impl_options LoadFromDisk.
Proof. unfold LoadFromDisk, opts. keeps. Qed.

Lemma ReloadFromDisk_keeps : st_keeps impl_options ReloadFromDisk.
Proof. unfold ReloadFromDisk. keeps. Qed.

#[local] Hint Resolve LoadFromDisk_keeps ReloadFromDisk_keeps : keeps.

Lemma PreLoad_keeps : st_keeps impl_options PreLoad.
Proof. unfold PreLoad. keeps. Qed.

#[local] Hint Resolve PreLoad_keeps : keeps.

Lemma AwaitLoadFile_keeps : st_keeps impl_options AwaitLoadFile.
Proof. unfold AwaitLoadFile. keeps. Qed.

Lemma IsClose_keeps name : st_keeps impl_options (IsClose name).
Proof. unfold IsClose. keeps. Qed.

Lemma WriteToDiskFile_keeps : st_keeps impl_options WriteToDiskFile.
Proof. unfold WriteToDiskFile, opts. keeps. Qed.

#[local] Hint Resolve AwaitLoadFile_keeps IsClose_keeps WriteToDiskFile_keeps : keeps.

Lemma pop_and_write_keeps : st_keeps impl_options pop_and_write.
Proof. unfold pop_and_write. keeps. Qed.

#[local] Hint Resolve pop_and_write_keeps : keeps.

Lemma exec_keeps o : st_keeps impl_options (Impl.exec o).
Proof.
  destruct o; cbn [Impl.exec]; unfold Get, HasKey, GetValue, GetAll, GetAllData, GetAllDatas, Put, Impl.Delete, Impl.Clear; keeps.
Qed.

Lemma Flush_keeps : st_keeps impl_options Flush.
Proof. unfold Flush. keeps. Qed.

Lemma FlushSync_keeps : st_keeps impl_options FlushSync.
Proof. unfold FlushSync. keeps. Qed.

Lemma run_task_keeps alive t : st_keeps impl_options (run_task alive t).
Proof. destruct t; cbn [run_task]; unfold run_Flush; keeps. Qed.
(** ** Objects over the database *)

Lemma keeps_options_ret {A} (a : A) : keeps_options (mret a).
Proof. by intros e a' e' [= _ <-]. Qed.

Lemma keeps_options_out {A} (m : outcome A) : keeps_options (run_out m).
Proof. intros e a e'. unfold run_out. destruct m; by intros [= _ <-]. Qed.

Lemma keeps_options_base {A} (m : ST Base A) : st_keeps base_options m -> keeps_options (run_st (e_on_base m)).
Proof. intros Hm. apply keeps_options_st. intros e. unfold e_on_base. specialize (Hm (e_base e)). by destruct (m (e_base e)). Qed.

Definition enh_options (e : Enhance) : Options := options_ (e_base e).

Lemma on_kv_keeps {A} (m : ST kv A) : st_keeps enh_options (on_kv m).
Proof. intros e. unfold on_kv. by destruct (m (e_kv e)). Qed.

#[local] Hint Resolve on_kv_keeps : keeps.

Lemma find_key_keeps key : keeps_options (run_st (find_key key)).
Proof. apply keeps_options_st. change (st_keeps enh_options (find_key key)). unfold find_key. keeps. Qed.

Lemma cache_large_keeps key n l v : keeps_options (run_st (cache_large key n l v)).
Proof. apply keeps_options_st. intros e. unfold cache_large. by case_match. Qed.

Create HintDb enh.
#[local] Hint Resolve keeps_options_ret keeps_options_out keeps_options_kv keeps_options_drop find_key_keeps cache_large_keeps : enh.

Ltac enh_keeps :=
  repeat first
    [ solve [auto with enh]
    | apply keeps_options_bind; [|intros]
    | apply keeps_options_base; solve [auto with keeps]
    | apply keeps_options_st; by intros
    | apply keeps_options_st; intros; cbn [modify snd]; by case_match
    | case_match ].

Lemma collect_keeps l m : keeps_options (collect l m).
Proof. revert m. induction l as [|[k b] l IH]; intros m; cbn [collect]; enh_keeps. Qed.

#[local] Hint Resolve collect_keeps : enh.

Lemma Enh_GetAllInner_keeps : keeps_options Enh_GetAllInner.
Proof. unfold Enh_GetAllInner. enh_keeps. Qed.

#[local] Hint Resolve Enh_GetAllInner_keeps : enh.

Lemma Enh_exec_keeps o : keeps_options (Enh_exec RSIZE_MAX o).
Proof.
  destruct o; cbn [Enh_exec]; unfold Enh_Get, Enh_HasKey, Enh_GetValue, Enh_GetAll, Enh_GetAllData, Enh_GetAllDatas, Enh_Put, Enh_Delete, Enh_Clear; enh_keeps.
Qed.

(** ** Calls and closures *)

Lemma virtual_steps {A} r (xml : ST PreferencesImpl A) (enhance : SO Enhance A) :
  st_keeps impl_options xml -> keeps_options enhance -> steps (virtual r xml enhance).
Proof.
  intros Hx He h a h'. unfold virtual. rewrite so_bind_st. cbn [get fst snd]. destruct (objects h !! r) as [[p|e]|] eqn:Er; [| |done].
  - unfold run_st, run_xml. specialize (Hx (upd_base (set_env (h_env h) (base_ p)) p)). destruct (xml _) as [c p'].
    intros [= _ <-]. apply (hstep_update _ _ r (PXml p) (PXml p')); done.
  - intros E. by eapply run_enhance_step.
Qed.

Lemma zoom_base_keeps {A} (m : ST Base A) : st_keeps base_options m -> st_keeps impl_options (zoom_base m).
Proof. intros Hm p. unfold zoom_base. cbn [base set_base Impl_object]. specialize (Hm (base_ p)). by destruct (m (base_ p)). Qed.

Lemma zoom_base_own_keeps {A} (m : ST Base A) : st_keeps base_options m -> st_keeps base_options (zoom_base m).
Proof. intros Hm b. unfold zoom_base. cbn [base set_base Base_object]. specialize (Hm b). by destruct (m b). Qed.

#[local] Hint Resolve IsClose_keeps zoom_base_keeps zoom_base_own_keeps exec_keeps Flush_keeps FlushSync_keeps : keeps.
#[local] Hint Resolve AwaitLoadFile_keeps : keeps.

Lemma steps_unit {A} (m : SO Helper A) : steps m -> steps (_ ← m; mret tt).
Proof. intros Hm. apply steps_bind; [done|intros a; apply steps_ret]. Qed.

Lemma object_call_steps r c : steps (object_call RSIZE_MAX r c).
Proof.
  destruct c as [o| | |o mode|o mode]; cbn [object_call]; apply steps_unit.
  - apply virtual_steps; [auto with keeps|apply Enh_exec_keeps].
  - apply virtual_steps; [auto with keeps|by apply keeps_options_base].
  - apply virtual_steps; [auto with keeps|by apply keeps_options_base].
  - apply virtual_steps; [|apply keeps_options_base]; unfold RegisterObserver; cbn [v_IsClose Impl_object Base_object]; unfold Base_IsClose; keeps.
  - apply virtual_steps; [|apply keeps_options_base]; unfold UnRegisterObserver; cbn [v_IsClose Impl_object Base_object]; unfold Base_IsClose; keeps.
Qed.

Lemma base_closure_keeps alive t : st_keeps base_options (base_closure alive t).
Proof. destruct t; cbn [base_closure]; keeps. Qed.

Lemma run_etask_keeps t e : options_ (e_base (run_etask t e).2) = options_ (e_base e).
Proof.
  destruct t; cbn [run_etask]; unfold e_on_base.
  - pose proof (Enh_Notify_keeps key value (e_base e)) as Hk. by destruct (Enh_NotifyPreferencesObserver _ _ _).
  - pose proof (notify_batch_keeps (map_to_list allData) (e_base e)) as Hk. unfold NotifyPreferencesObserverBatchKeys.
    by destruct (notify_batch _ _).
Qed.

Lemma runs_step alive rt h : hstep h (h_runs alive rt h).2.
Proof.
  destruct rt as [r t]. unfold h_runs. cbn [fst snd]. destruct (objects h !! r) as [[p|e]|] eqn:Er; [| |reflexivity].
  - destruct t as [t|t]; [|reflexivity]. unfold run_xml.
    pose proof (run_task_keeps alive t (upd_base (set_env (h_env h) (base_ p)) p)) as Hk. destruct (run_task alive t _) as [c p'].
    apply (hstep_update _ _ r (PXml p) (PXml p')); done.
  - cbn zeta. set (e' := snd (_ (e_set_base _ e))). apply (hstep_update _ _ r (PEnhance e) (PEnhance e')); [done| |done|done].
    split; [done|]. cbn [pref_options]. unfold e'. clear e'. destruct t as [t|t].
    + unfold e_on_base. pose proof (base_closure_keeps alive t (set_env (h_env h) (e_base e))) as Hk. cbn [e_base e_set_base].
      by destruct (base_closure alive t _).
    + by rewrite run_etask_keeps.
Qed.

Lemma drained_step h : hstep h (h_drained h).
Proof.
  split; [|done]. intros r o Ho. exists (pref_drained o). cbn. rewrite lookup_fmap, Ho. split; [done|]. by destruct o.
Qed.

#[local] Instance impl_preorder : PreOrder (fun h h' => cache_inv h -> cache_inv h').
Proof. split; [by intros h|]. intros h1 h2 h3 H12 H23 Hh. auto. Qed.

(** ** Properties *)

#[local] Instance cache_client : Client Proc (positive * PTask) PCall := process_client RSIZE_MAX gskvEnabled.

(** C10: The cache of the factory is sound in every state that the process
    reaches: whatever calls on the factory and on any objects, closures and
    steps of the pools have been made, in any order, every entry holds an object
    that exists, is of the class that the entry's flag names (so the static
    casts of the closing paths are right) and was opened on the entry's path; in
    particular no two paths share an object. *)
Theorem process_cache_sound (s : Proc) (as_ : list (RAction PCall)) (r : Runtime Proc (positive * PTask))
    (Hempty : prefsCache_ (factory s) = ∅) (Hnew : p_posted s = []) (Hrun : r_run as_ (runtime_of s) = Done (tt, r)) :
  (forall path entry, prefsCache_ (factory (object r)) !! path = Some entry ->
    exists i o, entry = (Some i, is_enhance o) /\ objects (factory (object r)) !! i = Some o /\ filePath (pref_options o) = path) /\
  (forall path path' i b b', prefsCache_ (factory (object r)) !! path = Some (Some i, b) ->
    prefsCache_ (factory (object r)) !! path' = Some (Some i, b') -> path = path').
Proof.
  assert (Hinv : cache_inv (factory (object r))).
  { refine (p_run_keeps RSIZE_MAX gskvEnabled (fun h h' => cache_inv h -> cache_inv h') as_ _ r _ _ _ _
      (process_ok_made RSIZE_MAX gskvEnabled s Hnew) Hrun _).
    - intros o h a h' E Hh. by eapply helper_exec_inv.
    - intros i c h a h' E. apply cache_inv_step. by eapply object_call_steps.
    - intros alive rt h. apply cache_inv_step, runs_step.
    - intros h. apply cache_inv_step, drained_step.
    - intros path entry. cbn. by rewrite Hempty, lookup_empty. }
  split; [exact Hinv|]. intros path path' i b b' (r1 & o1 & E1 & Ho1 & <-)%Hinv (r2 & o2 & E2 & Ho2 & <-)%Hinv. congruence.
Qed.
End ProcessCache.

(** A store that has been opened and loaded. *)
#[local] Instance w_cache_client : Client Proc (positive * PTask) PCall := process_client 100 true.

Example process_cache_sound_witness : exists r i o,
  r_run (RCall w_get :: w_get_bs0 ++ w_get_bs) w_process = Done (tt, r) /\
  prefsCache_ (factory (object r)) !! filePath w_options = Some (Some i, is_enhance o) /\ objects (factory (object r)) !! i = Some o /\
  filePath (pref_options o) = filePath w_options.
Proof.
  assert (Hr : r_ok w_process) by (by apply (process_ok_made 100 true)).
  destruct (r_step_call w_get w_process w_proc_opened Hr w_get_call) as (r1 & E1 & Hr1 & _).
  destruct (w_get_runs r1 E1) as (r2 & r3 & E2 & E3 & _).
  assert (E : r_run (RCall w_get :: w_get_bs0 ++ w_get_bs) w_process = Done (tt, r3)).
  { apply r_run_cons. exists r1. split; [exact E1|]. apply r_run_app. by exists r2. }
  destruct (process_cache_sound 100 true (new_process (w_helper "")) (RCall w_get :: w_get_bs0 ++ w_get_bs) r3 eq_refl eq_refl E) as [H _].
  assert (Hc : match r_run (RCall w_get :: w_get_bs0 ++ w_get_bs) w_process with
    | Done (_, r) => prefsCache_ (factory (object r)) !! filePath w_options | _ => None end = Some (Some 2%positive, false)) by (vm_compute; reflexivity).
  rewrite E in Hc. destruct (H _ _ Hc) as (i & o & Eq & Ho & Hf). exists r3, i, o.
  split; [exact E|]. split; [by rewrite Hc, Eq|]. split; [exact Ho|exact Hf].
Defined.

